(* ===== verification/_CoqProject ===== *)
-Q . S2P
Prelude.v
Stream.v
NmSha256.v
NmAes.v
NmParams.v
NmFloat.v
NmVm.v
NmHash.v
NmCtx.v
NmCapi.v
Reciprocal.v
Blake2b.v
MdHelper.v
Sha2.v
WhirlpoolPlain.v
WhirlpoolOld0.v
WhirlpoolOld1.v
Whirlpool.v
Keccak.v
SphCore.v
Cubehash.v
SphBlake.v
GroestlTab.v
Groestl.v
Jh.v
Skein.v
Shabal.v
Luffa.v
Bmw.v
CnJh.v
CnGroestl.v
CnSkein.v
CnKeccak.v
CnAes.v
AesHelper.v
Echo.v
Shavite.v
CnBlake.v
CryptoNight.v
CnLanes.v
CnLocal.v
CnSpec.v
CnExtra.v
CnCorrect.v
CnLoop.v
CnHash.v
GrCores.v
GhostRider.v
GrSelect.v
GrCorrect.v
GrCapi.v
