(* ===== verification/Prelude.v ===== *)
(** * ARC-miner: the native hashing cores

    ** The program

    ARC-miner is a managed (C#) miner over native hashing cores.  The cores are
    the part whose results must be exact: a share is valid only if the digest is
    the one every other node computes.  This library models the code of those
    cores under [src/native/randomx-xmrig/]:
    - NeuroMorph ([crypto/nm/]): SHA-256, AES-128, the parameters derived from an
      epoch seed, a virtual machine that runs a generated program over a 2 MiB
      scratchpad and a 64 MiB dataset, and the contexts that own those buffers;
      [neuromorph_capi.cpp] gives the managed side workers that share one dataset;
    - GhostRider ([crypto/ghostrider/]): fifteen 512-bit hashes (the [sph_*]
      files, some over the template [md_helper.c]) and six CryptoNight variants
      ([crypto/cn/]), chained by [hash_octa] for eight lanes in an order taken from
      the header; [ghostrider_capi.cpp] creates and drives the workers;
    - RandomX ([crypto/randomx/]): the C routines its machine calls, reciprocals
      for division by constants and BLAKE2b with Argon2's variable-length hash.

    ** The files

    Shared:
    - [Prelude] (this file): machine words as [Z] with their wrap-around, bit
      operations, arrays as lists, byte orders ([gather], [le_load], [be_store],
      ...), loops over arrays, the [words] hint database and the [bitwise] tactic.
    - [Stream]: the abstract specification of a streaming hash, a machine that
      absorbs one byte at a time ([absorb]; [lazy] when the last full block waits).
      Update functions of the components are proved to refine it.

    NeuroMorph:
    - [NmSha256] ([nm_sha256.h]): context, block function, update, padding; the
      definition of FIPS 180-4 ([fips_compress], [sha256_spec]), which shares
      nothing with the code.
    - [NmAes] ([nm_aes.h]): key expansion, the portable cipher and the two AES-NI
      paths; the instructions AESENC and AESENCLAST are operations of the class
      [AesNi] with the documented behaviour as [AesNiLaws].
    - [NmParams] ([nm_params.c]): [nm_derive_params] and the weighted opcode table.
    - [NmFloat]: C doubles as IEEE-754 binary64 ([SpecFloat]).  The payload of a
      NaN is not modelled: copying a NaN to an integer is a fault, and
      [nm_hash_total] shows that it never happens.
    - [NmVm] ([nm_neuromorph.c]): AES-CTR expansion, program generation, the
      instructions ([exec_op]), the interpreter ([run_program]), one loop with its
      dataset reads and scratchpad mixing ([one_loop]), the digest ([nm_hash]).
      Accesses at computed addresses are checked and return [None] out of range.
    - [NmHash]: the theorems about [nm_hash] and the dataset.
    - [NmCtx] ([nm_neuromorph.c]): a heap with failing allocations, pointers as
      block numbers, double [free] and dangling accesses as [None]; every
      [nm_ctx_*] function; sequences of calls as the relation [reach].
    - [NmCapi] ([neuromorph_capi.cpp]): the process (the shared dataset and its
      state, the workers), every exported function, self test included; histories
      of calls as the relation [run].

    RandomX: [Reciprocal] ([reciprocal.c]), both versions; [Blake2b] ([blake2b.c]),
    every function, error returns included.

    The hashes of GhostRider ([crypto/ghostrider/]):
    - [MdHelper] ([md_helper.c]): the template; its macros are the record [md_cfg],
      the block function a section variable.  [Sha2] ([sph_sha2.c]): the unrolled
      compression function, transcribed statement by statement, the transforms,
      both digests, [sha256d].  [WhirlpoolPlain], [WhirlpoolOld0],
      [WhirlpoolOld1]: the 24 tables; [Whirlpool] ([sph_whirlpool.c]).
    - [Keccak] ([sph_keccak.c]): all seven degrees of unrolling, 64-bit build.
    - [SphCore]: the buffering that the other [sph_*] files repeat ([sph_core],
      [loop_core]), refined once to [Stream].
    - [Cubehash], [SphBlake], [GroestlTab] and [Groestl], [Jh], [Skein],
      [Shabal], [Luffa], [Bmw], [Echo], [Shavite]: one [sph_*.c] each, all digest
      sizes and build options of the 64-bit builds, with the published definition
      beside the code; [AesHelper] ([aes_helper.c]): the tables of ECHO and SHAvite.

    CryptoNight ([crypto/cn/], [base/crypto/keccak.cpp]):
    - [CnJh], [CnGroestl], [CnSkein], [CnBlake]: the four finalisers ([c_jh.c],
      [c_groestl.c], [c_skein.c], [c_blake256.c]); [CnKeccak], [CnAes]
      ([soft_aes.h], the instructions as classes with laws).
    - [CryptoNight]: the algorithm table, [cryptonight_single_hash] up to
      [cryptonight_quad_hash] over one memory, with hardware and software AES.
    - [CnLanes], [CnLocal], [CnLoop]: lanes do not disturb one another; [CnSpec]:
      the reference for one lane; [CnExtra]: the finalisers discharge the interface
      [ExtraHashes]; [CnCorrect], [CnHash]: the refinement.

    The driver:
    - [GrCores]: the fifteen core hashes ([CORE_HASH]) and their references;
      [GhostRider] ([ghostrider.cpp]): [select_indices], [hash_octa];
      [GrSelect], [GrCorrect]: their theorems.
    - [GrCapi] ([ghostrider_capi.cpp], [CnCtx.cpp]): workers, allocation, the
      exported functions, the self test.

    ** What the theorems show

    - NeuroMorph: [nm_hash] always returns a digest, with every access in bounds
      and no NaN copied, for any program the generator can produce; the digest does
      not depend on what the buffers of the worker held before; workers that own a
      dataset and workers that share one agree.  Any allowed sequence of context
      operations keeps the context well formed, and freeing releases exactly what it
      owns, also after a failed allocation.  After any history of exported calls, a
      worker's digest is the one of its seed over the dataset of the last epoch that
      was built, so it is the consensus digest when the epochs agree; the self test
      builds the dataset of its own seed.  The cipher and the key schedule are those
      of FIPS-197, the hash that of FIPS 180-4, for any split of the input.
    - GhostRider: [hash_octa] gives each lane the reference hash, built from the
      published definitions of the core hashes, the reference CryptoNight and the
      order of the half-bytes of the seed, whatever the stack, the scratchpads and
      the contexts held; the exported functions return it and release what they
      allocate, up to the executable memory reported as a finding.
    - Core hashes and finalisers: for every build option and any split of the
      message, with extra bits where the code takes them, the code computes the
      published function: bit-sliced JH equals the nibble definition, table lookups
      equal S-box and matrix, lane-complemented and unrolled Keccak equals the
      sponge, cached and unrolled compressions equal the rolled ones.
    - RandomX: the reciprocal is the documented quotient, the two versions agree;
      BLAKE2b is that of RFC 7693 (keyed, any split), the long hash is Argon2's H'.
    - Defects are theorems: a leak when a worker's creation fails
      ([nm_capi_create_ctx_leaks]), the unreachable length encoding of
      [md_helper.c] ([md_le64_plw4_stale]), the dataset the self test leaves
      ([nm_capi_selftest_verdict]).

    ** Bounds and fuel

    Loops that consume data take its length as fuel: every trip consumes at least
    one byte.  The interpreter of [NmVm] gets 257 trips per instruction, and
    [nm_hash_total] proves that enough: each branch instruction is taken at most
    eight times per loop and goes back at most 31 instructions.  [cn_calls] gets 8
    for 8 lanes.  A bound on the length of messages is a hypothesis only where a
    64-bit counter would not be exact (2^61 bytes for SHA-2 and BLAKE-256; 2^64 for
    JH, Skein and the 256-bit length field of Whirlpool, whose template counts
    bytes in 64 bits).  Uninitialised memory is an argument ([junk]) of the
    functions that read their own stack buffers.

    ** Not modelled

    - [simd512], [hamsi512] and [fugue512] are the class [CoreHashes]: abstract
      functions with digests of 64 bytes.  hamsi is 39,000 lines of generated
      tables.
    - The other CryptoNight variants, and the assembly, VAES and helper-thread
      (HWLOC) versions of the modelled ones; [malloc] is an oracle, and the size of
      a fresh buffer is a hypothesis on its contents.
    - The RandomX virtual machine, its JIT compilers and Argon2's memory filling;
      GPU kernels; the managed miner; vendored libraries; operating-system glue.
    - Builds of the [sph_] hashes for 32-bit machines, and big-endian hosts except
      where a file says so. *)
From stdpp Require Export base list numbers.
From Stdlib Require Export ZArith Lia Bool.
From Stdlib Require Import Btauto.

#[global] Open Scope Z_scope.
Declare Scope word_scope.
Delimit Scope word_scope with W.

(** ** Machine words.  A [w]-bit unsigned integer is a [Z] in [[0, 2^w)]. *)

Definition word (w x : Z) : Prop := 0 <= x < 2 ^ w.

Definition T8 (x : Z) : Z := Z.land x 0xFF.
Definition T16 (x : Z) : Z := Z.land x 0xFFFF.
Definition T32 (x : Z) : Z := Z.land x 0xFFFFFFFF.
Definition T64 (x : Z) : Z := Z.land x 0xFFFFFFFFFFFFFFFF.

Definition add32 (a b : Z) : Z := T32 (a + b).
Definition add64 (a b : Z) : Z := T64 (a + b).
Definition mul64 (a b : Z) : Z := T64 (a * b).
Definition not32 (a : Z) : Z := Z.lxor a 0xFFFFFFFF.
Definition not64 (a : Z) : Z := Z.lxor a 0xFFFFFFFFFFFFFFFF.
Definition shl32 (x n : Z) : Z := T32 (Z.shiftl x n).
Definition shl64 (x n : Z) : Z := T64 (Z.shiftl x n).
Definition rotl32 (x n : Z) : Z := Z.lor (shl32 x n) (Z.shiftr x (32 - n)).
Definition rotr32 (x n : Z) : Z := Z.lor (Z.shiftr x n) (shl32 x (32 - n)).
Definition rotl64 (x n : Z) : Z := Z.lor (shl64 x n) (Z.shiftr x (64 - n)).
Definition rotr64 (x n : Z) : Z := Z.lor (Z.shiftr x n) (shl64 x (64 - n)).

Create HintDb words.

Lemma T8_mod x : T8 x = x mod 2 ^ 8.
Proof. exact (Z.land_ones x 8 ltac:(lia)). Qed.
Lemma T16_mod x : T16 x = x mod 2 ^ 16.
Proof. exact (Z.land_ones x 16 ltac:(lia)). Qed.
Lemma T32_mod x : T32 x = x mod 2 ^ 32.
Proof. exact (Z.land_ones x 32 ltac:(lia)). Qed.
Lemma T64_mod x : T64 x = x mod 2 ^ 64.
Proof. exact (Z.land_ones x 64 ltac:(lia)). Qed.

Lemma word_mod w x : 0 <= w -> word w (x mod 2 ^ w).
Proof. intros. apply Z.mod_pos_bound. apply Z.pow_pos_nonneg; lia. Qed.

Lemma word_T8 x : word 8 (T8 x).
Proof. rewrite T8_mod. by apply word_mod. Qed.
Lemma word_T16 x : word 16 (T16 x).
Proof. rewrite T16_mod. by apply word_mod. Qed.
Lemma word_T32 x : word 32 (T32 x).
Proof. rewrite T32_mod. by apply word_mod. Qed.
Lemma word_T64 x : word 64 (T64 x).
Proof. rewrite T64_mod. by apply word_mod. Qed.
#[export] Hint Resolve word_T8 word_T16 word_T32 word_T64 : words.

Lemma T8_id x : word 8 x -> T8 x = x.
Proof. intros. rewrite T8_mod. by apply Z.mod_small. Qed.
Lemma T32_id x : word 32 x -> T32 x = x.
Proof. intros. rewrite T32_mod. by apply Z.mod_small. Qed.
Lemma T64_id x : word 64 x -> T64 x = x.
Proof. intros. rewrite T64_mod. by apply Z.mod_small. Qed.

(** A word is determined by its low bits: the bits at and above [w] are 0. *)
Lemma word_bits w x : 0 <= w -> 0 <= x -> (forall i, w <= i -> Z.testbit x i = false) -> word w x.
Proof.
  intros Hw Hx Hb. split; [done|].
  destruct (Z.eq_dec x 0) as [->|Hne]; [apply Z.pow_pos_nonneg; lia|].
  apply Z.log2_lt_pow2; [lia|].
  destruct (Z_lt_dec (Z.log2 x) w) as [|Hge]; [done|exfalso].
  pose proof (Z.bit_log2 x ltac:(lia)) as H1. rewrite Hb in H1; [done|lia].
Qed.

Lemma word_high w x i : 0 <= w -> word w x -> w <= i -> Z.testbit x i = false.
Proof.
  intros Hw Hx Hi. unfold word in Hx. rewrite <-(Z.mod_small x (2 ^ w)) by lia.
  apply Z.mod_pow2_bits_high. lia.
Qed.

Lemma word_lxor w a b : 0 <= w -> word w a -> word w b -> word w (Z.lxor a b).
Proof.
  intros Hw Ha Hb. apply word_bits; [done| |].
  - apply Z.lxor_nonneg. unfold word in *; lia.
  - intros. rewrite Z.lxor_spec, !(word_high w) by done. done.
Qed.

Lemma word_lor w a b : 0 <= w -> word w a -> word w b -> word w (Z.lor a b).
Proof.
  intros Hw Ha Hb. apply word_bits; [done| |].
  - apply Z.lor_nonneg. unfold word in *; lia.
  - intros. rewrite Z.lor_spec, !(word_high w) by done. done.
Qed.

Lemma word_land_l w a b : 0 <= w -> word w a -> word w (Z.land a b).
Proof.
  intros Hw Ha. apply word_bits; [done| |].
  - apply Z.land_nonneg. unfold word in *; lia.
  - intros. rewrite Z.land_spec, (word_high w) by done. done.
Qed.

Lemma word_land_r w a b : 0 <= w -> word w b -> word w (Z.land a b).
Proof. intros. rewrite Z.land_comm. by apply word_land_l. Qed.

Lemma word_shiftr w x n : 0 <= n -> word w x -> word w (Z.shiftr x n).
Proof.
  intros Hn [H0 H1]. rewrite Z.shiftr_div_pow2 by done. unfold word.
  pose proof (Z.pow_pos_nonneg 2 n ltac:(lia) Hn).
  split; [by apply Z.div_pos; lia|].
  apply Z.le_lt_trans with x; [|done]. apply Z.div_le_upper_bound; nia.
Qed.

Lemma word_mono w w' x : w <= w' -> word w x -> word w' x.
Proof.
  unfold word. intros. pose proof (Z.pow_le_mono_r 2 w w' ltac:(lia) ltac:(lia)). lia.
Qed.

Lemma word_add32 a b : word 32 (add32 a b).
Proof. apply word_T32. Qed.
Lemma word_add64 a b : word 64 (add64 a b).
Proof. apply word_T64. Qed.
Lemma word_mul64 a b : word 64 (mul64 a b).
Proof. apply word_T64. Qed.
Lemma word_shl32 x n : word 32 (shl32 x n).
Proof. apply word_T32. Qed.
Lemma word_shl64 x n : word 64 (shl64 x n).
Proof. apply word_T64. Qed.

Lemma word_not32 a : word 32 a -> word 32 (not32 a).
Proof. intros. apply word_lxor; [lia|done|]. unfold word. lia. Qed.
Lemma word_not64 a : word 64 a -> word 64 (not64 a).
Proof. intros. apply word_lxor; [lia|done|]. unfold word. lia. Qed.

Lemma word_rotl32 x n : 0 <= n <= 32 -> word 32 x -> word 32 (rotl32 x n).
Proof. intros. apply word_lor; [lia|apply word_T32|]. apply word_shiftr; [lia|done]. Qed.
Lemma word_rotr32 x n : 0 <= n <= 32 -> word 32 x -> word 32 (rotr32 x n).
Proof. intros. apply word_lor; [lia| |apply word_T32]. apply word_shiftr; [lia|done]. Qed.
Lemma word_rotl64 x n : 0 <= n <= 64 -> word 64 x -> word 64 (rotl64 x n).
Proof. intros. apply word_lor; [lia|apply word_T64|]. apply word_shiftr; [lia|done]. Qed.
Lemma word_rotr64 x n : 0 <= n <= 64 -> word 64 x -> word 64 (rotr64 x n).
Proof. intros. apply word_lor; [lia| |apply word_T64]. apply word_shiftr; [lia|done]. Qed.

#[export] Hint Resolve word_lxor word_lor word_land_l word_shiftr word_add32 word_add64
  word_mul64 word_shl32 word_shl64 word_not32 word_not64
  word_rotl32 word_rotr32 word_rotl64 word_rotr64 : words.
#[export] Hint Extern 1 (_ <= _) => lia : words.
#[export] Hint Extern 1 (_ <= _ <= _) => lia : words.

Ltac words := eauto 30 with words.

(** Equations between xor/and/or combinations of the same words, bit by bit. *)
Ltac bitwise :=
  apply Z.bits_inj'; intros ? ?;
  rewrite ?Z.lxor_spec, ?Z.land_spec, ?Z.lor_spec; btauto.

(** ** Assignments.  Long straight-line code binds its scalars with [dlet], a
    [let] that conversion does not unfold on its own. *)
Definition Let_In {A B} (x : A) (f : A -> B) : B := f x.
Notation "'dlet' x := e 'in' b" := (Let_In e (fun x => b))
  (at level 10, x name, b at level 200, format "'dlet'  x  :=  e  'in' '//' b").
#[global] Strategy 1000 [Let_In].

(** ** Arrays.  A C array is the list of its cells; [a !!! i] reads a cell (the
    default value is only met out of range, and the developments prove that their
    indices are in range), [<[i := v]> a] writes one. *)

Definition bytes (l : list Z) : Prop := Forall (word 8) l.
Definition words32 (l : list Z) : Prop := Forall (word 32) l.
Definition words64 (l : list Z) : Prop := Forall (word 64) l.

(** [memcpy(dst + off, src, |src|)]. *)
Definition memcpy (dst : list Z) (off : nat) (src : list Z) : list Z :=
  take off dst ++ src ++ drop (off + length src) dst.

(** The bytes [p[off .. off + len)]. *)
Definition slice (off len : nat) (p : list Z) : list Z := take len (drop off p).

(** [memset(dst + off, 0, n)]. *)
Definition memset0 (dst : list Z) (off n : nat) : list Z := memcpy dst off (replicate n 0).

Lemma length_memcpy dst off src :
  (off + length src <= length dst)%nat -> length (memcpy dst off src) = length dst.
Proof. intros. unfold memcpy. rewrite !length_app, length_take, length_drop. lia. Qed.

Lemma take_memcpy dst off src :
  (off <= length dst)%nat -> take (off + length src) (memcpy dst off src) = take off dst ++ src.
Proof.
  intros. unfold memcpy. rewrite app_assoc, take_app_le.
  - apply take_ge. rewrite length_app, length_take. lia.
  - rewrite length_app, length_take. lia.
Qed.

Lemma take_memcpy_all dst off src :
  (off + length src = length dst)%nat -> memcpy dst off src = take off dst ++ src.
Proof. intros. unfold memcpy. by rewrite (drop_ge dst), app_nil_r by lia. Qed.

Lemma length_slice off len p : (off + len <= length p)%nat -> length (slice off len p) = len.
Proof. intros. unfold slice. rewrite length_take, length_drop. lia. Qed.

Lemma Forall_lookup_total_def (P : Z -> Prop) (l : list Z) i :
  P inhabitant -> Forall P l -> P (l !!! i).
Proof.
  intros H0 Hl. rewrite list_lookup_total_alt. destruct (l !! i) eqn:E; simpl; [|done].
  by eapply Forall_lookup_1.
Qed.

Lemma word_0 w : 0 <= w -> word w 0.
Proof. intros. split; [lia|]. apply Z.pow_pos_nonneg; lia. Qed.

Lemma word_inhabitant w : 0 < w -> word w inhabitant.
Proof. intros. split; [done|]. apply (Z.pow_gt_1 2 w); lia. Qed.

Lemma bytes_lookup l i : bytes l -> word 8 (l !!! i).
Proof. apply Forall_lookup_total_def. by apply word_inhabitant. Qed.
Lemma words32_lookup l i : words32 l -> word 32 (l !!! i).
Proof. apply Forall_lookup_total_def. by apply word_inhabitant. Qed.
Lemma words64_lookup l i : words64 l -> word 64 (l !!! i).
Proof. apply Forall_lookup_total_def. by apply word_inhabitant. Qed.
#[export] Hint Resolve bytes_lookup words32_lookup words64_lookup word_0 : words.

Lemma Forall_memcpy P dst off src : Forall P dst -> Forall P src -> Forall P (memcpy dst off src).
Proof.
  intros. unfold memcpy. repeat apply Forall_app_2; auto using Forall_take, Forall_drop.
Qed.
Lemma Forall_slice P off len p : Forall P p -> Forall P (slice off len p).
Proof. intros. unfold slice. auto using Forall_take, Forall_drop. Qed.

(** ** Byte order.  [gather n g] is the word whose byte number [i] (from the
    least significant) is [g i]; the little- and big-endian accessors of the
    sources are instances of it. *)

Definition gather (n : nat) (g : nat -> Z) : Z :=
  foldl (fun v i => Z.lor v (Z.shiftl (g i) (8 * Z.of_nat i))) 0 (seq 0 n).

(** The array of the values [f 0 .. f (n - 1)]. *)
Definition tabulate (n : nat) (f : nat -> Z) : list Z := f <$> seq 0 n.

Definition le_load (n : nat) (p : list Z) : Z := gather n (fun i => p !!! i).
Definition be_load (n : nat) (p : list Z) : Z := gather n (fun i => p !!! (n - 1 - i)%nat).
Definition le_store (n : nat) (v : Z) : list Z :=
  tabulate n (fun i => T8 (Z.shiftr v (8 * Z.of_nat i))).
Definition be_store (n : nat) (v : Z) : list Z :=
  tabulate n (fun i => T8 (Z.shiftr v (8 * Z.of_nat (n - 1 - i)))).

Lemma gather_S n g :
  gather (S n) g = Z.lor (gather n g) (Z.shiftl (g n) (8 * Z.of_nat n)).
Proof. unfold gather. by rewrite seq_S, foldl_app. Qed.

Lemma gather_ext n g g' : (forall i, (i < n)%nat -> g i = g' i) -> gather n g = gather n g'.
Proof.
  induction n as [|n IH]; [done|]. intros H. rewrite !gather_S, IH, H by auto with lia. done.
Qed.

Lemma gather_word n g :
  (forall i, (i < n)%nat -> word 8 (g i)) -> word (8 * Z.of_nat n) (gather n g).
Proof.
  induction n as [|n IH]; intros Hg; [done|].
  rewrite gather_S. apply word_lor; [lia| |].
  - eapply word_mono; [|apply IH; auto with lia]. lia.
  - destruct (Hg n ltac:(lia)). unfold word. rewrite Z.shiftl_mul_pow2 by lia.
    replace (8 * Z.of_nat (S n)) with (8 + 8 * Z.of_nat n) by lia.
    rewrite Z.pow_add_r by lia.
    pose proof (Z.pow_pos_nonneg 2 (8 * Z.of_nat n) ltac:(lia) ltac:(lia)). nia.
Qed.

(** Bit [8 i + j] of [gather n g] is bit [j] of [g i]. *)
Lemma gather_testbit n g i j :
  (forall i, (i < n)%nat -> word 8 (g i)) -> (i < n)%nat -> 0 <= j < 8 ->
  Z.testbit (gather n g) (8 * Z.of_nat i + j) = Z.testbit (g i) j.
Proof.
  induction n as [|n IH]; intros Hg Hi Hj; [lia|].
  rewrite gather_S, Z.lor_spec, Z.shiftl_spec by lia.
  destruct (decide (i = n)) as [->|Hne].
  - rewrite (word_high (8 * Z.of_nat n)); [|lia|apply gather_word; auto with lia|lia].
    simpl. f_equal. lia.
  - rewrite IH by auto with lia. rewrite (Z.testbit_neg_r (g n)) by lia. by rewrite orb_false_r.
Qed.

Lemma gather_byte n g i :
  (forall i, (i < n)%nat -> word 8 (g i)) -> (i < n)%nat ->
  T8 (Z.shiftr (gather n g) (8 * Z.of_nat i)) = g i.
Proof.
  intros Hg Hi. apply Z.bits_inj'. intros j Hj. unfold T8.
  rewrite Z.land_spec, Z.shiftr_spec by done. change 0xFF with (Z.ones 8).
  destruct (Z_lt_dec j 8).
  - rewrite Z.ones_spec_low, andb_true_r by lia.
    rewrite Z.add_comm. by apply gather_testbit.
  - rewrite Z.ones_spec_high, andb_false_r by lia. symmetry.
    apply (word_high 8); [lia|by apply Hg|lia].
Qed.

Lemma gather_shiftr n v :
  gather n (fun i => T8 (Z.shiftr v (8 * Z.of_nat i))) = v mod 2 ^ (8 * Z.of_nat n).
Proof.
  apply Z.bits_inj'. intros k Hk.
  set (i := Z.to_nat (k / 8)). set (j := k mod 8).
  pose proof (Z.mod_pos_bound k 8 ltac:(lia)) as Hj. fold j in Hj.
  assert (Hk' : k = 8 * Z.of_nat i + j).
  { unfold i, j. rewrite Z2Nat.id by (apply Z.div_pos; lia). apply Z.div_mod. lia. }
  destruct (decide (i < n)%nat) as [Hlt|Hge].
  - rewrite Hk' at 1. rewrite gather_testbit by (intros; auto using word_T8).
    rewrite Z.mod_pow2_bits_low by lia.
    unfold T8. change 0xFF with (Z.ones 8).
    rewrite Z.land_spec, Z.ones_spec_low, andb_true_r, Z.shiftr_spec by lia. f_equal. lia.
  - rewrite Z.mod_pow2_bits_high by lia.
    apply (word_high (8 * Z.of_nat n)); [lia|apply gather_word; auto using word_T8|lia].
Qed.

Lemma length_tabulate n f : length (tabulate n f) = n.
Proof. unfold tabulate. by rewrite length_fmap, length_seq. Qed.
Lemma length_le_store n v : length (le_store n v) = n.
Proof. apply length_tabulate. Qed.
Lemma length_be_store n v : length (be_store n v) = n.
Proof. apply length_tabulate. Qed.

Lemma Forall_tabulate P n f : (forall i, (i < n)%nat -> P (f i)) -> Forall P (tabulate n f).
Proof.
  intros H. apply Forall_fmap, Forall_forall. intros i Hi%in_seq. apply H. lia.
Qed.

Lemma tabulate_lookup f n i : (i < n)%nat -> tabulate n f !!! i = f i.
Proof.
  intros. unfold tabulate. rewrite list_lookup_total_alt, list_lookup_fmap, lookup_seq_lt by done. done.
Qed.

Lemma bytes_le_store n v : bytes (le_store n v).
Proof. apply Forall_tabulate. intros. apply word_T8. Qed.
Lemma bytes_be_store n v : bytes (be_store n v).
Proof. apply Forall_tabulate. intros. apply word_T8. Qed.
Lemma length_flat_le (ws : list Z) : length (flat_map (le_store 8) ws) = (8 * length ws)%nat.
Proof. induction ws as [|w ws IH]; [done|]. cbn [flat_map]. rewrite length_app, length_le_store, IH. cbn [length]. lia. Qed.
Lemma bytes_flat_le (ws : list Z) : bytes (flat_map (le_store 8) ws).
Proof. induction ws; [constructor|]. apply Forall_app_2; [apply bytes_le_store|done]. Qed.

Lemma le_load_store n v : le_load n (le_store n v) = v mod 2 ^ (8 * Z.of_nat n).
Proof.
  rewrite <-gather_shiftr. apply gather_ext. intros. by apply tabulate_lookup.
Qed.

Lemma be_load_store n v : be_load n (be_store n v) = v mod 2 ^ (8 * Z.of_nat n).
Proof.
  rewrite <-gather_shiftr. apply gather_ext. intros i Hi. unfold be_store.
  rewrite tabulate_lookup by lia. do 3 f_equal. lia.
Qed.

Lemma total_nth (l : list Z) i : (i < length l)%nat -> l !!! i = nth i l 0.
Proof. revert i. induction l as [|x l IH]; intros [|i] Hi; [cbn in Hi; lia..|done|]. apply IH. cbn in Hi. lia. Qed.
Lemma list_eq_total `{Inhabited A} (l k : list A) :
  length l = length k -> (forall i, (i < length l)%nat -> l !!! i = k !!! i) -> l = k.
Proof.
  intros Hlen Heq. apply list_eq_same_length with (length k); [done|done|].
  intros i x y Hi Hx Hy. specialize (Heq i ltac:(lia)).
  apply list_lookup_total_correct in Hx, Hy. congruence.
Qed.

Lemma le_store_load p : bytes p -> le_store (length p) (le_load (length p) p) = p.
Proof.
  intros Hp. apply list_eq_total; rewrite length_le_store; [done|].
  intros i Hi. unfold le_store. rewrite tabulate_lookup by done.
  apply (gather_byte _ (fun i => p !!! i)); [|done]. intros. by apply bytes_lookup.
Qed.

Lemma be_store_load p : bytes p -> be_store (length p) (be_load (length p) p) = p.
Proof.
  intros Hp. apply list_eq_total; rewrite length_be_store; [done|].
  intros i Hi. unfold be_store. rewrite tabulate_lookup by done.
  unfold be_load. rewrite gather_byte by (try lia; intros; by apply bytes_lookup). f_equal. lia.
Qed.

Lemma word_le_load n p : bytes p -> word (8 * Z.of_nat n) (le_load n p).
Proof. intros. apply gather_word. intros. by apply bytes_lookup. Qed.
Lemma word_be_load n p : bytes p -> word (8 * Z.of_nat n) (be_load n p).
Proof. intros. apply gather_word. intros. by apply bytes_lookup. Qed.

(** ** Loops over an array *)

Lemma lookup_total_insert `{Inhabited A} (l : list A) i j v :
  (i < length l)%nat -> <[i := v]> l !!! j = if decide (i = j) then v else l !!! j.
Proof.
  intros. case_decide; subst; [by apply list_lookup_total_insert_eq|].
  by apply list_lookup_total_insert_ne.
Qed.

(** [for (i = 0; i < k; i++) a[i] = f(i, a[i])]. *)
Lemma loop_map `{Inhabited A} (f : nat -> A -> A) (a : list A) k :
  (k <= length a)%nat ->
  let a' := foldl (fun a i => <[i := f i (a !!! i)]> a) a (seq 0 k) in
  length a' = length a /\ forall j, a' !!! j = if decide (j < k)%nat then f j (a !!! j) else a !!! j.
Proof.
  induction k as [|k IH]; intros Hk; [done|]. destruct IH as [Hl Hj]; [lia|].
  cbv zeta in *. rewrite seq_S, foldl_app. cbn [foldl]. simpl (0 + k)%nat.
  split; [by rewrite length_insert|]. intros j. rewrite lookup_total_insert by lia.
  rewrite !Hj. repeat case_decide; subst; try lia; done.
Qed.

Lemma loop_map_tabulate (f : nat -> Z -> Z) (a : list Z) k :
  length a = k ->
  foldl (fun a i => <[i := f i (a !!! i)]> a) a (seq 0 k) = tabulate k (fun i => f i (a !!! i)).
Proof.
  intros <-. destruct (loop_map f a (length a)) as [Hl Hj]; [done|].
  apply list_eq_total; [by rewrite length_tabulate|].
  intros i Hi. rewrite Hj, tabulate_lookup by lia. by rewrite decide_True by lia.
Qed.

Lemma loop_fmap `{Inhabited A} (f : A -> A) (a : list A) k :
  length a = k -> foldl (fun a i => <[i := f (a !!! i)]> a) a (seq 0 k) = f <$> a.
Proof.
  intros <-. destruct (loop_map (fun _ => f) a (length a)) as [Hl Hj]; [done|].
  apply list_eq_total; [by rewrite length_fmap|]. intros i Hi.
  rewrite Hj, decide_True, !list_lookup_total_alt, list_lookup_fmap by lia.
  destruct (lookup_lt_is_Some_2 a i) as [x Hx]; [lia|]. by rewrite Hx.
Qed.

(** A boolean test of every byte value. *)
Definition all_bytes (P : Z -> bool) : bool := forallb P (tabulate 256 Z.of_nat).
Lemma all_bytes_spec P : all_bytes P = true -> forall x, word 8 x -> P x = true.
Proof.
  intros H x [H0 H1]. unfold all_bytes in H. rewrite forallb_forall in H. apply H.
  unfold tabulate. rewrite in_map_iff. exists (Z.to_nat x). rewrite in_seq.
  change (2 ^ 8) with 256 in H1. split; lia.
Qed.

Lemma foldl_ext_seq {A} (f g : A -> nat -> A) a i k :
  (forall a j, (i <= j < i + k)%nat -> f a j = g a j) ->
  foldl f a (seq i k) = foldl g a (seq i k).
Proof.
  revert a i. induction k as [|k IH]; intros a i Hfg; [done|]. cbn [seq foldl].
  rewrite Hfg by lia. apply IH. intros. apply Hfg. lia.
Qed.

Lemma lookup_fmap_seq {A} `{Inhabited A} (f : nat -> A) k i :
  (i < k)%nat -> (f <$> seq 0 k) !!! i = f i.
Proof.
  intros. rewrite list_lookup_total_alt, list_lookup_fmap, lookup_seq_lt by done. done.
Qed.

Lemma byte_list_dec l :
  forallb (fun x => (0 <=? x) && (x <? 256)) l = true -> bytes l.
Proof.
  intros H. apply Forall_forall. intros x Hx. rewrite forallb_forall in H. apply H in Hx.
  unfold word. lia.
Qed.

Lemma bytes_insert rk i v : bytes rk -> word 8 v -> bytes (<[i := v]> rk).
Proof. intros. by apply Forall_insert. Qed.

Lemma tabulate_id (l : list Z) : tabulate (length l) (fun i => l !!! i) = l.
Proof.
  apply list_eq_total; rewrite length_tabulate; [done|]. intros. by apply tabulate_lookup.
Qed.

(** Big-endian encodings of long numbers, in pieces. *)
Lemma be_store_app a b v : be_store (a + b) v = be_store a (Z.shiftr v (8 * Z.of_nat b)) ++ be_store b v.
Proof.
  apply list_eq_total; rewrite ?length_app, !length_be_store; [done|]. intros i Hi.
  unfold be_store. rewrite tabulate_lookup by done. destruct (decide (i < a)%nat).
  - rewrite lookup_total_app_l by (rewrite length_tabulate; done). rewrite tabulate_lookup by done.
    rewrite Z.shiftr_shiftr by lia. do 2 f_equal. lia.
  - rewrite lookup_total_app_r by (rewrite length_tabulate; lia). rewrite length_tabulate.
    rewrite tabulate_lookup by lia. do 2 f_equal. lia.
Qed.

Lemma be_store_0 n : be_store n 0 = replicate n 0.
Proof.
  apply list_eq_total; rewrite length_be_store; [by rewrite length_replicate|]. intros i Hi.
  unfold be_store. by rewrite tabulate_lookup, Z.shiftr_0_l, lookup_total_replicate_2.
Qed.

Lemma be_store_T64 v : be_store 8 (T64 v) = be_store 8 v.
Proof.
  apply list_eq_total; rewrite !length_be_store; [done|]. intros i Hi.
  unfold be_store. rewrite !tabulate_lookup by done. unfold T8, T64.
  rewrite Z.shiftr_land, <-Z.land_assoc. f_equal.
  do 8 (destruct i as [|i]; [reflexivity|]). lia.
Qed.

(** ** Bytes of exclusive ors, rows and columns of eight bytes *)

Lemma T8_shiftr_lxor a b k :
  T8 (Z.shiftr (Z.lxor a b) k) = Z.lxor (T8 (Z.shiftr a k)) (T8 (Z.shiftr b k)).
Proof.
  rewrite Z.shiftr_lxor. unfold T8. apply Z.bits_inj'. intros i Hi.
  rewrite !Z.lxor_spec, !Z.land_spec, !Z.lxor_spec.
  destruct (Z.testbit _ i), (Z.testbit (b ≫ k) i), (Z.testbit 0xFF i); done.
Qed.

Lemma row_col i t : (t < 8)%nat -> ((8 * i + t) / 8 = i /\ (8 * i + t) mod 8 = t)%nat.
Proof.
  intros. rewrite (Nat.mul_comm 8 i), Nat.div_add_l, Nat.div_small by lia. split; [lia|].
  rewrite Nat.add_comm, Nat.Div0.mod_add. by apply Nat.mod_small.
Qed.

Lemma T8_shiftr_foldl (f : nat -> Z) k l a :
  T8 (Z.shiftr (foldl (fun acc j => Z.lxor acc (f j)) a l) k)
  = foldl (fun acc j => Z.lxor acc (T8 (Z.shiftr (f j) k))) (T8 (Z.shiftr a k)) l.
Proof.
  revert a. induction l as [|j l IH]; intros a; [done|]. cbn [foldl]. by rewrite IH, T8_shiftr_lxor.
Qed.

(** ** The primes below 312: the sources of the constants of SHA-2 and BLAKE2 *)
Definition is_prime (k : nat) : bool := forallb (fun d => negb (k mod d =? 0)%nat) (seq 2 (k - 2)).
Definition primes : list Z := Z.of_nat <$> List.filter is_prime (seq 2 310).
