(* ===== verification/Stream.v ===== *)
(** * Streaming a message into a block function.

    Every hash of the native cores buffers its input and runs a compression
    function on each full block.  This file is the abstract specification of
    that behaviour: a machine that absorbs ONE BYTE at a time, so that hashing a
    message in pieces is the same as hashing it at once by definition
    ([absorb_app]).  The component files prove that their [update] loops, which
    copy whole chunks into a fixed array, refine this machine. *)
From S2P Require Import Prelude.

(** Full blocks of a message and what is left after them. *)
Fixpoint nblocks (b k : nat) (m : list Z) : list (list Z) :=
  match k with
  | O => []
  | S k => take b m :: nblocks b k (drop b m)
  end.
Definition blocks (b : nat) (m : list Z) : list (list Z) := nblocks b (length m / b) m.
Definition leftover (b : nat) (m : list Z) : list Z := drop (b * (length m / b)) m.

Section Absorb.
Context {St : Type} (b : nat) (compress : St -> list Z -> St).

Definition absorb1 (st : St * list Z) (x : Z) : St * list Z :=
  let '(s, r) := st in
  if decide (length r + 1 = b)%nat then (compress s (r ++ [x]), []) else (s, r ++ [x]).
Definition absorb (st : St * list Z) (d : list Z) : St * list Z := foldl absorb1 st d.

Lemma absorb_app st x y : absorb st (x ++ y) = absorb (absorb st x) y.
Proof. apply foldl_app. Qed.

Lemma absorb_short s r d : (length r + length d < b)%nat -> absorb (s, r) d = (s, r ++ d).
Proof.
  revert r. induction d as [|x d IH]; intros r H; simpl in *; [by rewrite app_nil_r|].
  unfold absorb; simpl. rewrite decide_False by lia. fold (absorb (s, r ++ [x]) d).
  rewrite IH by (rewrite length_app; simpl; lia). by rewrite <-app_assoc.
Qed.

Lemma absorb_fill s r d :
  (length r + length d = b)%nat -> d <> [] -> absorb (s, r) d = (compress s (r ++ d), []).
Proof.
  intros H Hd. destruct d as [|x d] using rev_ind; [done|clear IHd Hd].
  rewrite length_app in H; simpl in H. rewrite absorb_app, absorb_short by lia. unfold absorb; simpl.
  rewrite decide_True by (rewrite length_app; lia). by rewrite <-app_assoc.
Qed.

(** One trip of an update loop: copy [k] bytes at position [n] of the block
    array, run the compression function if that fills it. *)
Lemma absorb_chunk s buf n d :
  length buf = b -> (n < b)%nat -> d <> [] -> (n + length d <= b)%nat ->
  absorb (s, take n buf) d =
    if decide (n + length d = b)%nat then (compress s (memcpy buf n d), [])
    else (s, take (n + length d) (memcpy buf n d)).
Proof.
  intros Hb Hn Hd Hle. assert (Hl : length (take n buf) = n) by (rewrite length_take; lia).
  case_decide.
  - rewrite absorb_fill by (rewrite ?Hl; done). by rewrite take_memcpy_all by lia.
  - rewrite absorb_short by lia. by rewrite take_memcpy by lia.
Qed.

Hypothesis b_pos : (0 < b)%nat.

Lemma absorb_block s m : length m = b -> absorb (s, []) m = (compress s m, []).
Proof. intros. apply (absorb_fill s []); [done|]. intros ->. simpl in *. lia. Qed.

Lemma absorb_nblocks k m s :
  (b * k <= length m)%nat ->
  absorb (s, []) (take (b * k) m) = (foldl compress s (nblocks b k m), []).
Proof.
  revert m s. induction k as [|k IH]; intros m s Hk; [by rewrite Nat.mul_0_r|].
  rewrite Nat.mul_succ_r, Nat.add_comm, <-take_take_drop, absorb_app.
  rewrite absorb_block by (rewrite length_take; lia).
  rewrite IH by (rewrite length_drop; lia). done.
Qed.

(** The machine, started empty, folds the compression function over the full
    blocks and keeps the rest. *)
Lemma absorb_spec s m : absorb (s, []) m = (foldl compress s (blocks b m), leftover b m).
Proof.
  pose proof (Nat.Div0.mul_div_le (length m) b) as H.
  rewrite <-(take_drop (b * (length m / b)) m) at 1.
  rewrite absorb_app, absorb_nblocks by lia. rewrite absorb_short; [done|].
  simpl. rewrite length_drop.
  pose proof (Nat.mod_upper_bound (length m) b ltac:(lia)).
  pose proof (Nat.Div0.div_mod (length m) b). lia.
Qed.

Lemma length_absorb s r d :
  (length r < b)%nat -> length (absorb (s, r) d).2 = ((length r + length d) mod b)%nat.
Proof.
  revert s r. induction d as [|x d IH]; intros s r Hr; simpl.
  - rewrite Nat.add_0_r, Nat.mod_small; done.
  - unfold absorb; simpl. case_decide as H; fold absorb.
    + change (length (absorb (compress s (r ++ [x]), []) d).2 = (length r + S (length d)) mod b)%nat.
      rewrite IH by (simpl; lia). simpl.
      replace (length r + S (length d))%nat with (length d + 1 * b)%nat by lia.
      by rewrite Nat.Div0.mod_add.
    + change (length (absorb (s, r ++ [x]) d).2 = (length r + S (length d)) mod b)%nat.
      rewrite IH by (rewrite length_app; simpl; lia). rewrite length_app. simpl. f_equal. lia.
Qed.

Lemma length_leftover m : length (leftover b m) = (length m mod b)%nat.
Proof.
  unfold leftover. rewrite length_drop. pose proof (Nat.Div0.div_mod (length m) b). lia.
Qed.

(** Invariants of the chaining value lift to the machine. *)
Lemma absorb_inv (I : St -> Prop) st d :
  (forall s m, I s -> length m = b -> bytes m -> I (compress s m)) ->
  I st.1 -> bytes st.2 -> bytes d -> I (absorb st d).1 /\ bytes (absorb st d).2.
Proof.
  intros HI. revert st. induction d as [|x d IH]; intros [s r] Hs Hr Hd; [done|].
  apply Forall_cons_1 in Hd as [Hx Hd]. unfold absorb; simpl.
  assert (bytes (r ++ [x])) by (apply Forall_app_2; [done|by constructor]).
  case_decide; apply IH; simpl; try done.
  - apply HI; [done|rewrite length_app; simpl; lia|done].
  - by constructor.
Qed.
End Absorb.

(** Only blocks of the right length are ever compressed, so two compression
    functions that agree on those absorb alike. *)
Lemma absorb_ext {St} b (f g : St -> list Z -> St) st d :
  (forall s m, length m = b -> f s m = g s m) -> absorb b f st d = absorb b g st d.
Proof.
  intros H. revert st. induction d as [|x d IH]; intros [s r]; [done|].
  unfold absorb; simpl. case_decide; [rewrite H by (rewrite length_app; simpl; lia)|]; apply IH.
Qed.

Lemma nblocks_app b k1 k2 x y :
  (length x = b * k1)%nat -> nblocks b (k1 + k2) (x ++ y) = nblocks b k1 x ++ nblocks b k2 y.
Proof.
  revert x. induction k1 as [|k1 IH]; intros x Hx; simpl.
  - rewrite Nat.mul_0_r in Hx. by apply nil_length_inv in Hx as ->.
  - rewrite take_app_le, drop_app_le by lia. rewrite IH; [done|]. rewrite length_drop. lia.
Qed.

Lemma blocks_app b x y :
  (0 < b)%nat -> (length x mod b = 0)%nat -> blocks b (x ++ y) = blocks b x ++ blocks b y.
Proof.
  intros Hb Hx. unfold blocks. rewrite length_app.
  pose proof (Nat.Div0.div_mod (length x) b) as Hdx. rewrite Hx, Nat.add_0_r in Hdx.
  replace ((length x + length y) / b)%nat with (length x / b + length y / b)%nat.
  - by apply nblocks_app.
  - rewrite Hdx at 2. rewrite Nat.mul_comm, Nat.div_add_l by lia. done.
Qed.

(** Two block functions whose chaining values, of two types, stay related by
    [R] on blocks of bytes. *)
Lemma foldl_blocks_sim {St St'} b (f : St -> list Z -> St) (g : St' -> list Z -> St')
    (R : St -> St' -> Prop) s s' m :
  (forall s s' x, R s s' -> length x = b -> bytes x -> R (f s x) (g s' x)) ->
  R s s' -> bytes m -> R (foldl f s (blocks b m)) (foldl g s' (blocks b m)).
Proof.
  intros Hfg Hs Hm. unfold blocks. set (k := (length m / b)%nat).
  assert (Hk : (b * k <= length m)%nat) by apply Nat.Div0.mul_div_le.
  clearbody k. revert s s' m Hs Hm Hk. induction k as [|k IH]; intros s s' m Hs Hm Hk; [done|].
  cbn [nblocks foldl]. apply IH; [|by apply Forall_drop|rewrite length_drop; lia].
  apply Hfg; [done|rewrite length_take; lia|by apply Forall_take].
Qed.

(** Two compression functions that agree on the blocks of bytes they meet, under
    an invariant of the chaining value, hash alike. *)
Lemma foldl_blocks_ext {St} b (f g : St -> list Z -> St) (I : St -> Prop) s m :
  (forall s x, I s -> length x = b -> bytes x -> f s x = g s x /\ I (f s x)) ->
  I s -> bytes m ->
  foldl f s (blocks b m) = foldl g s (blocks b m) /\ I (foldl f s (blocks b m)).
Proof.
  intros Hfg Hs. apply (foldl_blocks_sim b f g (fun x y => x = y /\ I x)); [|done].
  intros x ? y [<- Hx]. by apply Hfg.
Qed.

(** ** The lazy machine: a full block waits for the next byte before it is
    compressed, because the last block of a message is treated differently. *)
Section Lazy.
Context {St : Type} (b : nat) (compress : St -> list Z -> St).

Definition lazy1 (st : St * list Z) (x : Z) : St * list Z :=
  let '(s, r) := st in
  if decide (length r = b) then (compress s r, [x]) else (s, r ++ [x]).
Definition lazy (st : St * list Z) (d : list Z) : St * list Z := foldl lazy1 st d.

Lemma lazy_app st x y : lazy st (x ++ y) = lazy (lazy st x) y.
Proof. apply foldl_app. Qed.

Lemma lazy_short s r d : (length r + length d <= b)%nat -> lazy (s, r) d = (s, r ++ d).
Proof.
  revert r. induction d as [|x d IH]; intros r H; cbn [length] in *; [by rewrite app_nil_r|].
  unfold lazy; cbn [foldl lazy1]. rewrite decide_False by lia. fold (lazy (s, r ++ [x]) d).
  rewrite IH by (rewrite length_app; cbn [length]; lia). by rewrite <-app_assoc.
Qed.

(** Data beyond the end of the block. *)
Lemma lazy_fill s r d e :
  (0 < b)%nat -> (length r + length d = b)%nat -> e <> [] ->
  lazy (s, r) (d ++ e) = lazy (compress s (r ++ d), []) e.
Proof.
  intros Hb H He. rewrite lazy_app, lazy_short by lia. destruct e as [|x e]; [done|].
  unfold lazy; cbn [foldl lazy1]. rewrite decide_True by (rewrite length_app; lia).
  rewrite decide_False by (cbn [length]; lia). done.
Qed.

Lemma lazy_nblocks k m s :
  (0 < b)%nat -> (b * k < length m)%nat ->
  lazy (s, []) m = lazy (foldl compress s (nblocks b k m), []) (drop (b * k) m).
Proof.
  intros Hb. revert m s. induction k as [|k IH]; intros m s Hk; [by rewrite Nat.mul_0_r|].
  cbn [nblocks foldl]. rewrite <-(take_drop b m) at 1.
  rewrite (lazy_fill s [] (take b m)); [|done|rewrite length_take; cbn [length]; lia|].
  - cbn [app]. rewrite IH by (rewrite length_drop; lia). rewrite drop_drop. do 2 f_equal. lia.
  - intros E%(f_equal length). rewrite length_drop in E. cbn [length] in E. lia.
Qed.

(** A message is all its blocks but the last one, and the rest. *)
Lemma lazy_spec s m :
  (0 < b)%nat ->
  lazy (s, []) m = (foldl compress s (nblocks b ((length m - 1) / b) m), drop (b * ((length m - 1) / b)) m).
Proof.
  intros Hb. destruct m as [|x m'] eqn:E.
  { rewrite Nat.Div0.div_0_l by lia. rewrite Nat.mul_0_r. done. }
  rewrite <-E. assert (Hl : (0 < length m)%nat) by (subst; cbn [length]; lia).
  set (k := ((length m - 1) / b)%nat).
  pose proof (Nat.div_mod_eq (length m - 1) b) as Hd. fold k in Hd.
  pose proof (Nat.mod_upper_bound (length m - 1) b ltac:(lia)).
  rewrite (lazy_nblocks k) by lia. rewrite lazy_short; [done|]. rewrite length_drop. cbn [length]. lia.
Qed.
End Lazy.
