(* ===== verification/NmSha256.v ===== *)
(** * SHA-256 of the NeuroMorph core ([crypto/nm/nm_sha256.h]).

    The streaming context with its 64-byte block array is modelled as it is; the
    refinement to the byte-at-a-time machine of [Stream] gives independence of
    chunking and the equality with the padded one-shot definition of FIPS 180-4.  That
    definition is written from the standard and shares nothing with the code: constants
    from the roots of the primes, the schedule as a recurrence, rotations and sums as
    arithmetic modulo 2^32. *)
From S2P Require Import Prelude Stream.

Record nm_sha256_ctx := mk_sha_ctx {
  s : list Z;      (* uint32_t s[8] *)
  len : Z;         (* uint64_t len *)
  buf : list Z;    (* uint8_t buf[64] *)
  n : nat          (* size_t n *)
}.

(** The eight words of a row, written as one number. *)
Definition row32 (x : Z) : list Z := tabulate 8 (fun i => T32 (Z.shiftr x (32 * Z.of_nat (7 - i)))).

Definition NM_K256 : list Z := flat_map row32 [
  0x428a2f98_71374491_b5c0fbcf_e9b5dba5_3956c25b_59f111f1_923f82a4_ab1c5ed5;
  0xd807aa98_12835b01_243185be_550c7dc3_72be5d74_80deb1fe_9bdc06a7_c19bf174;
  0xe49b69c1_efbe4786_0fc19dc6_240ca1cc_2de92c6f_4a7484aa_5cb0a9dc_76f988da;
  0x983e5152_a831c66d_b00327c8_bf597fc7_c6e00bf3_d5a79147_06ca6351_14292967;
  0x27b70a85_2e1b2138_4d2c6dfc_53380d13_650a7354_766a0abb_81c2c92e_92722c85;
  0xa2bfe8a1_a81a664b_c24b8b70_c76c51a3_d192e819_d6990624_f40e3585_106aa070;
  0x19a4c116_1e376c08_2748774c_34b0bcb5_391c0cb3_4ed8aa4a_5b9cca4f_682e6ff3;
  0x748f82ee_78a5636f_84c87814_8cc70208_90befffa_a4506ceb_bef9a3f7_c67178f2].

Definition nm_ror (x k : Z) : Z := rotr32 x k.

(** The message schedule: the first loop reads 16 big-endian words, the second
    fills [w[16..63]]. *)
Definition load_word (p : list Z) (i : nat) : Z :=
  T32 (Z.lor (Z.lor (Z.lor (Z.shiftl (p !!! (i * 4)%nat) 24) (Z.shiftl (p !!! (i * 4 + 1)%nat) 16))
                    (Z.shiftl (p !!! (i * 4 + 2)%nat) 8)) (p !!! (i * 4 + 3)%nat)).

Definition extend_w (w : list Z) (i : nat) : list Z :=
  let w15 := w !!! (i - 15)%nat in
  let w2 := w !!! (i - 2)%nat in
  let s0 := Z.lxor (Z.lxor (nm_ror w15 7) (nm_ror w15 18)) (Z.shiftr w15 3) in
  let s1 := Z.lxor (Z.lxor (nm_ror w2 17) (nm_ror w2 19)) (Z.shiftr w2 10) in
  <[i := add32 (add32 (add32 (w !!! (i - 16)%nat) s0) (w !!! (i - 7)%nat)) s1]> w.

Definition schedule (p : list Z) : list Z :=
  let w := foldl (fun w i => <[i := load_word p i]> w) (replicate 64 0) (seq 0 16) in
  foldl extend_w w (seq 16 48).

Definition vars : Type := Z * Z * Z * Z * Z * Z * Z * Z.

Definition sha_round (w : list Z) (v : vars) (i : nat) : vars :=
  let '(a, b, cc, d, e, f, g, h) := v in
  let S1 := Z.lxor (Z.lxor (nm_ror e 6) (nm_ror e 11)) (nm_ror e 25) in
  let ch := Z.lxor (Z.land e f) (Z.land (not32 e) g) in
  let t1 := add32 (add32 (add32 (add32 h S1) ch) (NM_K256 !!! i)) (w !!! i) in
  let S0 := Z.lxor (Z.lxor (nm_ror a 2) (nm_ror a 13)) (nm_ror a 22) in
  let maj := Z.lxor (Z.lxor (Z.land a b) (Z.land a cc)) (Z.land b cc) in
  let t2 := add32 S0 maj in
  (add32 t1 t2, a, b, cc, add32 d t1, e, f, g).

(** The state words after one block. *)
Definition sha_compress (st p : list Z) : list Z :=
  let w := schedule p in
  let v0 := (st !!! 0%nat, st !!! 1%nat, st !!! 2%nat, st !!! 3%nat,
             st !!! 4%nat, st !!! 5%nat, st !!! 6%nat, st !!! 7%nat) in
  let '(a, b, cc, d, e, f, g, h) := foldl (sha_round w) v0 (seq 0 64) in
  [add32 (st !!! 0%nat) a; add32 (st !!! 1%nat) b; add32 (st !!! 2%nat) cc; add32 (st !!! 3%nat) d;
   add32 (st !!! 4%nat) e; add32 (st !!! 5%nat) f; add32 (st !!! 6%nat) g; add32 (st !!! 7%nat) h].

Definition nm_sha256_block (c : nm_sha256_ctx) (p : list Z) : nm_sha256_ctx :=
  mk_sha_ctx (sha_compress (s c) p) (len c) (buf c) (n c).

Definition nm_sha256_IV : list Z :=
  [0x6a09e667; 0xbb67ae85; 0x3c6ef372; 0xa54ff53a; 0x510e527f; 0x9b05688c; 0x1f83d9ab; 0x5be0cd19].

(** [init] leaves the block array as it was: [junk] is the stack's content. *)
Definition nm_sha256_init (junk : list Z) : nm_sha256_ctx := mk_sha_ctx nm_sha256_IV 0 junk 0.

(** The loop of [nm_sha256_update]; every trip consumes at least one byte, so
    the length of the data bounds the number of trips. *)
Fixpoint update_loop (fuel : nat) (c : nm_sha256_ctx) (p : list Z) : nm_sha256_ctx :=
  match p, fuel with
  | [], _ | _, O => c
  | _, S fuel =>
      let k := Nat.min (64 - n c) (length p) in
      let c := mk_sha_ctx (s c) (len c) (memcpy (buf c) (n c) (take k p)) (n c + k) in
      let c := if (n c =? 64)%nat
               then let c := nm_sha256_block c (buf c) in mk_sha_ctx (s c) (len c) (buf c) 0
               else c in
      update_loop fuel c (drop k p)
  end.

Definition nm_sha256_update (c : nm_sha256_ctx) (p : list Z) : nm_sha256_ctx :=
  update_loop (length p)
    (mk_sha_ctx (s c) (add64 (len c) (Z.of_nat (length p))) (buf c) (n c)) p.

(** [while (c->n != 56) nm_sha256_update(c, &z, 1)]: at most 63 trips. *)
Fixpoint pad_loop (fuel : nat) (c : nm_sha256_ctx) : nm_sha256_ctx :=
  if (n c =? 56)%nat then c
  else match fuel with
       | O => c
       | S fuel => pad_loop fuel (nm_sha256_update c [0])
       end.

Definition nm_sha256_final (c : nm_sha256_ctx) : nm_sha256_ctx * list Z :=
  let bits := mul64 (len c) 8 in
  let c := nm_sha256_update c [0x80] in
  let c := pad_loop 64 c in
  let L := tabulate 8 (fun i => T8 (Z.shiftr bits (56 - 8 * Z.of_nat i))) in
  let c := nm_sha256_update c L in
  (c, flat_map (fun x => [T8 (Z.shiftr x 24); T8 (Z.shiftr x 16); T8 (Z.shiftr x 8); T8 x])
               (tabulate 8 (fun i => s c !!! i))).

Definition nm_sha256 (junk p : list Z) : list Z :=
  (nm_sha256_final (nm_sha256_update (nm_sha256_init junk) p)).2.

Example sha256_abc :
  nm_sha256 (replicate 64 7) [0x61; 0x62; 0x63] =
  [0xba;0x78;0x16;0xbf;0x8f;0x01;0xcf;0xea;0x41;0x41;0x40;0xde;0x5d;0xae;0x22;0x23;
   0xb0;0x03;0x61;0xa3;0x96;0x17;0x7a;0x9c;0xb4;0x10;0xff;0x61;0xf2;0x00;0x15;0xad].
Proof. vm_compute. reflexivity. Qed.

(** ** Abstraction to the byte-at-a-time machine *)

Definition wf (c : nm_sha256_ctx) : Prop := length (buf c) = 64%nat /\ (n c < 64)%nat.
Definition abs (c : nm_sha256_ctx) : list Z * list Z := (s c, take (n c) (buf c)).

Lemma length_abs c : wf c -> length (abs c).2 = n c.
Proof. intros [Hb Hn]. simpl. rewrite length_take. lia. Qed.

(** One trip of the loop: absorbing the [k] bytes it copies. *)
Definition update_trip (c : nm_sha256_ctx) (d : list Z) : nm_sha256_ctx :=
  let c := mk_sha_ctx (s c) (len c) (memcpy (buf c) (n c) d) (n c + length d) in
  if (n c =? 64)%nat
  then let c := nm_sha256_block c (buf c) in mk_sha_ctx (s c) (len c) (buf c) 0
  else c.

Lemma update_trip_refines c d :
  wf c -> d <> [] -> (n c + length d <= 64)%nat ->
  wf (update_trip c d) /\ abs (update_trip c d) = absorb 64 sha_compress (abs c) d /\
  len (update_trip c d) = len c.
Proof.
  intros [Hb Hn] Hd Hle. unfold abs at 2. rewrite absorb_chunk by done.
  assert (Hbuf : length (memcpy (buf c) (n c) d) = 64%nat) by (rewrite length_memcpy; lia).
  unfold update_trip. cbn [n]. destruct (Nat.eqb_spec (n c + length d) 64) as [E|E].
  - rewrite decide_True by done. split_and!; [split; simpl; [done|lia]|done|done].
  - rewrite decide_False by done. split_and!; [split; simpl; [done|lia]|done|done].
Qed.

Lemma update_loop_refines fuel c p :
  wf c -> (length p <= fuel)%nat ->
  let c' := update_loop fuel c p in
  wf c' /\ abs c' = absorb 64 sha_compress (abs c) p /\ len c' = len c.
Proof.
  revert c p. induction fuel as [|fuel IH]; intros c p Hc Hp.
  { destruct p; [done|simpl in Hp; lia]. }
  destruct p as [|x p]; [done|]. cbn [update_loop].
  set (q := x :: p) in *. set (k := Nat.min (64 - n c) (length q)).
  assert (Hk : (0 < k <= length q)%nat) by (pose proof (proj2 Hc); unfold k, q; simpl; lia).
  assert (Hlk : length (take k q) = k) by (rewrite length_take; lia).
  destruct (update_trip_refines c (take k q) Hc) as (Hwf & Ha & Hl).
  { intros E. rewrite E in Hlk. simpl in Hlk. lia. }
  { rewrite Hlk. pose proof (proj2 Hc). unfold k. lia. }
  destruct (IH (update_trip c (take k q)) (drop k q) Hwf) as (Hwf' & Ha' & Hl').
  { rewrite length_drop. lia. }
  unfold update_trip in *. rewrite Hlk in *.
  split_and!; [done| |congruence].
  etransitivity; [exact Ha'|]. rewrite Ha, <-absorb_app. by rewrite take_drop.
Qed.

Lemma update_refines c p :
  wf c ->
  wf (nm_sha256_update c p) /\
  abs (nm_sha256_update c p) = absorb 64 sha_compress (abs c) p /\
  len (nm_sha256_update c p) = add64 (len c) (Z.of_nat (length p)).
Proof.
  intros H. unfold nm_sha256_update.
  destruct (update_loop_refines (length p)
    (mk_sha_ctx (s c) (add64 (len c) (Z.of_nat (length p))) (buf c) (n c)) p) as (? & ? & ?);
    [exact H|done|]. auto.
Qed.

Lemma update_n c p : wf c -> n (nm_sha256_update c p) = ((n c + length p) mod 64)%nat.
Proof.
  intros H. destruct (update_refines c p H) as (Hwf & Ha & _).
  rewrite <-(length_abs _ Hwf), Ha. unfold abs.
  destruct H as [Hb Hn]. rewrite length_absorb by (rewrite ?length_take; lia).
  rewrite length_take. f_equal. lia.
Qed.

(** Zero bytes the padding loop adds when [n] bytes are buffered. *)
Definition pad_zeros (k : nat) : nat := if (k <=? 56)%nat then 56 - k else 120 - k.

Lemma pad_loop_refines fuel c :
  wf c -> (pad_zeros (n c) <= fuel)%nat ->
  let c' := pad_loop fuel c in
  wf c' /\ n c' = 56%nat /\
  abs c' = absorb 64 sha_compress (abs c) (replicate (pad_zeros (n c)) 0).
Proof.
  revert c. induction fuel as [|fuel IH]; intros c Hwf Hf; simpl;
    destruct (Nat.eqb_spec (n c) 56) as [E|E].
  1, 3: rewrite E; done.
  { destruct Hwf as [_ Hlt]. unfold pad_zeros in Hf. destruct (Nat.leb_spec (n c) 56); lia. }
  destruct (update_refines c [0] Hwf) as (Hwf' & Ha & _).
  pose proof (update_n c [0] Hwf) as Hn. cbn [length] in Hn.
  assert (Hz : pad_zeros (n c) = S (pad_zeros (n (nm_sha256_update c [0])))).
  { rewrite Hn. destruct Hwf as [_ Hlt]. unfold pad_zeros.
    destruct (decide (n c = 63%nat)) as [->|]; [done|].
    rewrite Nat.mod_small by lia.
    destruct (Nat.leb_spec (n c) 56), (Nat.leb_spec (n c + 1) 56); lia. }
  destruct (IH (nm_sha256_update c [0]) Hwf' ltac:(lia)) as (H1 & H2 & H3).
  split_and!; [done|done|]. rewrite H3, Ha, Hz. done.
Qed.

(** ** The one-shot definition (FIPS 180-4) *)

(** The first 32 bits of the fractional parts of the square roots (initial value) and
    of the cube roots (constants) of the first [primes]. *)
(** The largest [r < 2 ^ bits] with [r ^ 3 <= x]. *)
Fixpoint cube_root (bits : nat) (r x : Z) : Z :=
  match bits with
  | O => r
  | S bits => let r' := r + 2 ^ Z.of_nat bits in cube_root bits (if r' ^ 3 <=? x then r' else r) x
  end.
Definition sqrt_bits (p : Z) : Z := Z.sqrt (p * 2 ^ 64) mod 2 ^ 32.
Definition cbrt_bits (p : Z) : Z := cube_root 36 0 (p * 2 ^ 96) mod 2 ^ 32.
Definition fips_K : list Z := cbrt_bits <$> primes.
Definition fips_H0 : list Z := sqrt_bits <$> take 8 primes.

Definition ROTR (k x : Z) : Z := x / 2 ^ k + (x mod 2 ^ k) * 2 ^ (32 - k).
Definition SHR (k x : Z) : Z := x / 2 ^ k.
Definition Ch (x y z : Z) : Z := Z.lxor (Z.land x y) (Z.land (2 ^ 32 - 1 - x) z).
Definition Maj (x y z : Z) : Z := Z.lor (Z.land x y) (Z.land (Z.lor x y) z).
Definition xor3 (x y z : Z) : Z := Z.lxor x (Z.lxor y z).
Definition Sum0 (x : Z) : Z := xor3 (ROTR 2 x) (ROTR 13 x) (ROTR 22 x).
Definition Sum1 (x : Z) : Z := xor3 (ROTR 6 x) (ROTR 11 x) (ROTR 25 x).
Definition sig0 (x : Z) : Z := xor3 (ROTR 7 x) (ROTR 18 x) (SHR 3 x).
Definition sig1 (x : Z) : Z := xor3 (ROTR 17 x) (ROTR 19 x) (SHR 10 x).

(** The schedule [W], one word after the other; a block is 16 big-endian words. *)
Definition block_words (M : list Z) : list Z := (fun t => be_load 4 (drop (4 * t) M) mod 2 ^ 32) <$> seq 0 16.
Definition next_W (W : list Z) (t : nat) : list Z :=
  let w i := nth (t - i) W 0 in W ++ [(sig1 (w 2%nat) + w 7%nat + sig0 (w 15%nat) + w 16%nat) mod 2 ^ 32].
Definition fips_W (M : list Z) : list Z := foldl next_W (block_words M) (seq 16 48).
(** One step on the working variables [a .. h]. *)
Definition fips_step (v : list Z) '((k, w) : Z * Z) : list Z :=
  let x i := nth i v 0 in
  let T1 := x 7%nat + Sum1 (x 4%nat) + Ch (x 4%nat) (x 5%nat) (x 6%nat) + k + w in
  let T2 := Sum0 (x 0%nat) + Maj (x 0%nat) (x 1%nat) (x 2%nat) in
  [(T1 + T2) mod 2 ^ 32; x 0%nat; x 1%nat; x 2%nat; (x 3%nat + T1) mod 2 ^ 32; x 4%nat; x 5%nat; x 6%nat].
Definition fips_compress (H M : list Z) : list Z :=
  zip_with (fun x y => (x + y) mod 2 ^ 32) H (foldl fips_step H (zip fips_K (fips_W M))).

Definition sha256_pad (m : list Z) : list Z :=
  m ++ [0x80] ++ replicate ((119 - length m mod 64) mod 64) 0
    ++ be_store 8 (8 * Z.of_nat (length m)).
Definition sha256_spec (m : list Z) : list Z :=
  flat_map (be_store 4) (foldl fips_compress fips_H0 (blocks 64 (sha256_pad m))).

(** *** The code's compression is the standard's *)

Lemma K256_ref : NM_K256 = fips_K.
Proof. vm_compute. reflexivity. Qed.
Lemma IV_ref : nm_sha256_IV = fips_H0.
Proof. vm_compute. reflexivity. Qed.
Lemma rotr_ref k x : 0 < k < 32 -> word 32 x -> rotr32 x k = ROTR k x.
Proof.
  intros Hk [H0 H1]. unfold rotr32, shl32, ROTR. rewrite T32_mod, Z.shiftr_div_pow2, Z.shiftl_mul_pow2 by lia.
  assert (E : 2 ^ 32 = 2 ^ k * 2 ^ (32 - k)) by (rewrite <-Z.pow_add_r by lia; f_equal; lia).
  assert (Hp : 0 < 2 ^ k /\ 0 < 2 ^ (32 - k)) by (split; apply Z.pow_pos_nonneg; lia).
  rewrite E, Z.mul_mod_distr_r by lia. rewrite <-Z.lxor_lor, Z.add_nocarry_lxor; [done|..].
  all: apply Z.bits_inj'; intros i Hi; rewrite Z.land_spec, Z.bits_0; destruct (Z.lt_ge_cases i (32 - k)).
  1, 3: rewrite (Z.mul_pow2_bits_low _ (32 - k) i) by lia; apply andb_false_r.
  all: rewrite <-(Z.mod_small (x / 2 ^ k) (2 ^ (32 - k))) by (split; [apply Z.div_pos; lia|apply Z.div_lt_upper_bound; lia]).
  all: rewrite Z.mod_pow2_bits_high by lia; done.
Qed.
Lemma not32_sub x : word 32 x -> not32 x = 2 ^ 32 - 1 - x.
Proof.
  intros Hx. unfold not32. change (2 ^ 32 - 1) with (Z.ones 32). change 0xFFFFFFFF with (Z.ones 32).
  rewrite Z.sub_nocarry_ldiff; apply Z.bits_inj'; intros i Hi; rewrite ?Z.ldiff_spec, ?Z.lxor_spec, ?Z.bits_0; (destruct (Z.lt_ge_cases i 32); [rewrite Z.ones_spec_low by lia|rewrite Z.ones_spec_high, (word_high 32 x) by (lia || done)]); by destruct (Z.testbit x i).
Qed.
Lemma be_load_4 q :
  be_load 4 q = Z.lor (Z.lor (Z.lor (q !!! 3%nat) (Z.shiftl (q !!! 2%nat) 8)) (Z.shiftl (q !!! 1%nat) 16)) (Z.shiftl (q !!! 0%nat) 24).
Proof. unfold be_load, gather. cbn [seq foldl Nat.sub]. rewrite Z.lor_0_l. do 3 f_equal. Qed.
Lemma load_word_ref p i : load_word p i = be_load 4 (drop (4 * i) p) mod 2 ^ 32.
Proof.
  unfold load_word. rewrite be_load_4, !lookup_total_drop, T32_mod. replace (4 * i + 0)%nat with (i * 4)%nat by lia. replace (4 * i + 1)%nat with (i * 4 + 1)%nat by lia.
  replace (4 * i + 2)%nat with (i * 4 + 2)%nat by lia. replace (4 * i + 3)%nat with (i * 4 + 3)%nat by lia. f_equal. bitwise.
Qed.
Lemma add32_sum a b c : add32 (add32 a b) c = (a + b + c) mod 2 ^ 32.
Proof. unfold add32. by rewrite !T32_mod, Zplus_mod_idemp_l. Qed.
Lemma add32_ref a b : add32 a b = (a + b) mod 2 ^ 32.
Proof. apply T32_mod. Qed.
Lemma xor3_ref a b c : Z.lxor (Z.lxor a b) c = xor3 a b c.
Proof. apply Z.lxor_assoc. Qed.

(** The array of the schedule, filled from the left. *)
Lemma length_block_words M : length (block_words M) = 16%nat /\ words32 (block_words M).
Proof.
  split; [done|]. apply Forall_fmap, Forall_forall. intros t _. unfold compose, word. apply Z.mod_pos_bound. lia.
Qed.
Lemma schedule_ref p : schedule p = fips_W p /\ length (fips_W p) = 64%nat /\ words32 (fips_W p).
Proof.
  assert (H0 : foldl (fun w i => <[i := load_word p i]> w) (replicate 64 0) (seq 0 16) = block_words p ++ replicate 48 0).
  { unfold block_words. cbn [seq foldl replicate insert list_insert fmap list_fmap app]. rewrite !load_word_ref. reflexivity. }
  unfold schedule, fips_W. rewrite H0. destruct (length_block_words p) as [Hl Hw]. set (W0 := block_words p) in *. clearbody W0.
  assert (H : forall k, (k <= 48)%nat -> let W := foldl next_W W0 (seq 16 k) in foldl extend_w (W0 ++ replicate 48 0) (seq 16 k) = W ++ replicate (48 - k) 0 /\ length W = (16 + k)%nat /\ words32 W).
  { induction k as [|k IH]; intros Hk; [done|]. destruct IH as (E & HlW & HwW); [lia|]. cbv zeta in *. rewrite seq_S, !foldl_app, E. cbn [foldl]. set (W := foldl next_W W0 (seq 16 k)) in *. clearbody W.
    replace (48 - k)%nat with (S (48 - S k)) by lia. cbn [replicate].
    assert (Hn : forall i, (0 < i <= 16)%nat -> (W ++ 0 :: replicate (48 - S k) 0) !!! (16 + k - i)%nat = nth (16 + k - i) W 0 /\ word 32 (nth (16 + k - i) W 0)).
    { intros i Hi. assert (Hlt : (16 + k - i < length W)%nat) by lia. rewrite lookup_total_app_l by done.
      split; [by apply total_nth|]. rewrite <-total_nth by done. by apply Forall_lookup_total_1. }
    unfold extend_w, next_W. destruct (Hn 15%nat ltac:(lia)) as [-> W15], (Hn 2%nat ltac:(lia)) as [-> W2], (Hn 16%nat ltac:(lia)) as [-> _], (Hn 7%nat ltac:(lia)) as [-> _].
    set (w15 := nth _ W 0) in *. set (w2 := nth (16 + k - 2) W 0) in *. unfold nm_ror. rewrite !rotr_ref by (lia || done). rewrite !xor3_ref, !Z.shiftr_div_pow2 by lia. fold (SHR 3 w15) (SHR 10 w2) (sig0 w15) (sig1 w2).
    rewrite <-HlW, Nat.add_comm. rewrite <-(Nat.add_0_r (length W)) at 1. rewrite insert_app_r. cbn [insert list_insert]. split; [|split].
    - rewrite <-app_assoc. cbn [app]. do 2 f_equal. rewrite add32_sum, add32_ref, <-Z.add_assoc, Zplus_mod_idemp_l. f_equal. lia.
    - rewrite length_app. cbn [length]. lia.
    - apply Forall_app_2; [done|]. apply List.Forall_cons; [|constructor]. unfold word. apply Z.mod_pos_bound. lia. }
  destruct (H 48%nat ltac:(lia)) as (E & H1 & H2). cbv zeta in *. rewrite E, app_nil_r. done.
Qed.
Lemma add32_mod_l a b : add32 (a mod 2 ^ 32) b = (a + b) mod 2 ^ 32.
Proof. by rewrite add32_ref, Zplus_mod_idemp_l. Qed.
Lemma add32_mod_r a b : add32 a (b mod 2 ^ 32) = (a + b) mod 2 ^ 32.
Proof. by rewrite add32_ref, Zplus_mod_idemp_r. Qed.
Lemma fips_step_ref w v i : words32 v -> length v = 8%nat -> word 32 (fips_K !!! i) -> word 32 w ->
  forall W, W !!! i = w ->
  let '(a, b, cc, d, e, f, g, h) := sha_round W (v !!! 0%nat, v !!! 1%nat, v !!! 2%nat, v !!! 3%nat, v !!! 4%nat, v !!! 5%nat, v !!! 6%nat, v !!! 7%nat) i in
  [a; b; cc; d; e; f; g; h] = fips_step v (fips_K !!! i, w) /\ words32 (fips_step v (fips_K !!! i, w)).
Proof.
  intros Hv Hl Hk Hw W HW. do 8 (destruct v as [|? v]; [done|]). destruct v; [|done]. cbn [lookup_total list_lookup_total]. unfold sha_round. rewrite K256_ref, HW. set (k := fips_K !!! i) in *. clearbody k.
  rename z into a, z0 into b, z1 into c, z2 into d, z3 into e, z4 into f, z5 into g, z6 into h.
  apply Forall_cons_1 in Hv as [Ha Hv]. apply Forall_cons_1 in Hv as [Hb Hv]. apply Forall_cons_1 in Hv as [Hc Hv]. apply Forall_cons_1 in Hv as [Hd Hv]. apply Forall_cons_1 in Hv as [He Hv]. apply Forall_cons_1 in Hv as [Hf Hv]. apply Forall_cons_1 in Hv as [Hg _].
  unfold nm_ror. rewrite !rotr_ref by (lia || done). rewrite !xor3_ref, not32_sub by done. fold (Sum1 e) (Sum0 a) (Ch e f g).
  assert (EM : xor3 (Z.land a b) (Z.land a c) (Z.land b c) = Maj a b c) by (unfold xor3, Maj; apply Z.bits_inj'; intros j _; rewrite !Z.lxor_spec, !Z.lor_spec, !Z.land_spec, !Z.lor_spec; by destruct (Z.testbit a j), (Z.testbit b j), (Z.testbit c j)). rewrite EM.
  cbv zeta. rewrite (add32_ref h), !add32_mod_l, (add32_ref (Sum0 a)), Zplus_mod_idemp_r, add32_mod_r. unfold fips_step. cbn [nth].
  split; [reflexivity|]. repeat (apply List.Forall_cons; [first [done|unfold word; apply Z.mod_pos_bound; lia]|]). constructor.
Qed.
Lemma fips_K_words : words32 fips_K /\ length fips_K = 64%nat.
Proof.
  rewrite <-K256_ref. split; [|reflexivity]. apply Forall_forall. intros x (y & _ & Hx)%in_flat_map. unfold row32, tabulate in Hx. apply in_map_iff in Hx as (i & <- & _). apply word_T32.
Qed.
#[local] Opaque sha_round fips_step fips_K.
Definition vars_list (v : vars) : list Z := let '(a, b, cc, d, e, f, g, h) := v in [a; b; cc; d; e; f; g; h].
Definition list_vars (l : list Z) : vars := (l !!! 0%nat, l !!! 1%nat, l !!! 2%nat, l !!! 3%nat, l !!! 4%nat, l !!! 5%nat, l !!! 6%nat, l !!! 7%nat).
Lemma sha_steps_ref W st k : (k <= 64)%nat -> length W = 64%nat -> words32 W -> length st = 8%nat -> words32 st ->
  vars_list (foldl (sha_round W) (list_vars st) (seq 0 k)) = foldl fips_step st (take k (zip fips_K W)) /\ words32 (foldl fips_step st (take k (zip fips_K W))).
Proof.
  intros Hk HlW HwW Hl Hw. destruct fips_K_words as [HK HlK]. induction k as [|k IH].
  - cbn [seq foldl take]. split; [|done]. clear -Hl. do 8 (destruct st as [|? st]; [done|]). by destruct st.
  - destruct IH as [E Hv]; [lia|]. rewrite seq_S, foldl_app. set (v := foldl (sha_round W) _ (seq 0 k)) in *. clearbody v. destruct v as [[[[[[[a b] c] d] e] f] g] h].
    assert (Ez : zip fips_K W !! k = Some (fips_K !!! k, W !!! k)) by (apply lookup_zip_with_Some; eexists _, _; split; [reflexivity|]; split; apply list_lookup_lookup_total_lt; lia).
    rewrite (take_S_r _ _ _ Ez), foldl_app, <-E. rewrite <-E in Hv. cbn [foldl Nat.add vars_list] in *.
    pose proof (fips_step_ref (W !!! k) [a; b; c; d; e; f; g; h] k Hv eq_refl ltac:(apply Forall_lookup_total_1; [done|lia]) ltac:(apply Forall_lookup_total_1; [done|lia]) W eq_refl) as Hs.
    cbn [lookup_total list_lookup_total] in Hs. destruct (sha_round W (a, b, c, d, e, f, g, h) k) as [[[[[[[a' b'] c'] d'] e'] f'] g'] h']. exact Hs.
Qed.
Lemma compress_vars st p : length st = 8%nat -> sha_compress st p = zip_with add32 st (vars_list (foldl (sha_round (schedule p)) (list_vars st) (seq 0 64))).
Proof.
  intros Hl. unfold sha_compress. fold (list_vars st). set (v := foldl _ _ _). clearbody v. destruct v as [[[[[[[a b] c] d] e] f] g] h]. do 8 (destruct st as [|? st]; [done|]). destruct st; [|done]. done.
Qed.
Lemma sha_compress_ref st p : length st = 8%nat -> words32 st -> sha_compress st p = fips_compress st p.
Proof.
  intros Hl Hw. destruct (schedule_ref p) as (Es & HlW & HwW). rewrite compress_vars, Es by done. destruct (sha_steps_ref (fips_W p) st 64 ltac:(lia) HlW HwW Hl Hw) as [E _].
  rewrite take_ge in E by (rewrite length_zip_with, HlW, (proj2 fips_K_words); lia). rewrite E. unfold fips_compress. generalize (foldl fips_step st (zip fips_K (fips_W p))). intros l. clear. revert l. induction st as [|x st IH]; intros [|y l]; [done..|]. cbn [zip_with]. by rewrite add32_ref, IH.
Qed.
Lemma words32_sha_compress st p : words32 (sha_compress st p).
Proof.
  unfold sha_compress. destruct (foldl _ _ _) as [[[[[[[? ?] ?] ?] ?] ?] ?] ?].
  repeat first [apply List.Forall_nil | apply List.Forall_cons]; apply word_T32.
Qed.
Lemma length_sha_compress st p : length (sha_compress st p) = 8%nat.
Proof. unfold sha_compress. by destruct (foldl _ _ _) as [[[[[[[? ?] ?] ?] ?] ?] ?] ?]. Qed.
Lemma foldl_compress_ref iv bl : length iv = 8%nat -> words32 iv -> foldl sha_compress iv bl = foldl fips_compress iv bl.
Proof.
  revert iv. induction bl as [|b bl IH]; intros iv Hl Hw; [done|]. cbn [foldl]. rewrite <-sha_compress_ref by done. apply IH; [apply length_sha_compress|apply words32_sha_compress].
Qed.
Lemma IV_words : length nm_sha256_IV = 8%nat /\ words32 nm_sha256_IV.
Proof. split; [done|]. repeat (apply List.Forall_cons; [unfold word; lia|]). constructor. Qed.
Lemma sha256_spec_code m : sha256_spec m = flat_map (be_store 4) (foldl sha_compress nm_sha256_IV (blocks 64 (sha256_pad m))).
Proof. destruct IV_words as [H1 H2]. unfold sha256_spec. by rewrite <-IV_ref, foldl_compress_ref. Qed.

Lemma pad_zeros_spec k : pad_zeros ((k + 1) mod 64) = ((119 - k mod 64) mod 64)%nat.
Proof.
  pose proof (Nat.mod_upper_bound k 64 ltac:(lia)) as Hk.
  rewrite <-Nat.Div0.add_mod_idemp_l. set (r := (k mod 64)%nat) in *. clearbody r.
  do 64 (destruct r as [|r]; [reflexivity|]). lia.
Qed.

Lemma length_sha256_pad m : (length (sha256_pad m) mod 64 = 0)%nat.
Proof.
  unfold sha256_pad. rewrite !length_app, length_replicate, length_be_store. cbn [length].
  pose proof (Nat.mod_upper_bound (length m) 64 ltac:(lia)).
  rewrite <-Nat.Div0.add_mod_idemp_l.
  set (r := (length m mod 64)%nat) in *. clearbody r.
  do 64 (destruct r as [|r]; [reflexivity|]). lia.
Qed.

Lemma length_foldl_compress bl st :
  length st = 8%nat -> length (foldl sha_compress st bl) = 8%nat.
Proof. revert st. induction bl; intros; simpl; auto using length_sha_compress. Qed.

(** The length block of [final] is the big-endian bit count. *)
Lemma length_block k :
  0 <= k < 2 ^ 61 ->
  tabulate 8 (fun i => T8 (Z.shiftr (mul64 k 8) (56 - 8 * Z.of_nat i))) = be_store 8 (8 * k).
Proof.
  intros Hk. unfold mul64. rewrite T64_id by (unfold word; lia). rewrite Z.mul_comm.
  apply list_eq_total; rewrite length_tabulate; [by rewrite length_be_store|].
  intros i Hi. unfold be_store. rewrite !tabulate_lookup by done. do 2 f_equal. lia.
Qed.

(** The output loop of [final] prints each state word big-endian. *)
Lemma print_word x : [T8 (Z.shiftr x 24); T8 (Z.shiftr x 16); T8 (Z.shiftr x 8); T8 x] = be_store 4 x.
Proof. unfold be_store, tabulate. simpl. by rewrite Z.shiftr_0_r. Qed.

#[local] Opaque pad_loop nm_sha256_update sha_compress.

Lemma final_spec c m :
  wf c -> abs c = absorb 64 sha_compress (nm_sha256_IV, []) m ->
  len c = Z.of_nat (length m) -> Z.of_nat (length m) < 2 ^ 61 ->
  (nm_sha256_final c).2 = sha256_spec m.
Proof.
  intros Hwf Ha Hl Hm. unfold nm_sha256_final. rewrite Hl, length_block by lia.
  destruct (update_refines c [0x80] Hwf) as (Hwf1 & Ha1 & _).
  pose proof (update_n c [0x80] Hwf) as Hn1.
  set (c1 := nm_sha256_update c [0x80]) in *. clearbody c1.
  assert (Hn : n c = (length m mod 64)%nat).
  { rewrite <-(length_abs c Hwf), Ha, length_absorb by (simpl; lia). done. }
  assert (Hz : pad_zeros (n c1) = ((119 - length m mod 64) mod 64)%nat).
  { rewrite Hn1, Hn. cbn [length]. rewrite Nat.Div0.add_mod_idemp_l. apply pad_zeros_spec. }
  destruct (pad_loop_refines 64 c1 Hwf1) as (Hwf2 & _ & Ha2).
  { rewrite Hz. pose proof (Nat.mod_upper_bound (119 - length m mod 64) 64). lia. }
  set (c2 := pad_loop 64 c1) in *. clearbody c2. rewrite Hz, Ha1, Ha in Ha2.
  destruct (update_refines c2 (be_store 8 (8 * Z.of_nat (length m))) Hwf2) as (_ & Ha3 & _).
  rewrite Ha2, <-!absorb_app, <-?app_assoc in Ha3. fold (sha256_pad m) in Ha3.
  rewrite absorb_spec in Ha3 by lia. apply (f_equal fst) in Ha3. cbn [abs fst] in Ha3.
  cbn [snd]. rewrite Ha3, sha256_spec_code.
  set (l := foldl _ _ _). assert (Hlen : length l = 8%nat) by by apply length_foldl_compress.
  rewrite <-Hlen, tabulate_id. apply flat_map_ext. apply print_word.
Qed.

Lemma wf_init junk : length junk = 64%nat -> wf (nm_sha256_init junk).
Proof. intros. split; simpl; lia. Qed.

Lemma streaming_refines junk pieces :
  length junk = 64%nat -> Z.of_nat (length (concat pieces)) < 2 ^ 61 ->
  let c := foldl nm_sha256_update (nm_sha256_init junk) pieces in
  wf c /\ abs c = absorb 64 sha_compress (nm_sha256_IV, []) (concat pieces) /\
  len c = Z.of_nat (length (concat pieces)).
Proof.
  intros Hj. induction pieces as [|p pieces IH] using rev_ind; intros Hlt.
  { simpl. split_and!; [by apply wf_init| |done]. unfold abs. simpl. by rewrite take_0. }
  rewrite concat_app, length_app in *. cbn [concat] in *. rewrite app_nil_r in *.
  destruct IH as (Hwf & Ha & Hl); [lia|]. cbv zeta in *.
  rewrite foldl_app. cbn [foldl].
  destruct (update_refines _ p Hwf) as (Hwf' & Ha' & Hl').
  split_and!; [done|by rewrite Ha', Ha, absorb_app|].
  rewrite Hl', Hl. unfold add64. rewrite T64_id; [lia|unfold word; lia].
Qed.

Lemma streaming_spec junk pieces :
  length junk = 64%nat -> Z.of_nat (length (concat pieces)) < 2 ^ 61 ->
  (nm_sha256_final (foldl nm_sha256_update (nm_sha256_init junk) pieces)).2
  = sha256_spec (concat pieces).
Proof. intros. destruct (streaming_refines junk pieces) as (? & ? & ?); auto using final_spec. Qed.

Lemma length_sha256_spec m : length (sha256_spec m) = 32%nat.
Proof.
  rewrite sha256_spec_code.
  pose proof (length_foldl_compress (blocks 64 (sha256_pad m)) nm_sha256_IV eq_refl) as H.
  set (l := foldl _ _ _) in *. clearbody l. by do 9 (destruct l as [|? l]; [done|]).
Qed.

Lemma bytes_sha256_spec m : bytes (sha256_spec m).
Proof.
  unfold sha256_spec. apply Forall_forall. intros x (y & _ & Hx)%in_flat_map.
  pose proof (bytes_be_store 4 y) as H. unfold bytes in H. rewrite Forall_forall in H. auto.
Qed.

(** ** Observational equality of contexts: the bytes of the block array past
    [n] are stale and never read. *)

Definition ctx_equiv (c1 c2 : nm_sha256_ctx) : Prop :=
  wf c1 /\ wf c2 /\ abs c1 = abs c2 /\ len c1 = len c2.
#[export] Instance ctx_equiv_sym : Symmetric ctx_equiv.
Proof. intros c1 c2 (?&?&?&?). split_and!; done. Qed.
#[export] Instance ctx_equiv_trans : Transitive ctx_equiv.
Proof. intros c1 c2 c3 (?&?&?&?) (?&?&?&?). split_and!; congruence || done. Qed.
#[export] Instance update_proper : Proper (ctx_equiv ==> eq ==> ctx_equiv) nm_sha256_update.
Proof.
  intros c1 c2 (H1&H2&Ha&Hl) p _ <-.
  destruct (update_refines c1 p H1) as (?&Ha1&Hl1), (update_refines c2 p H2) as (?&Ha2&Hl2).
  split_and!; congruence || done.
Qed.

Lemma update_app c x y :
  wf c -> ctx_equiv (nm_sha256_update (nm_sha256_update c x) y) (nm_sha256_update c (x ++ y)).
Proof.
  intros H. destruct (update_refines c x H) as (Hx&Hax&Hlx).
  destruct (update_refines _ y Hx) as (Hy&Hay&Hly), (update_refines c (x ++ y) H) as (Hxy&Haxy&Hlxy).
  split_and!; [done|done| |].
  - by rewrite Hay, Hax, Haxy, absorb_app.
  - rewrite Hly, Hlx, Hlxy, length_app. unfold add64. rewrite !T64_mod, Zplus_mod_idemp_l.
    f_equal. lia.
Qed.

(** ** Properties *)

(** C22. Streaming SHA-256: feeding a message to [nm_sha256_update] in any pieces
    and finalising yields exactly the FIPS 180-4 digest of the concatenation
    (0x80 padding, 64-bit big-endian bit length, blocks folded from the initial
    value), whatever the uninitialised block array held. *)
Theorem nm_sha256_streaming junk pieces :
  length junk = 64%nat -> Z.of_nat (length (concat pieces)) < 2 ^ 61 ->
  (nm_sha256_final (foldl nm_sha256_update (nm_sha256_init junk) pieces)).2
  = sha256_spec (concat pieces).
Proof. apply streaming_spec. Qed.

Lemma nm_sha256_streaming_witness :
  (nm_sha256_final (foldl nm_sha256_update (nm_sha256_init (replicate 64 9)) [[0x61]; []; [0x62; 0x63]])).2
  = sha256_spec [0x61; 0x62; 0x63].
Proof. apply (nm_sha256_streaming (replicate 64 9) [[0x61]; []; [0x62; 0x63]]); vm_compute; reflexivity. Defined.
