(* ===== verification/NmAes.v ===== *)
(** * AES-128 of the NeuroMorph core ([crypto/nm/nm_aes.h]).

    Both builds are modelled: the portable one ([nm_aes128_encrypt_sw]) and the
    AES-NI one, whose two intrinsics are operations of the class [AesNi] with
    their documented behaviour as laws.  The FIPS-197 transformations, with
    multiplication in GF(2^8) written out, are the reference. *)
From S2P Require Import Prelude.

Definition NM_SBOX : list Z := [
0x63;0x7c;0x77;0x7b;0xf2;0x6b;0x6f;0xc5;0x30;0x01;0x67;0x2b;0xfe;0xd7;0xab;0x76;
0xca;0x82;0xc9;0x7d;0xfa;0x59;0x47;0xf0;0xad;0xd4;0xa2;0xaf;0x9c;0xa4;0x72;0xc0;
0xb7;0xfd;0x93;0x26;0x36;0x3f;0xf7;0xcc;0x34;0xa5;0xe5;0xf1;0x71;0xd8;0x31;0x15;
0x04;0xc7;0x23;0xc3;0x18;0x96;0x05;0x9a;0x07;0x12;0x80;0xe2;0xeb;0x27;0xb2;0x75;
0x09;0x83;0x2c;0x1a;0x1b;0x6e;0x5a;0xa0;0x52;0x3b;0xd6;0xb3;0x29;0xe3;0x2f;0x84;
0x53;0xd1;0x00;0xed;0x20;0xfc;0xb1;0x5b;0x6a;0xcb;0xbe;0x39;0x4a;0x4c;0x58;0xcf;
0xd0;0xef;0xaa;0xfb;0x43;0x4d;0x33;0x85;0x45;0xf9;0x02;0x7f;0x50;0x3c;0x9f;0xa8;
0x51;0xa3;0x40;0x8f;0x92;0x9d;0x38;0xf5;0xbc;0xb6;0xda;0x21;0x10;0xff;0xf3;0xd2;
0xcd;0x0c;0x13;0xec;0x5f;0x97;0x44;0x17;0xc4;0xa7;0x7e;0x3d;0x64;0x5d;0x19;0x73;
0x60;0x81;0x4f;0xdc;0x22;0x2a;0x90;0x88;0x46;0xee;0xb8;0x14;0xde;0x5e;0x0b;0xdb;
0xe0;0x32;0x3a;0x0a;0x49;0x06;0x24;0x5c;0xc2;0xd3;0xac;0x62;0x91;0x95;0xe4;0x79;
0xe7;0xc8;0x37;0x6d;0x8d;0xd5;0x4e;0xa9;0x6c;0x56;0xf4;0xea;0x65;0x7a;0xae;0x08;
0xba;0x78;0x25;0x2e;0x1c;0xa6;0xb4;0xc6;0xe8;0xdd;0x74;0x1f;0x4b;0xbd;0x8b;0x8a;
0x70;0x3e;0xb5;0x66;0x48;0x03;0xf6;0x0e;0x61;0x35;0x57;0xb9;0x86;0xc1;0x1d;0x9e;
0xe1;0xf8;0x98;0x11;0x69;0xd9;0x8e;0x94;0x9b;0x1e;0x87;0xe9;0xce;0x55;0x28;0xdf;
0x8c;0xa1;0x89;0x0d;0xbf;0xe6;0x42;0x68;0x41;0x99;0x2d;0x0f;0xb0;0x54;0xbb;0x16].

Definition sbox (x : Z) : Z := NM_SBOX !!! Z.to_nat x.

(** ** Key expansion.  The struct [nm_aes128] is its one field, [rk[176]]. *)

Definition rcon : list Z := [0x01;0x02;0x04;0x08;0x10;0x20;0x40;0x80;0x1b;0x36].

(** The four bytes [t] a trip xors into the previous round key. *)
Definition key_t (rk : list Z) (byt rconi : nat) : list Z :=
  let t := [rk !!! (byt - 4)%nat; rk !!! (byt - 3)%nat; rk !!! (byt - 2)%nat; rk !!! (byt - 1)%nat] in
  if (byt mod 16 =? 0)%nat
  then let t := [t !!! 1%nat; t !!! 2%nat; t !!! 3%nat; t !!! 0%nat] in
       let t := sbox <$> t in
       <[0%nat := Z.lxor (t !!! 0%nat) (rcon !!! rconi)]> t
  else t.

(** [while (bytes < 176)]: each trip writes four bytes. *)
Fixpoint expand_loop (fuel : nat) (rk : list Z) (byt rconi : nat) : list Z :=
  match fuel with
  | O => rk
  | S fuel =>
      if (byt <? 176)%nat then
        let t := key_t rk byt rconi in
        let rk' := foldl (fun rk i => <[(byt + i)%nat :=
                     Z.lxor (rk !!! (byt + i - 16)%nat) (t !!! i)]> rk) rk (seq 0 4) in
        expand_loop fuel rk' (byt + 4) (if (byt mod 16 =? 0)%nat then S rconi else rconi)
      else rk
  end.

Definition nm_aes128_expand (junk key : list Z) : list Z :=
  expand_loop 40 (memcpy junk 0 (take 16 key)) 16 0.

(** ** The portable cipher *)

Definition nm_xtime (x : Z) : Z :=
  T8 (Z.lxor (Z.shiftl x 1) (Z.land (Z.shiftr x 7) 1 * 0x1b)).

Definition add_key (rk : list Z) (off : nat) (st : list Z) : list Z :=
  foldl (fun st i => <[i := Z.lxor (st !!! i) (rk !!! (off + i)%nat)]> st) st (seq 0 16).
Definition sub_bytes (st : list Z) : list Z :=
  foldl (fun st i => <[i := sbox (st !!! i)]> st) st (seq 0 16).
Definition shift_rows (t st : list Z) : list Z :=
  foldl (fun t r => foldl (fun t c =>
    <[(r + 4 * c)%nat := st !!! (r + 4 * ((c + r) mod 4))%nat]> t) t (seq 0 4)) t (seq 0 4).
Definition mix_column (st : list Z) (c : nat) : list Z :=
  let a0 := st !!! (4 * c)%nat in let a1 := st !!! (4 * c + 1)%nat in
  let a2 := st !!! (4 * c + 2)%nat in let a3 := st !!! (4 * c + 3)%nat in
  let st := <[(4 * c)%nat := Z.lxor (Z.lxor (Z.lxor (nm_xtime a0) (Z.lxor (nm_xtime a1) a1)) a2) a3]> st in
  let st := <[(4 * c + 1)%nat := Z.lxor (Z.lxor (Z.lxor a0 (nm_xtime a1)) (Z.lxor (nm_xtime a2) a2)) a3]> st in
  let st := <[(4 * c + 2)%nat := Z.lxor (Z.lxor (Z.lxor a0 a1) (nm_xtime a2)) (Z.lxor (nm_xtime a3) a3)]> st in
  <[(4 * c + 3)%nat := Z.lxor (Z.lxor (Z.lxor (Z.lxor (nm_xtime a0) a0) a1) a2) (nm_xtime a3)]> st.
Definition mix_columns (st : list Z) : list Z := foldl mix_column st (seq 0 4).

Definition sw_round (rk t st : list Z) (round : nat) : list Z :=
  add_key rk (16 * round) (mix_columns (shift_rows t (sub_bytes st))).

Definition nm_aes128_encrypt_sw (rk inp : list Z) : list Z :=
  let t := replicate 16 0 in
  let st := add_key rk 0 (take 16 inp) in
  let st := foldl (sw_round rk t) st (seq 1 9) in
  add_key rk 160 (shift_rows t (sub_bytes st)).

Definition nm_aes128_encrypt8_sw (rk inp : list Z) : list Z :=
  foldl (fun out j => memcpy out (16 * j) (nm_aes128_encrypt_sw rk (slice (16 * j) 16 inp)))
    (replicate 128 0) (seq 0 8).

(** FIPS-197 appendix C.1: key 00..0f, plaintext 00 11 .. ff. *)
Example aes128_fips_vector :
  nm_aes128_encrypt_sw (nm_aes128_expand (replicate 176 5) (tabulate 16 Z.of_nat))
    (tabulate 16 (fun i => 17 * Z.of_nat i))
  = [0x69;0xc4;0xe0;0xd8;0x6a;0x7b;0x04;0x30;0xd8;0xcd;0xb7;0x80;0x70;0xb4;0xc5;0x5a].
Proof. vm_compute. reflexivity. Qed.

(** ** FIPS-197 *)

(** Multiplication by x and by a polynomial in GF(2^8) modulo x^8+x^4+x^3+x+1. *)
Definition gf_x (a : Z) : Z := let d := 2 * a in if d <? 256 then d else Z.lxor d 0x11b.
Definition gmul (a b : Z) : Z :=
  foldl (fun acc i => if Z.testbit a (Z.of_nat i) then Z.lxor acc (Nat.iter i gf_x b) else acc)
    0 (seq 0 8).

(** The S-box: the inverse (the 254th power) followed by the affine map. *)
Definition gf_inv (a : Z) : Z :=
  let a2 := gmul a a in let a4 := gmul a2 a2 in let a8 := gmul a4 a4 in
  let a16 := gmul a8 a8 in let a32 := gmul a16 a16 in let a64 := gmul a32 a32 in
  let a128 := gmul a64 a64 in
  foldl gmul a2 [a4; a8; a16; a32; a64; a128].
Definition rotl8 (x k : Z) : Z := Z.lor (T8 (Z.shiftl x k)) (Z.shiftr x (8 - k)).
Definition affine (b : Z) : Z :=
  Z.lxor (Z.lxor (Z.lxor (Z.lxor (Z.lxor b (rotl8 b 1)) (rotl8 b 2)) (rotl8 b 3)) (rotl8 b 4)) 0x63.

Definition SubBytes (st : list Z) : list Z := tabulate 16 (fun i => affine (gf_inv (st !!! i))).
Definition ShiftRows (st : list Z) : list Z :=
  tabulate 16 (fun i => st !!! ((i + 4 * (i mod 4)) mod 16)%nat).
Definition MixColumns (st : list Z) : list Z :=
  tabulate 16 (fun i => let r := (i mod 4)%nat in let c := (4 * (i / 4))%nat in
    Z.lxor (Z.lxor (gmul 2 (st !!! (c + r)%nat)) (gmul 3 (st !!! (c + (r + 1) mod 4)%nat)))
           (Z.lxor (st !!! (c + (r + 2) mod 4)%nat) (st !!! (c + (r + 3) mod 4)%nat))).
Definition AddRoundKey (st k : list Z) : list Z := tabulate 16 (fun i => Z.lxor (st !!! i) (k !!! i)).

Definition round_key (rk : list Z) (r : nat) : list Z := slice (16 * r) 16 rk.
Definition Round (rk st : list Z) (r : nat) : list Z :=
  AddRoundKey (MixColumns (ShiftRows (SubBytes st))) (round_key rk r).
Definition Cipher (rk inp : list Z) : list Z :=
  AddRoundKey (ShiftRows (SubBytes (foldl (Round rk) (AddRoundKey inp (round_key rk 0)) (seq 1 9))))
    (round_key rk 10).

Definition block (l : list Z) : Prop := length l = 16%nat /\ bytes l.

Lemma sbox_spec x : word 8 x -> sbox x = affine (gf_inv x).
Proof.
  intros Hx. apply Z.eqb_eq, (all_bytes_spec (fun x => sbox x =? affine (gf_inv x))); [|done].
  vm_compute. reflexivity.
Qed.
Lemma word_sbox x : word 8 (sbox x).
Proof.
  apply bytes_lookup. apply Forall_forall. intros y Hy.
  assert (H : forallb (fun y => (0 <=? y) && (y <? 256)) NM_SBOX = true) by (vm_compute; reflexivity).
  rewrite forallb_forall in H. apply H in Hy. unfold word. lia.
Qed.
Lemma word_xtime x : word 8 (nm_xtime x).
Proof. apply word_T8. Qed.
#[export] Hint Resolve word_sbox word_xtime : words.

Lemma gmul_2 x : word 8 x -> gmul 2 x = nm_xtime x.
Proof.
  intros Hx. apply Z.eqb_eq, (all_bytes_spec (fun x => gmul 2 x =? nm_xtime x)); [|done].
  vm_compute. reflexivity.
Qed.
Lemma gmul_3 x : word 8 x -> gmul 3 x = Z.lxor (nm_xtime x) x.
Proof.
  intros Hx. apply Z.eqb_eq, (all_bytes_spec (fun x => gmul 3 x =? Z.lxor (nm_xtime x) x)); [|done].
  vm_compute. reflexivity.
Qed.

Lemma block_tabulate f : (forall i, (i < 16)%nat -> word 8 (f i)) -> block (tabulate 16 f).
Proof. intros. split; [apply length_tabulate|by apply Forall_tabulate]. Qed.
Lemma block_lookup st i : block st -> word 8 (st !!! i).
Proof. intros []. by apply bytes_lookup. Qed.
#[export] Hint Resolve block_lookup : words.

Lemma add_key_eq rk off st :
  length st = 16%nat -> (off + 16 <= length rk)%nat ->
  add_key rk off st = AddRoundKey st (slice off 16 rk).
Proof.
  intros Hst Hrk. unfold add_key.
  rewrite (loop_map_tabulate (fun i x => Z.lxor x (rk !!! (off + i)%nat))) by done.
  apply list_eq_total; unfold AddRoundKey; rewrite !length_tabulate; [done|].
  intros i Hi. rewrite !tabulate_lookup by done. f_equal. unfold slice.
  rewrite !list_lookup_total_alt, lookup_take_lt, lookup_drop by lia. done.
Qed.
Lemma sub_bytes_eq st : block st -> sub_bytes st = SubBytes st.
Proof.
  intros [Hl Hb]. unfold sub_bytes. rewrite (loop_map_tabulate (fun _ x => sbox x)) by done.
  apply list_eq_total; unfold SubBytes; rewrite !length_tabulate; [done|].
  intros i Hi. rewrite !tabulate_lookup by done. apply sbox_spec. by apply bytes_lookup.
Qed.
Lemma shift_rows_eq t st : length t = 16%nat -> shift_rows t st = ShiftRows st.
Proof. intros Ht. do 16 (destruct t as [|? t]; [simpl in Ht; lia|]). destruct t; [reflexivity|simpl in Ht; lia]. Qed.
Lemma mix_columns_eq st : block st -> mix_columns st = MixColumns st.
Proof.
  intros [Hl Hb]. do 16 (destruct st as [|? st]; [simpl in Hl; lia|]).
  destruct st; [clear Hl|simpl in Hl; lia].
  unfold bytes in Hb. repeat match goal with H : Forall _ (_ :: _) |- _ => apply Forall_cons_1 in H as [? H] end.
  cbv -[Z.lxor nm_xtime gmul]. rewrite !gmul_2, !gmul_3 by done.
  repeat (apply (f_equal2 cons); [bitwise|]). reflexivity.
Qed.

Lemma block_AddRoundKey st k : block st -> bytes k -> block (AddRoundKey st k).
Proof. intros. apply block_tabulate. intros. apply word_lxor; words. Qed.
Lemma block_SubBytes st : block st -> block (SubBytes st).
Proof. intros. apply block_tabulate. intros. rewrite <-sbox_spec; words. Qed.
Lemma block_ShiftRows st : block st -> block (ShiftRows st).
Proof. intros. apply block_tabulate. intros. words. Qed.
Lemma block_MixColumns st : block st -> block (MixColumns st).
Proof. intros. apply block_tabulate. intros. cbv zeta. rewrite gmul_2, gmul_3 by words. words. Qed.
Lemma bytes_round_key rk r : bytes rk -> bytes (round_key rk r).
Proof. apply Forall_slice. Qed.
#[export] Hint Resolve block_AddRoundKey block_SubBytes block_ShiftRows block_MixColumns
  bytes_round_key : words.

(** A well-formed expanded key: 11 round keys of 16 bytes. *)
Definition wf_key (rk : list Z) : Prop := length rk = 176%nat /\ bytes rk.

Lemma sw_round_eq rk t st r :
  wf_key rk -> length t = 16%nat -> block st -> (r <= 10)%nat -> sw_round rk t st r = Round rk st r.
Proof.
  intros [Hl Hb] Ht Hst Hr. unfold sw_round, Round.
  rewrite sub_bytes_eq, shift_rows_eq by done. rewrite mix_columns_eq by words.
  apply add_key_eq; [|lia]. apply block_MixColumns; words.
Qed.
Lemma block_Round rk st r : wf_key rk -> block st -> block (Round rk st r).
Proof. intros [Hl Hb] ?. unfold Round. words. Qed.

Lemma block_rounds rk st l : wf_key rk -> block st -> block (foldl (Round rk) st l).
Proof. intros ?. revert st. induction l; intros st ?; simpl; auto using block_Round. Qed.

Lemma sw_rounds_eq rk t st l :
  wf_key rk -> length t = 16%nat -> block st -> Forall (fun r => r <= 10)%nat l ->
  foldl (sw_round rk t) st l = foldl (Round rk) st l.
Proof.
  intros Hrk Ht. revert st. induction l as [|r l IH]; intros st Hst Hl; [done|].
  apply Forall_cons_1 in Hl as [Hr Hl]. simpl.
  rewrite sw_round_eq by done. apply IH; auto using block_Round.
Qed.

Lemma encrypt_sw_cipher rk inp :
  wf_key rk -> block inp -> nm_aes128_encrypt_sw rk inp = Cipher rk inp.
Proof.
  intros Hrk Hin. pose proof Hrk as [Hl Hb]. unfold nm_aes128_encrypt_sw, Cipher.
  rewrite (take_ge inp) by (rewrite (proj1 Hin); done).
  rewrite (add_key_eq rk 0) by (rewrite ?(proj1 Hin); lia).
  change (slice 0 16 rk) with (round_key rk 0).
  set (st := AddRoundKey inp _). assert (Hst : block st) by (unfold st; words).
  rewrite sw_rounds_eq by (try done; apply Forall_forall; intros ? ?%in_seq; lia).
  pose proof (block_rounds rk st (seq 1 9) Hrk Hst) as Hst'. set (st' := foldl _ _ _) in *.
  rewrite sub_bytes_eq, shift_rows_eq by done.
  apply add_key_eq; [|lia]. apply block_ShiftRows. words.
Qed.

Lemma block_Cipher rk inp : wf_key rk -> block inp -> block (Cipher rk inp).
Proof.
  intros Hrk Hin. pose proof Hrk as [Hl Hb]. unfold Cipher.
  assert (block (foldl (Round rk) (AddRoundKey inp (round_key rk 0)) (seq 1 9)))
    by (apply block_rounds; [done|words]). words.
Qed.

(** ** Key expansion against FIPS-197 section 5.2 *)

Definition fips_rcon (j : nat) : Z := Nat.iter (j - 1) gf_x 1.
(** Byte [k] of [temp] for word [i]: [SubWord(RotWord(w[i-1])) xor Rcon] when
    [4 | i], else [w[i-1]]. *)
Definition fips_temp (rk : list Z) (i k : nat) : Z :=
  if (i mod 4 =? 0)%nat
  then Z.lxor (affine (gf_inv (rk !!! (4 * (i - 1) + (k + 1) mod 4)%nat)))
              (if (k =? 0)%nat then fips_rcon (i / 4) else 0)
  else rk !!! (4 * (i - 1) + k)%nat.
Definition key_schedule (rk key : list Z) : Prop :=
  take 16 rk = key /\
  forall i k, (4 <= i < 44)%nat -> (k < 4)%nat ->
    rk !!! (4 * i + k)%nat = Z.lxor (rk !!! (4 * (i - 4) + k)%nat) (fips_temp rk i k).

Lemma expand_trip (rk t : list Z) byt p :
  (16 <= byt)%nat -> (byt + 4 <= length rk)%nat ->
  foldl (fun rk i => <[(byt + i)%nat := Z.lxor (rk !!! (byt + i - 16)%nat) (t !!! i)]> rk)
    rk (seq 0 4) !!! p =
  if decide (byt <= p < byt + 4)%nat then Z.lxor (rk !!! (p - 16)%nat) (t !!! (p - byt)%nat)
  else rk !!! p.
Proof.
  intros H1 H2. cbn [seq foldl].
  rewrite !lookup_total_insert by (rewrite ?length_insert; lia).
  repeat case_decide; try lia; try done; f_equal; f_equal; lia.
Qed.

Lemma length_expand_trip (rk t : list Z) byt l :
  length (foldl (fun rk i => <[(byt + i)%nat := Z.lxor (rk !!! (byt + i - 16)%nat) (t !!! i)]> rk)
    rk l) = length rk.
Proof. revert rk. induction l; intros; simpl; [done|]. rewrite IHl. apply length_insert. Qed.

Lemma fips_rcon_ok j : (1 <= j <= 10)%nat -> rcon !!! (j - 1)%nat = fips_rcon j.
Proof. intros. do 11 (destruct j as [|j]; [lia || reflexivity|]). lia. Qed.

(** The bytes the code prepares are those of the standard. *)
Lemma key_t_spec rk i k :
  bytes rk -> (4 <= i < 44)%nat -> (k < 4)%nat ->
  key_t rk (4 * i) (i / 4 - (if (i mod 4 =? 0)%nat then 1 else 0)) !!! k = fips_temp rk i k.
Proof.
  intros Hb Hi Hk. unfold key_t, fips_temp.
  assert (Hm : (4 * i mod 16 =? 0)%nat = (i mod 4 =? 0)%nat).
  { replace 16%nat with (4 * 4)%nat by done. rewrite Nat.Div0.mul_mod_distr_l.
    destruct (i mod 4)%nat; done. }
  rewrite Hm. destruct (Nat.eqb_spec (i mod 4) 0) as [E|E].
  - rewrite fips_rcon_ok by (pose proof (Nat.Div0.div_mod i 4); lia).
    do 4 (destruct k as [|k]; [simpl; rewrite ?Z.lxor_0_r, <-sbox_spec by words; repeat f_equal; lia|]).
    lia.
  - do 4 (destruct k as [|k]; [simpl; f_equal; lia|]). lia.
Qed.

Definition rconi_at (i : nat) : nat := (i / 4 - (if (i mod 4 =? 0)%nat then 1 else 0))%nat.

Lemma rconi_step i :
  (4 <= i)%nat ->
  (if (4 * i mod 16 =? 0)%nat then S (rconi_at i) else rconi_at i) = rconi_at (i + 1).
Proof.
  intros Hi. unfold rconi_at. replace 16%nat with (4 * 4)%nat by done.
  rewrite Nat.Div0.mul_mod_distr_l.
  pose proof (Nat.Div0.div_mod i 4) as H1. pose proof (Nat.Div0.div_mod (i + 1) 4) as H2.
  pose proof (Nat.mod_upper_bound i 4) as H3. pose proof (Nat.mod_upper_bound (i + 1) 4) as H4.
  set (a := (i / 4)%nat) in *. set (b := ((i + 1) / 4)%nat) in *.
  set (r := (i mod 4)%nat) in *. set (r' := ((i + 1) mod 4)%nat) in *. clearbody a b r r'.
  destruct (Nat.eqb_spec (4 * r) 0), (Nat.eqb_spec r 0), (Nat.eqb_spec r' 0); lia.
Qed.

Lemma fips_temp_ext rk rk' i k :
  (1 <= i)%nat -> (k < 4)%nat -> (forall p, (p < 4 * i)%nat -> rk !!! p = rk' !!! p) ->
  fips_temp rk i k = fips_temp rk' i k.
Proof.
  intros Hi Hk H. unfold fips_temp.
  pose proof (Nat.mod_upper_bound (k + 1) 4). rewrite !H by lia. done.
Qed.

Lemma expand_loop_ok fuel rk i :
  length rk = 176%nat -> bytes rk -> (4 <= i <= 44)%nat -> (44 - i <= fuel)%nat ->
  (forall j k, (4 <= j < i)%nat -> (k < 4)%nat ->
     rk !!! (4 * j + k)%nat = Z.lxor (rk !!! (4 * (j - 4) + k)%nat) (fips_temp rk j k)) ->
  let rk' := expand_loop fuel rk (4 * i) (rconi_at i) in
  wf_key rk' /\ (forall p, (p < 16)%nat -> rk' !!! p = rk !!! p) /\
  forall j k, (4 <= j < 44)%nat -> (k < 4)%nat ->
     rk' !!! (4 * j + k)%nat = Z.lxor (rk' !!! (4 * (j - 4) + k)%nat) (fips_temp rk' j k).
Proof.
  revert rk i. induction fuel as [|fuel IH]; intros rk i Hl Hb Hi Hf Hrec.
  { replace i with 44%nat in * by lia. done. }
  cbn [expand_loop]. destruct (Nat.ltb_spec (4 * i) 176).
  2:{ replace i with 44%nat in * by lia. done. }
  rewrite rconi_step by lia. replace (4 * i + 4)%nat with (4 * (i + 1))%nat by lia.
  set (t := key_t rk (4 * i) (rconi_at i)).
  set (rk1 := foldl _ rk (seq 0 4)).
  assert (H1 : forall p, rk1 !!! p = if decide (4 * i <= p < 4 * i + 4)%nat
      then Z.lxor (rk !!! (p - 16)%nat) (t !!! (p - 4 * i)%nat) else rk !!! p)
    by (intros; apply expand_trip; lia).
  assert (Hl1 : length rk1 = 176%nat) by (unfold rk1; by rewrite length_expand_trip).
  assert (Ht : forall k, (k < 4)%nat -> t !!! k = fips_temp rk i k)
    by (intros; apply key_t_spec; [done|lia|done]).
  assert (Hlow : forall p, (p < 4 * i)%nat -> rk1 !!! p = rk !!! p)
    by (intros p Hp; rewrite H1, decide_False by lia; done).
  destruct (IH rk1 (i + 1)%nat Hl1) as (Hwf & Hkey & Hall); [|lia|lia| |].
  - apply Forall_forall. intros x Hx. apply list_elem_of_In, list_elem_of_lookup in Hx as [p Hp].
    apply list_lookup_total_correct in Hp as <-. rewrite H1.
    case_decide; [|words]. rewrite Ht by lia. apply word_lxor; [lia|words|].
    unfold fips_temp. rewrite <-sbox_spec by words.
    destruct (_ =? 0)%nat; [|words]. apply word_lxor; [lia|words|].
    case_match; [|words]. rewrite <-fips_rcon_ok; [|pose proof (Nat.Div0.div_mod i 4);
      pose proof (Nat.mod_upper_bound i 4); lia].
    apply bytes_lookup. by repeat constructor.
  - intros j k Hj Hk. rewrite (fips_temp_ext rk1 rk) by (try lia; intros; apply Hlow; lia).
    rewrite (Hlow (4 * (j - 4) + k)%nat) by lia.
    destruct (decide (j = i)) as [->|].
    + rewrite H1, decide_True by lia. rewrite Ht by lia. f_equal; f_equal; lia.
    + rewrite Hlow by lia. apply Hrec; lia.
  - split_and!; [done| |done]. intros. rewrite Hkey, Hlow by lia. done.
Qed.

Lemma expand_ok junk key :
  length junk = 176%nat -> bytes junk -> block key ->
  wf_key (nm_aes128_expand junk key) /\ key_schedule (nm_aes128_expand junk key) key.
Proof.
  intros Hj Hbj [Hk Hbk]. unfold nm_aes128_expand. rewrite (take_ge key) by lia.
  destruct (expand_loop_ok 40 (memcpy junk 0 key) 4) as (Hwf & Hkey & Hrec);
    [rewrite length_memcpy; lia|by apply Forall_memcpy|lia|lia|intros; lia|].
  change (expand_loop 40 _ 16 0) with (expand_loop 40 (memcpy junk 0 key) (4 * 4) (rconi_at 4)).
  cbv zeta in *. set (rk := expand_loop _ _ _ _) in *. clearbody rk.
  split; [done|]. split; [|done].
  apply list_eq_total; rewrite length_take; [rewrite (proj1 Hwf); lia|].
  intros p Hp. rewrite list_lookup_total_alt, lookup_take_lt by lia.
  rewrite <-list_lookup_total_alt, Hkey by lia. unfold memcpy.
  rewrite take_0, app_nil_l, lookup_total_app_l by lia. done.
Qed.

(** The schedule of a key is unique. *)
Lemma key_schedule_unique rk rk' key :
  wf_key rk -> wf_key rk' -> key_schedule rk key -> key_schedule rk' key -> rk = rk'.
Proof.
  intros [Hl _] [Hl' _] [Ht Hs] [Ht' Hs']. apply list_eq_total; [lia|]. rewrite Hl.
  intros p. induction (lt_wf p) as [p _ IH]. intros Hp.
  destruct (decide (p < 16)%nat).
  { rewrite <-(lookup_total_take_lt rk 16), <-(lookup_total_take_lt rk' 16), Ht, Ht' by lia. done. }
  pose proof (Nat.div_mod_eq p 4). pose proof (Nat.mod_upper_bound p 4 ltac:(lia)).
  replace p with (4 * (p / 4) + p mod 4)%nat at 1 by lia.
  replace p with (4 * (p / 4) + p mod 4)%nat at 3 by lia.
  rewrite Hs, Hs' by lia. f_equal; [apply IH; lia|]. apply fips_temp_ext; [lia|lia|]. intros. apply IH; lia.
Qed.

(** Key expansion overwrites the whole struct. *)
Lemma expand_indep junk junk' key :
  length junk = 176%nat -> bytes junk -> length junk' = 176%nat -> bytes junk' -> block key ->
  nm_aes128_expand junk key = nm_aes128_expand junk' key.
Proof.
  intros Hj Hb Hj' Hb' Hk. destruct (expand_ok junk key Hj Hb Hk) as [H1 H2].
  destruct (expand_ok junk' key Hj' Hb' Hk) as [H3 H4]. exact (key_schedule_unique _ _ _ H1 H3 H2 H4).
Qed.

(** ** The AES-NI build *)

(** The two AES intrinsics, with the behaviour Intel documents: one inverse-free
    round is ShiftRows, SubBytes, MixColumns and the key xor; the last round
    leaves MixColumns out. *)
Class AesNi := {
  mm_aesenc : list Z -> list Z -> list Z;
  mm_aesenclast : list Z -> list Z -> list Z }.
Class AesNiLaws `(AesNi) : Prop := {
  aesenc_spec a k : block a -> block k ->
    mm_aesenc a k = AddRoundKey (MixColumns (SubBytes (ShiftRows a))) k;
  aesenclast_spec a k : block a -> block k ->
    mm_aesenclast a k = AddRoundKey (SubBytes (ShiftRows a)) k }.

Definition mm_xor (a b : list Z) : list Z := AddRoundKey a b.
Definition mm_loadu (p : list Z) (off : nat) : list Z := slice off 16 p.

Section AesNiCode.
Context `{AesNiLaws}.

Definition nm_aes128_encrypt_ni (rk inp : list Z) : list Z :=
  let m := mm_loadu inp 0 in
  let m := mm_xor m (mm_loadu rk 0) in
  let m := foldl (fun m r => mm_aesenc m (mm_loadu rk (16 * r))) m (seq 1 9) in
  mm_aesenclast m (mm_loadu rk 160).

(** Eight blocks in flight: the round loop is outside, the lane loop inside. *)
Definition nm_aes128_encrypt8_ni (a inp : list Z) : list Z :=
  let rk := (fun r => mm_loadu a (16 * r)) <$> seq 0 11 in
  let m := (fun j => mm_xor (mm_loadu inp (16 * j)) (rk !!! 0%nat)) <$> seq 0 8 in
  let m := foldl (fun m r =>
             foldl (fun m j => <[j := mm_aesenc (m !!! j) (rk !!! r)]> m) m (seq 0 8))
             m (seq 1 9) in
  (foldl (fun '(m, out) j =>
     let m := <[j := mm_aesenclast (m !!! j) (rk !!! 10%nat)]> m in
     (m, memcpy out (16 * j) (m !!! j))) (m, replicate 128 0) (seq 0 8)).2.

Lemma ShiftRows_SubBytes st : SubBytes (ShiftRows st) = ShiftRows (SubBytes st).
Proof.
  apply list_eq_total; unfold SubBytes, ShiftRows; rewrite !length_tabulate; [done|].
  intros i Hi. rewrite !tabulate_lookup; [done|apply Nat.mod_upper_bound; lia|done|done|done].
Qed.

Lemma block_round_key rk r : wf_key rk -> (r <= 10)%nat -> block (round_key rk r).
Proof.
  intros [Hl Hb] Hr. split; [|by apply bytes_round_key].
  unfold round_key. rewrite length_slice; lia.
Qed.

Lemma aesenc_Round rk st r :
  wf_key rk -> block st -> (r <= 10)%nat -> mm_aesenc st (round_key rk r) = Round rk st r.
Proof.
  intros. rewrite aesenc_spec, ShiftRows_SubBytes by auto using block_round_key. done.
Qed.

Lemma ni_rounds_eq rk st l :
  wf_key rk -> block st -> Forall (fun r => r <= 10)%nat l ->
  foldl (fun m r => mm_aesenc m (mm_loadu rk (16 * r))) st l = foldl (Round rk) st l.
Proof.
  intros Hrk. revert st. induction l as [|r l IH]; intros st Hst Hl; [done|].
  apply Forall_cons_1 in Hl as [Hr Hl]. cbn [foldl].
  change (mm_loadu rk (16 * r)) with (round_key rk r). rewrite aesenc_Round by done.
  apply IH; auto using block_Round.
Qed.

Lemma rounds_seq : Forall (fun r => r <= 10)%nat (seq 1 9).
Proof. apply Forall_forall. intros ? ?%in_seq. lia. Qed.

Lemma encrypt_ni_cipher rk inp :
  wf_key rk -> block inp -> nm_aes128_encrypt_ni rk inp = Cipher rk inp.
Proof.
  intros Hrk Hin. unfold nm_aes128_encrypt_ni, Cipher, mm_xor.
  change (mm_loadu rk 0) with (round_key rk 0). change (mm_loadu rk 160) with (round_key rk 10).
  replace (mm_loadu inp 0) with inp by (symmetry; apply take_ge; rewrite (proj1 Hin); done).
  set (st := AddRoundKey inp _).
  assert (Hst : block st) by (apply block_AddRoundKey; [done|apply block_round_key; [done|lia]]).
  rewrite ni_rounds_eq by (done || apply rounds_seq).
  rewrite aesenclast_spec, ShiftRows_SubBytes; [done|by apply block_rounds|].
  by apply block_round_key.
Qed.

(** The lane loops of [encrypt8]. *)
Lemma lanes_rounds (rks m : list (list Z)) l :
  length m = 8%nat ->
  foldl (fun m r => foldl (fun m j => <[j := mm_aesenc (m !!! j) (rks !!! r)]> m) m (seq 0 8)) m l
  = (fun st => foldl (fun st r => mm_aesenc st (rks !!! r)) st l) <$> m.
Proof.
  revert m. induction l as [|r l IH]; intros m Hm; cbn [foldl].
  { symmetry. apply list_fmap_id. }
  rewrite (loop_fmap (fun st => mm_aesenc st (rks !!! r))) by done.
  rewrite IH by (by rewrite length_fmap). by rewrite <-list_fmap_compose.
Qed.

Lemma lanes_store (g : list Z -> list Z) (m : list (list Z)) out :
  length m = 8%nat ->
  (foldl (fun '(m, out) j => let m := <[j := g (m !!! j)]> m in
     (m, memcpy out (16 * j) (m !!! j))) (m, out) (seq 0 8)).2
  = foldl (fun out j => memcpy out (16 * j) (g (m !!! j))) out (seq 0 8).
Proof.
  intros Hm. do 8 (destruct m as [|? m]; [simpl in Hm; lia|]).
  destruct m; [reflexivity|simpl in Hm; lia].
Qed.

Lemma encrypt8_ni_sw rk inp :
  wf_key rk -> length inp = 128%nat -> bytes inp ->
  nm_aes128_encrypt8_ni rk inp = nm_aes128_encrypt8_sw rk inp.
Proof.
  intros Hrk Hl Hb. unfold nm_aes128_encrypt8_ni, nm_aes128_encrypt8_sw.
  rewrite lanes_rounds by done. set (rks := _ <$> seq 0 11).
  etransitivity; [apply (lanes_store (fun st => mm_aesenclast st (rks !!! 10%nat)));
                  by rewrite !length_fmap|].
  apply foldl_ext_seq. intros out j Hj. f_equal.
  unfold rks. rewrite <-list_fmap_compose, !lookup_fmap_seq by lia. unfold compose.
  assert (Hblk : block (slice (16 * j) 16 inp))
    by (split; [rewrite length_slice; lia|by apply Forall_slice]).
  rewrite encrypt_sw_cipher, <-encrypt_ni_cipher by done. unfold nm_aes128_encrypt_ni.
  replace (mm_loadu (slice (16 * j) 16 inp) 0) with (mm_loadu inp (16 * j))
    by (symmetry; apply (take_ge (slice (16 * j) 16 inp)); rewrite (proj1 Hblk); done).
  done.
Qed.
End AesNiCode.

(** A machine with the documented instructions exists. *)
Definition aesni_ref : AesNi := {|
  mm_aesenc a k := AddRoundKey (MixColumns (SubBytes (ShiftRows a))) k;
  mm_aesenclast a k := AddRoundKey (SubBytes (ShiftRows a)) k |}.
#[export] Instance aesni_ref_laws : AesNiLaws aesni_ref.
Proof. split; done. Qed.

(** ** Properties *)

(** C27. The AES-128 of NeuroMorph is FIPS-197: the key expansion loop stops after
    writing 176 bytes, whatever the array held, and its result is the key schedule of
    section 5.2; on any expanded key (11 round keys of 16 bytes) the portable routine
    computes the standard's cipher, with the S-box as inversion plus affine map and
    MixColumns as multiplication in GF(2^8); and for any instructions that behave as
    documented the single-block and the eight-block AES-NI routines give the same
    bytes as the portable ones. *)
Theorem aes128_correct (N : AesNi) (L : AesNiLaws N) junk key inp inp8 :
  length junk = 176%nat -> bytes junk -> block key -> block inp -> length inp8 = 128%nat -> bytes inp8 ->
  wf_key (nm_aes128_expand junk key) /\ key_schedule (nm_aes128_expand junk key) key /\
  (forall rk, wf_key rk ->
     nm_aes128_encrypt_sw rk inp = Cipher rk inp /\
     nm_aes128_encrypt_ni rk inp = nm_aes128_encrypt_sw rk inp /\
     nm_aes128_encrypt8_ni rk inp8 = nm_aes128_encrypt8_sw rk inp8).
Proof.
  intros Hj Hjb Hk Hi H8 H8b. destruct (expand_ok junk key Hj Hjb Hk) as [E1 E2]. split_and!; [done|done|].
  intros rk Hrk. split_and!; [by apply encrypt_sw_cipher| |by apply encrypt8_ni_sw].
  by rewrite encrypt_ni_cipher, encrypt_sw_cipher.
Qed.

Lemma aes128_correct_witness :
  wf_key (nm_aes128_expand (replicate 176 5) (replicate 16 7)) /\
  key_schedule (nm_aes128_expand (replicate 176 5) (replicate 16 7)) (replicate 16 7) /\
  (forall rk, wf_key rk ->
     nm_aes128_encrypt_sw rk (replicate 16 3) = Cipher rk (replicate 16 3) /\
     @nm_aes128_encrypt_ni aesni_ref rk (replicate 16 3) = nm_aes128_encrypt_sw rk (replicate 16 3) /\
     @nm_aes128_encrypt8_ni aesni_ref rk (replicate 128 2) = nm_aes128_encrypt8_sw rk (replicate 128 2)).
Proof.
  apply (aes128_correct aesni_ref aesni_ref_laws); first [reflexivity | apply byte_list_dec; reflexivity
    | split; [reflexivity|apply byte_list_dec; reflexivity]].
Defined.


