(* ===== verification/NmParams.v ===== *)
(** * Epoch parameters of NeuroMorph ([crypto/nm/nm_params.c]).

    From a 32-byte seed the core derives the program size, the loop count, the
    branch mask, a rotation salt, two AES keys and the 256-entry opcode table.
    The theorems bound every parameter and describe the table exactly. *)
From Stdlib Require Import String Ascii.
From S2P Require Import Prelude Stream NmSha256 NmAes.
#[local] Open Scope Z_scope.

(** The characters of a C string literal, without the terminating 0. *)
Definition chars (t : string) : list Z := (fun a => Z.of_N (N_of_ascii a)) <$> list_ascii_of_string t.

Definition NM_NUM_OPS : nat := 15.

Record nm_params := mk_nm_params {
  prog_size : Z;
  loops : Z;
  branch_mask : Z;
  rot_salt : Z;
  aes_key : list Z;
  dataset_key : list Z;
  op_table : list Z
}.

Definition le16 (b : list Z) : Z := Z.lor (b !!! 0%nat) (Z.shiftl (b !!! 1%nat) 8).
Definition le64 (b : list Z) : Z :=
  foldl (fun v i => Z.lor v (Z.shiftl (b !!! i) (8 * Z.of_nat i))) 0 (seq 0 8).

(** [junk] is what the uninitialised context on the stack holds. *)
Definition hash_tagged (junk : list Z) (prefix seed : list Z) : list Z :=
  let c := nm_sha256_init junk in
  let c := nm_sha256_update c prefix in
  let c := nm_sha256_update c (take 32 seed) in
  (nm_sha256_final c).2.

(** [for (j = 0; j < n && idx < 256; j++) op_table[idx++] = op]. *)
Fixpoint emit (k : nat) (tbl : list Z) (idx : nat) (op : Z) : list Z * nat :=
  match k with
  | O => (tbl, idx)
  | S k => if (idx <? 256)%nat then emit k (<[idx := op]> tbl) (S idx) op else (tbl, idx)
  end.

(** One trip of the opcode loop. *)
Definition emit_op (weights : list Z) (total : Z) (st : list Z * nat) (op : nat) : list Z * nat :=
  let '(tbl, idx) := st in
  let k := weights !!! op * 256 / total in
  let k := if (op =? NM_NUM_OPS - 1)%nat then 256 - Z.of_nat idx else k in
  emit (Z.to_nat k) tbl idx (T8 (Z.of_nat op)).

(** [while (idx < 256)]: at most 256 trips. *)
Fixpoint fill_rest (fuel : nat) (wh tbl : list Z) (idx : nat) : list Z :=
  match fuel with
  | O => tbl
  | S fuel =>
      if (idx <? 256)%nat
      then fill_rest fuel wh (<[idx := T8 (wh !!! (idx mod 32)%nat mod 15)]> tbl) (S idx)
      else tbl
  end.

Definition weights_of (wh : list Z) : list Z := tabulate NM_NUM_OPS (fun i => 1 + wh !!! i mod 8).
Definition total_of (weights : list Z) : Z := foldl Z.add 0 weights.

Definition build_op_table (wh tbl : list Z) : list Z :=
  let weights := weights_of wh in
  let total := total_of weights in
  let '(tbl, idx) := foldl (emit_op weights total) (tbl, 0%nat) (seq 0 NM_NUM_OPS) in
  fill_rest 256 wh tbl idx.

Definition nm_derive_params (junk : list Z) (seed : list Z) (p : nm_params) : nm_params :=
  let h := hash_tagged junk (chars "nm-params|") seed in
  let dk := hash_tagged junk (chars "nm-dataset|") seed in
  let wh := hash_tagged junk (chars "nm-weights|") seed in
  {| prog_size := 384 + le16 (drop 0 h) mod 385;
     loops := 32 + h !!! 2%nat mod 33;
     branch_mask := shl64 0xFF (h !!! 3%nat mod 24);
     rot_salt := le64 (drop 4 h);
     aes_key := slice 12 16 h;
     dataset_key := take 16 dk;
     op_table := build_op_table wh (op_table p) |}.

(** ** The tagged hashes *)

Lemma hash_tagged_spec junk prefix seed :
  length junk = 64%nat -> (length prefix < 1000)%nat ->
  hash_tagged junk prefix seed = sha256_spec (prefix ++ take 32 seed).
Proof.
  intros Hj Hp. unfold hash_tagged.
  pose proof (streaming_spec junk [prefix; take 32 seed] Hj) as H. cbn [concat foldl] in H.
  rewrite app_nil_r in H. apply H. rewrite length_app, length_take. lia.
Qed.

Lemma hash_tagged_wf junk prefix seed :
  length junk = 64%nat -> (length prefix < 1000)%nat ->
  length (hash_tagged junk prefix seed) = 32%nat /\ bytes (hash_tagged junk prefix seed).
Proof.
  intros. rewrite hash_tagged_spec by done.
  split; [apply length_sha256_spec|apply bytes_sha256_spec].
Qed.

(** ** The opcode table *)

Lemma emit_ok k tbl idx op :
  length tbl = 256%nat -> (idx + k <= 256)%nat ->
  exists tbl', emit k tbl idx op = (tbl', (idx + k)%nat) /\ length tbl' = 256%nat /\
    take (idx + k) tbl' = take idx tbl ++ replicate k op.
Proof.
  revert tbl idx. induction k as [|k IH]; intros tbl idx Hl Hk.
  { exists tbl. rewrite Nat.add_0_r, app_nil_r. done. }
  cbn [emit]. destruct (Nat.ltb_spec idx 256); [|lia].
  destruct (IH (<[idx := op]> tbl) (S idx)) as (tbl' & He & Hl' & Ht);
    [by rewrite length_insert|lia|].
  exists tbl'. rewrite He. replace (S idx + k)%nat with (idx + S k)%nat in * by lia.
  split_and!; [done|done|]. rewrite Ht.
  rewrite (take_S_r _ idx op) by (apply list_lookup_insert_eq; lia).
  rewrite take_insert_ge by lia. by rewrite <-app_assoc.
Qed.

(** Slots of opcode [op]: its share of 256, the last opcode takes the rest. *)
Definition share (wh : list Z) (op : nat) : Z :=
  (weights_of wh !!! op * 256) / total_of (weights_of wh).
Definition shares (wh : list Z) (k : nat) : Z := foldl Z.add 0 (tabulate k (share wh)).
Definition slots (wh : list Z) (op : nat) : nat :=
  Z.to_nat (if (op =? 14)%nat then 256 - shares wh 14 else share wh op).
Definition op_runs (wh : list Z) (k : nat) : list Z :=
  concat ((fun op => replicate (slots wh op) (Z.of_nat op)) <$> seq 0 k).

Lemma foldl_add_acc l a : foldl Z.add a l = a + foldl Z.add 0 l.
Proof.
  revert a. induction l as [|x l IH]; intros a; simpl; [lia|].
  rewrite IH, (IH (0 + x)). simpl. lia.
Qed.

Lemma tabulate_S k f : tabulate (S k) f = tabulate k f ++ [f k].
Proof. unfold tabulate. by rewrite seq_S, fmap_app. Qed.

Lemma shares_S wh k : shares wh (S k) = shares wh k + share wh k.
Proof.
  unfold shares. rewrite tabulate_S, foldl_app. reflexivity.
Qed.

Definition weight_sum (wh : list Z) (k : nat) : Z :=
  foldl Z.add 0 (tabulate k (fun i => 1 + wh !!! i mod 8)).
Lemma weight_sum_S wh k : weight_sum wh (S k) = weight_sum wh k + (1 + wh !!! k mod 8).
Proof. unfold weight_sum. rewrite tabulate_S, foldl_app. reflexivity. Qed.

Lemma weight_range wh i : (i < 15)%nat -> 1 <= weights_of wh !!! i <= 8.
Proof.
  intros. unfold weights_of. rewrite tabulate_lookup by done.
  pose proof (Z.mod_pos_bound (wh !!! i) 8 ltac:(lia)). lia.
Qed.

Lemma weight_sum_range wh k : Z.of_nat k <= weight_sum wh k <= 8 * Z.of_nat k.
Proof.
  induction k as [|k IH]; [done|]. rewrite weight_sum_S.
  pose proof (Z.mod_pos_bound (wh !!! k) 8 ltac:(lia)). lia.
Qed.

Lemma total_weight_sum wh : total_of (weights_of wh) = weight_sum wh 15.
Proof. unfold weight_sum, total_of, weights_of, NM_NUM_OPS. reflexivity. Qed.

(** The shares of the first [k] opcodes fit in their part of the 256 slots. *)
Lemma shares_bound wh k :
  (k <= 15)%nat -> shares wh k * weight_sum wh 15 <= 256 * weight_sum wh k.
Proof.
  induction k as [|k IH]; intros Hk; [done|]. rewrite shares_S, (weight_sum_S wh k).
  specialize (IH ltac:(lia)). unfold share. rewrite total_weight_sum.
  pose proof (weight_sum_range wh 15) as H15.
  pose proof (Z.mul_div_le (weights_of wh !!! k * 256) (weight_sum wh 15) ltac:(lia)) as Hd.
  replace (1 + wh !!! k mod 8) with (weights_of wh !!! k)
    by (unfold weights_of; rewrite tabulate_lookup by (unfold NM_NUM_OPS; lia); done).
  nia.
Qed.

Lemma share_range wh op : (op < 15)%nat -> 2 <= share wh op.
Proof.
  intros Hop. pose proof (weight_range wh op Hop). unfold share. rewrite total_weight_sum.
  pose proof (weight_sum_range wh 15). apply Z.div_le_lower_bound; lia.
Qed.

Lemma shares_nonneg wh k : (k <= 15)%nat -> 0 <= shares wh k.
Proof.
  induction k as [|k IH]; intros; [done|]. rewrite shares_S.
  pose proof (share_range wh k ltac:(lia)). specialize (IH ltac:(lia)). lia.
Qed.

Lemma shares_14 wh : shares wh 14 <= 254.
Proof.
  pose proof (shares_bound wh 15 ltac:(lia)) as H. rewrite shares_S in H.
  pose proof (share_range wh 14 ltac:(lia)). pose proof (weight_sum_range wh 15). nia.
Qed.

Lemma shares_mono wh j k : (j <= k <= 15)%nat -> shares wh j <= shares wh k.
Proof.
  intros [Hjk Hk]. induction Hjk as [|k Hjk IH]; [lia|]. rewrite shares_S.
  pose proof (share_range wh k ltac:(lia)). specialize (IH ltac:(lia)). lia.
Qed.

Lemma emit_op_ok wh tbl op :
  (op < 15)%nat -> length tbl = 256%nat ->
  take (Z.to_nat (shares wh op)) tbl = op_runs wh op ->
  exists tbl', emit_op (weights_of wh) (total_of (weights_of wh)) (tbl, Z.to_nat (shares wh op)) op
     = (tbl', if (op =? 14)%nat then 256%nat else Z.to_nat (shares wh (S op))) /\
    length tbl' = 256%nat /\
    take (if (op =? 14)%nat then 256%nat else Z.to_nat (shares wh (S op))) tbl' = op_runs wh (S op).
Proof.
  intros Hop Hl Ht. unfold emit_op. change (NM_NUM_OPS - 1)%nat with 14%nat.
  pose proof (shares_nonneg wh op ltac:(lia)) as Hnn. pose proof (shares_14 wh) as H14.
  pose proof (share_range wh op Hop) as Hsh.
  set (k := Z.to_nat (if (op =? 14)%nat then _ else _)).
  assert (Hk : k = slots wh op /\ (Z.to_nat (shares wh op) + k)%nat =
            if (op =? 14)%nat then 256%nat else Z.to_nat (shares wh (S op))).
  { unfold k, slots. rewrite Z2Nat.id by done. destruct (Nat.eqb_spec op 14) as [->|Hne].
    - split; [done|]. lia.
    - split; [done|]. rewrite shares_S. fold (share wh op). lia. }
  destruct Hk as [Hk1 Hk2].
  destruct (emit_ok k tbl (Z.to_nat (shares wh op)) (T8 (Z.of_nat op)) Hl) as (tbl' & He & Hl' & Ht').
  { rewrite Hk2. destruct (Nat.eqb_spec op 14); [done|].
    pose proof (shares_mono wh (S op) 14 ltac:(lia)). lia. }
  exists tbl'. rewrite He, Hk2 in *. split_and!; [done|done|]. rewrite Ht', Ht, Hk1.
  unfold op_runs. rewrite seq_S, fmap_app, concat_app. cbn [fmap list_fmap concat].
  rewrite app_nil_r, T8_id by (unfold word; lia). done.
Qed.

Lemma emit_ops_ok wh tbl k :
  (k <= 14)%nat -> length tbl = 256%nat ->
  exists tbl', foldl (emit_op (weights_of wh) (total_of (weights_of wh))) (tbl, 0%nat) (seq 0 k)
     = (tbl', Z.to_nat (shares wh k)) /\ length tbl' = 256%nat /\
    take (Z.to_nat (shares wh k)) tbl' = op_runs wh k.
Proof.
  intros Hk Hl. induction k as [|k IH]; [by exists tbl|].
  destruct IH as (t1 & He & Hl1 & Ht1); [lia|].
  rewrite seq_S, foldl_app, He. cbn [foldl].
  destruct (emit_op_ok wh t1 k ltac:(lia) Hl1 Ht1) as (t2 & He2 & Hl2 & Ht2).
  destruct (Nat.eqb_spec k 14); [lia|]. by exists t2.
Qed.

Lemma fill_rest_done fuel wh tbl idx : (256 <= idx)%nat -> fill_rest fuel wh tbl idx = tbl.
Proof. intros. destruct fuel; cbn [fill_rest]; [done|]. destruct (Nat.ltb_spec idx 256); [lia|done]. Qed.

(** The table is the runs of the 15 opcodes; the [while] loop after the opcode
    loop never runs. *)
Lemma build_op_table_runs wh tbl :
  length tbl = 256%nat -> build_op_table wh tbl = op_runs wh 15.
Proof.
  intros Hl. unfold build_op_table, NM_NUM_OPS. rewrite seq_S, foldl_app.
  destruct (emit_ops_ok wh tbl 14 ltac:(lia) Hl) as (t1 & -> & Hl1 & Ht1). cbn [foldl].
  destruct (emit_op_ok wh t1 14 ltac:(lia) Hl1 Ht1) as (t2 & He2 & Hl2 & Ht2).
  simpl (0 + 14)%nat. rewrite He2. cbn [Nat.eqb] in *. rewrite fill_rest_done by done.
  by rewrite take_ge in Ht2 by lia.
Qed.

Lemma length_op_runs wh : length (op_runs wh 15) = 256%nat.
Proof.
  rewrite <-(build_op_table_runs wh (replicate 256 0)) by done.
  unfold build_op_table, NM_NUM_OPS. rewrite seq_S, foldl_app.
  destruct (emit_ops_ok wh (replicate 256 0) 14 ltac:(lia) ltac:(done)) as (t1 & -> & Hl1 & Ht1).
  cbn [foldl]. destruct (emit_op_ok wh t1 14 ltac:(lia) Hl1 Ht1) as (t2 & He2 & Hl2 & Ht2).
  simpl (0 + 14)%nat. rewrite He2. cbn [Nat.eqb]. by rewrite fill_rest_done.
Qed.

Lemma op_runs_elem wh : Forall (fun x => 0 <= x < 15) (op_runs wh 15).
Proof.
  apply Forall_concat, Forall_fmap, Forall_forall. intros op Hop%in_seq.
  apply Forall_replicate. simpl. lia.
Qed.

Lemma slots_ge_2 wh op : (op < 15)%nat -> (2 <= slots wh op)%nat.
Proof.
  intros Hop. unfold slots. pose proof (share_range wh op Hop). pose proof (shares_14 wh).
  case_match; lia.
Qed.

(** ** Properties *)

(** What every consumer of the parameters relies on. *)
Record params_ok (p : nm_params) : Prop := {
  ok_prog_size : 384 <= prog_size p <= 768;
  ok_loops : 32 <= loops p <= 64;
  ok_branch_mask : exists k, 0 <= k < 24 /\ branch_mask p = 255 * 2 ^ k;
  ok_rot_salt : word 64 (rot_salt p);
  ok_aes_key : block (aes_key p);
  ok_dataset_key : block (dataset_key p);
  ok_op_table : length (op_table p) = 256%nat /\ Forall (fun op => 0 <= op < 15) (op_table p)
}.

Lemma le64_le_load b : le64 b = le_load 8 b.
Proof. reflexivity. Qed.

Lemma derive_params_ok junk seed p :
  length junk = 64%nat -> length (op_table p) = 256%nat -> params_ok (nm_derive_params junk seed p).
Proof.
  intros Hj Hp. unfold nm_derive_params.
  destruct (hash_tagged_wf junk (chars "nm-params|") seed Hj ltac:(by apply Nat.ltb_lt)) as [Hl Hb].
  destruct (hash_tagged_wf junk (chars "nm-dataset|") seed Hj ltac:(by apply Nat.ltb_lt)) as [Hld Hbd].
  set (h := hash_tagged _ (chars "nm-params|") _) in *.
  set (dk := hash_tagged _ (chars "nm-dataset|") _) in *.
  set (wh := hash_tagged _ _ _). clearbody h dk wh.
  constructor; cbn [prog_size loops branch_mask rot_salt aes_key dataset_key op_table].
  - pose proof (Z.mod_pos_bound (le16 (drop 0 h)) 385 ltac:(done)). lia.
  - pose proof (Z.mod_pos_bound (h !!! 2%nat) 33 ltac:(lia)). lia.
  - exists (h !!! 3%nat mod 24). pose proof (Z.mod_pos_bound (h !!! 3%nat) 24 ltac:(lia)) as H.
    set (k := _ mod 24) in *. clearbody k. split; [done|]. unfold shl64. rewrite Z.shiftl_mul_pow2 by lia. apply T64_id.
    pose proof (Z.pow_le_mono_r 2 k 23 ltac:(lia) ltac:(lia)).
    pose proof (Z.pow_pos_nonneg 2 k ltac:(lia) ltac:(lia)).
    unfold word. lia.
  - rewrite le64_le_load. apply (word_le_load 8). by apply Forall_drop.
  - split; [rewrite length_slice; lia|by apply Forall_slice].
  - split; [rewrite length_take; lia|by apply Forall_take].
  - rewrite build_op_table_runs by done. split; [apply length_op_runs|apply op_runs_elem].
Qed.

(** The old contents of the struct and of the stack do not matter. *)
Lemma derive_params_indep junk junk' seed p p' :
  length junk = 64%nat -> length junk' = 64%nat ->
  length (op_table p) = 256%nat -> length (op_table p') = 256%nat ->
  nm_derive_params junk seed p = nm_derive_params junk' seed p'.
Proof.
  intros Hj Hj' Hp Hp'. unfold nm_derive_params.
  rewrite !(build_op_table_runs _ (op_table _)) by done.
  by rewrite !(hash_tagged_spec junk), !(hash_tagged_spec junk') by (done || by apply Nat.ltb_lt).
Qed.

(** C36. Whatever the seed, the derived parameters are in range: the program
    fits the 768-entry buffer, the loop counts are bounded, the branch mask is
    eight adjacent bits, the keys are 16 bytes and every table entry is one of
    the 15 opcodes. *)
Theorem nm_derive_params_ok junk seed p :
  length junk = 64%nat -> length (op_table p) = 256%nat -> params_ok (nm_derive_params junk seed p).
Proof. apply derive_params_ok. Qed.

Definition zero_params : nm_params :=
  mk_nm_params 0 0 0 0 (replicate 16 0) (replicate 16 0) (replicate 256 0).

Lemma nm_derive_params_ok_witness :
  params_ok (nm_derive_params (replicate 64 0) (replicate 32 1) zero_params).
Proof. apply nm_derive_params_ok; reflexivity. Defined.

(** The opcode table is exactly 15 runs in opcode order: opcode [op] below 14
    gets [256 * weight / total] slots, the last one the remaining slots, and
    every opcode gets at least two, so all instructions can occur and the
    fallback [while] loop of the source never executes. *)
Lemma nm_op_table_runs wh tbl :
  length tbl = 256%nat ->
  build_op_table wh tbl = concat ((fun op => replicate (slots wh op) (Z.of_nat op)) <$> seq 0 15) /\
  (forall op, (op < 15)%nat -> (2 <= slots wh op)%nat) /\
  (forall op, (op < 14)%nat -> Z.of_nat (slots wh op) =
     ((1 + wh !!! op mod 8) * 256) / total_of (weights_of wh)).
Proof.
  intros Ht. split_and!; [by apply build_op_table_runs|apply slots_ge_2|].
  intros op Hop. unfold slots. destruct (Nat.eqb_spec op 14); [lia|].
  rewrite Z2Nat.id by (pose proof (share_range wh op ltac:(lia)); lia).
  unfold share, weights_of. rewrite tabulate_lookup by (unfold NM_NUM_OPS; lia). done.
Qed.

