(* ===== verification/NmFloat.v ===== *)
(** * Doubles of the NeuroMorph VM ([bits2d], [d2bits], [normFloat]).

    A [double] is a [spec_float]: IEEE-754 binary64 (precision 53, [emax] 1024)
    with one NaN, and the VM's [+ * / sqrt] are the correctly rounded
    operations of the Standard Library's specification.  Which pattern a NaN has
    is not determined by the C program, so [d2bits] has no value there: copying
    one out is a fault of the model like an access out of bounds, and that
    [nm_hash] never faults shows that no NaN is ever copied. *)
From Stdlib Require Import SpecFloat.
From S2P Require Import Prelude.

Definition double : Type := spec_float.
#[export] Instance double_inhabited : Inhabited double := populate S754_nan.
Definition prec64 : Z := 53.
Definition emax64 : Z := 1024.

Definition fadd (x y : double) : double := SFadd prec64 emax64 x y.
Definition fmul (x y : double) : double := SFmul prec64 emax64 x y.
Definition fdiv (x y : double) : double := SFdiv prec64 emax64 x y.
Definition fsqrt (x : double) : double := SFsqrt prec64 emax64 x.
Definition fabs (x : double) : double := SFabs x.

Definition isnan (x : double) : bool := match x with S754_nan => true | _ => false end.
Definition isinf (x : double) : bool := match x with S754_infinity _ => true | _ => false end.
Definition iszero (x : double) : bool := match x with S754_zero _ => true | _ => false end.

(** The double whose bytes are [x]: sign bit 63, exponent bits 52..62, fraction 0..51. *)
Definition bits2d (x : Z) : double :=
  let sg := Z.testbit x 63 in
  let e := Z.land (Z.shiftr x 52) 0x7FF in
  let m := Z.land x 0xFFFFFFFFFFFFF in
  if e =? 0x7FF then (if m =? 0 then S754_infinity sg else S754_nan)
  else if e =? 0 then (if m =? 0 then S754_zero sg else S754_finite sg (Z.to_pos m) (-1074))
  else S754_finite sg (Z.to_pos (m + 2 ^ 52)) (e - 1075).

Definition sign_bit (sg : bool) : Z := if sg then 2 ^ 63 else 0.

(** The bytes of a double as a number; [None] for a NaN. *)
Definition d2bits (d : double) : option Z :=
  match d with
  | S754_zero sg => Some (sign_bit sg)
  | S754_infinity sg => Some (sign_bit sg + Z.shiftl 0x7FF 52)
  | S754_nan => None
  | S754_finite sg m e =>
      Some (T64 (sign_bit sg + (if Zpos m <? 2 ^ 52 then Zpos m
                                else Z.shiftl (e + 1075) 52 + (Zpos m - 2 ^ 52))))
  end.

Definition normFloat (x : Z) : double :=
  bits2d (Z.lor (Z.shiftl 1023 52) (Z.land x 0x000FFFFFFFFFFFFF)).

(** ** Facts *)

Lemma d2bits_some d : isnan d = false -> exists x, d2bits d = Some x /\ word 64 x.
Proof.
  intros Hd. destruct d as [sg|sg| |sg m e]; [|..|done|]; (eexists; split; [reflexivity|]).
  - destruct sg; split; vm_compute; done.
  - destruct sg; split; vm_compute; done.
  - apply word_T64.
Qed.

(** Fields of a 64-bit pattern. *)
Lemma fields x :
  word 64 x ->
  x = sign_bit (Z.testbit x 63) + Z.land (Z.shiftr x 52) 0x7FF * 2 ^ 52 + Z.land x 0xFFFFFFFFFFFFF.
Proof.
  intros [H0 H1]. change 0x7FF with (Z.ones 11). change 0xFFFFFFFFFFFFF with (Z.ones 52).
  rewrite !Z.land_ones, Z.shiftr_div_pow2 by lia.
  assert (Hs : sign_bit (Z.testbit x 63) = x / 2 ^ 63 * 2 ^ 63).
  { rewrite Z.testbit_eqb by lia.
    assert (0 <= x / 2 ^ 63 < 2) by (split; [apply Z.div_pos; lia|apply Z.div_lt_upper_bound; lia]).
    rewrite Z.mod_small by lia. unfold sign_bit. destruct (Z.eqb_spec (x / 2 ^ 63) 1); lia. }
  rewrite Hs. replace (2 ^ 63) with (2 ^ 52 * 2 ^ 11) by lia. rewrite <-Z.div_div by lia.
  pose proof (Z_div_mod_eq_full x (2 ^ 52)). pose proof (Z_div_mod_eq_full (x / 2 ^ 52) (2 ^ 11)).
  lia.
Qed.

Lemma field_ranges x :
  0 <= Z.land (Z.shiftr x 52) 0x7FF < 2048 /\ 0 <= Z.land x 0xFFFFFFFFFFFFF < 2 ^ 52.
Proof.
  change 0x7FF with (Z.ones 11). change 0xFFFFFFFFFFFFF with (Z.ones 52). rewrite !Z.land_ones by lia.
  pose proof (Z.mod_pos_bound (Z.shiftr x 52) (2 ^ 11) ltac:(lia)).
  pose proof (Z.mod_pos_bound x (2 ^ 52) ltac:(lia)). lia.
Qed.

(** The bytes that went in come out. *)
Lemma d2bits_bits2d_id x : word 64 x -> bits2d x <> S754_nan -> d2bits (bits2d x) = Some x.
Proof.
  intros Hx Hn. pose proof (fields x Hx) as Hf. destruct (field_ranges x) as [He Hm].
  unfold bits2d in *.
  set (sg := Z.testbit x 63) in *. set (e := Z.land (Z.shiftr x 52) 0x7FF) in *.
  set (m := Z.land x 0xFFFFFFFFFFFFF) in *. clearbody sg e m.
  assert (Hsg : sign_bit sg = 0 \/ sign_bit sg = 2 ^ 63) by (destruct sg; auto).
  destruct (Z.eqb_spec e 0x7FF) as [->|].
  { destruct (Z.eqb_spec m 0) as [Hm0|]; [|done]. unfold d2bits. rewrite Z.shiftl_mul_pow2 by lia. f_equal. lia. }
  destruct (Z.eqb_spec e 0) as [->|].
  { destruct (Z.eqb_spec m 0) as [Hm0|]; [unfold d2bits; f_equal; lia|]. unfold d2bits.
    rewrite Z2Pos.id by lia. destruct (Z.ltb_spec m (2 ^ 52)); [|lia].
    f_equal. rewrite T64_id; [lia|]. unfold word in *. lia. }
  unfold d2bits. rewrite Z2Pos.id by lia. destruct (Z.ltb_spec (m + 2 ^ 52) (2 ^ 52)); [lia|].
  rewrite Z.shiftl_mul_pow2 by lia. replace (e - 1075 + 1075) with e by lia.
  f_equal. rewrite T64_id; [lia|]. unfold word in *. lia.
Qed.

(** [normFloat] is a number in [[1, 2)]: exponent field 1023. *)
Lemma normFloat_range x :
  exists m, normFloat x = S754_finite false m (-52) /\ 2 ^ 52 <= Zpos m < 2 ^ 53.
Proof.
  unfold normFloat, bits2d.
  set (y := Z.lor _ _).
  assert (Hy : y = 1023 * 2 ^ 52 + x mod 2 ^ 52).
  { unfold y. change 0x000FFFFFFFFFFFFF with (Z.ones 52). rewrite Z.land_ones by lia.
    rewrite Z.shiftl_mul_pow2 by lia.
    assert (Hd : Z.land (1023 * 2 ^ 52) (x mod 2 ^ 52) = 0).
    { apply Z.bits_inj'. intros i Hi. rewrite Z.land_spec, Z.bits_0. destruct (Z_lt_dec i 52).
      - rewrite Z.mul_pow2_bits_low by lia. done.
      - rewrite Z.mod_pow2_bits_high by lia. apply andb_false_r. }
    by rewrite <-Z.lxor_lor, <-Z.add_nocarry_lxor by done. }
  pose proof (Z.mod_pos_bound x (2 ^ 52) ltac:(lia)) as Hm.
  assert (He : Z.land (Z.shiftr y 52) 0x7FF = 1023).
  { rewrite Hy, Z.shiftr_div_pow2, Z.div_add_l, Z.div_small by lia. done. }
  assert (Hf : Z.land y 0xFFFFFFFFFFFFF = x mod 2 ^ 52).
  { change 0xFFFFFFFFFFFFF with (Z.ones 52). rewrite Z.land_ones, Hy by lia.
    rewrite Z.add_comm, Z_mod_plus_full. apply Z.mod_mod. lia. }
  assert (Hs : Z.testbit y 63 = false).
  { apply (word_high 63); [lia| |lia]. unfold word. lia. }
  rewrite He, Hf, Hs. simpl (1023 =? _). cbv iota.
  exists (Z.to_pos (x mod 2 ^ 52 + 2 ^ 52)). split; [done|]. rewrite Z2Pos.id by lia. lia.
Qed.

Lemma shr_1_nonneg m : 0 <= shr_m m -> 0 <= shr_m (shr_1 m).
Proof. destruct m as [[|[]|[]] r s]; simpl; lia. Qed.

Lemma iter_shr_nonneg p m : 0 <= shr_m m -> 0 <= shr_m (SpecFloat.iter_pos shr_1 p m).
Proof.
  revert m. induction p as [p IH|p IH|]; intros m Hm; simpl; auto using shr_1_nonneg.
Qed.

Lemma shr_fexp_nonneg m e l : 0 <= m -> 0 <= shr_m (shr_fexp prec64 emax64 m e l).1.
Proof.
  intros Hm. unfold shr_fexp, shr.
  assert (0 <= shr_m (shr_record_of_loc m l)) by (destruct l as [|[]]; done).
  case_match; simpl; auto using iter_shr_nonneg.
Qed.

Lemma round_nearest_even_nonneg m l : 0 <= m -> 0 <= round_nearest_even m l.
Proof. intros. destruct l as [|[]]; simpl; try case_match; lia. Qed.

Lemma binary_round_aux_not_nan sg m e l :
  0 <= m -> isnan (binary_round_aux prec64 emax64 sg m e l) = false.
Proof.
  intros Hm. unfold binary_round_aux.
  pose proof (shr_fexp_nonneg m e l Hm) as H1. destruct (shr_fexp _ _ m e l) as [m1 e1]. simpl in H1.
  pose proof (shr_fexp_nonneg (round_nearest_even (shr_m m1) (loc_of_shr_record m1)) e1 loc_Exact
    (round_nearest_even_nonneg _ _ H1)) as H2.
  destruct (shr_fexp _ _ _ e1 _) as [m2 e2]. simpl in H2.
  destruct (shr_m m2); [done| |lia]. by destruct (_ <=? _).
Qed.

(** A product with a number of [[1, 2)] is only NaN if the other factor is. *)
Lemma fmul_normFloat_not_nan d x : isnan d = false -> isnan (fmul d (normFloat x)) = false.
Proof.
  intros Hd. destruct (normFloat_range x) as (m & -> & _).
  destruct d; simpl; try done. by apply binary_round_aux_not_nan.
Qed.

Lemma normFloat_not_nan x : isnan (normFloat x) = false.
Proof. by destruct (normFloat_range x) as (m & -> & _). Qed.
