(* ===== verification/NmVm.v ===== *)
(** * The NeuroMorph virtual machine ([crypto/nm/nm_neuromorph.c]).

    [fill_scratch] and [nm_build_dataset] expand a key into a buffer by AES in
    counter mode, [gen_program] expands a seed into a program, and [nm_hash]
    interprets that program over 16 integer registers, 8 doubles and the 2 MiB
    scratchpad.  The buffers of a context that a call uses (scratchpad, program,
    branch counters) are passed explicitly. *)
From Stdlib Require Import SpecFloat String.
From S2P Require Import Prelude Stream NmSha256 NmAes NmParams NmFloat.
#[local] Open Scope Z_scope.

Inductive opcode :=
  | opIADD | opIMUL | opIMULH | opIXOR | opIROTR | opINEG | opFADD | opFMUL
  | opFDIV | opFSQRT | opLOAD | opSTORE | opCBRANCH | opAESR | opXDOM.

(** The enumerators in order: the [case] an 8-bit opcode selects. *)
Definition decode (op : Z) : option opcode :=
  [opIADD; opIMUL; opIMULH; opIXOR; opIROTR; opINEG; opFADD; opFMUL;
   opFDIV; opFSQRT; opLOAD; opSTORE; opCBRANCH; opAESR; opXDOM] !! Z.to_nat op.

Record nm_instr := mk_instr { op : Z; dst : Z; src : Z; imm : Z }.
#[export] Instance nm_instr_inhabited : Inhabited nm_instr := populate (mk_instr 0 0 0 0).

Definition NM_SCRATCH_BYTES : Z := 2 * 2 ^ 20.
Definition NM_SCRATCH_WORDS : Z := NM_SCRATCH_BYTES / 8.
Definition NM_SCRATCH_MASK : Z := NM_SCRATCH_BYTES - 8.
Definition NM_DATASET_BYTES : Z := 64 * 2 ^ 20.
Definition NM_DATASET_WORDS : Z := NM_DATASET_BYTES / 8.
Definition NM_DATASET_MASK : Z := NM_DATASET_BYTES - 8.
Definition NM_DATASET_READS_PER_LOOP : nat := 64.
Definition NM_DATASET_HEIGHT : Z := 240.
Definition NM_PROG_MAX : Z := 768.
Definition NM_HEADER_LEN : nat := 124.

(** ** Word helpers *)

Definition put64 (v : Z) : list Z := tabulate 8 (fun i => T8 (Z.shiftr v (8 * Z.of_nat i))).
Definition le32 (b : list Z) : Z :=
  Z.lor (Z.lor (Z.lor (b !!! 0%nat) (Z.shiftl (b !!! 1%nat) 8)) (Z.shiftl (b !!! 2%nat) 16))
        (Z.shiftl (b !!! 3%nat) 24).
(** [rotl64(x, k)] for any [int] [k]. *)
Definition nm_rotl64 (x k : Z) : Z :=
  let sh := Z.land k 63 in
  if sh =? 0 then x else Z.lor (shl64 x sh) (Z.shiftr x (64 - sh)).
Definition mulhi64 (a b : Z) : Z := Z.shiftr (a * b) 64.

(** ** AES counter-mode expansion.  The loop of [nm_build_dataset] and of
    [fill_scratch]: 16 words per trip, trip [t] starting at word [16 t]. *)

Definition ctr_stage (stage : list Z) (i : Z) : list Z :=
  foldl (fun stage j => memcpy stage (16 * j) (put64 (i + 2 * Z.of_nat j))) stage (seq 0 8).
Definition ctr_trip (rk : list Z) (st : list Z * list Z) (t : nat) : list Z * list Z :=
  let '(stage, words) := st in
  let i := (16 * t)%nat in
  let stage := ctr_stage stage (Z.of_nat i) in
  let outs := nm_aes128_encrypt8_sw rk stage in
  (stage, foldl (fun words j =>
     <[(i + 2 * j + 1)%nat := le64 (drop (16 * j + 8) outs)]>
       (<[(i + 2 * j)%nat := le64 (drop (16 * j) outs)]> words)) words (seq 0 8)).
Definition ctr_fill (rk stage words : list Z) (trips : nat) : list Z :=
  (foldl (ctr_trip rk) (stage, words) (seq 0 trips)).2.

Definition nm_build_dataset (dataset dataset_key : list Z) : list Z :=
  let a := nm_aes128_expand (replicate 176 0) dataset_key in
  ctr_fill a (replicate 128 0) dataset (Z.to_nat (NM_DATASET_WORDS / 16)).

(** [stage] is not initialised: its 128 bytes are whatever the stack held. *)
Definition fill_scratch (junk scratch seed : list Z) : list Z :=
  let key := nm_sha256 junk (take 32 seed ++ [0x53]) in
  let a := nm_aes128_expand (replicate 176 0) (take 16 key) in
  let stage := foldl (fun stage j => memcpy stage (16 * j + 8) (slice 24 8 key))
                 (junk ++ junk) (seq 0 8) in
  ctr_fill a stage scratch (Z.to_nat (NM_SCRATCH_WORDS / 16)).

(** ** The program generator *)

(** [while (slen < need)]: the stream buffer has [NM_PROG_MAX * 8] bytes. *)
Fixpoint gen_stream (fuel : nat) (rk : list Z) (need : nat) (stream : list Z) (slen : nat)
    (inp : list Z) : list Z * nat :=
  match fuel with
  | O => (stream, slen)
  | S fuel =>
      if (slen <? need)%nat then
        let out := nm_aes128_encrypt_sw rk inp in
        let stream := memcpy stream slen out in
        let inp := memcpy out 0 (put64 (add64 (le64 out) 1)) in
        gen_stream fuel rk need stream (slen + 16) inp
      else (stream, slen)
  end.

Definition decode_instr (p : nm_params) (b : list Z) : nm_instr :=
  mk_instr (op_table p !!! Z.to_nat (b !!! 0%nat)) (b !!! 1%nat) (b !!! 2%nat) (le32 (drop 4 b)).

(** [stream] is not initialised either: 6144 bytes of stack. *)
Definition gen_program (junk : list Z) (p : nm_params) (prog : list nm_instr) (seed : list Z)
    : list nm_instr :=
  let key := nm_sha256 junk (take 32 seed ++ [0x50]) in
  let a := nm_aes128_expand (replicate 176 0) (take 16 key) in
  let progSize := Z.to_nat (prog_size p) in
  let stream := concat (replicate 96 junk) in
  let need := (progSize * 8)%nat in
  let '(stream, _) := gen_stream need a need stream 0 (slice 16 16 key) in
  foldl (fun prog i => <[i := decode_instr p (drop (i * 8) stream)]> prog) prog (seq 0 progSize).

(** ** One instruction *)

(** Accesses at data-dependent addresses are checked: [None] is undefined
    behaviour in C (and so is running out of fuel), and the theorems show that
    it does not happen. *)
Definition rd {A} (a : list A) (i : Z) : option A := if i <? 0 then None else a !! Z.to_nat i.
Definition wr (a : list Z) (i x : Z) : option (list Z) :=
  if (0 <=? i) && (i <? Z.of_nat (length a)) then Some (<[Z.to_nat i := x]> a) else None.

Record vm := mk_vm {
  r : list Z;           (* uint64_t r[16] *)
  f : list double;      (* double f[8] *)
  scratch : list Z;     (* c->scratch *)
  taken : list Z        (* c->taken *)
}.

Definition set_r (v : vm) (d x : Z) : vm := mk_vm (<[Z.to_nat d := x]> (r v)) (f v) (scratch v) (taken v).
Definition set_f (v : vm) (d : Z) (x : double) : vm :=
  mk_vm (r v) (<[Z.to_nat (Z.land d 7) := x]> (f v)) (scratch v) (taken v).
Definition with_scratch (v : vm) (sc : list Z) : vm := mk_vm (r v) (f v) sc (taken v).
Definition get_r (v : vm) (d : Z) : Z := r v !!! Z.to_nat d.
Definition get_f (v : vm) (d : Z) : double := f v !!! Z.to_nat (Z.land d 7).

(** The [switch]: the new machine, and [Some pc'] when the branch is taken. *)
Definition exec_op (aes : list Z) (branchMask rotSalt loop : Z) (v : vm) (pc : Z) (ins : nm_instr)
    : option (vm * option Z) :=
  let d := Z.land (dst ins) 15 in
  let s := Z.land (src ins) 15 in
  let im := imm ins in
  match decode (op ins) with
  | Some opIADD => Some (set_r v d (add64 (get_r v d) (add64 (get_r v s) im)), None)
  | Some opIMUL => Some (set_r v d (mul64 (get_r v d) (Z.lor (get_r v s) 1)), None)
  | Some opIMULH => Some (set_r v d (Z.lxor (mulhi64 (get_r v d) (get_r v s)) im), None)
  | Some opIXOR => Some (set_r v d (Z.lxor (get_r v d) (add64 (get_r v s) rotSalt)), None)
  | Some opIROTR =>
      Some (set_r v d (nm_rotl64 (get_r v d) (- Z.land (Z.lxor (get_r v s) im) 63)), None)
  | Some opINEG => Some (set_r v d (add64 (not64 (get_r v d)) im), None)
  | Some opFADD => Some (set_f v d (fadd (get_f v d) (get_f v s)), None)
  | Some opFMUL => Some (set_f v d (fmul (get_f v d) (get_f v s)), None)
  | Some opFDIV => b ← d2bits (get_f v s); Some (set_f v d (fdiv (get_f v d) (normFloat b)), None)
  | Some opFSQRT => Some (set_f v d (fsqrt (fabs (get_f v d))), None)
  | Some opLOAD =>
      let addr := Z.land (add64 (get_r v s) im) NM_SCRATCH_MASK in
      x ← rd (scratch v) (Z.shiftr addr 3);
      Some (set_r v d (Z.lxor (get_r v d) x), None)
  | Some opSTORE =>
      let addr := Z.land (add64 (get_r v d) im) NM_SCRATCH_MASK in
      x ← rd (scratch v) (Z.shiftr addr 3);
      sc ← wr (scratch v) (Z.shiftr addr 3) (Z.lxor x (add64 (get_r v s) loop));
      Some (with_scratch v sc, None)
  | Some opCBRANCH =>
      tk ← rd (taken v) pc;
      if (Z.land (add64 (get_r v d) im) branchMask =? 0) && (tk <? 8) then
        taken' ← wr (taken v) pc (T8 (tk + 1));
        let back := im mod 31 + 1 in
        let pc := pc - back in
        Some (mk_vm (r v) (f v) (scratch v) taken', Some (if pc <? 0 then 0 else pc))
      else Some (v, None)
  | Some opAESR =>
      let addr := Z.land (Z.land (add64 (get_r v s) im) NM_SCRATCH_MASK) (not64 15) in
      let w := Z.shiftr addr 3 in
      x0 ← rd (scratch v) w;
      x1 ← rd (scratch v) (w + 1);
      let aesOut := nm_aes128_encrypt_sw aes (put64 x0 ++ put64 x1) in
      sc ← wr (scratch v) w (le64 aesOut);
      sc ← wr sc (w + 1) (le64 (drop 8 aesOut));
      x ← rd sc w;
      Some (set_r (with_scratch v sc) d (Z.lxor (get_r v d) x), None)
  | Some opXDOM =>
      if Z.land im 1 =? 0 then b ← d2bits (get_f v s); Some (set_r v d (Z.lxor (get_r v d) b), None)
      else Some (set_f v d (fmul (get_f v d) (normFloat (get_r v s))), None)
  | None => Some (v, None)
  end.

(** After the [switch]: a NaN, infinite or zero result of a float operation is
    replaced by a number of [[1, 2)]. *)
Definition fix_float (v : vm) (ins : nm_instr) : vm :=
  let d := Z.land (dst ins) 15 in
  if (6 <=? op ins) && (op ins <=? 9) then
    let x := get_f v d in
    if isnan x || isinf x || iszero x then set_f v d (normFloat (Z.lor (get_r v d) 1)) else v
  else v.

(** One trip of the interpreter loop: the new machine and program counter. *)
Definition exec_instr (aes : list Z) (branchMask rotSalt loop : Z) (v : vm) (pc : Z) (ins : nm_instr)
    : option (vm * Z) :=
  res ← exec_op aes branchMask rotSalt loop v pc ins;
  match res with
  | (v, Some pc') => Some (v, pc')
  | (v, None) => Some (fix_float v ins, pc + 1)
  end.

(** [while (pc < progSize)]; [None] if [fuel] trips are not enough. *)
Fixpoint run_program (fuel : nat) (aes : list Z) (branchMask rotSalt loop progSize : Z)
    (prog : list nm_instr) (v : vm) (pc : Z) : option vm :=
  if pc <? progSize then
    match fuel with
    | O => None
    | S fuel =>
        ins ← rd prog pc;
        '(v, pc) ← exec_instr aes branchMask rotSalt loop v pc ins;
        run_program fuel aes branchMask rotSalt loop progSize prog v pc
    end
  else Some v.

(** ** The hash *)

(** A loop whose body may fail. *)
Definition foldm {A} (body : A -> nat -> option A) (a : A) (l : list nat) : option A :=
  foldl (fun oa i => a ← oa; body a i) (Some a) l.

(** The dataset reads of one loop: each address depends on the previous word. *)
Definition dataset_read (dataset : list Z) (loop : Z) (st : list Z * Z) (k : nat)
    : option (list Z * Z) :=
  let '(r, addr) := st in
  v ← rd dataset (Z.shiftr addr 3);
  let r := <[(k mod 16)%nat := Z.lxor (r !!! (k mod 16)%nat) v]> r in
  Some (r, Z.land (add64 (add64 v (r !!! ((k + 1) mod 16)%nat)) loop) NM_DATASET_MASK).

Definition dataset_step (dataset : list Z) (rotSalt loop : Z) (r : list Z) : option (list Z) :=
  let addr := Z.land (Z.lxor (r !!! 1%nat) rotSalt) NM_DATASET_MASK in
  '(r, _) ← foldm (dataset_read dataset loop) (r, addr) (seq 0 NM_DATASET_READS_PER_LOOP);
  Some r.

(** The end of a loop: the registers are mixed into the scratchpad at a position
    given by [r[0]], then the doubles into the upper registers. *)
Definition mix_base (r : list Z) (loop : Z) : Z :=
  Z.shiftr (Z.land (Z.lxor (r !!! 0%nat) (mul64 loop 0x9E3779B97F4A7C15)) NM_SCRATCH_MASK) 3.
Definition mix_scratch (r scratch : list Z) (base : Z) : option (list Z) :=
  foldm (fun sc i => let w := add64 base (Z.of_nat i) mod NM_SCRATCH_WORDS in
                     x ← rd sc w; wr sc w (Z.lxor x (r !!! i))) scratch (seq 0 16).
Definition mix_floats (r : list Z) (f : list double) : option (list Z) :=
  foldm (fun r i => b ← d2bits (f !!! i); Some (<[(i + 8)%nat := Z.lxor (r !!! (i + 8)%nat) b]> r)) r (seq 0 8).

Definition end_loop (useDS : bool) (dataset : list Z) (rotSalt loop : Z) (v : vm) : option vm :=
  rs ← (if useDS : bool then dataset_step dataset rotSalt loop (r v) else Some (r v));
  sc ← mix_scratch rs (scratch v) (mix_base rs loop);
  rs ← mix_floats rs (f v);
  Some (mk_vm rs (f v) sc (taken v)).

(** Trips the interpreter loop needs at most (see [run_program_total]). *)
Definition vm_fuel (progSize : Z) : nat := Z.to_nat (257 * progSize).

(** The body of [for (loop = 0; loop < p->loops; loop++)]. *)
Definition one_loop (aes : list Z) (p : nm_params) (useDS : bool) (dataset : list Z)
    (prog : list nm_instr) (loop : Z) (v : vm) : option vm :=
  let v := mk_vm (r v) (f v) (scratch v) (memset0 (taken v) 0 (Z.to_nat (prog_size p))) in
  v ← run_program (vm_fuel (prog_size p)) aes (branch_mask p) (rot_salt p) loop (prog_size p) prog v 0;
  end_loop useDS dataset (rot_salt p) loop v.

Fixpoint run_loops (k : nat) (aes : list Z) (p : nm_params) (useDS : bool) (dataset : list Z)
    (prog : list nm_instr) (loop : Z) (v : vm) : option vm :=
  match k with
  | O => Some v
  | S k =>
      v ← one_loop aes p useDS dataset prog loop v;
      run_loops k aes p useDS dataset prog (loop + 1) v
  end.

Definition fold_scratch (scratch : list Z) : list Z :=
  foldl (fun fold t => foldl (fun fold j =>
           <[j := Z.lxor (fold !!! j) (scratch !!! (8 * t + j)%nat)]> fold) fold (seq 0 8))
    (replicate 8 0) (seq 0 (Z.to_nat (NM_SCRATCH_WORDS / 8))).

(** The registers a hash starts from. *)
Definition init_vm (p : nm_params) (seed scratch taken : list Z) : vm :=
  mk_vm (tabulate 16 (fun i => if (i <? 4)%nat then le64 (drop (i * 8) seed)
                               else Z.lxor (scratch !!! i) (rot_salt p)))
        ((fun i => normFloat (scratch !!! (16 + i)%nat)) <$> seq 0 8) scratch taken.

Definition nm_seed (junk header : list Z) : list Z :=
  nm_sha256 junk (chars "nm-seed|" ++ take NM_HEADER_LEN header).

Definition final_buf (seed : list Z) (v : vm) : option (list Z) :=
  fb ← mapM d2bits (f v);
  Some (chars "NMv1" ++ seed ++ flat_map put64 (r v) ++ flat_map put64 fb
    ++ flat_map put64 (fold_scratch (scratch v))).

(** The buffers of a worker thread a hash works in. *)
Record nm_bufs := mk_bufs { b_scratch : list Z; b_prog : list nm_instr; b_taken : list Z }.

Definition nm_hash (junk : list Z) (p : nm_params) (aes : list Z) (bufs : nm_bufs) (dataset : list Z)
    (header : list Z) (height : Z) : option (list Z * nm_bufs) :=
  let seed := nm_seed junk header in
  let useDS := NM_DATASET_HEIGHT <=? height in
  let sc := fill_scratch junk (b_scratch bufs) seed in
  let prog := gen_program junk p (b_prog bufs) seed in
  v ← run_loops (Z.to_nat (loops p)) aes p useDS dataset prog 0 (init_vm p seed sc (b_taken bufs));
  buf ← final_buf seed v;
  Some (nm_sha256 junk buf, mk_bufs (scratch v) prog (taken v)).

(** ** Invariants *)

Record vm_ok (v : vm) : Prop := {
  ok_r : length (r v) = 16%nat /\ words64 (r v);
  ok_f : length (f v) = 8%nat /\ Forall (fun d => isnan d = false) (f v);
  ok_scratch : Z.of_nat (length (scratch v)) = NM_SCRATCH_WORDS /\ words64 (scratch v);
  ok_taken : Z.of_nat (length (taken v)) = NM_PROG_MAX /\ bytes (taken v)
}.

Definition instr_ok (i : nm_instr) : Prop :=
  0 <= op i < 15 /\ word 8 (dst i) /\ word 8 (src i) /\ word 32 (imm i).

(** What a loop of the machine runs with. *)
Record env_ok (aes : list Z) (branchMask rotSalt loop progSize : Z) (prog : list nm_instr) : Prop := {
  ok_aes : wf_key aes;
  ok_mask : word 64 branchMask;
  ok_salt : word 64 rotSalt;
  ok_loop : word 64 loop;
  ok_size : 0 <= progSize <= NM_PROG_MAX;
  ok_prog_len : progSize <= Z.of_nat (length prog);
  ok_prog : Forall instr_ok (take (Z.to_nat progSize) prog)
}.

(** *** Checked accesses *)

Lemma rd_ok {A} (P : A -> Prop) (a : list A) i :
  0 <= i < Z.of_nat (length a) -> Forall P a -> exists x, rd a i = Some x /\ P x.
Proof.
  intros Hi HP. unfold rd. destruct (Z.ltb_spec i 0); [lia|].
  destruct (lookup_lt_is_Some_2 a (Z.to_nat i)) as [x Hx]; [lia|].
  exists x. split; [done|]. by eapply Forall_lookup_1.
Qed.

Lemma wr_ok (P : Z -> Prop) (a : list Z) i x :
  0 <= i < Z.of_nat (length a) -> Forall P a -> P x ->
  exists a', wr a i x = Some a' /\ length a' = length a /\ Forall P a' /\ a' = <[Z.to_nat i := x]> a.
Proof.
  intros Hi HP Hx. unfold wr. exists (<[Z.to_nat i := x]> a).
  destruct (Z.leb_spec 0 i); [|lia]. destruct (Z.ltb_spec i (Z.of_nat (length a))); [|lia].
  split_and!; [done|by rewrite length_insert|by apply Forall_insert|done].
Qed.

(** *** Addresses *)

Lemma word_index w k x : 0 <= k <= w -> word w x -> 0 <= Z.shiftr x k < 2 ^ (w - k).
Proof.
  intros Hk [H0 H1]. rewrite Z.shiftr_div_pow2 by lia.
  pose proof (Z.pow_pos_nonneg 2 k ltac:(lia) ltac:(lia)).
  split; [apply Z.div_pos; lia|]. apply Z.div_lt_upper_bound; [lia|].
  rewrite <-Z.pow_add_r by lia. by replace (k + (w - k)) with w by lia.
Qed.

Lemma scratch_index x : 0 <= Z.shiftr (Z.land x NM_SCRATCH_MASK) 3 < NM_SCRATCH_WORDS.
Proof.
  apply (word_index 21); [lia|]. apply word_land_r; [lia|]. unfold word. vm_compute. done.
Qed.

Lemma dataset_index x : 0 <= Z.shiftr (Z.land x NM_DATASET_MASK) 3 < NM_DATASET_WORDS.
Proof.
  apply (word_index 26); [lia|]. apply word_land_r; [lia|]. unfold word. vm_compute. done.
Qed.

(** The AES instruction touches an aligned pair of words. *)
Lemma aes_index x :
  let w := Z.shiftr (Z.land (Z.land x NM_SCRATCH_MASK) (not64 15)) 3 in
  0 <= w /\ w + 1 < NM_SCRATCH_WORDS.
Proof.
  assert (H : 0 <= Z.shiftr (Z.land (Z.land x NM_SCRATCH_MASK) (not64 15)) 3 < 2 ^ 18).
  { apply (word_index 21); [lia|]. apply word_land_l; [lia|]. apply word_land_r; [lia|].
    unfold word. vm_compute. done. }
  cbv zeta. set (w := Z.shiftr _ 3) in *.
  assert (Hodd : Z.odd w = false).
  { unfold w. rewrite <-Z.bit0_odd, Z.shiftr_spec, Z.land_spec by lia. apply andb_false_r. }
  change NM_SCRATCH_WORDS with (2 ^ 18). split; [lia|].
  assert (w <> 2 ^ 18 - 1) by (intros E; rewrite E in Hodd; done). lia.
Qed.

(** *** Words *)

Lemma word_mulhi64 a b : word 64 a -> word 64 b -> word 64 (mulhi64 a b).
Proof.
  intros [Ha0 Ha1] [Hb0 Hb1]. apply (word_index 128); [lia|]. unfold word.
  replace (2 ^ 128) with (2 ^ 64 * 2 ^ 64) by lia. nia.
Qed.
Lemma word_nm_rotl64 x k : word 64 x -> word 64 (nm_rotl64 x k).
Proof.
  intros Hx. unfold nm_rotl64. change 63 with (Z.ones 6). rewrite Z.land_ones by lia.
  pose proof (Z.mod_pos_bound k (2 ^ 6) ltac:(lia)).
  destruct (_ =? 0); [done|]. apply word_lor; [lia|words|]. apply word_shiftr; [lia|done].
Qed.
Lemma word_le64 b : bytes b -> word 64 (le64 b).
Proof. intros. by apply (word_le_load 8). Qed.
Lemma bytes_put64 v : bytes (put64 v).
Proof. apply bytes_le_store. Qed.
Lemma word_1_64 : word 64 1.
Proof. unfold word. lia. Qed.
Lemma word_64_32 x : word 32 x -> word 64 x.
Proof. apply word_mono. lia. Qed.
#[export] Hint Resolve word_mulhi64 word_nm_rotl64 word_le64 bytes_put64 word_1_64 word_64_32 : words.

Lemma land_15 x : 0 <= Z.land x 15 < 16.
Proof. change 15 with (Z.ones 4). rewrite Z.land_ones by lia. apply Z.mod_pos_bound. lia. Qed.
Lemma land_7 x : 0 <= Z.land x 7 < 8.
Proof. change 7 with (Z.ones 3). rewrite Z.land_ones by lia. apply Z.mod_pos_bound. lia. Qed.

(** *** Updates keep the invariant *)

Lemma vm_ok_get_r v d : vm_ok v -> word 64 (get_r v d).
Proof. intros [[_ H] _ _ _]. by apply words64_lookup. Qed.
Lemma vm_ok_get_f v d : vm_ok v -> isnan (get_f v d) = false.
Proof.
  intros [_ [Hl H] _ _]. unfold get_f. pose proof (land_7 d).
  destruct (lookup_lt_is_Some_2 (f v) (Z.to_nat (Z.land d 7))) as [x Hx]; [lia|].
  rewrite (list_lookup_total_correct _ _ _ Hx). by eapply (Forall_lookup_1 _ _ _ _ H).
Qed.
Lemma vm_ok_set_r v d x : vm_ok v -> word 64 x -> vm_ok (set_r v d x).
Proof.
  intros [[Hl Hr] Hf Hs Ht] Hx. constructor; simpl; try done.
  rewrite length_insert. split; [done|by apply Forall_insert].
Qed.
Lemma vm_ok_set_f v d x : vm_ok v -> isnan x = false -> vm_ok (set_f v d x).
Proof.
  intros [Hr [Hl Hf] Hs Ht] Hx. constructor; simpl; try done.
  rewrite length_insert. split; [done|by apply Forall_insert].
Qed.
Lemma vm_ok_with_scratch v sc :
  vm_ok v -> length sc = length (scratch v) -> words64 sc -> vm_ok (with_scratch v sc).
Proof. intros [Hr Hf [Hl Hs] Ht] Hlen Hsc. constructor; simpl; try done. by rewrite Hlen. Qed.
#[export] Hint Resolve vm_ok_get_r vm_ok_get_f vm_ok_set_r vm_ok_set_f vm_ok_with_scratch : words.

(** *** One instruction *)

Lemma fix_float_id v i : (op i < 6 \/ 9 < op i) -> fix_float v i = v.
Proof.
  intros H. unfold fix_float. destruct (Z.leb_spec 6 (op i)), (Z.leb_spec (op i) 9); try done; lia.
Qed.

(** Whatever a float instruction computes, the clean-up leaves no NaN. *)
Lemma fix_float_ok v i x :
  vm_ok v -> vm_ok (fix_float (set_f v (Z.land (dst i) 15) x) i) \/ (op i < 6 \/ 9 < op i).
Proof.
  intros Hv. unfold fix_float.
  destruct (Z.leb_spec 6 (op i)), (Z.leb_spec (op i) 9); simpl; try (right; lia). left.
  set (d := Z.land (dst i) 15).
  assert (Hget : get_f (set_f v d x) d = x).
  { destruct Hv as [_ [Hl _] _ _]. unfold get_f, set_f; cbn [f].
    apply list_lookup_total_insert_eq. rewrite Hl. pose proof (land_7 d). lia. }
  rewrite Hget. destruct (isnan x) eqn:E; simpl.
  - replace (set_f (set_f v d x) d _) with (set_f v d (normFloat (Z.lor (get_r v d) 1))).
    + apply vm_ok_set_f; auto using normFloat_not_nan.
    + unfold set_f; cbn [f r scratch taken]. by rewrite list_insert_insert_eq.
  - destruct (isinf x || iszero x); auto using vm_ok_set_f, normFloat_not_nan.
Qed.

(** The two ways an instruction can leave the branch counters and the program
    counter: fall through, or jump back at most 31 on a counter below 8. *)
Definition next (v v' : vm) (pc pc' : Z) : Prop :=
  (taken v' = taken v /\ pc' = pc + 1) \/
  (exists t, taken v !! Z.to_nat pc = Some t /\ t < 8 /\
     taken v' = <[Z.to_nat pc := t + 1]> (taken v) /\ pc - 31 <= pc' <= pc /\ 0 <= pc').

Lemma taken_fix_float v i : taken (fix_float v i) = taken v.
Proof. unfold fix_float. by repeat case_match. Qed.

Lemma branch_ok aes bm rs lp v pc i :
  vm_ok v -> instr_ok i -> 0 <= pc < NM_PROG_MAX -> op i = 12 ->
  exists v' pc', exec_instr aes bm rs lp v pc i = Some (v', pc') /\ vm_ok v' /\ next v v' pc pc'.
Proof.
  intros Hv Hi Hpc Hop. unfold exec_instr, exec_op. rewrite Hop. cbn [decode Z.to_nat].
  change (decode 12) with (Some opCBRANCH). cbv iota.
  destruct Hv as [Hr Hf Hs [Hlt Ht]] eqn:EHv.
  destruct (rd_ok _ (taken v) pc ltac:(lia) Ht) as (t & Hrd & Hb). rewrite Hrd. cbn [mbind option_bind].
  assert (Hlk : taken v !! Z.to_nat pc = Some t)
    by (unfold rd in Hrd; destruct (Z.ltb_spec pc 0); [lia|done]).
  destruct (_ =? 0); simpl andb; [destruct (Z.ltb_spec t 8) as [Hlt8|]|]; cbv iota.
  - destruct (wr_ok (word 8) (taken v) pc (T8 (t + 1)) ltac:(lia) Ht) as (tk & -> & Hl & Hall & ->);
      [apply word_T8|].
    cbn [mbind option_bind].
    pose proof (Z.mod_pos_bound (imm i) 31 ltac:(lia)) as Hm.
    eexists _, _. split; [done|]. split.
    + constructor; cbn [r f scratch taken]; try done. by rewrite Hl.
    + right. exists t. cbn [taken]. rewrite T8_id by (unfold word in *; lia).
      split_and!; try done; destruct (Z.ltb_spec (pc - (imm i mod 31 + 1)) 0); lia.
  - cbn [mbind option_bind]. eexists _, _. split; [done|]. rewrite fix_float_id by lia. split; [done|by left].
  - cbn [mbind option_bind]. eexists _, _. split; [done|]. rewrite fix_float_id by lia. split; [done|by left].
Qed.

(** An instruction that falls through. *)
Lemma straight aes bm rs lp v pc i v' :
  exec_op aes bm rs lp v pc i = Some (v', None) -> vm_ok (fix_float v' i) -> taken v' = taken v ->
  exists v'' pc', exec_instr aes bm rs lp v pc i = Some (v'', pc') /\ vm_ok v'' /\ next v v'' pc pc'.
Proof.
  intros He Hok Ht. unfold exec_instr. rewrite He. cbn [mbind option_bind].
  eexists _, _. split; [done|]. split; [done|]. left. by rewrite taken_fix_float.
Qed.

Lemma straight_float aes bm rs lp v pc i x :
  vm_ok v -> 6 <= op i <= 9 ->
  exec_op aes bm rs lp v pc i = Some (set_f v (Z.land (dst i) 15) x, None) ->
  exists v'' pc', exec_instr aes bm rs lp v pc i = Some (v'', pc') /\ vm_ok v'' /\ next v v'' pc pc'.
Proof.
  intros Hv Hop He. eapply straight; [exact He| |done].
  destruct (fix_float_ok v i x Hv); [done|lia].
Qed.

Lemma straight_other aes bm rs lp v pc i v' :
  (op i < 6 \/ 9 < op i) ->
  exec_op aes bm rs lp v pc i = Some (v', None) -> vm_ok v' -> taken v' = taken v ->
  exists v'' pc', exec_instr aes bm rs lp v pc i = Some (v'', pc') /\ vm_ok v'' /\ next v v'' pc pc'.
Proof. intros Hop He Hok Ht. eapply straight; [exact He| |done]. by rewrite fix_float_id. Qed.

Lemma load_ok aes bm rs lp v pc i :
  vm_ok v -> instr_ok i -> op i = 10 ->
  exists v' pc', exec_instr aes bm rs lp v pc i = Some (v', pc') /\ vm_ok v' /\ next v v' pc pc'.
Proof.
  intros Hv Hi Hop. pose proof Hv as [_ _ [Hl Hs] _].
  set (a := add64 (get_r v (Z.land (src i) 15)) (imm i)).
  destruct (rd_ok _ (scratch v) _ ltac:(rewrite Hl; exact (scratch_index a)) Hs) as (x & Hx & Hw).
  eapply straight_other; [lia| | |].
  - unfold exec_op. rewrite Hop. change (decode 10) with (Some opLOAD). cbv iota zeta. fold a.
    rewrite Hx. cbn [mbind option_bind]. reflexivity.
  - words.
  - done.
Qed.

Lemma store_ok aes bm rs lp v pc i :
  vm_ok v -> instr_ok i -> op i = 11 ->
  exists v' pc', exec_instr aes bm rs lp v pc i = Some (v', pc') /\ vm_ok v' /\ next v v' pc pc'.
Proof.
  intros Hv Hi Hop. pose proof Hv as [_ _ [Hl Hs] _].
  set (a := add64 (get_r v (Z.land (dst i) 15)) (imm i)).
  destruct (rd_ok _ (scratch v) _ ltac:(rewrite Hl; exact (scratch_index a)) Hs) as (x & Hx & Hw).
  destruct (wr_ok _ (scratch v) _ (Z.lxor x (add64 (get_r v (Z.land (src i) 15)) lp))
    ltac:(rewrite Hl; exact (scratch_index a)) Hs) as (sc & Hwr & Hlen & Hall & _); [words|].
  eapply straight_other; [lia| | |].
  - unfold exec_op. rewrite Hop. change (decode 11) with (Some opSTORE). cbv iota zeta. fold a.
    rewrite Hx. cbn [mbind option_bind]. rewrite Hwr. cbn [mbind option_bind]. reflexivity.
  - words.
  - done.
Qed.

Lemma bytes_encrypt rk x0 x1 :
  wf_key rk -> bytes (nm_aes128_encrypt_sw rk (put64 x0 ++ put64 x1)).
Proof.
  intros Hk.
  assert (Hblk : block (put64 x0 ++ put64 x1)).
  { split; [rewrite length_app; unfold put64; by rewrite !length_tabulate|].
    apply Forall_app_2; apply bytes_put64. }
  rewrite encrypt_sw_cipher by done. by apply block_Cipher.
Qed.

Lemma aesr_ok aes bm rs lp v pc i :
  vm_ok v -> instr_ok i -> wf_key aes -> op i = 13 ->
  exists v' pc', exec_instr aes bm rs lp v pc i = Some (v', pc') /\ vm_ok v' /\ next v v' pc pc'.
Proof.
  intros Hv Hi Hk Hop. pose proof Hv as [_ _ [Hl Hs] _].
  set (a := add64 (get_r v (Z.land (src i) 15)) (imm i)).
  destruct (aes_index a) as [Hw0 Hw1].
  set (w := Z.shiftr (Z.land (Z.land a NM_SCRATCH_MASK) (not64 15)) 3) in *.
  destruct (rd_ok _ (scratch v) w ltac:(lia) Hs) as (x0 & Hx0 & _).
  destruct (rd_ok _ (scratch v) (w + 1) ltac:(lia) Hs) as (x1 & Hx1 & _).
  pose proof (bytes_encrypt aes x0 x1 Hk) as Hb. set (out := nm_aes128_encrypt_sw _ _) in *.
  destruct (wr_ok _ (scratch v) w (le64 out) ltac:(lia) Hs) as (sc & Hwr & Hlen & Hall & _); [words|].
  destruct (wr_ok _ sc (w + 1) (le64 (drop 8 out)) ltac:(lia) Hall) as (sc' & Hwr' & Hlen' & Hall' & _).
  { apply word_le64. by apply Forall_drop. }
  destruct (rd_ok _ sc' w ltac:(lia) Hall') as (x & Hx & Hwx).
  eapply straight_other; [lia| | |].
  - unfold exec_op. rewrite Hop. change (decode 13) with (Some opAESR). cbv iota zeta. fold a. fold w.
    rewrite Hx0. cbn [mbind option_bind]. rewrite Hx1. cbn [mbind option_bind]. fold out.
    rewrite Hwr. cbn [mbind option_bind]. rewrite Hwr'. cbn [mbind option_bind].
    rewrite Hx. cbn [mbind option_bind]. reflexivity.
  - apply vm_ok_set_r; [|words]. apply vm_ok_with_scratch; [done|congruence|done].
  - done.
Qed.

Lemma exec_instr_ok aes bm rs lp v pc i :
  vm_ok v -> instr_ok i -> wf_key aes -> word 64 rs -> 0 <= pc < NM_PROG_MAX ->
  exists v' pc', exec_instr aes bm rs lp v pc i = Some (v', pc') /\ vm_ok v' /\ next v v' pc pc'.
Proof.
  intros Hv Hi Hk Hrs Hpc. pose proof Hi as (Hop & _ & _ & Him).
  assert (Hk1 : op i = 0 \/ op i = 1 \/ op i = 2 \/ op i = 3 \/ op i = 4 \/ op i = 5 \/ op i =
     6 \/ op i = 7 \/ op i = 8 \/ op i = 9 \/ op i = 10 \/ op i = 11 \/ op i = 12 \/ op i = 13 \/ op i = 14) by lia.
  destruct_or! Hk1;
    try (eapply straight_float; [done|lia|unfold exec_op; rewrite Hk1; reflexivity]);
    try (eapply straight_other; [lia|unfold exec_op; rewrite Hk1; reflexivity|words|done]);
    auto using load_ok, store_ok, aesr_ok, branch_ok.
  all: destruct (d2bits_some (get_f v (Z.land (src i) 15)) (vm_ok_get_f _ _ Hv)) as (b & Hb & Hwb).
  { (* opFDIV *) eapply straight_float; [done|lia|unfold exec_op; rewrite Hk1; cbv zeta; change (decode 8) with (Some opFDIV); cbv iota; rewrite Hb; reflexivity]. }
  (* opXDOM *)
  destruct (Z.land (imm i) 1 =? 0) eqn:E.
  - eapply straight_other; [lia|unfold exec_op; rewrite Hk1; cbv zeta; rewrite E, Hb; reflexivity|words|done].
  - eapply straight_other; [lia|unfold exec_op; rewrite Hk1; cbv zeta; rewrite E; reflexivity| |done].
    apply vm_ok_set_f; [done|]. apply fmul_normFloat_not_nan. words.
Qed.

(** ** Termination of the interpreter loop.

    A jump back of at most 31 instructions costs one of the 8 units of the
    branch it comes from: 32 times the units left plus the distance to the end
    of the program decreases with every trip. *)

(** The jumps the counters still allow. *)
Definition credit (l : list Z) : Z := foldr (fun t a => Z.max 0 (8 - t) + a) 0 l.

Lemma credit_insert (l : list Z) i t :
  l !! i = Some t -> t < 8 -> credit (<[i := t + 1]> l) = credit l - 1.
Proof.
  revert i. induction l as [|y l IH]; intros i Hi Ht; [done|].
  destruct i as [|i]; simpl in *; [simplify_eq; lia|]. rewrite IH by done. lia.
Qed.
Lemma credit_nonneg l : 0 <= credit l.
Proof. induction l; simpl; lia. Qed.
Lemma credit_replicate k : credit (replicate k 0) = 8 * Z.of_nat k.
Proof. induction k as [|k IH]; [done|]. cbn [replicate credit foldr]. fold (credit (replicate k 0)). lia. Qed.

Definition measure (progSize : Z) (v : vm) (pc : Z) : Z :=
  32 * credit (take (Z.to_nat progSize) (taken v)) + (progSize - pc).

Lemma measure_next ps v v' pc pc' :
  0 <= pc < ps -> next v v' pc pc' -> measure ps v' pc' < measure ps v pc.
Proof.
  intros Hpc [[Ht ->]|(t & Hlk & Ht8 & Ht & Hpc' & _)]; unfold measure; rewrite Ht; [lia|].
  rewrite take_insert_lt by lia. rewrite (credit_insert _ _ t); [lia|by rewrite lookup_take_lt by lia|done].
Qed.

Lemma measure_nonneg ps v pc : pc <= ps -> 0 <= measure ps v pc.
Proof. intros Hpc. unfold measure. pose proof (credit_nonneg (take (Z.to_nat ps) (taken v))). lia. Qed.

Lemma next_pc ps v v' pc pc' : 0 <= pc < ps -> next v v' pc pc' -> 0 <= pc' <= ps.
Proof. intros Hpc [[_ ->]|(t & _ & _ & _ & ? & ?)]; lia. Qed.

Lemma prog_lookup ps (prog : list nm_instr) pc :
  ps <= Z.of_nat (length prog) -> Forall instr_ok (take (Z.to_nat ps) prog) -> 0 <= pc < ps ->
  exists i, rd prog pc = Some i /\ instr_ok i.
Proof.
  intros Hl Hall Hpc.
  destruct (rd_ok instr_ok (take (Z.to_nat ps) prog) pc) as (i & Hi & Hok);
    [rewrite length_take; lia|done|].
  exists i. split; [|done]. unfold rd in *. destruct (Z.ltb_spec pc 0); [lia|].
  by rewrite lookup_take_lt in Hi by lia.
Qed.

Lemma run_program_total fuel aes bm rs lp ps prog v pc :
  env_ok aes bm rs lp ps prog -> vm_ok v -> 0 <= pc <= ps -> measure ps v pc <= Z.of_nat fuel ->
  exists v', run_program fuel aes bm rs lp ps prog v pc = Some v' /\ vm_ok v'.
Proof.
  intros Henv. revert v pc. induction fuel as [|fuel IH]; intros v pc Hv Hpc Hm.
  - simpl. destruct (Z.ltb_spec pc ps); [|by eexists]. exfalso.
    pose proof (measure_nonneg ps v ps ltac:(lia)).
    unfold measure in *. lia.
  - cbn [run_program]. destruct (Z.ltb_spec pc ps); [|by eexists].
    destruct Henv as [Haes Hbm Hrs Hlp Hps Hlen Hprog].
    destruct (prog_lookup ps prog pc Hlen Hprog ltac:(lia)) as (i & -> & Hi). cbn [mbind option_bind].
    destruct (exec_instr_ok aes bm rs lp v pc i Hv Hi Haes Hrs ltac:(lia)) as (v' & pc' & -> & Hv' & Hn).
    cbn [mbind option_bind]. apply IH; [done|eapply next_pc; [|exact Hn]; lia|].
    pose proof (measure_next ps v v' pc pc' ltac:(lia) Hn). lia.
Qed.

(** ** The end of a loop *)

Lemma foldm_ok {A} (I : A -> Prop) (body : A -> nat -> option A) a l :
  (forall a i, i ∈ l -> I a -> exists a', body a i = Some a' /\ I a') -> I a ->
  exists a', foldm body a l = Some a' /\ I a'.
Proof.
  unfold foldm. revert a. induction l as [|i l IH]; intros a Hb Ha; [by eexists|].
  destruct (Hb a i ltac:(by left) Ha) as (a1 & H1 & Ha1). cbn [foldl mbind option_bind]. rewrite H1.
  apply IH; [|done]. intros. apply Hb; [by right|done].
Qed.

Definition dataset_ok (d : list Z) : Prop := Z.of_nat (length d) = NM_DATASET_WORDS /\ words64 d.
Definition regs_ok (r : list Z) : Prop := length r = 16%nat /\ words64 r.

Lemma regs_ok_insert r i x : regs_ok r -> word 64 x -> regs_ok (<[i := x]> r).
Proof. intros [Hl Hr] Hx. split; [by rewrite length_insert|by apply Forall_insert]. Qed.

Lemma dataset_step_ok d rs lp r :
  dataset_ok d -> regs_ok r -> exists r', dataset_step d rs lp r = Some r' /\ regs_ok r'.
Proof.
  intros [Hl Hd] Hr. unfold dataset_step.
  destruct (foldm_ok (fun st => regs_ok st.1 /\ exists x, st.2 = Z.land x NM_DATASET_MASK)
    (dataset_read d lp) (r, Z.land (Z.lxor (r !!! 1%nat) rs) NM_DATASET_MASK)
    (seq 0 NM_DATASET_READS_PER_LOOP)) as ([r' a'] & Hf & Hr' & _).
  - intros [r1 a1] k _ [Hr1 [x Hx]]. cbn [fst snd] in *. subst a1. unfold dataset_read.
    destruct (rd_ok _ d _ ltac:(rewrite Hl; exact (dataset_index x)) Hd) as (w & -> & Hw).
    cbn [mbind option_bind]. eexists. split; [done|]. cbn [fst snd]. split; [|by eexists].
    destruct Hr1 as [Hl1 Hr1]. apply regs_ok_insert; [done|]. apply word_lxor; words.
  - split; [done|by eexists].
  - rewrite Hf. cbn [mbind option_bind]. by eexists.
Qed.

Lemma mix_scratch_ok r sc base :
  regs_ok r -> Z.of_nat (length sc) = NM_SCRATCH_WORDS -> words64 sc ->
  exists sc', mix_scratch r sc base = Some sc' /\ Z.of_nat (length sc') = NM_SCRATCH_WORDS /\ words64 sc'.
Proof.
  intros [Hl Hr] Hsl Hs. apply (foldm_ok (fun sc => Z.of_nat (length sc) = NM_SCRATCH_WORDS /\ words64 sc));
    [|done].
  intros s i _ [Hl1 Hs1]. cbv zeta.
  pose proof (Z.mod_pos_bound (add64 base (Z.of_nat i)) NM_SCRATCH_WORDS ltac:(done)) as Hm.
  destruct (rd_ok _ s _ ltac:(rewrite Hl1; exact Hm) Hs1) as (x & -> & Hx). cbn [mbind option_bind].
  destruct (wr_ok _ s _ (Z.lxor x (r !!! i)) ltac:(rewrite Hl1; exact Hm) Hs1) as (s' & -> & Hl' & Hs' & _);
    [apply word_lxor; words|].
  exists s'. by rewrite Hl'.
Qed.

Lemma mix_floats_ok r f :
  regs_ok r -> length f = 8%nat -> Forall (fun d => isnan d = false) f -> exists r', mix_floats r f = Some r' /\ regs_ok r'.
Proof.
  intros Hr Hl Hf. apply (foldm_ok regs_ok); [|done]. intros s i Hi%elem_of_seq Hs.
  destruct (d2bits_some (f !!! i)) as (b & -> & Hb); [apply (Forall_lookup_total_1 _ _ _ Hf); lia|]. cbn [mbind option_bind].
  eexists. split; [done|]. apply regs_ok_insert; [done|]. destruct Hs. apply word_lxor; words.
Qed.

Lemma end_loop_ok useDS d rs lp v :
  vm_ok v -> (useDS = true -> dataset_ok d) ->
  exists v', end_loop useDS d rs lp v = Some v' /\ vm_ok v'.
Proof.
  intros [Hr Hf [Hls Hs] Ht] Hd. unfold end_loop.
  assert (Hrs : exists r', (if useDS then dataset_step d rs lp (r v) else Some (r v)) = Some r' /\ regs_ok r').
  { destruct useDS; [by apply dataset_step_ok; auto|by eexists]. }
  destruct Hrs as (r' & -> & Hr'). cbn [mbind option_bind].
  destruct (mix_scratch_ok r' (scratch v) (mix_base r' lp) Hr' Hls Hs) as (sc' & -> & Hsl' & Hsc').
  cbn [mbind option_bind]. destruct (mix_floats_ok r' (f v) Hr' (proj1 Hf) (proj2 Hf)) as (r2 & -> & Hr2).
  cbn [mbind option_bind]. eexists. split; [done|]. constructor; cbn [r f scratch taken]; done.
Qed.

(** ** All loops *)

Lemma memset_taken_ok v ps :
  vm_ok v -> 0 <= ps <= NM_PROG_MAX ->
  let v' := mk_vm (r v) (f v) (scratch v) (memset0 (taken v) 0 (Z.to_nat ps)) in
  vm_ok v' /\ measure ps v' 0 = 257 * ps.
Proof.
  intros [Hr Hf Hs [Hlt Ht]] Hps. cbv zeta.
  assert (Hlr : length (replicate (Z.to_nat ps) 0) = Z.to_nat ps) by apply length_replicate.
  split.
  - constructor; cbn [r f scratch taken]; try done. unfold memset0. split.
    + rewrite length_memcpy; [done|]. rewrite Hlr. lia.
    + apply Forall_memcpy; [done|]. apply Forall_replicate. by apply word_0.
  - unfold measure, memset0; cbn [taken].
    pose proof (take_memcpy (taken v) 0 (replicate (Z.to_nat ps) 0) ltac:(lia)) as Htk.
    rewrite Hlr, take_0, app_nil_l in Htk. cbn [Nat.add] in Htk. rewrite Htk.
    rewrite credit_replicate. lia.
Qed.

Lemma env_ok_params aes p lp prog :
  params_ok p -> wf_key aes -> prog_size p <= Z.of_nat (length prog) ->
  Forall instr_ok (take (Z.to_nat (prog_size p)) prog) -> word 64 lp ->
  env_ok aes (branch_mask p) (rot_salt p) lp (prog_size p) prog.
Proof.
  intros Hp. pose proof (ok_prog_size _ Hp).
  constructor; try done; [|apply (ok_rot_salt _ Hp)|unfold NM_PROG_MAX; lia].
  destruct (ok_branch_mask _ Hp) as (sh & Hsh & ->). unfold word.
  pose proof (Z.pow_le_mono_r 2 sh 23 ltac:(lia) ltac:(lia)).
  pose proof (Z.pow_pos_nonneg 2 sh ltac:(lia) ltac:(lia)). lia.
Qed.

Definition prog_ok (p : nm_params) (prog : list nm_instr) : Prop :=
  prog_size p <= Z.of_nat (length prog) /\ Forall instr_ok (take (Z.to_nat (prog_size p)) prog).

Lemma one_loop_ok aes p useDS d prog lp v :
  params_ok p -> wf_key aes -> prog_ok p prog -> (useDS = true -> dataset_ok d) -> vm_ok v -> word 64 lp ->
  exists v', one_loop aes p useDS d prog lp v = Some v' /\ vm_ok v'.
Proof.
  intros Hp Haes [Hlen Hprog] Hd Hv Hlp. unfold one_loop. pose proof (ok_prog_size _ Hp) as Hps.
  assert (Henv : env_ok aes (branch_mask p) (rot_salt p) lp (prog_size p) prog) by by apply env_ok_params.
  destruct (memset_taken_ok v (prog_size p) Hv ltac:(unfold NM_PROG_MAX; lia)) as [Hv1 Hm].
  destruct (run_program_total (vm_fuel (prog_size p)) _ _ _ _ _ _ _ 0 Henv Hv1 ltac:(lia))
    as (v2 & -> & Hv2); [rewrite Hm; unfold vm_fuel; lia|].
  cbn [mbind option_bind]. by apply end_loop_ok.
Qed.

Lemma run_loops_ok k aes p useDS d prog lp v :
  params_ok p -> wf_key aes -> prog_ok p prog -> (useDS = true -> dataset_ok d) -> vm_ok v ->
  0 <= lp -> lp + Z.of_nat k < 2 ^ 64 ->
  exists v', run_loops k aes p useDS d prog lp v = Some v' /\ vm_ok v'.
Proof.
  intros Hp Haes Hprog Hd. revert lp v. induction k as [|k IH]; intros lp v Hv H0 Hlp; [by eexists|].
  cbn [run_loops].
  destruct (one_loop_ok aes p useDS d prog lp v) as (v' & -> & Hv'); try done; [unfold word; lia|].
  cbn [mbind option_bind]. apply IH; [done|lia|lia].
Qed.
