(* ===== verification/NmHash.v ===== *)
(** * The NeuroMorph hash as a whole ([crypto/nm/nm_neuromorph.c], [nm_hash]).

    The buffers a context carries from one hash to the next are overwritten by
    AES counter mode and by the program generator before the machine reads them.
    This file proves what they then hold, that a hash always terminates inside
    its buffers, and that the digest does not depend on what they held before. *)
From Stdlib Require Import SpecFloat String.
From S2P Require Import Prelude Stream NmSha256 NmAes NmParams NmFloat NmVm.
#[local] Open Scope Z_scope.

(** ** Arrays of 16-byte lanes *)

Definition lanes (n : nat) (g : nat -> list Z) : list Z := flat_map g (seq 0 n).

Lemma lanes_S n g : lanes (S n) g = lanes n g ++ g n.
Proof. unfold lanes. rewrite seq_S, flat_map_app. cbn [flat_map]. by rewrite app_nil_r. Qed.

Lemma length_lanes n g : (forall j, length (g j) = 16%nat) -> length (lanes n g) = (16 * n)%nat.
Proof.
  intros Hg. induction n as [|n IH]; [done|]. rewrite lanes_S, length_app, Hg, IH. lia.
Qed.

Lemma lanes_lookup n g j i :
  (forall j, length (g j) = 16%nat) -> (j < n)%nat -> (i < 16)%nat ->
  lanes n g !!! (16 * j + i)%nat = g j !!! i.
Proof.
  intros Hg. induction n as [|n IH]; intros Hj Hi; [lia|]. rewrite lanes_S.
  destruct (decide (j = n)) as [->|].
  - rewrite lookup_total_app_r by (rewrite length_lanes by done; lia). f_equal.
    rewrite length_lanes by done. lia.
  - rewrite lookup_total_app_l by (rewrite length_lanes by done; lia). apply IH; lia.
Qed.

Lemma lanes_split n s : length s = (16 * n)%nat -> s = lanes n (fun j => slice (16 * j) 16 s).
Proof.
  intros Hs. rewrite <-(take_ge s (16 * n)) at 1 by lia.
  assert (H : forall k, (k <= n)%nat -> take (16 * k) s = lanes k (fun j => slice (16 * j) 16 s)).
  { induction k as [|k IH]; intros Hk; [by rewrite Nat.mul_0_r|].
    rewrite lanes_S, <-IH by lia. rewrite Nat.mul_succ_r. symmetry. apply take_take_drop. }
  by apply H.
Qed.

Lemma memcpy_mid (A m m' B : list Z) off :
  off = length A -> length m' = length m -> memcpy (A ++ m ++ B) off m' = A ++ m' ++ B.
Proof.
  intros -> Hm. unfold memcpy. rewrite Hm, take_app_length. f_equal. f_equal.
  rewrite app_assoc, <-length_app. apply drop_app_length.
Qed.

(** A loop that writes the same field of every lane. *)
Lemma lanes_write n o (pre mid mid' post : nat -> list Z) :
  (forall j, length (pre j) = o) -> (forall j, length (pre j ++ mid j ++ post j) = 16%nat) ->
  (forall j, length (mid' j) = length (mid j)) ->
  foldl (fun s j => memcpy s (16 * j + o) (mid' j)) (lanes n (fun j => pre j ++ mid j ++ post j)) (seq 0 n)
  = lanes n (fun j => pre j ++ mid' j ++ post j).
Proof.
  intros Hpre H16 Hmid.
  assert (H : forall k, (k <= n)%nat ->
    foldl (fun s j => memcpy s (16 * j + o) (mid' j)) (lanes n (fun j => pre j ++ mid j ++ post j)) (seq 0 k)
    = lanes k (fun j => pre j ++ mid' j ++ post j)
      ++ flat_map (fun j => pre j ++ mid j ++ post j) (seq k (n - k))).
  { induction k as [|k IH]; intros Hk; [by rewrite Nat.sub_0_r|].
    rewrite seq_S, foldl_app, IH by lia. cbn [foldl Nat.add].
    replace (n - k)%nat with (S (n - S k)) by lia. cbn [seq flat_map]. rewrite lanes_S.
    rewrite <-!app_assoc, (app_assoc _ (pre k)). rewrite memcpy_mid; [by rewrite <-!app_assoc| |by rewrite Hmid].
    rewrite length_app, length_lanes, Hpre; [done|]. intros j. specialize (H16 j).
    rewrite !length_app in *. by rewrite Hmid. }
  specialize (H n ltac:(lia)). by rewrite Nat.sub_diag, app_nil_r in H.
Qed.

(** ** AES counter mode *)

(** Word [k] of the key stream: half [k mod 2] of the cipher text of the block
    that holds the even word index and the nonce. *)
Definition ctr_word (rk nonce : list Z) (k : nat) : Z :=
  le64 (drop (8 * (k mod 2)) (Cipher rk (put64 (Z.of_nat (2 * (k / 2))) ++ nonce))).

Lemma length_put64 v : length (put64 v) = 8%nat.
Proof. apply length_tabulate. Qed.

Definition nonce_ok (nonce : list Z) : Prop := length nonce = 8%nat /\ bytes nonce.
Definition stage_ok (nonce stage : list Z) : Prop :=
  exists c : nat -> list Z, (forall j, length (c j) = 8%nat) /\ stage = lanes 8 (fun j => c j ++ nonce).

Lemma ctr_stage_spec nonce stage i :
  nonce_ok nonce -> stage_ok nonce stage ->
  ctr_stage stage i = lanes 8 (fun j => put64 (i + 2 * Z.of_nat j) ++ nonce).
Proof.
  intros [Hn _] (c & Hc & ->). unfold ctr_stage.
  etransitivity; [|apply (lanes_write 8 0 (fun _ => []) c _ (fun _ => nonce))].
  - apply foldl_ext_seq. intros. by rewrite Nat.add_0_r.
  - done.
  - intros j. cbn [app]. rewrite length_app, Hc, Hn. done.
  - intros j. by rewrite length_put64, Hc.
Qed.

Lemma block_ctr nonce v : nonce_ok nonce -> block (put64 v ++ nonce).
Proof.
  intros [Hl Hb]. split; [rewrite length_app, length_put64; lia|].
  apply Forall_app_2; [apply bytes_put64|done].
Qed.

Lemma slice_lanes n g j :
  (forall j, length (g j) = 16%nat) -> (j < n)%nat -> slice (16 * j) 16 (lanes n g) = g j.
Proof.
  intros Hg Hj. apply list_eq_total.
  - rewrite length_slice, Hg by (rewrite length_lanes by done; lia). done.
  - rewrite length_slice by (rewrite length_lanes by done; lia). intros i Hi.
    unfold slice. rewrite lookup_total_take_lt, lookup_total_drop by lia. by apply lanes_lookup.
Qed.

Lemma encrypt8_lanes rk g :
  wf_key rk -> (forall j, block (g j)) ->
  nm_aes128_encrypt8_sw rk (lanes 8 g) = lanes 8 (fun j => Cipher rk (g j)).
Proof.
  intros Hk Hg. unfold nm_aes128_encrypt8_sw.
  assert (Hlen : forall j, length (Cipher rk (g j)) = 16%nat) by (intros; by apply block_Cipher).
  change (replicate 128 0) with (lanes 8 (fun _ => replicate 16 0 ++ [])).
  transitivity (lanes 8 (fun j => Cipher rk (g j) ++ [])).
  - etransitivity; [|apply (lanes_write 8 0 (fun _ => []) (fun _ => replicate 16 0)
      (fun j => Cipher rk (g j)) (fun _ => [])); try done; intros; by rewrite Hlen].
    apply foldl_ext_seq. intros out j Hj. rewrite Nat.add_0_r, slice_lanes by (lia || apply Hg).
    by rewrite encrypt_sw_cipher.
  - unfold lanes. apply flat_map_ext. intros. apply app_nil_r.
Qed.

Lemma flat_map_ext_seq {A} (f g : nat -> list A) i n :
  (forall j, (i <= j < i + n)%nat -> f j = g j) -> flat_map f (seq i n) = flat_map g (seq i n).
Proof.
  revert i. induction n as [|n IH]; intros i H; [done|]. cbn [seq flat_map].
  rewrite H, IH by (intros; try apply H; lia). done.
Qed.

Lemma pairs_loop (a b : nat -> Z) (words : list Z) i n :
  (i + 2 * n <= length words)%nat ->
  let w' := foldl (fun w j => <[(i + 2 * j + 1)%nat := b j]> (<[(i + 2 * j)%nat := a j]> w)) words (seq 0 n) in
  length w' = length words /\
  forall k, w' !!! k = if decide (i <= k < i + 2 * n)%nat
                       then (if decide ((k - i) mod 2 = 0)%nat then a ((k - i) / 2)%nat else b ((k - i) / 2)%nat)
                       else words !!! k.
Proof.
  induction n as [|n IH]; intros Hn.
  - cbn. split; [done|]. intros k. by rewrite decide_False by lia.
  - destruct IH as [Hl Hk]; [lia|]. cbv zeta in *. rewrite seq_S, foldl_app. cbn [foldl Nat.add].
    set (w := foldl _ words (seq 0 n)) in *. clearbody w. split; [by rewrite !length_insert|].
    intros k. rewrite !lookup_total_insert by (rewrite ?length_insert; lia). rewrite Hk.
    pose proof (Nat.div_mod_eq (k - i) 2). pose proof (Nat.mod_upper_bound (k - i) 2 ltac:(lia)).
    repeat case_decide; try lia; f_equal; lia.
Qed.

Lemma le64_ext b b' : (forall i, (i < 8)%nat -> b !!! i = b' !!! i) -> le64 b = le64 b'.
Proof. intros. rewrite !le64_le_load. by apply gather_ext. Qed.

(** One trip writes its 16 words of key stream and restores the stage invariant. *)
Lemma ctr_trip_spec rk nonce stage words t :
  wf_key rk -> nonce_ok nonce -> stage_ok nonce stage -> (16 * t + 16 <= length words)%nat ->
  let st := ctr_trip rk (stage, words) t in
  stage_ok nonce st.1 /\ length st.2 = length words /\
  forall k, st.2 !!! k = if decide (16 * t <= k < 16 * t + 16)%nat then ctr_word rk nonce k else words !!! k.
Proof.
  intros Hk Hn Hs Ht. unfold ctr_trip. rewrite (ctr_stage_spec nonce) by done.
  set (g := fun j => put64 (Z.of_nat (16 * t) + 2 * Z.of_nat j) ++ nonce).
  assert (Hg : forall j, block (g j)) by (intros; by apply block_ctr).
  rewrite encrypt8_lanes by done. cbn [fst snd]. split.
  { exists (fun j => put64 (Z.of_nat (16 * t) + 2 * Z.of_nat j)). split; [intros; apply length_put64|done]. }
  set (outs := lanes 8 _).
  destruct (pairs_loop (fun j => le64 (drop (16 * j) outs)) (fun j => le64 (drop (16 * j + 8) outs))
    words (16 * t) 8 ltac:(lia)) as [Hl Hw]. split; [exact Hl|].
  intros k. rewrite Hw.
  destruct (decide (16 * t <= k < 16 * t + 16)%nat) as [Hin|]; [|by rewrite decide_False by lia].
  rewrite (decide_True (P := (16 * t <= k < 16 * t + 2 * 8)%nat)) by lia.
  set (j := ((k - 16 * t) / 2)%nat).
  pose proof (Nat.div_mod_eq (k - 16 * t) 2). pose proof (Nat.mod_upper_bound (k - 16 * t) 2 ltac:(lia)).
  fold j in H. clearbody j.
  pose proof (Nat.div_mod_eq k 2). pose proof (Nat.mod_upper_bound k 2 ltac:(lia)).
  assert (Hj : (j < 8)%nat) by lia.
  assert (Hkj : (k / 2 = 8 * t + j)%nat) by lia.
  assert (Hread : forall o, (o <= 8)%nat -> le64 (drop (16 * j + o) outs) = le64 (drop o (Cipher rk (g j)))).
  { intros o Ho. apply le64_ext. intros i Hi. rewrite !lookup_total_drop, <-Nat.add_assoc. unfold outs.
    rewrite lanes_lookup; [done| |lia|lia]. intros. by apply block_Cipher. }
  assert (Hgj : g j = put64 (Z.of_nat (2 * (k / 2))) ++ nonce).
  { unfold g. do 2 f_equal. lia. }
  unfold ctr_word. rewrite <-Hgj.
  case_decide as Hm.
  - replace (k mod 2)%nat with 0%nat by lia. rewrite <-Hread by lia. by rewrite Nat.mul_0_r, Nat.add_0_r.
  - replace (k mod 2)%nat with 1%nat by lia. rewrite <-Hread by lia. done.
Qed.

Lemma ctr_fill_spec rk nonce stage words trips :
  wf_key rk -> nonce_ok nonce -> stage_ok nonce stage -> length words = (16 * trips)%nat ->
  ctr_fill rk stage words trips = tabulate (16 * trips) (ctr_word rk nonce).
Proof.
  intros Hk Hn Hs Hl. unfold ctr_fill.
  assert (H : forall n, (n <= trips)%nat -> let st := foldl (ctr_trip rk) (stage, words) (seq 0 n) in
    stage_ok nonce st.1 /\ length st.2 = length words /\
    forall k, (k < 16 * n)%nat -> st.2 !!! k = ctr_word rk nonce k).
  { induction n as [|n IH]; intros Hle; [split_and!; try done; intros; lia|].
    destruct IH as (H1 & H2 & H3); [lia|]. cbv zeta in *. rewrite seq_S, foldl_app. cbn [foldl Nat.add].
    destruct (foldl _ _ (seq 0 n)) as [st w]. cbn [fst snd] in *.
    destruct (ctr_trip_spec rk nonce st w n Hk Hn H1 ltac:(lia)) as (G1 & G2 & G3). cbv zeta in *.
    split_and!; [done|lia|]. intros k Hk'. rewrite G3. case_decide; [done|]. apply H3. lia. }
  destruct (H trips ltac:(lia)) as (_ & H2 & H3). cbv zeta in *.
  apply list_eq_total; rewrite H2, Hl; [by rewrite length_tabulate|].
  intros k Hk'. rewrite H3 by lia. by rewrite tabulate_lookup.
Qed.

(** *** The two buffers *)

Lemma wf_expand key : block key -> wf_key (nm_aes128_expand (replicate 176 0) key).
Proof. intros Hk. apply expand_ok; [done| |done]. apply Forall_replicate. by apply word_0. Qed.

Lemma build_dataset_spec dataset key :
  Z.of_nat (length dataset) = NM_DATASET_WORDS -> block key ->
  nm_build_dataset dataset key
  = tabulate (length dataset) (ctr_word (nm_aes128_expand (replicate 176 0) key) (replicate 8 0)).
Proof.
  intros Hl Hk. unfold nm_build_dataset. set (trips := Z.to_nat (NM_DATASET_WORDS / 16)).
  assert (Ht : length dataset = (16 * trips)%nat).
  { pose proof (Z.div_mod NM_DATASET_WORDS 16 ltac:(lia)) as Hd.
    change (NM_DATASET_WORDS mod 16) with 0 in Hd.
    assert (0 <= NM_DATASET_WORDS / 16) by (apply Z.div_pos; done). unfold trips. lia. }
  clearbody trips. rewrite Ht. apply ctr_fill_spec; [by apply wf_expand| | |done].
  - split; [done|]. apply Forall_replicate. by apply word_0.
  - exists (fun _ => replicate 8 0). split; [done|reflexivity].
Qed.

(** The key of the scratchpad expansion. *)
Definition scratch_key (seed : list Z) : list Z := sha256_spec (take 32 seed ++ [0x53]).

Lemma sha256_one junk m :
  length junk = 64%nat -> Z.of_nat (length m) < 2 ^ 61 -> nm_sha256 junk m = sha256_spec m.
Proof.
  intros Hj Hm. pose proof (streaming_spec junk [m] Hj) as H. cbn [concat foldl] in H.
  rewrite app_nil_r in H. by apply H.
Qed.
Lemma sha256_tag junk seed x :
  length junk = 64%nat -> nm_sha256 junk (take 32 seed ++ [x]) = sha256_spec (take 32 seed ++ [x]).
Proof. intros. apply sha256_one; [done|]. rewrite length_app, length_take. cbn [length]. lia. Qed.

Lemma fill_scratch_spec junk scratch seed :
  length junk = 64%nat -> Z.of_nat (length scratch) = NM_SCRATCH_WORDS ->
  fill_scratch junk scratch seed
  = tabulate (length scratch)
      (ctr_word (nm_aes128_expand (replicate 176 0) (take 16 (scratch_key seed))) (slice 24 8 (scratch_key seed))).
Proof.
  intros Hj Hl. unfold fill_scratch. rewrite sha256_tag by done. fold (scratch_key seed).
  assert (Hkl : length (scratch_key seed) = 32%nat) by apply length_sha256_spec.
  assert (Hkb : bytes (scratch_key seed)) by apply bytes_sha256_spec.
  set (key := scratch_key seed) in *. clearbody key.
  set (trips := Z.to_nat (NM_SCRATCH_WORDS / 16)).
  assert (Ht : length scratch = (16 * trips)%nat).
  { pose proof (Z.div_mod NM_SCRATCH_WORDS 16 ltac:(lia)) as Hd.
    change (NM_SCRATCH_WORDS mod 16) with 0 in Hd.
    assert (0 <= NM_SCRATCH_WORDS / 16) by (apply Z.div_pos; done). unfold trips. lia. }
  clearbody trips. rewrite Ht.
  assert (Hnl : length (slice 24 8 key) = 8%nat) by (rewrite length_slice; lia).
  apply ctr_fill_spec; [|split; [done|by apply Forall_slice]| |done].
  - apply wf_expand. split; [rewrite length_take; lia|by apply Forall_take].
  - assert (Hs : length (junk ++ junk) = 128%nat) by (rewrite length_app; lia).
    exists (fun j => take 8 (slice (16 * (j `min` 7)) 16 (junk ++ junk))).
    assert (Hsl : forall j, length (slice (16 * (j `min` 7)) 16 (junk ++ junk)) = 16%nat)
      by (intros; rewrite length_slice; lia).
    split; [intros; rewrite length_take, Hsl; done|].
    rewrite (lanes_split 8 (junk ++ junk)) at 1 by done.
    etransitivity; [|etransitivity; [apply (lanes_write 8 8
      (fun j => take 8 (slice (16 * (j `min` 7)) 16 (junk ++ junk)))
      (fun j => drop 8 (slice (16 * (j `min` 7)) 16 (junk ++ junk))) (fun _ => slice 24 8 key) (fun _ => []))|]].
    + f_equal. apply flat_map_ext_seq. intros j Hj'. rewrite app_nil_r, take_drop. do 2 f_equal. lia.
    + intros. rewrite length_take, Hsl. done.
    + intros. by rewrite app_nil_r, take_drop.
    + intros. rewrite length_drop, Hsl, Hnl. done.
    + apply flat_map_ext. intros. by rewrite app_nil_r.
Qed.

(** ** The program *)

(** Block [k] of the instruction stream: the cipher chained on its own output,
    whose low word is incremented. *)
Definition chain_next (rk x : list Z) : list Z :=
  let out := Cipher rk x in memcpy out 0 (put64 (add64 (le64 out) 1)).
Definition chain (rk inp : list Z) (k : nat) : list Z := Nat.iter k (chain_next rk) inp.
Definition chain_stream (rk inp : list Z) (n : nat) : list Z := lanes n (fun k => Cipher rk (chain rk inp k)).

Lemma block_chain_next rk x : wf_key rk -> block x -> block (chain_next rk x).
Proof.
  intros Hk Hx. destruct (block_Cipher rk x Hk Hx) as [Hl Hb]. unfold chain_next. split.
  - rewrite length_memcpy; [done|]. rewrite length_put64. lia.
  - apply Forall_memcpy; [done|apply bytes_put64].
Qed.
Lemma block_chain rk x k : wf_key rk -> block x -> block (chain rk x k).
Proof. intros. induction k; [done|]. by apply block_chain_next. Qed.

Lemma chain_stream_S rk inp n :
  chain_stream rk inp (S n) = chain_stream rk inp n ++ Cipher rk (chain rk inp n).
Proof. apply lanes_S. Qed.

Lemma length_chain_stream rk inp n : wf_key rk -> block inp -> length (chain_stream rk inp n) = (16 * n)%nat.
Proof. intros. apply length_lanes. intros. by apply block_Cipher, block_chain. Qed.

(** The loop never writes outside the stream buffer, and stops with the first
    [need] bytes of the chain in it. *)
Lemma gen_stream_spec fuel rk need stream inp n N :
  wf_key rk -> block inp -> length stream = (16 * N)%nat -> (need <= 16 * N)%nat -> (n <= N)%nat ->
  (need - 16 * n <= fuel)%nat ->
  take (16 * n) stream = chain_stream rk inp n ->
  exists n' stream', gen_stream fuel rk need stream (16 * n) (chain rk inp n) = (stream', (16 * n')%nat) /\
    (need <= 16 * n' /\ n' <= N)%nat /\ length stream' = (16 * N)%nat /\
    take (16 * n') stream' = chain_stream rk inp n'.
Proof.
  intros Hk Hi. revert stream n. induction fuel as [|fuel IH]; intros stream n Hl HN Hn Hf Ht.
  { exists n, stream. split_and!; [done|lia|lia|done|done]. }
  cbn [gen_stream]. destruct (Nat.ltb_spec (16 * n) need); [|exists n, stream; by split_and!].
  assert (Hc : block (chain rk inp n)) by by apply block_chain.
  rewrite encrypt_sw_cipher by done. destruct (block_Cipher rk _ Hk Hc) as [Hol Hob].
  set (out := Cipher rk (chain rk inp n)) in *.
  assert (Hlm : length (memcpy stream (16 * n) out) = (16 * N)%nat) by (rewrite length_memcpy; lia).
  assert (Htk : take (16 * S n) (memcpy stream (16 * n) out) = chain_stream rk inp (S n)).
  { rewrite chain_stream_S, <-Ht. fold out.
    replace (16 * S n)%nat with (16 * n + length out)%nat by lia. apply take_memcpy. lia. }
  destruct (IH _ (S n) Hlm HN ltac:(lia) ltac:(lia) Htk) as (n' & s' & He & ?).
  exists n', s'. split; [|done]. rewrite <-He. f_equal. lia.
Qed.

Definition prog_key (seed : list Z) : list Z := sha256_spec (take 32 seed ++ [0x50]).
Definition prog_stream (seed : list Z) (n : nat) : list Z :=
  chain_stream (nm_aes128_expand (replicate 176 0) (take 16 (prog_key seed))) (slice 16 16 (prog_key seed)) n.

(** Instruction [i] of the program of a seed. *)
Definition prog_instr (p : nm_params) (seed : list Z) (i : nat) : nm_instr :=
  decode_instr p (slice (8 * i) 8 (prog_stream seed 384)).

Lemma lanes_prefix n m g : (n <= m)%nat -> (forall j, length (g j) = 16%nat) ->
  take (16 * n) (lanes m g) = lanes n g.
Proof.
  intros Hn Hg. replace m with (n + (m - n))%nat by lia. unfold lanes at 1.
  rewrite seq_app, flat_map_app. fold (lanes n g).
  pose proof (length_lanes n g Hg). rewrite take_app_le by lia. apply take_ge. lia.
Qed.

Lemma fill_loop {A} `{Inhabited A} (a : list A) (g : nat -> A) k :
  (k <= length a)%nat ->
  let a' := foldl (fun a i => <[i := g i]> a) a (seq 0 k) in
  length a' = length a /\ take k a' = g <$> seq 0 k.
Proof.
  intros Hk. destruct (loop_map (fun i _ => g i) a k Hk) as [Hl Hj]. cbv zeta in *. split; [exact Hl|].
  apply list_eq_total; rewrite length_take, Hl, Nat.min_l by done; [by rewrite length_fmap, length_seq|].
  intros i Hi. rewrite lookup_total_take_lt, Hj, decide_True, lookup_fmap_seq by done. done.
Qed.

Lemma decode_instr_ext p b b' :
  (forall i, (i < 8)%nat -> b !!! i = b' !!! i) -> decode_instr p b = decode_instr p b'.
Proof.
  intros H. unfold decode_instr, le32. rewrite !lookup_total_drop, !H by lia. done.
Qed.

Lemma gen_program_spec junk p prog seed :
  length junk = 64%nat -> 0 <= prog_size p <= NM_PROG_MAX -> Z.of_nat (length prog) = NM_PROG_MAX ->
  let prog' := gen_program junk p prog seed in
  length prog' = length prog /\
  take (Z.to_nat (prog_size p)) prog' = prog_instr p seed <$> seq 0 (Z.to_nat (prog_size p)).
Proof.
  intros Hj Hp Hl. unfold gen_program. rewrite sha256_tag by done. fold (prog_key seed).
  assert (Hkl : length (prog_key seed) = 32%nat) by apply length_sha256_spec.
  assert (Hkb : bytes (prog_key seed)) by apply bytes_sha256_spec.
  unfold prog_instr, prog_stream.
  set (key := prog_key seed) in *. clearbody key. set (ps := Z.to_nat (prog_size p)).
  assert (Hrk : wf_key (nm_aes128_expand (replicate 176 0) (take 16 key))).
  { apply wf_expand. split; [rewrite length_take; lia|by apply Forall_take]. }
  assert (Hin : block (slice 16 16 key)) by (split; [rewrite length_slice; lia|by apply Forall_slice]).
  set (rk := nm_aes128_expand _ _) in *. set (inp := slice 16 16 key) in *. clearbody rk inp.
  assert (Hps : (ps <= 768)%nat) by (unfold ps, NM_PROG_MAX in *; lia).
  assert (Hsl : length (concat (replicate 96 junk)) = (16 * 384)%nat).
  { rewrite length_concat, fmap_replicate, Hj. reflexivity. }
  destruct (gen_stream_spec (ps * 8) rk (ps * 8) _ inp 0 384 Hrk Hin Hsl ltac:(lia) ltac:(lia) ltac:(lia) eq_refl)
    as (n' & s' & He & [Hn1 Hn2] & Hls & Htk).
  change (16 * 0)%nat with 0%nat in He. change (chain rk inp 0) with inp in He. rewrite He.
  destruct (fill_loop prog (fun i => decode_instr p (drop (i * 8) s')) ps) as [H1 H2];
    [unfold NM_PROG_MAX in *; lia|]. split; [exact H1|]. etransitivity; [exact H2|].
  apply list_fmap_ext. intros k i [-> Hk]%lookup_seq. cbn [Nat.add]. apply decode_instr_ext. intros j Hj'.
  unfold slice. rewrite lookup_total_take_lt, !lookup_total_drop by done.
  rewrite <-(lookup_total_take_lt s' (16 * n')) by lia. rewrite Htk.
  unfold chain_stream. rewrite <-(lanes_prefix n' 384) by (lia || (intros; by apply block_Cipher, block_chain)).
  rewrite lookup_total_take_lt by lia. f_equal. lia.
Qed.

Lemma word_le32 b : bytes b -> word 32 (le32 b).
Proof. intros. by apply (word_le_load 4). Qed.

Lemma decode_instr_ok p b : params_ok p -> bytes b -> instr_ok (decode_instr p b).
Proof.
  intros Hp Hb. destruct (ok_op_table _ Hp) as [Hl Ht]. unfold instr_ok, decode_instr; cbn [op dst src imm].
  split_and!; [| |by apply bytes_lookup|by apply bytes_lookup|apply word_le32; by apply Forall_drop];
  (destruct (lookup_lt_is_Some_2 (op_table p) (Z.to_nat (b !!! 0%nat))) as [x Hx];
   [pose proof (bytes_lookup b 0 Hb) as Hw; unfold word in Hw; lia|];
   rewrite (list_lookup_total_correct _ _ _ Hx); by eapply (Forall_lookup_1 _ _ _ _ Ht)).
Qed.

Lemma prog_instr_ok p seed i : params_ok p -> instr_ok (prog_instr p seed i).
Proof.
  intros Hp. apply decode_instr_ok; [done|]. apply Forall_slice. unfold prog_stream, chain_stream, lanes.
  apply Forall_flat_map, Forall_forall. intros k _. apply block_Cipher.
  - apply wf_expand. split; [rewrite length_take; unfold prog_key; by rewrite length_sha256_spec|].
    apply Forall_take, bytes_sha256_spec.
  - apply block_chain.
    + apply wf_expand. split; [rewrite length_take; unfold prog_key; by rewrite length_sha256_spec|].
      apply Forall_take, bytes_sha256_spec.
    + split; [rewrite length_slice; unfold prog_key; rewrite ?length_sha256_spec; lia|].
      apply Forall_slice, bytes_sha256_spec.
Qed.

(** ** The branch counters beyond the program are never looked at *)

Definition with_taken (v : vm) (tk : list Z) : vm := mk_vm (r v) (f v) (scratch v) tk.

#[export] Instance opcode_eq_dec : EqDecision opcode.
Proof. solve_decision. Defined.

(** Machines that differ only in the counters from [n] on. *)
Record vm_equiv (n : Z) (v v' : vm) : Prop := {
  eq_state : with_taken v (taken v') = v';
  eq_taken : take (Z.to_nat n) (taken v) = take (Z.to_nat n) (taken v')
}.

#[export] Instance vm_equiv_equivalence n : Equivalence (vm_equiv n).
Proof.
  split.
  - intros []. by constructor.
  - intros [] [] [H1 H2]. unfold with_taken in *; simpl in *. simplify_eq. by constructor.
  - intros [] [] [] [H1 H2] [H3 H4]. unfold with_taken in *; simpl in *. simplify_eq.
    constructor; [done|]. simpl. congruence.
Qed.

(** Case analysis on the checked accesses of a goal. *)
Ltac checked :=
  repeat match goal with
  | |- context [rd ?a ?b] => destruct (rd a b)
  | |- context [wr ?a ?b ?c] => destruct (wr a b c)
  | |- context [d2bits ?a] => destruct (d2bits a)
  | _ => progress cbn [mbind option_bind fmap option_fmap option_map]
  end; try done.

(** Every instruction but the branch ignores the counters. *)
Lemma exec_op_taken aes bm rs lp v pc i tk :
  decode (op i) <> Some opCBRANCH ->
  exec_op aes bm rs lp (with_taken v tk) pc i
  = (fun '(v1, o) => (with_taken v1 tk, o)) <$> exec_op aes bm rs lp v pc i.
Proof.
  intros Hop. unfold exec_op. destruct (decode (op i)) as [[]|]; try done;
    cbn [with_taken scratch r f taken]; unfold get_r, get_f, set_r, set_f; cbn [with_taken r f scratch taken];
    try case_match; try done;
    checked; done.
Qed.

Lemma fix_float_taken v i tk : fix_float (with_taken v tk) i = with_taken (fix_float v i) tk.
Proof.
  unfold fix_float, get_f, get_r; cbn [with_taken f r]. destruct (_ && _); [|done].
  by destruct (_ || _).
Qed.

Lemma exec_op_straight aes bm rs lp v pc i v' o :
  decode (op i) <> Some opCBRANCH -> exec_op aes bm rs lp v pc i = Some (v', o) ->
  o = None /\ taken v' = taken v.
Proof.
  intros Hop. unfold exec_op. destruct (decode (op i)) as [[]|]; try done;
    cbv zeta; try case_match; checked; intros [= <- <-]; done.
Qed.

Lemma take_lookup_eq (l k : list Z) n i :
  take n l = take n k -> (i < n)%nat -> l !! i = k !! i.
Proof. intros H Hi. rewrite <-(lookup_take_lt l n), <-(lookup_take_lt k n), H by done. done. Qed.

Lemma take_insert_eq (l k : list Z) n i x :
  take n l = take n k -> take n (<[i := x]> l) = take n (<[i := x]> k).
Proof.
  intros H. destruct (decide (i < n)%nat).
  - by rewrite !take_insert_lt, H.
  - by rewrite !take_insert_ge by lia.
Qed.

Lemma length_take_eq (l k : list Z) n i :
  take n l = take n k -> (i < n)%nat -> (i < length l)%nat <-> (i < length k)%nat.
Proof. intros H Hi. apply (f_equal length) in H. rewrite !length_take in H. lia. Qed.

Lemma branch_equiv aes bm rs lp n v tk pc i :
  take (Z.to_nat n) (taken v) = take (Z.to_nat n) tk -> 0 <= pc < n -> decode (op i) = Some opCBRANCH ->
  exists g : list Z -> list Z, (forall l k, take (Z.to_nat n) l = take (Z.to_nat n) k ->
     take (Z.to_nat n) (g l) = take (Z.to_nat n) (g k)) /\
  exec_op aes bm rs lp (with_taken v tk) pc i
  = (fun '(v1, o) => (with_taken v1 (g tk), o)) <$> exec_op aes bm rs lp v pc i /\
  (forall v1 o, exec_op aes bm rs lp v pc i = Some (v1, o) -> taken v1 = g (taken v)).
Proof.
  intros Ht Hpc Hop. unfold exec_op. rewrite Hop. cbn [with_taken scratch r f taken].
  unfold rd, wr. destruct (Z.ltb_spec pc 0); [lia|].
  rewrite <-(take_lookup_eq _ _ _ (Z.to_nat pc) Ht) by lia.
  pose proof (length_take_eq _ _ _ (Z.to_nat pc) Ht ltac:(lia)) as Hlen.
  destruct (taken v !! Z.to_nat pc) as [t|] eqn:Hlk; cbn [mbind option_bind];
    [|exists (fun l => l); by split_and!].
  apply lookup_lt_Some in Hlk.
  destruct (Z.leb_spec 0 pc), (Z.ltb_spec pc (Z.of_nat (length (taken v))));
    destruct (Z.ltb_spec pc (Z.of_nat (length tk))); try lia.
  unfold get_r; cbn [with_taken r]. cbn [andb].
  destruct (_ && _); cbn [mbind option_bind].
  - exists (fun l => <[Z.to_nat pc := T8 (t + 1)]> l). split_and!; [intros; by apply take_insert_eq|done|].
    intros; by simplify_eq.
  - exists (fun l => l). split_and!; [done|done|]. intros; by simplify_eq.
Qed.

Lemma exec_instr_equiv aes bm rs lp n v v' pc i v1 pc1 :
  vm_equiv n v v' -> 0 <= pc < n -> exec_instr aes bm rs lp v pc i = Some (v1, pc1) ->
  exists v1', exec_instr aes bm rs lp v' pc i = Some (v1', pc1) /\ vm_equiv n v1 v1'.
Proof.
  intros [<- Ht] Hpc He. cbn [with_taken taken] in *. set (tk := taken v') in *. clearbody tk. clear v'.
  unfold exec_instr in *. destruct (exec_op aes bm rs lp v pc i) as [[v2 o]|] eqn:Ho; [|done].
  cbn [mbind option_bind] in He.
  assert (exists tk', exec_op aes bm rs lp (with_taken v tk) pc i = Some (with_taken v2 tk', o) /\
    take (Z.to_nat n) (taken v2) = take (Z.to_nat n) tk') as (tk' & -> & Htk').
  { destruct (decide (decode (op i) = Some opCBRANCH)) as [Hop|Hop].
    - destruct (branch_equiv aes bm rs lp n v tk pc i Ht Hpc Hop) as (g & Hg & -> & Hg').
      rewrite Ho. exists (g tk). rewrite (Hg' _ _ Ho). split; [done|by apply Hg].
    - rewrite exec_op_taken, Ho by done. exists tk. split; [done|].
      by destruct (exec_op_straight _ _ _ _ _ _ _ _ _ Hop Ho) as [_ ->]. }
  cbn [mbind option_bind].
  destruct o as [pc2|]; simplify_eq; eexists; (split; [done|]); constructor; try done.
  - rewrite fix_float_taken. cbn [with_taken taken]. done.
  - rewrite fix_float_taken. cbn [with_taken taken]. by rewrite taken_fix_float.
Qed.

Lemma exec_instr_pc aes bm rs lp v pc i v1 pc1 :
  0 <= pc -> exec_instr aes bm rs lp v pc i = Some (v1, pc1) -> 0 <= pc1.
Proof.
  intros Hpc. unfold exec_instr.
  destruct (exec_op aes bm rs lp v pc i) as [[v2 [pc2|]]|] eqn:Ho; cbn [mbind option_bind]; [| |done].
  - intros [= <- <-]. destruct (decide (decode (op i) = Some opCBRANCH)) as [Hop|Hop];
      [|by destruct (exec_op_straight _ _ _ _ _ _ _ _ _ Hop Ho)].
    revert Ho. unfold exec_op. rewrite Hop. checked; destruct (_ && _); try done.
    cbv zeta. intros [= _ <-]. destruct (Z.ltb_spec (pc - (imm i mod 31 + 1)) 0); lia.
  - intros [= _ <-]. lia.
Qed.

Lemma run_program_equiv fuel aes bm rs lp n prog prog' v v' pc v1 :
  take (Z.to_nat n) prog = take (Z.to_nat n) prog' -> vm_equiv n v v' -> 0 <= pc ->
  run_program fuel aes bm rs lp n prog v pc = Some v1 ->
  exists v1', run_program fuel aes bm rs lp n prog' v' pc = Some v1' /\ vm_equiv n v1 v1'.
Proof.
  intros Hprog. revert v v' pc. induction fuel as [|fuel IH]; intros v v' pc Hv Hpc; cbn [run_program];
    destruct (Z.ltb_spec pc n); intros He; simplify_eq; try (by eexists).
  assert (Hrd : rd prog' pc = rd prog pc).
  { unfold rd. destruct (pc <? 0); [done|].
    rewrite <-(lookup_take_lt prog (Z.to_nat n)), <-(lookup_take_lt prog' (Z.to_nat n)), Hprog by lia. done. }
  rewrite Hrd. destruct (rd prog pc) as [i|]; [|done]. cbn [mbind option_bind] in *.
  destruct (exec_instr aes bm rs lp v pc i) as [[v2 pc2]|] eqn:Hi; [|done]. cbn [mbind option_bind] in *.
  destruct (exec_instr_equiv _ _ _ _ n v v' pc i v2 pc2 Hv ltac:(lia) Hi) as (v2' & -> & Hv2).
  cbn [mbind option_bind]. eapply IH; [done| |done]. by eapply exec_instr_pc.
Qed.

Lemma end_loop_equiv n useDS d rs lp v v' v1 :
  vm_equiv n v v' -> end_loop useDS d rs lp v = Some v1 ->
  exists v1', end_loop useDS d rs lp v' = Some v1' /\ vm_equiv n v1 v1'.
Proof.
  intros [<- Ht]. unfold end_loop; cbn [with_taken r f scratch taken].
  destruct (if useDS then _ else _) as [rs'|]; cbn [mbind option_bind]; [|done].
  destruct (mix_scratch _ _ _); cbn [mbind option_bind]; [|done].
  destruct (mix_floats _ _); cbn [mbind option_bind]; [|done].
  intros [= <-]. eexists. split; [done|]. by constructor.
Qed.

Lemma reset_equiv n v v' :
  (Z.to_nat n <= length (taken v))%nat -> (Z.to_nat n <= length (taken v'))%nat ->
  r v = r v' -> f v = f v' -> scratch v = scratch v' ->
  vm_equiv n (with_taken v (memset0 (taken v) 0 (Z.to_nat n))) (with_taken v' (memset0 (taken v') 0 (Z.to_nat n))).
Proof.
  intros Hl Hl' Hr Hf Hs. unfold with_taken. rewrite Hr, Hf, Hs. constructor; [done|].
  assert (Hres : forall l : list Z, take (Z.to_nat n) (memset0 l 0 (Z.to_nat n)) = replicate (Z.to_nat n) 0).
  { intros l. pose proof (take_memcpy l 0 (replicate (Z.to_nat n) 0) ltac:(lia)) as H.
    rewrite length_replicate, take_0 in H. done. }
  cbn [taken]. by rewrite !Hres.
Qed.

(** What one loop hands to the next. *)
Definition loop_equiv (v v' : vm) : Prop := r v = r v' /\ f v = f v' /\ scratch v = scratch v'.

Lemma vm_equiv_loop n v v' : vm_equiv n v v' -> loop_equiv v v'.
Proof. intros [<- _]. done. Qed.

Lemma one_loop_equiv aes p useDS d prog prog' lp v v' v1 :
  params_ok p -> vm_ok v -> vm_ok v' -> loop_equiv v v' ->
  take (Z.to_nat (prog_size p)) prog = take (Z.to_nat (prog_size p)) prog' ->
  one_loop aes p useDS d prog lp v = Some v1 ->
  exists v1', one_loop aes p useDS d prog' lp v' = Some v1' /\ loop_equiv v1 v1'.
Proof.
  intros Hp Hv Hv' (Hr & Hf & Hs) Hprog. unfold one_loop. pose proof (ok_prog_size _ Hp) as Hps.
  pose proof (reset_equiv (prog_size p) v v') as Heq. unfold with_taken in Heq.
  destruct (run_program _ _ _ _ _ _ prog _ _) as [v2|] eqn:Hrun; [|done]. cbn [mbind option_bind].
  intros Hend.
  assert (Hl : (Z.to_nat (prog_size p) <= length (taken v))%nat)
    by (destruct Hv as [_ _ _ [? _]]; unfold NM_PROG_MAX in *; lia).
  assert (Hl' : (Z.to_nat (prog_size p) <= length (taken v'))%nat)
    by (destruct Hv' as [_ _ _ [? _]]; unfold NM_PROG_MAX in *; lia).
  destruct (run_program_equiv _ _ _ _ _ _ prog prog' _ _ 0 v2 Hprog (Heq Hl Hl' Hr Hf Hs) ltac:(lia) Hrun)
    as (v2' & -> & Heq2).
  cbn [mbind option_bind]. destruct (end_loop_equiv _ _ _ _ _ _ _ _ Heq2 Hend) as (v1' & Hv1 & Heq1).
  exists v1'. split; [done|]. by eapply vm_equiv_loop.
Qed.

Lemma run_loops_equiv k aes p useDS d prog prog' lp v v' v1 :
  params_ok p -> wf_key aes -> prog_ok p prog -> prog_ok p prog' ->
  take (Z.to_nat (prog_size p)) prog = take (Z.to_nat (prog_size p)) prog' ->
  (useDS = true -> dataset_ok d) -> vm_ok v -> vm_ok v' -> loop_equiv v v' -> 0 <= lp -> lp + Z.of_nat k < 2 ^ 64 ->
  run_loops k aes p useDS d prog lp v = Some v1 ->
  exists v1', run_loops k aes p useDS d prog' lp v' = Some v1' /\ loop_equiv v1 v1'.
Proof.
  intros Hp Haes Hprog Hprog' Hpp Hd. revert lp v v'.
  induction k as [|k IH]; intros lp v v' Hv Hv' Heq H0 Hlp; cbn [run_loops]; [intros; simplify_eq; by eexists|].
  assert (Hw : word 64 lp) by (unfold word; lia).
  destruct (one_loop_ok aes p useDS d prog lp v Hp Haes Hprog Hd Hv Hw) as (v2 & H2 & Hv2).
  destruct (one_loop_ok aes p useDS d prog' lp v' Hp Haes Hprog' Hd Hv' Hw) as (v3 & H3 & Hv3).
  destruct (one_loop_equiv _ _ _ _ _ _ _ _ _ _ Hp Hv Hv' Heq Hpp H2) as (v3' & H3' & Heq').
  rewrite H3 in H3'. simplify_eq. rewrite H2, H3. cbn [mbind option_bind]. apply IH; auto with lia.
Qed.

(** ** The whole hash *)

Record bufs_ok (b : nm_bufs) : Prop := {
  ok_b_scratch : Z.of_nat (length (b_scratch b)) = NM_SCRATCH_WORDS;
  ok_b_prog : Z.of_nat (length (b_prog b)) = NM_PROG_MAX;
  ok_b_taken : Z.of_nat (length (b_taken b)) = NM_PROG_MAX /\ bytes (b_taken b)
}.

Lemma word_ctr_word rk nonce k : wf_key rk -> nonce_ok nonce -> word 64 (ctr_word rk nonce k).
Proof. intros Hk Hn. apply word_le64, Forall_drop, block_Cipher; [done|]. by apply block_ctr. Qed.

Lemma fill_scratch_ok junk sc seed :
  length junk = 64%nat -> Z.of_nat (length sc) = NM_SCRATCH_WORDS ->
  Z.of_nat (length (fill_scratch junk sc seed)) = NM_SCRATCH_WORDS /\ words64 (fill_scratch junk sc seed).
Proof.
  intros Hj Hl. rewrite fill_scratch_spec, length_tabulate by done. split; [done|].
  assert (Hkl : length (scratch_key seed) = 32%nat) by apply length_sha256_spec.
  assert (Hkb : bytes (scratch_key seed)) by apply bytes_sha256_spec.
  apply Forall_tabulate. intros. apply word_ctr_word.
  - apply wf_expand. split; [rewrite length_take; lia|by apply Forall_take].
  - split; [rewrite length_slice; lia|by apply Forall_slice].
Qed.

Lemma init_vm_ok p seed sc tk :
  word 64 (rot_salt p) -> bytes seed -> Z.of_nat (length sc) = NM_SCRATCH_WORDS -> words64 sc ->
  Z.of_nat (length tk) = NM_PROG_MAX -> bytes tk -> vm_ok (init_vm p seed sc tk).
Proof.
  intros Hs Hb Hl Hsc Htl Ht. constructor; cbn [init_vm r f scratch taken]; try done.
  - split; [apply length_tabulate|]. apply Forall_tabulate. intros i _.
    destruct (i <? 4)%nat; [apply word_le64; by apply Forall_drop|]. apply word_lxor; words.
  - split; [by rewrite length_fmap, length_seq|]. apply Forall_fmap, Forall_forall. intros i _.
    apply normFloat_not_nan.
Qed.

Lemma nm_seed_spec junk header :
  length junk = 64%nat -> nm_seed junk header = sha256_spec (chars "nm-seed|" ++ take NM_HEADER_LEN header).
Proof.
  intros Hj. apply sha256_one; [done|]. rewrite length_app, length_take. unfold NM_HEADER_LEN.
  change (length (chars "nm-seed|")) with 8%nat. lia.
Qed.

Lemma length_flat_put64 (l : list Z) : length (flat_map put64 l) = (8 * length l)%nat.
Proof. induction l; cbn [flat_map length]; [done|]. rewrite length_app, length_put64. lia. Qed.

Lemma length_fold_scratch sc : length (fold_scratch sc) = 8%nat.
Proof.
  unfold fold_scratch. generalize (seq 0 (Z.to_nat (NM_SCRATCH_WORDS / 8))) as l. intros l.
  assert (H : length (replicate 8 0) = 8%nat) by done. revert H. generalize (replicate 8 0) as a.
  induction l as [|t l IH]; intros a Ha; [done|]. cbn [foldl]. apply IH.
  clear IH. revert a Ha. induction (seq 0 8) as [|j js IHj]; intros a Ha; [done|]. cbn [foldl].
  apply IHj. by rewrite length_insert.
Qed.

Lemma final_buf_len seed v : length seed = 32%nat -> vm_ok v -> exists buf, final_buf seed v = Some buf /\ length buf = 292%nat.
Proof.
  intros Hs [[Hr _] [Hf Hn] _ _]. unfold final_buf.
  assert (Hm : exists fb, mapM d2bits (f v) = Some fb) by (apply mapM_is_Some_2; apply (List.Forall_impl _ (P := fun d => isnan d = false)); [|exact Hn]; intros d (x & Hx & _)%d2bits_some; by exists x).
  destruct Hm as [fb Hm]. rewrite Hm. cbn [mbind option_bind]. eexists. split; [done|]. pose proof (length_mapM _ _ _ Hm) as Hfb.
  assert (G : forall a b c d e : list Z, length a = 4%nat -> length b = 32%nat -> length c = 128%nat -> length d = 64%nat -> length e = 64%nat -> length (a ++ b ++ c ++ d ++ e) = 292%nat)
    by (intros; rewrite !length_app; lia).
  apply G; [done|done|rewrite (length_flat_put64 (r v)); lia|rewrite (length_flat_put64 fb); lia|]. rewrite (length_flat_put64 (fold_scratch (scratch v))), length_fold_scratch. done.
Qed.

#[local] Opaque sha256_spec nm_sha256 fill_scratch gen_program run_loops.

Section Hash.
Context (junk : list Z) (p : nm_params) (aes dataset header : list Z) (height : Z).
Context (Hj : length junk = 64%nat) (Hp : params_ok p) (Haes : wf_key aes)
        (Hd : NM_DATASET_HEIGHT <= height -> dataset_ok dataset).

Let seed : list Z := sha256_spec (chars "nm-seed|" ++ take NM_HEADER_LEN header).
Let prog (bufs : nm_bufs) : list nm_instr := gen_program junk p (b_prog bufs) seed.
Let start (bufs : nm_bufs) : vm := init_vm p seed (fill_scratch junk (b_scratch bufs) seed) (b_taken bufs).

Lemma use_dataset_ok : (NM_DATASET_HEIGHT <=? height) = true -> dataset_ok dataset.
Proof. intros H%Z.leb_le. by apply Hd. Qed.

Lemma start_ok bufs : bufs_ok bufs -> vm_ok (start bufs).
Proof.
  intros [Hs _ [Hl Ht]]. destruct (fill_scratch_ok junk (b_scratch bufs) seed Hj Hs) as [Hfl Hfw].
  exact (init_vm_ok p seed _ _ (ok_rot_salt _ Hp) (bytes_sha256_spec _) Hfl Hfw Hl Ht).
Qed.

Lemma hash_prog_spec bufs :
  bufs_ok bufs ->
  length (prog bufs) = length (b_prog bufs) /\
  take (Z.to_nat (prog_size p)) (prog bufs) = prog_instr p seed <$> seq 0 (Z.to_nat (prog_size p)).
Proof.
  intros [_ Hl _]. pose proof (ok_prog_size _ Hp) as Hps.
  assert (Hps' : 0 <= prog_size p <= NM_PROG_MAX) by (unfold NM_PROG_MAX; lia).
  exact (gen_program_spec junk p (b_prog bufs) seed Hj Hps' Hl).
Qed.

Lemma hash_prog_ok bufs : bufs_ok bufs -> prog_ok p (prog bufs).
Proof.
  intros Hb. destruct (hash_prog_spec bufs Hb) as [Hl Ht]. pose proof (ok_prog_size _ Hp).
  split; [rewrite Hl, (ok_b_prog _ Hb); unfold NM_PROG_MAX; lia|]. rewrite Ht.
  apply Forall_fmap, Forall_forall. intros i _. by apply prog_instr_ok.
Qed.

Lemma hash_loops_ok bufs :
  bufs_ok bufs ->
  exists v, run_loops (Z.to_nat (loops p)) aes p (NM_DATASET_HEIGHT <=? height) dataset (prog bufs) 0 (start bufs)
            = Some v /\ vm_ok v.
Proof.
  intros Hb. pose proof (ok_loops _ Hp).
  apply (run_loops_ok _ aes p _ _ _ 0 _ Hp Haes (hash_prog_ok bufs Hb) use_dataset_ok (start_ok bufs Hb)); lia.
Qed.

Lemma hash_total bufs :
  bufs_ok bufs ->
  exists digest bufs', nm_hash junk p aes bufs dataset header height = Some (digest, bufs') /\
    length digest = 32%nat /\ bytes digest /\ bufs_ok bufs'.
Proof.
  intros Hb. unfold nm_hash. rewrite (nm_seed_spec junk header Hj). fold seed.
  destruct (hash_loops_ok bufs Hb) as (v & Hv & Hok). unfold prog, start in Hv. rewrite Hv.
  cbn [mbind option_bind]. destruct (final_buf_len seed v (length_sha256_spec _) Hok) as (buf & -> & Hlen).
  cbn [mbind option_bind]. eexists _, _. split; [done|]. rewrite sha256_one; [|done|rewrite Hlen; lia].
  split_and!; [apply length_sha256_spec|apply bytes_sha256_spec|].
  destruct Hok as [_ _ [Hs _] Ht]. constructor; cbn [b_scratch b_prog b_taken]; try done.
  destruct (hash_prog_spec bufs Hb) as [Hl _]. unfold prog in Hl. rewrite Hl. apply (ok_b_prog _ Hb).
Qed.
End Hash.

Lemma fill_scratch_indep junk junk' sc sc' seed :
  length junk = 64%nat -> length junk' = 64%nat ->
  Z.of_nat (length sc) = NM_SCRATCH_WORDS -> Z.of_nat (length sc') = NM_SCRATCH_WORDS ->
  fill_scratch junk sc seed = fill_scratch junk' sc' seed.
Proof. intros. rewrite !fill_scratch_spec by done. f_equal. lia. Qed.

Lemma start_indep junk junk' p seed bufs bufs' :
  length junk = 64%nat -> length junk' = 64%nat -> bufs_ok bufs -> bufs_ok bufs' ->
  loop_equiv (init_vm p seed (fill_scratch junk (b_scratch bufs) seed) (b_taken bufs))
             (init_vm p seed (fill_scratch junk' (b_scratch bufs') seed) (b_taken bufs')).
Proof.
  intros Hj Hj' [Hb _ _] [Hb' _ _].
  rewrite (fill_scratch_indep junk junk' (b_scratch bufs) (b_scratch bufs')) by done.
  unfold loop_equiv, init_vm; cbn [r f scratch]. split_and!; reflexivity.
Qed.

Lemma hash_prog_indep junk junk' p header bufs bufs' :
  length junk = 64%nat -> length junk' = 64%nat -> params_ok p -> bufs_ok bufs -> bufs_ok bufs' ->
  let seed := sha256_spec (chars "nm-seed|" ++ take NM_HEADER_LEN header) in
  take (Z.to_nat (prog_size p)) (gen_program junk p (b_prog bufs) seed)
  = take (Z.to_nat (prog_size p)) (gen_program junk' p (b_prog bufs') seed).
Proof.
  intros Hj Hj' Hp Hb Hb' seed. destruct (hash_prog_spec junk p header Hj Hp bufs Hb) as [_ H].
  destruct (hash_prog_spec junk' p header Hj' Hp bufs' Hb') as [_ H']. exact (eq_trans H (eq_sym H')).
Qed.

Lemma hash_indep junk junk' p aes bufs bufs' dataset header height :
  length junk = 64%nat -> length junk' = 64%nat -> params_ok p -> wf_key aes ->
  (NM_DATASET_HEIGHT <= height -> dataset_ok dataset) -> bufs_ok bufs -> bufs_ok bufs' ->
  fst <$> nm_hash junk p aes bufs dataset header height = fst <$> nm_hash junk' p aes bufs' dataset header height.
Proof.
  intros Hj Hj' Hp Haes Hd Hb Hb'. unfold nm_hash. rewrite (nm_seed_spec junk header Hj), (nm_seed_spec junk' header Hj').
  set (seed := sha256_spec (chars "nm-seed|" ++ _)).
  destruct (hash_loops_ok junk p aes dataset header height Hj Hp Haes Hd bufs Hb) as (v & Hv & Hok).
  pose proof (ok_loops _ Hp) as Hlp. fold seed in Hv.
  destruct (run_loops_equiv (Z.to_nat (loops p)) _ _ _ _ _ (gen_program junk' p (b_prog bufs') seed) 0 _
    (init_vm p seed (fill_scratch junk' (b_scratch bufs') seed) (b_taken bufs')) v Hp Haes
    (hash_prog_ok junk p header Hj Hp bufs Hb) (hash_prog_ok junk' p header Hj' Hp bufs' Hb')
    (hash_prog_indep junk junk' p header bufs bufs' Hj Hj' Hp Hb Hb')
    (use_dataset_ok dataset height Hd) (start_ok junk p header Hj Hp bufs Hb)
    (start_ok junk' p header Hj' Hp bufs' Hb') (start_indep junk junk' p seed bufs bufs' Hj Hj' Hb Hb')
    ltac:(lia) ltac:(lia) Hv) as (v' & Hv' & Hr & Hf & Hs).
  rewrite Hv, Hv'. cbn [mbind option_bind fmap option_fmap option_map fst].
  assert (Hsl : length seed = 32%nat) by apply length_sha256_spec.
  assert (Hfb : final_buf seed v' = final_buf seed v) by (unfold final_buf; by rewrite Hr, Hf, Hs).
  destruct (final_buf_len seed v Hsl Hok) as (buf & Hbuf & Hlen). rewrite Hfb, Hbuf.
  cbn [mbind option_bind fmap option_fmap option_map fst]. assert (Hlt : Z.of_nat (length buf) < 2 ^ 61) by (rewrite Hlen; lia).
  by rewrite (sha256_one junk _ Hj Hlt), (sha256_one junk' _ Hj' Hlt).
Qed.

(** ** Properties *)

(** C33. The dataset is the AES-128 counter-mode key stream of the epoch's key:
    word [k] is half [k mod 2] of the cipher text of the block whose first 8
    bytes are the even word index and whose last 8 are zero, whatever the
    memory held before. *)
Theorem nm_build_dataset_ctr dataset key :
  Z.of_nat (length dataset) = NM_DATASET_WORDS -> block key ->
  nm_build_dataset dataset key
  = tabulate (length dataset) (ctr_word (nm_aes128_expand (replicate 176 0) key) (replicate 8 0)).
Proof. apply build_dataset_spec. Qed.

(** C2. [nm_hash] always returns a 32-byte digest: for parameters, key and buffers
    of the sizes the context allocates, every scratchpad, dataset, program and
    branch-counter access is in bounds, the interpreter stops within
    [257 * prog_size] instructions per loop however its branches go, and the
    buffers are left fit for the next hash. *)
Theorem nm_hash_total junk p aes bufs dataset header height :
  length junk = 64%nat -> params_ok p -> wf_key aes ->
  (NM_DATASET_HEIGHT <= height -> dataset_ok dataset) -> bufs_ok bufs ->
  exists digest bufs', nm_hash junk p aes bufs dataset header height = Some (digest, bufs') /\
    length digest = 32%nat /\ bytes digest /\ bufs_ok bufs'.
Proof. intros Hj Hp Ha Hd Hb. by apply hash_total. Qed.

(** C5. The digest is a function of the header, the height, the parameters, the
    AES key and the dataset alone: what the worker's scratchpad, program buffer,
    branch counters and stack held before (an earlier hash, another context)
    does not matter. *)
Theorem nm_hash_context_independent junk junk' p aes bufs bufs' dataset header height :
  length junk = 64%nat -> length junk' = 64%nat -> params_ok p -> wf_key aes ->
  (NM_DATASET_HEIGHT <= height -> dataset_ok dataset) -> bufs_ok bufs -> bufs_ok bufs' ->
  fst <$> nm_hash junk p aes bufs dataset header height = fst <$> nm_hash junk' p aes bufs' dataset header height.
Proof. apply hash_indep. Qed.

(** *** Witnesses: an epoch's parameters and buffers of the real sizes. *)

Definition params1 : nm_params := nm_derive_params (replicate 64 0) (replicate 32 1) zero_params.
Definition aes1 : list Z := nm_aes128_expand (replicate 176 0) (aes_key params1).
Definition bufs1 (x : Z) : nm_bufs :=
  mk_bufs (replicate (Z.to_nat NM_SCRATCH_WORDS) x) (replicate (Z.to_nat NM_PROG_MAX) inhabitant)
          (replicate (Z.to_nat NM_PROG_MAX) 0).
Definition dataset1 : list Z := replicate (Z.to_nat NM_DATASET_WORDS) 7.

Lemma params1_ok : params_ok params1.
Proof. by apply derive_params_ok. Qed.
Lemma aes1_ok : wf_key aes1.
Proof. apply wf_expand, (ok_aes_key _ params1_ok). Qed.
Lemma length_array {A} (n : Z) (x : A) : 0 <= n -> Z.of_nat (length (replicate (Z.to_nat n) x)) = n.
Proof. intros. rewrite length_replicate. by apply Z2Nat.id. Qed.
Lemma bufs1_ok x : bufs_ok (bufs1 x).
Proof.
  constructor; cbn [bufs1 b_scratch b_prog b_taken]; [by apply length_array|by apply length_array|].
  split; [by apply length_array|]. apply Forall_replicate. by apply word_0.
Qed.
Lemma dataset1_ok : dataset_ok dataset1.
Proof.
  split; [by apply length_array|]. apply Forall_replicate. unfold word. lia.
Qed.

Lemma nm_build_dataset_ctr_witness :
  nm_build_dataset dataset1 (replicate 16 3)
  = tabulate (length dataset1) (ctr_word (nm_aes128_expand (replicate 176 0) (replicate 16 3)) (replicate 8 0)).
Proof.
  apply nm_build_dataset_ctr; [apply dataset1_ok|]. split; [reflexivity|by apply byte_list_dec].
Defined.

Lemma nm_hash_total_witness :
  exists digest bufs', nm_hash (replicate 64 5) params1 aes1 (bufs1 9) dataset1 (replicate 124 1) 1000
    = Some (digest, bufs') /\ length digest = 32%nat /\ bytes digest /\ bufs_ok bufs'.
Proof.
  apply nm_hash_total; [reflexivity|apply params1_ok|apply aes1_ok|intros _; apply dataset1_ok|apply bufs1_ok].
Defined.

Lemma nm_hash_context_independent_witness :
  fst <$> nm_hash (replicate 64 5) params1 aes1 (bufs1 9) dataset1 (replicate 124 1) 1000
  = fst <$> nm_hash (replicate 64 6) params1 aes1 (bufs1 3) dataset1 (replicate 124 1) 1000.
Proof.
  apply nm_hash_context_independent;
    [reflexivity|reflexivity|apply params1_ok|apply aes1_ok|intros _; apply dataset1_ok|apply bufs1_ok|apply bufs1_ok].
Defined.
