(* ===== verification/NmCtx.v ===== *)
(** * NeuroMorph contexts ([crypto/nm/nm_neuromorph.c], [nm_ctx_*]).

    A context points to up to four blocks of the heap and records which of them
    it owns.  The heap is explicit: a finite map from block numbers to contents,
    with an oracle that decides which allocations fail, so leaks, double frees
    and the sharing of one dataset between workers are statements about it. *)
From stdpp Require Import gmap.
From Stdlib Require Import String.
From S2P Require Import Prelude Stream NmSha256 NmAes NmParams NmFloat NmVm NmHash.
#[local] Open Scope Z_scope.

(** ** The heap *)

Definition ptr : Type := option nat.   (* [None] is [NULL] *)

Inductive cell :=
  | CWords (l : list Z)
  | CInstrs (l : list nm_instr)
  | CBytes (l : list Z).

Record heap := mk_heap {
  cells : gmap nat cell;
  next_id : nat;
  malloc_ok : nat -> bool   (* does allocation number [i] succeed? *)
}.

(** [malloc]; [x] is what the fresh memory holds. *)
Definition malloc (h : heap) (x : cell) : ptr * heap :=
  if malloc_ok h (next_id h)
  then (Some (next_id h), mk_heap (<[next_id h := x]> (cells h)) (S (next_id h)) (malloc_ok h))
  else (None, mk_heap (cells h) (S (next_id h)) (malloc_ok h)).

(** [free]: of [NULL] nothing happens, of a block that is not live undefined. *)
Definition free (h : heap) (p : ptr) : option heap :=
  match p with
  | None => Some h
  | Some b => match cells h !! b with
              | Some _ => Some (mk_heap (delete b (cells h)) (next_id h) (malloc_ok h))
              | None => None
              end
  end.

(** Typed accesses through a pointer. *)
Definition load (h : heap) (p : ptr) : option cell := b ← p; cells h !! b.
Definition load_words (h : heap) (p : ptr) : option (list Z) :=
  x ← load h p; match x with CWords l => Some l | _ => None end.
Definition load_instrs (h : heap) (p : ptr) : option (list nm_instr) :=
  x ← load h p; match x with CInstrs l => Some l | _ => None end.
Definition load_bytes (h : heap) (p : ptr) : option (list Z) :=
  x ← load h p; match x with CBytes l => Some l | _ => None end.
Definition store (h : heap) (p : ptr) (x : cell) : option heap :=
  b ← p; _ ← cells h !! b; Some (mk_heap (<[b := x]> (cells h)) (next_id h) (malloc_ok h)).

(** ** The context *)

Record nm_ctx := mk_ctx {
  c_params : nm_params;
  c_aes : list Z;
  c_scratch : ptr;
  c_prog : ptr;
  c_taken : ptr;
  c_dataset : ptr;
  c_dataset_key : list Z;
  c_dataset_valid : bool;
  c_owns_dataset : bool;
  c_owns_scratch : bool
}.

(** [memset(c, 0, sizeof *c)]. *)
Definition zero_ctx : nm_ctx :=
  mk_ctx zero_params (replicate 176 0) None None None None (replicate 16 0) false false false.

Definition is_null (p : ptr) : bool := match p with None => true | Some _ => false end.

(** [mem] is what the three fresh buffers hold. *)
Definition alloc_thread_buffers (mem : nm_bufs) (h : heap) (c : nm_ctx) : nm_ctx * Z * heap :=
  let '(sc, h) := malloc h (CWords (b_scratch mem)) in
  let '(pg, h) := malloc h (CInstrs (b_prog mem)) in
  let '(tk, h) := malloc h (CBytes (b_taken mem)) in
  (mk_ctx (c_params c) (c_aes c) sc pg tk (c_dataset c) (c_dataset_key c) (c_dataset_valid c)
     (c_owns_dataset c) true,
   if negb (is_null sc) && negb (is_null pg) && negb (is_null tk) then 0 else -1, h).

Definition nm_ctx_init (mem : nm_bufs) (ds : list Z) (h : heap) : nm_ctx * Z * heap :=
  let '(c, rc, h) := alloc_thread_buffers mem h zero_ctx in
  if negb (rc =? 0) then (c, -1, h) else
  let '(d, h) := malloc h (CWords ds) in
  let c := mk_ctx (c_params c) (c_aes c) (c_scratch c) (c_prog c) (c_taken c) d (c_dataset_key c)
             (c_dataset_valid c) (c_owns_dataset c) (c_owns_scratch c) in
  if is_null d then (c, -1, h) else
  (mk_ctx (c_params c) (c_aes c) (c_scratch c) (c_prog c) (c_taken c) d (c_dataset_key c)
     false true (c_owns_scratch c), 0, h).

Definition nm_ctx_init_shared (mem : nm_bufs) (h : heap) : nm_ctx * Z * heap :=
  let '(c, rc, h) := alloc_thread_buffers mem h zero_ctx in
  if negb (rc =? 0) then (c, -1, h) else
  (mk_ctx (c_params c) (c_aes c) (c_scratch c) (c_prog c) (c_taken c) None (c_dataset_key c)
     false false (c_owns_scratch c), 0, h).

Definition nm_ctx_attach_scratch (h : heap) (c : nm_ctx) (scratch : ptr) : option (nm_ctx * heap) :=
  h ← (if c_owns_scratch c then free h (c_scratch c) else Some h);
  Some (mk_ctx (c_params c) (c_aes c) scratch (c_prog c) (c_taken c) (c_dataset c) (c_dataset_key c)
          (c_dataset_valid c) (c_owns_dataset c) false, h).

Definition nm_ctx_free (h : heap) (c : nm_ctx) : option (nm_ctx * heap) :=
  h ← (if c_owns_scratch c then free h (c_scratch c) else Some h);
  h ← free h (c_prog c);
  h ← free h (c_taken c);
  h ← (if c_owns_dataset c then free h (c_dataset c) else Some h);
  Some (zero_ctx, h).

Definition nm_ctx_set_params (junk : list Z) (c : nm_ctx) (seed : list Z) : nm_ctx :=
  let p := nm_derive_params junk seed (c_params c) in
  mk_ctx p (nm_aes128_expand (c_aes c) (aes_key p)) (c_scratch c) (c_prog c) (c_taken c) (c_dataset c)
    (c_dataset_key c) (c_dataset_valid c) (c_owns_dataset c) (c_owns_scratch c).

Definition nm_ctx_attach_dataset (c : nm_ctx) (dataset : ptr) (key : list Z) : nm_ctx :=
  mk_ctx (c_params c) (c_aes c) (c_scratch c) (c_prog c) (c_taken c) dataset (take 16 key) true
    (c_owns_dataset c) (c_owns_scratch c).

Definition nm_ctx_set_seed (junk : list Z) (h : heap) (c : nm_ctx) (seed : list Z) : option (nm_ctx * heap) :=
  let c := nm_ctx_set_params junk c seed in
  let key := dataset_key (c_params c) in
  if c_owns_dataset c && (negb (c_dataset_valid c) || negb (bool_decide (c_dataset_key c = key))) then
    d ← load_words h (c_dataset c);
    h ← store h (c_dataset c) (CWords (nm_build_dataset d key));
    Some (mk_ctx (c_params c) (c_aes c) (c_scratch c) (c_prog c) (c_taken c) (c_dataset c) key true
            (c_owns_dataset c) (c_owns_scratch c), h)
  else Some (c, h).

(** [nm_hash] on a context: the machine of [NmVm] on the blocks it points to; the
    dataset is only looked at from [NM_DATASET_HEIGHT] on. *)
Definition ctx_hash (junk : list Z) (h : heap) (c : nm_ctx) (header : list Z) (height : Z)
    : option (list Z * heap) :=
  sc ← load_words h (c_scratch c);
  pg ← load_instrs h (c_prog c);
  tk ← load_bytes h (c_taken c);
  ds ← (if NM_DATASET_HEIGHT <=? height then load_words h (c_dataset c) else Some []);
  '(out, b) ← nm_hash junk (c_params c) (c_aes c) (mk_bufs sc pg tk) ds header height;
  h ← store h (c_scratch c) (CWords (b_scratch b));
  h ← store h (c_prog c) (CInstrs (b_prog b));
  h ← store h (c_taken c) (CBytes (b_taken b));
  Some (out, h).

#[local] Opaque nm_hash nm_build_dataset nm_derive_params nm_aes128_expand replicate ctr_word tabulate.

(** ** Releasing blocks *)

Definition to_free (c : nm_ctx) : list ptr :=
  (if c_owns_scratch c then [c_scratch c] else []) ++ [c_prog c; c_taken c] ++
  (if c_owns_dataset c then [c_dataset c] else []).
(** The live blocks a context owns. *)
Definition owned (c : nm_ctx) : list nat := omap id (to_free c).

Fixpoint free_list (h : heap) (ps : list ptr) : option heap :=
  match ps with
  | [] => Some h
  | p :: ps => h ← free h p; free_list h ps
  end.

Lemma free_list_app h ps qs : free_list h (ps ++ qs) = (free_list h ps ≫= fun h => free_list h qs).
Proof. revert h. induction ps as [|p ps IH]; intros h; simpl; [done|]. destruct (free h p); simpl; auto. Qed.

Lemma free_list_if h (b : bool) p :
  (if b then free h p else Some h) = free_list h (if b then [p] else []).
Proof. destruct b; simpl; [|done]. by destruct (free h p). Qed.

Lemma nm_ctx_free_list h c : nm_ctx_free h c = (fun h => (zero_ctx, h)) <$> free_list h (to_free c).
Proof.
  unfold nm_ctx_free, to_free. rewrite !free_list_app, free_list_if.
  destruct (free_list h (if c_owns_scratch c then _ else _)) as [h1|]; [|done].
  cbn [mbind option_bind app free_list]. destruct (free h1 (c_prog c)) as [h2|]; [|done].
  cbn [mbind option_bind]. destruct (free h2 (c_taken c)) as [h3|]; [|done].
  cbn [mbind option_bind]. rewrite free_list_if. by destruct (free_list h3 _).
Qed.

(** Distinct live blocks can be released, and nothing else changes. *)
Lemma free_list_spec h ps :
  NoDup (omap id ps) -> (forall b, b ∈ omap id ps -> is_Some (cells h !! b)) ->
  exists h', free_list h ps = Some h' /\
    (forall b, cells h' !! b = if decide (b ∈ omap id ps) then None else cells h !! b) /\
    next_id h' = next_id h /\ malloc_ok h' = malloc_ok h.
Proof.
  revert h. induction ps as [|[a|] ps IH]; intros h Hnd Hl.
  - exists h. by split_and!.
  - cbn [omap list_omap id] in *. apply list.NoDup_cons in Hnd as [Ha Hnd].
    destruct (Hl a ltac:(by left)) as [x Hx].
    cbn [free_list free]. rewrite Hx. cbn [mbind option_bind].
    destruct (IH (mk_heap (delete a (cells h)) (next_id h) (malloc_ok h))) as (h' & -> & Hc & Hn & Hm).
    + done.
    + intros b Hb. cbn [cells]. rewrite lookup_delete_ne by (intros ->; done). apply Hl. by right.
    + exists h'. split_and!; try done. intros b. rewrite Hc. cbn [cells].
      destruct (decide (b = a)) as [->|Hne].
      * rewrite lookup_delete_eq. rewrite (decide_True (P := a ∈ a :: _)) by by left. by case_decide.
      * rewrite lookup_delete_ne by done. apply decide_ext. rewrite elem_of_cons. tauto.
  - cbn [omap list_omap id] in *. cbn [free_list free mbind option_bind]. by apply IH.
Qed.

(** ** Creation *)

Definition heap_wf (h : heap) : Prop := forall b, is_Some (cells h !! b) -> (b < next_id h)%nat.

(** What an allocation adds: nothing, or one fresh block. *)
Definition grown (h h' : heap) (bs : list nat) : Prop :=
  heap_wf h' /\ (next_id h <= next_id h')%nat /\ NoDup bs /\ (forall b, b ∈ bs -> (next_id h <= b)%nat) /\
  (forall b, b ∈ bs -> is_Some (cells h' !! b)) /\
  (forall b, b ∉ bs -> cells h' !! b = cells h !! b).

Lemma grown_refl h : heap_wf h -> grown h h [].
Proof. intros. split_and!; try done; [constructor|..]; intros b Hb; by apply not_elem_of_nil in Hb. Qed.

Lemma malloc_grown h x p h' :
  heap_wf h -> malloc h x = (p, h') ->
  grown h h' (omap id [p]) /\ (forall b, p = Some b -> cells h' !! b = Some x).
Proof.
  intros Hwf. unfold malloc. destruct (malloc_ok h (next_id h)); intros [= <- <-]; cbn [omap list_omap id].
  - split; [|intros b [= <-]; cbn; by rewrite lookup_insert_eq].
    split_and!; cbn [cells next_id].
    + intros b. cbn [cells next_id]. destruct (decide (b = next_id h)) as [->|]; [lia|].
      rewrite lookup_insert_ne by done. intros Hb%Hwf. lia.
    + lia.
    + apply NoDup_singleton.
    + intros b ->%list_elem_of_singleton. lia.
    + intros b ->%list_elem_of_singleton. rewrite lookup_insert_eq. by eexists.
    + intros b Hb. rewrite lookup_insert_ne; [done|]. intros <-. apply Hb. by apply list_elem_of_singleton.
  - split; [|done]. split_and!; cbn [cells next_id]; try done; [|lia|constructor|..].
    + intros b Hb%Hwf. cbn [next_id]. lia.
    + intros b Hb. by apply not_elem_of_nil in Hb.
    + intros b Hb. by apply not_elem_of_nil in Hb.
Qed.

Lemma grown_trans h1 h2 h3 bs cs :
  heap_wf h1 -> heap_wf h2 -> grown h1 h2 bs -> grown h2 h3 cs -> grown h1 h3 (bs ++ cs).
Proof.
  intros Hw1 Hw2 (_ & Hn & Hnd & Hge & Hl & Hsame) (Hw3 & Hn' & Hnd' & Hge' & Hl' & Hsame').
  assert (Hdisj : forall b, b ∈ bs -> b ∉ cs).
  { intros b Hb Hc. apply Hl in Hb. apply Hw2 in Hb. apply Hge' in Hc. lia. }
  split_and!; [done|lia| | | |].
  - apply list.NoDup_app. split_and!; [done| |done]. intros b Hb. by apply Hdisj.
  - intros b [Hb|Hb]%elem_of_app; [by apply Hge|]. apply Hge' in Hb. lia.
  - intros b [Hb|Hb]%elem_of_app; [|by apply Hl']. rewrite Hsame' by by apply Hdisj. by apply Hl.
  - intros b Hb. rewrite elem_of_app in Hb. rewrite Hsame', Hsame by tauto. done.
Qed.

Lemma grown_wf h h' bs : grown h h' bs -> heap_wf h'.
Proof. by intros (? & _). Qed.

(** *** The two constructors *)

Lemma alloc_thread_grown mem h c c' rc h' :
  heap_wf h -> alloc_thread_buffers mem h c = (c', rc, h') ->
  grown h h' (omap id [c_scratch c'; c_prog c'; c_taken c']) /\ c_owns_scratch c' = true /\
  c_dataset c' = c_dataset c /\ c_owns_dataset c' = c_owns_dataset c /\ c_dataset_valid c' = c_dataset_valid c /\
  c_params c' = c_params c /\ c_aes c' = c_aes c /\
  (rc = 0 -> load_words h' (c_scratch c') = Some (b_scratch mem) /\
             load_instrs h' (c_prog c') = Some (b_prog mem) /\
             load_bytes h' (c_taken c') = Some (b_taken mem)) /\ (rc = 0 \/ rc = -1).
Proof.
  intros Hwf. unfold alloc_thread_buffers.
  destruct (malloc h _) as [p1 h1] eqn:E1. destruct (malloc_grown _ _ _ _ Hwf E1) as [G1 C1].
  destruct (malloc h1 _) as [p2 h2] eqn:E2.
  destruct (malloc_grown _ _ _ _ (grown_wf _ _ _ G1) E2) as [G2 C2].
  destruct (malloc h2 _) as [p3 h3] eqn:E3.
  destruct (malloc_grown _ _ _ _ (grown_wf _ _ _ G2) E3) as [G3 C3].
  intros [= <- <- <-]. cbn [c_scratch c_prog c_taken c_owns_scratch c_dataset c_owns_dataset c_dataset_valid c_params c_aes].
  split.
  { pose proof (grown_trans _ _ _ _ _ Hwf (grown_wf _ _ _ G1) G1 G2) as G12.
    pose proof (grown_trans _ _ _ _ _ Hwf (grown_wf _ _ _ G2) G12 G3) as G123.
    by destruct p1, p2, p3. }
  split_and!; try done; [|destruct p1, p2, p3; simpl; auto].
  destruct p1 as [b1|], p2 as [b2|], p3 as [b3|]; cbn [is_null negb andb]; try done. intros _.
  destruct G3 as (_ & _ & _ & Hge3 & _ & S3), G2 as (W2 & N2 & _ & Hge2 & L2 & S2), G1 as (W1 & N1 & _ & _ & L1 & _).
  cbn [omap list_omap id] in *.
  assert (H1 : (b1 < next_id h1)%nat) by (apply W1, L1; by left).
  assert (H2 : (b2 < next_id h2)%nat) by (apply W2, L2; by left).
  specialize (Hge2 b2 ltac:(by left)). specialize (Hge3 b3 ltac:(by left)).
  unfold load_words, load_instrs, load_bytes, load. cbn [mbind option_bind].
  rewrite (C3 b3 eq_refl).
  rewrite (S3 b2), (C2 b2 eq_refl) by (rewrite list_elem_of_singleton; lia).
  rewrite (S3 b1), (S2 b1), (C1 b1 eq_refl) by (rewrite list_elem_of_singleton; lia). done.
Qed.

Lemma init_grown mem ds h c rc h' :
  heap_wf h -> nm_ctx_init mem ds h = (c, rc, h') ->
  grown h h' (owned c) /\
  (rc = 0 -> c_owns_scratch c = true /\ c_owns_dataset c = true /\ c_dataset_valid c = false /\
     c_params c = zero_params /\ c_aes c = replicate 176 0 /\
     load_words h' (c_scratch c) = Some (b_scratch mem) /\ load_instrs h' (c_prog c) = Some (b_prog mem) /\
     load_bytes h' (c_taken c) = Some (b_taken mem) /\ load_words h' (c_dataset c) = Some ds).
Proof.
  intros Hwf. unfold nm_ctx_init. destruct (alloc_thread_buffers mem h zero_ctx) as [[c1 rc1] h1] eqn:E.
  destruct (alloc_thread_grown _ _ _ _ _ _ Hwf E) as (G & Ho & Hd & Hod & Hv & Hp & Ha & Hl & _).
  destruct (Z.eqb_spec rc1 0) as [->|]; cbn [negb].
  2: { intros [= <- <- <-]. split; [|done]. unfold owned, to_free. rewrite Ho, Hod. exact G. }
  destruct (malloc h1 _) as [p2 h2] eqn:E2.
  destruct (malloc_grown _ _ _ _ (grown_wf _ _ _ G) E2) as [G2 C2].
  pose proof (grown_trans _ _ _ _ _ Hwf (grown_wf _ _ _ G) G G2) as G12.
  destruct p2 as [d|]; cbn [is_null]; intros [= <- <- <-]; unfold owned, to_free;
    cbn [c_scratch c_prog c_taken c_owns_scratch c_dataset c_owns_dataset c_dataset_valid c_params c_aes];
    rewrite Ho, ?Hod.
  - split; [by destruct (c_scratch c1), (c_prog c1), (c_taken c1)|]. intros _.
    destruct (Hl eq_refl) as (L1 & L2 & L3).
    assert (Hsame : forall p x, load h1 p = Some x -> load h2 p = Some x).
    { intros [b|] x Hx; [|done]. cbn in *. destruct G2 as (_ & _ & _ & Hge & _ & S).
      rewrite S; [done|]. intros Hb%Hge. pose proof (grown_wf _ _ _ G b ltac:(by eexists)). lia. }
    unfold load_words, load_instrs, load_bytes in *.
    destruct (load h1 (c_scratch c1)) eqn:X1; [|done]. destruct (load h1 (c_prog c1)) eqn:X2; [|done].
    destruct (load h1 (c_taken c1)) eqn:X3; [|done].
    rewrite (Hsame _ _ X1), (Hsame _ _ X2), (Hsame _ _ X3). split_and!; try done.
    unfold load. cbn [mbind option_bind]. by rewrite (C2 d eq_refl).
  - split; [|done]. cbn [omap list_omap id] in *. rewrite app_nil_r in G12. exact G12.
Qed.

Lemma init_shared_grown mem h c rc h' :
  heap_wf h -> nm_ctx_init_shared mem h = (c, rc, h') ->
  grown h h' (owned c) /\
  (rc = 0 -> c_owns_scratch c = true /\ c_owns_dataset c = false /\ c_dataset_valid c = false /\
     c_dataset c = None /\ c_params c = zero_params /\ c_aes c = replicate 176 0 /\
     load_words h' (c_scratch c) = Some (b_scratch mem) /\ load_instrs h' (c_prog c) = Some (b_prog mem) /\
     load_bytes h' (c_taken c) = Some (b_taken mem)).
Proof.
  intros Hwf. unfold nm_ctx_init_shared. destruct (alloc_thread_buffers mem h zero_ctx) as [[c1 rc1] h1] eqn:E.
  destruct (alloc_thread_grown _ _ _ _ _ _ Hwf E) as (G & Ho & Hd & Hod & Hv & Hp & Ha & Hl & _).
  destruct (Z.eqb_spec rc1 0) as [->|]; cbn [negb]; intros [= <- <- <-]; unfold owned, to_free;
    cbn [c_scratch c_prog c_taken c_owns_scratch c_dataset c_owns_dataset c_dataset_valid c_params c_aes];
    rewrite Ho, ?Hod; (split; [exact G|]); [|done].
  intros _. destruct (Hl eq_refl) as (L1 & L2 & L3). by split_and!.
Qed.

(** Freeing what was created restores the heap. *)
Lemma free_grown h h1 c :
  heap_wf h -> grown h h1 (owned c) ->
  exists h2, nm_ctx_free h1 c = Some (zero_ctx, h2) /\ cells h2 = cells h.
Proof.
  intros Hwf (Hwf1 & Hn & Hnd & Hge & Hl & Hs).
  destruct (free_list_spec h1 (to_free c) Hnd Hl) as (h2 & Hf & Hc & _).
  exists h2. rewrite nm_ctx_free_list, Hf. split; [done|]. apply map_eq. intros b. rewrite Hc.
  case_decide as Hb; [|by apply Hs]. symmetry. apply eq_None_not_Some. intros Hb'%Hwf.
  apply Hge in Hb. lia.
Qed.

(** ** The invariant of a live context.

    [ext] are the live blocks that belong to somebody else: an attached
    scratchpad, the dataset all workers share. *)

Definition dataset_of (key : list Z) : list Z :=
  tabulate (Z.to_nat NM_DATASET_WORDS) (ctr_word (nm_aes128_expand (replicate 176 0) key) (replicate 8 0)).

Record ctx_inv (ext : gset nat) (c : nm_ctx) (h : heap) : Prop := {
  inv_nodup : NoDup (owned c);
  inv_live : forall b, is_Some (cells h !! b) <-> b ∈ owned c \/ b ∈ ext;
  inv_ext : forall b, b ∈ owned c -> b ∉ ext;
  inv_bufs : exists sc pg tk, load_words h (c_scratch c) = Some sc /\ load_instrs h (c_prog c) = Some pg /\
    load_bytes h (c_taken c) = Some tk /\ bufs_ok (mk_bufs sc pg tk);
  inv_scratch : c_owns_scratch c = false -> exists b, c_scratch c = Some b /\ b ∈ ext;
  inv_dataset : forall b, c_dataset c = Some b -> c_owns_dataset c = false -> b ∈ ext;
  inv_owned_ds : c_owns_dataset c = true ->
    exists d, load_words h (c_dataset c) = Some d /\ Z.of_nat (length d) = NM_DATASET_WORDS;
  inv_distinct : c_scratch c <> c_dataset c;
  inv_valid : c_dataset_valid c = true ->
    block (c_dataset_key c) /\ load_words h (c_dataset c) = Some (dataset_of (c_dataset_key c));
  inv_aes : wf_key (c_aes c);
  inv_table : length (op_table (c_params c)) = 256%nat
}.

Lemma build_dataset_of d key :
  Z.of_nat (length d) = NM_DATASET_WORDS -> block key -> nm_build_dataset d key = dataset_of key.
Proof.
  intros Hl Hk. rewrite build_dataset_spec by done. unfold dataset_of. f_equal. lia.
Qed.

Lemma dataset_of_ok key : block key -> dataset_ok (dataset_of key).
Proof.
  intros Hk. unfold dataset_of. split; [rewrite length_tabulate; apply Z2Nat.id; vm_compute; done|].
  apply Forall_tabulate. intros. apply word_ctr_word; [by apply wf_expand|].
  split; [apply length_replicate|]. apply Forall_replicate. by apply word_0.
Qed.

#[local] Opaque dataset_of NM_DATASET_WORDS NM_SCRATCH_WORDS.

(** *** Typed blocks *)

Lemma load_words_inv h p l : load_words h p = Some l -> exists b, p = Some b /\ cells h !! b = Some (CWords l).
Proof.
  unfold load_words, load. destruct p as [b|]; cbn [mbind option_bind]; [|done].
  destruct (cells h !! b) as [[]|] eqn:E; cbn [mbind option_bind]; intros [= <-]. by exists b.
Qed.
Lemma load_instrs_inv h p l : load_instrs h p = Some l -> exists b, p = Some b /\ cells h !! b = Some (CInstrs l).
Proof.
  unfold load_instrs, load. destruct p as [b|]; cbn [mbind option_bind]; [|done].
  destruct (cells h !! b) as [[]|] eqn:E; cbn [mbind option_bind]; intros [= <-]. by exists b.
Qed.
Lemma load_bytes_inv h p l : load_bytes h p = Some l -> exists b, p = Some b /\ cells h !! b = Some (CBytes l).
Proof.
  unfold load_bytes, load. destruct p as [b|]; cbn [mbind option_bind]; [|done].
  destruct (cells h !! b) as [[]|] eqn:E; cbn [mbind option_bind]; intros [= <-]. by exists b.
Qed.

(** Loads after the heap changed elsewhere. *)
Lemma load_same h h' p : (forall b, p = Some b -> cells h' !! b = cells h !! b) -> load h' p = load h p.
Proof. intros H. destruct p as [b|]; [|done]. cbn. by apply H. Qed.

Lemma store_ok_block h b x y :
  cells h !! b = Some x ->
  store h (Some b) y = Some (mk_heap (<[b := y]> (cells h)) (next_id h) (malloc_ok h)).
Proof. intros H. unfold store. cbn [mbind option_bind]. by rewrite H. Qed.

(** *** Operations keep it *)

Lemma owned_set_params junk c seed : owned (nm_ctx_set_params junk c seed) = owned c.
Proof. done. Qed.

Lemma set_params_ok junk ext c h seed :
  length junk = 64%nat -> ctx_inv ext c h ->
  ctx_inv ext (nm_ctx_set_params junk c seed) h /\ params_ok (c_params (nm_ctx_set_params junk c seed)).
Proof.
  intros Hj [H1 H2 H3 H4 H5 H6 H7 H8 H9 H10 H11].
  pose proof (derive_params_ok junk seed (c_params c) Hj H11) as Hp.
  split; [|exact Hp]. constructor; cbn [nm_ctx_set_params c_scratch c_prog c_taken c_owns_scratch c_dataset
    c_owns_dataset c_dataset_valid c_params c_aes c_dataset_key]; try done.
  - apply expand_ok; [apply H10|apply H10|apply (ok_aes_key _ Hp)].
  - apply (ok_op_table _ Hp).
Qed.

(** A change of the dataset block alone. *)
Lemma inv_set_dataset ext c h b d key :
  ctx_inv ext c h -> c_dataset c = Some b -> c_owns_dataset c = true -> cells h !! b = Some (CWords d) ->
  block key ->
  ctx_inv ext
    (mk_ctx (c_params c) (c_aes c) (c_scratch c) (c_prog c) (c_taken c) (c_dataset c) key true
       (c_owns_dataset c) (c_owns_scratch c))
    (mk_heap (<[b := CWords (dataset_of key)]> (cells h)) (next_id h) (malloc_ok h)).
Proof.
  intros [H1 H2 H3 H4 H5 H6 H7 H8 H9 H10 H11] Hd Ho Hb Hk.
  destruct H4 as (sc & pg & tk & Hsc & Hpg & Htk & Hok).
  assert (Hds : load_words (mk_heap (<[b := CWords (dataset_of key)]> (cells h)) (next_id h) (malloc_ok h))
    (c_dataset c) = Some (dataset_of key)).
  { unfold load_words, load. rewrite Hd. cbn [mbind option_bind cells].
    rewrite lookup_insert_eq. cbn [mbind option_bind]. reflexivity. }
  constructor; cbn [c_scratch c_prog c_taken c_owns_scratch c_dataset
    c_owns_dataset c_dataset_valid c_params c_aes c_dataset_key]; try done.
  - intros b'. rewrite <-H2. cbn [cells]. destruct (decide (b' = b)) as [->|].
    + rewrite lookup_insert_eq, Hb. split; intros _; by eexists.
    + by rewrite lookup_insert_ne.
  - exists sc, pg, tk. split_and!; [| | |done].
    + unfold load_words. rewrite (load_same h); [exact Hsc|]. intros b' Hb'. cbn [cells].
      rewrite lookup_insert_ne; [done|]. intros <-. congruence.
    + apply load_instrs_inv in Hpg as (b' & Hb' & Hc). unfold load_instrs. rewrite (load_same h).
      * unfold load. rewrite Hb'. cbn [mbind option_bind]. by rewrite Hc.
      * intros b'' ?. simplify_eq. cbn [cells]. rewrite lookup_insert_ne; [done|]. congruence.
    + apply load_bytes_inv in Htk as (b' & Hb' & Hc). unfold load_bytes. rewrite (load_same h).
      * unfold load. rewrite Hb'. cbn [mbind option_bind]. by rewrite Hc.
      * intros b'' ?. simplify_eq. cbn [cells]. rewrite lookup_insert_ne; [done|]. congruence.
  - intros _. exists (dataset_of key). split; [done|]. by apply dataset_of_ok.
Qed.

Lemma set_seed_ok junk ext c h seed :
  length junk = 64%nat -> ctx_inv ext c h ->
  exists c' h', nm_ctx_set_seed junk h c seed = Some (c', h') /\ ctx_inv ext c' h' /\ params_ok (c_params c') /\
    c_params c' = nm_derive_params junk seed (c_params c) /\
    c_aes c' = nm_aes128_expand (c_aes c) (aes_key (c_params c')) /\
    c_owns_dataset c' = c_owns_dataset c /\
    (c_owns_dataset c = true ->
       c_dataset_valid c' = true /\ c_dataset_key c' = dataset_key (c_params c')).
Proof.
  intros Hj Hinv. destruct (set_params_ok junk ext c h seed Hj Hinv) as [Hinv1 Hp].
  unfold nm_ctx_set_seed. set (c1 := nm_ctx_set_params junk c seed) in *. cbv zeta.
  assert (Hpar : c_params c1 = nm_derive_params junk seed (c_params c)) by done.
  assert (Haes : c_aes c1 = nm_aes128_expand (c_aes c) (aes_key (c_params c1))) by done.
  assert (How : c_owns_dataset c1 = c_owns_dataset c) by done. clearbody c1.
  destruct (c_owns_dataset c1) eqn:Ho; cbn [andb].
  2: { exists c1, h. split_and!; try assumption; [reflexivity|congruence|congruence]. }
  destruct (negb (c_dataset_valid c1) || negb (bool_decide (c_dataset_key c1 = dataset_key (c_params c1)))) eqn:Hc.
  - destruct (inv_owned_ds _ _ _ Hinv1 Ho) as (d & Hd & Hl). rewrite Hd. cbn [mbind option_bind].
    apply load_words_inv in Hd as (b & Hb & Hcell).
    rewrite (build_dataset_of d _ Hl (ok_dataset_key _ Hp)).
    pose proof (store_ok_block h b _ (CWords (dataset_of (dataset_key (c_params c1)))) Hcell) as Hst.
    rewrite <-Hb in Hst. rewrite Hst. cbn [mbind option_bind].
    pose proof (inv_set_dataset ext c1 h b d (dataset_key (c_params c1)) Hinv1 Hb Ho Hcell (ok_dataset_key _ Hp)) as Hnew.
    rewrite Ho in Hnew. eexists _, _. split; [done|].
    split; [exact Hnew|]. cbn [c_params c_aes c_owns_dataset c_dataset_valid c_dataset_key].
    split_and!; assumption || (intros; split; reflexivity) || congruence.
  - exists c1, h. apply orb_false_iff in Hc as [Hv Hk]. apply negb_false_iff in Hv, Hk.
    apply bool_decide_eq_true in Hk.
    split_and!; try assumption; [reflexivity|congruence|]. intros _. split; assumption.
Qed.

(** Blocks of another type are other blocks. *)
Lemma loads_other h h' c b x sc pg tk :
  cells h !! b = Some (CWords x) -> (forall b', b' <> b -> cells h' !! b' = cells h !! b') ->
  (load_instrs h (c_prog c) = Some pg -> load_instrs h' (c_prog c) = Some pg) /\
  (load_bytes h (c_taken c) = Some tk -> load_bytes h' (c_taken c) = Some tk) /\
  (c_scratch c <> Some b -> load_words h (c_scratch c) = Some sc -> load_words h' (c_scratch c) = Some sc).
Proof.
  intros Hb Hsame. split_and!.
  - intros H. pose proof (load_instrs_inv _ _ _ H) as (b' & Hb' & Hc). rewrite <-H. unfold load_instrs.
    rewrite (load_same h); [done|]. intros b'' ?. simplify_eq. apply Hsame. congruence.
  - intros H. pose proof (load_bytes_inv _ _ _ H) as (b' & Hb' & Hc). rewrite <-H. unfold load_bytes.
    rewrite (load_same h); [done|]. intros b'' ?. simplify_eq. apply Hsame. congruence.
  - intros Hne H. rewrite <-H. unfold load_words. rewrite (load_same h); [done|].
    intros b' Hb'. apply Hsame. congruence.
Qed.

Lemma attach_scratch_ok ext c h b l :
  ctx_inv ext c h -> b ∈ ext -> cells h !! b = Some (CWords l) -> Z.of_nat (length l) = NM_SCRATCH_WORDS ->
  c_dataset c <> Some b ->
  exists c' h', nm_ctx_attach_scratch h c (Some b) = Some (c', h') /\ ctx_inv ext c' h' /\
    c_params c' = c_params c /\ c_dataset_valid c' = c_dataset_valid c.
Proof.
  intros [H1 H2 H3 H4 H5 H6 H7 H8 H9 H10 H11] Hb Hcell Hl Hd.
  destruct H4 as (sc & pg & tk & Hsc & Hpg & Htk & Hok).
  unfold nm_ctx_attach_scratch. destruct (load_words_inv _ _ _ Hsc) as (b0 & Hb0 & Hc0).
  set (c' := mk_ctx _ _ (Some b) _ _ _ _ _ _ _).
  assert (Hbufs : bufs_ok (mk_bufs l pg tk)).
  { destruct Hok as [_ K2 K3]. constructor; [exact Hl|exact K2|exact K3]. }
  destruct (c_owns_scratch c) eqn:Ho.
  - assert (Hown : owned c = b0 :: owned c').
    { unfold owned, to_free. rewrite Ho, Hb0. reflexivity. }
    rewrite Hown in H1, H2, H3. apply list.NoDup_cons in H1 as [Hn0 H1].
    assert (Hne : b0 <> b) by (intros ->; by apply (H3 b); [left|]).
    unfold free. rewrite Hb0, Hc0. cbn [mbind option_bind].
    set (h' := mk_heap (delete b0 (cells h)) (next_id h) (malloc_ok h)).
    assert (Hsame : forall b', b' <> b0 -> cells h' !! b' = cells h !! b')
      by (intros b' Hb'; cbn [h' cells]; by rewrite lookup_delete_ne).
    destruct (loads_other h h' c b0 sc sc pg tk Hc0 Hsame) as (L1 & L2 & _).
    assert (Hds : forall x, load_words h (c_dataset c) = Some x -> load_words h' (c_dataset c) = Some x).
    { intros x Hx. rewrite <-Hx. unfold load_words. rewrite (load_same h); [done|].
      intros b' Hb'. apply Hsame. congruence. }
    exists c', h'. split_and!; [reflexivity| |reflexivity|reflexivity]. constructor; try assumption.
    + intros b'. destruct (decide (b' = b0)) as [->|Hb'].
      * cbn [h' cells]. rewrite lookup_delete_eq. split; [by intros [? ?]|].
        intros [?|?]; [done|]. exfalso. by apply (H3 b0); [left|].
      * rewrite Hsame by done. rewrite H2, elem_of_cons. tauto.
    + intros b' Hb'. apply H3. by right.
    + exists l, pg, tk. split_and!; [|by apply L1|by apply L2|done].
      unfold load_words, load. cbn [c' c_scratch mbind option_bind]. rewrite Hsame by done.
      rewrite Hcell. reflexivity.
    + intros _. by exists b.
    + intros Hod. destruct (H7 Hod) as (d & Hd1 & Hd2). exists d. split; [by apply Hds|done].
    + cbn [c' c_scratch c_dataset]. congruence.
    + intros Hv. destruct (H9 Hv) as [K1 K2]. split; [done|]. by apply Hds.
  - assert (Hown : owned c = owned c') by (unfold owned, to_free; by rewrite Ho).
    rewrite Hown in H1, H2, H3. cbn [mbind option_bind].
    exists c', h. split_and!; [reflexivity| |reflexivity|reflexivity]. constructor; try assumption.
    + exists l, pg, tk. split_and!; [|done|done|done].
      unfold load_words, load. cbn [c' c_scratch mbind option_bind]. rewrite Hcell. reflexivity.
    + intros _. by exists b.
    + cbn [c' c_scratch c_dataset]. congruence.
Qed.

Lemma attach_dataset_ok ext c h b key :
  ctx_inv ext c h -> c_owns_dataset c = false -> b ∈ ext -> block key ->
  cells h !! b = Some (CWords (dataset_of key)) -> c_scratch c <> Some b ->
  ctx_inv ext (nm_ctx_attach_dataset c (Some b) key) h.
Proof.
  intros [H1 H2 H3 H4 H5 H6 H7 H8 H9 H10 H11] Ho Hb Hk Hcell Hne.
  assert (Hown : owned (nm_ctx_attach_dataset c (Some b) key) = owned c)
    by (unfold owned, to_free; cbn [nm_ctx_attach_dataset c_owns_dataset c_owns_scratch c_scratch c_prog c_taken];
        by rewrite Ho).
  constructor; rewrite ?Hown; try assumption.
  - intros b' [= <-] _. exact Hb.
  - cbn [nm_ctx_attach_dataset c_owns_dataset]. congruence.
  - intros _. cbn [nm_ctx_attach_dataset c_dataset_key c_dataset]. rewrite take_ge by (destruct Hk; lia).
    split; [done|]. unfold load_words, load. cbn [mbind option_bind]. rewrite Hcell. reflexivity.
Qed.

(** The dataset a hash at [height] reads. *)
Definition hash_ds (c : nm_ctx) (height : Z) : list Z :=
  if NM_DATASET_HEIGHT <=? height then dataset_of (c_dataset_key c) else [].

(** Writing the three buffers back. *)
Lemma inv_set_bufs ext c h b1 b2 b3 sc pg tk sc' pg' tk' :
  ctx_inv ext c h -> c_scratch c = Some b1 -> c_prog c = Some b2 -> c_taken c = Some b3 ->
  cells h !! b1 = Some (CWords sc) -> cells h !! b2 = Some (CInstrs pg) -> cells h !! b3 = Some (CBytes tk) ->
  bufs_ok (mk_bufs sc' pg' tk') ->
  ctx_inv ext c (mk_heap (<[b3 := CBytes tk']> (<[b2 := CInstrs pg']> (<[b1 := CWords sc']> (cells h))))
                   (next_id h) (malloc_ok h)).
Proof.
  intros [H1 H2 H3 H4 H5 H6 H7 H8 H9 H10 H11] E1 E2 E3 C1 C2 C3 Hok.
  assert (N12 : b1 <> b2) by congruence. assert (N13 : b1 <> b3) by congruence.
  assert (N23 : b2 <> b3) by congruence.
  set (h' := mk_heap _ _ _).
  assert (Hds : forall x, load_words h (c_dataset c) = Some x -> load_words h' (c_dataset c) = Some x).
  { intros x Hx. pose proof (load_words_inv _ _ _ Hx) as (b & Hb & Hcb). rewrite <-Hx. unfold load_words.
    rewrite (load_same h); [done|]. intros b' ?. simplify_eq. cbn [h' cells].
    rewrite !lookup_insert_ne; [done|congruence..]. }
  constructor; try assumption.
  - intros b. rewrite <-H2. cbn [h' cells]. destruct (decide (b = b3)) as [->|];
      [rewrite lookup_insert_eq, C3; split; intros _; by eexists|rewrite lookup_insert_ne by done].
    destruct (decide (b = b2)) as [->|];
      [rewrite lookup_insert_eq, C2; split; intros _; by eexists|rewrite lookup_insert_ne by done].
    destruct (decide (b = b1)) as [->|];
      [rewrite lookup_insert_eq, C1; split; intros _; by eexists|by rewrite lookup_insert_ne].
  - exists sc', pg', tk'. unfold load_words, load_instrs, load_bytes, load. rewrite E1, E2, E3.
    cbn [mbind option_bind h' cells].
    rewrite (lookup_insert_ne _ b3 b1), (lookup_insert_ne _ b2 b1), lookup_insert_eq by done.
    rewrite (lookup_insert_ne _ b3 b2), !lookup_insert_eq by done. done.
  - intros Ho. destruct (H7 Ho) as (d & Hd & Hl). exists d. split; [by apply Hds|done].
  - intros Hv. destruct (H9 Hv) as [Hk Hd]. split; [done|]. by apply Hds.
Qed.

(** [nm_hash] on a context writes its three buffers and nothing else. *)
Lemma ctx_hash_run junk c h header height sc pg tk ds :
  length junk = 64%nat -> params_ok (c_params c) -> wf_key (c_aes c) ->
  load_words h (c_scratch c) = Some sc -> load_instrs h (c_prog c) = Some pg -> load_bytes h (c_taken c) = Some tk ->
  bufs_ok (mk_bufs sc pg tk) ->
  (if NM_DATASET_HEIGHT <=? height then load_words h (c_dataset c) else Some []) = Some ds ->
  (NM_DATASET_HEIGHT <= height -> dataset_ok ds) ->
  exists out b1 b2 b3 sc' pg' tk',
    (c_scratch c = Some b1 /\ c_prog c = Some b2 /\ c_taken c = Some b3) /\
    (cells h !! b1 = Some (CWords sc) /\ cells h !! b2 = Some (CInstrs pg) /\ cells h !! b3 = Some (CBytes tk)) /\
    ctx_hash junk h c header height
    = Some (out, mk_heap (<[b3 := CBytes tk']> (<[b2 := CInstrs pg']> (<[b1 := CWords sc']> (cells h)))) (next_id h) (malloc_ok h)) /\
    bufs_ok (mk_bufs sc' pg' tk') /\ length out = 32%nat /\ bytes out /\
    forall junk' bufs, length junk' = 64%nat -> bufs_ok bufs ->
      fst <$> nm_hash junk' (c_params c) (c_aes c) bufs ds header height = Some out.
Proof.
  intros Hj Hp Haes Hsc Hpg Htk Hok Eds Hds. unfold ctx_hash. rewrite Hsc, Hpg, Htk. cbn [mbind option_bind].
  rewrite Eds. cbn [mbind option_bind].
  destruct (hash_total junk (c_params c) (c_aes c) ds header height Hj Hp Haes Hds _ Hok) as (out & b & Hh & Hlen & Hby & Hok').
  rewrite Hh. cbn [mbind option_bind].
  destruct (load_words_inv _ _ _ Hsc) as (b1 & E1 & C1). destruct (load_instrs_inv _ _ _ Hpg) as (b2 & E2 & C2).
  destruct (load_bytes_inv _ _ _ Htk) as (b3 & E3 & C3).
  assert (N12 : b1 <> b2) by congruence. assert (N13 : b1 <> b3) by congruence. assert (N23 : b2 <> b3) by congruence.
  rewrite E1, E2, E3. rewrite (store_ok_block _ _ _ _ C1). cbn [mbind option_bind].
  rewrite (store_ok_block _ b2 (CInstrs pg)) by (cbn [cells]; rewrite lookup_insert_ne; done).
  cbn [mbind option_bind cells next_id malloc_ok].
  rewrite (store_ok_block _ b3 (CBytes tk)) by (cbn [cells]; rewrite !lookup_insert_ne; done).
  cbn [mbind option_bind cells next_id malloc_ok]. destruct b as [sc' pg' tk']. cbn [b_scratch b_prog b_taken].
  exists out, b1, b2, b3, sc', pg', tk'. split; [done|]. split; [done|]. split; [reflexivity|]. split_and!; [exact Hok'|exact Hlen|exact Hby|].
  intros junk' bufs' Hj' Hb'.
  rewrite (hash_indep junk' junk _ _ bufs' (mk_bufs sc pg tk) _ header height Hj' Hj Hp Haes Hds Hb' Hok).
  rewrite Hh. reflexivity.
Qed.

Lemma ctx_hash_ok junk ext c h header height :
  length junk = 64%nat -> ctx_inv ext c h -> params_ok (c_params c) ->
  (NM_DATASET_HEIGHT <= height -> c_dataset_valid c = true) ->
  exists out h', ctx_hash junk h c header height = Some (out, h') /\ ctx_inv ext c h' /\
    length out = 32%nat /\ bytes out /\
    forall junk' bufs, length junk' = 64%nat -> bufs_ok bufs ->
      fst <$> nm_hash junk' (c_params c) (c_aes c) bufs (hash_ds c height) header height = Some out.
Proof.
  intros Hj Hinv Hp Hv. destruct (inv_bufs _ _ _ Hinv) as (sc & pg & tk & Hsc & Hpg & Htk & Hok).
  assert (Hds : (if NM_DATASET_HEIGHT <=? height then load_words h (c_dataset c) else Some []) = Some (hash_ds c height)
    /\ (NM_DATASET_HEIGHT <= height -> dataset_ok (hash_ds c height))).
  { unfold hash_ds. destruct (Z.leb_spec NM_DATASET_HEIGHT height) as [Hh|Hh].
    - destruct (inv_valid _ _ _ Hinv (Hv Hh)) as [Hk Hd]. split; [exact Hd|]. intros _. by apply dataset_of_ok.
    - split; [reflexivity|]. intros. lia. }
  destruct Hds as [Eds Hds].
  destruct (ctx_hash_run junk c h header height sc pg tk _ Hj Hp (inv_aes _ _ _ Hinv) Hsc Hpg Htk Hok Eds Hds)
    as (out & b1 & b2 & b3 & sc' & pg' & tk' & (E1 & E2 & E3) & (C1 & C2 & C3) & Eh & Hok' & Hlen & Hby & Hi).
  eexists out, _. split; [exact Eh|]. split_and!; [by eapply inv_set_bufs|exact Hlen|exact Hby|exact Hi].
Qed.

(** ** Reachable contexts *)

Inductive op :=
  | OpSetParams (seed : list Z)
  | OpSetSeed (seed : list Z)
  | OpAttachScratch (b : nat)
  | OpAttachDataset (b : nat) (key : list Z)
  | OpHash (header : list Z) (height : Z).

Definition run_op (junk : list Z) (o : op) (st : nm_ctx * heap) : option (nm_ctx * heap) :=
  let '(c, h) := st in
  match o with
  | OpSetParams seed => Some (nm_ctx_set_params junk c seed, h)
  | OpSetSeed seed => nm_ctx_set_seed junk h c seed
  | OpAttachScratch b => nm_ctx_attach_scratch h c (Some b)
  | OpAttachDataset b key => Some (nm_ctx_attach_dataset c (Some b) key, h)
  | OpHash header height => '(_, h) ← ctx_hash junk h c header height; Some (c, h)
  end.

(** What the callers respect: blocks they attach are theirs, live, of the right
    size and not attached twice; a dataset is attached to a context made by
    [nm_ctx_init_shared] and is the one of its key; a context is seeded before it
    hashes, and has a valid dataset from the activation height on. *)
Definition allowed (ext : gset nat) (o : op) (st : nm_ctx * heap) : Prop :=
  let '(c, h) := st in
  match o with
  | OpSetParams _ | OpSetSeed _ => True
  | OpAttachScratch b => b ∈ ext /\ c_dataset c <> Some b /\
      exists l, cells h !! b = Some (CWords l) /\ Z.of_nat (length l) = NM_SCRATCH_WORDS
  | OpAttachDataset b key => b ∈ ext /\ c_scratch c <> Some b /\ c_owns_dataset c = false /\ block key /\
      cells h !! b = Some (CWords (dataset_of key))
  | OpHash _ height => params_ok (c_params c) /\ (NM_DATASET_HEIGHT <= height -> c_dataset_valid c = true)
  end.

Inductive reach (ext : gset nat) (st : nm_ctx * heap) : nm_ctx * heap -> Prop :=
  | reach_start : reach ext st st
  | reach_step junk o st1 st2 :
      reach ext st st1 -> length junk = 64%nat -> allowed ext o st1 -> run_op junk o st1 = Some st2 ->
      reach ext st st2.

Lemma run_op_ok junk ext o c h :
  length junk = 64%nat -> ctx_inv ext c h -> allowed ext o (c, h) ->
  exists c' h', run_op junk o (c, h) = Some (c', h') /\ ctx_inv ext c' h'.
Proof.
  intros Hj Hinv Hal. destruct o as [seed|seed|b|b key|header height]; cbn [allowed run_op] in *.
  - eexists _, _. split; [reflexivity|]. by apply set_params_ok.
  - destruct (set_seed_ok junk ext c h seed Hj Hinv) as (c' & h' & He & Hi & _). by exists c', h'.
  - destruct Hal as (Hb & Hd & l & Hc & Hl).
    destruct (attach_scratch_ok ext c h b l Hinv Hb Hc Hl Hd) as (c' & h' & He & Hi & _). by exists c', h'.
  - destruct Hal as (Hb & Hs & Ho & Hk & Hc). eexists _, _. split; [reflexivity|]. by apply attach_dataset_ok.
  - destruct Hal as [Hp Hv].
    destruct (ctx_hash_ok junk ext c h header height Hj Hinv Hp Hv) as (out & h' & -> & Hi & _).
    by exists c, h'.
Qed.

Lemma reach_inv ext st st' :
  reach ext st st' -> ctx_inv ext st.1 st.2 -> ctx_inv ext st'.1 st'.2.
Proof.
  induction 1 as [|junk o [c1 h1] st2 _ IH Hj Hal Hrun]; intros Hinv; [done|].
  destruct (run_op_ok junk ext o c1 h1 Hj (IH Hinv) Hal) as (c' & h' & He & Hi).
  rewrite He in Hrun. by simplify_eq.
Qed.

Lemma inv_free ext c h :
  ctx_inv ext c h ->
  exists h', nm_ctx_free h c = Some (zero_ctx, h') /\
    (forall b, cells h' !! b = if decide (b ∈ ext) then cells h !! b else None).
Proof.
  intros Hinv. destruct (free_list_spec h (to_free c) (inv_nodup _ _ _ Hinv)) as (h' & Hf & Hc & _).
  { intros b Hb. apply (inv_live _ _ _ Hinv). by left. }
  exists h'. rewrite nm_ctx_free_list, Hf. split; [done|]. intros b. rewrite Hc.
  destruct (decide (b ∈ ext)) as [He|He].
  - rewrite decide_False; [done|]. intros Ho. by apply (inv_ext _ _ _ Hinv b).
  - case_decide as Ho; [done|]. apply eq_None_not_Some. intros [?|?]%(inv_live _ _ _ Hinv); done.
Qed.

(** *** A fresh context satisfies the invariant *)

Lemma grown_live h h' bs b :
  grown h h' bs -> is_Some (cells h' !! b) <-> b ∈ bs \/ b ∈ dom (cells h).
Proof.
  intros (_ & _ & _ & _ & Hl & Hs). rewrite elem_of_dom. destruct (decide (b ∈ bs)) as [Hb|Hb].
  - pose proof (Hl b Hb). tauto.
  - rewrite Hs by done. tauto.
Qed.

Lemma grown_ext h h' bs b : heap_wf h -> grown h h' bs -> b ∈ bs -> b ∉ dom (cells h).
Proof. intros Hwf (_ & _ & _ & Hge & _) Hb Hd%elem_of_dom. apply Hge in Hb. apply Hwf in Hd. lia. Qed.

Lemma wf_key_zero : wf_key (replicate 176 0).
Proof. split; [apply length_replicate|]. apply Forall_replicate. by apply word_0. Qed.

Lemma zero_params_table : length (op_table zero_params) = 256%nat.
Proof. apply length_replicate. Qed.

Lemma init_inv mem ds h c h' :
  heap_wf h -> bufs_ok mem -> Z.of_nat (length ds) = NM_DATASET_WORDS ->
  nm_ctx_init mem ds h = (c, 0, h') -> ctx_inv (dom (cells h)) c h'.
Proof.
  intros Hwf Hm Hds Hi. destruct (init_grown mem ds h c 0 h' Hwf Hi) as [G Hc].
  destruct (Hc eq_refl) as (Hos & Hod & Hv & Hp & Ha & L1 & L2 & L3 & L4). destruct mem as [m1 m2 m3].
  constructor; try congruence.
  - apply G.
  - intros b. by apply grown_live.
  - intros b. by eapply grown_ext.
  - by exists m1, m2, m3.
  - intros _. by exists ds.
  - destruct (load_words_inv _ _ _ L1) as (b & Hb & _). destruct (load_instrs_inv _ _ _ L2) as (b' & Hb' & _).
    destruct (load_bytes_inv _ _ _ L3) as (b'' & Hb'' & _). intros Heq.
    destruct G as (_ & _ & Hnd & _). unfold owned, to_free in Hnd. rewrite Hos, Hod, <-Heq, Hb, Hb', Hb'' in Hnd.
    cbn in Hnd. apply list.NoDup_cons in Hnd as [Hnd _]. apply Hnd. by right; right; left.
  - rewrite Ha. apply wf_key_zero.
  - rewrite Hp. apply zero_params_table.
Qed.

Lemma init_shared_inv mem h c h' :
  heap_wf h -> bufs_ok mem -> nm_ctx_init_shared mem h = (c, 0, h') -> ctx_inv (dom (cells h)) c h'.
Proof.
  intros Hwf Hm Hi. destruct (init_shared_grown mem h c 0 h' Hwf Hi) as [G Hc].
  destruct (Hc eq_refl) as (Hos & Hod & Hv & Hd & Hp & Ha & L1 & L2 & L3). destruct mem as [m1 m2 m3].
  constructor; try congruence.
  - apply G.
  - intros b. by apply grown_live.
  - intros b. by eapply grown_ext.
  - by exists m1, m2, m3.
  - rewrite Hd. destruct (load_words_inv _ _ _ L1) as (b & Hb & _). congruence.
  - rewrite Ha. apply wf_key_zero.
  - rewrite Hp. apply zero_params_table.
Qed.

(** *** Two contexts on the same seed *)

Lemma seeded_aes junk junk' c c' seed :
  length junk = 64%nat -> length junk' = 64%nat -> wf_key (c_aes c) -> wf_key (c_aes c') ->
  length (op_table (c_params c)) = 256%nat -> length (op_table (c_params c')) = 256%nat ->
  nm_derive_params junk seed (c_params c) = nm_derive_params junk' seed (c_params c') /\
  nm_aes128_expand (c_aes c) (aes_key (nm_derive_params junk seed (c_params c)))
  = nm_aes128_expand (c_aes c') (aes_key (nm_derive_params junk' seed (c_params c'))).
Proof.
  intros Hj Hj' [Hl Hb] [Hl' Hb'] Ht Ht'.
  pose proof (derive_params_indep junk junk' seed _ _ Hj Hj' Ht Ht') as E. split; [exact E|]. rewrite <-E.
  apply expand_indep; try assumption. apply (ok_aes_key _ (derive_params_ok junk seed _ Hj Ht)).
Qed.

Lemma ctx_hash_agree ext1 ext2 junk1 junk2 c1 h1 c2 h2 header height :
  length junk1 = 64%nat -> length junk2 = 64%nat -> ctx_inv ext1 c1 h1 -> ctx_inv ext2 c2 h2 ->
  params_ok (c_params c1) -> c_params c1 = c_params c2 -> c_aes c1 = c_aes c2 ->
  c_dataset_valid c1 = true -> c_dataset_valid c2 = true -> c_dataset_key c1 = c_dataset_key c2 ->
  exists out, fst <$> ctx_hash junk1 h1 c1 header height = Some out /\
              fst <$> ctx_hash junk2 h2 c2 header height = Some out.
Proof.
  intros Hj1 Hj2 H1 H2 Hp Epar Eaes V1 V2 Ek.
  destruct (ctx_hash_ok junk1 ext1 c1 h1 header height Hj1 H1 Hp (fun _ => V1)) as (o1 & h1' & -> & _ & _ & _ & F1).
  assert (Hp2 : params_ok (c_params c2)) by congruence.
  destruct (ctx_hash_ok junk2 ext2 c2 h2 header height Hj2 H2 Hp2 (fun _ => V2)) as (o2 & h2' & -> & _ & _ & _ & F2).
  exists o1. split; [reflexivity|]. cbn.
  destruct (inv_bufs _ _ _ H1) as (sc & pg & tk & _ & _ & _ & Hok).
  specialize (F1 junk1 _ Hj1 Hok). specialize (F2 junk1 _ Hj1 Hok).
  assert (Hds : hash_ds c1 height = hash_ds c2 height) by (unfold hash_ds; by rewrite Ek).
  rewrite Epar, Eaes, Hds in F1. congruence.
Qed.

(** Releasing, in any order, all that was allocated. *)
Lemma free_grown_perm h h' bs ps :
  heap_wf h -> grown h h' bs -> omap id ps ≡ₚ bs ->
  exists h2, free_list h' ps = Some h2 /\ cells h2 = cells h.
Proof.
  intros Hwf (_ & _ & Hnd & Hge & Hl & Hs) Hperm.
  destruct (free_list_spec h' ps) as (h2 & Hf & Hc & _).
  - by rewrite Hperm.
  - intros b. rewrite Hperm. apply Hl.
  - exists h2. split; [done|]. apply map_eq. intros b. rewrite Hc.
    rewrite (decide_ext (b ∈ omap id ps) (b ∈ bs)) by (by rewrite Hperm).
    case_decide as Hb; [|by apply Hs]. symmetry. apply eq_None_not_Some. intros Hb'%Hwf. apply Hge in Hb. lia.
Qed.

(** ** Properties *)

(** A context that was created, or whose creation failed at any allocation,
    is released completely by [nm_ctx_free]: no block is freed twice, none that
    is not live is freed, and the heap is what it was before. *)
Lemma nm_ctx_init_free mem ds h c rc h1 :
  heap_wf h ->
  nm_ctx_init mem ds h = (c, rc, h1) \/ nm_ctx_init_shared mem h = (c, rc, h1) ->
  exists h2, nm_ctx_free h1 c = Some (zero_ctx, h2) /\ cells h2 = cells h.
Proof.
  intros Hwf [Hi|Hi]; apply free_grown; try done; [by eapply init_grown|by eapply init_shared_grown].
Qed.

(** C9. The life of a context: from either constructor, any sequence of seeding,
    attaching and hashing that respects the callers' contract never gets stuck
    (no access through a bad pointer, no overrun), and [nm_ctx_free] at any point
    releases exactly the blocks the context owns: those that were live before it
    was created, attached or not, stay live with their contents. *)
Theorem nm_ctx_lifecycle mem ds h c0 h0 c h1 :
  heap_wf h -> bufs_ok mem -> Z.of_nat (length ds) = NM_DATASET_WORDS ->
  nm_ctx_init mem ds h = (c0, 0, h0) \/ nm_ctx_init_shared mem h = (c0, 0, h0) ->
  reach (dom (cells h)) (c0, h0) (c, h1) ->
  (forall junk o, length junk = 64%nat -> allowed (dom (cells h)) o (c, h1) ->
     exists st, run_op junk o (c, h1) = Some st /\ reach (dom (cells h)) (c0, h0) st) /\
  exists h2, nm_ctx_free h1 c = Some (zero_ctx, h2) /\
    forall b, cells h2 !! b = if decide (b ∈ dom (cells h)) then cells h1 !! b else None.
Proof.
  intros Hwf Hm Hds Hi Hr.
  assert (Hinv0 : ctx_inv (dom (cells h)) c0 h0) by (destruct Hi; [by eapply init_inv|by eapply init_shared_inv]).
  pose proof (reach_inv _ _ _ Hr Hinv0) as Hinv. split; [|by apply inv_free].
  intros junk o Hj Ha. destruct (run_op_ok junk _ o c h1 Hj Hinv Ha) as (c' & h' & He & _).
  exists (c', h'). split; [done|]. by eapply reach_step.
Qed.

(** C34. After [nm_ctx_set_seed] a context that owns its dataset holds the dataset
    of the new epoch's key, whether it was rebuilt or kept because the key did
    not change. *)
Theorem nm_ctx_set_seed_dataset junk ext c h seed :
  length junk = 64%nat -> ctx_inv ext c h -> c_owns_dataset c = true ->
  exists c' h', nm_ctx_set_seed junk h c seed = Some (c', h') /\ params_ok (c_params c') /\
    c_dataset_valid c' = true /\ c_dataset_key c' = dataset_key (c_params c') /\
    load_words h' (c_dataset c') = Some (dataset_of (dataset_key (c_params c'))).
Proof.
  intros Hj Hinv Ho. destruct (set_seed_ok junk ext c h seed Hj Hinv) as (c' & h' & He & Hi & Hp & _ & _ & _ & Hv).
  destruct (Hv Ho) as [V K]. exists c', h'. split_and!; try done.
  destruct (inv_valid _ _ _ Hi V) as [_ Hd]. by rewrite <-K.
Qed.

(** C8. Every worker computes the same hash: a context that owns its dataset and
    was seeded, and a context that shares one, given the parameters of the same
    seed and the dataset of their key, return the same digest of any header at
    any height, whatever each of them hashed before. *)
Theorem nm_ctx_workers_agree ext1 ext2 junk1 junk2 c1 h1 c1' h1' c2 h2 b seed header height :
  length junk1 = 64%nat -> length junk2 = 64%nat -> ctx_inv ext1 c1 h1 -> ctx_inv ext2 c2 h2 ->
  c_owns_dataset c1 = true -> c_owns_dataset c2 = false ->
  nm_ctx_set_seed junk1 h1 c1 seed = Some (c1', h1') ->
  let c2p := nm_ctx_set_params junk2 c2 seed in
  b ∈ ext2 -> c_scratch c2 <> Some b ->
  cells h2 !! b = Some (CWords (dataset_of (dataset_key (c_params c2p)))) ->
  let c2' := nm_ctx_attach_dataset c2p (Some b) (dataset_key (c_params c2p)) in
  exists out, fst <$> ctx_hash junk1 h1' c1' header height = Some out /\
              fst <$> ctx_hash junk2 h2 c2' header height = Some out.
Proof.
  intros Hj1 Hj2 H1 H2 O1 O2 Hset c2p Hb Hs Hcell c2'.
  destruct (set_seed_ok junk1 ext1 c1 h1 seed Hj1 H1) as (c & h & He & Hi & Hp & Epar & Eaes & _ & Hv).
  rewrite He in Hset. injection Hset as -> ->. destruct (Hv O1) as [V1 K1].
  destruct (set_params_ok junk2 ext2 c2 h2 seed Hj2 H2) as [H2p Hp2].
  destruct (seeded_aes junk1 junk2 c1 c2 seed Hj1 Hj2 (inv_aes _ _ _ H1) (inv_aes _ _ _ H2)
    (inv_table _ _ _ H1) (inv_table _ _ _ H2)) as [Ep Ea].
  assert (Hinv2 : ctx_inv ext2 c2' h2)
    by exact (attach_dataset_ok ext2 c2p h2 b _ H2p O2 Hb (ok_dataset_key _ Hp2) Hcell Hs).
  apply (ctx_hash_agree ext1 ext2 junk1 junk2 c1' h1' c2' h2 header height Hj1 Hj2 Hi Hinv2 Hp);
    [| |exact V1|reflexivity|].
  - rewrite Epar. exact Ep.
  - rewrite Eaes, Epar. exact Ea.
  - rewrite K1, Epar. cbn [c2' c2p nm_ctx_attach_dataset nm_ctx_set_params c_dataset_key c_params].
    rewrite take_ge; [by rewrite Ep|]. destruct (ok_dataset_key _ Hp2) as [Hl _].
    cbn [nm_ctx_set_params c_params] in Hl. lia.
Qed.

(** *** Witnesses *)

Definition heap0 : heap := mk_heap ∅ 0 (fun _ => true).
Definition mem0 : nm_bufs := mk_bufs [1] [] [2].
Definition ctx1 : nm_ctx * heap := let '(c, _, h) := nm_ctx_init (bufs1 0) dataset1 heap0 in (c, h).
Definition key2 : list Z := dataset_key (nm_derive_params (replicate 64 0) (replicate 32 4) zero_params).
Definition heap2 : heap := mk_heap {[0%nat := CWords (dataset_of key2)]} 1 (fun _ => true).
Definition ctx2 : nm_ctx * heap := let '(c, _, h) := nm_ctx_init_shared (bufs1 3) heap2 in (c, h).

Lemma heap_wf_empty ok : heap_wf (mk_heap ∅ 0 ok).
Proof. intros b [x Hx]. cbn [cells] in Hx. by rewrite lookup_empty in Hx. Qed.
Lemma heap2_wf : heap_wf heap2.
Proof.
  intros b [x Hx]. unfold heap2 in *. cbn [cells next_id] in *.
  apply lookup_singleton_Some in Hx as [<- _]. lia.
Qed.
Lemma ctx1_init : nm_ctx_init (bufs1 0) dataset1 heap0 = (ctx1.1, 0, ctx1.2).
Proof. reflexivity. Qed.
Lemma ctx2_init : nm_ctx_init_shared (bufs1 3) heap2 = (ctx2.1, 0, ctx2.2).
Proof. reflexivity. Qed.
Lemma dataset1_length : Z.of_nat (length dataset1) = NM_DATASET_WORDS.
Proof. apply dataset1_ok. Qed.
Lemma ctx1_inv : ctx_inv ∅ ctx1.1 ctx1.2.
Proof. exact (init_inv _ _ _ _ _ (heap_wf_empty _) (bufs1_ok 0) dataset1_length ctx1_init). Qed.
Lemma ctx2_inv : ctx_inv (dom (cells heap2)) ctx2.1 ctx2.2.
Proof. exact (init_shared_inv _ _ _ _ heap2_wf (bufs1_ok 3) ctx2_init). Qed.

Lemma nm_ctx_lifecycle_witness :
  let c := nm_ctx_set_params (replicate 64 0) ctx1.1 (replicate 32 4) in
  exists h2, nm_ctx_free ctx1.2 c = Some (zero_ctx, h2) /\
    forall b, cells h2 !! b = if decide (b ∈ dom (cells heap0)) then cells ctx1.2 !! b else None.
Proof.
  cbv zeta.
  apply (nm_ctx_lifecycle (bufs1 0) dataset1 heap0 ctx1.1 ctx1.2 _ ctx1.2 (heap_wf_empty _) (bufs1_ok 0)
    dataset1_length (or_introl ctx1_init)).
  apply (reach_step _ _ (replicate 64 0) (OpSetParams (replicate 32 4)) (ctx1.1, ctx1.2));
    [apply reach_start|apply length_replicate|exact I|reflexivity].
Defined.

Lemma nm_ctx_set_seed_dataset_witness :
  exists c' h', nm_ctx_set_seed (replicate 64 0) ctx1.2 ctx1.1 (replicate 32 4) = Some (c', h') /\
    params_ok (c_params c') /\
    c_dataset_valid c' = true /\ c_dataset_key c' = dataset_key (c_params c') /\
    load_words h' (c_dataset c') = Some (dataset_of (dataset_key (c_params c'))).
Proof.
  apply (nm_ctx_set_seed_dataset (replicate 64 0) ∅ ctx1.1 ctx1.2 (replicate 32 4));
    [apply length_replicate|apply ctx1_inv|reflexivity].
Defined.

Lemma nm_ctx_workers_agree_witness :
  exists c1' h1', nm_ctx_set_seed (replicate 64 0) ctx1.2 ctx1.1 (replicate 32 4) = Some (c1', h1') /\
  let c2p := nm_ctx_set_params (replicate 64 0) ctx2.1 (replicate 32 4) in
  let c2' := nm_ctx_attach_dataset c2p (Some 0%nat) (dataset_key (c_params c2p)) in
  exists out, fst <$> ctx_hash (replicate 64 0) h1' c1' (replicate 124 1) 1000 = Some out /\
              fst <$> ctx_hash (replicate 64 0) ctx2.2 c2' (replicate 124 1) 1000 = Some out.
Proof.
  destruct (set_seed_ok (replicate 64 0) ∅ ctx1.1 ctx1.2 (replicate 32 4) (length_replicate _ _) ctx1_inv)
    as (c1' & h1' & He & _).
  exists c1', h1'. split; [exact He|].
  apply (nm_ctx_workers_agree ∅ (dom (cells heap2)) (replicate 64 0) (replicate 64 0) ctx1.1 ctx1.2 c1' h1'
    ctx2.1 ctx2.2 0%nat (replicate 32 4) (replicate 124 1) 1000 (length_replicate _ _) (length_replicate _ _)
    ctx1_inv ctx2_inv eq_refl eq_refl He).
  - apply elem_of_dom. by eexists.
  - discriminate.
  - reflexivity.
Defined.
