(* ===== verification/NmCapi.v ===== *)
(** * The C interface of NeuroMorph ([neuromorph_capi.cpp]).

    Workers share one dataset, a global of the process.  A handle is the block of
    the [Worker] struct; blocks obtained from [allocateLargePagesMemory] are
    remembered, and releasing a buffer with the other function, like using a
    handle that is not live, is [None].  Calls are taken one after the other: what
    the theorems say about several workers holds for any order of their calls. *)
From stdpp Require Import gmap.
From Stdlib Require Import String.
From S2P Require Import Prelude Stream NmSha256 NmAes NmParams NmFloat NmVm NmHash NmCtx.
#[local] Open Scope Z_scope.

(** ** The process *)

Record Buffer := mk_buffer { b_ptr : ptr; b_size : Z; b_huge : bool }.
Definition no_buffer : Buffer := mk_buffer None 0 false.
Record Worker := mk_worker { w_ctx : nm_ctx; w_scratch : Buffer }.

Record proc := mk_proc {
  p_heap : heap;
  p_large : gset nat;           (* blocks from allocateLargePagesMemory *)
  p_workers : gmap nat Worker;  (* the live Worker structs, by handle *)
  g_datasetBuf : Buffer;
  g_datasetKey : list Z;
  g_datasetValid : bool;
  g_datasetHuge : bool;
  g_error : string              (* of the calling thread *)
}.
Definition with_heap (p : proc) (h : heap) : proc :=
  mk_proc h (p_large p) (p_workers p) (g_datasetBuf p) (g_datasetKey p) (g_datasetValid p) (g_datasetHuge p) (g_error p).
Definition with_workers (p : proc) (ws : gmap nat Worker) : proc :=
  mk_proc (p_heap p) (p_large p) ws (g_datasetBuf p) (g_datasetKey p) (g_datasetValid p) (g_datasetHuge p) (g_error p).
Definition with_dataset (p : proc) (b : Buffer) (key : list Z) (valid huge : bool) : proc :=
  mk_proc (p_heap p) (p_large p) (p_workers p) b key valid huge (g_error p).
Definition set_error (p : proc) (msg : string) : proc :=
  mk_proc (p_heap p) (p_large p) (p_workers p) (g_datasetBuf p) (g_datasetKey p) (g_datasetValid p) (g_datasetHuge p) msg.

(** ** Buffers *)

(** [x] is what the memory holds. *)
Definition alloc_buffer (x : cell) (size : Z) (p : proc) : Buffer * proc :=
  let '(q, h) := malloc (p_heap p) x in                     (* allocateLargePagesMemory *)
  match q with
  | Some b =>
      (mk_buffer q size true,
       mk_proc h ({[b]} ∪ p_large p) (p_workers p) (g_datasetBuf p) (g_datasetKey p) (g_datasetValid p) (g_datasetHuge p) (g_error p))
  | None =>
      let '(q, h) := malloc h x in                          (* aligned_alloc_ *)
      (mk_buffer q size false, with_heap p h)
  end.

Definition free_buffer (b : Buffer) (p : proc) : option (Buffer * proc) :=
  match b_ptr b with
  | None => Some (b, p)
  | Some q =>
      if bool_decide (q ∈ p_large p) then
        if b_huge b then h ← free (p_heap p) (Some q);
          Some (mk_buffer None (b_size b) (b_huge b),
                mk_proc h (p_large p ∖ {[q]}) (p_workers p) (g_datasetBuf p) (g_datasetKey p) (g_datasetValid p) (g_datasetHuge p) (g_error p))
        else None
      else if b_huge b then None
      else h ← free (p_heap p) (Some q); Some (mk_buffer None (b_size b) (b_huge b), with_heap p h)
  end.

(** ** The shared dataset; [ds] is what a fresh buffer holds *)

(** [if (!g_datasetBuf.ptr) ...]. *)
Definition dataset_buffer (ds : list Z) (p : proc) : proc :=
  if is_null (b_ptr (g_datasetBuf p)) then
    let '(b, p) := alloc_buffer (CWords ds) NM_DATASET_BYTES p in
    if is_null (b_ptr b) then with_dataset p b (g_datasetKey p) (g_datasetValid p) (g_datasetHuge p)
    else with_dataset p b (g_datasetKey p) false (b_huge b)
  else p.
Definition shared_dataset (ds key : list Z) (p : proc) : option (ptr * proc) :=
  let p := dataset_buffer ds p in
  let d := b_ptr (g_datasetBuf p) in
  if is_null d then Some (None, p) else
  if negb (g_datasetValid p) || negb (bool_decide (g_datasetKey p = take 16 key)) then
    l ← load_words (p_heap p) d;
    h ← store (p_heap p) d (CWords (nm_build_dataset l key));
    Some (d, with_dataset (with_heap p h) (g_datasetBuf p) (take 16 key) true (g_datasetHuge p))
  else Some (d, p).

(** ** The exported functions *)

Definition nm_capi_huge_pages (p : proc) : Z :=
  if is_null (b_ptr (g_datasetBuf p)) then -1 else if g_datasetHuge p then 1 else 0.

(** [mem] and [sc] are what the fresh buffers hold. *)
Definition nm_capi_create_ctx (mem : nm_bufs) (sc : list Z) (p : proc) : option (ptr * proc) :=
  let p := set_error p EmptyString in
  let '(w, h) := malloc (p_heap p) (CBytes []) in
  match w with
  | None => Some (None, set_error (with_heap p h) "out of memory allocating the NeuroMorph worker context")
  | Some handle =>
      let '(c, rc, h) := nm_ctx_init_shared mem h in
      if negb (rc =? 0) then
        h ← free h w;
        Some (None, set_error (with_heap p h) "nm_ctx_init_shared failed (program buffer allocation)")
      else
      let '(b, p) := alloc_buffer (CWords sc) NM_SCRATCH_BYTES (with_heap p h) in
      if is_null (b_ptr b) then
        '(_, h) ← nm_ctx_free (p_heap p) c;
        h ← free h w;
        Some (None, set_error (with_heap p h) "out of memory allocating the 2 MiB NeuroMorph scratchpad")
      else
      '(c, h) ← nm_ctx_attach_scratch (p_heap p) c (b_ptr b);
      Some (w, with_workers (with_heap p h) (<[handle := mk_worker c b]> (p_workers p)))
  end.

Definition nm_capi_destroy_ctx (handle : ptr) (p : proc) : option proc :=
  match handle with
  | None => Some p
  | Some i =>
      w ← p_workers p !! i;
      let c := w_ctx w in
      let c := mk_ctx (c_params c) (c_aes c) None (c_prog c) (c_taken c) None (c_dataset_key c) false
                 (c_owns_dataset c) false in
      '(_, h) ← nm_ctx_free (p_heap p) c;
      '(_, p) ← free_buffer (w_scratch w) (with_heap p h);
      h ← free (p_heap p) handle;
      Some (with_workers (with_heap p h) (delete i (p_workers p)))
  end.

Definition nm_capi_set_seed (junk ds : list Z) (handle : nat) (seed : list Z) (p : proc) : option (Z * proc) :=
  let p := set_error p EmptyString in
  w ← p_workers p !! handle;
  let c := nm_ctx_set_params junk (w_ctx w) seed in
  let p := with_workers p (<[handle := mk_worker c (w_scratch w)]> (p_workers p)) in
  '(d, p) ← shared_dataset ds (dataset_key (c_params c)) p;
  if is_null d then Some (-1, set_error p "out of memory allocating the 64 MiB NeuroMorph dataset") else
  let c := nm_ctx_attach_dataset c d (dataset_key (c_params c)) in
  Some (0, with_workers p (<[handle := mk_worker c (w_scratch w)]> (p_workers p))).

Definition nm_capi_hash (junk : list Z) (handle : nat) (header : list Z) (height : Z) (p : proc) : option (list Z * proc) :=
  w ← p_workers p !! handle;
  '(out, h) ← ctx_hash junk (p_heap p) (w_ctx w) header height;
  Some (out, with_heap p h).

Definition NM_NONCE_OFFSET : nat := 116.
Definition selftest_seed : list Z := (fun i => T8 (Z.of_nat i * 7 + 1)) <$> seq 0 32.
Definition selftest_header : list Z := (fun i => T8 (Z.of_nat i * 3 + 5)) <$> seq 0 NM_HEADER_LEN.
(** [header[NM_NONCE_OFFSET] ^= 0x01]. *)
Definition flip_nonce (header : list Z) : list Z := alter (fun x => Z.lxor x 1) NM_NONCE_OFFSET header.
Definition selftest_height : Z := 100000.

(** What the two fresh workers, the fresh dataset and the stack of each call hold. *)
Definition nm_capi_selftest (mem : nat -> nm_bufs) (sc : nat -> list Z) (ds : list Z) (junk : nat -> list Z) (p : proc)
    : option (Z * proc) :=
  let p := set_error p EmptyString in
  '(a, p) ← nm_capi_create_ctx (mem 0%nat) (sc 0%nat) p;
  '(b, p) ← nm_capi_create_ctx (mem 1%nat) (sc 1%nat) p;
  match a, b with
  | Some wa, Some wb =>
      '(rc, p) ← nm_capi_set_seed (junk 0%nat) ds wa selftest_seed p;
      '(rc, p) ← (if negb (rc =? 0) then Some (rc, p) else nm_capi_set_seed (junk 1%nat) ds wb selftest_seed p);
      if negb (rc =? 0) then
        p ← nm_capi_destroy_ctx a p; p ← nm_capi_destroy_ctx b p; Some (-2, p)
      else
      '(h1, p) ← nm_capi_hash (junk 2%nat) wa selftest_header selftest_height p;
      '(h2, p) ← nm_capi_hash (junk 3%nat) wa selftest_header selftest_height p;
      '(h3, p) ← nm_capi_hash (junk 4%nat) wb selftest_header selftest_height p;
      '(h4, p) ← nm_capi_hash (junk 5%nat) wa (flip_nonce selftest_header) selftest_height p;
      p ← nm_capi_destroy_ctx a p; p ← nm_capi_destroy_ctx b p;
      if negb (bool_decide (h1 = h2)) then Some (-3, set_error p "selftest: repeated hash on one context differs")
      else if negb (bool_decide (h1 = h3)) then Some (-4, set_error p "selftest: a second context hashes the same input differently")
      else if bool_decide (h1 = h4) then Some (-5, set_error p "selftest: flipping a nonce bit did not change the hash")
      else Some (0, p)
  | _, _ =>
      p ← nm_capi_destroy_ctx a p; p ← nm_capi_destroy_ctx b p; Some (-1, p)
  end.

#[local] Opaque nm_hash nm_build_dataset nm_derive_params nm_aes128_expand replicate dataset_of NM_DATASET_WORDS NM_SCRATCH_WORDS
  ctx_hash nm_ctx_free.

(** ** The invariant *)

(** The blocks of a worker. *)
Definition wptrs (i : nat) (w : Worker) : list ptr :=
  [c_prog (w_ctx w); c_taken (w_ctx w); b_ptr (w_scratch w); Some i].
Definition wblocks (i : nat) (w : Worker) : list nat := omap id (wptrs i w).

(** A worker on heap [h], where [d] is the block of the dataset. *)
Record worker_inv (h : heap) (large : gset nat) (d : ptr) (i : nat) (w : Worker) : Prop := {
  wi_nodup : NoDup (wblocks i w);
  wi_handle : is_Some (cells h !! i);
  wi_bufs : exists sc pg tk, load_words h (b_ptr (w_scratch w)) = Some sc /\ load_instrs h (c_prog (w_ctx w)) = Some pg /\
    load_bytes h (c_taken (w_ctx w)) = Some tk /\ bufs_ok (mk_bufs sc pg tk);
  wi_plain : forall b, b ∈ omap id [c_prog (w_ctx w); c_taken (w_ctx w); Some i] -> b ∉ large;
  wi_large : forall b, b_ptr (w_scratch w) = Some b -> b_huge (w_scratch w) = bool_decide (b ∈ large);
  wi_scratch : c_scratch (w_ctx w) = b_ptr (w_scratch w);
  wi_owns : c_owns_scratch (w_ctx w) = false /\ c_owns_dataset (w_ctx w) = false;
  wi_dataset : c_dataset (w_ctx w) = None \/ c_dataset (w_ctx w) = d;
  wi_aes : wf_key (c_aes (w_ctx w));
  wi_table : length (op_table (c_params (w_ctx w))) = 256%nat }.

Record proc_inv (p : proc) : Prop := {
  pi_wf : heap_wf (p_heap p);
  pi_large : forall b, b ∈ p_large p -> (b < next_id (p_heap p))%nat;
  pi_workers : forall i w, p_workers p !! i = Some w -> worker_inv (p_heap p) (p_large p) (b_ptr (g_datasetBuf p)) i w;
  pi_disjoint : forall i j w w' b, p_workers p !! i = Some w -> p_workers p !! j = Some w' ->
    b ∈ wblocks i w -> b ∈ wblocks j w' -> i = j;
  pi_dataset : forall d, b_ptr (g_datasetBuf p) = Some d ->
    (forall i w, p_workers p !! i = Some w -> d ∉ wblocks i w) /\ b_huge (g_datasetBuf p) = bool_decide (d ∈ p_large p) /\
    g_datasetHuge p = b_huge (g_datasetBuf p) /\
    exists l, cells (p_heap p) !! d = Some (CWords l) /\ Z.of_nat (length l) = NM_DATASET_WORDS /\
      (g_datasetValid p = true -> block (g_datasetKey p) /\ l = dataset_of (g_datasetKey p)) }.
(** The blocks a handle or a global leads to, and the live blocks none leads to. *)
Definition held (p : proc) (b : nat) : Prop :=
  b_ptr (g_datasetBuf p) = Some b \/ exists i w, p_workers p !! i = Some w /\ b ∈ wblocks i w.
Definition lost (p : proc) (b : nat) : Prop := is_Some (cells (p_heap p) !! b) /\ ~ held p b.
(** The globals. *)
Definition globals (p : proc) : Buffer * list Z * bool * bool := (g_datasetBuf p, g_datasetKey p, g_datasetValid p, g_datasetHuge p).

(** *** A worker only looks at its own blocks *)

(** Membership in an explicit list. *)
Ltac in_list := unfold wptrs; rewrite ?elem_of_cons; tauto.
Lemma elem_wptrs i w (b : nat) : b ∈ wblocks i w <-> Some b ∈ wptrs i w.
Proof.
  unfold wblocks. rewrite list_elem_of_omap. unfold id. split; [intros (x & Hx & ->); exact Hx|intros Hb; by exists (Some b)].
Qed.
Lemma worker_live h large d i w b : worker_inv h large d i w -> b ∈ wblocks i w -> is_Some (cells h !! b).
Proof.
  intros Hw Hb%elem_wptrs. destruct (wi_bufs _ _ _ _ _ Hw) as (sc & pg & tk & L1 & L2 & L3 & _).
  unfold wptrs in Hb. rewrite !elem_of_cons in Hb. destruct Hb as [E|[E|[E|[E|[]%not_elem_of_nil]]]].
  - apply load_instrs_inv in L2 as (b' & Eb & Hc). assert (b' = b) as -> by congruence. by eexists.
  - apply load_bytes_inv in L3 as (b' & Eb & Hc). assert (b' = b) as -> by congruence. by eexists.
  - apply load_words_inv in L1 as (b' & Eb & Hc). assert (b' = b) as -> by congruence. by eexists.
  - injection E as ->. by apply (wi_handle _ _ _ _ _ Hw).
Qed.
Lemma worker_inv_frame h large d h' large' d' i w :
  worker_inv h large d i w -> (d = None \/ d' = d) ->
  (forall b, b ∈ wblocks i w -> cells h' !! b = cells h !! b /\ (b ∈ large' <-> b ∈ large)) ->
  worker_inv h' large' d' i w.
Proof.
  intros [H1 H2 H3 Hpl H4 H5 H6 H7 H8 H9] Hd Hs.
  assert (Hc : forall b, Some b ∈ wptrs i w -> cells h' !! b = cells h !! b) by (intros b Hb%elem_wptrs; by apply Hs).
  assert (Hl : forall q, q ∈ wptrs i w -> load h' q = load h q).
  { intros q Hq. apply load_same. intros b ->. by apply Hc. }
  constructor; try assumption.
  - rewrite Hc; [done|]. in_list.
  - unfold load_words, load_instrs, load_bytes in *. rewrite !Hl by in_list. exact H3.
  - intros b Hb. specialize (Hpl b Hb). rewrite list_elem_of_omap in Hb. destruct Hb as (q & Hq & Eq).
    assert (Hb : b ∈ wblocks i w) by (apply elem_wptrs; unfold id in Eq; subst q; revert Hq; in_list). destruct (Hs b Hb) as [_ ->]. done.
  - intros b Hb. rewrite (H4 b Hb). apply bool_decide_ext. symmetry. apply Hs, elem_wptrs. rewrite <-Hb. in_list.
  - destruct Hd as [-> | ->]; [left; by destruct H7|exact H7].
Qed.

(** *** Frames *)

Lemma held_live p b : proc_inv p -> held p b -> is_Some (cells (p_heap p) !! b).
Proof.
  intros Hp [Hd|(i & w & Hw & Hb)].
  - destruct (pi_dataset _ Hp b Hd) as (_ & _ & _ & l & Hl & _). by exists (CWords l).
  - exact (worker_live _ _ _ _ _ _ (pi_workers _ Hp i w Hw) Hb).
Qed.
(** What happens to blocks that are not held does not matter. *)
Lemma proc_inv_agrees p p' :
  proc_inv p -> p_workers p' = p_workers p -> globals p' = globals p -> heap_wf (p_heap p') ->
  (forall b, b ∈ p_large p' -> (b < next_id (p_heap p'))%nat) ->
  (forall b, held p b -> cells (p_heap p') !! b = cells (p_heap p) !! b /\ (b ∈ p_large p' <-> b ∈ p_large p)) ->
  proc_inv p'.
Proof.
  intros [H1 H2 H3 H4 H5] Ew Eg Hwf Hla Hs. injection Eg as Eb Ek Ev Eh. constructor; rewrite ?Ew, ?Eb, ?Ek, ?Ev, ?Eh; try assumption.
  - intros i w Hw. apply (worker_inv_frame _ _ _ _ _ _ i w (H3 i w Hw)); [by right|]. intros b Hb. apply Hs. right. eauto.
  - intros d Hd. destruct (H5 d Hd) as (K1 & K2 & K3 & l & K4 & K5). destruct (Hs d (or_introl Hd)) as [Ec El].
    split_and!; [done|rewrite K2; apply bool_decide_ext; by symmetry|done|]. exists l. by rewrite Ec.
Qed.
(** A call that changes one worker and the contents of its blocks. *)
Lemma proc_inv_worker p p' i w w' :
  proc_inv p -> p_workers p !! i = Some w -> p_workers p' = <[i := w']> (p_workers p) -> wblocks i w' = wblocks i w ->
  worker_inv (p_heap p') (p_large p') (b_ptr (g_datasetBuf p)) i w' ->
  globals p' = globals p -> p_large p' = p_large p -> next_id (p_heap p') = next_id (p_heap p) ->
  (forall b, b ∉ wblocks i w -> cells (p_heap p') !! b = cells (p_heap p) !! b) ->
  proc_inv p' /\ (forall b, lost p' b <-> lost p b).
Proof.
  intros Hp Hw Ew Ewb Hwi Eg El En Hs. pose proof Hp as [H1 H2 H3 H4 H5]. injection Eg as Eb Ek Ev Eh.
  assert (Hlv : forall b, is_Some (cells (p_heap p') !! b) <-> is_Some (cells (p_heap p) !! b)).
  { intros b. destruct (decide (b ∈ wblocks i w)) as [Hb|Hb]; [|by rewrite Hs].
    split; intros _; [exact (worker_live _ _ _ _ _ _ (H3 i w Hw) Hb)|]. rewrite <-Ewb in Hb. exact (worker_live _ _ _ _ _ _ Hwi Hb). }
  assert (Hws : forall j x, p_workers p' !! j = Some x -> exists y, p_workers p !! j = Some y /\ wblocks j x = wblocks j y).
  { intros j x. rewrite Ew. intros [[<- <-]|[_ Hx]]%lookup_insert_Some; eauto. }
  assert (Hws' : forall j x, p_workers p !! j = Some x -> exists y, p_workers p' !! j = Some y /\ wblocks j y = wblocks j x).
  { intros j x Hx. rewrite Ew. destruct (decide (i = j)) as [<-|Hne]; [|rewrite lookup_insert_ne by done; eauto].
    rewrite lookup_insert_eq. simplify_eq. eauto. }
  assert (Hh : forall b, held p' b <-> held p b).
  { intros b. unfold held. rewrite Eb. split; (intros [Hd|(j & x & Hx & Hb)]; [by left|right]).
    - destruct (Hws j x Hx) as (y & Hy & E). rewrite E in Hb. eauto.
    - destruct (Hws' j x Hx) as (y & Hy & E). rewrite <-E in Hb. eauto. }
  split; [|intros b; unfold lost; by rewrite Hlv, Hh].
  constructor.
  - intros b Hb%Hlv%H1. lia.
  - intros b. rewrite El, En. apply H2.
  - intros j x. rewrite Ew, Eb. intros [[<- <-]|[Hne Hx]]%lookup_insert_Some; [done|].
    apply (worker_inv_frame _ _ _ _ _ _ j x (H3 j x Hx)); [by right|]. intros b Hb. rewrite El. split; [|done].
    apply Hs. intros Hb'. by apply Hne, (H4 i j w x b).
  - intros j k x y b Hx Hy Hbx Hby. destruct (Hws j x Hx) as (x' & Hx' & E1). destruct (Hws k y Hy) as (y' & Hy' & E2).
    rewrite E1 in Hbx. rewrite E2 in Hby. by apply (H4 j k x' y' b).
  - intros d. rewrite Eb, Ek, Ev, Eh, El. intros Hd. destruct (H5 d Hd) as (K1 & K2 & K3 & l & K4 & K5). split_and!; [|done|done|].
    + intros j x Hx. destruct (Hws j x Hx) as (y & Hy & ->). by apply K1.
    + exists l. rewrite Hs; [done|]. by apply (K1 i w).
Qed.

(** ** The reference: what a worker of epoch [seed] computes on the dataset of [key] *)

Definition junk0 : list Z := replicate 64 0.
Definition seed_params (seed : list Z) : nm_params := nm_derive_params junk0 seed zero_params.
Definition seed_aes (seed : list Z) : list Z := nm_aes128_expand (replicate 176 0) (aes_key (seed_params seed)).
Definition digest_with (seed key header : list Z) (height : Z) : list Z :=
  default [] (fst <$> nm_hash junk0 (seed_params seed) (seed_aes seed) (bufs1 0)
                        (if NM_DATASET_HEIGHT <=? height then dataset_of key else []) header height).
Definition nm_digest (seed header : list Z) (height : Z) : list Z :=
  digest_with seed (dataset_key (seed_params seed)) header height.
Definition seeded (w : Worker) (seed : list Z) : Prop :=
  c_params (w_ctx w) = seed_params seed /\ c_aes (w_ctx w) = seed_aes seed.

Lemma junk0_length : length junk0 = 64%nat.
Proof. apply length_replicate. Qed.
Lemma seed_params_ok seed : params_ok (seed_params seed).
Proof. apply derive_params_ok; [exact junk0_length|exact zero_params_table]. Qed.
Lemma seed_aes_ok seed : wf_key (seed_aes seed).
Proof. apply wf_expand, ok_aes_key, seed_params_ok. Qed.
Lemma set_params_seeded junk h large d i w seed :
  length junk = 64%nat -> worker_inv h large d i w -> seeded (mk_worker (nm_ctx_set_params junk (w_ctx w) seed) (w_scratch w)) seed.
Proof.
  intros Hj Hw. exact (seeded_aes junk junk0 (w_ctx w) zero_ctx seed Hj junk0_length (wi_aes _ _ _ _ _ Hw) wf_key_zero
    (wi_table _ _ _ _ _ Hw) zero_params_table).
Qed.

Lemma nodup4 (a b c i : nat) : NoDup [a; b; c; i] -> i <> a /\ i <> b /\ i <> c.
Proof. rewrite !list.NoDup_cons, !not_elem_of_cons. intuition congruence. Qed.

(** ** The operations *)

Lemma hash_step junk p i w seed header height :
  length junk = 64%nat -> proc_inv p -> p_workers p !! i = Some w -> seeded w seed ->
  (NM_DATASET_HEIGHT <= height -> g_datasetValid p = true /\ is_Some (c_dataset (w_ctx w))) ->
  exists p', nm_capi_hash junk i header height p = Some (digest_with seed (g_datasetKey p) header height, p') /\
    proc_inv p' /\ (forall b, lost p' b <-> lost p b) /\ p_workers p' = p_workers p /\ globals p' = globals p.
Proof.
  intros Hj Hp Hw [Ep Ea] Hd. pose proof (pi_workers _ Hp i w Hw) as Hi.
  destruct (wi_bufs _ _ _ _ _ Hi) as (sc & pg & tk & L1 & L2 & L3 & Hok). rewrite <-(wi_scratch _ _ _ _ _ Hi) in L1.
  set (ds := if NM_DATASET_HEIGHT <=? height then dataset_of (g_datasetKey p) else []).
  assert (Hds : (if NM_DATASET_HEIGHT <=? height then load_words (p_heap p) (c_dataset (w_ctx w)) else Some []) = Some ds
    /\ (NM_DATASET_HEIGHT <= height -> dataset_ok ds)).
  { unfold ds. destruct (Z.leb_spec NM_DATASET_HEIGHT height) as [Hh|Hh]; [|split; [reflexivity|lia]].
    destruct (Hd Hh) as [Hv [d Ed]]. destruct (wi_dataset _ _ _ _ _ Hi) as [E|E]; [congruence|]. rewrite Ed in E.
    destruct (pi_dataset _ Hp d (eq_sym E)) as (_ & _ & _ & l & Hl & _ & Hk). destruct (Hk Hv) as [Hb ->].
    split; [unfold load_words, load; rewrite Ed; cbn [mbind option_bind]; by rewrite Hl|intros _; by apply dataset_of_ok]. }
  destruct Hds as [Eds Hds].
  assert (Hpar : params_ok (c_params (w_ctx w))) by (rewrite Ep; apply seed_params_ok).
  destruct (ctx_hash_run junk (w_ctx w) (p_heap p) header height sc pg tk ds Hj Hpar (wi_aes _ _ _ _ _ Hi) L1 L2 L3 Hok Eds Hds)
    as (out & b1 & b2 & b3 & sc' & pg' & tk' & (E1 & E2 & E3) & (C1 & C2 & C3) & Eh & Hok' & _ & _ & Hind).
  specialize (Hind junk0 (bufs1 0) junk0_length (bufs1_ok 0)). rewrite Ep, Ea in Hind.
  assert (Eout : digest_with seed (g_datasetKey p) header height = out).
  { unfold digest_with. fold ds. rewrite Hind. exact eq_refl. }
  unfold nm_capi_hash. rewrite Hw, Eout. cbn [mbind option_bind]. rewrite Eh. cbn [mbind option_bind].
  eexists. split; [exact eq_refl|]. clear Eh Hind Eout.
  assert (N12 : b1 <> b2) by congruence. assert (N13 : b1 <> b3) by congruence. assert (N23 : b2 <> b3) by congruence.
  rewrite (wi_scratch _ _ _ _ _ Hi) in E1.
  assert (Hwb : wblocks i w = [b2; b3; b1; i]) by (unfold wblocks, wptrs; by rewrite E1, E2, E3).
  pose proof (wi_nodup _ _ _ _ _ Hi) as Hnd. rewrite Hwb in Hnd.
  destruct (nodup4 _ _ _ _ Hnd) as (N1 & N2 & N3).
  edestruct (proc_inv_worker p) as [Hinv Hlost]; [exact Hp|exact Hw| | | | | | | |split; [exact Hinv|split; [exact Hlost|split; reflexivity]]];
    cbn [p_heap p_large p_workers with_heap next_id]; try reflexivity.
  - symmetry. by apply insert_id.
  - destruct Hi as [I1 I2 I3 I3' I4 I5 I6 I7 I8 I9]. constructor; try assumption.
    + cbn [cells]. rewrite !lookup_insert_ne by congruence. exact I2.
    + exists sc', pg', tk'. unfold load_words, load_instrs, load_bytes, load. rewrite E1, E2, E3. cbn [mbind option_bind cells].
      rewrite (lookup_insert_ne _ b3 b1), (lookup_insert_ne _ b2 b1), lookup_insert_eq by congruence.
      rewrite (lookup_insert_ne _ b3 b2), !lookup_insert_eq by congruence. repeat (split; [exact eq_refl|]). exact Hok'.
  - intros b Hb. rewrite Hwb in Hb. rewrite !not_elem_of_cons in Hb. destruct Hb as (M2 & M3 & M1 & _).
    cbn [cells]. rewrite !lookup_insert_ne by congruence. exact eq_refl.
Qed.

Lemma digest_low seed key header height : height < NM_DATASET_HEIGHT -> digest_with seed key header height = nm_digest seed header height.
Proof. intros H. unfold nm_digest, digest_with. by rewrite (proj2 (Z.leb_gt _ _) H). Qed.

(** *** Buffers *)

Lemma alloc_buffer_grown x size p b p' :
  heap_wf (p_heap p) -> (forall b, b ∈ p_large p -> (b < next_id (p_heap p))%nat) -> alloc_buffer x size p = (b, p') ->
  grown (p_heap p) (p_heap p') (omap id [b_ptr b]) /\
  (forall q, b_ptr b = Some q -> cells (p_heap p') !! q = Some x /\ b_huge b = bool_decide (q ∈ p_large p')) /\
  (forall c, c ∉ omap id [b_ptr b] -> (c ∈ p_large p' <-> c ∈ p_large p)) /\
  (forall b, b ∈ p_large p' -> (b < next_id (p_heap p'))%nat) /\ p_workers p' = p_workers p /\ globals p' = globals p.
Proof.
  intros Hwf Hla. unfold alloc_buffer. destruct (malloc (p_heap p) x) as [q h] eqn:E1.
  destruct (malloc_grown _ _ _ _ Hwf E1) as [G1 C1]. destruct q as [q|].
  - intros [= <- <-]. cbn [b_ptr b_huge p_heap p_large p_workers]. pose proof G1 as (W & Hn & _ & _ & Hl & _).
    assert (Hq : (q < next_id h)%nat) by (apply W, Hl; cbn; by left).
    split_and!; [exact G1| | | |done|done].
    + intros q' [= <-]. split; [by apply C1|]. symmetry. apply bool_decide_eq_true_2. set_solver.
    + intros c Hc. cbn in Hc. rewrite not_elem_of_cons in Hc. rewrite elem_of_union, elem_of_singleton. tauto.
    + intros c [->%elem_of_singleton|Hc]%elem_of_union; [done|]. apply Hla in Hc. lia.
  - destruct (malloc h x) as [q h2] eqn:E2. pose proof (grown_wf _ _ _ G1) as W1. destruct (malloc_grown _ _ _ _ W1 E2) as [G2 C2].
    pose proof (grown_trans _ _ _ _ _ Hwf W1 G1 G2) as G. cbn [omap list_omap id app] in G.
    intros [= <- <-]. cbn [b_ptr b_huge p_heap p_large p_workers with_heap]. pose proof G as (W & Hn & _ & Hge & _).
    split_and!; [exact G| |done| |done|done].
    + intros q' ->. split; [by apply C2|]. symmetry. apply bool_decide_eq_false_2. intros Hq%Hla.
      specialize (Hge q' ltac:(cbn; by left)). lia.
    + intros c Hc%Hla. lia.
Qed.
(** A fresh block is not held. *)
Lemma fresh_not_held p h' bs b : proc_inv p -> grown (p_heap p) h' bs -> held p b -> b ∉ bs.
Proof. intros Hp (_ & _ & _ & Hge & _) Hb%(held_live _ _ Hp) Hbs%Hge. apply (pi_wf _ Hp) in Hb. lia. Qed.

(** *** The shared dataset *)

Lemma dataset_buffer_ok ds p :
  proc_inv p -> Z.of_nat (length ds) = NM_DATASET_WORDS ->
  let p' := dataset_buffer ds p in
  proc_inv p' /\ (forall b, lost p' b <-> lost p b) /\ p_workers p' = p_workers p /\
  (b_ptr (g_datasetBuf p') = None -> b_ptr (g_datasetBuf p) = None).
Proof.
  intros Hp Hl. unfold dataset_buffer. destruct (b_ptr (g_datasetBuf p)) as [d|] eqn:Ed; cbn [is_null]; [cbv zeta; split_and!; [exact Hp|done|done|congruence]|].
  destruct (alloc_buffer (CWords ds) NM_DATASET_BYTES p) as [b p1] eqn:E.
  destruct (alloc_buffer_grown _ _ _ _ _ (pi_wf _ Hp) (pi_large _ Hp) E) as (G & Hb & Hla & Hln & Ew & Eg).
  assert (Hh : forall c, held p c -> cells (p_heap p1) !! c = cells (p_heap p) !! c /\ (c ∈ p_large p1 <-> c ∈ p_large p)).
  { intros c Hc. pose proof (fresh_not_held p _ _ c Hp G Hc) as Hn. split; [by apply G|by apply Hla]. }
  assert (Hp1 : proc_inv p1) by exact (proc_inv_agrees p p1 Hp Ew Eg (grown_wf _ _ _ G) Hln Hh).
  injection Eg as Eb Ek Ev Ehg. pose proof Hp1 as [K1 K2 K3 K4 K5].
  assert (Hws : forall d' i w, p_workers p1 !! i = Some w -> worker_inv (p_heap p1) (p_large p1) d' i w).
  { intros d' i w Hw. apply (worker_inv_frame _ _ _ _ _ d' i w (K3 i w Hw)); [left; congruence|done]. }
  assert (Hlost : forall b', (is_Some (cells (p_heap p1) !! b') /\ (b' ∉ omap id [b_ptr b]) /\ ~ held p b') <-> lost p b').
  { intros b'. unfold lost. split.
    - intros (Hs & Hn & Hne). split; [|done]. destruct G as (_ & _ & _ & _ & _ & Hsame). by rewrite <-Hsame.
    - intros [Hs Hne]. assert (Hn : b' ∉ omap id [b_ptr b]).
      { intros Hb'. destruct G as (_ & _ & _ & Hge & _). apply Hge in Hb'. apply (pi_wf _ Hp) in Hs. lia. }
      split_and!; [|done|done]. destruct G as (_ & _ & _ & _ & _ & Hsame). by rewrite Hsame. }
  destruct (b_ptr b) as [q|] eqn:Eq; cbn [is_null].
  - destruct (Hb q eq_refl) as [Hc Hhuge]. assert (Hqn : forall i w, p_workers p1 !! i = Some w -> q ∉ wblocks i w).
    { intros i w Hw Hin. apply (fresh_not_held p _ _ q Hp G); [|cbn; by left]. right. exists i, w. by rewrite <-Ew. }
    split_and!; [|..|done]; [| |by rewrite <-Ew].
    + constructor; cbn [p_heap p_large p_workers with_dataset g_datasetBuf g_datasetKey g_datasetValid g_datasetHuge];
        [exact K1|exact K2|apply Hws|exact K4|].
      intros d. rewrite Eq. intros [= <-]. split_and!; [exact Hqn|exact Hhuge|done|]. by exists ds.
    + intros b'. rewrite <-Hlost. unfold lost, held.
      cbn [p_heap p_workers with_dataset g_datasetBuf]. rewrite Ew, Eq, Ed. cbn [omap list_omap id]. rewrite list_elem_of_singleton.
      clear. intuition congruence.
  - split_and!; [|..|done]; [| |by rewrite <-Ew].
    + constructor; cbn [p_heap p_large p_workers with_dataset g_datasetBuf g_datasetKey g_datasetValid g_datasetHuge];
        [exact K1|exact K2|apply Hws|exact K4|]. intros d. by rewrite Eq.
    + intros b'. rewrite <-Hlost. unfold lost, held. cbn [p_heap p_workers with_dataset g_datasetBuf]. rewrite Ew, Eq, Ed.
      cbn [omap list_omap id]. pose proof (not_elem_of_nil b') as Hn. clear - Hn. tauto.
Qed.

(** Rebuilding the dataset in place. *)
Lemma rebuild_ok p q l key :
  proc_inv p -> b_ptr (g_datasetBuf p) = Some q -> cells (p_heap p) !! q = Some (CWords l) -> block key ->
  let h := mk_heap (<[q := CWords (dataset_of key)]> (cells (p_heap p))) (next_id (p_heap p)) (malloc_ok (p_heap p)) in
  let p' := with_dataset (with_heap p h) (g_datasetBuf p) key true (g_datasetHuge p) in
  proc_inv p' /\ (forall b, lost p' b <-> lost p b).
Proof.
  intros Hp Hq Hc Hk h p'. pose proof Hp as [H1 H2 H3 H4 H5]. destruct (H5 q Hq) as (D1 & D2 & D3 & _).
  assert (Hlv : forall b, is_Some (cells h !! b) <-> is_Some (cells (p_heap p) !! b)).
  { intros b. unfold h. cbn [cells]. destruct (decide (b = q)) as [->|Hne]; [|by rewrite lookup_insert_ne].
    rewrite lookup_insert_eq, Hc. split; intros _; by eexists. }
  split; [|intros b; unfold lost; cbn [p' p_heap with_dataset with_heap]; by rewrite Hlv].
  constructor; cbn [p' p_heap p_large p_workers with_dataset with_heap g_datasetBuf g_datasetKey g_datasetValid g_datasetHuge];
    [| exact H2| |exact H4|].
  - intros b Hb%Hlv%H1. exact Hb.
  - intros i w Hw. apply (worker_inv_frame _ _ _ _ _ _ i w (H3 i w Hw)); [by right|]. intros b Hb. split; [|done].
    unfold h. cbn [cells]. apply lookup_insert_ne. intros <-. by apply (D1 i w).
  - intros d Hd. assert (d = q) as -> by congruence. split_and!; [exact D1|exact D2|exact D3|].
    exists (dataset_of key). unfold h. cbn [cells]. rewrite lookup_insert_eq. split; [exact eq_refl|].
    split; [by apply dataset_of_ok|done].
Qed.
Lemma shared_dataset_ok ds key p :
  proc_inv p -> block key -> Z.of_nat (length ds) = NM_DATASET_WORDS ->
  exists d p', shared_dataset ds key p = Some (d, p') /\ proc_inv p' /\ (forall b, lost p' b <-> lost p b) /\
    p_workers p' = p_workers p /\ b_ptr (g_datasetBuf p') = d /\
    match d with
    | Some _ => g_datasetKey p' = key /\ g_datasetValid p' = true
    | None => b_ptr (g_datasetBuf p) = None
    end.
Proof.
  intros Hp Hk Hl. destruct (dataset_buffer_ok ds p Hp Hl) as (Hp1 & Hlost & Ew & Hn). unfold shared_dataset.
  set (p1 := dataset_buffer ds p) in *. clearbody p1. cbv zeta. assert (Et : take 16 key = key) by (apply take_ge; destruct Hk; lia).
  rewrite Et. destruct (b_ptr (g_datasetBuf p1)) as [q|] eqn:Eq; cbn [is_null].
  2: { exists None, p1. split; [exact eq_refl|]. split_and!; [exact Hp1|exact Hlost|exact Ew|exact Eq|by apply Hn]. }
  destruct (negb (g_datasetValid p1) || negb (bool_decide (g_datasetKey p1 = key))) eqn:Hc.
  - destruct (pi_dataset _ Hp1 q Eq) as (_ & _ & _ & l & Ec & Hll & _).
    assert (El : load_words (p_heap p1) (Some q) = Some l) by (unfold load_words, load; cbn [mbind option_bind]; by rewrite Ec).
    rewrite El. cbn [mbind option_bind]. rewrite (build_dataset_of l key Hll Hk).
    rewrite (store_ok_block _ q (CWords l) (CWords (dataset_of key)) Ec). cbn [mbind option_bind].
    destruct (rebuild_ok p1 q l key Hp1 Eq Ec Hk) as [Hp2 Hlost2]. eexists _, _. split; [exact eq_refl|].
    split; [exact Hp2|]. split; [intros b; by rewrite Hlost2|]. split; [exact Ew|]. split; [exact Eq|]. split; exact eq_refl.
  - apply orb_false_iff in Hc as [Hv He]. apply negb_false_iff in Hv, He. apply bool_decide_eq_true in He.
    exists (Some q), p1. split; [exact eq_refl|]. split_and!; assumption.
Qed.

(** *** Seeding *)

Lemma set_seed_step junk ds p i w seed :
  length junk = 64%nat -> Z.of_nat (length ds) = NM_DATASET_WORDS -> proc_inv p -> p_workers p !! i = Some w ->
  exists rc p' w', nm_capi_set_seed junk ds i seed p = Some (rc, p') /\ proc_inv p' /\ (forall b, lost p' b <-> lost p b) /\
    p_workers p' = <[i := w']> (p_workers p) /\ seeded w' seed /\ wblocks i w' = wblocks i w /\
    ((rc = 0 /\ g_datasetValid p' = true /\ g_datasetKey p' = dataset_key (seed_params seed) /\ is_Some (c_dataset (w_ctx w'))) \/
     (rc = -1 /\ b_ptr (g_datasetBuf p) = None)).
Proof.
  intros Hj Hl Hp Hw. pose proof (pi_workers _ Hp i w Hw) as Hi.
  pose proof (set_params_seeded junk _ _ _ i w seed Hj Hi) as Hs.
  unfold nm_capi_set_seed. cbn [p_workers set_error]. rewrite Hw. cbn [mbind option_bind].
  set (c1 := nm_ctx_set_params junk (w_ctx w) seed) in *. set (w1 := mk_worker c1 (w_scratch w)) in *.
  set (p1 := with_workers _ _).
  assert (Ht : length (op_table (c_params c1)) = 256%nat) by exact (proj1 (ok_op_table _ (derive_params_ok junk seed _ Hj (wi_table _ _ _ _ _ Hi)))).
  assert (Hi1 : worker_inv (p_heap p) (p_large p) (b_ptr (g_datasetBuf p)) i w1).
  { destruct Hi as [I1 I2 I3 I3' I4 I5 I6 I7 I8 I9]. constructor; try assumption.
    cbn [w1 w_ctx]. destruct Hs as [_ Ea]. cbn [w1 w_ctx] in Ea. rewrite Ea. apply seed_aes_ok. }
  destruct (proc_inv_worker p p1 i w w1 Hp Hw) as [Hp1 Hlost1];
    [exact eq_refl|exact eq_refl|exact Hi1|exact eq_refl|exact eq_refl|exact eq_refl|intros; exact eq_refl|].
  destruct Hs as [Ep Ea]. cbn [w1 w_ctx] in Ep, Ea. rewrite Ep.
  assert (Hk : block (dataset_key (seed_params seed))) by apply ok_dataset_key, seed_params_ok.
  destruct (shared_dataset_ok ds _ p1 Hp1 Hk Hl) as (d & p2 & Esd & Hp2 & Hlost2 & Ew2 & Ed & Hd). rewrite Esd. cbn [mbind option_bind].
  assert (Hw2 : p_workers p2 !! i = Some w1) by (rewrite Ew2; apply lookup_insert_eq).
  destruct d as [q|]; cbn [is_null].
  2: { exists (-1), (set_error p2 "out of memory allocating the 64 MiB NeuroMorph dataset"), w1. split; [exact eq_refl|].
       split; [by destruct Hp2; constructor|]. split; [intros b; rewrite <-Hlost1; apply Hlost2|].
       split; [exact Ew2|]. split; [by split|]. split; [exact eq_refl|]. right. split; [exact eq_refl|]. exact Hd. }
  set (c3 := nm_ctx_attach_dataset c1 (Some q) _). set (w3 := mk_worker c3 (w_scratch w)). set (p3 := with_workers p2 _).
  assert (Hi3 : worker_inv (p_heap p2) (p_large p2) (b_ptr (g_datasetBuf p2)) i w3).
  { destruct (pi_workers _ Hp2 i w1 Hw2) as [I1 I2 I3 I3' I4 I5 I6 I7 I8 I9]. constructor; try assumption. right. by rewrite Ed. }
  destruct (proc_inv_worker p2 p3 i w1 w3 Hp2 Hw2) as [Hp3 Hlost3];
    [exact eq_refl|exact eq_refl|exact Hi3|exact eq_refl|exact eq_refl|exact eq_refl|intros; exact eq_refl|].
  exists 0, p3, w3. split; [exact eq_refl|]. split; [exact Hp3|]. split; [intros b; rewrite Hlost3, Hlost2; apply Hlost1|].
  split; [|split; [split; [exact Ep|exact Ea]|split; [exact eq_refl|]]].
  - cbn [p3 p_workers with_workers]. rewrite Ew2. cbn [p1 p_workers with_workers set_error]. apply insert_insert_eq.
  - left. destruct Hd as [K V]. split; [exact eq_refl|]. split; [exact V|]. split; [exact K|]. by exists q.
Qed.

(** *** Creation and destruction *)

Lemma free_live h b : is_Some (cells h !! b) -> free h (Some b) = Some (mk_heap (delete b (cells h)) (next_id h) (malloc_ok h)).
Proof. intros [x Hx]. cbn [free]. by rewrite Hx. Qed.
Lemma delete_wf h b : heap_wf h -> heap_wf (mk_heap (delete b (cells h)) (next_id h) (malloc_ok h)).
Proof. intros Hw c [x Hx]. cbn [cells] in Hx. apply lookup_delete_Some in Hx as [_ Hx]. apply Hw. by exists x. Qed.
Lemma grown_kept h h' bs b : grown h h' bs -> (b < next_id h)%nat -> cells h' !! b = cells h !! b.
Proof. intros (_ & _ & _ & Hge & _ & Hs) Hb. apply Hs. intros Hin%Hge. lia. Qed.

(** Calls that only touch blocks the process did not have. *)
Lemma proc_inv_kept p p' :
  proc_inv p -> p_workers p' = p_workers p -> globals p' = globals p -> heap_wf (p_heap p') ->
  (forall b, b ∈ p_large p' -> (b < next_id (p_heap p'))%nat) ->
  (forall b, (b < next_id (p_heap p))%nat -> cells (p_heap p') !! b = cells (p_heap p) !! b /\ (b ∈ p_large p' <-> b ∈ p_large p)) ->
  proc_inv p' /\ (forall b, lost p b -> lost p' b).
Proof.
  intros Hp Ew Eg Hwf Hla Hk. split.
  - apply (proc_inv_agrees p p' Hp Ew Eg Hwf Hla). intros b Hb. apply Hk, (pi_wf _ Hp), (held_live _ _ Hp Hb).
  - injection Eg as Eb _ _ _. intros b [Hl Hh]. split; [|unfold held in *; by rewrite Ew, Eb].
    destruct (Hk b (pi_wf _ Hp b Hl)) as [-> _]. exact Hl.
Qed.
Lemma proc_inv_remove p i : proc_inv p -> proc_inv (with_workers p (delete i (p_workers p))).
Proof.
  intros [H1 H2 H3 H4 H5].
  constructor; cbn [p_heap p_large p_workers with_workers g_datasetBuf g_datasetKey g_datasetValid g_datasetHuge]; try assumption.
  - intros j w [_ Hw]%lookup_delete_Some. by apply H3.
  - intros j k w w' b [_ Hw]%lookup_delete_Some [_ Hw']%lookup_delete_Some. by apply H4.
  - intros d Hd. destruct (H5 d Hd) as (D1 & D2). split; [|exact D2]. intros j w [_ Hw]%lookup_delete_Some. by apply D1.
Qed.

Lemma free_two h a b c :
  a <> b -> is_Some (cells h !! a) -> is_Some (cells h !! b) -> c_owns_scratch c = false -> c_owns_dataset c = false ->
  c_prog c = Some a -> c_taken c = Some b ->
  nm_ctx_free h c = Some (zero_ctx, mk_heap (delete b (delete a (cells h))) (next_id h) (malloc_ok h)).
Proof.
  intros Hne Ha Hb E1 E2 E3 E4. rewrite nm_ctx_free_list. unfold to_free. rewrite E1, E2, E3, E4. cbn [app free_list].
  rewrite free_live by done. cbn [mbind option_bind]. rewrite free_live by (cbn [cells]; by rewrite lookup_delete_ne). done.
Qed.
Lemma free_buffer_live b q p :
  b_ptr b = Some q -> b_huge b = bool_decide (q ∈ p_large p) -> is_Some (cells (p_heap p) !! q) ->
  exists large', free_buffer b p
    = Some (mk_buffer None (b_size b) (b_huge b),
            mk_proc (mk_heap (delete q (cells (p_heap p))) (next_id (p_heap p)) (malloc_ok (p_heap p))) large' (p_workers p)
              (g_datasetBuf p) (g_datasetKey p) (g_datasetValid p) (g_datasetHuge p) (g_error p)) /\
    (forall c, c <> q -> (c ∈ large' <-> c ∈ p_large p)) /\ (forall c, c ∈ large' -> c ∈ p_large p).
Proof.
  intros Eq Eh Hl. unfold free_buffer. rewrite Eq, Eh, (free_live _ _ Hl). case_bool_decide.
  - eexists. split; [exact eq_refl|]. split; intros c; rewrite elem_of_difference, elem_of_singleton; tauto.
  - eexists. split; [exact eq_refl|]. done.
Qed.

Lemma destroy_step p i w :
  proc_inv p -> p_workers p !! i = Some w ->
  exists p', nm_capi_destroy_ctx (Some i) p = Some p' /\ proc_inv p' /\ (forall b, lost p' b <-> lost p b) /\
    p_workers p' = delete i (p_workers p) /\ globals p' = globals p /\
    (forall b, b ∉ wblocks i w -> cells (p_heap p') !! b = cells (p_heap p) !! b) /\ next_id (p_heap p') = next_id (p_heap p).
Proof.
  intros Hp Hw. pose proof (pi_workers _ Hp i w Hw) as Hi. destruct (wi_bufs _ _ _ _ _ Hi) as (sc & pg & tk & L1 & L2 & L3 & _).
  destruct (load_words_inv _ _ _ L1) as (b1 & E1 & C1). destruct (load_instrs_inv _ _ _ L2) as (b2 & E2 & C2).
  destruct (load_bytes_inv _ _ _ L3) as (b3 & E3 & C3). destruct (wi_handle _ _ _ _ _ Hi) as [ci Ci].
  assert (Hwb : wblocks i w = [b2; b3; b1; i]) by (unfold wblocks, wptrs; by rewrite E1, E2, E3).
  pose proof (wi_nodup _ _ _ _ _ Hi) as Hnd. rewrite Hwb in Hnd. destruct (nodup4 _ _ _ _ Hnd) as (N1 & N2 & N3).
  assert (M12 : b1 <> b2) by congruence. assert (M13 : b1 <> b3) by congruence. assert (M23 : b2 <> b3) by congruence.
  destruct (wi_owns _ _ _ _ _ Hi) as [O1 O2]. unfold nm_capi_destroy_ctx. rewrite Hw. cbn [mbind option_bind].
  rewrite (free_two _ b2 b3) by (assumption || by eexists). cbn [mbind option_bind].
  destruct (free_buffer_live (w_scratch w) b1 (with_heap p (mk_heap (delete b3 (delete b2 (cells (p_heap p)))) (next_id (p_heap p)) (malloc_ok (p_heap p)))) E1)
    as (large' & Ef & Hla & Hsub).
  { exact (wi_large _ _ _ _ _ Hi b1 E1). }
  { cbn [with_heap p_heap cells]. rewrite !lookup_delete_ne by congruence. by eexists. }
  rewrite Ef. cbn [mbind option_bind p_heap with_heap p_workers cells next_id malloc_ok].
  rewrite free_live by (cbn [cells]; rewrite !lookup_delete_ne by congruence; by eexists). cbn [mbind option_bind cells next_id malloc_ok].
  eexists. split; [exact eq_refl|].
  set (p' := with_workers _ _).
  assert (Hc : forall b, b ∉ wblocks i w -> cells (p_heap p') !! b = cells (p_heap p) !! b).
  { intros b. rewrite Hwb, !not_elem_of_cons. intros (? & ? & ? & ? & _). unfold p'. cbn [p_heap with_workers with_heap cells].
    by rewrite !lookup_delete_ne by congruence. }
  assert (Hd : forall b, b ∈ wblocks i w -> cells (p_heap p') !! b = None).
  { intros b. rewrite Hwb, !elem_of_cons. unfold p'. cbn [p_heap with_workers with_heap cells].
    intros [->|[->|[->|[->|[]%not_elem_of_nil]]]]; rewrite ?lookup_delete_eq; repeat (rewrite lookup_delete_ne, ?lookup_delete_eq by congruence); done. }
  assert (Hho : forall b, held p' b <-> held p b /\ b ∉ wblocks i w).
  { intros b. unfold held. cbn [p' p_workers with_workers g_datasetBuf]. split.
    - intros [Hb|(j & x & [Hne Hx]%lookup_delete_Some & Hb)].
      + split; [by left|]. by apply (pi_dataset _ Hp b Hb).
      + split; [eauto|]. intros Hb'. by apply Hne, (pi_disjoint _ Hp i j w x b).
    - intros [[Hb|(j & x & Hx & Hb)] Hn]; [by left|]. right. exists j, x. split; [|done]. rewrite lookup_delete_ne; [done|]. intros <-. congruence. }
  split; [|split; [|split; [|split; [|split]]]]; [|..|exact Hc|exact eq_refl]; [| |exact eq_refl|exact eq_refl].
  - apply (proc_inv_agrees _ p' (proc_inv_remove p i Hp)); [exact eq_refl|exact eq_refl| | |].
    + unfold p'. cbn [p_heap with_workers with_heap]. apply (delete_wf (mk_heap _ _ _)), (delete_wf (mk_heap _ _ _)), (delete_wf (mk_heap _ _ _)), (delete_wf _ _ (pi_wf _ Hp)).
    + intros b Hb. apply (pi_large _ Hp). by apply Hsub.
    + intros b Hb. assert (Hn : b ∉ wblocks i w) by (apply Hho; exact Hb). split; [by apply Hc|]. apply Hla.
      rewrite Hwb, !not_elem_of_cons in Hn. tauto.
  - intros b. unfold lost. rewrite Hho. destruct (decide (b ∈ wblocks i w)) as [Hb|Hb].
    + rewrite (Hd b Hb). split; [intros [[? ?] _]; done|]. intros [_ Hn]. exfalso. apply Hn. right. eauto.
    + rewrite (Hc b Hb). tauto.
Qed.

(** Adding a worker made of blocks nobody holds. *)
Lemma proc_inv_add p i w :
  proc_inv p -> p_workers p !! i = None -> worker_inv (p_heap p) (p_large p) (b_ptr (g_datasetBuf p)) i w ->
  (forall b, b ∈ wblocks i w -> ~ held p b) ->
  proc_inv (with_workers p (<[i := w]> (p_workers p))) /\
  (forall b, lost (with_workers p (<[i := w]> (p_workers p))) b <-> lost p b /\ b ∉ wblocks i w).
Proof.
  intros [H1 H2 H3 H4 H5] Hn Hi Hh. split.
  - constructor; cbn [p_heap p_large p_workers with_workers g_datasetBuf g_datasetKey g_datasetValid g_datasetHuge]; try assumption.
    + intros j x [[<- <-]|[_ Hx]]%lookup_insert_Some; [exact Hi|by apply H3].
    + intros j k x y b [[<- <-]|[Nj Hx]]%lookup_insert_Some [[<- <-]|[Nk Hy]]%lookup_insert_Some Hbx Hby; [done| | |by apply (H4 j k x y b)].
      * exfalso. apply (Hh b Hbx). right. eauto.
      * exfalso. apply (Hh b Hby). right. eauto.
    + intros d Hd. destruct (H5 d Hd) as (D1 & D2). split; [|exact D2].
      intros j x [[<- <-]|[_ Hx]]%lookup_insert_Some; [|by apply (D1 j)]. intros Hb. apply (Hh d Hb). by left.
  - intros b. unfold lost, held. cbn [p_heap p_workers with_workers g_datasetBuf]. split.
    + intros [Hl Hc]. split; [split; [done|]|].
      * intros [Hb|(j & x & Hx & Hb)]; apply Hc; [by left|right]. exists j, x. split; [|done]. rewrite lookup_insert_ne; [done|congruence].
      * intros Hb. apply Hc. right. exists i, w. by rewrite lookup_insert_eq.
    + intros [[Hl Hc] Hb]. split; [done|]. intros [Hd|(j & x & [[<- <-]|[_ Hx]]%lookup_insert_Some & Hbx)]; [by apply Hc; left|done|].
      apply Hc. right. eauto.
Qed.
(** What the process does not have, nobody holds. *)
Lemma held_bound p b : proc_inv p -> held p b -> (b < next_id (p_heap p))%nat.
Proof. intros Hp Hb. apply (pi_wf _ Hp), (held_live _ _ Hp Hb). Qed.

(** What a creation that returns [r] leaves. *)
Definition created (p : proc) (r : ptr) (p' : proc) : Prop :=
  proc_inv p' /\ globals p' = globals p /\
  (forall b, (b < next_id (p_heap p))%nat -> cells (p_heap p') !! b = cells (p_heap p) !! b) /\
  match r with
  | Some i => exists w, p_workers p !! i = None /\ p_workers p' = <[i := w]> (p_workers p) /\ c_dataset (w_ctx w) = None /\
      (forall b, lost p' b <-> lost p b)
  | None => p_workers p' = p_workers p /\ (forall b, lost p b -> lost p' b)
  end.
Lemma created_none p p' :
  proc_inv p -> p_workers p' = p_workers p -> globals p' = globals p -> heap_wf (p_heap p') ->
  (forall b, b ∈ p_large p' -> (b < next_id (p_heap p'))%nat) ->
  (forall b, (b < next_id (p_heap p))%nat -> cells (p_heap p') !! b = cells (p_heap p) !! b /\ (b ∈ p_large p' <-> b ∈ p_large p)) ->
  created p None p'.
Proof.
  intros Hp Ew Eg Hwf Hla Hk. destruct (proc_inv_kept p p' Hp Ew Eg Hwf Hla Hk) as [Hp' Hl].
  split_and!; [exact Hp'|exact Eg|intros b Hb; by apply Hk|exact Ew|exact Hl].
Qed.

Lemma fresh_worker h large d bw b2 b3 bb c b mem sc :
  NoDup [b2; b3; bb; bw] -> is_Some (cells h !! bw) -> cells h !! b2 = Some (CInstrs (b_prog mem)) ->
  cells h !! b3 = Some (CBytes (b_taken mem)) -> cells h !! bb = Some (CWords sc) ->
  bufs_ok mem -> Z.of_nat (length sc) = NM_SCRATCH_WORDS ->
  c_prog c = Some b2 -> c_taken c = Some b3 -> c_scratch c = Some bb -> c_owns_scratch c = false -> c_owns_dataset c = false ->
  c_dataset c = None -> c_params c = zero_params -> c_aes c = replicate 176 0 -> b_ptr b = Some bb ->
  b_huge b = bool_decide (bb ∈ large) -> (forall x, x ∈ [b2; b3; bw] -> x ∉ large) ->
  worker_inv h large d bw (mk_worker c b).
Proof.
  intros Hnd Hw C2 C3 Cb Hm Hsc E2 E3 E1 O1 O2 Ed Epar Eaes Eb Eh Hla. constructor; cbn [w_ctx w_scratch].
  - unfold wblocks, wptrs. cbn [w_ctx w_scratch]. rewrite E2, E3, Eb. exact Hnd.
  - exact Hw.
  - exists sc, (b_prog mem), (b_taken mem). unfold load_words, load_instrs, load_bytes, load. rewrite Eb, E2, E3. cbn [mbind option_bind].
    rewrite C2, C3, Cb. repeat (split; [exact eq_refl|]). destruct Hm as [_ K2 K3]. by constructor.
  - rewrite E2, E3. exact Hla.
  - intros x Hx. assert (x = bb) as -> by congruence. exact Eh.
  - congruence.
  - by split.
  - by left.
  - rewrite Eaes. exact wf_key_zero.
  - rewrite Epar. exact zero_params_table.
Qed.
(** The worker of a successful creation: the heap has grown by its four blocks and
    the scratchpad [b1] that was given back. *)
Lemma created_some p p' h bw b1 b2 b3 bb c b mem sc :
  proc_inv p -> bufs_ok mem -> Z.of_nat (length sc) = NM_SCRATCH_WORDS ->
  grown (p_heap p) h ([bw] ++ [b1; b2; b3] ++ [bb]) ->
  cells h !! b2 = Some (CInstrs (b_prog mem)) -> cells h !! b3 = Some (CBytes (b_taken mem)) -> cells h !! bb = Some (CWords sc) ->
  c_prog c = Some b2 -> c_taken c = Some b3 -> c_scratch c = Some bb -> c_owns_scratch c = false -> c_owns_dataset c = false ->
  c_dataset c = None -> c_params c = zero_params -> c_aes c = replicate 176 0 -> b_ptr b = Some bb ->
  b_huge b = bool_decide (bb ∈ p_large p') -> (forall x, x <> bb -> (x ∈ p_large p' <-> x ∈ p_large p)) ->
  (forall x, x ∈ p_large p' -> (x < next_id h)%nat) -> globals p' = globals p ->
  p_workers p' = <[bw := mk_worker c b]> (p_workers p) ->
  p_heap p' = mk_heap (delete b1 (cells h)) (next_id h) (malloc_ok h) ->
  created p (Some bw) p'.
Proof.
  intros Hp Hm Hsc G C2 C3 Cb E2 E3 E1 O1 O2 Ed Epar Eaes Eb Eh Hla Hln Eg Ew Ehp.
  pose proof G as (Wh & Hn & Hnd & Hge & Hlv & Hs). cbn [app] in *. set (w := mk_worker c b) in *.
  assert (Hwb : wblocks bw w = [b2; b3; bb; bw]) by (unfold wblocks, wptrs, w; cbn [w_ctx w_scratch]; by rewrite E2, E3, Eb).
  assert (Hfresh : forall x, x ∈ [bw; b1; b2; b3; bb] -> ~ held p x) by (intros x Hx Hh%(held_bound _ _ Hp); apply Hge in Hx; lia).
  repeat setoid_rewrite list.NoDup_cons in Hnd. repeat setoid_rewrite not_elem_of_cons in Hnd.
  destruct Hnd as ((N1 & N2 & N3 & N4 & _) & (N5 & N6 & N7 & _) & (N8 & N9 & _) & (N10 & _) & _ & _).
  set (p1 := with_workers p' (p_workers p)).
  assert (Hcp : forall x, x <> b1 -> cells (p_heap p') !! x = cells h !! x) by (intros x Hx; rewrite Ehp; cbn [cells]; by rewrite lookup_delete_ne).
  assert (Hin : forall x, x ∈ [bw; b1; b2; b3; bb] -> (next_id (p_heap p) <= x)%nat) by exact Hge.
  assert (Hkept : forall x, (x < next_id (p_heap p))%nat -> cells (p_heap p') !! x = cells (p_heap p) !! x).
  { intros x Hx. rewrite Hcp; [apply (grown_kept _ _ _ _ G Hx)|]. intros ->. specialize (Hin b1 ltac:(in_list)). lia. }
  assert (Hp1 : proc_inv p1 /\ (forall x, lost p x -> lost p1 x)).
  { apply (proc_inv_kept p p1 Hp); cbn [p1 p_workers p_heap p_large with_workers]; [exact eq_refl|exact Eg| | |].
    - rewrite Ehp. by apply delete_wf.
    - rewrite Ehp. exact Hln.
    - intros x Hx. split; [by apply Hkept|]. apply Hla. intros ->. specialize (Hin bb ltac:(in_list)). lia. }
  destruct Hp1 as [Hp1 Hl1].
  assert (Hheld : forall x, held p1 x <-> held p x) by (intros x; injection Eg as Egb _ _ _; unfold held; cbn [p1 p_workers with_workers g_datasetBuf]; by rewrite Egb).
  assert (Hnone : p_workers p !! bw = None).
  { destruct (p_workers p !! bw) as [x|] eqn:Ex; [|done]. exfalso. apply (Hfresh bw); [in_list|]. right. exists bw, x. split; [done|].
    apply elem_wptrs. in_list. }
  assert (Hi : worker_inv (p_heap p1) (p_large p1) (b_ptr (g_datasetBuf p1)) bw w).
  { apply (fresh_worker _ _ _ bw b2 b3 bb c b mem sc); cbn [p1 p_heap p_large with_workers]; try assumption.
    - repeat rewrite list.NoDup_cons. repeat rewrite not_elem_of_cons. pose proof (not_elem_of_nil (A := nat)) as Hnil.
      split_and!; try congruence; try apply Hnil. constructor.
    - rewrite Hcp by congruence. apply Hlv. in_list.
    - by rewrite Hcp by congruence.
    - by rewrite Hcp by congruence.
    - by rewrite Hcp by congruence.
    - intros x Hx. rewrite !elem_of_cons in Hx.
      assert (Hxb : x <> bb) by (destruct Hx as [->|[->|[->|[]%not_elem_of_nil]]]; congruence). rewrite Hla by done.
      intros Hxl%(pi_large _ Hp). specialize (Hin x). rewrite !elem_of_cons in Hin. specialize (Hin ltac:(tauto)). lia. }
  destruct (proc_inv_add p1 bw w Hp1 Hnone Hi) as [Hp2 Hl2].
  { intros x. rewrite Hwb, Hheld. intros Hx. apply Hfresh. rewrite !elem_of_cons in *. tauto. }
  assert (Ep2 : p' = with_workers p1 (<[bw := w]> (p_workers p1))) by (cbn [p1 p_workers with_workers]; rewrite <-Ew; by destruct p').
  rewrite <-Ep2 in Hp2, Hl2.
  split; [exact Hp2|]. split; [exact Eg|]. split; [exact Hkept|]. exists w. split; [done|]. split; [exact Ew|]. split; [exact Ed|].
  intros x. rewrite Hl2. split.
  - intros [[Hx Hh] Hnx]. cbn [p1 p_heap with_workers] in Hx. rewrite Hheld in Hh. split; [|done].
    destruct (decide (x = b1)) as [->|Hne]; [rewrite Ehp in Hx; cbn [cells] in Hx; rewrite lookup_delete_eq in Hx; by destruct Hx|].
    rewrite Hcp in Hx by done. rewrite Hs in Hx; [done|]. rewrite Hwb in Hnx. rewrite !not_elem_of_cons in *. tauto.
  - intros Hx. split; [by apply Hl1|]. rewrite Hwb. intros Hb. destruct Hx as [Hx _]. apply (pi_wf _ Hp) in Hx.
    specialize (Hin x). rewrite !elem_of_cons in *. specialize (Hin ltac:(tauto)). lia.
Qed.

(** The branch without a scratchpad: the context and the [Worker] block are released. *)
Lemma create_no_buffer p p3 c bw bs msg :
  proc_inv p -> p_workers p3 = p_workers p -> globals p3 = globals p -> (forall b, b ∈ p_large p3 -> (b < next_id (p_heap p3))%nat) ->
  owned c = bs -> grown (p_heap p) (p_heap p3) ([bw] ++ bs ++ []) -> (forall x, x ∈ p_large p3 <-> x ∈ p_large p) ->
  exists p', ('(_, h) ← nm_ctx_free (p_heap p3) c; h ← free h (Some bw); Some (None, set_error (with_heap p3 h) msg)) = Some (None : ptr, p') /\
    created p None p'.
Proof.
  intros Hp Ew Eg Hln <- G Hla. rewrite app_nil_r in G. pose proof G as (_ & _ & Hnd & Hge & Hlv & _). cbn [app] in Hnd, Hge, Hlv.
  rewrite list.NoDup_cons in Hnd. destruct Hnd as [Hnb Hnd].
  destruct (free_list_spec (p_heap p3) (to_free c) Hnd) as (h4 & Hf & Hc4 & Hn4 & Hm4); [intros x Hx; apply Hlv; by right|].
  fold (owned c) in Hc4. rewrite nm_ctx_free_list, Hf. cbn [fmap option_fmap option_map mbind option_bind].
  assert (Hl4 : is_Some (cells h4 !! bw)) by (rewrite Hc4, decide_False by exact Hnb; apply Hlv; by left).
  rewrite (free_live _ _ Hl4). cbn [mbind option_bind]. eexists. split; [exact eq_refl|].
  assert (W4 : heap_wf h4).
  { intros x. rewrite Hc4, Hn4. case_decide; [by intros []|]. apply (grown_wf _ _ _ G). }
  apply (created_none p); [exact Hp|exact Ew|exact Eg|by apply delete_wf| |]; cbn [p_heap p_large set_error with_heap next_id cells].
  - intros x Hx%Hln. lia.
  - intros x Hx. assert (x ∉ bw :: owned c) as Hnx by (intros Hin%Hge; lia). rewrite not_elem_of_cons in Hnx. destruct Hnx as [Hx1 Hx2].
    rewrite lookup_delete_ne by congruence. rewrite Hc4, decide_False by exact Hx2. split; [by apply (grown_kept _ _ _ _ G)|apply Hla].
Qed.

Lemma create_step mem sc p :
  proc_inv p -> bufs_ok mem -> Z.of_nat (length sc) = NM_SCRATCH_WORDS ->
  exists r p', nm_capi_create_ctx mem sc p = Some (r, p') /\ created p r p'.
Proof.
  intros Hp Hm Hsc. unfold nm_capi_create_ctx. cbn [p_heap set_error]. pose proof (pi_wf _ Hp) as W0.
  destruct (malloc (p_heap p) (CBytes [])) as [pw h1] eqn:E1. destruct (malloc_grown _ _ _ _ W0 E1) as [G1 C1].
  pose proof (grown_wf _ _ _ G1) as W1. destruct pw as [bw|].
  2: { eexists None, _. split; [exact eq_refl|]. apply (created_none p); [exact Hp|exact eq_refl|exact eq_refl|exact W1| |];
         cbn [p_heap p_large set_error with_heap].
       - intros b Hb%(pi_large _ Hp). destruct G1 as (_ & Hn & _). lia.
       - intros b Hb. split; [by apply (grown_kept _ _ _ _ G1)|done]. }
  destruct (nm_ctx_init_shared mem h1) as [[c rc] h2] eqn:E2.
  destruct (init_shared_grown mem h1 c rc h2 W1 E2) as [G2 Hc]. pose proof (grown_wf _ _ _ G2) as W2.
  pose proof (grown_trans _ _ _ _ _ W0 W1 G1 G2) as G12. cbn [omap list_omap id] in G12.
  assert (Hbw : (next_id (p_heap p) <= bw)%nat) by (apply G12; by left).
  assert (Hlw : is_Some (cells h2 !! bw)) by (apply G12; by left).
  destruct (Z.eqb_spec rc 0) as [->|Hrc]; cbn [negb].
  2: { rewrite (free_live _ _ Hlw). cbn [mbind option_bind]. eexists None, _. split; [exact eq_refl|].
       apply (created_none p); [exact Hp|exact eq_refl|exact eq_refl|by apply delete_wf| |]; cbn [p_heap p_large set_error with_heap next_id cells].
       - intros b Hb%(pi_large _ Hp). destruct G12 as (_ & Hn & _). lia.
       - intros b Hb. rewrite lookup_delete_ne by lia. split; [by apply (grown_kept _ _ _ _ G12)|done]. }
  destruct (Hc eq_refl) as (Hos & Hod & _ & Hd & Epar & Eaes & L1 & L2 & L3). clear Hc.
  destruct (load_words_inv _ _ _ L1) as (b1 & Hb1 & Cb1). destruct (load_instrs_inv _ _ _ L2) as (b2 & Hb2 & Cb2).
  destruct (load_bytes_inv _ _ _ L3) as (b3 & Hb3 & Cb3).
  set (p2 := with_heap (set_error p EmptyString) h2). destruct (alloc_buffer (CWords sc) NM_SCRATCH_BYTES p2) as [b p3] eqn:E3.
  destruct (alloc_buffer_grown (CWords sc) NM_SCRATCH_BYTES p2 b p3 W2) as (G3 & Hb & Hla & Hln & Ew & Eg); [|exact E3|].
  { intros x Hx%(pi_large _ Hp). cbn [p2 p_heap with_heap]. destruct G12 as (_ & Hn & _). lia. }
  change (p_heap p2) with h2 in G3. change (p_large p2) with (p_large p) in Hla. change (p_workers p2) with (p_workers p) in Ew.
  change (globals p2) with (globals p) in Eg. pose proof (grown_trans _ _ _ _ _ W0 W2 G12 G3) as G.
  assert (Hown : owned c = [b1; b2; b3]) by (unfold owned, to_free; by rewrite Hos, Hod, Hb1, Hb2, Hb3). rewrite Hown in G.
  destruct (b_ptr b) as [bb|] eqn:Ebb; cbn [is_null].
  - unfold nm_ctx_attach_scratch. rewrite Hos, Hb1. pose proof G as (_ & _ & Hnd & _ & Hlv & _).
    assert (Hl1 : is_Some (cells (p_heap p3) !! b1)) by (apply Hlv; cbn; in_list).
    rewrite (free_live _ _ Hl1). cbn [mbind option_bind]. set (c' := mk_ctx _ _ (Some bb) _ _ _ _ _ _ _). eexists (Some bw), _. split; [exact eq_refl|].
    assert (K : forall x y, cells h2 !! x = Some y -> cells (p_heap p3) !! x = Some y).
    { intros x y Hx. rewrite (grown_kept _ _ _ _ G3); [done|]. apply W2. by exists y. }
    destruct (Hb bb eq_refl) as [Cbb Ehb].
    refine (created_some p _ (p_heap p3) bw b1 b2 b3 bb c' b mem sc Hp Hm Hsc G (K _ _ Cb2) (K _ _ Cb3) Cbb _ _ _ _ _ _ _ _ Ebb _ _ _ _ _ _);
      cbn [c' c_prog c_taken c_scratch c_owns_scratch c_owns_dataset c_dataset c_params c_aes p_large p_heap p_workers with_workers with_heap];
      try assumption; try reflexivity.
    + intros x Hx. apply Hla. cbn. rewrite list_elem_of_singleton. done.
    + by rewrite <-Ew.
  - destruct (create_no_buffer p p3 c bw [b1; b2; b3] "out of memory allocating the 2 MiB NeuroMorph scratchpad" Hp Ew Eg Hln Hown G)
      as (p' & E & Hc); [|exists None, p'; split; [exact E|exact Hc]].
    intros x. apply Hla. cbn. apply not_elem_of_nil.
Qed.

(** What fresh memory and the stack hold is arbitrary but of the right size. *)
Definition sizes_ok (mem : nm_bufs) (sc : list Z) : Prop := bufs_ok mem /\ Z.of_nat (length sc) = NM_SCRATCH_WORDS.

(** ** With memory available *)

Definition memory_ok (p : proc) : Prop := forall n, malloc_ok (p_heap p) n = true.
Lemma malloc_succeeds h x : (forall n, malloc_ok h n = true) ->
  malloc h x = (Some (next_id h), mk_heap (<[next_id h := x]> (cells h)) (S (next_id h)) (malloc_ok h)).
Proof. intros H. unfold malloc. by rewrite H. Qed.
Lemma alloc_buffer_succeeds x size p b p' : memory_ok p -> alloc_buffer x size p = (b, p') -> is_Some (b_ptr b) /\ memory_ok p'.
Proof. intros H. unfold alloc_buffer. rewrite malloc_succeeds by exact H. intros [= <- <-]. split; [by eexists|exact H]. Qed.
Lemma free_malloc_ok h q h' : free h q = Some h' -> malloc_ok h' = malloc_ok h.
Proof. unfold free. destruct q as [b|]; [destruct (cells h !! b)|]; by intros [= <-]. Qed.
Lemma create_succeeds mem sc p r p' :
  memory_ok p -> nm_capi_create_ctx mem sc p = Some (r, p') -> is_Some r /\ memory_ok p'.
Proof.
  intros H. unfold nm_capi_create_ctx. rewrite malloc_succeeds by exact H. unfold nm_ctx_init_shared, alloc_thread_buffers.
  repeat (rewrite malloc_succeeds by exact H; cbn [malloc_ok next_id cells]). cbn [is_null negb andb Z.eqb].
  destruct (alloc_buffer _ _ _) as [b p1] eqn:E. apply alloc_buffer_succeeds in E as [[q Eq] H1]; [|exact H]. rewrite Eq. cbn [is_null].
  destruct (nm_ctx_attach_scratch _ _ _) as [[c h]|] eqn:Ea; cbn [mbind option_bind]; [|done]. intros [= <- <-]. split; [by eexists|].
  unfold nm_ctx_attach_scratch in Ea. destruct (if c_owns_scratch _ then _ else _) as [h'|] eqn:Ef; cbn [mbind option_bind] in Ea; [|done].
  injection Ea as _ <-. intros n. cbn [with_workers with_heap p_heap]. destruct (c_owns_scratch _); [apply free_malloc_ok in Ef; rewrite Ef|injection Ef as <-]; apply H1.
Qed.
Lemma dataset_buffer_succeeds ds p : memory_ok p -> is_Some (b_ptr (g_datasetBuf (dataset_buffer ds p))).
Proof.
  intros H. unfold dataset_buffer. destruct (b_ptr (g_datasetBuf p)) as [d|] eqn:Ed; cbn [is_null]; [by rewrite Ed; eexists|].
  destruct (alloc_buffer _ _ p) as [b p1] eqn:E. apply alloc_buffer_succeeds in E as [[q Eq] _]; [|exact H]. rewrite Eq. cbn. rewrite Eq. by eexists.
Qed.
Lemma set_seed_succeeds junk ds i seed p rc p' : memory_ok p -> nm_capi_set_seed junk ds i seed p = Some (rc, p') -> rc = 0.
Proof.
  intros H. unfold nm_capi_set_seed. destruct (p_workers (set_error p EmptyString) !! i) as [w|]; cbn [mbind option_bind]; [|done].
  set (p1 := with_workers _ _). assert (H1 : memory_ok p1) by exact H. destruct (dataset_buffer_succeeds ds p1 H1) as [q Eq].
  unfold shared_dataset. set (p2 := dataset_buffer ds p1) in *. clearbody p2. cbv zeta. rewrite Eq. cbn [is_null].
  destruct (negb (g_datasetValid p2) || _); [|by intros [= <- _]].
  destruct (load_words _ _) as [l|]; cbn [mbind option_bind]; [|done]. destruct (store _ _ _) as [h|]; cbn [mbind option_bind]; [|done].
  cbn [is_null]. by intros [= <- _].
Qed.

Lemma dataset_buffer_memory ds p : memory_ok p -> memory_ok (dataset_buffer ds p).
Proof.
  intros H. unfold dataset_buffer. destruct (is_null _); [|exact H]. destruct (alloc_buffer _ _ p) as [b p1] eqn:E.
  apply alloc_buffer_succeeds in E as [_ H1]; [|exact H]. by destruct (is_null _).
Qed.
Lemma store_malloc_ok h q x h' : store h q x = Some h' -> malloc_ok h' = malloc_ok h.
Proof. unfold store. destruct q as [b|]; cbn [mbind option_bind]; [|done]. destruct (cells h !! b); cbn [mbind option_bind]; by intros [= <-]. Qed.
Lemma set_seed_memory junk ds i seed p rc p' : memory_ok p -> nm_capi_set_seed junk ds i seed p = Some (rc, p') -> memory_ok p'.
Proof.
  intros H. unfold nm_capi_set_seed. destruct (p_workers (set_error p EmptyString) !! i) as [w|]; cbn [mbind option_bind]; [|done].
  set (p1 := with_workers _ _). assert (H1 : memory_ok p1) by exact H. pose proof (dataset_buffer_memory ds p1 H1) as H2.
  unfold shared_dataset. set (p2 := dataset_buffer ds p1) in *. clearbody p2. cbv zeta.
  destruct (is_null (b_ptr (g_datasetBuf p2))); cbn [mbind option_bind is_null]; [by intros [= _ <-]|].
  destruct (negb (g_datasetValid p2) || _).
  - destruct (load_words _ _) as [l|]; cbn [mbind option_bind]; [|done]. destruct (store _ _ _) as [h|] eqn:Es; cbn [mbind option_bind]; [|done].
    apply store_malloc_ok in Es. destruct (is_null _); intros [= _ <-] n; cbn [p_heap set_error with_workers with_dataset with_heap]; rewrite Es; apply H2.
  - cbn [mbind option_bind]. destruct (is_null _); by intros [= _ <-].
Qed.

(** ** The self test *)

Lemma proc_inv_error p msg : proc_inv p -> proc_inv (set_error p msg).
Proof. by intros []; constructor. Qed.

(** The process of the self test once its two workers exist. *)
Record two_workers (p0 p : proc) (a b : nat) (wa wb : Worker) : Prop := {
  tw_inv : proc_inv p;
  tw_lost : forall x, lost p x <-> lost p0 x;
  tw_ne : a <> b;
  tw_a : p_workers p0 !! a = None;
  tw_b : p_workers p0 !! b = None;
  tw_workers : p_workers p = <[a := wa]> (<[b := wb]> (p_workers p0)) }.
Lemma tw_lookup p0 p a b wa wb : two_workers p0 p a b wa wb -> p_workers p !! a = Some wa /\ p_workers p !! b = Some wb.
Proof. intros [_ _ Hne _ _ ->]. by rewrite lookup_insert_eq, lookup_insert_ne, lookup_insert_eq. Qed.

Lemma tw_destroy p0 p a b wa wb :
  two_workers p0 p a b wa wb ->
  exists p1 p2, nm_capi_destroy_ctx (Some a) p = Some p1 /\ nm_capi_destroy_ctx (Some b) p1 = Some p2 /\
    proc_inv p2 /\ (forall x, lost p2 x <-> lost p0 x) /\ p_workers p2 = p_workers p0 /\ globals p2 = globals p.
Proof.
  intros Ht. destruct (tw_lookup _ _ _ _ _ _ Ht) as [Ha Hb]. destruct Ht as [Hp Hl Hne Na Nb Ew].
  destruct (destroy_step p a wa Hp Ha) as (p1 & E1 & Hp1 & Hl1 & Ew1 & Eg1 & _).
  assert (Hb1 : p_workers p1 !! b = Some wb) by (by rewrite Ew1, lookup_delete_ne).
  destruct (destroy_step p1 b wb Hp1 Hb1) as (p2 & E2 & Hp2 & Hl2 & Ew2 & Eg2 & _).
  exists p1, p2. split; [exact E1|]. split; [exact E2|]. split; [exact Hp2|]. split; [intros x; by rewrite Hl2, Hl1|]. split; [|congruence].
  rewrite Ew2, Ew1, Ew, delete_insert_id, delete_insert_id; [done|done|]. by rewrite lookup_insert_ne.
Qed.
(** Both seeded, on the dataset of their epoch. *)
Definition tw_ready (p0 p : proc) (a b : nat) (seed : list Z) : Prop :=
  exists wa wb, two_workers p0 p a b wa wb /\ seeded wa seed /\ seeded wb seed /\
    is_Some (c_dataset (w_ctx wa)) /\ is_Some (c_dataset (w_ctx wb)) /\
    g_datasetValid p = true /\ g_datasetKey p = dataset_key (seed_params seed).
Lemma tw_hash p0 p a b junk (second : bool) seed header height :
  tw_ready p0 p a b seed -> length junk = 64%nat ->
  exists p', nm_capi_hash junk (if second then b else a) header height p = Some (nm_digest seed header height, p') /\ tw_ready p0 p' a b seed.
Proof.
  intros (wa & wb & Ht & Sa & Sb & Da & Db & Hv & Hk) Hj. destruct (tw_lookup _ _ _ _ _ _ Ht) as [Ha Hb]. destruct Ht as [Hp Hl Hne Na Nb Ew].
  destruct (hash_step junk p (if second then b else a) (if second then wb else wa) seed header height Hj Hp) as (p' & E & Hp' & Hl' & Ew' & Eg);
    [by destruct second|by destruct second|intros _; by destruct second|].
  exists p'. unfold nm_digest. rewrite <-Hk. split; [exact E|]. injection Eg as _ Ek Ev _. rewrite Hk in Ek. rewrite Hv in Ev.
  exists wa, wb. split; [|by split_and!; try apply Sa; try apply Sb].
  constructor; [exact Hp'|intros x; by rewrite Hl'|exact Hne|exact Na|exact Nb|congruence].
Qed.
Lemma tw_create mem sc p :
  proc_inv p -> (forall i : nat, sizes_ok (mem i) (sc i)) ->
  exists a b p1 p2, nm_capi_create_ctx (mem 0%nat) (sc 0%nat) p = Some (a, p1) /\ nm_capi_create_ctx (mem 1%nat) (sc 1%nat) p1 = Some (b, p2) /\
    globals p2 = globals p /\ (memory_ok p -> is_Some a /\ is_Some b /\ memory_ok p2) /\
    match a, b with
    | Some a, Some b => exists wa wb, two_workers p p2 a b wa wb
    | _, _ => exists p3 p4, nm_capi_destroy_ctx a p2 = Some p3 /\ nm_capi_destroy_ctx b p3 = Some p4 /\ proc_inv p4 /\
        (forall x, lost p x -> lost p4 x) /\ p_workers p4 = p_workers p /\ globals p4 = globals p
    end.
Proof.
  intros Hp Hs. destruct (Hs 0%nat) as [M0 S0]. destruct (Hs 1%nat) as [M1 S1].
  destruct (create_step _ _ p Hp M0 S0) as (a & p1 & E1 & Hp1 & Eg1 & _ & Ha).
  destruct (create_step _ _ p1 Hp1 M1 S1) as (b & p2 & E2 & Hp2 & Eg2 & _ & Hb).
  exists a, b, p1, p2. split; [exact E1|]. split; [exact E2|]. split; [congruence|]. split.
  { intros H. destruct (create_succeeds _ _ _ _ _ H E1) as [Sa H1]. destruct (create_succeeds _ _ _ _ _ H1 E2) as [Sb H2]. done. }
  destruct a as [a|].
  - destruct Ha as (wa & Na & Ew1 & _ & Hl1). destruct b as [b|].
    + destruct Hb as (wb & Nb & Ew2 & _ & Hl2). rewrite Ew1 in Nb. apply lookup_insert_None in Nb as [Nb Hne].
      exists wa, wb. constructor; [exact Hp2|intros x; by rewrite Hl2, Hl1|done|done|done|]. rewrite Ew2, Ew1. by apply insert_insert_ne.
    + destruct Hb as [Ew2 Hl2]. assert (Hw : p_workers p2 !! a = Some wa) by (rewrite Ew2, Ew1; apply lookup_insert_eq).
      destruct (destroy_step p2 a wa Hp2 Hw) as (p3 & E3 & Hp3 & Hl3 & Ew3 & Eg3 & _). exists p3, p3. split; [exact E3|]. split; [exact eq_refl|].
      split; [exact Hp3|]. split; [intros x Hx; apply Hl3, Hl2, Hl1, Hx|]. split; [|congruence]. rewrite Ew3, Ew2, Ew1. by apply delete_insert_id.
  - destruct Ha as [Ew1 Hl1]. destruct b as [b|].
    + destruct Hb as (wb & Nb & Ew2 & _ & Hl2). assert (Hw : p_workers p2 !! b = Some wb) by (rewrite Ew2; apply lookup_insert_eq).
      destruct (destroy_step p2 b wb Hp2 Hw) as (p3 & E3 & Hp3 & Hl3 & Ew3 & Eg3 & _). exists p2, p3. split; [exact eq_refl|]. split; [exact E3|].
      split; [exact Hp3|]. split; [intros x Hx; apply Hl3, Hl2, Hl1, Hx|]. split; [|congruence]. rewrite Ew3, Ew2, delete_insert_id by done. exact Ew1.
    + destruct Hb as [Ew2 Hl2]. exists p2, p2. split; [exact eq_refl|]. split; [exact eq_refl|].
      split; [exact Hp2|]. split; [intros x Hx; apply Hl2, Hl1, Hx|]. split; congruence.
Qed.

(** The shared dataset is the one of the epoch of [seed]. *)
Definition dataset_for (p : proc) (seed : list Z) : Prop :=
  g_datasetValid p = true /\ g_datasetKey p = dataset_key (seed_params seed) /\ is_Some (b_ptr (g_datasetBuf p)).
Lemma tw_ready_dataset p0 p a b seed : tw_ready p0 p a b seed -> dataset_for p seed.
Proof.
  intros (wa & wb & Ht & _ & _ & Da & _ & Hv & Hk). destruct (tw_lookup _ _ _ _ _ _ Ht) as [Ha _]. split; [exact Hv|]. split; [exact Hk|].
  destruct (wi_dataset _ _ _ _ _ (pi_workers _ (tw_inv _ _ _ _ _ _ Ht) a wa Ha)) as [En|En]; [rewrite En in Da; by destruct Da|by rewrite <-En].
Qed.
(** Seeding both workers. *)
Lemma tw_seed junk ds p0 p a b wa wb seed :
  two_workers p0 p a b wa wb -> (forall i : nat, length (junk i) = 64%nat) -> Z.of_nat (length ds) = NM_DATASET_WORDS ->
  exists rc p1, nm_capi_set_seed (junk 0%nat) ds a seed p = Some (rc, p1) /\ (memory_ok p -> rc = 0) /\
    ((rc = -1 /\ b_ptr (g_datasetBuf p) = None /\ exists wa, two_workers p0 p1 a b wa wb) \/
     (rc = 0 /\ exists p2, nm_capi_set_seed (junk 1%nat) ds b seed p1 = Some (0, p2) /\ tw_ready p0 p2 a b seed)).
Proof.
  intros Ht Hj Hds. destruct (tw_lookup _ _ _ _ _ _ Ht) as [Ha Hb]. destruct Ht as [Hp Hl Hne Na Nb Ew].
  destruct (set_seed_step (junk 0%nat) ds p a wa seed (Hj _) Hds Hp Ha) as (rc & p1 & wa1 & E1 & Hp1 & Hl1 & Ew1 & S1 & _ & Hrc).
  exists rc, p1. split; [exact E1|]. split; [intros H; by apply (set_seed_succeeds _ _ _ _ _ _ _ H E1)|].
  assert (Hw1 : p_workers p1 = <[a := wa1]> (<[b := wb]> (p_workers p0))) by (rewrite Ew1, Ew; apply insert_insert_eq).
  destruct Hrc as [(-> & V1 & K1 & D1)|[-> N1]]; [right|left].
  2: { split; [done|]. split; [done|]. exists wa1. constructor; try assumption. intros x. by rewrite Hl1. }
  split; [done|]. assert (Hb1 : p_workers p1 !! b = Some wb) by (rewrite Hw1, lookup_insert_ne by done; apply lookup_insert_eq).
  assert (Ha1 : p_workers p1 !! a = Some wa1) by (rewrite Hw1; apply lookup_insert_eq).
  destruct (set_seed_step (junk 1%nat) ds p1 b wb seed (Hj _) Hds Hp1 Hb1) as (rc & p2 & wb2 & E2 & Hp2 & Hl2 & Ew2 & S2 & _ & Hrc).
  destruct Hrc as [(-> & V2 & K2 & D2)|[-> N2]].
  - exists p2. split; [exact E2|]. exists wa1, wb2. split; [|by split_and!; try apply S1; try apply S2].
    constructor; [exact Hp2|intros x; by rewrite Hl2, Hl1|done|done|done|].
    rewrite Ew2, Hw1, insert_insert_ne by done. f_equal. apply insert_insert_eq.
  - exfalso. destruct (wi_dataset _ _ _ _ _ (pi_workers _ Hp1 a wa1 Ha1)) as [En|En]; [|rewrite N2 in En]; rewrite En in D1; by destruct D1.
Qed.

(** The result of a self test that got as far as comparing digests. *)
Definition verdict (d1 d2 : list Z) : Z := if bool_decide (d1 = d2) then -5 else 0.
#[local] Opaque digest_with nm_digest selftest_seed selftest_header.

Lemma selftest_ok mem sc ds junk p :
  proc_inv p -> (forall i : nat, sizes_ok (mem i) (sc i)) -> Z.of_nat (length ds) = NM_DATASET_WORDS ->
  (forall i : nat, length (junk i) = 64%nat) ->
  exists rc p', nm_capi_selftest mem sc ds junk p = Some (rc, p') /\ proc_inv p' /\ p_workers p' = p_workers p /\
    (forall x, lost p x -> lost p' x) /\ (memory_ok p -> rc <> -1 /\ rc <> -2) /\
    (rc = -1 /\ globals p' = globals p \/ rc = -2 /\ b_ptr (g_datasetBuf p) = None \/
     dataset_for p' selftest_seed /\
     rc = verdict (nm_digest selftest_seed selftest_header selftest_height)
            (nm_digest selftest_seed (flip_nonce selftest_header) selftest_height) /\
     forall x, lost p' x -> lost p x).
Proof.
  intros Hp Hs Hds Hj. unfold nm_capi_selftest. cbv zeta. pose proof (proc_inv_error p EmptyString Hp) as Hp0.
  destruct (tw_create mem sc _ Hp0 Hs) as (a & b & p1 & p2 & E1 & E2 & Eg2 & Hok & Hab). rewrite E1. cbn [mbind option_bind]. rewrite E2.
  cbn [mbind option_bind]. destruct a as [a|], b as [b|].
  2-4: destruct Hab as (p3 & p4 & E3 & E4 & Hp4 & Hl4 & Ew4 & Eg4); rewrite E3; cbn [mbind option_bind]; rewrite E4; cbn [mbind option_bind];
    exists (-1), p4; split; [exact eq_refl|]; split; [exact Hp4|]; split; [exact Ew4|]; split; [exact Hl4|];
    split; [intros H; destruct (Hok H) as ([? ?] & [? ?] & _); done|left; split; [exact eq_refl|exact Eg4]].
  destruct Hab as (wa & wb & Ht). destruct (tw_seed junk ds _ p2 a b wa wb selftest_seed Ht Hj Hds) as (rc & p3 & E3 & Hrc0 & Hrc).
  rewrite E3. cbn [mbind option_bind]. destruct Hrc as [(-> & N2 & wa' & Ht3)|(-> & p4 & E4 & R4)]; cbn [Z.eqb negb mbind option_bind].
  - destruct (tw_destroy _ _ _ _ _ _ Ht3) as (p5 & p6 & E5 & E6 & Hp6 & Hl6 & Ew6 & _). rewrite E5. cbn [mbind option_bind]. rewrite E6. cbn [mbind option_bind].
    exists (-2), p6. split; [exact eq_refl|]. split; [exact Hp6|]. split; [exact Ew6|]. split; [intros x; apply Hl6|].
    split; [|right; left; split; [exact eq_refl|injection Eg2 as Eb _ _ _; rewrite <-N2; symmetry; exact (f_equal b_ptr Eb)]]. intros H. destruct (Hok H) as (_ & _ & H2). specialize (Hrc0 H2). done.
  - rewrite E4. cbn [Z.eqb negb mbind option_bind].
    destruct (tw_hash _ _ _ _ (junk 2%nat) false _ selftest_header selftest_height R4 (Hj _)) as (p5 & -> & R5). cbn [mbind option_bind].
    destruct (tw_hash _ _ _ _ (junk 3%nat) false _ selftest_header selftest_height R5 (Hj _)) as (p6 & -> & R6). cbn [mbind option_bind].
    destruct (tw_hash _ _ _ _ (junk 4%nat) true _ selftest_header selftest_height R6 (Hj _)) as (p7 & -> & R7). cbn [mbind option_bind].
    destruct (tw_hash _ _ _ _ (junk 5%nat) false _ (flip_nonce selftest_header) selftest_height R7 (Hj _)) as (p8 & -> & R8). destruct (tw_ready_dataset _ _ _ _ _ R8) as (V8 & K8 & D8). destruct R8 as (wa8 & wb8 & Ht8 & _).
    cbn [mbind option_bind]. destruct (tw_destroy _ _ _ _ _ _ Ht8) as (p9 & q & E9 & E10 & Hq & Hlq & Ewq & Egq).
    assert (Hdq : dataset_for q selftest_seed) by (injection Egq as Eb Ek Ev _; unfold dataset_for; by rewrite Eb, Ek, Ev).
    rewrite E9. cbn [mbind option_bind]. rewrite E10. cbn [mbind option_bind].
    set (d1 := nm_digest _ selftest_header _). set (d2 := nm_digest _ (flip_nonce _) _). clearbody d1 d2.
    rewrite (bool_decide_eq_true_2 (d1 = d1)) by done. cbn [negb]. unfold verdict. case_bool_decide as Hd.
    + eexists (-5), _. split; [exact eq_refl|]. split; [by apply proc_inv_error|]. split; [exact Ewq|].
      split; [intros x; apply Hlq|]. split; [done|]. right. right. split; [exact Hdq|]. split; [done|]. intros x. apply Hlq.
    + exists 0, q. split; [exact eq_refl|]. split; [exact Hq|]. split; [exact Ewq|].
      split; [intros x; apply Hlq|]. split; [done|]. right. right. split; [exact Hdq|]. split; [done|]. intros x. apply Hlq.
Qed.

(** ** Sequences of calls *)

(** [run p0 p epochs last]: calls lead from [p0] to [p]; [epochs] is the seed of each
    worker whose last [nm_capi_set_seed] returned 0, [last] the most recent such seed,
    which is the one of the self test after a self test that got as far as hashing. *)
Inductive run (p0 : proc) : proc -> gmap nat (list Z) -> option (list Z) -> Prop :=
  | run_start : run p0 p0 ∅ None
  | run_create mem sc p r p' epochs last :
      run p0 p epochs last -> sizes_ok mem sc -> nm_capi_create_ctx mem sc p = Some (r, p') -> run p0 p' epochs last
  | run_destroy i p p' epochs last :
      run p0 p epochs last -> is_Some (p_workers p !! i) -> nm_capi_destroy_ctx (Some i) p = Some p' ->
      run p0 p' (delete i epochs) last
  | run_set_seed junk ds i seed p rc p' epochs last :
      run p0 p epochs last -> length junk = 64%nat -> Z.of_nat (length ds) = NM_DATASET_WORDS ->
      nm_capi_set_seed junk ds i seed p = Some (rc, p') ->
      run p0 p' (if rc =? 0 then <[i := seed]> epochs else delete i epochs) (if rc =? 0 then Some seed else last)
  | run_hash junk i header height p out p' epochs last :
      run p0 p epochs last -> length junk = 64%nat -> is_Some (epochs !! i) ->
      nm_capi_hash junk i header height p = Some (out, p') -> run p0 p' epochs last
  | run_selftest mem sc ds junk p rc p' epochs last :
      run p0 p epochs last -> (forall i : nat, sizes_ok (mem i) (sc i)) -> Z.of_nat (length ds) = NM_DATASET_WORDS ->
      (forall i : nat, length (junk i) = 64%nat) -> nm_capi_selftest mem sc ds junk p = Some (rc, p') ->
      run p0 p' epochs (if (rc =? -1) || (rc =? -2) then last else Some selftest_seed).

(** A process that has not used the interface. *)
Record unused (p : proc) : Prop := {
  un_wf : heap_wf (p_heap p);
  un_large : forall b, b ∈ p_large p -> (b < next_id (p_heap p))%nat;
  un_workers : p_workers p = ∅;
  un_dataset : b_ptr (g_datasetBuf p) = None }.
Lemma unused_inv p : unused p -> proc_inv p.
Proof.
  intros [H1 H2 H3 H4]. constructor; try assumption; rewrite ?H3, ?H4; [intros i w Hw|intros i j w w' b Hw|]; by simplify_map_eq.
Qed.

Record run_inv (p : proc) (epochs : gmap nat (list Z)) (last : option (list Z)) : Prop := {
  ri_proc : proc_inv p;
  ri_epochs : forall i seed, epochs !! i = Some seed ->
    exists w, p_workers p !! i = Some w /\ seeded w seed /\ is_Some (c_dataset (w_ctx w)) /\ is_Some last;
  ri_last : forall seed, last = Some seed -> dataset_for p seed }.

Lemma run_inv_create mem sc p r p' epochs last :
  run_inv p epochs last -> sizes_ok mem sc -> nm_capi_create_ctx mem sc p = Some (r, p') -> run_inv p' epochs last.
Proof.
  intros [H1 H2 H3] [Hm Hs] Hc. destruct (create_step mem sc p H1 Hm Hs) as (r' & p1 & E & Hcr). rewrite E in Hc. injection Hc as -> ->.
  destruct Hcr as (Hp & Eg & _ & Hr). injection Eg as Eb Ek Ev _. constructor; unfold dataset_for in *; rewrite ?Eb, ?Ek, ?Ev; [exact Hp| |exact H3].
  intros i seed Hi. destruct (H2 i seed Hi) as (w & Hw & K). exists w. split; [|exact K].
  destruct r as [j|]; [destruct Hr as (x & Hn & -> & _)|destruct Hr as [-> _]; exact Hw].
  rewrite lookup_insert_ne; [exact Hw|]. intros ->. congruence.
Qed.
Lemma run_inv_destroy i p p' epochs last :
  run_inv p epochs last -> is_Some (p_workers p !! i) -> nm_capi_destroy_ctx (Some i) p = Some p' -> run_inv p' (delete i epochs) last.
Proof.
  intros [H1 H2 H3] [w Hw] Hd. destruct (destroy_step p i w H1 Hw) as (p1 & E & Hp & _ & Ew & Eg & _). rewrite E in Hd. injection Hd as ->.
  injection Eg as Eb Ek Ev _. constructor; unfold dataset_for in *; rewrite ?Eb, ?Ek, ?Ev; [exact Hp| |exact H3].
  intros j seed [Hne Hj]%lookup_delete_Some. destruct (H2 j seed Hj) as (x & Hx & K). exists x. split; [|exact K].
  by rewrite Ew, lookup_delete_ne.
Qed.
Lemma run_inv_set_seed junk ds i seed p rc p' epochs last :
  run_inv p epochs last -> length junk = 64%nat -> Z.of_nat (length ds) = NM_DATASET_WORDS ->
  nm_capi_set_seed junk ds i seed p = Some (rc, p') ->
  run_inv p' (if rc =? 0 then <[i := seed]> epochs else delete i epochs) (if rc =? 0 then Some seed else last).
Proof.
  intros [H1 H2 H3] Hj Hds Hs. assert (Hw : is_Some (p_workers p !! i)).
  { unfold nm_capi_set_seed in Hs. cbn [p_workers set_error] in Hs. destruct (p_workers p !! i); [by eexists|done]. }
  destruct Hw as [w Hw]. destruct (set_seed_step junk ds p i w seed Hj Hds H1 Hw) as (rc1 & p1 & w1 & E & Hp & _ & Ew & Hsd & _ & Hrc).
  rewrite E in Hs. injection Hs as -> ->. destruct Hrc as [(-> & V & K & D)|[-> N]]; cbn [Z.eqb].
  - assert (Hd : is_Some (b_ptr (g_datasetBuf p'))).
    { assert (Hw1 : p_workers p' !! i = Some w1) by (rewrite Ew; apply lookup_insert_eq).
      destruct (wi_dataset _ _ _ _ _ (pi_workers _ Hp i w1 Hw1)) as [En|En]; [rewrite En in D; by destruct D|by rewrite <-En]. }
    constructor; [exact Hp| |intros s [= <-]; by split_and!].
    intros j s [[<- <-]|[Hne Hjs]]%lookup_insert_Some.
    + exists w1. rewrite Ew, lookup_insert_eq. split; [done|]. split; [done|]. split; [done|]. by eexists.
    + destruct (H2 j s Hjs) as (x & Hx & K1 & K2 & _). exists x. rewrite Ew, lookup_insert_ne by done.
      split; [done|]. split; [done|]. split; [done|]. by eexists.
  - assert (El : last = None) by (destruct last as [s|]; [|done]; destruct (H3 s eq_refl) as (_ & _ & [d Hd]); congruence).
    subst last. constructor; [exact Hp| |done].
    intros j s [_ Hjs]%lookup_delete_Some. destruct (H2 j s Hjs) as (x & _ & _ & _ & [y Hy]). done.
Qed.
(** A seeded worker returns the digest of its epoch on the dataset of the last seed. *)
Lemma run_inv_hash junk i header height p epochs last seed :
  run_inv p epochs last -> length junk = 64%nat -> epochs !! i = Some seed ->
  exists cur p', last = Some cur /\
    nm_capi_hash junk i header height p = Some (digest_with seed (dataset_key (seed_params cur)) header height, p') /\
    run_inv p' epochs last /\ (forall b, lost p' b <-> lost p b).
Proof.
  intros [H1 H2 H3] Hj Hi. destruct (H2 i seed Hi) as (w & Hw & Hs & Hd & [cur ->]). destruct (H3 cur eq_refl) as (V & K & D).
  destruct (hash_step junk p i w seed header height Hj H1 Hw Hs) as (p' & E & Hp & Hl & Ew & Eg); [by intros _|].
  exists cur, p'. split; [done|]. rewrite <-K. split; [exact E|]. split; [|exact Hl]. injection Eg as Eb Ek Ev _.
  constructor; unfold dataset_for in *; rewrite ?Ew, ?Eb, ?Ek, ?Ev; [exact Hp|exact H2|exact H3].
Qed.
Lemma verdict_rc d1 d2 : (verdict d1 d2 =? -1) || (verdict d1 d2 =? -2) = false.
Proof. unfold verdict. by destruct (bool_decide _). Qed.
Lemma run_inv_selftest mem sc ds junk p rc p' epochs last :
  run_inv p epochs last -> (forall i : nat, sizes_ok (mem i) (sc i)) -> Z.of_nat (length ds) = NM_DATASET_WORDS ->
  (forall i : nat, length (junk i) = 64%nat) -> nm_capi_selftest mem sc ds junk p = Some (rc, p') ->
  run_inv p' epochs (if (rc =? -1) || (rc =? -2) then last else Some selftest_seed).
Proof.
  intros [H1 H2 H3] Hs Hd Hj E. destruct (selftest_ok mem sc ds junk p H1 Hs Hd Hj) as (rc1 & p1 & E1 & Hp1 & Ew & _ & _ & Hrc).
  rewrite E1 in E. injection E as -> ->. destruct Hrc as [[-> Eg]|[[-> N]|(Hds & -> & _)]]; [cbn [Z.eqb Pos.eqb orb]..|rewrite verdict_rc].
  - injection Eg as Eb Ek Ev _. constructor; unfold dataset_for in *; rewrite ?Ew, ?Eb, ?Ek, ?Ev; assumption.
  - assert (El : last = None) by (destruct last as [s|]; [|done]; destruct (H3 s eq_refl) as (_ & _ & [d Hd']); congruence).
    subst last. constructor; [exact Hp1|rewrite Ew; exact H2|done].
  - constructor; [exact Hp1| |intros s [= <-]; exact Hds]. rewrite Ew. intros i seed Hi. destruct (H2 i seed Hi) as (w & K1 & K2 & K3 & _).
    exists w. split; [done|]. split; [done|]. split; [done|]. by eexists.
Qed.
Lemma run_run_inv p0 p epochs last : unused p0 -> run p0 p epochs last -> run_inv p epochs last.
Proof.
  intros H0. induction 1 as [|mem sc p r p' epochs last _ IH Hs Hc|i p p' epochs last _ IH Hi Hd|junk ds i seed p rc p' epochs last _ IH Hj Hds Hs
    |junk i header height p out p' epochs last _ IH Hj [seed Hi] Hh|mem sc ds junk p rc p' epochs last _ IH Hs Hd Hj He].
  - constructor; [by apply unused_inv|intros i seed Hi; by simplify_map_eq|done].
  - by apply (run_inv_create mem sc p r).
  - by apply (run_inv_destroy i p).
  - by apply (run_inv_set_seed junk ds i seed p).
  - destruct (run_inv_hash junk i header height p epochs last seed IH Hj Hi) as (cur & p1 & _ & E & H1 & _). rewrite E in Hh.
    injection Hh as _ ->. exact H1.
  - by apply (run_inv_selftest mem sc ds junk p).
Qed.

(** A creation whose third buffer cannot be allocated. *)
Lemma fresh_cells p k : proc_inv p -> cells (p_heap p) !! (next_id (p_heap p) + k)%nat = None.
Proof.
  intros Hp. destruct (cells (p_heap p) !! _) as [x|] eqn:E; [|done]. exfalso. assert (Hs : is_Some (cells (p_heap p) !! (next_id (p_heap p) + k)%nat)) by by exists x.
  apply (pi_wf _ Hp) in Hs. lia.
Qed.
Lemma create_third_fails mem sc p :
  let k0 := next_id (p_heap p) in
  malloc_ok (p_heap p) k0 = true -> malloc_ok (p_heap p) (k0 + 1) = true -> malloc_ok (p_heap p) (k0 + 2) = true -> malloc_ok (p_heap p) (k0 + 3) = false ->
  exists p', nm_capi_create_ctx mem sc p = Some (None, p') /\
    cells (p_heap p') = delete k0 (<[(k0 + 2)%nat := CInstrs (b_prog mem)]> (<[(k0 + 1)%nat := CWords (b_scratch mem)]> (<[k0 := CBytes []]> (cells (p_heap p))))) /\
    p_workers p' = p_workers p /\ globals p' = globals p /\ p_large p' = p_large p /\ g_error p' = "nm_ctx_init_shared failed (program buffer allocation)"%string.
Proof.
  intros k0 M0 M1 M2 M3. unfold nm_capi_create_ctx. cbn [p_heap set_error]. unfold malloc at 1. fold k0. rewrite M0.
  unfold nm_ctx_init_shared, alloc_thread_buffers, malloc. cbn [next_id malloc_ok cells].
  replace (S k0) with (k0 + 1)%nat by lia. rewrite M1. cbn [next_id malloc_ok cells]. replace (S (k0 + 1)) with (k0 + 2)%nat by lia. rewrite M2. cbn [next_id malloc_ok cells].
  replace (S (k0 + 2)) with (k0 + 3)%nat by lia. rewrite M3. cbn [is_null negb andb orb Z.eqb].
  assert (Hl : forall h, cells h = <[(k0 + 2)%nat := CInstrs (b_prog mem)]> (<[(k0 + 1)%nat := CWords (b_scratch mem)]> (<[k0 := CBytes []]> (cells (p_heap p)))) -> is_Some (cells h !! k0)).
  { intros h ->. rewrite !lookup_insert_ne by lia. rewrite lookup_insert_eq. by eexists. }
  rewrite free_live by (apply Hl; exact eq_refl). cbn [mbind option_bind]. eexists. split; [exact eq_refl|]. split_and!; exact eq_refl.
Qed.

(** ** Properties *)

(** C7. However calls of any number of workers are ordered, none gets stuck: every
    creation, every seeding and every destruction of a live handle returns, so no
    pointer is used after it was freed, none is freed twice or with the function of
    the other page size, and no worker touches another's blocks.  A call that
    succeeds loses no memory; seeding fails only while there is no dataset. *)
Theorem nm_capi_calls_return p0 p epochs last :
  unused p0 -> run p0 p epochs last ->
  (forall mem sc, sizes_ok mem sc -> exists r p', nm_capi_create_ctx mem sc p = Some (r, p') /\ run p0 p' epochs last /\
     match r with
     | Some i => p_workers p !! i = None /\ is_Some (p_workers p' !! i) /\ forall b, lost p' b <-> lost p b
     | None => p_workers p' = p_workers p
     end) /\
  (forall i, is_Some (p_workers p !! i) -> exists p', nm_capi_destroy_ctx (Some i) p = Some p' /\ run p0 p' (delete i epochs) last /\
     p_workers p' = delete i (p_workers p) /\ forall b, lost p' b <-> lost p b) /\
  (forall junk ds i seed, length junk = 64%nat -> Z.of_nat (length ds) = NM_DATASET_WORDS -> is_Some (p_workers p !! i) ->
     exists rc p', nm_capi_set_seed junk ds i seed p = Some (rc, p') /\
       (rc = 0 \/ rc = -1 /\ b_ptr (g_datasetBuf p) = None) /\ forall b, lost p' b <-> lost p b).
Proof.
  intros H0 Hr. pose proof (ri_proc _ _ _ (run_run_inv _ _ _ _ H0 Hr)) as Hp. split_and!.
  - intros mem sc [Hm Hs]. destruct (create_step mem sc p Hp Hm Hs) as (r & p' & E & _ & _ & _ & Hc). exists r, p'. split; [exact E|].
    split; [by apply (run_create p0 mem sc p r)|]. destruct r as [i|]; [|by destruct Hc]. destruct Hc as (w & Hn & Ew & _ & Hl).
    split; [exact Hn|]. split; [rewrite Ew, lookup_insert_eq; by eexists|exact Hl].
  - intros i [w Hw]. destruct (destroy_step p i w Hp Hw) as (p' & E & _ & Hl & Ew & _). exists p'. split; [exact E|].
    split; [apply (run_destroy p0 i p); [exact Hr|by eexists|exact E]|]. split; [exact Ew|exact Hl].
  - intros junk ds i seed Hj Hd [w Hw]. destruct (set_seed_step junk ds p i w seed Hj Hd Hp Hw) as (rc & p' & w' & E & _ & Hl & _ & _ & _ & Hrc).
    exists rc, p'. split; [exact E|]. split; [|exact Hl]. destruct Hrc as [(-> & _)|[-> Hn]]; [by left|by right].
Qed.

(** C4. What a worker computes after any calls: it hashes with the parameters of
    the seed it was last given, on the dataset of the seed any worker was last
    given.  So the digest is the one of its own epoch, whatever it or the others
    hashed before, when that seed is its own or below the height where the dataset
    is used; but a worker that was not seeded again after another one moved to a
    new epoch, or after a self test, reads the new dataset, rebuilt in place under it. *)
Theorem nm_capi_hash_epochs p0 p epochs last i seed junk header height :
  unused p0 -> run p0 p epochs last -> epochs !! i = Some seed -> length junk = 64%nat ->
  exists cur p', last = Some cur /\
    nm_capi_hash junk i header height p = Some (digest_with seed (dataset_key (seed_params cur)) header height, p') /\
    run p0 p' epochs last /\ (forall b, lost p' b <-> lost p b) /\
    (cur = seed \/ height < NM_DATASET_HEIGHT ->
     digest_with seed (dataset_key (seed_params cur)) header height = nm_digest seed header height).
Proof.
  intros H0 Hr Hi Hj. destruct (run_inv_hash junk i header height p epochs last seed (run_run_inv _ _ _ _ H0 Hr) Hj Hi)
    as (cur & p' & El & E & _ & Hl).
  exists cur, p'. split; [exact El|]. split; [exact E|].
  split; [refine (run_hash p0 junk i header height p _ p' epochs last Hr Hj _ E); by eexists|]. split; [exact Hl|].
  intros [->|Hh]; [exact eq_refl|]. by apply digest_low.
Qed.

(** C32. The self test, run at any time: it returns; with memory available its result is
    0 or -5, so the comparisons it makes of one context with itself (-3) and with a
    second context (-4) never fail, and it is -5 exactly when the two headers have the
    same digest.  Without memory it is -1 or -2.  It destroys the two workers it
    creates and changes no other, but it rebuilds the shared dataset for its own seed
    and leaves it so: until it is seeded again, a worker of epoch [seed] hashes on the
    dataset of the self test.  The digest is still the one of its epoch below the
    height where the dataset is used. *)
Theorem nm_capi_selftest_verdict p0 p epochs last mem sc ds junk :
  unused p0 -> run p0 p epochs last -> (forall i : nat, sizes_ok (mem i) (sc i)) -> Z.of_nat (length ds) = NM_DATASET_WORDS ->
  (forall i : nat, length (junk i) = 64%nat) ->
  exists rc p', nm_capi_selftest mem sc ds junk p = Some (rc, p') /\ p_workers p' = p_workers p /\
    run p0 p' epochs (if (rc =? -1) || (rc =? -2) then last else Some selftest_seed) /\
    (memory_ok p -> rc <> -1 /\ rc <> -2) /\
    (rc = -1 \/ rc = -2 \/
     rc = verdict (nm_digest selftest_seed selftest_header selftest_height)
            (nm_digest selftest_seed (flip_nonce selftest_header) selftest_height) /\
     (forall x, lost p' x <-> lost p x) /\
     forall i seed stack header height, epochs !! i = Some seed -> length stack = 64%nat ->
       exists p'', nm_capi_hash stack i header height p' = Some (digest_with seed (dataset_key (seed_params selftest_seed)) header height, p'') /\
         (height < NM_DATASET_HEIGHT -> digest_with seed (dataset_key (seed_params selftest_seed)) header height = nm_digest seed header height)).
Proof.
  intros H0 Hr Hs Hd Hj. pose proof (ri_proc _ _ _ (run_run_inv _ _ _ _ H0 Hr)) as Hp.
  destruct (selftest_ok mem sc ds junk p Hp Hs Hd Hj) as (rc & p' & E & _ & Ew & Hl & Hm & Hrc).
  assert (Hr' : run p0 p' epochs (if (rc =? -1) || (rc =? -2) then last else Some selftest_seed)) by exact (run_selftest p0 mem sc ds junk p rc p' epochs last Hr Hs Hd Hj E).
  exists rc, p'. split; [exact E|]. split; [exact Ew|]. split; [exact Hr'|]. split; [exact Hm|].
  destruct Hrc as [[-> _]|[[-> _]|(_ & -> & Hl')]]; [by left|by right; left|]. right; right. split; [exact eq_refl|]. split; [intros x; split; [apply Hl'|apply Hl]|].
  intros i seed stack header height Hi Hst. rewrite verdict_rc in Hr'.
  destruct (run_inv_hash stack i header height p' epochs _ seed (run_run_inv _ _ _ _ H0 Hr') Hst Hi) as (cur & p'' & [= <-] & Eh & _).
  exists p''. split; [exact Eh|]. apply digest_low.
Qed.

(** C38. A creation that fails inside [nm_ctx_init_shared] leaks, in any process: when
    the [Worker] block, the scratchpad and the program buffer can be allocated and the
    third buffer cannot, [nm_capi_create_ctx] returns NULL after freeing the [Worker]
    block only.  The 2 MiB scratchpad and the program buffer stay allocated with no
    pointer left to them, everything else is as before, and the error says that the
    program buffer could not be allocated. *)
Theorem nm_capi_create_ctx_leaks mem sc p :
  let k0 := next_id (p_heap p) in
  proc_inv p -> malloc_ok (p_heap p) k0 = true -> malloc_ok (p_heap p) (k0 + 1) = true -> malloc_ok (p_heap p) (k0 + 2) = true -> malloc_ok (p_heap p) (k0 + 3) = false ->
  exists p', nm_capi_create_ctx mem sc p = Some (None, p') /\
    cells (p_heap p') = <[(k0 + 2)%nat := CInstrs (b_prog mem)]> (<[(k0 + 1)%nat := CWords (b_scratch mem)]> (cells (p_heap p))) /\
    p_workers p' = p_workers p /\ globals p' = globals p /\ p_large p' = p_large p /\
    (forall b, lost p' b <-> lost p b \/ b = (k0 + 1)%nat \/ b = (k0 + 2)%nat) /\
    g_error p' = "nm_ctx_init_shared failed (program buffer allocation)"%string.
Proof.
  intros k0 Hp M0 M1 M2 M3. pose proof (fresh_cells p 0 Hp) as Hf. rewrite Nat.add_0_r in Hf. fold k0 in Hf.
  destruct (create_third_fails mem sc p M0 M1 M2 M3) as (p' & E & Ec & Ew & Eg & El & Ee). fold k0 in Ec. rewrite !delete_insert_ne, delete_insert_id in Ec by (lia || done).
  exists p'. split; [exact E|]. split; [exact Ec|]. split; [exact Ew|]. split; [exact Eg|]. split; [exact El|]. split; [|exact Ee].
  intros b. assert (Hh : held p' b <-> held p b) by (injection Eg as Eb _ _ _; unfold held; by rewrite Eb, Ew). unfold lost. rewrite Hh, Ec.
  assert (Hn : forall k, ~ held p (k0 + k)%nat) by (intros k Hb%(held_bound _ _ Hp); unfold k0 in Hb; lia).
  rewrite !lookup_insert_is_Some. split.
  - intros [[<-|[_ [<-|[_ Hs]]]] Hb]; [by right; right|by right; left|by left].
  - intros [[Hs Hb]|[-> | ->]].
    + split; [|done]. destruct (decide ((k0 + 2)%nat = b)); [by left|right]. split; [done|]. destruct (decide ((k0 + 1)%nat = b)); [by left|by right].
    + split; [right; split; [lia|by left]|apply Hn].
    + split; [by left|apply Hn].
Qed.

(** *** Witnesses: a fresh process, a created worker, a seeded worker *)

Definition proc0 : proc := mk_proc (mk_heap ∅ 0 (fun _ => true)) ∅ ∅ no_buffer (replicate 16 0) false false EmptyString.
Definition pad0 : list Z := replicate (Z.to_nat NM_SCRATCH_WORDS) 5.
Lemma proc0_unused : unused proc0.
Proof.
  constructor; [apply heap_wf_empty|intros b Hb; cbn [p_large proc0] in Hb; by apply not_elem_of_empty in Hb|exact eq_refl|exact eq_refl].
Qed.
Lemma proc0_memory : memory_ok proc0.
Proof. intros n. exact eq_refl. Qed.
Lemma sizes_ok0 : sizes_ok (bufs1 0) pad0.
Proof. split; [apply bufs1_ok|]. by apply length_array. Qed.
Lemma run0_created : exists i p, is_Some (p_workers p !! i) /\ memory_ok p /\ run proc0 p ∅ None.
Proof.
  destruct (create_step _ _ proc0 (unused_inv _ proc0_unused) (proj1 sizes_ok0) (proj2 sizes_ok0)) as (r & p & E & _ & _ & _ & Hc).
  destruct (create_succeeds _ _ _ _ _ proc0_memory E) as [[i ->] Hm]. destruct Hc as (w & _ & Ew & _). exists i, p.
  split; [rewrite Ew, lookup_insert_eq; by eexists|]. split; [exact Hm|]. exact (run_create proc0 _ _ _ _ _ _ _ (run_start proc0) sizes_ok0 E).
Qed.
Lemma run0_seeded : exists i p, memory_ok p /\ run proc0 p {[i := replicate 32 4]} (Some (replicate 32 4)).
Proof.
  destruct run0_created as (i & p & [w Hw] & Hm & Hr).
  destruct (set_seed_step junk0 dataset1 p i w (replicate 32 4) junk0_length dataset1_length (ri_proc _ _ _ (run_run_inv _ _ _ _ proc0_unused Hr)) Hw)
    as (rc & p' & w' & E & _).
  pose proof (set_seed_succeeds _ _ _ _ _ _ _ Hm E) as ->. exists i, p'. split; [exact (set_seed_memory _ _ _ _ _ _ _ Hm E)|].
  exact (run_set_seed proc0 junk0 dataset1 i (replicate 32 4) p 0 p' ∅ None Hr junk0_length dataset1_length E).
Qed.

Lemma nm_capi_calls_return_witness :
  exists i p p', is_Some (p_workers p !! i) /\ nm_capi_destroy_ctx (Some i) p = Some p' /\ p_workers p' = delete i (p_workers p) /\
    forall b, lost p' b <-> lost p b.
Proof.
  destruct run0_created as (i & p & Hi & _ & Hr).
  destruct (nm_capi_calls_return proc0 p ∅ None proc0_unused Hr) as (_ & Hd & _).
  destruct (Hd i Hi) as (p' & E & _ & Ew & Hl). exists i, p, p'. exact (conj Hi (conj E (conj Ew Hl))).
Defined.
Lemma nm_capi_hash_epochs_witness :
  exists i p p', nm_capi_hash junk0 i (replicate 124 1) 1000 p = Some (nm_digest (replicate 32 4) (replicate 124 1) 1000, p').
Proof.
  destruct run0_seeded as (i & p & _ & Hr).
  destruct (nm_capi_hash_epochs proc0 p {[i := replicate 32 4]} (Some (replicate 32 4)) i (replicate 32 4) junk0 (replicate 124 1) 1000
    proc0_unused Hr (lookup_singleton_eq i _) junk0_length) as (cur & p' & El & E & _ & _ & Hn).
  injection El as <-. exists i, p, p'. rewrite E, (Hn (or_introl eq_refl)). exact eq_refl.
Defined.
Lemma nm_capi_selftest_verdict_witness :
  exists i p rc p' p'', nm_capi_selftest (fun _ => bufs1 0) (fun _ => pad0) dataset1 (fun _ => junk0) p = Some (rc, p') /\
    rc = verdict (nm_digest selftest_seed selftest_header selftest_height) (nm_digest selftest_seed (flip_nonce selftest_header) selftest_height) /\
    nm_capi_hash junk0 i (replicate 124 1) 1000 p' = Some (digest_with (replicate 32 4) (dataset_key (seed_params selftest_seed)) (replicate 124 1) 1000, p'').
Proof.
  destruct run0_seeded as (i & p & Hm & Hr).
  destruct (nm_capi_selftest_verdict proc0 p {[i := replicate 32 4]} (Some (replicate 32 4)) (fun _ => bufs1 0) (fun _ => pad0) dataset1 (fun _ => junk0)
    proc0_unused Hr (fun _ => sizes_ok0) dataset1_length (fun _ => junk0_length)) as (rc & p' & E & _ & _ & Hok & Hrc).
  destruct (Hok Hm) as [N1 N2]. destruct Hrc as [K|Hrc]; [destruct (N1 K)|]. destruct Hrc as [K|Hrc]; [destruct (N2 K)|]. destruct Hrc as (Ev & _ & Hh).
  destruct (Hh i (replicate 32 4) junk0 (replicate 124 1) 1000 (lookup_singleton_eq i _) junk0_length) as (p'' & Eh & _).
  exists i, p, rc, p', p''. exact (conj E (conj Ev Eh)).
Defined.
Definition proc3 : proc := mk_proc (mk_heap ∅ 0 (fun i => negb (i =? 3)%nat)) ∅ ∅ no_buffer (replicate 16 0) false false EmptyString.
Lemma proc3_inv : proc_inv proc3.
Proof.
  apply unused_inv. constructor; [intros b [x Hx]; cbn [p_heap proc3 cells] in Hx; rewrite lookup_empty in Hx; discriminate Hx| |exact eq_refl|exact eq_refl].
  intros b Hb; cbn [p_large proc3] in Hb. by apply not_elem_of_empty in Hb.
Qed.
Lemma nm_capi_create_ctx_leaks_witness :
  exists p', nm_capi_create_ctx (bufs1 0) pad0 proc3 = Some (None, p') /\ lost p' 1%nat /\ lost p' 2%nat.
Proof.
  destruct (nm_capi_create_ctx_leaks (bufs1 0) pad0 proc3 proc3_inv eq_refl eq_refl eq_refl eq_refl) as (p' & E & _ & _ & _ & _ & Hl & _).
  exists p'. split; [exact E|]. split; apply Hl; [right; left; exact eq_refl|right; right; exact eq_refl].
Defined.
