(* ===== verification/Reciprocal.v ===== *)
(** * RandomX reciprocals ([crypto/randomx/reciprocal.c]).

    [IMUL_RCP] multiplies by a 64-bit reciprocal of its 32-bit immediate.  The
    portable routine divides bit by bit; the theorems show that it computes the
    quotient its comment announces, and where the shortcut of the GCC build
    agrees with it. *)
From S2P Require Import Prelude.

(** [for (bit = divisor; bit > 0; bit >>= 1) bsr++]: at most 64 trips. *)
Fixpoint count_bits (fuel : nat) (bit bsr : Z) : Z :=
  match fuel with
  | O => bsr
  | S fuel => if 0 <? bit then count_bits fuel (Z.shiftr bit 1) (bsr + 1) else bsr
  end.

(** One trip of the division loop, in 64-bit arithmetic. *)
Definition rcp_step (divisor : Z) (st : Z * Z) : Z * Z :=
  let '(quotient, remainder) := st in
  if T64 (divisor - remainder) <=? remainder
  then (T64 (quotient * 2 + 1), T64 (remainder * 2 - divisor))
  else (T64 (quotient * 2), T64 (remainder * 2)).

Definition randomx_reciprocal (divisor : Z) : Z :=
  let p2exp63 := shl64 1 63 in
  let bsr := count_bits 64 divisor 0 in
  (Nat.iter (Z.to_nat bsr) (rcp_step divisor) (p2exp63 / divisor, p2exp63 mod divisor)).1.

(** [__builtin_clzll] of a nonzero 64-bit word. *)
Definition clzll (x : Z) : Z := 63 - Z.log2 x.

(** The GCC version; a shift by 64 (divisors from 2^63) is undefined there. *)
Definition randomx_reciprocal_fast (divisor : Z) : Z :=
  let q := shl64 1 63 / divisor in
  let r := shl64 1 63 mod divisor in
  let shift := 64 - clzll divisor in
  add64 (shl64 q shift) (shl64 r shift / divisor).

Example reciprocal_3 : randomx_reciprocal 3 = 12297829382473034410.
Proof. vm_compute. reflexivity. Qed.

(** ** Proofs *)

Lemma count_bits_spec fuel bit bsr :
  0 <= bit < 2 ^ Z.of_nat fuel ->
  count_bits fuel bit bsr = bsr + (if bit =? 0 then 0 else Z.log2 bit + 1).
Proof.
  revert bit bsr. induction fuel as [|fuel IH]; intros bit bsr Hb.
  { change (2 ^ Z.of_nat 0) with 1 in Hb. replace bit with 0 by lia. simpl. lia. }
  cbn [count_bits]. destruct (Z.ltb_spec 0 bit).
  - rewrite Z.shiftr_div_pow2 by lia. change (2 ^ 1) with 2.
    replace (Z.of_nat (S fuel)) with (1 + Z.of_nat fuel) in Hb by lia.
    rewrite Z.pow_add_r in Hb by lia. pose proof (Z_div_mod_eq_full bit 2).
    pose proof (Z.mod_pos_bound bit 2 ltac:(lia)).
    rewrite IH by lia. destruct (Z.eqb_spec bit 0); [lia|].
    destruct (Z.eqb_spec (bit / 2) 0) as [E|E].
    + replace bit with 1 by lia. simpl. lia.
    + pose proof (Z.log2_shiftr bit 1 ltac:(lia)) as Hl. rewrite Z.shiftr_div_pow2 in Hl by lia.
      change (2 ^ 1) with 2 in Hl. pose proof (Z.log2_le_mono 2 bit ltac:(lia)) as H2.
      change (Z.log2 2) with 1 in H2. lia.
  - replace bit with 0 by lia. simpl. lia.
Qed.

(** Doubling the dividend. *)
Lemma div_double n d :
  0 < d ->
  (2 * n) / d = 2 * (n / d) + (if d - n mod d <=? n mod d then 1 else 0) /\
  (2 * n) mod d = 2 * (n mod d) - (if d - n mod d <=? n mod d then d else 0).
Proof.
  intros Hd. pose proof (Z_div_mod_eq_full n d) as Hn. pose proof (Z.mod_pos_bound n d Hd).
  set (q := n / d) in *. set (r := n mod d) in *.
  destruct (Z.leb_spec (d - r) r).
  - assert (E : 2 * n = d * (2 * q + 1) + (2 * r - d)) by lia.
    split; symmetry; [eapply Z.div_unique_pos|eapply Z.mod_unique_pos]; try exact E; lia.
  - assert (E : 2 * n = d * (2 * q + 0) + (2 * r - 0)) by lia.
    split; symmetry; [eapply Z.div_unique_pos|eapply Z.mod_unique_pos]; try exact E; lia.
Qed.

Lemma T64_double x y : T64 (T64 x * 2 + y) = T64 (2 * x + y).
Proof.
  rewrite !T64_mod. rewrite <-Z.add_mod_idemp_l, Z.mul_mod_idemp_l, Z.add_mod_idemp_l by lia.
  f_equal. lia.
Qed.

(** The loop invariant: quotient (modulo 2^64) and remainder of [2^(63 + k)]. *)
Lemma rcp_loop divisor k :
  0 < divisor < 2 ^ 64 ->
  Nat.iter k (rcp_step divisor) (2 ^ 63 / divisor, 2 ^ 63 mod divisor)
  = (T64 (2 ^ (63 + Z.of_nat k) / divisor), 2 ^ (63 + Z.of_nat k) mod divisor).
Proof.
  intros Hd. induction k as [|k IH].
  - cbn [Nat.iter nat_rect]. f_equal. symmetry. apply T64_id.
    split; [apply Z.div_pos; lia|]. apply Z.div_lt_upper_bound; [lia|].
    change (2 ^ (63 + Z.of_nat 0)) with (2 ^ 63). nia.
  - cbn [Nat.iter nat_rect]. change (nat_rect _ _ _ k) with
      (Nat.iter k (rcp_step divisor) (2 ^ 63 / divisor, 2 ^ 63 mod divisor)). rewrite IH. unfold rcp_step.
    replace (63 + Z.of_nat (S k)) with (1 + (63 + Z.of_nat k)) by lia. rewrite (Z.pow_add_r 2 1) by lia.
    change (2 ^ 1) with 2. set (n := 2 ^ (63 + Z.of_nat k)).
    destruct (div_double n divisor ltac:(lia)) as [-> ->].
    pose proof (Z.mod_pos_bound n divisor ltac:(lia)).
    rewrite (T64_id (divisor - n mod divisor)) by (unfold word; lia).
    destruct (Z.leb_spec (divisor - n mod divisor) (n mod divisor)).
    + rewrite T64_double. f_equal. rewrite T64_id; [lia|unfold word; lia].
    + f_equal; [|rewrite T64_id; [lia|unfold word; lia]].
      replace (T64 (n / divisor) * 2) with (T64 (n / divisor) * 2 + 0) by lia.
      rewrite T64_double. f_equal.
Qed.

Lemma reciprocal_spec divisor :
  0 < divisor < 2 ^ 64 ->
  randomx_reciprocal divisor = T64 (2 ^ (64 + Z.log2 divisor) / divisor).
Proof.
  intros Hd. unfold randomx_reciprocal. rewrite count_bits_spec by (change (Z.of_nat 64) with 64; lia).
  destruct (Z.eqb_spec divisor 0); [lia|]. pose proof (Z.log2_nonneg divisor).
  change (shl64 1 63) with (2 ^ 63). rewrite rcp_loop by lia. cbn [fst]. do 2 f_equal. f_equal. lia.
Qed.

Lemma pow_bounds divisor :
  0 < divisor -> 2 ^ Z.log2 divisor <= divisor < 2 * 2 ^ Z.log2 divisor.
Proof.
  intros. pose proof (Z.log2_spec divisor ltac:(lia)) as Hs. rewrite Z.pow_succ_r in Hs by apply Z.log2_nonneg. lia.
Qed.

Lemma fast_spec divisor :
  0 < divisor < 2 ^ 32 -> randomx_reciprocal_fast divisor = randomx_reciprocal divisor.
Proof.
  intros Hd. rewrite reciprocal_spec by lia. unfold randomx_reciprocal_fast, clzll.
  change (shl64 1 63) with (2 ^ 63). pose proof (Z.log2_nonneg divisor) as H0.
  assert (Hl : Z.log2 divisor < 32) by (apply Z.log2_lt_pow2; lia).
  replace (64 - (63 - Z.log2 divisor)) with (Z.log2 divisor + 1) by lia.
  replace (64 + Z.log2 divisor) with (63 + (Z.log2 divisor + 1)) by lia.
  set (k := Z.log2 divisor + 1) in *. rewrite Z.pow_add_r by lia.
  pose proof (Z_div_mod_eq_full (2 ^ 63) divisor) as Hn.
  pose proof (Z.mod_pos_bound (2 ^ 63) divisor ltac:(lia)) as Hr.
  set (q := 2 ^ 63 / divisor) in *. set (r := 2 ^ 63 mod divisor) in *. set (p63 := 2 ^ 63) in *.
  assert (Hk : 0 < 2 ^ k <= 2 ^ 32)
    by (split; [apply Z.pow_pos_nonneg; lia|apply Z.pow_le_mono_r; lia]).
  unfold shl64, add64. rewrite !Z.shiftl_mul_pow2 by lia.
  rewrite (T64_id (r * 2 ^ k)) by (unfold word; nia).
  rewrite Hn. replace ((divisor * q + r) * 2 ^ k) with (q * 2 ^ k * divisor + r * 2 ^ k) by ring.
  rewrite Z.div_add_l by lia. rewrite !T64_mod. by rewrite Z.add_mod_idemp_l by lia.
Qed.

(** ** Properties *)

(** C35. The routine computes what its comment says: for a 64-bit divisor that is
    neither 0 nor a power of 2 the result is [2^x / divisor] for the highest [x]
    for which the quotient is below [2^64], although quotient and remainder are
    doubled in wrapping 64-bit arithmetic. *)
Theorem randomx_reciprocal_correct divisor :
  0 < divisor < 2 ^ 64 -> (forall k, 0 <= k -> divisor <> 2 ^ k) ->
  exists x, 0 <= x /\ randomx_reciprocal divisor = 2 ^ x / divisor /\
    2 ^ x / divisor < 2 ^ 64 <= 2 ^ (x + 1) / divisor.
Proof.
  intros Hd Hp. pose proof (Z.log2_nonneg divisor) as Hl. pose proof (pow_bounds divisor ltac:(lia)) as Hb.
  specialize (Hp _ Hl). exists (64 + Z.log2 divisor). rewrite reciprocal_spec by lia.
  rewrite (Z.pow_add_r 2 (64 + _)), !(Z.pow_add_r 2 64) by lia. set (p := 2 ^ Z.log2 divisor) in *.
  change (2 ^ 1) with 2.
  assert (Hq : 2 ^ 64 * p / divisor < 2 ^ 64) by (apply Z.div_lt_upper_bound; nia).
  split_and!; [lia| |done|apply Z.div_le_lower_bound; nia].
  apply T64_id. split; [apply Z.div_pos; lia|done].
Qed.

Lemma not_pow2_3 : forall k, 0 <= k -> 3 <> 2 ^ k.
Proof.
  intros k Hk E. destruct (Z.eq_dec k 0) as [->|]; [done|]. destruct (Z.eq_dec k 1) as [->|]; [done|].
  pose proof (Z.pow_le_mono_r 2 2 k ltac:(lia) ltac:(lia)). lia.
Qed.

Lemma randomx_reciprocal_correct_witness :
  exists x, 0 <= x /\ randomx_reciprocal 3 = 2 ^ x / 3 /\ 2 ^ x / 3 < 2 ^ 64 <= 2 ^ (x + 1) / 3.
Proof. apply randomx_reciprocal_correct; [lia|apply not_pow2_3]. Defined.

(** Divisors that are powers of 2, which the comment excludes, give 0: the
    quotient is exactly [2^64] and wraps. *)
Lemma randomx_reciprocal_pow2 k :
  0 <= k < 64 -> randomx_reciprocal (2 ^ k) = 0.
Proof.
  intros Hk. pose proof (Z.pow_pos_nonneg 2 k ltac:(lia) ltac:(lia)).
  pose proof (Z.pow_lt_mono_r 2 k 64 ltac:(lia) ltac:(lia) ltac:(lia)).
  rewrite reciprocal_spec, Z.log2_pow2 by lia. rewrite Z.pow_add_r, Z.div_mul by lia. reflexivity.
Qed.

(** The fast version equals the portable one on every nonzero 32-bit divisor,
    the only ones [IMUL_RCP] passes. *)
Lemma randomx_reciprocal_fast_equiv divisor :
  0 < divisor < 2 ^ 32 -> randomx_reciprocal_fast divisor = randomx_reciprocal divisor.
Proof. apply fast_spec. Qed.


(** Beyond 32 bits the shifted remainder loses its high bits. *)
Example fast_differs_above_32_bits :
  randomx_reciprocal_fast (2 ^ 40 + 1) <> randomx_reciprocal (2 ^ 40 + 1).
Proof. vm_compute. discriminate. Qed.
