(* ===== verification/Blake2b.v ===== *)
(** * BLAKE2b of the RandomX core ([crypto/randomx/blake2/blake2b.c]).

    The streaming state keeps its last block unprocessed until more input
    arrives (the final block is compressed with another flag), so it refines a
    lazy variant of the byte-at-a-time machine.  The digests are compared with
    RFC 7693, the variable-length hash with the function H' of Argon2. *)
From S2P Require Import Prelude Stream.

Definition BLAKE2B_BLOCKBYTES : nat := 128.
Definition BLAKE2B_OUTBYTES : nat := 64.
Definition BLAKE2B_KEYBYTES : nat := 64.

Record blake2b_state := mk_blake2b {
  bs_h : list Z;          (* uint64_t h[8] *)
  bs_t : list Z;          (* uint64_t t[2] *)
  bs_f : list Z;          (* uint64_t f[2] *)
  bs_buf : list Z;        (* uint8_t buf[128] *)
  bs_buflen : nat;
  bs_outlen : nat;
  bs_last_node : bool
}.

Record blake2b_param := mk_blake2b_param {
  digest_length : Z;
  key_length : Z;
  fanout : Z;
  depth : Z;
  leaf_length : Z;
  node_offset : Z;
  node_depth : Z;
  inner_length : Z;
  reserved : list Z;
  salt : list Z;
  personal : list Z
}.

(** The bytes of the packed struct. *)
Definition param_bytes (P : blake2b_param) : list Z :=
  [digest_length P; key_length P; fanout P; depth P] ++ le_store 4 (leaf_length P) ++
  le_store 8 (node_offset P) ++ [node_depth P; inner_length P] ++ reserved P ++ salt P ++ personal P.

Definition blake2b_IV : list Z := [
  0x6a09e667f3bcc908; 0xbb67ae8584caa73b; 0x3c6ef372fe94f82b; 0xa54ff53a5f1d36f1;
  0x510e527fade682d1; 0x9b05688c2b3e6c1f; 0x1f83d9abfb41bd6b; 0x5be0cd19137e2179].

Definition blake2b_sigma : list (list nat) := [
  [0; 1; 2; 3; 4; 5; 6; 7; 8; 9; 10; 11; 12; 13; 14; 15];
  [14; 10; 4; 8; 9; 15; 13; 6; 1; 12; 0; 2; 11; 7; 5; 3];
  [11; 8; 12; 0; 5; 2; 15; 13; 10; 14; 3; 6; 7; 1; 9; 4];
  [7; 9; 3; 1; 13; 12; 11; 14; 2; 6; 5; 10; 4; 0; 15; 8];
  [9; 0; 5; 7; 2; 4; 10; 15; 14; 1; 11; 12; 6; 8; 3; 13];
  [2; 12; 6; 10; 0; 11; 8; 3; 4; 13; 7; 5; 15; 14; 1; 9];
  [12; 5; 1; 15; 14; 13; 4; 10; 0; 7; 6; 3; 9; 2; 8; 11];
  [13; 11; 7; 14; 12; 1; 3; 9; 5; 0; 15; 4; 8; 6; 2; 10];
  [6; 15; 14; 9; 11; 3; 0; 8; 12; 2; 13; 7; 1; 4; 10; 5];
  [10; 2; 8; 4; 7; 6; 1; 5; 15; 11; 9; 14; 3; 12; 13; 0];
  [0; 1; 2; 3; 4; 5; 6; 7; 8; 9; 10; 11; 12; 13; 14; 15];
  [14; 10; 4; 8; 9; 15; 13; 6; 1; 12; 0; 2; 11; 7; 5; 3]]%nat.

Definition load64 (src : list Z) : Z := le_load 8 src.
Definition store64 (w : Z) : list Z := le_store 8 w.
Definition store32 (w : Z) : list Z := le_store 4 w.
Definition UINT64_MAX : Z := 0xFFFFFFFFFFFFFFFF.

(** ** Flags and counter *)

Definition set_f (st : blake2b_state) (i : nat) (x : Z) : blake2b_state :=
  mk_blake2b (bs_h st) (bs_t st) (<[i := x]> (bs_f st)) (bs_buf st) (bs_buflen st) (bs_outlen st) (bs_last_node st).
Definition blake2b_set_lastnode (st : blake2b_state) : blake2b_state := set_f st 1 UINT64_MAX.
Definition blake2b_set_lastblock (st : blake2b_state) : blake2b_state :=
  let st := if bs_last_node st then blake2b_set_lastnode st else st in
  set_f st 0 UINT64_MAX.
Definition blake2b_increment_counter (st : blake2b_state) (inc : Z) : blake2b_state :=
  let t0 := add64 (bs_t st !!! 0%nat) inc in
  let t1 := add64 (bs_t st !!! 1%nat) (if t0 <? inc then 1 else 0) in
  mk_blake2b (bs_h st) [t0; t1] (bs_f st) (bs_buf st) (bs_buflen st) (bs_outlen st) (bs_last_node st).
Definition blake2b_invalidate_state (st : blake2b_state) : blake2b_state := blake2b_set_lastblock st.

(** ** Compression *)

Definition G (m : list Z) (r i a b c d : nat) (v : list Z) : list Z :=
  let sg := blake2b_sigma !!! r in
  let v := <[a := add64 (add64 (v !!! a) (v !!! b)) (m !!! (sg !!! (2 * i)%nat))]> v in
  let v := <[d := rotr64 (Z.lxor (v !!! d) (v !!! a)) 32]> v in
  let v := <[c := add64 (v !!! c) (v !!! d)]> v in
  let v := <[b := rotr64 (Z.lxor (v !!! b) (v !!! c)) 24]> v in
  let v := <[a := add64 (add64 (v !!! a) (v !!! b)) (m !!! (sg !!! (2 * i + 1)%nat))]> v in
  let v := <[d := rotr64 (Z.lxor (v !!! d) (v !!! a)) 16]> v in
  let v := <[c := add64 (v !!! c) (v !!! d)]> v in
  <[b := rotr64 (Z.lxor (v !!! b) (v !!! c)) 63]> v.

Definition ROUND (m v : list Z) (r : nat) : list Z :=
  let v := G m r 0 0 4 8 12 v in
  let v := G m r 1 1 5 9 13 v in
  let v := G m r 2 2 6 10 14 v in
  let v := G m r 3 3 7 11 15 v in
  let v := G m r 4 0 5 10 15 v in
  let v := G m r 5 1 6 11 12 v in
  let v := G m r 6 2 7 8 13 v in
  G m r 7 3 4 9 14 v.

Definition rx_blake2b_compress_integer (st : blake2b_state) (block : list Z) : blake2b_state :=
  let m := tabulate 16 (fun i => load64 (drop (i * 8) block)) in
  let v := tabulate 8 (fun i => bs_h st !!! i) ++
    [blake2b_IV !!! 0%nat; blake2b_IV !!! 1%nat; blake2b_IV !!! 2%nat; blake2b_IV !!! 3%nat;
     Z.lxor (blake2b_IV !!! 4%nat) (bs_t st !!! 0%nat); Z.lxor (blake2b_IV !!! 5%nat) (bs_t st !!! 1%nat);
     Z.lxor (blake2b_IV !!! 6%nat) (bs_f st !!! 0%nat); Z.lxor (blake2b_IV !!! 7%nat) (bs_f st !!! 1%nat)] in
  let v := foldl (ROUND m) v (seq 0 12) in
  mk_blake2b (tabulate 8 (fun i => Z.lxor (Z.lxor (bs_h st !!! i) (v !!! i)) (v !!! (i + 8)%nat)))
    (bs_t st) (bs_f st) (bs_buf st) (bs_buflen st) (bs_outlen st) (bs_last_node st).

(** The function pointer [rx_blake2b_compress], as the portable build sets it. *)
Definition rx_blake2b_compress := rx_blake2b_compress_integer.

(** ** Streaming interface.  The result pairs the return code with the state;
    [None] for a data pointer is NULL. *)

Definition blake2b_init0 : blake2b_state :=
  mk_blake2b blake2b_IV [0; 0] [0; 0] (replicate BLAKE2B_BLOCKBYTES 0) 0 0 false.

Definition rx_blake2b_init_param (st : blake2b_state) (P : option blake2b_param) : Z * blake2b_state :=
  match P with
  | None => (-1, st)
  | Some P =>
      let p := param_bytes P in
      let st := blake2b_init0 in
      let h := foldl (fun h i => <[i := Z.lxor (h !!! i) (load64 (drop (i * 8) p))]> h) (bs_h st) (seq 0 8) in
      (0, mk_blake2b h (bs_t st) (bs_f st) (bs_buf st) (bs_buflen st) (Z.to_nat (digest_length P)) (bs_last_node st))
  end.

Definition sequential_param (outlen keylen : nat) : blake2b_param :=
  mk_blake2b_param (T8 (Z.of_nat outlen)) (T8 (Z.of_nat keylen)) 1 1 0 0 0 0
    (replicate 14 0) (replicate 16 0) (replicate 16 0).

Definition rx_blake2b_init (st : blake2b_state) (outlen : nat) : Z * blake2b_state :=
  if (outlen =? 0)%nat || (BLAKE2B_OUTBYTES <? outlen)%nat then (-1, blake2b_invalidate_state st)
  else rx_blake2b_init_param st (Some (sequential_param outlen 0)).

(** [while (inlen > BLAKE2B_BLOCKBYTES)]: each trip consumes a block. *)
Fixpoint update_blocks (fuel : nat) (st : blake2b_state) (pin : list Z) : blake2b_state * list Z :=
  match fuel with
  | O => (st, pin)
  | S fuel =>
      if (BLAKE2B_BLOCKBYTES <? length pin)%nat then
        let st := blake2b_increment_counter st (Z.of_nat BLAKE2B_BLOCKBYTES) in
        let st := rx_blake2b_compress st pin in
        update_blocks fuel st (drop BLAKE2B_BLOCKBYTES pin)
      else (st, pin)
  end.

Definition with_buf (st : blake2b_state) (buf : list Z) (buflen : nat) : blake2b_state :=
  mk_blake2b (bs_h st) (bs_t st) (bs_f st) buf buflen (bs_outlen st) (bs_last_node st).

Definition rx_blake2b_update (st : blake2b_state) (inp : option (list Z)) (inlen : nat) : Z * blake2b_state :=
  if (inlen =? 0)%nat then (0, st) else
  match inp with
  | None => (-1, st)
  | Some pin =>
      if negb (bs_f st !!! 0%nat =? 0) then (-1, st) else
      let pin := take inlen pin in
      let '(st, pin) :=
        if (BLAKE2B_BLOCKBYTES <? bs_buflen st + inlen)%nat then
          let left := bs_buflen st in
          let fill := (BLAKE2B_BLOCKBYTES - left)%nat in
          let st := with_buf st (memcpy (bs_buf st) left (take fill pin)) (bs_buflen st) in
          let st := blake2b_increment_counter st (Z.of_nat BLAKE2B_BLOCKBYTES) in
          let st := rx_blake2b_compress st (bs_buf st) in
          let st := with_buf st (bs_buf st) 0 in
          update_blocks inlen st (drop fill pin)
        else (st, pin) in
      (0, with_buf st (memcpy (bs_buf st) (bs_buflen st) pin) (bs_buflen st + length pin))
  end.

Definition rx_blake2b_init_key (st : blake2b_state) (outlen : nat) (key : option (list Z)) (keylen : nat)
    : Z * blake2b_state :=
  if (outlen =? 0)%nat || (BLAKE2B_OUTBYTES <? outlen)%nat then (-1, blake2b_invalidate_state st) else
  match key with
  | None => (-1, blake2b_invalidate_state st)
  | Some key =>
      if (keylen =? 0)%nat || (BLAKE2B_KEYBYTES <? keylen)%nat then (-1, blake2b_invalidate_state st) else
      let '(rc, st) := rx_blake2b_init_param st (Some (sequential_param outlen keylen)) in
      if rc <? 0 then (-1, blake2b_invalidate_state st) else
      let block := memcpy (replicate BLAKE2B_BLOCKBYTES 0) 0 (take keylen key) in
      (0, (rx_blake2b_update st (Some block) BLAKE2B_BLOCKBYTES).2)
  end.

(** [out] has [outlen] bytes; the third component is what it holds afterwards. *)
Definition rx_blake2b_final (st : blake2b_state) (out : option (list Z)) (outlen : nat)
    : Z * blake2b_state * option (list Z) :=
  match out with
  | None => (-1, st, out)
  | Some o =>
      if (outlen <? bs_outlen st)%nat then (-1, st, out) else
      if negb (bs_f st !!! 0%nat =? 0) then (-1, st, out) else
      let st := blake2b_increment_counter st (Z.of_nat (bs_buflen st)) in
      let st := blake2b_set_lastblock st in
      let st := with_buf st (memset0 (bs_buf st) (bs_buflen st) (BLAKE2B_BLOCKBYTES - bs_buflen st)) (bs_buflen st) in
      let st := rx_blake2b_compress st (bs_buf st) in
      let buffer := foldl (fun b i => memcpy b (8 * i) (store64 (bs_h st !!! i)))
                      (replicate BLAKE2B_OUTBYTES 0) (seq 0 8) in
      (0, st, Some (memcpy o 0 (take (bs_outlen st) buffer)))
  end.

(** [S0] is what the state on the stack held. *)
Definition rx_blake2b_default (S0 : blake2b_state) (out : option (list Z)) (outlen : nat)
    (inp : option (list Z)) (inlen : nat) : Z * option (list Z) :=
  match inp, (0 <? inlen)%nat with
  | None, true => (-1, out)
  | _, _ =>
      match out with
      | None => (-1, out)
      | Some _ =>
          if (outlen =? 0)%nat || (BLAKE2B_OUTBYTES <? outlen)%nat then (-1, out) else
          let '(rc, st) := rx_blake2b_init S0 outlen in
          if rc <? 0 then (-1, out) else
          let '(rc, st) := rx_blake2b_update st inp inlen in
          if rc <? 0 then (-1, out) else
          let '(rc, _, out) := rx_blake2b_final st out outlen in (rc, out)
      end
  end.

(** ** The variable-length hash of Argon2 *)

(** [while (toproduce > BLAKE2B_OUTBYTES)]: half a digest per trip; [p] is the
    offset of [out] in the caller's buffer. *)
Fixpoint long_loop (fuel : nat) (st0 : blake2b_state) (out : list Z) (p : nat) (out_buffer : list Z)
    (toproduce : nat) : Z * list Z :=
  match fuel with
  | O => (0, out)
  | S fuel =>
      let in_buffer := out_buffer in
      if (BLAKE2B_OUTBYTES <? toproduce)%nat then
        match rx_blake2b_default st0 (Some out_buffer) BLAKE2B_OUTBYTES (Some in_buffer) BLAKE2B_OUTBYTES with
        | (rc, Some out_buffer) =>
            if rc <? 0 then (rc, out) else
            let out := memcpy out p (take (BLAKE2B_OUTBYTES / 2) out_buffer) in
            long_loop fuel st0 out (p + BLAKE2B_OUTBYTES / 2) out_buffer (toproduce - BLAKE2B_OUTBYTES / 2)
        | (rc, None) => (rc, out)
        end
      else
        match rx_blake2b_default st0 (Some out_buffer) toproduce (Some in_buffer) BLAKE2B_OUTBYTES with
        | (rc, Some out_buffer) =>
            if rc <? 0 then (rc, out) else (rc, memcpy out p (take toproduce out_buffer))
        | (rc, None) => (rc, out)
        end
  end.

(** [TRY(init); TRY(update outlen_bytes); TRY(update in); TRY(final)]. *)
Definition long_first (st0 : blake2b_state) (dest : list Z) (n : nat) (outlen_bytes : list Z)
    (inp : option (list Z)) (inlen : nat) : Z * option (list Z) :=
  let '(rc, st) := rx_blake2b_init st0 n in
  if rc <? 0 then (rc, Some dest) else
  let '(rc, st) := rx_blake2b_update st (Some outlen_bytes) 4 in
  if rc <? 0 then (rc, Some dest) else
  let '(rc, st) := rx_blake2b_update st inp inlen in
  if rc <? 0 then (rc, Some dest) else
  let '(rc, _, dest) := rx_blake2b_final st (Some dest) n in (rc, dest).

(** [ob] is what the array [out_buffer] on the stack held. *)
Definition rxa2_blake2b_long (st0 : blake2b_state) (ob : list Z) (out : list Z) (outlen : nat)
    (inp : option (list Z)) (inlen : nat) : Z * list Z :=
  if 0xFFFFFFFF <? Z.of_nat outlen then (-1, out) else
  let outlen_bytes := store32 (Z.of_nat outlen) in
  if (outlen <=? BLAKE2B_OUTBYTES)%nat then
    match long_first st0 out outlen outlen_bytes inp inlen with
    | (rc, Some out) => (rc, out)
    | (rc, None) => (rc, out)
    end
  else
    match long_first st0 ob BLAKE2B_OUTBYTES outlen_bytes inp inlen with
    | (rc, Some ob) =>
        if rc <? 0 then (rc, out) else
        let out := memcpy out 0 (take (BLAKE2B_OUTBYTES / 2) ob) in
        long_loop outlen st0 out (BLAKE2B_OUTBYTES / 2) ob (outlen - BLAKE2B_OUTBYTES / 2)
    | (rc, None) => (rc, out)
    end.

(** Known answers: the digest of "abc" and a keyed one. *)
Definition state0 : blake2b_state := mk_blake2b [] [] [] [] 0 0 false.
Example blake2b_abc :
  rx_blake2b_default state0 (Some (replicate 64 0)) 64 (Some [0x61; 0x62; 0x63]) 3
  = (0, Some [186; 128; 165; 63; 152; 28; 77; 13; 106; 39; 151; 182; 159; 18; 246; 233; 76; 33; 47; 20; 104; 90; 196;
      183; 75; 18; 187; 111; 219; 255; 162; 209; 125; 135; 197; 57; 42; 171; 121; 45; 194; 82; 213; 222; 69; 51; 204;
      149; 24; 211; 138; 168; 219; 241; 146; 90; 185; 35; 134; 237; 212; 0; 153; 35]).
Proof. vm_compute. reflexivity. Qed.

(** ** RFC 7693 *)

(** The message word permutation has ten rows, used cyclically. *)
Definition rfc_sigma (r : nat) : list nat := take 10 blake2b_sigma !!! (r mod 10)%nat.

(** The initial value of SHA-512: the first 64 bits of the fractional parts of the
    square roots of the first eight primes. *)
Definition rfc_IV : list Z := (fun p => Z.sqrt (p * 2 ^ 128) mod 2 ^ 64) <$> take 8 primes.
Lemma IV_rfc : blake2b_IV = rfc_IV.
Proof. vm_compute. reflexivity. Qed.

Definition rfc_G (v : list Z) (a b c d : nat) (x y : Z) : list Z :=
  let va := (v !!! a + v !!! b + x) mod 2 ^ 64 in
  let vd := rotr64 (Z.lxor (v !!! d) va) 32 in
  let vc := (v !!! c + vd) mod 2 ^ 64 in
  let vb := rotr64 (Z.lxor (v !!! b) vc) 24 in
  let va' := (va + vb + y) mod 2 ^ 64 in
  let vd' := rotr64 (Z.lxor vd va') 16 in
  let vc' := (vc + vd') mod 2 ^ 64 in
  let vb' := rotr64 (Z.lxor vb vc') 63 in
  <[b := vb']> (<[c := vc']> (<[d := vd']> (<[a := va']> v))).

Definition rfc_round (m v : list Z) (r : nat) : list Z :=
  let s := rfc_sigma r in
  foldl (fun v '(i, (a, b, c, d)) => rfc_G v a b c d (m !!! (s !!! (2 * i)%nat)) (m !!! (s !!! (2 * i + 1)%nat))) v
    [(0, (0, 4, 8, 12)); (1, (1, 5, 9, 13)); (2, (2, 6, 10, 14)); (3, (3, 7, 11, 15));
     (4, (0, 5, 10, 15)); (5, (1, 6, 11, 12)); (6, (2, 7, 8, 13)); (7, (3, 4, 9, 14))]%nat.

(** The compression function F: [t] is the offset counter, [last] the final flag. *)
Definition rfc_F (h blk : list Z) (t : Z) (last : bool) : list Z :=
  let m := tabulate 16 (fun i => le_load 8 (drop (8 * i) blk)) in
  let v := h ++ rfc_IV in
  let v := <[12%nat := Z.lxor (v !!! 12%nat) (t mod 2 ^ 64)]> v in
  let v := <[13%nat := Z.lxor (v !!! 13%nat) (t / 2 ^ 64 mod 2 ^ 64)]> v in
  let v := if last then <[14%nat := Z.lxor (v !!! 14%nat) UINT64_MAX]> v else v in
  let v := foldl (rfc_round m) v (seq 0 12) in
  tabulate 8 (fun i => Z.lxor (Z.lxor (h !!! i) (v !!! i)) (v !!! (i + 8)%nat)).

(** [h[0]] carries the parameters 0x0101kknn. *)
Definition rfc_h0 (nn kk : nat) : list Z :=
  <[0%nat := Z.lxor (Z.lxor (Z.lxor (rfc_IV !!! 0%nat) 0x01010000) (Z.shiftl (Z.of_nat kk) 8)) (Z.of_nat nn)]>
    rfc_IV.

Definition zero_pad (b : nat) (l : list Z) : list Z := l ++ replicate (b - length l) 0.

(** All blocks but the last, then the last one, padded, with the final flag. *)
Definition nfull (m : list Z) : nat := ((length m - 1) / 128)%nat.
Definition rfc_blake2b_state (h0 m : list Z) : list Z :=
  foldl (fun h i => rfc_F h (slice (128 * i) 128 m) (128 * (Z.of_nat i + 1)) false) h0 (seq 0 (nfull m)).
Definition rfc_blake2b (nn : nat) (key m : list Z) : list Z :=
  let d := (if (length key =? 0)%nat then [] else zero_pad 128 key) ++ m in
  let h := rfc_blake2b_state (rfc_h0 nn (length key)) d in
  let h := rfc_F h (zero_pad 128 (drop (128 * nfull d) d)) (Z.of_nat (length d)) true in
  take nn (flat_map (le_store 8) h).

(** ** The compression function is F *)

Lemma add64_3 x y z : add64 (add64 x y) z = (x + y + z) mod 2 ^ 64.
Proof. unfold add64. rewrite !T64_mod. by rewrite Z.add_mod_idemp_l by lia. Qed.
Lemma add64_mod x y : add64 x y = (x + y) mod 2 ^ 64.
Proof. apply T64_mod. Qed.

(** Four different cells of an array. *)
Definition distinct4 (n a b c d : nat) : Prop :=
  (a < n /\ b < n /\ c < n /\ d < n /\ a <> b /\ a <> c /\ a <> d /\ b <> c /\ b <> d /\ c <> d)%nat.

(** Overwritten cells do not matter. *)
Lemma insert_twice (v : list Z) (a b c d : nat) (A A' B B' C C' D D' : Z) :
  distinct4 (length v) a b c d ->
  <[b := B']> (<[c := C']> (<[d := D']> (<[a := A']> (<[b := B]> (<[c := C]> (<[d := D]> (<[a := A]> v)))))))
  = <[b := B']> (<[c := C']> (<[d := D']> (<[a := A']> v))).
Proof.
  intros (? & ? & ? & ? & ? & ? & ? & ? & ? & ?).
  apply list_eq_total; [by rewrite !length_insert|]. intros i Hi.
  rewrite !lookup_total_insert by (rewrite ?length_insert; lia). repeat case_decide; done.
Qed.

Ltac lookups :=
  repeat first [rewrite list_lookup_total_insert_ne by lia
               |rewrite list_lookup_total_insert_eq by (rewrite ?length_insert; lia)].

Lemma G_rfc m r i a b c d v :
  (r < 12)%nat -> distinct4 (length v) a b c d ->
  G m r i a b c d v
  = rfc_G v a b c d (m !!! (rfc_sigma r !!! (2 * i)%nat)) (m !!! (rfc_sigma r !!! (2 * i + 1)%nat)).
Proof.
  intros Hr Hd. assert (Hs : blake2b_sigma !!! r = rfc_sigma r)
    by (do 12 (destruct r as [|r]; [reflexivity|]); lia).
  unfold G, rfc_G. rewrite Hs. set (x := m !!! _). set (y := m !!! _). clearbody x y.
  pose proof Hd as (? & ? & ? & ? & ? & ? & ? & ? & ? & ?). cbv zeta.
  rewrite !add64_3, !add64_mod. lookups. by rewrite insert_twice.
Qed.

Lemma length_rfc_G v a b c d x y : length (rfc_G v a b c d x y) = length v.
Proof. unfold rfc_G. by rewrite !length_insert. Qed.

Lemma ROUND_rfc m v r : length v = 16%nat -> (r < 12)%nat -> ROUND m v r = rfc_round m v r.
Proof.
  intros Hv Hr. unfold ROUND, rfc_round. cbn [foldl].
  rewrite (G_rfc m r 0), (G_rfc m r 1), (G_rfc m r 2), (G_rfc m r 3), (G_rfc m r 4), (G_rfc m r 5),
    (G_rfc m r 6), (G_rfc m r 7) by (done || (unfold distinct4; rewrite ?length_rfc_G, Hv; lia)).
  reflexivity.
Qed.

Lemma length_rfc_round m v r : length (rfc_round m v r) = length v.
Proof. unfold rfc_round. cbn [foldl]. by rewrite !length_rfc_G. Qed.

Lemma rounds_rfc m v k :
  length v = 16%nat -> (k <= 12)%nat ->
  foldl (ROUND m) v (seq 0 k) = foldl (rfc_round m) v (seq 0 k) /\
  length (foldl (rfc_round m) v (seq 0 k)) = 16%nat.
Proof.
  intros Hv. induction k as [|k IH]; intros Hk; [done|]. destruct IH as [IH1 IH2]; [lia|].
  rewrite seq_S, !foldl_app. cbn [foldl Nat.add]. rewrite IH1, ROUND_rfc, length_rfc_round by (done || lia). done.
Qed.

(** What the fields of a state stand for: the chaining value, the number of bytes
    compressed so far (modulo [2^128]) and the bytes waiting in the buffer. *)
Definition counter (st : blake2b_state) : Z := bs_t st !!! 0%nat + 2 ^ 64 * bs_t st !!! 1%nat.

Definition shape (st : blake2b_state) : Prop :=
  length (bs_h st) = 8%nat /\ length (bs_t st) = 2%nat /\ words64 (bs_t st) /\
  length (bs_buf st) = 128%nat /\ bs_last_node st = false.

Lemma counter_range st : words64 (bs_t st) -> 0 <= counter st < 2 ^ 128.
Proof.
  intros H. unfold counter. pose proof (words64_lookup _ 0 H) as [? ?]. pose proof (words64_lookup _ 1 H) as [? ?].
  replace (2 ^ 128) with (2 ^ 64 * 2 ^ 64) by lia. nia.
Qed.

Lemma counter_split st :
  words64 (bs_t st) -> bs_t st !!! 0%nat = counter st mod 2 ^ 64 /\ bs_t st !!! 1%nat = counter st / 2 ^ 64 mod 2 ^ 64.
Proof.
  intros H. unfold counter. pose proof (words64_lookup _ 0 H) as [? ?]. pose proof (words64_lookup _ 1 H) as [? ?].
  set (t0 := bs_t st !!! 0%nat) in *. set (t1 := bs_t st !!! 1%nat) in *. clearbody t0 t1.
  replace (t0 + 2 ^ 64 * t1) with (t0 + t1 * 2 ^ 64) by lia.
  rewrite Z.mod_add, Z.div_add, (Z.div_small t0), Z.add_0_l, !Z.mod_small by lia. done.
Qed.

(** The two-word increment with its carry. *)
Lemma increment_counter st inc :
  words64 (bs_t st) -> 0 <= inc < 2 ^ 64 ->
  counter (blake2b_increment_counter st inc) = (counter st + inc) mod 2 ^ 128 /\
  words64 (bs_t (blake2b_increment_counter st inc)).
Proof.
  intros H Hi. split; [|repeat constructor; apply word_T64].
  unfold counter, blake2b_increment_counter; cbn [bs_t].
  pose proof (words64_lookup _ 0 H) as [? ?]. pose proof (words64_lookup _ 1 H) as [? ?].
  set (t0 := bs_t st !!! 0%nat) in *. set (t1 := bs_t st !!! 1%nat) in *. clearbody t0 t1.
  cbn [lookup_total list_lookup_total]. unfold add64. rewrite !T64_mod.
  pose proof (Z_div_mod_eq_full (t0 + inc) (2 ^ 64)) as Hd.
  pose proof (Z.mod_pos_bound (t0 + inc) (2 ^ 64) ltac:(lia)) as Hm.
  set (w := (t0 + inc) mod 2 ^ 64) in *. set (k := (t0 + inc) / 2 ^ 64) in *.
  assert (Hk : k = if w <? inc then 1 else 0) by (destruct (Z.ltb_spec w inc); lia).
  rewrite <-Hk. clearbody w k. clear Hk.
  replace (2 ^ 128) with (2 ^ 64 * 2 ^ 64) by lia.
  replace (t0 + 2 ^ 64 * t1 + inc) with (w + 2 ^ 64 * (t1 + k)) by lia.
  rewrite Z.rem_mul_r by lia. replace (w + 2 ^ 64 * (t1 + k)) with (w + (t1 + k) * 2 ^ 64) by lia.
  rewrite Z.mod_add, Z.div_add, (Z.mod_small w), (Z.div_small w) by lia. f_equal.
Qed.

Lemma compress_rfc st blk last :
  shape st -> bs_f st = [if last : bool then UINT64_MAX else 0; 0] ->
  bs_h (rx_blake2b_compress st blk) = rfc_F (bs_h st) blk (counter st) last.
Proof.
  intros (Hh & _ & Ht & _) Hf. unfold rx_blake2b_compress, rx_blake2b_compress_integer, rfc_F. rewrite <-IV_rfc. cbn [bs_h].
  destruct (counter_split st Ht) as [<- <-]. rewrite Hf.
  assert (Hm : tabulate 16 (fun i => load64 (drop (i * 8) blk)) = tabulate 16 (fun i => le_load 8 (drop (8 * i) blk))).
  { apply list_fmap_ext. intros i j _. unfold load64. do 2 f_equal. lia. }
  rewrite Hm. set (m := tabulate 16 _). clearbody m.
  destruct (rounds_rfc m (tabulate 8 (fun i => bs_h st !!! i) ++
    [blake2b_IV !!! 0%nat; blake2b_IV !!! 1%nat; blake2b_IV !!! 2%nat; blake2b_IV !!! 3%nat;
     Z.lxor (blake2b_IV !!! 4%nat) (bs_t st !!! 0%nat); Z.lxor (blake2b_IV !!! 5%nat) (bs_t st !!! 1%nat);
     Z.lxor (blake2b_IV !!! 6%nat) ([if last then UINT64_MAX else 0; 0] !!! 0%nat);
     Z.lxor (blake2b_IV !!! 7%nat) ([if last then UINT64_MAX else 0; 0] !!! 1%nat)]) 12) as [-> _]; [done|lia|].
  set (t0 := bs_t st !!! 0%nat). set (t1 := bs_t st !!! 1%nat). clearbody t0 t1.
  match goal with |- tabulate 8 (fun i => Z.lxor (Z.lxor _ (foldl _ ?v _ !!! _)) _) = tabulate 8 (fun j => Z.lxor (Z.lxor _ (foldl _ ?w _ !!! _)) _) =>
    assert (Hv : v = w) end.
  { destruct (bs_h st) as [|h0 [|h1 [|h2 [|h3 [|h4 [|h5 [|h6 [|h7 [|]]]]]]]]]; try done. by destruct last. }
  by rewrite Hv.
Qed.

(** ** The streaming state refines the lazy machine *)

(** One compressed block of the body of a message. *)
Definition body_block (s : list Z * Z) (blk : list Z) : list Z * Z :=
  let t := (s.2 + 128) mod 2 ^ 128 in (rfc_F s.1 blk t false, t).

Record open_state (st : blake2b_state) : Prop := {
  open_shape : shape st;
  open_flags : bs_f st = [0; 0];
  open_fill : (bs_buflen st <= 128)%nat
}.

Definition abs (st : blake2b_state) : (list Z * Z) * list Z :=
  ((bs_h st, counter st), take (bs_buflen st) (bs_buf st)).

Lemma length_rfc_F h blk t last : length (rfc_F h blk t last) = 8%nat.
Proof. apply length_tabulate. Qed.

Lemma rfc_F_take h blk t last : (128 <= length blk)%nat -> rfc_F h blk t last = rfc_F h (take 128 blk) t last.
Proof.
  intros Hl. unfold rfc_F.
  assert (Hm : tabulate 16 (fun i => le_load 8 (drop (8 * i) blk)) = tabulate 16 (fun i => le_load 8 (drop (8 * i) (take 128 blk)))).
  { apply list_fmap_ext. intros i j [-> Hj]%lookup_seq. apply gather_ext. intros k Hk.
    rewrite !lookup_total_drop, lookup_total_take_lt by lia. done. }
  by rewrite Hm.
Qed.

(** Counting and compressing one block of the body. *)
Definition block_step (st : blake2b_state) (blk : list Z) : blake2b_state :=
  rx_blake2b_compress (blake2b_increment_counter st (Z.of_nat BLAKE2B_BLOCKBYTES)) blk.

Lemma block_step_ok st blk :
  open_state st -> (128 <= length blk)%nat ->
  let st' := block_step st blk in
  open_state st' /\ (bs_h st', counter st') = body_block (bs_h st, counter st) (take 128 blk) /\
  bs_buf st' = bs_buf st /\ bs_buflen st' = bs_buflen st /\ bs_outlen st' = bs_outlen st.
Proof.
  intros [(Hh & Htl & Ht & Hb & Hn) Hf Hl] Hblk st'.
  destruct (increment_counter st (Z.of_nat BLAKE2B_BLOCKBYTES) Ht ltac:(unfold BLAKE2B_BLOCKBYTES; lia)) as [Hc Hw].
  assert (Hst : bs_h st' = rfc_F (bs_h st) (take 128 blk) ((counter st + 128) mod 2 ^ 128) false).
  { unfold st', block_step. rewrite (compress_rfc _ blk false); [|by split_and!|exact Hf].
    rewrite Hc. by apply rfc_F_take. }
  assert (Hct : counter st' = (counter st + 128) mod 2 ^ 128) by exact Hc.
  split_and!; try reflexivity.
  - constructor; [|exact Hf|exact Hl]. by split_and!.
  - unfold body_block; cbn [fst snd]. congruence.
Qed.

Lemma update_blocks_ok fuel st pin :
  open_state st -> (0 < length pin)%nat -> (length pin <= fuel)%nat ->
  exists st' rest, update_blocks fuel st pin = (st', rest) /\ open_state st' /\ (0 < length rest <= 128)%nat /\
    bs_buflen st' = bs_buflen st /\ bs_outlen st' = bs_outlen st /\ bs_buf st' = bs_buf st /\
    lazy 128 body_block ((bs_h st, counter st), []) pin = lazy 128 body_block ((bs_h st', counter st'), []) rest.
Proof.
  revert st pin. induction fuel as [|fuel IH]; intros st pin Hst Hp Hf; [lia|].
  cbn [update_blocks]. unfold BLAKE2B_BLOCKBYTES at 1. destruct (Nat.ltb_spec 128 (length pin)) as [Hlt|Hge].
  2: { exists st, pin. split_and!; try done; lia. }
  destruct (block_step_ok st pin Hst ltac:(lia)) as (Hst' & Habs & Hbuf & Hbl & Hol).
  change (rx_blake2b_compress (blake2b_increment_counter st (Z.of_nat BLAKE2B_BLOCKBYTES)) pin) with (block_step st pin).
  set (st1 := block_step st pin) in *. clearbody st1.
  destruct (IH st1 (drop BLAKE2B_BLOCKBYTES pin) Hst') as (st' & rest & -> & H1 & H2 & H3 & H4 & H5 & H6);
    [rewrite length_drop; unfold BLAKE2B_BLOCKBYTES; lia..|].
  exists st', rest. split_and!; try done; try congruence; try lia.
  rewrite <-H6, Habs. rewrite <-(take_drop 128 pin) at 1.
  rewrite (lazy_fill 128 body_block (bs_h st, counter st) [] (take 128 pin)); [done|lia| |].
  - rewrite length_take. cbn [length]. lia.
  - intros E%(f_equal length). rewrite length_drop in E. cbn [length] in E. lia.
Qed.

#[local] Opaque rfc_F rx_blake2b_compress_integer.

Lemma with_buf_ok st buf n :
  open_state st -> length buf = 128%nat -> (n <= 128)%nat -> open_state (with_buf st buf n).
Proof. intros [(H1 & H2 & H3 & H4 & H5) Hf Hl] Hb Hn. constructor; [by split_and!|done|done]. Qed.

Lemma b2_update_refines st d :
  open_state st ->
  exists st', rx_blake2b_update st (Some d) (length d) = (0, st') /\ open_state st' /\
    bs_outlen st' = bs_outlen st /\ abs st' = lazy 128 body_block (abs st) d.
Proof.
  intros Hst. unfold rx_blake2b_update. destruct (Nat.eqb_spec (length d) 0) as [E|E].
  { apply nil_length_inv in E as ->. by exists st. }
  pose proof Hst as [(_ & _ & _ & Hb & _) Hf Hl]. rewrite Hf. change (negb ([0; 0] !!! 0%nat =? 0)) with false. cbv iota.
  rewrite (take_ge d) by lia. unfold BLAKE2B_BLOCKBYTES at 1.
  assert (Hlt : length (take (bs_buflen st) (bs_buf st)) = bs_buflen st) by (rewrite length_take; lia).
  destruct (Nat.ltb_spec 128 (bs_buflen st + length d)) as [Hgt|Hle].
  2: { eexists. split; [reflexivity|]. split_and!; [apply with_buf_ok; [done|rewrite length_memcpy; lia|lia]|done|].
       unfold abs. cbn [with_buf bs_h bs_buf bs_buflen]. rewrite lazy_short by (rewrite Hlt; lia).
       rewrite take_memcpy by lia. done. }
  cbv zeta. set (fill := (BLAKE2B_BLOCKBYTES - bs_buflen st)%nat).
  assert (Hfe : (fill + bs_buflen st = 128)%nat) by (unfold fill, BLAKE2B_BLOCKBYTES; lia). clearbody fill.
  set (buf := memcpy (bs_buf st) (bs_buflen st) (take fill d)).
  assert (Hfl : length (take fill d) = fill) by (rewrite length_take; lia).
  assert (Hbuf : length buf = 128%nat) by (unfold buf; rewrite length_memcpy; lia).
  assert (Hst1 : open_state (with_buf st buf (bs_buflen st))) by by apply with_buf_ok.
  change (bs_buf (blake2b_increment_counter (with_buf st buf (bs_buflen st)) (Z.of_nat BLAKE2B_BLOCKBYTES))) with buf.
  change (rx_blake2b_compress (blake2b_increment_counter ?s (Z.of_nat BLAKE2B_BLOCKBYTES)) buf) with (block_step s buf).
  destruct (block_step_ok _ buf Hst1 ltac:(lia)) as (Hst2 & Habs & Hb2 & _ & Ho2).
  set (st2 := block_step _ buf) in *. clearbody st2. rewrite Hb2. cbn [with_buf bs_buf bs_outlen bs_h] in *.
  assert (Hst3 : open_state (with_buf st2 buf 0)) by (apply with_buf_ok; [done|done|lia]).
  destruct (update_blocks_ok (length d) (with_buf st2 buf 0) (drop fill d) Hst3)
    as (st' & rest & -> & H1 & H2 & H3 & H4 & H5 & H6); [rewrite length_drop; lia..|].
  cbn [with_buf bs_buf bs_buflen bs_outlen bs_h] in H3, H4, H5.
  eexists. split; [reflexivity|]. rewrite H3, H5. cbn [Nat.add].
  split_and!; [apply with_buf_ok; [done|rewrite length_memcpy; lia|lia]|cbn [with_buf bs_outlen]; congruence|].
  unfold abs. cbn [with_buf bs_h bs_buf bs_buflen].
  pose proof (take_memcpy buf 0 rest ltac:(lia)) as Htk. cbn [Nat.add] in Htk. rewrite Htk, take_0, app_nil_l.
  rewrite <-(take_drop fill d) at 1.
  rewrite (lazy_fill 128 body_block _ _ (take fill d)); [|lia|rewrite Hlt; lia|].
  2: { intros Ee%(f_equal length). rewrite length_drop in Ee. cbn [length] in Ee. lia. }
  assert (Hcat : take (bs_buflen st) (bs_buf st) ++ take fill d = buf) by (symmetry; apply take_memcpy_all; lia).
  rewrite Hcat. rewrite take_ge in Habs by lia.
  change (counter (with_buf st buf (bs_buflen st))) with (counter st) in Habs. rewrite <-Habs.
  change (counter (with_buf st2 buf 0)) with (counter st2) in H6. cbn [with_buf bs_h] in H6. rewrite H6.
  rewrite lazy_short by (cbn [length]; lia). done.
Qed.

(** ** Initialisation *)

(** The first parameter word, for every admissible pair of lengths. *)
Lemma param_word0 nn kk :
  (nn <= 64)%nat -> (kk <= 64)%nat ->
  Z.lxor (blake2b_IV !!! 0%nat) (load64 [Z.of_nat nn; Z.of_nat kk; 1; 1; 0; 0; 0; 0]) = rfc_h0 nn kk !!! 0%nat.
Proof.
  unfold rfc_h0. rewrite <-IV_rfc.
  assert (H : forallb (fun nn => forallb (fun kk =>
    Z.lxor (blake2b_IV !!! 0%nat) (load64 [Z.of_nat nn; Z.of_nat kk; 1; 1; 0; 0; 0; 0]) =?
    <[0%nat := Z.lxor (Z.lxor (Z.lxor (blake2b_IV !!! 0%nat) 0x01010000) (Z.shiftl (Z.of_nat kk) 8)) (Z.of_nat nn)]> blake2b_IV !!! 0%nat)
    (seq 0 65)) (seq 0 65) = true) by (vm_compute; reflexivity).
  intros Hn Hk. rewrite forallb_forall in H. specialize (H nn ltac:(apply in_seq; lia)).
  rewrite forallb_forall in H. specialize (H kk ltac:(apply in_seq; lia)). by apply Z.eqb_eq.
Qed.

Lemma param_h nn kk :
  (nn <= 64)%nat -> (kk <= 64)%nat ->
  foldl (fun h i => <[i := Z.lxor (h !!! i) (load64 (drop (i * 8) (param_bytes (sequential_param nn kk))))]> h)
    blake2b_IV (seq 0 8) = rfc_h0 nn kk.
Proof.
  intros Hn Hk. set (p := param_bytes (sequential_param nn kk)).
  rewrite (loop_map_tabulate (fun i x => Z.lxor x (load64 (drop (i * 8) p)))) by done.
  assert (Hp : p = [Z.of_nat nn; Z.of_nat kk; 1; 1; 0; 0; 0; 0] ++ replicate 56 0).
  { unfold p, param_bytes. cbn [sequential_param digest_length key_length fanout depth leaf_length node_offset
      node_depth inner_length reserved salt personal]. rewrite !T8_id by (unfold word; lia). reflexivity. }
  rewrite Hp. clear Hp p. apply list_eq_total; rewrite length_tabulate; [done|].
  intros i Hi. rewrite tabulate_lookup by done. destruct i as [|i].
  - rewrite <-param_word0 by done. f_equal.
  - unfold rfc_h0. rewrite <-IV_rfc. do 7 (destruct i as [|i]; [reflexivity|]). lia.
Qed.

Lemma init_param_key st nn kk :
  (1 <= nn <= 64)%nat -> (kk <= 64)%nat ->
  exists st', rx_blake2b_init_param st (Some (sequential_param nn kk)) = (0, st') /\ open_state st' /\
    bs_outlen st' = nn /\ abs st' = ((rfc_h0 nn kk, 0), []).
Proof.
  intros Hn Hk. eexists. split; [reflexivity|].
  assert (Hd : digest_length (sequential_param nn kk) = Z.of_nat nn).
  { cbn [sequential_param digest_length]. apply T8_id. unfold word. lia. }
  cbn [blake2b_init0 bs_h bs_t bs_f bs_buf bs_buflen bs_last_node].
  rewrite Hd, Nat2Z.id, (param_h nn kk) by lia.
  split_and!; [constructor; [split_and!|..]; cbn [bs_h bs_t bs_f bs_buf bs_buflen bs_last_node]|done|].
  - apply length_insert.
  - done.
  - apply (Forall_replicate _ 2 0). by apply word_0.
  - apply length_replicate.
  - done.
  - done.
  - lia.
  - unfold abs, counter. cbn [bs_h bs_t bs_buf bs_buflen]. by rewrite take_0.
Qed.

(** ** Finalisation *)

Lemma digest_buffer (h : list Z) :
  length h = 8%nat ->
  foldl (fun b i => memcpy b (8 * i) (store64 (h !!! i))) (replicate BLAKE2B_OUTBYTES 0) (seq 0 8)
  = flat_map (le_store 8) h.
Proof.
  intros Hh. destruct h as [|h0 [|h1 [|h2 [|h3 [|h4 [|h5 [|h6 [|h7 [|]]]]]]]]]; try done.
Qed.

Lemma b2_final_spec st out outlen :
  open_state st -> (bs_outlen st <= outlen)%nat ->
  exists st', rx_blake2b_final st (Some out) outlen =
    (0, st', Some (memcpy out 0 (take (bs_outlen st) (flat_map (le_store 8)
       (rfc_F (bs_h st) (zero_pad 128 (abs st).2)
          ((counter st + Z.of_nat (bs_buflen st)) mod 2 ^ 128) true))))).
Proof.
  intros [(Hh & Htl & Ht & Hb & Hn) Hf Hl] Ho. unfold rx_blake2b_final.
  destruct (Nat.ltb_spec outlen (bs_outlen st)); [lia|].
  rewrite Hf. change (negb ([0; 0] !!! 0%nat =? 0)) with false. cbv iota zeta.
  destruct (increment_counter st (Z.of_nat (bs_buflen st)) Ht ltac:(lia)) as [Hc Hw].
  set (st1 := blake2b_increment_counter st (Z.of_nat (bs_buflen st))) in *.
  assert (Hlb : blake2b_set_lastblock st1 = set_f st1 0 UINT64_MAX)
    by (unfold blake2b_set_lastblock; change (bs_last_node st1) with (bs_last_node st); by rewrite Hn).
  rewrite Hlb. cbn [set_f bs_buf bs_buflen].
  change (bs_buf st1) with (bs_buf st). change (bs_buflen st1) with (bs_buflen st).
  assert (Hbuf : memset0 (bs_buf st) (bs_buflen st) (BLAKE2B_BLOCKBYTES - bs_buflen st) = zero_pad 128 (abs st).2).
  { unfold memset0, zero_pad, abs. cbn [snd]. rewrite length_take, Nat.min_l by lia.
    unfold BLAKE2B_BLOCKBYTES. apply take_memcpy_all. rewrite length_replicate. lia. }
  rewrite Hbuf. set (buf := zero_pad 128 _) in *. cbn [with_buf bs_buf].
  set (st2 := with_buf (set_f st1 0 UINT64_MAX) buf (bs_buflen st)).
  assert (Hlen : length buf = 128%nat).
  { rewrite <-Hbuf. unfold memset0. apply eq_trans with (length (bs_buf st)); [|done].
    apply length_memcpy. rewrite length_replicate. unfold BLAKE2B_BLOCKBYTES. lia. }
  assert (Hh2 : bs_h (rx_blake2b_compress st2 buf) = rfc_F (bs_h st) buf
    ((counter st + Z.of_nat (bs_buflen st)) mod 2 ^ 128) true).
  { rewrite (compress_rfc st2 buf true).
    - change (counter st2) with (counter st1). by rewrite Hc.
    - by split_and!.
    - unfold st2. cbn [with_buf set_f bs_f]. change (bs_f st1) with (bs_f st). by rewrite Hf. }
  eexists. f_equal. f_equal. rewrite Hh2, digest_buffer by apply length_rfc_F. reflexivity.
Qed.

(** ** Whole messages *)

Definition feed (st : blake2b_state) (pieces : list (list Z)) : blake2b_state :=
  foldl (fun st d => (rx_blake2b_update st (Some d) (length d)).2) st pieces.

Lemma feed_refines st pieces :
  open_state st ->
  open_state (feed st pieces) /\ bs_outlen (feed st pieces) = bs_outlen st /\
  abs (feed st pieces) = lazy 128 body_block (abs st) (concat pieces).
Proof.
  unfold feed. revert st. induction pieces as [|d pieces IH]; intros st Hst; [done|].
  cbn [foldl concat]. destruct (b2_update_refines st d Hst) as (st' & -> & Hst' & Ho & Ha). cbn [snd].
  destruct (IH st' Hst') as (H1 & H2 & H3). split_and!; [done|congruence|]. by rewrite H3, Ha, lazy_app.
Qed.

Lemma nblocks_seq b k m : nblocks b k m = (fun i => slice (b * i) b m) <$> seq 0 k.
Proof.
  revert m. induction k as [|k IH]; intros m; [done|]. cbn [nblocks seq fmap list_fmap].
  rewrite Nat.mul_0_r. f_equal. rewrite IH, <-fmap_S_seq, <-list_fmap_compose. apply list_fmap_ext.
  intros i j _. unfold slice, compose. rewrite drop_drop. do 2 f_equal. lia.
Qed.

Lemma body_fold h0 m k :
  128 * Z.of_nat k < 2 ^ 128 ->
  foldl body_block (h0, 0) (nblocks 128 k m)
  = (foldl (fun h i => rfc_F h (slice (128 * i) 128 m) (128 * (Z.of_nat i + 1)) false) h0 (seq 0 k),
     128 * Z.of_nat k).
Proof.
  intros Hk. rewrite nblocks_seq. induction k as [|k IH]; [done|].
  rewrite seq_S, fmap_app, !foldl_app. rewrite IH by lia. cbn [fmap list_fmap foldl Nat.add].
  unfold body_block. cbn [fst snd]. rewrite Z.mod_small by lia.
  replace (128 * Z.of_nat k + 128) with (128 * (Z.of_nat k + 1)) by lia. f_equal. lia.
Qed.

Lemma lazy_message h0 m :
  Z.of_nat (length m) < 2 ^ 128 ->
  lazy 128 body_block ((h0, 0), []) m
  = ((rfc_blake2b_state h0 m, 128 * Z.of_nat (nfull m)), drop (128 * nfull m) m) /\
  (128 * nfull m <= length m)%nat.
Proof.
  intros Hm. assert (Hk : (128 * nfull m <= length m)%nat).
  { unfold nfull. pose proof (Nat.Div0.mul_div_le (length m - 1) 128). lia. }
  split; [|done]. rewrite lazy_spec by lia. fold (nfull m). rewrite body_fold by lia. done.
Qed.

Lemma length_flat_map_le8 l : length (flat_map (le_store 8) l) = (8 * length l)%nat.
Proof. induction l as [|x l IH]; [done|]. cbn [flat_map length]. rewrite length_app, length_le_store, IH. lia. Qed.

(** From a freshly initialised state. *)
Lemma digest_message st nn h0 pieces out :
  open_state st -> bs_outlen st = nn -> abs st = ((h0, 0), []) ->
  let m := concat pieces in
  Z.of_nat (length m) < 2 ^ 128 ->
  exists st', rx_blake2b_final (feed st pieces) (Some out) nn = (0, st', Some (memcpy out 0 (take nn
    (flat_map (le_store 8)
      (rfc_F (rfc_blake2b_state h0 m) (zero_pad 128 (drop (128 * nfull m) m)) (Z.of_nat (length m)) true))))).
Proof.
  intros Hst Hn Ha m Hm. destruct (feed_refines st pieces Hst) as (Hst' & Ho & Ha'). fold m in Ha'.
  destruct (lazy_message h0 m Hm) as [Hl Hk]. rewrite Ha, Hl in Ha'.
  destruct (b2_final_spec (feed st pieces) out nn Hst') as (st' & He); [lia|].
  exists st'. rewrite He, Ha'. cbn [snd]. do 2 f_equal.
  pose proof Ha' as Hinj. unfold abs in Hinj. injection Hinj as Hh Hc Hr.
  assert (Hbl : bs_buflen (feed st pieces) = (length m - 128 * nfull m)%nat).
  { apply (f_equal length) in Hr. rewrite length_take, length_drop in Hr.
    destruct Hst' as [(_ & _ & _ & Hb & _) _ Hf]. lia. }
  rewrite Hh, Hc, Hbl, Ho, Hn. rewrite Z.mod_small by lia.
  replace (128 * Z.of_nat (nfull m) + Z.of_nat (length m - 128 * nfull m)) with (Z.of_nat (length m)) by lia. reflexivity.
Qed.

Lemma memcpy_full (out l : list Z) : length l = length out -> memcpy out 0 l = l.
Proof. intros H. unfold memcpy. by rewrite take_0, app_nil_l, Nat.add_0_l, H, drop_all, app_nil_r. Qed.

Lemma init_ok st nn :
  (1 <= nn <= 64)%nat ->
  exists st', rx_blake2b_init st nn = (0, st') /\ open_state st' /\ bs_outlen st' = nn /\
    abs st' = ((rfc_h0 nn 0, 0), []).
Proof.
  intros Hn. unfold rx_blake2b_init, BLAKE2B_OUTBYTES.
  destruct (Nat.eqb_spec nn 0); [lia|]. destruct (Nat.ltb_spec 64 nn); [lia|]. cbn [orb].
  apply init_param_key; lia.
Qed.

Lemma length_rfc_blake2b nn key m : (nn <= 64)%nat -> length (rfc_blake2b nn key m) = nn.
Proof. intros. unfold rfc_blake2b. rewrite length_take, length_flat_map_le8, length_rfc_F. lia. Qed.

Lemma b2_streaming_spec st nn pieces out :
  (1 <= nn <= 64)%nat -> Z.of_nat (length (concat pieces)) < 2 ^ 128 -> length out = nn ->
  exists st', rx_blake2b_final (feed (rx_blake2b_init st nn).2 pieces) (Some out) nn
              = (0, st', Some (rfc_blake2b nn [] (concat pieces))).
Proof.
  intros Hn Hm Ho. destruct (init_ok st nn Hn) as (st1 & -> & Hst & Hnn & Ha). cbn [snd].
  destruct (digest_message st1 nn _ pieces out Hst Hnn Ha Hm) as (st' & He). exists st'. rewrite He.
  pose proof (length_rfc_blake2b nn [] (concat pieces) ltac:(lia)) as Hl. unfold rfc_blake2b in *. cbn [length Nat.eqb app] in *.
  by rewrite memcpy_full by lia.
Qed.

Lemma key_block key :
  (length key <= 64)%nat ->
  memcpy (replicate BLAKE2B_BLOCKBYTES 0) 0 (take (length key) key) = zero_pad 128 key.
Proof.
  intros Hk. rewrite take_ge by done. unfold memcpy, zero_pad, BLAKE2B_BLOCKBYTES.
  rewrite take_0, app_nil_l, Nat.add_0_l. f_equal. by rewrite drop_replicate.
Qed.

Lemma keyed_spec st nn key pieces out :
  (1 <= nn <= 64)%nat -> (1 <= length key <= 64)%nat ->
  Z.of_nat (128 + length (concat pieces)) < 2 ^ 128 -> length out = nn ->
  (rx_blake2b_init_key st nn (Some key) (length key)).1 = 0 /\
  exists st', rx_blake2b_final (feed (rx_blake2b_init_key st nn (Some key) (length key)).2 pieces) (Some out) nn
              = (0, st', Some (rfc_blake2b nn key (concat pieces))).
Proof.
  intros Hn Hk Hm Ho. unfold rx_blake2b_init_key, BLAKE2B_OUTBYTES, BLAKE2B_KEYBYTES.
  destruct (Nat.eqb_spec nn 0); [lia|]. destruct (Nat.ltb_spec 64 nn); [lia|]. cbn [orb].
  destruct (Nat.eqb_spec (length key) 0) as [|Hkz]; [lia|]. destruct (Nat.ltb_spec 64 (length key)); [lia|]. cbn [orb].
  destruct (init_param_key st nn (length key) Hn ltac:(lia)) as (st1 & -> & Hst & Hnn & Ha).
  change (0 <? 0) with false. cbv iota. rewrite key_block by lia. cbn [fst snd]. split; [done|].
  assert (Hl : length (zero_pad 128 key) = 128%nat)
    by (unfold zero_pad; rewrite length_app, length_replicate; lia).
  destruct (digest_message st1 nn _ (zero_pad 128 key :: pieces) out Hst Hnn Ha) as (st' & He).
  { cbn [concat]. rewrite length_app. lia. }
  exists st'. unfold feed in *. cbn [foldl concat] in He. rewrite Hl in He. unfold BLAKE2B_BLOCKBYTES. rewrite He.
  pose proof (length_rfc_blake2b nn key (concat pieces) ltac:(lia)) as Hlr.
  apply Nat.eqb_neq in Hkz. unfold rfc_blake2b in *. rewrite Hkz in *. by rewrite memcpy_full by lia.
Qed.

Lemma default_spec st0 out nn d :
  (1 <= nn <= 64)%nat -> Z.of_nat (length d) < 2 ^ 128 ->
  rx_blake2b_default st0 (Some out) nn (Some d) (length d) = (0, Some (memcpy out 0 (rfc_blake2b nn [] d))).
Proof.
  intros Hn Hd. unfold rx_blake2b_default, BLAKE2B_OUTBYTES.
  destruct (Nat.eqb_spec nn 0); [lia|]. destruct (Nat.ltb_spec 64 nn); [lia|]. cbn [orb].
  destruct (init_ok st0 nn Hn) as (st1 & -> & Hst & Hnn & Ha). change (0 <? 0) with false. cbv iota.
  destruct (digest_message st1 nn _ [d] out Hst Hnn Ha) as (st' & He); [cbn [concat]; by rewrite app_nil_r|].
  unfold feed in He. cbn [foldl concat] in He. rewrite app_nil_r in He.
  destruct (b2_update_refines st1 d Hst) as (st2 & E2 & _). rewrite E2 in *. cbn [snd] in He.
  change (0 <? 0) with false. cbv iota. by rewrite He.
Qed.

(** ** The variable-length hash *)

(** RFC 9106, section 3.3. *)
Definition Hprime (T : nat) (A : list Z) : list Z :=
  let X := le_store 4 (Z.of_nat T) ++ A in
  if (T <=? 64)%nat then rfc_blake2b T [] X
  else
    let r := ((T + 31) / 32 - 2)%nat in
    let V i := Nat.iter (i - 1) (rfc_blake2b 64 []) (rfc_blake2b 64 [] X) in
    flat_map (fun i => take 32 (V i)) (seq 1 r) ++ rfc_blake2b (T - 32 * r) [] (V r).

#[local] Opaque rx_blake2b_default rfc_blake2b.

Lemma long_loop_spec n q fuel st0 out p ob :
  length ob = 64%nat -> (32 < q <= 64)%nat -> (p + (32 * n + q) = length out)%nat -> (n < fuel)%nat ->
  long_loop fuel st0 out p ob (32 * n + q)
  = (0, take p out ++ flat_map (fun i => take 32 (Nat.iter i (rfc_blake2b 64 []) ob)) (seq 1 n)
          ++ rfc_blake2b q [] (Nat.iter n (rfc_blake2b 64 []) ob)).
Proof.
  revert out p ob fuel. induction n as [|n IH]; intros out p ob fuel Hob Hq Hp Hf;
    (destruct fuel as [|fuel]; [lia|]); cbn [long_loop]; unfold BLAKE2B_OUTBYTES.
  - destruct (Nat.ltb_spec 64 (32 * 0 + q)); [lia|]. change (32 * 0 + q)%nat with q in *.
    pose proof (default_spec st0 ob q ob ltac:(lia) ltac:(lia)) as Hd. rewrite Hob in Hd. rewrite Hd.
    change (0 <? 0) with false. cbv iota. cbn [seq flat_map app Nat.iter nat_rect]. f_equal.
    pose proof (length_rfc_blake2b q [] ob ltac:(lia)) as Hl. set (g := rfc_blake2b q [] ob) in *. clearbody g.
    assert (Htk : take q (memcpy ob 0 g) = g).
    { rewrite <-Hl. pose proof (take_memcpy ob 0 g ltac:(lia)) as H1. by rewrite take_0 in H1. }
    rewrite Htk. apply take_memcpy_all. lia.
  - destruct (Nat.ltb_spec 64 (32 * S n + q)); [|lia].
    pose proof (default_spec st0 ob 64 ob ltac:(lia) ltac:(lia)) as Hd. rewrite Hob in Hd. rewrite Hd.
    change (0 <? 0) with false. cbv iota. change (64 / 2)%nat with 32%nat.
    pose proof (length_rfc_blake2b 64 [] ob ltac:(lia)) as Hl. rewrite memcpy_full by lia.
    set (g := rfc_blake2b 64 [] ob) in *.
    assert (H32 : length (take 32 g) = 32%nat) by (rewrite length_take; lia).
    replace (32 * S n + q - 32)%nat with (32 * n + q)%nat by lia.
    rewrite IH; [|done|done|rewrite length_memcpy; lia|lia].
    pose proof (take_memcpy out p (take 32 g) ltac:(lia)) as Htk. rewrite H32 in Htk. rewrite Htk.
    cbn [seq flat_map]. rewrite <-!app_assoc. do 4 f_equal.
    + rewrite <-(seq_shift n 1). rewrite !flat_map_concat_map, map_map. f_equal. apply map_ext. intros i.
      rewrite (Nat.iter_succ_r i). done.
    + rewrite (Nat.iter_succ_r n). done.
Qed.

Lemma long_first_spec st0 dest n ob inp :
  (1 <= n <= 64)%nat -> length ob = 4%nat -> Z.of_nat (4 + length inp) < 2 ^ 128 -> length dest = n ->
  long_first st0 dest n ob (Some inp) (length inp) = (0, Some (rfc_blake2b n [] (ob ++ inp))).
Proof.
  intros Hn Hob Hi Hd. unfold long_first.
  destruct (b2_streaming_spec st0 n [ob; inp] dest Hn) as (st' & He); [|done|].
  { cbn [concat]. rewrite app_nil_r, length_app. lia. }
  unfold feed in He. cbn [foldl concat] in He. rewrite app_nil_r, Hob in He.
  destruct (init_ok st0 n Hn) as (st1 & E1 & Hst & _). rewrite E1 in *. cbn [snd] in He.
  change (0 <? 0) with false. cbv iota.
  destruct (b2_update_refines st1 ob Hst) as (st2 & E2 & Hst2 & _). rewrite Hob in E2. rewrite E2 in *. cbn [snd] in He.
  change (0 <? 0) with false. cbv iota.
  destruct (b2_update_refines st2 inp Hst2) as (st3 & E3 & _). rewrite E3 in *. cbn [snd] in He.
  change (0 <? 0) with false. cbv iota. by rewrite He.
Qed.

Lemma long_spec st0 ob out A :
  (1 <= length out)%nat -> Z.of_nat (length out) < 2 ^ 32 -> Z.of_nat (4 + length A) < 2 ^ 128 -> length ob = 64%nat ->
  rxa2_blake2b_long st0 ob out (length out) (Some A) (length A) = (0, Hprime (length out) A).
Proof.
  intros H1 H32 HA Hob. unfold rxa2_blake2b_long, Hprime, BLAKE2B_OUTBYTES.
  destruct (Z.ltb_spec 0xFFFFFFFF (Z.of_nat (length out))); [lia|].
  pose proof (length_le_store 4 (Z.of_nat (length out))) as H4.
  destruct (Nat.leb_spec (length out) 64) as [Hle|Hgt].
  { unfold store32. by rewrite long_first_spec by (done || lia). }
  unfold store32. rewrite (long_first_spec st0 ob 64) by (done || lia). change (0 <? 0) with false. cbv iota.
  change (64 / 2)%nat with 32%nat. set (X := le_store 4 _ ++ A).
  pose proof (length_rfc_blake2b 64 [] X ltac:(lia)) as Hl. set (V := rfc_blake2b 64 [] X) in *.
  set (r := ((length out + 31) / 32 - 2)%nat).
  pose proof (Nat.div_mod_eq (length out + 31) 32) as Hdm.
  pose proof (Nat.mod_upper_bound (length out + 31) 32 ltac:(lia)) as Hmb.
  assert (Hr : (1 <= r)%nat /\ (32 < length out - 32 * r <= 64)%nat) by lia.
  clearbody r. clear Hdm Hmb. destruct Hr as [Hr Hq]. destruct r as [|n]; [lia|].
  replace (length out - 32)%nat with (32 * n + (length out - 32 * S n))%nat by lia.
  assert (Ht : length (take 32 V) = 32%nat) by (rewrite length_take; lia).
  rewrite long_loop_spec; [|done|lia|rewrite length_memcpy; lia|lia].
  pose proof (take_memcpy out 0 (take 32 V) ltac:(lia)) as Htk. rewrite Ht, take_0 in Htk. cbn [Nat.add app] in Htk.
  rewrite Htk. cbn [seq flat_map Nat.sub Nat.iter nat_rect]. rewrite <-!app_assoc. do 2 f_equal.
  rewrite Nat.sub_0_r. f_equal. rewrite <-(seq_shift n 1), !flat_map_concat_map, map_map. f_equal.
  apply map_ext. intros i. by rewrite Nat.sub_succ, Nat.sub_0_r.
Qed.

(** ** Errors *)

Lemma final_seals st out n st' o :
  rx_blake2b_final st out n = (0, st', o) -> length (bs_f st) = 2%nat -> bs_f st' !!! 0%nat = UINT64_MAX.
Proof.
  unfold rx_blake2b_final. destruct out as [o'|]; [|done]. destruct (_ <? _)%nat; [done|].
  destruct (negb _); [done|]. cbv zeta. intros [= <- _] Hl.
  change (bs_f (rx_blake2b_compress (with_buf ?s _ _) _)) with (bs_f s).
  unfold blake2b_set_lastblock, blake2b_set_lastnode. destruct (bs_last_node _); cbn [set_f bs_f blake2b_increment_counter];
    apply list_lookup_total_insert_eq; rewrite ?length_insert; lia.
Qed.

Lemma sealed_errors st :
  bs_f st !!! 0%nat <> 0 ->
  (forall d k, (0 < k)%nat -> rx_blake2b_update st d k = (-1, st)) /\
  (forall out n, rx_blake2b_final st out n = (-1, st, out)).
Proof.
  intros Hf. apply Z.eqb_neq in Hf. split.
  - intros d k Hk. unfold rx_blake2b_update. destruct (Nat.eqb_spec k 0); [lia|]. destruct d; [|done].
    by rewrite Hf.
  - intros [o|] n; unfold rx_blake2b_final; [|done]. rewrite Hf. by destruct (_ <? _)%nat.
Qed.

#[local] Transparent rx_blake2b_default.

(** ** Properties *)

(** C23. Streaming BLAKE2b: initialising for a digest of [nn] bytes, feeding a
    message in any pieces and finalising gives the unkeyed digest of RFC 7693 of
    the concatenation (blocks compressed with the 128-bit byte counter, the last
    one padded with the final flag), and every call returns 0. *)
Theorem rx_blake2b_streaming st nn pieces out :
  (1 <= nn <= 64)%nat -> Z.of_nat (length (concat pieces)) < 2 ^ 128 -> length out = nn ->
  exists st', rx_blake2b_final (feed (rx_blake2b_init st nn).2 pieces) (Some out) nn
              = (0, st', Some (rfc_blake2b nn [] (concat pieces))).
Proof. apply b2_streaming_spec. Qed.

Lemma rx_blake2b_streaming_witness :
  exists st', rx_blake2b_final (feed (rx_blake2b_init state0 32).2 [[1; 2]; []; replicate 300 7]) (Some (replicate 32 0)) 32
              = (0, st', Some (rfc_blake2b 32 [] ([1; 2] ++ replicate 300 7))).
Proof. apply (rx_blake2b_streaming state0 32 [[1; 2]; []; replicate 300 7] (replicate 32 0)); [lia|done|done]. Defined.

(** C37. Keyed hashing: [rx_blake2b_init_key] succeeds on every digest and key length
    from 1 to 64, and the digest is that of RFC 7693 with that key. *)
Theorem rx_blake2b_keyed st nn key pieces out :
  (1 <= nn <= 64)%nat -> (1 <= length key <= 64)%nat ->
  Z.of_nat (128 + length (concat pieces)) < 2 ^ 128 -> length out = nn ->
  (rx_blake2b_init_key st nn (Some key) (length key)).1 = 0 /\
  exists st', rx_blake2b_final (feed (rx_blake2b_init_key st nn (Some key) (length key)).2 pieces) (Some out) nn
              = (0, st', Some (rfc_blake2b nn key (concat pieces))).
Proof. apply keyed_spec. Qed.

Lemma rx_blake2b_keyed_witness :
  exists st', rx_blake2b_final (feed (rx_blake2b_init_key state0 64 (Some [1; 2; 3]) 3).2 [[5]]) (Some (replicate 64 0)) 64
              = (0, st', Some (rfc_blake2b 64 [1; 2; 3] [5])).
Proof. apply (rx_blake2b_keyed state0 64 [1; 2; 3] [[5]] (replicate 64 0)); [lia|cbn; lia|done|done]. Defined.

(** The one-shot function on every branch: a NULL output, a digest length
    outside 1..64 or a NULL input with a nonzero length returns -1 and leaves the
    output as it was; otherwise it returns 0 and writes exactly the digest. *)
Lemma rx_blake2b_default_branches st0 out outlen d :
  ((out = None \/ outlen = 0%nat \/ (64 < outlen)%nat) ->
     rx_blake2b_default st0 out outlen (Some d) (length d) = (-1, out)) /\
  (forall k, (0 < k)%nat -> rx_blake2b_default st0 out outlen None k = (-1, out)) /\
  (forall o, out = Some o -> (1 <= outlen <= 64)%nat -> Z.of_nat (length d) < 2 ^ 128 ->
     rx_blake2b_default st0 out outlen (Some d) (length d) = (0, Some (memcpy o 0 (rfc_blake2b outlen [] d)))).
Proof.
  split_and!.
  - intros H. unfold rx_blake2b_default. destruct out as [o|]; [|done]. destruct H as [|[->|H]]; [done|done|].
    destruct (Nat.ltb_spec BLAKE2B_OUTBYTES outlen); [by rewrite orb_true_r|unfold BLAKE2B_OUTBYTES in *; lia].
  - intros k Hk. unfold rx_blake2b_default. by destruct (Nat.ltb_spec 0 k); [|lia].
  - intros o -> Hn Hd. by apply default_spec.
Qed.


(** A finalised state is sealed: updating it with data or finalising it again
    returns -1 and changes neither the state nor the output. *)
Lemma rx_blake2b_sealed st out n st' o :
  length (bs_f st) = 2%nat -> rx_blake2b_final st out n = (0, st', o) ->
  (forall d k, (0 < k)%nat -> rx_blake2b_update st' d k = (-1, st')) /\
  (forall out n, rx_blake2b_final st' out n = (-1, st', out)).
Proof. intros Hl Hf. apply sealed_errors. by rewrite (final_seals _ _ _ _ _ Hf Hl). Qed.


(** C25. The variable-length hash is the function H' of Argon2 (RFC 9106): for every
    output length from 1 to [2^32 - 1] all bytes of the output are written, from
    chained 64-byte digests of which all but the last contribute their first half. *)
Theorem rxa2_blake2b_long_Hprime st0 ob out A :
  (1 <= length out)%nat -> Z.of_nat (length out) < 2 ^ 32 -> Z.of_nat (4 + length A) < 2 ^ 128 -> length ob = 64%nat ->
  rxa2_blake2b_long st0 ob out (length out) (Some A) (length A) = (0, Hprime (length out) A).
Proof. apply long_spec. Qed.

Lemma rxa2_blake2b_long_Hprime_witness :
  rxa2_blake2b_long state0 (replicate 64 9) (replicate 100 0) 100 (Some [1; 2; 3]) 3 = (0, Hprime 100 [1; 2; 3]).
Proof. apply (rxa2_blake2b_long_Hprime state0 (replicate 64 9) (replicate 100 0) [1; 2; 3]); cbn; lia. Defined.
