(* ===== verification/MdHelper.v ===== *)
(** * The Merkle-Damgard driver shared by the GhostRider hashes
    ([crypto/ghostrider/md_helper.c]).

    The C file is a template: each hash defines macros and includes it.  The
    macros become the record [md_cfg], the block function [RFUN] a section
    variable.  The 64-bit configuration ([SPH_64], [SPH_UPTR] defined) is the
    one modelled.  The theorems say that, for each configuration the macros
    support, the buffered updates refine the byte-at-a-time machine of [Stream]
    and that closing a context folds [RFUN] over the padded message. *)
From S2P Require Import Prelude Stream.

Inductive md_enc := BE64 | LE64 | BE32 | LE32.
Inductive md_plw := PLW_none | PLW1 | PLW4.

Record md_cfg := mk_cfg {
  enc : md_enc;          (* BE64 / LE64 / BE32 / none of them *)
  plw : md_plw;          (* PLW1 / PLW4 / none of them *)
  PW01 : bool;           (* bits are numbered from the least significant one *)
  BLEN : option nat;     (* the block length, when it is not the default *)
  SVAL : bool;           (* the hash keeps its own state: no output here *)
  SPH_UNALIGNED : bool   (* the machine reads unaligned words *)
}.

Definition SPH_WLEN (c : md_cfg) : nat :=
  match enc c with BE64 | LE64 => 8 | BE32 | LE32 => 4 end.
Definition SPH_BLEN (c : md_cfg) : nat :=
  match BLEN c with
  | Some b => b
  | None => match enc c with BE64 | LE64 => 128 | BE32 | LE32 => 64 end
  end.
Definition SPH_MAXPAD (c : md_cfg) : nat :=
  match plw c with
  | PLW1 => SPH_BLEN c - SPH_WLEN c
  | PLW4 => SPH_BLEN c - SPH_WLEN c * 4
  | PLW_none => SPH_BLEN c - SPH_WLEN c * 2
  end.

Record md_ctx := mk_md { buf : list Z; val : list Z; count : Z }.

(** [(unsigned)sc->count & (SPH_BLEN - 1U)]. *)
Definition current (c : md_cfg) (sc : md_ctx) : nat :=
  Z.to_nat (Z.land (T32 (count sc)) (Z.of_nat (SPH_BLEN c) - 1)).

(** The last byte of the message and its padding bit. *)
Definition pad_byte (c : md_cfg) (ub n : Z) : Z :=
  if PW01 c then T8 (Z.shiftr (Z.lor 0x100 (Z.land ub 0xFF)) (8 - n))
  else let z := Z.shiftr 0x80 n in Z.land (Z.lor (Z.land ub (T32 (- z))) z) 0xFF.

(** The message length at the end of the last block.  The second [PLW1] test of
    the little-endian part (where [PLW4] was meant) can never hold, so [LE64]
    with [PLW4] takes the last branch. *)
Definition write_length (c : md_cfg) (b : list Z) (cnt n : Z) : list Z :=
  let mp := SPH_MAXPAD c in
  let w := SPH_WLEN c in
  let low := add64 (shl64 cnt 3) n in
  match enc c with
  | BE64 =>
      match plw c with
      | PLW1 => memcpy b mp (be_store 8 low)
      | PLW4 =>
          let b := memset0 b mp (2 * w) in
          let b := memcpy b (mp + 2 * w) (be_store 8 (Z.shiftr cnt 61)) in
          memcpy b (mp + 3 * w) (be_store 8 low)
      | PLW_none =>
          let b := memcpy b mp (be_store 8 (Z.shiftr cnt 61)) in
          memcpy b (mp + w) (be_store 8 low)
      end
  | LE64 =>
      match plw c with
      | PLW1 => memcpy b mp (le_store 8 low)
      | PLW4 | PLW_none =>
          let b := memcpy b mp (le_store 8 low) in
          memcpy b (mp + w) (le_store 8 (Z.shiftr cnt 61))
      end
  | BE32 => memcpy b mp (be_store 8 low)
  | LE32 => memcpy b mp (le_store 8 low)
  end.

(** The output loop. *)
Definition write_output (c : md_cfg) (v : list Z) (rnum : nat) : list Z :=
  if SVAL c then []
  else flat_map (fun u => match enc c with
                          | BE64 => be_store 8 (v !!! u)
                          | LE64 => le_store 8 (v !!! u)
                          | BE32 => be_store 4 (v !!! u)
                          | LE32 => le_store 4 (v !!! u)
                          end) (seq 0 rnum).

Section Md.
Context (cfg : md_cfg) (RFUN : list Z -> list Z -> list Z).

(** The loop of [HASH_short]; each trip consumes at least one byte. *)
Fixpoint short_loop (fuel : nat) (sc : md_ctx) (cur : nat) (data : list Z) : md_ctx :=
  match data, fuel with
  | [], _ | _, O => sc
  | _, S fuel =>
      let clen := Nat.min (SPH_BLEN cfg - cur) (length data) in
      let b := memcpy (buf sc) cur (take clen data) in
      let cur := (cur + clen)%nat in
      let full := (cur =? SPH_BLEN cfg)%nat in
      let v := if full then RFUN b (val sc) else val sc in
      let cur := if full then 0%nat else cur in
      short_loop fuel (mk_md b v (add64 (count sc) (Z.of_nat clen))) cur (drop clen data)
  end.

Definition md_short (sc : md_ctx) (data : list Z) : md_ctx :=
  short_loop (length data) sc (current cfg sc) data.

(** [while (len >= SPH_BLEN) RFUN(data, SPH_VAL)], straight from the caller's
    memory. *)
Fixpoint direct_loop (fuel : nat) (v : list Z) (data : list Z) : list Z * list Z :=
  if (SPH_BLEN cfg <=? length data)%nat then
    match fuel with
    | O => (v, data)
    | S fuel => direct_loop fuel (RFUN (take (SPH_BLEN cfg) data) v) (drop (SPH_BLEN cfg) data)
    end
  else (v, data).

Definition md_direct (sc : md_ctx) (data : list Z) : md_ctx :=
  let orig_len := length data in
  let '(v, rest) := direct_loop orig_len (val sc) data in
  let b := match rest with [] => buf sc | _ => memcpy (buf sc) 0 rest end in
  mk_md b v (add64 (count sc) (Z.of_nat orig_len)).

(** [sph_HASH(cc, data, len)]; [addr] is the address of [data]. *)
Definition md_update (sc : md_ctx) (addr : Z) (data : list Z) : md_ctx :=
  if (length data <? 2 * SPH_BLEN cfg)%nat then md_short sc data
  else
    let cur := current cfg sc in
    let t := (SPH_BLEN cfg - cur)%nat in
    let '(sc, addr, data) :=
      if (0 <? cur)%nat
      then (md_short sc (take t data), addr + Z.of_nat t, drop t data)
      else (sc, addr, data) in
    if negb (SPH_UNALIGNED cfg) && negb (Z.land addr (Z.of_nat (SPH_WLEN cfg) - 1) =? 0)
    then md_short sc data
    else md_direct sc data.

(** [HASH_addbits_and_close(cc, ub, n, dst, rnum)]: the context it leaves and the
    bytes it writes to [dst]. *)
Definition addbits_and_close (sc : md_ctx) (ub n : Z) (rnum : nat) : md_ctx * list Z :=
  let cur := current cfg sc in
  let b := <[cur := pad_byte cfg ub n]> (buf sc) in
  let cur := (cur + 1)%nat in
  let '(b, v) :=
    if (SPH_MAXPAD cfg <? cur)%nat then
      let b := memset0 b cur (SPH_BLEN cfg - cur) in
      let v := RFUN b (val sc) in
      (memset0 b 0 (SPH_MAXPAD cfg), v)
    else (memset0 b cur (SPH_MAXPAD cfg - cur), val sc) in
  let b := write_length cfg b (count sc) n in
  let v := RFUN b v in
  (mk_md b v (count sc), write_output cfg v rnum).

Definition md_close (sc : md_ctx) (rnum : nat) : md_ctx * list Z := addbits_and_close sc 0 0 rnum.
End Md.

(** ** Specification: the padded message *)

(** The configurations whose length field fills the space [SPH_MAXPAD] leaves
    for it: with the 32-bit encodings the field has two words, and the
    four-word field exists in the big-endian form only. *)
Definition cfg_ok (c : md_cfg) : bool :=
  ((SPH_BLEN c =? 64)%nat || (SPH_BLEN c =? 128)%nat) &&
  match enc c, plw c with
  | BE64, _ | LE64, PLW1 | LE64, PLW_none | BE32, PLW_none | LE32, PLW_none => true
  | _, _ => false
  end.

Definition length_field (c : md_cfg) (cnt n : Z) : list Z :=
  let low := add64 (shl64 cnt 3) n in
  match enc c, plw c with
  | BE64, PLW1 | BE32, _ => be_store 8 low
  | BE64, PLW4 => replicate 16 0 ++ be_store 8 (Z.shiftr cnt 61) ++ be_store 8 low
  | BE64, PLW_none => be_store 8 (Z.shiftr cnt 61) ++ be_store 8 low
  | LE64, PLW1 | LE32, _ => le_store 8 low
  | LE64, _ => le_store 8 low ++ le_store 8 (Z.shiftr cnt 61)
  end.

Definition md_pad (c : md_cfg) (m : list Z) (ub n : Z) : list Z :=
  m ++ [pad_byte c ub n]
    ++ replicate ((SPH_MAXPAD c + SPH_BLEN c - 1 - length m mod SPH_BLEN c) mod SPH_BLEN c) 0
    ++ length_field c (Z.of_nat (length m)) n.

Lemma cfg_ok_facts c :
  cfg_ok c = true ->
  (SPH_BLEN c = 64 \/ SPH_BLEN c = 128)%nat /\
  (forall cnt n, SPH_MAXPAD c + length (length_field c cnt n) = SPH_BLEN c)%nat /\
  (0 < SPH_MAXPAD c)%nat.
Proof.
  unfold cfg_ok. intros [Hb He]%andb_true_iff. apply orb_true_iff in Hb.
  rewrite !Nat.eqb_eq in Hb. unfold SPH_MAXPAD, SPH_WLEN, length_field.
  split_and!; [done| |]; intros; destruct (enc c), (plw c); try done;
    rewrite ?length_app, ?length_replicate, ?length_be_store, ?length_le_store; lia.
Qed.

Lemma length_two_memcpy b k w x y :
  (length x = w)%nat -> (k + w <= length b)%nat ->
  memcpy (memcpy b k x) (k + w) y = memcpy b k (x ++ y).
Proof.
  intros Hx Hk. rewrite <-Hx. unfold memcpy at 1. rewrite take_memcpy by lia.
  unfold memcpy. rewrite length_app, <-!app_assoc, Nat.add_assoc. do 3 f_equal.
  rewrite app_assoc, drop_app_ge by (rewrite length_app, length_take; lia).
  rewrite drop_drop, length_app, length_take. f_equal. lia.
Qed.

Lemma write_length_spec c b cnt n :
  cfg_ok c = true -> length b = SPH_BLEN c ->
  write_length c b cnt n = take (SPH_MAXPAD c) b ++ length_field c cnt n.
Proof.
  intros Hc Hb. destruct (cfg_ok_facts c Hc) as (_ & Hlen & _). specialize (Hlen cnt n).
  rewrite <-take_memcpy_all by lia. revert Hlen. unfold write_length, length_field, memset0.
  apply andb_true_iff in Hc as [_ Hc].
  assert (Hw : SPH_WLEN c = match enc c with BE64 | LE64 => 8 | BE32 | LE32 => 4 end%nat) by done.
  destruct (enc c), (plw c); try done; rewrite Hw;
    rewrite ?length_app, ?length_replicate, ?length_be_store, ?length_le_store; intros.
  - apply length_two_memcpy; [apply length_be_store|lia].
  - rewrite (length_two_memcpy b _ (2 * 8)) by (rewrite ?length_replicate; simpl; lia).
    change (3 * 8)%nat with (2 * 8 + 8)%nat.
    rewrite (length_two_memcpy b _ (2 * 8 + 8)); [by rewrite <-app_assoc| |lia].
    by rewrite length_app, length_replicate, length_be_store.
  - apply length_two_memcpy; [apply length_le_store|lia].
Qed.

Section Refinement.
Context (cfg : md_cfg) (RFUN : list Z -> list Z -> list Z).
Hypothesis Hcfg : cfg_ok cfg = true.
Let B := SPH_BLEN cfg.
Let compress (v b : list Z) : list Z := RFUN b v.

Definition wf (sc : md_ctx) : Prop := length (buf sc) = SPH_BLEN cfg.
Definition abs (sc : md_ctx) : list Z * list Z := (val sc, take (current cfg sc) (buf sc)).

Lemma B_pos : (0 < B)%nat.
Proof. destruct (cfg_ok_facts cfg Hcfg) as ([E|E] & _ & _); unfold B; lia. Qed.

Lemma current_mod sc : current cfg sc = Z.to_nat (count sc mod Z.of_nat B).
Proof.
  unfold current. rewrite T32_mod. f_equal.
  destruct (cfg_ok_facts cfg Hcfg) as ([E|E] & _ & _); unfold B; rewrite E.
  - change (Z.of_nat 64 - 1) with (Z.ones 6). rewrite Z.land_ones by lia.
    change (Z.of_nat 64) with (2 ^ 6). apply Z.mod_mod_divide. exists (2 ^ 26). reflexivity.
  - change (Z.of_nat 128 - 1) with (Z.ones 7). rewrite Z.land_ones by lia.
    change (Z.of_nat 128) with (2 ^ 7). apply Z.mod_mod_divide. exists (2 ^ 25). reflexivity.
Qed.

Lemma current_lt sc : (current cfg sc < B)%nat.
Proof.
  pose proof B_pos. rewrite current_mod.
  pose proof (Z.mod_pos_bound (count sc) (Z.of_nat B) ltac:(lia)). lia.
Qed.

(** The position moves with the 64-bit counter, wrap-around included. *)
Lemma current_add sc sc' k :
  count sc' = add64 (count sc) (Z.of_nat k) ->
  current cfg sc' = ((current cfg sc + k) mod B)%nat.
Proof.
  intros Hc. pose proof B_pos. rewrite !current_mod, Hc. unfold add64. rewrite T64_mod.
  assert (Hdiv : (Z.of_nat B | 2 ^ 64)).
  { destruct (cfg_ok_facts cfg Hcfg) as ([E|E] & _ & _); unfold B; rewrite E;
      [exists (2 ^ 58)|exists (2 ^ 57)]; reflexivity. }
  rewrite Z.mod_mod_divide by done.
  pose proof (Z.mod_pos_bound (count sc) (Z.of_nat B) ltac:(lia)).
  apply Nat2Z.inj. rewrite Nat2Z.inj_mod, Nat2Z.inj_add, !Z2Nat.id by (apply Z.mod_pos_bound || done; lia).
  by rewrite Zplus_mod_idemp_l.
Qed.

Lemma length_md_abs sc : wf sc -> length (abs sc).2 = current cfg sc.
Proof. intros H. pose proof (current_lt sc). simpl. rewrite length_take, H. fold B. lia. Qed.

(** The loop, at a position that agrees with the counter. *)
Lemma short_loop_refines fuel sc data :
  wf sc -> (length data <= fuel)%nat ->
  let sc' := short_loop cfg RFUN fuel sc (current cfg sc) data in
  wf sc' /\ abs sc' = absorb B compress (abs sc) data /\
  (word 64 (count sc) -> count sc' = add64 (count sc) (Z.of_nat (length data))).
Proof.
  revert sc data. induction fuel as [|fuel IH]; intros sc data Hwf Hf.
  { destruct data; [|simpl in Hf; lia]. split_and!; [done|done|].
    intros Hw. cbn. unfold add64. by rewrite Z.add_0_r, T64_id. }
  destruct data as [|x p].
  { split_and!; [done|done|]. intros Hw. cbn. unfold add64. by rewrite Z.add_0_r, T64_id. }
  cbn [short_loop]. set (q := x :: p) in *. pose proof (current_lt sc) as Hcur.
  fold B. set (k := Nat.min (B - current cfg sc) (length q)).
  assert (Hk : (0 < k <= length q)%nat) by (unfold k, q; cbn [length]; lia).
  assert (Hkc : (current cfg sc + k <= B)%nat) by (unfold k; lia).
  assert (Hlk : length (take k q) = k) by (rewrite length_take; lia).
  set (b := memcpy (buf sc) (current cfg sc) (take k q)).
  assert (Hb : length b = B) by (unfold b; rewrite length_memcpy; [exact Hwf|]; rewrite Hwf, Hlk; fold B; lia).
  set (v := if (current cfg sc + k =? B)%nat then RFUN b (val sc) else val sc).
  set (sc1 := mk_md b v (add64 (count sc) (Z.of_nat k))).
  assert (Hc1 : current cfg sc1 = if (current cfg sc + k =? B)%nat then 0%nat else (current cfg sc + k)%nat).
  { rewrite (current_add sc sc1 k eq_refl). pose proof B_pos. destruct (Nat.eqb_spec (current cfg sc + k) B) as [->|].
    - apply Nat.Div0.mod_same.
    - apply Nat.mod_small. lia. }
  rewrite <-Hc1.
  assert (Hdf : (length (drop k q) <= fuel)%nat) by (rewrite length_drop; clearbody k q; lia).
  destruct (IH sc1 (drop k q) Hb Hdf) as (H1 & H2 & H3).
  split_and!; [exact H1| |].
  - rewrite H2. rewrite <-(take_drop k q) at 2. rewrite absorb_app. f_equal.
    unfold abs at 2. rewrite absorb_chunk; [|exact Hwf|done|intros E; rewrite E in Hlk; simpl in Hlk; lia|lia].
    rewrite Hlk. unfold abs. rewrite Hc1. fold b. subst sc1 v. cbn [val buf].
    destruct (Nat.eqb_spec (current cfg sc + k) B); [rewrite decide_True by done|rewrite decide_False by done]; done.
  - intros Hw. rewrite H3 by apply word_add64. unfold sc1. cbn [count]. unfold add64.
    rewrite !T64_mod, Zplus_mod_idemp_l, length_drop. f_equal. lia.
Qed.

Lemma short_refines sc data :
  wf sc ->
  wf (md_short cfg RFUN sc data) /\
  abs (md_short cfg RFUN sc data) = absorb B compress (abs sc) data /\
  (word 64 (count sc) -> count (md_short cfg RFUN sc data) = add64 (count sc) (Z.of_nat (length data))).
Proof. intros. by apply short_loop_refines. Qed.

Lemma direct_loop_refines fuel v data :
  (length data <= fuel)%nat ->
  absorb B compress (v, []) data = direct_loop cfg RFUN fuel v data /\
  (length (direct_loop cfg RFUN fuel v data).2 < B)%nat.
Proof.
  pose proof B_pos. revert v data. induction fuel as [|fuel IH]; intros v data Hf; cbn [direct_loop]; fold B;
    destruct (Nat.leb_spec B (length data)) as [Hle|Hlt]; [lia| | |].
  1, 3: split; [by apply absorb_short|done].
  rewrite <-(take_drop B data) at 1. rewrite absorb_app, absorb_block by (rewrite ?length_take; lia).
  apply IH. rewrite length_drop. lia.
Qed.

Lemma direct_refines sc data :
  wf sc -> current cfg sc = 0%nat ->
  wf (md_direct cfg RFUN sc data) /\
  abs (md_direct cfg RFUN sc data) = absorb B compress (abs sc) data /\
  count (md_direct cfg RFUN sc data) = add64 (count sc) (Z.of_nat (length data)).
Proof.
  intros Hwf Hc. destruct (direct_loop_refines (length data) (val sc) data ltac:(done)) as [Ha Hr].
  assert (Hl : length (direct_loop cfg RFUN (length data) (val sc) data).2 = (length data mod B)%nat).
  { rewrite <-Ha, length_absorb; [done|apply B_pos|apply B_pos]. }
  assert (Hcnt : count (md_direct cfg RFUN sc data) = add64 (count sc) (Z.of_nat (length data))).
  { unfold md_direct. by destruct (direct_loop _ _ _ _ _). }
  pose proof (current_add sc _ _ Hcnt) as Hcur. rewrite Hc, Nat.add_0_l, <-Hl in Hcur.
  unfold abs at 2. rewrite Hc, take_0, Ha. unfold abs. rewrite Hcur. clear Hcur Hl Ha.
  split_and!; [| |exact Hcnt]; unfold md_direct; destruct (direct_loop _ _ _ _ _) as [v rest];
    cbn [snd] in Hr; cbn [val buf fst snd]; destruct rest as [|y rest]; try done.
  - unfold wf. cbn [buf]. rewrite length_memcpy; [done|]. rewrite Hwf. fold B. simpl in *; lia.
  - f_equal. rewrite <-(Nat.add_0_l (length _)), take_memcpy by lia. by rewrite take_0.
Qed.

(** Updates absorb their data, whatever its length and its address. *)
Lemma update_absorbs sc addr data :
  wf sc ->
  wf (md_update cfg RFUN sc addr data) /\
  abs (md_update cfg RFUN sc addr data) = absorb B compress (abs sc) data /\
  (word 64 (count sc) -> count (md_update cfg RFUN sc addr data) = add64 (count sc) (Z.of_nat (length data))).
Proof.
  intros Hwf. unfold md_update. fold B.
  destruct (Nat.ltb_spec (length data) (2 * B)) as [Hs|Hl]; [by apply short_refines|].
  set (t := (B - current cfg sc)%nat). pose proof (current_lt sc) as Hcur.
  destruct (Nat.ltb_spec 0 (current cfg sc)) as [Hpos|Hz]; cbv zeta.
  - destruct (short_refines sc (take t data) Hwf) as (H1 & H2 & H3).
    assert (Ht : length (take t data) = t) by (rewrite length_take; lia). rewrite Ht in H3.
    assert (Hc1 : current cfg (md_short cfg RFUN sc (take t data)) = 0%nat).
    { rewrite <-(length_md_abs _ H1), H2. pose proof (length_md_abs sc Hwf) as Hla.
      destruct (abs sc) as [v r]. cbn [snd] in Hla.
      rewrite length_absorb; [|apply B_pos|lia]. rewrite Ht, Hla. unfold t.
      replace (current cfg sc + (B - current cfg sc))%nat with B by lia. apply Nat.Div0.mod_same. }
    set (sc1 := md_short cfg RFUN sc (take t data)) in *. clearbody sc1.
    assert (Hgoal : forall sc2, wf sc2 /\ abs sc2 = absorb B compress (abs sc1) (drop t data) /\
        (word 64 (count sc1) -> count sc2 = add64 (count sc1) (Z.of_nat (length (drop t data)))) ->
      wf sc2 /\ abs sc2 = absorb B compress (abs sc) data /\
        (word 64 (count sc) -> count sc2 = add64 (count sc) (Z.of_nat (length data)))).
    { intros sc2 (G1 & G2 & G3). split_and!; [done| |].
      - rewrite G2, H2, <-absorb_app. by rewrite take_drop.
      - intros Hw. rewrite G3, H3 by (rewrite ?H3 by done; done || apply word_add64).
        unfold add64. rewrite !T64_mod, Zplus_mod_idemp_l, length_drop. f_equal. lia. }
    apply Hgoal. destruct (negb _ && _); [by apply short_refines|].
    destruct (direct_refines sc1 (drop t data) H1 Hc1) as (? & ? & ?). auto.
  - destruct (negb _ && _); [by apply short_refines|].
    destruct (direct_refines sc data Hwf ltac:(lia)) as (? & ? & ?). auto.
Qed.

(** Padding zeros after [r] buffered bytes. *)
Lemma pad_zeros_cases r :
  (r < B)%nat ->
  ((SPH_MAXPAD cfg + B - 1 - r) mod B = if SPH_MAXPAD cfg <? r + 1 then B - (r + 1) + SPH_MAXPAD cfg
                                        else SPH_MAXPAD cfg - (r + 1))%nat.
Proof.
  intros Hr. destruct (cfg_ok_facts cfg Hcfg) as (_ & Hlen & Hmp). specialize (Hlen 0 0). fold B in Hlen.
  destruct (Nat.ltb_spec (SPH_MAXPAD cfg) (r + 1)).
  - rewrite Nat.mod_small by lia. lia.
  - replace (SPH_MAXPAD cfg + B - 1 - r)%nat with (SPH_MAXPAD cfg - (r + 1) + 1 * B)%nat by lia.
    rewrite Nat.Div0.mod_add. apply Nat.mod_small. lia.
Qed.

Lemma insert_end (l : list Z) i x : (i < length l)%nat -> take (i + 1) (<[i := x]> l) = take i l ++ [x].
Proof.
  intros. rewrite Nat.add_1_r, (take_S_r _ _ x) by by apply list_lookup_insert_eq.
  by rewrite take_insert_ge by lia.
Qed.

(** The last one or two calls of the block function. *)
Lemma close_absorbs sc ub n rnum :
  wf sc ->
  (val (addbits_and_close cfg RFUN sc ub n rnum).1, []) =
  absorb B compress (abs sc)
    ([pad_byte cfg ub n]
     ++ replicate ((SPH_MAXPAD cfg + B - 1 - current cfg sc) mod B) 0
     ++ length_field cfg (count sc) n).
Proof.
  intros Hwf. destruct (cfg_ok_facts cfg Hcfg) as (_ & Hlen & Hmp).
  pose proof (Hlen (count sc) n) as Hl. fold B in Hl. pose proof (current_lt sc) as Hcur.
  rewrite pad_zeros_cases by done. unfold addbits_and_close, abs.
  set (cur := current cfg sc) in *. unfold wf in Hwf. fold B in Hwf. fold B.
  assert (Hlt : (cur < length (buf sc))%nat) by lia.
  pose proof (insert_end (buf sc) cur (pad_byte cfg ub n) Hlt) as Hi.
  assert (Hb0 : length (<[cur:=pad_byte cfg ub n]> (buf sc)) = B) by by rewrite length_insert.
  set (b0 := <[cur:=pad_byte cfg ub n]> (buf sc)) in *.
  set (F := length_field cfg (count sc) n) in *.
  assert (Htk : length (take cur (buf sc)) = cur) by (rewrite length_take; lia).
  destruct (Nat.ltb_spec (SPH_MAXPAD cfg) (cur + 1)) as [Hgt|Hle]; cbv zeta; cbn [fst val].
  - unfold memset0 at 2 3.
    rewrite replicate_add, <-app_assoc, app_assoc, absorb_app.
    rewrite (absorb_fill B compress (val sc) (take cur (buf sc))); [| |done].
    2: { rewrite Htk, length_app, length_replicate. cbn [length]. lia. }
    assert (E : memcpy b0 (cur + 1) (replicate (B - (cur + 1)) 0)
                = take cur (buf sc) ++ [pad_byte cfg ub n] ++ replicate (B - (cur + 1)) 0).
    { rewrite take_memcpy_all by (rewrite length_replicate; lia). by rewrite Hi, <-app_assoc. }
    rewrite E. set (b1 := take cur (buf sc) ++ _ ++ _).
    assert (Hb1 : length b1 = B) by (unfold b1; rewrite !length_app, Htk, length_replicate; cbn [length]; lia).
    rewrite absorb_block; [|apply B_pos|rewrite length_app, length_replicate; lia].
    rewrite write_length_spec; [|done|].
    2: { unfold memset0. rewrite length_memcpy by (rewrite length_replicate; lia). done. }
    fold F. do 3 f_equal. unfold memset0.
    pose proof (take_memcpy b1 0 (replicate (SPH_MAXPAD cfg) 0) ltac:(lia)) as Ht.
    rewrite length_replicate, Nat.add_0_l, take_0 in Ht. rewrite Ht. done.
  - rewrite write_length_spec; [|done|].
    2: { unfold memset0. rewrite length_memcpy by (rewrite length_replicate; lia). done. }
    rewrite (absorb_fill B compress (val sc) (take cur (buf sc))); [| |done].
    2: { rewrite Htk, !length_app, length_replicate. cbn [length]. lia. }
    fold F. unfold memset0, compress.
    pose proof (take_memcpy b0 (cur + 1) (replicate (SPH_MAXPAD cfg - (cur + 1)) 0) ltac:(lia)) as Ht.
    rewrite length_replicate in Ht. replace (cur + 1 + _)%nat with (SPH_MAXPAD cfg) in Ht by lia.
    rewrite Ht, Hi. by rewrite <-!app_assoc.
Qed.

Lemma md_pad_multiple m ub n : (length (md_pad cfg m ub n) mod B = 0)%nat.
Proof.
  destruct (cfg_ok_facts cfg Hcfg) as (_ & Hlen & Hmp). pose proof B_pos.
  pose proof (Hlen (Z.of_nat (length m)) n) as Hl. fold B in Hl.
  unfold md_pad. fold B. rewrite !length_app, length_replicate. cbn [length].
  pose proof (Nat.mod_upper_bound (length m) B ltac:(lia)) as Hr.
  rewrite pad_zeros_cases by done. rewrite <-Nat.Div0.add_mod_idemp_l.
  set (r := (length m mod B)%nat) in *.
  destruct (Nat.ltb_spec (SPH_MAXPAD cfg) (r + 1)).
  - replace (r + _)%nat with (2 * B)%nat by lia. apply Nat.Div0.mod_mul.
  - replace (r + _)%nat with (1 * B)%nat by lia. apply Nat.Div0.mod_mul.
Qed.

(** ** Closing a context that has absorbed [m] *)
Lemma close_spec sc iv m ub n rnum :
  wf sc -> abs sc = absorb B compress (iv, []) m ->
  count sc = Z.of_nat (length m) ->
  val (addbits_and_close cfg RFUN sc ub n rnum).1
  = foldl compress iv (blocks B (md_pad cfg m ub n)).
Proof.
  intros Hwf Ha Hc. pose proof (close_absorbs sc ub n rnum Hwf) as H.
  assert (Hcur : current cfg sc = (length m mod B)%nat).
  { rewrite <-(length_md_abs sc Hwf), Ha, length_absorb; [done|apply B_pos|apply B_pos]. }
  rewrite Ha, Hcur, Hc, <-absorb_app in H. fold (md_pad cfg m ub n) in H.
  rewrite absorb_spec in H by apply B_pos. by apply (f_equal fst) in H.
Qed.

(** ** A whole computation: initialise, update in pieces, close. *)
Lemma stream_refines junk iv pieces :
  length junk = B -> Z.of_nat (length (concat (pieces.*2))) < 2 ^ 64 ->
  let sc := foldl (fun sc p => md_update cfg RFUN sc p.1 p.2) (mk_md junk iv 0) pieces in
  wf sc /\ abs sc = absorb B compress (iv, []) (concat (pieces.*2)) /\
  count sc = Z.of_nat (length (concat (pieces.*2))).
Proof.
  intros Hj. induction pieces as [|p pieces IH] using rev_ind; intros Hlt.
  { cbn. split_and!; [exact Hj|unfold abs; by rewrite current_mod|done]. }
  rewrite fmap_app, concat_app, length_app in *. cbn [fmap list_fmap concat] in *.
  rewrite app_nil_r in *. destruct IH as (Hwf & Ha & Hl); [lia|]. cbv zeta in *.
  rewrite foldl_app. cbn [foldl].
  destruct (update_absorbs _ p.1 p.2 Hwf) as (Hwf' & Ha' & Hl').
  split_and!; [done|by rewrite Ha', Ha, absorb_app|].
  rewrite Hl', Hl by (rewrite Hl; unfold word; lia).
  unfold add64. rewrite T64_id; [lia|unfold word; lia].
Qed.

Lemma stream_close junk iv pieces ub n rnum :
  length junk = B -> Z.of_nat (length (concat (pieces.*2))) < 2 ^ 64 ->
  let sc := foldl (fun sc p => md_update cfg RFUN sc p.1 p.2) (mk_md junk iv 0) pieces in
  val (addbits_and_close cfg RFUN sc ub n rnum).1
  = foldl compress iv (blocks B (md_pad cfg (concat (pieces.*2)) ub n)).
Proof.
  intros Hj Hlt. destruct (stream_refines junk iv pieces Hj Hlt) as (? & ? & ?).
  by apply close_spec.
Qed.
End Refinement.

(** ** Properties *)

(** C28. The driver refines one-byte-at-a-time absorption for every supported
    configuration and every block function: updates with any pieces, at any
    addresses (so through the buffered loop, the direct loop or both), followed
    by [addbits_and_close], leave the chaining value [RFUN] folded over the
    blocks of the padded message, whatever the buffer held at the start. *)
Theorem md_streaming cfg RFUN junk iv pieces ub n rnum :
  cfg_ok cfg = true -> length junk = SPH_BLEN cfg ->
  Z.of_nat (length (concat (pieces.*2))) < 2 ^ 64 ->
  let sc := foldl (fun sc p => md_update cfg RFUN sc p.1 p.2) (mk_md junk iv 0) pieces in
  val (addbits_and_close cfg RFUN sc ub n rnum).1
  = foldl (fun v b => RFUN b v) iv (blocks (SPH_BLEN cfg) (md_pad cfg (concat (pieces.*2)) ub n)).
Proof. intros Hcfg Hj Hlt. by apply stream_close. Qed.

Lemma md_streaming_witness :
  let cfg := mk_cfg LE64 PLW_none true None false false in
  let RFUN := fun b v => [foldl (fun a x => T64 (3 * a + x)) (v !!! 0%nat) b] in
  let sc := foldl (fun sc p => md_update cfg RFUN sc p.1 p.2) (mk_md (replicate 128 9) [1] 0)
              [(3, replicate 5 1); (8, replicate 300 2)] in
  val (addbits_and_close cfg RFUN sc 0x15 5 0).1
  = foldl (fun v b => RFUN b v) [1]
      (blocks 128 (md_pad cfg (replicate 5 1 ++ replicate 300 2) 0x15 5)).
Proof.
  apply (md_streaming (mk_cfg LE64 PLW_none true None false false)
    (fun b v => [foldl (fun a x => T64 (3 * a + x)) (v !!! 0%nat) b]) (replicate 128 9) [1]
    [(3, replicate 5 1); (8, replicate 300 2)] 0x15 5 0); exact eq_refl.
Defined.

(** C39. The little-endian four-word length field is never written: with [LE64]
    and [PLW4] the second half of the field keeps what the buffer held, where
    the big-endian form of the same configuration overwrites all 32 bytes. *)
Theorem md_le64_plw4_stale c b cnt n :
  enc c = LE64 -> plw c = PLW4 -> length b = SPH_BLEN c -> (32 <= SPH_BLEN c)%nat ->
  drop (SPH_MAXPAD c + 16) (write_length c b cnt n) = drop (SPH_MAXPAD c + 16) b.
Proof.
  intros He Hp Hb H32. unfold write_length. rewrite He, Hp.
  assert (Hm : SPH_MAXPAD c = (SPH_BLEN c - 32)%nat) by (unfold SPH_MAXPAD, SPH_WLEN; by rewrite He, Hp).
  assert (Hw : SPH_WLEN c = 8%nat) by (unfold SPH_WLEN; by rewrite He). rewrite Hw.
  cbv zeta. rewrite length_two_memcpy by (rewrite ?length_le_store; lia).
  unfold memcpy. rewrite app_assoc, drop_app_ge; rewrite !length_app, length_take, !length_le_store;
    [|lia].
  replace (_ - _)%nat with 0%nat by lia. by rewrite drop_0.
Qed.

Lemma md_le64_plw4_stale_witness :
  let c := mk_cfg LE64 PLW4 false None false true in
  drop 112 (write_length c (replicate 128 0xEE) 5 0) = replicate 16 0xEE.
Proof.
  exact (md_le64_plw4_stale (mk_cfg LE64 PLW4 false None false true) (replicate 128 0xEE) 5 0
    eq_refl eq_refl eq_refl ltac:(vm_compute; lia)).
Defined.
