(* ===== verification/Sha2.v ===== *)
(** * SHA-224 and SHA-256 of the GhostRider core ([crypto/ghostrider/sph_sha2.c]).

    [SHA2_ROUND_BODY] is the unrolled compression function of the default
    (large-footprint) build: 64 steps on the scalars [A .. H] and [W00 .. W15],
    each with its own constant, and a majority function that reuses the previous
    step's [X ^ Y].  It is transcribed statement by statement in four blocks of
    sixteen steps and proved equal to the rolled reference compression function;
    the streaming functions are instances of [MdHelper]. *)
From S2P Require Import Prelude Stream NmSha256 MdHelper.

Definition CH (x y z : Z) : Z := Z.lxor (Z.land (Z.lxor y z) x) z.
(** [MAJ(X, Y, Z)] with [X_xor_Y] just assigned and [Y_xor_Z] left by the step before. *)
Definition MAJ (Y X_xor_Y Y_xor_Z : Z) : Z := Z.lxor Y (Z.land X_xor_Y Y_xor_Z).
Definition BSG2_0 (x : Z) : Z := Z.lxor (Z.lxor (rotr32 x 2) (rotr32 x 13)) (rotr32 x 22).
Definition BSG2_1 (x : Z) : Z := Z.lxor (Z.lxor (rotr32 x 6) (rotr32 x 11)) (rotr32 x 25).
Definition SSG2_0 (x : Z) : Z := Z.lxor (Z.lxor (rotr32 x 7) (rotr32 x 18)) (T32 (Z.shiftr x 3)).
Definition SSG2_1 (x : Z) : Z := Z.lxor (Z.lxor (rotr32 x 17) (rotr32 x 19)) (T32 (Z.shiftr x 10)).

Definition H224 : list Z :=
  [0xC1059ED8; 0x367CD507; 0x3070DD17; 0xF70E5939; 0xFFC00B31; 0x68581511; 0x64F98FA7; 0xBEFA4FA4].
Definition H256 : list Z :=
  [0x6A09E667; 0xBB67AE85; 0x3C6EF372; 0xA54FF53A; 0x510E527F; 0x9B05688C; 0x1F83D9AB; 0x5BE0CD19].

(** The local variables of the body that are live between two steps. *)
Record regs := mk_regs {
  rA : Z; rB : Z; rC : Z; rD : Z; rE : Z; rF : Z; rG : Z; rH : Z; rY_xor_Z : Z;
  r00 : Z; r01 : Z; r02 : Z; r03 : Z; r04 : Z; r05 : Z; r06 : Z; r07 : Z;
  r08 : Z; r09 : Z; r10 : Z; r11 : Z; r12 : Z; r13 : Z; r14 : Z; r15 : Z
}.

Definition steps_0 (inp : nat -> Z) (v : vars) (Y_xor_Z : Z) : regs :=
  let '(A, B, C, D, E, F, G, H) := v in
  dlet W00 := inp 0%nat in
  dlet T1 := T32 (H + BSG2_1 E + CH E F G + 0x428A2F98 + W00) in
  dlet X_xor_Y := Z.lxor A B in dlet T2 := T32 (BSG2_0 A + MAJ B X_xor_Y Y_xor_Z) in
  dlet Y_xor_Z := X_xor_Y in dlet D := T32 (D + T1) in dlet H := T32 (T1 + T2) in
  dlet W01 := inp 1%nat in
  dlet T1 := T32 (G + BSG2_1 D + CH D E F + 0x71374491 + W01) in
  dlet X_xor_Y := Z.lxor H A in dlet T2 := T32 (BSG2_0 H + MAJ A X_xor_Y Y_xor_Z) in
  dlet Y_xor_Z := X_xor_Y in dlet C := T32 (C + T1) in dlet G := T32 (T1 + T2) in
  dlet W02 := inp 2%nat in
  dlet T1 := T32 (F + BSG2_1 C + CH C D E + 0xB5C0FBCF + W02) in
  dlet X_xor_Y := Z.lxor G H in dlet T2 := T32 (BSG2_0 G + MAJ H X_xor_Y Y_xor_Z) in
  dlet Y_xor_Z := X_xor_Y in dlet B := T32 (B + T1) in dlet F := T32 (T1 + T2) in
  dlet W03 := inp 3%nat in
  dlet T1 := T32 (E + BSG2_1 B + CH B C D + 0xE9B5DBA5 + W03) in
  dlet X_xor_Y := Z.lxor F G in dlet T2 := T32 (BSG2_0 F + MAJ G X_xor_Y Y_xor_Z) in
  dlet Y_xor_Z := X_xor_Y in dlet A := T32 (A + T1) in dlet E := T32 (T1 + T2) in
  dlet W04 := inp 4%nat in
  dlet T1 := T32 (D + BSG2_1 A + CH A B C + 0x3956C25B + W04) in
  dlet X_xor_Y := Z.lxor E F in dlet T2 := T32 (BSG2_0 E + MAJ F X_xor_Y Y_xor_Z) in
  dlet Y_xor_Z := X_xor_Y in dlet H := T32 (H + T1) in dlet D := T32 (T1 + T2) in
  dlet W05 := inp 5%nat in
  dlet T1 := T32 (C + BSG2_1 H + CH H A B + 0x59F111F1 + W05) in
  dlet X_xor_Y := Z.lxor D E in dlet T2 := T32 (BSG2_0 D + MAJ E X_xor_Y Y_xor_Z) in
  dlet Y_xor_Z := X_xor_Y in dlet G := T32 (G + T1) in dlet C := T32 (T1 + T2) in
  dlet W06 := inp 6%nat in
  dlet T1 := T32 (B + BSG2_1 G + CH G H A + 0x923F82A4 + W06) in
  dlet X_xor_Y := Z.lxor C D in dlet T2 := T32 (BSG2_0 C + MAJ D X_xor_Y Y_xor_Z) in
  dlet Y_xor_Z := X_xor_Y in dlet F := T32 (F + T1) in dlet B := T32 (T1 + T2) in
  dlet W07 := inp 7%nat in
  dlet T1 := T32 (A + BSG2_1 F + CH F G H + 0xAB1C5ED5 + W07) in
  dlet X_xor_Y := Z.lxor B C in dlet T2 := T32 (BSG2_0 B + MAJ C X_xor_Y Y_xor_Z) in
  dlet Y_xor_Z := X_xor_Y in dlet E := T32 (E + T1) in dlet A := T32 (T1 + T2) in
  dlet W08 := inp 8%nat in
  dlet T1 := T32 (H + BSG2_1 E + CH E F G + 0xD807AA98 + W08) in
  dlet X_xor_Y := Z.lxor A B in dlet T2 := T32 (BSG2_0 A + MAJ B X_xor_Y Y_xor_Z) in
  dlet Y_xor_Z := X_xor_Y in dlet D := T32 (D + T1) in dlet H := T32 (T1 + T2) in
  dlet W09 := inp 9%nat in
  dlet T1 := T32 (G + BSG2_1 D + CH D E F + 0x12835B01 + W09) in
  dlet X_xor_Y := Z.lxor H A in dlet T2 := T32 (BSG2_0 H + MAJ A X_xor_Y Y_xor_Z) in
  dlet Y_xor_Z := X_xor_Y in dlet C := T32 (C + T1) in dlet G := T32 (T1 + T2) in
  dlet W10 := inp 10%nat in
  dlet T1 := T32 (F + BSG2_1 C + CH C D E + 0x243185BE + W10) in
  dlet X_xor_Y := Z.lxor G H in dlet T2 := T32 (BSG2_0 G + MAJ H X_xor_Y Y_xor_Z) in
  dlet Y_xor_Z := X_xor_Y in dlet B := T32 (B + T1) in dlet F := T32 (T1 + T2) in
  dlet W11 := inp 11%nat in
  dlet T1 := T32 (E + BSG2_1 B + CH B C D + 0x550C7DC3 + W11) in
  dlet X_xor_Y := Z.lxor F G in dlet T2 := T32 (BSG2_0 F + MAJ G X_xor_Y Y_xor_Z) in
  dlet Y_xor_Z := X_xor_Y in dlet A := T32 (A + T1) in dlet E := T32 (T1 + T2) in
  dlet W12 := inp 12%nat in
  dlet T1 := T32 (D + BSG2_1 A + CH A B C + 0x72BE5D74 + W12) in
  dlet X_xor_Y := Z.lxor E F in dlet T2 := T32 (BSG2_0 E + MAJ F X_xor_Y Y_xor_Z) in
  dlet Y_xor_Z := X_xor_Y in dlet H := T32 (H + T1) in dlet D := T32 (T1 + T2) in
  dlet W13 := inp 13%nat in
  dlet T1 := T32 (C + BSG2_1 H + CH H A B + 0x80DEB1FE + W13) in
  dlet X_xor_Y := Z.lxor D E in dlet T2 := T32 (BSG2_0 D + MAJ E X_xor_Y Y_xor_Z) in
  dlet Y_xor_Z := X_xor_Y in dlet G := T32 (G + T1) in dlet C := T32 (T1 + T2) in
  dlet W14 := inp 14%nat in
  dlet T1 := T32 (B + BSG2_1 G + CH G H A + 0x9BDC06A7 + W14) in
  dlet X_xor_Y := Z.lxor C D in dlet T2 := T32 (BSG2_0 C + MAJ D X_xor_Y Y_xor_Z) in
  dlet Y_xor_Z := X_xor_Y in dlet F := T32 (F + T1) in dlet B := T32 (T1 + T2) in
  dlet W15 := inp 15%nat in
  dlet T1 := T32 (A + BSG2_1 F + CH F G H + 0xC19BF174 + W15) in
  dlet X_xor_Y := Z.lxor B C in dlet T2 := T32 (BSG2_0 B + MAJ C X_xor_Y Y_xor_Z) in
  dlet Y_xor_Z := X_xor_Y in dlet E := T32 (E + T1) in dlet A := T32 (T1 + T2) in
  mk_regs A B C D E F G H Y_xor_Z W00 W01 W02 W03 W04 W05 W06 W07 W08 W09 W10 W11 W12 W13 W14 W15.

Definition steps_16 (r : regs) : regs :=
  let '(mk_regs A B C D E F G H Y_xor_Z
          W00 W01 W02 W03 W04 W05 W06 W07 W08 W09 W10 W11 W12 W13 W14 W15) := r in
  dlet W00 := T32 (SSG2_1 W14 + W09 + SSG2_0 W01 + W00) in
  dlet T1 := T32 (H + BSG2_1 E + CH E F G + 0xE49B69C1 + W00) in
  dlet X_xor_Y := Z.lxor A B in dlet T2 := T32 (BSG2_0 A + MAJ B X_xor_Y Y_xor_Z) in
  dlet Y_xor_Z := X_xor_Y in dlet D := T32 (D + T1) in dlet H := T32 (T1 + T2) in
  dlet W01 := T32 (SSG2_1 W15 + W10 + SSG2_0 W02 + W01) in
  dlet T1 := T32 (G + BSG2_1 D + CH D E F + 0xEFBE4786 + W01) in
  dlet X_xor_Y := Z.lxor H A in dlet T2 := T32 (BSG2_0 H + MAJ A X_xor_Y Y_xor_Z) in
  dlet Y_xor_Z := X_xor_Y in dlet C := T32 (C + T1) in dlet G := T32 (T1 + T2) in
  dlet W02 := T32 (SSG2_1 W00 + W11 + SSG2_0 W03 + W02) in
  dlet T1 := T32 (F + BSG2_1 C + CH C D E + 0x0FC19DC6 + W02) in
  dlet X_xor_Y := Z.lxor G H in dlet T2 := T32 (BSG2_0 G + MAJ H X_xor_Y Y_xor_Z) in
  dlet Y_xor_Z := X_xor_Y in dlet B := T32 (B + T1) in dlet F := T32 (T1 + T2) in
  dlet W03 := T32 (SSG2_1 W01 + W12 + SSG2_0 W04 + W03) in
  dlet T1 := T32 (E + BSG2_1 B + CH B C D + 0x240CA1CC + W03) in
  dlet X_xor_Y := Z.lxor F G in dlet T2 := T32 (BSG2_0 F + MAJ G X_xor_Y Y_xor_Z) in
  dlet Y_xor_Z := X_xor_Y in dlet A := T32 (A + T1) in dlet E := T32 (T1 + T2) in
  dlet W04 := T32 (SSG2_1 W02 + W13 + SSG2_0 W05 + W04) in
  dlet T1 := T32 (D + BSG2_1 A + CH A B C + 0x2DE92C6F + W04) in
  dlet X_xor_Y := Z.lxor E F in dlet T2 := T32 (BSG2_0 E + MAJ F X_xor_Y Y_xor_Z) in
  dlet Y_xor_Z := X_xor_Y in dlet H := T32 (H + T1) in dlet D := T32 (T1 + T2) in
  dlet W05 := T32 (SSG2_1 W03 + W14 + SSG2_0 W06 + W05) in
  dlet T1 := T32 (C + BSG2_1 H + CH H A B + 0x4A7484AA + W05) in
  dlet X_xor_Y := Z.lxor D E in dlet T2 := T32 (BSG2_0 D + MAJ E X_xor_Y Y_xor_Z) in
  dlet Y_xor_Z := X_xor_Y in dlet G := T32 (G + T1) in dlet C := T32 (T1 + T2) in
  dlet W06 := T32 (SSG2_1 W04 + W15 + SSG2_0 W07 + W06) in
  dlet T1 := T32 (B + BSG2_1 G + CH G H A + 0x5CB0A9DC + W06) in
  dlet X_xor_Y := Z.lxor C D in dlet T2 := T32 (BSG2_0 C + MAJ D X_xor_Y Y_xor_Z) in
  dlet Y_xor_Z := X_xor_Y in dlet F := T32 (F + T1) in dlet B := T32 (T1 + T2) in
  dlet W07 := T32 (SSG2_1 W05 + W00 + SSG2_0 W08 + W07) in
  dlet T1 := T32 (A + BSG2_1 F + CH F G H + 0x76F988DA + W07) in
  dlet X_xor_Y := Z.lxor B C in dlet T2 := T32 (BSG2_0 B + MAJ C X_xor_Y Y_xor_Z) in
  dlet Y_xor_Z := X_xor_Y in dlet E := T32 (E + T1) in dlet A := T32 (T1 + T2) in
  dlet W08 := T32 (SSG2_1 W06 + W01 + SSG2_0 W09 + W08) in
  dlet T1 := T32 (H + BSG2_1 E + CH E F G + 0x983E5152 + W08) in
  dlet X_xor_Y := Z.lxor A B in dlet T2 := T32 (BSG2_0 A + MAJ B X_xor_Y Y_xor_Z) in
  dlet Y_xor_Z := X_xor_Y in dlet D := T32 (D + T1) in dlet H := T32 (T1 + T2) in
  dlet W09 := T32 (SSG2_1 W07 + W02 + SSG2_0 W10 + W09) in
  dlet T1 := T32 (G + BSG2_1 D + CH D E F + 0xA831C66D + W09) in
  dlet X_xor_Y := Z.lxor H A in dlet T2 := T32 (BSG2_0 H + MAJ A X_xor_Y Y_xor_Z) in
  dlet Y_xor_Z := X_xor_Y in dlet C := T32 (C + T1) in dlet G := T32 (T1 + T2) in
  dlet W10 := T32 (SSG2_1 W08 + W03 + SSG2_0 W11 + W10) in
  dlet T1 := T32 (F + BSG2_1 C + CH C D E + 0xB00327C8 + W10) in
  dlet X_xor_Y := Z.lxor G H in dlet T2 := T32 (BSG2_0 G + MAJ H X_xor_Y Y_xor_Z) in
  dlet Y_xor_Z := X_xor_Y in dlet B := T32 (B + T1) in dlet F := T32 (T1 + T2) in
  dlet W11 := T32 (SSG2_1 W09 + W04 + SSG2_0 W12 + W11) in
  dlet T1 := T32 (E + BSG2_1 B + CH B C D + 0xBF597FC7 + W11) in
  dlet X_xor_Y := Z.lxor F G in dlet T2 := T32 (BSG2_0 F + MAJ G X_xor_Y Y_xor_Z) in
  dlet Y_xor_Z := X_xor_Y in dlet A := T32 (A + T1) in dlet E := T32 (T1 + T2) in
  dlet W12 := T32 (SSG2_1 W10 + W05 + SSG2_0 W13 + W12) in
  dlet T1 := T32 (D + BSG2_1 A + CH A B C + 0xC6E00BF3 + W12) in
  dlet X_xor_Y := Z.lxor E F in dlet T2 := T32 (BSG2_0 E + MAJ F X_xor_Y Y_xor_Z) in
  dlet Y_xor_Z := X_xor_Y in dlet H := T32 (H + T1) in dlet D := T32 (T1 + T2) in
  dlet W13 := T32 (SSG2_1 W11 + W06 + SSG2_0 W14 + W13) in
  dlet T1 := T32 (C + BSG2_1 H + CH H A B + 0xD5A79147 + W13) in
  dlet X_xor_Y := Z.lxor D E in dlet T2 := T32 (BSG2_0 D + MAJ E X_xor_Y Y_xor_Z) in
  dlet Y_xor_Z := X_xor_Y in dlet G := T32 (G + T1) in dlet C := T32 (T1 + T2) in
  dlet W14 := T32 (SSG2_1 W12 + W07 + SSG2_0 W15 + W14) in
  dlet T1 := T32 (B + BSG2_1 G + CH G H A + 0x06CA6351 + W14) in
  dlet X_xor_Y := Z.lxor C D in dlet T2 := T32 (BSG2_0 C + MAJ D X_xor_Y Y_xor_Z) in
  dlet Y_xor_Z := X_xor_Y in dlet F := T32 (F + T1) in dlet B := T32 (T1 + T2) in
  dlet W15 := T32 (SSG2_1 W13 + W08 + SSG2_0 W00 + W15) in
  dlet T1 := T32 (A + BSG2_1 F + CH F G H + 0x14292967 + W15) in
  dlet X_xor_Y := Z.lxor B C in dlet T2 := T32 (BSG2_0 B + MAJ C X_xor_Y Y_xor_Z) in
  dlet Y_xor_Z := X_xor_Y in dlet E := T32 (E + T1) in dlet A := T32 (T1 + T2) in
  mk_regs A B C D E F G H Y_xor_Z W00 W01 W02 W03 W04 W05 W06 W07 W08 W09 W10 W11 W12 W13 W14 W15.

Definition steps_32 (r : regs) : regs :=
  let '(mk_regs A B C D E F G H Y_xor_Z
          W00 W01 W02 W03 W04 W05 W06 W07 W08 W09 W10 W11 W12 W13 W14 W15) := r in
  dlet W00 := T32 (SSG2_1 W14 + W09 + SSG2_0 W01 + W00) in
  dlet T1 := T32 (H + BSG2_1 E + CH E F G + 0x27B70A85 + W00) in
  dlet X_xor_Y := Z.lxor A B in dlet T2 := T32 (BSG2_0 A + MAJ B X_xor_Y Y_xor_Z) in
  dlet Y_xor_Z := X_xor_Y in dlet D := T32 (D + T1) in dlet H := T32 (T1 + T2) in
  dlet W01 := T32 (SSG2_1 W15 + W10 + SSG2_0 W02 + W01) in
  dlet T1 := T32 (G + BSG2_1 D + CH D E F + 0x2E1B2138 + W01) in
  dlet X_xor_Y := Z.lxor H A in dlet T2 := T32 (BSG2_0 H + MAJ A X_xor_Y Y_xor_Z) in
  dlet Y_xor_Z := X_xor_Y in dlet C := T32 (C + T1) in dlet G := T32 (T1 + T2) in
  dlet W02 := T32 (SSG2_1 W00 + W11 + SSG2_0 W03 + W02) in
  dlet T1 := T32 (F + BSG2_1 C + CH C D E + 0x4D2C6DFC + W02) in
  dlet X_xor_Y := Z.lxor G H in dlet T2 := T32 (BSG2_0 G + MAJ H X_xor_Y Y_xor_Z) in
  dlet Y_xor_Z := X_xor_Y in dlet B := T32 (B + T1) in dlet F := T32 (T1 + T2) in
  dlet W03 := T32 (SSG2_1 W01 + W12 + SSG2_0 W04 + W03) in
  dlet T1 := T32 (E + BSG2_1 B + CH B C D + 0x53380D13 + W03) in
  dlet X_xor_Y := Z.lxor F G in dlet T2 := T32 (BSG2_0 F + MAJ G X_xor_Y Y_xor_Z) in
  dlet Y_xor_Z := X_xor_Y in dlet A := T32 (A + T1) in dlet E := T32 (T1 + T2) in
  dlet W04 := T32 (SSG2_1 W02 + W13 + SSG2_0 W05 + W04) in
  dlet T1 := T32 (D + BSG2_1 A + CH A B C + 0x650A7354 + W04) in
  dlet X_xor_Y := Z.lxor E F in dlet T2 := T32 (BSG2_0 E + MAJ F X_xor_Y Y_xor_Z) in
  dlet Y_xor_Z := X_xor_Y in dlet H := T32 (H + T1) in dlet D := T32 (T1 + T2) in
  dlet W05 := T32 (SSG2_1 W03 + W14 + SSG2_0 W06 + W05) in
  dlet T1 := T32 (C + BSG2_1 H + CH H A B + 0x766A0ABB + W05) in
  dlet X_xor_Y := Z.lxor D E in dlet T2 := T32 (BSG2_0 D + MAJ E X_xor_Y Y_xor_Z) in
  dlet Y_xor_Z := X_xor_Y in dlet G := T32 (G + T1) in dlet C := T32 (T1 + T2) in
  dlet W06 := T32 (SSG2_1 W04 + W15 + SSG2_0 W07 + W06) in
  dlet T1 := T32 (B + BSG2_1 G + CH G H A + 0x81C2C92E + W06) in
  dlet X_xor_Y := Z.lxor C D in dlet T2 := T32 (BSG2_0 C + MAJ D X_xor_Y Y_xor_Z) in
  dlet Y_xor_Z := X_xor_Y in dlet F := T32 (F + T1) in dlet B := T32 (T1 + T2) in
  dlet W07 := T32 (SSG2_1 W05 + W00 + SSG2_0 W08 + W07) in
  dlet T1 := T32 (A + BSG2_1 F + CH F G H + 0x92722C85 + W07) in
  dlet X_xor_Y := Z.lxor B C in dlet T2 := T32 (BSG2_0 B + MAJ C X_xor_Y Y_xor_Z) in
  dlet Y_xor_Z := X_xor_Y in dlet E := T32 (E + T1) in dlet A := T32 (T1 + T2) in
  dlet W08 := T32 (SSG2_1 W06 + W01 + SSG2_0 W09 + W08) in
  dlet T1 := T32 (H + BSG2_1 E + CH E F G + 0xA2BFE8A1 + W08) in
  dlet X_xor_Y := Z.lxor A B in dlet T2 := T32 (BSG2_0 A + MAJ B X_xor_Y Y_xor_Z) in
  dlet Y_xor_Z := X_xor_Y in dlet D := T32 (D + T1) in dlet H := T32 (T1 + T2) in
  dlet W09 := T32 (SSG2_1 W07 + W02 + SSG2_0 W10 + W09) in
  dlet T1 := T32 (G + BSG2_1 D + CH D E F + 0xA81A664B + W09) in
  dlet X_xor_Y := Z.lxor H A in dlet T2 := T32 (BSG2_0 H + MAJ A X_xor_Y Y_xor_Z) in
  dlet Y_xor_Z := X_xor_Y in dlet C := T32 (C + T1) in dlet G := T32 (T1 + T2) in
  dlet W10 := T32 (SSG2_1 W08 + W03 + SSG2_0 W11 + W10) in
  dlet T1 := T32 (F + BSG2_1 C + CH C D E + 0xC24B8B70 + W10) in
  dlet X_xor_Y := Z.lxor G H in dlet T2 := T32 (BSG2_0 G + MAJ H X_xor_Y Y_xor_Z) in
  dlet Y_xor_Z := X_xor_Y in dlet B := T32 (B + T1) in dlet F := T32 (T1 + T2) in
  dlet W11 := T32 (SSG2_1 W09 + W04 + SSG2_0 W12 + W11) in
  dlet T1 := T32 (E + BSG2_1 B + CH B C D + 0xC76C51A3 + W11) in
  dlet X_xor_Y := Z.lxor F G in dlet T2 := T32 (BSG2_0 F + MAJ G X_xor_Y Y_xor_Z) in
  dlet Y_xor_Z := X_xor_Y in dlet A := T32 (A + T1) in dlet E := T32 (T1 + T2) in
  dlet W12 := T32 (SSG2_1 W10 + W05 + SSG2_0 W13 + W12) in
  dlet T1 := T32 (D + BSG2_1 A + CH A B C + 0xD192E819 + W12) in
  dlet X_xor_Y := Z.lxor E F in dlet T2 := T32 (BSG2_0 E + MAJ F X_xor_Y Y_xor_Z) in
  dlet Y_xor_Z := X_xor_Y in dlet H := T32 (H + T1) in dlet D := T32 (T1 + T2) in
  dlet W13 := T32 (SSG2_1 W11 + W06 + SSG2_0 W14 + W13) in
  dlet T1 := T32 (C + BSG2_1 H + CH H A B + 0xD6990624 + W13) in
  dlet X_xor_Y := Z.lxor D E in dlet T2 := T32 (BSG2_0 D + MAJ E X_xor_Y Y_xor_Z) in
  dlet Y_xor_Z := X_xor_Y in dlet G := T32 (G + T1) in dlet C := T32 (T1 + T2) in
  dlet W14 := T32 (SSG2_1 W12 + W07 + SSG2_0 W15 + W14) in
  dlet T1 := T32 (B + BSG2_1 G + CH G H A + 0xF40E3585 + W14) in
  dlet X_xor_Y := Z.lxor C D in dlet T2 := T32 (BSG2_0 C + MAJ D X_xor_Y Y_xor_Z) in
  dlet Y_xor_Z := X_xor_Y in dlet F := T32 (F + T1) in dlet B := T32 (T1 + T2) in
  dlet W15 := T32 (SSG2_1 W13 + W08 + SSG2_0 W00 + W15) in
  dlet T1 := T32 (A + BSG2_1 F + CH F G H + 0x106AA070 + W15) in
  dlet X_xor_Y := Z.lxor B C in dlet T2 := T32 (BSG2_0 B + MAJ C X_xor_Y Y_xor_Z) in
  dlet Y_xor_Z := X_xor_Y in dlet E := T32 (E + T1) in dlet A := T32 (T1 + T2) in
  mk_regs A B C D E F G H Y_xor_Z W00 W01 W02 W03 W04 W05 W06 W07 W08 W09 W10 W11 W12 W13 W14 W15.

Definition steps_48 (r : regs) : regs :=
  let '(mk_regs A B C D E F G H Y_xor_Z
          W00 W01 W02 W03 W04 W05 W06 W07 W08 W09 W10 W11 W12 W13 W14 W15) := r in
  dlet W00 := T32 (SSG2_1 W14 + W09 + SSG2_0 W01 + W00) in
  dlet T1 := T32 (H + BSG2_1 E + CH E F G + 0x19A4C116 + W00) in
  dlet X_xor_Y := Z.lxor A B in dlet T2 := T32 (BSG2_0 A + MAJ B X_xor_Y Y_xor_Z) in
  dlet Y_xor_Z := X_xor_Y in dlet D := T32 (D + T1) in dlet H := T32 (T1 + T2) in
  dlet W01 := T32 (SSG2_1 W15 + W10 + SSG2_0 W02 + W01) in
  dlet T1 := T32 (G + BSG2_1 D + CH D E F + 0x1E376C08 + W01) in
  dlet X_xor_Y := Z.lxor H A in dlet T2 := T32 (BSG2_0 H + MAJ A X_xor_Y Y_xor_Z) in
  dlet Y_xor_Z := X_xor_Y in dlet C := T32 (C + T1) in dlet G := T32 (T1 + T2) in
  dlet W02 := T32 (SSG2_1 W00 + W11 + SSG2_0 W03 + W02) in
  dlet T1 := T32 (F + BSG2_1 C + CH C D E + 0x2748774C + W02) in
  dlet X_xor_Y := Z.lxor G H in dlet T2 := T32 (BSG2_0 G + MAJ H X_xor_Y Y_xor_Z) in
  dlet Y_xor_Z := X_xor_Y in dlet B := T32 (B + T1) in dlet F := T32 (T1 + T2) in
  dlet W03 := T32 (SSG2_1 W01 + W12 + SSG2_0 W04 + W03) in
  dlet T1 := T32 (E + BSG2_1 B + CH B C D + 0x34B0BCB5 + W03) in
  dlet X_xor_Y := Z.lxor F G in dlet T2 := T32 (BSG2_0 F + MAJ G X_xor_Y Y_xor_Z) in
  dlet Y_xor_Z := X_xor_Y in dlet A := T32 (A + T1) in dlet E := T32 (T1 + T2) in
  dlet W04 := T32 (SSG2_1 W02 + W13 + SSG2_0 W05 + W04) in
  dlet T1 := T32 (D + BSG2_1 A + CH A B C + 0x391C0CB3 + W04) in
  dlet X_xor_Y := Z.lxor E F in dlet T2 := T32 (BSG2_0 E + MAJ F X_xor_Y Y_xor_Z) in
  dlet Y_xor_Z := X_xor_Y in dlet H := T32 (H + T1) in dlet D := T32 (T1 + T2) in
  dlet W05 := T32 (SSG2_1 W03 + W14 + SSG2_0 W06 + W05) in
  dlet T1 := T32 (C + BSG2_1 H + CH H A B + 0x4ED8AA4A + W05) in
  dlet X_xor_Y := Z.lxor D E in dlet T2 := T32 (BSG2_0 D + MAJ E X_xor_Y Y_xor_Z) in
  dlet Y_xor_Z := X_xor_Y in dlet G := T32 (G + T1) in dlet C := T32 (T1 + T2) in
  dlet W06 := T32 (SSG2_1 W04 + W15 + SSG2_0 W07 + W06) in
  dlet T1 := T32 (B + BSG2_1 G + CH G H A + 0x5B9CCA4F + W06) in
  dlet X_xor_Y := Z.lxor C D in dlet T2 := T32 (BSG2_0 C + MAJ D X_xor_Y Y_xor_Z) in
  dlet Y_xor_Z := X_xor_Y in dlet F := T32 (F + T1) in dlet B := T32 (T1 + T2) in
  dlet W07 := T32 (SSG2_1 W05 + W00 + SSG2_0 W08 + W07) in
  dlet T1 := T32 (A + BSG2_1 F + CH F G H + 0x682E6FF3 + W07) in
  dlet X_xor_Y := Z.lxor B C in dlet T2 := T32 (BSG2_0 B + MAJ C X_xor_Y Y_xor_Z) in
  dlet Y_xor_Z := X_xor_Y in dlet E := T32 (E + T1) in dlet A := T32 (T1 + T2) in
  dlet W08 := T32 (SSG2_1 W06 + W01 + SSG2_0 W09 + W08) in
  dlet T1 := T32 (H + BSG2_1 E + CH E F G + 0x748F82EE + W08) in
  dlet X_xor_Y := Z.lxor A B in dlet T2 := T32 (BSG2_0 A + MAJ B X_xor_Y Y_xor_Z) in
  dlet Y_xor_Z := X_xor_Y in dlet D := T32 (D + T1) in dlet H := T32 (T1 + T2) in
  dlet W09 := T32 (SSG2_1 W07 + W02 + SSG2_0 W10 + W09) in
  dlet T1 := T32 (G + BSG2_1 D + CH D E F + 0x78A5636F + W09) in
  dlet X_xor_Y := Z.lxor H A in dlet T2 := T32 (BSG2_0 H + MAJ A X_xor_Y Y_xor_Z) in
  dlet Y_xor_Z := X_xor_Y in dlet C := T32 (C + T1) in dlet G := T32 (T1 + T2) in
  dlet W10 := T32 (SSG2_1 W08 + W03 + SSG2_0 W11 + W10) in
  dlet T1 := T32 (F + BSG2_1 C + CH C D E + 0x84C87814 + W10) in
  dlet X_xor_Y := Z.lxor G H in dlet T2 := T32 (BSG2_0 G + MAJ H X_xor_Y Y_xor_Z) in
  dlet Y_xor_Z := X_xor_Y in dlet B := T32 (B + T1) in dlet F := T32 (T1 + T2) in
  dlet W11 := T32 (SSG2_1 W09 + W04 + SSG2_0 W12 + W11) in
  dlet T1 := T32 (E + BSG2_1 B + CH B C D + 0x8CC70208 + W11) in
  dlet X_xor_Y := Z.lxor F G in dlet T2 := T32 (BSG2_0 F + MAJ G X_xor_Y Y_xor_Z) in
  dlet Y_xor_Z := X_xor_Y in dlet A := T32 (A + T1) in dlet E := T32 (T1 + T2) in
  dlet W12 := T32 (SSG2_1 W10 + W05 + SSG2_0 W13 + W12) in
  dlet T1 := T32 (D + BSG2_1 A + CH A B C + 0x90BEFFFA + W12) in
  dlet X_xor_Y := Z.lxor E F in dlet T2 := T32 (BSG2_0 E + MAJ F X_xor_Y Y_xor_Z) in
  dlet Y_xor_Z := X_xor_Y in dlet H := T32 (H + T1) in dlet D := T32 (T1 + T2) in
  dlet W13 := T32 (SSG2_1 W11 + W06 + SSG2_0 W14 + W13) in
  dlet T1 := T32 (C + BSG2_1 H + CH H A B + 0xA4506CEB + W13) in
  dlet X_xor_Y := Z.lxor D E in dlet T2 := T32 (BSG2_0 D + MAJ E X_xor_Y Y_xor_Z) in
  dlet Y_xor_Z := X_xor_Y in dlet G := T32 (G + T1) in dlet C := T32 (T1 + T2) in
  dlet W14 := T32 (SSG2_1 W12 + W07 + SSG2_0 W15 + W14) in
  dlet T1 := T32 (B + BSG2_1 G + CH G H A + 0xBEF9A3F7 + W14) in
  dlet X_xor_Y := Z.lxor C D in dlet T2 := T32 (BSG2_0 C + MAJ D X_xor_Y Y_xor_Z) in
  dlet Y_xor_Z := X_xor_Y in dlet F := T32 (F + T1) in dlet B := T32 (T1 + T2) in
  dlet W15 := T32 (SSG2_1 W13 + W08 + SSG2_0 W00 + W15) in
  dlet T1 := T32 (A + BSG2_1 F + CH F G H + 0xC67178F2 + W15) in
  dlet X_xor_Y := Z.lxor B C in dlet T2 := T32 (BSG2_0 B + MAJ C X_xor_Y Y_xor_Z) in
  dlet Y_xor_Z := X_xor_Y in dlet E := T32 (E + T1) in dlet A := T32 (T1 + T2) in
  mk_regs A B C D E F G H Y_xor_Z W00 W01 W02 W03 W04 W05 W06 W07 W08 W09 W10 W11 W12 W13 W14 W15.

(** [SHA2_ROUND_BODY(in, r)]. *)
Definition SHA2_ROUND_BODY (inp : nat -> Z) (r : list Z) : list Z :=
  let v := (r !!! 0%nat, r !!! 1%nat, r !!! 2%nat, r !!! 3%nat,
            r !!! 4%nat, r !!! 5%nat, r !!! 6%nat, r !!! 7%nat) in
  let q := steps_48 (steps_32 (steps_16 (steps_0 inp v (Z.lxor (r !!! 1%nat) (r !!! 2%nat))))) in
  [T32 (r !!! 0%nat + rA q); T32 (r !!! 1%nat + rB q); T32 (r !!! 2%nat + rC q); T32 (r !!! 3%nat + rD q);
   T32 (r !!! 4%nat + rE q); T32 (r !!! 5%nat + rF q); T32 (r !!! 6%nat + rG q); T32 (r !!! 7%nat + rH q)].

(** [sha2_round(data, r)]: big-endian words of the block. *)
Definition sha2_round (data r : list Z) : list Z :=
  SHA2_ROUND_BODY (fun x => be_load 4 (slice (4 * x) 4 data)) r.

(** On arrays of words: as they are, or with the bytes of each word (little-endian
    in memory) read as big-endian. *)
Definition sph_sha256_transform_le (data state_in : list Z) : list Z :=
  SHA2_ROUND_BODY (fun x => data !!! x) state_in.
Definition sph_sha256_transform_be (data state_in : list Z) : list Z :=
  SHA2_ROUND_BODY (fun x => be_load 4 (le_store 4 (data !!! x))) state_in.

(** The driver, with [BE32] and nothing else defined. *)
Definition sha224_cfg (unaligned : bool) : md_cfg := mk_cfg BE32 PLW_none false None false unaligned.

Definition sph_sha224_init (junk : list Z) : md_ctx := mk_md junk H224 0.
Definition sph_sha256_init (junk : list Z) : md_ctx := mk_md junk H256 0.

(** [sph_sha224]; [sph_sha256] is a macro for it. *)
Definition sph_sha224 (u : bool) (cc : md_ctx) (addr : Z) (data : list Z) : md_ctx :=
  md_update (sha224_cfg u) sha2_round cc addr data.
Definition sph_sha224_addbits_and_close (u : bool) (cc : md_ctx) (ub n : Z) : md_ctx * list Z :=
  addbits_and_close (sha224_cfg u) sha2_round cc ub n 7.
Definition sph_sha224_close (u : bool) (cc : md_ctx) : md_ctx * list Z :=
  md_close (sha224_cfg u) sha2_round cc 7.
Definition sph_sha256_addbits_and_close (u : bool) (cc : md_ctx) (ub n : Z) : md_ctx * list Z :=
  addbits_and_close (sha224_cfg u) sha2_round cc ub n 8.
Definition sph_sha256_close (u : bool) (cc : md_ctx) : md_ctx * list Z :=
  md_close (sha224_cfg u) sha2_round cc 8.

(** One shot, on a context in uninitialised stack memory. *)
Definition sph_sha256_full (u : bool) (junk : list Z) (addr : Z) (data : list Z) : list Z :=
  (sph_sha256_close u (sph_sha224 u (sph_sha256_init junk) addr data)).2.

(** The second call reads the 32 bytes the first one wrote at [hash]. *)
Definition sha256d (u : bool) (junk junk' : list Z) (hash_addr addr : Z) (data : list Z) : list Z :=
  sph_sha256_full u junk' hash_addr (take 32 (sph_sha256_full u junk addr data)).

(** ** The step functions against the reference ones *)

Lemma CH_ref e f g : word 32 g -> CH e f g = Z.lxor (Z.land e f) (Z.land (not32 e) g).
Proof.
  intros Hg. unfold CH, not32. apply Z.bits_inj'. intros i Hi.
  rewrite !Z.lxor_spec, !Z.land_spec, !Z.lxor_spec.
  change 0xFFFFFFFF with (Z.ones 32). destruct (Z_lt_dec i 32).
  - rewrite Z.ones_spec_low by lia. destruct (Z.testbit e i), (Z.testbit f i), (Z.testbit g i); done.
  - rewrite (word_high 32 g) by (done || lia). destruct (Z.testbit e i), (Z.testbit f i), (Z.testbit (Z.ones 32) i); done.
Qed.

Lemma MAJ_ref a b c :
  MAJ b (Z.lxor a b) (Z.lxor b c) = Z.lxor (Z.lxor (Z.land a b) (Z.land a c)) (Z.land b c).
Proof.
  unfold MAJ. apply Z.bits_inj'. intros i Hi. rewrite !Z.lxor_spec, !Z.land_spec, !Z.lxor_spec.
  destruct (Z.testbit a i), (Z.testbit b i), (Z.testbit c i); done.
Qed.

Lemma add32_T32 a b : add32 (T32 a) b = T32 (a + b).
Proof. unfold add32. rewrite !T32_mod. apply Zplus_mod_idemp_l. Qed.

(** The schedule as a recurrence, with the reference's small sigmas. *)
Definition ssig0 (x : Z) : Z := Z.lxor (Z.lxor (nm_ror x 7) (nm_ror x 18)) (Z.shiftr x 3).
Definition ssig1 (x : Z) : Z := Z.lxor (Z.lxor (nm_ror x 17) (nm_ror x 19)) (Z.shiftr x 10).


Lemma extend_w_lookup w i j :
  (i < length w)%nat -> j <> i -> extend_w w i !!! j = w !!! j.
Proof. intros. unfold extend_w. by rewrite list_lookup_total_insert_ne. Qed.

Definition sched0 (p : list Z) : list Z :=
  foldl (fun w i => <[i := load_word p i]> w) (replicate 64 0) (seq 0 16).

Lemma sched0_spec p : length (sched0 p) = 64%nat /\ forall i, (i < 16)%nat -> sched0 p !!! i = load_word p i.
Proof.
  destruct (loop_map (fun i _ => load_word p i) (replicate 64 0) 16) as [Hl Hj];
    [rewrite length_replicate; lia|].
  split; [exact Hl|]. intros i Hi. unfold sched0. rewrite Hj. by rewrite decide_True.
Qed.

Lemma sched_prefix p k :
  (k <= 48)%nat ->
  let w := foldl extend_w (sched0 p) (seq 16 k) in
  length w = 64%nat /\
  (forall i, (i < 16)%nat -> w !!! i = load_word p i) /\
  (forall i, (16 <= i < 16 + k)%nat ->
     w !!! i = add32 (add32 (add32 (w !!! (i - 16)%nat) (ssig0 (w !!! (i - 15)%nat))) (w !!! (i - 7)%nat))
                     (ssig1 (w !!! (i - 2)%nat))).
Proof.
  induction k as [|k IH]; intros Hk.
  { destruct (sched0_spec p). cbn. split_and!; [done|done|lia]. }
  destruct IH as (Hl & Hlo & Hhi); [lia|]. cbv zeta in *.
  rewrite seq_S, foldl_app. cbn [foldl]. set (w := foldl extend_w (sched0 p) (seq 16 k)) in *. clearbody w.
  split_and!.
  - unfold extend_w. by rewrite length_insert.
  - intros i Hi. rewrite extend_w_lookup by lia. by apply Hlo.
  - intros i Hi. rewrite (extend_w_lookup w (16 + k) (i - 16)) by lia.
    rewrite (extend_w_lookup w (16 + k) (i - 15)), (extend_w_lookup w (16 + k) (i - 7)),
      (extend_w_lookup w (16 + k) (i - 2)) by lia.
    destruct (decide (i = 16 + k)%nat) as [->|Hne].
    + unfold extend_w. by rewrite list_lookup_total_insert_eq by lia.
    + rewrite extend_w_lookup by lia. apply Hhi. lia.
Qed.

Lemma load_word_32 p i : word 32 (load_word p i).
Proof. apply word_T32. Qed.

Lemma schedule_unfold p : schedule p = foldl extend_w (sched0 p) (seq 16 48).
Proof. unfold schedule, sched0. exact eq_refl. Qed.
#[local] Opaque seq schedule sched0 extend_w.

Lemma schedule_low p i : (i < 16)%nat -> schedule p !!! i = load_word p i.
Proof. 
  intros Hi. rewrite schedule_unfold. destruct (sched_prefix p 48) as (_ & H & _); [lia|].
  exact (H i Hi).
Qed.

Lemma schedule_word p i : (i < 64)%nat -> word 32 (schedule p !!! i).
Proof.
  intros Hi. destruct (decide (i < 16)%nat); [rewrite schedule_low by done; apply load_word_32|].
  rewrite schedule_unfold. destruct (sched_prefix p 48) as (_ & _ & H); [lia|].
  cbv zeta in H. rewrite H by lia. apply word_T32.
Qed.

Lemma schedule_rec p i :
  (16 <= i < 64)%nat ->
  let w := schedule p in
  T32 (SSG2_1 (w !!! (i - 2)%nat) + w !!! (i - 7)%nat + SSG2_0 (w !!! (i - 15)%nat) + w !!! (i - 16)%nat)
  = w !!! i.
Proof.
  intros Hi w. pose proof (schedule_word p (i - 2) ltac:(lia)) as H2.
  pose proof (schedule_word p (i - 15) ltac:(lia)) as H15.
  destruct (sched_prefix p 48) as (_ & _ & H); [lia|]. cbv zeta in H.
  rewrite <-schedule_unfold in H. fold w in H, H2, H15. clearbody w.
  rewrite (H i) by lia. unfold add32 at 3. rewrite !add32_T32.
  unfold SSG2_0, SSG2_1, ssig0, ssig1, nm_ror.
  rewrite (T32_id (Z.shiftr _ 3)), (T32_id (Z.shiftr _ 10)) by (apply word_shiftr; [lia|done]).
  f_equal. lia.
Qed.

(** ** One step *)
Section Steps.
Context (p : list Z) (v0 : vars).
Let w := schedule p.

(** After [i] steps the scalars, in the order the next step names them, hold the
    reference variables, and [Y_xor_Z] the xor of the second and third. *)
Definition inv (i : nat) (a b c d e f g h yz : Z) : Prop :=
  foldl (sha_round w) v0 (seq 0 i) = (a, b, c, d, e, f, g, h) /\ yz = Z.lxor b c /\
  words32 [a; b; c; d; e; f; g; h].

Lemma step_inv i k a b c d e f g h yz W T1 X T2 d' h' :
  inv i a b c d e f g h yz -> W = w !!! i -> NM_K256 !!! i = k ->
  T1 = T32 (h + BSG2_1 e + CH e f g + k + W) -> X = Z.lxor a b ->
  T2 = T32 (BSG2_0 a + MAJ b X yz) -> d' = T32 (d + T1) -> h' = T32 (T1 + T2) ->
  inv (S i) h' a b c d' e f g X.
Proof.
  intros (Hf & Hyz & Hw) HW HK HT1 HX HT2 Hd Hh. subst yz X W.
  assert (Hg : word 32 g) by (apply (Forall_forall (word 32)) with (x := g) in Hw; [done|]; simpl; tauto).
  unfold inv. split_and!; [|done|].
  - rewrite seq_S, foldl_app, Hf. cbn [foldl sha_round Nat.add]. rewrite HK.
    rewrite <-CH_ref, <-MAJ_ref by done.
    fold (BSG2_1 e) (BSG2_0 a). change (nm_ror ?x ?k) with (rotr32 x k).
    fold (BSG2_1 e) (BSG2_0 a).
    assert (E1 : add32 (add32 (add32 (add32 h (BSG2_1 e)) (CH e f g)) k) (w !!! i) = T1).
    { subst T1. unfold add32 at 4. by rewrite !add32_T32. }
    rewrite E1. subst h' d' T2. repeat f_equal.
  - subst d' h'. repeat (apply Forall_cons_1 in Hw as [? Hw]).
    repeat first [apply List.Forall_nil | apply List.Forall_cons]; done || apply word_T32.
Qed.

Lemma let_intro {A} (P : A -> Prop) (e : Z) (b : Z -> A) :
  (forall x, x = e -> P (b x)) -> P (Let_In e b).
Proof. intros H. by apply H. Qed.

(** Names the next assigned scalar and keeps its defining equation. *)
Ltac let1 H :=
  lazymatch goal with
  | |- ?P (Let_In ?e ?b) =>
      apply (let_intro P e b);
      lazymatch b with (fun x => _) => let y := fresh x in intros y H; cbv beta end
  end.
(** The assignment of a schedule word at step [i]: [tac] proves it is [w[i]]. *)
Ltac let_w tac := let H := fresh "eW" in let1 H; tac H; subst.
(** The six assignments after it. *)
Ltac let_step i Hinv :=
  let HT1 := fresh "eHT1" in let HX := fresh "eHX" in let HT2 := fresh "eHT2" in let HY := fresh "eHY" in
  let HD := fresh "eHD" in let HH := fresh "eHH" in
  let1 HT1; let1 HX; let1 HT2; let1 HY; let1 HD; let1 HH;
  eapply (step_inv i) in Hinv;
    [|reflexivity| |exact HT1|exact HX|exact HT2|exact HD|exact HH]; [|vm_compute; reflexivity];
  rewrite <-HY in Hinv; clear HT1 HX HT2 HY HD HH.
Ltac low_step Hinp i Hinv :=
  let_w ltac:(fun H => rewrite (Hinp i) in H by lia); let_step i Hinv.
Ltac high_step i Hinv :=
  let_w ltac:(fun H => apply (fun E => eq_trans E (schedule_rec p i ltac:(lia))) in H; fold w in H); let_step i Hinv.

Ltac do_steps tac k :=
  let rec go i n :=
    lazymatch n with
    | O => idtac
    | S ?n' => let j := eval vm_compute in i in tac j; go (S j) n'
    end in
  go k 16%nat.

(** The registers after [i] steps, with the schedule words from [k] on. *)
Definition regs_ok (i k : nat) (r : regs) : Prop :=
  exists a b c d e f g h yz, inv i a b c d e f g h yz /\
    r = mk_regs a b c d e f g h yz
          (w !!! k) (w !!! (1 + k)%nat) (w !!! (2 + k)%nat) (w !!! (3 + k)%nat)
          (w !!! (4 + k)%nat) (w !!! (5 + k)%nat) (w !!! (6 + k)%nat) (w !!! (7 + k)%nat)
          (w !!! (8 + k)%nat) (w !!! (9 + k)%nat) (w !!! (10 + k)%nat) (w !!! (11 + k)%nat)
          (w !!! (12 + k)%nat) (w !!! (13 + k)%nat) (w !!! (14 + k)%nat) (w !!! (15 + k)%nat).

Lemma steps_0_ok inp a b c d e f g h :
  (forall i, (i < 16)%nat -> inp i = w !!! i) ->
  v0 = (a, b, c, d, e, f, g, h) -> words32 [a; b; c; d; e; f; g; h] ->
  regs_ok 16 0 (steps_0 inp v0 (Z.lxor b c)).
Proof.
  intros Hinp Hv Hw. assert (Hi : inv 0 a b c d e f g h (Z.lxor b c)) by done.
  remember (Z.lxor b c) as yz eqn:Hyz. clear Hyz. rewrite Hv. clear Hw.
  cbv beta iota delta [steps_0].
  do_steps ltac:(fun i => low_step Hinp i Hi) 0%nat.
  do 9 eexists. split; [exact Hi|reflexivity].
Qed.

Lemma steps_16_ok r : regs_ok 16 0 r -> regs_ok 32 16 (steps_16 r).
Proof.
  intros (a & b & c & d & e & f & g & h & yz & Hi & ->). cbv beta iota delta [steps_16].
  do_steps ltac:(fun i => high_step i Hi) 16%nat. do 9 eexists. split; [exact Hi|reflexivity].
Qed.

Lemma steps_32_ok r : regs_ok 32 16 r -> regs_ok 48 32 (steps_32 r).
Proof.
  intros (a & b & c & d & e & f & g & h & yz & Hi & ->). cbv beta iota delta [steps_32].
  do_steps ltac:(fun i => high_step i Hi) 32%nat. do 9 eexists. split; [exact Hi|reflexivity].
Qed.

Lemma steps_48_ok r : regs_ok 48 32 r -> regs_ok 64 48 (steps_48 r).
Proof.
  intros (a & b & c & d & e & f & g & h & yz & Hi & ->). cbv beta iota delta [steps_48].
  do_steps ltac:(fun i => high_step i Hi) 48%nat. do 9 eexists. split; [exact Hi|reflexivity].
Qed.
End Steps.

Lemma lookup_total_8 (l : list Z) :
  length l = 8%nat ->
  l = [l !!! 0%nat; l !!! 1%nat; l !!! 2%nat; l !!! 3%nat; l !!! 4%nat; l !!! 5%nat; l !!! 6%nat; l !!! 7%nat].
Proof. intros H. do 8 (destruct l as [|? l]; [done|]). by destruct l. Qed.

#[local] Opaque steps_0 steps_16 steps_32 steps_48 sha_round.

(** The unrolled body is the reference compression function on any block whose
    big-endian words are the inputs. *)
Lemma body_correct inp st p :
  length st = 8%nat -> words32 st -> (forall i, (i < 16)%nat -> inp i = load_word p i) ->
  SHA2_ROUND_BODY inp st = sha_compress st p.
Proof.
  intros Hl Hw Hinp. unfold SHA2_ROUND_BODY, sha_compress. cbv zeta.
  rewrite (lookup_total_8 st Hl) in Hw.
  generalize dependent (st !!! 0%nat). intros a.
  generalize dependent (st !!! 1%nat). intros b.
  generalize dependent (st !!! 2%nat). intros c.
  generalize dependent (st !!! 3%nat). intros d.
  generalize dependent (st !!! 4%nat). intros e.
  generalize dependent (st !!! 5%nat). intros f.
  generalize dependent (st !!! 6%nat). intros g.
  generalize dependent (st !!! 7%nat). intros h Hw.
  destruct (steps_48_ok p (a, b, c, d, e, f, g, h) _ (steps_32_ok p _ _ (steps_16_ok p _ _
    (steps_0_ok p (a, b, c, d, e, f, g, h) inp a b c d e f g h
       (fun i Hi => eq_trans (Hinp i Hi) (eq_sym (schedule_low p i Hi))) eq_refl Hw))))
    as (a' & b' & c' & d' & e' & f' & g' & h' & yz & (Hf & _) & Hr).
  rewrite Hr, Hf. reflexivity.
Qed.

Lemma load_word_be p i : bytes p -> load_word p i = be_load 4 (drop (4 * i) p).
Proof.
  intros Hp. unfold load_word. rewrite be_load_4, !lookup_total_drop.
  rewrite T32_id.
  - replace (4 * i + 0)%nat with (i * 4)%nat by lia. replace (4 * i + 1)%nat with (i * 4 + 1)%nat by lia.
    replace (4 * i + 2)%nat with (i * 4 + 2)%nat by lia. replace (4 * i + 3)%nat with (i * 4 + 3)%nat by lia.
    bitwise.
  - assert (Hs : forall j k, 0 <= k <= 24 -> word 32 (Z.shiftl (p !!! j) k)).
    { intros j k Hk. destruct (bytes_lookup p j Hp) as [H0 H1]. split; [by apply Z.shiftl_nonneg|].
      rewrite Z.shiftl_mul_pow2 by lia. pose proof (Z.pow_le_mono_r 2 k 24 ltac:(lia) ltac:(lia)).
      pose proof (Z.pow_pos_nonneg 2 k ltac:(lia) ltac:(lia)). nia. }
    repeat apply word_lor; try lia; try (apply Hs; lia).
    apply (word_mono 8); [lia|by apply bytes_lookup].
Qed.

Lemma sha2_round_correct p st :
  length st = 8%nat -> words32 st -> bytes p -> length p = 64%nat -> sha2_round p st = sha_compress st p.
Proof.
  intros Hl Hw Hp Hlp. apply body_correct; [done|done|]. intros i Hi.
  rewrite load_word_be by done. unfold slice, be_load. apply gather_ext. intros j Hj.
  by rewrite lookup_total_take_lt by lia.
Qed.

Lemma foldl_sha2_round iv m :
  length iv = 8%nat -> words32 iv -> bytes m ->
  foldl (fun v b => sha2_round b v) iv (blocks 64 m) = foldl sha_compress iv (blocks 64 m).
Proof.
  intros Hl Hw Hm.
  refine (proj1 (foldl_blocks_ext 64 _ _ (fun s => length s = 8%nat /\ words32 s) iv m _ (conj Hl Hw) Hm)).
  intros st x [Hls Hws] Hlx Hx. cbv beta. rewrite sha2_round_correct by assumption.
  split; [exact eq_refl|]. split; [apply length_sha_compress|apply words32_sha_compress].
Qed.

Lemma words32_dec l : forallb (fun x => (0 <=? x) && (x <? 2 ^ 32)) l = true -> words32 l.
Proof.
  intros H. apply Forall_forall. intros x Hx. rewrite forallb_forall in H. apply H in Hx.
  unfold word. lia.
Qed.

(** ** Digests *)

(** The padding of the driver, for a message of whole bytes followed by the
    [n < 8] high bits of [ub]. *)
Definition sha2_bits_pad (m : list Z) (ub n : Z) : list Z :=
  m ++ [Z.lor (Z.land ub (256 - 2 ^ (8 - n))) (2 ^ (7 - n))]
    ++ replicate ((119 - length m mod 64) mod 64) 0
    ++ be_store 8 (8 * Z.of_nat (length m) + n).

(** The initial value of SHA-224: the second 32 bits of the fractional parts of the square
    roots of the next eight primes. *)
Definition fips_H0_224 : list Z := (fun p => Z.sqrt (p * 2 ^ 128) mod 2 ^ 32) <$> slice 8 8 primes.
Lemma H224_ref : H224 = fips_H0_224.
Proof. vm_compute. reflexivity. Qed.
Definition sha2_digest (iv : list Z) (words : nat) (padded : list Z) : list Z :=
  flat_map (be_store 4) (take words (foldl fips_compress iv (blocks 64 padded))).

Lemma pad_byte_ref c ub n :
  PW01 c = false -> word 8 ub -> 0 <= n < 8 ->
  pad_byte c ub n = Z.lor (Z.land ub (256 - 2 ^ (8 - n))) (2 ^ (7 - n)).
Proof.
  intros Hc Hub Hn. unfold pad_byte. rewrite Hc. cbv zeta. apply Z.eqb_eq.
  assert (n = 0 \/ n = 1 \/ n = 2 \/ n = 3 \/ n = 4 \/ n = 5 \/ n = 6 \/ n = 7) as Hcases by lia.
  revert ub Hub. destruct Hcases as [->|[->|[->|[->|[->|[->|[->| ->]]]]]]];
    apply all_bytes_spec; vm_compute; reflexivity.
Qed.

Lemma length_value k n : 0 <= k < 2 ^ 61 -> 0 <= n < 8 -> add64 (shl64 k 3) n = 8 * k + n.
Proof.
  intros Hk Hn. unfold add64, shl64. rewrite Z.shiftl_mul_pow2 by lia.
  rewrite (T64_id (k * 2 ^ 3)) by (unfold word; lia). rewrite T64_id by (unfold word; lia). lia.
Qed.

Lemma md_pad_sha2 u m ub n :
  word 8 ub -> 0 <= n < 8 -> Z.of_nat (length m) < 2 ^ 61 ->
  md_pad (sha224_cfg u) m ub n = sha2_bits_pad m ub n.
Proof.
  intros Hub Hn Hm. unfold md_pad, sha2_bits_pad. rewrite pad_byte_ref by done.
  change (SPH_MAXPAD (sha224_cfg u)) with 56%nat. change (SPH_BLEN (sha224_cfg u)) with 64%nat.
  unfold length_field. cbn [enc plw sha224_cfg]. rewrite length_value by lia. done.
Qed.

Lemma bytes_sha2_bits_pad m ub n : bytes m -> word 8 ub -> 0 <= n < 8 -> bytes (sha2_bits_pad m ub n).
Proof.
  intros Hm Hub Hn. unfold sha2_bits_pad. repeat apply Forall_app_2; [done| | |apply bytes_be_store].
  - repeat constructor; [apply Z.lor_nonneg; split; [apply Z.land_nonneg; left; apply Hub|lia]|].
    apply word_lor; [lia|by apply word_land_l|]. split; [lia|]. apply Z.pow_lt_mono_r; lia.
  - apply Forall_replicate. by apply word_0.
Qed.

Lemma print_words v k :
  length v = 8%nat -> (k <= 8)%nat ->
  flat_map (fun u => be_store 4 (v !!! u)) (seq 0 k) = flat_map (be_store 4) (take k v).
Proof.
  intros Hv Hk. do 8 (destruct v as [|? v]; [done|]). destruct v; [|done].
  do 9 (destruct k as [|k]; [reflexivity|]). lia.
Qed.

Lemma length_digest_state iv m :
  length iv = 8%nat -> length (foldl sha_compress iv (blocks 64 m)) = 8%nat.
Proof. apply length_foldl_compress. Qed.

(** A context fed in any pieces and closed with [rnum] output words. *)
Lemma sha2_stream u junk iv pieces ub n rnum :
  length junk = 64%nat -> length iv = 8%nat -> words32 iv -> (rnum <= 8)%nat ->
  bytes (concat (pieces.*2)) -> Z.of_nat (length (concat (pieces.*2))) < 2 ^ 61 ->
  word 8 ub -> 0 <= n < 8 ->
  let sc := foldl (fun sc p => sph_sha224 u sc p.1 p.2) (mk_md junk iv 0) pieces in
  (addbits_and_close (sha224_cfg u) sha2_round sc ub n rnum).2
  = sha2_digest iv rnum (sha2_bits_pad (concat (pieces.*2)) ub n).
Proof.
  intros Hj Hl Hw Hr Hb Hlt Hub Hn sc.
  assert (Hv : val (addbits_and_close (sha224_cfg u) sha2_round sc ub n rnum).1
               = foldl sha_compress iv (blocks 64 (sha2_bits_pad (concat (pieces.*2)) ub n))).
  { rewrite <-foldl_sha2_round by (assumption || by apply bytes_sha2_bits_pad).
    rewrite <-(md_pad_sha2 u) by assumption.
    refine (stream_close (sha224_cfg u) sha2_round eq_refl junk iv pieces ub n rnum Hj _). lia. }
  assert (Ho : (addbits_and_close (sha224_cfg u) sha2_round sc ub n rnum).2
    = write_output (sha224_cfg u) (val (addbits_and_close (sha224_cfg u) sha2_round sc ub n rnum).1) rnum).
  { unfold addbits_and_close. by destruct (SPH_MAXPAD _ <? _)%nat. }
  rewrite Ho, Hv. unfold sha2_digest. rewrite <-foldl_compress_ref by assumption. rewrite <-print_words; [exact eq_refl|by apply length_digest_state|done].
Qed.

Lemma sha2_bits_pad_0 m : sha2_bits_pad m 0 0 = sha256_pad m.
Proof. unfold sha2_bits_pad, sha256_pad. by rewrite Z.add_0_r. Qed.

Lemma sha256_full_spec u junk addr data :
  length junk = 64%nat -> bytes data -> Z.of_nat (length data) < 2 ^ 61 ->
  sph_sha256_full u junk addr data = sha256_spec data.
Proof.
  intros Hj Hb Hlt. unfold sph_sha256_full, sph_sha256_close, md_close, sph_sha256_init.
  pose proof (sha2_stream u junk H256 [(addr, data)] 0 0 8 Hj eq_refl) as H.
  cbn [foldl fst snd fmap list_fmap concat] in H. rewrite app_nil_r in H.
  rewrite H; try done.
  - rewrite sha2_bits_pad_0, sha256_spec_code. unfold sha2_digest. rewrite <-foldl_compress_ref by (done || apply IV_words). f_equal.
    apply take_ge. by rewrite length_digest_state.
  - by apply words32_dec.
Qed.

Lemma nm_sha256_one junk data :
  length junk = 64%nat -> Z.of_nat (length data) < 2 ^ 61 -> nm_sha256 junk data = sha256_spec data.
Proof.
  intros Hj Hlt. pose proof (streaming_spec junk [data] Hj) as H.
  cbn [foldl concat] in H. rewrite app_nil_r in H. by apply H.
Qed.

Lemma be_load_le_store w x : word 32 x -> w = be_store 4 x -> be_load 4 w = x.
Proof.
  intros Hx ->. rewrite be_load_store. apply Z.mod_small. exact Hx.
Qed.

(** The words of an array, laid out with [enc], at their positions. *)
Lemma drop_flat_map (enc : Z -> list Z) data i :
  (forall x, length (enc x) = 4%nat) -> (i < length data)%nat ->
  drop (4 * i) (flat_map enc data) = enc (data !!! i) ++ drop (4 * S i) (flat_map enc data).
Proof.
  intros He. revert i. induction data as [|x data IH]; intros i Hi; [cbn in Hi; lia|].
  cbn [flat_map]. destruct i as [|i].
  - rewrite drop_0, (drop_app_length' (enc x)) by (rewrite He; exact eq_refl). exact eq_refl.
  - rewrite !drop_app_ge by (rewrite He; lia). rewrite He.
    replace (4 * S i - 4)%nat with (4 * i)%nat by lia.
    replace (4 * S (S i) - 4)%nat with (4 * S i)%nat by lia.
    cbn [length] in Hi. rewrite IH by lia. done.
Qed.

Lemma load_word_flat_map (enc : Z -> list Z) data i :
  (forall x, length (enc x) = 4%nat) -> (forall x, bytes (enc x)) -> (i < length data)%nat ->
  load_word (flat_map enc data) i = be_load 4 (enc (data !!! i)).
Proof.
  intros Hl Hb Hi. rewrite load_word_be.
  - rewrite drop_flat_map by done. unfold be_load. apply gather_ext. intros j Hj.
    apply lookup_total_app_l. rewrite Hl. lia.
  - apply Forall_forall. intros x (y & _ & Hx)%in_flat_map.
    pose proof (Hb y) as H. unfold bytes in H. rewrite Forall_forall in H. auto.
Qed.

(** ** Properties *)

(** C21. The unrolled compression function: on 8 state words and a 64-byte block,
    [sha2_round] computes the SHA-256 compression of FIPS 180-4 (64 rounds over the
    extended schedule, with constants from the cube roots of the primes); [sph_sha256_transform_le]
    does the same for a block given as sixteen host words, and
    [sph_sha256_transform_be] for the block those words occupy in little-endian
    memory. *)
Theorem sha2_unrolled_correct st block data :
  length st = 8%nat -> words32 st -> length block = 64%nat -> bytes block ->
  length data = 16%nat -> words32 data ->
  sha2_round block st = fips_compress st block /\
  sph_sha256_transform_le data st = fips_compress st (flat_map (be_store 4) data) /\
  sph_sha256_transform_be data st = fips_compress st (flat_map (le_store 4) data).
Proof.
  intros Hl Hw Hlb Hb Hld Hd. rewrite <-!sha_compress_ref by assumption. split; [by apply sha2_round_correct|].
  split; apply body_correct; try assumption; intros i Hi.
  - rewrite load_word_flat_map; [|apply length_be_store|apply bytes_be_store|lia].
    rewrite (be_load_le_store _ (data !!! i)); [done| |done]. by apply words32_lookup.
  - rewrite load_word_flat_map; [done|apply length_le_store|apply bytes_le_store|lia].
Qed.

Lemma sha2_unrolled_correct_witness :
  sha2_round (replicate 64 0x5A) H224 = fips_compress H224 (replicate 64 0x5A) /\
  sph_sha256_transform_le (replicate 16 0xDEADBEEF) H224
    = fips_compress H224 (flat_map (be_store 4) (replicate 16 0xDEADBEEF)) /\
  sph_sha256_transform_be (replicate 16 0xDEADBEEF) H224
    = fips_compress H224 (flat_map (le_store 4) (replicate 16 0xDEADBEEF)).
Proof.
  apply (sha2_unrolled_correct H224 (replicate 64 0x5A) (replicate 16 0xDEADBEEF));
    first [exact eq_refl | apply words32_dec; exact eq_refl | apply byte_list_dec; exact eq_refl].
Defined.

(** C29. Streaming SHA-224 and SHA-256: any sequence of updates, at any data
    addresses and with or without hardware support for unaligned reads, followed
    by [n < 8] extra bits, produces the FIPS 180-4 digest of the concatenation
    (one padding bit, zeros, 64-bit bit count) from the initial value of the
    variant, 7 or 8 words long. *)
Theorem sph_sha2_streaming u junk pieces ub n :
  length junk = 64%nat -> bytes (concat (pieces.*2)) ->
  Z.of_nat (length (concat (pieces.*2))) < 2 ^ 61 -> word 8 ub -> 0 <= n < 8 ->
  let feed sc := foldl (fun sc p => sph_sha224 u sc p.1 p.2) sc pieces in
  (sph_sha224_addbits_and_close u (feed (sph_sha224_init junk)) ub n).2
    = sha2_digest fips_H0_224 7 (sha2_bits_pad (concat (pieces.*2)) ub n) /\
  (sph_sha256_addbits_and_close u (feed (sph_sha256_init junk)) ub n).2
    = sha2_digest fips_H0 8 (sha2_bits_pad (concat (pieces.*2)) ub n).
Proof.
  intros Hj Hb Hlt Hub Hn feed. rewrite <-H224_ref, <-IV_ref.
  split; apply sha2_stream; first [assumption | exact eq_refl | apply words32_dec; exact eq_refl | lia].
Qed.

Lemma sph_sha2_streaming_witness :
  let feed sc := foldl (fun sc p => sph_sha224 false sc p.1 p.2) sc [(5, replicate 100 0x61); (1001, replicate 200 0x62)] in
  (sph_sha224_addbits_and_close false (feed (sph_sha224_init (replicate 64 7))) 0xB0 5).2
    = sha2_digest fips_H0_224 7 (sha2_bits_pad (replicate 100 0x61 ++ replicate 200 0x62) 0xB0 5) /\
  (sph_sha256_addbits_and_close false (feed (sph_sha256_init (replicate 64 7))) 0xB0 5).2
    = sha2_digest fips_H0 8 (sha2_bits_pad (replicate 100 0x61 ++ replicate 200 0x62) 0xB0 5).
Proof.
  apply (sph_sha2_streaming false (replicate 64 7) [(5, replicate 100 0x61); (1001, replicate 200 0x62)] 0xB0 5);
    first [exact eq_refl | apply byte_list_dec; exact eq_refl | vm_compute; intuition congruence].
Defined.

(** C30. The two SHA-256 implementations of the repository agree: the unrolled
    one of GhostRider and the rolled one of NeuroMorph give the same digest of
    every message, and [sha256d] is that digest applied twice. *)
Theorem sph_sha256_agrees_nm u junk junk1 junk2 addr hash_addr data :
  length junk = 64%nat -> length junk1 = 64%nat -> length junk2 = 64%nat ->
  bytes data -> Z.of_nat (length data) < 2 ^ 61 ->
  sph_sha256_full u junk addr data = nm_sha256 junk2 data /\
  sha256d u junk junk1 hash_addr addr data = nm_sha256 junk2 (nm_sha256 junk2 data).
Proof.
  intros Hj Hj1 Hj2 Hb Hlt. unfold sha256d.
  rewrite (sha256_full_spec u junk), (nm_sha256_one junk2 data) by assumption.
  split; [exact eq_refl|].
  assert (Hl : Z.of_nat (length (sha256_spec data)) < 2 ^ 61) by by rewrite length_sha256_spec.
  rewrite take_ge by (rewrite length_sha256_spec; lia).
  rewrite sha256_full_spec, nm_sha256_one by first [assumption | apply bytes_sha256_spec].
  exact eq_refl.
Qed.

Lemma sph_sha256_agrees_nm_witness :
  sph_sha256_full true (replicate 64 1) 16 (replicate 300 0x33) = nm_sha256 (replicate 64 3) (replicate 300 0x33) /\
  sha256d true (replicate 64 1) (replicate 64 2) 0 16 (replicate 300 0x33)
    = nm_sha256 (replicate 64 3) (nm_sha256 (replicate 64 3) (replicate 300 0x33)).
Proof.
  apply (sph_sha256_agrees_nm true (replicate 64 1) (replicate 64 2) (replicate 64 3) 16 0 (replicate 300 0x33));
    first [exact eq_refl | apply byte_list_dec; exact eq_refl].
Defined.
