(* ===== verification/WhirlpoolPlain.v ===== *)
(** * The lookup tables of the current version of Whirlpool
    ([crypto/ghostrider/sph_whirlpool.c]): the eight tables of 256 words that
    merge the S-box with the diffusion matrix, and the ten round constants.
    [Whirlpool] proves what they contain. *)
From S2P Require Import Prelude.

Definition plain_T0 : list Z := [
  0xD83078C018601818; 0x2646AF05238C2323; 0xB891F97EC63FC6C6; 0xFBCD6F13E887E8E8;
  0xCB13A14C87268787; 0x116D62A9B8DAB8B8; 0x0902050801040101; 0x0D9E6E424F214F4F;
  0x9B6CEEAD36D83636; 0xFF510459A6A2A6A6; 0x0CB9BDDED26FD2D2; 0x0EF706FBF5F3F5F5;
  0x96F280EF79F97979; 0x30DECE5F6FA16F6F; 0x6D3FEFFC917E9191; 0xF8A407AA52555252;
  0x47C0FD27609D6060; 0x35657689BCCABCBC; 0x372BCDAC9B569B9B; 0x8A018C048E028E8E;
  0xD25B1571A3B6A3A3; 0x6C183C600C300C0C; 0x84F68AFF7BF17B7B; 0x806AE1B535D43535;
  0xF53A69E81D741D1D; 0xB3DD4753E0A7E0E0; 0x21B3ACF6D77BD7D7; 0x9C99ED5EC22FC2C2;
  0x435C966D2EB82E2E; 0x29967A624B314B4B; 0x5DE121A3FEDFFEFE; 0xD5AE168257415757;
  0xBD2A41A815541515; 0xE8EEB69F77C17777; 0x926EEBA537DC3737; 0x9ED7567BE5B3E5E5;
  0x1323D98C9F469F9F; 0x23FD17D3F0E7F0F0; 0x20947F6A4A354A4A; 0x44A9959EDA4FDADA;
  0xA2B025FA587D5858; 0xCF8FCA06C903C9C9; 0x7C528D5529A42929; 0x5A1422500A280A0A;
  0x507F4FE1B1FEB1B1; 0xC95D1A69A0BAA0A0; 0x14D6DA7F6BB16B6B; 0xD917AB5C852E8585;
  0x3C677381BDCEBDBD; 0x8FBA34D25D695D5D; 0x9020508010401010; 0x07F503F3F4F7F4F4;
  0xDD8BC016CB0BCBCB; 0xD37CC6ED3EF83E3E; 0x2D0A112805140505; 0x78CEE61F67816767;
  0x97D55373E4B7E4E4; 0x024EBB25279C2727; 0x7382583241194141; 0xA70B9D2C8B168B8B;
  0xF6530151A7A6A7A7; 0xB2FA94CF7DE97D7D; 0x4937FBDC956E9595; 0x56AD9F8ED847D8D8;
  0x70EB308BFBCBFBFB; 0xCDC17123EE9FEEEE; 0xBBF891C77CED7C7C; 0x71CCE31766856666;
  0x7BA78EA6DD53DDDD; 0xAF2E4BB8175C1717; 0x458E460247014747; 0x1A21DC849E429E9E;
  0xD489C51ECA0FCACA; 0x585A99752DB42D2D; 0x2E637991BFC6BFBF; 0x3F0E1B38071C0707;
  0xAC472301AD8EADAD; 0xB0B42FEA5A755A5A; 0xEF1BB56C83368383; 0xB666FF8533CC3333;
  0x5CC6F23F63916363; 0x12040A1002080202; 0x93493839AA92AAAA; 0xDEE2A8AF71D97171;
  0xC68DCF0EC807C8C8; 0xD1327DC819641919; 0x3B92707249394949; 0x5FAF9A86D943D9D9;
  0x31F91DC3F2EFF2F2; 0xA8DB484BE3ABE3E3; 0xB9B62AE25B715B5B; 0xBC0D9234881A8888;
  0x3E29C8A49A529A9A; 0x0B4CBE2D26982626; 0xBF64FA8D32C83232; 0x597D4AE9B0FAB0B0;
  0xF2CF6A1BE983E9E9; 0x771E33780F3C0F0F; 0x33B7A6E6D573D5D5; 0xF41DBA74803A8080;
  0x27617C99BEC2BEBE; 0xEB87DE26CD13CDCD; 0x8968E4BD34D03434; 0x3290757A483D4848;
  0x54E324ABFFDBFFFF; 0x8DF48FF77AF57A7A; 0x643DEAF4907A9090; 0x9DBE3EC25F615F5F;
  0x3D40A01D20802020; 0x0FD0D56768BD6868; 0xCA3472D01A681A1A; 0xB7412C19AE82AEAE;
  0x7D755EC9B4EAB4B4; 0xCEA8199A544D5454; 0x7F3BE5EC93769393; 0x2F44AA0D22882222;
  0x63C8E907648D6464; 0x2AFF12DBF1E3F1F1; 0xCCE6A2BF73D17373; 0x82245A9012481212;
  0x7A805D3A401D4040; 0x4810284008200808; 0x959BE856C32BC3C3; 0xDFC57B33EC97ECEC;
  0x4DAB9096DB4BDBDB; 0xC05F1F61A1BEA1A1; 0x9107831C8D0E8D8D; 0xC87AC9F53DF43D3D;
  0x5B33F1CC97669797; 0x0000000000000000; 0xF983D436CF1BCFCF; 0x6E5687452BAC2B2B;
  0xE1ECB39776C57676; 0xE619B06482328282; 0x28B1A9FED67FD6D6; 0xC33677D81B6C1B1B;
  0x74775BC1B5EEB5B5; 0xBE432911AF86AFAF; 0x1DD4DF776AB56A6A; 0xEAA00DBA505D5050;
  0x578A4C1245094545; 0x38FB18CBF3EBF3F3; 0xAD60F09D30C03030; 0xC4C3742BEF9BEFEF;
  0xDA7EC3E53FFC3F3F; 0xC7AA1C9255495555; 0xDB591079A2B2A2A2; 0xE9C96503EA8FEAEA;
  0x6ACAEC0F65896565; 0x036968B9BAD2BABA; 0x4A5E93652FBC2F2F; 0x8E9DE74EC027C0C0;
  0x60A181BEDE5FDEDE; 0xFC386CE01C701C1C; 0x46E72EBBFDD3FDFD; 0x1F9A64524D294D4D;
  0x7639E0E492729292; 0xFAEABC8F75C97575; 0x360C1E3006180606; 0xAE0998248A128A8A;
  0x4B7940F9B2F2B2B2; 0x85D15963E6BFE6E6; 0x7E1C36700E380E0E; 0xE73E63F81F7C1F1F;
  0x55C4F73762956262; 0x3AB5A3EED477D4D4; 0x814D3229A89AA8A8; 0x5231F4C496629696;
  0x62EF3A9BF9C3F9F9; 0xA397F666C533C5C5; 0x104AB13525942525; 0xABB220F259795959;
  0xD015AE54842A8484; 0xC5E4A7B772D57272; 0xEC72DDD539E43939; 0x1698615A4C2D4C4C;
  0x94BC3BCA5E655E5E; 0x9FF085E778FD7878; 0xE570D8DD38E03838; 0x980586148C0A8C8C;
  0x17BFB2C6D163D1D1; 0xE4570B41A5AEA5A5; 0xA1D94D43E2AFE2E2; 0x4EC2F82F61996161;
  0x427B45F1B3F6B3B3; 0x3442A51521842121; 0x0825D6949C4A9C9C; 0xEE3C66F01E781E1E;
  0x6186522243114343; 0xB193FC76C73BC7C7; 0x4FE52BB3FCD7FCFC; 0x2408142004100404;
  0xE3A208B251595151; 0x252FC7BC995E9999; 0x22DAC44F6DA96D6D; 0x651A39680D340D0D;
  0x79E93583FACFFAFA; 0x69A384B6DF5BDFDF; 0xA9FC9BD77EE57E7E; 0x1948B43D24902424;
  0xFE76D7C53BEC3B3B; 0x9A4B3D31AB96ABAB; 0xF081D13ECE1FCECE; 0x9922558811441111;
  0x8303890C8F068F8F; 0x049C6B4A4E254E4E; 0x667351D1B7E6B7B7; 0xE0CB600BEB8BEBEB;
  0xC178CCFD3CF03C3C; 0xFD1FBF7C813E8181; 0x4035FED4946A9494; 0x1CF30CEBF7FBF7F7;
  0x186F67A1B9DEB9B9; 0x8B265F98134C1313; 0x51589C7D2CB02C2C; 0x05BBB8D6D36BD3D3;
  0x8CD35C6BE7BBE7E7; 0x39DCCB576EA56E6E; 0xAA95F36EC437C4C4; 0x1B060F18030C0303;
  0xDCAC138A56455656; 0x5E88491A440D4444; 0xA0FE9EDF7FE17F7F; 0x884F3721A99EA9A9;
  0x6754824D2AA82A2A; 0x0A6B6DB1BBD6BBBB; 0x879FE246C123C1C1; 0xF1A602A253515353;
  0x72A58BAEDC57DCDC; 0x531627580B2C0B0B; 0x0127D39C9D4E9D9D; 0x2BD8C1476CAD6C6C;
  0xA462F59531C43131; 0xF3E8B98774CD7474; 0x15F109E3F6FFF6F6; 0x4C8C430A46054646;
  0xA5452609AC8AACAC; 0xB50F973C891E8989; 0xB42844A014501414; 0xBADF425BE1A3E1E1;
  0xA62C4EB016581616; 0xF774D2CD3AE83A3A; 0x06D2D06F69B96969; 0x41122D4809240909;
  0xD7E0ADA770DD7070; 0x6F7154D9B6E2B6B6; 0x1EBDB7CED067D0D0; 0xD6C77E3BED93EDED;
  0xE285DB2ECC17CCCC; 0x6884572A42154242; 0x2C2DC2B4985A9898; 0xED550E49A4AAA4A4;
  0x7550885D28A02828; 0x86B831DA5C6D5C5C; 0x6BED3F93F8C7F8F8; 0xC211A44486228686].

Definition plain_T1 : list Z := [
  0x3078C018601818D8; 0x46AF05238C232326; 0x91F97EC63FC6C6B8; 0xCD6F13E887E8E8FB;
  0x13A14C87268787CB; 0x6D62A9B8DAB8B811; 0x0205080104010109; 0x9E6E424F214F4F0D;
  0x6CEEAD36D836369B; 0x510459A6A2A6A6FF; 0xB9BDDED26FD2D20C; 0xF706FBF5F3F5F50E;
  0xF280EF79F9797996; 0xDECE5F6FA16F6F30; 0x3FEFFC917E91916D; 0xA407AA52555252F8;
  0xC0FD27609D606047; 0x657689BCCABCBC35; 0x2BCDAC9B569B9B37; 0x018C048E028E8E8A;
  0x5B1571A3B6A3A3D2; 0x183C600C300C0C6C; 0xF68AFF7BF17B7B84; 0x6AE1B535D4353580;
  0x3A69E81D741D1DF5; 0xDD4753E0A7E0E0B3; 0xB3ACF6D77BD7D721; 0x99ED5EC22FC2C29C;
  0x5C966D2EB82E2E43; 0x967A624B314B4B29; 0xE121A3FEDFFEFE5D; 0xAE168257415757D5;
  0x2A41A815541515BD; 0xEEB69F77C17777E8; 0x6EEBA537DC373792; 0xD7567BE5B3E5E59E;
  0x23D98C9F469F9F13; 0xFD17D3F0E7F0F023; 0x947F6A4A354A4A20; 0xA9959EDA4FDADA44;
  0xB025FA587D5858A2; 0x8FCA06C903C9C9CF; 0x528D5529A429297C; 0x1422500A280A0A5A;
  0x7F4FE1B1FEB1B150; 0x5D1A69A0BAA0A0C9; 0xD6DA7F6BB16B6B14; 0x17AB5C852E8585D9;
  0x677381BDCEBDBD3C; 0xBA34D25D695D5D8F; 0x2050801040101090; 0xF503F3F4F7F4F407;
  0x8BC016CB0BCBCBDD; 0x7CC6ED3EF83E3ED3; 0x0A1128051405052D; 0xCEE61F6781676778;
  0xD55373E4B7E4E497; 0x4EBB25279C272702; 0x8258324119414173; 0x0B9D2C8B168B8BA7;
  0x530151A7A6A7A7F6; 0xFA94CF7DE97D7DB2; 0x37FBDC956E959549; 0xAD9F8ED847D8D856;
  0xEB308BFBCBFBFB70; 0xC17123EE9FEEEECD; 0xF891C77CED7C7CBB; 0xCCE3176685666671;
  0xA78EA6DD53DDDD7B; 0x2E4BB8175C1717AF; 0x8E46024701474745; 0x21DC849E429E9E1A;
  0x89C51ECA0FCACAD4; 0x5A99752DB42D2D58; 0x637991BFC6BFBF2E; 0x0E1B38071C07073F;
  0x472301AD8EADADAC; 0xB42FEA5A755A5AB0; 0x1BB56C83368383EF; 0x66FF8533CC3333B6;
  0xC6F23F639163635C; 0x040A100208020212; 0x493839AA92AAAA93; 0xE2A8AF71D97171DE;
  0x8DCF0EC807C8C8C6; 0x327DC819641919D1; 0x927072493949493B; 0xAF9A86D943D9D95F;
  0xF91DC3F2EFF2F231; 0xDB484BE3ABE3E3A8; 0xB62AE25B715B5BB9; 0x0D9234881A8888BC;
  0x29C8A49A529A9A3E; 0x4CBE2D269826260B; 0x64FA8D32C83232BF; 0x7D4AE9B0FAB0B059;
  0xCF6A1BE983E9E9F2; 0x1E33780F3C0F0F77; 0xB7A6E6D573D5D533; 0x1DBA74803A8080F4;
  0x617C99BEC2BEBE27; 0x87DE26CD13CDCDEB; 0x68E4BD34D0343489; 0x90757A483D484832;
  0xE324ABFFDBFFFF54; 0xF48FF77AF57A7A8D; 0x3DEAF4907A909064; 0xBE3EC25F615F5F9D;
  0x40A01D208020203D; 0xD0D56768BD68680F; 0x3472D01A681A1ACA; 0x412C19AE82AEAEB7;
  0x755EC9B4EAB4B47D; 0xA8199A544D5454CE; 0x3BE5EC937693937F; 0x44AA0D228822222F;
  0xC8E907648D646463; 0xFF12DBF1E3F1F12A; 0xE6A2BF73D17373CC; 0x245A901248121282;
  0x805D3A401D40407A; 0x1028400820080848; 0x9BE856C32BC3C395; 0xC57B33EC97ECECDF;
  0xAB9096DB4BDBDB4D; 0x5F1F61A1BEA1A1C0; 0x07831C8D0E8D8D91; 0x7AC9F53DF43D3DC8;
  0x33F1CC976697975B; 0x0000000000000000; 0x83D436CF1BCFCFF9; 0x5687452BAC2B2B6E;
  0xECB39776C57676E1; 0x19B06482328282E6; 0xB1A9FED67FD6D628; 0x3677D81B6C1B1BC3;
  0x775BC1B5EEB5B574; 0x432911AF86AFAFBE; 0xD4DF776AB56A6A1D; 0xA00DBA505D5050EA;
  0x8A4C124509454557; 0xFB18CBF3EBF3F338; 0x60F09D30C03030AD; 0xC3742BEF9BEFEFC4;
  0x7EC3E53FFC3F3FDA; 0xAA1C9255495555C7; 0x591079A2B2A2A2DB; 0xC96503EA8FEAEAE9;
  0xCAEC0F658965656A; 0x6968B9BAD2BABA03; 0x5E93652FBC2F2F4A; 0x9DE74EC027C0C08E;
  0xA181BEDE5FDEDE60; 0x386CE01C701C1CFC; 0xE72EBBFDD3FDFD46; 0x9A64524D294D4D1F;
  0x39E0E49272929276; 0xEABC8F75C97575FA; 0x0C1E300618060636; 0x0998248A128A8AAE;
  0x7940F9B2F2B2B24B; 0xD15963E6BFE6E685; 0x1C36700E380E0E7E; 0x3E63F81F7C1F1FE7;
  0xC4F7376295626255; 0xB5A3EED477D4D43A; 0x4D3229A89AA8A881; 0x31F4C49662969652;
  0xEF3A9BF9C3F9F962; 0x97F666C533C5C5A3; 0x4AB1352594252510; 0xB220F259795959AB;
  0x15AE54842A8484D0; 0xE4A7B772D57272C5; 0x72DDD539E43939EC; 0x98615A4C2D4C4C16;
  0xBC3BCA5E655E5E94; 0xF085E778FD78789F; 0x70D8DD38E03838E5; 0x0586148C0A8C8C98;
  0xBFB2C6D163D1D117; 0x570B41A5AEA5A5E4; 0xD94D43E2AFE2E2A1; 0xC2F82F619961614E;
  0x7B45F1B3F6B3B342; 0x42A5152184212134; 0x25D6949C4A9C9C08; 0x3C66F01E781E1EEE;
  0x8652224311434361; 0x93FC76C73BC7C7B1; 0xE52BB3FCD7FCFC4F; 0x0814200410040424;
  0xA208B251595151E3; 0x2FC7BC995E999925; 0xDAC44F6DA96D6D22; 0x1A39680D340D0D65;
  0xE93583FACFFAFA79; 0xA384B6DF5BDFDF69; 0xFC9BD77EE57E7EA9; 0x48B43D2490242419;
  0x76D7C53BEC3B3BFE; 0x4B3D31AB96ABAB9A; 0x81D13ECE1FCECEF0; 0x2255881144111199;
  0x03890C8F068F8F83; 0x9C6B4A4E254E4E04; 0x7351D1B7E6B7B766; 0xCB600BEB8BEBEBE0;
  0x78CCFD3CF03C3CC1; 0x1FBF7C813E8181FD; 0x35FED4946A949440; 0xF30CEBF7FBF7F71C;
  0x6F67A1B9DEB9B918; 0x265F98134C13138B; 0x589C7D2CB02C2C51; 0xBBB8D6D36BD3D305;
  0xD35C6BE7BBE7E78C; 0xDCCB576EA56E6E39; 0x95F36EC437C4C4AA; 0x060F18030C03031B;
  0xAC138A56455656DC; 0x88491A440D44445E; 0xFE9EDF7FE17F7FA0; 0x4F3721A99EA9A988;
  0x54824D2AA82A2A67; 0x6B6DB1BBD6BBBB0A; 0x9FE246C123C1C187; 0xA602A253515353F1;
  0xA58BAEDC57DCDC72; 0x1627580B2C0B0B53; 0x27D39C9D4E9D9D01; 0xD8C1476CAD6C6C2B;
  0x62F59531C43131A4; 0xE8B98774CD7474F3; 0xF109E3F6FFF6F615; 0x8C430A460546464C;
  0x452609AC8AACACA5; 0x0F973C891E8989B5; 0x2844A014501414B4; 0xDF425BE1A3E1E1BA;
  0x2C4EB016581616A6; 0x74D2CD3AE83A3AF7; 0xD2D06F69B9696906; 0x122D480924090941;
  0xE0ADA770DD7070D7; 0x7154D9B6E2B6B66F; 0xBDB7CED067D0D01E; 0xC77E3BED93EDEDD6;
  0x85DB2ECC17CCCCE2; 0x84572A4215424268; 0x2DC2B4985A98982C; 0x550E49A4AAA4A4ED;
  0x50885D28A0282875; 0xB831DA5C6D5C5C86; 0xED3F93F8C7F8F86B; 0x11A44486228686C2].

Definition plain_T2 : list Z := [
  0x78C018601818D830; 0xAF05238C23232646; 0xF97EC63FC6C6B891; 0x6F13E887E8E8FBCD;
  0xA14C87268787CB13; 0x62A9B8DAB8B8116D; 0x0508010401010902; 0x6E424F214F4F0D9E;
  0xEEAD36D836369B6C; 0x0459A6A2A6A6FF51; 0xBDDED26FD2D20CB9; 0x06FBF5F3F5F50EF7;
  0x80EF79F9797996F2; 0xCE5F6FA16F6F30DE; 0xEFFC917E91916D3F; 0x07AA52555252F8A4;
  0xFD27609D606047C0; 0x7689BCCABCBC3565; 0xCDAC9B569B9B372B; 0x8C048E028E8E8A01;
  0x1571A3B6A3A3D25B; 0x3C600C300C0C6C18; 0x8AFF7BF17B7B84F6; 0xE1B535D43535806A;
  0x69E81D741D1DF53A; 0x4753E0A7E0E0B3DD; 0xACF6D77BD7D721B3; 0xED5EC22FC2C29C99;
  0x966D2EB82E2E435C; 0x7A624B314B4B2996; 0x21A3FEDFFEFE5DE1; 0x168257415757D5AE;
  0x41A815541515BD2A; 0xB69F77C17777E8EE; 0xEBA537DC3737926E; 0x567BE5B3E5E59ED7;
  0xD98C9F469F9F1323; 0x17D3F0E7F0F023FD; 0x7F6A4A354A4A2094; 0x959EDA4FDADA44A9;
  0x25FA587D5858A2B0; 0xCA06C903C9C9CF8F; 0x8D5529A429297C52; 0x22500A280A0A5A14;
  0x4FE1B1FEB1B1507F; 0x1A69A0BAA0A0C95D; 0xDA7F6BB16B6B14D6; 0xAB5C852E8585D917;
  0x7381BDCEBDBD3C67; 0x34D25D695D5D8FBA; 0x5080104010109020; 0x03F3F4F7F4F407F5;
  0xC016CB0BCBCBDD8B; 0xC6ED3EF83E3ED37C; 0x1128051405052D0A; 0xE61F6781676778CE;
  0x5373E4B7E4E497D5; 0xBB25279C2727024E; 0x5832411941417382; 0x9D2C8B168B8BA70B;
  0x0151A7A6A7A7F653; 0x94CF7DE97D7DB2FA; 0xFBDC956E95954937; 0x9F8ED847D8D856AD;
  0x308BFBCBFBFB70EB; 0x7123EE9FEEEECDC1; 0x91C77CED7C7CBBF8; 0xE3176685666671CC;
  0x8EA6DD53DDDD7BA7; 0x4BB8175C1717AF2E; 0x460247014747458E; 0xDC849E429E9E1A21;
  0xC51ECA0FCACAD489; 0x99752DB42D2D585A; 0x7991BFC6BFBF2E63; 0x1B38071C07073F0E;
  0x2301AD8EADADAC47; 0x2FEA5A755A5AB0B4; 0xB56C83368383EF1B; 0xFF8533CC3333B666;
  0xF23F639163635CC6; 0x0A10020802021204; 0x3839AA92AAAA9349; 0xA8AF71D97171DEE2;
  0xCF0EC807C8C8C68D; 0x7DC819641919D132; 0x7072493949493B92; 0x9A86D943D9D95FAF;
  0x1DC3F2EFF2F231F9; 0x484BE3ABE3E3A8DB; 0x2AE25B715B5BB9B6; 0x9234881A8888BC0D;
  0xC8A49A529A9A3E29; 0xBE2D269826260B4C; 0xFA8D32C83232BF64; 0x4AE9B0FAB0B0597D;
  0x6A1BE983E9E9F2CF; 0x33780F3C0F0F771E; 0xA6E6D573D5D533B7; 0xBA74803A8080F41D;
  0x7C99BEC2BEBE2761; 0xDE26CD13CDCDEB87; 0xE4BD34D034348968; 0x757A483D48483290;
  0x24ABFFDBFFFF54E3; 0x8FF77AF57A7A8DF4; 0xEAF4907A9090643D; 0x3EC25F615F5F9DBE;
  0xA01D208020203D40; 0xD56768BD68680FD0; 0x72D01A681A1ACA34; 0x2C19AE82AEAEB741;
  0x5EC9B4EAB4B47D75; 0x199A544D5454CEA8; 0xE5EC937693937F3B; 0xAA0D228822222F44;
  0xE907648D646463C8; 0x12DBF1E3F1F12AFF; 0xA2BF73D17373CCE6; 0x5A90124812128224;
  0x5D3A401D40407A80; 0x2840082008084810; 0xE856C32BC3C3959B; 0x7B33EC97ECECDFC5;
  0x9096DB4BDBDB4DAB; 0x1F61A1BEA1A1C05F; 0x831C8D0E8D8D9107; 0xC9F53DF43D3DC87A;
  0xF1CC976697975B33; 0x0000000000000000; 0xD436CF1BCFCFF983; 0x87452BAC2B2B6E56;
  0xB39776C57676E1EC; 0xB06482328282E619; 0xA9FED67FD6D628B1; 0x77D81B6C1B1BC336;
  0x5BC1B5EEB5B57477; 0x2911AF86AFAFBE43; 0xDF776AB56A6A1DD4; 0x0DBA505D5050EAA0;
  0x4C1245094545578A; 0x18CBF3EBF3F338FB; 0xF09D30C03030AD60; 0x742BEF9BEFEFC4C3;
  0xC3E53FFC3F3FDA7E; 0x1C9255495555C7AA; 0x1079A2B2A2A2DB59; 0x6503EA8FEAEAE9C9;
  0xEC0F658965656ACA; 0x68B9BAD2BABA0369; 0x93652FBC2F2F4A5E; 0xE74EC027C0C08E9D;
  0x81BEDE5FDEDE60A1; 0x6CE01C701C1CFC38; 0x2EBBFDD3FDFD46E7; 0x64524D294D4D1F9A;
  0xE0E4927292927639; 0xBC8F75C97575FAEA; 0x1E3006180606360C; 0x98248A128A8AAE09;
  0x40F9B2F2B2B24B79; 0x5963E6BFE6E685D1; 0x36700E380E0E7E1C; 0x63F81F7C1F1FE73E;
  0xF7376295626255C4; 0xA3EED477D4D43AB5; 0x3229A89AA8A8814D; 0xF4C4966296965231;
  0x3A9BF9C3F9F962EF; 0xF666C533C5C5A397; 0xB13525942525104A; 0x20F259795959ABB2;
  0xAE54842A8484D015; 0xA7B772D57272C5E4; 0xDDD539E43939EC72; 0x615A4C2D4C4C1698;
  0x3BCA5E655E5E94BC; 0x85E778FD78789FF0; 0xD8DD38E03838E570; 0x86148C0A8C8C9805;
  0xB2C6D163D1D117BF; 0x0B41A5AEA5A5E457; 0x4D43E2AFE2E2A1D9; 0xF82F619961614EC2;
  0x45F1B3F6B3B3427B; 0xA515218421213442; 0xD6949C4A9C9C0825; 0x66F01E781E1EEE3C;
  0x5222431143436186; 0xFC76C73BC7C7B193; 0x2BB3FCD7FCFC4FE5; 0x1420041004042408;
  0x08B251595151E3A2; 0xC7BC995E9999252F; 0xC44F6DA96D6D22DA; 0x39680D340D0D651A;
  0x3583FACFFAFA79E9; 0x84B6DF5BDFDF69A3; 0x9BD77EE57E7EA9FC; 0xB43D249024241948;
  0xD7C53BEC3B3BFE76; 0x3D31AB96ABAB9A4B; 0xD13ECE1FCECEF081; 0x5588114411119922;
  0x890C8F068F8F8303; 0x6B4A4E254E4E049C; 0x51D1B7E6B7B76673; 0x600BEB8BEBEBE0CB;
  0xCCFD3CF03C3CC178; 0xBF7C813E8181FD1F; 0xFED4946A94944035; 0x0CEBF7FBF7F71CF3;
  0x67A1B9DEB9B9186F; 0x5F98134C13138B26; 0x9C7D2CB02C2C5158; 0xB8D6D36BD3D305BB;
  0x5C6BE7BBE7E78CD3; 0xCB576EA56E6E39DC; 0xF36EC437C4C4AA95; 0x0F18030C03031B06;
  0x138A56455656DCAC; 0x491A440D44445E88; 0x9EDF7FE17F7FA0FE; 0x3721A99EA9A9884F;
  0x824D2AA82A2A6754; 0x6DB1BBD6BBBB0A6B; 0xE246C123C1C1879F; 0x02A253515353F1A6;
  0x8BAEDC57DCDC72A5; 0x27580B2C0B0B5316; 0xD39C9D4E9D9D0127; 0xC1476CAD6C6C2BD8;
  0xF59531C43131A462; 0xB98774CD7474F3E8; 0x09E3F6FFF6F615F1; 0x430A460546464C8C;
  0x2609AC8AACACA545; 0x973C891E8989B50F; 0x44A014501414B428; 0x425BE1A3E1E1BADF;
  0x4EB016581616A62C; 0xD2CD3AE83A3AF774; 0xD06F69B9696906D2; 0x2D48092409094112;
  0xADA770DD7070D7E0; 0x54D9B6E2B6B66F71; 0xB7CED067D0D01EBD; 0x7E3BED93EDEDD6C7;
  0xDB2ECC17CCCCE285; 0x572A421542426884; 0xC2B4985A98982C2D; 0x0E49A4AAA4A4ED55;
  0x885D28A028287550; 0x31DA5C6D5C5C86B8; 0x3F93F8C7F8F86BED; 0xA44486228686C211].

Definition plain_T3 : list Z := [
  0xC018601818D83078; 0x05238C23232646AF; 0x7EC63FC6C6B891F9; 0x13E887E8E8FBCD6F;
  0x4C87268787CB13A1; 0xA9B8DAB8B8116D62; 0x0801040101090205; 0x424F214F4F0D9E6E;
  0xAD36D836369B6CEE; 0x59A6A2A6A6FF5104; 0xDED26FD2D20CB9BD; 0xFBF5F3F5F50EF706;
  0xEF79F9797996F280; 0x5F6FA16F6F30DECE; 0xFC917E91916D3FEF; 0xAA52555252F8A407;
  0x27609D606047C0FD; 0x89BCCABCBC356576; 0xAC9B569B9B372BCD; 0x048E028E8E8A018C;
  0x71A3B6A3A3D25B15; 0x600C300C0C6C183C; 0xFF7BF17B7B84F68A; 0xB535D43535806AE1;
  0xE81D741D1DF53A69; 0x53E0A7E0E0B3DD47; 0xF6D77BD7D721B3AC; 0x5EC22FC2C29C99ED;
  0x6D2EB82E2E435C96; 0x624B314B4B29967A; 0xA3FEDFFEFE5DE121; 0x8257415757D5AE16;
  0xA815541515BD2A41; 0x9F77C17777E8EEB6; 0xA537DC3737926EEB; 0x7BE5B3E5E59ED756;
  0x8C9F469F9F1323D9; 0xD3F0E7F0F023FD17; 0x6A4A354A4A20947F; 0x9EDA4FDADA44A995;
  0xFA587D5858A2B025; 0x06C903C9C9CF8FCA; 0x5529A429297C528D; 0x500A280A0A5A1422;
  0xE1B1FEB1B1507F4F; 0x69A0BAA0A0C95D1A; 0x7F6BB16B6B14D6DA; 0x5C852E8585D917AB;
  0x81BDCEBDBD3C6773; 0xD25D695D5D8FBA34; 0x8010401010902050; 0xF3F4F7F4F407F503;
  0x16CB0BCBCBDD8BC0; 0xED3EF83E3ED37CC6; 0x28051405052D0A11; 0x1F6781676778CEE6;
  0x73E4B7E4E497D553; 0x25279C2727024EBB; 0x3241194141738258; 0x2C8B168B8BA70B9D;
  0x51A7A6A7A7F65301; 0xCF7DE97D7DB2FA94; 0xDC956E95954937FB; 0x8ED847D8D856AD9F;
  0x8BFBCBFBFB70EB30; 0x23EE9FEEEECDC171; 0xC77CED7C7CBBF891; 0x176685666671CCE3;
  0xA6DD53DDDD7BA78E; 0xB8175C1717AF2E4B; 0x0247014747458E46; 0x849E429E9E1A21DC;
  0x1ECA0FCACAD489C5; 0x752DB42D2D585A99; 0x91BFC6BFBF2E6379; 0x38071C07073F0E1B;
  0x01AD8EADADAC4723; 0xEA5A755A5AB0B42F; 0x6C83368383EF1BB5; 0x8533CC3333B666FF;
  0x3F639163635CC6F2; 0x100208020212040A; 0x39AA92AAAA934938; 0xAF71D97171DEE2A8;
  0x0EC807C8C8C68DCF; 0xC819641919D1327D; 0x72493949493B9270; 0x86D943D9D95FAF9A;
  0xC3F2EFF2F231F91D; 0x4BE3ABE3E3A8DB48; 0xE25B715B5BB9B62A; 0x34881A8888BC0D92;
  0xA49A529A9A3E29C8; 0x2D269826260B4CBE; 0x8D32C83232BF64FA; 0xE9B0FAB0B0597D4A;
  0x1BE983E9E9F2CF6A; 0x780F3C0F0F771E33; 0xE6D573D5D533B7A6; 0x74803A8080F41DBA;
  0x99BEC2BEBE27617C; 0x26CD13CDCDEB87DE; 0xBD34D034348968E4; 0x7A483D4848329075;
  0xABFFDBFFFF54E324; 0xF77AF57A7A8DF48F; 0xF4907A9090643DEA; 0xC25F615F5F9DBE3E;
  0x1D208020203D40A0; 0x6768BD68680FD0D5; 0xD01A681A1ACA3472; 0x19AE82AEAEB7412C;
  0xC9B4EAB4B47D755E; 0x9A544D5454CEA819; 0xEC937693937F3BE5; 0x0D228822222F44AA;
  0x07648D646463C8E9; 0xDBF1E3F1F12AFF12; 0xBF73D17373CCE6A2; 0x901248121282245A;
  0x3A401D40407A805D; 0x4008200808481028; 0x56C32BC3C3959BE8; 0x33EC97ECECDFC57B;
  0x96DB4BDBDB4DAB90; 0x61A1BEA1A1C05F1F; 0x1C8D0E8D8D910783; 0xF53DF43D3DC87AC9;
  0xCC976697975B33F1; 0x0000000000000000; 0x36CF1BCFCFF983D4; 0x452BAC2B2B6E5687;
  0x9776C57676E1ECB3; 0x6482328282E619B0; 0xFED67FD6D628B1A9; 0xD81B6C1B1BC33677;
  0xC1B5EEB5B574775B; 0x11AF86AFAFBE4329; 0x776AB56A6A1DD4DF; 0xBA505D5050EAA00D;
  0x1245094545578A4C; 0xCBF3EBF3F338FB18; 0x9D30C03030AD60F0; 0x2BEF9BEFEFC4C374;
  0xE53FFC3F3FDA7EC3; 0x9255495555C7AA1C; 0x79A2B2A2A2DB5910; 0x03EA8FEAEAE9C965;
  0x0F658965656ACAEC; 0xB9BAD2BABA036968; 0x652FBC2F2F4A5E93; 0x4EC027C0C08E9DE7;
  0xBEDE5FDEDE60A181; 0xE01C701C1CFC386C; 0xBBFDD3FDFD46E72E; 0x524D294D4D1F9A64;
  0xE4927292927639E0; 0x8F75C97575FAEABC; 0x3006180606360C1E; 0x248A128A8AAE0998;
  0xF9B2F2B2B24B7940; 0x63E6BFE6E685D159; 0x700E380E0E7E1C36; 0xF81F7C1F1FE73E63;
  0x376295626255C4F7; 0xEED477D4D43AB5A3; 0x29A89AA8A8814D32; 0xC4966296965231F4;
  0x9BF9C3F9F962EF3A; 0x66C533C5C5A397F6; 0x3525942525104AB1; 0xF259795959ABB220;
  0x54842A8484D015AE; 0xB772D57272C5E4A7; 0xD539E43939EC72DD; 0x5A4C2D4C4C169861;
  0xCA5E655E5E94BC3B; 0xE778FD78789FF085; 0xDD38E03838E570D8; 0x148C0A8C8C980586;
  0xC6D163D1D117BFB2; 0x41A5AEA5A5E4570B; 0x43E2AFE2E2A1D94D; 0x2F619961614EC2F8;
  0xF1B3F6B3B3427B45; 0x15218421213442A5; 0x949C4A9C9C0825D6; 0xF01E781E1EEE3C66;
  0x2243114343618652; 0x76C73BC7C7B193FC; 0xB3FCD7FCFC4FE52B; 0x2004100404240814;
  0xB251595151E3A208; 0xBC995E9999252FC7; 0x4F6DA96D6D22DAC4; 0x680D340D0D651A39;
  0x83FACFFAFA79E935; 0xB6DF5BDFDF69A384; 0xD77EE57E7EA9FC9B; 0x3D249024241948B4;
  0xC53BEC3B3BFE76D7; 0x31AB96ABAB9A4B3D; 0x3ECE1FCECEF081D1; 0x8811441111992255;
  0x0C8F068F8F830389; 0x4A4E254E4E049C6B; 0xD1B7E6B7B7667351; 0x0BEB8BEBEBE0CB60;
  0xFD3CF03C3CC178CC; 0x7C813E8181FD1FBF; 0xD4946A94944035FE; 0xEBF7FBF7F71CF30C;
  0xA1B9DEB9B9186F67; 0x98134C13138B265F; 0x7D2CB02C2C51589C; 0xD6D36BD3D305BBB8;
  0x6BE7BBE7E78CD35C; 0x576EA56E6E39DCCB; 0x6EC437C4C4AA95F3; 0x18030C03031B060F;
  0x8A56455656DCAC13; 0x1A440D44445E8849; 0xDF7FE17F7FA0FE9E; 0x21A99EA9A9884F37;
  0x4D2AA82A2A675482; 0xB1BBD6BBBB0A6B6D; 0x46C123C1C1879FE2; 0xA253515353F1A602;
  0xAEDC57DCDC72A58B; 0x580B2C0B0B531627; 0x9C9D4E9D9D0127D3; 0x476CAD6C6C2BD8C1;
  0x9531C43131A462F5; 0x8774CD7474F3E8B9; 0xE3F6FFF6F615F109; 0x0A460546464C8C43;
  0x09AC8AACACA54526; 0x3C891E8989B50F97; 0xA014501414B42844; 0x5BE1A3E1E1BADF42;
  0xB016581616A62C4E; 0xCD3AE83A3AF774D2; 0x6F69B9696906D2D0; 0x480924090941122D;
  0xA770DD7070D7E0AD; 0xD9B6E2B6B66F7154; 0xCED067D0D01EBDB7; 0x3BED93EDEDD6C77E;
  0x2ECC17CCCCE285DB; 0x2A42154242688457; 0xB4985A98982C2DC2; 0x49A4AAA4A4ED550E;
  0x5D28A02828755088; 0xDA5C6D5C5C86B831; 0x93F8C7F8F86BED3F; 0x4486228686C211A4].

Definition plain_T4 : list Z := [
  0x18601818D83078C0; 0x238C23232646AF05; 0xC63FC6C6B891F97E; 0xE887E8E8FBCD6F13;
  0x87268787CB13A14C; 0xB8DAB8B8116D62A9; 0x0104010109020508; 0x4F214F4F0D9E6E42;
  0x36D836369B6CEEAD; 0xA6A2A6A6FF510459; 0xD26FD2D20CB9BDDE; 0xF5F3F5F50EF706FB;
  0x79F9797996F280EF; 0x6FA16F6F30DECE5F; 0x917E91916D3FEFFC; 0x52555252F8A407AA;
  0x609D606047C0FD27; 0xBCCABCBC35657689; 0x9B569B9B372BCDAC; 0x8E028E8E8A018C04;
  0xA3B6A3A3D25B1571; 0x0C300C0C6C183C60; 0x7BF17B7B84F68AFF; 0x35D43535806AE1B5;
  0x1D741D1DF53A69E8; 0xE0A7E0E0B3DD4753; 0xD77BD7D721B3ACF6; 0xC22FC2C29C99ED5E;
  0x2EB82E2E435C966D; 0x4B314B4B29967A62; 0xFEDFFEFE5DE121A3; 0x57415757D5AE1682;
  0x15541515BD2A41A8; 0x77C17777E8EEB69F; 0x37DC3737926EEBA5; 0xE5B3E5E59ED7567B;
  0x9F469F9F1323D98C; 0xF0E7F0F023FD17D3; 0x4A354A4A20947F6A; 0xDA4FDADA44A9959E;
  0x587D5858A2B025FA; 0xC903C9C9CF8FCA06; 0x29A429297C528D55; 0x0A280A0A5A142250;
  0xB1FEB1B1507F4FE1; 0xA0BAA0A0C95D1A69; 0x6BB16B6B14D6DA7F; 0x852E8585D917AB5C;
  0xBDCEBDBD3C677381; 0x5D695D5D8FBA34D2; 0x1040101090205080; 0xF4F7F4F407F503F3;
  0xCB0BCBCBDD8BC016; 0x3EF83E3ED37CC6ED; 0x051405052D0A1128; 0x6781676778CEE61F;
  0xE4B7E4E497D55373; 0x279C2727024EBB25; 0x4119414173825832; 0x8B168B8BA70B9D2C;
  0xA7A6A7A7F6530151; 0x7DE97D7DB2FA94CF; 0x956E95954937FBDC; 0xD847D8D856AD9F8E;
  0xFBCBFBFB70EB308B; 0xEE9FEEEECDC17123; 0x7CED7C7CBBF891C7; 0x6685666671CCE317;
  0xDD53DDDD7BA78EA6; 0x175C1717AF2E4BB8; 0x47014747458E4602; 0x9E429E9E1A21DC84;
  0xCA0FCACAD489C51E; 0x2DB42D2D585A9975; 0xBFC6BFBF2E637991; 0x071C07073F0E1B38;
  0xAD8EADADAC472301; 0x5A755A5AB0B42FEA; 0x83368383EF1BB56C; 0x33CC3333B666FF85;
  0x639163635CC6F23F; 0x0208020212040A10; 0xAA92AAAA93493839; 0x71D97171DEE2A8AF;
  0xC807C8C8C68DCF0E; 0x19641919D1327DC8; 0x493949493B927072; 0xD943D9D95FAF9A86;
  0xF2EFF2F231F91DC3; 0xE3ABE3E3A8DB484B; 0x5B715B5BB9B62AE2; 0x881A8888BC0D9234;
  0x9A529A9A3E29C8A4; 0x269826260B4CBE2D; 0x32C83232BF64FA8D; 0xB0FAB0B0597D4AE9;
  0xE983E9E9F2CF6A1B; 0x0F3C0F0F771E3378; 0xD573D5D533B7A6E6; 0x803A8080F41DBA74;
  0xBEC2BEBE27617C99; 0xCD13CDCDEB87DE26; 0x34D034348968E4BD; 0x483D48483290757A;
  0xFFDBFFFF54E324AB; 0x7AF57A7A8DF48FF7; 0x907A9090643DEAF4; 0x5F615F5F9DBE3EC2;
  0x208020203D40A01D; 0x68BD68680FD0D567; 0x1A681A1ACA3472D0; 0xAE82AEAEB7412C19;
  0xB4EAB4B47D755EC9; 0x544D5454CEA8199A; 0x937693937F3BE5EC; 0x228822222F44AA0D;
  0x648D646463C8E907; 0xF1E3F1F12AFF12DB; 0x73D17373CCE6A2BF; 0x1248121282245A90;
  0x401D40407A805D3A; 0x0820080848102840; 0xC32BC3C3959BE856; 0xEC97ECECDFC57B33;
  0xDB4BDBDB4DAB9096; 0xA1BEA1A1C05F1F61; 0x8D0E8D8D9107831C; 0x3DF43D3DC87AC9F5;
  0x976697975B33F1CC; 0x0000000000000000; 0xCF1BCFCFF983D436; 0x2BAC2B2B6E568745;
  0x76C57676E1ECB397; 0x82328282E619B064; 0xD67FD6D628B1A9FE; 0x1B6C1B1BC33677D8;
  0xB5EEB5B574775BC1; 0xAF86AFAFBE432911; 0x6AB56A6A1DD4DF77; 0x505D5050EAA00DBA;
  0x45094545578A4C12; 0xF3EBF3F338FB18CB; 0x30C03030AD60F09D; 0xEF9BEFEFC4C3742B;
  0x3FFC3F3FDA7EC3E5; 0x55495555C7AA1C92; 0xA2B2A2A2DB591079; 0xEA8FEAEAE9C96503;
  0x658965656ACAEC0F; 0xBAD2BABA036968B9; 0x2FBC2F2F4A5E9365; 0xC027C0C08E9DE74E;
  0xDE5FDEDE60A181BE; 0x1C701C1CFC386CE0; 0xFDD3FDFD46E72EBB; 0x4D294D4D1F9A6452;
  0x927292927639E0E4; 0x75C97575FAEABC8F; 0x06180606360C1E30; 0x8A128A8AAE099824;
  0xB2F2B2B24B7940F9; 0xE6BFE6E685D15963; 0x0E380E0E7E1C3670; 0x1F7C1F1FE73E63F8;
  0x6295626255C4F737; 0xD477D4D43AB5A3EE; 0xA89AA8A8814D3229; 0x966296965231F4C4;
  0xF9C3F9F962EF3A9B; 0xC533C5C5A397F666; 0x25942525104AB135; 0x59795959ABB220F2;
  0x842A8484D015AE54; 0x72D57272C5E4A7B7; 0x39E43939EC72DDD5; 0x4C2D4C4C1698615A;
  0x5E655E5E94BC3BCA; 0x78FD78789FF085E7; 0x38E03838E570D8DD; 0x8C0A8C8C98058614;
  0xD163D1D117BFB2C6; 0xA5AEA5A5E4570B41; 0xE2AFE2E2A1D94D43; 0x619961614EC2F82F;
  0xB3F6B3B3427B45F1; 0x218421213442A515; 0x9C4A9C9C0825D694; 0x1E781E1EEE3C66F0;
  0x4311434361865222; 0xC73BC7C7B193FC76; 0xFCD7FCFC4FE52BB3; 0x0410040424081420;
  0x51595151E3A208B2; 0x995E9999252FC7BC; 0x6DA96D6D22DAC44F; 0x0D340D0D651A3968;
  0xFACFFAFA79E93583; 0xDF5BDFDF69A384B6; 0x7EE57E7EA9FC9BD7; 0x249024241948B43D;
  0x3BEC3B3BFE76D7C5; 0xAB96ABAB9A4B3D31; 0xCE1FCECEF081D13E; 0x1144111199225588;
  0x8F068F8F8303890C; 0x4E254E4E049C6B4A; 0xB7E6B7B7667351D1; 0xEB8BEBEBE0CB600B;
  0x3CF03C3CC178CCFD; 0x813E8181FD1FBF7C; 0x946A94944035FED4; 0xF7FBF7F71CF30CEB;
  0xB9DEB9B9186F67A1; 0x134C13138B265F98; 0x2CB02C2C51589C7D; 0xD36BD3D305BBB8D6;
  0xE7BBE7E78CD35C6B; 0x6EA56E6E39DCCB57; 0xC437C4C4AA95F36E; 0x030C03031B060F18;
  0x56455656DCAC138A; 0x440D44445E88491A; 0x7FE17F7FA0FE9EDF; 0xA99EA9A9884F3721;
  0x2AA82A2A6754824D; 0xBBD6BBBB0A6B6DB1; 0xC123C1C1879FE246; 0x53515353F1A602A2;
  0xDC57DCDC72A58BAE; 0x0B2C0B0B53162758; 0x9D4E9D9D0127D39C; 0x6CAD6C6C2BD8C147;
  0x31C43131A462F595; 0x74CD7474F3E8B987; 0xF6FFF6F615F109E3; 0x460546464C8C430A;
  0xAC8AACACA5452609; 0x891E8989B50F973C; 0x14501414B42844A0; 0xE1A3E1E1BADF425B;
  0x16581616A62C4EB0; 0x3AE83A3AF774D2CD; 0x69B9696906D2D06F; 0x0924090941122D48;
  0x70DD7070D7E0ADA7; 0xB6E2B6B66F7154D9; 0xD067D0D01EBDB7CE; 0xED93EDEDD6C77E3B;
  0xCC17CCCCE285DB2E; 0x421542426884572A; 0x985A98982C2DC2B4; 0xA4AAA4A4ED550E49;
  0x28A028287550885D; 0x5C6D5C5C86B831DA; 0xF8C7F8F86BED3F93; 0x86228686C211A444].

Definition plain_T5 : list Z := [
  0x601818D83078C018; 0x8C23232646AF0523; 0x3FC6C6B891F97EC6; 0x87E8E8FBCD6F13E8;
  0x268787CB13A14C87; 0xDAB8B8116D62A9B8; 0x0401010902050801; 0x214F4F0D9E6E424F;
  0xD836369B6CEEAD36; 0xA2A6A6FF510459A6; 0x6FD2D20CB9BDDED2; 0xF3F5F50EF706FBF5;
  0xF9797996F280EF79; 0xA16F6F30DECE5F6F; 0x7E91916D3FEFFC91; 0x555252F8A407AA52;
  0x9D606047C0FD2760; 0xCABCBC35657689BC; 0x569B9B372BCDAC9B; 0x028E8E8A018C048E;
  0xB6A3A3D25B1571A3; 0x300C0C6C183C600C; 0xF17B7B84F68AFF7B; 0xD43535806AE1B535;
  0x741D1DF53A69E81D; 0xA7E0E0B3DD4753E0; 0x7BD7D721B3ACF6D7; 0x2FC2C29C99ED5EC2;
  0xB82E2E435C966D2E; 0x314B4B29967A624B; 0xDFFEFE5DE121A3FE; 0x415757D5AE168257;
  0x541515BD2A41A815; 0xC17777E8EEB69F77; 0xDC3737926EEBA537; 0xB3E5E59ED7567BE5;
  0x469F9F1323D98C9F; 0xE7F0F023FD17D3F0; 0x354A4A20947F6A4A; 0x4FDADA44A9959EDA;
  0x7D5858A2B025FA58; 0x03C9C9CF8FCA06C9; 0xA429297C528D5529; 0x280A0A5A1422500A;
  0xFEB1B1507F4FE1B1; 0xBAA0A0C95D1A69A0; 0xB16B6B14D6DA7F6B; 0x2E8585D917AB5C85;
  0xCEBDBD3C677381BD; 0x695D5D8FBA34D25D; 0x4010109020508010; 0xF7F4F407F503F3F4;
  0x0BCBCBDD8BC016CB; 0xF83E3ED37CC6ED3E; 0x1405052D0A112805; 0x81676778CEE61F67;
  0xB7E4E497D55373E4; 0x9C2727024EBB2527; 0x1941417382583241; 0x168B8BA70B9D2C8B;
  0xA6A7A7F6530151A7; 0xE97D7DB2FA94CF7D; 0x6E95954937FBDC95; 0x47D8D856AD9F8ED8;
  0xCBFBFB70EB308BFB; 0x9FEEEECDC17123EE; 0xED7C7CBBF891C77C; 0x85666671CCE31766;
  0x53DDDD7BA78EA6DD; 0x5C1717AF2E4BB817; 0x014747458E460247; 0x429E9E1A21DC849E;
  0x0FCACAD489C51ECA; 0xB42D2D585A99752D; 0xC6BFBF2E637991BF; 0x1C07073F0E1B3807;
  0x8EADADAC472301AD; 0x755A5AB0B42FEA5A; 0x368383EF1BB56C83; 0xCC3333B666FF8533;
  0x9163635CC6F23F63; 0x08020212040A1002; 0x92AAAA93493839AA; 0xD97171DEE2A8AF71;
  0x07C8C8C68DCF0EC8; 0x641919D1327DC819; 0x3949493B92707249; 0x43D9D95FAF9A86D9;
  0xEFF2F231F91DC3F2; 0xABE3E3A8DB484BE3; 0x715B5BB9B62AE25B; 0x1A8888BC0D923488;
  0x529A9A3E29C8A49A; 0x9826260B4CBE2D26; 0xC83232BF64FA8D32; 0xFAB0B0597D4AE9B0;
  0x83E9E9F2CF6A1BE9; 0x3C0F0F771E33780F; 0x73D5D533B7A6E6D5; 0x3A8080F41DBA7480;
  0xC2BEBE27617C99BE; 0x13CDCDEB87DE26CD; 0xD034348968E4BD34; 0x3D48483290757A48;
  0xDBFFFF54E324ABFF; 0xF57A7A8DF48FF77A; 0x7A9090643DEAF490; 0x615F5F9DBE3EC25F;
  0x8020203D40A01D20; 0xBD68680FD0D56768; 0x681A1ACA3472D01A; 0x82AEAEB7412C19AE;
  0xEAB4B47D755EC9B4; 0x4D5454CEA8199A54; 0x7693937F3BE5EC93; 0x8822222F44AA0D22;
  0x8D646463C8E90764; 0xE3F1F12AFF12DBF1; 0xD17373CCE6A2BF73; 0x48121282245A9012;
  0x1D40407A805D3A40; 0x2008084810284008; 0x2BC3C3959BE856C3; 0x97ECECDFC57B33EC;
  0x4BDBDB4DAB9096DB; 0xBEA1A1C05F1F61A1; 0x0E8D8D9107831C8D; 0xF43D3DC87AC9F53D;
  0x6697975B33F1CC97; 0x0000000000000000; 0x1BCFCFF983D436CF; 0xAC2B2B6E5687452B;
  0xC57676E1ECB39776; 0x328282E619B06482; 0x7FD6D628B1A9FED6; 0x6C1B1BC33677D81B;
  0xEEB5B574775BC1B5; 0x86AFAFBE432911AF; 0xB56A6A1DD4DF776A; 0x5D5050EAA00DBA50;
  0x094545578A4C1245; 0xEBF3F338FB18CBF3; 0xC03030AD60F09D30; 0x9BEFEFC4C3742BEF;
  0xFC3F3FDA7EC3E53F; 0x495555C7AA1C9255; 0xB2A2A2DB591079A2; 0x8FEAEAE9C96503EA;
  0x8965656ACAEC0F65; 0xD2BABA036968B9BA; 0xBC2F2F4A5E93652F; 0x27C0C08E9DE74EC0;
  0x5FDEDE60A181BEDE; 0x701C1CFC386CE01C; 0xD3FDFD46E72EBBFD; 0x294D4D1F9A64524D;
  0x7292927639E0E492; 0xC97575FAEABC8F75; 0x180606360C1E3006; 0x128A8AAE0998248A;
  0xF2B2B24B7940F9B2; 0xBFE6E685D15963E6; 0x380E0E7E1C36700E; 0x7C1F1FE73E63F81F;
  0x95626255C4F73762; 0x77D4D43AB5A3EED4; 0x9AA8A8814D3229A8; 0x6296965231F4C496;
  0xC3F9F962EF3A9BF9; 0x33C5C5A397F666C5; 0x942525104AB13525; 0x795959ABB220F259;
  0x2A8484D015AE5484; 0xD57272C5E4A7B772; 0xE43939EC72DDD539; 0x2D4C4C1698615A4C;
  0x655E5E94BC3BCA5E; 0xFD78789FF085E778; 0xE03838E570D8DD38; 0x0A8C8C980586148C;
  0x63D1D117BFB2C6D1; 0xAEA5A5E4570B41A5; 0xAFE2E2A1D94D43E2; 0x9961614EC2F82F61;
  0xF6B3B3427B45F1B3; 0x8421213442A51521; 0x4A9C9C0825D6949C; 0x781E1EEE3C66F01E;
  0x1143436186522243; 0x3BC7C7B193FC76C7; 0xD7FCFC4FE52BB3FC; 0x1004042408142004;
  0x595151E3A208B251; 0x5E9999252FC7BC99; 0xA96D6D22DAC44F6D; 0x340D0D651A39680D;
  0xCFFAFA79E93583FA; 0x5BDFDF69A384B6DF; 0xE57E7EA9FC9BD77E; 0x9024241948B43D24;
  0xEC3B3BFE76D7C53B; 0x96ABAB9A4B3D31AB; 0x1FCECEF081D13ECE; 0x4411119922558811;
  0x068F8F8303890C8F; 0x254E4E049C6B4A4E; 0xE6B7B7667351D1B7; 0x8BEBEBE0CB600BEB;
  0xF03C3CC178CCFD3C; 0x3E8181FD1FBF7C81; 0x6A94944035FED494; 0xFBF7F71CF30CEBF7;
  0xDEB9B9186F67A1B9; 0x4C13138B265F9813; 0xB02C2C51589C7D2C; 0x6BD3D305BBB8D6D3;
  0xBBE7E78CD35C6BE7; 0xA56E6E39DCCB576E; 0x37C4C4AA95F36EC4; 0x0C03031B060F1803;
  0x455656DCAC138A56; 0x0D44445E88491A44; 0xE17F7FA0FE9EDF7F; 0x9EA9A9884F3721A9;
  0xA82A2A6754824D2A; 0xD6BBBB0A6B6DB1BB; 0x23C1C1879FE246C1; 0x515353F1A602A253;
  0x57DCDC72A58BAEDC; 0x2C0B0B531627580B; 0x4E9D9D0127D39C9D; 0xAD6C6C2BD8C1476C;
  0xC43131A462F59531; 0xCD7474F3E8B98774; 0xFFF6F615F109E3F6; 0x0546464C8C430A46;
  0x8AACACA5452609AC; 0x1E8989B50F973C89; 0x501414B42844A014; 0xA3E1E1BADF425BE1;
  0x581616A62C4EB016; 0xE83A3AF774D2CD3A; 0xB9696906D2D06F69; 0x24090941122D4809;
  0xDD7070D7E0ADA770; 0xE2B6B66F7154D9B6; 0x67D0D01EBDB7CED0; 0x93EDEDD6C77E3BED;
  0x17CCCCE285DB2ECC; 0x1542426884572A42; 0x5A98982C2DC2B498; 0xAAA4A4ED550E49A4;
  0xA028287550885D28; 0x6D5C5C86B831DA5C; 0xC7F8F86BED3F93F8; 0x228686C211A44486].

Definition plain_T6 : list Z := [
  0x1818D83078C01860; 0x23232646AF05238C; 0xC6C6B891F97EC63F; 0xE8E8FBCD6F13E887;
  0x8787CB13A14C8726; 0xB8B8116D62A9B8DA; 0x0101090205080104; 0x4F4F0D9E6E424F21;
  0x36369B6CEEAD36D8; 0xA6A6FF510459A6A2; 0xD2D20CB9BDDED26F; 0xF5F50EF706FBF5F3;
  0x797996F280EF79F9; 0x6F6F30DECE5F6FA1; 0x91916D3FEFFC917E; 0x5252F8A407AA5255;
  0x606047C0FD27609D; 0xBCBC35657689BCCA; 0x9B9B372BCDAC9B56; 0x8E8E8A018C048E02;
  0xA3A3D25B1571A3B6; 0x0C0C6C183C600C30; 0x7B7B84F68AFF7BF1; 0x3535806AE1B535D4;
  0x1D1DF53A69E81D74; 0xE0E0B3DD4753E0A7; 0xD7D721B3ACF6D77B; 0xC2C29C99ED5EC22F;
  0x2E2E435C966D2EB8; 0x4B4B29967A624B31; 0xFEFE5DE121A3FEDF; 0x5757D5AE16825741;
  0x1515BD2A41A81554; 0x7777E8EEB69F77C1; 0x3737926EEBA537DC; 0xE5E59ED7567BE5B3;
  0x9F9F1323D98C9F46; 0xF0F023FD17D3F0E7; 0x4A4A20947F6A4A35; 0xDADA44A9959EDA4F;
  0x5858A2B025FA587D; 0xC9C9CF8FCA06C903; 0x29297C528D5529A4; 0x0A0A5A1422500A28;
  0xB1B1507F4FE1B1FE; 0xA0A0C95D1A69A0BA; 0x6B6B14D6DA7F6BB1; 0x8585D917AB5C852E;
  0xBDBD3C677381BDCE; 0x5D5D8FBA34D25D69; 0x1010902050801040; 0xF4F407F503F3F4F7;
  0xCBCBDD8BC016CB0B; 0x3E3ED37CC6ED3EF8; 0x05052D0A11280514; 0x676778CEE61F6781;
  0xE4E497D55373E4B7; 0x2727024EBB25279C; 0x4141738258324119; 0x8B8BA70B9D2C8B16;
  0xA7A7F6530151A7A6; 0x7D7DB2FA94CF7DE9; 0x95954937FBDC956E; 0xD8D856AD9F8ED847;
  0xFBFB70EB308BFBCB; 0xEEEECDC17123EE9F; 0x7C7CBBF891C77CED; 0x666671CCE3176685;
  0xDDDD7BA78EA6DD53; 0x1717AF2E4BB8175C; 0x4747458E46024701; 0x9E9E1A21DC849E42;
  0xCACAD489C51ECA0F; 0x2D2D585A99752DB4; 0xBFBF2E637991BFC6; 0x07073F0E1B38071C;
  0xADADAC472301AD8E; 0x5A5AB0B42FEA5A75; 0x8383EF1BB56C8336; 0x3333B666FF8533CC;
  0x63635CC6F23F6391; 0x020212040A100208; 0xAAAA93493839AA92; 0x7171DEE2A8AF71D9;
  0xC8C8C68DCF0EC807; 0x1919D1327DC81964; 0x49493B9270724939; 0xD9D95FAF9A86D943;
  0xF2F231F91DC3F2EF; 0xE3E3A8DB484BE3AB; 0x5B5BB9B62AE25B71; 0x8888BC0D9234881A;
  0x9A9A3E29C8A49A52; 0x26260B4CBE2D2698; 0x3232BF64FA8D32C8; 0xB0B0597D4AE9B0FA;
  0xE9E9F2CF6A1BE983; 0x0F0F771E33780F3C; 0xD5D533B7A6E6D573; 0x8080F41DBA74803A;
  0xBEBE27617C99BEC2; 0xCDCDEB87DE26CD13; 0x34348968E4BD34D0; 0x48483290757A483D;
  0xFFFF54E324ABFFDB; 0x7A7A8DF48FF77AF5; 0x9090643DEAF4907A; 0x5F5F9DBE3EC25F61;
  0x20203D40A01D2080; 0x68680FD0D56768BD; 0x1A1ACA3472D01A68; 0xAEAEB7412C19AE82;
  0xB4B47D755EC9B4EA; 0x5454CEA8199A544D; 0x93937F3BE5EC9376; 0x22222F44AA0D2288;
  0x646463C8E907648D; 0xF1F12AFF12DBF1E3; 0x7373CCE6A2BF73D1; 0x121282245A901248;
  0x40407A805D3A401D; 0x0808481028400820; 0xC3C3959BE856C32B; 0xECECDFC57B33EC97;
  0xDBDB4DAB9096DB4B; 0xA1A1C05F1F61A1BE; 0x8D8D9107831C8D0E; 0x3D3DC87AC9F53DF4;
  0x97975B33F1CC9766; 0x0000000000000000; 0xCFCFF983D436CF1B; 0x2B2B6E5687452BAC;
  0x7676E1ECB39776C5; 0x8282E619B0648232; 0xD6D628B1A9FED67F; 0x1B1BC33677D81B6C;
  0xB5B574775BC1B5EE; 0xAFAFBE432911AF86; 0x6A6A1DD4DF776AB5; 0x5050EAA00DBA505D;
  0x4545578A4C124509; 0xF3F338FB18CBF3EB; 0x3030AD60F09D30C0; 0xEFEFC4C3742BEF9B;
  0x3F3FDA7EC3E53FFC; 0x5555C7AA1C925549; 0xA2A2DB591079A2B2; 0xEAEAE9C96503EA8F;
  0x65656ACAEC0F6589; 0xBABA036968B9BAD2; 0x2F2F4A5E93652FBC; 0xC0C08E9DE74EC027;
  0xDEDE60A181BEDE5F; 0x1C1CFC386CE01C70; 0xFDFD46E72EBBFDD3; 0x4D4D1F9A64524D29;
  0x92927639E0E49272; 0x7575FAEABC8F75C9; 0x0606360C1E300618; 0x8A8AAE0998248A12;
  0xB2B24B7940F9B2F2; 0xE6E685D15963E6BF; 0x0E0E7E1C36700E38; 0x1F1FE73E63F81F7C;
  0x626255C4F7376295; 0xD4D43AB5A3EED477; 0xA8A8814D3229A89A; 0x96965231F4C49662;
  0xF9F962EF3A9BF9C3; 0xC5C5A397F666C533; 0x2525104AB1352594; 0x5959ABB220F25979;
  0x8484D015AE54842A; 0x7272C5E4A7B772D5; 0x3939EC72DDD539E4; 0x4C4C1698615A4C2D;
  0x5E5E94BC3BCA5E65; 0x78789FF085E778FD; 0x3838E570D8DD38E0; 0x8C8C980586148C0A;
  0xD1D117BFB2C6D163; 0xA5A5E4570B41A5AE; 0xE2E2A1D94D43E2AF; 0x61614EC2F82F6199;
  0xB3B3427B45F1B3F6; 0x21213442A5152184; 0x9C9C0825D6949C4A; 0x1E1EEE3C66F01E78;
  0x4343618652224311; 0xC7C7B193FC76C73B; 0xFCFC4FE52BB3FCD7; 0x0404240814200410;
  0x5151E3A208B25159; 0x9999252FC7BC995E; 0x6D6D22DAC44F6DA9; 0x0D0D651A39680D34;
  0xFAFA79E93583FACF; 0xDFDF69A384B6DF5B; 0x7E7EA9FC9BD77EE5; 0x24241948B43D2490;
  0x3B3BFE76D7C53BEC; 0xABAB9A4B3D31AB96; 0xCECEF081D13ECE1F; 0x1111992255881144;
  0x8F8F8303890C8F06; 0x4E4E049C6B4A4E25; 0xB7B7667351D1B7E6; 0xEBEBE0CB600BEB8B;
  0x3C3CC178CCFD3CF0; 0x8181FD1FBF7C813E; 0x94944035FED4946A; 0xF7F71CF30CEBF7FB;
  0xB9B9186F67A1B9DE; 0x13138B265F98134C; 0x2C2C51589C7D2CB0; 0xD3D305BBB8D6D36B;
  0xE7E78CD35C6BE7BB; 0x6E6E39DCCB576EA5; 0xC4C4AA95F36EC437; 0x03031B060F18030C;
  0x5656DCAC138A5645; 0x44445E88491A440D; 0x7F7FA0FE9EDF7FE1; 0xA9A9884F3721A99E;
  0x2A2A6754824D2AA8; 0xBBBB0A6B6DB1BBD6; 0xC1C1879FE246C123; 0x5353F1A602A25351;
  0xDCDC72A58BAEDC57; 0x0B0B531627580B2C; 0x9D9D0127D39C9D4E; 0x6C6C2BD8C1476CAD;
  0x3131A462F59531C4; 0x7474F3E8B98774CD; 0xF6F615F109E3F6FF; 0x46464C8C430A4605;
  0xACACA5452609AC8A; 0x8989B50F973C891E; 0x1414B42844A01450; 0xE1E1BADF425BE1A3;
  0x1616A62C4EB01658; 0x3A3AF774D2CD3AE8; 0x696906D2D06F69B9; 0x090941122D480924;
  0x7070D7E0ADA770DD; 0xB6B66F7154D9B6E2; 0xD0D01EBDB7CED067; 0xEDEDD6C77E3BED93;
  0xCCCCE285DB2ECC17; 0x42426884572A4215; 0x98982C2DC2B4985A; 0xA4A4ED550E49A4AA;
  0x28287550885D28A0; 0x5C5C86B831DA5C6D; 0xF8F86BED3F93F8C7; 0x8686C211A4448622].

Definition plain_T7 : list Z := [
  0x18D83078C0186018; 0x232646AF05238C23; 0xC6B891F97EC63FC6; 0xE8FBCD6F13E887E8;
  0x87CB13A14C872687; 0xB8116D62A9B8DAB8; 0x0109020508010401; 0x4F0D9E6E424F214F;
  0x369B6CEEAD36D836; 0xA6FF510459A6A2A6; 0xD20CB9BDDED26FD2; 0xF50EF706FBF5F3F5;
  0x7996F280EF79F979; 0x6F30DECE5F6FA16F; 0x916D3FEFFC917E91; 0x52F8A407AA525552;
  0x6047C0FD27609D60; 0xBC35657689BCCABC; 0x9B372BCDAC9B569B; 0x8E8A018C048E028E;
  0xA3D25B1571A3B6A3; 0x0C6C183C600C300C; 0x7B84F68AFF7BF17B; 0x35806AE1B535D435;
  0x1DF53A69E81D741D; 0xE0B3DD4753E0A7E0; 0xD721B3ACF6D77BD7; 0xC29C99ED5EC22FC2;
  0x2E435C966D2EB82E; 0x4B29967A624B314B; 0xFE5DE121A3FEDFFE; 0x57D5AE1682574157;
  0x15BD2A41A8155415; 0x77E8EEB69F77C177; 0x37926EEBA537DC37; 0xE59ED7567BE5B3E5;
  0x9F1323D98C9F469F; 0xF023FD17D3F0E7F0; 0x4A20947F6A4A354A; 0xDA44A9959EDA4FDA;
  0x58A2B025FA587D58; 0xC9CF8FCA06C903C9; 0x297C528D5529A429; 0x0A5A1422500A280A;
  0xB1507F4FE1B1FEB1; 0xA0C95D1A69A0BAA0; 0x6B14D6DA7F6BB16B; 0x85D917AB5C852E85;
  0xBD3C677381BDCEBD; 0x5D8FBA34D25D695D; 0x1090205080104010; 0xF407F503F3F4F7F4;
  0xCBDD8BC016CB0BCB; 0x3ED37CC6ED3EF83E; 0x052D0A1128051405; 0x6778CEE61F678167;
  0xE497D55373E4B7E4; 0x27024EBB25279C27; 0x4173825832411941; 0x8BA70B9D2C8B168B;
  0xA7F6530151A7A6A7; 0x7DB2FA94CF7DE97D; 0x954937FBDC956E95; 0xD856AD9F8ED847D8;
  0xFB70EB308BFBCBFB; 0xEECDC17123EE9FEE; 0x7CBBF891C77CED7C; 0x6671CCE317668566;
  0xDD7BA78EA6DD53DD; 0x17AF2E4BB8175C17; 0x47458E4602470147; 0x9E1A21DC849E429E;
  0xCAD489C51ECA0FCA; 0x2D585A99752DB42D; 0xBF2E637991BFC6BF; 0x073F0E1B38071C07;
  0xADAC472301AD8EAD; 0x5AB0B42FEA5A755A; 0x83EF1BB56C833683; 0x33B666FF8533CC33;
  0x635CC6F23F639163; 0x0212040A10020802; 0xAA93493839AA92AA; 0x71DEE2A8AF71D971;
  0xC8C68DCF0EC807C8; 0x19D1327DC8196419; 0x493B927072493949; 0xD95FAF9A86D943D9;
  0xF231F91DC3F2EFF2; 0xE3A8DB484BE3ABE3; 0x5BB9B62AE25B715B; 0x88BC0D9234881A88;
  0x9A3E29C8A49A529A; 0x260B4CBE2D269826; 0x32BF64FA8D32C832; 0xB0597D4AE9B0FAB0;
  0xE9F2CF6A1BE983E9; 0x0F771E33780F3C0F; 0xD533B7A6E6D573D5; 0x80F41DBA74803A80;
  0xBE27617C99BEC2BE; 0xCDEB87DE26CD13CD; 0x348968E4BD34D034; 0x483290757A483D48;
  0xFF54E324ABFFDBFF; 0x7A8DF48FF77AF57A; 0x90643DEAF4907A90; 0x5F9DBE3EC25F615F;
  0x203D40A01D208020; 0x680FD0D56768BD68; 0x1ACA3472D01A681A; 0xAEB7412C19AE82AE;
  0xB47D755EC9B4EAB4; 0x54CEA8199A544D54; 0x937F3BE5EC937693; 0x222F44AA0D228822;
  0x6463C8E907648D64; 0xF12AFF12DBF1E3F1; 0x73CCE6A2BF73D173; 0x1282245A90124812;
  0x407A805D3A401D40; 0x0848102840082008; 0xC3959BE856C32BC3; 0xECDFC57B33EC97EC;
  0xDB4DAB9096DB4BDB; 0xA1C05F1F61A1BEA1; 0x8D9107831C8D0E8D; 0x3DC87AC9F53DF43D;
  0x975B33F1CC976697; 0x0000000000000000; 0xCFF983D436CF1BCF; 0x2B6E5687452BAC2B;
  0x76E1ECB39776C576; 0x82E619B064823282; 0xD628B1A9FED67FD6; 0x1BC33677D81B6C1B;
  0xB574775BC1B5EEB5; 0xAFBE432911AF86AF; 0x6A1DD4DF776AB56A; 0x50EAA00DBA505D50;
  0x45578A4C12450945; 0xF338FB18CBF3EBF3; 0x30AD60F09D30C030; 0xEFC4C3742BEF9BEF;
  0x3FDA7EC3E53FFC3F; 0x55C7AA1C92554955; 0xA2DB591079A2B2A2; 0xEAE9C96503EA8FEA;
  0x656ACAEC0F658965; 0xBA036968B9BAD2BA; 0x2F4A5E93652FBC2F; 0xC08E9DE74EC027C0;
  0xDE60A181BEDE5FDE; 0x1CFC386CE01C701C; 0xFD46E72EBBFDD3FD; 0x4D1F9A64524D294D;
  0x927639E0E4927292; 0x75FAEABC8F75C975; 0x06360C1E30061806; 0x8AAE0998248A128A;
  0xB24B7940F9B2F2B2; 0xE685D15963E6BFE6; 0x0E7E1C36700E380E; 0x1FE73E63F81F7C1F;
  0x6255C4F737629562; 0xD43AB5A3EED477D4; 0xA8814D3229A89AA8; 0x965231F4C4966296;
  0xF962EF3A9BF9C3F9; 0xC5A397F666C533C5; 0x25104AB135259425; 0x59ABB220F2597959;
  0x84D015AE54842A84; 0x72C5E4A7B772D572; 0x39EC72DDD539E439; 0x4C1698615A4C2D4C;
  0x5E94BC3BCA5E655E; 0x789FF085E778FD78; 0x38E570D8DD38E038; 0x8C980586148C0A8C;
  0xD117BFB2C6D163D1; 0xA5E4570B41A5AEA5; 0xE2A1D94D43E2AFE2; 0x614EC2F82F619961;
  0xB3427B45F1B3F6B3; 0x213442A515218421; 0x9C0825D6949C4A9C; 0x1EEE3C66F01E781E;
  0x4361865222431143; 0xC7B193FC76C73BC7; 0xFC4FE52BB3FCD7FC; 0x0424081420041004;
  0x51E3A208B2515951; 0x99252FC7BC995E99; 0x6D22DAC44F6DA96D; 0x0D651A39680D340D;
  0xFA79E93583FACFFA; 0xDF69A384B6DF5BDF; 0x7EA9FC9BD77EE57E; 0x241948B43D249024;
  0x3BFE76D7C53BEC3B; 0xAB9A4B3D31AB96AB; 0xCEF081D13ECE1FCE; 0x1199225588114411;
  0x8F8303890C8F068F; 0x4E049C6B4A4E254E; 0xB7667351D1B7E6B7; 0xEBE0CB600BEB8BEB;
  0x3CC178CCFD3CF03C; 0x81FD1FBF7C813E81; 0x944035FED4946A94; 0xF71CF30CEBF7FBF7;
  0xB9186F67A1B9DEB9; 0x138B265F98134C13; 0x2C51589C7D2CB02C; 0xD305BBB8D6D36BD3;
  0xE78CD35C6BE7BBE7; 0x6E39DCCB576EA56E; 0xC4AA95F36EC437C4; 0x031B060F18030C03;
  0x56DCAC138A564556; 0x445E88491A440D44; 0x7FA0FE9EDF7FE17F; 0xA9884F3721A99EA9;
  0x2A6754824D2AA82A; 0xBB0A6B6DB1BBD6BB; 0xC1879FE246C123C1; 0x53F1A602A2535153;
  0xDC72A58BAEDC57DC; 0x0B531627580B2C0B; 0x9D0127D39C9D4E9D; 0x6C2BD8C1476CAD6C;
  0x31A462F59531C431; 0x74F3E8B98774CD74; 0xF615F109E3F6FFF6; 0x464C8C430A460546;
  0xACA5452609AC8AAC; 0x89B50F973C891E89; 0x14B42844A0145014; 0xE1BADF425BE1A3E1;
  0x16A62C4EB0165816; 0x3AF774D2CD3AE83A; 0x6906D2D06F69B969; 0x0941122D48092409;
  0x70D7E0ADA770DD70; 0xB66F7154D9B6E2B6; 0xD01EBDB7CED067D0; 0xEDD6C77E3BED93ED;
  0xCCE285DB2ECC17CC; 0x426884572A421542; 0x982C2DC2B4985A98; 0xA4ED550E49A4AAA4;
  0x287550885D28A028; 0x5C86B831DA5C6D5C; 0xF86BED3F93F8C7F8; 0x86C211A444862286].

Definition plain_RC : list Z := [
  0x4F01B887E8C62318; 0x52916F79F5D2A636; 0x357B0CA38E9BBC60; 0x57FE4B2EC2D7E01D;
  0xDA4AF09FE5377715; 0x856BA0B10A29C958; 0x67053ECBF4105DBD; 0xD8957DA78B4127E4;
  0x9E4717DD667CEEFB; 0x33835AAD07BF2DCA].

Definition plain_T : list (list Z) :=
  [plain_T0; plain_T1; plain_T2; plain_T3; plain_T4; plain_T5; plain_T6; plain_T7].
