(* ===== verification/WhirlpoolOld0.v ===== *)
(** * The lookup tables of the first version, Whirlpool-0 (pseudo-random S-box)
    ([crypto/ghostrider/sph_whirlpool.c]): the eight tables of 256 words that
    merge the S-box with the diffusion matrix, and the ten round constants.
    [Whirlpool] proves what they contain. *)
From S2P Require Import Prelude.

Definition old0_T0 : list Z := [
  0xD50F67D568B86868; 0xB71ECEB7D06DD0D0; 0x60E00B60EB20EBEB; 0x876E45872B7D2B2B;
  0x75327A7548D84848; 0xD3019CD39DBA9D9D; 0xDF1D77DF6ABE6A6A; 0x53977353E431E4E4;
  0x48A84B48E338E3E3; 0x15D27115A3F8A3A3; 0x13DC8A1356FA5656; 0xBFFD7CBF819E8181;
  0x94B2CF947D877D7D; 0x122ADB12F10EF1F1; 0xABD95CAB85928585; 0xDC1A84DC9EBF9E9E;
  0x9C517D9C2C742C2C; 0x8C8A048C8E8F8E8E; 0x859FE78578887878; 0xC5D41EC5CA43CACA;
  0x4BAFB84B17391717; 0x37882137A9E6A9A9; 0xF84E2FF861A36161; 0xA633E6A6D562D5D5;
  0x348FD2345DE75D5D; 0x275358270B1D0B0B; 0x869814868C898C8C; 0xCCC1FDCC3C443C3C;
  0xB6E89FB677997777; 0x08E3B20851F35151; 0xAA2F0DAA22662222; 0x57682A5742C64242;
  0xC3DAE5C33F413F3F; 0x19CE9A1954FC5454; 0x5873325841C34141; 0xBAF474BA809D8080;
  0xDBE22EDBCC49CCCC; 0xA4C244A486978686; 0x4542F145B3C8B3B3; 0x78D8C07818281818;
  0x96436D962E722E2E; 0x16D5821657F95757; 0x1E36301E060A0606; 0xF75537F762A66262;
  0x0307F303F401F4F4; 0xEE9BADEE365A3636; 0xB217C6B2D16ED1D1; 0xDA147FDA6BBD6B6B;
  0x77C3D8771B2D1B1B; 0xEC6A0FEC65AF6565; 0xBCFA8FBC759F7575; 0x5090805010301010;
  0x95449E95DA73DADA; 0x703B727049DB4949; 0xBE0B2DBE266A2626; 0x3A629B3AF916F9F9;
  0xC0DD16C0CB40CBCB; 0xE37117E366AA6666; 0x5C8C6B5CE734E7E7; 0x6803B968BAD3BABA;
  0x2CB7192CAEEFAEAE; 0x0DEABA0D50F05050; 0x07F8AA0752F65252; 0x3D9A313DABE0ABAB;
  0x112D2811050F0505; 0x1723D317F00DF0F0; 0x396568390D170D0D; 0xA2CCBFA273957373;
  0xD7FEC5D73B4D3B3B; 0x14242014040C0404; 0xA03D1DA020602020; 0x215DA321FE1FFEFE;
  0x8E7BA68EDD7ADDDD; 0x060EFB06F502F5F5; 0x5E7DC95EB4C1B4B4; 0x3E9DC23E5FE15F5F;
  0x225A50220A1E0A0A; 0x5B74C15BB5C2B5B5; 0xE78E4EE7C05DC0C0; 0x1AC9691AA0FDA0A0;
  0xA8DEAFA871937171; 0x0BE4410BA5F2A5A5; 0x995875992D772D2D; 0xFD4727FD60A06060;
  0xA7C5B7A772967272; 0xE57FECE593A89393; 0xDDECD5DD394B3939; 0x2848402808180808;
  0xB5EF6CB583988383; 0xA53415A521632121; 0x3186DA315CE45C5C; 0xA1CB4CA187948787;
  0x4F50E14FB1CEB1B1; 0x47B35347E03DE0E0; 0x0000000000000000; 0xE89556E8C358C3C3;
  0x5A82905A12361212; 0xEF6DFCEF91AE9191; 0x98AE24988A838A8A; 0x0A12100A02060202;
  0x6CFCE06C1C241C1C; 0x59856359E637E6E6; 0x4C57124C45CF4545; 0xED9C5EEDC25BC2C2;
  0xF3AA6EF3C451C4C4; 0x2E46BB2EFD1AFDFD; 0x792E9179BFDCBFBF; 0x495E1A4944CC4444;
  0x1FC0611FA1FEA1A1; 0x61165A614CD44C4C; 0xFFB685FF33553333; 0xF6A366F6C552C5C5;
  0xAED054AE84918484; 0xAF2605AF23652323; 0x91BBC7917C847C7C; 0x4A59E94AB0CDB0B0;
  0xB11035B1256F2525; 0x41BDA841153F1515; 0xE180B5E1355F3535; 0xD0066FD069BB6969;
  0x2454AB24FF1CFFFF; 0xFE40D4FE94A19494; 0x641F52644DD74D4D; 0xADD7A7AD70907070;
  0x10DB7910A2FBA2A2; 0x29BE1129AFECAFAF; 0xDEEB26DECD4ACDCD; 0xA928FEA9D667D6D6;
  0xC12B47C16CB46C6C; 0x5166D151B7C4B7B7; 0x3F6B933FF815F8F8; 0x2D41482D091B0909;
  0x1838CB18F308F3F3; 0xE6781FE667A96767; 0x0EED490EA4F1A4A4; 0x65E90365EA23EAEA;
  0x7BDF337BEC29ECEC; 0x546FD954B6C7B6B6; 0xA33AEEA3D461D4D4; 0xBD0CDEBDD26BD2D2;
  0x44B4A044143C1414; 0x66EEF0661E221E1E; 0x42BA5B42E13EE1E1; 0xB4193DB4246C2424;
  0xD8E5DDD838483838; 0xF9B87EF9C657C6C6; 0x904D9690DB70DBDB; 0x7A29627A4BDD4B4B;
  0x8F8DF78F7A8E7A7A; 0xD2F7CDD23A4E3A3A; 0x8160BE81DE7FDEDE; 0x3B94CA3B5EE25E5E;
  0x8469B684DF7CDFDF; 0xFB49DCFB95A29595; 0x2B4FB32BFC19FCFC; 0x38933938AAE3AAAA;
  0xAC21F6ACD764D7D7; 0xD1F03ED1CE4FCECE; 0x1B3F381B07090707; 0x337778330F110F0F;
  0xC9C8F5C93D473D3D; 0x25A2FA2558E85858; 0xC83EA4C89AB39A9A; 0xC22CB4C298B59898;
  0xD60894D69CB99C9C; 0x1D31C31DF20BF2F2; 0x01F65101A7F4A7A7; 0x5599885511331111;
  0x9BA9D79B7E827E7E; 0x9DA72C9D8B808B8B; 0x5261225243C54343; 0x0F1B180F03050303;
  0x4DA1434DE23BE2E2; 0x8B72AE8BDC79DCDC; 0x569E7B56E532E5E5; 0x404BF940B2CBB2B2;
  0x6B044A6B4ED24E4E; 0xFCB176FCC754C7C7; 0xC4224FC46DB76D6D; 0x6AF21B6AE926E9E9;
  0xBB0225BB27692727; 0x5D7A3A5D40C04040; 0x9F568E9FD875D8D8; 0xEB92A5EB37593737;
  0xE076E4E092AB9292; 0x89830C898F8C8F8F; 0x0509080501030101; 0x69F5E8691D271D1D;
  0x02F1A20253F55353; 0xC6D3EDC63E423E3E; 0x20ABF22059EB5959; 0xE28746E2C15EC1C1;
  0x6E0D426E4FD14F4F; 0xFABF8DFA32563232; 0x4EA6B04E163A1616; 0x35798335FA13FAFA;
  0xB9F387B9749C7474; 0x30708B30FB10FBFB; 0xF25C3FF263A56363; 0xD9138CD99FBC9F9F;
  0xE489BDE4345C3434; 0x72CAD0721A2E1A1A; 0x82674D822A7E2A2A; 0x2FB0EA2F5AEE5A5A;
  0x83911C838D8A8D8D; 0xCACF06CAC946C9C9; 0xD4F936D4CF4CCFCF; 0x0915E309F607F6F6;
  0xEA64F4EA90AD9090; 0x88755D8828782828; 0x92BC349288858888; 0xCD37ACCD9BB09B9B;
  0xF5A495F531533131; 0x367E70360E120E0E; 0x733C8173BDDABDBD; 0x7F206A7F4ADE4A4A;
  0x6FFB136FE825E8E8; 0xF452C4F496A79696; 0x04FF5904A6F7A6A6; 0x3C6C603C0C140C0C;
  0xCFC60ECFC845C8C8; 0x8096EF80798B7979; 0x76358976BCD9BCBC; 0x7C27997CBEDFBEBE;
  0x74C42B74EF2CEFEF; 0xCB3957CB6EB26E6E; 0x434C0A4346CA4646; 0xF15BCCF197A49797;
  0x2AB9E22A5BED5B5B; 0x7ED63B7EED2AEDED; 0x7DD1C87D192B1919; 0x9A5F869AD976D9D9;
  0x26A50926ACE9ACAC; 0xC725BCC799B69999; 0x32812932A8E5A8A8; 0x8D7C558D297B2929;
  0xE96307E964AC6464; 0x63E7F8631F211F1F; 0x23AC0123ADEAADAD; 0x1CC7921C55FF5555;
  0x5F8B985F13351313; 0x6D0AB16DBBD0BBBB; 0x0C1CEB0CF704F7F7; 0xCE305FCE6FB16F6F;
  0x6718A167B9D6B9B9; 0x4645024647C94747; 0x934A65932F712F2F; 0x71CD2371EE2FEEEE;
  0x6211A962B8D5B8B8; 0x8A84FF8A7B8D7B7B; 0x97B53C9789868989; 0xF0AD9DF030503030;
  0xB805D6B8D368D3D3; 0x9EA0DF9E7F817F7F; 0xB3E197B3769A7676; 0xB0E664B0829B8282].

Definition old0_T1 : list Z := [
  0x0F67D568B86868D5; 0x1ECEB7D06DD0D0B7; 0xE00B60EB20EBEB60; 0x6E45872B7D2B2B87;
  0x327A7548D8484875; 0x019CD39DBA9D9DD3; 0x1D77DF6ABE6A6ADF; 0x977353E431E4E453;
  0xA84B48E338E3E348; 0xD27115A3F8A3A315; 0xDC8A1356FA565613; 0xFD7CBF819E8181BF;
  0xB2CF947D877D7D94; 0x2ADB12F10EF1F112; 0xD95CAB85928585AB; 0x1A84DC9EBF9E9EDC;
  0x517D9C2C742C2C9C; 0x8A048C8E8F8E8E8C; 0x9FE7857888787885; 0xD41EC5CA43CACAC5;
  0xAFB84B173917174B; 0x882137A9E6A9A937; 0x4E2FF861A36161F8; 0x33E6A6D562D5D5A6;
  0x8FD2345DE75D5D34; 0x5358270B1D0B0B27; 0x9814868C898C8C86; 0xC1FDCC3C443C3CCC;
  0xE89FB677997777B6; 0xE3B20851F3515108; 0x2F0DAA22662222AA; 0x682A5742C6424257;
  0xDAE5C33F413F3FC3; 0xCE9A1954FC545419; 0x73325841C3414158; 0xF474BA809D8080BA;
  0xE22EDBCC49CCCCDB; 0xC244A486978686A4; 0x42F145B3C8B3B345; 0xD8C0781828181878;
  0x436D962E722E2E96; 0xD5821657F9575716; 0x36301E060A06061E; 0x5537F762A66262F7;
  0x07F303F401F4F403; 0x9BADEE365A3636EE; 0x17C6B2D16ED1D1B2; 0x147FDA6BBD6B6BDA;
  0xC3D8771B2D1B1B77; 0x6A0FEC65AF6565EC; 0xFA8FBC759F7575BC; 0x9080501030101050;
  0x449E95DA73DADA95; 0x3B727049DB494970; 0x0B2DBE266A2626BE; 0x629B3AF916F9F93A;
  0xDD16C0CB40CBCBC0; 0x7117E366AA6666E3; 0x8C6B5CE734E7E75C; 0x03B968BAD3BABA68;
  0xB7192CAEEFAEAE2C; 0xEABA0D50F050500D; 0xF8AA0752F6525207; 0x9A313DABE0ABAB3D;
  0x2D2811050F050511; 0x23D317F00DF0F017; 0x6568390D170D0D39; 0xCCBFA273957373A2;
  0xFEC5D73B4D3B3BD7; 0x242014040C040414; 0x3D1DA020602020A0; 0x5DA321FE1FFEFE21;
  0x7BA68EDD7ADDDD8E; 0x0EFB06F502F5F506; 0x7DC95EB4C1B4B45E; 0x9DC23E5FE15F5F3E;
  0x5A50220A1E0A0A22; 0x74C15BB5C2B5B55B; 0x8E4EE7C05DC0C0E7; 0xC9691AA0FDA0A01A;
  0xDEAFA871937171A8; 0xE4410BA5F2A5A50B; 0x5875992D772D2D99; 0x4727FD60A06060FD;
  0xC5B7A772967272A7; 0x7FECE593A89393E5; 0xECD5DD394B3939DD; 0x4840280818080828;
  0xEF6CB583988383B5; 0x3415A521632121A5; 0x86DA315CE45C5C31; 0xCB4CA187948787A1;
  0x50E14FB1CEB1B14F; 0xB35347E03DE0E047; 0x0000000000000000; 0x9556E8C358C3C3E8;
  0x82905A123612125A; 0x6DFCEF91AE9191EF; 0xAE24988A838A8A98; 0x12100A020602020A;
  0xFCE06C1C241C1C6C; 0x856359E637E6E659; 0x57124C45CF45454C; 0x9C5EEDC25BC2C2ED;
  0xAA6EF3C451C4C4F3; 0x46BB2EFD1AFDFD2E; 0x2E9179BFDCBFBF79; 0x5E1A4944CC444449;
  0xC0611FA1FEA1A11F; 0x165A614CD44C4C61; 0xB685FF33553333FF; 0xA366F6C552C5C5F6;
  0xD054AE84918484AE; 0x2605AF23652323AF; 0xBBC7917C847C7C91; 0x59E94AB0CDB0B04A;
  0x1035B1256F2525B1; 0xBDA841153F151541; 0x80B5E1355F3535E1; 0x066FD069BB6969D0;
  0x54AB24FF1CFFFF24; 0x40D4FE94A19494FE; 0x1F52644DD74D4D64; 0xD7A7AD70907070AD;
  0xDB7910A2FBA2A210; 0xBE1129AFECAFAF29; 0xEB26DECD4ACDCDDE; 0x28FEA9D667D6D6A9;
  0x2B47C16CB46C6CC1; 0x66D151B7C4B7B751; 0x6B933FF815F8F83F; 0x41482D091B09092D;
  0x38CB18F308F3F318; 0x781FE667A96767E6; 0xED490EA4F1A4A40E; 0xE90365EA23EAEA65;
  0xDF337BEC29ECEC7B; 0x6FD954B6C7B6B654; 0x3AEEA3D461D4D4A3; 0x0CDEBDD26BD2D2BD;
  0xB4A044143C141444; 0xEEF0661E221E1E66; 0xBA5B42E13EE1E142; 0x193DB4246C2424B4;
  0xE5DDD838483838D8; 0xB87EF9C657C6C6F9; 0x4D9690DB70DBDB90; 0x29627A4BDD4B4B7A;
  0x8DF78F7A8E7A7A8F; 0xF7CDD23A4E3A3AD2; 0x60BE81DE7FDEDE81; 0x94CA3B5EE25E5E3B;
  0x69B684DF7CDFDF84; 0x49DCFB95A29595FB; 0x4FB32BFC19FCFC2B; 0x933938AAE3AAAA38;
  0x21F6ACD764D7D7AC; 0xF03ED1CE4FCECED1; 0x3F381B070907071B; 0x7778330F110F0F33;
  0xC8F5C93D473D3DC9; 0xA2FA2558E8585825; 0x3EA4C89AB39A9AC8; 0x2CB4C298B59898C2;
  0x0894D69CB99C9CD6; 0x31C31DF20BF2F21D; 0xF65101A7F4A7A701; 0x9988551133111155;
  0xA9D79B7E827E7E9B; 0xA72C9D8B808B8B9D; 0x61225243C5434352; 0x1B180F030503030F;
  0xA1434DE23BE2E24D; 0x72AE8BDC79DCDC8B; 0x9E7B56E532E5E556; 0x4BF940B2CBB2B240;
  0x044A6B4ED24E4E6B; 0xB176FCC754C7C7FC; 0x224FC46DB76D6DC4; 0xF21B6AE926E9E96A;
  0x0225BB27692727BB; 0x7A3A5D40C040405D; 0x568E9FD875D8D89F; 0x92A5EB37593737EB;
  0x76E4E092AB9292E0; 0x830C898F8C8F8F89; 0x0908050103010105; 0xF5E8691D271D1D69;
  0xF1A20253F5535302; 0xD3EDC63E423E3EC6; 0xABF22059EB595920; 0x8746E2C15EC1C1E2;
  0x0D426E4FD14F4F6E; 0xBF8DFA32563232FA; 0xA6B04E163A16164E; 0x798335FA13FAFA35;
  0xF387B9749C7474B9; 0x708B30FB10FBFB30; 0x5C3FF263A56363F2; 0x138CD99FBC9F9FD9;
  0x89BDE4345C3434E4; 0xCAD0721A2E1A1A72; 0x674D822A7E2A2A82; 0xB0EA2F5AEE5A5A2F;
  0x911C838D8A8D8D83; 0xCF06CAC946C9C9CA; 0xF936D4CF4CCFCFD4; 0x15E309F607F6F609;
  0x64F4EA90AD9090EA; 0x755D882878282888; 0xBC34928885888892; 0x37ACCD9BB09B9BCD;
  0xA495F531533131F5; 0x7E70360E120E0E36; 0x3C8173BDDABDBD73; 0x206A7F4ADE4A4A7F;
  0xFB136FE825E8E86F; 0x52C4F496A79696F4; 0xFF5904A6F7A6A604; 0x6C603C0C140C0C3C;
  0xC60ECFC845C8C8CF; 0x96EF80798B797980; 0x358976BCD9BCBC76; 0x27997CBEDFBEBE7C;
  0xC42B74EF2CEFEF74; 0x3957CB6EB26E6ECB; 0x4C0A4346CA464643; 0x5BCCF197A49797F1;
  0xB9E22A5BED5B5B2A; 0xD63B7EED2AEDED7E; 0xD1C87D192B19197D; 0x5F869AD976D9D99A;
  0xA50926ACE9ACAC26; 0x25BCC799B69999C7; 0x812932A8E5A8A832; 0x7C558D297B29298D;
  0x6307E964AC6464E9; 0xE7F8631F211F1F63; 0xAC0123ADEAADAD23; 0xC7921C55FF55551C;
  0x8B985F133513135F; 0x0AB16DBBD0BBBB6D; 0x1CEB0CF704F7F70C; 0x305FCE6FB16F6FCE;
  0x18A167B9D6B9B967; 0x45024647C9474746; 0x4A65932F712F2F93; 0xCD2371EE2FEEEE71;
  0x11A962B8D5B8B862; 0x84FF8A7B8D7B7B8A; 0xB53C978986898997; 0xAD9DF030503030F0;
  0x05D6B8D368D3D3B8; 0xA0DF9E7F817F7F9E; 0xE197B3769A7676B3; 0xE664B0829B8282B0].

Definition old0_T2 : list Z := [
  0x67D568B86868D50F; 0xCEB7D06DD0D0B71E; 0x0B60EB20EBEB60E0; 0x45872B7D2B2B876E;
  0x7A7548D848487532; 0x9CD39DBA9D9DD301; 0x77DF6ABE6A6ADF1D; 0x7353E431E4E45397;
  0x4B48E338E3E348A8; 0x7115A3F8A3A315D2; 0x8A1356FA565613DC; 0x7CBF819E8181BFFD;
  0xCF947D877D7D94B2; 0xDB12F10EF1F1122A; 0x5CAB85928585ABD9; 0x84DC9EBF9E9EDC1A;
  0x7D9C2C742C2C9C51; 0x048C8E8F8E8E8C8A; 0xE78578887878859F; 0x1EC5CA43CACAC5D4;
  0xB84B173917174BAF; 0x2137A9E6A9A93788; 0x2FF861A36161F84E; 0xE6A6D562D5D5A633;
  0xD2345DE75D5D348F; 0x58270B1D0B0B2753; 0x14868C898C8C8698; 0xFDCC3C443C3CCCC1;
  0x9FB677997777B6E8; 0xB20851F3515108E3; 0x0DAA22662222AA2F; 0x2A5742C642425768;
  0xE5C33F413F3FC3DA; 0x9A1954FC545419CE; 0x325841C341415873; 0x74BA809D8080BAF4;
  0x2EDBCC49CCCCDBE2; 0x44A486978686A4C2; 0xF145B3C8B3B34542; 0xC0781828181878D8;
  0x6D962E722E2E9643; 0x821657F9575716D5; 0x301E060A06061E36; 0x37F762A66262F755;
  0xF303F401F4F40307; 0xADEE365A3636EE9B; 0xC6B2D16ED1D1B217; 0x7FDA6BBD6B6BDA14;
  0xD8771B2D1B1B77C3; 0x0FEC65AF6565EC6A; 0x8FBC759F7575BCFA; 0x8050103010105090;
  0x9E95DA73DADA9544; 0x727049DB4949703B; 0x2DBE266A2626BE0B; 0x9B3AF916F9F93A62;
  0x16C0CB40CBCBC0DD; 0x17E366AA6666E371; 0x6B5CE734E7E75C8C; 0xB968BAD3BABA6803;
  0x192CAEEFAEAE2CB7; 0xBA0D50F050500DEA; 0xAA0752F6525207F8; 0x313DABE0ABAB3D9A;
  0x2811050F0505112D; 0xD317F00DF0F01723; 0x68390D170D0D3965; 0xBFA273957373A2CC;
  0xC5D73B4D3B3BD7FE; 0x2014040C04041424; 0x1DA020602020A03D; 0xA321FE1FFEFE215D;
  0xA68EDD7ADDDD8E7B; 0xFB06F502F5F5060E; 0xC95EB4C1B4B45E7D; 0xC23E5FE15F5F3E9D;
  0x50220A1E0A0A225A; 0xC15BB5C2B5B55B74; 0x4EE7C05DC0C0E78E; 0x691AA0FDA0A01AC9;
  0xAFA871937171A8DE; 0x410BA5F2A5A50BE4; 0x75992D772D2D9958; 0x27FD60A06060FD47;
  0xB7A772967272A7C5; 0xECE593A89393E57F; 0xD5DD394B3939DDEC; 0x4028081808082848;
  0x6CB583988383B5EF; 0x15A521632121A534; 0xDA315CE45C5C3186; 0x4CA187948787A1CB;
  0xE14FB1CEB1B14F50; 0x5347E03DE0E047B3; 0x0000000000000000; 0x56E8C358C3C3E895;
  0x905A123612125A82; 0xFCEF91AE9191EF6D; 0x24988A838A8A98AE; 0x100A020602020A12;
  0xE06C1C241C1C6CFC; 0x6359E637E6E65985; 0x124C45CF45454C57; 0x5EEDC25BC2C2ED9C;
  0x6EF3C451C4C4F3AA; 0xBB2EFD1AFDFD2E46; 0x9179BFDCBFBF792E; 0x1A4944CC4444495E;
  0x611FA1FEA1A11FC0; 0x5A614CD44C4C6116; 0x85FF33553333FFB6; 0x66F6C552C5C5F6A3;
  0x54AE84918484AED0; 0x05AF23652323AF26; 0xC7917C847C7C91BB; 0xE94AB0CDB0B04A59;
  0x35B1256F2525B110; 0xA841153F151541BD; 0xB5E1355F3535E180; 0x6FD069BB6969D006;
  0xAB24FF1CFFFF2454; 0xD4FE94A19494FE40; 0x52644DD74D4D641F; 0xA7AD70907070ADD7;
  0x7910A2FBA2A210DB; 0x1129AFECAFAF29BE; 0x26DECD4ACDCDDEEB; 0xFEA9D667D6D6A928;
  0x47C16CB46C6CC12B; 0xD151B7C4B7B75166; 0x933FF815F8F83F6B; 0x482D091B09092D41;
  0xCB18F308F3F31838; 0x1FE667A96767E678; 0x490EA4F1A4A40EED; 0x0365EA23EAEA65E9;
  0x337BEC29ECEC7BDF; 0xD954B6C7B6B6546F; 0xEEA3D461D4D4A33A; 0xDEBDD26BD2D2BD0C;
  0xA044143C141444B4; 0xF0661E221E1E66EE; 0x5B42E13EE1E142BA; 0x3DB4246C2424B419;
  0xDDD838483838D8E5; 0x7EF9C657C6C6F9B8; 0x9690DB70DBDB904D; 0x627A4BDD4B4B7A29;
  0xF78F7A8E7A7A8F8D; 0xCDD23A4E3A3AD2F7; 0xBE81DE7FDEDE8160; 0xCA3B5EE25E5E3B94;
  0xB684DF7CDFDF8469; 0xDCFB95A29595FB49; 0xB32BFC19FCFC2B4F; 0x3938AAE3AAAA3893;
  0xF6ACD764D7D7AC21; 0x3ED1CE4FCECED1F0; 0x381B070907071B3F; 0x78330F110F0F3377;
  0xF5C93D473D3DC9C8; 0xFA2558E8585825A2; 0xA4C89AB39A9AC83E; 0xB4C298B59898C22C;
  0x94D69CB99C9CD608; 0xC31DF20BF2F21D31; 0x5101A7F4A7A701F6; 0x8855113311115599;
  0xD79B7E827E7E9BA9; 0x2C9D8B808B8B9DA7; 0x225243C543435261; 0x180F030503030F1B;
  0x434DE23BE2E24DA1; 0xAE8BDC79DCDC8B72; 0x7B56E532E5E5569E; 0xF940B2CBB2B2404B;
  0x4A6B4ED24E4E6B04; 0x76FCC754C7C7FCB1; 0x4FC46DB76D6DC422; 0x1B6AE926E9E96AF2;
  0x25BB27692727BB02; 0x3A5D40C040405D7A; 0x8E9FD875D8D89F56; 0xA5EB37593737EB92;
  0xE4E092AB9292E076; 0x0C898F8C8F8F8983; 0x0805010301010509; 0xE8691D271D1D69F5;
  0xA20253F5535302F1; 0xEDC63E423E3EC6D3; 0xF22059EB595920AB; 0x46E2C15EC1C1E287;
  0x426E4FD14F4F6E0D; 0x8DFA32563232FABF; 0xB04E163A16164EA6; 0x8335FA13FAFA3579;
  0x87B9749C7474B9F3; 0x8B30FB10FBFB3070; 0x3FF263A56363F25C; 0x8CD99FBC9F9FD913;
  0xBDE4345C3434E489; 0xD0721A2E1A1A72CA; 0x4D822A7E2A2A8267; 0xEA2F5AEE5A5A2FB0;
  0x1C838D8A8D8D8391; 0x06CAC946C9C9CACF; 0x36D4CF4CCFCFD4F9; 0xE309F607F6F60915;
  0xF4EA90AD9090EA64; 0x5D88287828288875; 0x34928885888892BC; 0xACCD9BB09B9BCD37;
  0x95F531533131F5A4; 0x70360E120E0E367E; 0x8173BDDABDBD733C; 0x6A7F4ADE4A4A7F20;
  0x136FE825E8E86FFB; 0xC4F496A79696F452; 0x5904A6F7A6A604FF; 0x603C0C140C0C3C6C;
  0x0ECFC845C8C8CFC6; 0xEF80798B79798096; 0x8976BCD9BCBC7635; 0x997CBEDFBEBE7C27;
  0x2B74EF2CEFEF74C4; 0x57CB6EB26E6ECB39; 0x0A4346CA4646434C; 0xCCF197A49797F15B;
  0xE22A5BED5B5B2AB9; 0x3B7EED2AEDED7ED6; 0xC87D192B19197DD1; 0x869AD976D9D99A5F;
  0x0926ACE9ACAC26A5; 0xBCC799B69999C725; 0x2932A8E5A8A83281; 0x558D297B29298D7C;
  0x07E964AC6464E963; 0xF8631F211F1F63E7; 0x0123ADEAADAD23AC; 0x921C55FF55551CC7;
  0x985F133513135F8B; 0xB16DBBD0BBBB6D0A; 0xEB0CF704F7F70C1C; 0x5FCE6FB16F6FCE30;
  0xA167B9D6B9B96718; 0x024647C947474645; 0x65932F712F2F934A; 0x2371EE2FEEEE71CD;
  0xA962B8D5B8B86211; 0xFF8A7B8D7B7B8A84; 0x3C978986898997B5; 0x9DF030503030F0AD;
  0xD6B8D368D3D3B805; 0xDF9E7F817F7F9EA0; 0x97B3769A7676B3E1; 0x64B0829B8282B0E6].

Definition old0_T3 : list Z := [
  0xD568B86868D50F67; 0xB7D06DD0D0B71ECE; 0x60EB20EBEB60E00B; 0x872B7D2B2B876E45;
  0x7548D8484875327A; 0xD39DBA9D9DD3019C; 0xDF6ABE6A6ADF1D77; 0x53E431E4E4539773;
  0x48E338E3E348A84B; 0x15A3F8A3A315D271; 0x1356FA565613DC8A; 0xBF819E8181BFFD7C;
  0x947D877D7D94B2CF; 0x12F10EF1F1122ADB; 0xAB85928585ABD95C; 0xDC9EBF9E9EDC1A84;
  0x9C2C742C2C9C517D; 0x8C8E8F8E8E8C8A04; 0x8578887878859FE7; 0xC5CA43CACAC5D41E;
  0x4B173917174BAFB8; 0x37A9E6A9A9378821; 0xF861A36161F84E2F; 0xA6D562D5D5A633E6;
  0x345DE75D5D348FD2; 0x270B1D0B0B275358; 0x868C898C8C869814; 0xCC3C443C3CCCC1FD;
  0xB677997777B6E89F; 0x0851F3515108E3B2; 0xAA22662222AA2F0D; 0x5742C6424257682A;
  0xC33F413F3FC3DAE5; 0x1954FC545419CE9A; 0x5841C34141587332; 0xBA809D8080BAF474;
  0xDBCC49CCCCDBE22E; 0xA486978686A4C244; 0x45B3C8B3B34542F1; 0x781828181878D8C0;
  0x962E722E2E96436D; 0x1657F9575716D582; 0x1E060A06061E3630; 0xF762A66262F75537;
  0x03F401F4F40307F3; 0xEE365A3636EE9BAD; 0xB2D16ED1D1B217C6; 0xDA6BBD6B6BDA147F;
  0x771B2D1B1B77C3D8; 0xEC65AF6565EC6A0F; 0xBC759F7575BCFA8F; 0x5010301010509080;
  0x95DA73DADA95449E; 0x7049DB4949703B72; 0xBE266A2626BE0B2D; 0x3AF916F9F93A629B;
  0xC0CB40CBCBC0DD16; 0xE366AA6666E37117; 0x5CE734E7E75C8C6B; 0x68BAD3BABA6803B9;
  0x2CAEEFAEAE2CB719; 0x0D50F050500DEABA; 0x0752F6525207F8AA; 0x3DABE0ABAB3D9A31;
  0x11050F0505112D28; 0x17F00DF0F01723D3; 0x390D170D0D396568; 0xA273957373A2CCBF;
  0xD73B4D3B3BD7FEC5; 0x14040C0404142420; 0xA020602020A03D1D; 0x21FE1FFEFE215DA3;
  0x8EDD7ADDDD8E7BA6; 0x06F502F5F5060EFB; 0x5EB4C1B4B45E7DC9; 0x3E5FE15F5F3E9DC2;
  0x220A1E0A0A225A50; 0x5BB5C2B5B55B74C1; 0xE7C05DC0C0E78E4E; 0x1AA0FDA0A01AC969;
  0xA871937171A8DEAF; 0x0BA5F2A5A50BE441; 0x992D772D2D995875; 0xFD60A06060FD4727;
  0xA772967272A7C5B7; 0xE593A89393E57FEC; 0xDD394B3939DDECD5; 0x2808180808284840;
  0xB583988383B5EF6C; 0xA521632121A53415; 0x315CE45C5C3186DA; 0xA187948787A1CB4C;
  0x4FB1CEB1B14F50E1; 0x47E03DE0E047B353; 0x0000000000000000; 0xE8C358C3C3E89556;
  0x5A123612125A8290; 0xEF91AE9191EF6DFC; 0x988A838A8A98AE24; 0x0A020602020A1210;
  0x6C1C241C1C6CFCE0; 0x59E637E6E6598563; 0x4C45CF45454C5712; 0xEDC25BC2C2ED9C5E;
  0xF3C451C4C4F3AA6E; 0x2EFD1AFDFD2E46BB; 0x79BFDCBFBF792E91; 0x4944CC4444495E1A;
  0x1FA1FEA1A11FC061; 0x614CD44C4C61165A; 0xFF33553333FFB685; 0xF6C552C5C5F6A366;
  0xAE84918484AED054; 0xAF23652323AF2605; 0x917C847C7C91BBC7; 0x4AB0CDB0B04A59E9;
  0xB1256F2525B11035; 0x41153F151541BDA8; 0xE1355F3535E180B5; 0xD069BB6969D0066F;
  0x24FF1CFFFF2454AB; 0xFE94A19494FE40D4; 0x644DD74D4D641F52; 0xAD70907070ADD7A7;
  0x10A2FBA2A210DB79; 0x29AFECAFAF29BE11; 0xDECD4ACDCDDEEB26; 0xA9D667D6D6A928FE;
  0xC16CB46C6CC12B47; 0x51B7C4B7B75166D1; 0x3FF815F8F83F6B93; 0x2D091B09092D4148;
  0x18F308F3F31838CB; 0xE667A96767E6781F; 0x0EA4F1A4A40EED49; 0x65EA23EAEA65E903;
  0x7BEC29ECEC7BDF33; 0x54B6C7B6B6546FD9; 0xA3D461D4D4A33AEE; 0xBDD26BD2D2BD0CDE;
  0x44143C141444B4A0; 0x661E221E1E66EEF0; 0x42E13EE1E142BA5B; 0xB4246C2424B4193D;
  0xD838483838D8E5DD; 0xF9C657C6C6F9B87E; 0x90DB70DBDB904D96; 0x7A4BDD4B4B7A2962;
  0x8F7A8E7A7A8F8DF7; 0xD23A4E3A3AD2F7CD; 0x81DE7FDEDE8160BE; 0x3B5EE25E5E3B94CA;
  0x84DF7CDFDF8469B6; 0xFB95A29595FB49DC; 0x2BFC19FCFC2B4FB3; 0x38AAE3AAAA389339;
  0xACD764D7D7AC21F6; 0xD1CE4FCECED1F03E; 0x1B070907071B3F38; 0x330F110F0F337778;
  0xC93D473D3DC9C8F5; 0x2558E8585825A2FA; 0xC89AB39A9AC83EA4; 0xC298B59898C22CB4;
  0xD69CB99C9CD60894; 0x1DF20BF2F21D31C3; 0x01A7F4A7A701F651; 0x5511331111559988;
  0x9B7E827E7E9BA9D7; 0x9D8B808B8B9DA72C; 0x5243C54343526122; 0x0F030503030F1B18;
  0x4DE23BE2E24DA143; 0x8BDC79DCDC8B72AE; 0x56E532E5E5569E7B; 0x40B2CBB2B2404BF9;
  0x6B4ED24E4E6B044A; 0xFCC754C7C7FCB176; 0xC46DB76D6DC4224F; 0x6AE926E9E96AF21B;
  0xBB27692727BB0225; 0x5D40C040405D7A3A; 0x9FD875D8D89F568E; 0xEB37593737EB92A5;
  0xE092AB9292E076E4; 0x898F8C8F8F89830C; 0x0501030101050908; 0x691D271D1D69F5E8;
  0x0253F5535302F1A2; 0xC63E423E3EC6D3ED; 0x2059EB595920ABF2; 0xE2C15EC1C1E28746;
  0x6E4FD14F4F6E0D42; 0xFA32563232FABF8D; 0x4E163A16164EA6B0; 0x35FA13FAFA357983;
  0xB9749C7474B9F387; 0x30FB10FBFB30708B; 0xF263A56363F25C3F; 0xD99FBC9F9FD9138C;
  0xE4345C3434E489BD; 0x721A2E1A1A72CAD0; 0x822A7E2A2A82674D; 0x2F5AEE5A5A2FB0EA;
  0x838D8A8D8D83911C; 0xCAC946C9C9CACF06; 0xD4CF4CCFCFD4F936; 0x09F607F6F60915E3;
  0xEA90AD9090EA64F4; 0x882878282888755D; 0x928885888892BC34; 0xCD9BB09B9BCD37AC;
  0xF531533131F5A495; 0x360E120E0E367E70; 0x73BDDABDBD733C81; 0x7F4ADE4A4A7F206A;
  0x6FE825E8E86FFB13; 0xF496A79696F452C4; 0x04A6F7A6A604FF59; 0x3C0C140C0C3C6C60;
  0xCFC845C8C8CFC60E; 0x80798B79798096EF; 0x76BCD9BCBC763589; 0x7CBEDFBEBE7C2799;
  0x74EF2CEFEF74C42B; 0xCB6EB26E6ECB3957; 0x4346CA4646434C0A; 0xF197A49797F15BCC;
  0x2A5BED5B5B2AB9E2; 0x7EED2AEDED7ED63B; 0x7D192B19197DD1C8; 0x9AD976D9D99A5F86;
  0x26ACE9ACAC26A509; 0xC799B69999C725BC; 0x32A8E5A8A8328129; 0x8D297B29298D7C55;
  0xE964AC6464E96307; 0x631F211F1F63E7F8; 0x23ADEAADAD23AC01; 0x1C55FF55551CC792;
  0x5F133513135F8B98; 0x6DBBD0BBBB6D0AB1; 0x0CF704F7F70C1CEB; 0xCE6FB16F6FCE305F;
  0x67B9D6B9B96718A1; 0x4647C94747464502; 0x932F712F2F934A65; 0x71EE2FEEEE71CD23;
  0x62B8D5B8B86211A9; 0x8A7B8D7B7B8A84FF; 0x978986898997B53C; 0xF030503030F0AD9D;
  0xB8D368D3D3B805D6; 0x9E7F817F7F9EA0DF; 0xB3769A7676B3E197; 0xB0829B8282B0E664].

Definition old0_T4 : list Z := [
  0x68B86868D50F67D5; 0xD06DD0D0B71ECEB7; 0xEB20EBEB60E00B60; 0x2B7D2B2B876E4587;
  0x48D8484875327A75; 0x9DBA9D9DD3019CD3; 0x6ABE6A6ADF1D77DF; 0xE431E4E453977353;
  0xE338E3E348A84B48; 0xA3F8A3A315D27115; 0x56FA565613DC8A13; 0x819E8181BFFD7CBF;
  0x7D877D7D94B2CF94; 0xF10EF1F1122ADB12; 0x85928585ABD95CAB; 0x9EBF9E9EDC1A84DC;
  0x2C742C2C9C517D9C; 0x8E8F8E8E8C8A048C; 0x78887878859FE785; 0xCA43CACAC5D41EC5;
  0x173917174BAFB84B; 0xA9E6A9A937882137; 0x61A36161F84E2FF8; 0xD562D5D5A633E6A6;
  0x5DE75D5D348FD234; 0x0B1D0B0B27535827; 0x8C898C8C86981486; 0x3C443C3CCCC1FDCC;
  0x77997777B6E89FB6; 0x51F3515108E3B208; 0x22662222AA2F0DAA; 0x42C6424257682A57;
  0x3F413F3FC3DAE5C3; 0x54FC545419CE9A19; 0x41C3414158733258; 0x809D8080BAF474BA;
  0xCC49CCCCDBE22EDB; 0x86978686A4C244A4; 0xB3C8B3B34542F145; 0x1828181878D8C078;
  0x2E722E2E96436D96; 0x57F9575716D58216; 0x060A06061E36301E; 0x62A66262F75537F7;
  0xF401F4F40307F303; 0x365A3636EE9BADEE; 0xD16ED1D1B217C6B2; 0x6BBD6B6BDA147FDA;
  0x1B2D1B1B77C3D877; 0x65AF6565EC6A0FEC; 0x759F7575BCFA8FBC; 0x1030101050908050;
  0xDA73DADA95449E95; 0x49DB4949703B7270; 0x266A2626BE0B2DBE; 0xF916F9F93A629B3A;
  0xCB40CBCBC0DD16C0; 0x66AA6666E37117E3; 0xE734E7E75C8C6B5C; 0xBAD3BABA6803B968;
  0xAEEFAEAE2CB7192C; 0x50F050500DEABA0D; 0x52F6525207F8AA07; 0xABE0ABAB3D9A313D;
  0x050F0505112D2811; 0xF00DF0F01723D317; 0x0D170D0D39656839; 0x73957373A2CCBFA2;
  0x3B4D3B3BD7FEC5D7; 0x040C040414242014; 0x20602020A03D1DA0; 0xFE1FFEFE215DA321;
  0xDD7ADDDD8E7BA68E; 0xF502F5F5060EFB06; 0xB4C1B4B45E7DC95E; 0x5FE15F5F3E9DC23E;
  0x0A1E0A0A225A5022; 0xB5C2B5B55B74C15B; 0xC05DC0C0E78E4EE7; 0xA0FDA0A01AC9691A;
  0x71937171A8DEAFA8; 0xA5F2A5A50BE4410B; 0x2D772D2D99587599; 0x60A06060FD4727FD;
  0x72967272A7C5B7A7; 0x93A89393E57FECE5; 0x394B3939DDECD5DD; 0x0818080828484028;
  0x83988383B5EF6CB5; 0x21632121A53415A5; 0x5CE45C5C3186DA31; 0x87948787A1CB4CA1;
  0xB1CEB1B14F50E14F; 0xE03DE0E047B35347; 0x0000000000000000; 0xC358C3C3E89556E8;
  0x123612125A82905A; 0x91AE9191EF6DFCEF; 0x8A838A8A98AE2498; 0x020602020A12100A;
  0x1C241C1C6CFCE06C; 0xE637E6E659856359; 0x45CF45454C57124C; 0xC25BC2C2ED9C5EED;
  0xC451C4C4F3AA6EF3; 0xFD1AFDFD2E46BB2E; 0xBFDCBFBF792E9179; 0x44CC4444495E1A49;
  0xA1FEA1A11FC0611F; 0x4CD44C4C61165A61; 0x33553333FFB685FF; 0xC552C5C5F6A366F6;
  0x84918484AED054AE; 0x23652323AF2605AF; 0x7C847C7C91BBC791; 0xB0CDB0B04A59E94A;
  0x256F2525B11035B1; 0x153F151541BDA841; 0x355F3535E180B5E1; 0x69BB6969D0066FD0;
  0xFF1CFFFF2454AB24; 0x94A19494FE40D4FE; 0x4DD74D4D641F5264; 0x70907070ADD7A7AD;
  0xA2FBA2A210DB7910; 0xAFECAFAF29BE1129; 0xCD4ACDCDDEEB26DE; 0xD667D6D6A928FEA9;
  0x6CB46C6CC12B47C1; 0xB7C4B7B75166D151; 0xF815F8F83F6B933F; 0x091B09092D41482D;
  0xF308F3F31838CB18; 0x67A96767E6781FE6; 0xA4F1A4A40EED490E; 0xEA23EAEA65E90365;
  0xEC29ECEC7BDF337B; 0xB6C7B6B6546FD954; 0xD461D4D4A33AEEA3; 0xD26BD2D2BD0CDEBD;
  0x143C141444B4A044; 0x1E221E1E66EEF066; 0xE13EE1E142BA5B42; 0x246C2424B4193DB4;
  0x38483838D8E5DDD8; 0xC657C6C6F9B87EF9; 0xDB70DBDB904D9690; 0x4BDD4B4B7A29627A;
  0x7A8E7A7A8F8DF78F; 0x3A4E3A3AD2F7CDD2; 0xDE7FDEDE8160BE81; 0x5EE25E5E3B94CA3B;
  0xDF7CDFDF8469B684; 0x95A29595FB49DCFB; 0xFC19FCFC2B4FB32B; 0xAAE3AAAA38933938;
  0xD764D7D7AC21F6AC; 0xCE4FCECED1F03ED1; 0x070907071B3F381B; 0x0F110F0F33777833;
  0x3D473D3DC9C8F5C9; 0x58E8585825A2FA25; 0x9AB39A9AC83EA4C8; 0x98B59898C22CB4C2;
  0x9CB99C9CD60894D6; 0xF20BF2F21D31C31D; 0xA7F4A7A701F65101; 0x1133111155998855;
  0x7E827E7E9BA9D79B; 0x8B808B8B9DA72C9D; 0x43C5434352612252; 0x030503030F1B180F;
  0xE23BE2E24DA1434D; 0xDC79DCDC8B72AE8B; 0xE532E5E5569E7B56; 0xB2CBB2B2404BF940;
  0x4ED24E4E6B044A6B; 0xC754C7C7FCB176FC; 0x6DB76D6DC4224FC4; 0xE926E9E96AF21B6A;
  0x27692727BB0225BB; 0x40C040405D7A3A5D; 0xD875D8D89F568E9F; 0x37593737EB92A5EB;
  0x92AB9292E076E4E0; 0x8F8C8F8F89830C89; 0x0103010105090805; 0x1D271D1D69F5E869;
  0x53F5535302F1A202; 0x3E423E3EC6D3EDC6; 0x59EB595920ABF220; 0xC15EC1C1E28746E2;
  0x4FD14F4F6E0D426E; 0x32563232FABF8DFA; 0x163A16164EA6B04E; 0xFA13FAFA35798335;
  0x749C7474B9F387B9; 0xFB10FBFB30708B30; 0x63A56363F25C3FF2; 0x9FBC9F9FD9138CD9;
  0x345C3434E489BDE4; 0x1A2E1A1A72CAD072; 0x2A7E2A2A82674D82; 0x5AEE5A5A2FB0EA2F;
  0x8D8A8D8D83911C83; 0xC946C9C9CACF06CA; 0xCF4CCFCFD4F936D4; 0xF607F6F60915E309;
  0x90AD9090EA64F4EA; 0x2878282888755D88; 0x8885888892BC3492; 0x9BB09B9BCD37ACCD;
  0x31533131F5A495F5; 0x0E120E0E367E7036; 0xBDDABDBD733C8173; 0x4ADE4A4A7F206A7F;
  0xE825E8E86FFB136F; 0x96A79696F452C4F4; 0xA6F7A6A604FF5904; 0x0C140C0C3C6C603C;
  0xC845C8C8CFC60ECF; 0x798B79798096EF80; 0xBCD9BCBC76358976; 0xBEDFBEBE7C27997C;
  0xEF2CEFEF74C42B74; 0x6EB26E6ECB3957CB; 0x46CA4646434C0A43; 0x97A49797F15BCCF1;
  0x5BED5B5B2AB9E22A; 0xED2AEDED7ED63B7E; 0x192B19197DD1C87D; 0xD976D9D99A5F869A;
  0xACE9ACAC26A50926; 0x99B69999C725BCC7; 0xA8E5A8A832812932; 0x297B29298D7C558D;
  0x64AC6464E96307E9; 0x1F211F1F63E7F863; 0xADEAADAD23AC0123; 0x55FF55551CC7921C;
  0x133513135F8B985F; 0xBBD0BBBB6D0AB16D; 0xF704F7F70C1CEB0C; 0x6FB16F6FCE305FCE;
  0xB9D6B9B96718A167; 0x47C9474746450246; 0x2F712F2F934A6593; 0xEE2FEEEE71CD2371;
  0xB8D5B8B86211A962; 0x7B8D7B7B8A84FF8A; 0x8986898997B53C97; 0x30503030F0AD9DF0;
  0xD368D3D3B805D6B8; 0x7F817F7F9EA0DF9E; 0x769A7676B3E197B3; 0x829B8282B0E664B0].

Definition old0_T5 : list Z := [
  0xB86868D50F67D568; 0x6DD0D0B71ECEB7D0; 0x20EBEB60E00B60EB; 0x7D2B2B876E45872B;
  0xD8484875327A7548; 0xBA9D9DD3019CD39D; 0xBE6A6ADF1D77DF6A; 0x31E4E453977353E4;
  0x38E3E348A84B48E3; 0xF8A3A315D27115A3; 0xFA565613DC8A1356; 0x9E8181BFFD7CBF81;
  0x877D7D94B2CF947D; 0x0EF1F1122ADB12F1; 0x928585ABD95CAB85; 0xBF9E9EDC1A84DC9E;
  0x742C2C9C517D9C2C; 0x8F8E8E8C8A048C8E; 0x887878859FE78578; 0x43CACAC5D41EC5CA;
  0x3917174BAFB84B17; 0xE6A9A937882137A9; 0xA36161F84E2FF861; 0x62D5D5A633E6A6D5;
  0xE75D5D348FD2345D; 0x1D0B0B275358270B; 0x898C8C869814868C; 0x443C3CCCC1FDCC3C;
  0x997777B6E89FB677; 0xF3515108E3B20851; 0x662222AA2F0DAA22; 0xC6424257682A5742;
  0x413F3FC3DAE5C33F; 0xFC545419CE9A1954; 0xC341415873325841; 0x9D8080BAF474BA80;
  0x49CCCCDBE22EDBCC; 0x978686A4C244A486; 0xC8B3B34542F145B3; 0x28181878D8C07818;
  0x722E2E96436D962E; 0xF9575716D5821657; 0x0A06061E36301E06; 0xA66262F75537F762;
  0x01F4F40307F303F4; 0x5A3636EE9BADEE36; 0x6ED1D1B217C6B2D1; 0xBD6B6BDA147FDA6B;
  0x2D1B1B77C3D8771B; 0xAF6565EC6A0FEC65; 0x9F7575BCFA8FBC75; 0x3010105090805010;
  0x73DADA95449E95DA; 0xDB4949703B727049; 0x6A2626BE0B2DBE26; 0x16F9F93A629B3AF9;
  0x40CBCBC0DD16C0CB; 0xAA6666E37117E366; 0x34E7E75C8C6B5CE7; 0xD3BABA6803B968BA;
  0xEFAEAE2CB7192CAE; 0xF050500DEABA0D50; 0xF6525207F8AA0752; 0xE0ABAB3D9A313DAB;
  0x0F0505112D281105; 0x0DF0F01723D317F0; 0x170D0D396568390D; 0x957373A2CCBFA273;
  0x4D3B3BD7FEC5D73B; 0x0C04041424201404; 0x602020A03D1DA020; 0x1FFEFE215DA321FE;
  0x7ADDDD8E7BA68EDD; 0x02F5F5060EFB06F5; 0xC1B4B45E7DC95EB4; 0xE15F5F3E9DC23E5F;
  0x1E0A0A225A50220A; 0xC2B5B55B74C15BB5; 0x5DC0C0E78E4EE7C0; 0xFDA0A01AC9691AA0;
  0x937171A8DEAFA871; 0xF2A5A50BE4410BA5; 0x772D2D995875992D; 0xA06060FD4727FD60;
  0x967272A7C5B7A772; 0xA89393E57FECE593; 0x4B3939DDECD5DD39; 0x1808082848402808;
  0x988383B5EF6CB583; 0x632121A53415A521; 0xE45C5C3186DA315C; 0x948787A1CB4CA187;
  0xCEB1B14F50E14FB1; 0x3DE0E047B35347E0; 0x0000000000000000; 0x58C3C3E89556E8C3;
  0x3612125A82905A12; 0xAE9191EF6DFCEF91; 0x838A8A98AE24988A; 0x0602020A12100A02;
  0x241C1C6CFCE06C1C; 0x37E6E659856359E6; 0xCF45454C57124C45; 0x5BC2C2ED9C5EEDC2;
  0x51C4C4F3AA6EF3C4; 0x1AFDFD2E46BB2EFD; 0xDCBFBF792E9179BF; 0xCC4444495E1A4944;
  0xFEA1A11FC0611FA1; 0xD44C4C61165A614C; 0x553333FFB685FF33; 0x52C5C5F6A366F6C5;
  0x918484AED054AE84; 0x652323AF2605AF23; 0x847C7C91BBC7917C; 0xCDB0B04A59E94AB0;
  0x6F2525B11035B125; 0x3F151541BDA84115; 0x5F3535E180B5E135; 0xBB6969D0066FD069;
  0x1CFFFF2454AB24FF; 0xA19494FE40D4FE94; 0xD74D4D641F52644D; 0x907070ADD7A7AD70;
  0xFBA2A210DB7910A2; 0xECAFAF29BE1129AF; 0x4ACDCDDEEB26DECD; 0x67D6D6A928FEA9D6;
  0xB46C6CC12B47C16C; 0xC4B7B75166D151B7; 0x15F8F83F6B933FF8; 0x1B09092D41482D09;
  0x08F3F31838CB18F3; 0xA96767E6781FE667; 0xF1A4A40EED490EA4; 0x23EAEA65E90365EA;
  0x29ECEC7BDF337BEC; 0xC7B6B6546FD954B6; 0x61D4D4A33AEEA3D4; 0x6BD2D2BD0CDEBDD2;
  0x3C141444B4A04414; 0x221E1E66EEF0661E; 0x3EE1E142BA5B42E1; 0x6C2424B4193DB424;
  0x483838D8E5DDD838; 0x57C6C6F9B87EF9C6; 0x70DBDB904D9690DB; 0xDD4B4B7A29627A4B;
  0x8E7A7A8F8DF78F7A; 0x4E3A3AD2F7CDD23A; 0x7FDEDE8160BE81DE; 0xE25E5E3B94CA3B5E;
  0x7CDFDF8469B684DF; 0xA29595FB49DCFB95; 0x19FCFC2B4FB32BFC; 0xE3AAAA38933938AA;
  0x64D7D7AC21F6ACD7; 0x4FCECED1F03ED1CE; 0x0907071B3F381B07; 0x110F0F337778330F;
  0x473D3DC9C8F5C93D; 0xE8585825A2FA2558; 0xB39A9AC83EA4C89A; 0xB59898C22CB4C298;
  0xB99C9CD60894D69C; 0x0BF2F21D31C31DF2; 0xF4A7A701F65101A7; 0x3311115599885511;
  0x827E7E9BA9D79B7E; 0x808B8B9DA72C9D8B; 0xC543435261225243; 0x0503030F1B180F03;
  0x3BE2E24DA1434DE2; 0x79DCDC8B72AE8BDC; 0x32E5E5569E7B56E5; 0xCBB2B2404BF940B2;
  0xD24E4E6B044A6B4E; 0x54C7C7FCB176FCC7; 0xB76D6DC4224FC46D; 0x26E9E96AF21B6AE9;
  0x692727BB0225BB27; 0xC040405D7A3A5D40; 0x75D8D89F568E9FD8; 0x593737EB92A5EB37;
  0xAB9292E076E4E092; 0x8C8F8F89830C898F; 0x0301010509080501; 0x271D1D69F5E8691D;
  0xF5535302F1A20253; 0x423E3EC6D3EDC63E; 0xEB595920ABF22059; 0x5EC1C1E28746E2C1;
  0xD14F4F6E0D426E4F; 0x563232FABF8DFA32; 0x3A16164EA6B04E16; 0x13FAFA35798335FA;
  0x9C7474B9F387B974; 0x10FBFB30708B30FB; 0xA56363F25C3FF263; 0xBC9F9FD9138CD99F;
  0x5C3434E489BDE434; 0x2E1A1A72CAD0721A; 0x7E2A2A82674D822A; 0xEE5A5A2FB0EA2F5A;
  0x8A8D8D83911C838D; 0x46C9C9CACF06CAC9; 0x4CCFCFD4F936D4CF; 0x07F6F60915E309F6;
  0xAD9090EA64F4EA90; 0x78282888755D8828; 0x85888892BC349288; 0xB09B9BCD37ACCD9B;
  0x533131F5A495F531; 0x120E0E367E70360E; 0xDABDBD733C8173BD; 0xDE4A4A7F206A7F4A;
  0x25E8E86FFB136FE8; 0xA79696F452C4F496; 0xF7A6A604FF5904A6; 0x140C0C3C6C603C0C;
  0x45C8C8CFC60ECFC8; 0x8B79798096EF8079; 0xD9BCBC76358976BC; 0xDFBEBE7C27997CBE;
  0x2CEFEF74C42B74EF; 0xB26E6ECB3957CB6E; 0xCA4646434C0A4346; 0xA49797F15BCCF197;
  0xED5B5B2AB9E22A5B; 0x2AEDED7ED63B7EED; 0x2B19197DD1C87D19; 0x76D9D99A5F869AD9;
  0xE9ACAC26A50926AC; 0xB69999C725BCC799; 0xE5A8A832812932A8; 0x7B29298D7C558D29;
  0xAC6464E96307E964; 0x211F1F63E7F8631F; 0xEAADAD23AC0123AD; 0xFF55551CC7921C55;
  0x3513135F8B985F13; 0xD0BBBB6D0AB16DBB; 0x04F7F70C1CEB0CF7; 0xB16F6FCE305FCE6F;
  0xD6B9B96718A167B9; 0xC947474645024647; 0x712F2F934A65932F; 0x2FEEEE71CD2371EE;
  0xD5B8B86211A962B8; 0x8D7B7B8A84FF8A7B; 0x86898997B53C9789; 0x503030F0AD9DF030;
  0x68D3D3B805D6B8D3; 0x817F7F9EA0DF9E7F; 0x9A7676B3E197B376; 0x9B8282B0E664B082].

Definition old0_T6 : list Z := [
  0x6868D50F67D568B8; 0xD0D0B71ECEB7D06D; 0xEBEB60E00B60EB20; 0x2B2B876E45872B7D;
  0x484875327A7548D8; 0x9D9DD3019CD39DBA; 0x6A6ADF1D77DF6ABE; 0xE4E453977353E431;
  0xE3E348A84B48E338; 0xA3A315D27115A3F8; 0x565613DC8A1356FA; 0x8181BFFD7CBF819E;
  0x7D7D94B2CF947D87; 0xF1F1122ADB12F10E; 0x8585ABD95CAB8592; 0x9E9EDC1A84DC9EBF;
  0x2C2C9C517D9C2C74; 0x8E8E8C8A048C8E8F; 0x7878859FE7857888; 0xCACAC5D41EC5CA43;
  0x17174BAFB84B1739; 0xA9A937882137A9E6; 0x6161F84E2FF861A3; 0xD5D5A633E6A6D562;
  0x5D5D348FD2345DE7; 0x0B0B275358270B1D; 0x8C8C869814868C89; 0x3C3CCCC1FDCC3C44;
  0x7777B6E89FB67799; 0x515108E3B20851F3; 0x2222AA2F0DAA2266; 0x424257682A5742C6;
  0x3F3FC3DAE5C33F41; 0x545419CE9A1954FC; 0x41415873325841C3; 0x8080BAF474BA809D;
  0xCCCCDBE22EDBCC49; 0x8686A4C244A48697; 0xB3B34542F145B3C8; 0x181878D8C0781828;
  0x2E2E96436D962E72; 0x575716D5821657F9; 0x06061E36301E060A; 0x6262F75537F762A6;
  0xF4F40307F303F401; 0x3636EE9BADEE365A; 0xD1D1B217C6B2D16E; 0x6B6BDA147FDA6BBD;
  0x1B1B77C3D8771B2D; 0x6565EC6A0FEC65AF; 0x7575BCFA8FBC759F; 0x1010509080501030;
  0xDADA95449E95DA73; 0x4949703B727049DB; 0x2626BE0B2DBE266A; 0xF9F93A629B3AF916;
  0xCBCBC0DD16C0CB40; 0x6666E37117E366AA; 0xE7E75C8C6B5CE734; 0xBABA6803B968BAD3;
  0xAEAE2CB7192CAEEF; 0x50500DEABA0D50F0; 0x525207F8AA0752F6; 0xABAB3D9A313DABE0;
  0x0505112D2811050F; 0xF0F01723D317F00D; 0x0D0D396568390D17; 0x7373A2CCBFA27395;
  0x3B3BD7FEC5D73B4D; 0x040414242014040C; 0x2020A03D1DA02060; 0xFEFE215DA321FE1F;
  0xDDDD8E7BA68EDD7A; 0xF5F5060EFB06F502; 0xB4B45E7DC95EB4C1; 0x5F5F3E9DC23E5FE1;
  0x0A0A225A50220A1E; 0xB5B55B74C15BB5C2; 0xC0C0E78E4EE7C05D; 0xA0A01AC9691AA0FD;
  0x7171A8DEAFA87193; 0xA5A50BE4410BA5F2; 0x2D2D995875992D77; 0x6060FD4727FD60A0;
  0x7272A7C5B7A77296; 0x9393E57FECE593A8; 0x3939DDECD5DD394B; 0x0808284840280818;
  0x8383B5EF6CB58398; 0x2121A53415A52163; 0x5C5C3186DA315CE4; 0x8787A1CB4CA18794;
  0xB1B14F50E14FB1CE; 0xE0E047B35347E03D; 0x0000000000000000; 0xC3C3E89556E8C358;
  0x12125A82905A1236; 0x9191EF6DFCEF91AE; 0x8A8A98AE24988A83; 0x02020A12100A0206;
  0x1C1C6CFCE06C1C24; 0xE6E659856359E637; 0x45454C57124C45CF; 0xC2C2ED9C5EEDC25B;
  0xC4C4F3AA6EF3C451; 0xFDFD2E46BB2EFD1A; 0xBFBF792E9179BFDC; 0x4444495E1A4944CC;
  0xA1A11FC0611FA1FE; 0x4C4C61165A614CD4; 0x3333FFB685FF3355; 0xC5C5F6A366F6C552;
  0x8484AED054AE8491; 0x2323AF2605AF2365; 0x7C7C91BBC7917C84; 0xB0B04A59E94AB0CD;
  0x2525B11035B1256F; 0x151541BDA841153F; 0x3535E180B5E1355F; 0x6969D0066FD069BB;
  0xFFFF2454AB24FF1C; 0x9494FE40D4FE94A1; 0x4D4D641F52644DD7; 0x7070ADD7A7AD7090;
  0xA2A210DB7910A2FB; 0xAFAF29BE1129AFEC; 0xCDCDDEEB26DECD4A; 0xD6D6A928FEA9D667;
  0x6C6CC12B47C16CB4; 0xB7B75166D151B7C4; 0xF8F83F6B933FF815; 0x09092D41482D091B;
  0xF3F31838CB18F308; 0x6767E6781FE667A9; 0xA4A40EED490EA4F1; 0xEAEA65E90365EA23;
  0xECEC7BDF337BEC29; 0xB6B6546FD954B6C7; 0xD4D4A33AEEA3D461; 0xD2D2BD0CDEBDD26B;
  0x141444B4A044143C; 0x1E1E66EEF0661E22; 0xE1E142BA5B42E13E; 0x2424B4193DB4246C;
  0x3838D8E5DDD83848; 0xC6C6F9B87EF9C657; 0xDBDB904D9690DB70; 0x4B4B7A29627A4BDD;
  0x7A7A8F8DF78F7A8E; 0x3A3AD2F7CDD23A4E; 0xDEDE8160BE81DE7F; 0x5E5E3B94CA3B5EE2;
  0xDFDF8469B684DF7C; 0x9595FB49DCFB95A2; 0xFCFC2B4FB32BFC19; 0xAAAA38933938AAE3;
  0xD7D7AC21F6ACD764; 0xCECED1F03ED1CE4F; 0x07071B3F381B0709; 0x0F0F337778330F11;
  0x3D3DC9C8F5C93D47; 0x585825A2FA2558E8; 0x9A9AC83EA4C89AB3; 0x9898C22CB4C298B5;
  0x9C9CD60894D69CB9; 0xF2F21D31C31DF20B; 0xA7A701F65101A7F4; 0x1111559988551133;
  0x7E7E9BA9D79B7E82; 0x8B8B9DA72C9D8B80; 0x43435261225243C5; 0x03030F1B180F0305;
  0xE2E24DA1434DE23B; 0xDCDC8B72AE8BDC79; 0xE5E5569E7B56E532; 0xB2B2404BF940B2CB;
  0x4E4E6B044A6B4ED2; 0xC7C7FCB176FCC754; 0x6D6DC4224FC46DB7; 0xE9E96AF21B6AE926;
  0x2727BB0225BB2769; 0x40405D7A3A5D40C0; 0xD8D89F568E9FD875; 0x3737EB92A5EB3759;
  0x9292E076E4E092AB; 0x8F8F89830C898F8C; 0x0101050908050103; 0x1D1D69F5E8691D27;
  0x535302F1A20253F5; 0x3E3EC6D3EDC63E42; 0x595920ABF22059EB; 0xC1C1E28746E2C15E;
  0x4F4F6E0D426E4FD1; 0x3232FABF8DFA3256; 0x16164EA6B04E163A; 0xFAFA35798335FA13;
  0x7474B9F387B9749C; 0xFBFB30708B30FB10; 0x6363F25C3FF263A5; 0x9F9FD9138CD99FBC;
  0x3434E489BDE4345C; 0x1A1A72CAD0721A2E; 0x2A2A82674D822A7E; 0x5A5A2FB0EA2F5AEE;
  0x8D8D83911C838D8A; 0xC9C9CACF06CAC946; 0xCFCFD4F936D4CF4C; 0xF6F60915E309F607;
  0x9090EA64F4EA90AD; 0x282888755D882878; 0x888892BC34928885; 0x9B9BCD37ACCD9BB0;
  0x3131F5A495F53153; 0x0E0E367E70360E12; 0xBDBD733C8173BDDA; 0x4A4A7F206A7F4ADE;
  0xE8E86FFB136FE825; 0x9696F452C4F496A7; 0xA6A604FF5904A6F7; 0x0C0C3C6C603C0C14;
  0xC8C8CFC60ECFC845; 0x79798096EF80798B; 0xBCBC76358976BCD9; 0xBEBE7C27997CBEDF;
  0xEFEF74C42B74EF2C; 0x6E6ECB3957CB6EB2; 0x4646434C0A4346CA; 0x9797F15BCCF197A4;
  0x5B5B2AB9E22A5BED; 0xEDED7ED63B7EED2A; 0x19197DD1C87D192B; 0xD9D99A5F869AD976;
  0xACAC26A50926ACE9; 0x9999C725BCC799B6; 0xA8A832812932A8E5; 0x29298D7C558D297B;
  0x6464E96307E964AC; 0x1F1F63E7F8631F21; 0xADAD23AC0123ADEA; 0x55551CC7921C55FF;
  0x13135F8B985F1335; 0xBBBB6D0AB16DBBD0; 0xF7F70C1CEB0CF704; 0x6F6FCE305FCE6FB1;
  0xB9B96718A167B9D6; 0x47474645024647C9; 0x2F2F934A65932F71; 0xEEEE71CD2371EE2F;
  0xB8B86211A962B8D5; 0x7B7B8A84FF8A7B8D; 0x898997B53C978986; 0x3030F0AD9DF03050;
  0xD3D3B805D6B8D368; 0x7F7F9EA0DF9E7F81; 0x7676B3E197B3769A; 0x8282B0E664B0829B].

Definition old0_T7 : list Z := [
  0x68D50F67D568B868; 0xD0B71ECEB7D06DD0; 0xEB60E00B60EB20EB; 0x2B876E45872B7D2B;
  0x4875327A7548D848; 0x9DD3019CD39DBA9D; 0x6ADF1D77DF6ABE6A; 0xE453977353E431E4;
  0xE348A84B48E338E3; 0xA315D27115A3F8A3; 0x5613DC8A1356FA56; 0x81BFFD7CBF819E81;
  0x7D94B2CF947D877D; 0xF1122ADB12F10EF1; 0x85ABD95CAB859285; 0x9EDC1A84DC9EBF9E;
  0x2C9C517D9C2C742C; 0x8E8C8A048C8E8F8E; 0x78859FE785788878; 0xCAC5D41EC5CA43CA;
  0x174BAFB84B173917; 0xA937882137A9E6A9; 0x61F84E2FF861A361; 0xD5A633E6A6D562D5;
  0x5D348FD2345DE75D; 0x0B275358270B1D0B; 0x8C869814868C898C; 0x3CCCC1FDCC3C443C;
  0x77B6E89FB6779977; 0x5108E3B20851F351; 0x22AA2F0DAA226622; 0x4257682A5742C642;
  0x3FC3DAE5C33F413F; 0x5419CE9A1954FC54; 0x415873325841C341; 0x80BAF474BA809D80;
  0xCCDBE22EDBCC49CC; 0x86A4C244A4869786; 0xB34542F145B3C8B3; 0x1878D8C078182818;
  0x2E96436D962E722E; 0x5716D5821657F957; 0x061E36301E060A06; 0x62F75537F762A662;
  0xF40307F303F401F4; 0x36EE9BADEE365A36; 0xD1B217C6B2D16ED1; 0x6BDA147FDA6BBD6B;
  0x1B77C3D8771B2D1B; 0x65EC6A0FEC65AF65; 0x75BCFA8FBC759F75; 0x1050908050103010;
  0xDA95449E95DA73DA; 0x49703B727049DB49; 0x26BE0B2DBE266A26; 0xF93A629B3AF916F9;
  0xCBC0DD16C0CB40CB; 0x66E37117E366AA66; 0xE75C8C6B5CE734E7; 0xBA6803B968BAD3BA;
  0xAE2CB7192CAEEFAE; 0x500DEABA0D50F050; 0x5207F8AA0752F652; 0xAB3D9A313DABE0AB;
  0x05112D2811050F05; 0xF01723D317F00DF0; 0x0D396568390D170D; 0x73A2CCBFA2739573;
  0x3BD7FEC5D73B4D3B; 0x0414242014040C04; 0x20A03D1DA0206020; 0xFE215DA321FE1FFE;
  0xDD8E7BA68EDD7ADD; 0xF5060EFB06F502F5; 0xB45E7DC95EB4C1B4; 0x5F3E9DC23E5FE15F;
  0x0A225A50220A1E0A; 0xB55B74C15BB5C2B5; 0xC0E78E4EE7C05DC0; 0xA01AC9691AA0FDA0;
  0x71A8DEAFA8719371; 0xA50BE4410BA5F2A5; 0x2D995875992D772D; 0x60FD4727FD60A060;
  0x72A7C5B7A7729672; 0x93E57FECE593A893; 0x39DDECD5DD394B39; 0x0828484028081808;
  0x83B5EF6CB5839883; 0x21A53415A5216321; 0x5C3186DA315CE45C; 0x87A1CB4CA1879487;
  0xB14F50E14FB1CEB1; 0xE047B35347E03DE0; 0x0000000000000000; 0xC3E89556E8C358C3;
  0x125A82905A123612; 0x91EF6DFCEF91AE91; 0x8A98AE24988A838A; 0x020A12100A020602;
  0x1C6CFCE06C1C241C; 0xE659856359E637E6; 0x454C57124C45CF45; 0xC2ED9C5EEDC25BC2;
  0xC4F3AA6EF3C451C4; 0xFD2E46BB2EFD1AFD; 0xBF792E9179BFDCBF; 0x44495E1A4944CC44;
  0xA11FC0611FA1FEA1; 0x4C61165A614CD44C; 0x33FFB685FF335533; 0xC5F6A366F6C552C5;
  0x84AED054AE849184; 0x23AF2605AF236523; 0x7C91BBC7917C847C; 0xB04A59E94AB0CDB0;
  0x25B11035B1256F25; 0x1541BDA841153F15; 0x35E180B5E1355F35; 0x69D0066FD069BB69;
  0xFF2454AB24FF1CFF; 0x94FE40D4FE94A194; 0x4D641F52644DD74D; 0x70ADD7A7AD709070;
  0xA210DB7910A2FBA2; 0xAF29BE1129AFECAF; 0xCDDEEB26DECD4ACD; 0xD6A928FEA9D667D6;
  0x6CC12B47C16CB46C; 0xB75166D151B7C4B7; 0xF83F6B933FF815F8; 0x092D41482D091B09;
  0xF31838CB18F308F3; 0x67E6781FE667A967; 0xA40EED490EA4F1A4; 0xEA65E90365EA23EA;
  0xEC7BDF337BEC29EC; 0xB6546FD954B6C7B6; 0xD4A33AEEA3D461D4; 0xD2BD0CDEBDD26BD2;
  0x1444B4A044143C14; 0x1E66EEF0661E221E; 0xE142BA5B42E13EE1; 0x24B4193DB4246C24;
  0x38D8E5DDD8384838; 0xC6F9B87EF9C657C6; 0xDB904D9690DB70DB; 0x4B7A29627A4BDD4B;
  0x7A8F8DF78F7A8E7A; 0x3AD2F7CDD23A4E3A; 0xDE8160BE81DE7FDE; 0x5E3B94CA3B5EE25E;
  0xDF8469B684DF7CDF; 0x95FB49DCFB95A295; 0xFC2B4FB32BFC19FC; 0xAA38933938AAE3AA;
  0xD7AC21F6ACD764D7; 0xCED1F03ED1CE4FCE; 0x071B3F381B070907; 0x0F337778330F110F;
  0x3DC9C8F5C93D473D; 0x5825A2FA2558E858; 0x9AC83EA4C89AB39A; 0x98C22CB4C298B598;
  0x9CD60894D69CB99C; 0xF21D31C31DF20BF2; 0xA701F65101A7F4A7; 0x1155998855113311;
  0x7E9BA9D79B7E827E; 0x8B9DA72C9D8B808B; 0x435261225243C543; 0x030F1B180F030503;
  0xE24DA1434DE23BE2; 0xDC8B72AE8BDC79DC; 0xE5569E7B56E532E5; 0xB2404BF940B2CBB2;
  0x4E6B044A6B4ED24E; 0xC7FCB176FCC754C7; 0x6DC4224FC46DB76D; 0xE96AF21B6AE926E9;
  0x27BB0225BB276927; 0x405D7A3A5D40C040; 0xD89F568E9FD875D8; 0x37EB92A5EB375937;
  0x92E076E4E092AB92; 0x8F89830C898F8C8F; 0x0105090805010301; 0x1D69F5E8691D271D;
  0x5302F1A20253F553; 0x3EC6D3EDC63E423E; 0x5920ABF22059EB59; 0xC1E28746E2C15EC1;
  0x4F6E0D426E4FD14F; 0x32FABF8DFA325632; 0x164EA6B04E163A16; 0xFA35798335FA13FA;
  0x74B9F387B9749C74; 0xFB30708B30FB10FB; 0x63F25C3FF263A563; 0x9FD9138CD99FBC9F;
  0x34E489BDE4345C34; 0x1A72CAD0721A2E1A; 0x2A82674D822A7E2A; 0x5A2FB0EA2F5AEE5A;
  0x8D83911C838D8A8D; 0xC9CACF06CAC946C9; 0xCFD4F936D4CF4CCF; 0xF60915E309F607F6;
  0x90EA64F4EA90AD90; 0x2888755D88287828; 0x8892BC3492888588; 0x9BCD37ACCD9BB09B;
  0x31F5A495F5315331; 0x0E367E70360E120E; 0xBD733C8173BDDABD; 0x4A7F206A7F4ADE4A;
  0xE86FFB136FE825E8; 0x96F452C4F496A796; 0xA604FF5904A6F7A6; 0x0C3C6C603C0C140C;
  0xC8CFC60ECFC845C8; 0x798096EF80798B79; 0xBC76358976BCD9BC; 0xBE7C27997CBEDFBE;
  0xEF74C42B74EF2CEF; 0x6ECB3957CB6EB26E; 0x46434C0A4346CA46; 0x97F15BCCF197A497;
  0x5B2AB9E22A5BED5B; 0xED7ED63B7EED2AED; 0x197DD1C87D192B19; 0xD99A5F869AD976D9;
  0xAC26A50926ACE9AC; 0x99C725BCC799B699; 0xA832812932A8E5A8; 0x298D7C558D297B29;
  0x64E96307E964AC64; 0x1F63E7F8631F211F; 0xAD23AC0123ADEAAD; 0x551CC7921C55FF55;
  0x135F8B985F133513; 0xBB6D0AB16DBBD0BB; 0xF70C1CEB0CF704F7; 0x6FCE305FCE6FB16F;
  0xB96718A167B9D6B9; 0x474645024647C947; 0x2F934A65932F712F; 0xEE71CD2371EE2FEE;
  0xB86211A962B8D5B8; 0x7B8A84FF8A7B8D7B; 0x8997B53C97898689; 0x30F0AD9DF0305030;
  0xD3B805D6B8D368D3; 0x7F9EA0DF9E7F817F; 0x76B3E197B3769A76; 0x82B0E664B0829B82].

Definition old0_RC : list Z := [
  0xE46A9D482BEBD068; 0x9E85F17D8156A3E3; 0xD561A917CA788E2C; 0x422251773C8C0B5D;
  0x18B386CC8041543F; 0x6BD136F46206572E; 0xF92649DA1075651B; 0xAB5250AEBAE766CB;
  0xFE20043B730DF005; 0xA0C0B50A5FB4F5DD].

Definition old0_T : list (list Z) :=
  [old0_T0; old0_T1; old0_T2; old0_T3; old0_T4; old0_T5; old0_T6; old0_T7].
