(* ===== verification/Whirlpool.v ===== *)
(** * Whirlpool, Whirlpool-0 and Whirlpool-1 ([crypto/ghostrider/sph_whirlpool.c]).

    The macros of the C file become functions on arrays of eight words; the
    tables are transcribed in the files [WhirlpoolPlain], [WhirlpoolOld0] and
    [WhirlpoolOld1].  The reference is the byte-matrix description of the
    standard: substitution, shift of columns, multiplication by a circulant
    matrix over GF(2^8), key addition, and the Miyaguchi-Preneel construction. *)
From S2P Require Import Prelude Stream MdHelper WhirlpoolPlain WhirlpoolOld0 WhirlpoolOld1.

Definition BYTE (x : Z) (n : nat) : Z := Z.land (T32 (Z.shiftr x (8 * Z.of_nat n))) 0xFF.

Section Macros.
Context (T : list (list Z)).

(** [table ## k[BYTE(in ## i, k)]]. *)
Definition elt (inp : list Z) (i k : nat) : Z := (T !!! k) !!! Z.to_nat (BYTE (inp !!! i) k).

Definition ROUND_ELT (inp : list Z) (i0 i1 i2 i3 i4 i5 i6 i7 : nat) : Z :=
  Z.lxor (Z.lxor (Z.lxor (Z.lxor (Z.lxor (Z.lxor (Z.lxor
    (elt inp i0 0) (elt inp i1 1)) (elt inp i2 2)) (elt inp i3 3))
    (elt inp i4 4)) (elt inp i5 5)) (elt inp i6 6)) (elt inp i7 7).

Definition ROUND (inp c : list Z) : list Z :=
  [Z.lxor (ROUND_ELT inp 0 7 6 5 4 3 2 1) (c !!! 0%nat);
   Z.lxor (ROUND_ELT inp 1 0 7 6 5 4 3 2) (c !!! 1%nat);
   Z.lxor (ROUND_ELT inp 2 1 0 7 6 5 4 3) (c !!! 2%nat);
   Z.lxor (ROUND_ELT inp 3 2 1 0 7 6 5 4) (c !!! 3%nat);
   Z.lxor (ROUND_ELT inp 4 3 2 1 0 7 6 5) (c !!! 4%nat);
   Z.lxor (ROUND_ELT inp 5 4 3 2 1 0 7 6) (c !!! 5%nat);
   Z.lxor (ROUND_ELT inp 6 5 4 3 2 1 0 7) (c !!! 6%nat);
   Z.lxor (ROUND_ELT inp 7 6 5 4 3 2 1 0) (c !!! 7%nat)].

Definition ROUND_KSCHED (inp : list Z) (c : Z) : list Z := ROUND inp [c; 0; 0; 0; 0; 0; 0; 0].
Definition ROUND_WENC (inp key : list Z) : list Z := ROUND inp key.

Definition READ_DATA (src : list Z) : list Z := tabulate 8 (fun x => le_load 8 (slice (8 * x) 8 src)).
Definition READ_STATE (state : list Z) : list Z := tabulate 8 (fun x => state !!! x).
Definition ROUND0 (n h : list Z) : list Z := tabulate 8 (fun x => Z.lxor (n !!! x) (h !!! x)).
Definition UPDATE_STATE (state n src : list Z) : list Z :=
  tabulate 8 (fun x => Z.lxor (state !!! x) (Z.lxor (n !!! x) (le_load 8 (slice (8 * x) 8 src)))).

(** [ROUND_FUN(name, type)]: one block. *)
Definition ROUND_FUN (RC : list Z) (src state : list Z) : list Z :=
  let n := READ_DATA src in
  let h := READ_STATE state in
  let n := ROUND0 n h in
  let '(h, n) := foldl (fun '(h, n) r =>
      let h := ROUND_KSCHED h (RC !!! r) in
      let n := ROUND_WENC n h in
      (h, n)) (h, n) (seq 0 10) in
  UPDATE_STATE state n src.
End Macros.

Definition whirlpool_round : list Z -> list Z -> list Z := ROUND_FUN plain_T plain_RC.
Definition whirlpool0_round : list Z -> list Z -> list Z := ROUND_FUN old0_T old0_RC.
Definition whirlpool1_round : list Z -> list Z -> list Z := ROUND_FUN old1_T old1_RC.

(** The small-footprint build keeps only the first table. *)
Definition table_skew (v : Z) (num : nat) : Z := rotl64 v (8 * Z.of_nat num).
Definition elt_small (T0 : list Z) (inp : list Z) (i k : nat) : Z :=
  table_skew (T0 !!! Z.to_nat (BYTE (inp !!! i) k)) k.
Definition ROUND_ELT_small (T0 : list Z) (inp : list Z) (i0 i1 i2 i3 i4 i5 i6 i7 : nat) : Z :=
  Z.lxor (Z.lxor (Z.lxor (Z.lxor (Z.lxor (Z.lxor (Z.lxor
    (T0 !!! Z.to_nat (BYTE (inp !!! i0) 0)) (elt_small T0 inp i1 1)) (elt_small T0 inp i2 2))
    (elt_small T0 inp i3 3)) (elt_small T0 inp i4 4)) (elt_small T0 inp i5 5))
    (elt_small T0 inp i6 6)) (elt_small T0 inp i7 7).

(** The driver: [BE64], [SVAL], [BLEN 64U], [PLW4]. *)
Definition whirlpool_cfg (u : bool) : md_cfg := mk_cfg BE64 PLW4 false (Some 64%nat) true u.

Definition sph_whirlpool_init (junk : list Z) : md_ctx := mk_md junk (replicate 8 0) 0.
Definition sph_whirlpool (u : bool) (cc : md_ctx) (addr : Z) (data : list Z) : md_ctx :=
  md_update (whirlpool_cfg u) whirlpool_round cc addr data.
Definition sph_whirlpool0 (u : bool) (cc : md_ctx) (addr : Z) (data : list Z) : md_ctx :=
  md_update (whirlpool_cfg u) whirlpool0_round cc addr data.
Definition sph_whirlpool1 (u : bool) (cc : md_ctx) (addr : Z) (data : list Z) : md_ctx :=
  md_update (whirlpool_cfg u) whirlpool1_round cc addr data.

(** [MAKE_CLOSE(name)]: pad, then print the state little-endian. *)
Definition MAKE_CLOSE (round : list Z -> list Z -> list Z) (u : bool) (cc : md_ctx) : md_ctx * list Z :=
  let sc := (md_close (whirlpool_cfg u) round cc 0).1 in
  (sc, flat_map (fun i => le_store 8 (val sc !!! i)) (seq 0 8)).
Definition sph_whirlpool_close := MAKE_CLOSE whirlpool_round.
Definition sph_whirlpool0_close := MAKE_CLOSE whirlpool0_round.
Definition sph_whirlpool1_close := MAKE_CLOSE whirlpool1_round.

(** ** The reference *)

(** Multiplication in GF(2^8) modulo x^8 + x^4 + x^3 + x^2 + 1. *)
Definition xtime (a : Z) : Z := if a <? 128 then 2 * a else Z.lxor (2 * a) 0x11D.
Definition gmul (a b : Z) : Z :=
  foldl (fun acc i => if Z.testbit b (Z.of_nat i) then Z.lxor acc (Nat.iter i xtime a) else acc) 0 (seq 0 8).

Section Spec.
Context (Sb : Z -> Z) (cir : list Z).

Definition gamma (a : list Z) : list Z := tabulate 64 (fun p => Sb (a !!! p)).
(** Column [j] of the 8x8 matrix moves down by [j] places. *)
Definition pi (a : list Z) : list Z :=
  tabulate 64 (fun p => a !!! (8 * ((p / 8 + 8 - p mod 8) mod 8) + p mod 8)%nat).
(** Each row is multiplied by the circulant matrix whose first row is [cir]. *)
Definition theta (a : list Z) : list Z :=
  tabulate 64 (fun p =>
    foldl (fun acc k => Z.lxor acc (gmul (a !!! (8 * (p / 8) + k)%nat) (cir !!! ((p mod 8 + 8 - k) mod 8)%nat)))
          0 (seq 0 8)).
Definition sigma (k a : list Z) : list Z := tabulate 64 (fun p => Z.lxor (a !!! p) (k !!! p)).
Definition rho (k a : list Z) : list Z := sigma k (theta (pi (gamma a))).

(** Round constant [r] (from 0): S-box entries on the first row. *)
Definition round_const (r : nat) : list Z :=
  tabulate 64 (fun p => if (p <? 8)%nat then Sb (Z.of_nat (8 * r + p)) else 0).
Fixpoint round_key (K : list Z) (r : nat) : list Z :=
  match r with O => K | S r => rho (round_const r) (round_key K r) end.
Definition W_cipher (K m : list Z) : list Z :=
  foldl (fun a r => rho (round_key K (S r)) a) (sigma K m) (seq 0 10).
(** Miyaguchi-Preneel. *)
Definition wp_compress (H m : list Z) : list Z :=
  tabulate 64 (fun p => Z.lxor (H !!! p) (Z.lxor (W_cipher H m !!! p) (m !!! p))).
End Spec.

(** Padding: a one bit, zeros, the bit length on 256 bits. *)
Definition wp_pad (m : list Z) : list Z :=
  m ++ [0x80] ++ replicate ((95 - length m mod 64) mod 64) 0 ++ be_store 32 (8 * Z.of_nat (length m)).
Definition wp_digest (Sb : Z -> Z) (cir m : list Z) : list Z :=
  foldl (wp_compress Sb cir) (replicate 64 0) (blocks 64 (wp_pad m)).

(** The S-box of the current version and of Whirlpool-1, from its 4-bit boxes. *)
Definition box_E : list Z := [1; 11; 9; 12; 13; 6; 15; 3; 14; 8; 7; 4; 10; 2; 5; 0].
Definition box_Einv : list Z := [15; 0; 13; 7; 11; 14; 5; 10; 9; 2; 12; 1; 3; 4; 8; 6].
Definition box_R : list Z := [7; 12; 11; 13; 14; 4; 9; 15; 6; 3; 8; 10; 2; 5; 1; 0].
Definition Sbox (x : Z) : Z :=
  let u := box_E !!! Z.to_nat (Z.shiftr x 4) in
  let l := box_Einv !!! Z.to_nat (Z.land x 15) in
  let r := box_R !!! Z.to_nat (Z.lxor u l) in
  Z.lor (Z.shiftl (box_E !!! Z.to_nat (Z.lxor u r)) 4) (box_Einv !!! Z.to_nat (Z.lxor l r)).
(** Whirlpool-0 has a pseudo-random S-box: the low byte of its first table. *)
Definition Sbox0 (x : Z) : Z := T8 (old0_T0 !!! Z.to_nat x).

Definition cir_plain : list Z := [1; 1; 4; 1; 8; 5; 2; 9].
Definition cir_old : list Z := [1; 1; 3; 1; 5; 8; 9; 5].

(** What the tables must contain. *)
Definition table_word (Sb : Z -> Z) (cir : list Z) (k : nat) (x : Z) : Z :=
  gather 8 (fun t => gmul (Sb x) (cir !!! ((t + 8 - k) mod 8)%nat)).
Definition tables_ok (Sb : Z -> Z) (cir : list Z) (T : list (list Z)) (RC : list Z) : bool :=
  forallb (fun k => all_bytes (fun x => (T !!! k) !!! Z.to_nat x =? table_word Sb cir k x)) (seq 0 8) &&
  forallb (fun r => RC !!! r =? gather 8 (fun j => Sb (Z.of_nat (8 * r + j)))) (seq 0 10).

Example whirlpool_empty :
  (sph_whirlpool_close true (sph_whirlpool true (sph_whirlpool_init (replicate 64 7)) 0 [])).2
  = be_store 64 0x19FA61D75522A466_9B44E39C1D2E1726_C530232130D407F8_9AFEE0964997F7A7_3E83BE698B288FEB_CF88E3E03C4F0757_EA8964E59B63D937_08B138CC42A66EB3.
Proof. vm_compute. reflexivity. Qed.

Lemma plain_tables : tables_ok Sbox cir_plain plain_T plain_RC = true.
Proof. vm_compute. reflexivity. Qed.
Lemma old0_tables : tables_ok Sbox0 cir_old old0_T old0_RC = true.
Proof. vm_compute. reflexivity. Qed.
Lemma old1_tables : tables_ok Sbox cir_old old1_T old1_RC = true.
Proof. vm_compute. reflexivity. Qed.
#[local] Opaque plain_T old0_T old1_T plain_RC old0_RC old1_RC.

(** ** Bytes of words *)

Lemma BYTE_T8 x n : BYTE x n = T8 (Z.shiftr x (8 * Z.of_nat n)).
Proof.
  unfold BYTE, T8, T32. rewrite <-Z.land_assoc. f_equal.
Qed.

Lemma word_gf_xtime a : word 8 a -> word 8 (xtime a).
Proof.
  intros H. cut ((0 <=? xtime a) && (xtime a <? 256) = true); [unfold word; lia|].
  revert a H. apply (all_bytes_spec (fun a => (0 <=? xtime a) && (xtime a <? 256))). vm_compute. reflexivity.
Qed.

Lemma word_gmul a b : word 8 a -> word 8 (gmul a b).
Proof.
  intros Ha. unfold gmul. generalize (seq 0 8). intros l.
  assert (Hi : forall i, word 8 (Nat.iter i xtime a)) by (intros i; induction i; simpl; auto using word_gf_xtime).
  assert (H0 : word 8 0) by by apply word_0. revert H0. generalize 0. induction l as [|i l IH]; intros acc Hacc; [done|].
  cbn [foldl]. apply IH. case_match; [|done]. apply word_lxor; [lia|done|apply Hi].
Qed.

(** The bytes of an array of words, as the state matrix. *)
Definition enc8 (st : list Z) : list Z := flat_map (le_store 8) st.

Lemma enc8_lookup st i t :
  length st = 8%nat -> (i < 8)%nat -> (t < 8)%nat ->
  enc8 st !!! (8 * i + t)%nat = T8 (Z.shiftr (st !!! i) (8 * Z.of_nat t)).
Proof.
  intros Hl Hi Ht. do 8 (destruct st as [|? st]; [done|]). destruct st; [|done].
  do 8 (destruct i as [|i]; [do 8 (destruct t as [|t]; [reflexivity|]); lia|]). lia.
Qed.

Lemma length_enc8 st : length st = 8%nat -> length (enc8 st) = 64%nat.
Proof. intros Hl. by do 9 (destruct st as [|? st]; [done|]). Qed.

(** Two 64-byte matrices with the same rows and columns. *)
Lemma matrix_eq (a b : list Z) :
  length a = 64%nat -> length b = 64%nat ->
  (forall i t, (i < 8)%nat -> (t < 8)%nat -> a !!! (8 * i + t)%nat = b !!! (8 * i + t)%nat) -> a = b.
Proof.
  intros Ha Hb H. apply list_eq_total; [congruence|]. intros p Hp. rewrite Ha in Hp.
  rewrite (Nat.div_mod_eq p 8). apply H; [apply Nat.Div0.div_lt_upper_bound; lia|].
  apply Nat.mod_upper_bound. lia.
Qed.

(** ** The table-driven round is the byte-matrix round *)
Section Round.
Context (Sb : Z -> Z) (cir : list Z) (T : list (list Z)) (RC : list Z).
Hypothesis Hok : tables_ok Sb cir T RC = true.
Hypothesis HSb : forall x, word 8 x -> word 8 (Sb x).

Lemma elt_byte inp i k t :
  (k < 8)%nat -> (t < 8)%nat ->
  T8 (Z.shiftr (elt T inp i k) (8 * Z.of_nat t))
  = gmul (Sb (T8 (Z.shiftr (inp !!! i) (8 * Z.of_nat k)))) (cir !!! ((t + 8 - k) mod 8)%nat).
Proof.
  intros Hk Ht. apply andb_true_iff in Hok as [HT _]. rewrite forallb_forall in HT.
  specialize (HT k ltac:(apply in_seq; lia)). unfold elt. rewrite BYTE_T8.
  set (x := T8 (Z.shiftr (inp !!! i) _)). assert (Hx : word 8 x) by apply word_T8.
  pose proof (all_bytes_spec _ HT x Hx) as E. apply Z.eqb_eq in E. rewrite E.
  unfold table_word. rewrite gather_byte; [done| |done]. intros. apply word_gmul. by apply HSb.
Qed.

Lemma ROUND_lookup inp c i :
  (i < 8)%nat ->
  ROUND T inp c !!! i
  = Z.lxor (foldl (fun acc k => Z.lxor acc (elt T inp ((i + 8 - k) mod 8) k)) 0 (seq 0 8)) (c !!! i).
Proof. intros Hi. do 8 (destruct i as [|i]; [reflexivity|]). lia. Qed.

Lemma ROUND_rho inp c :
  length inp = 8%nat -> length c = 8%nat -> enc8 (ROUND T inp c) = rho Sb cir (enc8 c) (enc8 inp).
Proof.
  intros Hl Hc. apply matrix_eq; [by apply length_enc8|apply length_tabulate|].
  intros i t Hi Ht. rewrite enc8_lookup, ROUND_lookup by done. rewrite T8_shiftr_lxor, T8_shiftr_foldl, Z.shiftr_0_l.
  change (T8 0) with 0.
  unfold rho, sigma. rewrite tabulate_lookup by lia. rewrite enc8_lookup by done. f_equal.
  unfold theta. rewrite tabulate_lookup by lia. destruct (row_col i t Ht) as [-> ->].
  apply foldl_ext_seq. intros acc k Hk. rewrite elt_byte by lia. do 2 f_equal.
  unfold pi. rewrite tabulate_lookup by lia. destruct (row_col i k ltac:(lia)) as [-> ->].
  set (j := ((i + 8 - k) mod 8)%nat). assert (Hj : (j < 8)%nat) by (apply Nat.mod_upper_bound; lia).
  unfold gamma. rewrite tabulate_lookup by lia. by rewrite enc8_lookup by lia.
Qed.

Lemma enc8_RC r :
  (r < 10)%nat -> enc8 [RC !!! r; 0; 0; 0; 0; 0; 0; 0] = round_const Sb r.
Proof.
  intros Hr. apply andb_true_iff in Hok as [_ HR]. rewrite forallb_forall in HR.
  specialize (HR r ltac:(apply in_seq; lia)). apply Z.eqb_eq in HR.
  apply matrix_eq; [by apply length_enc8|apply length_tabulate|].
  intros i t Hi Ht. rewrite enc8_lookup by done. unfold round_const. rewrite tabulate_lookup by lia.
  destruct i as [|i].
  - replace (8 * 0 + t <? 8)%nat with true by (symmetry; apply Nat.ltb_lt; lia).
    change ([RC !!! r; 0; 0; 0; 0; 0; 0; 0] !!! 0%nat) with (RC !!! r). rewrite HR.
    rewrite gather_byte; [do 2 f_equal; lia| |done]. intros j Hj. apply HSb. unfold word. lia.
  - replace (8 * S i + t <? 8)%nat with false by (symmetry; apply Nat.ltb_ge; lia).
    do 7 (destruct i as [|i]; [change (_ !!! _) with 0; by rewrite Z.shiftr_0_l|]). lia.
Qed.

Lemma rounds_spec st n k :
  length st = 8%nat -> length n = 8%nat -> (k <= 10)%nat ->
  let '(h, n') := foldl (fun '(h, n) r =>
      let h := ROUND_KSCHED T h (RC !!! r) in let n := ROUND_WENC T n h in (h, n)) (st, n) (seq 0 k) in
  length h = 8%nat /\ length n' = 8%nat /\ enc8 h = round_key Sb cir (enc8 st) k /\
  enc8 n' = foldl (fun a r => rho Sb cir (round_key Sb cir (enc8 st) (S r)) a) (enc8 n) (seq 0 k).
Proof.
  intros Hs Hn Hk. induction k as [|k IH]; [done|]. rewrite seq_S, !foldl_app.
  specialize (IH ltac:(lia)). destruct (foldl _ (st, n) (seq 0 k)) as [h n'].
  destruct IH as (Hh & Hn' & Eh & En). cbn [foldl]. cbv zeta.
  assert (E : enc8 (ROUND_KSCHED T h (RC !!! (0 + k)%nat)) = round_key Sb cir (enc8 st) (S k)).
  { unfold ROUND_KSCHED. rewrite ROUND_rho, enc8_RC by (done || lia). cbn [round_key]. by rewrite Eh. }
  split_and!; [done|done|exact E|]. unfold ROUND_WENC. rewrite ROUND_rho by done. rewrite E, En. done.
Qed.

(** Reading a block gives the words whose bytes are the block. *)
Lemma enc8_READ_DATA src : bytes src -> length src = 64%nat -> enc8 (READ_DATA src) = src.
Proof.
  intros Hb Hl. apply matrix_eq; [by apply length_enc8; apply length_tabulate|done|].
  intros i t Hi Ht. rewrite enc8_lookup by (done || apply length_tabulate).
  unfold READ_DATA. rewrite tabulate_lookup by done. unfold le_load.
  rewrite gather_byte; [|intros; apply bytes_lookup; by apply Forall_slice|done].
  unfold slice. by rewrite lookup_total_take_lt, lookup_total_drop by lia.
Qed.

Lemma enc8_xor (f g : nat -> Z) :
  enc8 (tabulate 8 (fun x => Z.lxor (f x) (g x)))
  = tabulate 64 (fun p => Z.lxor (enc8 (tabulate 8 f) !!! p) (enc8 (tabulate 8 g) !!! p)).
Proof.
  apply matrix_eq; [by apply length_enc8; apply length_tabulate|apply length_tabulate|].
  intros i t Hi Ht. rewrite (tabulate_lookup _ 64) by lia.
  rewrite !enc8_lookup by (done || apply length_tabulate).
  rewrite !(tabulate_lookup _ 8) by done. apply T8_shiftr_lxor.
Qed.

Lemma ROUND_FUN_spec src st :
  bytes src -> length src = 64%nat -> length st = 8%nat ->
  length (ROUND_FUN T RC src st) = 8%nat /\
  enc8 (ROUND_FUN T RC src st) = wp_compress Sb cir (enc8 st) src.
Proof.
  intros Hb Hl Hs. unfold ROUND_FUN. cbv zeta.
  assert (Hst : READ_STATE st = st) by (unfold READ_STATE; rewrite <-Hs; apply tabulate_id).
  assert (E0 : enc8 (ROUND0 (READ_DATA src) st) = sigma (enc8 st) src).
  { unfold ROUND0. rewrite enc8_xor.
    change (tabulate 8 (fun x => st !!! x)) with (READ_STATE st). rewrite Hst.
    change (tabulate 8 (fun x => READ_DATA src !!! x)) with (tabulate (length (READ_DATA src)) (fun x => READ_DATA src !!! x)).
    by rewrite tabulate_id, enc8_READ_DATA. }
  rewrite Hst. pose proof (rounds_spec st (ROUND0 (READ_DATA src) st) 10 Hs (length_tabulate _ _) ltac:(lia)) as H.
  rewrite E0 in H. fold (W_cipher Sb cir (enc8 st) src) in H.
  destruct (foldl _ _ (seq 0 10)) as [h n]. destruct H as (Hh & Hn & _ & En).
  split; [apply length_tabulate|]. unfold UPDATE_STATE. rewrite !enc8_xor.
  change (tabulate 8 (fun x => le_load 8 (slice (8 * x) 8 src))) with (READ_DATA src).
  rewrite enc8_READ_DATA by done.
  change (tabulate 8 (fun x => st !!! x)) with (READ_STATE st). rewrite Hst.
  assert (Hnn : tabulate 8 (fun x => n !!! x) = n) by (rewrite <-Hn; apply tabulate_id).
  rewrite Hnn, En. unfold wp_compress. apply map_ext_in. intros p Hp%in_seq.
  rewrite tabulate_lookup by lia. exact eq_refl.
Qed.
End Round.

Lemma Sbox_word x : word 8 x -> word 8 (Sbox x).
Proof.
  intros H. cut ((0 <=? Sbox x) && (Sbox x <? 256) = true); [unfold word; lia|].
  revert x H. apply (all_bytes_spec (fun x => (0 <=? Sbox x) && (Sbox x <? 256))). vm_compute. reflexivity.
Qed.
Lemma Sbox0_word x : word 8 x -> word 8 (Sbox0 x).
Proof. intros _. apply word_T8. Qed.

(** ** Padding and streaming *)

Lemma length_field_256 c cnt :
  enc c = BE64 -> plw c = PLW4 -> 0 <= cnt < 2 ^ 64 -> length_field c cnt 0 = be_store 32 (8 * cnt).
Proof.
  intros He Hp Hc. unfold length_field. rewrite He, Hp. unfold add64, shl64. rewrite Z.add_0_r.
  rewrite !be_store_T64. change 32%nat with (16 + (8 + 8))%nat. rewrite !be_store_app.
  assert (E1 : Z.shiftr (8 * cnt) (8 * Z.of_nat (8 + 8)) = 0).
  { rewrite Z.shiftr_div_pow2 by lia. apply Z.div_small. cbn. lia. }
  assert (E2 : Z.shiftr (8 * cnt) (8 * Z.of_nat 8) = Z.shiftr cnt 61).
  { rewrite !Z.shiftr_div_pow2 by lia. change (2 ^ (8 * Z.of_nat 8)) with (8 * 2 ^ 61).
    apply Z.div_mul_cancel_l; lia. }
  rewrite E1, E2, be_store_0, Z.shiftl_mul_pow2, Z.mul_comm by lia. exact eq_refl.
Qed.

Lemma md_pad_wp u m : Z.of_nat (length m) < 2 ^ 64 -> md_pad (whirlpool_cfg u) m 0 0 = wp_pad m.
Proof.
  intros Hm. unfold md_pad, wp_pad. rewrite length_field_256 by (done || lia).
  change (SPH_MAXPAD (whirlpool_cfg u)) with 32%nat. change (SPH_BLEN (whirlpool_cfg u)) with 64%nat. done.
Qed.

Lemma bytes_wp_pad m : bytes m -> bytes (wp_pad m).
Proof.
  intros Hm. unfold wp_pad. repeat apply Forall_app_2; [done| | |apply bytes_be_store].
  - by repeat constructor.
  - apply Forall_replicate. by apply word_0.
Qed.

Lemma print_state st :
  length st = 8%nat -> flat_map (fun i => le_store 8 (st !!! i)) (seq 0 8) = enc8 st.
Proof. intros Hl. do 8 (destruct st as [|? st]; [done|]). by destruct st. Qed.

Lemma wp_stream Sb cir T RC u junk pieces :
  tables_ok Sb cir T RC = true -> (forall x, word 8 x -> word 8 (Sb x)) ->
  length junk = 64%nat -> bytes (concat (pieces.*2)) ->
  Z.of_nat (length (concat (pieces.*2))) < 2 ^ 64 ->
  (MAKE_CLOSE (ROUND_FUN T RC) u
     (foldl (fun sc p => md_update (whirlpool_cfg u) (ROUND_FUN T RC) sc p.1 p.2)
            (sph_whirlpool_init junk) pieces)).2
  = wp_digest Sb cir (concat (pieces.*2)).
Proof.
  intros Hok HSb Hj Hb Hlt. unfold MAKE_CLOSE, md_close, sph_whirlpool_init. cbv zeta. cbn [snd].
  pose proof (stream_close (whirlpool_cfg u) (ROUND_FUN T RC) eq_refl junk (replicate 8 0) pieces 0 0 0 Hj Hlt) as E.
  cbv zeta in E. rewrite E. clear E. rewrite md_pad_wp by done.
  change (SPH_BLEN (whirlpool_cfg u)) with 64%nat.
  destruct (foldl_blocks_sim 64 (fun v b => ROUND_FUN T RC b v) (wp_compress Sb cir)
    (fun st H => length st = 8%nat /\ enc8 st = H) (replicate 8 0) (replicate 64 0)
    (wp_pad (concat (pieces.*2)))) as [Hl E].
  - intros st ? x [Hl <-] Hlx Hx. by apply ROUND_FUN_spec.
  - done.
  - by apply bytes_wp_pad.
  - rewrite print_state by done. exact E.
Qed.

(** Every table is the first one with its entries rotated. *)
Definition skew_ok (T : list (list Z)) : bool :=
  forallb (fun k => all_bytes (fun x =>
    (T !!! k) !!! Z.to_nat x =? table_skew ((T !!! 0%nat) !!! Z.to_nat x) k)) (seq 1 7).
Lemma skew_tables : forallb skew_ok [plain_T; old0_T; old1_T] = true.
Proof. vm_compute. reflexivity. Qed.

Lemma elt_skew T inp i k :
  skew_ok T = true -> (1 <= k < 8)%nat -> elt T inp i k = elt_small (T !!! 0%nat) inp i k.
Proof.
  intros H Hk. unfold skew_ok in H. rewrite forallb_forall in H.
  specialize (H k ltac:(apply in_seq; lia)). unfold elt, elt_small.
  set (x := BYTE _ _). assert (Hx : word 8 x) by (unfold x; rewrite BYTE_T8; apply word_T8).
  apply Z.eqb_eq. exact (all_bytes_spec _ H x Hx).
Qed.

Definition is_permutation (Sb : Z -> Z) : bool :=
  all_bytes (fun y => existsb (fun x => Sb x =? y) (tabulate 256 Z.of_nat)).

(** ** Properties *)

(** C10. Streaming Whirlpool: any sequence of updates at any addresses, then
    [sph_whirlpool_close], outputs the standard's digest of the concatenation:
    the Miyaguchi-Preneel iteration of the ten-round cipher W (S-box from the
    4-bit boxes, column shifts, circulant matrix 1,1,4,1,8,5,2,9 over GF(2^8))
    over the message padded with a one bit, zeros and its 256-bit length.  The
    earlier versions are the same construction: Whirlpool-1 with the matrix
    1,1,3,1,5,8,9,5, Whirlpool-0 with that matrix and the pseudo-random S-box its
    first table holds, which is a permutation of the bytes.  It holds for all
    lengths the 64-bit byte count can hold: the bits of [8 * count] that do not fit
    the last word go to the word before it, so messages of 2^61 bytes and more are
    hashed properly too, although a comment of [md_helper.c] says that they are not,
    with any settings. *)
Theorem whirlpool_streaming u junk pieces :
  length junk = 64%nat -> bytes (concat (pieces.*2)) ->
  Z.of_nat (length (concat (pieces.*2))) < 2 ^ 64 ->
  (sph_whirlpool_close u
     (foldl (fun sc p => sph_whirlpool u sc p.1 p.2) (sph_whirlpool_init junk) pieces)).2
    = wp_digest Sbox cir_plain (concat (pieces.*2)) /\
  (sph_whirlpool0_close u
     (foldl (fun sc p => sph_whirlpool0 u sc p.1 p.2) (sph_whirlpool_init junk) pieces)).2
    = wp_digest Sbox0 cir_old (concat (pieces.*2)) /\
  (sph_whirlpool1_close u
     (foldl (fun sc p => sph_whirlpool1 u sc p.1 p.2) (sph_whirlpool_init junk) pieces)).2
    = wp_digest Sbox cir_old (concat (pieces.*2)) /\
  is_permutation Sbox0 = true.
Proof.
  intros Hj Hb Hlt. split; [|split; [|split]].
  - by apply wp_stream; [apply plain_tables|apply Sbox_word| | |].
  - by apply wp_stream; [apply old0_tables|apply Sbox0_word| | |].
  - by apply wp_stream; [apply old1_tables|apply Sbox_word| | |].
  - vm_compute. reflexivity.
Qed.

Lemma whirlpool_streaming_witness :
  (sph_whirlpool_close false
     (foldl (fun sc p => sph_whirlpool false sc p.1 p.2) (sph_whirlpool_init (replicate 64 3))
        [(1, replicate 70 0x41); (64, replicate 130 0x42)])).2
  = wp_digest Sbox cir_plain (replicate 70 0x41 ++ replicate 130 0x42).
Proof.
  refine (proj1 (whirlpool_streaming false (replicate 64 3) [(1, replicate 70 0x41); (64, replicate 130 0x42)] _ _ _));
    first [exact eq_refl | apply byte_list_dec; exact eq_refl].
Defined.
(** The small-footprint build computes the same round elements from the
    first table alone: each of the other seven tables is its rotation by a
    multiple of 8 bits, for all three versions. *)
Lemma whirlpool_small_footprint T inp i0 i1 i2 i3 i4 i5 i6 i7 :
  In T [plain_T; old0_T; old1_T] ->
  ROUND_ELT_small (T !!! 0%nat) inp i0 i1 i2 i3 i4 i5 i6 i7
  = ROUND_ELT T inp i0 i1 i2 i3 i4 i5 i6 i7.
Proof.
  intros HT. pose proof skew_tables as H. rewrite forallb_forall in H. specialize (H T HT).
  unfold ROUND_ELT, ROUND_ELT_small.
  rewrite (elt_skew T inp i1 1), (elt_skew T inp i2 2), (elt_skew T inp i3 3), (elt_skew T inp i4 4),
    (elt_skew T inp i5 5), (elt_skew T inp i6 6), (elt_skew T inp i7 7) by (done || lia).
  exact eq_refl.
Qed.
