(* ===== verification/Keccak.v ===== *)
(** * Keccak ([crypto/ghostrider/sph_keccak.c]), 64-bit build.

    The permutation is written with macros over 25 lanes: instead of moving lanes
    in the pi step, each round reads them through another permutation of names
    ([P0] .. [P23]), and six lanes are kept complemented so that most of the
    negations of chi disappear.  The theorems show that, for every unrolling the
    file supports, this is Keccak-f[1600] of FIPS 202 on the complemented lanes,
    and that the streaming functions are the sponge with the original Keccak
    padding. *)
From Stdlib Require Import Btauto.
From S2P Require Import Prelude Stream.

Definition RC : list Z := [
  0x0000000000000001; 0x0000000000008082; 0x800000000000808A; 0x8000000080008000;
  0x000000000000808B; 0x0000000080000001; 0x8000000080008081; 0x8000000000008009;
  0x000000000000008A; 0x0000000000000088; 0x0000000080008009; 0x000000008000000A;
  0x000000008000808B; 0x800000000000008B; 0x8000000000008089; 0x8000000000008003;
  0x8000000000008002; 0x8000000000000080; 0x000000000000800A; 0x800000008000000A;
  0x8000000080008081; 0x8000000000008080; 0x0000000080000001; 0x8000000080008008].

(** The lanes [a00 .. a44] are positions of [kc->u.wide]. *)
Definition a00 : nat := 0.
Definition a10 : nat := 1.
Definition a20 : nat := 2.
Definition a30 : nat := 3.
Definition a40 : nat := 4.
Definition a01 : nat := 5.
Definition a11 : nat := 6.
Definition a21 : nat := 7.
Definition a31 : nat := 8.
Definition a41 : nat := 9.
Definition a02 : nat := 10.
Definition a12 : nat := 11.
Definition a22 : nat := 12.
Definition a32 : nat := 13.
Definition a42 : nat := 14.
Definition a03 : nat := 15.
Definition a13 : nat := 16.
Definition a23 : nat := 17.
Definition a33 : nat := 18.
Definition a43 : nat := 19.
Definition a04 : nat := 20.
Definition a14 : nat := 21.
Definition a24 : nat := 22.
Definition a34 : nat := 23.
Definition a44 : nat := 24.

(** Round [r] reads lane b(x, y) under the name [Pr] gives it. *)
Definition P0 : list nat :=
  [a00; a01; a02; a03; a04; a10; a11; a12; a13; a14; a20; a21; a22;
   a23; a24; a30; a31; a32; a33; a34; a40; a41; a42; a43; a44].
Definition P1 : list nat :=
  [a00; a30; a10; a40; a20; a11; a41; a21; a01; a31; a22; a02; a32;
   a12; a42; a33; a13; a43; a23; a03; a44; a24; a04; a34; a14].
Definition P2 : list nat :=
  [a00; a33; a11; a44; a22; a41; a24; a02; a30; a13; a32; a10; a43;
   a21; a04; a23; a01; a34; a12; a40; a14; a42; a20; a03; a31].
Definition P3 : list nat :=
  [a00; a23; a41; a14; a32; a24; a42; a10; a33; a01; a43; a11; a34;
   a02; a20; a12; a30; a03; a21; a44; a31; a04; a22; a40; a13].
Definition P4 : list nat :=
  [a00; a12; a24; a31; a43; a42; a04; a11; a23; a30; a34; a41; a03;
   a10; a22; a21; a33; a40; a02; a14; a13; a20; a32; a44; a01].
Definition P5 : list nat :=
  [a00; a21; a42; a13; a34; a04; a20; a41; a12; a33; a03; a24; a40;
   a11; a32; a02; a23; a44; a10; a31; a01; a22; a43; a14; a30].
Definition P6 : list nat :=
  [a00; a02; a04; a01; a03; a20; a22; a24; a21; a23; a40; a42; a44;
   a41; a43; a10; a12; a14; a11; a13; a30; a32; a34; a31; a33].
Definition P7 : list nat :=
  [a00; a10; a20; a30; a40; a22; a32; a42; a02; a12; a44; a04; a14;
   a24; a34; a11; a21; a31; a41; a01; a33; a43; a03; a13; a23].
Definition P8 : list nat :=
  [a00; a11; a22; a33; a44; a32; a43; a04; a10; a21; a14; a20; a31;
   a42; a03; a41; a02; a13; a24; a30; a23; a34; a40; a01; a12].
Definition P9 : list nat :=
  [a00; a41; a32; a23; a14; a43; a34; a20; a11; a02; a31; a22; a13;
   a04; a40; a24; a10; a01; a42; a33; a12; a03; a44; a30; a21].
Definition P10 : list nat :=
  [a00; a24; a43; a12; a31; a34; a03; a22; a41; a10; a13; a32; a01;
   a20; a44; a42; a11; a30; a04; a23; a21; a40; a14; a33; a02].
Definition P11 : list nat :=
  [a00; a42; a34; a21; a13; a03; a40; a32; a24; a11; a01; a43; a30;
   a22; a14; a04; a41; a33; a20; a12; a02; a44; a31; a23; a10].
Definition P12 : list nat :=
  [a00; a04; a03; a02; a01; a40; a44; a43; a42; a41; a30; a34; a33;
   a32; a31; a20; a24; a23; a22; a21; a10; a14; a13; a12; a11].
Definition P13 : list nat :=
  [a00; a20; a40; a10; a30; a44; a14; a34; a04; a24; a33; a03; a23;
   a43; a13; a22; a42; a12; a32; a02; a11; a31; a01; a21; a41].
Definition P14 : list nat :=
  [a00; a22; a44; a11; a33; a14; a31; a03; a20; a42; a23; a40; a12;
   a34; a01; a32; a04; a21; a43; a10; a41; a13; a30; a02; a24].
Definition P15 : list nat :=
  [a00; a32; a14; a41; a23; a31; a13; a40; a22; a04; a12; a44; a21;
   a03; a30; a43; a20; a02; a34; a11; a24; a01; a33; a10; a42].
Definition P16 : list nat :=
  [a00; a43; a31; a24; a12; a13; a01; a44; a32; a20; a21; a14; a02;
   a40; a33; a34; a22; a10; a03; a41; a42; a30; a23; a11; a04].
Definition P17 : list nat :=
  [a00; a34; a13; a42; a21; a01; a30; a14; a43; a22; a02; a31; a10;
   a44; a23; a03; a32; a11; a40; a24; a04; a33; a12; a41; a20].
Definition P18 : list nat :=
  [a00; a03; a01; a04; a02; a30; a33; a31; a34; a32; a10; a13; a11;
   a14; a12; a40; a43; a41; a44; a42; a20; a23; a21; a24; a22].
Definition P19 : list nat :=
  [a00; a40; a30; a20; a10; a33; a23; a13; a03; a43; a11; a01; a41;
   a31; a21; a44; a34; a24; a14; a04; a22; a12; a02; a42; a32].
Definition P20 : list nat :=
  [a00; a44; a33; a22; a11; a23; a12; a01; a40; a34; a41; a30; a24;
   a13; a02; a14; a03; a42; a31; a20; a32; a21; a10; a04; a43].
Definition P21 : list nat :=
  [a00; a14; a23; a32; a41; a12; a21; a30; a44; a03; a24; a33; a42;
   a01; a10; a31; a40; a04; a13; a22; a43; a02; a11; a20; a34].
Definition P22 : list nat :=
  [a00; a31; a12; a43; a24; a21; a02; a33; a14; a40; a42; a23; a04;
   a30; a11; a13; a44; a20; a01; a32; a34; a10; a41; a22; a03].
Definition P23 : list nat :=
  [a00; a13; a21; a34; a42; a02; a10; a23; a31; a44; a04; a12; a20;
   a33; a41; a01; a14; a22; a30; a43; a03; a11; a24; a32; a40].

(** ** The step macros, on the 25 values [b00; b01; ..; b44]. *)

Definition TH_ELT (c0 c1 c2 c3 c4 d0 d1 d2 d3 d4 : Z) : Z :=
  let tt0 := Z.lxor d0 d1 in
  let tt1 := Z.lxor d2 d3 in
  let tt0 := Z.lxor tt0 d4 in
  let tt0 := Z.lxor tt0 tt1 in
  let tt0 := rotl64 tt0 1 in
  let tt2 := Z.lxor c0 c1 in
  let tt3 := Z.lxor c2 c3 in
  let tt0 := Z.lxor tt0 c4 in
  let tt2 := Z.lxor tt2 tt3 in
  Z.lxor tt0 tt2.
Definition KHI_XO (a b c : Z) : Z := Z.lxor a (Z.lor b c).
Definition KHI_XA (a b c : Z) : Z := Z.lxor a (Z.land b c).

Definition THETA (b : list Z) : list Z :=
  let b00 := b !!! 0%nat in let b01 := b !!! 1%nat in let b02 := b !!! 2%nat in
    let b03 := b !!! 3%nat in let b04 := b !!! 4%nat in
  let b10 := b !!! 5%nat in let b11 := b !!! 6%nat in let b12 := b !!! 7%nat in
    let b13 := b !!! 8%nat in let b14 := b !!! 9%nat in
  let b20 := b !!! 10%nat in let b21 := b !!! 11%nat in let b22 := b !!! 12%nat in
    let b23 := b !!! 13%nat in let b24 := b !!! 14%nat in
  let b30 := b !!! 15%nat in let b31 := b !!! 16%nat in let b32 := b !!! 17%nat in
    let b33 := b !!! 18%nat in let b34 := b !!! 19%nat in
  let b40 := b !!! 20%nat in let b41 := b !!! 21%nat in let b42 := b !!! 22%nat in
    let b43 := b !!! 23%nat in let b44 := b !!! 24%nat in
  let t0 := TH_ELT b40 b41 b42 b43 b44 b10 b11 b12 b13 b14 in
  let t1 := TH_ELT b00 b01 b02 b03 b04 b20 b21 b22 b23 b24 in
  let t2 := TH_ELT b10 b11 b12 b13 b14 b30 b31 b32 b33 b34 in
  let t3 := TH_ELT b20 b21 b22 b23 b24 b40 b41 b42 b43 b44 in
  let t4 := TH_ELT b30 b31 b32 b33 b34 b00 b01 b02 b03 b04 in
  [Z.lxor b00 t0; Z.lxor b01 t0; Z.lxor b02 t0; Z.lxor b03 t0; Z.lxor b04 t0;
   Z.lxor b10 t1; Z.lxor b11 t1; Z.lxor b12 t1; Z.lxor b13 t1; Z.lxor b14 t1;
   Z.lxor b20 t2; Z.lxor b21 t2; Z.lxor b22 t2; Z.lxor b23 t2; Z.lxor b24 t2;
   Z.lxor b30 t3; Z.lxor b31 t3; Z.lxor b32 t3; Z.lxor b33 t3; Z.lxor b34 t3;
   Z.lxor b40 t4; Z.lxor b41 t4; Z.lxor b42 t4; Z.lxor b43 t4; Z.lxor b44 t4].

Definition RHO (b : list Z) : list Z :=
  let b00 := b !!! 0%nat in let b01 := b !!! 1%nat in let b02 := b !!! 2%nat in
    let b03 := b !!! 3%nat in let b04 := b !!! 4%nat in
  let b10 := b !!! 5%nat in let b11 := b !!! 6%nat in let b12 := b !!! 7%nat in
    let b13 := b !!! 8%nat in let b14 := b !!! 9%nat in
  let b20 := b !!! 10%nat in let b21 := b !!! 11%nat in let b22 := b !!! 12%nat in
    let b23 := b !!! 13%nat in let b24 := b !!! 14%nat in
  let b30 := b !!! 15%nat in let b31 := b !!! 16%nat in let b32 := b !!! 17%nat in
    let b33 := b !!! 18%nat in let b34 := b !!! 19%nat in
  let b40 := b !!! 20%nat in let b41 := b !!! 21%nat in let b42 := b !!! 22%nat in
    let b43 := b !!! 23%nat in let b44 := b !!! 24%nat in
  [b00; rotl64 b01 36; rotl64 b02 3; rotl64 b03 41; rotl64 b04 18;
   rotl64 b10 1; rotl64 b11 44; rotl64 b12 10; rotl64 b13 45; rotl64 b14 2;
   rotl64 b20 62; rotl64 b21 6; rotl64 b22 43; rotl64 b23 15; rotl64 b24 61;
   rotl64 b30 28; rotl64 b31 55; rotl64 b32 25; rotl64 b33 21; rotl64 b34 56;
   rotl64 b40 27; rotl64 b41 20; rotl64 b42 39; rotl64 b43 8; rotl64 b44 14].

Definition KHI (b : list Z) : list Z :=
  let b00 := b !!! 0%nat in let b01 := b !!! 1%nat in let b02 := b !!! 2%nat in
    let b03 := b !!! 3%nat in let b04 := b !!! 4%nat in
  let b10 := b !!! 5%nat in let b11 := b !!! 6%nat in let b12 := b !!! 7%nat in
    let b13 := b !!! 8%nat in let b14 := b !!! 9%nat in
  let b20 := b !!! 10%nat in let b21 := b !!! 11%nat in let b22 := b !!! 12%nat in
    let b23 := b !!! 13%nat in let b24 := b !!! 14%nat in
  let b30 := b !!! 15%nat in let b31 := b !!! 16%nat in let b32 := b !!! 17%nat in
    let b33 := b !!! 18%nat in let b34 := b !!! 19%nat in
  let b40 := b !!! 20%nat in let b41 := b !!! 21%nat in let b42 := b !!! 22%nat in
    let b43 := b !!! 23%nat in let b44 := b !!! 24%nat in
  let bnn := not64 b20 in
  let c0 := KHI_XO b00 b10 b20 in  let c1 := KHI_XO b10 bnn b30 in  let c2 := KHI_XA b20 b30 b40 in
  let c3 := KHI_XO b30 b40 b00 in  let c4 := KHI_XA b40 b00 b10 in
  let b00 := c0 in  let b10 := c1 in  let b20 := c2 in  let b30 := c3 in  let b40 := c4 in
  let bnn := not64 b41 in
  let c0 := KHI_XO b01 b11 b21 in  let c1 := KHI_XA b11 b21 b31 in  let c2 := KHI_XO b21 b31 bnn in
  let c3 := KHI_XO b31 b41 b01 in  let c4 := KHI_XA b41 b01 b11 in
  let b01 := c0 in  let b11 := c1 in  let b21 := c2 in  let b31 := c3 in  let b41 := c4 in
  let bnn := not64 b32 in
  let c0 := KHI_XO b02 b12 b22 in  let c1 := KHI_XA b12 b22 b32 in  let c2 := KHI_XA b22 bnn b42 in
  let c3 := KHI_XO bnn b42 b02 in  let c4 := KHI_XA b42 b02 b12 in
  let b02 := c0 in  let b12 := c1 in  let b22 := c2 in  let b32 := c3 in  let b42 := c4 in
  let bnn := not64 b33 in
  let c0 := KHI_XA b03 b13 b23 in  let c1 := KHI_XO b13 b23 b33 in  let c2 := KHI_XO b23 bnn b43 in
  let c3 := KHI_XA bnn b43 b03 in  let c4 := KHI_XO b43 b03 b13 in
  let b03 := c0 in  let b13 := c1 in  let b23 := c2 in  let b33 := c3 in  let b43 := c4 in
  let bnn := not64 b14 in
  let c0 := KHI_XA b04 bnn b24 in  let c1 := KHI_XO bnn b24 b34 in  let c2 := KHI_XA b24 b34 b44 in
  let c3 := KHI_XO b34 b44 b04 in  let c4 := KHI_XA b44 b04 b14 in
  let b04 := c0 in  let b14 := c1 in  let b24 := c2 in  let b34 := c3 in  let b44 := c4 in
  [b00; b01; b02; b03; b04;
   b10; b11; b12; b13; b14;
   b20; b21; b22; b23; b24;
   b30; b31; b32; b33; b34;
   b40; b41; b42; b43; b44].

Definition P1_TO_P0 (w : list Z) : list Z :=
  let t := w !!! a01 in let w := <[a01 := w !!! a30]> w in let w := <[a30 := w !!! a33]> w in
  let w := <[a33 := w !!! a23]> w in let w := <[a23 := w !!! a12]> w in let w := <[a12 := w !!! a21]> w in
  let w := <[a21 := w !!! a02]> w in let w := <[a02 := w !!! a10]> w in let w := <[a10 := w !!! a11]> w in
  let w := <[a11 := w !!! a41]> w in let w := <[a41 := w !!! a24]> w in let w := <[a24 := w !!! a42]> w in
  let w := <[a42 := w !!! a04]> w in let w := <[a04 := w !!! a20]> w in let w := <[a20 := w !!! a22]> w in
  let w := <[a22 := w !!! a32]> w in let w := <[a32 := w !!! a43]> w in let w := <[a43 := w !!! a34]> w in
  let w := <[a34 := w !!! a03]> w in let w := <[a03 := w !!! a40]> w in let w := <[a40 := w !!! a44]> w in
  let w := <[a44 := w !!! a14]> w in let w := <[a14 := w !!! a31]> w in let w := <[a31 := w !!! a13]> w in
  let w := <[a13 := t]> w in
  w.

Definition P2_TO_P0 (w : list Z) : list Z :=
  let t := w !!! a01 in let w := <[a01 := w !!! a33]> w in let w := <[a33 := w !!! a12]> w in
  let w := <[a12 := w !!! a02]> w in let w := <[a02 := w !!! a11]> w in let w := <[a11 := w !!! a24]> w in
  let w := <[a24 := w !!! a04]> w in let w := <[a04 := w !!! a22]> w in let w := <[a22 := w !!! a43]> w in
  let w := <[a43 := w !!! a03]> w in let w := <[a03 := w !!! a44]> w in let w := <[a44 := w !!! a31]> w in
  let w := <[a31 := t]> w in let t := w !!! a10 in let w := <[a10 := w !!! a41]> w in
  let w := <[a41 := w !!! a42]> w in let w := <[a42 := w !!! a20]> w in let w := <[a20 := w !!! a32]> w in
  let w := <[a32 := w !!! a34]> w in let w := <[a34 := w !!! a40]> w in let w := <[a40 := w !!! a14]> w in
  let w := <[a14 := w !!! a13]> w in let w := <[a13 := w !!! a30]> w in let w := <[a30 := w !!! a23]> w in
  let w := <[a23 := w !!! a21]> w in let w := <[a21 := t]> w in
  w.

Definition P4_TO_P0 (w : list Z) : list Z :=
  let t := w !!! a01 in let w := <[a01 := w !!! a12]> w in let w := <[a12 := w !!! a11]> w in
  let w := <[a11 := w !!! a04]> w in let w := <[a04 := w !!! a43]> w in let w := <[a43 := w !!! a44]> w in
  let w := <[a44 := t]> w in let t := w !!! a02 in let w := <[a02 := w !!! a24]> w in
  let w := <[a24 := w !!! a22]> w in let w := <[a22 := w !!! a03]> w in let w := <[a03 := w !!! a31]> w in
  let w := <[a31 := w !!! a33]> w in let w := <[a33 := t]> w in let t := w !!! a10 in
  let w := <[a10 := w !!! a42]> w in let w := <[a42 := w !!! a32]> w in let w := <[a32 := w !!! a40]> w in
  let w := <[a40 := w !!! a13]> w in let w := <[a13 := w !!! a23]> w in let w := <[a23 := t]> w in
  let t := w !!! a14 in let w := <[a14 := w !!! a30]> w in let w := <[a30 := w !!! a21]> w in
  let w := <[a21 := w !!! a41]> w in let w := <[a41 := w !!! a20]> w in let w := <[a20 := w !!! a34]> w in
  let w := <[a34 := t]> w in
  w.

Definition P6_TO_P0 (w : list Z) : list Z :=
  let t := w !!! a01 in let w := <[a01 := w !!! a02]> w in let w := <[a02 := w !!! a04]> w in
  let w := <[a04 := w !!! a03]> w in let w := <[a03 := t]> w in let t := w !!! a10 in
  let w := <[a10 := w !!! a20]> w in let w := <[a20 := w !!! a40]> w in let w := <[a40 := w !!! a30]> w in
  let w := <[a30 := t]> w in let t := w !!! a11 in let w := <[a11 := w !!! a22]> w in
  let w := <[a22 := w !!! a44]> w in let w := <[a44 := w !!! a33]> w in let w := <[a33 := t]> w in
  let t := w !!! a12 in let w := <[a12 := w !!! a24]> w in let w := <[a24 := w !!! a43]> w in
  let w := <[a43 := w !!! a31]> w in let w := <[a31 := t]> w in let t := w !!! a13 in
  let w := <[a13 := w !!! a21]> w in let w := <[a21 := w !!! a42]> w in let w := <[a42 := w !!! a34]> w in
  let w := <[a34 := t]> w in let t := w !!! a14 in let w := <[a14 := w !!! a23]> w in
  let w := <[a23 := w !!! a41]> w in let w := <[a41 := w !!! a32]> w in let w := <[a32 := t]> w in
  w.

Definition P8_TO_P0 (w : list Z) : list Z :=
  let t := w !!! a01 in let w := <[a01 := w !!! a11]> w in let w := <[a11 := w !!! a43]> w in
  let w := <[a43 := t]> w in let t := w !!! a02 in let w := <[a02 := w !!! a22]> w in
  let w := <[a22 := w !!! a31]> w in let w := <[a31 := t]> w in let t := w !!! a03 in
  let w := <[a03 := w !!! a33]> w in let w := <[a33 := w !!! a24]> w in let w := <[a24 := t]> w in
  let t := w !!! a04 in let w := <[a04 := w !!! a44]> w in let w := <[a44 := w !!! a12]> w in
  let w := <[a12 := t]> w in let t := w !!! a10 in let w := <[a10 := w !!! a32]> w in
  let w := <[a32 := w !!! a13]> w in let w := <[a13 := t]> w in let t := w !!! a14 in
  let w := <[a14 := w !!! a21]> w in let w := <[a21 := w !!! a20]> w in let w := <[a20 := t]> w in
  let t := w !!! a23 in let w := <[a23 := w !!! a42]> w in let w := <[a42 := w !!! a40]> w in
  let w := <[a40 := t]> w in let t := w !!! a30 in let w := <[a30 := w !!! a41]> w in
  let w := <[a41 := w !!! a34]> w in let w := <[a34 := t]> w in
  w.

Definition P12_TO_P0 (w : list Z) : list Z :=
  let t := w !!! a01 in let w := <[a01 := w !!! a04]> w in let w := <[a04 := t]> w in let t := w !!! a02 in
  let w := <[a02 := w !!! a03]> w in let w := <[a03 := t]> w in let t := w !!! a10 in
  let w := <[a10 := w !!! a40]> w in let w := <[a40 := t]> w in let t := w !!! a11 in
  let w := <[a11 := w !!! a44]> w in let w := <[a44 := t]> w in let t := w !!! a12 in
  let w := <[a12 := w !!! a43]> w in let w := <[a43 := t]> w in let t := w !!! a13 in
  let w := <[a13 := w !!! a42]> w in let w := <[a42 := t]> w in let t := w !!! a14 in
  let w := <[a14 := w !!! a41]> w in let w := <[a41 := t]> w in let t := w !!! a20 in
  let w := <[a20 := w !!! a30]> w in let w := <[a30 := t]> w in let t := w !!! a21 in
  let w := <[a21 := w !!! a34]> w in let w := <[a34 := t]> w in let t := w !!! a22 in
  let w := <[a22 := w !!! a33]> w in let w := <[a33 := t]> w in let t := w !!! a23 in
  let w := <[a23 := w !!! a32]> w in let w := <[a32 := t]> w in let t := w !!! a24 in
  let w := <[a24 := w !!! a31]> w in let w := <[a31 := t]> w in
  w.

Definition Ps : list (list nat) :=
  [P0; P1; P2; P3; P4; P5; P6; P7; P8; P9; P10; P11;
   P12; P13; P14; P15; P16; P17; P18; P19; P20; P21; P22; P23].

(** [MACRO LPAR P##r RPAR]: the macro works on the lanes its arguments name. *)
Definition gather_lanes (P : list nat) (w : list Z) : list Z := (fun l => w !!! l) <$> P.
Definition scatter (P : list nat) (vs w : list Z) : list Z :=
  foldl (fun w lv => <[lv.1 := lv.2]> w) w (zip P vs).
Definition on (P : list nat) (f : list Z -> list Z) (w : list Z) : list Z :=
  scatter P (f (gather_lanes P w)) w.

Definition KF_ELT (r s : nat) (k : Z) (w : list Z) : list Z :=
  let w := on (Ps !!! r) THETA w in
  let w := on (Ps !!! r) RHO w in
  let w := on (Ps !!! s) KHI w in
  <[a00 := Z.lxor (w !!! a00) k]> w.

(** [for (j = 0; j < 24; j += n) { KF_ELT(0, 1, RC[j + 0]); ..; Pn_TO_P0; }]. *)
Definition unrolled (n : nat) (back : list Z -> list Z) (w : list Z) : list Z :=
  foldl (fun w t =>
    let j := (n * t)%nat in
    back (foldl (fun w i => KF_ELT i (i + 1) (RC !!! (j + i)%nat) w) w (seq 0 n)))
    w (seq 0 (24 / n)).

(** [SPH_KECCAK_UNROLL]: 8 by default, 2 on small systems; [None] is the
    [#error]. *)
Definition KECCAK_F_1600 (unroll : nat) (w : list Z) : option (list Z) :=
  match unroll with
  | 1%nat => Some (unrolled 1 P1_TO_P0 w)
  | 2%nat => Some (unrolled 2 P2_TO_P0 w)
  | 4%nat => Some (unrolled 4 P4_TO_P0 w)
  | 6%nat => Some (unrolled 6 P6_TO_P0 w)
  | 8%nat => Some (unrolled 8 P8_TO_P0 w)
  | 12%nat => Some (unrolled 12 P12_TO_P0 w)
  | 0%nat => Some (foldl (fun w i => KF_ELT i ((i + 1) mod 24) (RC !!! i) w) w (seq 0 24))
  | _ => None
  end.

(** ** Contexts *)

Record sph_keccak_context := mk_kc {
  kbuf : list Z;   (* unsigned char buf[144] *)
  ptr : nat;
  lim : nat;
  wide : list Z    (* u.wide[25] *)
}.

(** [kc->u.wide[i] = ~kc->u.wide[i]] for the six complemented lanes. *)
Definition flip_lanes (w : list Z) : list Z :=
  foldl (fun w i => <[i := not64 (w !!! i)]> w) w [1; 2; 8; 12; 17; 20]%nat.

Definition keccak_init (junk : list Z) (out_size : nat) : sph_keccak_context :=
  let w := foldl (fun w i => <[i := 0xFFFFFFFFFFFFFFFF]> w) (replicate 25 0) [1; 2; 8; 12; 17; 20]%nat in
  mk_kc junk 0 (200 - out_size / 4) w.

(** [for (j = 0; j < size; j += 8) wide[j >> 3] ^= sph_dec64le_aligned(buf + j)]. *)
Definition INPUT_BUF (size : nat) (buf w : list Z) : list Z :=
  foldl (fun w t => <[t := Z.lxor (w !!! t) (le_load 8 (slice (8 * t) 8 buf))]> w) w (seq 0 (size / 8)).

(** The permutation of the default build. *)
Definition KECCAK_F_1600_default (w : list Z) : list Z := unrolled 8 P8_TO_P0 w.

(** The loop of [keccak_core]; each trip consumes at least one byte. *)
Fixpoint core_loop (fuel : nat) (lim : nat) (buf : list Z) (ptr : nat) (w data : list Z)
    : list Z * nat * list Z :=
  match data, fuel with
  | [], _ | _, O => (buf, ptr, w)
  | _, S fuel =>
      let clen := Nat.min (lim - ptr) (length data) in
      let buf := memcpy buf ptr (take clen data) in
      let ptr := (ptr + clen)%nat in
      if (ptr =? lim)%nat
      then core_loop fuel lim buf 0 (KECCAK_F_1600_default (INPUT_BUF lim buf w)) (drop clen data)
      else core_loop fuel lim buf ptr w (drop clen data)
  end.

Definition keccak_core (kc : sph_keccak_context) (data : list Z) (l : nat) : sph_keccak_context :=
  if (length data <? l - ptr kc)%nat
  then mk_kc (memcpy (kbuf kc) (ptr kc) data) (ptr kc + length data) (lim kc) (wide kc)
  else let '(b, p, w) := core_loop (length data) l (kbuf kc) (ptr kc) (wide kc) data in
       mk_kc b p (lim kc) w.

Definition hard_coded_eb : Z := 1.

(** [DEFCLOSE(d, lim)]: the extra bits [ub] are not used, and [n] only when the
    padding has a single byte. *)
Definition close_pad (l p : nat) (n : Z) : list Z :=
  let eb := hard_coded_eb in
  if (p =? l - 1)%nat then
    if n =? 7 then [T8 eb] ++ replicate (l - 1) 0 ++ [0x80] else [T8 (Z.lor eb 0x80)]
  else [T8 eb] ++ replicate (l - p - 2) 0 ++ [0x80].
Definition keccak_close (d l : nat) (kc : sph_keccak_context) (ub n : Z) : sph_keccak_context * list Z :=
  let kc := keccak_core kc (close_pad l (ptr kc) n) l in
  let w := flip_lanes (wide kc) in
  (mk_kc (kbuf kc) (ptr kc) (lim kc) w,
   take d (flat_map (fun j => le_store 8 (w !!! j)) (seq 0 ((d + 7) / 8)))).

(** The four output sizes. *)
Definition sph_keccak224_init (junk : list Z) := keccak_init junk 224.
Definition sph_keccak224 kc data := keccak_core kc data 144.
Definition sph_keccak224_addbits_and_close kc ub n := keccak_close 28 144 kc ub n.
Definition sph_keccak224_close kc := sph_keccak224_addbits_and_close kc 0 0.
Definition sph_keccak256_init (junk : list Z) := keccak_init junk 256.
Definition sph_keccak256 kc data := keccak_core kc data 136.
Definition sph_keccak256_addbits_and_close kc ub n := keccak_close 32 136 kc ub n.
Definition sph_keccak256_close kc := sph_keccak256_addbits_and_close kc 0 0.
Definition sph_keccak384_init (junk : list Z) := keccak_init junk 384.
Definition sph_keccak384 kc data := keccak_core kc data 104.
Definition sph_keccak384_addbits_and_close kc ub n := keccak_close 48 104 kc ub n.
Definition sph_keccak384_close kc := sph_keccak384_addbits_and_close kc 0 0.
Definition sph_keccak512_init (junk : list Z) := keccak_init junk 512.
Definition sph_keccak512 kc data := keccak_core kc data 72.
Definition sph_keccak512_addbits_and_close kc ub n := keccak_close 64 72 kc ub n.
Definition sph_keccak512_close kc := sph_keccak512_addbits_and_close kc 0 0.

(** ** Reference: Keccak-f[1600] of FIPS 202.  Lane (x, y) is at [x + 5 y]. *)

Definition lane (A : list Z) (x y : nat) : Z := A !!! (x mod 5 + 5 * (y mod 5))%nat.
Definition mk_state (f : nat -> nat -> Z) : list Z := tabulate 25 (fun j => f (j mod 5) (j / 5))%nat.

Definition column (A : list Z) (x : nat) : Z :=
  Z.lxor (Z.lxor (Z.lxor (Z.lxor (lane A x 0) (lane A x 1)) (lane A x 2)) (lane A x 3)) (lane A x 4).
Definition theta (A : list Z) : list Z :=
  mk_state (fun x y => Z.lxor (lane A x y) (Z.lxor (column A (x + 4)) (rotl64 (column A (x + 1)) 1))).

(** The rotation offsets, by the walk (x, y) -> (y, 2 x + 3 y) from (1, 0). *)
Fixpoint rho_walk (k t x y : nat) (off : list Z) : list Z :=
  match k with
  | O => off
  | S k => rho_walk k (S t) y ((2 * x + 3 * y) mod 5)
             (<[(x + 5 * y)%nat := Z.of_nat ((t + 1) * (t + 2) / 2) mod 64]> off)
  end.
Definition rho_offsets : list Z := Eval vm_compute in rho_walk 24 0 1 0 (replicate 25 0).
Definition rho (A : list Z) : list Z :=
  mk_state (fun x y => rotl64 (lane A x y) (rho_offsets !!! (x + 5 * y)%nat)).
Definition pi (A : list Z) : list Z := mk_state (fun x y => lane A (x + 3 * y) x).
Definition chi (A : list Z) : list Z :=
  mk_state (fun x y => Z.lxor (lane A x y) (Z.land (not64 (lane A (x + 1) y)) (lane A (x + 2) y))).
Definition iota (k : Z) (A : list Z) : list Z := <[0%nat := Z.lxor (A !!! 0%nat) k]> A.

(** The round constants, from the linear-feedback register of the standard. *)
Definition lfsr (x : Z) : Z := let y := 2 * x in if y <? 256 then y else Z.land (Z.lxor y 0x71) 0xFF.
Definition rc_bit (t : nat) : Z := Z.land (Nat.iter t lfsr 1) 1.
Definition round_constant (i : nat) : Z :=
  foldl (fun acc j => Z.lor acc (Z.shiftl (rc_bit (j + 7 * i)) (2 ^ Z.of_nat j - 1))) 0 (seq 0 7).

Definition keccak_round (A : list Z) (i : nat) : list Z :=
  iota (round_constant i) (chi (pi (rho (theta A)))).
Definition keccak_f (A : list Z) : list Z := foldl keccak_round A (seq 0 24).

(** The sponge with rate [l] bytes and the padding of the Keccak submission (a
    one bit, zeros, a one bit, without the domain bits of SHA-3). *)
Definition xor_in (l : nat) (block A : list Z) : list Z :=
  tabulate 25 (fun j => if (j <? l / 8)%nat then Z.lxor (A !!! j) (le_load 8 (slice (8 * j) 8 block)) else A !!! j).
Definition absorb_block (l : nat) (A block : list Z) : list Z := keccak_f (xor_in l block A).
Definition keccak_pad (l : nat) (m : list Z) : list Z :=
  let q := (l - length m mod l)%nat in
  m ++ (if (q =? 1)%nat then [0x81] else [0x01] ++ replicate (q - 2) 0 ++ [0x80]).
Definition keccak_digest (d l : nat) (m : list Z) : list Z :=
  take d (flat_map (le_store 8) (foldl (absorb_block l) (replicate 25 0) (blocks l (keccak_pad l m)))).

Lemma RC_correct : tabulate 24 round_constant = RC.
Proof. vm_compute. reflexivity. Qed.

(** ** The names of the lanes *)

(** [std b] reads the macro order b00, b01, .. as a state of the reference. *)
Definition std (b : list Z) : list Z := mk_state (fun x y => b !!! (5 * x + y)%nat).

(** Each permutation names the lanes of the previous one moved by pi. *)
Definition pi_index : list nat :=
  (fun j => let x := (j / 5)%nat in let y := (j mod 5)%nat in (5 * ((x + 3 * y) mod 5) + x)%nat) <$> seq 0 25.
Definition names_ok : bool :=
  forallb (fun P => bool_decide (NoDup P) && (length P =? 25)%nat && forallb (fun l => l <? 25)%nat P) Ps &&
  forallb (fun r => bool_decide (Ps !!! ((r + 1) mod 24)%nat = (fun i => (Ps !!! r) !!! i) <$> pi_index)) (seq 0 24).
Lemma names_ok_true : names_ok = true.
Proof. vm_compute. reflexivity. Qed.

Example keccak512_empty :
  (sph_keccak512_close (sph_keccak512 (sph_keccak512_init (replicate 144 9)) [])).2
  = be_store 64 0x0EAB42DE4C3CEB92_35FC91ACFFE746B2_9C29A8C366B7C60E_4E67C466F36A4304_C00FA9CAF9D87976_BA469BCBE06713B4_35F091EF2769FB16_0CDAB33D3670680E.
Proof. vm_compute. reflexivity. Qed.

Lemma length_on P f w : length (on P f w) = length w.
Proof.
  unfold on, scatter. generalize (zip P (f (gather_lanes P w))). intros l. revert w.
  induction l as [|lv l IH]; intros w; [done|]. cbn [foldl]. by rewrite IH, length_insert.
Qed.

Lemma scatter_other P vs w l : l ∉ P -> scatter P vs w !!! l = w !!! l.
Proof.
  unfold scatter. revert vs w. induction P as [|p P IH]; intros [|v vs] w Hl; try done.
  apply not_elem_of_cons in Hl as [Hne Hl]. cbn [zip zip_with foldl fst snd].
  rewrite IH by done. by apply list_lookup_total_insert_ne.
Qed.

Lemma scatter_lookup P vs w i :
  NoDup P -> Forall (fun l => l < length w)%nat P -> length vs = length P -> (i < length P)%nat ->
  scatter P vs w !!! (P !!! i) = vs !!! i.
Proof.
  revert vs w i. induction P as [|p P IH]; intros [|v vs] w i HP Hw Hl Hi; cbn [length] in *; try lia.
  apply list.NoDup_cons in HP as [Hp HP]. apply Forall_cons_1 in Hw as [Hpw Hw].
  destruct i as [|i].
  - change (scatter P vs (<[p := v]> w) !!! p = v). rewrite scatter_other by done.
    by apply list_lookup_total_insert_eq.
  - change (scatter P vs (<[p := v]> w) !!! (P !!! i) = vs !!! i). apply IH; [done| |lia|lia].
    by rewrite length_insert.
Qed.

Lemma gather_lookup P w i : (i < length P)%nat -> gather_lanes P w !!! i = w !!! (P !!! i).
Proof.
  intros Hi. unfold gather_lanes. destruct (lookup_lt_is_Some_2 P i Hi) as [l Hl].
  rewrite (list_lookup_total_correct P i l Hl). apply list_lookup_total_correct.
  by rewrite list_lookup_fmap, Hl.
Qed.
Lemma length_gather_lanes P w : length (gather_lanes P w) = length P.
Proof. apply length_fmap. Qed.

(** What [names_ok] says of round [r]. *)
Lemma names_facts r :
  (r < 24)%nat ->
  NoDup (Ps !!! r) /\ length (Ps !!! r) = 25%nat /\ Forall (fun l => l < 25)%nat (Ps !!! r) /\
  Ps !!! ((r + 1) mod 24)%nat = (fun i => (Ps !!! r) !!! i) <$> pi_index.
Proof.
  intros Hr. pose proof names_ok_true as H. apply andb_true_iff in H as [H1 H2].
  rewrite forallb_forall in H1, H2. specialize (H2 r ltac:(apply in_seq; lia)).
  destruct (lookup_lt_is_Some_2 Ps r) as [P HP]; [done|].
  assert (EP : Ps !!! r = P) by by apply list_lookup_total_correct.
  specialize (H1 P ltac:(apply list_elem_of_In; by eapply list_elem_of_lookup_2)).
  apply andb_true_iff in H1 as [[H1 Hl]%andb_true_iff Hf].
  rewrite EP in *. split_and!; [by apply bool_decide_eq_true in H1|by apply Nat.eqb_eq| |by apply bool_decide_eq_true in H2].
  apply Forall_forall. rewrite forallb_forall in Hf. intros l Hin. apply Nat.ltb_lt. by apply Hf.
Qed.

Lemma gather_on r f w :
  (r < 24)%nat -> length w = 25%nat -> (forall b, length (f b) = 25%nat) ->
  gather_lanes (Ps !!! r) (on (Ps !!! r) f w) = f (gather_lanes (Ps !!! r) w).
Proof.
  intros Hr Hw Hf. destruct (names_facts r Hr) as (Hn & Hl & Hb & _).
  apply list_eq_total; rewrite length_gather_lanes; [by rewrite Hf|]. intros i Hi.
  rewrite gather_lookup by done. apply scatter_lookup; [done|by rewrite Hw|by rewrite Hf|done].
Qed.

(** Reading the lanes under the next round's names is the pi step. *)
Lemma gather_next r w :
  (r < 24)%nat ->
  gather_lanes (Ps !!! ((r + 1) mod 24)%nat) w = (fun i => gather_lanes (Ps !!! r) w !!! i) <$> pi_index.
Proof.
  intros Hr. destruct (names_facts r Hr) as (_ & Hl & _ & ->). unfold gather_lanes at 1.
  rewrite <-list_fmap_compose. apply list_fmap_ext. intros k i Hk. cbn.
  rewrite gather_lookup; [done|]. rewrite Hl.
  assert (forallb (fun i => i <? 25)%nat pi_index = true) as Hp by reflexivity.
  rewrite forallb_forall in Hp. apply Nat.ltb_lt, Hp, list_elem_of_In. by eapply list_elem_of_lookup_2.
Qed.

Lemma destruct_25 (P : list Z -> Prop) :
  (forall b00 b01 b02 b03 b04 b10 b11 b12 b13 b14 b20 b21 b22 b23 b24 b30 b31 b32 b33 b34 b40 b41 b42 b43 b44,
     P [b00; b01; b02; b03; b04; b10; b11; b12; b13; b14; b20; b21; b22; b23; b24;
        b30; b31; b32; b33; b34; b40; b41; b42; b43; b44]) ->
  forall b, length b = 25%nat -> P b.
Proof. intros H b Hb. do 25 (destruct b as [|? b]; [done|]). destruct b; [apply H|done]. Qed.

(** Both sides of an equation between states of 25 named lanes, computed. *)
Ltac lanes := cbv -[Z.lxor Z.land Z.lor rotl64 not64].

(** ** The macros against the reference steps *)

Lemma TH_ELT_eq c0 c1 c2 c3 c4 d0 d1 d2 d3 d4 :
  TH_ELT c0 c1 c2 c3 c4 d0 d1 d2 d3 d4
  = Z.lxor (Z.lxor (Z.lxor (Z.lxor (Z.lxor c0 c1) c2) c3) c4)
           (rotl64 (Z.lxor (Z.lxor (Z.lxor (Z.lxor d0 d1) d2) d3) d4) 1).
Proof.
  unfold TH_ELT. replace (Z.lxor (Z.lxor (Z.lxor d0 d1) d4) (Z.lxor d2 d3))
    with (Z.lxor (Z.lxor (Z.lxor (Z.lxor d0 d1) d2) d3) d4) by bitwise.
  set (t := rotl64 _ _). bitwise.
Qed.

Lemma THETA_theta b : length b = 25%nat -> std (THETA b) = theta (std b).
Proof.
  revert b. apply destruct_25. intros. cbv -[Z.lxor rotl64 TH_ELT].
  rewrite !TH_ELT_eq. reflexivity.
Qed.

Lemma rotl64_0 x : word 64 x -> rotl64 x 0 = x.
Proof.
  intros Hx. unfold rotl64, shl64. rewrite Z.shiftl_0_r, T64_id by done.
  rewrite Z.shiftr_div_pow2, Z.div_small by (done || lia). apply Z.lor_0_r.
Qed.

Lemma RHO_rho b : length b = 25%nat -> word 64 (b !!! 0%nat) -> std (RHO b) = rho (std b).
Proof.
  revert b. refine (destruct_25 (fun b => word 64 (b !!! 0%nat) -> std (RHO b) = rho (std b)) _).
  intros b00. intros. cbv -[Z.lxor rotl64 word] in *. rewrite rotl64_0 by done. reflexivity.
Qed.

Lemma next_pi b : length b = 25%nat -> std ((fun i => b !!! i) <$> pi_index) = pi (std b).
Proof. revert b. apply destruct_25. intros. reflexivity. Qed.

Lemma std_std b : length b = 25%nat -> std (std b) = b.
Proof. revert b. apply destruct_25. intros. reflexivity. Qed.

(** The state of the reference that [w] stands for at round [r]. *)
Definition phys (r : nat) (w : list Z) : list Z := std (gather_lanes (Ps !!! r) w).
(** The chi step of the code, in the reference order of lanes. *)
Definition khi (A : list Z) : list Z := std (KHI (std A)).

Lemma length_std b : length (std b) = 25%nat.
Proof. apply length_tabulate. Qed.

Lemma phys_next r w :
  (r < 24)%nat -> phys ((r + 1) mod 24) w = pi (phys r w).
Proof.
  intros Hr. unfold phys. rewrite gather_next by done. apply next_pi.
  rewrite length_gather_lanes. by destruct (names_facts r Hr) as (_ & -> & _).
Qed.

Lemma phys_on r f w :
  (r < 24)%nat -> length w = 25%nat -> (forall b, length (f b) = 25%nat) ->
  phys r (on (Ps !!! r) f w) = std (f (std (phys r w))).
Proof.
  intros Hr Hw Hf. unfold phys. rewrite gather_on by done. rewrite std_std; [done|].
  rewrite length_gather_lanes. by destruct (names_facts r Hr) as (_ & -> & _).
Qed.

Lemma length_phys r w : length (phys r w) = 25%nat.
Proof. apply length_std. Qed.

(** The first lane has the same name in every round. *)
Lemma first_name r : (r < 24)%nat -> (Ps !!! r) !!! 0%nat = a00.
Proof.
  intros Hr. assert (forallb (fun P => P !!! 0%nat =? a00)%nat Ps = true) as H by reflexivity.
  rewrite forallb_forall in H. apply Nat.eqb_eq, H, list_elem_of_In, list_elem_of_lookup_total_2. done.
Qed.

Lemma phys_iota r w k :
  (r < 24)%nat -> length w = 25%nat ->
  phys r (<[a00 := Z.lxor (w !!! a00) k]> w) = iota k (phys r w).
Proof.
  intros Hr Hw. destruct (names_facts r Hr) as (Hn & Hl & Hb & _). pose proof (first_name r Hr) as H0.
  unfold phys, iota. generalize dependent (Ps !!! r). intros P Hn Hl Hb H0.
  do 25 (destruct P as [|? P]; [done|]). destruct P; [|done]. change (n = a00) in H0. subst n.
  apply list.NoDup_cons in Hn as [Hn _]. unfold gather_lanes. cbn [fmap list_fmap].
  rewrite list_lookup_total_insert_eq by (rewrite Hw; unfold a00; lia).
  rewrite !list_lookup_total_insert_ne by (intros E; apply Hn, list_elem_of_In; rewrite E; simpl; tauto).
  reflexivity.
Qed.

(** ** Words *)

Lemma word_lane A x y : words64 A -> word 64 (lane A x y).
Proof. apply words64_lookup. Qed.
#[local] Hint Resolve word_lane : words.

Lemma word_column A x : words64 A -> word 64 (column A x).
Proof. intros. unfold column. words. Qed.
#[local] Hint Resolve word_column : words.

Lemma words_theta A : words64 A -> words64 (theta A).
Proof. intros. apply Forall_tabulate. intros. words. Qed.

Lemma rho_offset_range i : 0 <= rho_offsets !!! i <= 63.
Proof.
  apply (Forall_lookup_total_def (fun z => 0 <= z <= 63)); [done|].
  repeat first [apply List.Forall_nil | apply List.Forall_cons; [lia|]].
Qed.

Lemma words_rho A : words64 A -> words64 (rho A).
Proof.
  intros. apply Forall_tabulate. intros. apply word_rotl64; [|words].
  match goal with |- context [rho_offsets !!! ?i] => pose proof (rho_offset_range i) end. lia.
Qed.
Lemma words_pi A : words64 A -> words64 (pi A).
Proof. intros. apply Forall_tabulate. intros. words. Qed.
Lemma words_std b : words64 b -> words64 (std b).
Proof. intros. apply Forall_tabulate. intros. words. Qed.
Lemma words_phys r w : words64 w -> words64 (phys r w).
Proof.
  intros Hw. apply words_std, Forall_fmap, Forall_forall. intros l _. cbn. words.
Qed.
#[local] Hint Resolve words_theta words_rho words_pi words_std words_phys : words.

(** One round of the code, between the names of two rounds. *)
Lemma KF_ELT_phys r k w :
  (r < 24)%nat -> length w = 25%nat -> words64 w ->
  phys ((r + 1) mod 24) (KF_ELT r ((r + 1) mod 24) k w) = iota k (khi (pi (rho (theta (phys r w))))).
Proof.
  intros Hr Hw HW. unfold KF_ELT. cbv zeta.
  assert (Hs : ((r + 1) mod 24 < 24)%nat) by (apply Nat.mod_upper_bound; lia).
  rewrite phys_iota by (rewrite ?length_on; done). f_equal.
  rewrite phys_on by (rewrite ?length_on; done). unfold khi. do 3 f_equal.
  rewrite phys_next by done. f_equal. rewrite phys_on by (rewrite ?length_on; done).
  rewrite RHO_rho by (try apply length_std; apply words64_lookup; rewrite phys_on by done;
                      rewrite THETA_theta by apply length_std; rewrite std_std by apply length_phys; words).
  rewrite std_std by apply length_phys. f_equal. rewrite phys_on by done.
  rewrite THETA_theta by apply length_std. by rewrite std_std by apply length_phys.
Qed.

(** ** The complemented lanes *)

Definition ones64 : Z := 0xFFFFFFFFFFFFFFFF.
(** Lanes (1,0) (2,0) (3,1) (2,2) (2,3) (0,4). *)
Definition comp_mask : list Z :=
  tabulate 25 (fun j => if bool_decide (j ∈ [1; 2; 8; 12; 17; 20]%nat) then ones64 else 0).
Definition xor_state (A B : list Z) : list Z := tabulate 25 (fun j => Z.lxor (A !!! j) (B !!! j)).

Lemma lane_xor A B x y : lane (xor_state A B) x y = Z.lxor (lane A x y) (lane B x y).
Proof.
  unfold lane, xor_state. apply tabulate_lookup.
  pose proof (Nat.mod_upper_bound x 5 ltac:(lia)). pose proof (Nat.mod_upper_bound y 5 ltac:(lia)). lia.
Qed.

Lemma rotl64_bit x n i :
  word 64 x -> 0 <= n < 64 -> 0 <= i < 64 ->
  Z.testbit (rotl64 x n) i = Z.testbit x (if i <? n then i + 64 - n else i - n).
Proof.
  intros Hx Hn Hi. unfold rotl64, shl64, T64. change 0xFFFFFFFFFFFFFFFF with (Z.ones 64).
  rewrite Z.lor_spec, Z.land_spec, Z.ones_spec_low, andb_true_r, Z.shiftl_spec, Z.shiftr_spec by lia.
  destruct (Z.ltb_spec i n).
  - rewrite (Z.testbit_neg_r x (i - n)) by lia. cbn [orb]. f_equal. lia.
  - rewrite (word_high 64 x (i + (64 - n))) by (done || lia). apply orb_false_r.
Qed.

(** Words are equal when their 64 bits are. *)
Lemma word_eq_bits a b :
  word 64 a -> word 64 b -> (forall i, 0 <= i < 64 -> Z.testbit a i = Z.testbit b i) -> a = b.
Proof.
  intros Ha Hb H. apply Z.bits_inj'. intros i Hi. destruct (Z_lt_dec i 64); [by apply H|].
  rewrite !(word_high 64) by (done || lia). done.
Qed.

Lemma rotl64_lxor a b n :
  word 64 a -> word 64 b -> 0 <= n < 64 -> rotl64 (Z.lxor a b) n = Z.lxor (rotl64 a n) (rotl64 b n).
Proof.
  intros Ha Hb Hn. apply word_eq_bits; [apply word_rotl64; words|apply word_lxor; try lia; apply word_rotl64; words|].
  intros i Hi. rewrite Z.lxor_spec, !rotl64_bit by words. apply Z.lxor_spec.
Qed.

Lemma column_xor A B x : column (xor_state A B) x = Z.lxor (column A x) (column B x).
Proof. unfold column. rewrite !lane_xor. bitwise. Qed.

Lemma mk_state_ext f g : (forall x y, (x < 5)%nat -> (y < 5)%nat -> f x y = g x y) -> mk_state f = mk_state g.
Proof.
  intros H. apply map_ext_in. intros j Hj%in_seq. apply H; [apply Nat.mod_upper_bound; lia|].
  apply Nat.Div0.div_lt_upper_bound. lia.
Qed.

Lemma mk_state_xor f g :
  mk_state (fun x y => Z.lxor (f x y) (g x y)) = xor_state (mk_state f) (mk_state g).
Proof. apply map_ext_in. intros j Hj%in_seq. unfold mk_state. by rewrite !tabulate_lookup by lia. Qed.

Lemma theta_xor A B : words64 A -> words64 B -> theta (xor_state A B) = xor_state (theta A) (theta B).
Proof.
  intros HA HB. unfold theta. rewrite <-mk_state_xor. apply mk_state_ext. intros x y _ _.
  rewrite lane_xor, !column_xor, rotl64_lxor by (lia || words).
  generalize (rotl64 (column A (x + 1)) 1) (rotl64 (column B (x + 1)) 1). intros. bitwise.
Qed.
Lemma rho_xor A B : words64 A -> words64 B -> rho (xor_state A B) = xor_state (rho A) (rho B).
Proof.
  intros HA HB. unfold rho. rewrite <-mk_state_xor. apply mk_state_ext. intros x y _ _.
  rewrite lane_xor. apply rotl64_lxor; [words|words|]. pose proof (rho_offset_range (x + 5 * y)). lia.
Qed.
Lemma pi_xor A B : pi (xor_state A B) = xor_state (pi A) (pi B).
Proof. unfold pi. rewrite <-mk_state_xor. apply mk_state_ext. intros x y _ _. apply lane_xor. Qed.

(** The complements the linear steps turn [comp_mask] into. *)
Definition khi_mask : list Z := Eval vm_compute in pi (rho (theta comp_mask)).
Lemma khi_mask_eq : pi (rho (theta comp_mask)) = khi_mask.
Proof. vm_compute. reflexivity. Qed.

Lemma ones64_bit i : 0 <= i -> Z.testbit ones64 i = (i <? 64).
Proof.
  intros Hi. change ones64 with (Z.ones 64). destruct (Z.ltb_spec i 64).
  - apply Z.ones_spec_low. lia.
  - apply Z.ones_spec_high. lia.
Qed.

(** An equation between boolean combinations of words, bit by bit. *)
Ltac lane_bits :=
  apply Z.bits_inj'; let i := fresh "i" in let Hi := fresh "Hi" in intros i Hi; unfold not64;
  rewrite ?Z.lxor_spec, ?Z.land_spec, ?Z.lor_spec, ?Z.lxor_spec, ?Z.land_spec, ?Z.lxor_spec, ?Z.bits_0;
  change 18446744073709551615 with ones64; rewrite ?(ones64_bit i Hi);
  destruct (Z.ltb_spec i 64); [btauto|rewrite ?(word_high 64) by first [assumption|lia]; reflexivity].

(** chi on complemented lanes: the code's formulas with one negation per row. *)
Lemma khi_chi B :
  length B = 25%nat -> words64 B -> xor_state (khi B) comp_mask = chi (xor_state B khi_mask).
Proof.
  revert B.
  refine (destruct_25 (fun B => words64 B -> xor_state (khi B) comp_mask = chi (xor_state B khi_mask)) _).
  unfold words64. intros.
  repeat match goal with H : Forall _ (_ :: _) |- _ => apply Forall_cons_1 in H as [? H] end.
  cbv -[Z.lxor Z.land Z.lor not64].
  repeat (apply f_equal2; [lane_bits|]). reflexivity.
Qed.

Lemma words_scatter P vs w : words64 vs -> words64 w -> words64 (scatter P vs w).
Proof.
  unfold scatter. revert vs w. induction P as [|p P IH]; intros [|v vs] w Hv Hw; try done.
  cbn [zip zip_with foldl fst snd]. apply Forall_cons_1 in Hv as [H1 H2].
  apply IH; [done|]. by apply Forall_insert.
Qed.

Lemma words_on P f w :
  length P = 25%nat -> (forall b, length b = 25%nat -> words64 b -> words64 (f b)) ->
  words64 w -> words64 (on P f w).
Proof.
  intros HP Hf Hw. apply words_scatter; [|done]. apply Hf; [by rewrite length_gather_lanes|].
  apply Forall_fmap, Forall_forall. intros l _. cbn. words.
Qed.

Lemma words_THETA b : length b = 25%nat -> words64 b -> words64 (THETA b).
Proof. intros Hl Hb. rewrite <-(std_std (THETA b)) by done. rewrite THETA_theta by done. words. Qed.
Lemma words_RHO b : length b = 25%nat -> words64 b -> words64 (RHO b).
Proof. intros Hl Hb. rewrite <-(std_std (RHO b)) by done. rewrite RHO_rho by words. words. Qed.
Lemma words_KHI b : length b = 25%nat -> words64 b -> words64 (KHI b).
Proof.
  intros _ Hb. unfold KHI, KHI_XO, KHI_XA. cbv zeta.
  repeat first [apply List.Forall_nil | apply List.Forall_cons]; words.
Qed.

Lemma KF_ELT_words r s k w :
  (r < 24)%nat -> (s < 24)%nat -> length w = 25%nat -> words64 w -> word 64 k ->
  length (KF_ELT r s k w) = 25%nat /\ words64 (KF_ELT r s k w).
Proof.
  intros Hr Hs Hl Hw Hk. unfold KF_ELT. cbv zeta. rewrite length_insert, !length_on. split; [done|].
  destruct (names_facts r Hr) as (_ & Hlr & _), (names_facts s Hs) as (_ & Hls & _).
  set (w' := on (Ps !!! s) KHI _). assert (Hw' : words64 w').
  { apply words_on; [done|apply words_KHI|]. apply words_on; [done|apply words_RHO|].
    apply words_on; [done|apply words_THETA|done]. }
  apply Forall_insert; [done|]. words.
Qed.

Lemma iota_xor k A M : length A = 25%nat -> xor_state (iota k A) M = iota k (xor_state A M).
Proof.
  intros Hl. apply list_eq_total; [unfold iota, xor_state; by rewrite length_insert, !length_tabulate|].
  intros j Hj. unfold xor_state in Hj at 1. rewrite length_tabulate in Hj. unfold iota.
  rewrite lookup_total_insert by (unfold xor_state; rewrite length_tabulate; lia).
  unfold xor_state. rewrite !tabulate_lookup by lia. rewrite lookup_total_insert by lia.
  case_decide as E; [subst j|done]. bitwise.
Qed.

Lemma RC_lookup i : (i < 24)%nat -> RC !!! i = round_constant i.
Proof. intros Hi. rewrite <-RC_correct. by apply tabulate_lookup. Qed.
Lemma RC_word i : word 64 (RC !!! i).
Proof.
  apply words64_lookup. unfold RC, words64.
  repeat first [apply List.Forall_nil | apply List.Forall_cons; [by vm_compute|]].
Qed.

(** The state a list of lanes stands for. *)
Definition uncomp (A : list Z) : list Z := xor_state A comp_mask.
Lemma words_comp_mask : words64 comp_mask.
Proof. apply Forall_tabulate. intros. by case_bool_decide; vm_compute. Qed.

Lemma length_pi A : length (pi A) = 25%nat.
Proof. apply length_tabulate. Qed.

Lemma length_keccak_f A : length A = 25%nat -> length (keccak_f A) = 25%nat.
Proof.
  unfold keccak_f. revert A. induction (seq 0 24) as [|i l IH]; intros A HA; [done|].
  cbn [foldl]. apply IH. unfold keccak_round, iota. rewrite length_insert. apply length_tabulate.
Qed.

#[local] Opaque RC round_constant theta rho pi chi khi iota Ps.

Lemma round_uncomp r i w :
  (r < 24)%nat -> (i < 24)%nat -> length w = 25%nat -> words64 w ->
  uncomp (phys ((r + 1) mod 24) (KF_ELT r ((r + 1) mod 24) (RC !!! i) w))
  = keccak_round (uncomp (phys r w)) i.
Proof.
  intros Hr Hi Hl Hw. rewrite KF_ELT_phys by done. unfold uncomp, keccak_round.
  rewrite iota_xor, RC_lookup by (done || apply length_tabulate). f_equal.
  rewrite theta_xor, rho_xor, pi_xor, khi_mask_eq by (words || apply words_comp_mask || apply words_theta, words_comp_mask).
  apply khi_chi; [apply length_pi|words].
Qed.

(** [k] rounds from the names of [P0]. *)
Lemma rounds_uncomp j k w :
  (j + k <= 24)%nat -> length w = 25%nat -> words64 w ->
  let w' := foldl (fun w i => KF_ELT i ((i + 1) mod 24) (RC !!! (j + i)%nat) w) w (seq 0 k) in
  length w' = 25%nat /\ words64 w' /\
  uncomp (phys (k mod 24) w') = foldl keccak_round (uncomp (phys 0 w)) (seq j k).
Proof.
  intros Hk Hl Hw. induction k as [|k IH]; [done|]. destruct IH as (Hl' & Hw' & E); [lia|]. cbv zeta in *.
  rewrite !seq_S, !foldl_app. cbn [foldl]. rewrite Nat.add_0_l.
  set (w1 := foldl _ w (seq 0 k)) in *. clearbody w1.
  rewrite (Nat.mod_small k) in E by lia.
  destruct (KF_ELT_words k ((k + 1) mod 24) (RC !!! (j + k)%nat) w1) as [H1 H2];
    [lia|apply Nat.mod_upper_bound; lia|done|done|apply RC_word|].
  split_and!; [exact H1|exact H2|]. rewrite <-E, <-Nat.add_1_r. apply round_uncomp; done || lia.
Qed.

Lemma phys_0 w : length w = 25%nat -> phys 0 w = w.
Proof. revert w. apply destruct_25. intros. reflexivity. Qed.

(** Moving the lanes back to the names of [P0]. *)
Definition moves_back (n : nat) (back : list Z -> list Z) : Prop :=
  forall w, length w = 25%nat -> length (back w) = 25%nat /\ phys 0 (back w) = phys n w.

Lemma unrolled_steps n back w q :
  (0 < n < 24)%nat -> (n * q <= 24)%nat -> moves_back n back -> length w = 25%nat -> words64 w ->
  let w' := foldl (fun w t => let j := (n * t)%nat in
    back (foldl (fun w i => KF_ELT i (i + 1) (RC !!! (j + i)%nat) w) w (seq 0 n))) w (seq 0 q) in
  length w' = 25%nat /\ words64 w' /\ uncomp w' = foldl keccak_round (uncomp w) (seq 0 (n * q)).
Proof.
  intros Hn Hq Hb Hl Hw. induction q as [|q IH].
  { rewrite Nat.mul_0_r. split_and!; assumption || reflexivity. }
  destruct IH as (Hl1 & Hw1 & E); [lia|]. cbv zeta in *.
  rewrite seq_S, foldl_app. cbn [foldl]. rewrite Nat.add_0_l, Nat.mul_succ_r, seq_app, foldl_app, Nat.add_0_l.
  rewrite <-E. set (w1 := foldl _ w (seq 0 q)) in *. clearbody w1.
  rewrite (foldl_ext_seq _ (fun w i => KF_ELT i ((i + 1) mod 24) (RC !!! (n * q + i)%nat) w))
    by (intros; rewrite Nat.mod_small by lia; reflexivity).
  destruct (rounds_uncomp (n * q) n w1) as (Hl2 & Hw2 & E2); [lia|done|done|]. cbv zeta in *.
  set (w2 := foldl _ w1 (seq 0 n)) in *. clearbody w2. rewrite Nat.mod_small in E2 by lia.
  rewrite phys_0 in E2 by done. destruct (Hb w2 Hl2) as [Hl3 E3]. rewrite phys_0 in E3 by done.
  rewrite E3. split_and!; [apply length_phys|words|done].
Qed.

(** What every build of the permutation computes. *)
Definition permutes (F : list Z -> list Z) : Prop :=
  forall w, length w = 25%nat -> words64 w ->
  length (F w) = 25%nat /\ words64 (F w) /\ uncomp (F w) = keccak_f (uncomp w).

Lemma unrolled_permutes n back : In n [1; 2; 4; 6; 8; 12]%nat -> moves_back n back -> permutes (unrolled n back).
Proof.
  intros Hn Hb w Hl Hw. assert (0 < n < 24 /\ n * (24 / n) = 24)%nat as [Hn' Hd].
  { repeat destruct Hn as [<-|Hn]; [..|done]; split; first [lia | reflexivity]. }
  destruct (unrolled_steps n back w (24 / n)) as (H1 & H2 & H3); [lia|lia|done|done|done|].
  rewrite Hd in H3. auto.
Qed.

Lemma full_permutes :
  permutes (fun w => foldl (fun w i => KF_ELT i ((i + 1) mod 24) (RC !!! i) w) w (seq 0 24)).
Proof.
  intros w Hl Hw. destruct (rounds_uncomp 0 24 w) as (H1 & H2 & H3); [lia|done|done|]. cbv zeta in *.
  rewrite phys_0 in H3 by done. change (24 mod 24)%nat with 0%nat in H3. rewrite phys_0 in H3 by done. auto.
Qed.

Ltac moves_back_tac := refine (destruct_25 _ _); intros; split; reflexivity.
Lemma P1_back : moves_back 1 P1_TO_P0.
Proof. moves_back_tac. Qed.
Lemma P2_back : moves_back 2 P2_TO_P0.
Proof. moves_back_tac. Qed.
Lemma P4_back : moves_back 4 P4_TO_P0.
Proof. moves_back_tac. Qed.
Lemma P6_back : moves_back 6 P6_TO_P0.
Proof. moves_back_tac. Qed.
Lemma P8_back : moves_back 8 P8_TO_P0.
Proof. moves_back_tac. Qed.
Lemma P12_back : moves_back 12 P12_TO_P0.
Proof. moves_back_tac. Qed.

#[local] Opaque unrolled keccak_f KF_ELT.

Lemma KECCAK_F_permutes u w :
  In u [0; 1; 2; 4; 6; 8; 12]%nat -> length w = 25%nat -> words64 w ->
  exists w', KECCAK_F_1600 u w = Some w' /\ length w' = 25%nat /\ words64 w' /\ uncomp w' = keccak_f (uncomp w).
Proof.
  intros Hu Hl Hw. repeat destruct Hu as [<-|Hu]; [..|done]; cbn [KECCAK_F_1600]; eexists; (split; [reflexivity|]).
  - by apply full_permutes.
  - by apply unrolled_permutes; [left|apply P1_back| |].
  - by apply unrolled_permutes; [do 1 right; left|apply P2_back| |].
  - by apply unrolled_permutes; [do 2 right; left|apply P4_back| |].
  - by apply unrolled_permutes; [do 3 right; left|apply P6_back| |].
  - by apply unrolled_permutes; [do 4 right; left|apply P8_back| |].
  - by apply unrolled_permutes; [do 5 right; left|apply P12_back| |].
Qed.

(** ** The sponge *)

#[local] Opaque KECCAK_F_1600_default INPUT_BUF.

Definition code_block (l : nat) (w block : list Z) : list Z := KECCAK_F_1600_default (INPUT_BUF l block w).

(** Only the first [l] bytes of the buffer are read. *)
Lemma INPUT_BUF_take l buf w : (l mod 8 = 0)%nat -> INPUT_BUF l (take l buf) w = INPUT_BUF l buf w.
Proof.
  intros Hl. Transparent INPUT_BUF. unfold INPUT_BUF. apply foldl_ext_seq. intros a t Ht. do 2 f_equal.
  unfold le_load. apply gather_ext. intros i Hi. unfold slice.
  pose proof (Nat.div_mod_eq l 8).
  rewrite !lookup_total_take_lt, !lookup_total_drop by lia. by rewrite lookup_total_take_lt by lia.
Qed.
#[local] Opaque INPUT_BUF.

Definition kc_ok (l : nat) (kc : sph_keccak_context) : Prop :=
  length (kbuf kc) = 144%nat /\ (ptr kc < l)%nat.
Definition kabs (kc : sph_keccak_context) : list Z * list Z := (wide kc, take (ptr kc) (kbuf kc)).

Section Sponge.
Context (l : nat).
Hypothesis Hl : (0 < l <= 144)%nat.
Hypothesis Hl8 : (l mod 8 = 0)%nat.

(** The chunk of one trip, in a buffer longer than the rate. *)
Lemma chunk_absorb w b p d :
  length b = 144%nat -> (p < l)%nat -> d <> [] -> (p + length d <= l)%nat ->
  absorb l (code_block l) (w, take p b) d =
    if decide (p + length d = l)%nat then (code_block l w (memcpy b p d), [])
    else (w, take (p + length d) (memcpy b p d)).
Proof.
  intros Hb Hp Hd Hle. replace (take p b) with (take p (take l b)) by (rewrite take_take; f_equal; lia).
  rewrite absorb_chunk by (try rewrite length_take; done || lia).
  assert (E : memcpy (take l b) p d = take l (memcpy b p d)).
  { assert (Htp : length (take p b) = p) by (rewrite length_take; lia).
    unfold memcpy. rewrite take_take, Nat.min_l by lia. rewrite !take_app_ge by lia.
    rewrite Htp, take_drop_commute. do 4 f_equal. lia. }
  rewrite E. case_decide.
  - unfold code_block. by rewrite INPUT_BUF_take.
  - by rewrite take_take, Nat.min_l by lia.
Qed.

Lemma core_loop_refines fuel b p w data :
  length b = 144%nat -> (p < l)%nat -> (length data <= fuel)%nat ->
  let '(b', p', w') := core_loop fuel l b p w data in
  length b' = 144%nat /\ (p' < l)%nat /\
  (w', take p' b') = absorb l (code_block l) (w, take p b) data.
Proof.
  revert b p w data. induction fuel as [|fuel IH]; intros b p w data Hb Hp Hf.
  { destruct data; [done|simpl in Hf; lia]. }
  destruct data as [|x data]; [done|]. cbn [core_loop]. set (q := x :: data) in *.
  set (k := Nat.min (l - p) (length q)).
  assert (Hk : (0 < k <= length q)%nat) by (unfold k, q; cbn [length]; lia).
  assert (Hkl : (p + k <= l)%nat) by (unfold k; lia).
  assert (Hlk : length (take k q) = k) by (rewrite length_take; lia).
  assert (Hdf : (length (drop k q) <= fuel)%nat) by (rewrite length_drop; clearbody k q; lia).
  pose proof (chunk_absorb w b p (take k q) Hb Hp ltac:(intros E; rewrite E in Hlk; simpl in Hlk; lia) ltac:(lia)) as Hc.
  rewrite Hlk in Hc.
  assert (Hb' : length (memcpy b p (take k q)) = 144%nat) by (rewrite length_memcpy; lia).
  assert (Eq : absorb l (code_block l) (w, take p b) q
               = absorb l (code_block l) (absorb l (code_block l) (w, take p b) (take k q)) (drop k q))
    by by rewrite <-absorb_app, take_drop.
  rewrite Eq, Hc.
  destruct (Nat.eqb_spec (p + k) l) as [E|E].
  - rewrite decide_True by done. exact (IH _ 0%nat _ _ Hb' ltac:(lia) Hdf).
  - rewrite decide_False by done. apply IH; [done|lia|done].
Qed.

Lemma core_refines kc data :
  kc_ok l kc ->
  kc_ok l (keccak_core kc data l) /\
  kabs (keccak_core kc data l) = absorb l (code_block l) (kabs kc) data.
Proof.
  intros [Hb Hp]. unfold keccak_core. destruct (Nat.ltb_spec (length data) (l - ptr kc)) as [Hs|Hge].
  - unfold kabs at 2. rewrite absorb_short by (rewrite length_take; lia).
    unfold kc_ok, kabs. cbn [kbuf ptr wide]. rewrite length_memcpy by lia.
    split; [split; [done|lia]|]. by rewrite take_memcpy by lia.
  - pose proof (core_loop_refines (length data) (kbuf kc) (ptr kc) (wide kc) data Hb Hp ltac:(done)) as H.
    destruct (core_loop _ _ _ _ _ _) as [[b p] w]. destruct H as (H1 & H2 & H3). done.
Qed.

Lemma close_pad_spec m :
  m ++ close_pad l (length m mod l) 0 = keccak_pad l m /\ (length (keccak_pad l m) mod l = 0)%nat.
Proof.
  pose proof (Nat.mod_upper_bound (length m) l ltac:(lia)) as Hr.
  pose proof (Nat.div_mod_eq (length m) l) as Hd. unfold close_pad, keccak_pad.
  set (r := (length m mod l)%nat) in *.
  destruct (Nat.eqb_spec r (l - 1)) as [E|E], (Nat.eqb_spec (l - r) 1) as [E'|E']; try lia.
  - split; [done|]. rewrite length_app. cbn [length]. replace (length m + 1)%nat with ((length m / l + 1) * l)%nat by lia.
    apply Nat.Div0.mod_mul.
  - split; [done|]. rewrite !length_app, length_replicate. cbn [length].
    replace (_ + _)%nat with ((length m / l + 1) * l)%nat by lia. apply Nat.Div0.mod_mul.
Qed.
End Sponge.

(** ** Complemented lanes through the sponge *)

Lemma INPUT_BUF_xor_in l blk w :
  length w = 25%nat -> (l / 8 <= 25)%nat -> INPUT_BUF l blk w = xor_in l blk w.
Proof.
  intros Hw Hl. Transparent INPUT_BUF.
  destruct (loop_map (fun t x => Z.lxor x (le_load 8 (slice (8 * t) 8 blk))) w (l / 8)) as [H1 H2]; [lia|].
  cbv zeta in *. fold (INPUT_BUF l blk w) in H1, H2.
  apply list_eq_total; [unfold xor_in; by rewrite length_tabulate, H1|]. intros j Hj. rewrite H1, Hw in Hj.
  rewrite H2. unfold xor_in. rewrite tabulate_lookup by done.
  destruct (Nat.ltb_spec j (l / 8)); [by rewrite decide_True by lia|by rewrite decide_False by lia].
Qed.
#[local] Opaque INPUT_BUF.

Lemma words_xor_in l blk A : bytes blk -> words64 A -> words64 (xor_in l blk A).
Proof.
  intros Hb HA. apply Forall_tabulate. intros j _. destruct (j <? l / 8)%nat; [|words].
  apply word_lxor; [lia|words|]. apply (word_le_load 8). by apply Forall_slice.
Qed.

Lemma uncomp_xor_in l blk A : uncomp (xor_in l blk A) = xor_in l blk (uncomp A).
Proof.
  apply map_ext_in. intros j Hj%in_seq. unfold xor_in, uncomp, xor_state. rewrite !tabulate_lookup by lia.
  destruct (j <? l / 8)%nat; [bitwise|done].
Qed.

Definition stands_for (w A : list Z) : Prop := length w = 25%nat /\ words64 w /\ uncomp w = A.

Lemma default_permutes : permutes KECCAK_F_1600_default.
Proof.
  Transparent KECCAK_F_1600_default. unfold KECCAK_F_1600_default.
  apply unrolled_permutes; [do 4 right; left; reflexivity|apply P8_back].
Qed.
#[local] Opaque KECCAK_F_1600_default.

Lemma block_sim l w A blk :
  (l / 8 <= 25)%nat -> stands_for w A -> bytes blk -> stands_for (code_block l w blk) (absorb_block l A blk).
Proof.
  intros Hl (Hw & HW & <-) Hb. unfold code_block. rewrite INPUT_BUF_xor_in by done.
  destruct (default_permutes (xor_in l blk w)) as (H1 & H2 & H3);
    [apply length_tabulate|by apply words_xor_in|].
  split_and!; [done|done|]. rewrite H3, uncomp_xor_in. reflexivity.
Qed.

Lemma init_stands_for junk n : stands_for (wide (keccak_init junk n)) (replicate 25 0).
Proof.
  assert (E : wide (keccak_init junk n) = comp_mask) by (vm_compute; reflexivity). rewrite E.
  split_and!; [reflexivity|apply words_comp_mask|vm_compute; reflexivity].
Qed.

Lemma flip_lanes_uncomp w : length w = 25%nat -> flip_lanes w = uncomp w.
Proof.
  revert w. apply destruct_25. intros. cbv -[Z.lxor]. rewrite !Z.lxor_0_r. reflexivity.
Qed.

Lemma print_lanes d w :
  length w = 25%nat -> In d [28; 32; 48; 64]%nat ->
  take d (flat_map (fun j => le_store 8 (w !!! j)) (seq 0 ((d + 7) / 8))) = take d (flat_map (le_store 8) w).
Proof.
  intros Hw Hd. revert w Hw. apply destruct_25. intros.
  repeat destruct Hd as [<-|Hd]; [..|done]; reflexivity.
Qed.

(** A whole computation with rate [l] and [d] bytes of output. *)
Lemma sponge_stream d l junk pieces :
  In d [28; 32; 48; 64]%nat -> In l [144; 136; 104; 72]%nat -> length junk = 144%nat ->
  bytes (concat pieces) ->
  (keccak_close d l (foldl (fun kc p => keccak_core kc p l) (keccak_init junk (8 * d)) pieces) 0 0).2
  = keccak_digest d l (concat pieces).
Proof.
  intros Hd Hl Hj Hb. assert (0 < l <= 144 /\ l mod 8 = 0 /\ l / 8 <= 25)%nat as (Hl1 & Hl8 & Hl25).
  { repeat destruct Hl as [<-|Hl]; [..|done]; split_and!; first [lia | reflexivity | apply Nat.leb_le; reflexivity]. }
  assert (Hs : let kc := foldl (fun kc p => keccak_core kc p l) (keccak_init junk (8 * d)) pieces in
    kc_ok l kc /\ kabs kc = absorb l (code_block l) (wide (keccak_init junk (8 * d)), []) (concat pieces)).
  { clear Hb. induction pieces as [|p pieces IH] using rev_ind; [split; [split; [done|cbn; lia]|done]|].
    cbv zeta in *. destruct IH as [Hok Ha]. rewrite foldl_app, concat_app. cbn [foldl concat].
    rewrite app_nil_r, absorb_app, <-Ha. by apply core_refines. }
  cbv zeta in Hs. destruct Hs as [Hok Ha]. set (kc := foldl _ _ pieces) in *. clearbody kc.
  assert (Hp : ptr kc = (length (concat pieces) mod l)%nat).
  { pose proof (f_equal (fun s => length s.2) Ha) as E. cbn [kabs snd] in E.
    rewrite length_absorb in E by (done || (cbn; lia)). destruct Hok as [Hb' Hp'].
    rewrite length_take in E. cbn [length] in E. rewrite Nat.add_0_l in E. lia. }
  unfold keccak_close. cbv zeta. cbn [snd]. rewrite Hp.
  destruct (core_refines l Hl1 Hl8 kc (close_pad l (length (concat pieces) mod l) 0) Hok) as [_ Hc].
  rewrite Ha, <-absorb_app in Hc. destruct (close_pad_spec l Hl1 Hl8 (concat pieces)) as [Epad Hm].
  rewrite Epad, absorb_spec in Hc by lia. apply (f_equal fst) in Hc. cbn [kabs fst] in Hc. rewrite Hc.
  destruct (foldl_blocks_sim l (code_block l) (absorb_block l) stands_for (wide (keccak_init junk (8 * d)))
    (replicate 25 0) (keccak_pad l (concat pieces))) as (H1 & _ & H3).
  - intros. by apply block_sim.
  - apply init_stands_for.
  - unfold keccak_pad. apply Forall_app_2; [done|]. destruct (_ =? 1)%nat; [by repeat constructor|].
    repeat apply Forall_app_2; [by repeat constructor| |by repeat constructor].
    apply Forall_replicate. by apply word_0.
  - rewrite print_lanes by (rewrite ?flip_lanes_uncomp by done; first [apply length_tabulate | done]).
    rewrite flip_lanes_uncomp by done. rewrite H3. reflexivity.
Qed.

(** ** Properties *)

(** C12. Every build of the permutation is Keccak-f[1600]: for each unrolling the
    file supports (1, 2, 4, 6, 8, 12 rounds per loop trip, or all 24), on any 25
    lanes with the six lanes of the optimisation complemented, the macros compute
    the 24 rounds theta, rho, pi, chi, iota of FIPS 202, with the rotation
    offsets and round constants generated as in the standard. *)
Theorem keccak_f_builds u w :
  In u [0; 1; 2; 4; 6; 8; 12]%nat -> length w = 25%nat -> words64 w ->
  exists w', KECCAK_F_1600 u w = Some w' /\ length w' = 25%nat /\ words64 w' /\
             uncomp w' = keccak_f (uncomp w).
Proof. apply KECCAK_F_permutes. Qed.

Lemma keccak_f_builds_witness :
  exists w', KECCAK_F_1600 6 (replicate 25 3) = Some w' /\ length w' = 25%nat /\ words64 w' /\
             uncomp w' = keccak_f (uncomp (replicate 25 3)).
Proof.
  apply (keccak_f_builds 6 (replicate 25 3)); [do 4 right; left; exact eq_refl|exact eq_refl|].
  apply Forall_replicate. vm_compute. split; [intros E; discriminate E|exact eq_refl].
Defined.

(** C11. Streaming Keccak: for the four sizes, any split of the message into
    updates followed by closing gives the sponge digest of the concatenation
    (rate 144, 136, 104 or 72 bytes, padding 01 00 .. 00 80), whatever the
    buffer of the context held. *)
Theorem sph_keccak_streaming junk pieces :
  length junk = 144%nat -> bytes (concat pieces) ->
  (sph_keccak224_close (foldl sph_keccak224 (sph_keccak224_init junk) pieces)).2
    = keccak_digest 28 144 (concat pieces) /\
  (sph_keccak256_close (foldl sph_keccak256 (sph_keccak256_init junk) pieces)).2
    = keccak_digest 32 136 (concat pieces) /\
  (sph_keccak384_close (foldl sph_keccak384 (sph_keccak384_init junk) pieces)).2
    = keccak_digest 48 104 (concat pieces) /\
  (sph_keccak512_close (foldl sph_keccak512 (sph_keccak512_init junk) pieces)).2
    = keccak_digest 64 72 (concat pieces).
Proof.
  intros Hj Hb.
  assert (H : forall d l, In d [28; 32; 48; 64]%nat -> In l [144; 136; 104; 72]%nat ->
    (keccak_close d l (foldl (fun kc p => keccak_core kc p l) (keccak_init junk (8 * d)) pieces) 0 0).2
    = keccak_digest d l (concat pieces)) by (intros; by apply sponge_stream).
  split; [|split; [|split]].
  - refine (H 28%nat 144%nat _ _); simpl; tauto.
  - refine (H 32%nat 136%nat _ _); simpl; tauto.
  - refine (H 48%nat 104%nat _ _); simpl; tauto.
  - refine (H 64%nat 72%nat _ _); simpl; tauto.
Qed.

Lemma sph_keccak_streaming_witness :
  (sph_keccak512_close (foldl sph_keccak512 (sph_keccak512_init (replicate 144 1)) [[0x61]; replicate 100 0x62])).2
    = keccak_digest 64 72 (0x61 :: replicate 100 0x62).
Proof.
  refine (proj2 (proj2 (proj2 (sph_keccak_streaming (replicate 144 1) [[0x61]; replicate 100 0x62] _ _))));
    [exact eq_refl|apply byte_list_dec; exact eq_refl].
Defined.
