(* ===== verification/SphCore.v ===== *)
(** * The update function the [sph_*] hashes share.

    [sph_blake.c], [sph_cubehash.c], [sph_jh.c], [sph_shabal.c] and others repeat
    the same function around their own block function: data shorter than the rest
    of the buffer is only copied, otherwise a loop copies chunks and runs the block
    function on every full buffer.  It is modelled once, over a block function. *)
From S2P Require Import Prelude Stream.

Record sph_ctx (St : Type) := mk_sph { sc_buf : list Z; sc_ptr : nat; sc_st : St }.
Arguments mk_sph {St} _ _ _.
Arguments sc_buf {St} _.
Arguments sc_ptr {St} _.
Arguments sc_st {St} _.

(** [z = 0x80 >> n; ((ub & -z) | z) & 0xFF]: the last [n] bits and the padding bit. *)
Definition final_byte (ub n : Z) : Z :=
  let z := Z.shiftr 0x80 n in Z.land (Z.lor (Z.land ub (T32 (- z))) z) 0xFF.
Definition last_bits (ub n : Z) : Z := Z.lor (Z.land ub (256 - 2 ^ (8 - n))) (2 ^ (7 - n)).
Lemma final_byte_ref ub n : word 8 ub -> 0 <= n < 8 -> final_byte ub n = last_bits ub n /\ word 8 (final_byte ub n).
Proof.
  intros Hub Hn. split; [|apply word_T8]. unfold final_byte, last_bits. cbv zeta. apply Z.eqb_eq.
  assert (n = 0 \/ n = 1 \/ n = 2 \/ n = 3 \/ n = 4 \/ n = 5 \/ n = 6 \/ n = 7) as Hcases by lia.
  revert ub Hub. destruct Hcases as [->|[->|[->|[->|[->|[->|[->| ->]]]]]]]; apply all_bytes_spec; vm_compute; reflexivity.
Qed.

Section Core.
Context {St : Type} (B : nat) (block : St -> list Z -> St).

(** [while (len > 0) ...]; each trip consumes at least one byte. *)
Fixpoint sph_loop (fuel : nat) (c : sph_ctx St) (data : list Z) : sph_ctx St :=
  match data, fuel with
  | [], _ | _, O => c
  | _, S fuel =>
      let clen := Nat.min (B - sc_ptr c) (length data) in
      let buf := memcpy (sc_buf c) (sc_ptr c) (take clen data) in
      let ptr := (sc_ptr c + clen)%nat in
      if (ptr =? B)%nat
      then sph_loop fuel (mk_sph buf 0 (block (sc_st c) buf)) (drop clen data)
      else sph_loop fuel (mk_sph buf ptr (sc_st c)) (drop clen data)
  end.
Definition sph_core (c : sph_ctx St) (data : list Z) : sph_ctx St :=
  if (length data <? B - sc_ptr c)%nat
  then mk_sph (memcpy (sc_buf c) (sc_ptr c) data) (sc_ptr c + length data) (sc_st c)
  else sph_loop (length data) c data.

(** What a context stands for: the chaining value and the bytes that wait. *)
Definition sph_abs (c : sph_ctx St) : St * list Z := (sc_st c, take (sc_ptr c) (sc_buf c)).
Definition sph_ok (c : sph_ctx St) : Prop := length (sc_buf c) = B /\ (sc_ptr c < B)%nat.

Lemma sph_loop_refines fuel c data :
  sph_ok c -> (length data <= fuel)%nat ->
  sph_ok (sph_loop fuel c data) /\ sph_abs (sph_loop fuel c data) = absorb B block (sph_abs c) data.
Proof.
  revert c data. induction fuel as [|fuel IH]; intros c data [Hb Hp] Hf.
  { destruct data; [done|simpl in Hf; lia]. }
  destruct data as [|x data]; [done|]. cbn [sph_loop]. set (q := x :: data) in *.
  set (k := Nat.min (B - sc_ptr c) (length q)).
  assert (Hk : (0 < k <= length q)%nat) by (unfold k, q; cbn [length]; lia).
  assert (Hkl : (sc_ptr c + k <= B)%nat) by (unfold k; lia).
  assert (Hlk : length (take k q) = k) by (rewrite length_take; lia).
  assert (Hdf : (length (drop k q) <= fuel)%nat) by (rewrite length_drop; clearbody k q; lia).
  assert (Hne : take k q <> []) by (intros E; rewrite E in Hlk; simpl in Hlk; lia).
  pose proof (absorb_chunk B block (sc_st c) (sc_buf c) (sc_ptr c) (take k q) Hb Hp Hne ltac:(lia)) as Hc.
  rewrite Hlk in Hc. unfold sph_abs at 2.
  rewrite (eq_trans (f_equal (absorb B block _) (eq_sym (take_drop k q))) (absorb_app B block _ _ _)), Hc.
  assert (Hb' : length (memcpy (sc_buf c) (sc_ptr c) (take k q)) = B) by (rewrite length_memcpy; lia).
  destruct (Nat.eqb_spec (sc_ptr c + k) B) as [E|E].
  - rewrite decide_True by done. apply (IH (mk_sph _ 0 _)); [split; cbn; [done|lia]|done].
  - rewrite decide_False by done. apply (IH (mk_sph _ (sc_ptr c + k) _)); [split; cbn; [done|lia]|done].
Qed.

(** The update function is the machine that absorbs one byte at a time. *)
Lemma sph_core_refines c data :
  sph_ok c -> sph_ok (sph_core c data) /\ sph_abs (sph_core c data) = absorb B block (sph_abs c) data.
Proof.
  intros Hc. unfold sph_core. destruct (Nat.ltb_spec (length data) (B - sc_ptr c)) as [Hs|Hge]; [|by apply sph_loop_refines].
  destruct Hc as [Hb Hp]. unfold sph_abs at 2. rewrite absorb_short by (rewrite length_take; lia).
  unfold sph_ok, sph_abs. cbn [sc_buf sc_ptr sc_st]. rewrite length_memcpy by lia. split; [split; [done|lia]|]. by rewrite take_memcpy by lia.
Qed.

(** Any update function that is that machine, on the pieces of a message. *)
Section Pieces.
Context (upd : sph_ctx St -> list Z -> sph_ctx St).
Hypothesis upd_refines : forall c data, sph_ok c -> sph_ok (upd c data) /\ sph_abs (upd c data) = absorb B block (sph_abs c) data.
Lemma upd_pieces_refine c pieces :
  sph_ok c -> sph_ok (foldl upd c pieces) /\ sph_abs (foldl upd c pieces) = absorb B block (sph_abs c) (concat pieces).
Proof.
  revert c. induction pieces as [|x pieces IH]; intros c Hc; [done|]. cbn [foldl concat].
  destruct (upd_refines c x Hc) as [Hc' E]. destruct (IH _ Hc') as [Ho E']. split; [done|]. by rewrite E', E, absorb_app.
Qed.
(** After any updates of a fresh context: the chaining value is the block function
    folded over the full blocks of the message, the buffer starts with the rest. *)
Lemma upd_pieces_spec junk st pieces :
  (0 < B)%nat -> length junk = B ->
  let c := foldl upd (mk_sph junk 0 st) pieces in
  let m := concat pieces in
  sph_ok c /\ sc_st c = foldl block st (blocks B m) /\ sc_ptr c = (length m mod B)%nat /\ take (sc_ptr c) (sc_buf c) = leftover B m.
Proof.
  intros B_pos Hj c m. destruct (upd_pieces_refine (mk_sph junk 0 st) pieces) as [Hok E]; [split; cbn; [done|lia]|]. fold c m in Hok, E.
  unfold sph_abs at 2 in E. cbn [sc_st sc_ptr sc_buf take] in E. rewrite absorb_spec in E by done. injection E as E1 E2.
  split; [exact Hok|]. split; [exact E1|]. destruct Hok as [Hb Hp]. split; [|exact E2].
  rewrite <-(length_leftover B B_pos), <-E2, length_take. lia.
Qed.
End Pieces.

(** Data that completes the buffer exactly. *)
Lemma sph_core_fill c data :
  sph_ok c -> (length data = B - sc_ptr c)%nat ->
  sph_ok (sph_core c data) /\ sc_ptr (sph_core c data) = 0%nat /\ sc_st (sph_core c data) = block (sc_st c) (take (sc_ptr c) (sc_buf c) ++ data).
Proof.
  intros Hok Hd. destruct (sph_core_refines c data Hok) as [Hok' E]. destruct Hok as [Hb Hp].
  assert (Hl : length (take (sc_ptr c) (sc_buf c)) = sc_ptr c) by (rewrite length_take; lia).
  unfold sph_abs at 2 in E. rewrite absorb_fill in E; [|lia|intros ->; simpl in Hd; lia]. injection E as E1 E2.
  split; [done|]. split; [|done]. destruct Hok' as [Hb' Hp']. apply (f_equal length) in E2. rewrite length_take in E2. simpl in E2. lia.
Qed.

Hypothesis B_pos : (0 < B)%nat.

Lemma sph_pieces_spec junk st pieces :
  length junk = B ->
  let c := foldl sph_core (mk_sph junk 0 st) pieces in
  let m := concat pieces in
  sph_ok c /\ sc_st c = foldl block st (blocks B m) /\ sc_ptr c = (length m mod B)%nat /\ take (sc_ptr c) (sc_buf c) = leftover B m.
Proof. exact (upd_pieces_spec sph_core sph_core_refines junk st pieces B_pos). Qed.
(** The update functions that have no shortcut for short data. *)
Lemma loop_pieces_spec junk st pieces :
  length junk = B ->
  let c := foldl (fun c data => sph_loop (length data) c data) (mk_sph junk 0 st) pieces in
  let m := concat pieces in
  sph_ok c /\ sc_st c = foldl block st (blocks B m) /\ sc_ptr c = (length m mod B)%nat /\ take (sc_ptr c) (sc_buf c) = leftover B m.
Proof. exact (upd_pieces_spec _ (fun c data Hc => sph_loop_refines (length data) c data Hc (Nat.le_refl _)) junk st pieces B_pos). Qed.
End Core.

(** ** The last block *)

Lemma blocks_short B m : (length m < B)%nat -> blocks B m = [].
Proof. intros H. unfold blocks. by rewrite Nat.div_small. Qed.
Lemma blocks_one B m : (0 < B)%nat -> length m = B -> blocks B m = [m].
Proof. intros HB H. unfold blocks. rewrite H, Nat.div_same by lia. cbn [nblocks]. by rewrite take_ge by lia. Qed.
Lemma length_blocks_div b m : (0 < b)%nat -> length (blocks b m) = (length m / b)%nat.
Proof. intros Hb. unfold blocks. generalize (length m / b)%nat. intros j. revert m. induction j as [|j IH]; intros m; [done|]. cbn. by rewrite IH. Qed.
(** A message whose padding completes its last block. *)
Lemma blocks_last B m t :
  (0 < B)%nat -> length (leftover B m ++ t) = B -> blocks B (m ++ t) = blocks B m ++ [leftover B m ++ t].
Proof.
  intros HB Hl. set (k := (B * (length m / B))%nat). assert (Em : m = take k m ++ leftover B m) by (symmetry; apply take_drop).
  assert (Hk : (length (take k m) mod B = 0)%nat).
  { pose proof (Nat.Div0.mul_div_le (length m) B). rewrite length_take, Nat.min_l by (unfold k; lia). unfold k. rewrite Nat.mul_comm. apply Nat.Div0.mod_mul. }
  pose proof (length_leftover B HB m) as Hlm. pose proof (Nat.mod_upper_bound (length m) B ltac:(lia)).
  assert (Eb : blocks B (take k m ++ leftover B m) = blocks B (take k m)).
  { rewrite blocks_app by done. rewrite (blocks_short B (leftover B m)) by lia. apply app_nil_r. }
  rewrite <-Em in Eb. rewrite Em at 1. rewrite <-app_assoc, (blocks_app B (take k m)) by done. rewrite Eb. f_equal. by apply blocks_one.
Qed.
Lemma blocks_last2 B m t t' :
  (0 < B)%nat -> length (leftover B m ++ t) = B -> length t' = B -> blocks B (m ++ t ++ t') = blocks B m ++ [leftover B m ++ t; t'].
Proof.
  intros HB Hl Hl'. rewrite app_assoc, blocks_app; [|done|].
  - rewrite blocks_last, (blocks_one B t') by done. by rewrite <-app_assoc.
  - rewrite length_app in *. rewrite length_leftover in Hl by done. pose proof (Nat.Div0.div_mod (length m) B).
    replace (length m + length t)%nat with ((length m / B + 1) * B)%nat by lia. apply Nat.Div0.mod_mul.
Qed.
Lemma blocks_length B m : (0 < B)%nat -> Forall (fun b => length b = B) (blocks B m).
Proof.
  intros HB. unfold blocks. assert (H : (B * (length m / B) <= length m)%nat) by apply Nat.Div0.mul_div_le. revert H. generalize (length m / B)%nat.
  intros k. revert m. induction k as [|k IH]; intros m Hm; [constructor|]. cbn [nblocks]. constructor; [rewrite length_take; lia|]. apply IH. rewrite length_drop. lia.
Qed.
Lemma blocks_bytes B m : bytes m -> Forall bytes (blocks B m).
Proof.
  unfold blocks. generalize (length m / B)%nat. intros k. revert m. induction k as [|k IH]; intros m Hm; [constructor|]. cbn [nblocks].
  constructor; [by apply Forall_take|]. by apply IH, Forall_drop.
Qed.
(** [buf[ptr ++] = v; memset(buf + ptr, 0, (sizeof sc->buf) - ptr)]. *)
Lemma pad_buffer {St} B (c : sph_ctx St) v :
  sph_ok B c ->
  memset0 (<[sc_ptr c := v]> (sc_buf c)) (S (sc_ptr c)) (B - S (sc_ptr c))
  = take (sc_ptr c) (sc_buf c) ++ [v] ++ replicate (B - S (sc_ptr c)) 0.
Proof.
  intros [Hb Hp]. unfold memset0. rewrite take_memcpy_all by (rewrite length_replicate, length_insert; lia).
  rewrite app_assoc. f_equal. rewrite (take_S_r _ _ v) by (apply list_lookup_insert_eq; lia).
  by rewrite take_insert_ge by lia.
Qed.

(** The same with a trailer [t]: zeros up to it, then [t]. *)
Lemma pad_trailer {St} B (c : sph_ctx St) v t :
  sph_ok B c -> (S (sc_ptr c) + length t <= B)%nat ->
  memcpy (memset0 (<[sc_ptr c := v]> (sc_buf c)) (S (sc_ptr c)) (B - length t - S (sc_ptr c))) (B - length t) t
  = take (sc_ptr c) (sc_buf c) ++ [v] ++ replicate (B - length t - S (sc_ptr c)) 0 ++ t.
Proof.
  intros [Hb Hp] Ht. unfold memset0. rewrite take_memcpy_all by (rewrite length_memcpy; rewrite ?length_replicate, ?length_insert; lia).
  pose proof (take_memcpy (<[sc_ptr c := v]> (sc_buf c)) (S (sc_ptr c)) (replicate (B - length t - S (sc_ptr c)) 0) ltac:(rewrite length_insert; lia)) as E.
  rewrite length_replicate in E. replace (S (sc_ptr c) + (B - length t - S (sc_ptr c)))%nat with (B - length t)%nat in E by lia. rewrite E.
  rewrite (take_S_r _ _ v) by (apply list_lookup_insert_eq; lia). rewrite take_insert_ge by lia. by rewrite <-!app_assoc.
Qed.
Lemma zero_trailer B (b t : list Z) : length b = B -> (length t <= B)%nat ->
  memcpy (memset0 b 0 (B - length t)) (B - length t) t = replicate (B - length t) 0 ++ t.
Proof.
  intros Hb Ht. unfold memset0. rewrite take_memcpy_all by (rewrite length_memcpy; rewrite ?length_replicate; lia).
  pose proof (take_memcpy b 0 (replicate (B - length t) 0) ltac:(lia)) as E. rewrite length_replicate in E. exact (f_equal (fun x => x ++ t) E).
Qed.

(** Lists of words, decided. *)
Lemma word_list_dec l : forallb (fun y => (0 <=? y) && (y <? 2 ^ 64)) l = true -> words64 l.
Proof. intros H. apply Forall_forall. intros y Hy. rewrite forallb_forall in H. apply H in Hy. unfold word. lia. Qed.

Lemma words32_by l : forallb (fun y => (0 <=? y) && (y <? 2 ^ 32)) l = true -> words32 l.
Proof. intros H. apply Forall_forall. intros y Hy. rewrite forallb_forall in H. apply H in Hy. unfold word. lia. Qed.

(** ** Digests: the words of the state in order *)

Lemma digest_words_gen (enc : Z -> list Z) k (l : list Z) :
  (forall v, length (enc v) = k /\ bytes (enc v)) -> length (flat_map enc l) = (k * length l)%nat /\ bytes (flat_map enc l).
Proof.
  intros H. induction l as [|v l [IH1 IH2]]; [split; [cbn; lia|constructor]|]. cbn [flat_map]. destruct (H v) as [H1 H2].
  rewrite length_app, H1, IH1. cbn [length]. split; [lia|]. by apply Forall_app_2.
Qed.
Lemma digest_words k (l : list Z) : length l = k -> length (flat_map (le_store 4) l) = (4 * k)%nat /\ bytes (flat_map (le_store 4) l).
Proof. intros <-. apply digest_words_gen. intros v. split; [apply length_le_store|apply bytes_le_store]. Qed.

(** ** Words stored one after the other *)

Section Words.
Context (enc : nat -> list Z) (k : nat).
Hypothesis enc_length : forall u, length (enc u) = k.

Lemma length_flat_seq i n : length (flat_map enc (seq i n)) = (k * n)%nat.
Proof. revert i. induction n as [|n IH]; intros i; [cbn; lia|]. cbn [seq flat_map]. rewrite length_app, enc_length, IH. lia. Qed.
(** [for (u = 0; u < n; u ++) enc(buf + k * u, ..)]. *)
Lemma store_seq n buf :
  (k * n <= length buf)%nat ->
  let b := foldl (fun b u => memcpy b (k * u) (enc u)) buf (seq 0 n) in
  length b = length buf /\ take (k * n) b = flat_map enc (seq 0 n).
Proof.
  intros Hn. induction n as [|n IH]; [by rewrite Nat.mul_0_r|]. destruct IH as [Hl E]; [lia|]. cbv zeta in *.
  rewrite seq_S, foldl_app, flat_map_app. cbn [foldl flat_map Nat.add]. rewrite app_nil_r.
  split; [rewrite length_memcpy, Hl; rewrite ?enc_length; lia|].
  replace (k * S n)%nat with (k * n + length (enc n))%nat by (rewrite enc_length; lia). rewrite take_memcpy by lia. by rewrite E.
Qed.
(** The same from word [i] on. *)
Lemma store_from i n buf :
  (k * (i + n) <= length buf)%nat ->
  let b := foldl (fun b u => memcpy b (k * u) (enc u)) buf (seq i n) in
  length b = length buf /\ drop (k * i) (take (k * (i + n)) b) = flat_map enc (seq i n).
Proof.
  intros Hn. induction n as [|n IH]; [rewrite Nat.add_0_r; split; [done|]; apply drop_ge; rewrite length_take; cbn [seq foldl]; lia|]. destruct IH as [Hl E]; [lia|]. cbv zeta in *.
  rewrite seq_S, foldl_app, flat_map_app. cbn [foldl flat_map]. rewrite app_nil_r. split; [rewrite length_memcpy, Hl; rewrite ?enc_length; lia|].
  replace (k * (i + S n))%nat with (k * (i + n) + length (enc (i + n)%nat))%nat by (rewrite enc_length; lia). rewrite take_memcpy by lia.
  rewrite drop_app_le by (rewrite length_take; lia). by rewrite E.
Qed.
Lemma lookup_flat_seq n i : (i < k * n)%nat -> flat_map enc (seq 0 n) !!! i = enc (i / k)%nat !!! (i mod k)%nat.
Proof.
  intros Hi. assert (Hk : k <> 0%nat) by lia. assert (H : forall a, flat_map enc (seq a n) !!! i = enc (a + i / k)%nat !!! (i mod k)%nat); [|apply (H 0%nat)].
  revert i Hi. induction n as [|n IH]; intros i Hi a; [lia|]. cbn [seq flat_map]. destruct (decide (i < k)%nat).
  - rewrite lookup_total_app_l by (rewrite enc_length; lia). rewrite Nat.div_small, Nat.mod_small by done. by rewrite Nat.add_0_r.
  - rewrite lookup_total_app_r by (rewrite enc_length; lia). rewrite enc_length, IH by lia.
    assert (H1 : (1 <= i / k)%nat) by (apply Nat.div_le_lower_bound; lia).
    assert (Ei : (i - k = k * (i / k - 1) + i mod k)%nat).
    { pose proof (Nat.div_mod_eq i k). destruct (i / k)%nat as [|q]; [lia|]. rewrite Nat.sub_1_r. cbn [Nat.pred]. lia. }
    assert (Ed : ((i - k) / k = i / k - 1)%nat) by (symmetry; apply (Nat.div_unique _ k _ (i mod k)); [by apply Nat.mod_upper_bound|done]).
    assert (Em : ((i - k) mod k = i mod k)%nat) by (symmetry; apply (Nat.mod_unique _ k (i / k - 1)); [by apply Nat.mod_upper_bound|done]).
    rewrite Ed, Em. f_equal. f_equal. lia.
Qed.
End Words.

(** ** Bytes of words *)

Lemma le_store_S n v : le_store (S n) v = T8 v :: le_store n (Z.shiftr v 8).
Proof.
  unfold le_store, tabulate. cbn [seq fmap list_fmap]. apply (f_equal2 cons); [by rewrite Z.shiftr_0_r|]. rewrite <-(fmap_S_seq 0 n), <-list_fmap_compose.
  apply list_fmap_ext. intros i j Hj. cbn [compose]. rewrite Z.shiftr_shiftr by lia. do 2 f_equal. lia.
Qed.
Lemma le_store_app a b v : le_store (a + b) v = le_store a v ++ le_store b (Z.shiftr v (8 * Z.of_nat a)).
Proof.
  revert v. induction a as [|a IH]; intros v; [cbn; by rewrite Z.shiftr_0_r|]. cbn [Nat.add]. rewrite !le_store_S, IH. cbn [app]. do 3 f_equal. rewrite Z.shiftr_shiftr by lia. f_equal. lia.
Qed.
Lemma le_store_mod n v k : k = 2 ^ (8 * Z.of_nat n) -> le_store n (v mod k) = le_store n v.
Proof. intros ->. rewrite <-(le_store_load (le_store n v)) by apply bytes_le_store. by rewrite length_le_store, le_load_store. Qed.
Lemma store_load_slice n o buf : bytes buf -> (o + n <= length buf)%nat -> le_store n (le_load n (drop o buf)) = slice o n buf.
Proof.
  intros Hb Ho. assert (Hs : length (slice o n buf) = n) by by apply length_slice. pose proof (le_store_load (slice o n buf) ltac:(by apply Forall_slice)) as E. rewrite Hs in E. rewrite <-E. f_equal.
  unfold le_load. apply gather_ext. intros i Hi. unfold slice. by rewrite lookup_total_take_lt.
Qed.
Lemma slice_cut o a b (buf : list Z) : slice o (a + b) buf = slice o a buf ++ slice (o + a) b buf.
Proof. unfold slice. rewrite <-drop_drop. by rewrite take_take_drop. Qed.
Lemma le_store_T32 x : le_store 4 (T32 x) = le_store 4 x.
Proof. rewrite T32_mod. rewrite <-(le_store_load (le_store 4 x)) by apply bytes_le_store. rewrite length_le_store, le_load_store. exact eq_refl. Qed.

(** ** Compressions that take the number of message bits *)

Section Counter.
Context {V : Type} (B : nat) (f : V -> Z -> list Z -> V).
#[local] Abbreviation bits := (8 * Z.of_nat B).
(** The bits of a message of [L] bits up to the end of block [i], 0 when the block has none. *)
Definition block_counter (L : Z) (i : nat) : Z :=
  if bits * Z.of_nat i <? L then Z.min (bits * (Z.of_nat i + 1)) L else 0.
Fixpoint counter_chain (L : Z) (i : nat) (h : V) (bs : list (list Z)) : V :=
  match bs with [] => h | b :: bs => counter_chain L (S i) (f h (block_counter L i) b) bs end.
Lemma counter_chain_app L i h a b : counter_chain L i h (a ++ b) = counter_chain L (i + length a) (counter_chain L i h a) b.
Proof. revert i h. induction a as [|x a IH]; intros i h; [by rewrite Nat.add_0_r|]. cbn [app counter_chain length]. rewrite IH. f_equal. lia. Qed.
Hypothesis B_pos : (0 < B)%nat.
Lemma block_counter_full L i : bits * (Z.of_nat i + 1) <= L -> block_counter L i = bits * (Z.of_nat i + 1).
Proof. intros H. unfold block_counter. destruct (Z.ltb_spec (bits * Z.of_nat i) L); lia. Qed.
(** The blocks that hold the end of the message: [e] bits after [k] blocks. *)
Lemma block_counter_end k e : 0 <= e < bits ->
  let L := bits * Z.of_nat k + e in block_counter L k = (if e =? 0 then 0 else L) /\ block_counter L (S k) = 0.
Proof.
  intros He L. unfold block_counter, L. split.
  - destruct (Z.eqb_spec e 0) as [->|E]; [rewrite (proj2 (Z.ltb_ge _ _)) by lia; done|]. rewrite (proj2 (Z.ltb_lt _ _)) by lia. lia.
  - rewrite (proj2 (Z.ltb_ge _ _)) by lia. done.
Qed.
End Counter.
