(* ===== verification/Cubehash.v ===== *)
(** * CubeHash ([crypto/ghostrider/sph_cubehash.c]).

    The rounds are transcribed statement by statement; they come in pairs because
    the swaps of CubeHash are left to the names of the variables.  The reference is
    Bernstein's description with its ten steps, and the initial values are the
    states that description computes from the parameters. *)
From S2P Require Import Prelude Stream SphCore.

Module Cubehash.

Definition IV224 : list Z := [
  0xB0FC8217; 0x1BEE1A90; 0x829E1A22; 0x6362C342; 0x24D91C30; 0x03A7AA24; 0xA63721C8; 0x85B0E2EF;
  0xF35D13F3; 0x41DA807D; 0x21A70CA6; 0x1F4E9774; 0xB3E1C932; 0xEB0A79A8; 0xCDDAAA66; 0xE2F6ECAA;
  0x0A713362; 0xAA3080E0; 0xD8F23A32; 0xCEF15E28; 0xDB086314; 0x7F709DF7; 0xACD228A4; 0x704D6ECE;
  0xAA3EC95F; 0xE387C214; 0x3A6445FF; 0x9CAB81C3; 0xC73D4B98; 0xD277AEBE; 0xFD20151C; 0x00CB573E].
Definition IV256 : list Z := [
  0xEA2BD4B4; 0xCCD6F29F; 0x63117E71; 0x35481EAE; 0x22512D5B; 0xE5D94E63; 0x7E624131; 0xF4CC12BE;
  0xC2D0B696; 0x42AF2070; 0xD0720C35; 0x3361DA8C; 0x28CCECA4; 0x8EF8AD83; 0x4680AC00; 0x40E5FBAB;
  0xD89041C3; 0x6107FBD5; 0x6C859D41; 0xF0B26679; 0x09392549; 0x5FA25603; 0x65C892FD; 0x93CB6285;
  0x2AF2B5AE; 0x9E4B4E60; 0x774ABFDD; 0x85254725; 0x15815AEB; 0x4AB6AAD6; 0x9CDAF8AF; 0xD6032C0A].
Definition IV384 : list Z := [
  0xE623087E; 0x04C00C87; 0x5EF46453; 0x69524B13; 0x1A05C7A9; 0x3528DF88; 0x6BDD01B5; 0x5057B792;
  0x6AA7A922; 0x649C7EEE; 0xF426309F; 0xCB629052; 0xFC8E20ED; 0xB3482BAB; 0xF89E5E7E; 0xD83D4DE4;
  0x44BFC10D; 0x5FC1E63D; 0x2104E6CB; 0x17958F7F; 0xDBEAEF70; 0xB4B97E1E; 0x32C195F6; 0x6184A8E4;
  0x796C2543; 0x23DE176D; 0xD33BBAEC; 0x0C12E5D2; 0x4EB95A7B; 0x2D18BA01; 0x04EE475F; 0x1FC5F22E].
Definition IV512 : list Z := [
  0x2AEA2A61; 0x50F494D4; 0x2D538B8B; 0x4167D83E; 0x3FEE2313; 0xC701CF8C; 0xCC39968E; 0x50AC5695;
  0x4D42C787; 0xA647A8B3; 0x97CF0BEF; 0x825B4537; 0xEEF864D2; 0xF22090C4; 0xD0E5CD33; 0xA23911AE;
  0xFCD398D9; 0x148FE485; 0x1B017BEF; 0xB6444532; 0x6A536159; 0x2FF5781C; 0x91FA7934; 0x0DBADEA9;
  0xD65C8A2B; 0xA5A70E75; 0xB1C62456; 0xBC796576; 0x1921C8F7; 0xE7989AF1; 0x7795D246; 0xD43E3B44].

(** [INPUT_BLOCK]. *)
Definition INPUT_BLOCK (x buf : list Z) : list Z :=
  foldl (fun x i => <[i := Z.lxor (x !!! i) (le_load 4 (slice (4 * i) 4 buf))]> x) x (seq 0 8).

(** The state is 32 words. *)
Definition ROUND_EVEN (x : list Z) : list Z :=
  match x with
  | [x0; x1; x2; x3; x4; x5; x6; x7; x8; x9; xa; xb; xc; xd; xe; xf; xg; xh; xi; xj; xk; xl; xm; xn; xo; xp; xq; xr; xs; xt; xu; xv] =>
      dlet xg := T32 (x0 + xg) in dlet x0 := rotl32 x0 7 in dlet xh := T32 (x1 + xh) in dlet x1 := rotl32 x1 7 in
      dlet xi := T32 (x2 + xi) in dlet x2 := rotl32 x2 7 in dlet xj := T32 (x3 + xj) in dlet x3 := rotl32 x3 7 in
      dlet xk := T32 (x4 + xk) in dlet x4 := rotl32 x4 7 in dlet xl := T32 (x5 + xl) in dlet x5 := rotl32 x5 7 in
      dlet xm := T32 (x6 + xm) in dlet x6 := rotl32 x6 7 in dlet xn := T32 (x7 + xn) in dlet x7 := rotl32 x7 7 in
      dlet xo := T32 (x8 + xo) in dlet x8 := rotl32 x8 7 in dlet xp := T32 (x9 + xp) in dlet x9 := rotl32 x9 7 in
      dlet xq := T32 (xa + xq) in dlet xa := rotl32 xa 7 in dlet xr := T32 (xb + xr) in dlet xb := rotl32 xb 7 in
      dlet xs := T32 (xc + xs) in dlet xc := rotl32 xc 7 in dlet xt := T32 (xd + xt) in dlet xd := rotl32 xd 7 in
      dlet xu := T32 (xe + xu) in dlet xe := rotl32 xe 7 in dlet xv := T32 (xf + xv) in dlet xf := rotl32 xf 7 in
      dlet x8 := Z.lxor x8 xg in dlet x9 := Z.lxor x9 xh in dlet xa := Z.lxor xa xi in dlet xb := Z.lxor xb xj in
      dlet xc := Z.lxor xc xk in dlet xd := Z.lxor xd xl in dlet xe := Z.lxor xe xm in dlet xf := Z.lxor xf xn in
      dlet x0 := Z.lxor x0 xo in dlet x1 := Z.lxor x1 xp in dlet x2 := Z.lxor x2 xq in dlet x3 := Z.lxor x3 xr in
      dlet x4 := Z.lxor x4 xs in dlet x5 := Z.lxor x5 xt in dlet x6 := Z.lxor x6 xu in dlet x7 := Z.lxor x7 xv in
      dlet xi := T32 (x8 + xi) in dlet x8 := rotl32 x8 11 in dlet xj := T32 (x9 + xj) in dlet x9 := rotl32 x9 11 in
      dlet xg := T32 (xa + xg) in dlet xa := rotl32 xa 11 in dlet xh := T32 (xb + xh) in dlet xb := rotl32 xb 11 in
      dlet xm := T32 (xc + xm) in dlet xc := rotl32 xc 11 in dlet xn := T32 (xd + xn) in dlet xd := rotl32 xd 11 in
      dlet xk := T32 (xe + xk) in dlet xe := rotl32 xe 11 in dlet xl := T32 (xf + xl) in dlet xf := rotl32 xf 11 in
      dlet xq := T32 (x0 + xq) in dlet x0 := rotl32 x0 11 in dlet xr := T32 (x1 + xr) in dlet x1 := rotl32 x1 11 in
      dlet xo := T32 (x2 + xo) in dlet x2 := rotl32 x2 11 in dlet xp := T32 (x3 + xp) in dlet x3 := rotl32 x3 11 in
      dlet xu := T32 (x4 + xu) in dlet x4 := rotl32 x4 11 in dlet xv := T32 (x5 + xv) in dlet x5 := rotl32 x5 11 in
      dlet xs := T32 (x6 + xs) in dlet x6 := rotl32 x6 11 in dlet xt := T32 (x7 + xt) in dlet x7 := rotl32 x7 11 in
      dlet xc := Z.lxor xc xi in dlet xd := Z.lxor xd xj in dlet xe := Z.lxor xe xg in dlet xf := Z.lxor xf xh in
      dlet x8 := Z.lxor x8 xm in dlet x9 := Z.lxor x9 xn in dlet xa := Z.lxor xa xk in dlet xb := Z.lxor xb xl in
      dlet x4 := Z.lxor x4 xq in dlet x5 := Z.lxor x5 xr in dlet x6 := Z.lxor x6 xo in dlet x7 := Z.lxor x7 xp in
      dlet x0 := Z.lxor x0 xu in dlet x1 := Z.lxor x1 xv in dlet x2 := Z.lxor x2 xs in dlet x3 := Z.lxor x3 xt in
      [x0; x1; x2; x3; x4; x5; x6; x7; x8; x9; xa; xb; xc; xd; xe; xf; xg; xh; xi; xj; xk; xl; xm; xn; xo; xp; xq; xr; xs; xt; xu; xv]
  | _ => x
  end.
Definition ROUND_ODD (x : list Z) : list Z :=
  match x with
  | [x0; x1; x2; x3; x4; x5; x6; x7; x8; x9; xa; xb; xc; xd; xe; xf; xg; xh; xi; xj; xk; xl; xm; xn; xo; xp; xq; xr; xs; xt; xu; xv] =>
      dlet xj := T32 (xc + xj) in dlet xc := rotl32 xc 7 in dlet xi := T32 (xd + xi) in dlet xd := rotl32 xd 7 in
      dlet xh := T32 (xe + xh) in dlet xe := rotl32 xe 7 in dlet xg := T32 (xf + xg) in dlet xf := rotl32 xf 7 in
      dlet xn := T32 (x8 + xn) in dlet x8 := rotl32 x8 7 in dlet xm := T32 (x9 + xm) in dlet x9 := rotl32 x9 7 in
      dlet xl := T32 (xa + xl) in dlet xa := rotl32 xa 7 in dlet xk := T32 (xb + xk) in dlet xb := rotl32 xb 7 in
      dlet xr := T32 (x4 + xr) in dlet x4 := rotl32 x4 7 in dlet xq := T32 (x5 + xq) in dlet x5 := rotl32 x5 7 in
      dlet xp := T32 (x6 + xp) in dlet x6 := rotl32 x6 7 in dlet xo := T32 (x7 + xo) in dlet x7 := rotl32 x7 7 in
      dlet xv := T32 (x0 + xv) in dlet x0 := rotl32 x0 7 in dlet xu := T32 (x1 + xu) in dlet x1 := rotl32 x1 7 in
      dlet xt := T32 (x2 + xt) in dlet x2 := rotl32 x2 7 in dlet xs := T32 (x3 + xs) in dlet x3 := rotl32 x3 7 in
      dlet x4 := Z.lxor x4 xj in dlet x5 := Z.lxor x5 xi in dlet x6 := Z.lxor x6 xh in dlet x7 := Z.lxor x7 xg in
      dlet x0 := Z.lxor x0 xn in dlet x1 := Z.lxor x1 xm in dlet x2 := Z.lxor x2 xl in dlet x3 := Z.lxor x3 xk in
      dlet xc := Z.lxor xc xr in dlet xd := Z.lxor xd xq in dlet xe := Z.lxor xe xp in dlet xf := Z.lxor xf xo in
      dlet x8 := Z.lxor x8 xv in dlet x9 := Z.lxor x9 xu in dlet xa := Z.lxor xa xt in dlet xb := Z.lxor xb xs in
      dlet xh := T32 (x4 + xh) in dlet x4 := rotl32 x4 11 in dlet xg := T32 (x5 + xg) in dlet x5 := rotl32 x5 11 in
      dlet xj := T32 (x6 + xj) in dlet x6 := rotl32 x6 11 in dlet xi := T32 (x7 + xi) in dlet x7 := rotl32 x7 11 in
      dlet xl := T32 (x0 + xl) in dlet x0 := rotl32 x0 11 in dlet xk := T32 (x1 + xk) in dlet x1 := rotl32 x1 11 in
      dlet xn := T32 (x2 + xn) in dlet x2 := rotl32 x2 11 in dlet xm := T32 (x3 + xm) in dlet x3 := rotl32 x3 11 in
      dlet xp := T32 (xc + xp) in dlet xc := rotl32 xc 11 in dlet xo := T32 (xd + xo) in dlet xd := rotl32 xd 11 in
      dlet xr := T32 (xe + xr) in dlet xe := rotl32 xe 11 in dlet xq := T32 (xf + xq) in dlet xf := rotl32 xf 11 in
      dlet xt := T32 (x8 + xt) in dlet x8 := rotl32 x8 11 in dlet xs := T32 (x9 + xs) in dlet x9 := rotl32 x9 11 in
      dlet xv := T32 (xa + xv) in dlet xa := rotl32 xa 11 in dlet xu := T32 (xb + xu) in dlet xb := rotl32 xb 11 in
      dlet x0 := Z.lxor x0 xh in dlet x1 := Z.lxor x1 xg in dlet x2 := Z.lxor x2 xj in dlet x3 := Z.lxor x3 xi in
      dlet x4 := Z.lxor x4 xl in dlet x5 := Z.lxor x5 xk in dlet x6 := Z.lxor x6 xn in dlet x7 := Z.lxor x7 xm in
      dlet x8 := Z.lxor x8 xp in dlet x9 := Z.lxor x9 xo in dlet xa := Z.lxor xa xr in dlet xb := Z.lxor xb xq in
      dlet xc := Z.lxor xc xt in dlet xd := Z.lxor xd xs in dlet xe := Z.lxor xe xv in dlet xf := Z.lxor xf xu in
      [x0; x1; x2; x3; x4; x5; x6; x7; x8; x9; xa; xb; xc; xd; xe; xf; xg; xh; xi; xj; xk; xl; xm; xn; xo; xp; xq; xr; xs; xt; xu; xv]
  | _ => x
  end.

(** The four settings of [SPH_CUBEHASH_UNROLL] repeat the same pair of rounds. *)
Definition SIXTEEN_ROUNDS (x : list Z) : list Z := Nat.iter 8 (fun x => ROUND_ODD (ROUND_EVEN x)) x.

Definition cubehash_ctx := sph_ctx (list Z).
Definition cubehash_init (junk iv : list Z) : cubehash_ctx := mk_sph junk 0 iv.
Definition cubehash_block (x buf : list Z) : list Z := SIXTEEN_ROUNDS (INPUT_BLOCK x buf).
Definition cubehash_core : cubehash_ctx -> list Z -> cubehash_ctx := sph_core 32 cubehash_block.

(** [for (i = 0; i < 11; i ++) { SIXTEEN_ROUNDS; if (i == 0) xv ^= 1; }]. *)
Definition close_rounds (x : list Z) : list Z :=
  foldl (fun x i => let x := SIXTEEN_ROUNDS x in
    if (i =? 0)%nat then <[31%nat := Z.lxor (x !!! 31%nat) 1]> x else x) x (seq 0 11).
Definition cubehash_close (sc : cubehash_ctx) (ub n : Z) (out_size_w32 : nat) : cubehash_ctx * list Z :=
  let buf := <[sc_ptr sc := final_byte ub n]> (sc_buf sc) in
  let ptr := S (sc_ptr sc) in
  let buf := memset0 buf ptr (32 - ptr) in
  let x := close_rounds (INPUT_BLOCK (sc_st sc) buf) in
  (mk_sph buf (sc_ptr sc) x, flat_map (fun z => le_store 4 (x !!! z)) (seq 0 out_size_w32)).

Definition sph_cubehash224_init (junk : list Z) : cubehash_ctx := cubehash_init junk IV224.
Definition sph_cubehash224 : cubehash_ctx -> list Z -> cubehash_ctx := cubehash_core.
Definition sph_cubehash224_addbits_and_close (cc : cubehash_ctx) (ub n : Z) : cubehash_ctx * list Z :=
  let '(cc, dst) := cubehash_close cc ub n 7 in (sph_cubehash224_init (sc_buf cc), dst).
Definition sph_cubehash224_close (cc : cubehash_ctx) : cubehash_ctx * list Z := sph_cubehash224_addbits_and_close cc 0 0.
Definition sph_cubehash256_init (junk : list Z) : cubehash_ctx := cubehash_init junk IV256.
Definition sph_cubehash256 : cubehash_ctx -> list Z -> cubehash_ctx := cubehash_core.
Definition sph_cubehash256_addbits_and_close (cc : cubehash_ctx) (ub n : Z) : cubehash_ctx * list Z :=
  let '(cc, dst) := cubehash_close cc ub n 8 in (sph_cubehash256_init (sc_buf cc), dst).
Definition sph_cubehash256_close (cc : cubehash_ctx) : cubehash_ctx * list Z := sph_cubehash256_addbits_and_close cc 0 0.
Definition sph_cubehash384_init (junk : list Z) : cubehash_ctx := cubehash_init junk IV384.
Definition sph_cubehash384 : cubehash_ctx -> list Z -> cubehash_ctx := cubehash_core.
Definition sph_cubehash384_addbits_and_close (cc : cubehash_ctx) (ub n : Z) : cubehash_ctx * list Z :=
  let '(cc, dst) := cubehash_close cc ub n 12 in (sph_cubehash384_init (sc_buf cc), dst).
Definition sph_cubehash384_close (cc : cubehash_ctx) : cubehash_ctx * list Z := sph_cubehash384_addbits_and_close cc 0 0.
Definition sph_cubehash512_init (junk : list Z) : cubehash_ctx := cubehash_init junk IV512.
Definition sph_cubehash512 : cubehash_ctx -> list Z -> cubehash_ctx := cubehash_core.
Definition sph_cubehash512_addbits_and_close (cc : cubehash_ctx) (ub n : Z) : cubehash_ctx * list Z :=
  let '(cc, dst) := cubehash_close cc ub n 16 in (sph_cubehash512_init (sc_buf cc), dst).
Definition sph_cubehash512_close (cc : cubehash_ctx) : cubehash_ctx * list Z := sph_cubehash512_addbits_and_close cc 0 0.



(** ** Reference: CubeHash16/32 *)

(** Exchange of the words whose indices differ in the bit [k]. *)
Definition swap (k : nat) (l : list Z) : list Z := (fun i => l !!! (Nat.lxor i k)) <$> seq 0 (length l).
Definition add_words : list Z -> list Z -> list Z := zip_with (fun p q => T32 (p + q)).
(** One round: the ten steps on the halves [x[0jklm]] and [x[1jklm]]. *)
Definition cube_round (x : list Z) : list Z :=
  let a := take 16 x in
  let b := drop 16 x in
  let b := add_words a b in
  let a := swap 8 ((fun w => rotl32 w 7) <$> a) in
  let a := zip_with Z.lxor a b in
  let b := add_words a (swap 2 b) in
  let a := swap 4 ((fun w => rotl32 w 11) <$> a) in
  let a := zip_with Z.lxor a b in
  a ++ swap 1 b.
Definition cube_rounds (n : nat) : list Z -> list Z := Nat.iter n cube_round.
(** The state for [h]-byte digests: the parameters [h], 32 and 16, and 160 rounds. *)
Definition cube_iv (h : Z) : list Z := cube_rounds 160 ([h; 32; 16] ++ replicate 29 0).
Definition cube_absorb (x m : list Z) : list Z :=
  cube_rounds 16 (tabulate 32 (fun i => if decide (i < 8)%nat then Z.lxor (x !!! i) (le_load 4 (slice (4 * i) 4 m)) else x !!! i)).
Definition cube_pad (m : list Z) (ub n : Z) : list Z :=
  m ++ [last_bits ub n] ++ replicate (31 - length m mod 32) 0.
Definition cubehash_digest (words : nat) (m : list Z) (ub n : Z) : list Z :=
  let x := foldl cube_absorb (cube_iv (4 * Z.of_nat words)) (blocks 32 (cube_pad m ub n)) in
  let x := cube_rounds 160 (<[31%nat := Z.lxor (x !!! 31%nat) 1]> x) in
  flat_map (le_store 4) (take words x).

(** ** The rounds *)

Lemma length_cube_round x : length x = 32%nat -> length (cube_round x) = 32%nat.
Proof.
  intros H. do 32 (destruct x as [|? x]; [done|]). destruct x; [|done]. exact eq_refl.
Qed.
Lemma length_cube_rounds n x : length x = 32%nat -> length (cube_rounds n x) = 32%nat.
Proof. intros H. induction n as [|n IH]; [done|]. by apply length_cube_round. Qed.

(** The two unrolled rounds, without swaps, are two rounds. *)
Lemma pair_rounds x : length x = 32%nat -> ROUND_ODD (ROUND_EVEN x) = cube_rounds 2 x.
Proof.
  intros H. do 32 (destruct x as [|? x]; [done|]). destruct x; [|done]. clear H.
  cbv [ROUND_ODD ROUND_EVEN Let_In cube_rounds Nat.iter nat_rect cube_round swap add_words take drop zip_with fmap list_fmap seq length
    Nat.lxor Nat.bitwise lookup_total list_lookup_total app Nat.div2 Nat.odd Nat.even xorb negb Nat.max Nat.b2n Nat.add Nat.mul].
  exact eq_refl.
Qed.
Lemma iter_pairs n x : length x = 32%nat -> Nat.iter n (fun x => ROUND_ODD (ROUND_EVEN x)) x = cube_rounds (2 * n) x.
Proof.
  intros H. induction n as [|n IH]; [done|]. replace (2 * S n)%nat with (2 + 2 * n)%nat by lia.
  rewrite Nat.iter_succ, IH, pair_rounds by by apply length_cube_rounds. exact eq_refl.
Qed.
Lemma sixteen_rounds x : length x = 32%nat -> SIXTEEN_ROUNDS x = cube_rounds 16 x.
Proof. apply (iter_pairs 8). Qed.
Lemma length_sixteen x : length x = 32%nat -> length (SIXTEEN_ROUNDS x) = 32%nat.
Proof. intros H. rewrite sixteen_rounds by done. by apply length_cube_rounds. Qed.
Lemma cube_rounds_add a b x : cube_rounds a (cube_rounds b x) = cube_rounds (a + b) x.
Proof. unfold cube_rounds. symmetry. apply Nat.iter_add. Qed.

(** ** Blocks and digests *)

Lemma input_block x buf :
  length x = 32%nat ->
  INPUT_BLOCK x buf = tabulate 32 (fun i => if decide (i < 8)%nat then Z.lxor (x !!! i) (le_load 4 (slice (4 * i) 4 buf)) else x !!! i).
Proof.
  intros Hx. unfold INPUT_BLOCK.
  destruct (loop_map (fun i w => Z.lxor w (le_load 4 (slice (4 * i) 4 buf))) x 8 ltac:(lia)) as [Hl Hj].
  apply list_eq_total; [by rewrite length_tabulate, Hl|]. rewrite Hl, Hx. intros i Hi. by rewrite Hj, tabulate_lookup by done.
Qed.
Lemma length_input_block x buf : length x = 32%nat -> length (INPUT_BLOCK x buf) = 32%nat.
Proof. intros Hx. by rewrite input_block, length_tabulate. Qed.
Lemma cubehash_block_ref x buf : length x = 32%nat -> cubehash_block x buf = cube_absorb x buf.
Proof. intros Hx. unfold cubehash_block, cube_absorb. rewrite sixteen_rounds by by apply length_input_block. by rewrite input_block. Qed.
Lemma length_cube_absorb x m : length (cube_absorb x m) = 32%nat.
Proof. apply length_cube_rounds, length_tabulate. Qed.

Lemma close_rounds_ref x :
  length x = 32%nat ->
  close_rounds x = cube_rounds 160 (let y := cube_rounds 16 x in <[31%nat := Z.lxor (y !!! 31%nat) 1]> y).
Proof.
  intros Hx. unfold close_rounds. cbn [seq foldl Nat.eqb]. rewrite (sixteen_rounds x) by done. cbv zeta.
  set (y := <[31%nat := _]> _). assert (Hy : length y = 32%nat) by (unfold y; rewrite length_insert; by apply length_cube_rounds).
  clearbody y. do 10 (rewrite sixteen_rounds by (repeat first [apply length_cube_rounds | apply length_sixteen]; done)). by rewrite !cube_rounds_add.
Qed.

Lemma length_close_rounds x : length x = 32%nat -> length (close_rounds x) = 32%nat.
Proof.
  intros Hx. rewrite close_rounds_ref by done. apply length_cube_rounds. cbv zeta. rewrite length_insert. by apply length_cube_rounds.
Qed.

(** The initial values are those of the description. *)
Lemma iv_ref : IV224 = cube_iv 28 /\ IV256 = cube_iv 32 /\ IV384 = cube_iv 48 /\ IV512 = cube_iv 64.
Proof. vm_compute. done. Qed.

Lemma output_words (x : list Z) w : (w <= length x)%nat -> flat_map (fun z => le_store 4 (x !!! z)) (seq 0 w) = flat_map (le_store 4) (take w x).
Proof.
  intros Hw. rewrite !flat_map_concat_map. f_equal. rewrite <-(map_map (fun z => x !!! z) (le_store 4)). f_equal.
  apply list_eq_total; [rewrite length_map, length_seq, length_take; lia|]. rewrite length_map, length_seq. intros i Hi.
  change (map (λ z, x !!! z) (seq 0 w)) with ((λ z, x !!! z) <$> seq 0 w). rewrite lookup_fmap_seq by done.
  symmetry. by apply lookup_total_take_lt.
Qed.

Lemma length_cube_iv h : length (cube_iv h) = 32%nat.
Proof. unfold cube_iv. apply length_cube_rounds. exact eq_refl. Qed.

#[local] Opaque cube_rounds close_rounds SIXTEEN_ROUNDS INPUT_BLOCK final_byte cube_iv.

Lemma cube_stream junk iv words pieces ub n :
  length junk = 32%nat -> iv = cube_iv (4 * Z.of_nat words) -> (words <= 32)%nat -> word 8 ub -> 0 <= n < 8 ->
  (cubehash_close (foldl cubehash_core (cubehash_init junk iv) pieces) ub n words).2 = cubehash_digest words (concat pieces) ub n.
Proof.
  intros Hj Hiv Hw Hub Hn. destruct (sph_pieces_spec 32 cubehash_block ltac:(lia) junk iv pieces Hj) as (Hok & Es & Ep & El).
  unfold cubehash_close, cubehash_init, cubehash_core. set (c := foldl _ _ pieces) in *. set (m := concat pieces) in *. clearbody c m.
  rewrite (pad_buffer 32 c _ Hok), El, Ep. cbn [snd]. destruct (final_byte_ref ub n Hub Hn) as [-> _].
  assert (Hliv : length iv = 32%nat) by (subst iv; apply length_cube_iv).
  assert (Hst : sc_st c = foldl cube_absorb iv (blocks 32 m) /\ length (sc_st c) = 32%nat).
  { rewrite Es. clear - Hliv. generalize (blocks 32 m). intros bs. revert iv Hliv. induction bs as [|x bs IH]; intros iv Hliv; [done|]. cbn [foldl].
    rewrite cubehash_block_ref by done. apply IH, length_cube_absorb. }
  destruct Hst as [Est Hlst]. rewrite output_words by (rewrite length_close_rounds; [lia|by apply length_input_block]).
  unfold cubehash_digest. rewrite close_rounds_ref by by apply length_input_block. unfold cube_pad.
  set (t := [last_bits ub n] ++ _). replace (32 - S (length m mod 32))%nat with (31 - length m mod 32)%nat by lia. fold t.
  assert (Hlast : length (leftover 32 m ++ t) = 32%nat).
  { unfold t. rewrite !length_app, length_leftover, length_replicate by lia. cbn [length].
    pose proof (Nat.mod_upper_bound (length m) 32 ltac:(lia)). lia. }
  rewrite (blocks_last 32 m t) by (lia || done). rewrite foldl_app, <-Hiv, <-Est. cbn [foldl]. unfold cube_absorb at 1 2. by rewrite input_block.
Qed.

(** Closing also initialises the context again; the digest is [cubehash_close]'s. *)
Lemma closing :
  (forall cc ub n, (sph_cubehash224_addbits_and_close cc ub n).2 = (cubehash_close cc ub n 7).2) /\
  (forall cc ub n, (sph_cubehash256_addbits_and_close cc ub n).2 = (cubehash_close cc ub n 8).2) /\
  (forall cc ub n, (sph_cubehash384_addbits_and_close cc ub n).2 = (cubehash_close cc ub n 12).2) /\
  (forall cc ub n, (sph_cubehash512_addbits_and_close cc ub n).2 = (cubehash_close cc ub n 16).2).
Proof. split_and!; intros cc ub n; [unfold sph_cubehash224_addbits_and_close|unfold sph_cubehash256_addbits_and_close
  |unfold sph_cubehash384_addbits_and_close|unfold sph_cubehash512_addbits_and_close]; by destruct (cubehash_close cc ub n _). Qed.

(** ** Properties *)

(** C14. For the four digest sizes, feeding a message to [sph_cubehash*] in any
    pieces and closing with up to 7 extra bits gives the CubeHash16/32 digest of the
    concatenation: the paired rounds with renamed variables are the rounds of the
    description and the initial values are the states it computes. *)
Theorem sph_cubehash_streaming junk pieces ub n :
  length junk = 32%nat -> word 8 ub -> 0 <= n < 8 ->
  let m := concat pieces in
  (sph_cubehash224_addbits_and_close (foldl sph_cubehash224 (sph_cubehash224_init junk) pieces) ub n).2 = cubehash_digest 7 m ub n /\
  (sph_cubehash256_addbits_and_close (foldl sph_cubehash256 (sph_cubehash256_init junk) pieces) ub n).2 = cubehash_digest 8 m ub n /\
  (sph_cubehash384_addbits_and_close (foldl sph_cubehash384 (sph_cubehash384_init junk) pieces) ub n).2 = cubehash_digest 12 m ub n /\
  (sph_cubehash512_addbits_and_close (foldl sph_cubehash512 (sph_cubehash512_init junk) pieces) ub n).2 = cubehash_digest 16 m ub n.
Proof.
  intros Hj Hub Hn m. destruct iv_ref as (I1 & I2 & I3 & I4). destruct closing as (C1 & C2 & C3 & C4). rewrite C1, C2, C3, C4.
  exact (conj (cube_stream junk IV224 7 pieces ub n Hj I1 ltac:(lia) Hub Hn) (conj (cube_stream junk IV256 8 pieces ub n Hj I2 ltac:(lia) Hub Hn)
    (conj (cube_stream junk IV384 12 pieces ub n Hj I3 ltac:(lia) Hub Hn) (cube_stream junk IV512 16 pieces ub n Hj I4 ltac:(lia) Hub Hn)))).
Qed.
Lemma sph_cubehash_streaming_witness :
  (sph_cubehash512_addbits_and_close (foldl sph_cubehash512 (sph_cubehash512_init (replicate 32 9)) [[0x61]; replicate 40 0x62]) 0xA0 3).2
  = cubehash_digest 16 (concat [[0x61]; replicate 40 0x62]) 0xA0 3.
Proof.
  refine (proj2 (proj2 (proj2 (sph_cubehash_streaming (replicate 32 9) [[0x61]; replicate 40 0x62] 0xA0 3 eq_refl _ _)))); unfold word; lia.
Defined.

(** The digest of the empty message starts as published. *)
Example cubehash512_empty :
  take 16 (sph_cubehash512_close (sph_cubehash512_init (replicate 32 0))).2
  = [0x4A; 0x1D; 0x00; 0xBB; 0xCF; 0xCB; 0x5A; 0x95; 0x62; 0xFB; 0x98; 0x1E; 0x7F; 0x7D; 0xB3; 0x35].
Proof. vm_compute. reflexivity. Qed.

Lemma length_cubehash_digest m ub n : length (cubehash_digest 16 m ub n) = 64%nat /\ bytes (cubehash_digest 16 m ub n).
Proof.
  unfold cubehash_digest. set (x := cube_rounds 160 _).
  assert (Hx : length x = 32%nat).
  { apply length_cube_rounds. rewrite length_insert. set (l := blocks 32 _). clearbody l. clear x. revert l.
    assert (H : forall l s, length s = 32%nat -> length (foldl cube_absorb s l) = 32%nat).
    { intros l. induction l as [|y l IH]; intros s Hs; [done|]. apply IH, length_cube_absorb. }
    intros l. apply H, length_cube_iv. }
  clearbody x. apply (digest_words 16). rewrite length_take. lia.
Qed.

End Cubehash.
