(* ===== verification/SphBlake.v ===== *)
(** * BLAKE ([crypto/ghostrider/sph_blake.c]).

    The 32-bit and the 64-bit functions are the same text with other words,
    rotations, constants and round counts: the record [blake_cfg] holds what
    differs, [small] and [big] are its values for the unrolled and the compact builds.  A context is the buffer of
    [SphCore] around the chaining value, the salt and the two counter words. *)
From S2P Require Import Prelude Stream SphCore.

Module Blake.

Definition IV224 : list Z := [
  0xC1059ED8; 0x367CD507; 0x3070DD17; 0xF70E5939;
  0xFFC00B31; 0x68581511; 0x64F98FA7; 0xBEFA4FA4].
Definition IV256 : list Z := [
  0x6A09E667; 0xBB67AE85; 0x3C6EF372; 0xA54FF53A;
  0x510E527F; 0x9B05688C; 0x1F83D9AB; 0x5BE0CD19].
Definition IV384 : list Z := [
  0xCBBB9D5DC1059ED8; 0x629A292A367CD507; 0x9159015A3070DD17; 0x152FECD8F70E5939;
  0x67332667FFC00B31; 0x8EB44A8768581511; 0xDB0C2E0D64F98FA7; 0x47B5481DBEFA4FA4].
Definition IV512 : list Z := [
  0x6A09E667F3BCC908; 0xBB67AE8584CAA73B; 0x3C6EF372FE94F82B; 0xA54FF53A5F1D36F1;
  0x510E527FADE682D1; 0x9B05688C2B3E6C1F; 0x1F83D9ABFB41BD6B; 0x5BE0CD19137E2179].
(** The table of the compact builds, and [Z00 .. Z9F] of the others. *)
Definition sigma : list (list nat) := [
  [0; 1; 2; 3; 4; 5; 6; 7; 8; 9; 10; 11; 12; 13; 14; 15]%nat;
  [14; 10; 4; 8; 9; 15; 13; 6; 1; 12; 0; 2; 11; 7; 5; 3]%nat;
  [11; 8; 12; 0; 5; 2; 15; 13; 10; 14; 3; 6; 7; 1; 9; 4]%nat;
  [7; 9; 3; 1; 13; 12; 11; 14; 2; 6; 5; 10; 4; 0; 15; 8]%nat;
  [9; 0; 5; 7; 2; 4; 10; 15; 14; 1; 11; 12; 6; 8; 3; 13]%nat;
  [2; 12; 6; 10; 0; 11; 8; 3; 4; 13; 7; 5; 15; 14; 1; 9]%nat;
  [12; 5; 1; 15; 14; 13; 4; 10; 0; 7; 6; 3; 9; 2; 8; 11]%nat;
  [13; 11; 7; 14; 12; 1; 3; 9; 5; 0; 15; 4; 8; 6; 2; 10]%nat;
  [6; 15; 14; 9; 11; 3; 0; 8; 12; 2; 13; 7; 1; 4; 10; 5]%nat;
  [10; 2; 8; 4; 7; 6; 1; 5; 15; 11; 9; 14; 3; 12; 13; 0]%nat;
  [0; 1; 2; 3; 4; 5; 6; 7; 8; 9; 10; 11; 12; 13; 14; 15]%nat;
  [14; 10; 4; 8; 9; 15; 13; 6; 1; 12; 0; 2; 11; 7; 5; 3]%nat;
  [11; 8; 12; 0; 5; 2; 15; 13; 10; 14; 3; 6; 7; 1; 9; 4]%nat;
  [7; 9; 3; 1; 13; 12; 11; 14; 2; 6; 5; 10; 4; 0; 15; 8]%nat;
  [9; 0; 5; 7; 2; 4; 10; 15; 14; 1; 11; 12; 6; 8; 3; 13]%nat;
  [2; 12; 6; 10; 0; 11; 8; 3; 4; 13; 7; 5; 15; 14; 1; 9]%nat].
Definition Zr : list (list nat) := [
  [0; 1; 2; 3; 4; 5; 6; 7; 8; 9; 10; 11; 12; 13; 14; 15]%nat;
  [14; 10; 4; 8; 9; 15; 13; 6; 1; 12; 0; 2; 11; 7; 5; 3]%nat;
  [11; 8; 12; 0; 5; 2; 15; 13; 10; 14; 3; 6; 7; 1; 9; 4]%nat;
  [7; 9; 3; 1; 13; 12; 11; 14; 2; 6; 5; 10; 4; 0; 15; 8]%nat;
  [9; 0; 5; 7; 2; 4; 10; 15; 14; 1; 11; 12; 6; 8; 3; 13]%nat;
  [2; 12; 6; 10; 0; 11; 8; 3; 4; 13; 7; 5; 15; 14; 1; 9]%nat;
  [12; 5; 1; 15; 14; 13; 4; 10; 0; 7; 6; 3; 9; 2; 8; 11]%nat;
  [13; 11; 7; 14; 12; 1; 3; 9; 5; 0; 15; 4; 8; 6; 2; 10]%nat;
  [6; 15; 14; 9; 11; 3; 0; 8; 12; 2; 13; 7; 1; 4; 10; 5]%nat;
  [10; 2; 8; 4; 7; 6; 1; 5; 15; 11; 9; 14; 3; 12; 13; 0]%nat].
Definition CS : list Z := [
  0x243F6A88; 0x85A308D3; 0x13198A2E; 0x03707344;
  0xA4093822; 0x299F31D0; 0x082EFA98; 0xEC4E6C89;
  0x452821E6; 0x38D01377; 0xBE5466CF; 0x34E90C6C;
  0xC0AC29B7; 0xC97C50DD; 0x3F84D5B5; 0xB5470917].
Definition CB : list Z := [
  0x243F6A8885A308D3; 0x13198A2E03707344; 0xA4093822299F31D0; 0x082EFA98EC4E6C89;
  0x452821E638D01377; 0xBE5466CF34E90C6C; 0xC0AC29B7C97C50DD; 0x3F84D5B5B5470917;
  0x9216D5D98979FB1B; 0xD1310BA698DFB5AC; 0x2FFD72DBD01ADFB7; 0xB8E1AFED6A267E96;
  0xBA7C9045F12C7F99; 0x24A19947B3916CF7; 0x0801F2E2858EFC16; 0x636920D871574E69].

Record blake_cfg := mk_cfg {
  wlen : nat;                 (* bytes of a word *)
  Tw : Z -> Z;                (* SPH_T32, SPH_T64 *)
  rotr : Z -> Z -> Z;
  rot : Z * Z * Z * Z;
  Cx : list Z;
  Zx : list (list nat);       (* the permutations *)
  order : list nat            (* the arguments of ROUND_S, ROUND_B *)
}.
(** The compact builds loop over [sigma]; the others unroll the rounds. *)
Definition small (compact : bool) : blake_cfg :=
  if compact then mk_cfg 4 T32 rotr32 (16, 12, 8, 7) CS sigma (seq 0 14)
  else mk_cfg 4 T32 rotr32 (16, 12, 8, 7) CS Zr [0; 1; 2; 3; 4; 5; 6; 7; 8; 9; 0; 1; 2; 3]%nat.
Definition big (compact : bool) : blake_cfg :=
  if compact then mk_cfg 8 T64 rotr64 (32, 25, 16, 11) CB sigma (seq 0 16)
  else mk_cfg 8 T64 rotr64 (32, 25, 16, 11) CB Zr [0; 1; 2; 3; 4; 5; 6; 7; 8; 9; 0; 1; 2; 3; 4; 5]%nat.

(** Bytes and bits of a block. *)
Definition blen (k : blake_cfg) : nat := 16 * wlen k.
Definition bbits (k : blake_cfg) : Z := 8 * Z.of_nat (blen k).

Record blake_state := mk_blake { bH : list Z; bS : list Z; T0 : Z; T1 : Z }.

Section BlakeCode.
Context (k : blake_cfg).

(** [GS], [GB] on the variables [Va .. Vd]. *)
Definition G (m0 m1 c0 c1 : Z) (a b c d : nat) (V : list Z) : list Z :=
  let '(r1, r2, r3, r4) := rot k in
  let V := <[a := Tw k (V !!! a + V !!! b + Z.lxor m0 c1)]> V in
  let V := <[d := rotr k (Z.lxor (V !!! d) (V !!! a)) r1]> V in
  let V := <[c := Tw k (V !!! c + V !!! d)]> V in
  let V := <[b := rotr k (Z.lxor (V !!! b) (V !!! c)) r2]> V in
  let V := <[a := Tw k (V !!! a + V !!! b + Z.lxor m1 c0)]> V in
  let V := <[d := rotr k (Z.lxor (V !!! d) (V !!! a)) r3]> V in
  let V := <[c := Tw k (V !!! c + V !!! d)]> V in
  <[b := rotr k (Z.lxor (V !!! b) (V !!! c)) r4]> V.

(** [ROUND_S(r)], [ROUND_B(r)]. *)
Definition ROUND (M : list Z) (r : nat) (V : list Z) : list Z :=
  let Mx i := M !!! ((Zx k !!! r) !!! i) in
  let Cx i := Cx k !!! ((Zx k !!! r) !!! i) in
  let V := G (Mx 0%nat) (Mx 1%nat) (Cx 0%nat) (Cx 1%nat) 0 4 8 12 V in
  let V := G (Mx 2%nat) (Mx 3%nat) (Cx 2%nat) (Cx 3%nat) 1 5 9 13 V in
  let V := G (Mx 4%nat) (Mx 5%nat) (Cx 4%nat) (Cx 5%nat) 2 6 10 14 V in
  let V := G (Mx 6%nat) (Mx 7%nat) (Cx 6%nat) (Cx 7%nat) 3 7 11 15 V in
  let V := G (Mx 8%nat) (Mx 9%nat) (Cx 8%nat) (Cx 9%nat) 0 5 10 15 V in
  let V := G (Mx 10%nat) (Mx 11%nat) (Cx 10%nat) (Cx 11%nat) 1 6 11 12 V in
  let V := G (Mx 12%nat) (Mx 13%nat) (Cx 12%nat) (Cx 13%nat) 2 7 8 13 V in
  G (Mx 14%nat) (Mx 15%nat) (Cx 14%nat) (Cx 15%nat) 3 4 9 14 V.

(** [COMPRESS32], [COMPRESS64]. *)
Definition COMPRESS (st : blake_state) (buf : list Z) : blake_state :=
  let H := bH st in
  let S := bS st in
  let C := Cx k in
  let V := [H !!! 0%nat; H !!! 1%nat; H !!! 2%nat; H !!! 3%nat; H !!! 4%nat; H !!! 5%nat; H !!! 6%nat; H !!! 7%nat;
            Z.lxor (S !!! 0%nat) (C !!! 0%nat); Z.lxor (S !!! 1%nat) (C !!! 1%nat);
            Z.lxor (S !!! 2%nat) (C !!! 2%nat); Z.lxor (S !!! 3%nat) (C !!! 3%nat);
            Z.lxor (T0 st) (C !!! 4%nat); Z.lxor (T0 st) (C !!! 5%nat);
            Z.lxor (T1 st) (C !!! 6%nat); Z.lxor (T1 st) (C !!! 7%nat)] in
  let M := (fun i => be_load (wlen k) (slice (wlen k * i) (wlen k) buf)) <$> seq 0 16 in
  let V := foldl (fun V r => ROUND M r V) V (order k) in
  mk_blake ((fun i => Z.lxor (H !!! i) (Z.lxor (Z.lxor (S !!! (i mod 4)%nat) (V !!! i)) (V !!! (i + 8)%nat))) <$> seq 0 8) S (T0 st) (T1 st).

(** [if ((T0 = SPH_T32(T0 + 512)) < 512) T1 = SPH_T32(T1 + 1)]. *)
Definition count_block (st : blake_state) : blake_state :=
  let t0 := Tw k (T0 st + bbits k) in
  mk_blake (bH st) (bS st) t0 (if t0 <? bbits k then Tw k (T1 st + 1) else T1 st).
Definition blake_block (st : blake_state) (buf : list Z) : blake_state := COMPRESS (count_block st) buf.

Definition blake_ctx := sph_ctx blake_state.
Definition blake_init (junk iv salt : list Z) : blake_ctx := mk_sph junk 0 (mk_blake iv salt 0 0).
Definition blake_update : blake_ctx -> list Z -> blake_ctx := sph_core (blen k) blake_block.

Definition set_T (sc : blake_ctx) (t0 t1 : Z) : blake_ctx :=
  mk_sph (sc_buf sc) (sc_ptr sc) (mk_blake (bH (sc_st sc)) (bS (sc_st sc)) t0 t1).
(** [0xFFFFFE00], [0xFFFFFFFFFFFFFC00] and the word of ones. *)
Definition T_before : Z := Tw k (- bbits k).
Definition T_ones : Z := Tw k (- 1).

(** [blake32_close], [blake64_close]; [u] is what the union on the stack holds. *)
Definition blake_close (u : list Z) (sc : blake_ctx) (ub n : Z) (out_size : nat) : blake_ctx * list Z :=
  let w := wlen k in
  let ptr := sc_ptr sc in
  let bit_len := 8 * Z.of_nat ptr + n in
  let u := <[ptr := final_byte ub n]> u in
  let tl := Tw k (T0 (sc_st sc) + bit_len) in
  let th := T1 (sc_st sc) in
  let sc :=
    if (ptr =? 0)%nat && (n =? 0) then set_T sc T_before T_ones
    else if T0 (sc_st sc) =? 0 then set_T sc (Tw k (T_before + bit_len)) (Tw k (T1 (sc_st sc) - 1))
    else set_T sc (Tw k (T0 (sc_st sc) - (bbits k - bit_len))) (T1 (sc_st sc)) in
  let sc :=
    if bit_len <=? bbits k - 16 * Z.of_nat w - 2 then
      let u := memset0 u (ptr + 1) (14 * w - 1 - ptr) in
      let u := if (out_size =? 8)%nat then <[(14 * w - 1)%nat := Z.lor (u !!! (14 * w - 1)%nat) 1]> u else u in
      let u := memcpy u (14 * w) (be_store w th) in
      let u := memcpy u (15 * w) (be_store w tl) in
      blake_update sc (drop ptr u)
    else
      let u := memset0 u (ptr + 1) (16 * w - 1 - ptr) in
      let sc := blake_update sc (drop ptr u) in
      let sc := set_T sc T_before T_ones in
      let u := memset0 u 0 (14 * w) in
      let u := if (out_size =? 8)%nat then <[(14 * w - 1)%nat := 1]> u else u in
      let u := memcpy u (14 * w) (be_store w th) in
      let u := memcpy u (15 * w) (be_store w tl) in
      blake_update sc u in
  (sc, flat_map (fun i => be_store w (bH (sc_st sc) !!! i)) (seq 0 out_size)).
End BlakeCode.

Section Builds.
Context (compact : bool).
Definition GS := G (small compact).
Definition ROUND_S := ROUND (small compact).
Definition COMPRESS32 := COMPRESS (small compact).
Definition blake32_init := blake_init.
Definition blake32 := blake_update (small compact).
Definition blake32_close := blake_close (small compact).
Definition GB := G (big compact).
Definition ROUND_B := ROUND (big compact).
Definition COMPRESS64 := COMPRESS (big compact).
Definition blake64_init := blake_init.
Definition blake64 := blake_update (big compact).
Definition blake64_close := blake_close (big compact).
Definition salt_zero_small : list Z := replicate 4 0.
Definition salt_zero_big : list Z := replicate 4 0.

Definition sph_blake224_init (junk : list Z) : blake_ctx := blake32_init junk IV224 salt_zero_small.
Definition sph_blake224 : blake_ctx -> list Z -> blake_ctx := blake32.
Definition sph_blake224_addbits_and_close (u : list Z) (cc : blake_ctx) (ub n : Z) : blake_ctx * list Z := blake32_close u cc ub n 7.
Definition sph_blake224_close (u : list Z) (cc : blake_ctx) : blake_ctx * list Z := sph_blake224_addbits_and_close u cc 0 0.
Definition sph_blake256_init (junk : list Z) : blake_ctx := blake32_init junk IV256 salt_zero_small.
Definition sph_blake256 : blake_ctx -> list Z -> blake_ctx := blake32.
Definition sph_blake256_addbits_and_close (u : list Z) (cc : blake_ctx) (ub n : Z) : blake_ctx * list Z := blake32_close u cc ub n 8.
Definition sph_blake256_close (u : list Z) (cc : blake_ctx) : blake_ctx * list Z := sph_blake256_addbits_and_close u cc 0 0.
Definition sph_blake384_init (junk : list Z) : blake_ctx := blake64_init junk IV384 salt_zero_big.
Definition sph_blake384 : blake_ctx -> list Z -> blake_ctx := blake64.
Definition sph_blake384_addbits_and_close (u : list Z) (cc : blake_ctx) (ub n : Z) : blake_ctx * list Z := blake64_close u cc ub n 6.
Definition sph_blake384_close (u : list Z) (cc : blake_ctx) : blake_ctx * list Z := sph_blake384_addbits_and_close u cc 0 0.
Definition sph_blake512_init (junk : list Z) : blake_ctx := blake64_init junk IV512 salt_zero_big.
Definition sph_blake512 : blake_ctx -> list Z -> blake_ctx := blake64.
Definition sph_blake512_addbits_and_close (u : list Z) (cc : blake_ctx) (ub n : Z) : blake_ctx * list Z := blake64_close u cc ub n 8.
Definition sph_blake512_close (u : list Z) (cc : blake_ctx) : blake_ctx * list Z := sph_blake512_addbits_and_close u cc 0 0.
End Builds.

(** ** Reference *)

Section Reference.
Context (k : blake_cfg).

(** The function [G] of the submission on a column [(a, b, c, d)]. *)
Definition quarter (m0 m1 c0 c1 : Z) (q : list Z) : list Z :=
  let '(r1, r2, r3, r4) := rot k in
  let '(a, b, c, d) := (q !!! 0%nat, q !!! 1%nat, q !!! 2%nat, q !!! 3%nat) in
  let a := Tw k (a + b + Z.lxor m0 c1) in
  let d := rotr k (Z.lxor d a) r1 in
  let c := Tw k (c + d) in
  let b := rotr k (Z.lxor b c) r2 in
  let a := Tw k (a + b + Z.lxor m1 c0) in
  let d := rotr k (Z.lxor d a) r3 in
  let c := Tw k (c + d) in
  let b := rotr k (Z.lxor b c) r4 in
  [a; b; c; d].
(** The state is a matrix of four rows; a round works on its columns, then on its
    diagonals: rows rotated, columns, rows rotated back. *)
Definition column (v : list Z) (j : nat) : list Z := [v !!! j; v !!! (4 + j)%nat; v !!! (8 + j)%nat; v !!! (12 + j)%nat].
Definition columns (f : nat -> list Z -> list Z) (v : list Z) : list Z :=
  let c := (fun j => f j (column v j)) <$> seq 0 4 in (fun i => (c !!! (i mod 4)%nat) !!! (i / 4)%nat) <$> seq 0 16.
Definition rotate_rows (s : nat) (v : list Z) : list Z := (fun i => v !!! (4 * (i / 4) + (i + s * (i / 4)) mod 4)%nat) <$> seq 0 16.
Definition blake_round (M : list Z) (r : nat) (v : list Z) : list Z :=
  let s := sigma !!! r in
  let g i := quarter (M !!! (s !!! (2 * i)%nat)) (M !!! (s !!! (2 * i + 1)%nat)) (Cx k !!! (s !!! (2 * i)%nat)) (Cx k !!! (s !!! (2 * i + 1)%nat)) in
  rotate_rows 3 (columns (fun j => g (4 + j)%nat) (rotate_rows 1 (columns g v))).

Definition W : Z := 2 ^ (8 * Z.of_nat (wlen k)).
(** The compression function with the counter [t] of message bits. *)
Definition blake_compress (S h : list Z) (t : Z) (block : list Z) : list Z :=
  let M := (fun i => be_load (wlen k) (slice (wlen k * i) (wlen k) block)) <$> seq 0 16 in
  let t0 := t mod W in
  let t1 := t / W in
  let v := foldl (fun v r => blake_round M r v) (h ++ zip_with Z.lxor (S ++ [t0; t0; t1; t1]) (take 8 (Cx k))) (seq 0 (length (order k))) in
  zip_with Z.lxor h (zip_with Z.lxor (zip_with Z.lxor (S ++ S) (take 8 v)) (drop 8 v)).

(** Padding of [m] followed by [n < 8] bits: a one bit, zeros, the bit [fl], the length. *)
Definition pad_bytes (r : nat) (n : Z) : nat :=
  if 8 * Z.of_nat r + n <=? bbits k - 16 * Z.of_nat (wlen k) - 2 then 14 * wlen k - r else blen k + 14 * wlen k - r.
Definition pad_mid (ub n fl : Z) (p : nat) : list Z := alter (fun x => Z.lor x fl) (p - 1)%nat (last_bits ub n :: replicate (p - 1) 0).
Definition blake_pad (fl : Z) (m : list Z) (ub n : Z) : list Z :=
  m ++ pad_mid ub n fl (pad_bytes (length m mod blen k) n) ++ be_store (2 * wlen k) (8 * Z.of_nat (length m) + n).
(** Block [i] counts the message bits up to its end, and 0 when it has none. *)
Definition counter (L : Z) (i : nat) : Z :=
  if bbits k * Z.of_nat i <? L then Z.min L (bbits k * Z.of_nat (S i)) else 0.
Fixpoint blake_chain (S h : list Z) (L : Z) (i : nat) (bs : list (list Z)) : list Z :=
  match bs with [] => h | b :: bs => blake_chain S (blake_compress S h (counter L i) b) L (1 + i) bs end.
Definition blake_digest (iv : list Z) (words : nat) (m : list Z) (ub n : Z) : list Z :=
  let fl := if (words =? 8)%nat then 1 else 0 in
  let h := blake_chain (replicate 4 0) iv (8 * Z.of_nat (length m) + n) 0 (blocks (blen k) (blake_pad fl m ub n)) in
  flat_map (be_store (wlen k)) (take words h).
End Reference.

(** ** The compression function *)

(** What both sizes have. *)
Record cfg_ok (k : blake_cfg) : Prop := {
  ck_w : wlen k = 4%nat \/ wlen k = 8%nat;
  ck_T : forall x, Tw k x = x mod W k;
  ck_C : length (Cx k) = 16%nat;
  ck_order : (fun r => Zx k !!! r) <$> order k = (fun r => sigma !!! r) <$> seq 0 (length (order k)) }.
Lemma small_ok compact : cfg_ok (small compact).
Proof. destruct compact; (split; [by left|intros x; apply T32_mod|exact eq_refl|exact eq_refl]). Qed.
Lemma big_ok compact : cfg_ok (big compact).
Proof. destruct compact; (split; [by right|intros x; apply T64_mod|exact eq_refl|exact eq_refl]). Qed.

Section Compress.
Context (k : blake_cfg) (Hk : cfg_ok k).

Lemma round_ref M r j v : length v = 16%nat -> Zx k !!! r = sigma !!! j -> ROUND k M r v = blake_round k M j v.
Proof.
  intros Hv Hr. do 16 (destruct v as [|? v]; [done|]). destruct v; [|done]. clear Hv Hk.
  unfold blake_round. rewrite <-Hr. unfold ROUND. set (s := Zx k !!! r). clearbody s.
  destruct k as [wl tw rr [[[r1 r2] r3] r4] cx zx od].
  cbv [G quarter columns column rotate_rows Cx rot Tw rotr seq fmap list_fmap lookup_total list_lookup_total insert list_insert Nat.add Nat.mul Nat.div Nat.modulo Nat.divmod fst snd Nat.sub].
  exact eq_refl.
Qed.
Lemma length_blake_round M r v : length (blake_round k M r v) = 16%nat.
Proof. exact eq_refl. Qed.
Lemma blake_rounds_ref M v rs n i :
  length v = 16%nat -> (fun r => Zx k !!! r) <$> rs = (fun r => sigma !!! r) <$> seq i n ->
  foldl (fun V r => ROUND k M r V) v rs = foldl (fun v r => blake_round k M r v) v (seq i n) /\
  length (foldl (fun v r => blake_round k M r v) v (seq i n)) = 16%nat.
Proof.
  revert v n i. induction rs as [|r rs IH]; intros v n i Hv E; destruct n as [|n]; [done|discriminate E|discriminate E|].
  cbn [seq fmap list_fmap] in E. injection E as E1 E2. cbn [foldl seq]. rewrite (round_ref M r i v Hv E1). by apply IH.
Qed.
Lemma compress_ref st buf t :
  length (bH st) = 8%nat -> length (bS st) = 4%nat -> T0 st = t mod W k -> T1 st = t / W k ->
  COMPRESS k st buf = mk_blake (blake_compress k (bS st) (bH st) t buf) (bS st) (T0 st) (T1 st).
Proof.
  intros HH HS E0 E1. destruct Hk as [_ _ HC Ho]. unfold COMPRESS, blake_compress. rewrite <-E0, <-E1. cbv zeta.
  set (M := _ <$> seq 0 16). set (n := length (order k)) in *. clearbody M. set (v0 := bH st ++ _).
  assert (Hv : length v0 = 16%nat) by (unfold v0; rewrite length_app, length_zip_with, length_app, length_take, HH, HS, HC; reflexivity).
  destruct (blake_rounds_ref M v0 (order k) n 0 Hv Ho) as [E Hlv].
  match goal with |- context [foldl (fun V r => ROUND k M r V) ?x _] => assert (Ev : x = v0) end.
  { unfold v0. clear - HH HS HC. destruct (bH st) as [|h0 [|h1 [|h2 [|h3 [|h4 [|h5 [|h6 [|h7 [|]]]]]]]]]; try done.
    destruct (bS st) as [|s0 [|s1 [|s2 [|s3 [|]]]]]; try done.
    destruct (Cx k) as [|c0 [|c1 [|c2 [|c3 [|c4 [|c5 [|c6 [|c7 l]]]]]]]]; done. }
  rewrite Ev, E. f_equal. clear - HH HS Hlv. set (v := foldl _ v0 _) in *. clearbody v.
  destruct (bH st) as [|h0 [|h1 [|h2 [|h3 [|h4 [|h5 [|h6 [|h7 [|]]]]]]]]]; try done.
  destruct (bS st) as [|s0 [|s1 [|s2 [|s3 [|]]]]]; try done. do 16 (destruct v as [|? v]; [done|]). destruct v; done.
Qed.
Lemma length_compress S h t b : length h = 8%nat -> length S = 4%nat -> length (blake_compress k S h t b) = 8%nat.
Proof.
  intros HH HS. destruct Hk as [_ _ HC Ho]. unfold blake_compress. cbv zeta. set (M := _ <$> seq 0 16). set (v0 := h ++ _).
  assert (Hv : length v0 = 16%nat) by (unfold v0; rewrite length_app, length_zip_with, length_app, length_take, HH, HS, HC; reflexivity).
  destruct (blake_rounds_ref M v0 (order k) (length (order k)) 0 Hv Ho) as [_ Hlv]. rewrite !length_zip_with, length_app, length_take, length_drop, Hlv, HH, HS. reflexivity.
Qed.

(** ** The counter *)

Lemma W_pos : 0 < W k.
Proof. apply Z.pow_pos_nonneg; lia. Qed.
Lemma W_bbits : bbits k * 2 <= W k /\ 0 < bbits k /\ W k mod bbits k = 0.
Proof.
  unfold W, bbits, blen. destruct Hk as [[-> | ->] _ _ _]; (split; [|split]); vm_compute; congruence.
Qed.
(** The state that counts [t] bits. *)
Definition at_bits (h S : list Z) (t : Z) : blake_state := mk_blake h S (t mod W k) (t / W k).
Lemma count_next h S t :
  0 <= t -> t mod bbits k = 0 -> t + bbits k < W k * W k -> count_block k (at_bits h S t) = at_bits h S (t + bbits k).
Proof.
  intros Ht Hm Hlt. pose proof W_pos as HW. destruct W_bbits as (H2 & Hb & Hd). unfold count_block, at_bits. cbn [bH bS T0 T1].
  rewrite !(ck_T _ Hk), Z.add_mod_idemp_l by lia. pose proof (Z.div_mod t (W k) ltac:(lia)) as Et. pose proof (Z.mod_pos_bound t (W k) HW) as Hr.
  assert (Hrm : (t mod W k) mod bbits k = 0).
  { apply Z.mod_divide in Hd, Hm; [|lia..]. apply Z.mod_divide; [lia|]. rewrite Z.mod_eq by lia. apply Z.divide_sub_r; [done|]. by apply Z.divide_mul_l. }
  set (r := t mod W k) in *. set (q := t / W k) in *. assert (Hrb : r + bbits k <= W k).
  { apply Z.mod_divide in Hrm as [x Hx], Hd as [y Hy]; [|lia..]. assert (Hxy : x < y) by (apply (Z.mul_lt_mono_pos_r (bbits k)); lia).
    rewrite Hx, Hy. transitivity ((x + 1) * bbits k); [lia|]. apply Z.mul_le_mono_nonneg_r; lia. }
  replace ((t + bbits k) mod W k) with (if r + bbits k =? W k then 0 else r + bbits k).
  2: { symmetry. destruct (Z.eqb_spec (r + bbits k) (W k)) as [E|E].
       - replace (t + bbits k) with (0 + (q + 1) * W k) by lia. rewrite Z.mod_add by lia. apply Z.mod_0_l. lia.
       - replace (t + bbits k) with (r + bbits k + q * W k) by lia. rewrite Z.mod_add by lia. apply Z.mod_small. lia. }
  destruct (Z.eqb_spec (r + bbits k) (W k)) as [E|E].
  - rewrite (proj2 (Z.ltb_lt 0 (bbits k)) Hb). f_equal.
    replace ((t + bbits k) / W k) with (q + 1); [apply Z.mod_small; nia|]. symmetry. replace (t + bbits k) with ((q + 1) * W k) by lia. apply Z.div_mul. lia.
  - rewrite (proj2 (Z.ltb_ge (r + bbits k) (bbits k))) by lia. f_equal. symmetry. replace (t + bbits k) with (r + bbits k + q * W k) by lia.
    rewrite Z.div_add by lia. rewrite Z.div_small by lia. lia.
Qed.
(** Closing sets the counter so that the next block, which adds [bbits], counts
    0 bits or all [L] of them. *)
Lemma count_zero h S : count_block k (mk_blake h S (T_before k) (T_ones k)) = at_bits h S 0.
Proof.
  pose proof W_pos as HW. destruct W_bbits as (H2 & Hb & _). unfold count_block, T_before, T_ones, at_bits. cbn [bH bS T0 T1].
  rewrite !(ck_T _ Hk), !Z.add_mod_idemp_l by lia. replace (- bbits k + bbits k) with 0 by lia. replace (-1 + 1) with 0 by lia.
  rewrite Z.mod_0_l, Z.div_0_l by lia. by rewrite (proj2 (Z.ltb_lt 0 (bbits k)) Hb).
Qed.
Lemma count_last_first h S t bl :
  0 <= t -> t mod W k = 0 -> 0 <= bl < bbits k -> t < W k * W k ->
  count_block k (mk_blake h S (Tw k (T_before k + bl)) (Tw k (t / W k - 1))) = at_bits h S (t + bl).
Proof.
  intros Ht Hm Hbl Hlt. pose proof W_pos as HW. destruct W_bbits as (H2 & Hb & _). unfold count_block, T_before, at_bits. cbn [bH bS T0 T1].
  assert (E0 : Tw k (Tw k (Tw k (- bbits k) + bl) + bbits k) = bl).
  { rewrite !(ck_T _ Hk), Z.add_mod_idemp_l by lia. rewrite <-Z.add_assoc, Z.add_mod_idemp_l by lia. replace (- bbits k + (bl + bbits k)) with bl by lia. apply Z.mod_small; lia. }
  assert (E1 : Tw k (Tw k (t / W k - 1) + 1) = (t / W k) mod W k).
  { rewrite !(ck_T _ Hk), Z.add_mod_idemp_l by lia. f_equal. lia. }
  rewrite E0, E1, (proj2 (Z.ltb_lt bl (bbits k))) by lia.
  pose proof (Z.div_mod t (W k) ltac:(lia)) as Et. rewrite Hm in Et. assert (Ed : t = t / W k * W k) by lia.
  set (q := t / W k) in *. assert (Hq : 0 <= q < W k) by nia. rewrite (Z.mod_small q) by done. rewrite Ed.
  replace (q * W k + bl) with (bl + q * W k) by lia. rewrite Z.mod_add, Z.div_add, Z.mod_small, Z.div_small by lia. f_equal.
Qed.
Lemma count_last_later h S t bl :
  0 <= t -> t mod bbits k = 0 -> t mod W k <> 0 -> 0 <= bl < bbits k ->
  count_block k (mk_blake h S (Tw k (t mod W k - (bbits k - bl))) (t / W k)) = at_bits h S (t + bl).
Proof.
  intros Ht Hm Hne Hbl. pose proof W_pos as HW. destruct W_bbits as (H2 & Hb & Hd). unfold count_block, at_bits. cbn [bH bS T0 T1].
  rewrite !(ck_T _ Hk), !Z.add_mod_idemp_l by lia. pose proof (Z.div_mod t (W k) ltac:(lia)) as Et. pose proof (Z.mod_pos_bound t (W k) HW) as Hr.
  assert (Hrm : (bbits k | t mod W k)).
  { apply Z.mod_divide in Hd, Hm; [|lia..]. rewrite Z.mod_eq by lia. apply Z.divide_sub_r; [done|]. by apply Z.divide_mul_l. }
  apply Z.mod_divide in Hd; [|lia]. set (r := t mod W k) in *. set (q := t / W k) in *.
  destruct Hrm as [x Hx], Hd as [y Hy]. assert (Hxy : 0 < x < y) by (split; apply (Z.mul_lt_mono_pos_r (bbits k)); lia).
  assert (Hlo : bbits k <= r) by (rewrite Hx; transitivity (1 * bbits k); [lia|apply Z.mul_le_mono_nonneg_r; lia]).
  assert (Hhi : r + bbits k <= W k) by (rewrite Hx, Hy; transitivity ((x + 1) * bbits k); [lia|apply Z.mul_le_mono_nonneg_r; lia]).
  replace (r - (bbits k - bl) + bbits k) with (r + bl) by lia. rewrite (Z.mod_small (r + bl)) by lia.
  rewrite (proj2 (Z.ltb_ge (r + bl) (bbits k))) by lia. replace (t + bl) with (r + bl + q * W k) by lia.
  rewrite Z.mod_add, Z.div_add, Z.mod_small, Z.div_small by lia. f_equal.
Qed.

(** ** Chains of blocks *)

Lemma block_ref h S t t' buf st :
  length h = 8%nat -> length S = 4%nat -> count_block k st = at_bits h S t' -> t = t' ->
  blake_block k st buf = at_bits (blake_compress k S h t buf) S t.
Proof. intros Hh HS E ->. unfold blake_block. rewrite E. by apply compress_ref. Qed.

Lemma chain_app S h L i bs cs :
  blake_chain k S h L i (bs ++ cs) = blake_chain k S (blake_chain k S h L i bs) L (length bs + i) cs.
Proof.
  revert h i. induction bs as [|b bs IH]; intros h i; [done|]. cbn [app blake_chain length]. rewrite IH. f_equal. lia.
Qed.
Lemma fold_blocks S L bs i h :
  length h = 8%nat -> length S = 4%nat -> bbits k * Z.of_nat (length bs + i) <= L -> L < W k * W k ->
  let h' := blake_chain k S h L i bs in
  foldl (blake_block k) (at_bits h S (bbits k * Z.of_nat i)) bs = at_bits h' S (bbits k * Z.of_nat (length bs + i)) /\ length h' = 8%nat.
Proof.
  intros Hh HS HL HW. destruct W_bbits as (H2 & Hb & _). revert i h Hh HL. induction bs as [|b bs IH]; intros i h Hh HL; [done|].
  cbn [foldl blake_chain length] in *.
  assert (Hi : bbits k * Z.of_nat (1 + i) <= L) by (transitivity (bbits k * Z.of_nat (1 + length bs + i)); [apply Z.mul_le_mono_nonneg_l; lia|exact HL]).
  assert (Ec : counter k L i = bbits k * Z.of_nat i + bbits k).
  { unfold counter. rewrite (proj2 (Z.ltb_lt _ _)) by lia. rewrite Z.min_r by lia. lia. }
  rewrite (block_ref h S (counter k L i) (bbits k * Z.of_nat i + bbits k)); [|done|done| |done].
  2: { apply count_next; [lia|rewrite Z.mul_comm; by apply Z.mod_mul; lia|lia]. }
  rewrite Ec. replace (bbits k * Z.of_nat i + bbits k) with (bbits k * Z.of_nat (1 + i)) by lia.
  destruct (IH (1 + i)%nat (blake_compress k S h (bbits k * Z.of_nat (1 + i)) b)) as [E Hl]; [by apply length_compress|lia|].
  replace (length bs + (1 + i))%nat with (1 + length bs + i)%nat in E by lia. rewrite E. split; [exact eq_refl|exact Hl].
Qed.

(** ** Closing *)

Lemma be_store_mod n v : be_store n (v mod 2 ^ (8 * Z.of_nat n)) = be_store n v.
Proof.
  apply list_eq_total; rewrite !length_be_store; [done|]. intros i Hi. unfold be_store. rewrite !tabulate_lookup by done.
  rewrite !T8_mod. apply Z.bits_inj'. intros j Hj. destruct (Z_lt_dec j 8).
  - rewrite !Z.mod_pow2_bits_low by lia. rewrite !Z.shiftr_spec by lia. rewrite Z.mod_pow2_bits_low by lia. done.
  - by rewrite !Z.mod_pow2_bits_high by lia.
Qed.
(** The length field: the two counter words of the message. *)
Lemma length_field t bl :
  0 <= t -> t mod bbits k = 0 -> 0 <= bl < bbits k ->
  be_store (wlen k) (t / W k) ++ be_store (wlen k) (Tw k (t mod W k + bl)) = be_store (2 * wlen k) (t + bl).
Proof.
  intros Ht Hm Hbl. pose proof W_pos as HW. destruct W_bbits as (H2 & Hb & Hd).
  replace (2 * wlen k)%nat with (wlen k + wlen k)%nat by lia. rewrite be_store_app.
  rewrite (ck_T _ Hk), Z.add_mod_idemp_l by lia. unfold W at 2. rewrite be_store_mod. f_equal. f_equal.
  rewrite Z.shiftr_div_pow2 by lia. fold (W k). pose proof (Z.div_mod t (W k) ltac:(lia)) as Et. pose proof (Z.mod_pos_bound t (W k) HW) as Hr.
  assert (Hrm : (bbits k | t mod W k)).
  { apply Z.mod_divide in Hd, Hm; [|lia..]. rewrite Z.mod_eq by lia. apply Z.divide_sub_r; [done|]. by apply Z.divide_mul_l. }
  apply Z.mod_divide in Hd; [|lia]. destruct Hrm as [x Hx], Hd as [y Hy].
  assert (Hxy : x < y) by (apply (Z.mul_lt_mono_pos_r (bbits k)); lia).
  assert (Hhi : t mod W k + bbits k <= W k) by (rewrite Hx, Hy; transitivity ((x + 1) * bbits k); [lia|apply Z.mul_le_mono_nonneg_r; lia]).
  symmetry. replace (t + bl) with (t mod W k + bl + t / W k * W k) by lia. rewrite Z.div_add by lia. rewrite Z.div_small by lia. lia.
Qed.

(** The counter words that closing stores make the last message block count all bits. *)
Definition closing_T (st : blake_state) (ptr : nat) (n : Z) : blake_state :=
  let bl := 8 * Z.of_nat ptr + n in
  if (ptr =? 0)%nat && (n =? 0) then mk_blake (bH st) (bS st) (T_before k) (T_ones k)
  else if T0 st =? 0 then mk_blake (bH st) (bS st) (Tw k (T_before k + bl)) (Tw k (T1 st - 1))
  else mk_blake (bH st) (bS st) (Tw k (T0 st - (bbits k - bl))) (T1 st).
Lemma closing_count h S i ptr n :
  let t := bbits k * Z.of_nat i in
  let L := t + 8 * Z.of_nat ptr + n in
  (ptr < blen k)%nat -> 0 <= n < 8 -> L < W k * W k ->
  count_block k (closing_T (at_bits h S t) ptr n) = at_bits h S (counter k L i).
Proof.
  intros t L Hp Hn HL. destruct W_bbits as (H2 & Hb & _). assert (Hm : t mod bbits k = 0) by (unfold t; rewrite Z.mul_comm; apply Z.mod_mul; lia).
  assert (Hbl : 0 <= 8 * Z.of_nat ptr + n < bbits k) by (unfold bbits; lia). assert (Ht : 0 <= t) by lia.
  unfold closing_T, counter. fold t. cbn [bH bS T0 T1 at_bits].
  destruct (Nat.eqb_spec ptr 0) as [E|E]; destruct (Z.eqb_spec n 0) as [E'|E']; cbn [andb].
  { rewrite (proj2 (Z.ltb_ge t L)) by lia. apply count_zero. }
  all: rewrite (proj2 (Z.ltb_lt t L)) by lia; rewrite Z.min_l by lia; unfold L; rewrite <-Z.add_assoc.
  all: destruct (Z.eqb_spec (t mod W k) 0); [apply count_last_first; lia|apply count_last_later; lia].
Qed.

Lemma two_memcpy u p (a b : list Z) :
  length u = (p + length a + length b)%nat -> memcpy (memcpy u p a) (p + length a) b = take p u ++ a ++ b.
Proof.
  intros Hu. rewrite take_memcpy_all by (rewrite length_memcpy; lia). by rewrite take_memcpy, <-app_assoc by lia.
Qed.
Lemma alter_insert (f : Z -> Z) i (u : list Z) : (i < length u)%nat -> alter f i u = <[i := f (u !!! i)]> u.
Proof.
  intros Hi. apply list_eq. intros j. destruct (decide (i = j)) as [->|Hne].
  - rewrite list_lookup_insert_eq by done. by rewrite list_lookup_alter_eq, (list_lookup_lookup_total_lt u j Hi).
  - by rewrite list_lookup_insert_ne, list_lookup_alter_ne.
Qed.
Definition flag (words : nat) : Z := if (words =? 8)%nat then 1 else 0.
Lemma set_flag (u : list Z) i words :
  (i < length u)%nat -> (if (words =? 8)%nat then <[i := Z.lor (u !!! i) 1]> u else u) = alter (fun x => Z.lor x (flag words)) i u.
Proof.
  intros Hi. rewrite alter_insert by done. unfold flag. destruct (words =? 8)%nat; [done|].
  by rewrite Z.lor_0_r, list_insert_id by by apply list_lookup_lookup_total_lt.
Qed.
(** The padding bit and zeros up to [p]. *)
Lemma pad_take (u : list Z) ptr v p :
  (ptr < p <= length u)%nat -> take p (memset0 (<[ptr := v]> u) (ptr + 1) (p - 1 - ptr)) = take ptr u ++ v :: replicate (p - 1 - ptr) 0.
Proof.
  intros Hp. unfold memset0.
  pose proof (take_memcpy (<[ptr := v]> u) (ptr + 1) (replicate (p - 1 - ptr) 0)) as E. rewrite length_replicate, length_insert in E.
  replace (ptr + 1 + (p - 1 - ptr))%nat with p in E by lia. rewrite E by lia. rewrite Nat.add_1_r.
  rewrite (take_S_r _ _ v) by (apply list_lookup_insert_eq; lia). by rewrite take_insert_ge, <-app_assoc by lia.
Qed.
Lemma one_block_pad u ptr ub n words A B :
  length u = blen k -> (ptr < 14 * wlen k)%nat -> length A = wlen k -> length B = wlen k ->
  let u2 := memset0 (<[ptr := last_bits ub n]> u) (ptr + 1) (14 * wlen k - 1 - ptr) in
  let u3 := if (words =? 8)%nat then <[(14 * wlen k - 1)%nat := Z.lor (u2 !!! (14 * wlen k - 1)%nat) 1]> u2 else u2 in
  drop ptr (memcpy (memcpy u3 (14 * wlen k) A) (15 * wlen k) B) = pad_mid ub n (flag words) (14 * wlen k - ptr) ++ A ++ B.
Proof.
  intros Hu Hp HA HB u2 u3. unfold blen in Hu. set (w := wlen k) in *. set (p := (14 * w)%nat) in *. assert (Hw : (0 < w)%nat) by lia.
  assert (H2 : length u2 = length u) by (unfold u2, memset0; rewrite length_memcpy; rewrite !length_insert, ?length_replicate; lia).
  assert (E3 : u3 = alter (fun x => Z.lor x (flag words)) (p - 1)%nat u2) by (apply set_flag; lia). rewrite E3.
  replace (15 * w)%nat with (p + length A)%nat by lia. rewrite two_memcpy by (rewrite length_alter; lia).
  rewrite take_alter_lt by lia. unfold u2. rewrite pad_take by lia.
  assert (Ht : length (take ptr u) = ptr) by (rewrite length_take; lia).
  rewrite alter_app_r_alt by lia. rewrite Ht, <-app_assoc, drop_app_length' by done. unfold pad_mid. do 2 f_equal; [lia|]. do 2 f_equal. lia.
Qed.
Lemma two_block_pad u ptr ub n words A B :
  length u = blen k -> (ptr < blen k)%nat -> length A = wlen k -> length B = wlen k -> (0 < wlen k)%nat ->
  let u2 := memset0 (<[ptr := last_bits ub n]> u) (ptr + 1) (16 * wlen k - 1 - ptr) in
  let u3 := memset0 u2 0 (14 * wlen k) in
  let u4 := if (words =? 8)%nat then <[(14 * wlen k - 1)%nat := 1]> u3 else u3 in
  drop ptr u2 ++ memcpy (memcpy u4 (14 * wlen k) A) (15 * wlen k) B = pad_mid ub n (flag words) (blen k + 14 * wlen k - ptr) ++ A ++ B /\
  length (drop ptr u2) = (blen k - ptr)%nat /\ length (memcpy (memcpy u4 (14 * wlen k) A) (15 * wlen k) B) = blen k.
Proof.
  intros Hu Hp HA HB Hw u2 u3 u4. unfold blen in *. set (w := wlen k) in *.
  assert (H2 : length u2 = length u) by (unfold u2, memset0; rewrite length_memcpy; rewrite !length_insert, ?length_replicate; lia).
  assert (E2 : drop ptr u2 = last_bits ub n :: replicate (16 * w - 1 - ptr) 0).
  { rewrite <-(take_ge u2 (16 * w)) by lia. unfold u2. rewrite pad_take by lia. by rewrite drop_app_length' by (rewrite length_take; lia). }
  assert (H3 : length u3 = length u) by (unfold u3, memset0; rewrite length_memcpy; rewrite ?length_replicate; lia).
  assert (E3 : take (14 * w) u3 = replicate (14 * w) 0).
  { pose proof (take_memcpy u2 0 (replicate (14 * w) 0) ltac:(lia)) as E. rewrite length_replicate in E. exact E. }
  assert (E4 : u4 = alter (fun x => Z.lor x (flag words)) (14 * w - 1)%nat u3).
  { rewrite <-set_flag by lia. unfold u4. destruct (words =? 8)%nat; [|done]. f_equal.
    rewrite <-(lookup_total_take_lt u3 (14 * w)) by lia. rewrite E3, lookup_total_replicate_2 by lia. done. }
  assert (E5 : memcpy (memcpy u4 (14 * w) A) (15 * w) B = alter (fun x => Z.lor x (flag words)) (14 * w - 1)%nat (replicate (14 * w) 0) ++ A ++ B).
  { replace (15 * w)%nat with (14 * w + length A)%nat by lia. rewrite E4, two_memcpy by (rewrite length_alter; lia). by rewrite take_alter_lt, E3 by lia. }
  split; [|split].
  - rewrite E2, E5. unfold pad_mid. rewrite !app_assoc. f_equal. f_equal.
    replace (16 * w + 14 * w - ptr - 1)%nat with ((16 * w - 1 - ptr) + 14 * w)%nat by lia.
    rewrite replicate_add, app_comm_cons, alter_app_r_alt by (cbn [length]; rewrite length_replicate; lia).
    f_equal. f_equal. cbn [length]. rewrite length_replicate. lia.
  - rewrite E2. cbn [length]. rewrite length_replicate. lia.
  - rewrite E5, !length_app, length_alter, length_replicate. lia.
Qed.

Lemma close_set_T (sc : blake_ctx) n :
  let ptr := sc_ptr sc in
  let bit_len := 8 * Z.of_nat ptr + n in
  (if (ptr =? 0)%nat && (n =? 0) then set_T sc (T_before k) (T_ones k)
   else if T0 (sc_st sc) =? 0 then set_T sc (Tw k (T_before k + bit_len)) (Tw k (T1 (sc_st sc) - 1))
   else set_T sc (Tw k (T0 (sc_st sc) - (bbits k - bit_len))) (T1 (sc_st sc)))
  = mk_sph (sc_buf sc) ptr (closing_T (sc_st sc) ptr n).
Proof.
  intros ptr bl. unfold closing_T, set_T. fold bl. destruct ((ptr =? 0)%nat && (n =? 0)); [done|]. by destruct (T0 (sc_st sc) =? 0).
Qed.
Lemma wlen_pos : (0 < wlen k)%nat.
Proof. destruct (ck_w _ Hk); lia. Qed.
Lemma words_out (h : list Z) w words : (words <= length h)%nat -> flat_map (fun i => be_store w (h !!! i)) (seq 0 words) = flat_map (be_store w) (take words h).
Proof.
  intros Hw. rewrite !flat_map_concat_map. f_equal. rewrite <-(map_map (fun z => h !!! z) (be_store w)). f_equal.
  apply list_eq_total; [rewrite length_map, length_seq, length_take; lia|]. rewrite length_map, length_seq. intros i Hi.
  change (map (λ z, h !!! z) (seq 0 words)) with ((λ z, h !!! z) <$> seq 0 words). rewrite lookup_fmap_seq by done.
  symmetry. by apply lookup_total_take_lt.
Qed.

(** The context after the message: the chain over its full blocks, and the bits counted. *)
Lemma stream_state junk iv S pieces n :
  length junk = blen k -> length iv = 8%nat -> length S = 4%nat -> 0 <= n -> 8 * Z.of_nat (length (concat pieces)) + n < W k * W k ->
  let m := concat pieces in
  let L := 8 * Z.of_nat (length m) + n in
  let c := foldl (blake_update k) (blake_init junk iv S) pieces in
  let h := blake_chain k S iv L 0 (blocks (blen k) m) in
  sph_ok (blen k) c /\ sc_st c = at_bits h S (bbits k * Z.of_nat (length m / blen k)) /\ length h = 8%nat /\
  sc_ptr c = (length m mod blen k)%nat /\ take (sc_ptr c) (sc_buf c) = leftover (blen k) m /\
  L = bbits k * Z.of_nat (length m / blen k) + 8 * Z.of_nat (sc_ptr c) + n.
Proof.
  intros Hj Hiv HS Hn HL m L c h. assert (HB : (0 < blen k)%nat) by (unfold blen; pose proof wlen_pos; lia).
  destruct (sph_pieces_spec (blen k) (blake_block k) HB junk (mk_blake iv S 0 0) pieces Hj) as (Hok & Es & Ep & El).
  change (sph_ok (blen k) c) in Hok. change (sc_ptr c = (length m mod blen k)%nat) in Ep.
  change (sc_st c = foldl (blake_block k) (mk_blake iv S 0 0) (blocks (blen k) m)) in Es. change (take (sc_ptr c) (sc_buf c) = leftover (blen k) m) in El. clearbody c.
  assert (EL : L = bbits k * Z.of_nat (length m / blen k) + 8 * Z.of_nat (sc_ptr c) + n).
  { rewrite Ep. unfold L, bbits. pose proof (Nat.Div0.div_mod (length m) (blen k)). nia. }
  assert (E0 : mk_blake iv S 0 0 = at_bits iv S (bbits k * Z.of_nat 0)).
  { unfold at_bits. rewrite Z.mul_0_r, Z.mod_0_l, Z.div_0_l by (pose proof W_pos; lia). done. }
  destruct (fold_blocks S L (blocks (blen k) m) 0 iv Hiv HS) as [E Hl]; [rewrite length_blocks_div, Nat.add_0_r by done; lia|exact HL|].
  rewrite <-E0, length_blocks_div, Nat.add_0_r in E by done. by rewrite Es, E.
Qed.

Lemma update_fill c d : sph_ok (blen k) c -> length d = (blen k - sc_ptr c)%nat ->
  sph_ok (blen k) (blake_update k c d) /\ sc_ptr (blake_update k c d) = 0%nat /\
  sc_st (blake_update k c d) = blake_block k (sc_st c) (take (sc_ptr c) (sc_buf c) ++ d).
Proof. apply sph_core_fill. Qed.

Lemma blake_stream junk iv words pieces u ub n :
  length junk = blen k -> length iv = 8%nat -> length u = blen k -> (words <= 8)%nat -> word 8 ub -> 0 <= n < 8 ->
  8 * Z.of_nat (length (concat pieces)) + n < W k * W k ->
  (blake_close k u (foldl (blake_update k) (blake_init junk iv (replicate 4 0)) pieces) ub n words).2 = blake_digest k iv words (concat pieces) ub n.
Proof.
  intros Hj Hiv Hu Hw Hub Hn HL. unfold blake_digest, blake_close. fold (flag words). assert (HS : length (replicate 4 (0 : Z)) = 4%nat) by done.
  set (S := replicate 4 0) in *. clearbody S. pose proof wlen_pos as Hwp. assert (HB : (0 < blen k)%nat) by (unfold blen; lia).
  destruct (stream_state junk iv S pieces n Hj Hiv HS (proj1 Hn) HL) as (Hok & Es & Hh & Ep & El & EL).
  set (c := foldl _ _ pieces) in *. set (m := concat pieces) in *. clearbody c. rewrite close_set_T. cbv zeta.
  rewrite (proj1 (final_byte_ref ub n Hub Hn)). set (c1 := mk_sph _ _ (closing_T _ _ _)).
  set (L := 8 * Z.of_nat (length m) + n) in *. set (h := blake_chain k S iv L 0 (blocks (blen k) m)) in *.
  destruct W_bbits as (H2 & Hb & Hd). set (t := bbits k * Z.of_nat (length m / blen k)) in *.
  assert (Hm : t mod bbits k = 0) by (unfold t; rewrite Z.mul_comm; apply Z.mod_mul; lia). assert (Ht : 0 <= t) by (unfold t; lia).
  assert (Hp : (sc_ptr c < blen k)%nat) by apply Hok.
  assert (Hbl : 0 <= 8 * Z.of_nat (sc_ptr c) + n < bbits k) by (unfold bbits; lia).
  assert (Hok1 : sph_ok (blen k) c1) by exact Hok.
  assert (Ecnt : count_block k (sc_st c1) = at_bits h S (counter k L (length m / blen k))).
  { unfold c1. cbn [sc_st]. rewrite Es, EL. apply closing_count; [done|done|]. fold t. lia. }
  assert (Elen : be_store (wlen k) (T1 (sc_st c)) ++ be_store (wlen k) (Tw k (T0 (sc_st c) + (8 * Z.of_nat (sc_ptr c) + n))) = be_store (2 * wlen k) L).
  { rewrite Es, EL, <-Z.add_assoc. cbn [at_bits T0 T1]. by apply length_field. }
  unfold blake_pad, pad_bytes. fold L. rewrite <-Ep.
  destruct (Z.leb_spec (8 * Z.of_nat (sc_ptr c) + n) (bbits k - 16 * Z.of_nat (wlen k) - 2)) as [Hone|Htwo].
  - assert (Hp14 : (sc_ptr c < 14 * wlen k)%nat) by (unfold bbits, blen in Hone; lia).
    rewrite (one_block_pad u (sc_ptr c) ub n words _ _ Hu Hp14 (length_be_store _ _) (length_be_store _ _)), Elen.
    set (d := pad_mid _ _ _ _ ++ _). assert (Hld : length d = (blen k - sc_ptr c)%nat).
    { unfold d, pad_mid. rewrite length_app, length_alter, length_be_store. cbn [length]. rewrite length_replicate. unfold blen. lia. }
    destruct (update_fill c1 d Hok1 Hld) as (_ & _ & E). cbn [snd]. rewrite E.
    rewrite (block_ref h S _ _ _ _ Hh HS Ecnt eq_refl). cbn [bH at_bits].
    rewrite words_out by (rewrite length_compress by done; lia). f_equal. f_equal.
    rewrite blocks_last by (done || (rewrite length_app, length_leftover, Hld, <-Ep by done; lia)).
    rewrite chain_app, length_blocks_div, Nat.add_0_r by done. fold h. cbn [blake_chain c1 sc_buf sc_ptr]. by rewrite El.
  - edestruct (two_block_pad u (sc_ptr c) ub n words) as (Epad & Hl1 & Hl2); [exact Hu|exact Hp|apply length_be_store|apply length_be_store|exact Hwp|].
    rewrite Elen in Epad. rewrite <-Epad. set (d1 := drop (sc_ptr c) _) in *. set (d2 := memcpy _ _ _) in *. clearbody d1 d2.
    destruct (update_fill c1 d1 Hok1 Hl1) as (Hok2 & Ep2 & E). rewrite (block_ref h S _ _ _ _ Hh HS Ecnt eq_refl) in E.
    set (c2 := blake_update k c1 d1) in *. clearbody c2. set (h2 := blake_compress _ _ _ _ _) in *. assert (Hh2 : length h2 = 8%nat) by by apply length_compress.
    destruct (update_fill (set_T c2 (T_before k) (T_ones k)) d2) as (_ & _ & E'); [exact Hok2|cbn [set_T sc_ptr]; rewrite Ep2, Hl2; lia|]. cbn [snd]. rewrite E'. cbn [set_T sc_ptr sc_st sc_buf].
    rewrite Ep2, E. cbn [at_bits bH bS take app].
    rewrite (block_ref h2 S 0 0 _ _ Hh2 HS (count_zero h2 S) eq_refl). cbn [bH at_bits].
    rewrite words_out by (rewrite length_compress by done; lia). f_equal. f_equal.
    rewrite blocks_last2 by (done || (rewrite length_app, length_leftover, Hl1, <-Ep by done; lia)).
    rewrite chain_app, length_blocks_div, Nat.add_0_r by done. fold h. cbn [blake_chain c1 sc_buf sc_ptr]. rewrite <-El. fold h2.
    f_equal. unfold counter. rewrite (proj2 (Z.ltb_ge _ _)) by (rewrite EL; lia). done.
Qed.
End Compress.

Lemma length_chain k S L bs i h : cfg_ok k -> length S = 4%nat -> length h = 8%nat -> length (blake_chain k S h L i bs) = 8%nat.
Proof.
  intros Hk HS. revert i h. induction bs as [|b bs IH]; intros i h Hh; [exact Hh|]. cbn [blake_chain]. apply IH. by apply length_compress.
Qed.
Lemma length_blake_digest k iv words m ub n :
  cfg_ok k -> length iv = 8%nat -> (words <= 8)%nat ->
  length (blake_digest k iv words m ub n) = (wlen k * words)%nat /\ bytes (blake_digest k iv words m ub n).
Proof.
  intros Hk Hiv Hw. unfold blake_digest. set (h := blake_chain _ _ _ _ _ _).
  assert (Hh : length h = 8%nat) by by apply length_chain.
  clearbody h. destruct (digest_words_gen (be_store (wlen k)) (wlen k) (take words h)) as [H1 H2].
  { intros v. split; [apply length_be_store|apply bytes_be_store]. }
  rewrite H1, length_take, Hh, Nat.min_l by done. done.
Qed.

(** ** Properties *)

(** C13. For the four digest sizes and both builds, feeding a message to [sph_blake*]
    in any pieces and closing with up to 7 extra bits gives the BLAKE digest of the
    concatenation: the rounds, unrolled or in a loop, are columns and diagonals with the
    permutations of the submission, and the counter words, rewound at the close so that
    the update function advances them, count exactly the message bits of every block. *)
Theorem sph_blake_streaming compact junk32 junk64 u32 u64 pieces ub n :
  length junk32 = 64%nat -> length junk64 = 128%nat -> length u32 = 64%nat -> length u64 = 128%nat -> word 8 ub -> 0 <= n < 8 ->
  let m := concat pieces in
  8 * Z.of_nat (length m) + n < 2 ^ 64 ->
  (sph_blake224_addbits_and_close compact u32 (foldl (sph_blake224 compact) (sph_blake224_init junk32) pieces) ub n).2 = blake_digest (small compact) IV224 7 m ub n /\
  (sph_blake256_addbits_and_close compact u32 (foldl (sph_blake256 compact) (sph_blake256_init junk32) pieces) ub n).2 = blake_digest (small compact) IV256 8 m ub n /\
  (sph_blake384_addbits_and_close compact u64 (foldl (sph_blake384 compact) (sph_blake384_init junk64) pieces) ub n).2 = blake_digest (big compact) IV384 6 m ub n /\
  (sph_blake512_addbits_and_close compact u64 (foldl (sph_blake512 compact) (sph_blake512_init junk64) pieces) ub n).2 = blake_digest (big compact) IV512 8 m ub n.
Proof.
  intros Hj Hj' Hu Hu' Hub Hn m HL. assert (HL' : 8 * Z.of_nat (length m) + n < W (big compact) * W (big compact)).
  { replace (W (big compact) * W (big compact)) with (2 ^ 128) by by destruct compact. lia. }
  assert (HL2 : 8 * Z.of_nat (length m) + n < W (small compact) * W (small compact)) by by destruct compact.
  assert (Eb : blen (big compact) = 128%nat /\ blen (small compact) = 64%nat) by by destruct compact. destruct Eb as [E1 E2].
  split_and!; [apply (blake_stream (small compact) (small_ok compact))..|apply (blake_stream (big compact) (big_ok compact))|apply (blake_stream (big compact) (big_ok compact))];
    rewrite ?E1, ?E2; first [done | lia].
Qed.
Lemma sph_blake_streaming_witness :
  (sph_blake512_addbits_and_close false (replicate 128 7) (foldl (sph_blake512 false) (sph_blake512_init (replicate 128 9)) [[0x61]; replicate 200 0x62]) 0xA0 3).2
  = blake_digest (big false) IV512 8 (concat [[0x61]; replicate 200 0x62]) 0xA0 3.
Proof.
  refine (proj2 (proj2 (proj2 (sph_blake_streaming false (replicate 64 9) (replicate 128 9) (replicate 64 7) (replicate 128 7) [[0x61]; replicate 200 0x62] 0xA0 3
    eq_refl eq_refl eq_refl eq_refl _ _ _)))); unfold word; vm_compute; intuition congruence.
Defined.

(** One zero byte, as published. *)
Example blake512_zero :
  take 16 (sph_blake512_close false (replicate 128 0) (sph_blake512 false (sph_blake512_init (replicate 128 0)) [0])).2
  = [0x97; 0x96; 0x15; 0x87; 0xF6; 0xD9; 0x70; 0xFA; 0xBA; 0x6D; 0x24; 0x78; 0x04; 0x5D; 0xE6; 0xD1].
Proof. vm_compute. reflexivity. Qed.

End Blake.
