(* ===== verification/Groestl.v ===== *)
(** * Groestl ([crypto/ghostrider/sph_groestl.c]).

    The code keeps the state as 8 or 16 columns of eight bytes, one 64-bit word each,
    and merges the S-box, the rotation of the rows and the diffusion matrix in eight
    tables.  The reference is the submission's, on the matrix of bytes.  The 64-bit
    build is modelled, in both byte orders, with all tables or with two of them. *)
From S2P Require Import Prelude Stream NmAes SphCore GroestlTab.

Module Groestl.

Definition C64e (x : Z) : Z :=
  Z.lor (Z.lor (Z.lor (Z.lor (Z.lor (Z.lor (Z.lor
    (Z.shiftr x 56) (Z.land (Z.shiftr x 40) 0x000000000000FF00))
    (Z.land (Z.shiftr x 24) 0x0000000000FF0000)) (Z.land (Z.shiftr x 8) 0x00000000FF000000))
    (Z.land (shl64 x 8) 0x000000FF00000000)) (Z.land (shl64 x 24) 0x0000FF0000000000))
    (Z.land (shl64 x 40) 0x00FF000000000000)) (Z.land (shl64 x 56) 0xFF00000000000000).
Definition T_be : list (list Z) := [T0_raw; T1_raw; T2_raw; T3_raw; T4_raw; T5_raw; T6_raw; T7_raw].
Definition T_le : list (list Z) := (fun t : list Z => C64e <$> t) <$> T_be.

Record groestl_state := mk_groestl { wide : list Z; count : Z }.
Abbreviation groestl_ctx := (sph_ctx groestl_state).

(** [le] is [USE_LE], [compact] is [SPH_SMALL_FOOTPRINT_GROESTL]. *)
Section GroestlCode.
Context (le compact : bool).

Definition T (k : nat) : list Z := (if le then T_le else T_be) !!! k.
Definition dec64e (p : list Z) : Z := if le then le_load 8 p else be_load 8 p.
Definition enc64e (x : Z) : list Z := if le then le_store 8 x else be_store 8 x.
(** [B64_0] to [B64_7]. *)
Definition B64 (t : nat) (x : Z) : Z :=
  if le then match t with 7%nat => Z.shiftr x 56 | _ => Z.land (Z.shiftr x (8 * Z.of_nat t)) 0xFF end
  else match t with 0%nat => Z.shiftr x 56 | _ => Z.land (Z.shiftr x (56 - 8 * Z.of_nat t)) 0xFF end.
Definition R64 (x n : Z) : Z := if le then rotl64 x n else rotr64 x n.
Definition PC64 (j r : Z) : Z := if le then T64 (j + r) else shl64 (T64 (j + r)) 56.
Definition QC64 (j r : Z) : Z :=
  if le then Z.lxor (shl64 r 56) (T64 (Z.lnot (shl64 j 56))) else Z.lxor r (T64 (Z.lnot j)).

(** [RSTT] and [RBTT]. *)
Definition elt (k : nat) (a : list Z) (t b : nat) : Z := T k !!! Z.to_nat (B64 t (a !!! b)).
Definition RSTT (a : list Z) (b0 b1 b2 b3 b4 b5 b6 b7 : nat) : Z :=
  if compact then
    Z.lxor (Z.lxor (Z.lxor (Z.lxor (Z.lxor (Z.lxor (Z.lxor
      (elt 0 a 0 b0) (R64 (elt 0 a 1 b1) 8)) (R64 (elt 0 a 2 b2) 16)) (R64 (elt 0 a 3 b3) 24))
      (elt 4 a 4 b4)) (R64 (elt 4 a 5 b5) 8)) (R64 (elt 4 a 6 b6) 16)) (R64 (elt 4 a 7 b7) 24)
  else
    Z.lxor (Z.lxor (Z.lxor (Z.lxor (Z.lxor (Z.lxor (Z.lxor
      (elt 0 a 0 b0) (elt 1 a 1 b1)) (elt 2 a 2 b2)) (elt 3 a 3 b3))
      (elt 4 a 4 b4)) (elt 5 a 5 b5)) (elt 6 a 6 b6)) (elt 7 a 7 b7).
Definition RBTT : list Z -> nat -> nat -> nat -> nat -> nat -> nat -> nat -> nat -> Z := RSTT.

(** [a[0] ^= PC64(0x00, r); a[1] ^= PC64(0x10, r); ...]. *)
Definition add_PC (a : list Z) (r : Z) : list Z := imap (fun u x => Z.lxor x (PC64 (16 * Z.of_nat u) r)) a.
Definition add_QC (a : list Z) (r : Z) : list Z := imap (fun u x => Z.lxor x (QC64 (16 * Z.of_nat u) r)) a.

Definition ROUND_SMALL_P (a : list Z) (r : Z) : list Z :=
  let a := add_PC a r in
  [RSTT a 0 1 2 3 4 5 6 7; RSTT a 1 2 3 4 5 6 7 0; RSTT a 2 3 4 5 6 7 0 1; RSTT a 3 4 5 6 7 0 1 2;
   RSTT a 4 5 6 7 0 1 2 3; RSTT a 5 6 7 0 1 2 3 4; RSTT a 6 7 0 1 2 3 4 5; RSTT a 7 0 1 2 3 4 5 6].
Definition ROUND_SMALL_Q (a : list Z) (r : Z) : list Z :=
  let a := add_QC a r in
  [RSTT a 1 3 5 7 0 2 4 6; RSTT a 2 4 6 0 1 3 5 7; RSTT a 3 5 7 1 2 4 6 0; RSTT a 4 6 0 2 3 5 7 1;
   RSTT a 5 7 1 3 4 6 0 2; RSTT a 6 0 2 4 5 7 1 3; RSTT a 7 1 3 5 6 0 2 4; RSTT a 0 2 4 6 7 1 3 5].
Definition PERM_SMALL_P (a : list Z) : list Z :=
  if compact then foldl ROUND_SMALL_P a [0; 1; 2; 3; 4; 5; 6; 7; 8; 9]
  else foldl (fun a r => ROUND_SMALL_P (ROUND_SMALL_P a (r + 0)) (r + 1)) a [0; 2; 4; 6; 8].
Definition PERM_SMALL_Q (a : list Z) : list Z :=
  if compact then foldl ROUND_SMALL_Q a [0; 1; 2; 3; 4; 5; 6; 7; 8; 9]
  else foldl (fun a r => ROUND_SMALL_Q (ROUND_SMALL_Q a (r + 0)) (r + 1)) a [0; 2; 4; 6; 8].

(** The compact build computes the columns four by four, with [& 0xF] on the indices. *)
Definition wrap (i : nat) : nat := Nat.land i 15.
Definition four_P (a : list Z) (u : nat) : list Z :=
  (fun d => RBTT a (u + d) (wrap (u + (d + 1))) (wrap (u + (d + 2))) (wrap (u + (d + 3)))
     (wrap (u + (d + 4))) (wrap (u + (d + 5))) (wrap (u + (d + 6))) (wrap (u + (d + 11)))) <$> [0; 1; 2; 3]%nat.
Definition four_Q (a : list Z) (u : nat) : list Z :=
  (fun d => RBTT a (wrap (u + (d + 1))) (wrap (u + (d + 3))) (wrap (u + (d + 5))) (wrap (u + (d + 11)))
     (wrap (u + d)) (wrap (u + (d + 2))) (wrap (u + (d + 4))) (wrap (u + (d + 6)))) <$> [0; 1; 2; 3]%nat.
Definition ROUND_BIG_P (a : list Z) (r : Z) : list Z :=
  let a := add_PC a r in
  if compact then flat_map (four_P a) [0; 4; 8; 12]%nat else
  [RBTT a 0 1 2 3 4 5 6 11; RBTT a 1 2 3 4 5 6 7 12; RBTT a 2 3 4 5 6 7 8 13; RBTT a 3 4 5 6 7 8 9 14;
   RBTT a 4 5 6 7 8 9 10 15; RBTT a 5 6 7 8 9 10 11 0; RBTT a 6 7 8 9 10 11 12 1; RBTT a 7 8 9 10 11 12 13 2;
   RBTT a 8 9 10 11 12 13 14 3; RBTT a 9 10 11 12 13 14 15 4; RBTT a 10 11 12 13 14 15 0 5; RBTT a 11 12 13 14 15 0 1 6;
   RBTT a 12 13 14 15 0 1 2 7; RBTT a 13 14 15 0 1 2 3 8; RBTT a 14 15 0 1 2 3 4 9; RBTT a 15 0 1 2 3 4 5 10].
Definition ROUND_BIG_Q (a : list Z) (r : Z) : list Z :=
  let a := add_QC a r in
  if compact then flat_map (four_Q a) [0; 4; 8; 12]%nat else
  [RBTT a 1 3 5 11 0 2 4 6; RBTT a 2 4 6 12 1 3 5 7; RBTT a 3 5 7 13 2 4 6 8; RBTT a 4 6 8 14 3 5 7 9;
   RBTT a 5 7 9 15 4 6 8 10; RBTT a 6 8 10 0 5 7 9 11; RBTT a 7 9 11 1 6 8 10 12; RBTT a 8 10 12 2 7 9 11 13;
   RBTT a 9 11 13 3 8 10 12 14; RBTT a 10 12 14 4 9 11 13 15; RBTT a 11 13 15 5 10 12 14 0; RBTT a 12 14 0 6 11 13 15 1;
   RBTT a 13 15 1 7 12 14 0 2; RBTT a 14 0 2 8 13 15 1 3; RBTT a 15 1 3 9 14 0 2 4; RBTT a 0 2 4 10 15 1 3 5].
Definition PERM_BIG_P (a : list Z) : list Z :=
  foldl (fun a r => ROUND_BIG_P (ROUND_BIG_P a (r + 0)) (r + 1)) a [0; 2; 4; 6; 8; 10; 12].
Definition PERM_BIG_Q (a : list Z) : list Z :=
  foldl (fun a r => ROUND_BIG_Q (ROUND_BIG_Q a (r + 0)) (r + 1)) a [0; 2; 4; 6; 8; 10; 12].

Definition COMPRESS_SMALL (H buf : list Z) : list Z :=
  let m := tabulate 8 (fun u => dec64e (slice (8 * u) 8 buf)) in
  let g := tabulate 8 (fun u => Z.lxor (m !!! u) (H !!! u)) in
  let g := PERM_SMALL_P g in
  let m := PERM_SMALL_Q m in
  tabulate 8 (fun u => Z.lxor (H !!! u) (Z.lxor (g !!! u) (m !!! u))).
Definition FINAL_SMALL (H : list Z) : list Z :=
  let x := PERM_SMALL_P H in tabulate 8 (fun u => Z.lxor (H !!! u) (x !!! u)).
Definition COMPRESS_BIG (H buf : list Z) : list Z :=
  let m := tabulate 16 (fun u => dec64e (slice (8 * u) 8 buf)) in
  let g := tabulate 16 (fun u => Z.lxor (m !!! u) (H !!! u)) in
  let g := PERM_BIG_P g in
  let m := PERM_BIG_Q m in
  tabulate 16 (fun u => Z.lxor (H !!! u) (Z.lxor (g !!! u) (m !!! u))).
Definition FINAL_BIG (H : list Z) : list Z :=
  let x := PERM_BIG_P H in tabulate 16 (fun u => Z.lxor (H !!! u) (x !!! u)).

(** The last column of the initial value holds the digest size. *)
Definition size_word (out_size : Z) : Z :=
  if le then Z.lor (shl64 (Z.land out_size 0xFF) 56) (shl64 (Z.land out_size 0xFF00) 40) else out_size.
Definition groestl_small_init (buf : list Z) (out_size : Z) : groestl_ctx :=
  mk_sph buf 0 (mk_groestl (replicate 7 0 ++ [size_word out_size]) 0).
Definition small_block (s : groestl_state) (buf : list Z) : groestl_state :=
  mk_groestl (COMPRESS_SMALL (wide s) buf) (T64 (count s + 1)).
Definition groestl_small_core (sc : groestl_ctx) (data : list Z) : groestl_ctx := sph_core 64 small_block sc data.
(** [stk] is the array [pad] of the closing functions before it is written. *)
Definition groestl_small_close (stk : list Z) (sc : groestl_ctx) (ub n : Z) (out_len : nat) : groestl_ctx * list Z :=
  let pad := <[0%nat := final_byte ub n]> stk in
  let pad_len := if (sc_ptr sc <? 56)%nat then (64 - sc_ptr sc)%nat else (128 - sc_ptr sc)%nat in
  let cnt := if (sc_ptr sc <? 56)%nat then T64 (count (sc_st sc) + 1) else T64 (count (sc_st sc) + 2) in
  let pad := memset0 pad 1 (pad_len - 9) in
  let pad := memcpy pad (pad_len - 8) (be_store 8 cnt) in
  let sc := groestl_small_core sc (take pad_len pad) in
  let H := FINAL_SMALL (wide (sc_st sc)) in
  let pad := foldl (fun pad u => memcpy pad (8 * u) (enc64e (H !!! (u + 4)%nat))) pad (seq 0 4) in
  (groestl_small_init (sc_buf sc) (Z.shiftl (Z.of_nat out_len) 3), slice (32 - out_len) out_len pad).

Definition groestl_big_init (buf : list Z) (out_size : Z) : groestl_ctx :=
  mk_sph buf 0 (mk_groestl (replicate 15 0 ++ [size_word out_size]) 0).
Definition big_block (s : groestl_state) (buf : list Z) : groestl_state :=
  mk_groestl (COMPRESS_BIG (wide s) buf) (T64 (count s + 1)).
Definition groestl_big_core (sc : groestl_ctx) (data : list Z) : groestl_ctx := sph_core 128 big_block sc data.
Definition groestl_big_close (stk : list Z) (sc : groestl_ctx) (ub n : Z) (out_len : nat) : groestl_ctx * list Z :=
  let pad := <[0%nat := final_byte ub n]> stk in
  let pad_len := if (sc_ptr sc <? 120)%nat then (128 - sc_ptr sc)%nat else (256 - sc_ptr sc)%nat in
  let cnt := if (sc_ptr sc <? 120)%nat then T64 (count (sc_st sc) + 1) else T64 (count (sc_st sc) + 2) in
  let pad := memset0 pad 1 (pad_len - 9) in
  let pad := memcpy pad (pad_len - 8) (be_store 8 cnt) in
  let sc := groestl_big_core sc (take pad_len pad) in
  let H := FINAL_BIG (wide (sc_st sc)) in
  let pad := foldl (fun pad u => memcpy pad (8 * u) (enc64e (H !!! (u + 8)%nat))) pad (seq 0 8) in
  (groestl_big_init (sc_buf sc) (Z.shiftl (Z.of_nat out_len) 3), slice (64 - out_len) out_len pad).

Definition sph_groestl224_init (junk : list Z) : groestl_ctx := groestl_small_init junk 224.
Definition sph_groestl224 : groestl_ctx -> list Z -> groestl_ctx := groestl_small_core.
Definition sph_groestl224_close (stk : list Z) (cc : groestl_ctx) := groestl_small_close stk cc 0 0 28.
Definition sph_groestl224_addbits_and_close (stk : list Z) (cc : groestl_ctx) (ub n : Z) := groestl_small_close stk cc ub n 28.
Definition sph_groestl256_init (junk : list Z) : groestl_ctx := groestl_small_init junk 256.
Definition sph_groestl256 : groestl_ctx -> list Z -> groestl_ctx := groestl_small_core.
Definition sph_groestl256_close (stk : list Z) (cc : groestl_ctx) := groestl_small_close stk cc 0 0 32.
Definition sph_groestl256_addbits_and_close (stk : list Z) (cc : groestl_ctx) (ub n : Z) := groestl_small_close stk cc ub n 32.
Definition sph_groestl384_init (junk : list Z) : groestl_ctx := groestl_big_init junk 384.
Definition sph_groestl384 : groestl_ctx -> list Z -> groestl_ctx := groestl_big_core.
Definition sph_groestl384_close (stk : list Z) (cc : groestl_ctx) := groestl_big_close stk cc 0 0 48.
Definition sph_groestl384_addbits_and_close (stk : list Z) (cc : groestl_ctx) (ub n : Z) := groestl_big_close stk cc ub n 48.
Definition sph_groestl512_init (junk : list Z) : groestl_ctx := groestl_big_init junk 512.
Definition sph_groestl512 : groestl_ctx -> list Z -> groestl_ctx := groestl_big_core.
Definition sph_groestl512_close (stk : list Z) (cc : groestl_ctx) := groestl_big_close stk cc 0 0 64.
Definition sph_groestl512_addbits_and_close (stk : list Z) (cc : groestl_ctx) (ub n : Z) := groestl_big_close stk cc ub n 64.
End GroestlCode.

(** ** Reference: byte [t] of column [j] is element [8 * j + t] of the matrix *)

Section Reference.
Context (cols : nat).
Definition AddRoundConstant (q : bool) (r : Z) (a : list Z) : list Z :=
  tabulate (8 * cols) (fun p =>
    let c := Z.lxor (16 * Z.of_nat (p / 8)) r in
    if q then Z.lxor (a !!! p) (Z.lxor 0xFF (if (p mod 8 =? 7)%nat then c else 0))
    else Z.lxor (a !!! p) (if (p mod 8 =? 0)%nat then c else 0)).
Definition SubBytes (a : list Z) : list Z := tabulate (8 * cols) (fun p => affine (gf_inv (a !!! p))).
Definition ShiftBytes (sh : list nat) (a : list Z) : list Z :=
  tabulate (8 * cols) (fun p => a !!! (8 * ((p / 8 + sh !!! (p mod 8)) mod cols) + p mod 8)%nat).
Definition circ : list Z := [2; 2; 3; 4; 5; 3; 5; 7].
Definition MixBytes (a : list Z) : list Z :=
  tabulate (8 * cols) (fun p => foldl (fun acc k =>
    Z.lxor acc (gmul (circ !!! ((k + 8 - p mod 8) mod 8)%nat) (a !!! (8 * (p / 8) + k)%nat))) 0 (seq 0 8)).
Definition shifts (q : bool) : list nat :=
  if (cols =? 8)%nat then if q then [1; 3; 5; 7; 0; 2; 4; 6]%nat else [0; 1; 2; 3; 4; 5; 6; 7]%nat
  else if q then [1; 3; 5; 11; 0; 2; 4; 6]%nat else [0; 1; 2; 3; 4; 5; 6; 11]%nat.
Definition groestl_round (q : bool) (a : list Z) (r : nat) : list Z :=
  MixBytes (ShiftBytes (shifts q) (SubBytes (AddRoundConstant q (Z.of_nat r) a))).
Definition rounds : nat := if (cols =? 8)%nat then 10 else 14.
Definition perm (q : bool) (a : list Z) : list Z := foldl (groestl_round q) a (seq 0 rounds).
Definition xor_all (a b : list Z) : list Z := zip_with Z.lxor a b.
Definition f_compress (h m : list Z) : list Z := xor_all (xor_all (perm false (xor_all h m)) (perm true m)) h.
Definition omega (h : list Z) : list Z := xor_all (perm false h) h.
End Reference.
(** The message, a one bit, zeros, and the number of blocks of the padded message. *)
Definition groestl_pad (B : nat) (m : list Z) (ub n : Z) : list Z :=
  let r := (length m mod B)%nat in
  let z := (if r <? B - 8 then B - 9 - r else 2 * B - 9 - r)%nat in
  let k := (length m / B + if r <? B - 8 then 1 else 2)%nat in
  m ++ last_bits ub n :: replicate z 0 ++ be_store 8 (Z.of_nat k).
Definition groestl_digest (k : nat) (m : list Z) (ub n : Z) : list Z :=
  let cols := if (k <=? 32)%nat then 8%nat else 16%nat in
  let iv := replicate (8 * cols - 2) 0 ++ be_store 2 (8 * Z.of_nat k) in
  drop (8 * cols - k) (omega cols (foldl (f_compress cols) iv (blocks (8 * cols) (groestl_pad (8 * cols) m ub n)))).

(** ** Words and their bytes *)

Definition pos (le : bool) (t : nat) : Z := if le then 8 * Z.of_nat t else 56 - 8 * Z.of_nat t.
Lemma B64_T8 le t x : word 64 x -> (t < 8)%nat -> B64 le t x = T8 (Z.shiftr x (pos le t)).
Proof.
  intros Hx Ht. assert (H56 : T8 (Z.shiftr x 56) = Z.shiftr x 56).
  { apply T8_id. unfold word in *. rewrite Z.shiftr_div_pow2 by lia. split; [apply Z.div_pos; lia|]. apply Z.div_lt_upper_bound; lia. }
  unfold B64, pos. destruct le; do 8 (destruct t as [|t]; [exact eq_refl || (symmetry; exact H56)|]); lia.
Qed.
Lemma word_B64 le t x : word 64 x -> (t < 8)%nat -> word 8 (B64 le t x).
Proof. intros. rewrite B64_T8 by done. apply word_T8. Qed.
Lemma enc64e_lookup le x t : word 64 x -> (t < 8)%nat -> enc64e le x !!! t = B64 le t x.
Proof.
  intros Hx Ht. rewrite B64_T8 by done. unfold enc64e, pos. destruct le; unfold le_store, be_store; rewrite tabulate_lookup by done; [done|].
  do 2 f_equal. lia.
Qed.
Lemma length_enc64e le x : length (enc64e le x) = 8%nat.
Proof. destruct le; [apply length_le_store|apply length_be_store]. Qed.
Lemma B64_lxor le t a b : word 64 a -> word 64 b -> (t < 8)%nat -> B64 le t (Z.lxor a b) = Z.lxor (B64 le t a) (B64 le t b).
Proof. intros. rewrite !B64_T8 by (done || by apply word_lxor). apply T8_shiftr_lxor. Qed.

(** The matrix a list of columns stands for. *)
Definition matrix (le : bool) (a : list Z) : list Z := flat_map (enc64e le) a.
Lemma length_matrix le a : length (matrix le a) = (8 * length a)%nat.
Proof. unfold matrix. induction a as [|x a IH]; [done|]. cbn [flat_map length]. rewrite length_app, IH, length_enc64e. lia. Qed.
Lemma matrix_lookup le a j t : words64 a -> (j < length a)%nat -> (t < 8)%nat -> matrix le a !!! (8 * j + t)%nat = B64 le t (a !!! j).
Proof.
  intros Ha. revert j. induction Ha as [|x a Hx Ha IH]; intros j Hj Ht; [simpl in Hj; lia|]. cbn [matrix flat_map]. destruct j as [|j].
  - rewrite lookup_total_app_l by (rewrite length_enc64e; lia). by apply enc64e_lookup.
  - rewrite lookup_total_app_r by (rewrite length_enc64e; lia). rewrite length_enc64e. replace (8 * Datatypes.S j + t - 8)%nat with (8 * j + t)%nat by lia.
    apply IH; [simpl in Hj; lia|done].
Qed.
Lemma matrix_ext cols (a b : list Z) :
  length a = (8 * cols)%nat -> length b = (8 * cols)%nat ->
  (forall j t, (j < cols)%nat -> (t < 8)%nat -> a !!! (8 * j + t)%nat = b !!! (8 * j + t)%nat) -> a = b.
Proof.
  intros Ha Hb H. apply list_eq_total; [congruence|]. intros p Hp. rewrite Ha in Hp.
  rewrite (Nat.div_mod_eq p 8). apply H; [apply Nat.Div0.div_lt_upper_bound; lia|apply Nat.mod_upper_bound; lia].
Qed.

(** ** What the tables contain *)

Definition table_ok (le : bool) (k : nat) : bool := all_bytes (fun x =>
  let v := T le k !!! Z.to_nat x in let s := affine (gf_inv x) in
  (0 <=? v) && (v <? 2 ^ 64) &&
  forallb (fun t => B64 le t v =? gmul (circ !!! ((k + 8 - t) mod 8)%nat) s) (seq 0 8)).
Lemma tables : forallb (fun k => table_ok true k && table_ok false k) (seq 0 8) = true.
Proof. vm_compute. reflexivity. Qed.
(** Six tables are rotations of the two the compact build keeps. *)
Definition skewed : list (nat * nat * Z) := [(0, 1, 8%Z); (0, 2, 16%Z); (0, 3, 24%Z); (4, 5, 8%Z); (4, 6, 16%Z); (4, 7, 24%Z)]%nat.
Definition rotation_ok (le : bool) (e : nat * nat * Z) : bool := all_bytes (fun x =>
  R64 le (T le e.1.1 !!! Z.to_nat x) e.2 =? T le e.1.2 !!! Z.to_nat x).
Lemma rotations : forallb (fun e => rotation_ok true e && rotation_ok false e) skewed = true.
Proof. vm_compute. reflexivity. Qed.
Definition constants_ok : bool :=
  forallb (fun le => forallb (fun j => forallb (fun r => forallb (fun t =>
    let c := Z.lxor (16 * Z.of_nat j) (Z.of_nat r) in
    let P := PC64 le (16 * Z.of_nat j) (Z.of_nat r) in let Q := QC64 le (16 * Z.of_nat j) (Z.of_nat r) in
    (0 <=? P) && (P <? 2 ^ 64) && (0 <=? Q) && (Q <? 2 ^ 64) &&
    (B64 le t P =? if (t =? 0)%nat then c else 0) && (B64 le t Q =? Z.lxor 0xFF (if (t =? 7)%nat then c else 0)))
    (seq 0 8)) (seq 0 16)) (seq 0 16)) [true; false].
Lemma constants : constants_ok = true.
Proof. vm_compute. reflexivity. Qed.

Lemma forallb_seq (P : nat -> bool) n k : forallb P (seq 0 n) = true -> (k < n)%nat -> P k = true.
Proof. rewrite forallb_forall. intros H Hk. apply H, in_seq. lia. Qed.
Lemma constant_at le j r t : (j < 16)%nat -> (r < 16)%nat -> (t < 8)%nat ->
  let c := Z.lxor (16 * Z.of_nat j) (Z.of_nat r) in
  word 64 (PC64 le (16 * Z.of_nat j) (Z.of_nat r)) /\ word 64 (QC64 le (16 * Z.of_nat j) (Z.of_nat r)) /\
  B64 le t (PC64 le (16 * Z.of_nat j) (Z.of_nat r)) = (if (t =? 0)%nat then c else 0) /\
  B64 le t (QC64 le (16 * Z.of_nat j) (Z.of_nat r)) = Z.lxor 0xFF (if (t =? 7)%nat then c else 0).
Proof.
  intros Hj Hr Ht c. pose proof constants as H. unfold constants_ok in H. rewrite forallb_forall in H.
  specialize (H le ltac:(destruct le; simpl; auto)). pose proof (forallb_seq _ 8 t (forallb_seq _ 16 r (forallb_seq _ 16 j H Hj) Hr) Ht) as E. cbv beta zeta in E. fold c in E.
  rewrite !andb_true_iff, !Z.leb_le, !Z.ltb_lt, !Z.eqb_eq in E. unfold word. tauto.
Qed.
Lemma table_at le k x : (k < 8)%nat -> word 8 x ->
  word 64 (T le k !!! Z.to_nat x) /\
  (forall t, (t < 8)%nat -> B64 le t (T le k !!! Z.to_nat x) = gmul (circ !!! ((k + 8 - t) mod 8)%nat) (affine (gf_inv x))).
Proof.
  intros Hk Hx. pose proof (forallb_seq _ 8 k tables Hk) as H. apply andb_true_iff in H as [H1 H2].
  assert (H : table_ok le k = true) by by destruct le. pose proof (all_bytes_spec _ H x Hx) as E. cbv beta zeta in E.
  rewrite !andb_true_iff, Z.leb_le, Z.ltb_lt in E. destruct E as [E1 E2]. split; [exact E1|].
  intros t Ht. apply Z.eqb_eq. exact (forallb_seq _ 8 t E2 Ht).
Qed.
Lemma rotation_at le k k' s x : In (k, k', s) skewed -> word 8 x -> R64 le (T le k !!! Z.to_nat x) s = T le k' !!! Z.to_nat x.
Proof.
  intros Hk Hx. pose proof rotations as H. rewrite forallb_forall in H. specialize (H _ Hk). apply andb_true_iff in H as [H1 H2].
  assert (E : rotation_ok le (k, k', s) = true) by by destruct le. apply Z.eqb_eq. exact (all_bytes_spec _ E x Hx).
Qed.
#[local] Opaque T.

(** ** The rounds *)

(** Column [d] of a round: row [k] is taken from column [d + sh k]. *)
Definition xcolumn (le : bool) (a : list Z) (b : nat -> nat) : Z :=
  foldl (fun acc k => Z.lxor acc (elt le k a k (b k))) 0 (seq 0 8).
Definition xround (le : bool) (cols : nat) (sh : list nat) (a : list Z) : list Z :=
  (fun d => xcolumn le a (fun k => ((d + sh !!! k) mod cols)%nat)) <$> seq 0 cols.

Lemma RSTT_xcolumn le compact a b0 b1 b2 b3 b4 b5 b6 b7 : words64 a ->
  RSTT le compact a b0 b1 b2 b3 b4 b5 b6 b7 = xcolumn le a (fun k => [b0; b1; b2; b3; b4; b5; b6; b7] !!! k).
Proof.
  intros Ha. unfold xcolumn. cbn [seq foldl]. rewrite Z.lxor_0_l. change (?l !!! 0%nat) with b0. unfold RSTT. destruct compact; [|exact eq_refl].
  assert (E : forall t b, (t < 8)%nat -> word 8 (B64 le t (a !!! b))) by (intros; apply word_B64; [by apply words64_lookup|done]).
  unfold elt. rewrite (rotation_at le 0 1 8), (rotation_at le 0 2 16), (rotation_at le 0 3 24), (rotation_at le 4 5 8), (rotation_at le 4 6 16), (rotation_at le 4 7 24)
    by ((apply E; lia) || (simpl; tauto)). exact eq_refl.
Qed.

Lemma words64_elt le a k b : words64 a -> (k < 8)%nat -> word 64 (elt le k a k b).
Proof. intros Ha Hk. apply table_at; [done|]. apply word_B64; [by apply words64_lookup|done]. Qed.
Lemma word_xors (f : nat -> Z) l acc : word 64 acc -> (forall k, In k l -> word 64 (f k)) -> word 64 (foldl (fun acc k => Z.lxor acc (f k)) acc l).
Proof. revert acc. induction l as [|k l IH]; intros acc Ha H; [done|]. cbn [foldl]. apply IH; [|intros; apply H; by right]. apply word_lxor; [lia|done|apply H; by left]. Qed.
Lemma xround_words le cols sh a : words64 a -> words64 (xround le cols sh a) /\ length (xround le cols sh a) = cols.
Proof.
  intros Ha. unfold xround. split; [|by rewrite length_fmap, length_seq]. apply Forall_fmap, Forall_true. intros d. unfold compose, xcolumn.
  apply word_xors; [by apply word_0|]. intros k Hk%in_seq. apply words64_elt; [done|lia].
Qed.
Lemma B64_xors le t (f : nat -> Z) l acc : (t < 8)%nat -> word 64 acc -> (forall k, In k l -> word 64 (f k)) ->
  B64 le t (foldl (fun acc k => Z.lxor acc (f k)) acc l) = foldl (fun acc k => Z.lxor acc (B64 le t (f k))) (B64 le t acc) l.
Proof.
  intros Ht. revert acc. induction l as [|k l IH]; intros acc Ha H; [done|]. cbn [foldl].
  assert (Hk : word 64 (f k)) by (apply H; by left). rewrite IH; [|by apply word_lxor|intros; apply H; by right]. by rewrite B64_lxor.
Qed.

(** A round on the tables is the S-box, the rotation of the rows and the mixing. *)
Lemma xround_ref le cols sh a : (0 < cols)%nat -> words64 a -> length a = cols ->
  matrix le (xround le cols sh a) = MixBytes cols (ShiftBytes cols sh (SubBytes cols (matrix le a))).
Proof.
  intros Hc Ha Hl. destruct (xround_words le cols sh a Ha) as [Hw Hlx].
  apply (matrix_ext cols); [by rewrite length_matrix, Hlx|apply length_tabulate|]. intros j t Hj Ht.
  rewrite matrix_lookup by (done || lia). unfold MixBytes. rewrite tabulate_lookup by lia. destruct (row_col j t Ht) as [-> ->].
  unfold xround. rewrite lookup_fmap_seq by done. cbn [Nat.add]. unfold xcolumn. rewrite B64_xors; [|done|by apply word_0|intros k Hk%in_seq; apply words64_elt; [done|lia]].
  replace (B64 le t 0) with 0 by (rewrite B64_T8, Z.shiftr_0_l by (done || by apply word_0); exact eq_refl).
  apply foldl_ext_seq. intros acc k Hk. f_equal. unfold elt. rewrite (proj2 (table_at le k _ ltac:(lia) (word_B64 le k _ (words64_lookup _ _ Ha) ltac:(lia)))) by done. f_equal.
  unfold ShiftBytes. rewrite tabulate_lookup by lia. destruct (row_col j k ltac:(lia)) as [-> ->].
  set (b := ((j + sh !!! k) mod cols)%nat). assert (Hb : (b < cols)%nat) by (apply Nat.mod_upper_bound; lia).
  unfold SubBytes. rewrite tabulate_lookup by lia. by rewrite matrix_lookup by (done || lia).
Qed.

Lemma imap_lookup (f : nat -> Z -> Z) a j : (j < length a)%nat -> imap f a !!! j = f j (a !!! j).
Proof. intros Hj. destruct (lookup_lt_is_Some_2 a j Hj) as [x Hx]. rewrite (list_lookup_total_correct a j x Hx). apply list_lookup_total_correct. by rewrite list_lookup_imap, Hx. Qed.
Lemma add_const_ref le cols a (C : nat -> Z) (f : nat -> nat -> Z) : words64 a -> length a = cols ->
  (forall j t, (j < cols)%nat -> (t < 8)%nat -> word 64 (C j) /\ B64 le t (C j) = f j t) ->
  let a' := imap (fun u x => Z.lxor x (C u)) a in
  words64 a' /\ length a' = cols /\ matrix le a' = tabulate (8 * cols) (fun p => Z.lxor (matrix le a !!! p) (f (p / 8) (p mod 8))%nat).
Proof.
  intros Ha Hl HC a'. assert (Hl' : length a' = cols) by (unfold a'; by rewrite length_imap).
  assert (El : forall j, (j < cols)%nat -> a' !!! j = Z.lxor (a !!! j) (C j)) by (intros j Hj; unfold a'; by rewrite imap_lookup by lia).
  assert (Hw : words64 a').
  { apply Forall_lookup_2. intros j x Hx. pose proof (lookup_lt_Some _ _ _ Hx). apply list_lookup_total_correct in Hx. rewrite <-Hx, El by lia.
    apply word_lxor; [lia|by apply words64_lookup|apply (HC j 0%nat); lia]. }
  split_and!; [done|done|]. apply (matrix_ext cols); [by rewrite length_matrix, Hl'|apply length_tabulate|]. intros j t Hj Ht.
  destruct (HC j t Hj Ht) as [W E]. rewrite matrix_lookup by (done || lia). rewrite El by done. rewrite B64_lxor, E by (done || by apply words64_lookup).
  rewrite tabulate_lookup by lia. destruct (row_col j t Ht) as [-> ->]. by rewrite matrix_lookup by (done || lia).
Qed.
Definition add_C (q : bool) (le : bool) (a : list Z) (r : Z) : list Z := if q then add_QC le a r else add_PC le a r.
Lemma add_C_ref q le cols a r : (cols <= 16)%nat -> words64 a -> length a = cols -> (r < 16)%nat ->
  let a' := add_C q le a (Z.of_nat r) in
  words64 a' /\ length a' = cols /\ matrix le a' = AddRoundConstant cols q (Z.of_nat r) (matrix le a).
Proof.
  intros Hc Ha Hl Hr. cbv zeta. pose proof (fun j t Hj Ht => constant_at le j r t (Nat.lt_le_trans _ _ _ Hj Hc) Hr Ht) as HC. cbv zeta in HC. destruct q.
  - apply (add_const_ref le cols a (fun j => QC64 le (16 * Z.of_nat j) (Z.of_nat r)) (fun j t => Z.lxor 0xFF (if (t =? 7)%nat then Z.lxor (16 * Z.of_nat j) (Z.of_nat r) else 0))); [done|done|].
    intros j t Hj Ht. destruct (HC j t Hj Ht) as (_ & W & _ & E). done.
  - apply (add_const_ref le cols a (fun j => PC64 le (16 * Z.of_nat j) (Z.of_nat r)) (fun j t => if (t =? 0)%nat then Z.lxor (16 * Z.of_nat j) (Z.of_nat r) else 0)); [done|done|].
    intros j t Hj Ht. destruct (HC j t Hj Ht) as (W & _ & E & _). done.
Qed.

(** The rounds of the code, by permutation and size. *)
Definition ROUND (big q : bool) (le compact : bool) : list Z -> Z -> list Z :=
  match big, q with
  | false, false => ROUND_SMALL_P le compact | false, true => ROUND_SMALL_Q le compact
  | true, false => ROUND_BIG_P le compact | true, true => ROUND_BIG_Q le compact
  end.
Definition ncols (big : bool) : nat := if big then 16 else 8.
Lemma ROUND_xround big q le compact a r : (r < 16)%nat -> words64 a -> length a = ncols big ->
  ROUND big q le compact a (Z.of_nat r) = xround le (ncols big) (shifts (ncols big) q) (add_C q le a (Z.of_nat r)).
Proof.
  intros Hr Ha Hl. destruct (add_C_ref q le (ncols big) a r ltac:(destruct big; simpl; lia) Ha Hl Hr) as (Hw & _ & _). cbv zeta in Hw.
  assert (E : forall b0 b1 b2 b3 b4 b5 b6 b7, RSTT le compact (add_C q le a (Z.of_nat r)) b0 b1 b2 b3 b4 b5 b6 b7
    = xcolumn le (add_C q le a (Z.of_nat r)) (fun k => [b0; b1; b2; b3; b4; b5; b6; b7] !!! k)) by (intros; by apply RSTT_xcolumn).
  destruct big, q; cbn [ROUND ncols];
    unfold ROUND_BIG_P, ROUND_BIG_Q, ROUND_SMALL_P, ROUND_SMALL_Q, RBTT in *; cbn [add_C] in *; cbv zeta;
    match goal with |- context [add_PC ?l ?x ?y] => generalize dependent (add_PC l x y) | |- context [add_QC ?l ?x ?y] => generalize dependent (add_QC l x y) end;
    intros b _ E; try destruct compact; cbn [flat_map four_P four_Q fmap list_fmap app]; unfold RBTT; rewrite !E; exact eq_refl.
Qed.
Lemma ROUND_ref big q le compact a r : (r < 16)%nat -> words64 a -> length a = ncols big ->
  let a' := ROUND big q le compact a (Z.of_nat r) in
  words64 a' /\ length a' = ncols big /\ matrix le a' = groestl_round (ncols big) q (matrix le a) r.
Proof.
  intros Hr Ha Hl. cbv zeta. rewrite ROUND_xround by done. destruct (add_C_ref q le (ncols big) a r ltac:(destruct big; simpl; lia) Ha Hl Hr) as (Hw & Hl' & E).
  cbv zeta in *. destruct (xround_words le (ncols big) (shifts (ncols big) q) _ Hw) as [W L]. split_and!; [done|done|].
  rewrite xround_ref by (done || destruct big; simpl; lia). by rewrite E.
Qed.
Lemma groestl_rounds_ref big q le compact a i n : (i + n <= 16)%nat -> words64 a -> length a = ncols big ->
  let a' := foldl (fun a r => ROUND big q le compact a (Z.of_nat r)) a (seq i n) in
  words64 a' /\ length a' = ncols big /\ matrix le a' = foldl (groestl_round (ncols big) q) (matrix le a) (seq i n).
Proof.
  revert a i. induction n as [|n IH]; intros a i Hi Ha Hl; [done|]. cbn [seq foldl].
  destruct (ROUND_ref big q le compact a i ltac:(lia) Ha Hl) as (H1 & H2 & E). rewrite <-E. apply IH; [lia|done|done].
Qed.
Definition PERM (big q : bool) (le compact : bool) : list Z -> list Z :=
  match big, q with
  | false, false => PERM_SMALL_P le compact | false, true => PERM_SMALL_Q le compact
  | true, false => PERM_BIG_P le compact | true, true => PERM_BIG_Q le compact
  end.
#[local] Opaque ROUND_BIG_P ROUND_BIG_Q ROUND_SMALL_P ROUND_SMALL_Q.
Lemma PERM_ref big q le compact a : words64 a -> length a = ncols big ->
  words64 (PERM big q le compact a) /\ length (PERM big q le compact a) = ncols big /\
  matrix le (PERM big q le compact a) = perm (ncols big) q (matrix le a).
Proof.
  intros Ha Hl. unfold perm. replace (PERM big q le compact a) with (foldl (fun a r => ROUND big q le compact a (Z.of_nat r)) a (seq 0 (rounds (ncols big)))).
  - apply groestl_rounds_ref; [destruct big; cbn; lia|done|done].
  - destruct big, q; cbn [ncols]; try change (rounds 16) with 14%nat; try change (rounds 8) with 10%nat; cbn [PERM ROUND seq foldl]; unfold PERM_BIG_P, PERM_BIG_Q, PERM_SMALL_P, PERM_SMALL_Q; try destruct compact; cbn [foldl]; exact eq_refl.
Qed.

(** ** Compression and output *)

Lemma enc64e_lxor le a b : enc64e le (Z.lxor a b) = zip_with Z.lxor (enc64e le a) (enc64e le b).
Proof. destruct le; unfold enc64e, le_store, be_store, tabulate; cbn [seq fmap list_fmap zip_with]; by rewrite !T8_shiftr_lxor. Qed.
Lemma matrix_xor le a b : length a = length b -> matrix le (zip_with Z.lxor a b) = xor_all (matrix le a) (matrix le b).
Proof.
  revert b. induction a as [|x a IH]; intros [|y b] Hl; try done. cbn [zip_with matrix flat_map]. unfold xor_all.
  rewrite zip_with_app by (by rewrite !length_enc64e). f_equal; [apply enc64e_lxor|]. apply IH. by injection Hl.
Qed.
Lemma xor_words64 a b : words64 a -> words64 b -> words64 (zip_with Z.lxor a b).
Proof. intros Ha. revert b. induction Ha as [|x a Hx Ha IH]; intros b Hb; [constructor|]. destruct Hb; [constructor|]. cbn. constructor; [by apply word_lxor|by apply IH]. Qed.
Lemma tabulate_xor n a b : length a = n -> length b = n -> tabulate n (fun u => Z.lxor (a !!! u) (b !!! u)) = zip_with Z.lxor a b.
Proof.
  intros Ha Hb. apply list_eq_total; rewrite length_tabulate; [rewrite length_zip_with; lia|]. intros i Hi. rewrite tabulate_lookup by done.
  destruct (lookup_lt_is_Some_2 a i ltac:(lia)) as [x Hx]. destruct (lookup_lt_is_Some_2 b i ltac:(lia)) as [y Hy].
  rewrite (list_lookup_total_correct _ _ _ Hx), (list_lookup_total_correct _ _ _ Hy). symmetry. apply list_lookup_total_correct. by rewrite lookup_zip_with, Hx, Hy.
Qed.
Definition columns (le : bool) (cols : nat) (buf : list Z) : list Z := tabulate cols (fun u => dec64e le (slice (8 * u) 8 buf)).
Lemma columns_ref le cols buf : bytes buf -> length buf = (8 * cols)%nat ->
  words64 (columns le cols buf) /\ length (columns le cols buf) = cols /\ matrix le (columns le cols buf) = buf.
Proof.
  intros Hb Hl. unfold columns. assert (Hs : forall u, bytes (slice (8 * u) 8 buf)) by (intros; by apply Forall_slice).
  split; [apply Forall_tabulate; intros u _; destruct le; [apply word_le_load|apply word_be_load]; apply Hs|]. split; [apply length_tabulate|].
  assert (E : forall u, (u < cols)%nat -> enc64e le (dec64e le (slice (8 * u) 8 buf)) = slice (8 * u) 8 buf).
  { intros u Hu. assert (Hls : length (slice (8 * u) 8 buf) = 8%nat) by (apply length_slice; lia).
    destruct le; unfold enc64e, dec64e; [pose proof (le_store_load _ (Hs u)) as E|pose proof (be_store_load _ (Hs u)) as E]; by rewrite Hls in E. }
  clear Hb Hs. revert buf Hl E. induction cols as [|n IH]; intros buf Hl E; [by destruct buf|].
  unfold tabulate. cbn [seq fmap list_fmap matrix flat_map]. rewrite E by lia. rewrite <-(fmap_S_seq 0 n), <-list_fmap_compose.
  transitivity (take 8 buf ++ drop 8 buf); [|apply take_drop]. f_equal. rewrite <-(IH (drop 8 buf)).
  - unfold matrix, tabulate. f_equal. apply map_ext. intros u. cbn. unfold slice. rewrite drop_drop. do 3 f_equal. lia.
  - rewrite length_drop. lia.
  - intros u Hu. specialize (E (Datatypes.S u) ltac:(lia)). unfold slice in *. rewrite drop_drop. replace (8 + 8 * u)%nat with (8 * Datatypes.S u)%nat by lia. exact E.
Qed.
Definition COMPRESS (big le compact : bool) : list Z -> list Z -> list Z := if big then COMPRESS_BIG le compact else COMPRESS_SMALL le compact.
Definition FINAL (big le compact : bool) : list Z -> list Z := if big then FINAL_BIG le compact else FINAL_SMALL le compact.
Lemma xor_all_comm a b : xor_all a b = xor_all b a.
Proof. unfold xor_all. revert b. induction a as [|x a IH]; intros [|y b]; try done. cbn. by rewrite Z.lxor_comm, IH. Qed.
Lemma COMPRESS_ref big le compact H buf : words64 H -> length H = ncols big -> bytes buf -> length buf = (8 * ncols big)%nat ->
  words64 (COMPRESS big le compact H buf) /\ length (COMPRESS big le compact H buf) = ncols big /\
  matrix le (COMPRESS big le compact H buf) = f_compress (ncols big) (matrix le H) buf.
Proof.
  intros HH Hl Hb Hlb. destruct (columns_ref le _ _ Hb Hlb) as (Wm & Lm & Em). set (m := columns le (ncols big) buf) in *.
  assert (E : COMPRESS big le compact H buf = zip_with Z.lxor H (zip_with Z.lxor (PERM big false le compact (zip_with Z.lxor m H)) (PERM big true le compact m))).
  { assert (Wg : words64 (zip_with Z.lxor m H)) by (by apply xor_words64). assert (Lg : length (zip_with Z.lxor m H) = ncols big) by (rewrite length_zip_with; lia).
    destruct (PERM_ref big false le compact _ Wg Lg) as (_ & L1 & _). destruct (PERM_ref big true le compact m Wm Lm) as (_ & L2 & _).
    transitivity (tabulate (ncols big) (fun u => Z.lxor (H !!! u) (Z.lxor (PERM big false le compact (tabulate (ncols big) (fun u => Z.lxor (m !!! u) (H !!! u))) !!! u) (PERM big true le compact m !!! u)))).
    { destruct big; exact eq_refl. }
    rewrite (tabulate_xor _ m H) by done. rewrite <-(tabulate_xor (ncols big) (PERM big false le compact _) (PERM big true le compact m)) by done.
    rewrite <-(tabulate_xor (ncols big) H) by (done || apply length_tabulate). apply map_ext_in. intros u Hu%in_seq. by rewrite tabulate_lookup by lia. }
  rewrite E. assert (Wg : words64 (zip_with Z.lxor m H)) by (by apply xor_words64). assert (Lg : length (zip_with Z.lxor m H) = ncols big) by (rewrite length_zip_with; lia).
  destruct (PERM_ref big false le compact _ Wg Lg) as (W1 & L1 & E1). destruct (PERM_ref big true le compact m Wm Lm) as (W2 & L2 & E2).
  split_and!; [apply xor_words64, xor_words64; done|rewrite !length_zip_with; lia|].
  rewrite !matrix_xor by (rewrite ?length_zip_with; lia). rewrite E1, E2, matrix_xor, Em by lia. unfold f_compress. by rewrite xor_all_comm, (xor_all_comm buf).
Qed.
Lemma FINAL_ref big le compact H : words64 H -> length H = ncols big ->
  words64 (FINAL big le compact H) /\ length (FINAL big le compact H) = ncols big /\ matrix le (FINAL big le compact H) = omega (ncols big) (matrix le H).
Proof.
  intros HH Hl. destruct (PERM_ref big false le compact H HH Hl) as (W1 & L1 & E1).
  assert (E : FINAL big le compact H = zip_with Z.lxor H (PERM big false le compact H)) by (rewrite <-(tabulate_xor (ncols big)) by done; destruct big; exact eq_refl).
  rewrite E. split_and!; [by apply xor_words64|rewrite length_zip_with; lia|]. rewrite matrix_xor, E1 by lia. apply xor_all_comm.
Qed.

(** ** Streaming *)

#[local] Opaque PERM_BIG_P PERM_BIG_Q PERM_SMALL_P PERM_SMALL_Q COMPRESS_BIG COMPRESS_SMALL FINAL_BIG FINAL_SMALL.
Definition gblock (big le compact : bool) (s : groestl_state) (buf : list Z) : groestl_state :=
  mk_groestl (COMPRESS big le compact (wide s) buf) (T64 (count s + 1)).
Lemma gblocks_ref big le compact H c bs :
  words64 H -> length H = ncols big -> Forall bytes bs -> Forall (fun b => length b = (8 * ncols big)%nat) bs ->
  let s := foldl (gblock big le compact) (mk_groestl H (T64 c)) bs in
  words64 (wide s) /\ length (wide s) = ncols big /\ matrix le (wide s) = foldl (f_compress (ncols big)) (matrix le H) bs /\
  count s = T64 (c + Z.of_nat (length bs)).
Proof.
  intros HH Hl Hb. revert H c HH Hl. induction Hb as [|b bs Hb _ IH]; intros H c HH Hl Hlb; cbv zeta; [cbn [foldl wide count length]; rewrite Z.add_0_r; done|].
  apply list.Forall_cons in Hlb as [Hlb Hlbs]. destruct (COMPRESS_ref big le compact H b HH Hl Hb Hlb) as (W & L & E).
  cbn [foldl]. change (gblock big le compact (mk_groestl H (T64 c)) b) with (mk_groestl (COMPRESS big le compact H b) (T64 (T64 c + 1))).
  replace (T64 (T64 c + 1)) with (T64 (c + 1)) by (rewrite !T64_mod; by rewrite Zplus_mod_idemp_l).
  destruct (IH _ (c + 1) W L Hlbs) as (I1 & I2 & I3 & I4). cbv zeta in *. split_and!; [done|done|by rewrite I3, E|].
  rewrite I4. f_equal. cbn [length]. lia.
Qed.

Lemma take_memcpy_at dst off src k : (off <= length dst)%nat -> k = (off + length src)%nat -> take k (memcpy dst off src) = take off dst ++ src.
Proof. intros H ->. by apply take_memcpy. Qed.

Definition bsize (big : bool) : nat := 8 * ncols big.

Section Close.
Context (big le compact : bool).
Definition INIT : list Z -> Z -> groestl_ctx := if big then groestl_big_init le else groestl_small_init le.
Definition CORE : groestl_ctx -> list Z -> groestl_ctx := if big then groestl_big_core le compact else groestl_small_core le compact.
Definition CLOSE : list Z -> groestl_ctx -> Z -> Z -> nat -> groestl_ctx * list Z :=
  if big then groestl_big_close le compact else groestl_small_close le compact.

Lemma CORE_eq : CORE = sph_core (8 * ncols big) (gblock big le compact).
Proof. unfold CORE. destruct big; exact eq_refl. Qed.
(** The bytes the closing function appends. *)
Definition pad_bytes (ptr : nat) (cnt ub n : Z) : list Z :=
  let short := (ptr <? (bsize big) - 8)%nat in
  final_byte ub n :: replicate (if short then (bsize big) - 9 - ptr else 2 * (bsize big) - 9 - ptr)%nat 0
  ++ be_store 8 (T64 (cnt + if short then 1 else 2)).
Definition pad_array (stk : list Z) (sc : groestl_ctx) (ub n : Z) : list Z :=
  let pad_len := (if sc_ptr sc <? (bsize big) - 8 then (bsize big) - sc_ptr sc else 2 * (bsize big) - sc_ptr sc)%nat in
  let cnt := if (sc_ptr sc <? (bsize big) - 8)%nat then T64 (count (sc_st sc) + 1) else T64 (count (sc_st sc) + 2) in
  memcpy (memset0 (<[0%nat := final_byte ub n]> stk) 1 (pad_len - 9)) (pad_len - 8) (be_store 8 cnt).
Lemma pad_array_bytes stk sc ub n :
  (sc_ptr sc < (bsize big))%nat -> length stk = ((bsize big) + 8)%nat ->
  length (pad_array stk sc ub n) = ((bsize big) + 8)%nat /\
  take (if sc_ptr sc <? (bsize big) - 8 then (bsize big) - sc_ptr sc else 2 * (bsize big) - sc_ptr sc)%nat (pad_array stk sc ub n) = pad_bytes (sc_ptr sc) (count (sc_st sc)) ub n.
Proof.
  intros Hp Hs. assert (HB : (64 <= (bsize big))%nat) by (unfold bsize; destruct big; simpl; lia). unfold pad_array. cbv zeta.
  set (pl := (if sc_ptr sc <? (bsize big) - 8 then (bsize big) - sc_ptr sc else 2 * (bsize big) - sc_ptr sc)%nat). assert (Hpl : (9 <= pl <= (bsize big) + 8)%nat) by (unfold pl; destruct (Nat.ltb_spec (sc_ptr sc) ((bsize big) - 8)); lia).
  set (cnt := if (sc_ptr sc <? (bsize big) - 8)%nat then T64 _ else T64 _). assert (H1 : length (<[0%nat := final_byte ub n]> stk) = ((bsize big) + 8)%nat) by by rewrite length_insert.
  assert (H2 : length (memset0 (<[0%nat := final_byte ub n]> stk) 1 (pl - 9)) = ((bsize big) + 8)%nat) by (unfold memset0; rewrite length_memcpy by (rewrite length_replicate; lia); done).
  split; [rewrite length_memcpy; [done|rewrite length_be_store, H2; lia]|].
  rewrite (take_memcpy_at _ (pl - 8)) by (rewrite ?length_be_store; lia). unfold memset0. rewrite (take_memcpy_at _ 1) by (rewrite ?length_replicate; lia).
  destruct stk as [|x stk]; [simpl in Hs; lia|]. cbn [insert list_insert take app]. unfold pad_bytes. cbv zeta. f_equal. f_equal.
  - rewrite take_0. cbn [app]. f_equal. unfold pl. destruct (sc_ptr sc <? (bsize big) - 8)%nat; lia.
  - unfold cnt. by destruct (sc_ptr sc <? (bsize big) - 8)%nat.
Qed.

Lemma CLOSE_eq stk sc ub n k :
  (CLOSE stk sc ub n k).2
  = slice (4 * ncols big - k) k
      (let sc' := CORE sc (take (if sc_ptr sc <? (bsize big) - 8 then (bsize big) - sc_ptr sc else 2 * (bsize big) - sc_ptr sc)%nat (pad_array stk sc ub n)) in
       let H := FINAL big le compact (wide (sc_st sc')) in
       foldl (fun pad u => memcpy pad (8 * u) (enc64e le (H !!! (u + ncols big / 2)%nat))) (pad_array stk sc ub n) (seq 0 (ncols big / 2))).
Proof. unfold CLOSE, CORE, pad_array, bsize. destruct big; exact eq_refl. Qed.

(** The words of the second half of the state, stored in order. *)
Lemma half_matrix H : length H = ncols big ->
  flat_map (fun u => enc64e le (H !!! (u + ncols big / 2)%nat)) (seq 0 (ncols big / 2)) = drop (4 * ncols big) (matrix le H).
Proof.
  intros Hl. set (h := (ncols big / 2)%nat). assert (Hh : (ncols big = 2 * h)%nat) by (unfold h; destruct big; reflexivity).
  assert (E : (fun u => H !!! (u + h)%nat) <$> seq 0 h = drop h H).
  { apply list_eq_total; rewrite length_fmap, length_seq; [rewrite length_drop; lia|]. intros i Hi. rewrite lookup_fmap_seq by done. rewrite lookup_total_drop. f_equal. lia. }
  transitivity (matrix le (drop h H)). { rewrite <-E. unfold matrix. clear. induction (seq 0 h) as [|u l IH]; [done|]. cbn [fmap list_fmap flat_map] in *. by rewrite IH. }
  rewrite <-(take_drop h H) at 2. unfold matrix at 2. rewrite flat_map_app. fold (matrix le (take h H)) (matrix le (drop h H)).
  rewrite drop_app_length'; [done|]. rewrite length_matrix, length_take. lia.
Qed.

Lemma groestl_stream junk stk k pieces ub n :
  length junk = (bsize big) -> length stk = ((bsize big) + 8)%nat -> (k <= 4 * ncols big)%nat -> word 8 ub -> 0 <= n < 8 ->
  ((if k <=? 32 then 8 else 16) = ncols big)%nat ->
  matrix le (wide (sc_st (INIT junk (8 * Z.of_nat k)))) = replicate ((bsize big) - 2) 0 ++ be_store 2 (8 * Z.of_nat k) ->
  words64 (wide (sc_st (INIT junk (8 * Z.of_nat k)))) -> bytes (concat pieces) ->
  (CLOSE stk (foldl CORE (INIT junk (8 * Z.of_nat k)) pieces) ub n k).2 = groestl_digest k (concat pieces) ub n.
Proof.
  intros Hj Hs Hk Hub Hn Hcols Hiv Hwiv Hb. rewrite CLOSE_eq. cbv zeta. assert (HB : (64 <= (bsize big))%nat) by (unfold bsize; destruct big; simpl; lia).
  assert (EI : exists iv, INIT junk (8 * Z.of_nat k) = mk_sph junk 0 (mk_groestl iv (T64 0)) /\ length iv = ncols big) by (unfold INIT; destruct big; by eexists).
  destruct EI as (iv & EI & Hliv). rewrite EI in *. cbn [sc_st wide] in Hiv, Hwiv.
  rewrite CORE_eq. fold (bsize big). set (c := foldl _ _ pieces). set (m := concat pieces) in *.
  destruct (sph_pieces_spec (bsize big) (gblock big le compact) ltac:(lia) junk (mk_groestl iv (T64 0)) pieces Hj) as (Hok & Est & Ep & _). cbv zeta in *. fold c m in Hok, Est, Ep.
  assert (Hbm : Forall bytes (blocks (bsize big) m)) by by apply blocks_bytes. assert (Hlm : Forall (fun b => length b = (bsize big)) (blocks (bsize big) m)) by (apply blocks_length; lia).
  destruct (gblocks_ref big le compact iv 0 (blocks (bsize big) m) Hwiv Hliv Hbm Hlm) as (_ & _ & _ & Ec). cbv zeta in Ec. rewrite <-Est in Ec.
  destruct (pad_array_bytes stk c ub n (proj2 Hok) Hs) as [Hla Epad]. set (pad := take _ (pad_array stk c ub n)) in *.
  destruct (final_byte_ref ub n Hub Hn) as [Ef Wf].
  assert (Epm : m ++ pad = groestl_pad (bsize big) m ub n).
  { rewrite Epad. unfold pad_bytes, groestl_pad. cbv zeta. rewrite Ep, Ef, be_store_T64. do 2 f_equal. f_equal. rewrite Ec, length_blocks_div, Z.add_0_l by lia.
    rewrite <-(be_store_T64 (T64 _ + _)), <-(be_store_T64 (Z.of_nat _)). f_equal. rewrite !T64_mod, Zplus_mod_idemp_l. f_equal. destruct (length m mod (bsize big) <? (bsize big) - 8)%nat; lia. }
  assert (Hbp : bytes (m ++ pad)).
  { apply Forall_app_2; [done|]. rewrite Epad. unfold pad_bytes. cbv zeta. constructor; [done|]. apply Forall_app_2; [apply Forall_replicate; by apply word_0|apply bytes_be_store]. }
  destruct (sph_pieces_spec (bsize big) (gblock big le compact) ltac:(lia) junk (mk_groestl iv (T64 0)) (pieces ++ [pad]) Hj) as (_ & Est' & _). cbv zeta in Est'.
  rewrite foldl_app, concat_app in Est'. cbn [foldl concat] in Est'. rewrite app_nil_r in Est'. fold c m in Est'. fold (bsize big). rewrite Est'.
  destruct (gblocks_ref big le compact iv 0 (blocks (bsize big) (m ++ pad)) Hwiv Hliv (blocks_bytes _ _ Hbp) (blocks_length (bsize big) _ ltac:(lia))) as (W & L & E & _). cbv zeta in *.
  destruct (FINAL_ref big le compact _ W L) as (W' & L' & E'). set (H := FINAL big le compact _) in *. rewrite E, Hiv, Epm in E'.
  pose proof (store_seq (fun u => enc64e le (H !!! (u + ncols big / 2)%nat)) 8 (fun u => length_enc64e le _) (ncols big / 2) (pad_array stk c ub n)) as Est2.
  destruct Est2 as [_ Et]; [rewrite Hla; unfold bsize; destruct big; simpl; lia|]. cbv zeta in Et. rewrite half_matrix, E' in Et by done.
  assert (Hh : (8 * (ncols big / 2) = 4 * ncols big)%nat) by (destruct big; reflexivity). rewrite Hh in Et.
  unfold slice. rewrite take_drop_commute. replace (4 * ncols big - k + k)%nat with (4 * ncols big)%nat by lia. rewrite Et, drop_drop.
  unfold groestl_digest. rewrite Hcols. fold (bsize big). f_equal. unfold bsize. lia.
Qed.
End Close.

(** ** Digests are bytes *)

Lemma word_gmul_r a b : word 8 b -> word 8 (gmul a b).
Proof.
  intros Hb. assert (Hx : forall x, word 8 x -> word 8 (gf_x x)).
  { intros x Hx. cut ((0 <=? gf_x x) && (gf_x x <? 256) = true); [unfold word; lia|]. revert x Hx. apply all_bytes_spec. vm_compute. reflexivity. }
  assert (Hi : forall i, word 8 (Nat.iter i gf_x b)) by (intros i; induction i; [done|by apply Hx]).
  unfold gmul. generalize (seq 0 8). intros l. assert (H0 : word 8 0) by by apply word_0. revert H0. generalize 0. induction l as [|i l IH]; intros acc Hacc; [done|].
  cbn [foldl]. apply IH. case_match; [|done]. apply word_lxor; [lia|done|apply Hi].
Qed.
Lemma bytes_MixBytes cols a : bytes a -> bytes (MixBytes cols a).
Proof.
  intros Ha. apply Forall_tabulate. intros p _. generalize (seq 0 8). intros l. assert (H0 : word 8 0) by by apply word_0. revert H0. generalize 0.
  induction l as [|i l IH]; intros acc Hacc; [done|]. cbn [foldl]. apply IH, word_lxor; [lia|done|]. by apply word_gmul_r, bytes_lookup.
Qed.
Lemma bytes_round cols q a r : (cols <= 16)%nat -> (r < 16)%nat -> bytes a -> bytes (groestl_round cols q a r) /\ length (groestl_round cols q a r) = (8 * cols)%nat.
Proof.
  intros Hc Hr Ha. split; [|apply length_tabulate]. apply bytes_MixBytes. apply Forall_tabulate. intros p Hp. apply bytes_lookup. apply Forall_tabulate. intros p' Hp'.
  assert (Hs : forall x, word 8 x -> word 8 (affine (gf_inv x))).
  { intros x Hx. cut ((0 <=? affine (gf_inv x)) && (affine (gf_inv x) <? 256) = true); [unfold word; lia|]. revert x Hx. apply all_bytes_spec. vm_compute. reflexivity. }
  apply Hs, bytes_lookup. clear p Hp p' Hp'. apply Forall_tabulate. intros p Hp. cbv zeta.
  assert (Hd : (p / 8 < 16)%nat) by (apply Nat.Div0.div_lt_upper_bound; lia).
  assert (Hw : word 8 (Z.lxor (16 * Z.of_nat (p / 8)) (Z.of_nat r))) by (apply word_lxor; [lia|unfold word; lia|unfold word; lia]).
  assert (Ha' : word 8 (a !!! p)) by by apply bytes_lookup. assert (H0 : word 8 0) by by apply word_0. assert (HF : word 8 0xFF) by (unfold word; lia).
  destruct q; apply word_lxor; [lia|done| |lia|done|by case_match]. apply word_lxor; [lia|done|by case_match].
Qed.
Lemma bytes_perm cols q a : (cols <= 16)%nat -> bytes a -> length a = (8 * cols)%nat -> bytes (perm cols q a) /\ length (perm cols q a) = (8 * cols)%nat.
Proof.
  intros Hc. unfold perm. assert (Hr : Forall (fun r => (r < 16)%nat) (seq 0 (rounds cols))).
  { apply Forall_seq. intros r Hr. unfold rounds in Hr. destruct (cols =? 8)%nat; lia. }
  revert a. induction Hr as [|r l Hr _ IH]; intros a Ha Hl; [done|]. cbn [foldl]. destruct (bytes_round cols q a r Hc Hr Ha) as [H1 H2]. by apply IH.
Qed.
Lemma bytes_xor_all a b n : bytes a /\ length a = n -> bytes b /\ length b = n -> bytes (xor_all a b) /\ length (xor_all a b) = n.
Proof.
  intros [Ha La] [Hb Lb]. unfold xor_all. split; [|rewrite length_zip_with; lia]. revert b Hb La Lb. revert n. induction Ha as [|x a Hx _ IH]; intros n b Hb La Lb; [constructor|].
  destruct Hb as [|y b Hy Hb]; [constructor|]. cbn [zip_with]. constructor; [apply word_lxor; [lia|done|done]|]. cbn [length] in La, Lb. apply (IH (n - 1)%nat); [done|lia|lia].
Qed.
Lemma bytes_groestl_digest k m ub n : (k <= 64)%nat -> bytes m -> word 8 ub -> 0 <= n < 8 ->
  length (groestl_digest k m ub n) = k /\ bytes (groestl_digest k m ub n).
Proof.
  intros Hk Hm Hub Hn. unfold groestl_digest. set (cols := if (k <=? 32)%nat then 8%nat else 16%nat).
  assert (Hc : (cols <= 16 /\ 8 <= cols /\ k <= 4 * cols)%nat) by (unfold cols; destruct (Nat.leb_spec k 32); lia). clearbody cols.
  assert (Hp : bytes (groestl_pad (8 * cols) m ub n)).
  { unfold groestl_pad. apply Forall_app_2; [done|]. apply List.Forall_cons; [destruct (final_byte_ref ub n Hub Hn) as [<- H]; exact H|].
    apply Forall_app_2; [by apply Forall_replicate, word_0|apply bytes_be_store]. }
  assert (Hbs := blocks_bytes (8 * cols) _ Hp). assert (Hls := blocks_length (8 * cols) (groestl_pad (8 * cols) m ub n) ltac:(lia)).
  set (iv := replicate _ 0 ++ _). assert (Hiv : bytes iv /\ length iv = (8 * cols)%nat).
  { unfold iv. split; [apply Forall_app_2; [by apply Forall_replicate, word_0|apply bytes_be_store]|]. rewrite length_app, length_replicate, length_be_store. lia. }
  clearbody iv. assert (HH : forall bs h, Forall bytes bs -> Forall (fun b => length b = (8 * cols)%nat) bs -> bytes h /\ length h = (8 * cols)%nat ->
    bytes (foldl (f_compress cols) h bs) /\ length (foldl (f_compress cols) h bs) = (8 * cols)%nat).
  { induction bs as [|b bs IH]; intros h Hb Hl Hh; [done|]. apply Forall_cons_1 in Hb as [Hb Hb']. apply Forall_cons_1 in Hl as [Hl Hl']. cbn [foldl]. apply IH; [done|done|].
    unfold f_compress. apply bytes_xor_all; [|done]. apply bytes_xor_all; [|apply bytes_perm; [lia|done|done]].
    destruct (bytes_xor_all h b (8 * cols)%nat Hh (conj Hb Hl)) as [H1 H2]. apply bytes_perm; [lia|done|done]. }
  destruct (HH _ iv Hbs Hls Hiv) as [H1 H2]. set (h := foldl _ _ _) in *. clearbody h.
  destruct (bytes_xor_all (perm cols false h) h (8 * cols)%nat (bytes_perm cols false h ltac:(lia) H1 H2) (conj H1 H2)) as [H3 H4].
  unfold omega. split; [rewrite length_drop, H4; lia|by apply Forall_drop].
Qed.

(** ** Properties *)

(** C15. For the four digest sizes, both byte orders and both table sets, feeding a message
    to [sph_groestl*] in any pieces and closing with up to 7 extra bits gives the Groestl
    digest of the concatenation: the merged tables compute the S-box, the rotation of the
    rows and the mixing of the submission on every column, for 10 or 14 rounds of [P] and
    [Q], and the block count of the padding is right on both sides of the block limit. *)
Theorem sph_groestl_streaming le compact junk1 junk2 stk1 stk2 pieces ub n :
  length junk1 = 64%nat -> length junk2 = 128%nat -> length stk1 = 72%nat -> length stk2 = 136%nat -> word 8 ub -> 0 <= n < 8 ->
  let m := concat pieces in
  bytes m ->
  (sph_groestl224_addbits_and_close le compact stk1 (foldl (sph_groestl224 le compact) (sph_groestl224_init le junk1) pieces) ub n).2 = groestl_digest 28 m ub n /\
  (sph_groestl256_addbits_and_close le compact stk1 (foldl (sph_groestl256 le compact) (sph_groestl256_init le junk1) pieces) ub n).2 = groestl_digest 32 m ub n /\
  (sph_groestl384_addbits_and_close le compact stk2 (foldl (sph_groestl384 le compact) (sph_groestl384_init le junk2) pieces) ub n).2 = groestl_digest 48 m ub n /\
  (sph_groestl512_addbits_and_close le compact stk2 (foldl (sph_groestl512 le compact) (sph_groestl512_init le junk2) pieces) ub n).2 = groestl_digest 64 m ub n.
Proof.
  intros H1 H2 H3 H4 Hub Hn m Hm.
  split; [|split; [|split]].
  - apply (groestl_stream false le compact junk1 stk1 28); [done|done|simpl; lia|done|done|done|by destruct le|apply word_list_dec; by destruct le|done].
  - apply (groestl_stream false le compact junk1 stk1 32); [done|done|simpl; lia|done|done|done|by destruct le|apply word_list_dec; by destruct le|done].
  - apply (groestl_stream true le compact junk2 stk2 48); [done|done|simpl; lia|done|done|done|by destruct le|apply word_list_dec; by destruct le|done].
  - apply (groestl_stream true le compact junk2 stk2 64); [done|done|simpl; lia|done|done|done|by destruct le|apply word_list_dec; by destruct le|done].
Qed.
Lemma sph_groestl_streaming_witness :
  (sph_groestl512_addbits_and_close true false (replicate 136 7) (foldl (sph_groestl512 true false) (sph_groestl512_init true (replicate 128 9)) [[0x61]; replicate 121 0x62]) 0xA0 3).2
  = groestl_digest 64 (concat [[0x61]; replicate 121 0x62]) 0xA0 3.
Proof.
  assert (Hb : bytes (concat [[0x61]; replicate 121 0x62])) by (apply byte_list_dec; reflexivity).
  refine (proj2 (proj2 (proj2 (sph_groestl_streaming true false (replicate 64 9) (replicate 128 9) (replicate 72 7) (replicate 136 7) [[0x61]; replicate 121 0x62] 0xA0 3 eq_refl eq_refl eq_refl eq_refl _ _ Hb))));
    unfold word; lia.
Defined.

(** The empty message, as published. *)
Example groestl_empty :
  take 16 (sph_groestl512_close true false (replicate 136 5) (sph_groestl512_init true (replicate 128 0))).2
  = [0x6D; 0x3A; 0xD2; 0x9D; 0x27; 0x91; 0x10; 0xEE; 0xF3; 0xAD; 0xBD; 0x66; 0xDE; 0x2A; 0x03; 0x45] /\
  take 8 (sph_groestl256_close false true (replicate 72 5) (sph_groestl256_init false (replicate 64 0))).2
  = [0x1A; 0x52; 0xD1; 0x1D; 0x55; 0x00; 0x39; 0xBE].
Proof. split; vm_compute; reflexivity. Qed.

End Groestl.
