(* ===== verification/Jh.v ===== *)
(** * JH ([crypto/ghostrider/sph_jh.c]).

    The code keeps the 1024-bit state as 16 words and works on 64 columns at once: the
    S-boxes are boolean formulas, the permutation of the rounds is a swap of bits that
    depends on the round.  The reference is the submission's: 256 four-bit elements,
    two S-boxes, a code over GF(16), the permutation [P8], constants generated by the
    smaller function.  The 64-bit little-endian build is modelled, the rounds unrolled
    or in the partly unrolled loop. *)
From S2P Require Import Prelude Stream SphCore.

Module Jh.

Definition C64e (x : Z) : Z :=
  Z.lor (Z.lor (Z.lor (Z.lor (Z.lor (Z.lor (Z.lor
    (Z.shiftr x 56) (Z.land (Z.shiftr x 40) 0x000000000000FF00))
    (Z.land (Z.shiftr x 24) 0x0000000000FF0000)) (Z.land (Z.shiftr x 8) 0x00000000FF000000))
    (Z.land (shl64 x 8) 0x000000FF00000000)) (Z.land (shl64 x 24) 0x0000FF0000000000))
    (Z.land (shl64 x 40) 0x00FF000000000000)) (Z.land (shl64 x 56) 0xFF00000000000000).
Definition C : list Z := C64e <$> [
  0x72d5dea2df15f867; 0x7b84150ab7231557; 0x81abd6904d5a87f6; 0x4e9f4fc5c3d12b40;
  0xea983ae05c45fa9c; 0x03c5d29966b2999a; 0x660296b4f2bb538a; 0xb556141a88dba231;
  0x03a35a5c9a190edb; 0x403fb20a87c14410; 0x1c051980849e951d; 0x6f33ebad5ee7cddc;
  0x10ba139202bf6b41; 0xdc786515f7bb27d0; 0x0a2c813937aa7850; 0x3f1abfd2410091d3;
  0x422d5a0df6cc7e90; 0xdd629f9c92c097ce; 0x185ca70bc72b44ac; 0xd1df65d663c6fc23;
  0x976e6c039ee0b81a; 0x2105457e446ceca8; 0xeef103bb5d8e61fa; 0xfd9697b294838197;
  0x4a8e8537db03302f; 0x2a678d2dfb9f6a95; 0x8afe7381f8b8696c; 0x8ac77246c07f4214;
  0xc5f4158fbdc75ec4; 0x75446fa78f11bb80; 0x52de75b7aee488bc; 0x82b8001e98a6a3f4;
  0x8ef48f33a9a36315; 0xaa5f5624d5b7f989; 0xb6f1ed207c5ae0fd; 0x36cae95a06422c36;
  0xce2935434efe983d; 0x533af974739a4ba7; 0xd0f51f596f4e8186; 0x0e9dad81afd85a9f;
  0xa7050667ee34626a; 0x8b0b28be6eb91727; 0x47740726c680103f; 0xe0a07e6fc67e487b;
  0x0d550aa54af8a4c0; 0x91e3e79f978ef19e; 0x8676728150608dd4; 0x7e9e5a41f3e5b062;
  0xfc9f1fec4054207a; 0xe3e41a00cef4c984; 0x4fd794f59dfa95d8; 0x552e7e1124c354a5;
  0x5bdf7228bdfe6e28; 0x78f57fe20fa5c4b2; 0x05897cefee49d32e; 0x447e9385eb28597f;
  0x705f6937b324314a; 0x5e8628f11dd6e465; 0xc71b770451b920e7; 0x74fe43e823d4878a;
  0x7d29e8a3927694f2; 0xddcb7a099b30d9c1; 0x1d1b30fb5bdc1be0; 0xda24494ff29c82bf;
  0xa4e7ba31b470bfff; 0x0d324405def8bc48; 0x3baefc3253bbd339; 0x459fc3c1e0298ba0;
  0xe5c905fdf7ae090f; 0x947034124290f134; 0xa271b701e344ed95; 0xe93b8e364f2f984a;
  0x88401d63a06cf615; 0x47c1444b8752afff; 0x7ebb4af1e20ac630; 0x4670b6c5cc6e8ce6;
  0xa4d5a456bd4fca00; 0xda9d844bc83e18ae; 0x7357ce453064d1ad; 0xe8a6ce68145c2567;
  0xa3da8cf2cb0ee116; 0x33e906589a94999a; 0x1f60b220c26f847b; 0xd1ceac7fa0d18518;
  0x32595ba18ddd19d3; 0x509a1cc0aaa5b446; 0x9f3d6367e4046bba; 0xf6ca19ab0b56ee7e;
  0x1fb179eaa9282174; 0xe9bdf7353b3651ee; 0x1d57ac5a7550d376; 0x3a46c2fea37d7001;
  0xf735c1af98a4d842; 0x78edec209e6b6779; 0x41836315ea3adba8; 0xfac33b4d32832c83;
  0xa7403b1f1c2747f3; 0x5940f034b72d769a; 0xe73e4e6cd2214ffd; 0xb8fd8d39dc5759ef;
  0x8d9b0c492b49ebda; 0x5ba2d74968f3700d; 0x7d3baed07a8d5584; 0xf5a5e9f0e4f88e65;
  0xa0b8a2f436103b53; 0x0ca8079e753eec5a; 0x9168949256e8884f; 0x5bb05c55f8babc4c;
  0xe3bb3b99f387947b; 0x75daf4d6726b1c5d; 0x64aeac28dc34b36d; 0x6c34a550b828db71;
  0xf861e2f2108d512a; 0xe3db643359dd75fc; 0x1cacbcf143ce3fa2; 0x67bbd13c02e843b0;
  0x330a5bca8829a175; 0x7f34194db416535c; 0x923b94c30e794d1e; 0x797475d7b6eeaf3f;
  0xeaa8d4f7be1a3921; 0x5cf47e094c232751; 0x26a32453ba323cd2; 0x44a3174a6da6d5ad;
  0xb51d3ea6aff2c908; 0x83593d98916b3c56; 0x4cf87ca17286604d; 0x46e23ecc086ec7f6;
  0x2f9833b3b1bc765e; 0x2bd666a5efc4e62a; 0x06f4b6e8bec1d436; 0x74ee8215bcef2163;
  0xfdc14e0df453c969; 0xa77d5ac406585826; 0x7ec1141606e0fa16; 0x7e90af3d28639d3f;
  0xd2c9f2e3009bd20c; 0x5faace30b7d40c30; 0x742a5116f2e03298; 0x0deb30d8e3cef89a;
  0x4bc59e7bb5f17992; 0xff51e66e048668d3; 0x9b234d57e6966731; 0xcce6a6f3170a7505;
  0xb17681d913326cce; 0x3c175284f805a262; 0xf42bcbb378471547; 0xff46548223936a48;
  0x38df58074e5e6565; 0xf2fc7c89fc86508e; 0x31702e44d00bca86; 0xf04009a23078474e;
  0x65a0ee39d1f73883; 0xf75ee937e42c3abd; 0x2197b2260113f86f; 0xa344edd1ef9fdee7;
  0x8ba0df15762592d9; 0x3c85f7f612dc42be; 0xd8a7ec7cab27b07e; 0x538d7ddaaa3ea8de;
  0xaa25ce93bd0269d8; 0x5af643fd1a7308f9; 0xc05fefda174a19a5; 0x974d66334cfd216a;
  0x35b49831db411570; 0xea1e0fbbedcd549b; 0x9ad063a151974072; 0xf6759dbf91476fe2].
Definition IV224 : list Z := C64e <$> [
  0x2dfedd62f99a98ac; 0xae7cacd619d634e7; 0xa4831005bc301216; 0xb86038c6c9661494;
  0x66d9899f2580706f; 0xce9ea31b1d9b1adc; 0x11e8325f7b366e10; 0xf994857f02fa06c1;
  0x1b4f1b5cd8c840b3; 0x97f6a17f6e738099; 0xdcdf93a5adeaa3d3; 0xa431e8dec9539a68;
  0x22b4a98aec86a1e4; 0xd574ac959ce56cf0; 0x15960deab5ab2bbf; 0x9611dcf0dd64ea6e].
Definition IV256 : list Z := C64e <$> [
  0xeb98a3412c20d3eb; 0x92cdbe7b9cb245c1; 0x1c93519160d4c7fa; 0x260082d67e508a03;
  0xa4239e267726b945; 0xe0fb1a48d41a9477; 0xcdb5ab26026b177a; 0x56f024420fff2fa8;
  0x71a396897f2e4d75; 0x1d144908f77de262; 0x277695f776248f94; 0x87d5b6574780296c;
  0x5c5e272dac8e0d6c; 0x518450c657057a0f; 0x7be4d367702412ea; 0x89e3ab13d31cd769].
Definition IV384 : list Z := C64e <$> [
  0x481e3bc6d813398a; 0x6d3b5e894ade879b; 0x63faea68d480ad2e; 0x332ccb21480f8267;
  0x98aec84d9082b928; 0xd455ea3041114249; 0x36f555b2924847ec; 0xc7250a93baf43ce1;
  0x569b7f8a27db454c; 0x9efcbd496397af0e; 0x589fc27d26aa80cd; 0x80c08b8c9deb2eda;
  0x8a7981e8f8d5373a; 0xf43967adddd17a71; 0xa9b4d3bda475d394; 0x976c3fba9842737f].
Definition IV512 : list Z := C64e <$> [
  0x6fd14b963e00aa17; 0x636a2e057a15d543; 0x8a225e8d0c97ef0b; 0xe9341259f2b3c361;
  0x891da0c1536f801e; 0x2aa9056bea2b6d80; 0x588eccdb2075baa6; 0xa90f3a76baf83bf7;
  0x0169e60541e34a69; 0x46b58a8e2e6fe65a; 0x1047a7d0c1843c24; 0x3b6e71b12d5ac199;
  0xcf57f6ec9db1f856; 0xa706887c5716b156; 0xe3c2fcdfe68517fb; 0x545a4678cc8cdd4b].

Definition Sb (c x0 x1 x2 x3 : Z) : Z * Z * Z * Z :=
  let x3 := not64 x3 in
  let x0 := Z.lxor x0 (Z.land c (not64 x2)) in
  let tmp := Z.lxor c (Z.land x0 x1) in
  let x0 := Z.lxor x0 (Z.land x2 x3) in
  let x3 := Z.lxor x3 (Z.land (not64 x1) x2) in
  let x1 := Z.lxor x1 (Z.land x0 x2) in
  let x2 := Z.lxor x2 (Z.land x0 (not64 x3)) in
  let x0 := Z.lxor x0 (Z.lor x1 x3) in
  let x3 := Z.lxor x3 (Z.land x1 x2) in
  let x1 := Z.lxor x1 (Z.land tmp x0) in
  let x2 := Z.lxor x2 tmp in
  (x0, x1, x2, x3).
Definition Lb (x0 x1 x2 x3 x4 x5 x6 x7 : Z) : Z * Z * Z * Z * (Z * Z * Z * Z) :=
  let x4 := Z.lxor x4 x1 in
  let x5 := Z.lxor x5 x2 in
  let x6 := Z.lxor x6 (Z.lxor x3 x0) in
  let x7 := Z.lxor x7 x0 in
  let x0 := Z.lxor x0 x5 in
  let x1 := Z.lxor x1 x6 in
  let x2 := Z.lxor x2 (Z.lxor x7 x4) in
  let x3 := Z.lxor x3 x4 in
  (x0, x1, x2, x3, (x4, x5, x6, x7)).

(** The variable [h<i>h] is word [2 i] of the state, [h<i>l] is word [2 i + 1]; the
    macros name a pair by [i], [s] is 0 for the high word. *)
Definition Sw (x0 x1 x2 x3 : nat) (c : Z) (s : nat) (H : list Z) : list Z :=
  let '(y0, y1, y2, y3) := Sb c (H !!! (2 * x0 + s)%nat) (H !!! (2 * x1 + s)%nat) (H !!! (2 * x2 + s)%nat) (H !!! (2 * x3 + s)%nat) in
  <[(2 * x3 + s)%nat := y3]> (<[(2 * x2 + s)%nat := y2]> (<[(2 * x1 + s)%nat := y1]> (<[(2 * x0 + s)%nat := y0]> H))).
Definition Ceven_ (r s : nat) : Z := C !!! (4 * r + s)%nat.
Definition Codd_ (r s : nat) : Z := C !!! (4 * r + 2 + s)%nat.
Definition S (x0 x1 x2 x3 : nat) (cb : nat -> nat -> Z) (r : nat) (H : list Z) : list Z :=
  Sw x0 x1 x2 x3 (cb r 1%nat) 1 (Sw x0 x1 x2 x3 (cb r 0%nat) 0 H).
Definition Lw (x0 x1 x2 x3 x4 x5 x6 x7 s : nat) (H : list Z) : list Z :=
  let w x := H !!! (2 * x + s)%nat in
  let '(y0, y1, y2, y3, (y4, y5, y6, y7)) := Lb (w x0) (w x1) (w x2) (w x3) (w x4) (w x5) (w x6) (w x7) in
  let H := <[(2 * x3 + s)%nat := y3]> (<[(2 * x2 + s)%nat := y2]> (<[(2 * x1 + s)%nat := y1]> (<[(2 * x0 + s)%nat := y0]> H))) in
  <[(2 * x7 + s)%nat := y7]> (<[(2 * x6 + s)%nat := y6]> (<[(2 * x5 + s)%nat := y5]> (<[(2 * x4 + s)%nat := y4]> H))).
Definition L (x0 x1 x2 x3 x4 x5 x6 x7 : nat) (H : list Z) : list Z :=
  Lw x0 x1 x2 x3 x4 x5 x6 x7 1 (Lw x0 x1 x2 x3 x4 x5 x6 x7 0 H).
Definition Wz_word (c n x : Z) : Z := let t := shl64 (Z.land x c) n in Z.lor (Z.land (Z.shiftr x n) c) t.
Definition Wz (x : nat) (c n : Z) (H : list Z) : list Z :=
  let H := <[(2 * x)%nat := Wz_word c n (H !!! (2 * x)%nat)]> H in
  <[(2 * x + 1)%nat := Wz_word c n (H !!! (2 * x + 1)%nat)]> H.
(** [W0 .. W6]. *)
Definition Wro (ro x : nat) (H : list Z) : list Z :=
  match ro with
  | 0%nat => Wz x 0x5555555555555555 1 H
  | 1%nat => Wz x 0x3333333333333333 2 H
  | 2%nat => Wz x 0x0F0F0F0F0F0F0F0F 4 H
  | 3%nat => Wz x 0x00FF00FF00FF00FF 8 H
  | 4%nat => Wz x 0x0000FFFF0000FFFF 16 H
  | 5%nat => Wz x 0x00000000FFFFFFFF 32 H
  | _ => let t := H !!! (2 * x)%nat in
         let H := <[(2 * x)%nat := H !!! (2 * x + 1)%nat]> H in
         <[(2 * x + 1)%nat := t]> H
  end.
Definition SLu (r ro : nat) (H : list Z) : list Z :=
  let H := S 0 2 4 6 Ceven_ r H in
  let H := S 1 3 5 7 Codd_ r H in
  let H := L 0 2 4 6 1 3 5 7 H in
  Wro ro 7 (Wro ro 5 (Wro ro 3 (Wro ro 1 H))).

(** [E8]: all rounds unrolled, or a loop over [r = 0, 7, .., 35] of seven rounds. *)
Definition E8_args : list (nat * nat) := [
  (0, 0); (1, 1); (2, 2); (3, 3); (4, 4); (5, 5); (6, 6); (7, 0); (8, 1); (9, 2); (10, 3); (11, 4); (12, 5); (13, 6);
  (14, 0); (15, 1); (16, 2); (17, 3); (18, 4); (19, 5); (20, 6); (21, 0); (22, 1); (23, 2); (24, 3); (25, 4); (26, 5); (27, 6);
  (28, 0); (29, 1); (30, 2); (31, 3); (32, 4); (33, 5); (34, 6); (35, 0); (36, 1); (37, 2); (38, 3); (39, 4); (40, 5); (41, 6)]%nat.
Definition SL (r ro : nat) (H : list Z) : list Z := SLu (r + ro) ro H.
Definition E8_small (H : list Z) : list Z :=
  foldl (fun H i => let r := (7 * i)%nat in SL r 6 (SL r 5 (SL r 4 (SL r 3 (SL r 2 (SL r 1 (SL r 0 H))))))) H (seq 0 6).
Definition E8 (footprint : bool) (H : list Z) : list Z :=
  if footprint then E8_small H else foldl (fun H a => SLu a.1 a.2 H) H E8_args.

Record jh_state := mk_jh { jH : list Z; block_count : Z }.
Definition jh_ctx := sph_ctx jh_state.

Section JhCode.
Context (footprint : bool).

Definition dec_buf (buf : list Z) : list Z := (fun i => le_load 8 (slice (8 * i) 8 buf)) <$> seq 0 8.
Definition INPUT_BUF1 (H m : list Z) : list Z := zip_with Z.lxor (take 8 H) m ++ drop 8 H.
Definition INPUT_BUF2 (H m : list Z) : list Z := take 8 H ++ zip_with Z.lxor (drop 8 H) m.
Definition jh_block (st : jh_state) (buf : list Z) : jh_state :=
  let m := dec_buf buf in
  mk_jh (INPUT_BUF2 (E8 footprint (INPUT_BUF1 (jH st) m)) m) (T64 (block_count st + 1)).
Definition jh_init (junk iv : list Z) : jh_ctx := mk_sph junk 0 (mk_jh iv 0).
Definition jh_core : jh_ctx -> list Z -> jh_ctx := sph_core 64 jh_block.

(** [stk] is what the 128-byte array on the stack holds. *)
Definition jh_close (stk : list Z) (sc : jh_ctx) (ub n : Z) (out_size_w32 : nat) : jh_ctx * list Z :=
  let buf := <[0%nat := final_byte ub n]> stk in
  let numz := if (sc_ptr sc =? 0)%nat && (n =? 0) then 47%nat else (111 - sc_ptr sc)%nat in
  let buf := memset0 buf 1 numz in
  let l0 := T64 (T64 (Z.shiftl (block_count (sc_st sc)) 9) + Z.shiftl (Z.of_nat (sc_ptr sc)) 3 + n) in
  let l1 := T64 (Z.shiftr (block_count (sc_st sc)) 55) in
  let buf := memcpy buf (numz + 1) (be_store 8 l1) in
  let buf := memcpy buf (numz + 9) (be_store 8 l0) in
  let sc := jh_core sc (take (numz + 17) buf) in
  let buf := foldl (fun buf u => memcpy buf (8 * u) (le_store 8 (jH (sc_st sc) !!! (u + 8)%nat))) buf (seq 0 8) in
  (sc, slice (4 * (16 - out_size_w32)) (4 * out_size_w32) buf).
End JhCode.

Section JhApi.
Context (footprint : bool).
Definition sph_jh224_init (junk : list Z) : jh_ctx := jh_init junk IV224.
Definition sph_jh224 : jh_ctx -> list Z -> jh_ctx := jh_core footprint.
Definition sph_jh224_close (stk : list Z) (cc : jh_ctx) : jh_ctx * list Z := jh_close footprint stk cc 0 0 7.
Definition sph_jh224_addbits_and_close (stk : list Z) (cc : jh_ctx) (ub n : Z) : jh_ctx * list Z := jh_close footprint stk cc ub n 7.
Definition sph_jh256_init (junk : list Z) : jh_ctx := jh_init junk IV256.
Definition sph_jh256 : jh_ctx -> list Z -> jh_ctx := jh_core footprint.
Definition sph_jh256_close (stk : list Z) (cc : jh_ctx) : jh_ctx * list Z := jh_close footprint stk cc 0 0 8.
Definition sph_jh256_addbits_and_close (stk : list Z) (cc : jh_ctx) (ub n : Z) : jh_ctx * list Z := jh_close footprint stk cc ub n 8.
Definition sph_jh384_init (junk : list Z) : jh_ctx := jh_init junk IV384.
Definition sph_jh384 : jh_ctx -> list Z -> jh_ctx := jh_core footprint.
Definition sph_jh384_close (stk : list Z) (cc : jh_ctx) : jh_ctx * list Z := jh_close footprint stk cc 0 0 12.
Definition sph_jh384_addbits_and_close (stk : list Z) (cc : jh_ctx) (ub n : Z) : jh_ctx * list Z := jh_close footprint stk cc ub n 12.
Definition sph_jh512_init (junk : list Z) : jh_ctx := jh_init junk IV512.
Definition sph_jh512 : jh_ctx -> list Z -> jh_ctx := jh_core footprint.
Definition sph_jh512_close (stk : list Z) (cc : jh_ctx) : jh_ctx * list Z := jh_close footprint stk cc 0 0 16.
Definition sph_jh512_addbits_and_close (stk : list Z) (cc : jh_ctx) (ub n : Z) : jh_ctx * list Z := jh_close footprint stk cc ub n 16.
End JhApi.

(** ** Reference *)

(** Elements are numbers below 16, their first bit the most significant one. *)
Definition S0 : list Z := [9; 0; 4; 11; 13; 12; 3; 15; 1; 10; 2; 6; 7; 5; 8; 14].
Definition S1 : list Z := [3; 12; 6; 13; 5; 7; 1; 9; 15; 2; 0; 4; 11; 10; 14; 8].
Definition sbox (c : bool) (x : Z) : Z := (if c then S1 else S0) !!! Z.to_nat x.
(** Multiplication by 2 in GF(16), polynomial [x^4 + x + 1]. *)
Definition mul2 (x : Z) : Z := if x <? 8 then 2 * x else Z.lxor (2 * x) 0x13.
(** Element [i] after the layers of S-boxes (selected by the constant [c]) and of the code. *)
Definition layers (c : nat -> bool) (a : nat -> Z) (i : nat) : Z :=
  let s j := sbox (c j) (a j) in
  if Nat.even i then Z.lxor (s i) (mul2 (Z.lxor (s (i + 1)%nat) (mul2 (s i))))
  else Z.lxor (s i) (mul2 (s (i - 1)%nat)).
(** [P_d] on [n = 2^d] elements: element [i] of the result is element [P n i] of the
    argument. *)
Definition pi_d (i : nat) : nat := match (i mod 4)%nat with 2%nat => i + 1 | 3%nat => i - 1 | _ => i end.
Definition P'_d (n i : nat) : nat := if (i <? n / 2)%nat then 2 * i else 2 * (i - n / 2) + 1.
Definition phi_d (n i : nat) : nat := if (i <? n / 2)%nat then i else if Nat.even i then i + 1 else i - 1.
Definition P (n i : nat) : nat := pi_d (P'_d n (phi_d n i)).
Definition R (n : nat) (c : nat -> bool) (a : list Z) : list Z := (fun i => layers c (fun j => a !!! j) (P n i)) <$> seq 0 n.
(** The constants: the first 256 bits of the fraction of the square root of 2, then
    one round of the function on 64 elements after the other. *)
Definition C0 : list Z := (fun i => T8 (Z.shiftr 0x6a09e667f3bcc908b2fb1366ea957d3e3adec17512775099da2f590b0667322a (4 * (63 - Z.of_nat i))) mod 16) <$> seq 0 64.
Definition next_C (c : list Z) : list Z := R 64 (fun _ => false) c.
Definition C_bit (c : list Z) (i : nat) : bool := Z.testbit (c !!! (i / 4)%nat) (3 - Z.of_nat (i mod 4)).
Definition nominal_round (ca : list Z * list Z) : list Z * list Z := (next_C ca.1, R 256 (C_bit ca.1) ca.2).
Definition num (b0 b1 b2 b3 : bool) : Z := 8 * Z.b2z b0 + 4 * Z.b2z b1 + 2 * Z.b2z b2 + Z.b2z b3.
Definition group (b : list bool) : list Z :=
  (fun i => let j := (i / 2 + 128 * (i mod 2))%nat in num (b !!! j) (b !!! (j + 256)%nat) (b !!! (j + 512)%nat) (b !!! (j + 768)%nat)) <$> seq 0 256.
Definition degroup (a : list Z) : list bool :=
  (fun k => let q := (k / 256)%nat in let j := (k mod 256)%nat in
     Z.testbit (a !!! (2 * (j mod 128) + j / 128)%nat) (3 - Z.of_nat q)) <$> seq 0 1024.
Definition E8_nominal (b : list bool) : list bool := degroup (Nat.iter 42 nominal_round (C0, group b)).2.

Definition bits_of (m : list Z) : list bool := (fun i => Z.testbit (m !!! (i / 8)%nat) (7 - Z.of_nat (i mod 8))) <$> seq 0 (8 * length m).
Definition bytes_of (b : list bool) : list Z :=
  (fun i => foldl (fun x j => 2 * x + Z.b2z (b !!! (8 * i + j)%nat)) 0 (seq 0 8)) <$> seq 0 (length b / 8).
Definition F8 (h : list bool) (m : list Z) : list bool :=
  let x := bits_of m in
  let h := E8_nominal (zip_with xorb h (x ++ replicate 512 false)) in
  zip_with xorb h (replicate 512 false ++ x).
(** The initial value for [k]-byte digests: one block of zeros from the digest length. *)
Definition jh_iv (k : nat) : list bool := F8 (bits_of (be_store 2 (8 * Z.of_nat k) ++ replicate 126 0)) (replicate 64 0).
Definition jh_pad (m : list Z) (ub n : Z) : list Z :=
  let r := (length m mod 64)%nat in
  m ++ last_bits ub n :: replicate (if (r =? 0)%nat && (n =? 0) then 47 else 111 - r) 0 ++ be_store 16 (8 * Z.of_nat (length m) + n).
Definition jh_digest (k : nat) (m : list Z) (ub n : Z) : list Z :=
  let h := foldl F8 (jh_iv k) (blocks 64 (jh_pad m ub n)) in
  bytes_of (drop (1024 - 8 * k) h).

(** ** The layers of a round, column by column *)

(** The element that bit [p] of the words [w], [w + 4], [w + 8], [w + 12] holds. *)
Definition colnum (H : list Z) (w : nat) (p : Z) : Z :=
  num (Z.testbit (H !!! w) p) (Z.testbit (H !!! (w + 4)%nat) p) (Z.testbit (H !!! (w + 8)%nat) p) (Z.testbit (H !!! (w + 12)%nat) p).

Lemma not64_bit x p : 0 <= p < 64 -> Z.testbit (not64 x) p = negb (Z.testbit x p).
Proof.
  intros Hp. unfold not64. rewrite Z.lxor_spec. change 0xFFFFFFFFFFFFFFFF with (Z.ones 64). rewrite Z.ones_spec_low by lia. apply xorb_true_r.
Qed.
(** The formula of [Sb] is the table lookup. *)
Lemma Sb_sbox c x0 x1 x2 x3 p :
  0 <= p < 64 ->
  let '(y0, y1, y2, y3) := Sb c x0 x1 x2 x3 in
  num (Z.testbit y0 p) (Z.testbit y1 p) (Z.testbit y2 p) (Z.testbit y3 p)
  = sbox (Z.testbit c p) (num (Z.testbit x0 p) (Z.testbit x1 p) (Z.testbit x2 p) (Z.testbit x3 p)).
Proof.
  intros Hp. unfold Sb. cbv zeta.
  repeat first [rewrite Z.lxor_spec | rewrite Z.land_spec | rewrite Z.lor_spec | rewrite not64_bit by done].
  destruct (Z.testbit c p), (Z.testbit x0 p), (Z.testbit x1 p), (Z.testbit x2 p), (Z.testbit x3 p); exact eq_refl.
Qed.
Lemma Lb_code x0 x1 x2 x3 x4 x5 x6 x7 p :
  let '(y0, y1, y2, y3, (y4, y5, y6, y7)) := Lb x0 x1 x2 x3 x4 x5 x6 x7 in
  let t x := Z.testbit x p in
  let a := num (t x0) (t x1) (t x2) (t x3) in
  let b := num (t x4) (t x5) (t x6) (t x7) in
  num (t y0) (t y1) (t y2) (t y3) = Z.lxor a (mul2 (Z.lxor b (mul2 a))) /\ num (t y4) (t y5) (t y6) (t y7) = Z.lxor b (mul2 a).
Proof.
  unfold Lb. cbv zeta. rewrite !Z.lxor_spec.
  destruct (Z.testbit x0 p), (Z.testbit x1 p), (Z.testbit x2 p), (Z.testbit x3 p), (Z.testbit x4 p), (Z.testbit x5 p), (Z.testbit x6 p), (Z.testbit x7 p);
    exact (conj eq_refl eq_refl).
Qed.

Ltac sixteen H := do 16 (destruct H as [|? H]; [discriminate|]); destruct H; [|discriminate].

(** What the macros leave in the words, by the half [s] and the pairs they work on. *)
Lemma S_layer r H w p :
  length H = 16%nat -> 0 <= p < 64 -> (w < 4)%nat ->
  let H' := S 1 3 5 7 Codd_ r (S 0 2 4 6 Ceven_ r H) in
  length H' = 16%nat /\ colnum H' w p = sbox (Z.testbit (C !!! (4 * r + w)%nat) p) (colnum H w p).
Proof.
  intros Hl Hp Hw. unfold S, Sw, Ceven_, Codd_.
  replace (4 * r + 2 + 0)%nat with (4 * r + 2)%nat by lia. replace (4 * r + 2 + 1)%nat with (4 * r + 3)%nat by lia.
  set (c0 := C !!! (4 * r + 0)%nat). set (c1 := C !!! (4 * r + 1)%nat). set (c2 := C !!! (4 * r + 2)%nat). set (c3 := C !!! (4 * r + 3)%nat).
  assert (Ec : C !!! (4 * r + w)%nat = [c0; c1; c2; c3] !!! w) by (do 4 (destruct w as [|w]; [done|]); lia). rewrite Ec. clearbody c0 c1 c2 c3. clear Ec.
  destruct H as [|h0 [|h1 [|h2 [|h3 [|h4 [|h5 [|h6 [|h7 [|h8 [|h9 [|h10 [|h11 [|h12 [|h13 [|h14 [|h15 [|]]]]]]]]]]]]]]]]]; try discriminate. clear Hl.
  pose proof (Sb_sbox c0 h0 h4 h8 h12 p Hp) as E0. pose proof (Sb_sbox c1 h1 h5 h9 h13 p Hp) as E1.
  pose proof (Sb_sbox c2 h2 h6 h10 h14 p Hp) as E2. pose proof (Sb_sbox c3 h3 h7 h11 h15 p Hp) as E3. cbn -[Sb sbox num] in *.
  destruct (Sb c0 h0 h4 h8 h12) as [[[? ?] ?] ?]. cbn -[Sb sbox num] in *. destruct (Sb c1 h1 h5 h9 h13) as [[[? ?] ?] ?]. cbn -[Sb sbox num] in *.
  destruct (Sb c2 h2 h6 h10 h14) as [[[? ?] ?] ?]. cbn -[Sb sbox num] in *. destruct (Sb c3 h3 h7 h11 h15) as [[[? ?] ?] ?]. cbn -[Sb sbox num] in *.
  split; [done|]. do 4 (destruct w as [|w]; [done|]). lia.
Qed.
Lemma L_layer H w p :
  length H = 16%nat -> (w < 2)%nat ->
  let H' := L 0 2 4 6 1 3 5 7 H in
  let a := colnum H w p in
  let b := colnum H (w + 2) p in
  length H' = 16%nat /\ colnum H' w p = Z.lxor a (mul2 (Z.lxor b (mul2 a))) /\ colnum H' (w + 2) p = Z.lxor b (mul2 a).
Proof.
  intros Hl Hw. unfold L, Lw.
  destruct H as [|h0 [|h1 [|h2 [|h3 [|h4 [|h5 [|h6 [|h7 [|h8 [|h9 [|h10 [|h11 [|h12 [|h13 [|h14 [|h15 [|]]]]]]]]]]]]]]]]]; try discriminate. clear Hl.
  pose proof (Lb_code h0 h4 h8 h12 h2 h6 h10 h14 p) as E0. pose proof (Lb_code h1 h5 h9 h13 h3 h7 h11 h15 p) as E1. cbn -[Lb mul2 num] in *.
  destruct (Lb h0 h4 h8 h12 h2 h6 h10 h14) as [[[[? ?] ?] ?] [[[? ?] ?] ?]]. cbn -[Lb mul2 num] in *.
  destruct (Lb h1 h5 h9 h13 h3 h7 h11 h15) as [[[[? ?] ?] ?] [[[? ?] ?] ?]]. cbn -[Lb mul2 num] in *.
  split; [done|]. do 2 (destruct w as [|w]; [done|]). lia.
Qed.

(** The swaps of bits: position [p] gets bit [p xor 2^ro]. *)
Definition mask (ro : nat) : Z :=
  [0x5555555555555555; 0x3333333333333333; 0x0F0F0F0F0F0F0F0F; 0x00FF00FF00FF00FF; 0x0000FFFF0000FFFF; 0x00000000FFFFFFFF] !!! ro.
Lemma Wz_swap ro x p : (ro < 6)%nat -> 0 <= p < 64 -> Z.testbit (Wz_word (mask ro) (2 ^ Z.of_nat ro) x) p = Z.testbit x (Z.lxor p (2 ^ Z.of_nat ro)).
Proof.
  intros Hro Hp. unfold Wz_word. cbv zeta. rewrite Z.lor_spec, Z.land_spec, Z.shiftr_spec by lia. unfold shl64. rewrite T64_mod, Z.mod_pow2_bits_low by lia.
  assert (Hn : 0 < 2 ^ Z.of_nat ro) by (apply Z.pow_pos_nonneg; lia).
  rewrite Z.shiftl_spec, Z.land_spec by lia.
  assert (Hchk : forallb (fun ro => forallb (fun q => let p := Z.of_nat q in let n := 2 ^ Z.of_nat ro in
     if Z.testbit (mask ro) p then (p + n =? Z.lxor p n) && negb (Z.testbit (mask ro) (p - n))
     else (p - n =? Z.lxor p n) && Z.testbit (mask ro) (p - n)) (seq 0 64)) (seq 0 6) = true) by (vm_compute; reflexivity).
  rewrite forallb_forall in Hchk. specialize (Hchk ro ltac:(apply in_seq; lia)). rewrite forallb_forall in Hchk.
  specialize (Hchk (Z.to_nat p) ltac:(apply in_seq; lia)). rewrite Z2Nat.id in Hchk by lia. cbv zeta in Hchk.
  destruct (Z.testbit (mask ro) p); apply andb_prop in Hchk as [E1 E2]; apply Z.eqb_eq in E1.
  - apply negb_true_iff in E2. rewrite E2, E1, andb_true_r, andb_false_r. apply orb_false_r.
  - rewrite E2, E1, andb_false_r, andb_true_r. done.
Qed.
Lemma W_layer ro H w p :
  (ro < 7)%nat -> length H = 16%nat -> 0 <= p < 64 -> (w < 2)%nat ->
  let H' := Wro ro 7 (Wro ro 5 (Wro ro 3 (Wro ro 1 H))) in
  length H' = 16%nat /\ colnum H' w p = colnum H w p /\
  colnum H' (w + 2) p = if (ro =? 6)%nat then colnum H (3 - w) p else colnum H (w + 2) (Z.lxor p (2 ^ Z.of_nat ro)).
Proof.
  intros Hro Hl Hp Hw.
  destruct H as [|h0 [|h1 [|h2 [|h3 [|h4 [|h5 [|h6 [|h7 [|h8 [|h9 [|h10 [|h11 [|h12 [|h13 [|h14 [|h15 [|]]]]]]]]]]]]]]]]]; try discriminate. clear Hl.
  pose proof (fun x (H : (ro < 6)%nat) => Wz_swap ro x p H Hp) as E.
  do 6 (destruct ro as [|ro]; [specialize (fun x => E x ltac:(lia)); unfold mask in E; cbn -[Wz_word Z.testbit Z.lxor num] in *; split; [done|];
    do 2 (destruct w as [|w]; [unfold colnum; cbn -[Wz_word Z.testbit Z.lxor num]; rewrite ?E; done|]); lia|]).
  destruct ro; [|lia]. cbn -[Z.testbit num]. split; [done|]. do 2 (destruct w as [|w]; [done|]). lia.
Qed.

(** ** A round on elements *)

Definition word_of (i : nat) : nat := (2 * (i mod 2) + i / 2 / 64)%nat.
Definition pos_of (i : nat) : Z := Z.lxor (Z.of_nat ((i / 2) mod 64)) 7.
(** Element [i] of the state, and the constant bit of round [r] that belongs to it. *)
Definition elt (H : list Z) (i : nat) : Z := colnum H (word_of i) (pos_of i).
Definition cbit (r i : nat) : bool := Z.testbit (C !!! (4 * r + word_of i)%nat) (pos_of i).
Definition sw (ro i : nat) : nat := if Nat.even i then i else (2 * Nat.lxor (i / 2) (2 ^ ro) + 1)%nat.

Lemma pos_of_bound i : 0 <= pos_of i < 64.
Proof.
  unfold pos_of. assert (Hm : ((i / 2) mod 64 < 64)%nat) by (apply Nat.mod_upper_bound; lia). set (q := ((i / 2) mod 64)%nat) in *. clearbody q.
  apply (word_lxor 6); [lia|unfold word; lia|unfold word; lia].
Qed.
(** The index facts of a swap, checked on all of them. *)
Definition sw_ok (ro i : nat) : bool :=
  let k := sw ro i in
  (word_of (2 * (i / 2)) =? i / 2 / 64)%nat && (word_of (2 * (i / 2) + 1) =? i / 2 / 64 + 2)%nat && (i / 2 / 64 <? 2)%nat &&
  (pos_of (2 * (i / 2)) =? pos_of i) && (pos_of (2 * (i / 2) + 1) =? pos_of i) &&
  (if Nat.even i then (i =? 2 * (i / 2))%nat && (k =? i)%nat
   else (i =? 2 * (i / 2) + 1)%nat && negb (Nat.even k) && (k <? 256)%nat &&
        (if (ro =? 6)%nat then (word_of k =? 5 - word_of i)%nat && (pos_of k =? pos_of i)
         else (word_of k =? word_of i)%nat && (pos_of k =? Z.lxor (pos_of i) (2 ^ Z.of_nat ro)))).
Lemma sw_ok_all : forallb (fun ro => forallb (sw_ok ro) (seq 0 256)) (seq 0 7) = true.
Proof. vm_compute. reflexivity. Qed.
Lemma sw_facts ro i : (ro < 7)%nat -> (i < 256)%nat -> sw_ok ro i = true.
Proof.
  intros Hro Hi. pose proof sw_ok_all as H. rewrite forallb_forall in H. specialize (H ro ltac:(apply in_seq; lia)).
  rewrite forallb_forall in H. apply H, in_seq. lia.
Qed.
Lemma length_SLu r ro H : (ro < 7)%nat -> length H = 16%nat -> length (SLu r ro H) = 16%nat.
Proof.
  intros Hro Hl. unfold SLu. cbv zeta. apply W_layer with (w := 0%nat) (p := 0); try done; [|lia].
  apply L_layer with (w := 0%nat) (p := 0); [|lia]. apply S_layer with (w := 0%nat) (p := 0); [done|lia|lia].
Qed.
(** The state before the swaps holds the elements after the S-boxes and the code. *)
Lemma layers_elt r H i :
  length H = 16%nat -> (i < 256)%nat ->
  let H' := L 0 2 4 6 1 3 5 7 (S 1 3 5 7 Codd_ r (S 0 2 4 6 Ceven_ r H)) in
  length H' = 16%nat /\ elt H' i = layers (cbit r) (elt H) i.
Proof.
  intros Hl Hi. cbv zeta. pose proof (sw_facts 0 i ltac:(lia) Hi) as F. unfold sw_ok in F. cbv zeta in F. repeat rewrite andb_true_iff in F.
  destruct F as [[[[[F1 F2] F3] F4] F5] F6]. apply Nat.eqb_eq in F1, F2. apply Nat.ltb_lt in F3. apply Z.eqb_eq in F4, F5.
  set (j := (i / 2)%nat) in *. set (w := (j / 64)%nat) in *.
  destruct (S_layer r H w (pos_of i) Hl (pos_of_bound i) ltac:(lia)) as [Hl1 Ea]. destruct (S_layer r H (w + 2) (pos_of i) Hl (pos_of_bound i) ltac:(lia)) as [_ Eb].
  set (H1 := S 1 3 5 7 Codd_ r _) in *. clearbody H1. destruct (L_layer H1 w (pos_of i) Hl1 F3) as (Hl2 & E1 & E2). split; [done|].
  set (H2 := L 0 2 4 6 1 3 5 7 H1) in *. clearbody H2. rewrite Ea, Eb in E1, E2. unfold layers, elt, cbit.
  destruct (Nat.even i) eqn:Ev; cycle 1.
  - repeat rewrite andb_true_iff in F6. destruct F6 as [[[F6 _] _] _]. apply Nat.eqb_eq in F6. replace (i - 1)%nat with (2 * j)%nat by lia. rewrite F1, F4. replace (word_of i) with (w + 2)%nat by by rewrite F6, <-F2. exact E2.
  - apply andb_prop in F6 as [F6 _]. apply Nat.eqb_eq in F6. replace (i + 1)%nat with (2 * j + 1)%nat by lia. rewrite F2, F5. replace (word_of i) with w by by rewrite F6, <-F1. exact E1.
Qed.
Lemma SLu_elt r ro H i :
  length H = 16%nat -> (ro < 7)%nat -> (i < 256)%nat -> elt (SLu r ro H) i = layers (cbit r) (elt H) (sw ro i).
Proof.
  intros Hl Hro Hi. pose proof (sw_facts ro i Hro Hi) as F. unfold sw_ok in F. cbv zeta in F. repeat rewrite andb_true_iff in F.
  destruct F as [[[[[F1 F2] F3] _] _] F6]. apply Nat.eqb_eq in F1, F2. apply Nat.ltb_lt in F3. unfold SLu. cbv zeta.
  set (H2 := L 0 2 4 6 1 3 5 7 _). assert (HE : forall k, (k < 256)%nat -> length H2 = 16%nat /\ elt H2 k = layers (cbit r) (elt H) k) by (intros k Hk; by apply layers_elt).
  clearbody H2. destruct (HE i Hi) as [Hl2 _]. destruct (W_layer ro H2 (i / 2 / 64) (pos_of i) Hro Hl2 (pos_of_bound i) F3) as (_ & E1 & E2).
  destruct (Nat.even i) eqn:Ev.
  - apply andb_prop in F6 as [F6 F7]. apply Nat.eqb_eq in F6, F7. rewrite F7, <-(proj2 (HE i Hi)).
    assert (Ew : word_of i = (i / 2 / 64)%nat) by (transitivity (word_of (2 * (i / 2))); [by rewrite <-F6|done]). unfold elt. by rewrite Ew, E1.
  - repeat rewrite andb_true_iff in F6. destruct F6 as [[[F6 _] F7] F8]. apply Nat.eqb_eq in F6. apply Nat.ltb_lt in F7.
    rewrite <-(proj2 (HE (sw ro i) F7)). assert (Ew : word_of i = (i / 2 / 64 + 2)%nat) by (transitivity (word_of (2 * (i / 2) + 1)); [by rewrite <-F6|done]).
    unfold elt at 1. rewrite Ew, E2. unfold elt. destruct (ro =? 6)%nat; apply andb_prop in F8 as [G1 G2]; apply Nat.eqb_eq in G1; apply Z.eqb_eq in G2; rewrite G1, G2.
    + f_equal. lia.
    + f_equal. lia.
Qed.

(** ** From swaps to the permutation of the submission *)

(** Before round [r] element [i] of the code is element [sigma i] of the submission;
    [sigma] keeps the pairs of the code together. *)
Definition P_inv : list nat := (fun k => default 0%nat (list_find (fun j => P 256 j = k) (seq 0 256) ≫= fun x => Some x.2)) <$> seq 0 256.
Definition next_sigma (ro : nat) (sg : list nat) : list nat := (fun i => P_inv !!! (sg !!! sw ro i)) <$> seq 0 256.
Definition round_ok (r ro : nat) (c : list Z) (sg : list nat) : bool :=
  let sg' := next_sigma ro sg in
  (ro <? 7)%nat && forallb (fun i =>
    Bool.eqb (cbit r i) (C_bit c (sg !!! i)) && (sg' !!! i <? 256)%nat && (P 256 (sg' !!! i) =? sg !!! sw ro i)%nat && (sw ro i <? 256)%nat &&
    Bool.eqb (Nat.even (sg !!! i)) (Nat.even i) && (if Nat.even i then (sg !!! (i + 1) =? sg !!! i + 1)%nat && (i + 1 <? 256)%nat
      else (sg !!! (i - 1) =? sg !!! i - 1)%nat)) (seq 0 256).
Fixpoint rounds_ok (args : list (nat * nat)) (c : list Z) (sg : list nat) : bool :=
  match args with
  | [] => bool_decide (sg = seq 0 256)
  | a :: args => round_ok a.1 a.2 c sg && rounds_ok args (next_C c) (next_sigma a.2 sg)
  end.
(** All 42 rounds: the constants of the code are the generated ones, moved along, and
    the permutations cancel out. *)
Lemma E8_rounds_ok : rounds_ok E8_args C0 (seq 0 256) = true.
Proof. vm_compute. reflexivity. Qed.

Definition aligned (H : list Z) (a : list Z) (sg : list nat) : Prop := forall i, (i < 256)%nat -> elt H i = a !!! (sg !!! i).
Lemma round_aligned r ro c sg H a :
  round_ok r ro c sg = true -> length H = 16%nat -> aligned H a sg ->
  (ro < 7)%nat /\ aligned (SLu r ro H) (R 256 (C_bit c) a) (next_sigma ro sg).
Proof.
  unfold round_ok. cbv zeta. rewrite andb_true_iff, forallb_forall. intros [Hro F] Hl Ha. apply Nat.ltb_lt in Hro. split; [done|]. intros i Hi.
  assert (HF : forall k, (k < 256)%nat -> _) by (intros k Hk; exact (F k ltac:(apply in_seq; lia))). clear F.
  rewrite SLu_elt by done. pose proof (HF i Hi) as F. repeat rewrite andb_true_iff in F. destruct F as [[[[[_ F2] F3] F4] _] _].
  apply Nat.ltb_lt in F2, F4. apply Nat.eqb_eq in F3. unfold R. rewrite lookup_fmap_seq by done. rewrite F3.
  set (k := sw ro i) in *. clearbody k. pose proof (HF k F4) as F. repeat rewrite andb_true_iff in F. destruct F as [[[[[G1 _] _] _] G5] G6].
  apply eqb_prop in G1, G5. unfold layers. rewrite G5, (Ha k F4), G1. destruct (Nat.even k) eqn:Ev.
  - apply andb_prop in G6 as [G6 G7]. apply Nat.eqb_eq in G6. apply Nat.ltb_lt in G7. rewrite <-G6. pose proof (HF (k + 1)%nat G7) as F.
    repeat rewrite andb_true_iff in F. destruct F as [[[[[K1 _] _] _] _] _]. apply eqb_prop in K1. by rewrite K1, (Ha _ G7).
  - apply Nat.eqb_eq in G6. rewrite <-G6. assert (Hk : (k - 1 < 256)%nat) by lia. pose proof (HF (k - 1)%nat Hk) as F.
    repeat rewrite andb_true_iff in F. destruct F as [[[[[K1 _] _] _] _] _]. apply eqb_prop in K1. by rewrite K1, (Ha _ Hk).
Qed.
Lemma rounds_aligned args c sg H a :
  rounds_ok args c sg = true -> length H = 16%nat -> aligned H a sg ->
  let H' := foldl (fun H a => SLu a.1 a.2 H) H args in
  length H' = 16%nat /\ forall i, (i < 256)%nat -> elt H' i = (Nat.iter (length args) nominal_round (c, a)).2 !!! i.
Proof.
  revert c sg H a. induction args as [|[r ro] args IH]; intros c sg H a.
  - cbn. intros E Hl Ha. apply bool_decide_eq_true in E. split; [done|]. intros i Hi. rewrite (Ha i Hi), E.
    by rewrite (list_lookup_total_correct (seq 0 256) i i) by by apply lookup_seq.
  - cbn [rounds_ok foldl length fst snd]. rewrite andb_true_iff. intros [E1 E2] Hl Ha. destruct (round_aligned _ _ _ _ _ _ E1 Hl Ha) as [Hro Ha'].
    rewrite Nat.iter_succ_r. change (nominal_round (c, a)) with (next_C c, R 256 (C_bit c) a).
    exact (IH _ _ _ _ E2 (length_SLu r ro H Hro Hl) Ha').
Qed.

(** ** States as bit strings *)

Definition state_bits (H : list Z) : list bool := (fun i => Z.testbit (H !!! (i / 64)%nat) (Z.lxor (Z.of_nat (i mod 64)) 7)) <$> seq 0 1024.
Lemma state_bits_lookup H i : (i < 1024)%nat -> state_bits H !!! i = Z.testbit (H !!! (i / 64)%nat) (Z.lxor (Z.of_nat (i mod 64)) 7).
Proof. intros Hi. unfold state_bits. by rewrite lookup_fmap_seq. Qed.
Lemma group_elt H i : (i < 256)%nat -> group (state_bits H) !!! i = elt H i.
Proof.
  intros Hi. unfold group. rewrite lookup_fmap_seq by done. cbv zeta. set (j := (i / 2 + 128 * (i mod 2))%nat).
  assert (Hm : (i mod 2 < 2)%nat) by (apply Nat.mod_upper_bound; lia). assert (Hd : (i / 2 < 128)%nat) by (apply Nat.Div0.div_lt_upper_bound; lia).
  assert (Hw : forall q, ((j + 256 * q) / 64 = word_of i + 4 * q)%nat) by (intros q; unfold j, word_of; symmetry; apply (Nat.div_unique _ 64 _ ((i / 2) mod 64)); [apply Nat.mod_upper_bound; lia|pose proof (Nat.div_mod (i / 2) 64); lia]).
  assert (Hp : forall q, Z.lxor (Z.of_nat ((j + 256 * q) mod 64)) 7 = pos_of i).
  { intros q. unfold pos_of. do 2 f_equal. unfold j. replace (i / 2 + 128 * (i mod 2) + 256 * q)%nat with (i / 2 + (2 * (i mod 2) + 4 * q) * 64)%nat by lia. apply Nat.Div0.mod_add. }
  unfold elt, colnum. f_equal; (rewrite state_bits_lookup by (unfold j; lia)).
  - pose proof (Hw 0%nat) as E. rewrite Nat.mul_0_r, !Nat.add_0_r in E. rewrite E. pose proof (Hp 0%nat) as E'. rewrite Nat.mul_0_r, Nat.add_0_r in E'. by rewrite E'.
  - by rewrite (Hw 1%nat : ((j + 256) / 64 = word_of i + 4)%nat), (Hp 1%nat : Z.lxor (Z.of_nat ((j + 256) mod 64)) 7 = pos_of i).
  - by rewrite (Hw 2%nat : ((j + 512) / 64 = word_of i + 8)%nat), (Hp 2%nat : Z.lxor (Z.of_nat ((j + 512) mod 64)) 7 = pos_of i).
  - by rewrite (Hw 3%nat : ((j + 768) / 64 = word_of i + 12)%nat), (Hp 3%nat : Z.lxor (Z.of_nat ((j + 768) mod 64)) 7 = pos_of i).
Qed.
Lemma num_bit b0 b1 b2 b3 q :
  (q < 4)%nat -> Z.testbit (num b0 b1 b2 b3) (3 - Z.of_nat q) = [b0; b1; b2; b3] !!! q.
Proof. intros Hq. do 4 (destruct q as [|q]; [destruct b0, b1, b2, b3; exact eq_refl|]). lia. Qed.
Lemma degroup_elts H a : (forall i, (i < 256)%nat -> elt H i = a !!! i) -> degroup a = state_bits H.
Proof.
  intros E. unfold degroup, state_bits. apply list_fmap_ext. intros n k Hk. apply lookup_seq in Hk as [-> Hk]. cbn [Nat.add]. cbv zeta.
  set (q := (n / 256)%nat). set (j := (n mod 256)%nat). assert (Hj : (j < 256)%nat) by (apply Nat.mod_upper_bound; lia).
  assert (Hq : (q < 4)%nat) by (apply Nat.Div0.div_lt_upper_bound; lia). assert (Hn : n = (256 * q + j)%nat) by apply Nat.div_mod_eq.
  assert (H2 : (j / 128 < 2)%nat) by (apply Nat.Div0.div_lt_upper_bound; lia). assert (H128 : (j mod 128 < 128)%nat) by (apply Nat.mod_upper_bound; lia).
  pose proof (Nat.div_mod_eq j 128) as Ej. set (e := (j / 128)%nat) in *. set (b := (j mod 128)%nat) in *. set (i := (2 * b + e)%nat).
  assert (Ei2 : (i / 2 = b)%nat) by (symmetry; apply (Nat.div_unique _ 2 _ e); lia). assert (Eim : (i mod 2 = e)%nat) by (symmetry; apply (Nat.mod_unique _ 2 b); lia).
  rewrite <-E by lia. unfold elt, colnum. rewrite num_bit by done.
  assert (Ew : (n / 64 = word_of i + 4 * q)%nat).
  { unfold word_of. rewrite Ei2, Eim. symmetry. apply (Nat.div_unique _ 64 _ (b mod 64)); [apply Nat.mod_upper_bound; lia|]. pose proof (Nat.div_mod_eq b 64). lia. }
  assert (Ep : Z.lxor (Z.of_nat (n mod 64)) 7 = pos_of i).
  { unfold pos_of. rewrite Ei2. do 2 f_equal. replace n with (b + (4 * q + 2 * e) * 64)%nat by lia. apply Nat.Div0.mod_add. }
  rewrite Ew, Ep. clear - Hq. do 4 (destruct q as [|q]; [try rewrite Nat.mul_0_r, Nat.add_0_r; done|]). lia.
Qed.

#[local] Opaque SLu nominal_round C0.
(** The two builds run the same rounds. *)
Lemma E8_builds f H : E8 f H = foldl (fun H a => SLu a.1 a.2 H) H E8_args.
Proof. destruct f; [|done]. exact eq_refl. Qed.
Lemma E8_ref f H : length H = 16%nat -> length (E8 f H) = 16%nat /\ state_bits (E8 f H) = E8_nominal (state_bits H).
Proof.
  intros Hl. rewrite E8_builds. destruct (rounds_aligned E8_args C0 (seq 0 256) H (group (state_bits H)) E8_rounds_ok Hl) as [Hl' E].
  { intros i Hi. rewrite (list_lookup_total_correct (seq 0 256) i i) by by apply lookup_seq. by rewrite group_elt. }
  split; [exact Hl'|]. unfold E8_nominal. symmetry. apply degroup_elts. exact E.
Qed.

(** ** Blocks *)

Lemma testbit_byte x k j : (j < 8)%nat -> Z.testbit x (8 * Z.of_nat k + Z.of_nat j) = Z.testbit (T8 (Z.shiftr x (8 * Z.of_nat k))) (Z.of_nat j).
Proof.
  intros Hj. rewrite T8_mod, Z.mod_pow2_bits_low, Z.shiftr_spec by lia. f_equal. lia.
Qed.
Lemma pos_split i : (i < 64)%nat -> Z.lxor (Z.of_nat i) 7 = 8 * Z.of_nat (i / 8) + Z.of_nat (7 - i mod 8).
Proof.
  intros Hi. assert (H : forallb (fun i => Z.lxor (Z.of_nat i) 7 =? 8 * Z.of_nat (i / 8) + Z.of_nat (7 - i mod 8)) (seq 0 64) = true) by (vm_compute; reflexivity).
  rewrite forallb_forall in H. apply Z.eqb_eq, H, in_seq. lia.
Qed.
Lemma dec_bit buf i :
  bytes buf -> length buf = 64%nat -> (i < 512)%nat ->
  Z.testbit (dec_buf buf !!! (i / 64)%nat) (Z.lxor (Z.of_nat (i mod 64)) 7) = Z.testbit (buf !!! (i / 8)%nat) (7 - Z.of_nat (i mod 8)).
Proof.
  intros Hb Hl Hi. assert (Hm : (i mod 64 < 64)%nat) by (apply Nat.mod_upper_bound; lia). assert (Hm8 : (i mod 8 < 8)%nat) by (apply Nat.mod_upper_bound; lia).
  assert (Hw : (i / 64 < 8)%nat) by (apply Nat.Div0.div_lt_upper_bound; lia).
  assert (E8m : ((i mod 64) mod 8 = i mod 8)%nat).
  { apply (Nat.mod_unique _ 8 (8 * (i / 64) + i mod 64 / 8)); [apply Nat.mod_upper_bound; lia|]. pose proof (Nat.div_mod_eq i 64). pose proof (Nat.div_mod_eq (i mod 64) 8). lia. }
  assert (E8d : (i / 8 = 8 * (i / 64) + i mod 64 / 8)%nat).
  { symmetry. apply (Nat.div_unique _ 8 _ (i mod 8)); [done|]. pose proof (Nat.div_mod_eq i 64). pose proof (Nat.div_mod_eq (i mod 64) 8). lia. }
  assert (Hk : (i mod 64 / 8 < 8)%nat) by (apply Nat.Div0.div_lt_upper_bound; lia).
  rewrite pos_split, E8m by done. rewrite testbit_byte by lia. unfold dec_buf. rewrite lookup_fmap_seq by done. unfold le_load.
  rewrite gather_byte by (done || (intros; apply bytes_lookup; by apply Forall_take, Forall_drop)).
  rewrite E8d. replace (Z.of_nat (7 - i mod 8)) with (7 - Z.of_nat (i mod 8)) by lia. f_equal.
  unfold slice. rewrite lookup_total_take_lt by done. by rewrite lookup_total_drop.
Qed.
Lemma lookup_xor (a b : list bool) i : length a = length b -> (i < length a)%nat -> zip_with xorb a b !!! i = xorb (a !!! i) (b !!! i).
Proof.
  intros Hl Hi. apply list_lookup_total_correct. rewrite lookup_zip_with, (list_lookup_lookup_total_lt a i Hi), (list_lookup_lookup_total_lt b i) by lia. done.
Qed.
Lemma length_state_bits H : length (state_bits H) = 1024%nat.
Proof. unfold state_bits. by rewrite length_fmap, length_seq. Qed.
Lemma length_bits_of m : length (bits_of m) = (8 * length m)%nat.
Proof. unfold bits_of. by rewrite length_fmap, length_seq. Qed.
Lemma length_dec_buf buf : length (dec_buf buf) = 8%nat.
Proof. exact eq_refl. Qed.
(** Xoring words into half of the state. *)
Lemma xor_words_bits (H m : list Z) x :
  length H = 16%nat -> length m = 16%nat -> (forall i, (i < 1024)%nat -> Z.testbit (m !!! (i / 64)%nat) (Z.lxor (Z.of_nat (i mod 64)) 7) = x !!! i) -> length x = 1024%nat ->
  state_bits (zip_with Z.lxor H m) = zip_with xorb (state_bits H) x.
Proof.
  intros HH Hm Hx Hlx. apply list_eq_total; [by rewrite length_zip_with, !length_state_bits, Hlx|]. rewrite length_state_bits. intros i Hi.
  rewrite lookup_xor by (rewrite length_state_bits; lia). rewrite !state_bits_lookup by done. rewrite <-Hx by done.
  assert (Hw : (i / 64 < 16)%nat) by (apply Nat.Div0.div_lt_upper_bound; lia).
  rewrite (list_lookup_total_correct (zip_with Z.lxor H m) (i / 64) (Z.lxor (H !!! (i / 64)%nat) (m !!! (i / 64)%nat))); [apply Z.lxor_spec|].
  rewrite lookup_zip_with, (list_lookup_lookup_total_lt H (i / 64)), (list_lookup_lookup_total_lt m (i / 64)) by lia. done.
Qed.
Lemma zip_zeros (l : list Z) n : length l = n -> zip_with Z.lxor l (replicate n 0) = l.
Proof. intros <-. induction l as [|x l IH]; [done|]. cbn. by rewrite Z.lxor_0_r, IH. Qed.
Lemma input1 H m : length H = 16%nat -> length m = 8%nat -> INPUT_BUF1 H m = zip_with Z.lxor H (m ++ replicate 8 0).
Proof.
  intros HH Hm. unfold INPUT_BUF1. rewrite <-(take_drop 8 H) at 3. rewrite zip_with_app by (rewrite length_take; lia).
  by rewrite zip_zeros by (rewrite length_drop; lia).
Qed.
Lemma input2 H m : length H = 16%nat -> length m = 8%nat -> INPUT_BUF2 H m = zip_with Z.lxor H (replicate 8 0 ++ m).
Proof.
  intros HH Hm. unfold INPUT_BUF2. rewrite <-(take_drop 8 H) at 3. rewrite zip_with_app by (rewrite length_take, length_replicate; lia).
  by rewrite zip_zeros by (rewrite length_take; lia).
Qed.
Lemma buf_bits_low buf i :
  bytes buf -> length buf = 64%nat -> (i < 1024)%nat ->
  Z.testbit ((dec_buf buf ++ replicate 8 0) !!! (i / 64)%nat) (Z.lxor (Z.of_nat (i mod 64)) 7) = (bits_of buf ++ replicate 512 false) !!! i.
Proof.
  intros Hb Hl Hi. destruct (decide (i < 512)%nat).
  - assert (Hw : (i / 64 < 8)%nat) by (apply Nat.Div0.div_lt_upper_bound; lia). rewrite !lookup_total_app_l by (rewrite ?length_bits_of, ?length_dec_buf; lia).
    rewrite dec_bit by done. unfold bits_of. by rewrite lookup_fmap_seq by lia.
  - assert (Hw : (8 <= i / 64 < 16)%nat) by (split; [apply Nat.div_le_lower_bound|apply Nat.Div0.div_lt_upper_bound]; lia).
    rewrite !lookup_total_app_r by (rewrite ?length_bits_of, ?length_dec_buf; lia). rewrite length_bits_of, length_dec_buf.
    rewrite !lookup_total_replicate_2 by lia. apply Z.testbit_0_l.
Qed.
Lemma buf_bits_high buf i :
  bytes buf -> length buf = 64%nat -> (i < 1024)%nat ->
  Z.testbit ((replicate 8 0 ++ dec_buf buf) !!! (i / 64)%nat) (Z.lxor (Z.of_nat (i mod 64)) 7) = (replicate 512 false ++ bits_of buf) !!! i.
Proof.
  intros Hb Hl Hi. destruct (decide (i < 512)%nat).
  - assert (Hw : (i / 64 < 8)%nat) by (apply Nat.Div0.div_lt_upper_bound; lia). rewrite !lookup_total_app_l by (rewrite ?length_replicate; lia).
    rewrite !lookup_total_replicate_2 by lia. apply Z.testbit_0_l.
  - assert (Hw : (8 <= i / 64 < 16)%nat) by (split; [apply Nat.div_le_lower_bound|apply Nat.Div0.div_lt_upper_bound]; lia).
    rewrite !lookup_total_app_r by (rewrite ?length_replicate; lia). rewrite !length_replicate.
    assert (Ed : (i / 64 - 8 = (i - 512) / 64)%nat) by (apply (Nat.div_unique _ 64 _ (i mod 64)); [apply Nat.mod_upper_bound; lia|pose proof (Nat.div_mod_eq i 64); lia]).
    assert (Em : (i mod 64 = (i - 512) mod 64)%nat) by (apply (Nat.mod_unique _ 64 (i / 64 - 8)); [apply Nat.mod_upper_bound; lia|pose proof (Nat.div_mod_eq i 64); lia]).
    rewrite Ed, Em, dec_bit by (done || lia). unfold bits_of. by rewrite lookup_fmap_seq by lia.
Qed.
Lemma jh_block_ref f st buf :
  bytes buf -> length buf = 64%nat -> length (jH st) = 16%nat ->
  let st' := jh_block f st buf in
  length (jH st') = 16%nat /\ state_bits (jH st') = F8 (state_bits (jH st)) buf /\ block_count st' = T64 (block_count st + 1).
Proof.
  intros Hb Hl HH. unfold jh_block. cbv zeta. cbn [jH block_count].
  rewrite input1 by (done || apply length_dec_buf). set (m1 := dec_buf buf ++ replicate 8 0).
  destruct (E8_ref f (zip_with Z.lxor (jH st) m1)) as [Hl1 E1]; [by rewrite length_zip_with, HH|].
  rewrite input2 by (done || apply length_dec_buf). split; [by rewrite length_zip_with, Hl1|]. split; [|done].
  rewrite (xor_words_bits _ _ (replicate 512 false ++ bits_of buf)); [|done|exact eq_refl|intros i Hi; by apply buf_bits_high|by rewrite length_app, length_replicate, length_bits_of, Hl].
  rewrite E1. rewrite (xor_words_bits _ _ (bits_of buf ++ replicate 512 false)); [done|done|exact eq_refl|intros i Hi; by apply buf_bits_low|].
  by rewrite length_app, length_replicate, length_bits_of, Hl.
Qed.

(** ** Digests *)

Lemma byte_sum y : word 8 y -> foldl (fun x j => 2 * x + Z.b2z (Z.testbit y (7 - Z.of_nat j))) 0 (seq 0 8) = y.
Proof. intros Hy. apply Z.eqb_eq. revert y Hy. apply all_bytes_spec. vm_compute. reflexivity. Qed.
Lemma state_byte H i :
  (i < 128)%nat -> foldl (fun x j => 2 * x + Z.b2z (state_bits H !!! (8 * i + j)%nat)) 0 (seq 0 8) = T8 (Z.shiftr (H !!! (i / 8)%nat) (8 * Z.of_nat (i mod 8))).
Proof.
  intros Hi. set (y := T8 _). rewrite <-(byte_sum y) by apply word_T8. apply foldl_ext_seq. intros a j Hj. do 2 f_equal.
  assert (Hm : (i mod 8 < 8)%nat) by (apply Nat.mod_upper_bound; lia). pose proof (Nat.div_mod_eq i 8) as Ei.
  assert (Ed : ((8 * i + j) / 64 = i / 8)%nat) by (symmetry; apply (Nat.div_unique _ 64 _ (8 * (i mod 8) + j)); lia).
  assert (Em : ((8 * i + j) mod 64 = 8 * (i mod 8) + j)%nat) by (symmetry; apply (Nat.mod_unique _ 64 (i / 8)); lia).
  rewrite state_bits_lookup by lia. rewrite Ed, Em, pos_split by lia.
  assert (Ed' : ((8 * (i mod 8) + j) / 8 = i mod 8)%nat) by (symmetry; apply (Nat.div_unique _ 8 _ j); lia).
  assert (Em' : ((8 * (i mod 8) + j) mod 8 = j)%nat) by (symmetry; apply (Nat.mod_unique _ 8 (i mod 8)); lia).
  rewrite Ed', Em', testbit_byte by lia. unfold y. f_equal. f_equal. lia.
Qed.
Lemma digest_bytes H w :
  (w <= 16)%nat ->
  bytes_of (drop (1024 - 8 * (4 * w)) (state_bits H)) = slice (4 * (16 - w)) (4 * w) (flat_map (fun u => le_store 8 (H !!! (u + 8)%nat)) (seq 0 8)).
Proof.
  intros Hw. set (F := flat_map _ _). assert (HF : length F = 64%nat) by (apply (length_flat_seq _ 8); intros; apply length_le_store).
  unfold bytes_of, slice. rewrite length_drop, length_state_bits. replace ((1024 - (1024 - 8 * (4 * w))) / 8)%nat with (4 * w)%nat.
  2: { replace (1024 - (1024 - 8 * (4 * w)))%nat with (4 * w * 8)%nat by lia. by rewrite Nat.div_mul. }
  apply list_eq_total; [rewrite length_fmap, length_seq, length_take, length_drop; lia|]. rewrite length_fmap, length_seq. intros i Hi.
  rewrite lookup_fmap_seq, lookup_total_take_lt, lookup_total_drop by done. unfold F. rewrite (lookup_flat_seq _ 8) by (intros; apply length_le_store || lia).
  set (j := (4 * (16 - w) + i)%nat). assert (Hj : (j < 64)%nat) by (unfold j; lia).
  assert (Hm : (j mod 8 < 8)%nat) by (apply Nat.mod_upper_bound; lia). unfold le_store. rewrite tabulate_lookup by done.
  assert (Ed : ((64 + j) / 8 = j / 8 + 8)%nat) by (replace (64 + j)%nat with (j + 8 * 8)%nat by lia; by rewrite Nat.div_add).
  assert (Em : ((64 + j) mod 8 = j mod 8)%nat) by (replace (64 + j)%nat with (j + 8 * 8)%nat by lia; by rewrite Nat.Div0.mod_add).
  rewrite <-Ed, <-Em, <-state_byte by lia. apply foldl_ext_seq. intros a k Hk. rewrite lookup_total_drop.
  assert (Ek : (1024 - 8 * (4 * w) + (8 * i + k) = 8 * (64 + j) + k)%nat) by (unfold j; lia). by rewrite Ek.
Qed.

(** ** Streams *)

Lemma length_F8 h m : length h = 1024%nat -> length m = 64%nat -> length (F8 h m) = 1024%nat.
Proof.
  intros Hh Hm. unfold F8, E8_nominal, degroup. rewrite length_zip_with, length_fmap, length_seq, length_app, length_replicate, length_bits_of, Hm. done.
Qed.
Lemma fold_jh f bs st :
  length (jH st) = 16%nat -> Forall (fun b => bytes b /\ length b = 64%nat) bs -> 0 <= block_count st -> block_count st + Z.of_nat (length bs) < 2 ^ 64 ->
  let st' := foldl (jh_block f) st bs in
  length (jH st') = 16%nat /\ state_bits (jH st') = foldl F8 (state_bits (jH st)) bs /\ block_count st' = block_count st + Z.of_nat (length bs).
Proof.
  revert st. induction bs as [|b bs IH]; intros st HH Hbs H0 Hc; [cbn; split_and!; [done|done|lia]|]. apply list.Forall_cons in Hbs as [[Hb Hl] Hbs].
  cbn [foldl length] in *. destruct (jh_block_ref f st b Hb Hl HH) as (H1 & E1 & C1). rewrite T64_id in C1 by (unfold word; lia).
  destruct (IH (jh_block f st b) H1 Hbs) as (H2 & E2 & C2); [lia|lia|]. rewrite E2, E1, C2, C1. split_and!; [done|done|lia].
Qed.
Lemma jh_iv_ref :
  state_bits IV224 = jh_iv 28 /\ state_bits IV256 = jh_iv 32 /\ state_bits IV384 = jh_iv 48 /\ state_bits IV512 = jh_iv 64.
Proof. vm_compute. done. Qed.
(** The length field: the block counter in bits, and the buffered bits. *)
Lemma jh_length_field bc ptr n :
  0 <= bc < 2 ^ 64 -> (ptr < 64)%nat -> 0 <= n < 8 ->
  be_store 8 (T64 (Z.shiftr bc 55)) ++ be_store 8 (T64 (T64 (Z.shiftl bc 9) + Z.shiftl (Z.of_nat ptr) 3 + n)) = be_store 16 (512 * bc + 8 * Z.of_nat ptr + n).
Proof.
  intros Hbc Hp Hn. rewrite (be_store_app 8 8), !be_store_T64. f_equal; [f_equal|].
  - rewrite !Z.shiftr_div_pow2 by lia. change (8 * Z.of_nat 8) with 64. change (2 ^ 64) with (2 ^ 55 * 2 ^ 9). rewrite (Z.mul_comm (2 ^ 55)), <-Z.div_div by lia.
    f_equal. replace (512 * bc + 8 * Z.of_nat ptr + n) with (8 * Z.of_nat ptr + n + bc * 2 ^ 9) by lia. rewrite Z.div_add, Z.div_small by lia. lia.
  - rewrite <-(be_store_T64 (512 * bc + _ + n)), <-(be_store_T64 (T64 _ + _ + _)). f_equal. rewrite !T64_mod. rewrite Z.shiftl_mul_pow2, Z.shiftl_mul_pow2 by lia.
    rewrite <-Z.add_assoc, Z.add_mod_idemp_l by lia. f_equal. lia.
Qed.
(** What closing feeds to the update function. *)
Lemma closing_bytes stk ub n numz a b :
  length stk = 128%nat -> (numz <= 111)%nat -> length a = 8%nat -> length b = 8%nat ->
  let buf := memset0 (<[0%nat := last_bits ub n]> stk) 1 numz in
  let buf' := memcpy (memcpy buf (numz + 1) a) (numz + 9) b in
  length buf' = 128%nat /\ take (numz + 17) buf' = last_bits ub n :: replicate numz 0 ++ a ++ b.
Proof.
  intros Hs Hn Ha Hb buf buf'. assert (Hl : length buf = 128%nat) by (unfold buf, memset0; rewrite length_memcpy; rewrite length_insert, ?length_replicate; lia).
  assert (Hl' : length (memcpy buf (numz + 1) a) = 128%nat) by (rewrite length_memcpy; lia).
  split; [unfold buf'; rewrite length_memcpy; lia|]. unfold buf'.
  replace (numz + 17)%nat with (numz + 9 + length b)%nat by lia. rewrite take_memcpy by lia. replace (numz + 9)%nat with (numz + 1 + length a)%nat by lia.
  rewrite take_memcpy by lia. unfold buf, memset0. pose proof (take_memcpy (<[0%nat := last_bits ub n]> stk) 1 (replicate numz 0)) as E.
  rewrite length_replicate, length_insert in E. replace (numz + 1)%nat with (1 + numz)%nat by lia. rewrite E by lia. destruct stk; [discriminate|].
  cbn. by rewrite take_0, <-app_assoc.
Qed.
#[local] Opaque F8 jh_iv.
Lemma blocks_wf m : bytes m -> Forall (fun b => bytes b /\ length b = 64%nat) (blocks 64 m).
Proof. intros Hm. apply Forall_and; [by apply blocks_bytes|apply blocks_length; lia]. Qed.
(** The context after a message: its bits, and the number of its blocks. *)
Lemma jh_context f junk iv pieces :
  length junk = 64%nat -> length iv = 16%nat -> bytes (concat pieces) -> Z.of_nat (length (concat pieces)) < 2 ^ 65 ->
  let m := concat pieces in
  let c := foldl (jh_core f) (jh_init junk iv) pieces in
  sc_ptr c = (length m mod 64)%nat /\ length (jH (sc_st c)) = 16%nat /\
  state_bits (jH (sc_st c)) = foldl F8 (state_bits iv) (blocks 64 m) /\ block_count (sc_st c) = Z.of_nat (length m / 64).
Proof.
  intros Hj Hiv Hb HL m c. destruct (sph_pieces_spec 64 (jh_block f) ltac:(lia) junk (mk_jh iv 0) pieces Hj) as (_ & Es & Ep & _).
  split; [exact Ep|]. change (sc_st c = foldl (jh_block f) (mk_jh iv 0) (blocks 64 m)) in Es. clear Ep. clearbody c.
  assert (Hlen : length (blocks 64 m) = (length m / 64)%nat).
  { unfold blocks. generalize (length m / 64)%nat. intros j. generalize m. induction j as [|j IH]; intros m0; [done|]. cbn [nblocks length]. by rewrite IH. }
  destruct (fold_jh f (blocks 64 m) (mk_jh iv 0) Hiv (blocks_wf m Hb)) as (H1 & H2 & H3).
  { cbn. lia. } { cbn [block_count]. rewrite Hlen. fold m in HL. pose proof (Nat.Div0.mul_div_le (length m) 64). lia. }
  rewrite Es, H2, H3, Hlen. done.
Qed.
Lemma jh_stream f junk stk iv w pieces ub n :
  length junk = 64%nat -> length stk = 128%nat -> length iv = 16%nat -> state_bits iv = jh_iv (4 * w) -> (w <= 16)%nat ->
  word 8 ub -> 0 <= n < 8 -> bytes (concat pieces) -> Z.of_nat (length (concat pieces)) < 2 ^ 64 ->
  (jh_close f stk (foldl (jh_core f) (jh_init junk iv) pieces) ub n w).2 = jh_digest (4 * w) (concat pieces) ub n.
Proof.
  intros Hj Hs Hliv Hiv Hw Hub Hn Hb HL. destruct (jh_context f junk iv pieces Hj Hliv Hb ltac:(lia)) as (Ep & _ & _ & Ec).
  unfold jh_close. cbv zeta. rewrite (proj1 (final_byte_ref ub n Hub Hn)). cbn [snd].
  set (m := concat pieces) in *. pose proof (Nat.mod_upper_bound (length m) 64 ltac:(lia)) as Hm64. pose proof (Nat.div_mod_eq (length m) 64) as Hdm.
  rewrite Ec, Ep. set (numz := if ((length m mod 64 =? 0)%nat && (n =? 0)) then 47%nat else (111 - length m mod 64)%nat).
  assert (Hz : (numz <= 111)%nat) by (unfold numz; destruct (_ && _); lia).
  match goal with |- context [memcpy (memcpy (memset0 _ 1 numz) (numz + 1) (be_store 8 ?x)) (numz + 9) (be_store 8 ?y)] =>
    destruct (closing_bytes stk ub n numz (be_store 8 x) (be_store 8 y) Hs Hz (length_be_store _ _) (length_be_store _ _)) as [Hlb Et];
    assert (Elen : be_store 8 x ++ be_store 8 y = be_store 16 (8 * Z.of_nat (length m) + n)) end.
  { rewrite jh_length_field by lia. f_equal. lia. }
  rewrite Elen in Et. set (buf' := memcpy (memcpy _ _ _) _ _) in *. rewrite Et. clear Et Elen. clearbody buf'. set (tail := last_bits ub n :: _).
  assert (Etail : m ++ tail = jh_pad m ub n) by done.
  assert (Hlt : (length tail <= 128)%nat) by (unfold tail; cbn [length]; rewrite length_app, length_replicate, length_be_store; lia).
  assert (Hbt : bytes tail).
  { unfold tail. constructor; [rewrite <-(proj1 (final_byte_ref ub n Hub Hn)); by apply final_byte_ref|]. apply Forall_app_2; [apply Forall_replicate, word_0; lia|apply bytes_be_store]. }
  destruct (jh_context f junk iv (pieces ++ [tail]) Hj Hliv) as (_ & Hl' & E' & _).
  { rewrite concat_app. cbn [concat]. rewrite app_nil_r. by apply Forall_app_2. }
  { rewrite concat_app. cbn [concat]. rewrite app_nil_r, length_app. fold m. lia. }
  rewrite foldl_app in Hl', E'. cbn [foldl] in Hl', E'. rewrite concat_app in E'. cbn [concat] in E'. rewrite app_nil_r in E'. fold m in E'. rewrite Etail in E'.
  set (c' := jh_core f _ tail) in *. clearbody c'. unfold jh_digest. rewrite <-Hiv, <-E', digest_bytes by done.
  destruct (store_seq (fun u => le_store 8 (jH (sc_st c') !!! (u + 8)%nat)) 8 (fun _ => length_le_store _ _) 8 buf') as [_ Ew]; [lia|].
  rewrite <-Ew. unfold slice. rewrite !take_drop_commute, take_take. do 2 f_equal. lia.
Qed.

Lemma bits_byte (b : nat -> bool) : word 8 (foldl (fun x j => 2 * x + Z.b2z (b j)) 0 (seq 0 8)).
Proof.
  assert (H : forall x y, 0 <= Z.b2z y <= 1 /\ (forall n, 0 <= x < n -> 0 <= 2 * x + Z.b2z y < 2 * n)) by (intros x y; destruct y; cbn; split; [lia|lia|lia|lia]).
  assert (G : forall k i x n, 0 <= x < n -> 0 <= foldl (fun x j => 2 * x + Z.b2z (b j)) x (seq i k) < 2 ^ Z.of_nat k * n).
  { induction k as [|k IH]; intros i x n Hx; [cbn; lia|]. cbn [seq foldl]. destruct (H x (b i)) as [_ Hn]. specialize (IH (Datatypes.S i) _ _ (Hn n Hx)).
    rewrite Nat2Z.inj_succ, Z.pow_succ_r by lia. lia. }
  exact (G 8%nat 0%nat 0 1 ltac:(lia)).
Qed.
Lemma length_jh_digest k m ub n : (k <= 64)%nat -> length (jh_digest k m ub n) = k /\ bytes (jh_digest k m ub n).
Proof.
  intros Hk. unfold jh_digest. set (h := foldl F8 _ _). assert (Hh : length h = 1024%nat).
  { unfold h. assert (Hiv : length (jh_iv k) = 1024%nat) by (apply length_F8; [rewrite length_bits_of, length_app, length_be_store|]; rewrite length_replicate; lia).
    assert (Hbs := blocks_length 64 (jh_pad m ub n) ltac:(lia)). revert Hiv. generalize (jh_iv k). induction Hbs as [|b bs Hb _ IH]; intros g Hg; [done|].
    cbn [foldl]. apply IH. by apply length_F8. }
  clearbody h. unfold bytes_of. split; [|].
  - rewrite length_fmap, length_seq, length_drop, Hh. replace (1024 - (1024 - 8 * k))%nat with (k * 8)%nat by lia. by apply Nat.div_mul.
  - apply Forall_fmap, Forall_true. intros i. apply bits_byte.
Qed.

(** ** Properties *)

(** C16. For the four digest sizes and both builds, feeding a message to [sph_jh*] in any
    pieces and closing with up to 7 extra bits gives the JH digest of the concatenation:
    the bit-sliced rounds with their swaps are, for all 42 rounds, the S-boxes, the code
    over GF(16) and the permutation [P8] of the submission, with the constants its
    recurrence generates, and the initial values are those it computes. *)
Theorem sph_jh_streaming f junk stk pieces ub n :
  length junk = 64%nat -> length stk = 128%nat -> word 8 ub -> 0 <= n < 8 ->
  let m := concat pieces in
  bytes m -> Z.of_nat (length m) < 2 ^ 64 ->
  (sph_jh224_addbits_and_close f stk (foldl (sph_jh224 f) (sph_jh224_init junk) pieces) ub n).2 = jh_digest 28 m ub n /\
  (sph_jh256_addbits_and_close f stk (foldl (sph_jh256 f) (sph_jh256_init junk) pieces) ub n).2 = jh_digest 32 m ub n /\
  (sph_jh384_addbits_and_close f stk (foldl (sph_jh384 f) (sph_jh384_init junk) pieces) ub n).2 = jh_digest 48 m ub n /\
  (sph_jh512_addbits_and_close f stk (foldl (sph_jh512 f) (sph_jh512_init junk) pieces) ub n).2 = jh_digest 64 m ub n.
Proof.
  intros Hj Hs Hub Hn m Hb HL. destruct jh_iv_ref as (I1 & I2 & I3 & I4).
  split; [exact (jh_stream f junk stk IV224 7 pieces ub n Hj Hs eq_refl I1 ltac:(lia) Hub Hn Hb HL)|].
  split; [exact (jh_stream f junk stk IV256 8 pieces ub n Hj Hs eq_refl I2 ltac:(lia) Hub Hn Hb HL)|].
  split; [exact (jh_stream f junk stk IV384 12 pieces ub n Hj Hs eq_refl I3 ltac:(lia) Hub Hn Hb HL)|].
  exact (jh_stream f junk stk IV512 16 pieces ub n Hj Hs eq_refl I4 ltac:(lia) Hub Hn Hb HL).
Qed.
Lemma sph_jh_streaming_witness :
  (sph_jh512_addbits_and_close false (replicate 128 7) (foldl (sph_jh512 false) (sph_jh512_init (replicate 64 9)) [[0x61]; replicate 70 0x62]) 0xA0 3).2
  = jh_digest 64 (concat [[0x61]; replicate 70 0x62]) 0xA0 3.
Proof.
  assert (Hb : bytes (concat [[0x61]; replicate 70 0x62])) by (apply byte_list_dec; reflexivity).
  refine (proj2 (proj2 (proj2 (sph_jh_streaming false (replicate 64 9) (replicate 128 7) [[0x61]; replicate 70 0x62] 0xA0 3 eq_refl eq_refl _ _ Hb _))));
    unfold word; [lia|lia|reflexivity].
Defined.

(** The empty message, as published. *)
Example jh512_empty :
  take 16 (sph_jh512_close false (replicate 128 5) (sph_jh512_init (replicate 64 0))).2
  = [0x90; 0xEC; 0xF2; 0xF7; 0x6F; 0x9D; 0x2C; 0x80; 0x17; 0xD9; 0x79; 0xAD; 0x5A; 0xB9; 0x6B; 0x87].
Proof. vm_compute. reflexivity. Qed.

End Jh.
