(* ===== verification/Skein.v ===== *)
(** * Skein-512 ([crypto/ghostrider/sph_skein.c]).

    The code runs the rounds of Threefish four by four on renamed variables, so that the
    word permutation disappears, and keeps the last full block of the message, whose tweak
    is special.  The reference is the specification of Skein 1.3: Threefish-512 with its
    mixing function and permutation, the unique block iteration with a 128-bit tweak, the
    configuration block.  The unrolled and the compact builds are modelled. *)
From S2P Require Import Prelude Stream SphCore.

Module Skein.

Definition IV224 : list Z := [
  0xCCD0616248677224; 0xCBA65CF3A92339EF; 0x8CCD69D652FF4B64; 0x398AED7B3AB890B4;
  0x0F59D1B1457D2BD0; 0x6776FE6575D4EB3D; 0x99FBC70E997413E9; 0x9E2CFCCFE1C41EF7].
Definition IV256 : list Z := [
  0xCCD044A12FDB3E13; 0xE83590301A79A9EB; 0x55AEA0614F816E6F; 0x2A2767A4AE9B94DB;
  0xEC06025E74DD7683; 0xE7A436CDC4746251; 0xC36FBAF9393AD185; 0x3EEDBA1833EDFC13].
Definition IV384 : list Z := [
  0xA3F6C6BF3A75EF5F; 0xB0FEF9CCFD84FAA4; 0x9D77DD663D770CFE; 0xD798CBF3B468FDDA;
  0x1BC4A6668A0E4465; 0x7ED7D434E5807407; 0x548FC1ACD4EC44D6; 0x266E17546AA18FF8].
Definition IV512 : list Z := [
  0x4903ADFF749C51CE; 0x0D95DE399746DF03; 0x8FD1934127C79BCE; 0x9A255629FF352CB1;
  0x5DB62599DF6CA7B0; 0xEABE394CA9D5C3F4; 0x991112C71A75B523; 0xAE18A40B660FCC33].

(** The variables [p0] to [p7] are a list. *)
Definition TFBIG_KINIT (k : list Z) (t0 t1 : Z) : Z * Z :=
  (Z.lxor (Z.lxor (Z.lxor (Z.lxor (k !!! 0%nat) (k !!! 1%nat)) (Z.lxor (k !!! 2%nat) (k !!! 3%nat)))
     (Z.lxor (Z.lxor (k !!! 4%nat) (k !!! 5%nat)) (Z.lxor (k !!! 6%nat) (k !!! 7%nat)))) 0x1BD11BDAA9FC1A22,
   Z.lxor t0 t1).
(** [SKBI(k, s, i)] and [SKBT(t, s, v)]: the tables [M9_s_i] and [M3_s_v]. *)
Definition SKBI (k : list Z) (s i : nat) : Z := k !!! ((s + i) mod 9)%nat.
Definition SKBT (t : list Z) (s v : nat) : Z := t !!! ((s + v) mod 3)%nat.
Definition TFBIG_ADDKEY (w k t : list Z) (s : nat) : list Z :=
  [T64 (w !!! 0%nat + SKBI k s 0); T64 (w !!! 1%nat + SKBI k s 1); T64 (w !!! 2%nat + SKBI k s 2); T64 (w !!! 3%nat + SKBI k s 3);
   T64 (w !!! 4%nat + SKBI k s 4); T64 (w !!! 5%nat + SKBI k s 5 + SKBT t s 0); T64 (w !!! 6%nat + SKBI k s 6 + SKBT t s 1);
   T64 (w !!! 7%nat + SKBI k s 7 + Z.of_nat s)].
(** The compact build: [h] is the array of 27 words. *)
Definition TFBIG_ADDKEY_small (p h : list Z) (s : nat) (tt0 tt1 : Z) : list Z :=
  [T64 (p !!! 0%nat + h !!! (s + 0)%nat); T64 (p !!! 1%nat + h !!! (s + 1)%nat); T64 (p !!! 2%nat + h !!! (s + 2)%nat); T64 (p !!! 3%nat + h !!! (s + 3)%nat);
   T64 (p !!! 4%nat + h !!! (s + 4)%nat); T64 (p !!! 5%nat + h !!! (s + 5)%nat + tt0); T64 (p !!! 6%nat + h !!! (s + 6)%nat + tt1);
   T64 (p !!! 7%nat + h !!! (s + 7)%nat + Z.of_nat s)].
Definition TFBIG_MIX (p : list Z) (x0 x1 : nat) (rc : Z) : list Z :=
  let p := <[x0 := add64 (p !!! x0) (p !!! x1)]> p in
  <[x1 := Z.lxor (rotl64 (p !!! x1) rc) (p !!! x0)]> p.
Definition TFBIG_MIX8 (p : list Z) (w0 w1 w2 w3 w4 w5 w6 w7 : nat) (rc0 rc1 rc2 rc3 : Z) : list Z :=
  let p := TFBIG_MIX p w0 w1 rc0 in
  let p := TFBIG_MIX p w2 w3 rc1 in
  let p := TFBIG_MIX p w4 w5 rc2 in
  TFBIG_MIX p w6 w7 rc3.
(** The four rounds of [TFBIG_4e] and [TFBIG_4o] after the key. *)
Definition mix_4e (p : list Z) : list Z :=
  let p := TFBIG_MIX8 p 0 1 2 3 4 5 6 7 46 36 19 37 in
  let p := TFBIG_MIX8 p 2 1 4 7 6 5 0 3 33 27 14 42 in
  let p := TFBIG_MIX8 p 4 1 6 3 0 5 2 7 17 49 36 39 in
  TFBIG_MIX8 p 6 1 0 7 2 5 4 3 44 9 54 56.
Definition mix_4o (p : list Z) : list Z :=
  let p := TFBIG_MIX8 p 0 1 2 3 4 5 6 7 39 30 34 24 in
  let p := TFBIG_MIX8 p 2 1 4 7 6 5 0 3 13 50 10 17 in
  let p := TFBIG_MIX8 p 4 1 6 3 0 5 2 7 25 29 39 43 in
  TFBIG_MIX8 p 6 1 0 7 2 5 4 3 8 35 56 22.
Definition TFBIG_4e (p k t : list Z) (s : nat) : list Z := mix_4e (TFBIG_ADDKEY p k t s).
Definition TFBIG_4o (p k t : list Z) (s : nat) : list Z := mix_4o (TFBIG_ADDKEY p k t s).
Definition TFBIG_4e_small (p h : list Z) (s : nat) (t0 t1 : Z) : list Z := mix_4e (TFBIG_ADDKEY_small p h s t0 t1).
Definition TFBIG_4o_small (p h : list Z) (s : nat) (t1 t2 : Z) : list Z := mix_4o (TFBIG_ADDKEY_small p h s t1 t2).

Definition words_of (buf : list Z) : list Z := tabulate 8 (fun i => le_load 8 (slice (8 * i) 8 buf)).
(** [UBI_BIG(etype, extra)] on the state [h] of 8 words. *)
Definition tweak_words (bcount etype extra : Z) : Z * Z :=
  (T64 (T64 (Z.shiftl bcount 6) + extra), T64 (Z.shiftr bcount 58 + shl64 etype 55)).
Definition UBI_unrolled (h : list Z) (bcount : Z) (buf : list Z) (etype extra : Z) : list Z :=
  let m := words_of buf in
  let '(t0, t1) := tweak_words bcount etype extra in
  let '(h8, t2) := TFBIG_KINIT h t0 t1 in
  let k := h ++ [h8] in let t := [t0; t1; t2] in
  let p := TFBIG_4e m k t 0 in let p := TFBIG_4o p k t 1 in
  let p := TFBIG_4e p k t 2 in let p := TFBIG_4o p k t 3 in
  let p := TFBIG_4e p k t 4 in let p := TFBIG_4o p k t 5 in
  let p := TFBIG_4e p k t 6 in let p := TFBIG_4o p k t 7 in
  let p := TFBIG_4e p k t 8 in let p := TFBIG_4o p k t 9 in
  let p := TFBIG_4e p k t 10 in let p := TFBIG_4o p k t 11 in
  let p := TFBIG_4e p k t 12 in let p := TFBIG_4o p k t 13 in
  let p := TFBIG_4e p k t 14 in let p := TFBIG_4o p k t 15 in
  let p := TFBIG_4e p k t 16 in let p := TFBIG_4o p k t 17 in
  let p := TFBIG_ADDKEY p k t 18 in
  zip_with Z.lxor m p.
(** [for (u = 0; u <= 15; u += 3) { h[u + 9] = h[u]; ... }]. *)
Definition extend (h : list Z) : list Z :=
  foldl (fun h u =>
    let h := <[(u + 9)%nat := h !!! (u + 0)%nat]> h in
    let h := <[(u + 10)%nat := h !!! (u + 1)%nat]> h in
    <[(u + 11)%nat := h !!! (u + 2)%nat]> h) h [0; 3; 6; 9; 12; 15]%nat.
(** The rest of the array is not initialised. *)
Definition UBI_small (h : list Z) (bcount : Z) (buf : list Z) (etype extra : Z) : list Z :=
  let m := words_of buf in
  let '(t0, t1) := tweak_words bcount etype extra in
  let '(h8, t2) := TFBIG_KINIT h t0 t1 in
  let hx := extend (h ++ h8 :: replicate 18 0) in
  let '(p, (t0, t1, t2)) := foldl (fun '(p, (t0, t1, t2)) u =>
      let s := (2 * u)%nat in
      let p := TFBIG_4e_small p hx s t0 t1 in
      let p := TFBIG_4o_small p hx (s + 1) t1 t2 in
      (p, (t2, t0, t1))) (m, (t0, t1, t2)) (seq 0 9) in
  let p := TFBIG_ADDKEY_small p hx 18 t0 t1 in
  zip_with Z.lxor m p.

Record skein_state := mk_skein { hs : list Z; bcount : Z }.
Abbreviation skein_ctx := (sph_ctx skein_state).

Section SkeinCode.
Context (compact : bool).
Definition UBI_BIG (h : list Z) (bc : Z) (buf : list Z) (etype extra : Z) : list Z :=
  if compact then UBI_small h bc buf etype extra else UBI_unrolled h bc buf etype extra.

Definition skein_big_init (junk iv : list Z) : skein_ctx := mk_sph junk 0 (mk_skein iv 0).
(** The [do ... while (len > 0)] loop; each trip consumes at least one byte. *)
Fixpoint core_loop (fuel : nat) (sc : skein_ctx) (first : Z) (data : list Z) : skein_ctx :=
  match fuel with
  | O => sc
  | S fuel =>
      let '(st, first, ptr) :=
        if (sc_ptr sc =? 64)%nat
        then let bc := T64 (bcount (sc_st sc) + 1) in
             (mk_skein (UBI_BIG (hs (sc_st sc)) bc (sc_buf sc) (96 + first) 0) bc, 0, 0%nat)
        else (sc_st sc, first, sc_ptr sc) in
      let clen := Nat.min (64 - ptr) (length data) in
      let sc := mk_sph (memcpy (sc_buf sc) ptr (take clen data)) (ptr + clen) st in
      match drop clen data with
      | [] => sc
      | data => core_loop fuel sc first data
      end
  end.
Definition skein_big_core (sc : skein_ctx) (data : list Z) : skein_ctx :=
  if (length data <=? 64 - sc_ptr sc)%nat
  then mk_sph (memcpy (sc_buf sc) (sc_ptr sc) data) (sc_ptr sc + length data) (sc_st sc)
  else core_loop (length data) sc (if bcount (sc_st sc) =? 0 then 128 else 0) data.
Definition skein_big_close (sc : skein_ctx) (ub n : Z) (out_len : nat) : skein_ctx * list Z :=
  let sc := if n =? 0 then sc else skein_big_core sc [final_byte ub n] in
  let buf := memset0 (sc_buf sc) (sc_ptr sc) (64 - sc_ptr sc) in
  let et := 352 + (if bcount (sc_st sc) =? 0 then 128 else 0) + (if n =? 0 then 0 else 1) in
  let h := UBI_BIG (hs (sc_st sc)) (bcount (sc_st sc)) buf et (Z.of_nat (sc_ptr sc)) in
  let buf := replicate 64 0 in
  let h := UBI_BIG h 0 buf 510 8 in
  let trips := (if compact then (out_len + 7) / 8 else 8)%nat in
  let buf := foldl (fun buf u => memcpy buf (8 * u) (le_store 8 (h !!! u))) buf (seq 0 trips) in
  (mk_sph buf (sc_ptr sc) (sc_st sc), take out_len buf).

Definition sph_skein224_init (junk : list Z) : skein_ctx := skein_big_init junk IV224.
Definition sph_skein224 : skein_ctx -> list Z -> skein_ctx := skein_big_core.
Definition sph_skein224_addbits_and_close (cc : skein_ctx) (ub n : Z) : skein_ctx * list Z := skein_big_close cc ub n 28.
Definition sph_skein224_close (cc : skein_ctx) : skein_ctx * list Z := sph_skein224_addbits_and_close cc 0 0.
Definition sph_skein256_init (junk : list Z) : skein_ctx := skein_big_init junk IV256.
Definition sph_skein256 : skein_ctx -> list Z -> skein_ctx := skein_big_core.
Definition sph_skein256_addbits_and_close (cc : skein_ctx) (ub n : Z) : skein_ctx * list Z := skein_big_close cc ub n 32.
Definition sph_skein256_close (cc : skein_ctx) : skein_ctx * list Z := sph_skein256_addbits_and_close cc 0 0.
Definition sph_skein384_init (junk : list Z) : skein_ctx := skein_big_init junk IV384.
Definition sph_skein384 : skein_ctx -> list Z -> skein_ctx := skein_big_core.
Definition sph_skein384_addbits_and_close (cc : skein_ctx) (ub n : Z) : skein_ctx * list Z := skein_big_close cc ub n 48.
Definition sph_skein384_close (cc : skein_ctx) : skein_ctx * list Z := sph_skein384_addbits_and_close cc 0 0.
Definition sph_skein512_init (junk : list Z) : skein_ctx := skein_big_init junk IV512.
Definition sph_skein512 : skein_ctx -> list Z -> skein_ctx := skein_big_core.
Definition sph_skein512_addbits_and_close (cc : skein_ctx) (ub n : Z) : skein_ctx * list Z := skein_big_close cc ub n 64.
Definition sph_skein512_close (cc : skein_ctx) : skein_ctx * list Z := sph_skein512_addbits_and_close cc 0 0.
End SkeinCode.

(** ** Reference *)

(** Rotations of round [d mod 8], pair [j]; the word permutation. *)
Definition rotations : list (list Z) := [
  [46; 36; 19; 37]; [33; 27; 14; 42]; [17; 49; 36; 39]; [44; 9; 54; 56];
  [39; 30; 34; 24]; [13; 50; 10; 17]; [25; 29; 39; 43]; [8; 35; 56; 22]].
Definition pi : list nat := [2; 1; 4; 7; 6; 5; 0; 3]%nat.
Definition mix_word (d : nat) (v : list Z) (i : nat) : Z :=
  let j := (i / 2)%nat in
  let y0 := add64 (v !!! (2 * j)%nat) (v !!! (2 * j + 1)%nat) in
  if Nat.even i then y0 else Z.lxor (rotl64 (v !!! (2 * j + 1)%nat) ((rotations !!! (d mod 8)%nat) !!! j)) y0.
Definition mix_permute (d : nat) (v : list Z) : list Z := (fun i => mix_word d v (pi !!! i)) <$> seq 0 8.
Definition C240 : Z := 0x1BD11BDAA9FC1A22.
Definition key_word (K : list Z) (i : nat) : Z := if (i =? 8)%nat then foldl Z.lxor C240 K else K !!! i.
(** The tweak is a 128-bit number. *)
Definition tweak_word (T : Z) (i : nat) : Z :=
  match i with 0%nat => T mod 2 ^ 64 | 1%nat => T / 2 ^ 64 | _ => Z.lxor (T mod 2 ^ 64) (T / 2 ^ 64) end.
Definition subkey (K : list Z) (T : Z) (s i : nat) : Z :=
  let k := key_word K ((s + i) mod 9) in
  match i with
  | 5%nat => add64 k (tweak_word T (s mod 3)) | 6%nat => add64 k (tweak_word T ((s + 1) mod 3))
  | 7%nat => add64 k (Z.of_nat s) | _ => k
  end.
Definition add_subkey (K : list Z) (T : Z) (s : nat) (v : list Z) : list Z := (fun i => add64 (v !!! i) (subkey K T s i)) <$> seq 0 8.
Definition tf_round (K : list Z) (T : Z) (v : list Z) (d : nat) : list Z :=
  mix_permute d (if (d mod 4 =? 0)%nat then add_subkey K T (d / 4) v else v).
Definition threefish (K : list Z) (T : Z) (P : list Z) : list Z := add_subkey K T 18 (foldl (tf_round K T) P (seq 0 72)).
(** One block of the unique block iteration: position [pos], type [ty]. *)
Definition tweak (ty pos : Z) (first final pad : bool) : Z :=
  ty * 2 ^ 120 + pos + Z.b2z first * 2 ^ 126 + Z.b2z final * 2 ^ 127 + Z.b2z (final && pad) * 2 ^ 119.
Definition ubi_block (G : list Z) (T : Z) (b : list Z) : list Z := zip_with Z.lxor (words_of b) (threefish G T (words_of b)).
Definition ubi_step (ty : Z) (pad : bool) '(G, i) (b : list Z) : list Z * Z := (ubi_block G (tweak ty (64 * (i + 1)) (i =? 0) false pad) b, i + 1).
(** All blocks of [M]: the last one is filled with zeros, an empty message has one block. *)
Definition ubi (G : list Z) (ty : Z) (M : list Z) (pad : bool) : list Z :=
  let k := ((length M - 1) / 64)%nat in
  let last := drop (64 * k) M in
  let G := (foldl (ubi_step ty pad) (G, 0) (nblocks 64 k M)).1 in
  ubi_block G (tweak ty (Z.of_nat (length M)) (k =? 0)%nat true pad) (last ++ replicate (64 - length last) 0).
(** The configuration: the identifier "SHA3", version 1, the output length in bits. *)
Definition config (bits : Z) : list Z := le_store 4 0x33414853 ++ le_store 2 1 ++ replicate 2 0 ++ le_store 8 bits ++ replicate 16 0.
Definition skein_iv (bits : Z) : list Z := ubi (replicate 8 0) 4 (config bits) false.
Definition skein_digest (k : nat) (m : list Z) (ub n : Z) : list Z :=
  let G := ubi (skein_iv (8 * Z.of_nat k)) 48 (if n =? 0 then m else m ++ [last_bits ub n]) (negb (n =? 0)) in
  take k (flat_map (le_store 8) (ubi G 63 (le_store 8 0) false)).

(** ** Threefish *)

Definition mix4 (even : bool) : list Z -> list Z := if even then mix_4e else mix_4o.
Lemma list8 (v : list Z) : length v = 8%nat -> exists a b c d e f g h, v = [a; b; c; d; e; f; g; h].
Proof. intros H. do 8 (destruct v as [|? v]; [done|]). destruct v; [|done]. repeat eexists. Qed.
(** After four rounds the word permutation is back at the identity. *)
Lemma four_rounds (odd : bool) v : length v = 8%nat ->
  let d := if odd then 4%nat else 0%nat in
  mix_permute (d + 3) (mix_permute (d + 2) (mix_permute (d + 1) (mix_permute d v))) = mix4 (negb odd) v.
Proof. intros (a & b & c & e & f & g & h & i & ->)%list8. destruct odd; cbv -[add64 rotl64 Z.lxor]; reflexivity. Qed.
Lemma mix_permute_mod d d' v : (d mod 8 = d' mod 8)%nat -> mix_permute d v = mix_permute d' v.
Proof. intros E. unfold mix_permute, mix_word. by rewrite E. Qed.
Lemma length_add_subkey K T s v : length (add_subkey K T s v) = 8%nat.
Proof. unfold add_subkey. by rewrite length_fmap. Qed.
Lemma quad K T v s : foldl (tf_round K T) v (seq (4 * s) 4) = mix4 (Nat.even s) (add_subkey K T s v).
Proof.
  assert (Hm : forall j, (j < 4)%nat -> ((4 * s + j) mod 4 = j /\ (4 * s + j) / 4 = s)%nat).
  { intros j Hj. split; symmetry; [apply (Nat.mod_unique _ 4 s)|apply (Nat.div_unique _ 4 s j)]; lia. }
  assert (H8 : forall j, (j < 4)%nat -> ((4 * s + j) mod 8 = ((if negb (Nat.even s) then 4 else 0) + j) mod 8)%nat).
  { intros j Hj. destruct (Nat.even s) eqn:E; cbn [negb].
    - apply Nat.even_spec in E as [q ->]. rewrite (Nat.mod_small (0 + j)) by lia. symmetry. apply (Nat.mod_unique _ 8 q); lia.
    - assert (Ho : Nat.odd s = true) by (unfold Nat.odd; by rewrite E). apply Nat.odd_spec in Ho as [q ->]. rewrite (Nat.mod_small (4 + j)) by lia. symmetry. apply (Nat.mod_unique _ 8 q); lia. }
  rewrite <-(Bool.negb_involutive (Nat.even s)), <-four_rounds by apply length_add_subkey. cbv zeta.
  change (seq (4 * s) 4) with [4 * s; S (4 * s); S (S (4 * s)); S (S (S (4 * s)))]%nat. cbn [foldl].
  replace (S (S (S (4 * s)))) with (4 * s + 3)%nat by lia. replace (S (S (4 * s))) with (4 * s + 2)%nat by lia. replace (S (4 * s)) with (4 * s + 1)%nat by lia.
  pose proof (Hm 0%nat ltac:(lia)) as [E0 E0']. rewrite Nat.add_0_r in E0, E0'. unfold tf_round.
  rewrite E0, E0', (proj1 (Hm 1%nat ltac:(lia))), (proj1 (Hm 2%nat ltac:(lia))), (proj1 (Hm 3%nat ltac:(lia))). cbn [Nat.eqb].
  rewrite (mix_permute_mod (4 * s + 3) _ _ (H8 3%nat ltac:(lia))), (mix_permute_mod (4 * s + 2) _ _ (H8 2%nat ltac:(lia))), (mix_permute_mod (4 * s + 1) _ _ (H8 1%nat ltac:(lia))).
  rewrite (mix_permute_mod (4 * s) ((if negb (Nat.even s) then 4 else 0)) _); [done|]. pose proof (H8 0%nat ltac:(lia)) as E. by rewrite !Nat.add_0_r in E.
Qed.
Definition quad_round (K : list Z) (T : Z) (v : list Z) (s : nat) : list Z := mix4 (Nat.even s) (add_subkey K T s v).
Lemma quads K T v n : foldl (tf_round K T) v (seq 0 (4 * n)) = foldl (quad_round K T) v (seq 0 n).
Proof.
  induction n as [|n IH]; [done|]. replace (4 * S n)%nat with (4 * n + 4)%nat by lia. rewrite (seq_app (4 * n) 4 0), (seq_S n 0), !foldl_app, IH.
  cbn [foldl Nat.add]. apply quad.
Qed.
Lemma threefish_quads K T P : threefish K T P = add_subkey K T 18 (foldl (quad_round K T) P (seq 0 18)).
Proof. unfold threefish. by rewrite <-quads. Qed.

(** The key words and the tweak words of the code. *)
Definition keys (K : list Z) : list Z := K ++ [key_word K 8].
Definition tweaks (T : Z) : list Z := [tweak_word T 0; tweak_word T 1; tweak_word T 2].
Lemma keys_lookup K i : length K = 8%nat -> (i < 9)%nat -> keys K !!! i = key_word K i.
Proof.
  intros HK Hi. unfold keys. destruct (decide (i = 8)%nat) as [->|Hn].
  - rewrite lookup_total_app_r by lia. by rewrite HK.
  - rewrite lookup_total_app_l by lia. unfold key_word. by rewrite (proj2 (Nat.eqb_neq i 8)) by done.
Qed.
Lemma T64_add_add a b c : T64 (a + b + c) = add64 a (add64 b c).
Proof. unfold add64. rewrite !T64_mod, Zplus_mod_idemp_r. f_equal. lia. Qed.
Lemma ADDKEY_gen (w : list Z) K T s (a b c d e f g h tt0 tt1 : Z) :
  [a; b; c; d; e; f; g; h] = (fun i => key_word K ((s + i) mod 9)) <$> seq 0 8 ->
  tt0 = tweak_word T (s mod 3) -> tt1 = tweak_word T ((s + 1) mod 3) ->
  [T64 (w !!! 0%nat + a); T64 (w !!! 1%nat + b); T64 (w !!! 2%nat + c); T64 (w !!! 3%nat + d); T64 (w !!! 4%nat + e);
   T64 (w !!! 5%nat + f + tt0); T64 (w !!! 6%nat + g + tt1); T64 (w !!! 7%nat + h + Z.of_nat s)] = add_subkey K T s w.
Proof.
  intros E -> ->. cbn [seq fmap list_fmap] in E. injection E as -> -> -> -> -> -> -> ->. rewrite !T64_add_add. exact eq_refl.
Qed.
Lemma ADDKEY_ref K T s w : length K = 8%nat -> TFBIG_ADDKEY w (keys K) (tweaks T) s = add_subkey K T s w.
Proof.
  intros HK. assert (E : forall i, SKBI (keys K) s i = key_word K ((s + i) mod 9)) by (intros; apply keys_lookup; [done|apply Nat.mod_upper_bound; lia]).
  assert (Et : forall i, SKBT (tweaks T) s i = tweak_word T ((s + i) mod 3)).
  { intros i. unfold SKBT, tweaks. pose proof (Nat.mod_upper_bound (s + i) 3 ltac:(lia)) as H. revert H. generalize ((s + i) mod 3)%nat. intros [|[|[|j]]] H; [done..|lia]. }
  unfold TFBIG_ADDKEY. apply ADDKEY_gen; [cbn [seq fmap list_fmap]; by rewrite !E|rewrite Et; by rewrite Nat.add_0_r|apply Et].
Qed.
(** The array of the compact build. *)
Lemma extend_lookup K i : length K = 8%nat -> (i < 27)%nat ->
  extend (K ++ key_word K 8 :: replicate 18 0) !!! i = key_word K (i mod 9).
Proof.
  intros (a & b & c & d & e & f & g & h & ->)%list8 Hi. do 27 (destruct i as [|i]; [cbv -[Z.lxor]; reflexivity|]). lia.
Qed.
Lemma ADDKEY_small_ref K T s w tt0 tt1 : length K = 8%nat -> (s < 19)%nat ->
  tt0 = tweak_word T (s mod 3) -> tt1 = tweak_word T ((s + 1) mod 3) ->
  TFBIG_ADDKEY_small w (extend (K ++ key_word K 8 :: replicate 18 0)) s tt0 tt1 = add_subkey K T s w.
Proof.
  intros HK Hs E0 E1. unfold TFBIG_ADDKEY_small. apply ADDKEY_gen; [|done|done]. cbn [seq fmap list_fmap].
  by rewrite !extend_lookup by (done || lia).
Qed.
Lemma length_mix4 e p : length p = 8%nat -> length (mix4 e p) = 8%nat.
Proof. intros (a & b & c & d & f & g & h & i & ->)%list8. by destruct e. Qed.

(** ** The unique block iteration *)

Lemma KINIT_ref K T : length K = 8%nat -> TFBIG_KINIT K (tweak_word T 0) (tweak_word T 1) = (key_word K 8, tweak_word T 2).
Proof.
  intros (a & b & c & d & e & f & g & h & ->)%list8. unfold TFBIG_KINIT, key_word, C240. cbn [Nat.eqb foldl lookup_total list_lookup_total].
  f_equal. bitwise.
Qed.
Lemma UBI_unrolled_T h T buf bc et extra : length h = 8%nat -> tweak_words bc et extra = (tweak_word T 0, tweak_word T 1) ->
  UBI_unrolled h bc buf et extra = ubi_block h T buf.
Proof.
  intros Hh E. unfold UBI_unrolled. rewrite E, KINIT_ref by done. fold (keys h) (tweaks T). unfold TFBIG_4e, TFBIG_4o. rewrite !ADDKEY_ref by done.
  unfold ubi_block. rewrite threefish_quads. cbn [seq foldl]. unfold quad_round. cbn [Nat.even mix4]. exact eq_refl.
Qed.
Lemma small_trips h T n p : length h = 8%nat -> (n <= 9)%nat ->
  foldl (fun '(p, (t0, t1, t2)) u =>
      let s := (2 * u)%nat in
      let p := TFBIG_4e_small p (extend (h ++ key_word h 8 :: replicate 18 0)) s t0 t1 in
      let p := TFBIG_4o_small p (extend (h ++ key_word h 8 :: replicate 18 0)) (s + 1) t1 t2 in
      (p, (t2, t0, t1))) (p, (tweak_word T 0, tweak_word T 1, tweak_word T 2)) (seq 0 n)
  = (foldl (quad_round h T) p (seq 0 (2 * n)), (tweak_word T ((2 * n) mod 3), tweak_word T ((2 * n + 1) mod 3), tweak_word T ((2 * n + 2) mod 3))).
Proof.
  intros Hh. induction n as [|n IH]; intros Hn; [done|]. rewrite (seq_S n 0), foldl_app, IH by lia. cbn [foldl Nat.add].
  replace (2 * S n)%nat with (2 * n + 2)%nat by lia. rewrite (seq_app (2 * n) 2 0), foldl_app. cbn [seq foldl Nat.add]. cbv zeta.
  unfold TFBIG_4e_small, TFBIG_4o_small. rewrite (ADDKEY_small_ref h T (2 * n)) by (done || lia).
  rewrite (ADDKEY_small_ref h T (2 * n + 1)); [|done|lia|done|by rewrite <-Nat.add_assoc].
  assert (E3 : forall a, ((2 * n + 2 + S a) mod 3 = (2 * n + a) mod 3)%nat) by (intros a; replace (2 * n + 2 + S a)%nat with (2 * n + a + 1 * 3)%nat by lia; apply Nat.Div0.mod_add).
  rewrite !E3, Nat.add_0_r. replace (S (2 * n)) with (2 * n + 1)%nat by lia. unfold quad_round.
  rewrite (Nat.even_even n), (Nat.even_odd n). exact eq_refl.
Qed.
Lemma UBI_small_T h T buf bc et extra : length h = 8%nat -> tweak_words bc et extra = (tweak_word T 0, tweak_word T 1) ->
  UBI_small h bc buf et extra = ubi_block h T buf.
Proof.
  intros Hh E. unfold UBI_small. rewrite E, KINIT_ref by done. rewrite (small_trips h T 9) by (done || lia).
  rewrite (ADDKEY_small_ref h T 18) by (done || lia). unfold ubi_block. by rewrite threefish_quads.
Qed.
Lemma UBI_BIG_T c h T buf bc et extra : length h = 8%nat -> tweak_words bc et extra = (tweak_word T 0, tweak_word T 1) ->
  UBI_BIG c h bc buf et extra = ubi_block h T buf.
Proof. intros. destruct c; [by apply UBI_small_T|by apply UBI_unrolled_T]. Qed.
(** The two words of the tweak: [etype] holds its top nine bits. *)
Lemma tweak_words_ref bc et extra : 0 <= bc < 2 ^ 58 -> 0 <= et < 512 -> 0 <= extra <= 64 -> 64 * bc + extra < 2 ^ 64 ->
  tweak_words bc et extra = (tweak_word (64 * bc + extra + et * 2 ^ 119) 0, tweak_word (64 * bc + extra + et * 2 ^ 119) 1).
Proof.
  intros Hb He Hx Hs. unfold tweak_words, tweak_word. rewrite Z.shiftl_mul_pow2, Z.shiftr_div_pow2 by lia. unfold shl64. rewrite Z.shiftl_mul_pow2 by lia.
  replace (et * 2 ^ 119) with ((et * 2 ^ 55) * 2 ^ 64) by lia. rewrite Z.mod_add, Z.div_add by lia.
  rewrite (Z.mod_small (64 * bc + extra)), (Z.div_small (64 * bc + extra)), (Z.div_small bc) by lia.
  rewrite !T64_mod. rewrite (Z.mod_small (et * 2 ^ 55)) by lia. rewrite (Z.mod_small (bc * 2 ^ 6)), !Z.mod_small by lia. f_equal; lia.
Qed.

(** ** The update function *)

Definition first_flag (st : skein_state) : Z := if bcount st =? 0 then 128 else 0.
Definition step (c : bool) (st : skein_state) (b : list Z) : skein_state :=
  let bc := T64 (bcount st + 1) in mk_skein (UBI_BIG c (hs st) bc b (96 + first_flag st) 0) bc.
Definition core_ok (sc : skein_ctx) : Prop := length (sc_buf sc) = 64%nat /\ (sc_ptr sc <= 64)%nat.

Lemma first_flag_step c st b : 0 <= bcount st < 2 ^ 64 - 1 -> first_flag (step c st b) = 0.
Proof. intros H. unfold first_flag, step. cbn [bcount]. rewrite T64_mod, Z.mod_small by lia. by rewrite (proj2 (Z.eqb_neq _ 0)) by lia. Qed.

Lemma core_chunk c (st : skein_state) buf ptr data : length buf = 64%nat -> (ptr <= 64)%nat ->
  let clen := Nat.min (64 - ptr) (length data) in
  let buf' := memcpy buf ptr (take clen data) in
  length buf' = 64%nat /\ (ptr + clen <= 64)%nat /\
  lazy 64 (step c) (st, take ptr buf) data = lazy 64 (step c) (st, take (ptr + clen) buf') (drop clen data).
Proof.
  intros Hb Hp clen buf'. assert (Hl : length (take clen data) = clen) by (rewrite length_take; unfold clen; lia).
  assert (Hc : (ptr + clen <= 64)%nat) by (unfold clen; lia). clearbody clen.
  split; [unfold buf'; rewrite length_memcpy; lia|]. split; [done|]. rewrite <-(take_drop clen data) at 1.
  rewrite lazy_app, lazy_short by (rewrite length_take; lia). do 2 f_equal. unfold buf'. rewrite <-Hl at 2. rewrite take_memcpy by lia. done.
Qed.
Lemma skein_core_loop_refines c fuel sc data :
  core_ok sc -> data <> [] -> (length data <= fuel)%nat -> 0 <= bcount (sc_st sc) -> bcount (sc_st sc) + Z.of_nat (length data) < 2 ^ 64 ->
  let r := core_loop c fuel sc (first_flag (sc_st sc)) data in
  core_ok r /\ sph_abs r = lazy 64 (step c) (sph_abs sc) data.
Proof.
  revert sc data. induction fuel as [|fuel IH]; intros sc data [Hb Hp] Hd Hf H0 Hn r.
  { destruct data; [done|simpl in Hf; lia]. }
  set (full := (sc_ptr sc =? 64)%nat). set (st := if full then step c (sc_st sc) (sc_buf sc) else sc_st sc). set (ptr := if full then 0%nat else sc_ptr sc).
  assert (Hd1 : (1 <= length data)%nat) by (destruct data; [done|simpl; lia]).
  assert (Est : sph_abs sc = (sc_st sc, take (sc_ptr sc) (sc_buf sc))) by done.
  assert (El : lazy 64 (step c) (sph_abs sc) data = lazy 64 (step c) (st, take ptr (sc_buf sc)) data).
  { unfold st, ptr, full. destruct (Nat.eqb_spec (sc_ptr sc) 64) as [E|E]; [|done]. rewrite Est, E, take_ge by lia.
    rewrite <-(app_nil_r (sc_buf sc)) at 2. exact (lazy_fill 64 (step c) (sc_st sc) (sc_buf sc) [] data ltac:(lia) ltac:(simpl; lia) Hd). }
  assert (Hp' : (ptr < 64)%nat) by (unfold ptr, full; destruct (Nat.eqb_spec (sc_ptr sc) 64); lia).
  assert (Hst : 0 <= bcount st <= bcount (sc_st sc) + 1).
  { unfold st. destruct full; [|lia]. cbn [step bcount]. rewrite T64_mod, Z.mod_small by lia. lia. }
  assert (Er : r = core_loop c (S fuel) (mk_sph (sc_buf sc) ptr st) (first_flag st) data).
  { unfold r. cbn [core_loop sc_ptr sc_buf sc_st]. rewrite (proj2 (Nat.eqb_neq ptr 64)) by lia.
    unfold st, ptr, full. destruct (Nat.eqb_spec (sc_ptr sc) 64) as [E|E]; [|done]. rewrite first_flag_step by lia. done. }
  rewrite El, Er. cbn [core_loop sc_ptr sc_buf sc_st]. rewrite (proj2 (Nat.eqb_neq ptr 64)) by lia.
  destruct (core_chunk c st (sc_buf sc) ptr data Hb ltac:(lia)) as (Hb' & Hpc & ->). set (k := Nat.min (64 - ptr) (length data)) in *.
  destruct (drop k data) as [|x q] eqn:Eq; [done|]. assert (Hlq : length (x :: q) = (length data - k)%nat) by (rewrite <-Eq; apply length_drop).
  assert (Hk : (1 <= k <= length data)%nat) by (unfold k; lia).
  refine (IH (mk_sph _ (ptr + k) st) (x :: q) _ ltac:(done) ltac:(lia) ltac:(cbn [sc_st]; lia) ltac:(cbn [sc_st]; lia)). by split.
Qed.
Lemma skein_big_core_refines c sc data : core_ok sc -> 0 <= bcount (sc_st sc) -> bcount (sc_st sc) + Z.of_nat (length data) < 2 ^ 64 ->
  core_ok (skein_big_core c sc data) /\ sph_abs (skein_big_core c sc data) = lazy 64 (step c) (sph_abs sc) data.
Proof.
  intros Hok H0 Hn. unfold skein_big_core. destruct (Nat.leb_spec (length data) (64 - sc_ptr sc)) as [Hl|Hl].
  - destruct Hok as [Hb Hp]. unfold core_ok, sph_abs. cbn [sc_buf sc_ptr sc_st]. rewrite length_memcpy by lia. rewrite take_memcpy by lia.
    rewrite lazy_short by (rewrite length_take; lia). split; [split; [done|lia]|done].
  - apply skein_core_loop_refines; [done|intros ->; simpl in Hl; lia|done..].
Qed.
Lemma lazy_bcount c d s r : 0 <= bcount s ->
  0 <= bcount (lazy 64 (step c) (s, r) d).1 <= bcount s + Z.of_nat (length d).
Proof.
  revert s r. induction d as [|x d IH]; intros s r H; [cbn; lia|]. unfold lazy. cbn [foldl lazy1 length].
  case_decide.
  - assert (Hs : 0 <= bcount (step c s r) <= bcount s + 1).
    { cbn [step bcount]. rewrite T64_mod. split; [apply Z.mod_pos_bound; lia|apply Z.mod_le; lia]. }
    generalize dependent (step c s r). intros s' Hs'. specialize (IH s' [x] ltac:(lia)). unfold lazy in IH. lia.
  - specialize (IH s (r ++ [x]) H). unfold lazy in IH. lia.
Qed.
Lemma skein_pieces_refine c sc pieces : core_ok sc -> 0 <= bcount (sc_st sc) -> bcount (sc_st sc) + Z.of_nat (length (concat pieces)) < 2 ^ 64 ->
  core_ok (foldl (skein_big_core c) sc pieces) /\ sph_abs (foldl (skein_big_core c) sc pieces) = lazy 64 (step c) (sph_abs sc) (concat pieces).
Proof.
  revert sc. induction pieces as [|x pieces IH]; intros sc Hok H0 Hn; [done|]. cbn [foldl concat] in *. rewrite length_app in Hn.
  destruct (skein_big_core_refines c sc x Hok H0 ltac:(lia)) as [Hok' E].
  pose proof (lazy_bcount c x (sc_st sc) (take (sc_ptr sc) (sc_buf sc)) H0) as Hbc. fold (sph_abs sc) in Hbc. rewrite <-E in Hbc. cbn [sph_abs fst] in Hbc.
  destruct (IH _ Hok' ltac:(lia) ltac:(lia)) as [Hok2 E2]. split; [exact Hok2|]. by rewrite E2, E, lazy_app.
Qed.

(** ** The chaining values *)

Lemma length_ubi_block G T b : length (ubi_block G T b) = 8%nat.
Proof. unfold ubi_block, threefish. rewrite length_zip_with, length_add_subkey. unfold words_of. by rewrite length_tabulate. Qed.
Lemma UBI_BIG_ref c h bc buf et extra : length h = 8%nat -> 0 <= bc -> 0 <= et < 512 -> 0 <= extra <= 64 -> 64 * bc + extra < 2 ^ 64 ->
  UBI_BIG c h bc buf et extra = ubi_block h (64 * bc + extra + et * 2 ^ 119) buf.
Proof. intros. apply UBI_BIG_T; [done|]. apply tweak_words_ref; lia. Qed.
Lemma ubi_eq c G T h bc buf et extra : h = G -> length h = 8%nat -> 0 <= bc -> 0 <= et < 512 -> 0 <= extra <= 64 -> 64 * bc + extra < 2 ^ 64 ->
  T = 64 * bc + extra + et * 2 ^ 119 -> UBI_BIG c h bc buf et extra = ubi_block G T buf.
Proof. intros -> ? ? ? ? ? ->. by apply UBI_BIG_ref. Qed.
Lemma steps_ref c pad bs G i : length G = 8%nat -> 0 <= i -> 64 * (i + Z.of_nat (length bs)) < 2 ^ 64 ->
  let G' := (foldl (ubi_step 48 pad) (G, i) bs).1 in
  foldl (step c) (mk_skein G i) bs = mk_skein G' (i + Z.of_nat (length bs)) /\ length G' = 8%nat.
Proof.
  revert G i. induction bs as [|b bs IH]; intros G i HG Hi Hn; [rewrite Z.add_0_r; split; [reflexivity|exact HG]|]. cbn [foldl length] in *.
  assert (Es : step c (mk_skein G i) b = mk_skein (ubi_step 48 pad (G, i) b).1 (i + 1)).
  { unfold step, ubi_step. cbn [bcount hs fst]. rewrite T64_mod, Z.mod_small by lia. unfold first_flag. cbn [bcount]. f_equal.
    apply ubi_eq; [reflexivity|done|lia|destruct (i =? 0); lia|lia|lia|]. unfold tweak. destruct (i =? 0); cbn [Z.b2z andb]; lia. }
  rewrite Es. cbn [ubi_step fst]. destruct (IH (ubi_block G (tweak 48 (64 * (i + 1)) (i =? 0) false pad) b) (i + 1)) as [E1 E2]; [apply length_ubi_block|lia|lia|].
  rewrite E1. split; [f_equal; lia|exact E2].
Qed.

(** ** Closing *)

(** What the context holds after a message: the chaining value and the counter after all
    its blocks but the last, and the last block. *)
Lemma skein_message c junk G pieces pad : length junk = 64%nat -> length G = 8%nat -> let m := concat pieces in Z.of_nat (length m) < 2 ^ 64 ->
  let k := ((length m - 1) / 64)%nat in
  let sc := foldl (skein_big_core c) (skein_big_init junk G) pieces in
  let G' := (foldl (ubi_step 48 pad) (G, 0) (nblocks 64 k m)).1 in
  core_ok sc /\ sc_st sc = mk_skein G' (Z.of_nat k) /\ take (sc_ptr sc) (sc_buf sc) = drop (64 * k) m /\ (sc_ptr sc + 64 * k = length m)%nat /\ length G' = 8%nat.
Proof.
  intros Hj HG m Hn k sc G'. destruct (skein_pieces_refine c (skein_big_init junk G) pieces) as [Hok E]; [split; [exact Hj|apply Nat.le_0_l]|cbn [skein_big_init sc_st bcount]; lia|cbn [skein_big_init sc_st bcount]; fold m; lia|].
  fold sc m in E, Hok. unfold skein_big_init in E. unfold sph_abs at 2 in E. cbn [sc_st sc_ptr sc_buf take] in E. rewrite lazy_spec in E by lia. fold k in E.
  assert (Hk : (64 * k <= length m)%nat) by (pose proof (Nat.Div0.mul_div_le (length m - 1) 64); unfold k; lia).
  assert (Hlb : length (nblocks 64 k m) = k) by (clear; generalize m; induction k as [|k IH]; intros l; [done|]; cbn [nblocks length]; by rewrite IH).
  destruct (steps_ref c pad (nblocks 64 k m) G 0 HG ltac:(lia) ltac:(rewrite Hlb; lia)) as [Es Hl]. rewrite Es, Hlb in E. injection E as E1 E2.
  split_and!; [exact Hok|exact E1|exact E2| |exact Hl]. destruct Hok as [Hb Hp]. apply (f_equal length) in E2. rewrite length_take, length_drop in E2. lia.
Qed.
Lemma zero_pad (buf : list Z) (p : nat) : length buf = 64%nat -> (p <= 64)%nat -> memset0 buf p (64 - p) = take p buf ++ replicate (64 - p) 0.
Proof. intros Hb Hp. unfold memset0. apply take_memcpy_all. rewrite length_replicate. lia. Qed.
Lemma skein_output (c : bool) (h : list Z) (out_len : nat) : length h = 8%nat -> (out_len <= 64)%nat ->
  let trips := (if c then (out_len + 7) / 8 else 8)%nat in
  take out_len (foldl (fun buf u => memcpy buf (8 * u) (le_store 8 (h !!! u))) (replicate 64 0) (seq 0 trips)) = take out_len (flat_map (le_store 8) h).
Proof.
  intros Hh Ho trips. set (enc := fun u => le_store 8 (h !!! u)). assert (He : forall u, length (enc u) = 8%nat) by (intros; apply length_le_store).
  assert (Ht : (out_len <= 8 * trips /\ trips <= 8)%nat).
  { unfold trips. destruct c; [|lia]. pose proof (Nat.div_mod_eq (out_len + 7) 8). pose proof (Nat.mod_upper_bound (out_len + 7) 8 ltac:(lia)). lia. }
  assert (Eh : flat_map (le_store 8) h = flat_map enc (seq 0 8)) by (destruct (list8 h Hh) as (? & ? & ? & ? & ? & ? & ? & ? & ->); reflexivity).
  clearbody trips. destruct (store_seq enc 8 He trips (replicate 64 0)) as [_ E]; [rewrite length_replicate; lia|]. cbv zeta in E.
  set (b := foldl _ _ _) in *. transitivity (take out_len (take (8 * trips) b)); [by rewrite take_take, Nat.min_l by lia|]. rewrite E, Eh.
  assert (E8 : seq 0 8 = seq 0 trips ++ seq trips (8 - trips)) by (rewrite <-seq_app; f_equal; lia). rewrite E8, flat_map_app, take_app_le by (rewrite (length_flat_seq enc 8 He); lia). done.
Qed.
Lemma ubi_output c h : length h = 8%nat -> UBI_BIG c h 0 (replicate 64 0) 510 8 = ubi h 63 (le_store 8 0) false.
Proof. intros Hh. rewrite UBI_BIG_ref by (done || lia). exact eq_refl. Qed.
Lemma skein_stream c junk G pieces ub n out_len :
  length junk = 64%nat -> length G = 8%nat -> word 8 ub -> 0 <= n < 8 -> Z.of_nat (length (concat pieces)) < 2 ^ 64 - 1 -> (out_len <= 64)%nat ->
  (skein_big_close c (foldl (skein_big_core c) (skein_big_init junk G) pieces) ub n out_len).2
  = take out_len (flat_map (le_store 8) (ubi (ubi G 48 (if n =? 0 then concat pieces else concat pieces ++ [last_bits ub n]) (negb (n =? 0))) 63 (le_store 8 0) false)).
Proof.
  intros Hj HG Hub Hn HL Ho. set (ps := if n =? 0 then pieces else pieces ++ [[last_bits ub n]]).
  assert (Eps : concat ps = if n =? 0 then concat pieces else concat pieces ++ [last_bits ub n]) by (unfold ps; destruct (n =? 0); [done|by rewrite concat_app]).
  assert (Hlp : Z.of_nat (length (concat ps)) < 2 ^ 64) by (rewrite Eps; destruct (n =? 0); rewrite ?length_app; cbn [length]; lia).
  rewrite <-Eps. unfold skein_big_close.
  assert (Esc : (if n =? 0 then foldl (skein_big_core c) (skein_big_init junk G) pieces
      else skein_big_core c (foldl (skein_big_core c) (skein_big_init junk G) pieces) [final_byte ub n]) = foldl (skein_big_core c) (skein_big_init junk G) ps).
  { unfold ps. destruct (n =? 0); [done|]. rewrite foldl_app. cbn [foldl]. by rewrite (proj1 (final_byte_ref ub n Hub Hn)). }
  rewrite Esc. clear Esc. destruct (skein_message c junk G ps (negb (n =? 0)) Hj HG Hlp) as ([Hb Hp] & Est & Etk & Hlen & HG').
  set (sc := foldl _ _ ps) in *. clearbody sc. set (m := concat ps) in *. clearbody m. set (k := ((length m - 1) / 64)%nat) in *. cbn [snd]. rewrite Est. cbn [hs bcount].
  set (G' := (foldl _ _ _).1) in *. rewrite zero_pad, Etk by done.
  set (b := drop (64 * k) m ++ replicate (64 - sc_ptr sc) 0).
  erewrite (ubi_eq c G' (tweak 48 (Z.of_nat (length m)) (k =? 0)%nat true (negb (n =? 0))) _ _ b); [|reflexivity|exact HG'|lia| |lia|lia|].
  2:{ destruct (Z.of_nat k =? 0), (n =? 0); lia. }
  2:{ unfold tweak. replace (Z.of_nat k =? 0) with (k =? 0)%nat by (destruct (Nat.eqb_spec k 0), (Z.eqb_spec (Z.of_nat k) 0); lia || done).
      destruct (k =? 0)%nat, (n =? 0); cbn [Z.b2z andb negb]; lia. }
  assert (Eb : b = drop (64 * k) m ++ replicate (64 - length (drop (64 * k) m)) 0) by (unfold b; rewrite length_drop; do 2 f_equal; lia).
  assert (EU : ubi_block G' (tweak 48 (Z.of_nat (length m)) (k =? 0)%nat true (negb (n =? 0))) b = ubi G 48 m (negb (n =? 0))) by (rewrite Eb; reflexivity).
  rewrite EU. assert (Hl : length (ubi G 48 m (negb (n =? 0))) = 8%nat) by apply length_ubi_block. generalize dependent (ubi G 48 m (negb (n =? 0))). intros g _ Hg.
  rewrite ubi_output by exact Hg. apply skein_output; [apply length_ubi_block|exact Ho].
Qed.

Lemma skein_ivs : skein_iv (8 * Z.of_nat 28) = IV224 /\ skein_iv (8 * Z.of_nat 32) = IV256 /\ skein_iv (8 * Z.of_nat 48) = IV384 /\ skein_iv (8 * Z.of_nat 64) = IV512.
Proof. split_and!; vm_compute; reflexivity. Qed.
Lemma skein_stream_digest c junk IV pieces ub n out_len :
  length junk = 64%nat -> skein_iv (8 * Z.of_nat out_len) = IV -> word 8 ub -> 0 <= n < 8 -> Z.of_nat (length (concat pieces)) < 2 ^ 64 - 1 -> (out_len <= 64)%nat ->
  (skein_big_close c (foldl (skein_big_core c) (skein_big_init junk IV) pieces) ub n out_len).2 = skein_digest out_len (concat pieces) ub n.
Proof. intros Hj <- Hub Hn HL Ho. rewrite skein_stream by (done || apply length_ubi_block). exact eq_refl. Qed.

Lemma length_skein_digest k m ub n : (k <= 64)%nat -> length (skein_digest k m ub n) = k /\ bytes (skein_digest k m ub n).
Proof.
  intros Hk. unfold skein_digest. set (w := ubi _ 63 _ _). assert (Hw : length w = 8%nat) by apply length_ubi_block. clearbody w.
  destruct (digest_words_gen (le_store 8) 8 w (fun v => conj (length_le_store 8 v) (bytes_le_store 8 v))) as [H1 H2]. split; [rewrite length_take, H1; lia|by apply Forall_take].
Qed.

(** ** Properties *)

(** C17. For the four digest sizes and both builds, feeding a message to [sph_skein*] in any
    pieces and closing with up to 7 extra bits gives the Skein-512 digest of the
    concatenation, as the specification defines it: the rounds on renamed variables are
    Threefish-512 with its permutation, the block that waits gets the tweak of the last block,
    and the initial values are those of the configuration blocks. *)
Theorem sph_skein_streaming c junk pieces ub n :
  length junk = 64%nat -> word 8 ub -> 0 <= n < 8 ->
  let m := concat pieces in
  Z.of_nat (length m) < 2 ^ 64 - 1 ->
  (sph_skein224_addbits_and_close c (foldl (sph_skein224 c) (sph_skein224_init junk) pieces) ub n).2 = skein_digest 28 m ub n /\
  (sph_skein256_addbits_and_close c (foldl (sph_skein256 c) (sph_skein256_init junk) pieces) ub n).2 = skein_digest 32 m ub n /\
  (sph_skein384_addbits_and_close c (foldl (sph_skein384 c) (sph_skein384_init junk) pieces) ub n).2 = skein_digest 48 m ub n /\
  (sph_skein512_addbits_and_close c (foldl (sph_skein512 c) (sph_skein512_init junk) pieces) ub n).2 = skein_digest 64 m ub n.
Proof.
  intros Hj Hub Hn m HL. destruct skein_ivs as (I1 & I2 & I3 & I4).
  split; [exact (skein_stream_digest c junk IV224 pieces ub n 28 Hj I1 Hub Hn HL ltac:(lia))|].
  split; [exact (skein_stream_digest c junk IV256 pieces ub n 32 Hj I2 Hub Hn HL ltac:(lia))|].
  split; [exact (skein_stream_digest c junk IV384 pieces ub n 48 Hj I3 Hub Hn HL ltac:(lia))|].
  exact (skein_stream_digest c junk IV512 pieces ub n 64 Hj I4 Hub Hn HL ltac:(lia)).
Qed.
Lemma sph_skein_streaming_witness :
  (sph_skein512_addbits_and_close true (foldl (sph_skein512 true) (sph_skein512_init (replicate 64 9)) [[0x61]; replicate 70 0x62]) 0xA0 3).2
  = skein_digest 64 (concat [[0x61]; replicate 70 0x62]) 0xA0 3.
Proof.
  refine (proj2 (proj2 (proj2 (sph_skein_streaming true (replicate 64 9) [[0x61]; replicate 70 0x62] 0xA0 3 eq_refl _ _ _)))); unfold word; [lia|lia|reflexivity].
Defined.

(** The empty message, as published. *)
Example skein512_empty :
  take 16 (sph_skein512_close false (sph_skein512_init (replicate 64 0))).2
  = [0xBC; 0x5B; 0x4C; 0x50; 0x92; 0x55; 0x19; 0xC2; 0x90; 0xCC; 0x63; 0x42; 0x77; 0xAE; 0x3D; 0x62].
Proof. vm_compute. reflexivity. Qed.

End Skein.
