(* ===== verification/Shabal.v ===== *)
(** * Shabal ([crypto/ghostrider/sph_shabal.c]).

    The code names the words of the state and writes the 48 steps of the permutation and
    the 36 additions out.  The reference is the submission: the permutation with its
    indices modulo 12 and 16, the 64-bit counter, and, instead of tables of initial values,
    two blocks that hold the digest size. *)
From S2P Require Import Prelude Stream SphCore.

Module Shabal.

Definition A_init_192 : list Z := [
  0xFD749ED4; 0xB798E530; 0x33904B6F; 0x46BDA85E; 0x076934B4; 0x454B4058; 0x77F74527; 0xFB4CF465;
  0x62931DA9; 0xE778C8DB; 0x22B3998E; 0xAC15CFB9].
Definition B_init_192 : list Z := [
  0x58BCBAC4; 0xEC47A08E; 0xAEE933B2; 0xDFCBC824; 0xA7944804; 0xBF65BDB0; 0x5A9D4502; 0x59979AF7;
  0xC5CEA54E; 0x4B6B8150; 0x16E71909; 0x7D632319; 0x930573A0; 0xF34C63D1; 0xCAF914B4; 0xFDD6612C].
Definition C_init_192 : list Z := [
  0x61550878; 0x89EF2B75; 0xA1660C46; 0x7EF3855B; 0x7297B58C; 0x1BC67793; 0x7FB1C723; 0xB66FC640;
  0x1A48B71C; 0xF0976D17; 0x088CE80A; 0xA454EDF3; 0x1C096BF4; 0xAC76224B; 0x5215781C; 0xCD5D2669].
Definition A_init_224 : list Z := [
  0xA5201467; 0xA9B8D94A; 0xD4CED997; 0x68379D7B; 0xA7FC73BA; 0xF1A2546B; 0x606782BF; 0xE0BCFD0F;
  0x2F25374E; 0x069A149F; 0x5E2DFF25; 0xFAECF061].
Definition B_init_224 : list Z := [
  0xEC9905D8; 0xF21850CF; 0xC0A746C8; 0x21DAD498; 0x35156EEB; 0x088C97F2; 0x26303E40; 0x8A2D4FB5;
  0xFEEE44B6; 0x8A1E9573; 0x7B81111A; 0xCBC139F0; 0xA3513861; 0x1D2C362E; 0x918C580E; 0xB58E1B9C].
Definition C_init_224 : list Z := [
  0xE4B573A1; 0x4C1A0880; 0x1E907C51; 0x04807EFD; 0x3AD8CDE5; 0x16B21302; 0x02512C53; 0x2204CB18;
  0x99405F2D; 0xE5B648A1; 0x70AB1D43; 0xA10C25C2; 0x16F1AC05; 0x38BBEB56; 0x9B01DC60; 0xB1096D83].
Definition A_init_256 : list Z := [
  0x52F84552; 0xE54B7999; 0x2D8EE3EC; 0xB9645191; 0xE0078B86; 0xBB7C44C9; 0xD2B5C1CA; 0xB0D2EB8C;
  0x14CE5A45; 0x22AF50DC; 0xEFFDBC6B; 0xEB21B74A].
Definition B_init_256 : list Z := [
  0xB555C6EE; 0x3E710596; 0xA72A652F; 0x9301515F; 0xDA28C1FA; 0x696FD868; 0x9CB6BF72; 0x0AFE4002;
  0xA6E03615; 0x5138C1D4; 0xBE216306; 0xB38B8890; 0x3EA8B96B; 0x3299ACE4; 0x30924DD4; 0x55CB34A5].
Definition C_init_256 : list Z := [
  0xB405F031; 0xC4233EBA; 0xB3733979; 0xC0DD9D55; 0xC51C28AE; 0xA327B8E1; 0x56C56167; 0xED614433;
  0x88B59D60; 0x60E2CEBA; 0x758B4B8B; 0x83E82A7F; 0xBC968828; 0xE6E00BF7; 0xBA839E55; 0x9B491C60].
Definition A_init_384 : list Z := [
  0xC8FCA331; 0xE55C504E; 0x003EBF26; 0xBB6B8D83; 0x7B0448C1; 0x41B82789; 0x0A7C9601; 0x8D659CFF;
  0xB6E2673E; 0xCA54C77B; 0x1460FD7E; 0x3FCB8F2D].
Definition B_init_384 : list Z := [
  0x527291FC; 0x2A16455F; 0x78E627E5; 0x944F169F; 0x1CA6F016; 0xA854EA25; 0x8DB98ABE; 0xF2C62641;
  0x30117DCB; 0xCF5C4309; 0x93711A25; 0xF9F671B8; 0xB01D2116; 0x333F4B89; 0xB285D165; 0x86829B36].
Definition C_init_384 : list Z := [
  0xF764B11A; 0x76172146; 0xCEF6934D; 0xC6D28399; 0xFE095F61; 0x5E6018B4; 0x5048ECF5; 0x51353261;
  0x6E6E36DC; 0x63130DAD; 0xA9C69BD6; 0x1E90EA0C; 0x7C35073B; 0x28D95E6D; 0xAA340E0D; 0xCB3DEE70].
Definition A_init_512 : list Z := [
  0x20728DFD; 0x46C0BD53; 0xE782B699; 0x55304632; 0x71B4EF90; 0x0EA9E82C; 0xDBB930F1; 0xFAD06B8B;
  0xBE0CAE40; 0x8BD14410; 0x76D2ADAC; 0x28ACAB7F].
Definition B_init_512 : list Z := [
  0xC1099CB7; 0x07B385F3; 0xE7442C26; 0xCC8AD640; 0xEB6F56C7; 0x1EA81AA9; 0x73B9D314; 0x1DE85D08;
  0x48910A5A; 0x893B22DB; 0xC5A0DF44; 0xBBC4324E; 0x72D2F240; 0x75941D99; 0x6D8BDE82; 0xA1A7502B].
Definition C_init_512 : list Z := [
  0xD9BF68D1; 0x58BAD750; 0x56028CB2; 0x8134F359; 0xB5D469D8; 0x941A8CC2; 0x418B2A6E; 0x04052780;
  0x7F07D787; 0x5194358F; 0x3C60D665; 0xBE97D79A; 0x950C3434; 0xAED9A06D; 0x2537DC8D; 0x7CDB5969].

Record shabal_state := mk_shabal { sA : list Z; sB : list Z; sC : list Z; Wlow : Z; Whigh : Z }.
Abbreviation shabal_ctx := (sph_ctx shabal_state).

(** [DECODE_BLOCK], [INPUT_BLOCK_ADD], [INPUT_BLOCK_SUB]. *)
Definition DECODE_BLOCK (buf : list Z) : list Z := (fun i => le_load 4 (slice (4 * i) 4 buf)) <$> seq 0 16.
Definition INPUT_BLOCK_ADD (B M : list Z) : list Z := zip_with (fun b m => T32 (b + m)) B M.
Definition INPUT_BLOCK_SUB (C M : list Z) : list Z := zip_with (fun c m => T32 (c - m)) C M.
Definition XOR_W (A : list Z) (wl wh : Z) : list Z := <[1%nat := Z.lxor (A !!! 1%nat) wh]> (<[0%nat := Z.lxor (A !!! 0%nat) wl]> A).

(** The variables of one [PERM_ELT(xa0, xa1, xb0, xb1, xb2, xb3, xc, xm)]. *)
Record elt_args := mk_args { xa0 : nat; xa1 : nat; xb0 : nat; xb1 : nat; xb2 : nat; xb3 : nat; xc : nat; xm : nat }.
Definition PERM_ELT (C M : list Z) '((A, B) : list Z * list Z) (x : elt_args) : list Z * list Z :=
  let a := Z.lxor (Z.lxor (Z.lxor
    (T32 (Z.lxor (Z.lxor (A !!! xa0 x) (T32 (rotl32 (A !!! xa1 x) 15 * 5))) (C !!! xc x) * 3))
    (B !!! xb1 x)) (Z.land (B !!! xb2 x) (not32 (B !!! xb3 x)))) (M !!! xm x) in
  (<[xa0 x := a]> A, <[xb0 x := T32 (Z.lnot (Z.lxor (rotl32 (B !!! xb0 x) 1) a))]> B).
Definition PERM_STEP_0 : list elt_args := [
  mk_args 0 11 0 13 9 6 8 0; mk_args 1 0 1 14 10 7 7 1; mk_args 2 1 2 15 11 8 6 2; mk_args 3 2 3 0 12 9 5 3;
  mk_args 4 3 4 1 13 10 4 4; mk_args 5 4 5 2 14 11 3 5; mk_args 6 5 6 3 15 12 2 6; mk_args 7 6 7 4 0 13 1 7;
  mk_args 8 7 8 5 1 14 0 8; mk_args 9 8 9 6 2 15 15 9; mk_args 10 9 10 7 3 0 14 10; mk_args 11 10 11 8 4 1 13 11;
  mk_args 0 11 12 9 5 2 12 12; mk_args 1 0 13 10 6 3 11 13; mk_args 2 1 14 11 7 4 10 14; mk_args 3 2 15 12 8 5 9 15].
Definition PERM_STEP_1 : list elt_args := [
  mk_args 4 3 0 13 9 6 8 0; mk_args 5 4 1 14 10 7 7 1; mk_args 6 5 2 15 11 8 6 2; mk_args 7 6 3 0 12 9 5 3;
  mk_args 8 7 4 1 13 10 4 4; mk_args 9 8 5 2 14 11 3 5; mk_args 10 9 6 3 15 12 2 6; mk_args 11 10 7 4 0 13 1 7;
  mk_args 0 11 8 5 1 14 0 8; mk_args 1 0 9 6 2 15 15 9; mk_args 2 1 10 7 3 0 14 10; mk_args 3 2 11 8 4 1 13 11;
  mk_args 4 3 12 9 5 2 12 12; mk_args 5 4 13 10 6 3 11 13; mk_args 6 5 14 11 7 4 10 14; mk_args 7 6 15 12 8 5 9 15].
Definition PERM_STEP_2 : list elt_args := [
  mk_args 8 7 0 13 9 6 8 0; mk_args 9 8 1 14 10 7 7 1; mk_args 10 9 2 15 11 8 6 2; mk_args 11 10 3 0 12 9 5 3;
  mk_args 0 11 4 1 13 10 4 4; mk_args 1 0 5 2 14 11 3 5; mk_args 2 1 6 3 15 12 2 6; mk_args 3 2 7 4 0 13 1 7;
  mk_args 4 3 8 5 1 14 0 8; mk_args 5 4 9 6 2 15 15 9; mk_args 6 5 10 7 3 0 14 10; mk_args 7 6 11 8 4 1 13 11;
  mk_args 8 7 12 9 5 2 12 12; mk_args 9 8 13 10 6 3 11 13; mk_args 10 9 14 11 7 4 10 14; mk_args 11 10 15 12 8 5 9 15].
Definition A_additions : list (nat * nat) := [
  (11, 6); (10, 5); (9, 4); (8, 3); (7, 2); (6, 1); (5, 0); (4, 15); (3, 14); (2, 13); (1, 12); (0, 11);
  (11, 10); (10, 9); (9, 8); (8, 7); (7, 6); (6, 5); (5, 4); (4, 3); (3, 2); (2, 1); (1, 0); (0, 15);
  (11, 14); (10, 13); (9, 12); (8, 11); (7, 10); (6, 9); (5, 8); (4, 7); (3, 6); (2, 5); (1, 4); (0, 3)]%nat.
Definition APPLY_P (A B C M : list Z) : list Z * list Z :=
  let B := (fun b => Z.lor (T32 (Z.shiftl b 17)) (Z.shiftr b 15)) <$> B in
  let '(A, B) := foldl (PERM_ELT C M) (A, B) PERM_STEP_0 in
  let '(A, B) := foldl (PERM_ELT C M) (A, B) PERM_STEP_1 in
  let '(A, B) := foldl (PERM_ELT C M) (A, B) PERM_STEP_2 in
  (foldl (fun A x => <[x.1 := T32 (A !!! x.1 + C !!! x.2)]> A) A A_additions, B).
Definition INCR_W (wl wh : Z) : Z * Z := let wl := T32 (wl + 1) in (wl, if wl =? 0 then T32 (wh + 1) else wh).

(** A context whose size is not one of the five is left as it is. *)
Definition shabal_init (cc : shabal_ctx) (size : Z) : shabal_ctx :=
  let set A B C := mk_sph (sc_buf cc) 0 (mk_shabal A B C 1 0) in
  if size =? 192 then set A_init_192 B_init_192 C_init_192
  else if size =? 224 then set A_init_224 B_init_224 C_init_224
  else if size =? 256 then set A_init_256 B_init_256 C_init_256
  else if size =? 384 then set A_init_384 B_init_384 C_init_384
  else if size =? 512 then set A_init_512 B_init_512 C_init_512
  else cc.
Definition shabal_block (st : shabal_state) (buf : list Z) : shabal_state :=
  let M := DECODE_BLOCK buf in
  let B := INPUT_BLOCK_ADD (sB st) M in
  let A := XOR_W (sA st) (Wlow st) (Whigh st) in
  let '(A, B) := APPLY_P A B (sC st) M in
  let C := INPUT_BLOCK_SUB (sC st) M in
  let '(wl, wh) := INCR_W (Wlow st) (Whigh st) in
  mk_shabal A C B wl wh.
Definition shabal_core : shabal_ctx -> list Z -> shabal_ctx := sph_core 64 shabal_block.

(** One trip of the loop of [shabal_close]. *)
Definition close_trip (M : list Z) (wl wh : Z) '((A, B, C) : list Z * list Z * list Z) : list Z * list Z * list Z :=
  let '(B, C) := (C, B) in
  let '(A, B) := APPLY_P (XOR_W A wl wh) B C M in (A, B, C).
(** [tmp_out] is what the array on the stack holds; sizes without a case write nothing. *)
Definition shabal_close (tmp_out : list Z) (sc : shabal_ctx) (ub n : Z) (size_words : nat) : shabal_ctx * option (list Z) :=
  let buf := <[sc_ptr sc := final_byte ub n]> (sc_buf sc) in
  let buf := memset0 buf (sc_ptr sc + 1) (64 - (sc_ptr sc + 1)) in
  let st := sc_st sc in
  let M := DECODE_BLOCK buf in
  let B := INPUT_BLOCK_ADD (sB st) M in
  let '(A, B) := APPLY_P (XOR_W (sA st) (Wlow st) (Whigh st)) B (sC st) M in
  let '(_, B, _) := Nat.iter 3 (close_trip M (Wlow st) (Whigh st)) (A, B, sC st) in
  let enc t i := memcpy t (4 * i) (le_store 4 (B !!! i)) in
  let from i t := foldl enc t (seq i (16 - i)) in
  let out t := Some (drop (64 - 4 * size_words) t) in
  (mk_sph buf (sc_ptr sc) st,
   match size_words with
   | 16%nat => out (from 0%nat tmp_out)
   | 12%nat => out (from 4%nat tmp_out)
   | 8%nat => out (from 8%nat tmp_out)
   | 7%nat => out (from 9%nat tmp_out)
   | 6%nat => out (from 10%nat tmp_out)
   | _ => None
   end).

Definition sph_shabal256_init (cc : shabal_ctx) : shabal_ctx := shabal_init cc 256.
Definition sph_shabal256 : shabal_ctx -> list Z -> shabal_ctx := shabal_core.
Definition sph_shabal256_close (tmp_out : list Z) (cc : shabal_ctx) := shabal_close tmp_out cc 0 0 8.
Definition sph_shabal256_addbits_and_close (tmp_out : list Z) (cc : shabal_ctx) (ub n : Z) := shabal_close tmp_out cc ub n 8.
Definition sph_shabal512_init (cc : shabal_ctx) : shabal_ctx := shabal_init cc 512.
Definition sph_shabal512 : shabal_ctx -> list Z -> shabal_ctx := shabal_core.
Definition sph_shabal512_close (tmp_out : list Z) (cc : shabal_ctx) := shabal_close tmp_out cc 0 0 16.
Definition sph_shabal512_addbits_and_close (tmp_out : list Z) (cc : shabal_ctx) (ub n : Z) := shabal_close tmp_out cc ub n 16.

(** ** Reference *)

Definition U (x : Z) : Z := (3 * x) mod 2 ^ 32.
Definition V (x : Z) : Z := (5 * x) mod 2 ^ 32.
Definition neg (x : Z) : Z := (- 1 - x) mod 2 ^ 32.
Definition perm_step (C M : list Z) '((A, B) : list Z * list Z) (j : nat) : list Z * list Z :=
  let i := (j mod 16)%nat in
  let a := Z.lxor (Z.lxor (Z.lxor (U (Z.lxor (Z.lxor (A !!! (j mod 12)%nat) (V (rotl32 (A !!! ((j + 11) mod 12)%nat) 15))) (C !!! ((24 - i) mod 16)%nat)))
    (B !!! ((i + 13) mod 16)%nat)) (Z.land (B !!! ((i + 9) mod 16)%nat) (not32 (B !!! ((i + 6) mod 16)%nat)))) (M !!! i) in
  (<[(j mod 12)%nat := a]> A, <[i := neg (Z.lxor (rotl32 (B !!! i) 1) a)]> B).
Definition perm (A B C M : list Z) : list Z * list Z :=
  let '(A, B) := foldl (perm_step C M) (A, (fun b => rotl32 b 17) <$> B) (seq 0 48) in
  (foldl (fun A j => <[(j mod 12)%nat := (A !!! (j mod 12)%nat + C !!! ((j + 3) mod 16)%nat) mod 2 ^ 32]> A) A (seq 0 36), B).
(** A message round: add the block, insert the counter, permute, subtract the block, exchange [B] and [C]. *)
Definition shabal_round (W : Z) (M : list Z) '((A, B, C) : list Z * list Z * list Z) : list Z * list Z * list Z :=
  let B := zip_with (fun b m => (b + m) mod 2 ^ 32) B M in
  let A := <[0%nat := Z.lxor (A !!! 0%nat) (W mod 2 ^ 32)]> (<[1%nat := Z.lxor (A !!! 1%nat) (W / 2 ^ 32)]> A) in
  let '(A, B) := perm A B C M in
  (A, zip_with (fun c m => (c - m) mod 2 ^ 32) C M, B).
Definition words_of_block (b : list Z) : list Z := (fun i => le_load 4 (slice (4 * i) 4 b)) <$> seq 0 16.
(** The prefix: words [size], [size + 1], ... in two blocks numbered -1 and 0. *)
Definition shabal_iv (size : Z) : list Z * list Z * list Z :=
  let z := (replicate 12 0, replicate 16 0, replicate 16 0) in
  let M k := (fun i => size + 16 * k + Z.of_nat i) <$> seq 0 16 in
  shabal_round 0 (M 1) (shabal_round (2 ^ 64 - 1) (M 0) z).
Definition shabal_pad (m : list Z) (ub n : Z) : list Z := m ++ last_bits ub n :: replicate (63 - length m mod 64) 0.
Definition ref_block '((st, W) : (list Z * list Z * list Z) * Z) (M : list Z) : (list Z * list Z * list Z) * Z := (shabal_round W M st, (W + 1) mod 2 ^ 64).
(** Blocks from number 1 on; the last one three more times with the same number; the last words of [C]. *)
Definition shabal_digest (words : nat) (m : list Z) (ub n : Z) : list Z :=
  let bs := words_of_block <$> blocks 64 (shabal_pad m ub n) in
  let '(st, W) := foldl ref_block (shabal_iv (32 * Z.of_nat words), 1) bs in
  let '(_, _, C) := Nat.iter 3 (shabal_round ((W - 1) mod 2 ^ 64) (List.last bs [])) st in
  flat_map (le_store 4) (drop (16 - words) C).

(** ** The permutation *)

Definition args_of (j : nat) : elt_args :=
  let i := (j mod 16)%nat in mk_args (j mod 12) ((j + 11) mod 12) i ((i + 13) mod 16) ((i + 9) mod 16) ((i + 6) mod 16) ((24 - i) mod 16) i.
Lemma steps_args : PERM_STEP_0 ++ PERM_STEP_1 ++ PERM_STEP_2 =
  args_of <$> seq 0 48.
Proof. exact eq_refl. Qed.
Lemma neg_ref x : T32 (Z.lnot x) = neg x.
Proof. unfold neg. rewrite T32_mod. f_equal. unfold Z.lnot. lia. Qed.
Lemma shabal_steps_ref C M l A B :
  foldl (PERM_ELT C M) (A, B) (args_of <$> l)
  = foldl (perm_step C M) (A, B) l.
Proof.
  revert A B. induction l as [|j l IH]; intros A B; [done|]. cbn [fmap list_fmap foldl].
  assert (E : PERM_ELT C M (A, B) (args_of j) = perm_step C M (A, B) j).
  { unfold PERM_ELT, perm_step, U, V, args_of. cbn [xa0 xa1 xb0 xb1 xb2 xb3 xc xm]. cbv zeta. rewrite neg_ref, !T32_mod, !(Z.mul_comm 5), !(Z.mul_comm 3). reflexivity. }
  rewrite E. destruct (perm_step C M (A, B) j) as [A' B']. apply IH.
Qed.
Lemma three_sums a x y z : T32 (T32 (T32 (a + x) + y) + z) = (((a + z) mod 2 ^ 32 + y) mod 2 ^ 32 + x) mod 2 ^ 32.
Proof.
  rewrite !T32_mod, (Zplus_mod_idemp_l (a + x) y), (Zplus_mod_idemp_l (a + x + y) z), (Zplus_mod_idemp_l (a + z) y), (Zplus_mod_idemp_l (a + z + y) x). f_equal. lia.
Qed.
Lemma additions_ref (c : nat -> Z) A : length A = 12%nat ->
  foldl (fun A x => <[x.1 := T32 (A !!! x.1 + c x.2)]> A) A A_additions
  = foldl (fun A j => <[(j mod 12)%nat := (A !!! (j mod 12)%nat + c ((j + 3) mod 16)%nat) mod 2 ^ 32]> A) A (seq 0 36).
Proof.
  intros HA. do 12 (destruct A as [|? A]; [done|]). destruct A; [|done]. clear HA. cbv -[T32 Z.add Z.modulo Z.pow].
  repeat (apply (f_equal2 cons); [apply three_sums|]). reflexivity.
Qed.
Definition sizes (A B : list Z) : Prop := length A = 12%nat /\ length B = 16%nat /\ words32 B.
Lemma perm_steps_sizes C M l A B : sizes A B -> sizes (foldl (perm_step C M) (A, B) l).1 (foldl (perm_step C M) (A, B) l).2.
Proof.
  revert A B. induction l as [|j l IH]; intros A B H; [done|]. cbn [foldl]. destruct H as (HA & HB & HW).
  assert (H' : sizes (perm_step C M (A, B) j).1 (perm_step C M (A, B) j).2).
  { unfold perm_step, sizes. cbv zeta. cbn [fst snd]. rewrite !length_insert. split_and!; [done|done|]. apply Forall_insert; [done|]. unfold neg. apply word_mod. lia. }
  destruct (perm_step C M (A, B) j) as [A' B']. by apply IH.
Qed.
Lemma length_sums (c : nat -> Z) l A : length (foldl (fun A j => <[(j mod 12)%nat := (A !!! (j mod 12)%nat + c ((j + 3) mod 16)%nat) mod 2 ^ 32]> A) A l) = length A.
Proof. revert A. induction l as [|j l IH]; intros A; [done|]. cbn [foldl]. by rewrite IH, length_insert. Qed.
Lemma perm_ref A B C M : sizes A B -> APPLY_P A B C M = perm A B C M /\ sizes (perm A B C M).1 (perm A B C M).2.
Proof.
  intros (HA & HB & HW). unfold APPLY_P, perm.
  change ((fun b => Z.lor (T32 (Z.shiftl b 17)) (Z.shiftr b 15)) <$> B) with ((fun b => rotl32 b 17) <$> B). set (B1 := (fun b => rotl32 b 17) <$> B).
  assert (H1 : sizes A B1) by (unfold B1; split_and!; [done|by rewrite length_fmap|apply Forall_fmap; eapply list.Forall_impl; [exact HW|]; intros b Hb; by apply word_rotl32]).
  pose proof (shabal_steps_ref C M (seq 0 48) A B1) as E. rewrite <-steps_args, !foldl_app in E. pose proof (perm_steps_sizes C M (seq 0 48) A B1 H1) as H2.
  destruct (foldl (PERM_ELT C M) (A, B1) PERM_STEP_0) as [A2 B2]. destruct (foldl (PERM_ELT C M) (A2, B2) PERM_STEP_1) as [A3 B3]. rewrite E.
  destruct (foldl (perm_step C M) (A, B1) (seq 0 48)) as [A4 B4]. cbn [fst snd] in H2. destruct H2 as (HA4 & HB4 & HW4). rewrite (additions_ref (fun k => C !!! k)) by done.
  split; [reflexivity|]. cbn [fst snd]. split_and!; [by rewrite (length_sums (fun k => C !!! k))|done|done].
Qed.

(** ** The rounds *)

Definition st_of (st : shabal_state) : list Z * list Z * list Z := (sA st, sB st, sC st).
Definition W_of (st : shabal_state) : Z := Wlow st + 2 ^ 32 * Whigh st.
Record state_ok (st : shabal_state) : Prop := {
  so_A : length (sA st) = 12%nat; so_B : length (sB st) = 16%nat; so_C : length (sC st) = 16%nat;
  so_words : words32 (sC st); so_low : word 32 (Wlow st); so_high : word 32 (Whigh st) }.
Lemma W_split st : state_ok st -> W_of st mod 2 ^ 32 = Wlow st /\ W_of st / 2 ^ 32 = Whigh st.
Proof.
  intros [_ _ _ _ Hl Hh]. unfold W_of, word in *. rewrite (Z.mul_comm (2 ^ 32)), Z.mod_add, Z.div_add by lia. rewrite Z.mod_small, Z.div_small by lia. split; lia.
Qed.
Lemma INCR_W_ref st : state_ok st ->
  let '(wl, wh) := INCR_W (Wlow st) (Whigh st) in word 32 wl /\ word 32 wh /\ wl + 2 ^ 32 * wh = (W_of st + 1) mod 2 ^ 64.
Proof.
  intros [_ _ _ _ Hl Hh]. unfold INCR_W, W_of. rewrite !T32_mod. unfold word in *.
  destruct (Z.eq_dec (Wlow st) (2 ^ 32 - 1)) as [E|E].
  - rewrite E. change ((2 ^ 32 - 1 + 1) mod 2 ^ 32) with 0. cbn [Z.eqb]. destruct (Z.eq_dec (Whigh st) (2 ^ 32 - 1)) as [E'|E'].
    + rewrite E'. vm_compute. intuition congruence.
    + rewrite Z.mod_small by lia. split; [lia|]. split; [lia|]. rewrite Z.mod_small by lia. lia.
  - rewrite (Z.mod_small (Wlow st + 1)) by lia. rewrite (proj2 (Z.eqb_neq _ 0)) by lia. split; [lia|]. split; [lia|]. rewrite Z.mod_small by lia. lia.
Qed.
Lemma XOR_W_ref A wl wh : XOR_W A wl wh = <[0%nat := Z.lxor (A !!! 0%nat) wl]> (<[1%nat := Z.lxor (A !!! 1%nat) wh]> A).
Proof.
  unfold XOR_W. by apply list_insert_insert_ne.
Qed.
Lemma add_ref (B M : list Z) : INPUT_BLOCK_ADD B M = zip_with (fun b m => (b + m) mod 2 ^ 32) B M.
Proof. unfold INPUT_BLOCK_ADD. apply zip_with_ext; [|done|done]. intros. apply T32_mod. Qed.
Lemma sub_ref (C M : list Z) : INPUT_BLOCK_SUB C M = zip_with (fun c m => (c - m) mod 2 ^ 32) C M.
Proof. unfold INPUT_BLOCK_SUB. apply zip_with_ext; [|done|done]. intros. apply T32_mod. Qed.
Lemma words_zip_mod (f : Z -> Z -> Z) (x y : list Z) : words32 (zip_with (fun a b => f a b mod 2 ^ 32) x y).
Proof. revert y. induction x as [|a x IH]; intros [|b y]; [constructor..|]. cbn [zip_with]. apply List.Forall_cons; [apply word_mod; lia|apply IH]. Qed.
Lemma length_DECODE buf : length (DECODE_BLOCK buf) = 16%nat.
Proof. unfold DECODE_BLOCK. by rewrite length_fmap. Qed.

(** One round of the code on [A], [B] and [C] before the subtraction. *)
Definition before (M : list Z) '((A, B, C) : list Z * list Z * list Z) : list Z * list Z * list Z := (A, zip_with (fun c m => (c - m) mod 2 ^ 32) C M, B).
Lemma shabal_round_ref A B C M wl wh W : length A = 12%nat -> length B = 16%nat -> length C = 16%nat -> length M = 16%nat -> words32 C -> W mod 2 ^ 32 = wl -> W / 2 ^ 32 = wh ->
  let '(A', B') := APPLY_P (XOR_W A wl wh) (INPUT_BLOCK_ADD B M) C M in
  shabal_round W M (A, B, C) = before M (A', B', C) /\ length A' = 12%nat /\ length B' = 16%nat /\ words32 B'.
Proof.
  intros HA HB HC HM HW <- <-. rewrite XOR_W_ref, add_ref. set (A1 := <[0%nat := _]> _). set (B1 := zip_with _ B M).
  assert (Hs : sizes A1 B1) by (split_and!; [unfold A1; by rewrite !length_insert|unfold B1; rewrite length_zip_with; lia|apply words_zip_mod]).
  destruct (perm_ref A1 B1 C M Hs) as [-> H]. unfold shabal_round, before. fold A1 B1. destruct (perm A1 B1 C M) as [A' B']. cbn [fst snd] in H. destruct H as (? & ? & ?). done.
Qed.
Lemma shabal_block_ref st buf : state_ok st -> state_ok (shabal_block st buf) /\
  st_of (shabal_block st buf) = shabal_round (W_of st) (words_of_block buf) (st_of st) /\ W_of (shabal_block st buf) = (W_of st + 1) mod 2 ^ 64.
Proof.
  intros Hok. pose proof (INCR_W_ref st Hok) as Hi. destruct (W_split st Hok) as [El Eh]. destruct Hok as [HA HB HC HW Hl Hh].
  pose proof (shabal_round_ref (sA st) (sB st) (sC st) (DECODE_BLOCK buf) _ _ (W_of st) HA HB HC (length_DECODE buf) HW El Eh) as Hr. unfold shabal_block, st_of. change (words_of_block buf) with (DECODE_BLOCK buf).
  destruct (APPLY_P _ _ _ _) as [A' B']. destruct (INCR_W _ _) as [wl wh]. destruct Hr as (Er & HA' & HB' & HW'). destruct Hi as (Hwl & Hwh & Ew).
  cbn [sA sB sC Wlow Whigh]. unfold W_of at 2. cbn [Wlow Whigh]. split; [|split; [|exact Ew]].
  - split; cbn [sA sB sC Wlow Whigh]; [done| |done|done|done|done]. rewrite sub_ref, length_zip_with, length_DECODE. lia.
  - rewrite Er, sub_ref. reflexivity.
Qed.
(** Adding the block back. *)
Lemma add_sub (C M : list Z) : words32 C -> length C = length M -> zip_with (fun b m => (b + m) mod 2 ^ 32) (zip_with (fun c m => (c - m) mod 2 ^ 32) C M) M = C.
Proof.
  intros HC. revert M. induction HC as [|c C Hc _ IH]; intros [|m M] H; [done..|]. cbn [zip_with]. rewrite IH by (cbn in H; lia). f_equal.
  rewrite Zplus_mod_idemp_l. replace (c - m + m) with c by lia. by apply Z.mod_small.
Qed.
Lemma close_trip_ref A B C M wl wh W : length A = 12%nat -> length B = 16%nat -> length C = 16%nat -> length M = 16%nat -> words32 B -> words32 C -> W mod 2 ^ 32 = wl -> W / 2 ^ 32 = wh ->
  let '(A', B', C') := close_trip M wl wh (A, B, C) in
  shabal_round W M (before M (A, B, C)) = before M (A', B', C') /\ length A' = 12%nat /\ length B' = 16%nat /\ words32 B' /\ C' = B.
Proof.
  intros HA HB HC HM HWB HWC El Eh. unfold close_trip. set (D := zip_with (fun c m => (c - m) mod 2 ^ 32) C M).
  assert (HD : length D = 16%nat) by (unfold D; rewrite length_zip_with; lia).
  pose proof (shabal_round_ref A D B M wl wh W HA HD HB HM HWB El Eh) as Hr. rewrite add_ref in Hr. pose proof (add_sub C M HWC ltac:(lia)) as Es. fold D in Es. rewrite Es in Hr. clear Es.
  destruct (APPLY_P _ _ _ _) as [A' B']. destruct Hr as (Er & H1 & H2 & H3). unfold before at 1. fold D. rewrite Er. split_and!; done.
Qed.
Lemma close_trips_ref A B C M wl wh W : length A = 12%nat -> length B = 16%nat -> length C = 16%nat -> length M = 16%nat -> words32 B -> words32 C -> W mod 2 ^ 32 = wl -> W / 2 ^ 32 = wh ->
  forall k, let '(A', B', C') := Nat.iter k (close_trip M wl wh) (A, B, C) in
  Nat.iter k (shabal_round W M) (before M (A, B, C)) = before M (A', B', C') /\ length A' = 12%nat /\ length B' = 16%nat /\ length C' = 16%nat /\ words32 B' /\ words32 C'.
Proof.
  intros HA HB HC HM HWB HWC El Eh k. induction k as [|k IH]; [split_and!; done|]. rewrite !Nat.iter_succ. destruct (Nat.iter k (close_trip M wl wh) (A, B, C)) as [[A1 B1] C1].
  destruct IH as (E & H1 & H2 & H3 & H4 & H5). pose proof (close_trip_ref A1 B1 C1 M wl wh W H1 H2 H3 HM H4 H5 El Eh) as Ht. destruct (close_trip M wl wh (A1, B1, C1)) as [[A2 B2] C2].
  destruct Ht as (E' & G1 & G2 & G3 & ->). rewrite E, E'. split_and!; done.
Qed.

(** ** Streaming *)

Lemma shabal_blocks_ref bs st : state_ok st -> let st' := foldl shabal_block st bs in
  state_ok st' /\ (st_of st', W_of st') = foldl ref_block (st_of st, W_of st) (words_of_block <$> bs).
Proof.
  revert st. induction bs as [|b bs IH]; intros st Hok; [done|]. cbn [foldl fmap list_fmap ref_block]. destruct (shabal_block_ref st b Hok) as (Hok' & E & EW). rewrite <-E, <-EW. by apply IH.
Qed.
Lemma word_W st : state_ok st -> 0 <= W_of st < 2 ^ 64.
Proof. intros [_ _ _ _ Hl Hh]. unfold W_of, word in *. lia. Qed.
(** The bytes written from word [i] on. *)
Lemma shabal_words_out (B t : list Z) i : length B = 16%nat -> length t = 64%nat -> (i <= 16)%nat ->
  drop (4 * i) (foldl (fun t i => memcpy t (4 * i) (le_store 4 (B !!! i))) t (seq i (16 - i))) = flat_map (le_store 4) (drop i B).
Proof.
  intros HB Ht Hi. destruct (store_from (fun i => le_store 4 (B !!! i)) 4 (fun _ => length_le_store _ _) i (16 - i) t) as [Hl E]; [lia|]. cbv zeta in *.
  replace (4 * (i + (16 - i)))%nat with 64%nat in E by lia. rewrite take_ge in E by lia. rewrite E. clear E Hl.
  do 16 (destruct B as [|? B]; [done|]). destruct B; [|done]. do 17 (destruct i as [|i]; [exact eq_refl|]). lia.
Qed.
Lemma shabal_close_ref tmp sc ub n (w : nat) m : In w [6; 7; 8; 12; 16]%nat -> length tmp = 64%nat -> word 8 ub -> 0 <= n < 8 ->
  sph_ok 64 sc -> state_ok (sc_st sc) -> (st_of (sc_st sc), W_of (sc_st sc)) = foldl ref_block (shabal_iv (32 * Z.of_nat w), 1) (words_of_block <$> blocks 64 m) ->
  sc_ptr sc = (length m mod 64)%nat -> take (sc_ptr sc) (sc_buf sc) = leftover 64 m ->
  (shabal_close tmp sc ub n w).2 = Some (shabal_digest w m ub n) /\ length (shabal_digest w m ub n) = (4 * w)%nat /\ bytes (shabal_digest w m ub n).
Proof.
  intros Hw Ht Hub Hn Hok Hst Efold Ep El. unfold shabal_close. rewrite Nat.add_1_r, (pad_buffer 64 sc _ Hok), El, (proj1 (final_byte_ref ub n Hub Hn)).
  set (b := leftover 64 m ++ [last_bits ub n] ++ replicate (64 - S (sc_ptr sc)) 0). pose proof (Nat.mod_upper_bound (length m) 64 ltac:(lia)) as Hlt.
  assert (Hpad : blocks 64 (shabal_pad m ub n) = blocks 64 m ++ [b]).
  { unfold b, shabal_pad. rewrite Ep. replace (64 - S (length m mod 64))%nat with (63 - length m mod 64)%nat by lia. apply blocks_last; [lia|].
    rewrite !length_app, length_leftover, length_replicate by lia. cbn [length]. lia. }
  destruct (W_split _ Hst) as [E1 E2]. pose proof (word_W _ Hst) as HW. destruct Hst as [HA HB HC HWC Hl Hh]. set (st := sc_st sc) in *. change (words_of_block b) with (DECODE_BLOCK b).
  set (M := DECODE_BLOCK b). assert (HM : length M = 16%nat) by apply length_DECODE.
  pose proof (shabal_round_ref (sA st) (sB st) (sC st) M _ _ (W_of st) HA HB HC HM HWC E1 E2) as Hr. destruct (APPLY_P _ _ _ _) as [A' B']. destruct Hr as (Er & HA' & HB' & HWB').
  pose proof (close_trips_ref A' B' (sC st) M _ _ (W_of st) HA' HB' HC HM HWB' HWC E1 E2 3) as Hc. destruct (Nat.iter 3 (close_trip _ _ _) _) as [[A3 B3] C3].
  destruct Hc as (Ec & _ & HB3 & _). assert (Ed : shabal_digest w m ub n = flat_map (le_store 4) (drop (16 - w) B3)).
  { unfold shabal_digest. rewrite Hpad, fmap_app, foldl_app. rewrite <-Efold. cbn [fmap list_fmap foldl ref_block]. rewrite last_last. unfold st_of. change (words_of_block b) with M. rewrite Er.
    rewrite Zminus_mod_idemp_l, Z.add_simpl_r, Z.mod_small by done. rewrite Ec. reflexivity. }
  rewrite Ed. cbn [snd]. split; cycle 1.
  { destruct (digest_words_gen (le_store 4) 4 (drop (16 - w) B3) (fun v => conj (length_le_store 4 v) (bytes_le_store 4 v))) as [Hd Hbd]. split; [|done].
    rewrite Hd, length_drop, HB3. simpl in Hw. lia. }
  simpl in Hw.
  destruct Hw as [<-|[<-|[<-|[<-|[<-|[]]]]]]; cbv beta iota; f_equal; [exact (shabal_words_out B3 tmp 10 HB3 Ht ltac:(lia))|exact (shabal_words_out B3 tmp 9 HB3 Ht ltac:(lia))|exact (shabal_words_out B3 tmp 8 HB3 Ht ltac:(lia))
    |exact (shabal_words_out B3 tmp 4 HB3 Ht ltac:(lia))|exact (shabal_words_out B3 tmp 0 HB3 Ht ltac:(lia))].
Qed.
Lemma init_ref cc w : In w [6; 7; 8; 12; 16]%nat ->
  let c := shabal_init cc (32 * Z.of_nat w) in
  c = mk_sph (sc_buf cc) 0 (sc_st c) /\ state_ok (sc_st c) /\ (st_of (sc_st c), W_of (sc_st c)) = (shabal_iv (32 * Z.of_nat w), 1).
Proof.
  intros Hw. simpl in Hw. destruct Hw as [<-|[<-|[<-|[<-|[<-|[]]]]]];
    (split; [exact eq_refl|split; [split; [exact eq_refl..|apply words32_by; exact eq_refl|vm_compute; intuition congruence|vm_compute; intuition congruence]|vm_compute; reflexivity]]).
Qed.
Lemma shabal_stream cc tmp pieces ub n w : In w [6; 7; 8; 12; 16]%nat -> length (sc_buf cc) = 64%nat -> length tmp = 64%nat -> word 8 ub -> 0 <= n < 8 ->
  (shabal_close tmp (foldl shabal_core (shabal_init cc (32 * Z.of_nat w)) pieces) ub n w).2 = Some (shabal_digest w (concat pieces) ub n) /\
  length (shabal_digest w (concat pieces) ub n) = (4 * w)%nat /\ bytes (shabal_digest w (concat pieces) ub n).
Proof.
  intros Hw Hb Ht Hub Hn. destruct (init_ref cc w Hw) as (Ec & Hok & E0). rewrite Ec. clear Ec. set (st := sc_st _) in *. clearbody st.
  destruct (sph_pieces_spec 64 shabal_block ltac:(lia) (sc_buf cc) st pieces Hb) as (Hc & Est & Ep & El). cbv zeta in *. change (sph_core 64 shabal_block) with shabal_core in *.
  set (c := foldl shabal_core _ pieces) in *. clearbody c. destruct (shabal_blocks_ref (blocks 64 (concat pieces)) st Hok) as [Hok' E]. rewrite <-Est, E0 in *.
  exact (shabal_close_ref tmp c ub n w (concat pieces) Hw Ht Hub Hn Hc Hok' E Ep El).
Qed.
Lemma shabal_digest_bytes w m ub n : In w [6; 7; 8; 12; 16]%nat -> word 8 ub -> 0 <= n < 8 -> length (shabal_digest w m ub n) = (4 * w)%nat /\ bytes (shabal_digest w m ub n).
Proof.
  intros Hw Hub Hn. pose proof (shabal_stream (mk_sph (replicate 64 0) 0 (mk_shabal [] [] [] 0 0)) (replicate 64 0) [m] ub n w Hw eq_refl eq_refl Hub Hn) as [_ E].
  cbn [concat] in E. by rewrite app_nil_r in E.
Qed.

(** ** Properties *)

(** For every digest size of its tables, feeding a message to Shabal in any pieces and
    closing with up to 7 extra bits gives the digest of the concatenation as the submission
    defines it: the 48 written-out steps and the 36 additions, made in the opposite order, are
    the permutation with its indices modulo 12 and 16; the three closing permutations are
    message rounds with the last block, whose addition and subtraction cancel; the two
    halves of the counter are one 64-bit number; the tables are the states after the two
    blocks of the prefix. *)
Theorem sph_shabal_streaming cc tmp_out pieces ub n :
  length (sc_buf cc) = 64%nat -> length tmp_out = 64%nat -> word 8 ub -> 0 <= n < 8 ->
  let m := concat pieces in
  (sph_shabal256_addbits_and_close tmp_out (foldl sph_shabal256 (sph_shabal256_init cc) pieces) ub n).2 = Some (shabal_digest 8 m ub n) /\
  (sph_shabal512_addbits_and_close tmp_out (foldl sph_shabal512 (sph_shabal512_init cc) pieces) ub n).2 = Some (shabal_digest 16 m ub n) /\
  Forall (fun w => (shabal_close tmp_out (foldl shabal_core (shabal_init cc (32 * Z.of_nat w)) pieces) ub n w).2 = Some (shabal_digest w m ub n)) [6; 7; 12]%nat.
Proof.
  intros Hb Ht Hub Hn m. assert (H : forall w, In w [6; 7; 8; 12; 16]%nat -> _) by (intros w Hw; exact (proj1 (shabal_stream cc tmp_out pieces ub n w Hw Hb Ht Hub Hn))).
  split; [exact (H 8%nat ltac:(simpl; tauto))|]. split; [exact (H 16%nat ltac:(simpl; tauto))|].
  apply List.Forall_cons; [apply H; simpl; tauto|]. apply List.Forall_cons; [apply H; simpl; tauto|]. apply List.Forall_cons; [apply H; simpl; tauto|constructor].
Qed.
Lemma sph_shabal_streaming_witness :
  (sph_shabal512_addbits_and_close (replicate 64 7) (foldl sph_shabal512 (sph_shabal512_init (mk_sph (replicate 64 9) 5 (mk_shabal [] [] [] 1 2))) [[0x61]; replicate 70 0x62]) 0xA0 3).2
  = Some (shabal_digest 16 (concat [[0x61]; replicate 70 0x62]) 0xA0 3).
Proof.
  refine (proj1 (proj2 (sph_shabal_streaming (mk_sph (replicate 64 9) 5 (mk_shabal [] [] [] 1 2)) (replicate 64 7) [[0x61]; replicate 70 0x62] 0xA0 3 eq_refl eq_refl _ _))); unfold word; lia.
Defined.

(** The empty message, as published. *)
Example shabal512_empty :
  take 16 <$> (sph_shabal512_close (replicate 64 0) (sph_shabal512_init (mk_sph (replicate 64 0) 0 (mk_shabal [] [] [] 0 0)))).2
  = Some [0xFC; 0x2D; 0x5D; 0xFF; 0x5D; 0x70; 0xB7; 0xF6; 0xB1; 0xF8; 0xC2; 0xFC; 0xC8; 0xC1; 0xF9; 0xFE].
Proof. vm_compute. reflexivity. Qed.

End Shabal.
