(* ===== verification/Luffa.v ===== *)
(** * Luffa ([crypto/ghostrider/sph_luffa.c]).

    Three, four or five rows of eight words, one permutation for each.  The code computes the
    message injection with shared sums, the S-box with logical operations on words, and, in
    the parallel build, two permutations in one on 64-bit words.  The reference is the
    submission: the injection as a matrix over GF(2)[x] modulo x^8 + x^4 + x^3 + x + 1, the
    S-box as a table on the bits, the round constants from their generator. *)
From S2P Require Import Prelude Stream SphCore.

Module Luffa.

Definition V_INIT : list (list Z) := [
  [0x6d251e69; 0x44b051e0; 0x4eaa6fb4; 0xdbf78465; 0x6e292011; 0x90152df4; 0xee058139; 0xdef610bb];
  [0xc3b44b95; 0xd9d2f256; 0x70eee9a0; 0xde099fa3; 0x5d9b0557; 0x8fc944b3; 0xcf1ccf0e; 0x746cd581];
  [0xf7efc89d; 0x5dba5781; 0x04016ce5; 0xad659c05; 0x0306194f; 0x666d1836; 0x24aa230a; 0x8b264ae7];
  [0x858075d5; 0x36d79cce; 0xe571f7d7; 0x204b1f67; 0x35870c6a; 0x57e9e923; 0x14bcb808; 0x7cde72ce];
  [0x6c68e9be; 0x5ec41e22; 0xc825b7c7; 0xaffb4363; 0xf5df3999; 0x0fc688f1; 0xb07224cc; 0x03e86cea]].
Definition RC00 : list Z := [0x303994a6; 0xc0e65299; 0x6cc33a12; 0xdc56983e; 0x1e00108f; 0x7800423d; 0x8f5b7882; 0x96e1db12].
Definition RC04 : list Z := [0xe0337818; 0x441ba90d; 0x7f34d442; 0x9389217f; 0xe5a8bce6; 0x5274baf4; 0x26889ba7; 0x9a226e9d].
Definition RC10 : list Z := [0xb6de10ed; 0x70f47aae; 0x0707a3d4; 0x1c1e8f51; 0x707a3d45; 0xaeb28562; 0xbaca1589; 0x40a46f3e].
Definition RC14 : list Z := [0x01685f3d; 0x05a17cf4; 0xbd09caca; 0xf4272b28; 0x144ae5cc; 0xfaa7ae2b; 0x2e48f1c1; 0xb923c704].
Definition RCW010 : list Z := [0xb6de10ed303994a6; 0x70f47aaec0e65299; 0x0707a3d46cc33a12; 0x1c1e8f51dc56983e; 0x707a3d451e00108f; 0xaeb285627800423d; 0xbaca15898f5b7882; 0x40a46f3e96e1db12].
Definition RCW014 : list Z := [0x01685f3de0337818; 0x05a17cf4441ba90d; 0xbd09caca7f34d442; 0xf4272b289389217f; 0x144ae5cce5a8bce6; 0xfaa7ae2b5274baf4; 0x2e48f1c126889ba7; 0xb923c7049a226e9d].
Definition RC20 : list Z := [0xfc20d9d2; 0x34552e25; 0x7ad8818f; 0x8438764a; 0xbb6de032; 0xedb780c8; 0xd9847356; 0xa2c78434].
Definition RC24 : list Z := [0xe25e72c1; 0xe623bb72; 0x5c58a4a4; 0x1e38e2e7; 0x78e38b9d; 0x27586719; 0x36eda57f; 0x703aace7].
Definition RC30 : list Z := [0xb213afa5; 0xc84ebe95; 0x4e608a22; 0x56d858fe; 0x343b138f; 0xd0ec4e3d; 0x2ceb4882; 0xb3ad2208].
Definition RC34 : list Z := [0xe028c9bf; 0x44756f91; 0x7e8fce32; 0x956548be; 0xfe191be2; 0x3cb226e5; 0x5944a28e; 0xa1c4c355].
Definition RCW230 : list Z := [0xb213afa5fc20d9d2; 0xc84ebe9534552e25; 0x4e608a227ad8818f; 0x56d858fe8438764a; 0x343b138fbb6de032; 0xd0ec4e3dedb780c8; 0x2ceb4882d9847356; 0xb3ad2208a2c78434].
Definition RCW234 : list Z := [0xe028c9bfe25e72c1; 0x44756f91e623bb72; 0x7e8fce325c58a4a4; 0x956548be1e38e2e7; 0xfe191be278e38b9d; 0x3cb226e527586719; 0x5944a28e36eda57f; 0xa1c4c355703aace7].
Definition RC40 : list Z := [0xf0d2e9e3; 0xac11d7fa; 0x1bcb66f2; 0x6f2d9bc9; 0x78602649; 0x8edae952; 0x3b6ba548; 0xedae9520].
Definition RC44 : list Z := [0x5090d577; 0x2d1925ab; 0xb46496ac; 0xd1925ab0; 0x29131ab6; 0x0fc053c3; 0x3f014f0c; 0xfc053c31].

(** ** Code *)

Definition M2 (s : list Z) : list Z :=
  let at_ k := nth k s 0 in
  let tmp := at_ 7%nat in
  [tmp; Z.lxor (at_ 0%nat) tmp; at_ 1%nat; Z.lxor (at_ 2%nat) tmp; Z.lxor (at_ 3%nat) tmp; at_ 4%nat; at_ 5%nat; at_ 6%nat].
Definition XOR (s1 s2 : list Z) : list Z := zip_with Z.lxor s1 s2.

(** [SUB_CRUMB_GEN(a0, a1, a2, a3, width)]: [not] is the complement of that width. *)
Definition SUB_CRUMB_GEN (not : Z -> Z) (a0 a1 a2 a3 : Z) : Z * Z * Z * Z :=
  let tmp := a0 in
  let a0 := Z.lor a0 a1 in
  let a2 := Z.lxor a2 a3 in
  let a1 := not a1 in
  let a0 := Z.lxor a0 a3 in
  let a3 := Z.land a3 tmp in
  let a1 := Z.lxor a1 a3 in
  let a3 := Z.lxor a3 a2 in
  let a2 := Z.land a2 a0 in
  let a0 := not a0 in
  let a2 := Z.lxor a2 a1 in
  let a1 := Z.lor a1 a3 in
  let tmp := Z.lxor tmp a1 in
  let a3 := Z.lxor a3 a2 in
  let a2 := Z.land a2 a1 in
  let a1 := Z.lxor a1 a0 in
  let a0 := tmp in
  (a0, a1, a2, a3).
Definition SUB_CRUMB : Z -> Z -> Z -> Z -> Z * Z * Z * Z := SUB_CRUMB_GEN not32.
Definition SUB_CRUMBW : Z -> Z -> Z -> Z -> Z * Z * Z * Z := SUB_CRUMB_GEN not64.
Definition MIX_WORD (u v : Z) : Z * Z :=
  let v := Z.lxor v u in
  let u := Z.lxor (rotl32 u 2) v in
  let v := Z.lxor (rotl32 v 14) u in
  let u := Z.lxor (rotl32 u 10) v in
  let v := rotl32 v 1 in
  (u, v).
Definition MIX_WORDW (u v : Z) : Z * Z :=
  let v := Z.lxor v u in
  let ul := T32 u in let uh := T32 (Z.shiftr u 32) in
  let vl := T32 v in let vh := T32 (Z.shiftr v 32) in
  let ul := Z.lxor (rotl32 ul 2) vl in
  let vl := Z.lxor (rotl32 vl 14) ul in
  let ul := Z.lxor (rotl32 ul 10) vl in
  let vl := rotl32 vl 1 in
  let uh := Z.lxor (rotl32 uh 2) vh in
  let vh := Z.lxor (rotl32 vh 14) uh in
  let uh := Z.lxor (rotl32 uh 10) vh in
  let vh := rotl32 vh 1 in
  (Z.lor ul (Z.shiftl uh 32), Z.lor vl (Z.shiftl vh 32)).

(** The words of [buf]. *)
Definition dec_block (buf : list Z) : list Z := (fun i => be_load 4 (slice (4 * i) 4 buf)) <$> seq 0 8.
Definition MI3 (V : list (list Z)) (M : list Z) : list (list Z) :=
  let V0 := V !!! 0%nat in let V1 := V !!! 1%nat in let V2 := V !!! 2%nat in
  let a := XOR V0 V1 in
  let a := XOR a V2 in
  let a := M2 a in
  let V0 := XOR a V0 in
  let V0 := XOR M V0 in
  let M := M2 M in
  let V1 := XOR a V1 in
  let V1 := XOR M V1 in
  let M := M2 M in
  let V2 := XOR a V2 in
  let V2 := XOR M V2 in
  [V0; V1; V2].
Definition MI4 (V : list (list Z)) (M : list Z) : list (list Z) :=
  let V0 := V !!! 0%nat in let V1 := V !!! 1%nat in let V2 := V !!! 2%nat in let V3 := V !!! 3%nat in
  let a := XOR V0 V1 in
  let b := XOR V2 V3 in
  let a := XOR a b in
  let a := M2 a in
  let V0 := XOR a V0 in
  let V1 := XOR a V1 in
  let V2 := XOR a V2 in
  let V3 := XOR a V3 in
  let b := M2 V0 in
  let b := XOR b V3 in
  let V3 := M2 V3 in
  let V3 := XOR V3 V2 in
  let V2 := M2 V2 in
  let V2 := XOR V2 V1 in
  let V1 := M2 V1 in
  let V1 := XOR V1 V0 in
  let V0 := XOR b M in
  let M := M2 M in
  let V1 := XOR V1 M in
  let M := M2 M in
  let V2 := XOR V2 M in
  let M := M2 M in
  let V3 := XOR V3 M in
  [V0; V1; V2; V3].
Definition MI5 (V : list (list Z)) (M : list Z) : list (list Z) :=
  let V0 := V !!! 0%nat in let V1 := V !!! 1%nat in let V2 := V !!! 2%nat in let V3 := V !!! 3%nat in let V4 := V !!! 4%nat in
  let a := XOR V0 V1 in
  let b := XOR V2 V3 in
  let a := XOR a b in
  let a := XOR a V4 in
  let a := M2 a in
  let V0 := XOR a V0 in
  let V1 := XOR a V1 in
  let V2 := XOR a V2 in
  let V3 := XOR a V3 in
  let V4 := XOR a V4 in
  let b := M2 V0 in
  let b := XOR b V1 in
  let V1 := M2 V1 in
  let V1 := XOR V1 V2 in
  let V2 := M2 V2 in
  let V2 := XOR V2 V3 in
  let V3 := M2 V3 in
  let V3 := XOR V3 V4 in
  let V4 := M2 V4 in
  let V4 := XOR V4 V0 in
  let V0 := M2 b in
  let V0 := XOR V0 V4 in
  let V4 := M2 V4 in
  let V4 := XOR V4 V3 in
  let V3 := M2 V3 in
  let V3 := XOR V3 V2 in
  let V2 := M2 V2 in
  let V2 := XOR V2 V1 in
  let V1 := M2 V1 in
  let V1 := XOR V1 b in
  let V0 := XOR V0 M in
  let M := M2 M in
  let V1 := XOR V1 M in
  let M := M2 M in
  let V2 := XOR V2 M in
  let M := M2 M in
  let V3 := XOR V3 M in
  let M := M2 M in
  let V4 := XOR V4 M in
  [V0; V1; V2; V3; V4].

(** The last four words of row [j] are rotated by [j]: [TWEAK3], [TWEAK4], [TWEAK5]. *)
Definition rot_row (j : Z) (x : list Z) : list Z := take 4 x ++ ((fun v => rotl32 v j) <$> drop 4 x).
Definition TWEAK3 (V : list (list Z)) : list (list Z) := [V !!! 0%nat; rot_row 1 (V !!! 1%nat); rot_row 2 (V !!! 2%nat)].
Definition TWEAK4 (V : list (list Z)) : list (list Z) := [V !!! 0%nat; rot_row 1 (V !!! 1%nat); rot_row 2 (V !!! 2%nat); rot_row 3 (V !!! 3%nat)].
Definition TWEAK5 (V : list (list Z)) : list (list Z) :=
  [V !!! 0%nat; rot_row 1 (V !!! 1%nat); rot_row 2 (V !!! 2%nat); rot_row 3 (V !!! 3%nat); rot_row 4 (V !!! 4%nat)].
(** The body of a loop over [r], on 32-bit or on 64-bit words. *)
Definition row_body (sub : Z -> Z -> Z -> Z -> Z * Z * Z * Z) (mix : Z -> Z -> Z * Z) (rc0 rc4 : list Z) (x : list Z) (r : nat) : list Z :=
  let '(x0, x1, x2, x3) := sub (x !!! 0%nat) (x !!! 1%nat) (x !!! 2%nat) (x !!! 3%nat) in
  let '(x5, x6, x7, x4) := sub (x !!! 5%nat) (x !!! 6%nat) (x !!! 7%nat) (x !!! 4%nat) in
  let '(x0, x4) := mix x0 x4 in
  let '(x1, x5) := mix x1 x5 in
  let '(x2, x6) := mix x2 x6 in
  let '(x3, x7) := mix x3 x7 in
  [Z.lxor x0 (rc0 !!! r); x1; x2; x3; Z.lxor x4 (rc4 !!! r); x5; x6; x7].
Definition row_loop (rc0 rc4 : list Z) (x : list Z) : list Z := foldl (row_body SUB_CRUMB MIX_WORD rc0 rc4) x (seq 0 8).
(** Two rows at once. *)
Definition pair_loop (rcw0 rcw4 : list Z) (x y : list Z) : list Z * list Z :=
  let W := zip_with (fun a b => Z.lor a (Z.shiftl b 32)) x y in
  let W := foldl (row_body SUB_CRUMBW MIX_WORDW rcw0 rcw4) W (seq 0 8) in
  (T32 <$> W, (fun w => T32 (Z.shiftr w 32)) <$> W).
Section LuffaCode.
Context (parallel : bool).
Definition P3 (V : list (list Z)) : list (list Z) :=
  let V := TWEAK3 V in
  if parallel then
    let '(V0, V1) := pair_loop RCW010 RCW014 (V !!! 0%nat) (V !!! 1%nat) in
    [V0; V1; row_loop RC20 RC24 (V !!! 2%nat)]
  else [row_loop RC00 RC04 (V !!! 0%nat); row_loop RC10 RC14 (V !!! 1%nat); row_loop RC20 RC24 (V !!! 2%nat)].
Definition P4 (V : list (list Z)) : list (list Z) :=
  let V := TWEAK4 V in
  if parallel then
    let '(V0, V1) := pair_loop RCW010 RCW014 (V !!! 0%nat) (V !!! 1%nat) in
    let '(V2, V3) := pair_loop RCW230 RCW234 (V !!! 2%nat) (V !!! 3%nat) in
    [V0; V1; V2; V3]
  else [row_loop RC00 RC04 (V !!! 0%nat); row_loop RC10 RC14 (V !!! 1%nat); row_loop RC20 RC24 (V !!! 2%nat); row_loop RC30 RC34 (V !!! 3%nat)].
Definition P5 (V : list (list Z)) : list (list Z) :=
  let V := TWEAK5 V in
  if parallel then
    let '(V0, V1) := pair_loop RCW010 RCW014 (V !!! 0%nat) (V !!! 1%nat) in
    let '(V2, V3) := pair_loop RCW230 RCW234 (V !!! 2%nat) (V !!! 3%nat) in
    [V0; V1; V2; V3; row_loop RC40 RC44 (V !!! 4%nat)]
  else [row_loop RC00 RC04 (V !!! 0%nat); row_loop RC10 RC14 (V !!! 1%nat); row_loop RC20 RC24 (V !!! 2%nat); row_loop RC30 RC34 (V !!! 3%nat);
        row_loop RC40 RC44 (V !!! 4%nat)].

Definition luffa_block3 (V : list (list Z)) (buf : list Z) : list (list Z) := P3 (MI3 V (dec_block buf)).
Definition luffa_block4 (V : list (list Z)) (buf : list Z) : list (list Z) := P4 (MI4 V (dec_block buf)).
Definition luffa_block5 (V : list (list Z)) (buf : list Z) : list (list Z) := P5 (MI5 V (dec_block buf)).
Abbreviation luffa_ctx := (sph_ctx (list (list Z))).
Definition luffa3 : luffa_ctx -> list Z -> luffa_ctx := sph_core 32 luffa_block3.
Definition luffa4 : luffa_ctx -> list Z -> luffa_ctx := sph_core 32 luffa_block4.
Definition luffa5 : luffa_ctx -> list Z -> luffa_ctx := sph_core 32 luffa_block5.

(** [buf[ptr ++] = ...; memset(buf + ptr, 0, (sizeof sc->buf) - ptr)]. *)
Definition pad_buf (sc : luffa_ctx) (ub n : Z) : list Z :=
  memset0 (<[sc_ptr sc := final_byte ub n]> (sc_buf sc)) (S (sc_ptr sc)) (32 - S (sc_ptr sc)).
(** The exclusive or of word [i] of the rows, from row 0 on. *)
Definition out_word (V : list (list Z)) (i : nat) : Z := foldl (fun x r => Z.lxor x (r !!! i)) ((V !!! 0%nat) !!! i) (tail V).
Definition out_words (V : list (list Z)) (n : nat) : list Z := flat_map (fun i => be_store 4 (out_word V i)) (seq 0 n).
(** The context keeps its chaining value: the callers initialise it again. *)
Definition luffa3_close (sc : luffa_ctx) (ub n : Z) (out_size_w32 : nat) : luffa_ctx * list Z :=
  let V := luffa_block3 (sc_st sc) (pad_buf sc ub n) in
  let V := luffa_block3 V (replicate 32 0) in
  (mk_sph (replicate 32 0) (sc_ptr sc) (sc_st sc), out_words V (if (7 <? out_size_w32)%nat then 8 else 7)).
Definition luffa4_close (sc : luffa_ctx) (ub n : Z) : luffa_ctx * list Z :=
  let V := luffa_block4 (sc_st sc) (pad_buf sc ub n) in
  let V1 := luffa_block4 V (replicate 32 0) in
  let V2 := luffa_block4 V1 (replicate 32 0) in
  (mk_sph (replicate 32 0) (sc_ptr sc) (sc_st sc), out_words V1 8 ++ out_words V2 4).
Definition luffa5_close (sc : luffa_ctx) (ub n : Z) : luffa_ctx * list Z :=
  let V := luffa_block5 (sc_st sc) (pad_buf sc ub n) in
  let V1 := luffa_block5 V (replicate 32 0) in
  let V2 := luffa_block5 V1 (replicate 32 0) in
  (mk_sph (replicate 32 0) (sc_ptr sc) (sc_st sc), out_words V1 8 ++ out_words V2 8).

Definition sph_luffa224_init (junk : list Z) : luffa_ctx := mk_sph junk 0 (take 3 V_INIT).
Definition sph_luffa224 : luffa_ctx -> list Z -> luffa_ctx := luffa3.
Definition sph_luffa224_addbits_and_close (cc : luffa_ctx) (ub n : Z) : luffa_ctx * list Z :=
  let '(cc, dst) := luffa3_close cc ub n 7 in (sph_luffa224_init (sc_buf cc), dst).
Definition sph_luffa224_close (cc : luffa_ctx) : luffa_ctx * list Z := sph_luffa224_addbits_and_close cc 0 0.
Definition sph_luffa256_init (junk : list Z) : luffa_ctx := mk_sph junk 0 (take 3 V_INIT).
Definition sph_luffa256 : luffa_ctx -> list Z -> luffa_ctx := luffa3.
Definition sph_luffa256_addbits_and_close (cc : luffa_ctx) (ub n : Z) : luffa_ctx * list Z :=
  let '(cc, dst) := luffa3_close cc ub n 8 in (sph_luffa256_init (sc_buf cc), dst).
Definition sph_luffa256_close (cc : luffa_ctx) : luffa_ctx * list Z := sph_luffa256_addbits_and_close cc 0 0.
Definition sph_luffa384_init (junk : list Z) : luffa_ctx := mk_sph junk 0 (take 4 V_INIT).
Definition sph_luffa384 : luffa_ctx -> list Z -> luffa_ctx := luffa4.
Definition sph_luffa384_addbits_and_close (cc : luffa_ctx) (ub n : Z) : luffa_ctx * list Z :=
  let '(cc, dst) := luffa4_close cc ub n in (sph_luffa384_init (sc_buf cc), dst).
Definition sph_luffa384_close (cc : luffa_ctx) : luffa_ctx * list Z := sph_luffa384_addbits_and_close cc 0 0.
Definition sph_luffa512_init (junk : list Z) : luffa_ctx := mk_sph junk 0 (take 5 V_INIT).
Definition sph_luffa512 : luffa_ctx -> list Z -> luffa_ctx := luffa5.
Definition sph_luffa512_addbits_and_close (cc : luffa_ctx) (ub n : Z) : luffa_ctx * list Z :=
  let '(cc, dst) := luffa5_close cc ub n in (sph_luffa512_init (sc_buf cc), dst).
Definition sph_luffa512_close (cc : luffa_ctx) : luffa_ctx * list Z := sph_luffa512_addbits_and_close cc 0 0.
End LuffaCode.

(** ** Reference *)

(** A row as a polynomial: word [k] is the coefficient of x^k; x^8 is x^4 + x^3 + x + 1. *)
Definition mulx (a : list Z) : list Z :=
  (fun k => Z.lxor (if (k =? 0)%nat then 0 else nth (k - 1) a 0) (if Z.testbit 0x1B (Z.of_nat k) then nth 7 a 0 else 0)) <$> seq 0 8.
Definition mulc (c : Z) (a : list Z) : list Z :=
  foldl (fun acc k => if Z.testbit c (Z.of_nat k) then zip_with Z.lxor acc (Nat.iter k mulx a) else acc) (replicate 8 0) (seq 0 8).
(** The matrices of the message injection; the last column is that of the message. *)
Definition injection (w : nat) : list (list Z) :=
  match w with
  | 3%nat => [[3; 2; 2; 1]; [2; 3; 2; 2]; [2; 2; 3; 4]]
  | 4%nat => [[4; 6; 6; 7; 1]; [7; 4; 6; 6; 2]; [6; 7; 4; 6; 4]; [6; 6; 7; 4; 8]]
  | _ => [[0x0F; 0x08; 0x0A; 0x0A; 0x08; 0x01]; [0x08; 0x0F; 0x08; 0x0A; 0x0A; 0x02]; [0x0A; 0x08; 0x0F; 0x08; 0x0A; 0x04];
          [0x0A; 0x0A; 0x08; 0x0F; 0x08; 0x08]; [0x08; 0x0A; 0x0A; 0x08; 0x0F; 0x10]]
  end.
Definition inject (w : nat) (V : list (list Z)) (M : list Z) : list (list Z) :=
  (fun row => foldl (zip_with Z.lxor) (replicate 8 0) (zip_with mulc row (V ++ [M]))) <$> injection w.
(** The S-box on the four bits at position [l] of four words, least significant word first. *)
Definition S_BOX : list Z := [13; 14; 0; 1; 5; 10; 7; 6; 11; 3; 9; 12; 15; 8; 2; 4].
Definition crumb (a0 a1 a2 a3 l : Z) : nat :=
  Z.to_nat (Z.b2z (Z.testbit a0 l) + 2 * Z.b2z (Z.testbit a1 l) + 4 * Z.b2z (Z.testbit a2 l) + 8 * Z.b2z (Z.testbit a3 l)).
Definition of_bits (f : Z -> bool) : Z := foldr (fun l acc => Z.lor (if f (Z.of_nat l) then 2 ^ Z.of_nat l else 0) acc) 0 (seq 0 32).
Definition sub_word (a0 a1 a2 a3 k : Z) : Z := of_bits (fun l => Z.testbit (S_BOX !!! crumb a0 a1 a2 a3 l) k).
Definition sub_crumb (a0 a1 a2 a3 : Z) : Z * Z * Z * Z := (sub_word a0 a1 a2 a3 0, sub_word a0 a1 a2 a3 1, sub_word a0 a1 a2 a3 2, sub_word a0 a1 a2 a3 3).
(** The generator of the round constants. *)
Definition const_seed : list Z := [0x181CCA53380CDE06; 0x5B6F0876F16F8594; 0x7E106CE938979CB0; 0xBB62F36492E93C29; 0x9A025047CFF2A940].
Definition next_const (t : Z) : Z :=
  let t := if 2 ^ 63 <=? t then Z.lxor (T64 (2 * t)) 0xC4D6496C55C61C8D else 2 * t in
  Z.lor (Z.shiftr t 32) (T64 (Z.shiftl t 32)).
Definition round_const (j i : nat) : Z := T32 (Nat.iter (i + 1) next_const (const_seed !!! j)).
Definition step (j : nat) (x : list Z) (r : nat) : list Z :=
  row_body sub_crumb MIX_WORD ((fun r => round_const j (2 * r)) <$> seq 0 8) ((fun r => round_const j (2 * r + 1)) <$> seq 0 8) x r.
Definition Q (j : nat) (x : list Z) : list Z :=
  foldl (step j) (take 4 x ++ ((fun v => rotl32 v (Z.of_nat j)) <$> drop 4 x)) (seq 0 8).
Definition luffa_round (w : nat) (V : list (list Z)) (b : list Z) : list (list Z) := imap Q (inject w V (dec_block b)).
Definition luffa_pad (m : list Z) (ub n : Z) : list Z := m ++ last_bits ub n :: replicate (31 - length m mod 32) 0.
Definition row_sum (V : list (list Z)) : list Z := foldl (zip_with Z.lxor) (replicate 8 0) V.
(** The output after one and after two blank rounds. *)
Definition luffa_digest (w words : nat) (m : list Z) (ub n : Z) : list Z :=
  let V := foldl (luffa_round w) (take w V_INIT) (blocks 32 (luffa_pad m ub n)) in
  let V1 := luffa_round w V (replicate 32 0) in
  let V2 := luffa_round w V1 (replicate 32 0) in
  flat_map (be_store 4) (take words (row_sum V1 ++ row_sum V2)).

(** ** The message injection

    Both the code and the matrices are exclusive ors of words.  A map that respects
    exclusive or commutes with them, so they are compared on one vector of unknowns: word
    number [i] of the input is the number 2^i, and a word of the output is the set of the
    words it sums. *)
Definition hom (e : Z -> Z) : Prop := forall a b, e (Z.lxor a b) = Z.lxor (e a) (e b).
Definition on_rows (e : Z -> Z) (V : list (list Z)) : list (list Z) := (fun r : list Z => e <$> r) <$> V.
Section Hom.
Context (e : Z -> Z) (He : hom e).
Lemma hom_0 : e 0 = 0.
Proof. pose proof (He 0 0) as H. rewrite Z.lxor_nilpotent in H. rewrite H. apply Z.lxor_nilpotent. Qed.
Lemma hom_lookup (a : list Z) k : nth k (e <$> a) 0 = e (nth k a 0).
Proof. rewrite <-hom_0 at 1. apply map_nth. Qed.
Lemma hom_row (V : list (list Z)) k : (on_rows e V) !!! k = e <$> (V !!! k).
Proof. unfold on_rows. rewrite !list_lookup_total_alt, list_lookup_fmap. by destruct (V !! k). Qed.
Lemma hom_zip (a b : list Z) : zip_with Z.lxor (e <$> a) (e <$> b) = e <$> zip_with Z.lxor a b.
Proof. revert b. induction a as [|x a IH]; intros [|y b]; [done..|]. cbn. by rewrite IH, He. Qed.
Lemma hom_M2 a : M2 (e <$> a) = e <$> M2 a.
Proof. unfold M2. cbn [fmap list_fmap]. by rewrite !hom_lookup, !He. Qed.
Lemma hom_mulx a : mulx (e <$> a) = e <$> mulx a.
Proof.
  unfold mulx. rewrite <-list_fmap_compose. apply list_fmap_ext. intros i k _. unfold compose. rewrite He. rewrite !hom_lookup. f_equal; case_match; [symmetry; apply hom_0|done|done|symmetry; apply hom_0].
Qed.
Lemma hom_mulc c a : mulc c (e <$> a) = e <$> mulc c a.
Proof.
  unfold mulc. assert (Hi : forall k, Nat.iter k mulx (e <$> a) = e <$> Nat.iter k mulx a) by (intros k; induction k as [|k IH]; [done|]; rewrite !Nat.iter_succ, IH; apply hom_mulx).
  assert (H0 : replicate 8 0 = e <$> replicate 8 0) by (cbn; by rewrite hom_0). rewrite H0 at 1. generalize (replicate 8 0). generalize (seq 0 8). clear H0.
  intros l. induction l as [|k l IH]; intros acc; [done|]. cbn [foldl]. rewrite Hi. case_match; [rewrite hom_zip|]; apply IH.
Qed.
Lemma hom_sum (l : list (list Z)) acc : foldl (zip_with Z.lxor) (e <$> acc) (on_rows e l) = e <$> foldl (zip_with Z.lxor) acc l.
Proof. revert acc. induction l as [|a l IH]; intros acc; [done|]. change (on_rows e (a :: l)) with ((e <$> a) :: on_rows e l). cbn [foldl]. rewrite hom_zip. apply IH. Qed.
Lemma hom_inject w V M : inject w (on_rows e V) (e <$> M) = on_rows e (inject w V M).
Proof.
  unfold inject. unfold on_rows at 2. rewrite <-list_fmap_compose. apply list_fmap_ext. intros i row _. unfold compose. change [e <$> M] with (on_rows e [M]). unfold on_rows at 1 2. rewrite <-fmap_app. fold (on_rows e (V ++ [M])). generalize (V ++ [M]). intros U.
  assert (Ez : zip_with mulc row (on_rows e U) = on_rows e (zip_with mulc row U)).
  { revert U. induction row as [|c row IH]; intros [|a U]; [done..|]. change (on_rows e (a :: U)) with ((e <$> a) :: on_rows e U). cbn [zip_with]. rewrite IH, hom_mulc. reflexivity. }
  rewrite Ez. assert (H0 : replicate 8 0 = e <$> replicate 8 0) by (cbn; by rewrite hom_0). rewrite H0 at 1. apply hom_sum.
Qed.
Lemma hom_MI3 V M : MI3 (on_rows e V) (e <$> M) = on_rows e (MI3 V M).
Proof. unfold MI3, XOR. cbv zeta. repeat (rewrite ?hom_row, ?hom_zip, ?hom_M2). reflexivity. Qed.
Lemma hom_MI4 V M : MI4 (on_rows e V) (e <$> M) = on_rows e (MI4 V M).
Proof. unfold MI4, XOR. cbv zeta. repeat (rewrite ?hom_row, ?hom_zip, ?hom_M2). reflexivity. Qed.
Lemma hom_MI5 V M : MI5 (on_rows e V) (e <$> M) = on_rows e (MI5 V M).
Proof. unfold MI5, XOR. cbv zeta. repeat (rewrite ?hom_row, ?hom_zip, ?hom_M2). reflexivity. Qed.
End Hom.
(** The exclusive or of the words of a set. *)
Definition ev (xs : list Z) (m : Z) : Z := foldr (fun i acc => Z.lxor (if Z.testbit m (Z.of_nat i) then nth i xs 0 else 0) acc) 0 (seq 0 (length xs)).
Lemma hom_ev xs : hom (ev xs).
Proof.
  intros a b. unfold ev. generalize (seq 0 (length xs)). intros l. induction l as [|i l IH]; [done|]. cbn [foldr]. rewrite IH, Z.lxor_spec.
  generalize (foldr (fun i acc => Z.lxor (if Z.testbit a (Z.of_nat i) then nth i xs 0 else 0) acc) 0 l), (foldr (fun i acc => Z.lxor (if Z.testbit b (Z.of_nat i) then nth i xs 0 else 0) acc) 0 l). intros u v.
  destruct (Z.testbit a _), (Z.testbit b _); cbn [xorb]; rewrite ?Z.lxor_0_l; bitwise.
Qed.
Lemma sum_one (f : nat -> Z) t n a :
  foldr (fun i acc => Z.lxor (if Z.testbit (2 ^ Z.of_nat t) (Z.of_nat i) then f i else 0) acc) 0 (seq a n) = if (a <=? t)%nat && (t <? a + n)%nat then f t else 0.
Proof.
  revert a. induction n as [|n IH]; intros a; cbn [seq foldr].
  - destruct (Nat.leb_spec a t), (Nat.ltb_spec t (a + 0)); [lia|done..].
  - rewrite IH, Z.pow2_bits_eqb by lia. destruct (Z.eqb_spec (Z.of_nat t) (Z.of_nat a)) as [E|E].
    + apply Nat2Z.inj in E as ->. rewrite Nat.leb_refl. replace (S a <=? a)%nat with false by (symmetry; apply Nat.leb_gt; lia). replace (a <? a + S n)%nat with true by (symmetry; apply Nat.ltb_lt; lia). apply Z.lxor_0_r.
    + rewrite Z.lxor_0_l. replace (S a <=? t)%nat with (a <=? t)%nat by (destruct (Nat.leb_spec a t), (Nat.leb_spec (S a) t); [done|exfalso; lia|exfalso; lia|done]). replace (S a + n)%nat with (a + S n)%nat by lia. done.
Qed.
Lemma ev_unit xs t : (t < length xs)%nat -> ev xs (2 ^ Z.of_nat t) = nth t xs 0.
Proof. intros Ht. unfold ev. rewrite (sum_one (fun i => nth i xs 0)). by rewrite (proj2 (Nat.ltb_lt _ _)) by lia. Qed.
Definition units (a n : nat) : list Z := (fun k => 2 ^ Z.of_nat k) <$> seq a n.
Lemma ev_units xs a n : (a + n <= length xs)%nat -> ev xs <$> units a n = slice a n xs.
Proof.
  intros H. unfold units. rewrite <-list_fmap_compose. apply list_eq_same_length with n; [|rewrite length_fmap; apply length_seq|].
  - unfold slice. rewrite length_take, length_drop. lia.
  - intros i x y Hi Hx Hy. rewrite list_lookup_fmap, lookup_seq_lt in Hx by done. cbn in Hx. injection Hx as <-. rewrite ev_unit by lia.
    unfold slice in Hy. rewrite lookup_take_lt, lookup_drop in Hy by done. by apply nth_lookup_Some.
Qed.
Definition unit_rows (w : nat) : list (list Z) := (fun j => units (8 * j) 8) <$> seq 0 w.
Definition rows8 (w : nat) (V : list (list Z)) : Prop := length V = w /\ Forall (fun r => length r = 8%nat) V.
Lemma rows_slice w V M : rows8 w V -> length M = 8%nat -> let xs := concat V ++ M in
  on_rows (ev xs) (unit_rows w) = V /\ ev xs <$> units (8 * w) 8 = M.
Proof.
  intros [Hw Hr] HM xs. assert (Hc : length (concat V) = (8 * w)%nat).
  { rewrite <-Hw. clear - Hr. induction Hr as [|r V Hr _ IH]; [done|]. cbn. rewrite length_app, IH. lia. }
  split.
  - unfold on_rows, unit_rows. rewrite <-list_fmap_compose.
    assert (E : forall l, (forall j, In j l -> (j < w)%nat) -> ((fun r : list Z => ev xs <$> r) ∘ (fun j => units (8 * j) 8)) <$> l = (fun j => slice (8 * j) 8 xs) <$> l).
    { intros l Hl. apply list_fmap_ext. intros i j Hj. unfold compose. apply ev_units. unfold xs. rewrite length_app, Hc, HM. apply list_elem_of_lookup_2, list_elem_of_In, Hl in Hj. lia. }
    rewrite E by (intros j Hj; apply in_seq in Hj; lia). clear E. unfold xs. generalize M. clear - Hw Hr. intros M. revert w Hw.
    induction Hr as [|r V Hr _ IH]; intros w <-; [done|]. cbn [length seq fmap list_fmap concat]. rewrite <-app_assoc.
    f_equal; [unfold slice; rewrite Nat.mul_0_r, drop_0, take_app_length'; done|]. rewrite <-seq_shift, <-list_fmap_compose. rewrite <-(IH (length V) eq_refl) at 2.
    apply list_fmap_ext. intros i j _. unfold compose, slice. replace (8 * S j)%nat with (8 + 8 * j)%nat by lia. rewrite <-drop_drop. by rewrite drop_app_length'.
  - rewrite ev_units by (unfold xs; rewrite length_app; lia). unfold slice, xs. rewrite <-Hc, drop_app_length. apply take_ge. lia.
Qed.
Lemma MI_by_units w (mi : list (list Z) -> list Z -> list (list Z)) V M :
  (forall e, hom e -> forall V M, mi (on_rows e V) (e <$> M) = on_rows e (mi V M)) -> mi (unit_rows w) (units (8 * w) 8) = inject w (unit_rows w) (units (8 * w) 8) ->
  rows8 w V -> length M = 8%nat -> mi V M = inject w V M.
Proof.
  intros Hmi Hu HV HM. destruct (rows_slice w V M HV HM) as [E1 E2]. cbv zeta in E1, E2. pose proof (hom_ev (concat V ++ M)) as He.
  transitivity (mi (on_rows (ev (concat V ++ M)) (unit_rows w)) (ev (concat V ++ M) <$> units (8 * w) 8)); [by rewrite E1, E2|].
  rewrite Hmi, Hu, <-hom_inject by exact He. by rewrite E1, E2.
Qed.
Lemma MI3_ref V M : rows8 3 V -> length M = 8%nat -> MI3 V M = inject 3 V M.
Proof. apply MI_by_units; [exact hom_MI3|vm_compute; reflexivity]. Qed.
Lemma MI4_ref V M : rows8 4 V -> length M = 8%nat -> MI4 V M = inject 4 V M.
Proof. apply MI_by_units; [exact hom_MI4|vm_compute; reflexivity]. Qed.
Lemma MI5_ref V M : rows8 5 V -> length M = 8%nat -> MI5 V M = inject 5 V M.
Proof. apply MI_by_units; [exact hom_MI5|vm_compute; reflexivity]. Qed.

(** ** The S-box *)

Lemma of_bits_spec f i : 0 <= i -> Z.testbit (of_bits f) i = (i <? 32) && f i.
Proof.
  intros Hi. unfold of_bits. assert (H : forall n a, Z.testbit (foldr (fun l acc => Z.lor (if f (Z.of_nat l) then 2 ^ Z.of_nat l else 0) acc) 0 (seq a n)) i = (Z.of_nat a <=? i) && (i <? Z.of_nat (a + n)) && f i).
  { induction n as [|n IH]; intros a; cbn [seq foldr].
    - rewrite Z.bits_0. destruct (Z.leb_spec (Z.of_nat a) i), (Z.ltb_spec i (Z.of_nat (a + 0))); [exfalso; lia|done..].
    - rewrite Z.lor_spec, IH. assert (E : Z.testbit (if f (Z.of_nat a) then 2 ^ Z.of_nat a else 0) i = (Z.of_nat a =? i) && f i).
      { destruct (Z.eqb_spec (Z.of_nat a) i) as [<-|Hne]; [destruct (f (Z.of_nat a)); [apply Z.pow2_bits_true; lia|apply Z.bits_0]|]. destruct (f (Z.of_nat a)); [by apply Z.pow2_bits_false|apply Z.bits_0]. }
      rewrite E. destruct (Z.eqb_spec (Z.of_nat a) i), (Z.leb_spec (Z.of_nat (S a)) i), (Z.ltb_spec i (Z.of_nat (S a + n))), (Z.leb_spec (Z.of_nat a) i), (Z.ltb_spec i (Z.of_nat (a + S n))); try (exfalso; lia); by destruct (f i). }
  rewrite H. change (Z.of_nat (0 + 32)) with 32. change (Z.of_nat 0) with 0. by rewrite (proj2 (Z.leb_le 0 i)) by done.
Qed.
Lemma not32_bit x i : 0 <= i -> Z.testbit (not32 x) i = xorb (Z.testbit x i) (i <? 32).
Proof. intros Hi. unfold not32. rewrite Z.lxor_spec. f_equal. change 0xFFFFFFFF with (Z.ones 32). destruct (Z.ltb_spec i 32); [apply Z.ones_spec_low|apply Z.ones_spec_high]; lia. Qed.
Lemma luffa_not64_bit x i : 0 <= i -> Z.testbit (not64 x) i = xorb (Z.testbit x i) (i <? 64).
Proof. intros Hi. unfold not64. rewrite Z.lxor_spec. f_equal. change 0xFFFFFFFFFFFFFFFF with (Z.ones 64). destruct (Z.ltb_spec i 64); [apply Z.ones_spec_low|apply Z.ones_spec_high]; lia. Qed.
Definition quad (P : Z -> Prop) (q : Z * Z * Z * Z) : Prop := let '(a0, a1, a2, a3) := q in P a0 /\ P a1 /\ P a2 /\ P a3.
Lemma SUB_CRUMB_words a0 a1 a2 a3 : word 32 a0 -> word 32 a1 -> word 32 a2 -> word 32 a3 -> quad (word 32) (SUB_CRUMB a0 a1 a2 a3).
Proof. intros. unfold quad, SUB_CRUMB, SUB_CRUMB_GEN. cbv zeta. split_and!; repeat (apply word_lxor || apply word_lor || apply word_land_l || apply word_not32); done || lia. Qed.
Lemma SUB_CRUMB_ref a0 a1 a2 a3 : word 32 a0 -> word 32 a1 -> word 32 a2 -> word 32 a3 -> SUB_CRUMB a0 a1 a2 a3 = sub_crumb a0 a1 a2 a3.
Proof.
  intros H0 H1 H2 H3. unfold SUB_CRUMB, SUB_CRUMB_GEN, sub_crumb, sub_word. cbv zeta.
  apply (f_equal2 pair); [apply (f_equal2 pair); [apply (f_equal2 pair)|]|]; apply Z.bits_inj'; intros i Hi; rewrite of_bits_spec by done;
    repeat rewrite ?Z.lxor_spec, ?Z.land_spec, ?Z.lor_spec, ?not32_bit by done; unfold crumb;
    (destruct (Z.ltb_spec i 32); [|rewrite !(word_high 32) by (done || lia); reflexivity]);
    destruct (Z.testbit a0 i), (Z.testbit a1 i), (Z.testbit a2 i), (Z.testbit a3 i); reflexivity.
Qed.

(** ** Two rows in one *)

Definition J (a b : Z) : Z := Z.lor a (Z.shiftl b 32).
Lemma J_bit a b i : word 32 a -> 0 <= i -> Z.testbit (J a b) i = if i <? 32 then Z.testbit a i else Z.testbit b (i - 32).
Proof.
  intros Ha Hi. unfold J. rewrite Z.lor_spec, Z.shiftl_spec by lia. destruct (Z.ltb_spec i 32).
  - rewrite (Z.testbit_neg_r b) by lia. apply orb_false_r.
  - by rewrite (word_high 32 a i) by (lia || done).
Qed.
Lemma luffa_J_lxor a b c d : word 32 a -> word 32 c -> Z.lxor (J a b) (J c d) = J (Z.lxor a c) (Z.lxor b d).
Proof. intros. apply Z.bits_inj'. intros i Hi. rewrite Z.lxor_spec, !J_bit, !Z.lxor_spec by (done || by apply word_lxor). by destruct (i <? 32). Qed.
Lemma T32_J a b : word 32 a -> T32 (J a b) = a.
Proof.
  intros Ha. apply Z.bits_inj'. intros i Hi. unfold T32. rewrite Z.land_spec, J_bit by done. change 0xFFFFFFFF with (Z.ones 32). destruct (Z.ltb_spec i 32).
  - rewrite Z.ones_spec_low by lia. apply andb_true_r.
  - rewrite Z.ones_spec_high, andb_false_r by lia. symmetry. by apply (word_high 32).
Qed.
Lemma T32_J_high a b : word 32 a -> word 32 b -> T32 (Z.shiftr (J a b) 32) = b.
Proof.
  intros Ha Hb. rewrite <-(T32_id b Hb) at 2. apply Z.bits_inj'. intros i Hi. unfold T32. rewrite !Z.land_spec, Z.shiftr_spec, J_bit by (done || lia).
  replace (i + 32 <? 32) with false by (symmetry; apply Z.ltb_ge; lia). by replace (i + 32 - 32) with i by lia.
Qed.
Definition pairs (f : Z -> Z -> Z) (p q : Z * Z * Z * Z) : Z * Z * Z * Z :=
  let '(a0, a1, a2, a3) := p in let '(b0, b1, b2, b3) := q in (f a0 b0, f a1 b1, f a2 b2, f a3 b3).
Lemma SUB_CRUMBW_ref a0 a1 a2 a3 b0 b1 b2 b3 : word 32 a0 -> word 32 a1 -> word 32 a2 -> word 32 a3 ->
  SUB_CRUMBW (J a0 b0) (J a1 b1) (J a2 b2) (J a3 b3) = pairs J (SUB_CRUMB a0 a1 a2 a3) (SUB_CRUMB b0 b1 b2 b3).
Proof.
  intros H0 H1 H2 H3. pose proof (SUB_CRUMB_words a0 a1 a2 a3 H0 H1 H2 H3) as HW. unfold quad, SUB_CRUMBW, SUB_CRUMB, SUB_CRUMB_GEN, pairs in *. cbv zeta in *. destruct HW as (W0 & W1 & W2 & W3).
  apply (f_equal2 pair); [apply (f_equal2 pair); [apply (f_equal2 pair)|]|]; apply Z.bits_inj'; intros i Hi; rewrite J_bit by done;
    repeat rewrite ?Z.lxor_spec, ?Z.land_spec, ?Z.lor_spec, ?luffa_not64_bit by done; rewrite !J_bit by done;
    (destruct (Z.ltb_spec i 32);
     [repeat rewrite ?Z.lxor_spec, ?Z.land_spec, ?Z.lor_spec, ?not32_bit by done; rewrite (proj2 (Z.ltb_lt i 64)), ?(proj2 (Z.ltb_lt i 32)) by lia; reflexivity|]);
    repeat rewrite ?Z.lxor_spec, ?Z.land_spec, ?Z.lor_spec, ?not32_bit by lia;
    (replace (i - 32 <? 32) with (i <? 64) by (destruct (Z.ltb_spec i 64), (Z.ltb_spec (i - 32) 32); [done|exfalso; lia|exfalso; lia|done])); reflexivity.
Qed.
Lemma MIX_WORD_words u v : word 32 u -> word 32 v -> word 32 (MIX_WORD u v).1 /\ word 32 (MIX_WORD u v).2.
Proof. intros. unfold MIX_WORD. cbv zeta. cbn [fst snd]. split; repeat (apply word_lxor || apply word_rotl32); done || lia. Qed.
Lemma MIX_WORDW_ref u1 u2 v1 v2 : word 32 u1 -> word 32 u2 -> word 32 v1 -> word 32 v2 ->
  MIX_WORDW (J u1 u2) (J v1 v2) = (J (MIX_WORD u1 v1).1 (MIX_WORD u2 v2).1, J (MIX_WORD u1 v1).2 (MIX_WORD u2 v2).2).
Proof.
  intros. unfold MIX_WORDW, MIX_WORD. cbv zeta. rewrite luffa_J_lxor by done. rewrite !T32_J, !T32_J_high by (done || by apply word_lxor). reflexivity.
Qed.
Definition row_ok (x : list Z) : Prop := length x = 8%nat /\ words32 x.
Lemma row_lookup x k : row_ok x -> (k < 8)%nat -> word 32 (x !!! k).
Proof. intros [Hl Hw] Hk. apply Forall_lookup_total_1; [done|lia]. Qed.
Lemma row_body_words rc0 rc4 x r : row_ok x -> word 32 (rc0 !!! r) -> word 32 (rc4 !!! r) -> row_ok (row_body SUB_CRUMB MIX_WORD rc0 rc4 x r).
Proof.
  intros Hx H0 H4. assert (W : forall k, (k < 8)%nat -> word 32 (x !!! k)) by (intros; by apply row_lookup). unfold row_body.
  pose proof (SUB_CRUMB_words _ _ _ _ (W 0%nat ltac:(lia)) (W 1%nat ltac:(lia)) (W 2%nat ltac:(lia)) (W 3%nat ltac:(lia))) as Q1.
  pose proof (SUB_CRUMB_words _ _ _ _ (W 5%nat ltac:(lia)) (W 6%nat ltac:(lia)) (W 7%nat ltac:(lia)) (W 4%nat ltac:(lia))) as Q2.
  destruct (SUB_CRUMB _ _ _ _) as [[[a0 a1] a2] a3]. destruct (SUB_CRUMB _ _ _ _) as [[[a5 a6] a7] a4]. destruct Q1 as (? & ? & ? & ?). destruct Q2 as (? & ? & ? & ?).
  destruct (MIX_WORD_words a0 a4) as [? ?]; [done..|]. destruct (MIX_WORD_words a1 a5) as [? ?]; [done..|]. destruct (MIX_WORD_words a2 a6) as [? ?]; [done..|]. destruct (MIX_WORD_words a3 a7) as [? ?]; [done..|].
  destruct (MIX_WORD a0 a4), (MIX_WORD a1 a5), (MIX_WORD a2 a6), (MIX_WORD a3 a7). cbn [fst snd] in *. split; [done|].
  repeat (apply List.Forall_cons; [done || (by apply word_lxor)|]). constructor.
Qed.
Lemma row_body_pair rca0 rca4 rcb0 rcb4 rcw0 rcw4 x y r : row_ok x -> row_ok y -> word 32 (rca0 !!! r) -> word 32 (rca4 !!! r) ->
  rcw0 !!! r = J (rca0 !!! r) (rcb0 !!! r) -> rcw4 !!! r = J (rca4 !!! r) (rcb4 !!! r) ->
  row_body SUB_CRUMBW MIX_WORDW rcw0 rcw4 (zip_with J x y) r = zip_with J (row_body SUB_CRUMB MIX_WORD rca0 rca4 x r) (row_body SUB_CRUMB MIX_WORD rcb0 rcb4 y r).
Proof.
  intros Hx Hy H0 H4 E0 E4. assert (W : forall k, (k < 8)%nat -> word 32 (x !!! k)) by (intros; by apply row_lookup). assert (Wy : forall k, (k < 8)%nat -> word 32 (y !!! k)) by (intros; by apply row_lookup).
  assert (Ez : forall k, (k < 8)%nat -> zip_with J x y !!! k = J (x !!! k) (y !!! k)).
  { intros k Hk. destruct Hx as [Hx _], Hy as [Hy _]. destruct (lookup_lt_is_Some_2 x k) as [a Ea]; [lia|]. destruct (lookup_lt_is_Some_2 y k) as [b Eb]; [lia|].
    rewrite !list_lookup_total_alt, lookup_zip_with, Ea, Eb. done. }
  unfold row_body. rewrite !Ez by lia. rewrite !SUB_CRUMBW_ref by (apply W; lia).
  pose proof (SUB_CRUMB_words _ _ _ _ (W 0%nat ltac:(lia)) (W 1%nat ltac:(lia)) (W 2%nat ltac:(lia)) (W 3%nat ltac:(lia))) as Q1.
  pose proof (SUB_CRUMB_words _ _ _ _ (W 5%nat ltac:(lia)) (W 6%nat ltac:(lia)) (W 7%nat ltac:(lia)) (W 4%nat ltac:(lia))) as Q2.
  pose proof (SUB_CRUMB_words _ _ _ _ (Wy 0%nat ltac:(lia)) (Wy 1%nat ltac:(lia)) (Wy 2%nat ltac:(lia)) (Wy 3%nat ltac:(lia))) as Q3.
  pose proof (SUB_CRUMB_words _ _ _ _ (Wy 5%nat ltac:(lia)) (Wy 6%nat ltac:(lia)) (Wy 7%nat ltac:(lia)) (Wy 4%nat ltac:(lia))) as Q4.
  destruct (SUB_CRUMB (x !!! 0%nat) _ _ _) as [[[a0 a1] a2] a3]. destruct (SUB_CRUMB (x !!! 5%nat) _ _ _) as [[[a5 a6] a7] a4].
  destruct (SUB_CRUMB (y !!! 0%nat) _ _ _) as [[[b0 b1] b2] b3]. destruct (SUB_CRUMB (y !!! 5%nat) _ _ _) as [[[b5 b6] b7] b4]. cbn [pairs].
  destruct Q1 as (? & ? & ? & ?). destruct Q2 as (? & ? & ? & ?). destruct Q3 as (? & ? & ? & ?). destruct Q4 as (? & ? & ? & ?). rewrite !MIX_WORDW_ref by done.
  destruct (MIX_WORD_words a0 a4) as [? ?]; [done..|].
  destruct (MIX_WORD a0 a4), (MIX_WORD a1 a5), (MIX_WORD a2 a6), (MIX_WORD a3 a7), (MIX_WORD b0 b4), (MIX_WORD b1 b5), (MIX_WORD b2 b6), (MIX_WORD b3 b7). cbn [fst snd zip_with] in *.
  rewrite E0, E4, !luffa_J_lxor by done. reflexivity.
Qed.
(** A table of round constants. *)
Definition rc_ok (rc : list Z) : Prop := length rc = 8%nat /\ words32 rc.
Lemma row_loop_words rc0 rc4 x l : row_ok x -> rc_ok rc0 -> rc_ok rc4 -> (forall r, In r l -> (r < 8)%nat) -> row_ok (foldl (row_body SUB_CRUMB MIX_WORD rc0 rc4) x l).
Proof.
  intros Hx H0 H4. revert x Hx. induction l as [|r l IH]; intros x Hx Hl; [done|]. cbn [foldl]. apply IH; [|intros; apply Hl; by right].
  apply row_body_words; [done|by apply row_lookup; [|apply Hl; left]..].
Qed.
Lemma pair_loop_ref rca0 rca4 rcb0 rcb4 x y : row_ok x -> row_ok y -> rc_ok rca0 -> rc_ok rca4 -> rc_ok rcb0 -> rc_ok rcb4 ->
  pair_loop (zip_with J rca0 rcb0) (zip_with J rca4 rcb4) x y = (row_loop rca0 rca4 x, row_loop rcb0 rcb4 y).
Proof.
  intros Hx Hy A0 A4 B0 B4. unfold pair_loop, row_loop. fold J. change (zip_with (fun a b => Z.lor a (Z.shiftl b 32)) x y) with (zip_with J x y).
  assert (Ez : forall (u v : list Z) k, rc_ok u -> rc_ok v -> (k < 8)%nat -> zip_with J u v !!! k = J (u !!! k) (v !!! k)).
  { intros u v k [Hu _] [Hv _] Hk. destruct (lookup_lt_is_Some_2 u k) as [a Ea]; [lia|]. destruct (lookup_lt_is_Some_2 v k) as [b Eb]; [lia|].
    rewrite !list_lookup_total_alt, lookup_zip_with, Ea, Eb. done. }
  assert (E : forall l x y, row_ok x -> row_ok y -> (forall r, In r l -> (r < 8)%nat) ->
    foldl (row_body SUB_CRUMBW MIX_WORDW (zip_with J rca0 rcb0) (zip_with J rca4 rcb4)) (zip_with J x y) l
    = zip_with J (foldl (row_body SUB_CRUMB MIX_WORD rca0 rca4) x l) (foldl (row_body SUB_CRUMB MIX_WORD rcb0 rcb4) y l)).
  { clear x y Hx Hy. induction l as [|r l IH]; intros x y Hx Hy Hl; [done|]. cbn [foldl]. assert (Hr : (r < 8)%nat) by (apply Hl; by left).
    rewrite (row_body_pair rca0 rca4 rcb0 rcb4); [|done|done|by apply row_lookup|by apply row_lookup|by apply Ez|by apply Ez].
    apply IH; [apply row_body_words; [done|by apply row_lookup..]|apply row_body_words; [done|by apply row_lookup..]|intros; apply Hl; by right]. }
  assert (Hs : forall r, In r (seq 0 8) -> (r < 8)%nat) by (intros r Hr; apply in_seq in Hr; lia).
  rewrite E by done. destruct (row_loop_words rca0 rca4 x (seq 0 8) Hx A0 A4 Hs) as [Lx Wx]. destruct (row_loop_words rcb0 rcb4 y (seq 0 8) Hy B0 B4 Hs) as [Ly Wy].
  set (u := foldl _ x _) in *. set (v := foldl _ y _) in *. clearbody u v. clear - Lx Wx Ly Wy. rewrite <-Ly in Lx. clear Ly. apply (f_equal2 pair).
  - revert v Lx Wy. induction Wx as [|a u Ha _ IH]; intros [|b v] Hl Wy; [done..|]. cbn [zip_with fmap list_fmap]. apply Forall_cons_1 in Wy as [_ Wy]. rewrite T32_J by done. f_equal. apply IH; [by injection Hl|done].
  - revert v Lx Wy. induction Wx as [|a u Ha _ IH]; intros [|b v] Hl Wy; [done..|]. cbn [zip_with fmap list_fmap]. apply Forall_cons_1 in Wy as [Hb Wy]. rewrite T32_J_high by done. f_equal. apply IH; [by injection Hl|done].
Qed.

(** ** The permutations *)

Definition RC0 (j : nat) : list Z := [RC00; RC10; RC20; RC30; RC40] !!! j.
Definition RC4 (j : nat) : list Z := [RC04; RC14; RC24; RC34; RC44] !!! j.
Lemma constants_ref : Forall (fun j => RC0 j = ((fun r => round_const j (2 * r)) <$> seq 0 8) /\ RC4 j = ((fun r => round_const j (2 * r + 1)) <$> seq 0 8)) (seq 0 5).
Proof. repeat (apply List.Forall_cons; [vm_compute; split; reflexivity|]). constructor. Qed.
Lemma pairs_ref : RCW010 = zip_with J RC00 RC10 /\ RCW014 = zip_with J RC04 RC14 /\ RCW230 = zip_with J RC20 RC30 /\ RCW234 = zip_with J RC24 RC34.
Proof. vm_compute. split_and!; reflexivity. Qed.
Lemma RC_ok j : (j < 5)%nat -> rc_ok (RC0 j) /\ rc_ok (RC4 j).
Proof. intros Hj. do 5 (destruct j as [|j]; [split; (split; [exact eq_refl|apply words32_by; exact eq_refl])|]). lia. Qed.
Lemma rot_row_ok j x : 0 <= j <= 32 -> row_ok x -> row_ok (rot_row j x).
Proof.
  intros Hj [Hl Hw]. unfold rot_row. split; [rewrite length_app, length_fmap, length_take, length_drop; lia|]. apply Forall_app_2; [by apply Forall_take|].
  apply Forall_fmap. eapply list.Forall_impl; [by apply Forall_drop|]. intros v Hv. by apply word_rotl32.
Qed.
Lemma row_body_sub rc0 rc4 x r : row_ok x -> row_body sub_crumb MIX_WORD rc0 rc4 x r = row_body SUB_CRUMB MIX_WORD rc0 rc4 x r.
Proof. intros Hx. unfold row_body. rewrite <-!SUB_CRUMB_ref by (apply row_lookup; [done|lia]). reflexivity. Qed.
Lemma Q_ref j x : (j < 5)%nat -> row_ok x -> Q j x = row_loop (RC0 j) (RC4 j) (rot_row (Z.of_nat j) x) /\ row_ok (Q j x).
Proof.
  intros Hj Hx. assert (Hc : RC0 j = ((fun r => round_const j (2 * r)) <$> seq 0 8) /\ RC4 j = ((fun r => round_const j (2 * r + 1)) <$> seq 0 8)).
  { pose proof constants_ref as C. rewrite Forall_forall in C. apply C. apply in_seq. lia. }
  destruct (RC_ok j Hj) as [R0 R4]. assert (Hr := rot_row_ok (Z.of_nat j) x ltac:(lia) Hx). unfold Q, row_loop. fold (rot_row (Z.of_nat j) x). unfold step. destruct Hc as [<- <-].
  generalize dependent (rot_row (Z.of_nat j) x). assert (Hs : forall r, In r (seq 0 8) -> (r < 8)%nat) by (intros r Hr; apply in_seq in Hr; lia). revert Hs. generalize (seq 0 8).
  intros l Hl. induction l as [|r l IH]; intros y Hy; [done|]. cbn [foldl]. rewrite row_body_sub by done. apply IH; [intros; apply Hl; by right|].
  apply row_body_words; [done|by apply row_lookup; [|apply Hl; left]..].
Qed.
Lemma rotl32_0 v : word 32 v -> rotl32 v 0 = v.
Proof.
  intros Hv. unfold rotl32, shl32. rewrite Z.shiftl_0_r, T32_id by done. rewrite Z.shiftr_div_pow2 by lia. unfold word in Hv. rewrite Z.div_small by lia. apply Z.lor_0_r.
Qed.
Lemma rot_row_0 x : row_ok x -> rot_row 0 x = x.
Proof.
  intros [Hl Hw]. unfold rot_row. rewrite <-(take_drop 4 x) at 3. f_equal. apply (Forall_drop _ 4) in Hw. induction Hw as [|v l Hv _ IH]; [done|]. cbn. by rewrite IH, rotl32_0.
Qed.
Definition state_ok (w : nat) (V : list (list Z)) : Prop := length V = w /\ Forall row_ok V.
Lemma Q_rows V : (length V <= 5)%nat -> Forall row_ok V -> Forall row_ok (imap Q V).
Proof.
  intros Hl HV. apply Forall_lookup. intros j y Hy. rewrite list_lookup_imap in Hy. destruct (V !! j) as [x|] eqn:E; [|done]. injection Hy as <-.
  apply Q_ref; [apply lookup_lt_Some in E; lia|]. exact (Forall_lookup_1 _ _ _ _ HV E).
Qed.
Lemma P3_ref par V : state_ok 3 V -> P3 par V = imap Q V /\ state_ok 3 (imap Q V).
Proof.
  intros [Hl HV]. split; [|split; [by rewrite length_imap|apply Q_rows; [lia|done]]]. do 3 (destruct V as [|? V]; [done|]). destruct V; [|done].
  repeat (apply Forall_cons_1 in HV as [? HV]).
  destruct (Q_ref 0 l ltac:(lia) ltac:(done)) as [E0 _]. destruct (Q_ref 1 l0 ltac:(lia) ltac:(done)) as [E1 _]. destruct (Q_ref 2 l1 ltac:(lia) ltac:(done)) as [E2 _].
  change (imap Q _) with [Q 0 l; Q 1 l0; Q 2 l1]. rewrite E0, E1, E2, rot_row_0 by done. destruct pairs_ref as (W1 & W2 & W3 & W4).
  unfold P3, TWEAK3. cbn [lookup_total list_lookup_total]. destruct par; [|reflexivity]. rewrite W1, W2, pair_loop_ref; [reflexivity|done|by apply rot_row_ok; [lia|]|apply (RC_ok 0); lia|apply (RC_ok 0); lia|apply (RC_ok 1); lia|apply (RC_ok 1); lia].
Qed.
Ltac rc_tables := first [apply (RC_ok 0); lia | apply (RC_ok 1); lia | apply (RC_ok 2); lia | apply (RC_ok 3); lia | apply (RC_ok 4); lia].
Lemma P4_ref par V : state_ok 4 V -> P4 par V = imap Q V /\ state_ok 4 (imap Q V).
Proof.
  intros [Hl HV]. split; [|split; [by rewrite length_imap|apply Q_rows; [lia|done]]]. do 4 (destruct V as [|? V]; [done|]). destruct V; [|done]. repeat (apply Forall_cons_1 in HV as [? HV]).
  destruct (Q_ref 0 l ltac:(lia) ltac:(done)) as [E0 _]. destruct (Q_ref 1 l0 ltac:(lia) ltac:(done)) as [E1 _]. destruct (Q_ref 2 l1 ltac:(lia) ltac:(done)) as [E2 _]. destruct (Q_ref 3 l2 ltac:(lia) ltac:(done)) as [E3 _].
  change (imap Q _) with [Q 0 l; Q 1 l0; Q 2 l1; Q 3 l2]. rewrite E0, E1, E2, E3, rot_row_0 by done. destruct pairs_ref as (W1 & W2 & W3 & W4).
  unfold P4, TWEAK4. cbn [lookup_total list_lookup_total]. destruct par; [|reflexivity]. rewrite W1, W2, W3, W4.
  rewrite pair_loop_ref; [|done|by apply rot_row_ok; [lia|]|rc_tables..]. rewrite pair_loop_ref; [reflexivity|by apply rot_row_ok; [lia|]..|rc_tables|rc_tables|rc_tables|rc_tables].
Qed.
Lemma P5_ref par V : state_ok 5 V -> P5 par V = imap Q V /\ state_ok 5 (imap Q V).
Proof.
  intros [Hl HV]. split; [|split; [by rewrite length_imap|apply Q_rows; [lia|done]]]. do 5 (destruct V as [|? V]; [done|]). destruct V; [|done]. repeat (apply Forall_cons_1 in HV as [? HV]).
  destruct (Q_ref 0 l ltac:(lia) ltac:(done)) as [E0 _]. destruct (Q_ref 1 l0 ltac:(lia) ltac:(done)) as [E1 _]. destruct (Q_ref 2 l1 ltac:(lia) ltac:(done)) as [E2 _]. destruct (Q_ref 3 l2 ltac:(lia) ltac:(done)) as [E3 _].
  destruct (Q_ref 4 l3 ltac:(lia) ltac:(done)) as [E4 _].
  change (imap Q _) with [Q 0 l; Q 1 l0; Q 2 l1; Q 3 l2; Q 4 l3]. rewrite E0, E1, E2, E3, E4, rot_row_0 by done. destruct pairs_ref as (W1 & W2 & W3 & W4).
  unfold P5, TWEAK5. cbn [lookup_total list_lookup_total]. destruct par; [|reflexivity]. rewrite W1, W2, W3, W4.
  rewrite pair_loop_ref; [|done|by apply rot_row_ok; [lia|]|rc_tables..]. rewrite pair_loop_ref; [reflexivity|by apply rot_row_ok; [lia|]..|rc_tables|rc_tables|rc_tables|rc_tables].
Qed.

(** ** Blocks *)

Lemma row_XOR a b : row_ok a -> row_ok b -> row_ok (XOR a b).
Proof.
  intros [La Wa] [Lb Wb]. unfold XOR. split; [rewrite length_zip_with; lia|]. clear La Lb. revert b Wb. induction Wa as [|x a Hx _ IH]; intros b Wb; [constructor|].
  destruct Wb as [|y b Hy Wb]; [constructor|]. cbn [zip_with]. apply List.Forall_cons; [by apply word_lxor|by apply IH].
Qed.
Lemma row_M2 a : row_ok a -> row_ok (M2 a).
Proof.
  intros [La Wa]. do 8 (destruct a as [|? a]; [done|]). destruct a; [|done]. repeat (apply Forall_cons_1 in Wa as [? Wa]). split; [done|]. unfold M2. cbn [nth].
  repeat (apply List.Forall_cons; [done || (by apply word_lxor)|]). constructor.
Qed.
Lemma state_rows w V : state_ok w V -> rows8 w V.
Proof. intros [Hl HV]. split; [done|]. eapply list.Forall_impl; [exact HV|]. by intros x [H _]. Qed.
Ltac mi_ok HV :=
  repeat (apply Forall_cons_1 in HV as [? HV]); cbn [lookup_total list_lookup_total]; cbv zeta; (split; [done|]);
  repeat (apply List.Forall_cons; [repeat first [assumption | apply row_XOR | apply row_M2]|]); constructor.
Lemma MI3_ok V M : state_ok 3 V -> row_ok M -> state_ok 3 (MI3 V M).
Proof. intros [Hl HV] HM. do 3 (destruct V as [|? V]; [done|]). destruct V; [|done]. unfold MI3. mi_ok HV. Qed.
Lemma MI4_ok V M : state_ok 4 V -> row_ok M -> state_ok 4 (MI4 V M).
Proof. intros [Hl HV] HM. do 4 (destruct V as [|? V]; [done|]). destruct V; [|done]. unfold MI4. mi_ok HV. Qed.
Lemma MI5_ok V M : state_ok 5 V -> row_ok M -> state_ok 5 (MI5 V M).
Proof. intros [Hl HV] HM. do 5 (destruct V as [|? V]; [done|]). destruct V; [|done]. unfold MI5. mi_ok HV. Qed.
Lemma dec_block_ok b : bytes b -> row_ok (dec_block b).
Proof. intros Hb. unfold dec_block. split; [by rewrite length_fmap|]. apply Forall_fmap, Forall_true. intros i. apply (word_be_load 4). by apply Forall_slice. Qed.

(** The block function of [w] rows. *)
Definition blk (par : bool) (w : nat) : list (list Z) -> list Z -> list (list Z) :=
  if (w =? 3)%nat then luffa_block3 par else if (w =? 4)%nat then luffa_block4 par else luffa_block5 par.
Lemma blk_ref par w V b : In w [3; 4; 5]%nat -> state_ok w V -> bytes b -> blk par w V b = luffa_round w V b /\ state_ok w (luffa_round w V b).
Proof.
  intros Hw HV Hb. pose proof (dec_block_ok b Hb) as HM. unfold luffa_round. simpl in Hw. destruct Hw as [<-|[<-|[<-|[]]]]; cbn [blk Nat.eqb].
  - unfold luffa_block3. rewrite <-MI3_ref; [|by apply state_rows|apply HM]. apply P3_ref. by apply MI3_ok.
  - unfold luffa_block4. rewrite <-MI4_ref; [|by apply state_rows|apply HM]. apply P4_ref. by apply MI4_ok.
  - unfold luffa_block5. rewrite <-MI5_ref; [|by apply state_rows|apply HM]. apply P5_ref. by apply MI5_ok.
Qed.
Lemma luffa_blocks_ref par w bs V : In w [3; 4; 5]%nat -> state_ok w V -> Forall bytes bs -> foldl (blk par w) V bs = foldl (luffa_round w) V bs /\ state_ok w (foldl (luffa_round w) V bs).
Proof.
  intros Hw HV Hb. revert V HV. induction Hb as [|b bs Hb _ IH]; intros V HV; [done|]. cbn [foldl]. destruct (blk_ref par w V b Hw HV Hb) as [-> H]. by apply IH.
Qed.
Lemma out_words_ref w V n : (1 <= w)%nat -> state_ok w V -> (n <= 8)%nat -> out_words V n = flat_map (be_store 4) (take n (row_sum V)).
Proof.
  intros Hw [Hl HV] Hn. assert (Hs : length (row_sum V) = 8%nat /\ forall i, (i < 8)%nat -> row_sum V !!! i = out_word V i).
  { destruct V as [|r V]; [simpl in Hl; lia|]. apply Forall_cons_1 in HV as [[Hr _] HV]. unfold row_sum, out_word. cbn [foldl tail]. change ((r :: V) !!! 0%nat) with r.
    assert (E0 : zip_with Z.lxor (replicate 8 0) r = r) by (do 8 (destruct r as [|? r]; [done|]); destruct r; [|done]; cbn; by rewrite ?Z.lxor_0_l). rewrite E0. clear E0 Hl.
    revert r Hr. induction HV as [|r' V [Hr' _] _ IH]; intros r Hr; [done|]. cbn [foldl]. assert (Hz : length (zip_with Z.lxor r r') = 8%nat) by (rewrite length_zip_with; lia).
    destruct (IH _ Hz) as [H1 H2]. split; [exact H1|]. intros i Hi. rewrite H2 by done. f_equal.
    destruct (lookup_lt_is_Some_2 r i) as [a Ea]; [lia|]. destruct (lookup_lt_is_Some_2 r' i) as [b Eb]; [lia|]. by rewrite !list_lookup_total_alt, lookup_zip_with, Ea, Eb. }
  destruct Hs as [Hlen Hlook]. unfold out_words. generalize dependent (row_sum V). intros s Hs Hlook. clear - Hn Hs Hlook.
  assert (E : take n s = out_word V <$> seq 0 n).
  { apply list_eq_same_length with n; [by rewrite length_fmap, length_seq|rewrite length_take; lia|]. intros i x y Hi Hx Hy. rewrite list_lookup_fmap, lookup_seq_lt in Hy by done. cbn in Hy. injection Hy as <-.
    rewrite lookup_take_lt in Hx by done. rewrite <-Hlook by lia. symmetry. by apply list_lookup_total_correct. }
  rewrite E. generalize (seq 0 n). intros l. induction l as [|i l IH]; [done|]. cbn [flat_map fmap list_fmap]. rewrite IH. reflexivity.
Qed.

(** ** Streaming *)

Lemma luffa_init_ok w : In w [3; 4; 5]%nat -> state_ok w (take w V_INIT).
Proof.
  intros Hw. simpl in Hw. destruct Hw as [<-|[<-|[<-|[]]]]; (split; [exact eq_refl|]);
    repeat (apply List.Forall_cons; [split; [exact eq_refl|apply words32_by; exact eq_refl]|]); constructor.
Qed.
(** The three states the output is taken from. *)
Lemma luffa_chain par w junk pieces ub n : In w [3; 4; 5]%nat -> length junk = 32%nat -> word 8 ub -> 0 <= n < 8 -> let m := concat pieces in bytes m ->
  let sc := foldl (sph_core 32 (blk par w)) (mk_sph junk 0 (take w V_INIT)) pieces in
  let V := foldl (luffa_round w) (take w V_INIT) (blocks 32 (luffa_pad m ub n)) in
  let V1 := luffa_round w V (replicate 32 0) in
  let V2 := luffa_round w V1 (replicate 32 0) in
  blk par w (sc_st sc) (pad_buf sc ub n) = V /\ blk par w V (replicate 32 0) = V1 /\ blk par w V1 (replicate 32 0) = V2 /\ state_ok w V1 /\ state_ok w V2.
Proof.
  intros Hw Hj Hub Hn m Hm sc V V1 V2. destruct (sph_pieces_spec 32 (blk par w) ltac:(lia) junk (take w V_INIT) pieces Hj) as (Hok & Est & Ep & El). cbv zeta in *. fold sc m in Hok, Est, Ep, El.
  destruct (luffa_blocks_ref par w (blocks 32 m) (take w V_INIT) Hw (luffa_init_ok w Hw) (blocks_bytes 32 m Hm)) as [Eb Hs]. rewrite Eb in Est.
  assert (Epad : pad_buf sc ub n = leftover 32 m ++ [last_bits ub n] ++ replicate (31 - length m mod 32) 0).
  { unfold pad_buf. rewrite (pad_buffer 32 sc _ Hok), El, (proj1 (final_byte_ref ub n Hub Hn)), Ep. replace (32 - S (length m mod 32))%nat with (31 - length m mod 32)%nat by lia. reflexivity. }
  assert (Hlb : word 8 (last_bits ub n)) by (destruct (final_byte_ref ub n Hub Hn) as [<- H]; exact H).
  assert (H0 : forall k, bytes (replicate k 0)) by (intros k; by apply Forall_replicate, word_0).
  assert (Hpb : bytes (pad_buf sc ub n)) by (rewrite Epad; apply Forall_app_2; [by apply Forall_drop|apply Forall_app_2; [by apply List.Forall_cons; [|constructor]|apply H0]]).
  assert (EV : V = luffa_round w (sc_st sc) (pad_buf sc ub n)).
  { unfold V, luffa_pad. rewrite (blocks_last 32 m (last_bits ub n :: _)), foldl_app, <-Est; [|lia|].
    - cbn [foldl]. rewrite Epad. reflexivity.
    - rewrite length_app, length_leftover, length_cons, length_replicate by lia. pose proof (Nat.mod_upper_bound (length m) 32 ltac:(lia)). lia. }
  rewrite <-Est in Hs. destruct (blk_ref par w (sc_st sc) (pad_buf sc ub n) Hw Hs Hpb) as [E1 S1]. rewrite <-EV in E1, S1.
  destruct (blk_ref par w V (replicate 32 0) Hw S1 (H0 32%nat)) as [E2 S2]. fold V1 in E2, S2. destruct (blk_ref par w V1 (replicate 32 0) Hw S2 (H0 32%nat)) as [E3 S3]. fold V2 in E3, S3.
  split_and!; [exact E1|exact E2|exact E3|exact S2|exact S3].
Qed.
Lemma length_row_sum w V : state_ok w V -> length (row_sum V) = 8%nat.
Proof.
  intros [_ HV]. unfold row_sum. assert (H : forall acc : list Z, length acc = 8%nat -> length (foldl (zip_with Z.lxor) acc V) = 8%nat); [|by apply H].
  induction HV as [|r V [Hr _] _ IH]; intros acc Ha; [done|]. cbn [foldl]. apply IH. rewrite length_zip_with. lia.
Qed.
Lemma digest_split V1 V2 w k : state_ok w V1 -> state_ok w V2 -> (k <= 8)%nat ->
  flat_map (be_store 4) (take k (row_sum V1 ++ row_sum V2)) = flat_map (be_store 4) (take k (row_sum V1)) /\
  flat_map (be_store 4) (take (8 + k) (row_sum V1 ++ row_sum V2)) = flat_map (be_store 4) (take 8 (row_sum V1)) ++ flat_map (be_store 4) (take k (row_sum V2)).
Proof.
  intros H1 H2 Hk. pose proof (length_row_sum w V1 H1) as L1. split; [by rewrite take_app_le by lia|]. rewrite <-flat_map_app. f_equal. rewrite take_app_ge by lia. rewrite L1, (take_ge (row_sum V1)) by lia. do 2 f_equal. lia.
Qed.
Lemma luffa3_stream par junk pieces ub n k : length junk = 32%nat -> word 8 ub -> 0 <= n < 8 -> bytes (concat pieces) -> (k = 7 \/ k = 8)%nat ->
  (luffa3_close par (foldl (luffa3 par) (mk_sph junk 0 (take 3 V_INIT)) pieces) ub n k).2 = luffa_digest 3 k (concat pieces) ub n.
Proof.
  intros Hj Hub Hn Hm Hk. destruct (luffa_chain par 3 junk pieces ub n ltac:(simpl; tauto) Hj Hub Hn Hm) as (E1 & E2 & E3 & S1 & S2). cbn [blk Nat.eqb] in E1, E2, E3, S1, S2.
  unfold luffa3_close, luffa_digest. cbn [snd]. change (luffa3 par) with (sph_core 32 (luffa_block3 par)). rewrite E1, E2.
  set (V1 := luffa_round 3 _ _) in *. set (V2 := luffa_round 3 V1 _) in *. clearbody V1 V2.
  rewrite (proj1 (digest_split V1 V2 3 k S1 S2 ltac:(lia))). rewrite (out_words_ref 3 V1) by (done || lia || destruct (7 <? k)%nat; lia). destruct Hk as [-> | ->]; reflexivity.
Qed.
Lemma luffa4_stream par junk pieces ub n : length junk = 32%nat -> word 8 ub -> 0 <= n < 8 -> bytes (concat pieces) ->
  (luffa4_close par (foldl (luffa4 par) (mk_sph junk 0 (take 4 V_INIT)) pieces) ub n).2 = luffa_digest 4 12 (concat pieces) ub n.
Proof.
  intros Hj Hub Hn Hm. destruct (luffa_chain par 4 junk pieces ub n ltac:(simpl; tauto) Hj Hub Hn Hm) as (E1 & E2 & E3 & S1 & S2). cbn [blk Nat.eqb] in E1, E2, E3, S1, S2.
  unfold luffa4_close, luffa_digest. cbn [snd]. change (luffa4 par) with (sph_core 32 (luffa_block4 par)). rewrite E1, E2, E3.
  set (V1 := luffa_round 4 _ _) in *. set (V2 := luffa_round 4 V1 _) in *. clearbody V1 V2.
  change 12%nat with (8 + 4)%nat. rewrite (proj2 (digest_split V1 V2 4 4 S1 S2 ltac:(lia))). by rewrite (out_words_ref 4 V1), (out_words_ref 4 V2) by (done || lia).
Qed.
Lemma luffa5_stream par junk pieces ub n : length junk = 32%nat -> word 8 ub -> 0 <= n < 8 -> bytes (concat pieces) ->
  (luffa5_close par (foldl (luffa5 par) (mk_sph junk 0 (take 5 V_INIT)) pieces) ub n).2 = luffa_digest 5 16 (concat pieces) ub n /\
  length (luffa_digest 5 16 (concat pieces) ub n) = 64%nat /\ bytes (luffa_digest 5 16 (concat pieces) ub n).
Proof.
  intros Hj Hub Hn Hm. destruct (luffa_chain par 5 junk pieces ub n ltac:(simpl; tauto) Hj Hub Hn Hm) as (E1 & E2 & E3 & S1 & S2). cbn [blk Nat.eqb] in E1, E2, E3, S1, S2.
  unfold luffa5_close, luffa_digest. cbn [snd]. change (luffa5 par) with (sph_core 32 (luffa_block5 par)). rewrite E1, E2, E3.
  set (V1 := luffa_round 5 _ _) in *. set (V2 := luffa_round 5 V1 _) in *. clearbody V1 V2.
  change 16%nat with (8 + 8)%nat. rewrite (proj2 (digest_split V1 V2 5 8 S1 S2 ltac:(lia))). rewrite (out_words_ref 5 V1), (out_words_ref 5 V2) by (done || lia). split; [reflexivity|].
  pose proof (length_row_sum 5 V1 S1) as L1. pose proof (length_row_sum 5 V2 S2) as L2. rewrite <-flat_map_app, !take_ge by lia.
  destruct (digest_words_gen (be_store 4) 4 (row_sum V1 ++ row_sum V2) (fun v => conj (length_be_store 4 v) (bytes_be_store 4 v))) as [Hd Hb]. rewrite Hd, length_app, L1, L2. done.
Qed.

(** ** Properties *)

(** C18. For the four digest sizes and both builds, feeding a message to [sph_luffa*] in any
    pieces and closing with up to 7 extra bits gives the Luffa digest of the concatenation:
    the shared sums of the message injection are the matrices over GF(2)[x] modulo
    x^8 + x^4 + x^3 + x + 1 for three, four and five rows, the logical operations are the
    S-box on every bit position, two rows at once in 64-bit words are the two permutations,
    and the tables of constants are those of the generator. *)
Theorem sph_luffa_streaming parallel junk pieces ub n :
  length junk = 32%nat -> word 8 ub -> 0 <= n < 8 ->
  let m := concat pieces in
  bytes m ->
  (sph_luffa224_addbits_and_close parallel (foldl (sph_luffa224 parallel) (sph_luffa224_init junk) pieces) ub n).2 = luffa_digest 3 7 m ub n /\
  (sph_luffa256_addbits_and_close parallel (foldl (sph_luffa256 parallel) (sph_luffa256_init junk) pieces) ub n).2 = luffa_digest 3 8 m ub n /\
  (sph_luffa384_addbits_and_close parallel (foldl (sph_luffa384 parallel) (sph_luffa384_init junk) pieces) ub n).2 = luffa_digest 4 12 m ub n /\
  (sph_luffa512_addbits_and_close parallel (foldl (sph_luffa512 parallel) (sph_luffa512_init junk) pieces) ub n).2 = luffa_digest 5 16 m ub n.
Proof.
  intros Hj Hub Hn m Hm. split; [exact (luffa3_stream parallel junk pieces ub n 7 Hj Hub Hn Hm ltac:(lia))|]. split; [exact (luffa3_stream parallel junk pieces ub n 8 Hj Hub Hn Hm ltac:(lia))|].
  split; [exact (luffa4_stream parallel junk pieces ub n Hj Hub Hn Hm)|exact (proj1 (luffa5_stream parallel junk pieces ub n Hj Hub Hn Hm))].
Qed.
Lemma sph_luffa_streaming_witness :
  (sph_luffa512_addbits_and_close true (foldl (sph_luffa512 true) (sph_luffa512_init (replicate 32 9)) [[0x61]; replicate 40 0x62]) 0xA0 3).2
  = luffa_digest 5 16 (concat [[0x61]; replicate 40 0x62]) 0xA0 3.
Proof.
  assert (Hb : bytes (concat [[0x61]; replicate 40 0x62])) by (apply byte_list_dec; reflexivity).
  refine (proj2 (proj2 (proj2 (sph_luffa_streaming true (replicate 32 9) [[0x61]; replicate 40 0x62] 0xA0 3 eq_refl _ _ Hb)))); unfold word; lia.
Defined.

(** The empty message, as published. *)
Example luffa512_empty :
  take 16 (sph_luffa512_close true (sph_luffa512_init (replicate 32 0))).2
  = [0x6E; 0x7D; 0xE4; 0x50; 0x11; 0x89; 0xB3; 0xCA; 0x58; 0xF3; 0xAC; 0x11; 0x49; 0x16; 0x65; 0x4B].
Proof. vm_compute. reflexivity. Qed.

End Luffa.
