(* ===== verification/Bmw.v ===== *)
(** * Blue Midnight Wish ([crypto/ghostrider/sph_bmw.c]).

    One model for the 32-bit code (BMW-224 and BMW-256) and the 64-bit code (BMW-384 and
    BMW-512), with the two ways the macros write the expansion out.  The reference is the
    submission: [f0] multiplies by a matrix of signs, [f1] expands with indices modulo 16,
    [f2] folds, and a last compression mixes the result into a constant. *)
From S2P Require Import Prelude Stream SphCore.

Module Bmw.

Definition IV224 : list Z := [
  0x00010203; 0x04050607; 0x08090A0B; 0x0C0D0E0F; 0x10111213; 0x14151617; 0x18191A1B; 0x1C1D1E1F;
  0x20212223; 0x24252627; 0x28292A2B; 0x2C2D2E2F; 0x30313233; 0x34353637; 0x38393A3B; 0x3C3D3E3F].
Definition IV256 : list Z := [
  0x40414243; 0x44454647; 0x48494A4B; 0x4C4D4E4F; 0x50515253; 0x54555657; 0x58595A5B; 0x5C5D5E5F;
  0x60616263; 0x64656667; 0x68696A6B; 0x6C6D6E6F; 0x70717273; 0x74757677; 0x78797A7B; 0x7C7D7E7F].
Definition IV384 : list Z := [
  0x0001020304050607; 0x08090A0B0C0D0E0F; 0x1011121314151617; 0x18191A1B1C1D1E1F;
  0x2021222324252627; 0x28292A2B2C2D2E2F; 0x3031323334353637; 0x38393A3B3C3D3E3F;
  0x4041424344454647; 0x48494A4B4C4D4E4F; 0x5051525354555657; 0x58595A5B5C5D5E5F;
  0x6061626364656667; 0x68696A6B6C6D6E6F; 0x7071727374757677; 0x78797A7B7C7D7E7F].
Definition IV512 : list Z := [
  0x8081828384858687; 0x88898A8B8C8D8E8F; 0x9091929394959697; 0x98999A9B9C9D9E9F;
  0xA0A1A2A3A4A5A6A7; 0xA8A9AAABACADAEAF; 0xB0B1B2B3B4B5B6B7; 0xB8B9BABBBCBDBEBF;
  0xC0C1C2C3C4C5C6C7; 0xC8C9CACBCCCDCECF; 0xD0D1D2D3D4D5D6D7; 0xD8D9DADBDCDDDEDF;
  0xE0E1E2E3E4E5E6E7; 0xE8E9EAEBECEDEEEF; 0xF0F1F2F3F4F5F6F7; 0xF8F9FAFBFCFDFEFF].

(** [I16_16] to [I16_31] and [M16_16] to [M16_31]. *)
Definition I16 : list (list nat) := [
  [0; 1; 2; 3; 4; 5; 6; 7; 8; 9; 10; 11; 12; 13; 14; 15];
  [1; 2; 3; 4; 5; 6; 7; 8; 9; 10; 11; 12; 13; 14; 15; 16];
  [2; 3; 4; 5; 6; 7; 8; 9; 10; 11; 12; 13; 14; 15; 16; 17];
  [3; 4; 5; 6; 7; 8; 9; 10; 11; 12; 13; 14; 15; 16; 17; 18];
  [4; 5; 6; 7; 8; 9; 10; 11; 12; 13; 14; 15; 16; 17; 18; 19];
  [5; 6; 7; 8; 9; 10; 11; 12; 13; 14; 15; 16; 17; 18; 19; 20];
  [6; 7; 8; 9; 10; 11; 12; 13; 14; 15; 16; 17; 18; 19; 20; 21];
  [7; 8; 9; 10; 11; 12; 13; 14; 15; 16; 17; 18; 19; 20; 21; 22];
  [8; 9; 10; 11; 12; 13; 14; 15; 16; 17; 18; 19; 20; 21; 22; 23];
  [9; 10; 11; 12; 13; 14; 15; 16; 17; 18; 19; 20; 21; 22; 23; 24];
  [10; 11; 12; 13; 14; 15; 16; 17; 18; 19; 20; 21; 22; 23; 24; 25];
  [11; 12; 13; 14; 15; 16; 17; 18; 19; 20; 21; 22; 23; 24; 25; 26];
  [12; 13; 14; 15; 16; 17; 18; 19; 20; 21; 22; 23; 24; 25; 26; 27];
  [13; 14; 15; 16; 17; 18; 19; 20; 21; 22; 23; 24; 25; 26; 27; 28];
  [14; 15; 16; 17; 18; 19; 20; 21; 22; 23; 24; 25; 26; 27; 28; 29];
  [15; 16; 17; 18; 19; 20; 21; 22; 23; 24; 25; 26; 27; 28; 29; 30]]%nat.
Definition M16 : list (list nat) := [
  [0; 1; 3; 4; 7; 10; 11]; [1; 2; 4; 5; 8; 11; 12]; [2; 3; 5; 6; 9; 12; 13]; [3; 4; 6; 7; 10; 13; 14];
  [4; 5; 7; 8; 11; 14; 15]; [5; 6; 8; 9; 12; 15; 16]; [6; 7; 9; 10; 13; 0; 1]; [7; 8; 10; 11; 14; 1; 2];
  [8; 9; 11; 12; 15; 2; 3]; [9; 10; 12; 13; 0; 3; 4]; [10; 11; 13; 14; 1; 4; 5]; [11; 12; 14; 15; 2; 5; 6];
  [12; 13; 15; 16; 3; 6; 7]; [13; 14; 0; 1; 4; 7; 8]; [14; 15; 1; 2; 5; 8; 9]; [15; 16; 2; 3; 6; 9; 10]]%nat.

(** ** The logical functions: [ss0] to [ss5], [rs1] to [rs7] and their 64-bit versions. *)

Definition ss (i : nat) (x : Z) : Z :=
  match i with
  | 0%nat => Z.lxor (Z.lxor (Z.lxor (Z.shiftr x 1) (shl32 x 3)) (rotl32 x 4)) (rotl32 x 19)
  | 1%nat => Z.lxor (Z.lxor (Z.lxor (Z.shiftr x 1) (shl32 x 2)) (rotl32 x 8)) (rotl32 x 23)
  | 2%nat => Z.lxor (Z.lxor (Z.lxor (Z.shiftr x 2) (shl32 x 1)) (rotl32 x 12)) (rotl32 x 25)
  | 3%nat => Z.lxor (Z.lxor (Z.lxor (Z.shiftr x 2) (shl32 x 2)) (rotl32 x 15)) (rotl32 x 29)
  | 4%nat => Z.lxor (Z.shiftr x 1) x
  | _ => Z.lxor (Z.shiftr x 2) x
  end.
Definition rs : list Z := [3; 7; 13; 16; 19; 23; 27].
Definition sb (i : nat) (x : Z) : Z :=
  match i with
  | 0%nat => Z.lxor (Z.lxor (Z.lxor (Z.shiftr x 1) (shl64 x 3)) (rotl64 x 4)) (rotl64 x 37)
  | 1%nat => Z.lxor (Z.lxor (Z.lxor (Z.shiftr x 1) (shl64 x 2)) (rotl64 x 13)) (rotl64 x 43)
  | 2%nat => Z.lxor (Z.lxor (Z.lxor (Z.shiftr x 2) (shl64 x 1)) (rotl64 x 19)) (rotl64 x 53)
  | 3%nat => Z.lxor (Z.lxor (Z.lxor (Z.shiftr x 2) (shl64 x 2)) (rotl64 x 28)) (rotl64 x 59)
  | 4%nat => Z.lxor (Z.shiftr x 1) x
  | _ => Z.lxor (Z.shiftr x 2) x
  end.
Definition rb : list Z := [5; 11; 27; 32; 37; 43; 53].

(** What differs between the two word sizes; [loops] is set in the 64-bit code when the
    small footprint is wanted. *)
Record bmw_cfg := mk_cfg { wlen : nat; tt : Z -> Z; rol : Z -> Z -> Z; s_ : nat -> Z -> Z; r_ : list Z; Kc : Z; loops : bool }.
Definition small : bmw_cfg := mk_cfg 4 T32 rotl32 ss rs 0x05555555 false.
Definition big (footprint : bool) : bmw_cfg := mk_cfg 8 T64 rotl64 sb rb 0x0555555555555555 footprint.
Definition final_s : list Z := [
  0xaaaaaaa0; 0xaaaaaaa1; 0xaaaaaaa2; 0xaaaaaaa3; 0xaaaaaaa4; 0xaaaaaaa5; 0xaaaaaaa6; 0xaaaaaaa7;
  0xaaaaaaa8; 0xaaaaaaa9; 0xaaaaaaaa; 0xaaaaaaab; 0xaaaaaaac; 0xaaaaaaad; 0xaaaaaaae; 0xaaaaaaaf].
Definition final_b : list Z := [
  0xaaaaaaaaaaaaaaa0; 0xaaaaaaaaaaaaaaa1; 0xaaaaaaaaaaaaaaa2; 0xaaaaaaaaaaaaaaa3;
  0xaaaaaaaaaaaaaaa4; 0xaaaaaaaaaaaaaaa5; 0xaaaaaaaaaaaaaaa6; 0xaaaaaaaaaaaaaaa7;
  0xaaaaaaaaaaaaaaa8; 0xaaaaaaaaaaaaaaa9; 0xaaaaaaaaaaaaaaaa; 0xaaaaaaaaaaaaaaab;
  0xaaaaaaaaaaaaaaac; 0xaaaaaaaaaaaaaaad; 0xaaaaaaaaaaaaaaae; 0xaaaaaaaaaaaaaaaf].

Inductive op := Plus | Minus.

Section Compress.
Context (k : bmw_cfg) (footprint : bool).
Definition K (j : nat) : Z := tt k (Z.of_nat j * Kc k).

Section Block.
Context (M H : list Z).

(** [add_elt_s], [add_elt_b] with the indices of a row of [M16]. *)
Definition add_elt (row : list nat) (j16 : nat) : Z :=
  let ix i := nth i row 0%nat in
  let rot a b := rol k (M !!! ix a) (Z.of_nat (ix b)) in
  Z.lxor (tt k (rot 0%nat 1%nat + rot 2%nat 3%nat - rot 5%nat 6%nat + K j16)) (H !!! ix 4%nat).
(** The version with loops: indices masked with 15, constants in [Kb_tab]. *)
Definition Kb_tab : list Z := [K 16; K 17; K 18; K 19; K 20; K 21; K 22; K 23; K 24; K 25; K 26; K 27; K 28; K 29; K 30; K 31].
Definition rol_off (j off : nat) : Z :=
  let i := Z.land (Z.of_nat j + Z.of_nat off) 15 in rol k (M !!! Z.to_nat i) (i + 1).
Definition add_elt_loop (j : nat) : Z :=
  Z.lxor (tt k (rol_off j 0 + rol_off j 3 - rol_off j 10 + Kb_tab !!! j)) (H !!! Z.to_nat (Z.land (Z.of_nat j + 7) 15)).

Definition expand1_inner (q : nat -> Z) (elt : Z) : Z :=
  tt k (s_ k 1 (q 0%nat) + s_ k 2 (q 1%nat) + s_ k 3 (q 2%nat) + s_ k 0 (q 3%nat)
      + s_ k 1 (q 4%nat) + s_ k 2 (q 5%nat) + s_ k 3 (q 6%nat) + s_ k 0 (q 7%nat)
      + s_ k 1 (q 8%nat) + s_ k 2 (q 9%nat) + s_ k 3 (q 10%nat) + s_ k 0 (q 11%nat)
      + s_ k 1 (q 12%nat) + s_ k 2 (q 13%nat) + s_ k 3 (q 14%nat) + s_ k 0 (q 15%nat) + elt).
Definition expand2_inner (q : nat -> Z) (elt : Z) : Z :=
  let r i x := rol k x (nth i (r_ k) 0) in
  tt k (q 0%nat + r 0%nat (q 1%nat) + q 2%nat + r 1%nat (q 3%nat) + q 4%nat + r 2%nat (q 5%nat)
      + q 6%nat + r 3%nat (q 7%nat) + q 8%nat + r 4%nat (q 9%nat) + q 10%nat + r 5%nat (q 11%nat)
      + q 12%nat + r 6%nat (q 13%nat) + s_ k 4 (q 14%nat) + s_ k 5 (q 15%nat) + elt).
Definition expand (inner : (nat -> Z) -> Z -> Z) (qt : list Z) (i16 : nat) : Z :=
  if loops k then inner (fun i => qt !!! (i16 - (16 - i))%nat) (add_elt_loop (i16 - 16))
  else inner (fun i => qt !!! nth i (nth (i16 - 16) I16 []) 0%nat) (add_elt (nth (i16 - 16) M16 []) i16).

(** [MAKE_W]: the first index, then the signs and the other indices. *)
Definition W_terms : list (nat * list (op * nat)) := [
  (5, [(Minus, 7); (Plus, 10); (Plus, 13); (Plus, 14)]); (6, [(Minus, 8); (Plus, 11); (Plus, 14); (Minus, 15)]);
  (0, [(Plus, 7); (Plus, 9); (Minus, 12); (Plus, 15)]); (0, [(Minus, 1); (Plus, 8); (Minus, 10); (Plus, 13)]);
  (1, [(Plus, 2); (Plus, 9); (Minus, 11); (Minus, 14)]); (3, [(Minus, 2); (Plus, 10); (Minus, 12); (Plus, 15)]);
  (4, [(Minus, 0); (Minus, 3); (Minus, 11); (Plus, 13)]); (1, [(Minus, 4); (Minus, 5); (Minus, 12); (Minus, 14)]);
  (2, [(Minus, 5); (Minus, 6); (Plus, 13); (Minus, 15)]); (0, [(Minus, 3); (Plus, 6); (Minus, 7); (Plus, 14)]);
  (8, [(Minus, 1); (Minus, 4); (Minus, 7); (Plus, 15)]); (8, [(Minus, 0); (Minus, 2); (Minus, 5); (Plus, 9)]);
  (1, [(Plus, 3); (Minus, 6); (Minus, 9); (Plus, 10)]); (2, [(Plus, 4); (Plus, 7); (Plus, 10); (Plus, 11)]);
  (3, [(Minus, 5); (Plus, 8); (Minus, 11); (Minus, 12)]); (12, [(Minus, 4); (Minus, 6); (Minus, 9); (Plus, 13)])]%nat.
Definition MAKE_W (i : nat) : Z :=
  let x j := Z.lxor (M !!! j) (H !!! j) in
  let '(i0, terms) := nth i W_terms (0%nat, []) in
  tt k (foldl (fun a '(o, j) => match o with Plus => a + x j | Minus => a - x j end) (x i0) terms).

(** The first half of the array [qt], written in order. *)
Definition MAKE_Qa : list Z :=
  if footprint then
    let W := MAKE_W <$> seq 0 16 in
    let qt := foldl (fun qt u => foldl (fun qt v => qt ++ [tt k (s_ k v (W !!! (u + v)%nat) + H !!! (u + v + 1)%nat)]) qt (seq 0 5)) [] [0; 5; 10]%nat in
    qt ++ [tt k (s_ k 0 (W !!! 15%nat) + H !!! 0%nat)]
  else
    [tt k (s_ k 0 (MAKE_W 0) + H !!! 1%nat); tt k (s_ k 1 (MAKE_W 1) + H !!! 2%nat);
     tt k (s_ k 2 (MAKE_W 2) + H !!! 3%nat); tt k (s_ k 3 (MAKE_W 3) + H !!! 4%nat);
     tt k (s_ k 4 (MAKE_W 4) + H !!! 5%nat); tt k (s_ k 0 (MAKE_W 5) + H !!! 6%nat);
     tt k (s_ k 1 (MAKE_W 6) + H !!! 7%nat); tt k (s_ k 2 (MAKE_W 7) + H !!! 8%nat);
     tt k (s_ k 3 (MAKE_W 8) + H !!! 9%nat); tt k (s_ k 4 (MAKE_W 9) + H !!! 10%nat);
     tt k (s_ k 0 (MAKE_W 10) + H !!! 11%nat); tt k (s_ k 1 (MAKE_W 11) + H !!! 12%nat);
     tt k (s_ k 2 (MAKE_W 12) + H !!! 13%nat); tt k (s_ k 3 (MAKE_W 13) + H !!! 14%nat);
     tt k (s_ k 4 (MAKE_W 14) + H !!! 15%nat); tt k (s_ k 0 (MAKE_W 15) + H !!! 0%nat)].
Definition MAKE_Qb (qt : list Z) : list Z :=
  let qt := foldl (fun qt i => qt ++ [expand expand1_inner qt i]) qt [16; 17]%nat in
  foldl (fun qt i => qt ++ [expand expand2_inner qt i]) qt [18; 19; 20; 21; 22; 23; 24; 25; 26; 27; 28; 29; 30; 31]%nat.

(** [FOLD]: [dh(0)] to [dh(7)], then [dh(8)] to [dh(15)], which rotate the first. *)
Definition fold_low (qt : list Z) (xl xh : Z) : list Z :=
  let q i := qt !!! Z.to_nat i in
  let m i := M !!! Z.to_nat i in
  let x a b := Z.lxor a b in
  let sl a n := tt k (Z.shiftl a n) in
  let sr a n := Z.shiftr a n in
  [ tt k (x (x (sl xh 5) (sr (q 16) 5)) (m 0) + x (x xl (q 24)) (q 0));
    tt k (x (x (sr xh 7) (sl (q 17) 8)) (m 1) + x (x xl (q 25)) (q 1));
    tt k (x (x (sr xh 5) (sl (q 18) 5)) (m 2) + x (x xl (q 26)) (q 2));
    tt k (x (x (sr xh 1) (sl (q 19) 5)) (m 3) + x (x xl (q 27)) (q 3));
    tt k (x (x (sr xh 3) (sl (q 20) 0)) (m 4) + x (x xl (q 28)) (q 4));
    tt k (x (x (sl xh 6) (sr (q 21) 6)) (m 5) + x (x xl (q 29)) (q 5));
    tt k (x (x (sr xh 4) (sl (q 22) 6)) (m 6) + x (x xl (q 30)) (q 6));
    tt k (x (x (sr xh 11) (sl (q 23) 2)) (m 7) + x (x xl (q 31)) (q 7))].
Definition fold_high (qt : list Z) (xl xh : Z) (dh : list Z) : list Z :=
  let q i := qt !!! Z.to_nat i in
  let m i := M !!! Z.to_nat i in
  let d i := dh !!! Z.to_nat i in
  let x a b := Z.lxor a b in
  let sl a n := tt k (Z.shiftl a n) in
  let sr a n := Z.shiftr a n in
  [ tt k (rol k (d 4) 9 + x (x xh (q 24)) (m 8) + x (x (sl xl 8) (q 23)) (q 8));
    tt k (rol k (d 5) 10 + x (x xh (q 25)) (m 9) + x (x (sr xl 6) (q 16)) (q 9));
    tt k (rol k (d 6) 11 + x (x xh (q 26)) (m 10) + x (x (sl xl 6) (q 17)) (q 10));
    tt k (rol k (d 7) 12 + x (x xh (q 27)) (m 11) + x (x (sl xl 4) (q 18)) (q 11));
    tt k (rol k (d 0) 13 + x (x xh (q 28)) (m 12) + x (x (sr xl 3) (q 19)) (q 12));
    tt k (rol k (d 1) 14 + x (x xh (q 29)) (m 13) + x (x (sr xl 4) (q 20)) (q 13));
    tt k (rol k (d 2) 15 + x (x xh (q 30)) (m 14) + x (x (sr xl 7) (q 21)) (q 14));
    tt k (rol k (d 3) 16 + x (x xh (q 31)) (m 15) + x (x (sr xl 2) (q 22)) (q 15))].
Definition FOLD : list Z :=
  let qt := MAKE_Qb MAKE_Qa in
  let q i := qt !!! Z.to_nat i in
  let x a b := Z.lxor a b in
  let xl := x (x (x (x (x (x (x (q 16) (q 17)) (q 18)) (q 19)) (q 20)) (q 21)) (q 22)) (q 23) in
  let xh := x (x (x (x (x (x (x (x xl (q 24)) (q 25)) (q 26)) (q 27)) (q 28)) (q 29)) (q 30)) (q 31) in
  let dh := fold_low qt xl xh in
  dh ++ fold_high qt xl xh dh.
End Block.
End Compress.

(** ** The functions *)

(** The context: [H] is the state of the buffered core, [bit_count] stands beside it. *)
Record bmw_ctx := mk_bmw { bc : sph_ctx (list Z); bit_count : Z }.

Section Functions.
Context (k : bmw_cfg) (footprint : bool) (final : list Z).
#[local] Abbreviation B := (16 * wlen k)%nat.

(** [compress_small], [compress_big]: [M] decodes the buffer. *)
Definition decode (data : list Z) : list Z := (fun i => le_load (wlen k) (drop (wlen k * i) data)) <$> seq 0 16.
Definition compress (h data : list Z) : list Z := FOLD k footprint (decode data) h.
Definition bmw_init (junk iv : list Z) : bmw_ctx := mk_bmw (mk_sph junk 0 iv) 0.
(** The two arrays [h1] and [h2] take turns; the last one written is the new [H]. *)
Definition bmw (sc : bmw_ctx) (data : list Z) : bmw_ctx :=
  mk_bmw (sph_loop B compress (length data) (bc sc) data) (T64 (bit_count sc + shl64 (Z.of_nat (length data)) 3)).
Definition bmw_close (sc : bmw_ctx) (ub n : Z) (out_size : nat) : bmw_ctx * list Z :=
  let c := bc sc in
  let buf := <[sc_ptr c := final_byte ub n]> (sc_buf c) in
  let ptr := S (sc_ptr c) in
  let '(buf, ptr, h) :=
    if (B - 8 <? ptr)%nat then let buf := memset0 buf ptr (B - ptr) in (buf, 0%nat, compress (sc_st c) buf)
    else (buf, ptr, sc_st c) in
  let buf := memset0 buf ptr (B - 8 - ptr) in
  let buf := memcpy buf (B - 8) (le_store 8 (T64 (bit_count sc + n))) in
  let h2 := compress h buf in
  let buf := foldl (fun b u => memcpy b (wlen k * u) (le_store (wlen k) (h2 !!! u))) buf (seq 0 16) in
  let h1 := compress final buf in
  (mk_bmw (mk_sph buf (sc_ptr c) (sc_st c)) (bit_count sc),
   flat_map (fun u => le_store (wlen k) (h1 !!! (16 - out_size + u)%nat)) (seq 0 out_size)).
End Functions.

Section Names.
Context (footprint : bool).
Definition bmw32_init := bmw_init.
Definition bmw32 := bmw small footprint.
Definition bmw32_close := bmw_close small footprint final_s.
Definition bmw64_init := bmw_init.
Definition bmw64 := bmw (big footprint) footprint.
Definition bmw64_close := bmw_close (big footprint) footprint final_b.

Definition sph_bmw224_init (junk : list Z) : bmw_ctx := bmw32_init junk IV224.
Definition sph_bmw224 : bmw_ctx -> list Z -> bmw_ctx := bmw32.
Definition sph_bmw224_addbits_and_close (cc : bmw_ctx) (ub n : Z) : bmw_ctx * list Z := bmw32_close cc ub n 7.
Definition sph_bmw224_close (cc : bmw_ctx) : bmw_ctx * list Z := sph_bmw224_addbits_and_close cc 0 0.
Definition sph_bmw256_init (junk : list Z) : bmw_ctx := bmw32_init junk IV256.
Definition sph_bmw256 : bmw_ctx -> list Z -> bmw_ctx := bmw32.
Definition sph_bmw256_addbits_and_close (cc : bmw_ctx) (ub n : Z) : bmw_ctx * list Z := bmw32_close cc ub n 8.
Definition sph_bmw256_close (cc : bmw_ctx) : bmw_ctx * list Z := sph_bmw256_addbits_and_close cc 0 0.
Definition sph_bmw384_init (junk : list Z) : bmw_ctx := bmw64_init junk IV384.
Definition sph_bmw384 : bmw_ctx -> list Z -> bmw_ctx := bmw64.
Definition sph_bmw384_addbits_and_close (cc : bmw_ctx) (ub n : Z) : bmw_ctx * list Z := bmw64_close cc ub n 6.
Definition sph_bmw384_close (cc : bmw_ctx) : bmw_ctx * list Z := sph_bmw384_addbits_and_close cc 0 0.
Definition sph_bmw512_init (junk : list Z) : bmw_ctx := bmw64_init junk IV512.
Definition sph_bmw512 : bmw_ctx -> list Z -> bmw_ctx := bmw64.
Definition sph_bmw512_addbits_and_close (cc : bmw_ctx) (ub n : Z) : bmw_ctx * list Z := bmw64_close cc ub n 8.
Definition sph_bmw512_close (cc : bmw_ctx) : bmw_ctx * list Z := sph_bmw512_addbits_and_close cc 0 0.
End Names.

(** ** Reference *)

(** The matrix of [f0]. *)
Definition A0 : list (list Z) := [
  [0; 0; 0; 0; 0; 1; 0; -1; 0; 0; 1; 0; 0; 1; 1; 0];
  [0; 0; 0; 0; 0; 0; 1; 0; -1; 0; 0; 1; 0; 0; 1; -1];
  [1; 0; 0; 0; 0; 0; 0; 1; 0; 1; 0; 0; -1; 0; 0; 1];
  [1; -1; 0; 0; 0; 0; 0; 0; 1; 0; -1; 0; 0; 1; 0; 0];
  [0; 1; 1; 0; 0; 0; 0; 0; 0; 1; 0; -1; 0; 0; -1; 0];
  [0; 0; -1; 1; 0; 0; 0; 0; 0; 0; 1; 0; -1; 0; 0; 1];
  [-1; 0; 0; -1; 1; 0; 0; 0; 0; 0; 0; -1; 0; 1; 0; 0];
  [0; 1; 0; 0; -1; -1; 0; 0; 0; 0; 0; 0; -1; 0; -1; 0];
  [0; 0; 1; 0; 0; -1; -1; 0; 0; 0; 0; 0; 0; 1; 0; -1];
  [1; 0; 0; -1; 0; 0; 1; -1; 0; 0; 0; 0; 0; 0; 1; 0];
  [0; -1; 0; 0; -1; 0; 0; -1; 1; 0; 0; 0; 0; 0; 0; 1];
  [-1; 0; -1; 0; 0; -1; 0; 0; 1; 1; 0; 0; 0; 0; 0; 0];
  [0; 1; 0; 1; 0; 0; -1; 0; 0; -1; 1; 0; 0; 0; 0; 0];
  [0; 0; 1; 0; 1; 0; 0; 1; 0; 0; 1; 1; 0; 0; 0; 0];
  [0; 0; 0; 1; 0; -1; 0; 0; 1; 0; 0; -1; -1; 0; 0; 0];
  [0; 0; 0; 0; -1; 0; -1; 0; 0; -1; 0; 0; 1; 1; 0; 0]].

Definition sum (l : list Z) : Z := foldr Z.add 0 l.
Definition xors (l : list Z) : Z := foldr Z.lxor 0 l.

Section Reference.
Context (wl : nat) (rotl : Z -> Z -> Z) (s : nat -> Z -> Z) (r : list Z) (c : Z).
#[local] Abbreviation W := (2 ^ (8 * Z.of_nat wl)).
Definition f0 (M H : list Z) : list Z :=
  let x := zip_with Z.lxor M H in
  (fun i => (s (i mod 5)%nat (sum (zip_with Z.mul (nth i A0 []) x) mod W) + nth ((i + 1) mod 16) H 0) mod W) <$> seq 0 16.
Definition add_element (M H : list Z) (j : nat) : Z :=
  let rot i := rotl (nth ((j + i) mod 16) M 0) (Z.of_nat ((j + i) mod 16) + 1) in
  Z.lxor ((rot 0%nat + rot 3%nat - rot 10%nat + Z.of_nat (j + 16) * c) mod W) (nth ((j + 7) mod 16) H 0).
(** Two words with the strong expansion, then fourteen with the weak one. *)
Definition f1_step (M H : list Z) (Q : list Z) (j : nat) : list Z :=
  let q i := nth (j + i) Q 0 in
  let strong := sum ((fun i => s ((i + 1) mod 4)%nat (q i)) <$> seq 0 16) in
  let weak := sum ((fun i => if (i mod 2 =? 0)%nat then q i else rotl (q i) (nth (i / 2) r 0)) <$> seq 0 14) + s 4%nat (q 14%nat) + s 5%nat (q 15%nat) in
  Q ++ [((if (j <? 2)%nat then strong else weak) + add_element M H j) mod W].
Definition f1 (M H Q : list Z) : list Z := foldl (f1_step M H) Q (seq 0 16).
(** A shift to the left, or to the right when the count is negative. *)
Definition shift (x n : Z) : Z := if n <? 0 then Z.shiftr x (- n) else Z.shiftl x n mod W.
Definition f2_low (M Q : list Z) (XL XH : Z) : list Z :=
  let q i := nth i Q 0 in
  (fun i => (Z.lxor (Z.lxor (shift XH (nth i [5; -7; -5; -1; -3; 6; -4; -11] 0)) (shift (q (16 + i)%nat) (nth i [-5; 8; 5; 5; 0; -6; 6; 2] 0))) (nth i M 0)
    + Z.lxor (Z.lxor XL (q (24 + i)%nat)) (q i)) mod W) <$> seq 0 8.
Definition f2_high (M Q : list Z) (XL XH : Z) (low : list Z) : list Z :=
  let q i := nth i Q 0 in
  (fun i => (rotl (nth ((i + 4) mod 8) low 0) (Z.of_nat i + 9) + Z.lxor (Z.lxor XH (q (24 + i)%nat)) (nth (8 + i) M 0)
    + Z.lxor (Z.lxor (shift XL (nth i [8; -6; 6; 4; -3; -4; -7; -2] 0)) (q (16 + (i + 7) mod 8)%nat)) (q (8 + i)%nat)) mod W) <$> seq 0 8.
Definition f2 (M Q : list Z) : list Z :=
  let XL := xors ((fun i => nth (16 + i) Q 0) <$> seq 0 8) in
  let XH := xors ((fun i => nth (16 + i) Q 0) <$> seq 0 16) in
  let low := f2_low M Q XL XH in
  low ++ f2_high M Q XL XH low.
Definition bmw_f (H M : list Z) : list Z := f2 M (f1 M H (f0 M H)).
Definition words_of (b : list Z) : list Z := (fun i => le_load wl (drop (wl * i) b)) <$> seq 0 16.
(** A one bit, zeros, and the bit count in 64 bits. *)
Definition bmw_pad (m : list Z) (ub n : Z) : list Z :=
  m ++ [last_bits ub n] ++ replicate (16 * wl - 1 - (length m + 8) mod (16 * wl)) 0 ++ le_store 8 (8 * Z.of_nat (length m) + n).
Definition bmw_digest (iv fin : list Z) (words : nat) (m : list Z) (ub n : Z) : list Z :=
  let H := foldl (fun H b => bmw_f H (words_of b)) iv (blocks (16 * wl) (bmw_pad m ub n)) in
  flat_map (le_store wl) (drop (16 - words) (bmw_f fin H)).
End Reference.
Definition bmw_final (wl : nat) : list Z := (fun i => 16 * ((2 ^ (8 * Z.of_nat wl - 4) - 1) / 3 * 2) + Z.of_nat i) <$> seq 0 16.

(** ** The compression *)

Record cfg_ok (k : bmw_cfg) : Prop := { ck_tt : forall x, tt k x = x mod 2 ^ (8 * Z.of_nat (wlen k)); ck_len : (0 < wlen k <= 8)%nat /\ (9 <= 16 * wlen k)%nat }.
Lemma bmw_small_ok : cfg_ok small.
Proof. split; [exact T32_mod|cbn; lia]. Qed.
Lemma bmw_big_ok fp : cfg_ok (big fp).
Proof. split; [exact T64_mod|cbn; lia]. Qed.

Ltac sixteen l := do 16 (destruct l as [|? l]; [done|]); destruct l; [|done].

Section CompressRef.
Context (k : bmw_cfg) (Hk : cfg_ok k).
#[local] Abbreviation W := (2 ^ (8 * Z.of_nat (wlen k))).

Lemma MAKE_W_ref M H i : length M = 16%nat -> length H = 16%nat -> (i < 16)%nat ->
  MAKE_W k M H i = sum (zip_with Z.mul (nth i A0 []) (zip_with Z.lxor M H)) mod W.
Proof.
  intros HM HH Hi. unfold MAKE_W. sixteen M. sixteen H. unfold sum.
  do 16 (destruct i as [|i]; [cbn [nth W_terms A0 foldl foldr zip_with lookup_total list_lookup_total]; rewrite (ck_tt k Hk); apply (f_equal (fun x => x mod _)); ring|]). lia.
Qed.
Lemma Qa_ref fp M H : length M = 16%nat -> length H = 16%nat -> MAKE_Qa k fp M H = f0 (wlen k) (s_ k) M H.
Proof.
  intros HM HH. assert (EW : forall i, (i < 16)%nat -> MAKE_W k M H i = _) by (intros i Hi; exact (MAKE_W_ref M H i HM HH Hi)).
  unfold MAKE_Qa, f0. set (x := zip_with Z.lxor M H) in *. destruct fp.
  - cbn [seq fmap list_fmap foldl app lookup_total list_lookup_total Nat.add]. rewrite !EW by lia. rewrite !(ck_tt k Hk). rewrite !total_nth by lia. exact eq_refl.
  - rewrite !EW by lia. rewrite !(ck_tt k Hk). rewrite !total_nth by lia. exact eq_refl.
Qed.
Lemma K_ref a j : (a + K k j) mod W = (a + Z.of_nat j * Kc k) mod W.
Proof. unfold K. rewrite (ck_tt k Hk). apply Zplus_mod_idemp_r. Qed.
Lemma add_elt_ref M H j : length M = 16%nat -> length H = 16%nat -> (j < 16)%nat ->
  add_elt k M H (nth j M16 []) (j + 16) = add_element (wlen k) (rol k) (Kc k) M H j /\
  add_elt_loop k M H j = add_element (wlen k) (rol k) (Kc k) M H j.
Proof.
  intros HM HH Hj. unfold add_elt, add_elt_loop, add_element, rol_off. sixteen M. sixteen H. rewrite !(ck_tt k Hk). cbv zeta.
  split; (do 16 (destruct j as [|j]; [cbn [nth M16 Kb_tab lookup_total list_lookup_total]; rewrite K_ref; exact eq_refl|])); lia.
Qed.
Lemma expand1_ref q q' e : (forall i, (i < 16)%nat -> q i = q' i) ->
  expand1_inner k q e = (sum ((fun i => s_ k ((i + 1) mod 4)%nat (q' i)) <$> seq 0 16) + e) mod W.
Proof.
  intros Hq. unfold expand1_inner, sum. rewrite (ck_tt k Hk). rewrite !Hq by lia. cbn [seq fmap list_fmap foldr]. cbn [Nat.add Nat.modulo Nat.divmod fst snd Nat.sub]. apply (f_equal (fun x => x mod _)). ring.
Qed.
Lemma expand2_ref q q' e : (forall i, (i < 16)%nat -> q i = q' i) ->
  expand2_inner k q e = (sum ((fun i => if (i mod 2 =? 0)%nat then q' i else rol k (q' i) (nth (i / 2) (r_ k) 0)) <$> seq 0 14) + s_ k 4 (q' 14%nat) + s_ k 5 (q' 15%nat) + e) mod W.
Proof.
  intros Hq. unfold expand2_inner, sum. rewrite (ck_tt k Hk). rewrite !Hq by lia. cbn [seq fmap list_fmap foldr]. cbn [Nat.add Nat.modulo Nat.div Nat.divmod fst snd Nat.sub Nat.eqb]. apply (f_equal (fun x => x mod _)). ring.
Qed.
Lemma I16_ref i j : (i < 16)%nat -> (j < 16)%nat -> nth i (nth j I16 []) 0%nat = (j + i)%nat.
Proof.
  intros Hi Hj. assert (H : forallb (fun j => forallb (fun i => (nth i (nth j I16 []) 0 =? j + i)%nat) (seq 0 16)) (seq 0 16) = true) by (vm_compute; reflexivity).
  rewrite forallb_forall in H. specialize (H j (proj2 (in_seq 16 0 j) ltac:(lia))). rewrite forallb_forall in H. specialize (H i (proj2 (in_seq 16 0 i) ltac:(lia))). by apply Nat.eqb_eq.
Qed.
Lemma expand_ref inner M H qt j : length M = 16%nat -> length H = 16%nat -> (j < 16)%nat -> length qt = (16 + j)%nat ->
  exists q e, expand k M H inner qt (j + 16) = inner q e /\ (forall i, (i < 16)%nat -> q i = nth (j + i) qt 0) /\ e = add_element (wlen k) (rol k) (Kc k) M H j.
Proof.
  intros HM HH Hj Hq. destruct (add_elt_ref M H j HM HH Hj) as [E1 E2]. unfold expand. replace (j + 16 - 16)%nat with j by lia.
  destruct (loops k); eexists _, _; (split; [reflexivity|split; [|assumption]]); intros i Hi.
  - rewrite total_nth by lia. f_equal. lia.
  - rewrite (I16_ref i j Hi Hj). apply total_nth. lia.
Qed.
Lemma Qb_ref M H qt : length M = 16%nat -> length H = 16%nat -> length qt = 16%nat ->
  MAKE_Qb k M H qt = f1 (wlen k) (rol k) (s_ k) (r_ k) (Kc k) M H qt /\ length (MAKE_Qb k M H qt) = 32%nat.
Proof.
  intros HM HH Hq. set (st := f1_step (wlen k) (rol k) (s_ k) (r_ k) (Kc k) M H).
  set (ex := fun qt i => qt ++ [expand k M H (if (i <? 18)%nat then expand1_inner k else expand2_inner k) qt i]).
  change (MAKE_Qb k M H qt) with (foldl ex qt ((fun j => j + 16)%nat <$> seq 0 16)). change (f1 _ _ _ _ _ M H qt) with (foldl st qt (seq 0 16)).
  assert (Hs : forall j n qt, (j + n <= 16)%nat -> length qt = (16 + j)%nat ->
    foldl ex qt ((fun j => j + 16)%nat <$> seq j n) = foldl st qt (seq j n) /\ length (foldl ex qt ((fun j => j + 16)%nat <$> seq j n)) = (16 + j + n)%nat); [|exact (Hs 0%nat 16%nat qt ltac:(lia) ltac:(lia))].
  clear qt Hq. intros j n. revert j. induction n as [|n IH]; intros j qt Hj Hq; [cbn; split; [done|lia]|]. cbn [seq fmap list_fmap foldl].
  assert (E : ex qt (j + 16)%nat = st qt j).
  { unfold ex, st, f1_step. do 2 f_equal. destruct (expand_ref (if (j + 16 <? 18)%nat then expand1_inner k else expand2_inner k) M H qt j HM HH ltac:(lia) Hq) as (q & e & -> & Hqq & ->).
    destruct (Nat.ltb_spec j 2) as [H2|H2]; [rewrite (proj2 (Nat.ltb_lt (j + 16) 18)) by lia|rewrite (proj2 (Nat.ltb_ge (j + 16) 18)) by lia].
    - by apply expand1_ref.
    - by apply expand2_ref. }
  rewrite E. destruct (IH (S j) (st qt j)) as [E1 E2]; [lia|unfold st, f1_step; rewrite length_app; cbn; lia|]. split; [done|lia].
Qed.
Lemma fold_low_ref M Q XL XH : length M = 16%nat -> length Q = 32%nat -> fold_low k M Q XL XH = f2_low (wlen k) M Q XL XH.
Proof. intros HM HQ. unfold fold_low, f2_low. cbv zeta. rewrite !(ck_tt k Hk), !total_nth by (cbn; lia). exact eq_refl. Qed.
Lemma fold_high_ref M Q XL XH low : length M = 16%nat -> length Q = 32%nat -> length low = 8%nat ->
  fold_high k M Q XL XH low = f2_high (wlen k) (rol k) M Q XL XH low.
Proof. intros HM HQ Hl. unfold fold_high, f2_high. cbv zeta. rewrite !(ck_tt k Hk), !total_nth by (cbn; lia). exact eq_refl. Qed.
Lemma FOLD_ref fp M H : length M = 16%nat -> length H = 16%nat ->
  FOLD k fp M H = bmw_f (wlen k) (rol k) (s_ k) (r_ k) (Kc k) H M.
Proof.
  intros HM HH. unfold FOLD, bmw_f. rewrite (Qa_ref fp M H HM HH). assert (H0 : length (f0 (wlen k) (s_ k) M H) = 16%nat) by apply length_fmap.
  destruct (Qb_ref M H _ HM HH H0) as [E HQ]. rewrite <-E. clear E H0. set (Q := MAKE_Qb k M H _) in *. clearbody Q. unfold f2. cbv zeta.
  rewrite (fold_low_ref M Q _ _ HM HQ), fold_high_ref by (done || apply length_fmap). rewrite !total_nth by (cbn; lia).
  assert (EL : xors ((fun i => nth (16 + i) Q 0) <$> seq 0 8) = Z.lxor (Z.lxor (Z.lxor (Z.lxor (Z.lxor (Z.lxor (Z.lxor (nth 16 Q 0) (nth 17 Q 0)) (nth 18 Q 0)) (nth 19 Q 0)) (nth 20 Q 0)) (nth 21 Q 0)) (nth 22 Q 0)) (nth 23 Q 0)).
  { unfold xors. cbn [seq fmap list_fmap foldr Nat.add]. rewrite Z.lxor_0_r, !Z.lxor_assoc. exact eq_refl. }
  assert (EH : xors ((fun i => nth (16 + i) Q 0) <$> seq 0 16) = Z.lxor (Z.lxor (Z.lxor (Z.lxor (Z.lxor (Z.lxor (Z.lxor (Z.lxor (xors ((fun i => nth (16 + i) Q 0) <$> seq 0 8))
    (nth 24 Q 0)) (nth 25 Q 0)) (nth 26 Q 0)) (nth 27 Q 0)) (nth 28 Q 0)) (nth 29 Q 0)) (nth 30 Q 0)) (nth 31 Q 0)).
  { unfold xors. cbn [seq fmap list_fmap foldr Nat.add]. rewrite !Z.lxor_0_r, !Z.lxor_assoc. exact eq_refl. }
  rewrite EH, EL. exact eq_refl.
Qed.
End CompressRef.

(** ** Streaming *)

Section Stream.
Context (k : bmw_cfg) (Hk : cfg_ok k) (fp : bool) (fin : list Z).
#[local] Abbreviation B := (16 * wlen k)%nat.
#[local] Abbreviation f := (bmw_f (wlen k) (rol k) (s_ k) (r_ k) (Kc k)).
Hypothesis Hfin : length fin = 16%nat.

Lemma length_f H M : length (f H M) = 16%nat.
Proof. unfold bmw_f, f2. rewrite length_app. unfold f2_low, f2_high. by rewrite !length_fmap. Qed.
Lemma words_f H M : Forall (fun x => x mod 2 ^ (8 * Z.of_nat (wlen k)) = x) (f H M).
Proof. unfold bmw_f, f2, f2_low, f2_high. cbv zeta. apply Forall_app_2; apply Forall_fmap, Forall_seq; intros i _; apply Zmod_mod. Qed.
#[local] Opaque bmw_f.
Lemma bmw_compress_ref h b : length h = 16%nat -> compress k fp h b = f h (words_of (wlen k) b).
Proof. intros Hh. unfold compress. rewrite (FOLD_ref k Hk) by (done || apply length_fmap). exact eq_refl. Qed.
#[local] Opaque compress memcpy.
Lemma compress_blocks bs h : length h = 16%nat ->
  foldl (compress k fp) h bs = foldl (fun H b => f H (words_of (wlen k) b)) h bs /\ length (foldl (compress k fp) h bs) = 16%nat.
Proof.
  revert h. induction bs as [|b bs IH]; intros h Hh; [done|]. cbn [foldl]. rewrite (bmw_compress_ref h b Hh). apply IH, length_f.
Qed.
(** Encoding the words of a compression and decoding them again. *)
Lemma words_again h M buf : length buf = B ->
  let h2 := f h M in
  words_of (wlen k) (foldl (fun b u => memcpy b (wlen k * u) (le_store (wlen k) (h2 !!! u))) buf (seq 0 16)) = h2.
Proof.
  intros Hb h2. pose proof (length_f h M) as Hl. pose proof (words_f h M) as Hw. fold h2 in Hl, Hw. clearbody h2. destruct (ck_len k Hk) as [[Hp _] _].
  destruct (store_seq (fun u => le_store (wlen k) (h2 !!! u)) (wlen k) (fun u => length_le_store _ _) 16 buf ltac:(lia)) as [Hlb E]. cbv zeta in *. set (b := foldl _ buf _) in *.
  clearbody b. rewrite take_ge in E by lia. subst b. unfold words_of. apply list_eq_total; [by rewrite length_fmap|]. rewrite length_fmap, length_seq. intros i Hi.
  rewrite lookup_fmap_seq by done. transitivity (le_load (wlen k) (le_store (wlen k) (h2 !!! i))).
  - unfold le_load. apply gather_ext. intros j Hj. rewrite lookup_total_drop, (lookup_flat_seq _ (wlen k)) by (intros; apply length_le_store) || nia.
    replace ((wlen k * i + j) / wlen k)%nat with i by (apply (Nat.div_unique _ _ i j); lia).
    by replace ((wlen k * i + j) mod wlen k)%nat with j by (apply (Nat.mod_unique _ _ i j); lia).
  - rewrite le_load_store. exact (Forall_lookup_total_1 _ _ i Hw ltac:(lia)).
Qed.
Lemma le_store_T64 v : le_store 8 (T64 v) = le_store 8 v.
Proof. rewrite T64_mod. rewrite <-(le_store_load (le_store 8 v)) by apply bytes_le_store. rewrite length_le_store, le_load_store. exact eq_refl. Qed.
Lemma le_store_count v x : v = x mod 2 ^ 64 -> forall n, le_store 8 (T64 (v + n)) = le_store 8 (x + n).
Proof. intros -> n. rewrite T64_mod, Zplus_mod_idemp_l, <-T64_mod. apply le_store_T64. Qed.

Lemma bmw_pieces c pieces :
  foldl (bmw k fp) c pieces = mk_bmw (foldl (fun c data => sph_loop B (compress k fp) (length data) c data) (bc c) pieces) (bit_count (foldl (bmw k fp) c pieces)) /\
  (bit_count c = bit_count c mod 2 ^ 64 -> bit_count (foldl (bmw k fp) c pieces) = (bit_count c + 8 * Z.of_nat (length (concat pieces))) mod 2 ^ 64).
Proof.
  revert c. induction pieces as [|d pieces IH]; intros c; [cbn; destruct c; split; [done|intros E; cbn [bit_count] in *; by rewrite Z.add_0_r]|]. cbn [foldl concat].
  destruct (IH (bmw k fp c d)) as [E1 E2]. split; [exact E1|]. intros Hc. rewrite E2 by (cbn [bmw bit_count]; rewrite T64_mod; symmetry; apply Zmod_mod). cbn [bmw bit_count].
  unfold shl64. rewrite !T64_mod, Z.shiftl_mul_pow2, Zplus_mod_idemp_r, Zplus_mod_idemp_l by lia. rewrite length_app. f_equal. lia.
Qed.

(** The end of the close function: the last block, the final compression and the output. *)
Lemma bmw_finish_ref h b words : length h = 16%nat -> length b = B -> (words <= 16)%nat ->
  let h2 := compress k fp h b in
  let h1 := compress k fp fin (foldl (fun b u => memcpy b (wlen k * u) (le_store (wlen k) (h2 !!! u))) b (seq 0 16)) in
  flat_map (fun u => le_store (wlen k) (h1 !!! (16 - words + u)%nat)) (seq 0 words) = flat_map (le_store (wlen k)) (drop (16 - words) (f fin (f h (words_of (wlen k) b)))).
Proof.
  intros Hh Hb Hw h2 h1. assert (E : h1 = f fin (f h (words_of (wlen k) b))).
  { unfold h1. rewrite (bmw_compress_ref fin _ Hfin). f_equal. unfold h2. rewrite (bmw_compress_ref h b Hh). exact (words_again h _ b Hb). }
  rewrite E. pose proof (length_f fin (f h (words_of (wlen k) b))) as Hl. clear h1 h2 E. set (h1 := f fin _) in *. clearbody h1.
  rewrite !flat_map_concat_map. f_equal. rewrite <-(map_map (fun u => h1 !!! (16 - words + u)%nat) (le_store (wlen k))). f_equal.
  apply list_eq_total; [rewrite length_map, length_seq, length_drop; lia|]. rewrite length_map, length_seq. intros i Hi.
  change (map ?g ?l) with (g <$> l). rewrite lookup_fmap_seq by done. by rewrite lookup_total_drop.
Qed.
Lemma close_chain c m ub n : word 8 ub -> 0 <= n < 8 -> sph_ok B (bc c) -> length (sc_st (bc c)) = 16%nat ->
  sc_ptr (bc c) = (length m mod B)%nat -> take (sc_ptr (bc c)) (sc_buf (bc c)) = leftover B m -> bit_count c = (8 * Z.of_nat (length m)) mod 2 ^ 64 ->
  forall words, (words <= 16)%nat ->
  exists last, blocks B (bmw_pad (wlen k) m ub n) = blocks B m ++ last /\
  (bmw_close k fp fin c ub n words).2 = flat_map (le_store (wlen k)) (drop (16 - words) (f fin (foldl (fun H b => f H (words_of (wlen k) b)) (sc_st (bc c)) last))).
Proof.
  intros Hub Hn Hok Hh Ep El Ec words Hw. destruct (ck_len k Hk) as [[Hp _] H9]. set (t := le_store 8 (8 * Z.of_nat (length m) + n)).
  assert (Ht : length t = 8%nat) by apply length_le_store. set (p := sc_ptr (bc c)) in *.
  assert (Hpb : (p < B)%nat) by apply Hok. destruct Hok as [Hb _].
  assert (Hdm : forall j, (p + 8 = j + B)%nat \/ (p + 8 = j /\ j < B)%nat -> ((length m + 8) mod B = j)%nat).
  { intros j Hj. rewrite <-Nat.Div0.add_mod_idemp_l, <-Ep. destruct Hj as [E|[E Hj]]; [|rewrite E; by apply Nat.mod_small].
    rewrite E. replace (j + B)%nat with (j + 1 * B)%nat by lia. rewrite Nat.Div0.mod_add. apply Nat.mod_small. lia. }
  unfold bmw_close, bmw_pad. rewrite (proj1 (final_byte_ref ub n Hub Hn)), (le_store_count _ _ Ec). fold t p.
  destruct (Nat.ltb_spec (B - 8) (S p)) as [Hlt|Hge].
  - rewrite (Hdm (p + 8 - B)%nat) by lia. pose proof (pad_buffer B (bc c) (last_bits ub n) (conj Hb Hpb)) as E. fold p in E. rewrite E, El. set (b1 := leftover B m ++ _).
    assert (Hb1 : length b1 = B) by (unfold b1; rewrite !length_app, length_leftover, length_replicate, <-Ep by lia; cbn [length]; lia).
    rewrite Nat.sub_0_r. pose proof (zero_trailer B b1 t Hb1 ltac:(lia)) as Ez. rewrite Ht in Ez. rewrite Ez. set (b2 := replicate (B - 8) 0 ++ t). cbv zeta beta iota. cbn [snd].
    assert (Hb2 : length b2 = B) by (unfold b2; rewrite length_app, length_replicate; lia).
    assert (Eb : blocks B (m ++ [last_bits ub n] ++ replicate (B - 1 - (p + 8 - B)) 0 ++ t) = blocks B m ++ [b1; b2]).
    { replace (B - 1 - (p + 8 - B))%nat with ((B - S p) + (B - 8))%nat by lia. rewrite replicate_add, <-app_assoc.
      replace (m ++ [last_bits ub n] ++ replicate (B - S p) 0 ++ replicate (B - 8) 0 ++ t) with (m ++ ([last_bits ub n] ++ replicate (B - S p) 0) ++ b2) by (unfold b2; by rewrite <-!app_assoc).
      apply blocks_last2; [lia|exact Hb1|exact Hb2]. }
    exists [b1; b2]. split; [exact Eb|]. clearbody b1 b2. cbn [foldl]. rewrite <-(bmw_compress_ref (sc_st (bc c)) b1 Hh).
    apply bmw_finish_ref; [rewrite (bmw_compress_ref _ _ Hh); apply length_f|done|done].
  - rewrite (Hdm (p + 8)%nat) by lia. pose proof (pad_trailer B (bc c) (last_bits ub n) t (conj Hb Hpb) ltac:(rewrite Ht; fold p; lia)) as E. fold p in E. rewrite Ht, El in E. rewrite E. set (b := leftover B m ++ _).
    assert (Hb1 : length b = B) by (unfold b; rewrite !length_app, length_leftover, length_replicate, <-Ep by lia; cbn [length]; lia).
    replace (B - 1 - (p + 8))%nat with (B - 8 - S p)%nat by lia. exists [b]. split; [exact (blocks_last B m _ ltac:(lia) Hb1)|]. clearbody b. cbv zeta beta iota. cbn [foldl snd].
    by apply bmw_finish_ref.
Qed.
Lemma bmw_stream junk iv pieces ub n words : length junk = B -> length iv = 16%nat -> word 8 ub -> 0 <= n < 8 -> (words <= 16)%nat ->
  (bmw_close k fp fin (foldl (bmw k fp) (bmw_init junk iv) pieces) ub n words).2 = bmw_digest (wlen k) (rol k) (s_ k) (r_ k) (Kc k) iv fin words (concat pieces) ub n.
Proof.
  intros Hj Hiv Hub Hn Hw. destruct (ck_len k Hk) as [[Hp _] H9]. destruct (bmw_pieces (bmw_init junk iv) pieces) as [Ec Eb]. specialize (Eb eq_refl).
  set (c := foldl (bmw k fp) _ pieces) in *. cbn [bmw_init bit_count bc] in *. rewrite Z.add_0_l in Eb.
  destruct (loop_pieces_spec B (compress k fp) ltac:(lia) junk iv pieces Hj) as (Hok & Es & Ep & El). cbv zeta in *.
  set (c' := foldl _ (mk_sph junk 0 iv) pieces) in *. clearbody c' c. assert (E' : bc c = c') by (rewrite Ec; done). clear Ec. subst c'.
  destruct (compress_blocks (blocks B (concat pieces)) iv Hiv) as [Ef Hl]. rewrite <-Es in Ef, Hl.
  destruct (close_chain c (concat pieces) ub n Hub Hn Hok Hl Ep El Eb words Hw) as (last & Ebl & ->). unfold bmw_digest. by rewrite Ebl, foldl_app, Ef.
Qed.
Lemma length_bmw_digest iv words m ub n : (words <= 16)%nat ->
  let d := bmw_digest (wlen k) (rol k) (s_ k) (r_ k) (Kc k) iv fin words m ub n in length d = (wlen k * words)%nat /\ bytes d.
Proof.
  intros Hw d. unfold d, bmw_digest. set (h := f fin _). assert (Hh : length h = 16%nat) by apply length_f. clearbody h.
  destruct (digest_words_gen (le_store (wlen k)) (wlen k) (drop (16 - words) h) (fun v => conj (length_le_store _ v) (bytes_le_store _ v))) as [H1 H2]. split; [|done].
  rewrite H1, length_drop, Hh. f_equal. lia.
Qed.
End Stream.

(** ** Properties *)

(** The digests of the submission, for 32-bit and for 64-bit words. *)
Definition bmw_small : list Z -> nat -> list Z -> Z -> Z -> list Z := fun iv => bmw_digest 4 rotl32 ss rs 0x05555555 iv (bmw_final 4).
Definition bmw_big : list Z -> nat -> list Z -> Z -> Z -> list Z := fun iv => bmw_digest 8 rotl64 sb rb 0x0555555555555555 iv (bmw_final 8).
Lemma bmw_final_ref : bmw_final 4 = final_s /\ bmw_final 8 = final_b.
Proof. split; vm_compute; reflexivity. Qed.

(** For the four digest sizes and both ways of writing the expansion, feeding a message
    to [sph_bmw*] in any pieces and closing with up to 7 extra bits gives the Blue Midnight
    Wish digest of the concatenation: the sixteen sums [W] are the product by the matrix of
    signs, the tables of indices and the masked indices both count modulo 16, the fold is
    that of the submission, and the 64-bit counter pads on both sides of the block limit. *)
Theorem sph_bmw_streaming footprint junk32 junk64 pieces ub n :
  length junk32 = 64%nat -> length junk64 = 128%nat -> word 8 ub -> 0 <= n < 8 ->
  let m := concat pieces in
  (sph_bmw224_addbits_and_close footprint (foldl (sph_bmw224 footprint) (sph_bmw224_init junk32) pieces) ub n).2 = bmw_small IV224 7 m ub n /\
  (sph_bmw256_addbits_and_close footprint (foldl (sph_bmw256 footprint) (sph_bmw256_init junk32) pieces) ub n).2 = bmw_small IV256 8 m ub n /\
  (sph_bmw384_addbits_and_close footprint (foldl (sph_bmw384 footprint) (sph_bmw384_init junk64) pieces) ub n).2 = bmw_big IV384 6 m ub n /\
  (sph_bmw512_addbits_and_close footprint (foldl (sph_bmw512 footprint) (sph_bmw512_init junk64) pieces) ub n).2 = bmw_big IV512 8 m ub n.
Proof.
  intros H1 H2 Hub Hn m. unfold bmw_small, bmw_big. destruct bmw_final_ref as [-> ->].
  split; [exact (bmw_stream small bmw_small_ok footprint final_s eq_refl junk32 IV224 pieces ub n 7 H1 eq_refl Hub Hn ltac:(lia))|].
  split; [exact (bmw_stream small bmw_small_ok footprint final_s eq_refl junk32 IV256 pieces ub n 8 H1 eq_refl Hub Hn ltac:(lia))|].
  split; [exact (bmw_stream (big footprint) (bmw_big_ok footprint) footprint final_b eq_refl junk64 IV384 pieces ub n 6 H2 eq_refl Hub Hn ltac:(lia))|].
  exact (bmw_stream (big footprint) (bmw_big_ok footprint) footprint final_b eq_refl junk64 IV512 pieces ub n 8 H2 eq_refl Hub Hn ltac:(lia)).
Qed.
Lemma sph_bmw_streaming_witness :
  (sph_bmw512_addbits_and_close true (foldl (sph_bmw512 true) (sph_bmw512_init (replicate 128 9)) [[0x61]; replicate 120 0x62]) 0xA0 3).2
  = bmw_big IV512 8 (concat [[0x61]; replicate 120 0x62]) 0xA0 3.
Proof.
  refine (proj2 (proj2 (proj2 (sph_bmw_streaming true (replicate 64 9) (replicate 128 9) [[0x61]; replicate 120 0x62] 0xA0 3 eq_refl eq_refl _ _)))); unfold word; lia.
Defined.

(** The empty message, as published. *)
Example bmw512_empty :
  take 16 (sph_bmw512_close false (sph_bmw512_init (replicate 128 0))).2
  = [0x6A; 0x72; 0x56; 0x55; 0xC4; 0x2B; 0xC8; 0xA2; 0xA2; 0x05; 0x49; 0xDD; 0x5A; 0x23; 0x3A; 0x6A].
Proof. vm_compute. reflexivity. Qed.

End Bmw.
