(* ===== verification/CnJh.v ===== *)
(** * JH in CryptoNight ([crypto/cn/c_jh.c]).

    The reference code of JH's author, used for one of the four final hashes.  Reads and
    writes that leave an array have no result, so a result also says that there are
    none.  The rounds are shown to be those of [sph_jh.c], the digest that of the
    submission. *)
From S2P Require Import Prelude Stream SphCore Jh.

Module CnJh.

Definition JH224_H0 : list Z := [
  0x2d; 0xfe; 0xdd; 0x62; 0xf9; 0x9a; 0x98; 0xac; 0xae; 0x7c; 0xac; 0xd6; 0x19; 0xd6; 0x34; 0xe7;
  0xa4; 0x83; 0x10; 0x5; 0xbc; 0x30; 0x12; 0x16; 0xb8; 0x60; 0x38; 0xc6; 0xc9; 0x66; 0x14; 0x94;
  0x66; 0xd9; 0x89; 0x9f; 0x25; 0x80; 0x70; 0x6f; 0xce; 0x9e; 0xa3; 0x1b; 0x1d; 0x9b; 0x1a; 0xdc;
  0x11; 0xe8; 0x32; 0x5f; 0x7b; 0x36; 0x6e; 0x10; 0xf9; 0x94; 0x85; 0x7f; 0x2; 0xfa; 0x6; 0xc1;
  0x1b; 0x4f; 0x1b; 0x5c; 0xd8; 0xc8; 0x40; 0xb3; 0x97; 0xf6; 0xa1; 0x7f; 0x6e; 0x73; 0x80; 0x99;
  0xdc; 0xdf; 0x93; 0xa5; 0xad; 0xea; 0xa3; 0xd3; 0xa4; 0x31; 0xe8; 0xde; 0xc9; 0x53; 0x9a; 0x68;
  0x22; 0xb4; 0xa9; 0x8a; 0xec; 0x86; 0xa1; 0xe4; 0xd5; 0x74; 0xac; 0x95; 0x9c; 0xe5; 0x6c; 0xf0;
  0x15; 0x96; 0xd; 0xea; 0xb5; 0xab; 0x2b; 0xbf; 0x96; 0x11; 0xdc; 0xf0; 0xdd; 0x64; 0xea; 0x6e].
Definition JH256_H0 : list Z := [
  0xeb; 0x98; 0xa3; 0x41; 0x2c; 0x20; 0xd3; 0xeb; 0x92; 0xcd; 0xbe; 0x7b; 0x9c; 0xb2; 0x45; 0xc1;
  0x1c; 0x93; 0x51; 0x91; 0x60; 0xd4; 0xc7; 0xfa; 0x26; 0x0; 0x82; 0xd6; 0x7e; 0x50; 0x8a; 0x3;
  0xa4; 0x23; 0x9e; 0x26; 0x77; 0x26; 0xb9; 0x45; 0xe0; 0xfb; 0x1a; 0x48; 0xd4; 0x1a; 0x94; 0x77;
  0xcd; 0xb5; 0xab; 0x26; 0x2; 0x6b; 0x17; 0x7a; 0x56; 0xf0; 0x24; 0x42; 0xf; 0xff; 0x2f; 0xa8;
  0x71; 0xa3; 0x96; 0x89; 0x7f; 0x2e; 0x4d; 0x75; 0x1d; 0x14; 0x49; 0x8; 0xf7; 0x7d; 0xe2; 0x62;
  0x27; 0x76; 0x95; 0xf7; 0x76; 0x24; 0x8f; 0x94; 0x87; 0xd5; 0xb6; 0x57; 0x47; 0x80; 0x29; 0x6c;
  0x5c; 0x5e; 0x27; 0x2d; 0xac; 0x8e; 0xd; 0x6c; 0x51; 0x84; 0x50; 0xc6; 0x57; 0x5; 0x7a; 0xf;
  0x7b; 0xe4; 0xd3; 0x67; 0x70; 0x24; 0x12; 0xea; 0x89; 0xe3; 0xab; 0x13; 0xd3; 0x1c; 0xd7; 0x69].
Definition JH384_H0 : list Z := [
  0x48; 0x1e; 0x3b; 0xc6; 0xd8; 0x13; 0x39; 0x8a; 0x6d; 0x3b; 0x5e; 0x89; 0x4a; 0xde; 0x87; 0x9b;
  0x63; 0xfa; 0xea; 0x68; 0xd4; 0x80; 0xad; 0x2e; 0x33; 0x2c; 0xcb; 0x21; 0x48; 0xf; 0x82; 0x67;
  0x98; 0xae; 0xc8; 0x4d; 0x90; 0x82; 0xb9; 0x28; 0xd4; 0x55; 0xea; 0x30; 0x41; 0x11; 0x42; 0x49;
  0x36; 0xf5; 0x55; 0xb2; 0x92; 0x48; 0x47; 0xec; 0xc7; 0x25; 0xa; 0x93; 0xba; 0xf4; 0x3c; 0xe1;
  0x56; 0x9b; 0x7f; 0x8a; 0x27; 0xdb; 0x45; 0x4c; 0x9e; 0xfc; 0xbd; 0x49; 0x63; 0x97; 0xaf; 0xe;
  0x58; 0x9f; 0xc2; 0x7d; 0x26; 0xaa; 0x80; 0xcd; 0x80; 0xc0; 0x8b; 0x8c; 0x9d; 0xeb; 0x2e; 0xda;
  0x8a; 0x79; 0x81; 0xe8; 0xf8; 0xd5; 0x37; 0x3a; 0xf4; 0x39; 0x67; 0xad; 0xdd; 0xd1; 0x7a; 0x71;
  0xa9; 0xb4; 0xd3; 0xbd; 0xa4; 0x75; 0xd3; 0x94; 0x97; 0x6c; 0x3f; 0xba; 0x98; 0x42; 0x73; 0x7f].
Definition JH512_H0 : list Z := [
  0x6f; 0xd1; 0x4b; 0x96; 0x3e; 0x0; 0xaa; 0x17; 0x63; 0x6a; 0x2e; 0x5; 0x7a; 0x15; 0xd5; 0x43;
  0x8a; 0x22; 0x5e; 0x8d; 0xc; 0x97; 0xef; 0xb; 0xe9; 0x34; 0x12; 0x59; 0xf2; 0xb3; 0xc3; 0x61;
  0x89; 0x1d; 0xa0; 0xc1; 0x53; 0x6f; 0x80; 0x1e; 0x2a; 0xa9; 0x5; 0x6b; 0xea; 0x2b; 0x6d; 0x80;
  0x58; 0x8e; 0xcc; 0xdb; 0x20; 0x75; 0xba; 0xa6; 0xa9; 0xf; 0x3a; 0x76; 0xba; 0xf8; 0x3b; 0xf7;
  0x1; 0x69; 0xe6; 0x5; 0x41; 0xe3; 0x4a; 0x69; 0x46; 0xb5; 0x8a; 0x8e; 0x2e; 0x6f; 0xe6; 0x5a;
  0x10; 0x47; 0xa7; 0xd0; 0xc1; 0x84; 0x3c; 0x24; 0x3b; 0x6e; 0x71; 0xb1; 0x2d; 0x5a; 0xc1; 0x99;
  0xcf; 0x57; 0xf6; 0xec; 0x9d; 0xb1; 0xf8; 0x56; 0xa7; 0x6; 0x88; 0x7c; 0x57; 0x16; 0xb1; 0x56;
  0xe3; 0xc2; 0xfc; 0xdf; 0xe6; 0x85; 0x17; 0xfb; 0x54; 0x5a; 0x46; 0x78; 0xcc; 0x8c; 0xdd; 0x4b].
Definition E8_bitslice_roundconstant : list (list Z) := [
  [0x72; 0xd5; 0xde; 0xa2; 0xdf; 0x15; 0xf8; 0x67; 0x7b; 0x84; 0x15; 0xa; 0xb7; 0x23; 0x15; 0x57;
   0x81; 0xab; 0xd6; 0x90; 0x4d; 0x5a; 0x87; 0xf6; 0x4e; 0x9f; 0x4f; 0xc5; 0xc3; 0xd1; 0x2b; 0x40];
  [0xea; 0x98; 0x3a; 0xe0; 0x5c; 0x45; 0xfa; 0x9c; 0x3; 0xc5; 0xd2; 0x99; 0x66; 0xb2; 0x99; 0x9a;
   0x66; 0x2; 0x96; 0xb4; 0xf2; 0xbb; 0x53; 0x8a; 0xb5; 0x56; 0x14; 0x1a; 0x88; 0xdb; 0xa2; 0x31];
  [0x3; 0xa3; 0x5a; 0x5c; 0x9a; 0x19; 0xe; 0xdb; 0x40; 0x3f; 0xb2; 0xa; 0x87; 0xc1; 0x44; 0x10;
   0x1c; 0x5; 0x19; 0x80; 0x84; 0x9e; 0x95; 0x1d; 0x6f; 0x33; 0xeb; 0xad; 0x5e; 0xe7; 0xcd; 0xdc];
  [0x10; 0xba; 0x13; 0x92; 0x2; 0xbf; 0x6b; 0x41; 0xdc; 0x78; 0x65; 0x15; 0xf7; 0xbb; 0x27; 0xd0;
   0xa; 0x2c; 0x81; 0x39; 0x37; 0xaa; 0x78; 0x50; 0x3f; 0x1a; 0xbf; 0xd2; 0x41; 0x0; 0x91; 0xd3];
  [0x42; 0x2d; 0x5a; 0xd; 0xf6; 0xcc; 0x7e; 0x90; 0xdd; 0x62; 0x9f; 0x9c; 0x92; 0xc0; 0x97; 0xce;
   0x18; 0x5c; 0xa7; 0xb; 0xc7; 0x2b; 0x44; 0xac; 0xd1; 0xdf; 0x65; 0xd6; 0x63; 0xc6; 0xfc; 0x23];
  [0x97; 0x6e; 0x6c; 0x3; 0x9e; 0xe0; 0xb8; 0x1a; 0x21; 0x5; 0x45; 0x7e; 0x44; 0x6c; 0xec; 0xa8;
   0xee; 0xf1; 0x3; 0xbb; 0x5d; 0x8e; 0x61; 0xfa; 0xfd; 0x96; 0x97; 0xb2; 0x94; 0x83; 0x81; 0x97];
  [0x4a; 0x8e; 0x85; 0x37; 0xdb; 0x3; 0x30; 0x2f; 0x2a; 0x67; 0x8d; 0x2d; 0xfb; 0x9f; 0x6a; 0x95;
   0x8a; 0xfe; 0x73; 0x81; 0xf8; 0xb8; 0x69; 0x6c; 0x8a; 0xc7; 0x72; 0x46; 0xc0; 0x7f; 0x42; 0x14];
  [0xc5; 0xf4; 0x15; 0x8f; 0xbd; 0xc7; 0x5e; 0xc4; 0x75; 0x44; 0x6f; 0xa7; 0x8f; 0x11; 0xbb; 0x80;
   0x52; 0xde; 0x75; 0xb7; 0xae; 0xe4; 0x88; 0xbc; 0x82; 0xb8; 0x0; 0x1e; 0x98; 0xa6; 0xa3; 0xf4];
  [0x8e; 0xf4; 0x8f; 0x33; 0xa9; 0xa3; 0x63; 0x15; 0xaa; 0x5f; 0x56; 0x24; 0xd5; 0xb7; 0xf9; 0x89;
   0xb6; 0xf1; 0xed; 0x20; 0x7c; 0x5a; 0xe0; 0xfd; 0x36; 0xca; 0xe9; 0x5a; 0x6; 0x42; 0x2c; 0x36];
  [0xce; 0x29; 0x35; 0x43; 0x4e; 0xfe; 0x98; 0x3d; 0x53; 0x3a; 0xf9; 0x74; 0x73; 0x9a; 0x4b; 0xa7;
   0xd0; 0xf5; 0x1f; 0x59; 0x6f; 0x4e; 0x81; 0x86; 0xe; 0x9d; 0xad; 0x81; 0xaf; 0xd8; 0x5a; 0x9f];
  [0xa7; 0x5; 0x6; 0x67; 0xee; 0x34; 0x62; 0x6a; 0x8b; 0xb; 0x28; 0xbe; 0x6e; 0xb9; 0x17; 0x27;
   0x47; 0x74; 0x7; 0x26; 0xc6; 0x80; 0x10; 0x3f; 0xe0; 0xa0; 0x7e; 0x6f; 0xc6; 0x7e; 0x48; 0x7b];
  [0xd; 0x55; 0xa; 0xa5; 0x4a; 0xf8; 0xa4; 0xc0; 0x91; 0xe3; 0xe7; 0x9f; 0x97; 0x8e; 0xf1; 0x9e;
   0x86; 0x76; 0x72; 0x81; 0x50; 0x60; 0x8d; 0xd4; 0x7e; 0x9e; 0x5a; 0x41; 0xf3; 0xe5; 0xb0; 0x62];
  [0xfc; 0x9f; 0x1f; 0xec; 0x40; 0x54; 0x20; 0x7a; 0xe3; 0xe4; 0x1a; 0x0; 0xce; 0xf4; 0xc9; 0x84;
   0x4f; 0xd7; 0x94; 0xf5; 0x9d; 0xfa; 0x95; 0xd8; 0x55; 0x2e; 0x7e; 0x11; 0x24; 0xc3; 0x54; 0xa5];
  [0x5b; 0xdf; 0x72; 0x28; 0xbd; 0xfe; 0x6e; 0x28; 0x78; 0xf5; 0x7f; 0xe2; 0xf; 0xa5; 0xc4; 0xb2;
   0x5; 0x89; 0x7c; 0xef; 0xee; 0x49; 0xd3; 0x2e; 0x44; 0x7e; 0x93; 0x85; 0xeb; 0x28; 0x59; 0x7f];
  [0x70; 0x5f; 0x69; 0x37; 0xb3; 0x24; 0x31; 0x4a; 0x5e; 0x86; 0x28; 0xf1; 0x1d; 0xd6; 0xe4; 0x65;
   0xc7; 0x1b; 0x77; 0x4; 0x51; 0xb9; 0x20; 0xe7; 0x74; 0xfe; 0x43; 0xe8; 0x23; 0xd4; 0x87; 0x8a];
  [0x7d; 0x29; 0xe8; 0xa3; 0x92; 0x76; 0x94; 0xf2; 0xdd; 0xcb; 0x7a; 0x9; 0x9b; 0x30; 0xd9; 0xc1;
   0x1d; 0x1b; 0x30; 0xfb; 0x5b; 0xdc; 0x1b; 0xe0; 0xda; 0x24; 0x49; 0x4f; 0xf2; 0x9c; 0x82; 0xbf];
  [0xa4; 0xe7; 0xba; 0x31; 0xb4; 0x70; 0xbf; 0xff; 0xd; 0x32; 0x44; 0x5; 0xde; 0xf8; 0xbc; 0x48;
   0x3b; 0xae; 0xfc; 0x32; 0x53; 0xbb; 0xd3; 0x39; 0x45; 0x9f; 0xc3; 0xc1; 0xe0; 0x29; 0x8b; 0xa0];
  [0xe5; 0xc9; 0x5; 0xfd; 0xf7; 0xae; 0x9; 0xf; 0x94; 0x70; 0x34; 0x12; 0x42; 0x90; 0xf1; 0x34;
   0xa2; 0x71; 0xb7; 0x1; 0xe3; 0x44; 0xed; 0x95; 0xe9; 0x3b; 0x8e; 0x36; 0x4f; 0x2f; 0x98; 0x4a];
  [0x88; 0x40; 0x1d; 0x63; 0xa0; 0x6c; 0xf6; 0x15; 0x47; 0xc1; 0x44; 0x4b; 0x87; 0x52; 0xaf; 0xff;
   0x7e; 0xbb; 0x4a; 0xf1; 0xe2; 0xa; 0xc6; 0x30; 0x46; 0x70; 0xb6; 0xc5; 0xcc; 0x6e; 0x8c; 0xe6];
  [0xa4; 0xd5; 0xa4; 0x56; 0xbd; 0x4f; 0xca; 0x0; 0xda; 0x9d; 0x84; 0x4b; 0xc8; 0x3e; 0x18; 0xae;
   0x73; 0x57; 0xce; 0x45; 0x30; 0x64; 0xd1; 0xad; 0xe8; 0xa6; 0xce; 0x68; 0x14; 0x5c; 0x25; 0x67];
  [0xa3; 0xda; 0x8c; 0xf2; 0xcb; 0xe; 0xe1; 0x16; 0x33; 0xe9; 0x6; 0x58; 0x9a; 0x94; 0x99; 0x9a;
   0x1f; 0x60; 0xb2; 0x20; 0xc2; 0x6f; 0x84; 0x7b; 0xd1; 0xce; 0xac; 0x7f; 0xa0; 0xd1; 0x85; 0x18];
  [0x32; 0x59; 0x5b; 0xa1; 0x8d; 0xdd; 0x19; 0xd3; 0x50; 0x9a; 0x1c; 0xc0; 0xaa; 0xa5; 0xb4; 0x46;
   0x9f; 0x3d; 0x63; 0x67; 0xe4; 0x4; 0x6b; 0xba; 0xf6; 0xca; 0x19; 0xab; 0xb; 0x56; 0xee; 0x7e];
  [0x1f; 0xb1; 0x79; 0xea; 0xa9; 0x28; 0x21; 0x74; 0xe9; 0xbd; 0xf7; 0x35; 0x3b; 0x36; 0x51; 0xee;
   0x1d; 0x57; 0xac; 0x5a; 0x75; 0x50; 0xd3; 0x76; 0x3a; 0x46; 0xc2; 0xfe; 0xa3; 0x7d; 0x70; 0x1];
  [0xf7; 0x35; 0xc1; 0xaf; 0x98; 0xa4; 0xd8; 0x42; 0x78; 0xed; 0xec; 0x20; 0x9e; 0x6b; 0x67; 0x79;
   0x41; 0x83; 0x63; 0x15; 0xea; 0x3a; 0xdb; 0xa8; 0xfa; 0xc3; 0x3b; 0x4d; 0x32; 0x83; 0x2c; 0x83];
  [0xa7; 0x40; 0x3b; 0x1f; 0x1c; 0x27; 0x47; 0xf3; 0x59; 0x40; 0xf0; 0x34; 0xb7; 0x2d; 0x76; 0x9a;
   0xe7; 0x3e; 0x4e; 0x6c; 0xd2; 0x21; 0x4f; 0xfd; 0xb8; 0xfd; 0x8d; 0x39; 0xdc; 0x57; 0x59; 0xef];
  [0x8d; 0x9b; 0xc; 0x49; 0x2b; 0x49; 0xeb; 0xda; 0x5b; 0xa2; 0xd7; 0x49; 0x68; 0xf3; 0x70; 0xd;
   0x7d; 0x3b; 0xae; 0xd0; 0x7a; 0x8d; 0x55; 0x84; 0xf5; 0xa5; 0xe9; 0xf0; 0xe4; 0xf8; 0x8e; 0x65];
  [0xa0; 0xb8; 0xa2; 0xf4; 0x36; 0x10; 0x3b; 0x53; 0xc; 0xa8; 0x7; 0x9e; 0x75; 0x3e; 0xec; 0x5a;
   0x91; 0x68; 0x94; 0x92; 0x56; 0xe8; 0x88; 0x4f; 0x5b; 0xb0; 0x5c; 0x55; 0xf8; 0xba; 0xbc; 0x4c];
  [0xe3; 0xbb; 0x3b; 0x99; 0xf3; 0x87; 0x94; 0x7b; 0x75; 0xda; 0xf4; 0xd6; 0x72; 0x6b; 0x1c; 0x5d;
   0x64; 0xae; 0xac; 0x28; 0xdc; 0x34; 0xb3; 0x6d; 0x6c; 0x34; 0xa5; 0x50; 0xb8; 0x28; 0xdb; 0x71];
  [0xf8; 0x61; 0xe2; 0xf2; 0x10; 0x8d; 0x51; 0x2a; 0xe3; 0xdb; 0x64; 0x33; 0x59; 0xdd; 0x75; 0xfc;
   0x1c; 0xac; 0xbc; 0xf1; 0x43; 0xce; 0x3f; 0xa2; 0x67; 0xbb; 0xd1; 0x3c; 0x2; 0xe8; 0x43; 0xb0];
  [0x33; 0xa; 0x5b; 0xca; 0x88; 0x29; 0xa1; 0x75; 0x7f; 0x34; 0x19; 0x4d; 0xb4; 0x16; 0x53; 0x5c;
   0x92; 0x3b; 0x94; 0xc3; 0xe; 0x79; 0x4d; 0x1e; 0x79; 0x74; 0x75; 0xd7; 0xb6; 0xee; 0xaf; 0x3f];
  [0xea; 0xa8; 0xd4; 0xf7; 0xbe; 0x1a; 0x39; 0x21; 0x5c; 0xf4; 0x7e; 0x9; 0x4c; 0x23; 0x27; 0x51;
   0x26; 0xa3; 0x24; 0x53; 0xba; 0x32; 0x3c; 0xd2; 0x44; 0xa3; 0x17; 0x4a; 0x6d; 0xa6; 0xd5; 0xad];
  [0xb5; 0x1d; 0x3e; 0xa6; 0xaf; 0xf2; 0xc9; 0x8; 0x83; 0x59; 0x3d; 0x98; 0x91; 0x6b; 0x3c; 0x56;
   0x4c; 0xf8; 0x7c; 0xa1; 0x72; 0x86; 0x60; 0x4d; 0x46; 0xe2; 0x3e; 0xcc; 0x8; 0x6e; 0xc7; 0xf6];
  [0x2f; 0x98; 0x33; 0xb3; 0xb1; 0xbc; 0x76; 0x5e; 0x2b; 0xd6; 0x66; 0xa5; 0xef; 0xc4; 0xe6; 0x2a;
   0x6; 0xf4; 0xb6; 0xe8; 0xbe; 0xc1; 0xd4; 0x36; 0x74; 0xee; 0x82; 0x15; 0xbc; 0xef; 0x21; 0x63];
  [0xfd; 0xc1; 0x4e; 0xd; 0xf4; 0x53; 0xc9; 0x69; 0xa7; 0x7d; 0x5a; 0xc4; 0x6; 0x58; 0x58; 0x26;
   0x7e; 0xc1; 0x14; 0x16; 0x6; 0xe0; 0xfa; 0x16; 0x7e; 0x90; 0xaf; 0x3d; 0x28; 0x63; 0x9d; 0x3f];
  [0xd2; 0xc9; 0xf2; 0xe3; 0x0; 0x9b; 0xd2; 0xc; 0x5f; 0xaa; 0xce; 0x30; 0xb7; 0xd4; 0xc; 0x30;
   0x74; 0x2a; 0x51; 0x16; 0xf2; 0xe0; 0x32; 0x98; 0xd; 0xeb; 0x30; 0xd8; 0xe3; 0xce; 0xf8; 0x9a];
  [0x4b; 0xc5; 0x9e; 0x7b; 0xb5; 0xf1; 0x79; 0x92; 0xff; 0x51; 0xe6; 0x6e; 0x4; 0x86; 0x68; 0xd3;
   0x9b; 0x23; 0x4d; 0x57; 0xe6; 0x96; 0x67; 0x31; 0xcc; 0xe6; 0xa6; 0xf3; 0x17; 0xa; 0x75; 0x5];
  [0xb1; 0x76; 0x81; 0xd9; 0x13; 0x32; 0x6c; 0xce; 0x3c; 0x17; 0x52; 0x84; 0xf8; 0x5; 0xa2; 0x62;
   0xf4; 0x2b; 0xcb; 0xb3; 0x78; 0x47; 0x15; 0x47; 0xff; 0x46; 0x54; 0x82; 0x23; 0x93; 0x6a; 0x48];
  [0x38; 0xdf; 0x58; 0x7; 0x4e; 0x5e; 0x65; 0x65; 0xf2; 0xfc; 0x7c; 0x89; 0xfc; 0x86; 0x50; 0x8e;
   0x31; 0x70; 0x2e; 0x44; 0xd0; 0xb; 0xca; 0x86; 0xf0; 0x40; 0x9; 0xa2; 0x30; 0x78; 0x47; 0x4e];
  [0x65; 0xa0; 0xee; 0x39; 0xd1; 0xf7; 0x38; 0x83; 0xf7; 0x5e; 0xe9; 0x37; 0xe4; 0x2c; 0x3a; 0xbd;
   0x21; 0x97; 0xb2; 0x26; 0x1; 0x13; 0xf8; 0x6f; 0xa3; 0x44; 0xed; 0xd1; 0xef; 0x9f; 0xde; 0xe7];
  [0x8b; 0xa0; 0xdf; 0x15; 0x76; 0x25; 0x92; 0xd9; 0x3c; 0x85; 0xf7; 0xf6; 0x12; 0xdc; 0x42; 0xbe;
   0xd8; 0xa7; 0xec; 0x7c; 0xab; 0x27; 0xb0; 0x7e; 0x53; 0x8d; 0x7d; 0xda; 0xaa; 0x3e; 0xa8; 0xde];
  [0xaa; 0x25; 0xce; 0x93; 0xbd; 0x2; 0x69; 0xd8; 0x5a; 0xf6; 0x43; 0xfd; 0x1a; 0x73; 0x8; 0xf9;
   0xc0; 0x5f; 0xef; 0xda; 0x17; 0x4a; 0x19; 0xa5; 0x97; 0x4d; 0x66; 0x33; 0x4c; 0xfd; 0x21; 0x6a];
  [0x35; 0xb4; 0x98; 0x31; 0xdb; 0x41; 0x15; 0x70; 0xea; 0x1e; 0xf; 0xbb; 0xed; 0xcd; 0x54; 0x9b;
   0x9a; 0xd0; 0x63; 0xa1; 0x51; 0x97; 0x40; 0x72; 0xf6; 0x75; 0x9d; 0xbf; 0x91; 0x47; 0x6f; 0xe2]].

Definition SWAP1 (x : Z) : Z := Z.lor (shl64 (Z.land x 0x5555555555555555) 1) (Z.shiftr (Z.land x 0xaaaaaaaaaaaaaaaa) 1).
Definition SWAP2 (x : Z) : Z := Z.lor (shl64 (Z.land x 0x3333333333333333) 2) (Z.shiftr (Z.land x 0xcccccccccccccccc) 2).
Definition SWAP4 (x : Z) : Z := Z.lor (shl64 (Z.land x 0x0f0f0f0f0f0f0f0f) 4) (Z.shiftr (Z.land x 0xf0f0f0f0f0f0f0f0) 4).
Definition SWAP8 (x : Z) : Z := Z.lor (shl64 (Z.land x 0x00ff00ff00ff00ff) 8) (Z.shiftr (Z.land x 0xff00ff00ff00ff00) 8).
Definition SWAP16 (x : Z) : Z := Z.lor (shl64 (Z.land x 0x0000ffff0000ffff) 16) (Z.shiftr (Z.land x 0xffff0000ffff0000) 16).
Definition SWAP32 (x : Z) : Z := Z.lor (shl64 x 32) (Z.shiftr x 32).

Definition L (m0 m1 m2 m3 m4 m5 m6 m7 : Z) : Z * Z * Z * Z * (Z * Z * Z * Z) :=
  let m4 := Z.lxor m4 m1 in
  let m5 := Z.lxor m5 m2 in
  let m6 := Z.lxor m6 (Z.lxor m0 m3) in
  let m7 := Z.lxor m7 m0 in
  let m0 := Z.lxor m0 m5 in
  let m1 := Z.lxor m1 m6 in
  let m2 := Z.lxor m2 (Z.lxor m4 m7) in
  let m3 := Z.lxor m3 m4 in
  (m0, m1, m2, m3, (m4, m5, m6, m7)).
Definition SS (m0 m1 m2 m3 m4 m5 m6 m7 cc0 cc1 : Z) : Z * Z * Z * Z * (Z * Z * Z * Z) :=
  let m3 := not64 m3 in
  let m7 := not64 m7 in
  let m0 := Z.lxor m0 (Z.land (not64 m2) cc0) in
  let m4 := Z.lxor m4 (Z.land (not64 m6) cc1) in
  let temp0 := Z.lxor cc0 (Z.land m0 m1) in
  let temp1 := Z.lxor cc1 (Z.land m4 m5) in
  let m0 := Z.lxor m0 (Z.land m2 m3) in
  let m4 := Z.lxor m4 (Z.land m6 m7) in
  let m3 := Z.lxor m3 (Z.land (not64 m1) m2) in
  let m7 := Z.lxor m7 (Z.land (not64 m5) m6) in
  let m1 := Z.lxor m1 (Z.land m0 m2) in
  let m5 := Z.lxor m5 (Z.land m4 m6) in
  let m2 := Z.lxor m2 (Z.land m0 (not64 m3)) in
  let m6 := Z.lxor m6 (Z.land m4 (not64 m7)) in
  let m0 := Z.lxor m0 (Z.lor m1 m3) in
  let m4 := Z.lxor m4 (Z.lor m5 m7) in
  let m3 := Z.lxor m3 (Z.land m1 m2) in
  let m7 := Z.lxor m7 (Z.land m5 m6) in
  let m1 := Z.lxor m1 (Z.land temp0 m0) in
  let m5 := Z.lxor m5 (Z.land temp1 m4) in
  let m2 := Z.lxor m2 temp0 in
  let m6 := Z.lxor m6 temp1 in
  (m0, m1, m2, m3, (m4, m5, m6, m7)).

(** [x[i][j]] is word [2 i + j]. *)
Definition on_rows (f : Z -> Z -> Z -> Z -> Z -> Z -> Z -> Z -> Z * Z * Z * Z * (Z * Z * Z * Z)) (i : nat) (x : list Z) : list Z :=
  let w j := x !!! (2 * j + i)%nat in
  let '(y0, y2, y4, y6, (y1, y3, y5, y7)) := f (w 0%nat) (w 2%nat) (w 4%nat) (w 6%nat) (w 1%nat) (w 3%nat) (w 5%nat) (w 7%nat) in
  foldl (fun x jy => <[(2 * jy.1 + i)%nat := jy.2]> x) x [(0, y0); (2, y2); (4, y4); (6, y6); (1, y1); (3, y3); (5, y5); (7, y7)]%nat.
(** [((uint64*\)E8_bitslice_roundconstant[r])[i]]. *)
Definition rc (r i : nat) : Z := le_load 8 (slice (8 * i) 8 (E8_bitslice_roundconstant !!! r)).
Definition swap_rows (f : Z -> Z) (i : nat) (x : list Z) : list Z :=
  foldl (fun x j => <[(2 * j + i)%nat := f (x !!! (2 * j + i)%nat)]> x) x [1; 3; 5; 7]%nat.
(** One round with a swap inside the words, and the seventh with its own loop. *)
Definition half_round (r : nat) (f : Z -> Z) (x : list Z) (i : nat) : list Z :=
  let x := on_rows (fun m0 m1 m2 m3 m4 m5 m6 m7 => SS m0 m1 m2 m3 m4 m5 m6 m7 (rc r i) (rc r (i + 2))) i x in
  let x := on_rows L i x in
  swap_rows f i x.
Definition round (r : nat) (f : Z -> Z) (x : list Z) : list Z := foldl (half_round r f) x [0; 1]%nat.
Definition round_6 (r : nat) (x : list Z) : list Z :=
  let x := round r (fun w => w) x in
  foldl (fun x i => let temp0 := x !!! (2 * i)%nat in <[(2 * i + 1)%nat := temp0]> (<[(2 * i)%nat := x !!! (2 * i + 1)%nat]> x)) x [1; 3; 5; 7]%nat.
Definition E8 (x : list Z) : list Z :=
  foldl (fun x k =>
    let roundnumber := (7 * k)%nat in
    let x := round (roundnumber + 0) SWAP1 x in
    let x := round (roundnumber + 1) SWAP2 x in
    let x := round (roundnumber + 2) SWAP4 x in
    let x := round (roundnumber + 3) SWAP8 x in
    let x := round (roundnumber + 4) SWAP16 x in
    let x := round (roundnumber + 5) SWAP32 x in
    round_6 (roundnumber + 6) x) x (seq 0 6).

Record hashState := mk_hs { hashbitlen : Z; databitlen : Z; datasize_in_buffer : Z; x : list Z; buffer : list Z }.

Definition F8 (st : hashState) : hashState :=
  let buf i := le_load 8 (slice (8 * i) 8 (buffer st)) in
  let y := foldl (fun x i => <[i := Z.lxor (x !!! i) (buf i)]> x) (x st) (seq 0 8) in
  let y := E8 y in
  let y := foldl (fun x i => <[(i + 8)%nat := Z.lxor (x !!! (i + 8)%nat) (buf i)]> x) y (seq 0 8) in
  mk_hs (hashbitlen st) (databitlen st) (datasize_in_buffer st) y (buffer st).

(** [memcpy] of 128 bytes into the words. *)
Definition words (b : list Z) : list Z := (fun i => le_load 8 (slice (8 * i) 8 b)) <$> seq 0 16.
Definition Init (st : hashState) (bitlen : Z) : hashState :=
  mk_hs bitlen 0 0
    (words (if bitlen =? 224 then JH224_H0 else if bitlen =? 256 then JH256_H0 else if bitlen =? 384 then JH384_H0 else JH512_H0)) (buffer st).

(** [memcpy(buffer + at, data + off, n)]. *)
Definition fill (st : hashState) (at' : nat) (data : list Z) (off n : nat) : option hashState :=
  if (off + n <=? length data)%nat && (at' + n <=? length (buffer st))%nat
  then Some (mk_hs (hashbitlen st) (databitlen st) (datasize_in_buffer st) (x st) (memcpy (buffer st) at' (slice off n data)))
  else None.
Definition set_size (st : hashState) (n : Z) : hashState := mk_hs (hashbitlen st) (databitlen st) n (x st) (buffer st).

(** [for ( ; databitlen >= 512; index = index+64, databitlen = databitlen - 512)]. *)
Fixpoint full_blocks (fuel : nat) (st : hashState) (data : list Z) (index : nat) (dl : Z) : option (hashState * nat * Z) :=
  match fuel with
  | O => Some (st, index, dl)
  | S fuel =>
      if 512 <=? dl then
        st ← fill st 0 data index 64;
        full_blocks fuel (F8 st) data (index + 64) (dl - 512)
      else Some (st, index, dl)
  end.
Definition Update (st : hashState) (data : list Z) (dl : Z) : option hashState :=
  let st := mk_hs (hashbitlen st) (add64 (databitlen st) dl) (datasize_in_buffer st) (x st) (buffer st) in
  let have := Z.to_nat (Z.shiftr (datasize_in_buffer st) 3) in
  '(st, dl) ← (if (0 <? datasize_in_buffer st) && (add64 (datasize_in_buffer st) dl <? 512) then
     st' ← (if Z.land dl 7 =? 0 then fill st have data 0 (64 - have) else fill st have data 0 (64 - have + 1));
     Some (set_size st' (add64 (datasize_in_buffer st') dl), 0)
   else Some (st, dl));
  '(st, dl, index) ← (if (0 <? datasize_in_buffer st) && (512 <=? add64 (datasize_in_buffer st) dl) then
     let have := Z.to_nat (Z.shiftr (datasize_in_buffer st) 3) in
     st' ← fill st have data 0 (64 - have);
     Some (set_size (F8 st') 0, dl - (512 - datasize_in_buffer st), (64 - have)%nat)
   else Some (st, dl, 0%nat));
  '(st, index, dl) ← full_blocks (S (Z.to_nat (dl / 512))) st data index dl;
  if 0 <? dl then
    let n := Z.to_nat (Z.shiftr (Z.land dl 0x1ff) 3) in
    st ← fill st 0 data index (if Z.land dl 7 =? 0 then n else n + 1);
    Some (set_size st dl)
  else Some st.

Definition set_buffer (st : hashState) (b : list Z) : hashState := mk_hs (hashbitlen st) (databitlen st) (datasize_in_buffer st) (x st) b.
(** The eight statements that store the length at the end of the buffer. *)
Definition put_length (st : hashState) (b : list Z) : list Z :=
  foldl (fun b k => <[(63 - k)%nat := Z.land (Z.shiftr (databitlen st) (8 * Z.of_nat k)) 0xff]> b) b (seq 0 8).
(** The padded block or blocks. *)
Definition pad_final (st : hashState) : hashState :=
  if Z.land (databitlen st) 0x1ff =? 0 then
    let b := memset0 (buffer st) 0 64 in
    let b := <[0%nat := 0x80]> b in
    F8 (set_buffer st (put_length st b))
  else
    let n := Z.to_nat (Z.shiftr (Z.land (databitlen st) 0x1ff) 3) in
    let from := if Z.land (datasize_in_buffer st) 7 =? 0 then n else (n + 1)%nat in
    let b := foldl (fun b i => <[i := 0]> b) (buffer st) (seq from (64 - from)) in
    let b := <[n := T8 (Z.lor (b !!! n) (Z.shiftl 1 (7 - Z.land (databitlen st) 7)))]> b in
    let st := F8 (set_buffer st b) in
    F8 (set_buffer st (put_length st (memset0 (buffer st) 0 64))).
Definition Final (st : hashState) : hashState * option (list Z) :=
  let st := pad_final st in
  let bytes := flat_map (le_store 8) (x st) in
  (st, if hashbitlen st =? 224 then Some (slice (64 + 36) 28 bytes)
       else if hashbitlen st =? 256 then Some (slice (64 + 32) 32 bytes)
       else if hashbitlen st =? 384 then Some (slice (64 + 16) 48 bytes)
       else if hashbitlen st =? 512 then Some (slice 64 64 bytes) else None).

Inductive HashReturn := SUCCESS | FAIL | BAD_HASHLEN.
(** [st] is what the state on the stack holds; the digest is what is written to [hashval]. *)
Definition jh_hash (st : hashState) (bitlen : Z) (data : list Z) (dl : Z) : option (HashReturn * option (list Z)) :=
  if (bitlen =? 224) || (bitlen =? 256) || (bitlen =? 384) || (bitlen =? 512) then
    let st := Init st bitlen in
    st ← Update st data dl;
    Some (SUCCESS, (Final st).2)
  else Some (BAD_HASHLEN, None).

(** ** The rounds are those of [sph_jh.c] *)

Lemma SS_Sb m0 m1 m2 m3 m4 m5 m6 m7 cc0 cc1 : SS m0 m1 m2 m3 m4 m5 m6 m7 cc0 cc1 = (Jh.Sb cc0 m0 m1 m2 m3, Jh.Sb cc1 m4 m5 m6 m7).
Proof. unfold SS, Jh.Sb. by rewrite (Z.land_comm (not64 m2) cc0), (Z.land_comm (not64 m6) cc1). Qed.
Lemma L_Lb m0 m1 m2 m3 m4 m5 m6 m7 : L m0 m1 m2 m3 m4 m5 m6 m7 = Jh.Lb m0 m1 m2 m3 m4 m5 m6 m7.
Proof.
  unfold L, Jh.Lb. rewrite (Z.lxor_comm m0 m3). by rewrite (Z.lxor_comm (Z.lxor m4 m1) (Z.lxor m7 m0)).
Qed.
Lemma rc_C r i : (r < 42)%nat -> (i < 4)%nat -> rc r i = Jh.C !!! (4 * r + i)%nat.
Proof.
  intros Hr Hi. apply Z.eqb_eq.
  assert (H : forallb (fun r => forallb (fun i => rc r i =? Jh.C !!! (4 * r + i)%nat) (seq 0 4)) (seq 0 42) = true) by (vm_compute; reflexivity).
  rewrite forallb_forall in H. specialize (H r ltac:(apply in_seq; lia)). rewrite forallb_forall in H. apply H, in_seq. lia.
Qed.
Definition words4 (q : Z * Z * Z * Z) : Prop := let '(a, b, c, d) := q in word 64 a /\ word 64 b /\ word 64 c /\ word 64 d.
Ltac wd := repeat first [assumption | apply word_not64 | apply word_lxor; [lia| |] | apply word_lor; [lia| |] | apply word_land_l; [lia|]].
Lemma Sb_words c x0 x1 x2 x3 : word 64 c -> words4 (x0, x1, x2, x3) -> words4 (Jh.Sb c x0 x1 x2 x3).
Proof. intros Hc (H0 & H1 & H2 & H3). unfold Jh.Sb, words4. cbv zeta. split_and!; wd. Qed.
Lemma Lb_words x0 x1 x2 x3 x4 x5 x6 x7 :
  words4 (x0, x1, x2, x3) -> words4 (x4, x5, x6, x7) ->
  words4 (Jh.Lb x0 x1 x2 x3 x4 x5 x6 x7).1 /\ words4 (Jh.Lb x0 x1 x2 x3 x4 x5 x6 x7).2.
Proof. intros (H0 & H1 & H2 & H3) (H4 & H5 & H6 & H7). unfold Jh.Lb, words4. cbn [fst snd]. split_and!; wd. Qed.
Lemma C_words i : word 64 (Jh.C !!! i).
Proof. apply words64_lookup, word_list_dec. vm_compute. reflexivity. Qed.

Definition is_swap (f : Z -> Z) (ro : nat) : Prop := forall w, word 64 w -> f w = Jh.Wz_word (Jh.mask ro) (2 ^ Z.of_nat ro) w.
Lemma swaps : is_swap SWAP1 0 /\ is_swap SWAP2 1 /\ is_swap SWAP4 2 /\ is_swap SWAP8 3 /\ is_swap SWAP16 4 /\ is_swap SWAP32 5.
Proof.
  split_and!; intros w Hw; unfold SWAP1, SWAP2, SWAP4, SWAP8, SWAP16, SWAP32, Jh.Wz_word; cbv zeta; rewrite Z.lor_comm.
  1-5: rewrite Z.shiftr_land; exact eq_refl.
  change (Jh.mask 5) with (Z.ones 32). change (2 ^ Z.of_nat 5) with 32. rewrite !Z.land_ones by lia. f_equal.
  - rewrite Z.mod_small; [done|]. rewrite Z.shiftr_div_pow2 by lia. unfold word in Hw. split; [apply Z.div_pos; lia|apply Z.div_lt_upper_bound; lia].
  - unfold shl64. rewrite !T64_mod, !Z.shiftl_mul_pow2 by lia. change (2 ^ 64) with (2 ^ 32 * 2 ^ 32). rewrite !Z.mul_mod_distr_r by lia.
    f_equal. symmetry. by apply Z.mod_mod.
Qed.
(** The macros of [sph_jh.c] and the loops of this file on sixteen words. *)
Lemma S_list r h0 h1 h2 h3 h4 h5 h6 h7 h8 h9 h10 h11 h12 h13 h14 h15 :
  Jh.S 1 3 5 7 Jh.Codd_ r (Jh.S 0 2 4 6 Jh.Ceven_ r [h0; h1; h2; h3; h4; h5; h6; h7; h8; h9; h10; h11; h12; h13; h14; h15])
  = let '(a0, a4, a8, a12) := Jh.Sb (Jh.C !!! (4 * r + 0)%nat) h0 h4 h8 h12 in
    let '(a1, a5, a9, a13) := Jh.Sb (Jh.C !!! (4 * r + 1)%nat) h1 h5 h9 h13 in
    let '(a2, a6, a10, a14) := Jh.Sb (Jh.C !!! (4 * r + 2)%nat) h2 h6 h10 h14 in
    let '(a3, a7, a11, a15) := Jh.Sb (Jh.C !!! (4 * r + 3)%nat) h3 h7 h11 h15 in
    [a0; a1; a2; a3; a4; a5; a6; a7; a8; a9; a10; a11; a12; a13; a14; a15].
Proof.
  unfold Jh.S, Jh.Sw, Jh.Ceven_, Jh.Codd_.
  replace (4 * r + 2 + 0)%nat with (4 * r + 2)%nat by lia. replace (4 * r + 2 + 1)%nat with (4 * r + 3)%nat by lia.
  set (c0 := Jh.C !!! (4 * r + 0)%nat). set (c1 := Jh.C !!! (4 * r + 1)%nat). set (c2 := Jh.C !!! (4 * r + 2)%nat). set (c3 := Jh.C !!! (4 * r + 3)%nat).
  clearbody c0 c1 c2 c3. cbn -[Jh.Sb].
  destruct (Jh.Sb c0 h0 h4 h8 h12) as [[[? ?] ?] ?]. cbn -[Jh.Sb]. destruct (Jh.Sb c1 h1 h5 h9 h13) as [[[? ?] ?] ?]. cbn -[Jh.Sb].
  destruct (Jh.Sb c2 h2 h6 h10 h14) as [[[? ?] ?] ?]. cbn -[Jh.Sb]. destruct (Jh.Sb c3 h3 h7 h11 h15) as [[[? ?] ?] ?]. exact eq_refl.
Qed.
Lemma L_list h0 h1 h2 h3 h4 h5 h6 h7 h8 h9 h10 h11 h12 h13 h14 h15 :
  Jh.L 0 2 4 6 1 3 5 7 [h0; h1; h2; h3; h4; h5; h6; h7; h8; h9; h10; h11; h12; h13; h14; h15]
  = let '(a0, a4, a8, a12, (a2, a6, a10, a14)) := Jh.Lb h0 h4 h8 h12 h2 h6 h10 h14 in
    let '(a1, a5, a9, a13, (a3, a7, a11, a15)) := Jh.Lb h1 h5 h9 h13 h3 h7 h11 h15 in
    [a0; a1; a2; a3; a4; a5; a6; a7; a8; a9; a10; a11; a12; a13; a14; a15].
Proof.
  unfold Jh.L, Jh.Lw. cbn -[Jh.Lb]. destruct (Jh.Lb h0 h4 h8 h12 h2 h6 h10 h14) as [[[[? ?] ?] ?] [[[? ?] ?] ?]]. cbn -[Jh.Lb].
  destruct (Jh.Lb h1 h5 h9 h13 h3 h7 h11 h15) as [[[[? ?] ?] ?] [[[? ?] ?] ?]]. exact eq_refl.
Qed.
Lemma W_list ro h0 h1 h2 h3 h4 h5 h6 h7 h8 h9 h10 h11 h12 h13 h14 h15 :
  (ro < 6)%nat ->
  let w := Jh.Wz_word (Jh.mask ro) (2 ^ Z.of_nat ro) in
  Jh.Wro ro 7 (Jh.Wro ro 5 (Jh.Wro ro 3 (Jh.Wro ro 1 [h0; h1; h2; h3; h4; h5; h6; h7; h8; h9; h10; h11; h12; h13; h14; h15])))
  = [h0; h1; w h2; w h3; h4; h5; w h6; w h7; h8; h9; w h10; w h11; h12; h13; w h14; w h15].
Proof. intros Hro. do 6 (destruct ro as [|ro]; [exact eq_refl|]). lia. Qed.
Lemma half_list r f i h0 h1 h2 h3 h4 h5 h6 h7 h8 h9 h10 h11 h12 h13 h14 h15 :
  (i < 2)%nat ->
  half_round r f [h0; h1; h2; h3; h4; h5; h6; h7; h8; h9; h10; h11; h12; h13; h14; h15] i
  = let y := [h0; h1; h2; h3; h4; h5; h6; h7; h8; h9; h10; h11; h12; h13; h14; h15] in
    let w j := y !!! (2 * j + i)%nat in
    let '(a0, a2, a4, a6) := Jh.Sb (rc r i) (w 0%nat) (w 2%nat) (w 4%nat) (w 6%nat) in
    let '(a1, a3, a5, a7) := Jh.Sb (rc r (i + 2)) (w 1%nat) (w 3%nat) (w 5%nat) (w 7%nat) in
    let '(b0, b2, b4, b6, (b1, b3, b5, b7)) := Jh.Lb a0 a2 a4 a6 a1 a3 a5 a7 in
    match i with
    | O => [b0; h1; f b1; h3; b2; h5; f b3; h7; b4; h9; f b5; h11; b6; h13; f b7; h15]
    | _ => [h0; b0; h2; f b1; h4; b2; h6; f b3; h8; b4; h10; f b5; h12; b6; h14; f b7]
    end.
Proof.
  intros Hi. unfold half_round, on_rows. cbv zeta.
  generalize (rc r i) as c0, (rc r (i + 2)) as c1. intros c1 c0. rewrite SS_Sb.
  do 2 (destruct i as [|i]; [cbn -[Jh.Sb Jh.Lb L SS]; destruct (Jh.Sb c0 _ _ _ _) as [[[? ?] ?] ?]; destruct (Jh.Sb c1 _ _ _ _) as [[[? ?] ?] ?];
    cbn -[Jh.Lb L]; rewrite L_Lb; destruct (Jh.Lb _ _ _ _ _ _ _ _) as [[[[? ?] ?] ?] [[[? ?] ?] ?]]; exact eq_refl|]). lia.
Qed.
Lemma Wz_words c n w : 0 <= n -> word 64 w -> word 64 (Jh.Wz_word c n w).
Proof. intros Hn Hw. unfold Jh.Wz_word. apply word_lor; [lia| |apply word_shl64]. apply word_land_l; [lia|]. by apply word_shiftr. Qed.
(** Both before their swaps: the same sixteen words. *)
Definition swapped (f : Z -> Z) (z : list Z) : list Z := (fun i => if (i / 2 mod 2 =? 1)%nat then f (z !!! i) else z !!! i) <$> seq 0 16.
Lemma round_LS r f y :
  (r < 42)%nat -> length y = 16%nat -> words64 y ->
  let z := Jh.L 0 2 4 6 1 3 5 7 (Jh.S 1 3 5 7 Jh.Codd_ r (Jh.S 0 2 4 6 Jh.Ceven_ r y)) in
  length z = 16%nat /\ words64 z /\ round r f y = swapped f z.
Proof.
  intros Hr Hl Hw. cbv zeta.
  destruct y as [|h0 [|h1 [|h2 [|h3 [|h4 [|h5 [|h6 [|h7 [|h8 [|h9 [|h10 [|h11 [|h12 [|h13 [|h14 [|h15 [|]]]]]]]]]]]]]]]]]; try discriminate. clear Hl.
  unfold words64 in Hw. repeat rewrite list.Forall_cons in Hw. destruct Hw as (? & ? & ? & ? & ? & ? & ? & ? & ? & ? & ? & ? & ? & ? & ? & ? & _).
  unfold round. cbn [foldl]. rewrite half_list by lia. cbv zeta. rewrite S_list. change (0 + 2)%nat with 2%nat. rewrite !(rc_C r) by lia.
  pose proof (Sb_words _ h0 h4 h8 h12 (C_words (4 * r + 0))) as E0. pose proof (Sb_words _ h1 h5 h9 h13 (C_words (4 * r + 1))) as E1.
  pose proof (Sb_words _ h2 h6 h10 h14 (C_words (4 * r + 2))) as E2. pose proof (Sb_words _ h3 h7 h11 h15 (C_words (4 * r + 3))) as E3.
  pose proof (rc_C r 1 Hr ltac:(lia)) as R1. pose proof (rc_C r 3 Hr ltac:(lia)) as R3. set (c0 := Jh.C !!! (4 * r + 0)%nat) in *. set (c1 := Jh.C !!! (4 * r + 1)%nat) in *.
  set (c2 := Jh.C !!! (4 * r + 2)%nat) in *. set (c3 := Jh.C !!! (4 * r + 3)%nat) in *. clearbody c0 c1 c2 c3. cbn -[Jh.Sb Jh.Lb words4 half_round Jh.L swapped].
  destruct (Jh.Sb c0 h0 h4 h8 h12) as [[[a0 a4] a8] a12]. destruct (Jh.Sb c2 h2 h6 h10 h14) as [[[a2 a6] a10] a14].
  destruct (Jh.Sb c1 h1 h5 h9 h13) as [[[a1 a5] a9] a13] eqn:X1. destruct (Jh.Sb c3 h3 h7 h11 h15) as [[[a3 a7] a11] a15] eqn:X3. rewrite L_list.
  destruct (Lb_words a0 a4 a8 a12 a2 a6 a10 a14) as [M0 M1]; [by apply E0|by apply E2|]. destruct (Lb_words a1 a5 a9 a13 a3 a7 a11 a15) as [M2 M3]; [by apply E1|by apply E3|].
  destruct (Jh.Lb a0 a4 a8 a12 a2 a6 a10 a14) as [[[[b0 b4] b8] b12] [[[b2 b6] b10] b14]]. rewrite half_list by lia. cbv zeta. change (1 + 2)%nat with 3%nat. rewrite R1, R3.
  cbn -[Jh.Sb Jh.Lb words4 half_round Jh.L swapped]. rewrite X1, X3.
  destruct (Jh.Lb a1 a5 a9 a13 a3 a7 a11 a15) as [[[[b1 b5] b9] b13] [[[b3 b7] b11] b15]].
  cbn [fst snd words4] in M0, M1, M2, M3. destruct M0 as (? & ? & ? & ?), M1 as (? & ? & ? & ?), M2 as (? & ? & ? & ?), M3 as (? & ? & ? & ?).
  split; [done|]. split; [|exact eq_refl]. unfold words64. repeat rewrite list.Forall_cons. split_and!; try assumption. by apply Forall_nil.
Qed.
Ltac sixteen_words y Hl Hw :=
  destruct y as [|? [|? [|? [|? [|? [|? [|? [|? [|? [|? [|? [|? [|? [|? [|? [|? [|]]]]]]]]]]]]]]]]]; try discriminate; clear Hl;
  unfold words64 in Hw; repeat rewrite list.Forall_cons in Hw; destruct Hw as (? & ? & ? & ? & ? & ? & ? & ? & ? & ? & ? & ? & ? & ? & ? & ? & _).
Lemma round_SLu r ro f y :
  (r < 42)%nat -> (ro < 6)%nat -> is_swap f ro -> length y = 16%nat -> words64 y ->
  round r f y = Jh.SLu r ro y /\ words64 (Jh.SLu r ro y).
Proof.
  intros Hr Hro Hf Hl Hw. destruct (round_LS r f y Hr Hl Hw) as (Hl' & Hw' & ->). unfold Jh.SLu. cbv zeta. set (z := Jh.L 0 2 4 6 1 3 5 7 _) in *. clearbody z.
  sixteen_words z Hl' Hw'. rewrite W_list by done. unfold swapped. cbn -[Jh.Wz_word Jh.mask Z.pow]. rewrite !(Hf _) by assumption. split; [done|].
  unfold words64. repeat rewrite list.Forall_cons. split_and!; try assumption; try by apply Forall_nil. all: apply Wz_words; [apply Z.pow_nonneg; lia|assumption].
Qed.
Lemma round_6_SLu r y :
  (r < 42)%nat -> length y = 16%nat -> words64 y -> round_6 r y = Jh.SLu r 6 y /\ words64 (Jh.SLu r 6 y).
Proof.
  intros Hr Hl Hw. unfold round_6. destruct (round_LS r (fun w => w) y Hr Hl Hw) as (Hl' & Hw' & ->). unfold Jh.SLu. cbv zeta. set (z := Jh.L 0 2 4 6 1 3 5 7 _) in *. clearbody z.
  sixteen_words z Hl' Hw'. split; [exact eq_refl|]. cbn. unfold words64. repeat rewrite list.Forall_cons. split_and!; try assumption; by apply Forall_nil.
Qed.

#[local] Opaque Jh.SLu round round_6.
Ltac one_round r i F Q :=
  match goal with Hl : length ?y = 16%nat, Hw : words64 ?y |- _ =>
    let H := fresh in destruct (round_SLu (r + i) i F y ltac:(lia) ltac:(lia) Q Hl Hw) as [-> H];
    pose proof (Jh.length_SLu (r + i) i y ltac:(lia) Hl); clear Hl Hw; generalize dependent (Jh.SLu (r + i) i y); intros end.
Lemma E8_sph y : length y = 16%nat -> words64 y -> E8 y = Jh.E8 true y /\ words64 (Jh.E8 true y).
Proof.
  intros Hl Hw. unfold E8. cbn [Jh.E8]. unfold Jh.E8_small. destruct swaps as (Q0 & Q1 & Q2 & Q3 & Q4 & Q5).
  assert (Hk : Forall (fun k => k < 6)%nat (seq 0 6)) by (by repeat constructor).
  revert y Hl Hw. induction (seq 0 6) as [|k ks IH]; intros y Hl Hw; [done|]. apply list.Forall_cons in Hk as [Hk0 Hk]. cbn [foldl]. cbv zeta. unfold Jh.SL.
  set (r := (7 * k)%nat). assert (Hr : (r + 6 < 42)%nat) by (unfold r; lia).
  one_round r 0%nat SWAP1 Q0. one_round r 1%nat SWAP2 Q1. one_round r 2%nat SWAP4 Q2. one_round r 3%nat SWAP8 Q3. one_round r 4%nat SWAP16 Q4. one_round r 5%nat SWAP32 Q5.
  match goal with Hl : length ?y = 16%nat, Hw : words64 ?y |- _ =>
    destruct (round_6_SLu (r + 6) y ltac:(lia) Hl Hw) as [-> Hw6]; exact (IH Hk _ (Jh.length_SLu (r + 6) 6 y ltac:(lia) Hl) Hw6) end.
Qed.

(** ** The compression function *)

Definition good (st : hashState) : Prop := length (x st) = 16%nat /\ words64 (x st) /\ length (buffer st) = 64%nat /\ bytes (buffer st).
Lemma xor_words a b : words64 a -> words64 b -> words64 (zip_with Z.lxor a b).
Proof.
  intros Ha. revert b. induction Ha as [|v a Hv Ha IH]; intros b Hb; [constructor|]. destruct Hb as [|w b Hw Hb]; [constructor|].
  cbn. constructor; [by apply word_lxor|by apply IH].
Qed.
Lemma dec_words b : bytes b -> words64 (Jh.dec_buf b).
Proof. intros Hb. apply Forall_fmap, Forall_true. intros i. apply word_le_load. by apply Forall_take, Forall_drop. Qed.
#[local] Opaque E8 Jh.E8.
Lemma F8_ref st :
  good st ->
  good (F8 st) /\ Jh.state_bits (x (F8 st)) = Jh.F8 (Jh.state_bits (x st)) (buffer st) /\
  buffer (F8 st) = buffer st /\ hashbitlen (F8 st) = hashbitlen st /\ databitlen (F8 st) = databitlen st /\ datasize_in_buffer (F8 st) = datasize_in_buffer st.
Proof.
  intros (Hl & Hw & Hbl & Hb). destruct (Jh.jh_block_ref true (Jh.mk_jh (x st) 0) (buffer st) Hb Hbl Hl) as (H1 & H2 & _). cbn [Jh.jH] in H2.
  assert (E : x (F8 st) = Jh.jH (Jh.jh_block true (Jh.mk_jh (x st) 0) (buffer st)) /\ words64 (x (F8 st))).
  { unfold F8, Jh.jh_block. cbn [x Jh.jH]. cbv zeta. pose proof (dec_words (buffer st) Hb) as Hd. pose proof (Jh.length_dec_buf (buffer st)) as Hdl.
    assert (Hi : forall y, length y = 16%nat -> foldl (fun x i => <[i := Z.lxor (x !!! i) (le_load 8 (slice (8 * i) 8 (buffer st)))]> x) y (seq 0 8) = Jh.INPUT_BUF1 y (Jh.dec_buf (buffer st))).
    { intros y Hy. clear - Hy. do 16 (destruct y as [|? y]; [discriminate|]). destruct y; [|discriminate]. exact eq_refl. }
    assert (Hi' : forall y, length y = 16%nat -> foldl (fun x i => <[(i + 8)%nat := Z.lxor (x !!! (i + 8)%nat) (le_load 8 (slice (8 * i) 8 (buffer st)))]> x) y (seq 0 8) = Jh.INPUT_BUF2 y (Jh.dec_buf (buffer st))).
    { intros y Hy. clear - Hy. do 16 (destruct y as [|? y]; [discriminate|]). destruct y; [|discriminate]. exact eq_refl. }
    rewrite Hi by done. set (y1 := Jh.INPUT_BUF1 _ _). assert (Hl1 : length y1 = 16%nat) by (unfold y1, Jh.INPUT_BUF1; rewrite length_app, length_zip_with, length_take, length_drop; lia).
    assert (Hw1 : words64 y1) by (apply Forall_app_2; [apply xor_words; [by apply Forall_take|done]|by apply Forall_drop]).
    destruct (E8_sph y1 Hl1 Hw1) as [-> Hw2]. destruct (Jh.E8_ref true y1 Hl1) as [Hl2 _]. rewrite Hi' by done. split; [done|].
    apply Forall_app_2; [by apply Forall_take|]. apply xor_words; [by apply Forall_drop|done]. }
  destruct E as [E Ew]. unfold good. rewrite E in *. split_and!; done.
Qed.
Lemma fill_ref st at' data off n :
  good st -> bytes data -> (off + n <= length data)%nat -> (at' + n <= 64)%nat ->
  fill st at' data off n = Some (set_buffer st (memcpy (buffer st) at' (slice off n data))) /\ good (set_buffer st (memcpy (buffer st) at' (slice off n data))).
Proof.
  intros (Hl & Hw & Hbl & Hb) Hd H1 H2. unfold fill. rewrite Hbl, (proj2 (Nat.leb_le (off + n) _)), (proj2 (Nat.leb_le (at' + n) 64)) by done. cbn [andb].
  split; [done|]. split_and!; [done|done| |]; cbn [set_buffer buffer].
  - rewrite length_memcpy by (rewrite length_slice; lia). done.
  - apply Forall_memcpy; [done|]. by apply Forall_take, Forall_drop.
Qed.

(** ** One call *)

Lemma blocks_cons B (m : list Z) : (0 < B <= length m)%nat -> blocks B m = take B m :: blocks B (drop B m).
Proof.
  intros HB. rewrite <-(take_drop B m) at 1. assert (Ht : length (take B m) = B) by (rewrite length_take; lia).
  rewrite blocks_app by (lia || (rewrite Ht; apply Nat.Div0.mod_same)). by rewrite (blocks_one B (take B m)) by lia.
Qed.
Definition same_call (st st' : hashState) : Prop :=
  hashbitlen st' = hashbitlen st /\ databitlen st' = databitlen st /\ datasize_in_buffer st' = datasize_in_buffer st.
Lemma full_blocks_ref fuel st data index :
  good st -> bytes data -> (index <= length data)%nat -> (length data - index < 64 * fuel)%nat ->
  exists st',
    full_blocks fuel st data index (8 * Z.of_nat (length data - index)) =
      Some (st', (index + 64 * ((length data - index) / 64))%nat, 8 * Z.of_nat ((length data - index) mod 64)) /\
    good st' /\ same_call st st' /\ Jh.state_bits (x st') = foldl Jh.F8 (Jh.state_bits (x st)) (blocks 64 (drop index data)).
Proof.
  revert st index. induction fuel as [|fuel IH]; intros st index Hg Hd Hi Hf; [lia|]. cbn [full_blocks].
  destruct (Z.leb_spec 512 (8 * Z.of_nat (length data - index))) as [Hge|Hlt].
  - destruct (fill_ref st 0 data index 64 Hg Hd ltac:(lia) ltac:(lia)) as [-> Hg1]. cbn [mbind option_bind].
    set (st1 := set_buffer st _) in *. assert (Eb : buffer st1 = slice index 64 data).
    { unfold st1. cbn [set_buffer buffer]. destruct Hg as (_ & _ & Hbl & _). rewrite take_memcpy_all by (rewrite length_slice; lia). done. }
    destruct (F8_ref st1 Hg1) as (Hg2 & E2 & _ & F1 & F2 & F3).
    replace (8 * Z.of_nat (length data - index) - 512) with (8 * Z.of_nat (length data - (index + 64))) by lia.
    destruct (IH (F8 st1) (index + 64)%nat Hg2 Hd ltac:(lia) ltac:(lia)) as (st' & -> & Hg' & (S1 & S2 & S3) & E'). exists st'.
    assert (Ed : ((length data - index) / 64 = 1 + (length data - (index + 64)) / 64)%nat).
    { replace (length data - index)%nat with (length data - (index + 64) + 1 * 64)%nat by lia. rewrite Nat.div_add by lia. lia. }
    assert (Em : ((length data - index) mod 64 = (length data - (index + 64)) mod 64)%nat).
    { replace (length data - index)%nat with (length data - (index + 64) + 1 * 64)%nat by lia. apply Nat.Div0.mod_add. }
    rewrite Ed, Em. split; [do 3 f_equal; lia|]. split; [done|]. split; [exact (conj (eq_trans S1 F1) (conj (eq_trans S2 F2) (eq_trans S3 F3)))|].
    rewrite E', E2, Eb, (blocks_cons 64 (drop index data)) by (rewrite length_drop; lia). cbn [foldl]. by rewrite drop_drop.
  - exists st. rewrite (Nat.div_small (length data - index)), (Nat.mod_small (length data - index)), Nat.add_0_r by lia. split; [done|]. split; [done|]. split; [done|].
    by rewrite blocks_short by (rewrite length_drop; lia).
Qed.
Lemma Update_ref st data :
  good st -> bytes data -> datasize_in_buffer st = 0 -> databitlen st = 0 -> 8 * Z.of_nat (length data) < 2 ^ 64 ->
  exists st',
    Update st data (8 * Z.of_nat (length data)) = Some st' /\ good st' /\ hashbitlen st' = hashbitlen st /\
    databitlen st' = 8 * Z.of_nat (length data) /\ datasize_in_buffer st' = 8 * Z.of_nat (length data mod 64) /\
    Jh.state_bits (x st') = foldl Jh.F8 (Jh.state_bits (x st)) (blocks 64 data) /\ take (length data mod 64) (buffer st') = leftover 64 data.
Proof.
  intros Hg Hd H0 H1 HL. unfold Update. cbn [datasize_in_buffer databitlen]. rewrite H0, H1. cbn [Z.ltb Z.compare andb mbind option_bind].
  change (add64 0 ?n) with (T64 n). rewrite T64_id by (unfold word; lia).
  set (st0 := mk_hs _ _ _ _ _). change (datasize_in_buffer st0) with 0. cbn [Z.ltb Z.compare andb mbind option_bind]. assert (Hg0 : good st0) by exact Hg.
  pose proof (full_blocks_ref (S (Z.to_nat (8 * Z.of_nat (length data) / 512))) st0 data 0 Hg0 Hd ltac:(lia)) as Hfb. rewrite Nat.sub_0_r in Hfb.
  pose proof (Nat.div_mod_eq (length data) 64) as Hdm. pose proof (Nat.mod_upper_bound (length data) 64 ltac:(lia)) as Hm.
  assert (Hq : Z.to_nat (8 * Z.of_nat (length data) / 512) = (length data / 64)%nat).
  { change 512 with (8 * 64). rewrite Z.div_mul_cancel_l by lia. rewrite <-(Nat2Z.inj_div _ 64). apply Nat2Z.id. }
  rewrite Hq in *. destruct Hfb as (st' & -> & Hg' & (S1 & S2 & S3) & E); [lia|]. cbn [mbind option_bind Nat.add].
  set (r := (length data mod 64)%nat) in *. rewrite drop_0 in E.
  destruct (Z.ltb_spec 0 (8 * Z.of_nat r)) as [Hr|Hr].
  - assert (El : Z.land (8 * Z.of_nat r) 7 = 0) by (change 7 with (Z.ones 3); rewrite Z.land_ones, Z.mul_comm by lia; apply Z.mod_mul; lia). rewrite El. cbn [Z.eqb].
    assert (En : Z.to_nat (Z.shiftr (Z.land (8 * Z.of_nat r) 0x1ff) 3) = r).
    { change 0x1ff with (Z.ones 9). rewrite Z.land_ones, Z.mod_small, Z.shiftr_div_pow2, Z.mul_comm by lia. rewrite Z.div_mul by lia. apply Nat2Z.id. }
    rewrite En. destruct (fill_ref st' 0 data (64 * (length data / 64)) r Hg' Hd ltac:(lia) ltac:(lia)) as [-> Hg2]. cbn [mbind option_bind].
    eexists. split; [done|]. split; [exact Hg2|]. cbn [set_size set_buffer hashbitlen databitlen datasize_in_buffer x buffer]. split; [exact S1|]. split; [exact S2|]. split; [done|]. split; [exact E|].
    pose proof (take_memcpy (buffer st') 0 (slice (64 * (length data / 64)) r data) ltac:(lia)) as Et. rewrite length_slice in Et by lia. cbn [Nat.add] in Et. rewrite Et. cbn [take app].
    unfold slice, leftover. apply take_ge. rewrite length_drop. lia.
  - exists st'. split; [done|]. split; [done|]. split; [exact S1|]. split; [exact S2|]. split; [rewrite S3; cbn [st0 datasize_in_buffer]; lia|]. split; [exact E|].
    assert (Hr0 : r = 0%nat) by lia. rewrite Hr0. unfold leftover. rewrite drop_ge by lia. done.
Qed.

Lemma zero_tail (b : list Z) r n :
  (r + n <= length b)%nat -> foldl (fun b i => <[i := 0]> b) b (seq r n) = take r b ++ replicate n 0 ++ drop (r + n) b.
Proof.
  induction n as [|n IH]; intros Hn; [rewrite Nat.add_0_r; cbn [seq foldl replicate app]; by rewrite take_drop|].
  rewrite seq_S, foldl_app, IH by lia. cbn [foldl]. destruct (drop (r + n) b) as [|v t] eqn:Ed; [apply (f_equal length) in Ed; rewrite length_drop in Ed; simpl in Ed; lia|].
  assert (Et : drop (r + S n) b = t) by (replace (r + S n)%nat with (r + n + 1)%nat by lia; by rewrite <-drop_drop, Ed). rewrite Et.
  assert (Hlt : length (take r b) = r) by (rewrite length_take; lia). rewrite insert_app_r_alt by lia. rewrite Hlt. replace (r + n - r)%nat with n by lia.
  f_equal. rewrite insert_app_r_alt by (rewrite length_replicate; lia). rewrite length_replicate, Nat.sub_diag. cbn. by rewrite (app_comm_cons (replicate n 0)), replicate_cons_app, <-app_assoc.
Qed.
Lemma put_length_zeros st : put_length st (replicate 64 0) = replicate 56 0 ++ be_store 8 (databitlen st).
Proof. unfold put_length. generalize (databitlen st). intros v. exact eq_refl. Qed.
Lemma put_length_one st : put_length st (<[0%nat := 0x80]> (replicate 64 0)) = 0x80 :: replicate 55 0 ++ be_store 8 (databitlen st).
Proof. unfold put_length. generalize (databitlen st). intros v. exact eq_refl. Qed.
Lemma clear_buffer st : good st -> memset0 (buffer st) 0 64 = replicate 64 0.
Proof. intros (_ & _ & Hl & _). unfold memset0. by rewrite take_memcpy_all by (rewrite length_replicate; lia). Qed.
Lemma be_store_16 v : 0 <= v < 2 ^ 64 -> be_store 16 v = replicate 8 0 ++ be_store 8 v.
Proof.
  intros Hv. rewrite (be_store_app 8 8). f_equal. rewrite Z.shiftr_div_pow2, Z.div_small by (change (8 * Z.of_nat 8) with 64; lia). apply be_store_0.
Qed.
Lemma good_buffer st b : good st -> length b = 64%nat -> bytes b -> good (set_buffer st b).
Proof. intros (H1 & H2 & _ & _) Hb Hl. done. Qed.
Lemma good_buffer_ref st b :
  good st -> length b = 64%nat -> bytes b ->
  good (F8 (set_buffer st b)) /\ Jh.state_bits (x (F8 (set_buffer st b))) = Jh.F8 (Jh.state_bits (x st)) b /\ hashbitlen (F8 (set_buffer st b)) = hashbitlen st /\
  databitlen (F8 (set_buffer st b)) = databitlen st.
Proof.
  intros Hg Hl Hb. destruct (F8_ref (set_buffer st b) (good_buffer st b Hg Hl Hb)) as (H1 & H2 & _ & H3 & H4 & _). exact (conj H1 (conj H2 (conj H3 H4))).
Qed.

Lemma Final_state st m h :
  good st -> bytes m -> databitlen st = 8 * Z.of_nat (length m) -> databitlen st < 2 ^ 64 -> datasize_in_buffer st = 8 * Z.of_nat (length m mod 64) ->
  Jh.state_bits (x st) = foldl Jh.F8 h (blocks 64 m) -> take (length m mod 64) (buffer st) = leftover 64 m ->
  good (pad_final st) /\ hashbitlen (pad_final st) = hashbitlen st /\ Jh.state_bits (x (pad_final st)) = foldl Jh.F8 h (blocks 64 (Jh.jh_pad m 0 0)).
Proof.
  intros Hg Hm Hdl HL Hds Es El. unfold pad_final. pose proof (Nat.div_mod_eq (length m) 64) as Hdm. pose proof (Nat.mod_upper_bound (length m) 64 ltac:(lia)) as Hr.
  unfold Jh.jh_pad. rewrite Z.add_0_r, <-Hdl. set (r := (length m mod 64)%nat) in *.
  assert (Eland : Z.land (databitlen st) 0x1ff = 8 * Z.of_nat r).
  { change 0x1ff with (Z.ones 9). rewrite Z.land_ones by lia. rewrite Hdl. symmetry. apply (Z.mod_unique _ _ (Z.of_nat (length m / 64))); lia. }
  rewrite Eland. rewrite be_store_16 by lia. change (last_bits 0 0) with 0x80.
  assert (Hll : length (leftover 64 m) = r) by (apply length_leftover; lia).
  assert (Hb8 : bytes (be_store 8 (databitlen st)) /\ length (be_store 8 (databitlen st)) = 8%nat) by (split; [apply bytes_be_store|apply length_be_store]). destruct Hb8 as [Hb8 Hl8].
  assert (Hz : forall k, bytes (replicate k 0)) by (intros k; by apply Forall_replicate, word_0).
  destruct (Z.eqb_spec (8 * Z.of_nat r) 0) as [E0|E0].
  - assert (Hr0 : r = 0%nat) by lia. rewrite Hr0 in *. cbn [Nat.eqb Z.eqb andb]. rewrite (clear_buffer st Hg), put_length_one.
    set (b := 0x80 :: replicate 55 0 ++ _). assert (Eb : b = 0x80 :: replicate 47 0 ++ replicate 8 0 ++ be_store 8 (databitlen st)) by done.
    assert (Hlb : length b = 64%nat) by (rewrite Eb; cbn [length]; rewrite !length_app, !length_replicate, Hl8; lia).
    assert (Hbb : bytes b) by (apply Forall_cons_2; [unfold word; lia|apply Forall_app_2; [apply Hz|done]]). rewrite <-Eb. clearbody b.
    destruct (good_buffer_ref st b Hg Hlb Hbb) as (G1 & G2 & G3 & _). split; [done|]. split; [done|]. rewrite G2, Es.
    rewrite blocks_app by (lia || exact Hr0). rewrite (blocks_one 64 b) by lia. rewrite foldl_app. exact eq_refl.
  - assert (Hrp : (0 < r)%nat) by lia. rewrite Hds.
    assert (En : Z.to_nat (Z.shiftr (8 * Z.of_nat r) 3) = r) by (rewrite Z.shiftr_div_pow2, Z.mul_comm by lia; rewrite Z.div_mul by lia; apply Nat2Z.id).
    assert (E7 : forall k, Z.land (8 * k) 7 = 0) by (intros k; change 7 with (Z.ones 3); rewrite Z.land_ones, Z.mul_comm by lia; apply Z.mod_mul; lia).
    rewrite En, E7. cbn [Z.eqb]. replace (Z.land (databitlen st) 7) with 0 by (rewrite Hdl; symmetry; apply E7). destruct Hg as (Hgx & Hgw & Hgl & Hgb). assert (Hg : good st) by done.
    rewrite zero_tail by lia. rewrite (drop_ge (buffer st)), app_nil_r, El by lia.
    set (b := <[r := _]> _). assert (Eb : b = leftover 64 m ++ 0x80 :: replicate (63 - r) 0).
    { unfold b. rewrite lookup_total_app_r, lookup_total_replicate_2 by (rewrite Hll; lia). change (T8 (Z.lor 0 (Z.shiftl 1 (7 - 0)))) with 0x80.
      rewrite insert_app_r_alt by lia. rewrite Hll, Nat.sub_diag. replace (64 - r)%nat with (S (63 - r)) by lia. done. }
    assert (Hlb : length b = 64%nat) by (rewrite Eb, length_app, Hll; cbn [length]; rewrite length_replicate; lia).
    assert (Hbb : bytes b) by (rewrite Eb; apply Forall_app_2; [by apply Forall_drop|apply Forall_cons_2; [unfold word; lia|apply Hz]]). clearbody b.
    destruct (good_buffer_ref st b Hg Hlb Hbb) as (G1 & G2 & G3 & G4). rewrite (clear_buffer _ G1), put_length_zeros, G4.
    set (b2 := replicate 56 0 ++ _). assert (Hlb2 : length b2 = 64%nat) by (unfold b2; rewrite length_app, length_replicate, Hl8; lia).
    assert (Hbb2 : bytes b2) by (apply Forall_app_2; [apply Hz|done]). set (st1 := F8 (set_buffer st b)) in *. clearbody st1.
    rewrite (proj2 (Nat.eqb_neq r 0)) by lia. cbn [andb].
    assert (Epad : 0x80 :: replicate (111 - r) 0 ++ replicate 8 0 ++ be_store 8 (databitlen st) = (0x80 :: replicate (63 - r) 0) ++ b2).
    { cbn [app]. unfold b2. generalize (be_store 8 (databitlen st)). intros X. rewrite !app_assoc, <-!replicate_add. by replace (111 - r + 8)%nat with (63 - r + 56)%nat by lia. }
    rewrite Epad. clearbody b2. destruct (good_buffer_ref st1 b2 G1 Hlb2 Hbb2) as (K1 & K2 & K3 & _). split; [done|]. split; [by rewrite K3|]. rewrite K2, G2, Es.
    rewrite blocks_last2 by (lia || (rewrite <-Eb; lia)). rewrite <-Eb, foldl_app. exact eq_refl.
Qed.

Definition H0_of (bitlen : Z) : list Z := if bitlen =? 224 then JH224_H0 else if bitlen =? 256 then JH256_H0 else if bitlen =? 384 then JH384_H0 else JH512_H0.
Lemma H0_ref :
  words JH224_H0 = Jh.IV224 /\ words JH256_H0 = Jh.IV256 /\ words JH384_H0 = Jh.IV384 /\ words JH512_H0 = Jh.IV512 /\
  words64 Jh.IV224 /\ words64 Jh.IV256 /\ words64 Jh.IV384 /\ words64 Jh.IV512.
Proof. split_and!; [vm_compute; reflexivity..| | | |]; apply word_list_dec; vm_compute; reflexivity. Qed.
Lemma store_upper (H : list Z) w :
  length H = 16%nat -> (w <= 16)%nat ->
  slice (64 + 4 * (16 - w)) (4 * w) (flat_map (le_store 8) H) = Jh.bytes_of (drop (1024 - 8 * (4 * w)) (Jh.state_bits H)).
Proof.
  intros Hl Hw. rewrite Jh.digest_bytes by done. unfold slice. rewrite <-drop_drop. do 2 f_equal.
  rewrite <-(take_drop 8 H) at 1. rewrite flat_map_app, drop_app_length'.
  2: { destruct (digest_words_gen (le_store 8) 8 (take 8 H)) as [-> _]; [intros v; split; [apply length_le_store|apply bytes_le_store]|]. rewrite length_take. lia. }
  do 16 (destruct H as [|? H]; [discriminate|]). destruct H; [|discriminate]. exact eq_refl.
Qed.
Lemma fill_short st at' data off n : (length data < off + n)%nat -> fill st at' data off n = None.
Proof. intros H. unfold fill. by rewrite (proj2 (Nat.leb_gt (off + n) (length data))). Qed.
(** [Update] with bytes in the buffer and a short piece copies up to the end of the
    buffer, past the end of the piece. *)
Lemma Update_overread st data :
  let dl := 8 * Z.of_nat (length data) in
  0 < datasize_in_buffer st -> datasize_in_buffer st mod 8 = 0 -> datasize_in_buffer st + dl < 512 -> Update st data dl = None.
Proof.
  intros dl H0 H8 Hlt. unfold Update. cbv zeta. cbn [datasize_in_buffer].
  assert (Ea : add64 (datasize_in_buffer st) dl = datasize_in_buffer st + dl) by (unfold add64; apply T64_id; unfold word, dl in *; lia).
  rewrite Ea, (proj2 (Z.ltb_lt 0 _)), (proj2 (Z.ltb_lt _ 512)) by done. cbn [andb].
  assert (El : Z.land dl 7 = 0) by (unfold dl; change 7 with (Z.ones 3); rewrite Z.land_ones, Z.mul_comm by lia; apply Z.mod_mul; lia). rewrite El. cbn [Z.eqb].
  rewrite Z.shiftr_div_pow2 by lia. set (have := Z.to_nat (datasize_in_buffer st / 2 ^ 3)).
  assert (Hh : Z.of_nat have = datasize_in_buffer st / 8) by (unfold have; rewrite Z2Nat.id; [done|apply Z.div_pos; lia]).
  assert (Hhave : (length data < 64 - have)%nat) by (pose proof (Z.div_mod (datasize_in_buffer st) 8 ltac:(lia)); unfold dl in *; lia).
  by rewrite fill_short by lia.
Qed.
#[local] Opaque Update Jh.jh_iv Jh.state_bits Jh.F8 words Jh.jh_pad Jh.bytes_of.
Lemma jh_hash_ref st k data :
  (k = 28 \/ k = 32 \/ k = 48 \/ k = 64)%nat -> length (buffer st) = 64%nat -> bytes (buffer st) -> bytes data -> 8 * Z.of_nat (length data) < 2 ^ 64 ->
  jh_hash st (8 * Z.of_nat k) data (8 * Z.of_nat (length data)) = Some (SUCCESS, Some (Jh.jh_digest k data 0 0)).
Proof.
  intros Hk Hbl Hbb Hd HL. destruct H0_ref as (W1 & W2 & W3 & W4 & V1 & V2 & V3 & V4). destruct Jh.jh_iv_ref as (I1 & I2 & I3 & I4).
  assert (Hiv : let iv := words (H0_of (8 * Z.of_nat k)) in length iv = 16%nat /\ words64 iv /\ Jh.state_bits iv = Jh.jh_iv k).
  { cbv zeta. destruct Hk as [->|[->|[->| ->]]].
    - change (H0_of _) with JH224_H0. rewrite W1. exact (conj eq_refl (conj V1 I1)).
    - change (H0_of _) with JH256_H0. rewrite W2. exact (conj eq_refl (conj V2 I2)).
    - change (H0_of _) with JH384_H0. rewrite W3. exact (conj eq_refl (conj V3 I3)).
    - change (H0_of _) with JH512_H0. rewrite W4. exact (conj eq_refl (conj V4 I4)). }
  cbv zeta in Hiv. destruct Hiv as (Hil & Hiw & His). unfold jh_hash. set (st0 := Init st _). assert (Hg0 : good st0) by exact (conj Hil (conj Hiw (conj Hbl Hbb))).
  destruct (Update_ref st0 data Hg0 Hd eq_refl eq_refl HL) as (st1 & EU & Hg1 & F1 & F2 & F3 & F4 & F5).
  destruct (Final_state st1 data (Jh.jh_iv k) Hg1 Hd F2 ltac:(lia) F3) as (Hg2 & F6 & F7); [rewrite F4; f_equal; exact His|exact F5|].
  assert (Hb : hashbitlen (pad_final st1) = 8 * Z.of_nat k) by (rewrite F6, F1; done).
  assert (Ed : (Final st1).2 = Some (Jh.jh_digest k data 0 0)).
  { destruct Hg2 as (Hl2 & _). unfold Jh.jh_digest. rewrite <-F7. clear - Hk Hb Hl2. unfold Final. cbn [snd]. set (s := pad_final st1) in *. clearbody s. rewrite Hb.
    destruct Hk as [->|[->|[->| ->]]]; cbn [Z.eqb Z.of_nat Pos.of_succ_nat Z.mul Pos.mul Pos.eqb Pos.succ].
    - exact (f_equal Some (store_upper (x s) 7 Hl2 ltac:(lia))).
    - exact (f_equal Some (store_upper (x s) 8 Hl2 ltac:(lia))).
    - exact (f_equal Some (store_upper (x s) 12 Hl2 ltac:(lia))).
    - exact (f_equal Some (store_upper (x s) 16 Hl2 ltac:(lia))). }
  rewrite EU. cbn [mbind option_bind]. rewrite Ed. destruct Hk as [->|[->|[->| ->]]]; exact eq_refl.
Qed.
End CnJh.
