(* ===== verification/CnGroestl.v ===== *)
(** * Groestl in CryptoNight ([crypto/cn/c_groestl.c], [groestl_tables.h]).

    A 32-bit implementation of Groestl-256: every column is a pair of words, one table of
    512 words holds the columns of the first table of [sph_groestl.c], the others are its
    rotations.  The host is little-endian.  A read past the end of the input has no result;
    neither have lengths of 2^31 bytes and more, which the code converts to [int]. *)
From S2P Require Import Prelude Stream NmAes SphCore GroestlTab Groestl.

Module CnGroestl.

Definition T : list Z := [
  0xa5f432c6; 0xc6a597f4; 0x84976ff8; 0xf884eb97; 0x99b05eee; 0xee99c7b0; 0x8d8c7af6; 0xf68df78c;
  0xd17e8ff; 0xff0de517; 0xbddc0ad6; 0xd6bdb7dc; 0xb1c816de; 0xdeb1a7c8; 0x54fc6d91; 0x915439fc;
  0x50f09060; 0x6050c0f0; 0x3050702; 0x2030405; 0xa9e02ece; 0xcea987e0; 0x7d87d156; 0x567dac87;
  0x192bcce7; 0xe719d52b; 0x62a613b5; 0xb56271a6; 0xe6317c4d; 0x4de69a31; 0x9ab559ec; 0xec9ac3b5;
  0x45cf408f; 0x8f4505cf; 0x9dbca31f; 0x1f9d3ebc; 0x40c04989; 0x894009c0; 0x879268fa; 0xfa87ef92;
  0x153fd0ef; 0xef15c53f; 0xeb2694b2; 0xb2eb7f26; 0xc940ce8e; 0x8ec90740; 0xb1de6fb; 0xfb0bed1d;
  0xec2f6e41; 0x41ec822f; 0x67a91ab3; 0xb3677da9; 0xfd1c435f; 0x5ffdbe1c; 0xea256045; 0x45ea8a25;
  0xbfdaf923; 0x23bf46da; 0xf7025153; 0x53f7a602; 0x96a145e4; 0xe496d3a1; 0x5bed769b; 0x9b5b2ded;
  0xc25d2875; 0x75c2ea5d; 0x1c24c5e1; 0xe11cd924; 0xaee9d43d; 0x3dae7ae9; 0x6abef24c; 0x4c6a98be;
  0x5aee826c; 0x6c5ad8ee; 0x41c3bd7e; 0x7e41fcc3; 0x206f3f5; 0xf502f106; 0x4fd15283; 0x834f1dd1;
  0x5ce48c68; 0x685cd0e4; 0xf4075651; 0x51f4a207; 0x345c8dd1; 0xd134b95c; 0x818e1f9; 0xf908e918;
  0x93ae4ce2; 0xe293dfae; 0x73953eab; 0xab734d95; 0x53f59762; 0x6253c4f5; 0x3f416b2a; 0x2a3f5441;
  0xc141c08; 0x80c1014; 0x52f66395; 0x955231f6; 0x65afe946; 0x46658caf; 0x5ee27f9d; 0x9d5e21e2;
  0x28784830; 0x30286078; 0xa1f8cf37; 0x37a16ef8; 0xf111b0a; 0xa0f1411; 0xb5c4eb2f; 0x2fb55ec4;
  0x91b150e; 0xe091c1b; 0x365a7e24; 0x2436485a; 0x9bb6ad1b; 0x1b9b36b6; 0x3d4798df; 0xdf3da547;
  0x266aa7cd; 0xcd26816a; 0x69bbf54e; 0x4e699cbb; 0xcd4c337f; 0x7fcdfe4c; 0x9fba50ea; 0xea9fcfba;
  0x1b2d3f12; 0x121b242d; 0x9eb9a41d; 0x1d9e3ab9; 0x749cc458; 0x5874b09c; 0x2e724634; 0x342e6872;
  0x2d774136; 0x362d6c77; 0xb2cd11dc; 0xdcb2a3cd; 0xee299db4; 0xb4ee7329; 0xfb164d5b; 0x5bfbb616;
  0xf601a5a4; 0xa4f65301; 0x4dd7a176; 0x764decd7; 0x61a314b7; 0xb76175a3; 0xce49347d; 0x7dcefa49;
  0x7b8ddf52; 0x527ba48d; 0x3e429fdd; 0xdd3ea142; 0x7193cd5e; 0x5e71bc93; 0x97a2b113; 0x139726a2;
  0xf504a2a6; 0xa6f55704; 0x68b801b9; 0xb96869b8; 0x0; 0x0; 0x2c74b5c1; 0xc12c9974;
  0x60a0e040; 0x406080a0; 0x1f21c2e3; 0xe31fdd21; 0xc8433a79; 0x79c8f243; 0xed2c9ab6; 0xb6ed772c;
  0xbed90dd4; 0xd4beb3d9; 0x46ca478d; 0x8d4601ca; 0xd9701767; 0x67d9ce70; 0x4bddaf72; 0x724be4dd;
  0xde79ed94; 0x94de3379; 0xd467ff98; 0x98d42b67; 0xe82393b0; 0xb0e87b23; 0x4ade5b85; 0x854a11de;
  0x6bbd06bb; 0xbb6b6dbd; 0x2a7ebbc5; 0xc52a917e; 0xe5347b4f; 0x4fe59e34; 0x163ad7ed; 0xed16c13a;
  0xc554d286; 0x86c51754; 0xd762f89a; 0x9ad72f62; 0x55ff9966; 0x6655ccff; 0x94a7b611; 0x119422a7;
  0xcf4ac08a; 0x8acf0f4a; 0x1030d9e9; 0xe910c930; 0x60a0e04; 0x406080a; 0x819866fe; 0xfe81e798;
  0xf00baba0; 0xa0f05b0b; 0x44ccb478; 0x7844f0cc; 0xbad5f025; 0x25ba4ad5; 0xe33e754b; 0x4be3963e;
  0xf30eaca2; 0xa2f35f0e; 0xfe19445d; 0x5dfeba19; 0xc05bdb80; 0x80c01b5b; 0x8a858005; 0x58a0a85;
  0xadecd33f; 0x3fad7eec; 0xbcdffe21; 0x21bc42df; 0x48d8a870; 0x7048e0d8; 0x40cfdf1; 0xf104f90c;
  0xdf7a1963; 0x63dfc67a; 0xc1582f77; 0x77c1ee58; 0x759f30af; 0xaf75459f; 0x63a5e742; 0x426384a5;
  0x30507020; 0x20304050; 0x1a2ecbe5; 0xe51ad12e; 0xe12effd; 0xfd0ee112; 0x6db708bf; 0xbf6d65b7;
  0x4cd45581; 0x814c19d4; 0x143c2418; 0x1814303c; 0x355f7926; 0x26354c5f; 0x2f71b2c3; 0xc32f9d71;
  0xe13886be; 0xbee16738; 0xa2fdc835; 0x35a26afd; 0xcc4fc788; 0x88cc0b4f; 0x394b652e; 0x2e395c4b;
  0x57f96a93; 0x93573df9; 0xf20d5855; 0x55f2aa0d; 0x829d61fc; 0xfc82e39d; 0x47c9b37a; 0x7a47f4c9;
  0xacef27c8; 0xc8ac8bef; 0xe73288ba; 0xbae76f32; 0x2b7d4f32; 0x322b647d; 0x95a442e6; 0xe695d7a4;
  0xa0fb3bc0; 0xc0a09bfb; 0x98b3aa19; 0x199832b3; 0xd168f69e; 0x9ed12768; 0x7f8122a3; 0xa37f5d81;
  0x66aaee44; 0x446688aa; 0x7e82d654; 0x547ea882; 0xabe6dd3b; 0x3bab76e6; 0x839e950b; 0xb83169e;
  0xca45c98c; 0x8cca0345; 0x297bbcc7; 0xc729957b; 0xd36e056b; 0x6bd3d66e; 0x3c446c28; 0x283c5044;
  0x798b2ca7; 0xa779558b; 0xe23d81bc; 0xbce2633d; 0x1d273116; 0x161d2c27; 0x769a37ad; 0xad76419a;
  0x3b4d96db; 0xdb3bad4d; 0x56fa9e64; 0x6456c8fa; 0x4ed2a674; 0x744ee8d2; 0x1e223614; 0x141e2822;
  0xdb76e492; 0x92db3f76; 0xa1e120c; 0xc0a181e; 0x6cb4fc48; 0x486c90b4; 0xe4378fb8; 0xb8e46b37;
  0x5de7789f; 0x9f5d25e7; 0x6eb20fbd; 0xbd6e61b2; 0xef2a6943; 0x43ef862a; 0xa6f135c4; 0xc4a693f1;
  0xa8e3da39; 0x39a872e3; 0xa4f7c631; 0x31a462f7; 0x37598ad3; 0xd337bd59; 0x8b8674f2; 0xf28bff86;
  0x325683d5; 0xd532b156; 0x43c54e8b; 0x8b430dc5; 0x59eb856e; 0x6e59dceb; 0xb7c218da; 0xdab7afc2;
  0x8c8f8e01; 0x18c028f; 0x64ac1db1; 0xb16479ac; 0xd26df19c; 0x9cd2236d; 0xe03b7249; 0x49e0923b;
  0xb4c71fd8; 0xd8b4abc7; 0xfa15b9ac; 0xacfa4315; 0x709faf3; 0xf307fd09; 0x256fa0cf; 0xcf25856f;
  0xafea20ca; 0xcaaf8fea; 0x8e897df4; 0xf48ef389; 0xe9206747; 0x47e98e20; 0x18283810; 0x10182028;
  0xd5640b6f; 0x6fd5de64; 0x888373f0; 0xf088fb83; 0x6fb1fb4a; 0x4a6f94b1; 0x7296ca5c; 0x5c72b896;
  0x246c5438; 0x3824706c; 0xf1085f57; 0x57f1ae08; 0xc7522173; 0x73c7e652; 0x51f36497; 0x975135f3;
  0x2365aecb; 0xcb238d65; 0x7c8425a1; 0xa17c5984; 0x9cbf57e8; 0xe89ccbbf; 0x21635d3e; 0x3e217c63;
  0xdd7cea96; 0x96dd377c; 0xdc7f1e61; 0x61dcc27f; 0x86919c0d; 0xd861a91; 0x85949b0f; 0xf851e94;
  0x90ab4be0; 0xe090dbab; 0x42c6ba7c; 0x7c42f8c6; 0xc4572671; 0x71c4e257; 0xaae529cc; 0xccaa83e5;
  0xd873e390; 0x90d83b73; 0x50f0906; 0x6050c0f; 0x103f4f7; 0xf701f503; 0x12362a1c; 0x1c123836;
  0xa3fe3cc2; 0xc2a39ffe; 0x5fe18b6a; 0x6a5fd4e1; 0xf910beae; 0xaef94710; 0xd06b0269; 0x69d0d26b;
  0x91a8bf17; 0x17912ea8; 0x58e87199; 0x995829e8; 0x2769533a; 0x3a277469; 0xb9d0f727; 0x27b94ed0;
  0x384891d9; 0xd938a948; 0x1335deeb; 0xeb13cd35; 0xb3cee52b; 0x2bb356ce; 0x33557722; 0x22334455;
  0xbbd604d2; 0xd2bbbfd6; 0x709039a9; 0xa9704990; 0x89808707; 0x7890e80; 0xa7f2c133; 0x33a766f2;
  0xb6c1ec2d; 0x2db65ac1; 0x22665a3c; 0x3c227866; 0x92adb815; 0x15922aad; 0x2060a9c9; 0xc9208960;
  0x49db5c87; 0x874915db; 0xff1ab0aa; 0xaaff4f1a; 0x7888d850; 0x5078a088; 0x7a8e2ba5; 0xa57a518e;
  0x8f8a8903; 0x38f068a; 0xf8134a59; 0x59f8b213; 0x809b9209; 0x980129b; 0x1739231a; 0x1a173439;
  0xda751065; 0x65daca75; 0x315384d7; 0xd731b553; 0xc651d584; 0x84c61351; 0xb8d303d0; 0xd0b8bbd3;
  0xc35edc82; 0x82c31f5e; 0xb0cbe229; 0x29b052cb; 0x7799c35a; 0x5a77b499; 0x11332d1e; 0x1e113c33;
  0xcb463d7b; 0x7bcbf646; 0xfc1fb7a8; 0xa8fc4b1f; 0xd6610c6d; 0x6dd6da61; 0x3a4e622c; 0x2c3a584e].

(** [x[i]] of an array of words seen as bytes. *)
Definition byte_at (x : list Z) (i : nat) : Z := T8 (Z.shiftr (x !!! (i / 4)%nat) (8 * Z.of_nat (i mod 4))).
Definition ROTATE_COLUMN_DOWN (v1 v2 amount_bytes : Z) : Z * Z :=
  let temp_var := Z.lor (shl32 v1 (8 * amount_bytes)) (Z.shiftr v2 (8 * (4 - amount_bytes))) in
  let v2 := Z.lor (shl32 v2 (8 * amount_bytes)) (Z.shiftr v1 (8 * (4 - amount_bytes))) in
  (temp_var, v2).
(** [T[2*x]] and [T[2*x+1]]. *)
Definition Tpair (x : Z) : Z * Z := (T !!! Z.to_nat (2 * x), T !!! Z.to_nat (2 * x + 1)).
Definition COLUMN (x : list Z) (c0 c1 c2 c3 c4 c5 c6 c7 : nat) : list Z :=
  let '(tu, tl) := Tpair (byte_at x (4 * c0 + 0)) in
  let '(tv1, tv2) := Tpair (byte_at x (4 * c1 + 1)) in
  let '(tv1, tv2) := ROTATE_COLUMN_DOWN tv1 tv2 1 in
  let '(tu, tl) := (Z.lxor tu tv1, Z.lxor tl tv2) in
  let '(tv1, tv2) := Tpair (byte_at x (4 * c2 + 2)) in
  let '(tv1, tv2) := ROTATE_COLUMN_DOWN tv1 tv2 2 in
  let '(tu, tl) := (Z.lxor tu tv1, Z.lxor tl tv2) in
  let '(tv1, tv2) := Tpair (byte_at x (4 * c3 + 3)) in
  let '(tv1, tv2) := ROTATE_COLUMN_DOWN tv1 tv2 3 in
  let '(tu, tl) := (Z.lxor tu tv1, Z.lxor tl tv2) in
  let '(tv1, tv2) := Tpair (byte_at x (4 * c4 + 0)) in
  let '(tl, tu) := (Z.lxor tl tv1, Z.lxor tu tv2) in
  let '(tv1, tv2) := Tpair (byte_at x (4 * c5 + 1)) in
  let '(tv1, tv2) := ROTATE_COLUMN_DOWN tv1 tv2 1 in
  let '(tl, tu) := (Z.lxor tl tv1, Z.lxor tu tv2) in
  let '(tv1, tv2) := Tpair (byte_at x (4 * c6 + 2)) in
  let '(tv1, tv2) := ROTATE_COLUMN_DOWN tv1 tv2 2 in
  let '(tl, tu) := (Z.lxor tl tv1, Z.lxor tu tv2) in
  let '(tv1, tv2) := Tpair (byte_at x (4 * c7 + 3)) in
  let '(tv1, tv2) := ROTATE_COLUMN_DOWN tv1 tv2 3 in
  let '(tl, tu) := (Z.lxor tl tv1, Z.lxor tu tv2) in
  [tu; tl].

(** The rounds change [x] in place and write all of [y]: both are returned.  Their
    callers write the array that was [x] again before they read it. *)
Definition xor_at (x : list Z) (i : nat) (v : Z) : list Z := <[i := Z.lxor (x !!! i) v]> x.
(** [x32[0] ^= 0x00000000^r; x32[2] ^= 0x00000010^r; ...]. *)
Definition add_P (x : list Z) (r : Z) : list Z :=
  let x := xor_at x 0 (Z.lxor 0x00000000 r) in
  let x := xor_at x 2 (Z.lxor 0x00000010 r) in
  let x := xor_at x 4 (Z.lxor 0x00000020 r) in
  let x := xor_at x 6 (Z.lxor 0x00000030 r) in
  let x := xor_at x 8 (Z.lxor 0x00000040 r) in
  let x := xor_at x 10 (Z.lxor 0x00000050 r) in
  let x := xor_at x 12 (Z.lxor 0x00000060 r) in
  xor_at x 14 (Z.lxor 0x00000070 r).
Definition RND512P (x : list Z) (r : Z) : list Z * list Z :=
  let x := add_P x r in
  (x, COLUMN x 0 2 4 6 9 11 13 15 ++ COLUMN x 2 4 6 8 11 13 15 1 ++
      COLUMN x 4 6 8 10 13 15 1 3 ++ COLUMN x 6 8 10 12 15 1 3 5 ++
      COLUMN x 8 10 12 14 1 3 5 7 ++ COLUMN x 10 12 14 0 3 5 7 9 ++
      COLUMN x 12 14 0 2 5 7 9 11 ++ COLUMN x 14 0 2 4 7 9 11 13).
Definition not_at (x : list Z) (i : nat) : list Z := <[i := not32 (x !!! i)]> x.
Definition add_Q (x : list Z) (r : Z) : list Z :=
  let x := not_at x 0 in let x := xor_at x 1 (Z.lxor 0xffffffff r) in
  let x := not_at x 2 in let x := xor_at x 3 (Z.lxor 0xefffffff r) in
  let x := not_at x 4 in let x := xor_at x 5 (Z.lxor 0xdfffffff r) in
  let x := not_at x 6 in let x := xor_at x 7 (Z.lxor 0xcfffffff r) in
  let x := not_at x 8 in let x := xor_at x 9 (Z.lxor 0xbfffffff r) in
  let x := not_at x 10 in let x := xor_at x 11 (Z.lxor 0xafffffff r) in
  let x := not_at x 12 in let x := xor_at x 13 (Z.lxor 0x9fffffff r) in
  let x := not_at x 14 in xor_at x 15 (Z.lxor 0x8fffffff r).
Definition RND512Q (x : list Z) (r : Z) : list Z * list Z :=
  let x := add_Q x r in
  (x, COLUMN x 2 6 10 14 1 5 9 13 ++ COLUMN x 4 8 12 0 3 7 11 15 ++
      COLUMN x 6 10 14 2 5 9 13 1 ++ COLUMN x 8 12 0 4 7 11 15 3 ++
      COLUMN x 10 14 2 6 9 13 1 5 ++ COLUMN x 12 0 4 8 11 15 3 7 ++
      COLUMN x 14 2 6 10 13 1 5 9 ++ COLUMN x 0 4 8 12 15 3 7 11).

(** [h] and [m] are arrays of 16 words. *)
Definition F512 (h m : list Z) : list Z :=
  let z := tabulate 16 (fun i => m !!! i) in
  let Ptmp := tabulate 16 (fun i => Z.lxor (h !!! i) (m !!! i)) in
  let y := (RND512Q z 0x00000000).2 in
  let z := (RND512Q y 0x01000000).2 in
  let y := (RND512Q z 0x02000000).2 in
  let z := (RND512Q y 0x03000000).2 in
  let y := (RND512Q z 0x04000000).2 in
  let z := (RND512Q y 0x05000000).2 in
  let y := (RND512Q z 0x06000000).2 in
  let z := (RND512Q y 0x07000000).2 in
  let y := (RND512Q z 0x08000000).2 in
  let Qtmp := (RND512Q y 0x09000000).2 in
  let y := (RND512P Ptmp 0x00000000).2 in
  let z := (RND512P y 0x00000001).2 in
  let y := (RND512P z 0x00000002).2 in
  let z := (RND512P y 0x00000003).2 in
  let y := (RND512P z 0x00000004).2 in
  let z := (RND512P y 0x00000005).2 in
  let y := (RND512P z 0x00000006).2 in
  let z := (RND512P y 0x00000007).2 in
  let y := (RND512P z 0x00000008).2 in
  let Ptmp := (RND512P y 0x00000009).2 in
  tabulate 16 (fun i => Z.lxor (h !!! i) (Z.lxor (Ptmp !!! i) (Qtmp !!! i))).

Record groestlHashState := mk_groestl {
  chaining : list Z; block_counter1 : Z; block_counter2 : Z;
  buffer : list Z; buf_ptr : nat; bits_in_last_byte : Z }.

(** [(uint32_t* )input] of a full block. *)
Definition words_of (input : list Z) : list Z := tabulate 16 (fun i => le_load 4 (slice (4 * i) 4 input)).
Definition count_block (ctx : groestlHashState) : groestlHashState :=
  let bc1 := T32 (block_counter1 ctx + 1) in
  mk_groestl (chaining ctx) bc1 (if bc1 =? 0 then T32 (block_counter2 ctx + 1) else block_counter2 ctx)
    (buffer ctx) (buf_ptr ctx) (bits_in_last_byte ctx).
Definition set_chaining (ctx : groestlHashState) (h : list Z) : groestlHashState :=
  mk_groestl h (block_counter1 ctx) (block_counter2 ctx) (buffer ctx) (buf_ptr ctx) (bits_in_last_byte ctx).
Definition set_buf (ctx : groestlHashState) (b : list Z) (p : nat) : groestlHashState :=
  mk_groestl (chaining ctx) (block_counter1 ctx) (block_counter2 ctx) b p (bits_in_last_byte ctx).
(** [msglen / 64] trips; what is left of the input and of [msglen] is returned by the
    caller's own arithmetic. *)
Fixpoint Transform (ctx : groestlHashState) (input : list Z) (trips : nat) : groestlHashState :=
  match trips with
  | O => ctx
  | Datatypes.S trips =>
      Transform (count_block (set_chaining ctx (F512 (chaining ctx) (words_of input)))) (drop 64 input) trips
  end.
Definition OutputTransformation (ctx : groestlHashState) : groestlHashState :=
  let temp := tabulate 16 (fun j => chaining ctx !!! j) in
  let y := (RND512P temp 0x00000000).2 in
  let z := (RND512P y 0x00000001).2 in
  let y := (RND512P z 0x00000002).2 in
  let z := (RND512P y 0x00000003).2 in
  let y := (RND512P z 0x00000004).2 in
  let z := (RND512P y 0x00000005).2 in
  let y := (RND512P z 0x00000006).2 in
  let z := (RND512P y 0x00000007).2 in
  let y := (RND512P z 0x00000008).2 in
  let temp := (RND512P y 0x00000009).2 in
  set_chaining ctx (tabulate 16 (fun j => Z.lxor (chaining ctx !!! j) (temp !!! j))).

Definition ROTL32 (v n : Z) : Z := Z.land (Z.lor (shl32 v n) (Z.shiftr v (32 - n))) 0xffffffff.
Definition u32BIG (a : Z) : Z := Z.lor (Z.land (ROTL32 a 8) 0x00FF00FF) (Z.land (ROTL32 a 24) 0xFF00FF00).
(** The buffer is not initialised. *)
Definition Init (junk : list Z) : groestlHashState :=
  mk_groestl (<[15%nat := u32BIG 256]> (replicate 16 0)) 0 0 junk 0 0.

(** [while (ctx->buf_ptr < SIZE512 && index < msglen) buffer[buf_ptr++] = input[index++]]:
    the buffer, the pointer and the bytes of the message that are left. *)
Fixpoint fill (buf : list Z) (ptr : nat) (msg : list Z) : list Z * nat * list Z :=
  match msg with
  | x :: msg' => if (ptr <? 64)%nat then fill (<[ptr := x]> buf) (Datatypes.S ptr) msg' else (buf, ptr, msg)
  | [] => (buf, ptr, [])
  end.
(** The bits of the last byte: [input[index]] with [index = msglen]. *)
Definition last_byte (ctx : groestlHashState) (last : Z) (rem : Z) : groestlHashState :=
  if rem =? 0 then ctx else
  mk_groestl (chaining ctx) (block_counter1 ctx) (block_counter2 ctx)
    (<[buf_ptr ctx := last]> (buffer ctx)) (Datatypes.S (buf_ptr ctx)) rem.
Definition Update (ctx : groestlHashState) (input : list Z) (databitlen : Z) : option groestlHashState :=
  let msglen := Z.to_nat (databitlen / 8) in
  let rem := databitlen mod 8 in
  if negb ((databitlen / 8 <? 2 ^ 31) && (msglen + (if Z.eqb rem 0 then 0 else 1) <=? length input)%nat) then None else
  let last := input !!! msglen in
  let msg := take msglen input in
  let direct ctx msg :=
    let k := (length msg / 64)%nat in
    let ctx := Transform ctx msg k in
    let '(buf, ptr, _) := fill (buffer ctx) (buf_ptr ctx) (drop (64 * k) msg) in
    last_byte (set_buf ctx buf ptr) last rem in
  if (buf_ptr ctx =? 0)%nat then Some (direct ctx msg) else
  let '(buf, ptr, msg) := fill (buffer ctx) (buf_ptr ctx) msg in
  if (ptr <? 64)%nat then Some (last_byte (set_buf ctx buf ptr) last rem) else
  let ctx := set_buf ctx buf 0 in
  Some (direct (Transform ctx (buffer ctx) 1) msg).

(** [while (ctx->buf_ptr < n) buffer[buf_ptr++] = 0]. *)
Definition zero_to (ctx : groestlHashState) (n : nat) : groestlHashState :=
  if (buf_ptr ctx <? n)%nat then set_buf ctx (memset0 (buffer ctx) (buf_ptr ctx) (n - buf_ptr ctx)) n else ctx.
(** [BILB] is [bits_in_last_byte]. *)
Definition pad_bit (ctx : groestlHashState) : groestlHashState :=
  let BILB := bits_in_last_byte ctx in
  if BILB =? 0 then set_buf ctx (<[buf_ptr ctx := 0x80]> (buffer ctx)) (Datatypes.S (buf_ptr ctx))
  else
    let i := (buf_ptr ctx - 1)%nat in
    let b := Z.land (buffer ctx !!! i) (Z.shiftl (Z.shiftl 1 BILB - 1) (8 - BILB)) in
    let b := Z.lxor b (Z.shiftl 1 (7 - BILB)) in
    mk_groestl (chaining ctx) (block_counter1 ctx) (block_counter2 ctx) (<[i := b]> (buffer ctx)) (buf_ptr ctx) 0.
Definition Final (ctx : groestlHashState) : groestlHashState * list Z :=
  let ctx := pad_bit ctx in
  let ctx := if (56 <? buf_ptr ctx)%nat
    then let ctx := zero_to ctx 64 in let ctx := Transform ctx (buffer ctx) 1 in set_buf ctx (buffer ctx) 0
    else ctx in
  let ctx := zero_to ctx 56 in
  let ctx := count_block ctx in
  let buf := memcpy (buffer ctx) 60 (be_store 4 (block_counter1 ctx)) in
  let buf := memcpy buf 56 (be_store 4 (block_counter2 ctx)) in
  let ctx := mk_groestl (chaining ctx) 0 0 buf 56 (bits_in_last_byte ctx) in
  let ctx := Transform ctx (buffer ctx) 1 in
  let ctx := OutputTransformation ctx in
  let output := drop 32 (flat_map (le_store 4) (chaining ctx)) in
  (set_buf (set_chaining ctx (memset0 (chaining ctx) 0 8)) (replicate 64 0) (buf_ptr ctx), output).

(** [junk] is the context on the stack before [Init]. *)
Definition groestl (junk : list Z) (data : list Z) (databitlen : Z) : option (list Z) :=
  context ← Update (Init junk) data databitlen;
  Some (Final context).2.

(** ** Pairs of words as the columns of the 64-bit code *)

Definition J (a b : Z) : Z := Z.lor a (Z.shiftl b 32).
Fixpoint join (x : list Z) : list Z :=
  match x with a :: b :: x => J a b :: join x | _ => [] end.

Lemma J_bits a b i : word 32 a -> word 32 b -> 0 <= i -> Z.testbit (J a b) i = if i <? 32 then Z.testbit a i else Z.testbit b (i - 32).
Proof.
  intros Ha Hb Hi. unfold J. rewrite Z.lor_spec, Z.shiftl_spec by lia. destruct (Z.ltb_spec i 32).
  - rewrite (Z.testbit_neg_r b) by lia. apply orb_false_r.
  - by rewrite (word_high 32 a i) by (lia || done).
Qed.
Lemma word_J a b : word 32 a -> word 32 b -> word 64 (J a b).
Proof.
  intros Ha Hb. apply word_bits; [lia|apply Z.lor_nonneg; split; [apply Ha|apply Z.shiftl_nonneg, Hb]|]. intros i Hi. rewrite J_bits by (done || lia).
  destruct (Z.ltb_spec i 32); [lia|]. apply (word_high 32); [lia|done|lia].
Qed.
Lemma J_lxor a b c d : word 32 a -> word 32 b -> word 32 c -> word 32 d -> J (Z.lxor a c) (Z.lxor b d) = Z.lxor (J a b) (J c d).
Proof.
  intros. apply Z.bits_inj'. intros i Hi. rewrite Z.lxor_spec, !J_bits by (done || by apply word_lxor). rewrite !Z.lxor_spec. by destruct (i <? 32).
Qed.
Lemma J_low a b t : word 32 a -> word 32 b -> (t < 4)%nat -> T8 (Z.shiftr a (8 * Z.of_nat t)) = Groestl.B64 true t (J a b).
Proof.
  intros Ha Hb Ht. rewrite Groestl.B64_T8 by (by apply word_J || lia). cbn [Groestl.pos]. unfold T8. apply Z.bits_inj'. intros i Hi.
  rewrite !Z.land_spec. change 255 with (Z.ones 8). rewrite Z.testbit_ones_nonneg by lia. destruct (Z.ltb_spec i 8); [|by rewrite !andb_false_r].
  rewrite !Z.shiftr_spec, J_bits by (done || lia). replace (i + 8 * Z.of_nat t <? 32) with true by (symmetry; apply Z.ltb_lt; lia). done.
Qed.
Lemma J_high a b t : word 32 a -> word 32 b -> (t < 4)%nat -> T8 (Z.shiftr b (8 * Z.of_nat t)) = Groestl.B64 true (4 + t) (J a b).
Proof.
  intros Ha Hb Ht. rewrite Groestl.B64_T8 by (by apply word_J || lia). cbn [Groestl.pos]. unfold T8. apply Z.bits_inj'. intros i Hi.
  rewrite !Z.land_spec. change 255 with (Z.ones 8). rewrite Z.testbit_ones_nonneg by lia. destruct (Z.ltb_spec i 8); [|by rewrite !andb_false_r].
  rewrite !Z.shiftr_spec, J_bits by (done || lia). replace (i + 8 * Z.of_nat (4 + t) <? 32) with false by (symmetry; apply Z.ltb_ge; lia). do 2 f_equal. lia.
Qed.
(** The bytes of a pair. *)
Lemma enc_J a b : word 32 a -> word 32 b -> Groestl.enc64e true (J a b) = le_store 4 a ++ le_store 4 b.
Proof.
  intros Ha Hb. apply list_eq_total; [by rewrite Groestl.length_enc64e, length_app, !length_le_store|]. rewrite Groestl.length_enc64e. intros i Hi.
  rewrite Groestl.enc64e_lookup by (by apply word_J || done). destruct (decide (i < 4)%nat).
  - rewrite lookup_total_app_l by (rewrite length_le_store; lia). unfold le_store. rewrite tabulate_lookup by done. by rewrite (J_low a b) by done.
  - rewrite lookup_total_app_r by (rewrite length_le_store; lia). rewrite length_le_store. unfold le_store. rewrite tabulate_lookup by lia.
    rewrite (J_high a b) by (done || lia). f_equal. lia.
Qed.

Lemma list2_ind {A} (P : list A -> Prop) : P [] -> (forall a, P [a]) -> (forall a b l, P l -> P (a :: b :: l)) -> forall l, P l.
Proof. intros H0 H1 H2 l. enough (P l /\ forall a, P (a :: l)) by tauto. induction l as [|a l [IH1 IH2]]; split; [done|apply H1|apply IH2|intros; by apply H2]. Qed.
Lemma join_words x : words32 x -> words64 (join x).
Proof.
  induction x as [| |a b x IH] using list2_ind; intros H; try constructor; apply list.Forall_cons in H as [Ha H]; apply list.Forall_cons in H as [Hb H];
    [by apply word_J|by apply IH].
Qed.
Lemma join_lookup x j : (2 * j + 1 < length x)%nat -> join x !!! j = J (x !!! (2 * j)%nat) (x !!! (2 * j + 1)%nat).
Proof.
  revert j. induction x as [| |a b x IH] using list2_ind; intros j Hj; [simpl in Hj; lia|simpl in Hj; lia|]. destruct j as [|j]; [done|].
  replace (2 * Datatypes.S j)%nat with (Datatypes.S (Datatypes.S (2 * j))) by lia. cbn [join]. simpl lookup_total. rewrite IH by (simpl in Hj; lia). done.
Qed.
Lemma length_join x n : length x = (2 * n)%nat -> length (join x) = n.
Proof. revert n. induction x as [|a|a b x IH] using list2_ind; intros n H; simpl in *; [lia|lia|]. destruct n as [|n]; [lia|]. rewrite (IH n) by lia. done. Qed.
Lemma matrix_join x n : length x = (2 * n)%nat -> words32 x -> Groestl.matrix true (join x) = flat_map (le_store 4) x.
Proof.
  revert n. induction x as [|a|a b x IH] using list2_ind; intros n Hl H; [done|simpl in Hl; lia|]. apply list.Forall_cons in H as [Ha H]; apply list.Forall_cons in H as [Hb H].
  cbn [join]. unfold Groestl.matrix in *. cbn [flat_map]. rewrite enc_J by done. rewrite <-app_assoc. do 2 f_equal. apply (IH (n - 1)%nat); [simpl in Hl; lia|done].
Qed.
Lemma join_zip x y : length x = length y -> words32 x -> words32 y -> join (zip_with Z.lxor x y) = zip_with Z.lxor (join x) (join y).
Proof.
  revert y. induction x as [|a|a b x IH] using list2_ind; intros y Hl Hx Hy; [done| |].
  - destruct y as [|c [|d y]]; done.
  - destruct y as [|c [|d y]]; [done|done|]. apply list.Forall_cons in Hx as [Ha Hx]; apply list.Forall_cons in Hx as [Hb Hx].
    apply list.Forall_cons in Hy as [Hc Hy]; apply list.Forall_cons in Hy as [Hd Hy]. cbn [zip_with join]. rewrite J_lxor by done. f_equal. apply IH; [by injection Hl|done|done].
Qed.
Lemma xor_words32 a b : words32 a -> words32 b -> words32 (zip_with Z.lxor a b).
Proof. intros Ha. revert b. induction Ha as [|x a Hx Ha IH]; intros b Hb; [constructor|]. destruct Hb; [constructor|]. cbn. constructor; [by apply word_lxor|by apply IH]. Qed.

(** ** The rounds *)

Definition swap (p : Z * Z) : Z * Z := (p.2, p.1).
Definition rot_pair (k : nat) (p : Z * Z) : Z * Z :=
  match k with
  | 0%nat => p | 1%nat => ROTATE_COLUMN_DOWN p.1 p.2 1 | 2%nat => ROTATE_COLUMN_DOWN p.1 p.2 2 | 3%nat => ROTATE_COLUMN_DOWN p.1 p.2 3
  | 4%nat => swap p | 5%nat => swap (ROTATE_COLUMN_DOWN p.1 p.2 1) | 6%nat => swap (ROTATE_COLUMN_DOWN p.1 p.2 2) | _ => swap (ROTATE_COLUMN_DOWN p.1 p.2 3)
  end.
Definition pair_ok (k : nat) : bool := all_bytes (fun x =>
  let p := rot_pair k (Tpair x) in
  (0 <=? p.1) && (p.1 <? 2 ^ 32) && (0 <=? p.2) && (p.2 <? 2 ^ 32) && (J p.1 p.2 =? Groestl.T true k !!! Z.to_nat x)).
Lemma pairs_ok : forallb pair_ok (seq 0 8) = true.
Proof. vm_compute. reflexivity. Qed.
Lemma pair_at k x : (k < 8)%nat -> word 8 x ->
  let p := rot_pair k (Tpair x) in word 32 p.1 /\ word 32 p.2 /\ J p.1 p.2 = Groestl.T true k !!! Z.to_nat x.
Proof.
  intros Hk Hx. pose proof (all_bytes_spec _ (Groestl.forallb_seq _ 8 k pairs_ok Hk) x Hx) as E. cbv zeta in *.
  rewrite !andb_true_iff, !Z.leb_le, !Z.ltb_lt, Z.eqb_eq in E. unfold word. tauto.
Qed.
#[local] Opaque Tpair ROTATE_COLUMN_DOWN Groestl.T.
Definition byte_of (x : list Z) (k b : nat) : Z := byte_at x (if (k <? 4)%nat then 4 * (2 * b) + k else 4 * (2 * b + 1) + (k - 4)).
Lemma byte_of_ref x k b : length x = 16%nat -> words32 x -> (b < 8)%nat -> (k < 8)%nat -> byte_of x k b = Groestl.B64 true k (join x !!! b).
Proof.
  intros Hl Hw Hb Hk. assert (W : forall i, word 32 (x !!! i)) by (intros; by apply words32_lookup).
  rewrite join_lookup by lia. unfold byte_of, byte_at.
  assert (Hd : forall a t, (t < 4)%nat -> ((4 * a + t) / 4 = a /\ (4 * a + t) mod 4 = t)%nat).
  { intros a t Ht. rewrite (Nat.mul_comm 4 a), Nat.div_add_l, Nat.div_small by lia. split; [lia|]. rewrite Nat.add_comm, Nat.Div0.mod_add. by apply Nat.mod_small. }
  destruct (Nat.ltb_spec k 4); [destruct (Hd (2 * b)%nat k ltac:(lia)) as [-> ->]|destruct (Hd (2 * b + 1)%nat (k - 4)%nat ltac:(lia)) as [-> ->]].
  - by apply J_low.
  - rewrite (J_high (x !!! (2 * b)%nat)) by (done || lia). f_equal. lia.
Qed.
Definition xor_pair (p q : Z * Z) : Z * Z := (Z.lxor p.1 q.1, Z.lxor p.2 q.2).
Definition good (p : Z * Z) (v : Z) : Prop := word 32 p.1 /\ word 32 p.2 /\ J p.1 p.2 = v.
Lemma good_xor p q v w : good p v -> good q w -> good (xor_pair p q) (Z.lxor v w).
Proof. intros (H1 & H2 & <-) (H3 & H4 & <-). split_and!; cbn; [by apply word_lxor|by apply word_lxor|by apply J_lxor]. Qed.
Lemma COLUMN_ref x b0 b1 b2 b3 b4 b5 b6 b7 : length x = 16%nat -> words32 x -> Forall (fun b => (b < 8)%nat) [b0; b1; b2; b3; b4; b5; b6; b7] ->
  exists p, COLUMN x (2 * b0) (2 * b1) (2 * b2) (2 * b3) (2 * b4 + 1) (2 * b5 + 1) (2 * b6 + 1) (2 * b7 + 1) = [p.1; p.2] /\
  good p (Groestl.RSTT true false (join x) b0 b1 b2 b3 b4 b5 b6 b7).
Proof.
  intros Hl Hw Hb. assert (G : forall k b, (k < 8)%nat -> (b < 8)%nat -> good (rot_pair k (Tpair (byte_of x k b))) (Groestl.elt true k (join x) k b)).
  { intros k b Hk Hb'. unfold Groestl.elt. rewrite <-byte_of_ref by done. apply pair_at; [done|apply word_T8]. }
  rewrite !list.Forall_cons in Hb. destruct Hb as (B0 & B1 & B2 & B3 & B4 & B5 & B6 & B7 & _).
  eexists (xor_pair (xor_pair (xor_pair (xor_pair (xor_pair (xor_pair (xor_pair (rot_pair 0 (Tpair (byte_of x 0 b0))) (rot_pair 1 (Tpair (byte_of x 1 b1))))
    (rot_pair 2 (Tpair (byte_of x 2 b2)))) (rot_pair 3 (Tpair (byte_of x 3 b3)))) (rot_pair 4 (Tpair (byte_of x 4 b4)))) (rot_pair 5 (Tpair (byte_of x 5 b5))))
    (rot_pair 6 (Tpair (byte_of x 6 b6)))) (rot_pair 7 (Tpair (byte_of x 7 b7)))). split.
  - unfold COLUMN, byte_of. cbn [Nat.ltb Nat.leb Nat.sub].
    destruct (Tpair (byte_at x (4 * (2 * b0) + 0))) as [p0 q0], (Tpair (byte_at x (4 * (2 * b1) + 1))) as [p1 q1], (Tpair (byte_at x (4 * (2 * b2) + 2))) as [p2 q2], (Tpair (byte_at x (4 * (2 * b3) + 3))) as [p3 q3].
    destruct (Tpair (byte_at x (4 * (2 * b4 + 1) + 0))) as [p4 q4], (Tpair (byte_at x (4 * (2 * b5 + 1) + 1))) as [p5 q5], (Tpair (byte_at x (4 * (2 * b6 + 1) + 2))) as [p6 q6], (Tpair (byte_at x (4 * (2 * b7 + 1) + 3))) as [p7 q7].
    cbn [rot_pair fst snd]. destruct (ROTATE_COLUMN_DOWN p1 q1 1), (ROTATE_COLUMN_DOWN p2 q2 2), (ROTATE_COLUMN_DOWN p3 q3 3), (ROTATE_COLUMN_DOWN p5 q5 1), (ROTATE_COLUMN_DOWN p6 q6 2), (ROTATE_COLUMN_DOWN p7 q7 3). exact eq_refl.
  - unfold Groestl.RSTT. repeat apply good_xor; apply G; done || lia.
Qed.

(** Every column of a round, side by side. *)
Lemma cg_columns_ref x (rows : list (list nat)) :
  length x = 16%nat -> words32 x -> Forall (fun row => length row = 8%nat /\ Forall (fun b => (b < 8)%nat) row) rows ->
  let y := flat_map (fun row => COLUMN x (2 * row !!! 0%nat) (2 * row !!! 1%nat) (2 * row !!! 2%nat) (2 * row !!! 3%nat)
    (2 * row !!! 4%nat + 1) (2 * row !!! 5%nat + 1) (2 * row !!! 6%nat + 1) (2 * row !!! 7%nat + 1)) rows in
  words32 y /\ length y = (2 * length rows)%nat /\
  join y = (fun row => Groestl.RSTT true false (join x) (row !!! 0%nat) (row !!! 1%nat) (row !!! 2%nat) (row !!! 3%nat)
    (row !!! 4%nat) (row !!! 5%nat) (row !!! 6%nat) (row !!! 7%nat)) <$> rows.
Proof.
  intros Hl Hw H. induction H as [|row rows [Hr Hb] _ (IH1 & IH2 & IH3)]; cbv zeta in *; [split_and!; [constructor|done|done]|].
  destruct (COLUMN_ref x (row !!! 0%nat) (row !!! 1%nat) (row !!! 2%nat) (row !!! 3%nat) (row !!! 4%nat) (row !!! 5%nat) (row !!! 6%nat) (row !!! 7%nat) Hl Hw) as (p & E & H1 & H2 & H3).
  { do 8 (destruct row as [|? row]; [done|]). by destruct row. }
  cbn [flat_map fmap list_fmap]. rewrite E. cbn [app join length]. rewrite IH2, IH3, H3. split_and!; [constructor; [exact H1|constructor; [exact H2|exact IH1]]|lia|done].
Qed.

Definition rows_P : list (list nat) := [[0;1;2;3;4;5;6;7]; [1;2;3;4;5;6;7;0]; [2;3;4;5;6;7;0;1]; [3;4;5;6;7;0;1;2];
  [4;5;6;7;0;1;2;3]; [5;6;7;0;1;2;3;4]; [6;7;0;1;2;3;4;5]; [7;0;1;2;3;4;5;6]]%nat.
Definition rows_Q : list (list nat) := [[1;3;5;7;0;2;4;6]; [2;4;6;0;1;3;5;7]; [3;5;7;1;2;4;6;0]; [4;6;0;2;3;5;7;1];
  [5;7;1;3;4;6;0;2]; [6;0;2;4;5;7;1;3]; [7;1;3;5;6;0;2;4]; [0;2;4;6;7;1;3;5]]%nat.
Lemma rows_ok rows : In rows [rows_P; rows_Q] -> Forall (fun row => length row = 8%nat /\ Forall (fun b => (b < 8)%nat) row) rows.
Proof. intros [<-|[<-|[]]]; repeat constructor. Qed.

Definition consts_ok : bool := forallb (fun r => forallb (fun j =>
  (Z.lxor (16 * Z.of_nat j) (Z.of_nat r) =? Groestl.PC64 true (16 * Z.of_nat j) (Z.of_nat r)) &&
  (J 0xffffffff (Z.lxor (0xffffffff - 0x10000000 * Z.of_nat j) (0x1000000 * Z.of_nat r)) =? Groestl.QC64 true (16 * Z.of_nat j) (Z.of_nat r)) &&
  (Z.lxor (0xffffffff - 0x10000000 * Z.of_nat j) (0x1000000 * Z.of_nat r) <? 2 ^ 32) && (0 <=? Z.lxor (0xffffffff - 0x10000000 * Z.of_nat j) (0x1000000 * Z.of_nat r)) &&
  (0 <=? Z.lxor (16 * Z.of_nat j) (Z.of_nat r)) && (Z.lxor (16 * Z.of_nat j) (Z.of_nat r) <? 2 ^ 32)) (seq 0 8)) (seq 0 10).
Lemma consts : consts_ok = true.
Proof. vm_compute. reflexivity. Qed.
Lemma const_at r j : (r < 10)%nat -> (j < 8)%nat ->
  let p := Z.lxor (16 * Z.of_nat j) (Z.of_nat r) in let q := Z.lxor (0xffffffff - 0x10000000 * Z.of_nat j) (0x1000000 * Z.of_nat r) in
  word 32 p /\ word 32 q /\ p = Groestl.PC64 true (16 * Z.of_nat j) (Z.of_nat r) /\ J 0xffffffff q = Groestl.QC64 true (16 * Z.of_nat j) (Z.of_nat r).
Proof.
  intros Hr Hj. pose proof (Groestl.forallb_seq _ 8 j (Groestl.forallb_seq _ 10 r consts Hr) Hj) as E. cbv beta zeta in *.
  rewrite !andb_true_iff, !Z.leb_le, !Z.ltb_lt, !Z.eqb_eq in E. unfold word. tauto.
Qed.
Definition cols (x : list Z) (f : nat -> Z) (g : nat -> Z) : list Z := flat_map (fun j => [Z.lxor (x !!! (2 * j)%nat) (f j); Z.lxor (x !!! (2 * j + 1)%nat) (g j)]) (seq 0 8).
Lemma cols_ref x f g (C : nat -> Z) : length x = 16%nat -> words32 x -> (forall j, (j < 8)%nat -> word 32 (f j) /\ word 32 (g j) /\ J (f j) (g j) = C j) ->
  words32 (cols x f g) /\ length (cols x f g) = 16%nat /\ join (cols x f g) = imap (fun u v => Z.lxor v (C u)) (join x).
Proof.
  intros Hl Hw H. assert (W : forall i, word 32 (x !!! i)) by (intros; by apply words32_lookup). unfold cols.
  split; [|split; [done|]].
  - apply Forall_flat_map, Forall_forall. intros j Hj%in_seq. destruct (H j ltac:(lia)) as (? & ? & _). constructor; [by apply word_lxor|]. constructor; [by apply word_lxor|constructor].
  - assert (E : forall j, (j < 8)%nat -> J (Z.lxor (x !!! (2 * j)%nat) (f j)) (Z.lxor (x !!! (2 * j + 1)%nat) (g j)) = Z.lxor (J (x !!! (2 * j)%nat) (x !!! (2 * j + 1)%nat)) (C j)).
    { intros j Hj. destruct (H j Hj) as (? & ? & <-). by apply J_lxor. }
    cbn [flat_map seq app join]. rewrite !E by lia. clear -Hl. do 16 (destruct x as [|? x]; [done|]). by destruct x.
Qed.
#[local] Opaque COLUMN Groestl.RSTT Groestl.PC64 Groestl.QC64 J.
Lemma add_P_ref x r : length x = 16%nat -> add_P x (Z.of_nat r) = cols x (fun j => Z.lxor (16 * Z.of_nat j) (Z.of_nat r)) (fun _ => 0).
Proof.
  intros Hl. do 16 (destruct x as [|? x]; [done|]). destruct x; [|done].
  unfold add_P, xor_at, cols. cbn [flat_map seq app]. rewrite !Z.lxor_0_r. exact eq_refl.
Qed.
Lemma add_Q_ref x r : length x = 16%nat ->
  add_Q x (0x1000000 * Z.of_nat r) = cols x (fun _ => 0xffffffff) (fun j => Z.lxor (0xffffffff - 0x10000000 * Z.of_nat j) (0x1000000 * Z.of_nat r)).
Proof.
  intros Hl. do 16 (destruct x as [|? x]; [done|]). destruct x; [|done].
  cbv -[Z.lxor Z.of_nat Z.mul Z.sub]. exact eq_refl.
Qed.
Lemma RND512P_ref x r : length x = 16%nat -> words32 x -> (r < 10)%nat ->
  let y := (RND512P x (Z.of_nat r)).2 in
  words32 y /\ length y = 16%nat /\ join y = Groestl.ROUND_SMALL_P true false (join x) (Z.of_nat r).
Proof.
  intros Hl Hw Hr. destruct (cols_ref x (fun j => Z.lxor (16 * Z.of_nat j) (Z.of_nat r)) (fun _ => 0) (fun j => Groestl.PC64 true (16 * Z.of_nat j) (Z.of_nat r)) Hl Hw
    (fun j Hj => match const_at r j Hr Hj with conj P (conj _ (conj E _)) => conj P (conj (word_0 32 ltac:(lia)) (eq_trans (Z.lor_0_r _) E)) end)) as (Hw' & Hl' & E').
  rewrite <-add_P_ref in Hw', Hl', E' by done. unfold RND512P. cbv zeta. cbn [snd]. generalize dependent (add_P x (Z.of_nat r)). intros x' Hw' Hl' E'.
  destruct (cg_columns_ref x' rows_P Hl' Hw' (rows_ok rows_P (or_introl eq_refl))) as (W & L & E). unfold rows_P in W, L, E. cbn [flat_map] in W, L, E. rewrite app_nil_r in W, L, E.
  cbv zeta in *. split; [exact W|]. split; [exact L|]. refine (eq_trans E _). rewrite E'. exact eq_refl.
Qed.
Lemma word_ones : word 32 0xffffffff.
Proof. unfold word. lia. Qed.
Lemma RND512Q_ref x r : length x = 16%nat -> words32 x -> (r < 10)%nat ->
  let y := (RND512Q x (0x1000000 * Z.of_nat r)).2 in
  words32 y /\ length y = 16%nat /\ join y = Groestl.ROUND_SMALL_Q true false (join x) (Z.of_nat r).
Proof.
  intros Hl Hw Hr. destruct (cols_ref x (fun _ => 0xffffffff) (fun j => Z.lxor (0xffffffff - 0x10000000 * Z.of_nat j) (0x1000000 * Z.of_nat r)) (fun j => Groestl.QC64 true (16 * Z.of_nat j) (Z.of_nat r)) Hl Hw
    (fun j Hj => match const_at r j Hr Hj with conj _ (conj P (conj _ E)) => conj word_ones (conj P E) end)) as (Hw' & Hl' & E').
  rewrite <-add_Q_ref in Hw', Hl', E' by done. unfold RND512Q. cbv zeta. cbn [snd]. generalize dependent (add_Q x (0x1000000 * Z.of_nat r)). intros x' Hw' Hl' E'.
  destruct (cg_columns_ref x' rows_Q Hl' Hw' (rows_ok rows_Q (or_intror (or_introl eq_refl)))) as (W & L & E). unfold rows_Q in W, L, E. cbn [flat_map] in W, L, E. rewrite app_nil_r in W, L, E.
  cbv zeta in *. split; [exact W|]. split; [exact L|]. refine (eq_trans E _). rewrite E'. exact eq_refl.
Qed.

(** ** The compression function *)

#[local] Opaque RND512P RND512Q Groestl.ROUND_SMALL_P Groestl.ROUND_SMALL_Q.
Definition P10 (x : list Z) : list Z := foldl (fun x r => (RND512P x r).2) x [0; 1; 2; 3; 4; 5; 6; 7; 8; 9].
Definition Q10 (x : list Z) : list Z := foldl (fun x r => (RND512Q x (0x1000000 * r)).2) x [0; 1; 2; 3; 4; 5; 6; 7; 8; 9].
Definition state_ok (x : list Z) : Prop := length x = 16%nat /\ words32 x.
Lemma cn_rounds_ref (f : list Z -> Z -> list Z) (g : list Z -> Z -> list Z) x n :
  (forall x r, state_ok x -> (r < 10)%nat -> state_ok (f x (Z.of_nat r)) /\ join (f x (Z.of_nat r)) = g (join x) (Z.of_nat r)) -> state_ok x -> (n <= 10)%nat ->
  state_ok (foldl f x (Z.of_nat <$> seq 0 n)) /\ join (foldl f x (Z.of_nat <$> seq 0 n)) = foldl g (join x) (Z.of_nat <$> seq 0 n).
Proof.
  intros H Hx. induction n as [|n IH]; intros Hn; [done|]. rewrite seq_S, fmap_app, !foldl_app. cbn [fmap list_fmap foldl Nat.add].
  destruct IH as [H1 H2]; [lia|]. rewrite <-H2. apply H; [done|lia].
Qed.
Lemma P10_ref x : state_ok x -> state_ok (P10 x) /\ join (P10 x) = Groestl.PERM_SMALL_P true false (join x).
Proof.
  intros Hx. refine (cn_rounds_ref (fun x r => (RND512P x r).2) (Groestl.ROUND_SMALL_P true false) x 10 _ Hx (le_n 10)).
  intros z r [Hl Hw] Hr. destruct (RND512P_ref z r Hl Hw Hr) as (W & L & E). done.
Qed.
Lemma Q10_ref x : state_ok x -> state_ok (Q10 x) /\ join (Q10 x) = Groestl.PERM_SMALL_Q true false (join x).
Proof.
  intros Hx. refine (cn_rounds_ref (fun x r => (RND512Q x (0x1000000 * r)).2) (Groestl.ROUND_SMALL_Q true false) x 10 _ Hx (le_n 10)).
  intros z r [Hl Hw] Hr. destruct (RND512Q_ref z r Hl Hw Hr) as (W & L & E). done.
Qed.
Lemma F512_eq h m : F512 h m
  = tabulate 16 (fun i => Z.lxor (h !!! i) (Z.lxor (P10 (tabulate 16 (fun i => Z.lxor (h !!! i) (m !!! i))) !!! i) (Q10 (tabulate 16 (fun i => m !!! i)) !!! i))).
Proof. exact eq_refl. Qed.
#[local] Opaque P10 Q10.
Lemma state_xor a b : state_ok a -> state_ok b -> state_ok (zip_with Z.lxor a b) /\ join (zip_with Z.lxor a b) = zip_with Z.lxor (join a) (join b).
Proof. intros [La Wa] [Lb Wb]. split; [split; [rewrite length_zip_with; lia|by apply xor_words32]|]. apply join_zip; [lia|done|done]. Qed.
Lemma tabulate_lookups (m : list Z) n : length m = n -> tabulate n (fun i => m !!! i) = m.
Proof. intros <-. apply tabulate_id. Qed.

Lemma words_of_ref b : bytes b -> length b = 64%nat -> state_ok (words_of b) /\ Groestl.matrix true (join (words_of b)) = b.
Proof.
  intros Hb Hl. assert (W : words32 (words_of b)) by (apply Forall_tabulate; intros i _; apply (word_le_load 4); by apply Forall_slice).
  split; [split; [done|exact W]|]. rewrite (matrix_join _ 8) by done.
  unfold words_of, tabulate. cbn [seq fmap list_fmap flat_map].
  assert (E : forall i, (i < 16)%nat -> le_store 4 (le_load 4 (slice (4 * i) 4 b)) = slice (4 * i) 4 b).
  { intros i Hi. assert (Hls : length (slice (4 * i) 4 b) = 4%nat) by (apply length_slice; lia).
    pose proof (le_store_load _ (Forall_slice _ (4 * i) 4 b Hb)) as E. by rewrite Hls in E. }
  rewrite !E by lia. clear -Hl. do 64 (destruct b as [|? b]; [done|]). by destruct b.
Qed.
Lemma F512_ref h b : state_ok h -> bytes b -> length b = 64%nat ->
  state_ok (F512 h (words_of b)) /\
  Groestl.matrix true (join (F512 h (words_of b))) = Groestl.f_compress 8 (Groestl.matrix true (join h)) b.
Proof.
  intros Hh Hb Hl. destruct (words_of_ref b Hb Hl) as [Hm Em]. set (m := words_of b) in *. rewrite F512_eq.
  rewrite (tabulate_lookups m 16) by apply Hm. rewrite (Groestl.tabulate_xor 16 h m) by (apply Hh || apply Hm).
  destruct (state_xor h m Hh Hm) as [Hg Eg]. destruct (P10_ref _ Hg) as [Hp Ep]. destruct (Q10_ref _ Hm) as [Hq Eq].
  set (p := P10 _) in *. set (q := Q10 m) in *. destruct (state_xor p q Hp Hq) as [Hpq Epq]. destruct (state_xor h _ Hh Hpq) as [Hr Er].
  rewrite <-(Groestl.tabulate_xor 16 p q) in Hpq, Epq, Hr, Er by (apply Hp || apply Hq).
  rewrite <-(Groestl.tabulate_xor 16 h) in Hr, Er by (apply Hh || apply Hpq).
  assert (E : tabulate 16 (fun i => Z.lxor (h !!! i) (Z.lxor (p !!! i) (q !!! i))) = tabulate 16 (fun i => Z.lxor (h !!! i) (tabulate 16 (fun i => Z.lxor (p !!! i) (q !!! i)) !!! i))).
  { apply map_ext_in. intros i Hi%in_seq. by rewrite tabulate_lookup by lia. }
  rewrite E. split; [exact Hr|]. rewrite Er, Epq, Ep, Eq, Eg.
  assert (Wh : words64 (join h)) by (apply join_words, Hh). assert (Lh : length (join h) = 8%nat) by (apply length_join, Hh).
  assert (Wm : words64 (join m)) by (apply join_words, Hm). assert (Lm : length (join m) = 8%nat) by (apply length_join, Hm).
  destruct (Groestl.PERM_ref false false true false (zip_with Z.lxor (join h) (join m))) as (W1 & L1 & E1); [by apply Groestl.xor_words64|rewrite length_zip_with; simpl; lia|].
  destruct (Groestl.PERM_ref false true true false (join m) Wm Lm) as (W2 & L2 & E2). cbn [Groestl.PERM Groestl.ncols] in *.
  rewrite !Groestl.matrix_xor by (rewrite ?length_zip_with, ?L1, ?L2; lia). rewrite E1, E2, Groestl.matrix_xor, Em by lia.
  unfold Groestl.f_compress. apply Groestl.xor_all_comm.
Qed.
Lemma Output_ref ctx : state_ok (chaining ctx) ->
  state_ok (chaining (OutputTransformation ctx)) /\
  Groestl.matrix true (join (chaining (OutputTransformation ctx))) = Groestl.omega 8 (Groestl.matrix true (join (chaining ctx))).
Proof.
  intros Hh. assert (E : chaining (OutputTransformation ctx) = zip_with Z.lxor (chaining ctx) (P10 (chaining ctx))).
  { transitivity (tabulate 16 (fun j => Z.lxor (chaining ctx !!! j) (P10 (tabulate 16 (fun j => chaining ctx !!! j)) !!! j))); [exact eq_refl|].
    rewrite (tabulate_lookups _ 16) by apply Hh. apply Groestl.tabulate_xor; [apply Hh|apply P10_ref, Hh]. }
  destruct (P10_ref _ Hh) as [Hp Ep]. rewrite E. destruct (state_xor _ _ Hh Hp) as [Hr Er]. split; [exact Hr|]. rewrite Er, Ep.
  assert (Wh : words64 (join (chaining ctx))) by (apply join_words, Hh). assert (Lh : length (join (chaining ctx)) = 8%nat) by (apply length_join, Hh).
  destruct (Groestl.PERM_ref false false true false _ Wh Lh) as (W1 & L1 & E1). cbn [Groestl.PERM Groestl.ncols] in *.
  rewrite Groestl.matrix_xor, E1 by lia. apply Groestl.xor_all_comm.
Qed.

(** ** Blocks *)

Definition iv : list Z := replicate 62 0 ++ be_store 2 256.
(** The chaining value after the blocks [bs], and their number. *)
Definition after (ctx : groestlHashState) (bs : list (list Z)) : Prop :=
  state_ok (chaining ctx) /\ Groestl.matrix true (join (chaining ctx)) = foldl (Groestl.f_compress 8) iv bs /\
  block_counter1 ctx = Z.of_nat (length bs) /\ block_counter2 ctx = 0.
Lemma after_block ctx bs b : after ctx bs -> bytes b -> length b = 64%nat -> Z.of_nat (length bs) < 2 ^ 32 - 1 ->
  after (count_block (set_chaining ctx (F512 (chaining ctx) (words_of b)))) (bs ++ [b]).
Proof.
  intros (Hs & Em & E1 & E2) Hb Hl Hn. destruct (F512_ref _ b Hs Hb Hl) as [Hs' Em'].
  unfold after, count_block, set_chaining. cbn [chaining block_counter1 block_counter2]. rewrite foldl_app, length_app, E1, E2, Nat2Z.inj_add. cbn [foldl length].
  rewrite T32_id by (unfold word; lia). replace (Z.of_nat (length bs) + 1 =? 0) with false by (symmetry; apply Z.eqb_neq; lia).
  split_and!; [exact Hs'|by rewrite Em', Em|done|done].
Qed.
Lemma words_of_take input : words_of (take 64 input) = words_of input.
Proof.
  unfold words_of. apply map_ext_in. intros i Hi%in_seq. f_equal. unfold slice. rewrite !take_drop_commute, take_take. do 2 f_equal. lia.
Qed.
Lemma Transform_ref ctx input k bs : after ctx bs -> bytes input -> (64 * k <= length input)%nat -> Z.of_nat (length bs + k) < 2 ^ 32 ->
  let ctx' := Transform ctx input k in
  after ctx' (bs ++ nblocks 64 k input) /\ buffer ctx' = buffer ctx /\ buf_ptr ctx' = buf_ptr ctx /\ bits_in_last_byte ctx' = bits_in_last_byte ctx.
Proof.
  revert ctx input bs. induction k as [|k IH]; intros ctx input bs Ha Hb Hl Hn; cbv zeta; [cbn; by rewrite app_nil_r|]. cbn [Transform nblocks].
  rewrite <-words_of_take. pose proof (after_block ctx bs (take 64 input) Ha (Forall_take _ _ _ Hb) ltac:(rewrite length_take; lia) ltac:(lia)) as Ha'.
  destruct (IH _ (drop 64 input) _ Ha' (Forall_drop _ _ _ Hb)) as (I1 & I2 & I3 & I4); [rewrite length_drop; lia|rewrite length_app; simpl; lia|].
  rewrite I2, I3, I4. rewrite <-app_assoc in I1. done.
Qed.

(** ** Padding *)

Lemma cg_fill_ref buf ptr msg : (ptr + length msg <= 64)%nat -> length buf = 64%nat ->
  fill buf ptr msg = (memcpy buf ptr msg, (ptr + length msg)%nat, []).
Proof.
  revert buf ptr. induction msg as [|x msg IH]; intros buf ptr Hp Hb; cbn [fill length] in *.
  { rewrite Nat.add_0_r. f_equal. f_equal. unfold memcpy. cbn. rewrite Nat.add_0_r. symmetry. apply take_drop. }
  replace (ptr <? 64)%nat with true by (symmetry; apply Nat.ltb_lt; lia). rewrite IH by (rewrite ?length_insert; lia). f_equal. f_equal; [|lia].
  unfold memcpy. cbn [app length]. rewrite (take_S_r _ _ x) by (apply list_lookup_insert_eq; lia). rewrite take_insert_ge by lia. rewrite <-app_assoc. cbn [app]. do 3 f_equal.
  rewrite drop_insert_lt by lia. f_equal. lia.
Qed.

(** The context when [Final] starts to pad: the bytes [p] wait, the last one holds the
    last bits and the one bit. *)
Definition waiting (ctx : groestlHashState) (p : list Z) : Prop :=
  length (buffer ctx) = 64%nat /\ take (buf_ptr ctx) (buffer ctx) = p /\ buf_ptr ctx = length p.
Lemma zero_to_ref ctx p n : waiting ctx p -> (length p <= n <= 64)%nat ->
  waiting (zero_to ctx n) (p ++ replicate (n - length p) 0) /\ chaining (zero_to ctx n) = chaining ctx /\
  block_counter1 (zero_to ctx n) = block_counter1 ctx /\ block_counter2 (zero_to ctx n) = block_counter2 ctx.
Proof.
  intros (Hl & Ht & Hp) Hn. unfold zero_to. rewrite Hp. destruct (Nat.ltb_spec (length p) n) as [Hlt|Hge].
  - split; [|done]. unfold waiting, set_buf, memset0. cbn [buffer buf_ptr]. rewrite length_memcpy by (rewrite length_replicate; lia). split_and!; [done| |rewrite length_app, length_replicate; lia].
    rewrite (Groestl.take_memcpy_at _ (length p)) by (rewrite ?length_replicate; lia). f_equal. rewrite <-Hp. exact Ht.
  - split; [|done]. replace (n - length p)%nat with 0%nat by lia. cbn [replicate]. rewrite app_nil_r. done.
Qed.
(** The tail of [Final]: [p] and zeros to byte 56, then the block number. *)
Definition finish (ctx : groestlHashState) : list Z :=
  let ctx := count_block (zero_to ctx 56) in
  let buf := memcpy (buffer ctx) 60 (be_store 4 (block_counter1 ctx)) in
  let buf := memcpy buf 56 (be_store 4 (block_counter2 ctx)) in
  let ctx := mk_groestl (chaining ctx) 0 0 buf 56 (bits_in_last_byte ctx) in
  drop 32 (flat_map (le_store 4) (chaining (OutputTransformation (Transform ctx buf 1)))).
Lemma after_counters ctx bs a b c d e : after ctx bs ->
  state_ok (chaining (mk_groestl (chaining ctx) a b c d e)) /\ Groestl.matrix true (join (chaining (mk_groestl (chaining ctx) a b c d e))) = foldl (Groestl.f_compress 8) iv bs.
Proof. intros (H1 & H2 & _). done. Qed.
Lemma finish_ref ctx bs p : after ctx bs -> waiting ctx p -> bytes p -> (length p <= 56)%nat -> Z.of_nat (length bs) < 2 ^ 32 - 1 ->
  finish ctx = drop 32 (Groestl.omega 8 (foldl (Groestl.f_compress 8) iv (bs ++ [p ++ replicate (56 - length p) 0 ++ be_store 8 (Z.of_nat (length bs + 1))]))).
Proof.
  intros (Hs & Em & E1 & E2) Hw Hp Hl Hn. destruct (zero_to_ref ctx p 56 Hw ltac:(lia)) as ((Hzl & Hzt & Hzp) & Ec & Eb1 & Eb2).
  unfold finish. cbv zeta. unfold count_block. cbn [chaining block_counter1 block_counter2 buffer bits_in_last_byte]. rewrite Eb1, Eb2, E1, E2, Ec.
  rewrite T32_id by (unfold word; lia). replace (Z.of_nat (length bs) + 1 =? 0) with false by (symmetry; apply Z.eqb_neq; lia).
  set (buf := memcpy (memcpy _ 60 _) 56 _).
  assert (Eb : buf = p ++ replicate (56 - length p) 0 ++ be_store 8 (Z.of_nat (length bs + 1))).
  { rewrite app_assoc. assert (Hlp : length (p ++ replicate (56 - length p) 0) = 56%nat) by (rewrite length_app, length_replicate; lia). rewrite Hlp in Hzp. rewrite <-Hzt, Hzp in *.
    change 8%nat with (4 + 4)%nat. rewrite (be_store_app 4 4). rewrite Z.shiftr_div_pow2, Z.div_small by (change (2 ^ (8 * Z.of_nat 4)) with (2 ^ 32); lia).
    unfold buf, memcpy. rewrite !length_be_store. rewrite (take_app_le (take 60 _)) by (rewrite length_take; lia). rewrite take_take, Nat.min_l by lia. f_equal. f_equal.
    rewrite drop_app_length' by (rewrite length_take; lia). rewrite drop_ge by lia. rewrite app_nil_r. f_equal. lia. }
  clearbody buf. subst buf. set (b := p ++ _). assert (Hlb : length b = 64%nat) by (unfold b; rewrite !length_app, length_replicate, length_be_store; lia).
  assert (Hbb : bytes b) by (unfold b; repeat apply Forall_app_2; [done|apply Forall_replicate; by apply word_0|apply bytes_be_store]).
  cbn [Transform]. unfold count_block at 1, set_chaining at 1. destruct (F512_ref _ b Hs Hbb Hlb) as [Hs' Em']. cbn [chaining].
  match goal with |- context [OutputTransformation ?c] => destruct (Output_ref c Hs') as [Ho Eo]; cbn [chaining] in Eo end.
  rewrite <-(matrix_join _ 8) by apply Ho. rewrite Eo, Em', Em, foldl_app. done.
Qed.

(** What [Update] leaves of a message: its full blocks are compressed, the rest and the
    byte with the last [n] bits wait. *)
Definition updated (ctx : groestlHashState) (m : list Z) (ub n : Z) : Prop :=
  after ctx (blocks 64 m) /\ length (buffer ctx) = 64%nat /\ bits_in_last_byte ctx = n /\
  (if n =? 0 then buf_ptr ctx = length (leftover 64 m) /\ take (buf_ptr ctx) (buffer ctx) = leftover 64 m
   else buf_ptr ctx = Datatypes.S (length (leftover 64 m)) /\ take (buf_ptr ctx) (buffer ctx) = leftover 64 m ++ [ub]).
Lemma Init_after junk : after (Init junk) [].
Proof. split_and!; [split; [done|]; apply Forall_forall; intros x Hx; simpl in Hx; repeat (destruct Hx as [<-|Hx]; [unfold word; vm_compute; split; congruence|]); done|vm_compute; reflexivity|done|done]. Qed.
Lemma cg_Update_ref junk data L n : length junk = 64%nat -> bytes data -> 0 <= n < 8 -> Z.of_nat L < 2 ^ 31 ->
  (L + (if Z.eqb n 0 then 0 else 1) <= length data)%nat ->
  exists ctx, Update (Init junk) data (8 * Z.of_nat L + n) = Some ctx /\ updated ctx (take L data) (data !!! L) n.
Proof.
  intros Hj Hb Hn HL Hd. unfold Update. replace ((8 * Z.of_nat L + n) / 8) with (Z.of_nat L) by (apply (Z.div_unique _ _ _ n); lia).
  replace ((8 * Z.of_nat L + n) mod 8) with n by (apply (Z.mod_unique _ _ (Z.of_nat L)); lia).
  rewrite Nat2Z.id. replace (Z.of_nat L <? 2 ^ 31) with true by (symmetry; apply Z.ltb_lt; lia). replace (L + _ <=? length data)%nat with true by (symmetry; apply Nat.leb_le; exact Hd).
  cbn [andb negb]. change (buf_ptr (Init junk) =? 0)%nat with true. cbv iota zeta. set (m := take L data). assert (Hm : length m = L) by (unfold m; rewrite length_take; lia).
  assert (Hbm : bytes m) by by apply Forall_take. pose proof (Nat.Div0.mul_div_le (length m) 64) as Hdiv.
  assert (Hblk : (length m / 64 <= length m)%nat) by (apply Nat.Div0.div_le_upper_bound; lia).
  destruct (Transform_ref (Init junk) m (length m / 64) [] (Init_after junk) Hbm ltac:(lia)) as (Ha & Eb & Ep & El); [cbn [length Nat.add]; lia|]. cbv zeta in *.
  cbn [app] in Ha. fold (blocks 64 m) in Ha. set (ctx := Transform _ m _) in *. rewrite Eb, Ep. cbn [Init buffer buf_ptr]. fold (leftover 64 m).
  pose proof (length_leftover 64 ltac:(lia) m) as Hlo. pose proof (Nat.mod_upper_bound (length m) 64 ltac:(lia)) as Hlt. rewrite cg_fill_ref by lia.
  eexists. split; [reflexivity|]. assert (Hlm : length (memcpy junk 0 (leftover 64 m)) = 64%nat) by (rewrite length_memcpy; lia).
  assert (Htm : take (length (leftover 64 m)) (memcpy junk 0 (leftover 64 m)) = leftover 64 m) by (apply (take_memcpy junk 0); lia).
  unfold updated, last_byte. destruct (Z.eqb_spec n 0) as [->|Hn0]; cbn [set_buf buffer buf_ptr bits_in_last_byte].
  - split_and!; [exact Ha|done|exact El|done|exact Htm].
  - split_and!; [exact Ha|by rewrite length_insert|done|done|]. cbn [Nat.add]. rewrite (take_S_r _ _ (data !!! L)) by (apply list_lookup_insert_eq; lia).
    rewrite take_insert_ge by lia. by rewrite Htm.
Qed.
Lemma Final_eq ctx : (Final ctx).2
  = finish (if (56 <? buf_ptr (pad_bit ctx))%nat
      then let ctx := zero_to (pad_bit ctx) 64 in let ctx := Transform ctx (buffer ctx) 1 in set_buf ctx (buffer ctx) 0 else pad_bit ctx).
Proof. unfold Final. cbv zeta. generalize (pad_bit ctx). intros c. destruct (56 <? buf_ptr c)%nat; exact eq_refl. Qed.
Lemma last_bits_alt ub n : word 8 ub -> 1 <= n < 8 -> Z.lxor (Z.land ub (Z.shiftl (Z.shiftl 1 n - 1) (8 - n))) (Z.shiftl 1 (7 - n)) = last_bits ub n.
Proof.
  intros Hub Hn. unfold last_bits. apply Z.eqb_eq. assert (n = 1 \/ n = 2 \/ n = 3 \/ n = 4 \/ n = 5 \/ n = 6 \/ n = 7) as Hc by lia.
  revert ub Hub. destruct Hc as [->|[->|[->|[->|[->|[->| ->]]]]]]; apply all_bytes_spec; vm_compute; reflexivity.
Qed.
Lemma pad_bit_ref ctx m ub n : updated ctx m ub n -> word 8 ub -> 0 <= n < 8 ->
  after (pad_bit ctx) (blocks 64 m) /\ waiting (pad_bit ctx) (leftover 64 m ++ [last_bits ub n]).
Proof.
  intros (Ha & Hl & En & H) Hub Hn. pose proof (length_leftover 64 ltac:(lia) m) as Hlo. pose proof (Nat.mod_upper_bound (length m) 64 ltac:(lia)) as Hlt.
  unfold pad_bit, waiting. rewrite En, length_app. cbn [length]. destruct (Z.eqb_spec n 0) as [->|Hn0]; cbv iota zeta; destruct H as [Ep Et]; cbn [set_buf buffer buf_ptr].
  - split; [exact Ha|]. rewrite length_insert. split_and!; [done| |lia]. rewrite (take_S_r _ _ 0x80) by (apply list_lookup_insert_eq; lia). rewrite take_insert_ge, Et by lia.
    f_equal. f_equal. unfold last_bits. rewrite Z.land_0_r. done.
  - split; [exact Ha|]. rewrite length_insert. split_and!; [done| |lia]. rewrite Ep in *. rewrite Nat.sub_1_r. cbn [Nat.pred].
    assert (Eu : buffer ctx !!! length (leftover 64 m) = ub).
    { rewrite <-(lookup_total_take_lt (buffer ctx) (Datatypes.S (length (leftover 64 m)))), Et by lia. rewrite lookup_total_app_r by lia. by rewrite Nat.sub_diag. }
    rewrite Eu, last_bits_alt by (done || lia). rewrite (take_S_r _ _ (last_bits ub n)) by (apply list_lookup_insert_eq; lia).
    rewrite take_insert_ge by lia. f_equal. apply (f_equal (take (length (leftover 64 m)))) in Et. rewrite take_take, Nat.min_l, take_app_length in Et by lia. exact Et.
Qed.
(** Any message, a number of bits that is not a multiple of 8 included: the digest is
    that of Groestl-256. *)
Lemma groestl_ref junk data L n : length junk = 64%nat -> bytes data -> 0 <= n < 8 -> Z.of_nat L < 2 ^ 31 ->
  (L + (if Z.eqb n 0 then 0 else 1) <= length data)%nat ->
  groestl junk data (8 * Z.of_nat L + n) = Some (Groestl.groestl_digest 32 (take L data) (data !!! L) n).
Proof.
  intros Hj Hb Hn HL Hd. unfold groestl. destruct (cg_Update_ref junk data L n Hj Hb Hn HL Hd) as (ctx & -> & Hu). cbn [mbind option_bind]. f_equal.
  set (m := take L data) in *. set (ub := data !!! L) in *. assert (Hub : word 8 ub) by by apply bytes_lookup. assert (Hbm : bytes m) by by apply Forall_take.
  assert (Hm : length m = L) by (unfold m; rewrite length_take; lia). rewrite Final_eq. destruct (pad_bit_ref ctx m ub n Hu Hub Hn) as [Ha Hw]. generalize dependent (pad_bit ctx). intros c Ha Hw.
  pose proof (length_leftover 64 ltac:(lia) m) as Hlo. pose proof (Nat.mod_upper_bound (length m) 64 ltac:(lia)) as Hlt.
  assert (Hlb : word 8 (last_bits ub n)) by (destruct (final_byte_ref ub n Hub Hn) as [<- H]; exact H).
  assert (Hbl : bytes (leftover 64 m ++ [last_bits ub n])) by (apply Forall_app_2; [by apply Forall_drop|by repeat constructor; apply Hlb]).
  assert (Hlen : length (leftover 64 m ++ [last_bits ub n]) = (length m mod 64 + 1)%nat) by (rewrite length_app, Hlo; done).
  assert (Hbn : (length (blocks 64 m) <= length m)%nat) by (rewrite length_blocks_div by lia; apply Nat.Div0.div_le_upper_bound; lia).
  assert (Edig : forall p, blocks 64 (Groestl.groestl_pad 64 m ub n) = p ->
    drop 32 (Groestl.omega 8 (foldl (Groestl.f_compress 8) iv p)) = Groestl.groestl_digest 32 m ub n) by (intros p <-; exact eq_refl).
  destruct Hw as (Hl & Ht & Hp). destruct (Nat.ltb_spec 56 (buf_ptr c)) as [Hlong|Hshort]; cbv zeta.
  - destruct (zero_to_ref c _ 64 (conj Hl (conj Ht Hp)) ltac:(lia)) as ((Hzl & Hzt & Hzp) & Ec & E1 & E2). rewrite Hlen in *.
    assert (Ezb : buffer (zero_to c 64) = leftover 64 m ++ last_bits ub n :: replicate (63 - length m mod 64) 0).
    { rewrite length_app, Hlen, length_replicate in Hzp. rewrite Hzp, take_ge in Hzt by lia. rewrite Hzt, <-app_assoc. cbn [app]. do 3 f_equal. lia. }
    assert (Haz : after (zero_to c 64) (blocks 64 m)) by (unfold after; by rewrite Ec, E1, E2).
    assert (Hzb : bytes (buffer (zero_to c 64))).
    { rewrite Ezb. apply Forall_app_2; [by apply Forall_drop|]. constructor; [done|]. apply Forall_replicate. by apply word_0. }
    destruct (Transform_ref (zero_to c 64) (buffer (zero_to c 64)) 1 (blocks 64 m) Haz Hzb ltac:(lia) ltac:(lia)) as (Ha' & Eb' & _). cbv zeta in *. cbn [nblocks] in Ha'. rewrite (take_ge (buffer _)) in Ha' by lia.
    rewrite (finish_ref (set_buf _ _ 0) _ [] Ha'); [|split_and!; [cbn [set_buf buffer]; rewrite Eb'; exact Hzl|done|done]|constructor|simpl; lia|rewrite length_app; simpl; lia].
    apply Edig. unfold Groestl.groestl_pad. cbv zeta. replace (length m mod 64 <? 64 - 8)%nat with false by (symmetry; apply Nat.ltb_ge; lia).
    rewrite Ezb, length_app, length_blocks_div by lia. cbn [length app]. replace (2 * 64 - 9 - length m mod 64)%nat with ((63 - length m mod 64) + 56)%nat by lia.
    rewrite replicate_add, <-app_assoc. rewrite app_comm_cons, blocks_last2; [|lia|rewrite length_app; cbn [length]; rewrite length_replicate; lia|rewrite length_app, length_replicate, length_be_store; lia].
    rewrite <-app_assoc. cbn [app]. do 6 f_equal. lia.
  - rewrite (finish_ref c (blocks 64 m) _ Ha (conj Hl (conj Ht Hp)) Hbl) by lia. apply Edig. unfold Groestl.groestl_pad. cbv zeta.
    replace (length m mod 64 <? 64 - 8)%nat with true by (symmetry; apply Nat.ltb_lt; lia). rewrite Hlen, length_blocks_div by lia.
    rewrite blocks_last; [|lia|rewrite length_app; cbn [length]; rewrite length_app, length_replicate, length_be_store; lia].
    rewrite <-app_assoc. cbn [app]. do 5 f_equal. f_equal. lia.
Qed.

(** The empty message, as published, and 200 bytes, the length CryptoNight uses. *)
Example groestl256_vectors :
  take 8 <$> groestl (replicate 64 3) [] 0 = Some [0x1A; 0x52; 0xD1; 0x1D; 0x55; 0x00; 0x39; 0xBE] /\
  groestl (replicate 64 3) (replicate 200 0x61) 1600 = Some (Groestl.groestl_digest 32 (replicate 200 0x61) 0 0).
Proof. split; vm_compute; reflexivity. Qed.

End CnGroestl.
