(* ===== verification/CnSkein.v ===== *)
(** * Skein-512 of the CryptoNight finalisers ([crypto/cn/c_skein.c]).

    The optimised implementation of the submission, in the build the file selects
    (unrolled, without run-time checks): tweak words in the context, full blocks taken from
    the message itself, the output in counter mode.  The reference is that of [Skein]. *)
From S2P Require Import Prelude Stream SphCore Skein.
Import Skein.

Module CnSkein.

Definition SKEIN_T1_FLAG_FIRST : Z := Z.shiftl 1 (126 - 64).
Definition SKEIN_T1_FLAG_FINAL : Z := Z.shiftl 1 (127 - 64).
Definition SKEIN_T1_FLAG_BIT_PAD : Z := Z.shiftl 1 (119 - 64).
Definition SKEIN_T1_BLK_TYPE (t : Z) : Z := Z.shiftl t (120 - 64).
Definition SKEIN_T1_BLK_TYPE_MSG : Z := SKEIN_T1_BLK_TYPE 48.
Definition SKEIN_T1_BLK_TYPE_CFG_FINAL : Z := Z.lor (SKEIN_T1_BLK_TYPE 4) SKEIN_T1_FLAG_FINAL.
Definition SKEIN_T1_BLK_TYPE_OUT_FINAL : Z := Z.lor (SKEIN_T1_BLK_TYPE 63) SKEIN_T1_FLAG_FINAL.
Definition SKEIN_MK_64 (hi32 lo32 : Z) : Z := add64 lo32 (shl64 hi32 32).
Definition SKEIN_SCHEMA_VER : Z := SKEIN_MK_64 1 0x33414853.
Definition SKEIN_KS_PARITY : Z := SKEIN_MK_64 0x1BD11BDA 0xA9FC1A22.
Definition SKEIN_512_IV_256 : list Z := [
  SKEIN_MK_64 0xCCD044A1 0x2FDB3E13; SKEIN_MK_64 0xE8359030 0x1A79A9EB; SKEIN_MK_64 0x55AEA061 0x4F816E6F; SKEIN_MK_64 0x2A2767A4 0xAE9B94DB;
  SKEIN_MK_64 0xEC06025E 0x74DD7683; SKEIN_MK_64 0xE7A436CD 0xC4746251; SKEIN_MK_64 0xC36FBAF9 0x393AD185; SKEIN_MK_64 0x3EEDBA18 0x33EDFC13].

(** [Skein_512_Ctxt_t], the header included. *)
Record Skein_512_Ctxt_t := mk_ctx { hashBitLen : Z; bCnt : nat; hT0 : Z; hT1 : Z; cX : list Z; cb : list Z }.

(** The variables [X0] to [X7] are a list. *)
Definition Round512 (X : list Z) (p0 p1 p2 p3 p4 p5 p6 p7 : nat) (r0 r1 r2 r3 : Z) : list Z :=
  let X := <[p0 := add64 (X !!! p0) (X !!! p1)]> X in let X := <[p1 := rotl64 (X !!! p1) r0]> X in let X := <[p1 := Z.lxor (X !!! p1) (X !!! p0)]> X in
  let X := <[p2 := add64 (X !!! p2) (X !!! p3)]> X in let X := <[p3 := rotl64 (X !!! p3) r1]> X in let X := <[p3 := Z.lxor (X !!! p3) (X !!! p2)]> X in
  let X := <[p4 := add64 (X !!! p4) (X !!! p5)]> X in let X := <[p5 := rotl64 (X !!! p5) r2]> X in let X := <[p5 := Z.lxor (X !!! p5) (X !!! p4)]> X in
  let X := <[p6 := add64 (X !!! p6) (X !!! p7)]> X in let X := <[p7 := rotl64 (X !!! p7) r3]> X in <[p7 := Z.lxor (X !!! p7) (X !!! p6)]> X.
Definition I512 (X ks ts : list Z) (R : nat) : list Z :=
  [add64 (X !!! 0%nat) (ks !!! ((R + 1) mod 9)%nat);
   add64 (X !!! 1%nat) (ks !!! ((R + 2) mod 9)%nat);
   add64 (X !!! 2%nat) (ks !!! ((R + 3) mod 9)%nat);
   add64 (X !!! 3%nat) (ks !!! ((R + 4) mod 9)%nat);
   add64 (X !!! 4%nat) (ks !!! ((R + 5) mod 9)%nat);
   add64 (X !!! 5%nat) (add64 (ks !!! ((R + 6) mod 9)%nat) (ts !!! ((R + 1) mod 3)%nat));
   add64 (X !!! 6%nat) (add64 (ks !!! ((R + 7) mod 9)%nat) (ts !!! ((R + 2) mod 3)%nat));
   add64 (X !!! 7%nat) (add64 (add64 (ks !!! ((R + 8) mod 9)%nat) (Z.of_nat R)) 1)].
Definition R512_8_rounds (X ks ts : list Z) (R : nat) : list Z :=
  let X := Round512 X 0 1 2 3 4 5 6 7 46 36 19 37 in
  let X := Round512 X 2 1 4 7 6 5 0 3 33 27 14 42 in
  let X := Round512 X 4 1 6 3 0 5 2 7 17 49 36 39 in
  let X := Round512 X 6 1 0 7 2 5 4 3 44 9 54 56 in
  let X := I512 X ks ts (2 * R) in
  let X := Round512 X 0 1 2 3 4 5 6 7 39 30 34 24 in
  let X := Round512 X 2 1 4 7 6 5 0 3 13 50 10 17 in
  let X := Round512 X 4 1 6 3 0 5 2 7 25 29 39 43 in
  let X := Round512 X 6 1 0 7 2 5 4 3 8 35 56 22 in
  I512 X ks ts (2 * R + 1).
(** One trip of the loop over the blocks: [cX] and the local [ts[0]], [ts[1]]. *)
Definition process1 (X : list Z) (ts0 ts1 : Z) (blkPtr : list Z) (byteCntAdd : Z) : list Z * Z * Z :=
  let ts0 := add64 ts0 byteCntAdd in
  let ks8 := Z.lxor (Z.lxor (Z.lxor (Z.lxor (Z.lxor (Z.lxor (Z.lxor (Z.lxor (X !!! 0%nat) (X !!! 1%nat)) (X !!! 2%nat)) (X !!! 3%nat))
    (X !!! 4%nat)) (X !!! 5%nat)) (X !!! 6%nat)) (X !!! 7%nat)) SKEIN_KS_PARITY in
  let ks := take 8 X ++ [ks8] in
  let ts := [ts0; ts1; Z.lxor ts0 ts1] in
  let w := words_of (take 64 blkPtr) in
  let Y := [add64 (w !!! 0%nat) (ks !!! 0%nat); add64 (w !!! 1%nat) (ks !!! 1%nat); add64 (w !!! 2%nat) (ks !!! 2%nat); add64 (w !!! 3%nat) (ks !!! 3%nat);
    add64 (w !!! 4%nat) (ks !!! 4%nat); add64 (add64 (w !!! 5%nat) (ks !!! 5%nat)) (ts !!! 0%nat); add64 (add64 (w !!! 6%nat) (ks !!! 6%nat)) (ts !!! 1%nat);
    add64 (w !!! 7%nat) (ks !!! 7%nat)] in
  let Y := R512_8_rounds Y ks ts 0 in let Y := R512_8_rounds Y ks ts 1 in let Y := R512_8_rounds Y ks ts 2 in
  let Y := R512_8_rounds Y ks ts 3 in let Y := R512_8_rounds Y ks ts 4 in let Y := R512_8_rounds Y ks ts 5 in
  let Y := R512_8_rounds Y ks ts 6 in let Y := R512_8_rounds Y ks ts 7 in let Y := R512_8_rounds Y ks ts 8 in
  (zip_with Z.lxor Y w, ts0, Z.land ts1 (not64 SKEIN_T1_FLAG_FIRST)).
(** [do ... while (--blkCnt)]: [more] is [blkCnt - 1]. *)
Fixpoint process_loop (more : nat) (X : list Z) (ts0 ts1 : Z) (blkPtr : list Z) (byteCntAdd : Z) : list Z * Z * Z :=
  let '(X, ts0, ts1) := process1 X ts0 ts1 blkPtr byteCntAdd in
  match more with
  | O => (X, ts0, ts1)
  | S more => process_loop more X ts0 ts1 (drop 64 blkPtr) byteCntAdd
  end.
(** No caller passes [blkCnt = 0]. *)
Definition Skein_512_Process_Block (ctx : Skein_512_Ctxt_t) (blkPtr : list Z) (blkCnt : nat) (byteCntAdd : Z) : Skein_512_Ctxt_t :=
  let '(X, ts0, ts1) := process_loop (blkCnt - 1) (cX ctx) (hT0 ctx) (hT1 ctx) blkPtr byteCntAdd in
  mk_ctx (hashBitLen ctx) (bCnt ctx) ts0 ts1 X (cb ctx).
Definition Skein_Start_New_Type (ctx : Skein_512_Ctxt_t) (ty : Z) : Skein_512_Ctxt_t :=
  mk_ctx (hashBitLen ctx) 0 0 (Z.lor SKEIN_T1_FLAG_FIRST ty) (cX ctx) (cb ctx).
Definition with_X (ctx : Skein_512_Ctxt_t) (X : list Z) : Skein_512_Ctxt_t := mk_ctx (hashBitLen ctx) (bCnt ctx) (hT0 ctx) (hT1 ctx) X (cb ctx).
Definition with_b (ctx : Skein_512_Ctxt_t) (b : list Z) (n : nat) : Skein_512_Ctxt_t := mk_ctx (hashBitLen ctx) n (hT0 ctx) (hT1 ctx) (cX ctx) b.
Definition with_T1 (ctx : Skein_512_Ctxt_t) (t1 : Z) : Skein_512_Ctxt_t := mk_ctx (hashBitLen ctx) (bCnt ctx) (hT0 ctx) t1 (cX ctx) (cb ctx).

Definition Skein_512_Init (ctx : Skein_512_Ctxt_t) (bits : Z) : Skein_512_Ctxt_t :=
  let ctx := mk_ctx bits (bCnt ctx) (hT0 ctx) (hT1 ctx) (cX ctx) (cb ctx) in
  let ctx :=
    if bits =? 256 then with_X ctx SKEIN_512_IV_256
    else
      let ctx := Skein_Start_New_Type ctx SKEIN_T1_BLK_TYPE_CFG_FINAL in
      let cfg := flat_map (le_store 8) [SKEIN_SCHEMA_VER; bits; 0; 0; 0; 0; 0; 0] in
      Skein_512_Process_Block (with_X ctx (replicate 8 0)) cfg 1 32 in
  Skein_Start_New_Type ctx SKEIN_T1_BLK_TYPE_MSG.

(** [msg] holds the [msgByteCnt] bytes; [msgByteCnt + bCnt] is a size_t. *)
Definition Skein_512_Update (ctx : Skein_512_Ctxt_t) (msg : list Z) : Skein_512_Ctxt_t :=
  let '(ctx, msg) :=
    if 64 <? T64 (Z.of_nat (length msg) + Z.of_nat (bCnt ctx)) then
      let '(ctx, msg) :=
        if (bCnt ctx =? 0)%nat then (ctx, msg)
        else
          let n := (64 - bCnt ctx)%nat in
          let '(ctx, msg) := if (n =? 0)%nat then (ctx, msg) else (with_b ctx (memcpy (cb ctx) (bCnt ctx) (take n msg)) (bCnt ctx + n), drop n msg) in
          let ctx := Skein_512_Process_Block ctx (cb ctx) 1 64 in
          (with_b ctx (cb ctx) 0, msg) in
      if (64 <? length msg)%nat
      then let n := ((length msg - 1) / 64)%nat in (Skein_512_Process_Block ctx msg n 64, drop (n * 64) msg)
      else (ctx, msg)
    else (ctx, msg) in
  if (length msg =? 0)%nat then ctx else with_b ctx (memcpy (cb ctx) (bCnt ctx) msg) (bCnt ctx + length msg).

(** One trip of the output loop: the context and the caller's buffer. *)
Definition output_trip (X : list Z) (byteCnt : Z) (acc : Skein_512_Ctxt_t * list Z) (i : nat) : Skein_512_Ctxt_t * list Z :=
  let '(ctx, hashVal) := acc in
  let ctx := with_b ctx (memcpy (cb ctx) 0 (le_store 8 (Z.of_nat i))) (bCnt ctx) in
  let ctx := Skein_Start_New_Type ctx SKEIN_T1_BLK_TYPE_OUT_FINAL in
  let ctx := Skein_512_Process_Block ctx (cb ctx) 1 8 in
  let n := Z.to_nat (byteCnt - Z.of_nat i * 64) in
  let n := if (64 <=? n)%nat then 64%nat else n in
  let hashVal := memcpy hashVal (i * 64) (take n (flat_map (le_store 8) (cX ctx))) in
  (with_X ctx X, hashVal).
(** [for (i = 0; i * 64 < byteCnt; i++)]: it stops after [byteCnt] trips at the latest. *)
Fixpoint output_loop (fuel : nat) (i : nat) (X : list Z) (byteCnt : Z) (acc : Skein_512_Ctxt_t * list Z) : Skein_512_Ctxt_t * list Z :=
  match fuel with
  | O => acc
  | S fuel => if Z.of_nat i * 64 <? byteCnt then output_loop fuel (S i) X byteCnt (output_trip X byteCnt acc i) else acc
  end.
Definition Skein_512_Final (ctx : Skein_512_Ctxt_t) (hashVal : list Z) : Skein_512_Ctxt_t * list Z :=
  let ctx := with_T1 ctx (Z.lor (hT1 ctx) SKEIN_T1_FLAG_FINAL) in
  let ctx := if (bCnt ctx <? 64)%nat then with_b ctx (memset0 (cb ctx) (bCnt ctx) (64 - bCnt ctx)) (bCnt ctx) else ctx in
  let ctx := Skein_512_Process_Block ctx (cb ctx) 1 (Z.of_nat (bCnt ctx)) in
  let byteCnt := Z.shiftr (T64 (hashBitLen ctx + 7)) 3 in
  let ctx := with_b ctx (replicate 64 0) (bCnt ctx) in
  output_loop (Z.to_nat byteCnt) 0 (cX ctx) byteCnt (ctx, hashVal).

(** The interface over bit strings; [data] starts at the pointer. *)
Definition Init (ctx : Skein_512_Ctxt_t) (hashbitlen : Z) : Skein_512_Ctxt_t := Skein_512_Init ctx (T64 hashbitlen).
Definition Update (ctx : Skein_512_Ctxt_t) (data : list Z) (databitlen : Z) : Skein_512_Ctxt_t :=
  if Z.land databitlen 7 =? 0 then Skein_512_Update ctx (take (Z.to_nat (Z.shiftr databitlen 3)) data)
  else
    let bCnt := (Z.to_nat (Z.shiftr databitlen 3) + 1)%nat in
    let mask := T8 (Z.shiftl 1 (7 - Z.land databitlen 7)) in
    let b := T8 (Z.lor (Z.land (data !!! (bCnt - 1)%nat) (0 - mask)) mask) in
    let ctx := Skein_512_Update ctx (take (bCnt - 1) data) in
    let ctx := Skein_512_Update ctx [b] in
    with_T1 ctx (Z.lor (hT1 ctx) SKEIN_T1_FLAG_BIT_PAD).
Definition Final (ctx : Skein_512_Ctxt_t) (hashval : list Z) : Skein_512_Ctxt_t * list Z := Skein_512_Final ctx hashval.
(** [stack] is the uninitialised context. *)
Definition skein_hash (stack : Skein_512_Ctxt_t) (hashbitlen : Z) (data : list Z) (databitlen : Z) (hashval : list Z) : list Z :=
  (Final (Update (Init stack hashbitlen) data databitlen) hashval).2.
Definition xmr_skein (stack : Skein_512_Ctxt_t) (data hashval : list Z) : list Z :=
  let ctx := mk_ctx 256 (bCnt stack) (hT0 stack) (hT1 stack) SKEIN_512_IV_256 (cb stack) in
  let ctx := Skein_Start_New_Type ctx SKEIN_T1_BLK_TYPE_MSG in
  let ctx := Skein_512_Update ctx (take (Z.to_nat (Z.shiftr 1600 3)) data) in
  (Skein_512_Final ctx hashval).2.

(** ** Reference: the output function for any length *)

Definition skein_bits (bits : Z) (m : list Z) (ub n : Z) : list Z :=
  let G := ubi (skein_iv bits) 48 (if n =? 0 then m else m ++ [last_bits ub n]) (negb (n =? 0)) in
  let byteCnt := (bits + 7) / 8 in
  take (Z.to_nat byteCnt) (flat_map (fun i => flat_map (le_store 8) (ubi G 63 (le_store 8 (Z.of_nat i)) false)) (seq 0 (Z.to_nat ((byteCnt + 63) / 64)))).

(** ** One block *)

Lemma Rounds_e X : length X = 8%nat ->
  Round512 (Round512 (Round512 (Round512 X 0 1 2 3 4 5 6 7 46 36 19 37) 2 1 4 7 6 5 0 3 33 27 14 42) 4 1 6 3 0 5 2 7 17 49 36 39) 6 1 0 7 2 5 4 3 44 9 54 56 = mix_4e X.
Proof. intros (a & b & c & d & e & f & g & h & ->)%list8. cbv -[add64 rotl64 Z.lxor]. reflexivity. Qed.
Lemma Rounds_o X : length X = 8%nat ->
  Round512 (Round512 (Round512 (Round512 X 0 1 2 3 4 5 6 7 39 30 34 24) 2 1 4 7 6 5 0 3 13 50 10 17) 4 1 6 3 0 5 2 7 25 29 39 43) 6 1 0 7 2 5 4 3 8 35 56 22 = mix_4o X.
Proof. intros (a & b & c & d & e & f & g & h & ->)%list8. cbv -[add64 rotl64 Z.lxor]. reflexivity. Qed.
Lemma add64_assoc1 k n : add64 (add64 k n) 1 = add64 k (Z.succ n).
Proof. unfold add64. rewrite !T64_mod, Zplus_mod_idemp_l. f_equal. lia. Qed.
Lemma I512_ref K T X R : length K = 8%nat -> I512 X (keys K) (tweaks T) R = add_subkey K T (R + 1) X.
Proof.
  intros HK. assert (E : forall j, keys K !!! ((R + j) mod 9)%nat = key_word K ((R + j) mod 9)) by (intros; apply keys_lookup; [done|apply Nat.mod_upper_bound; lia]).
  assert (Et : forall j, tweaks T !!! ((R + j) mod 3)%nat = tweak_word T ((R + j) mod 3)).
  { intros j. unfold tweaks. pose proof (Nat.mod_upper_bound (R + j) 3 ltac:(lia)) as H. revert H. generalize ((R + j) mod 3)%nat. intros [|[|[|k]]] H; [done..|lia]. }
  unfold I512. rewrite !E, !Et, add64_assoc1, <-Nat2Z.inj_succ. unfold add_subkey, subkey. cbn [seq fmap list_fmap]. rewrite <-!Nat.add_assoc. cbn [Nat.add]. replace (S R) with (R + 1)%nat by lia. reflexivity.
Qed.
Lemma R512_ref K T X R : length K = 8%nat -> length X = 8%nat ->
  R512_8_rounds X (keys K) (tweaks T) R = add_subkey K T (2 * R + 2) (mix_4o (add_subkey K T (2 * R + 1) (mix_4e X))).
Proof.
  intros HK HX. unfold R512_8_rounds. rewrite Rounds_e, I512_ref, Rounds_o, I512_ref by (done || apply length_add_subkey). by rewrite <-Nat.add_assoc.
Qed.
Lemma quad_round_e K T v n : quad_round K T v (2 * n) = mix_4e (add_subkey K T (2 * n) v).
Proof. unfold quad_round. by rewrite (Nat.even_even n). Qed.
Lemma quad_round_o K T v n : quad_round K T v (2 * n + 1) = mix_4o (add_subkey K T (2 * n + 1) v).
Proof. unfold quad_round. by rewrite (Nat.even_odd n). Qed.
Lemma eight_rounds K T P n : length K = 8%nat ->
  foldl (fun Y R => R512_8_rounds Y (keys K) (tweaks T) R) (add_subkey K T 0 P) (seq 0 n) = add_subkey K T (2 * n) (foldl (quad_round K T) P (seq 0 (2 * n))).
Proof.
  intros HK. induction n as [|n IH]; [done|]. rewrite (seq_S n 0), foldl_app, IH. cbn [foldl Nat.add]. replace (2 * S n)%nat with (2 * n + 2)%nat by lia.
  rewrite R512_ref by (done || apply length_add_subkey). rewrite (seq_app (2 * n) 2 0), foldl_app. cbn [seq foldl Nat.add].
  replace (S (2 * n)) with (2 * n + 1)%nat by lia. rewrite (quad_round_e K T _ n), (quad_round_o K T _ n). exact eq_refl.
Qed.
Lemma zip_lxor_comm (x y : list Z) : zip_with Z.lxor x y = zip_with Z.lxor y x.
Proof. revert y. induction x as [|a x IH]; intros [|b y]; [done..|]. cbn. by rewrite IH, Z.lxor_comm. Qed.
Lemma process1_ref X t0 t1 b add : length X = 8%nat ->
  process1 X t0 t1 b add = (ubi_block X (add64 t0 add + t1 * 2 ^ 64) (take 64 b), add64 t0 add, Z.land t1 (not64 SKEIN_T1_FLAG_FIRST)).
Proof.
  intros HX. unfold process1. set (t := add64 t0 add). set (T := t + t1 * 2 ^ 64). set (w := words_of (take 64 b)).
  assert (Ht : 0 <= t < 2 ^ 64) by (unfold t, add64; rewrite T64_mod; apply Z.mod_pos_bound; lia).
  assert (E0 : tweak_word T 0 = t) by (unfold T, tweak_word; rewrite Z.mod_add by lia; by apply Z.mod_small).
  assert (E1 : tweak_word T 1 = t1) by (unfold T, tweak_word; rewrite Z.div_add, Z.div_small by lia; lia).
  assert (E2 : [t; t1; Z.lxor t t1] = tweaks T) by (unfold tweaks; rewrite <-E0 at 1 2; rewrite <-E1 at 1 2; reflexivity).
  assert (E8 : forall P, Z.lxor (Z.lxor (Z.lxor (Z.lxor (Z.lxor (Z.lxor (Z.lxor (Z.lxor (X !!! 0%nat) (X !!! 1%nat)) (X !!! 2%nat)) (X !!! 3%nat))
    (X !!! 4%nat)) (X !!! 5%nat)) (X !!! 6%nat)) (X !!! 7%nat)) P = foldl Z.lxor P X).
  { destruct (list8 X HX) as (? & ? & ? & ? & ? & ? & ? & ? & ->). intros P. cbn [foldl lookup_total list_lookup_total]. bitwise. }
  rewrite E2, E8, take_ge by lia. change (foldl Z.lxor SKEIN_KS_PARITY X) with (key_word X 8). fold (keys X).
  assert (EY : [add64 (w !!! 0%nat) (keys X !!! 0%nat); add64 (w !!! 1%nat) (keys X !!! 1%nat); add64 (w !!! 2%nat) (keys X !!! 2%nat); add64 (w !!! 3%nat) (keys X !!! 3%nat);
    add64 (w !!! 4%nat) (keys X !!! 4%nat); add64 (add64 (w !!! 5%nat) (keys X !!! 5%nat)) (tweaks T !!! 0%nat); add64 (add64 (w !!! 6%nat) (keys X !!! 6%nat)) (tweaks T !!! 1%nat);
    add64 (w !!! 7%nat) (keys X !!! 7%nat)] = add_subkey X T 0 w).
  { rewrite <-ADDKEY_ref by done. unfold TFBIG_ADDKEY, SKBI, SKBT. cbn [Nat.add]. unfold add64. rewrite Z.add_0_r, !T64_mod, !Zplus_mod_idemp_l. reflexivity. }
  rewrite EY. pose proof (eight_rounds X T w 9 HX) as E9. cbn [seq foldl] in E9. rewrite E9, zip_lxor_comm. unfold ubi_block. rewrite threefish_quads. exact eq_refl.
Qed.

(** ** Updates *)

Definition tweaked : Type := list Z * Z * Z.
Definition step64 '((X, t0, t1) : tweaked) (b : list Z) : tweaked := process1 X t0 t1 b 64.
Definition st_of (ctx : Skein_512_Ctxt_t) : tweaked := (cX ctx, hT0 ctx, hT1 ctx).
Definition cs_abs (ctx : Skein_512_Ctxt_t) : tweaked * list Z := (st_of ctx, take (bCnt ctx) (cb ctx)).
Definition cs_ok (ctx : Skein_512_Ctxt_t) : Prop := length (cb ctx) = 64%nat /\ (bCnt ctx <= 64)%nat.
Lemma process1_take X t0 t1 b add : process1 X t0 t1 (take 64 b) add = process1 X t0 t1 b add.
Proof. unfold process1. by rewrite take_take. Qed.
Lemma process_loop_blocks n X t0 t1 msg : process_loop n X t0 t1 msg 64 = foldl step64 (X, t0, t1) (nblocks 64 (S n) msg).
Proof.
  revert X t0 t1 msg. induction n as [|n IH]; intros X t0 t1 msg; cbn [process_loop nblocks foldl step64]; rewrite process1_take; destruct (process1 X t0 t1 msg 64) as [[X' t0'] t1']; [done|].
  apply IH.
Qed.
Lemma Process_blocks ctx msg n : (0 < n)%nat ->
  let ctx' := Skein_512_Process_Block ctx msg n 64 in
  st_of ctx' = foldl step64 (st_of ctx) (nblocks 64 n msg) /\ bCnt ctx' = bCnt ctx /\ cb ctx' = cb ctx /\ hashBitLen ctx' = hashBitLen ctx.
Proof.
  intros Hn ctx'. unfold ctx', Skein_512_Process_Block. pose proof (process_loop_blocks (n - 1) (cX ctx) (hT0 ctx) (hT1 ctx) msg) as E.
  replace (S (n - 1)) with n in E by lia. destruct (process_loop _ _ _ _ _ _) as [[X' t0'] t1']. split_and!; [exact E|done..].
Qed.
(** The buffered bytes, completed and compressed. *)
Lemma flush_ref ctx msg : cs_ok ctx -> (64 < length msg + bCnt ctx)%nat ->
  let n := (64 - bCnt ctx)%nat in
  let '(ctx', msg') :=
    (if (bCnt ctx =? 0)%nat then (ctx, msg)
     else
       let '(ctx, msg) := if (n =? 0)%nat then (ctx, msg) else (with_b ctx (memcpy (cb ctx) (bCnt ctx) (take n msg)) (bCnt ctx + n), drop n msg) in
       let ctx := Skein_512_Process_Block ctx (cb ctx) 1 64 in
       (with_b ctx (cb ctx) 0, msg)) in
  length (cb ctx') = 64%nat /\ bCnt ctx' = 0%nat /\ hashBitLen ctx' = hashBitLen ctx /\ msg' <> [] /\ (length msg' <= length msg)%nat /\
  lazy 64 step64 (cs_abs ctx) msg = lazy 64 step64 (st_of ctx', []) msg'.
Proof.
  intros [Hb Hc] Hl n. destruct (Nat.eqb_spec (bCnt ctx) 0) as [E0|E0].
  - split_and!; [done|done|done|intros ->; simpl in Hl; lia|done|]. unfold cs_abs. by rewrite E0.
  - set (ctx1 := if (n =? 0)%nat then ctx else with_b ctx (memcpy (cb ctx) (bCnt ctx) (take n msg)) (bCnt ctx + n)).
    assert (E : (if (n =? 0)%nat then (ctx, msg) else (with_b ctx (memcpy (cb ctx) (bCnt ctx) (take n msg)) (bCnt ctx + n), drop n msg)) = (ctx1, drop n msg)).
    { unfold ctx1. destruct (Nat.eqb_spec n 0) as [->|]; done. }
    rewrite E. assert (Hn : length (take n msg) = n) by (rewrite length_take; unfold n; lia).
    assert (E1 : cb ctx1 = take (bCnt ctx) (cb ctx) ++ take n msg /\ st_of ctx1 = st_of ctx /\ hashBitLen ctx1 = hashBitLen ctx).
    { unfold ctx1. destruct (Nat.eqb_spec n 0) as [En|En]; [rewrite En, app_nil_r, take_ge by (unfold n in En; lia); done|]. cbn [with_b cb]. split; [|done].
      apply take_memcpy_all. unfold n in *. lia. }
    destruct E1 as (E1 & E2 & E3). destruct (Process_blocks ctx1 (cb ctx1) 1 ltac:(lia)) as (P1 & P2 & P3 & P4).
    set (ctx2 := Skein_512_Process_Block ctx1 (cb ctx1) 1 64) in *. clearbody ctx2. cbn [with_b cb bCnt hashBitLen].
    assert (H1 : length (cb ctx1) = 64%nat) by (rewrite E1, length_app, length_take, Hn; unfold n; lia).
    assert (Hd : drop n msg <> []) by (intros Ed%(f_equal length); rewrite length_drop in Ed; simpl in Ed; unfold n in Ed; lia).
    split_and!; [by rewrite P3|done|congruence|done|rewrite length_drop; lia|]. change (st_of (with_b ctx2 (cb ctx2) 0)) with (st_of ctx2). rewrite P1. cbn [nblocks foldl].
    rewrite take_ge, E2, E1 by lia. unfold cs_abs. rewrite <-(take_drop n msg) at 1. apply lazy_fill; [lia|rewrite length_take, Hn; unfold n; lia|done].
Qed.
Lemma Skein_512_Update_refines ctx msg : cs_ok ctx -> Z.of_nat (length msg) + 64 < 2 ^ 64 ->
  let ctx' := Skein_512_Update ctx msg in
  cs_ok ctx' /\ hashBitLen ctx' = hashBitLen ctx /\ cs_abs ctx' = lazy 64 step64 (cs_abs ctx) msg.
Proof.
  intros Hok Hl. assert (Hcopy : forall c m, cs_ok c -> (length m + bCnt c <= 64)%nat -> let c' := if (length m =? 0)%nat then c else with_b c (memcpy (cb c) (bCnt c) m) (bCnt c + length m) in
    cs_ok c' /\ hashBitLen c' = hashBitLen c /\ cs_abs c' = lazy 64 step64 (cs_abs c) m).
  { intros c m [Hb Hc] Hm. destruct (Nat.eqb_spec (length m) 0) as [E|E]; [apply nil_length_inv in E as ->; by split_and!|]. cbv zeta. unfold cs_ok, cs_abs. cbn [with_b cb bCnt hashBitLen].
    rewrite length_memcpy by lia. rewrite take_memcpy by lia. rewrite lazy_short by (rewrite length_take; lia). split_and!; done || lia. }
  unfold Skein_512_Update. rewrite T64_mod, Z.mod_small by (destruct Hok; lia). destruct (Z.ltb_spec 64 (Z.of_nat (length msg) + Z.of_nat (bCnt ctx))) as [Hlt|Hge]; [|apply Hcopy; [done|lia]].
  pose proof (flush_ref ctx msg Hok ltac:(lia)) as Hf. cbv zeta in Hf. cbv zeta. destruct (if (bCnt ctx =? 0)%nat then _ else _) as [c m]. destruct Hf as (F1 & F2 & F3 & F4 & F5 & ->).
  destruct (Nat.ltb_spec 64 (length m)) as [Hm|Hm].
  - set (n := ((length m - 1) / 64)%nat). pose proof (Nat.div_mod_eq (length m - 1) 64) as Hd. fold n in Hd. pose proof (Nat.mod_upper_bound (length m - 1) 64 ltac:(lia)).
    destruct (Process_blocks c m n ltac:(lia)) as (P1 & P2 & P3 & P4). set (c' := Skein_512_Process_Block c m n 64) in *. clearbody c'.
    destruct (Hcopy c' (drop (n * 64) m)) as (Q1 & Q2 & Q3); [split; [congruence|lia]|rewrite length_drop; lia|]. split; [exact Q1|]. split; [congruence|].
    rewrite Q3. unfold cs_abs. rewrite P2, F2. cbn [take]. rewrite P1, (Nat.mul_comm n 64). symmetry. apply lazy_nblocks; lia.
  - destruct (Hcopy c m) as (Q1 & Q2 & Q3); [split; lia|lia|]. split; [exact Q1|]. split; [congruence|]. rewrite Q3. unfold cs_abs. by rewrite F2.
Qed.

(** ** The chaining values *)

Definition t1_at (i : Z) : Z := Z.lor (if i =? 0 then SKEIN_T1_FLAG_FIRST else 0) SKEIN_T1_BLK_TYPE_MSG.
Lemma skein_words_of_take b : words_of (take 64 b) = words_of b.
Proof.
  unfold words_of. unfold tabulate. apply list_fmap_ext. intros j i Hi. apply lookup_seq in Hi as [-> Hi]. f_equal. unfold slice. rewrite skipn_firstn_comm, take_take. f_equal. lia.
Qed.
Lemma ubi_block_take G T b : ubi_block G T (take 64 b) = ubi_block G T b.
Proof. unfold ubi_block. by rewrite skein_words_of_take. Qed.
Lemma steps64_ref pad bs G i : length G = 8%nat -> 0 <= i -> 64 * (i + Z.of_nat (length bs)) < 2 ^ 64 ->
  let G' := (foldl (ubi_step 48 pad) (G, i) bs).1 in
  foldl step64 (G, 64 * i, t1_at i) bs = (G', 64 * (i + Z.of_nat (length bs)), t1_at (i + Z.of_nat (length bs))) /\ length G' = 8%nat.
Proof.
  revert G i. induction bs as [|b bs IH]; intros G i HG Hi Hn; [rewrite Z.add_0_r; split; [reflexivity|exact HG]|]. cbn [foldl length] in *.
  assert (Ea : add64 (64 * i) 64 = 64 * (i + 1)) by (unfold add64; rewrite T64_mod, Z.mod_small by lia; lia).
  assert (Et : Z.land (t1_at i) (not64 SKEIN_T1_FLAG_FIRST) = t1_at (i + 1)) by (unfold t1_at; rewrite (proj2 (Z.eqb_neq (i + 1) 0)) by lia; destruct (i =? 0); reflexivity).
  assert (Ew : 64 * (i + 1) + t1_at i * 2 ^ 64 = tweak 48 (64 * (i + 1)) (i =? 0) false pad).
  { unfold t1_at, tweak. destruct (i =? 0); cbn [Z.b2z andb]; [change (Z.lor _ _) with (48 * 2 ^ 56 + 2 ^ 62)|change (Z.lor _ _) with (48 * 2 ^ 56)]; lia. }
  cbn [step64]. rewrite process1_ref, Ea, Et, Ew, ubi_block_take by done. cbn [ubi_step].
  destruct (IH (ubi_block G (tweak 48 (64 * (i + 1)) (i =? 0) false pad) b) (i + 1)) as [E1 E2]; [apply length_ubi_block|lia|lia|].
  rewrite E1. split; [|exact E2]. replace (i + 1 + Z.of_nat (length bs)) with (i + Z.of_nat (S (length bs))) by lia. reflexivity.
Qed.
(** Before an update of a fresh context. *)
Definition fresh (ctx : Skein_512_Ctxt_t) (bits : Z) (G : list Z) : Prop :=
  length (cb ctx) = 64%nat /\ bCnt ctx = 0%nat /\ hashBitLen ctx = bits /\ cX ctx = G /\ hT0 ctx = 0 /\ hT1 ctx = t1_at 0.
(** After a message: all its blocks but the last are in the chaining value. *)
Definition holds (ctx : Skein_512_Ctxt_t) (bits : Z) (G m : list Z) (pad : bool) : Prop :=
  let k := ((length m - 1) / 64)%nat in
  let G' := (foldl (ubi_step 48 pad) (G, 0) (nblocks 64 k m)).1 in
  cs_ok ctx /\ hashBitLen ctx = bits /\ cX ctx = G' /\ hT0 ctx = 64 * Z.of_nat k /\ hT1 ctx = t1_at (Z.of_nat k) /\
  take (bCnt ctx) (cb ctx) = drop (64 * k) m /\ (bCnt ctx + 64 * k = length m)%nat /\ length G' = 8%nat.
Lemma cn_length_nblocks b k m : length (nblocks b k m) = k.
Proof. revert m. induction k as [|k IH]; intros m; [done|]. cbn [nblocks length]. by rewrite IH. Qed.
Lemma abs_holds ctx bits G m pad : cs_ok ctx -> hashBitLen ctx = bits -> length G = 8%nat -> Z.of_nat (length m) < 2 ^ 64 ->
  cs_abs ctx = lazy 64 step64 ((G, 0, t1_at 0), []) m -> holds ctx bits G m pad.
Proof.
  intros Hok Hbits HG Hm E. rewrite lazy_spec in E by lia. unfold holds. set (k := ((length m - 1) / 64)%nat) in *.
  assert (Hk : (64 * k <= length m)%nat) by (pose proof (Nat.Div0.mul_div_le (length m - 1) 64); unfold k; lia).
  destruct (steps64_ref pad (nblocks 64 k m) G 0 HG ltac:(lia) ltac:(rewrite cn_length_nblocks; lia)) as [Es Hl]. rewrite Z.mul_0_r, cn_length_nblocks in Es. rewrite Es in E.
  unfold cs_abs, st_of in E. injection E as E1 E2 E3 E4. split_and!; [exact Hok|exact Hbits|exact E1|exact E2|exact E3|exact E4| |exact Hl].
  destruct Hok as [Hb Hp]. apply (f_equal length) in E4. rewrite length_take, length_drop in E4. lia.
Qed.
Lemma update_holds ctx bits G m pad : fresh ctx bits G -> length G = 8%nat -> Z.of_nat (length m) + 64 < 2 ^ 64 -> holds (Skein_512_Update ctx m) bits G m pad.
Proof.
  intros (F1 & F2 & F3 & F4 & F5 & F6) HG Hm. destruct (Skein_512_Update_refines ctx m) as (U1 & U2 & U3); [split; lia|done|].
  apply abs_holds; [done|congruence|done|lia|]. rewrite U3. unfold cs_abs, st_of. by rewrite F2, F4, F5, F6.
Qed.
Lemma update2_holds ctx bits G m x pad : fresh ctx bits G -> length G = 8%nat -> Z.of_nat (length m) + 65 < 2 ^ 64 ->
  holds (Skein_512_Update (Skein_512_Update ctx m) [x]) bits G (m ++ [x]) pad.
Proof.
  intros (F1 & F2 & F3 & F4 & F5 & F6) HG Hm. destruct (Skein_512_Update_refines ctx m) as (U1 & U2 & U3); [split; lia|lia|].
  destruct (Skein_512_Update_refines (Skein_512_Update ctx m) [x]) as (V1 & V2 & V3); [done|cbn [length]; lia|].
  apply abs_holds; [done|congruence|done|rewrite length_app; cbn [length]; lia|]. rewrite V3, U3, lazy_app. unfold cs_abs, st_of. by rewrite F2, F4, F5, F6.
Qed.

(** ** Initial values *)

Lemma Init_default_ref bits : (process1 (replicate 8 0) 0 (Z.lor SKEIN_T1_FLAG_FIRST SKEIN_T1_BLK_TYPE_CFG_FINAL) (flat_map (le_store 8) [SKEIN_SCHEMA_VER; bits; 0; 0; 0; 0; 0; 0]) 32).1.1 = skein_iv bits.
Proof. rewrite process1_ref by done. rewrite ubi_block_take. exact eq_refl. Qed.
Lemma length_skein_iv bits : length (skein_iv bits) = 8%nat.
Proof. apply length_ubi_block. Qed.
Lemma Init_ref ctx bits : length (cb ctx) = 64%nat -> fresh (Skein_512_Init ctx bits) bits (skein_iv bits).
Proof.
  intros Hb. unfold Skein_512_Init. destruct (Z.eqb_spec bits 256) as [->|Hne].
  - unfold fresh. cbn [Skein_Start_New_Type with_X cb bCnt hashBitLen cX hT0 hT1]. split_and!; [done|done|done| |done|done]. exact (eq_sym (proj1 (proj2 skein_ivs))).
  - unfold Skein_512_Process_Block. cbn [Nat.sub process_loop Skein_Start_New_Type with_X cb bCnt hashBitLen cX hT0 hT1]. pose proof (Init_default_ref bits) as E.
    destruct (process1 _ _ _ _ _) as [[X t0] t1]. cbn [fst] in E. unfold fresh. cbn [Skein_Start_New_Type with_X cb bCnt hashBitLen cX hT0 hT1]. split_and!; done.
Qed.

(** ** Output *)

Definition out_block (G : list Z) (i : nat) : list Z := flat_map (le_store 8) (ubi G 63 (le_store 8 (Z.of_nat i)) false).
Lemma length_out_block G i : length (out_block G i) = 64%nat.
Proof. unfold out_block. rewrite (proj1 (digest_words_gen (le_store 8) 8 _ (fun v => conj (length_le_store 8 v) (bytes_le_store 8 v)))). assert (E : length (ubi G 63 (le_store 8 (Z.of_nat i)) false) = 8%nat) by apply length_ubi_block. by rewrite E. Qed.
Definition counter_ok (ctx : Skein_512_Ctxt_t) (G : list Z) : Prop := length G = 8%nat /\ cX ctx = G /\ drop 8 (cb ctx) = replicate 56 0 /\ length (cb ctx) = 64%nat.
Lemma counter_block G i : length G = 8%nat ->
  (process1 G 0 (Z.lor SKEIN_T1_FLAG_FIRST SKEIN_T1_BLK_TYPE_OUT_FINAL) (le_store 8 (Z.of_nat i) ++ replicate 56 0) 8).1.1 = ubi G 63 (le_store 8 (Z.of_nat i)) false.
Proof. intros HG. rewrite process1_ref by done. rewrite ubi_block_take. exact eq_refl. Qed.
Lemma output_trip_ref G byteCnt ctx h i : counter_ok ctx G -> Z.of_nat i * 64 < byteCnt ->
  exists ctx', output_trip G byteCnt (ctx, h) i = (ctx', memcpy h (64 * i) (take (Nat.min 64 (Z.to_nat byteCnt - 64 * i)) (out_block G i))) /\ counter_ok ctx' G.
Proof.
  intros (HG & HX & Hd & Hl) Hi. unfold output_trip, Skein_512_Process_Block. cbn [with_b Skein_Start_New_Type cb bCnt hashBitLen cX hT0 hT1 Nat.sub process_loop].
  assert (Eb : memcpy (cb ctx) 0 (le_store 8 (Z.of_nat i)) = le_store 8 (Z.of_nat i) ++ replicate 56 0).
  { unfold memcpy. rewrite length_le_store. cbn [take Nat.add app]. by rewrite Hd. }
  rewrite Eb, HX. pose proof (counter_block G i HG) as E. destruct (process1 _ _ _ _ _) as [[X t0] t1]. cbn [fst] in E. subst X. cbn [cX with_X].
  refine (ex_intro _ _ (conj (f_equal2 pair eq_refl _) _)).
  - fold (out_block G i). rewrite (Nat.mul_comm i 64). f_equal. f_equal. destruct (Nat.leb_spec 64 (Z.to_nat (byteCnt - Z.of_nat i * 64))); lia.
  - split_and!; [exact HG|reflexivity|cbn [cb]; apply drop_app_length'; symmetry; apply length_le_store|exact eq_refl].
Qed.
Lemma output_loop_ref G byteCnt fuel i ctx h : counter_ok ctx G -> let B := Z.to_nat byteCnt in (B <= length h)%nat -> (B <= 64 * i + 64 * fuel)%nat ->
  (output_loop fuel i G byteCnt (ctx, h)).2 = take (64 * i) h ++ take (B - 64 * i) (flat_map (out_block G) (seq i fuel)) ++ drop (Nat.max B (64 * i)) h.
Proof.
  intros Hc B. revert i ctx h Hc. induction fuel as [|fuel IH]; intros i ctx h Hc Hh Hf.
  { cbn [output_loop seq flat_map snd]. rewrite take_nil, Nat.max_r by lia. cbn [app]. by rewrite take_drop. }
  cbn [output_loop]. destruct (Z.ltb_spec (Z.of_nat i * 64) byteCnt) as [Hi|Hi].
  - destruct (output_trip_ref G byteCnt ctx h i Hc Hi) as (ctx' & -> & Hc'). fold B. set (n := Nat.min 64 (B - 64 * i)). set (o := out_block G i).
    assert (Ho : length o = 64%nat) by apply length_out_block. assert (Hn : length (take n o) = n) by (rewrite length_take, Ho; unfold n; lia).
    assert (HBi : (64 * i < B)%nat) by lia. assert (Hm : length (memcpy h (64 * i) (take n o)) = length h) by (rewrite length_memcpy; rewrite ?Hn; unfold n; lia).
    rewrite IH by (done || lia). cbn [seq flat_map]. fold o.
    destruct (decide (B <= 64 * i + 64)%nat) as [Hlast|Hmore].
    + replace (B - 64 * S i)%nat with 0%nat by lia. rewrite take_0, app_nil_l, (Nat.max_r B (64 * S i)), take_drop, (Nat.max_l B) by lia.
      rewrite take_app_le by lia. unfold memcpy. rewrite Hn. replace (B - 64 * i)%nat with n by (unfold n; lia). replace (64 * i + n)%nat with B by (unfold n; lia). done.
    + assert (En : n = 64%nat) by (unfold n; lia). rewrite En in *. rewrite (take_ge o) by lia. rewrite !Nat.max_l by lia.
      replace (64 * S i)%nat with (64 * i + length o)%nat by lia. rewrite take_memcpy by lia.
      rewrite (take_app_ge o) by lia. rewrite Ho, <-!app_assoc. do 2 f_equal. rewrite (Nat.sub_add_distr B). f_equal.
      unfold memcpy. rewrite drop_app_ge by (rewrite length_take; lia). rewrite length_take, Nat.min_l, drop_app_ge by lia. rewrite drop_drop. f_equal. lia.
  - assert (HBi : (B <= 64 * i)%nat) by lia. cbn [snd]. replace (B - 64 * i)%nat with 0%nat by lia. rewrite take_0, app_nil_l, Nat.max_r by lia. by rewrite take_drop.
Qed.
Lemma take_blocks G (B a b : nat) : (B <= 64 * a)%nat -> (a <= b)%nat -> take B (flat_map (out_block G) (seq 0 b)) = take B (flat_map (out_block G) (seq 0 a)).
Proof.
  intros Ha Hb. replace b with (a + (b - a))%nat by lia. rewrite seq_app, flat_map_app, take_app_le; [done|]. rewrite (length_flat_seq (out_block G) 64 (length_out_block G)). lia.
Qed.

(** [Skein_512_Final] on a context that holds a message. *)
Lemma Final_ref ctx bits G m (pad : bool) h : holds ctx bits G m pad -> 0 <= bits < 2 ^ 64 - 7 -> Z.of_nat (length m) < 2 ^ 64 ->
  let B := Z.to_nat ((bits + 7) / 8) in (B <= length h)%nat ->
  (Skein_512_Final (with_T1 ctx (if pad then Z.lor (hT1 ctx) SKEIN_T1_FLAG_BIT_PAD else hT1 ctx)) h).2
  = take B (flat_map (out_block (ubi G 48 m pad)) (seq 0 (Z.to_nat (((bits + 7) / 8 + 63) / 64)))) ++ drop B h.
Proof.
  intros (Hok & Hbits & HX & H0 & H1 & Htk & Hlen & HG') Hb Hm B Hh. set (k := ((length m - 1) / 64)%nat) in *. set (G' := (foldl _ _ _).1) in *. destruct Hok as [Hcb Hp].
  set (t1 := Z.lor (if pad then Z.lor (hT1 ctx) SKEIN_T1_FLAG_BIT_PAD else hT1 ctx) SKEIN_T1_FLAG_FINAL).
  assert (Et : Z.of_nat (length m) + t1 * 2 ^ 64 = tweak 48 (Z.of_nat (length m)) (k =? 0)%nat true pad).
  { unfold t1, tweak. rewrite H1. unfold t1_at. replace (Z.of_nat k =? 0) with (k =? 0)%nat by (destruct (Nat.eqb_spec k 0), (Z.eqb_spec (Z.of_nat k) 0); lia || done).
    destruct (k =? 0)%nat, pad; cbn [Z.b2z andb]; match goal with |- context [Z.lor ?a ?b] => let v := eval vm_compute in (Z.lor a b) in change (Z.lor a b) with v end; lia. }
  set (b := drop (64 * k) m ++ replicate (64 - bCnt ctx) 0).
  set (c2 := if (bCnt ctx <? 64)%nat then with_b (with_T1 ctx t1) (memset0 (cb ctx) (bCnt ctx) (64 - bCnt ctx)) (bCnt ctx) else with_T1 ctx t1).
  assert (Ec : cb c2 = b /\ hT0 c2 = hT0 ctx /\ hT1 c2 = t1 /\ cX c2 = G' /\ bCnt c2 = bCnt ctx /\ hashBitLen c2 = bits).
  { unfold c2, b. rewrite <-Htk. destruct (Nat.ltb_spec (bCnt ctx) 64) as [Hlt|Hge]; cbn [with_b with_T1 cb hT0 hT1 cX bCnt hashBitLen]; split_and!; try done.
    - by apply zero_pad.
    - replace (64 - bCnt ctx)%nat with 0%nat by lia. cbn [replicate]. rewrite app_nil_r, take_ge by lia. done. }
  destruct Ec as (C1 & C2 & C3 & C4 & C5 & C6).
  unfold Skein_512_Final. cbn [with_T1 hT1 bCnt cb]. fold t1. change (with_T1 (with_T1 ctx _) t1) with (with_T1 ctx t1). cbn [with_T1 bCnt cb].
  fold c2. unfold Skein_512_Process_Block. cbn [Nat.sub process_loop]. rewrite C1, C2, C3, C4, C5, process1_ref by done. cbn [with_b cX hashBitLen bCnt hT0 hT1].
  assert (Ea : add64 (hT0 ctx) (Z.of_nat (bCnt ctx)) = Z.of_nat (length m)) by (unfold add64; rewrite T64_mod, Z.mod_small by lia; lia).
  assert (EU : ubi_block G' (tweak 48 (Z.of_nat (length m)) (k =? 0)%nat true pad) b = ubi G 48 m pad).
  { assert (Eb : b = drop (64 * k) m ++ replicate (64 - length (drop (64 * k) m)) 0) by (unfold b; rewrite length_drop; do 2 f_equal; lia). rewrite Eb. reflexivity. }
  rewrite Ea, ubi_block_take, Et, EU, C6. assert (HU : length (ubi G 48 m pad) = 8%nat) by apply length_ubi_block. generalize dependent (ubi G 48 m pad). intros U _ HU.
  rewrite T64_mod, Z.mod_small, Z.shiftr_div_pow2 by lia. change (2 ^ 3) with 8. fold B.
  rewrite output_loop_ref; [|split_and!; [exact HU|reflexivity|reflexivity|reflexivity]|done|lia]. fold B. rewrite Nat.mul_0_r, take_0, app_nil_l, Nat.sub_0_r, Nat.max_l by lia. f_equal.
  assert (HB : 0 <= (bits + 7) / 8) by (apply Z.div_pos; lia). pose proof (Z.div_mod ((bits + 7) / 8 + 63) 64 ltac:(lia)) as Hd. pose proof (Z.mod_pos_bound ((bits + 7) / 8 + 63) 64 ltac:(lia)).
  apply take_blocks; unfold B; [lia|]. destruct (decide ((bits + 7) / 8 = 0)) as [->|]; [done|lia].
Qed.

(** ** The hash *)

Lemma skein_pad_byte_ref d n : word 8 d -> 0 <= n < 8 -> let mask := T8 (Z.shiftl 1 (7 - n)) in T8 (Z.lor (Z.land d (0 - mask)) mask) = last_bits d n.
Proof.
  intros Hd Hn. unfold last_bits. cbv zeta. apply Z.eqb_eq. assert (n = 0 \/ n = 1 \/ n = 2 \/ n = 3 \/ n = 4 \/ n = 5 \/ n = 6 \/ n = 7) as Hcases by lia.
  revert d Hd. destruct Hcases as [->|[->|[->|[->|[->|[->|[->| ->]]]]]]]; apply all_bytes_spec; vm_compute; reflexivity.
Qed.
Lemma with_T1_id ctx : with_T1 ctx (hT1 ctx) = ctx.
Proof. by destruct ctx. Qed.
(** [skein_hash] writes the Skein-512 digest of the first [databitlen] bits. *)
Lemma skein_hash_ref stack bits data L h : length (cb stack) = 64%nat -> 0 <= bits < 2 ^ 64 - 7 -> bytes data -> 0 <= L < 8 * Z.of_nat (length data) + 1 -> Z.of_nat (length data) < 2 ^ 60 ->
  let B := Z.to_nat ((bits + 7) / 8) in (B <= length h)%nat ->
  skein_hash stack bits data L h = skein_bits bits (take (Z.to_nat (L / 8)) data) (data !!! Z.to_nat (L / 8)) (L mod 8) ++ drop B h.
Proof.
  intros Hs Hb Hd HL Hlen B Hh. unfold skein_hash, Final, Init, Update. rewrite (T64_mod bits), (Z.mod_small bits) by lia.
  change 7 with (Z.ones 3). rewrite Z.land_ones, Z.shiftr_div_pow2 by lia. change (2 ^ 3) with 8.
  pose proof (Init_ref stack bits Hs) as Hi. set (c0 := Skein_512_Init stack bits) in *. clearbody c0. set (m := take (Z.to_nat (L / 8)) data).
  assert (Hm : (length m <= length data)%nat) by (unfold m; rewrite length_take; lia). pose proof (Z.mod_pos_bound L 8 ltac:(lia)) as Hn. unfold skein_bits.
  destruct (Z.eqb_spec (L mod 8) 0) as [E|E]; cbn [negb].
  - pose proof (update_holds c0 bits _ m false Hi (length_skein_iv bits) ltac:(lia)) as Hu. pose proof (Final_ref _ bits _ m false h Hu Hb ltac:(lia) Hh) as F. by rewrite with_T1_id in F.
  - rewrite Nat.add_sub. fold m. set (x := data !!! Z.to_nat (L / 8)).
    assert (Hx : word 8 x). { unfold x. destruct (lookup_lt_is_Some_2 data (Z.to_nat (L / 8))) as [v Hv]; [pose proof (Z.div_mod L 8 ltac:(lia)); lia|]. rewrite (list_lookup_total_correct _ _ _ Hv). exact (Forall_lookup_1 _ _ _ _ Hd Hv). }
    change (Z.ones 3) with 7. rewrite (skein_pad_byte_ref x (L mod 8) Hx Hn).
    pose proof (update2_holds c0 bits _ m (last_bits x (L mod 8)) true Hi (length_skein_iv bits) ltac:(lia)) as Hu.
    refine (Final_ref _ bits _ _ true h Hu Hb _ Hh). rewrite length_app. cbn [length]. lia.
Qed.
(** [xmr_skein] is Skein-512-256 of the 200 bytes of a CryptoNight state. *)
Lemma xmr_skein_ref stack data h : length (cb stack) = 64%nat -> length data = 200%nat -> length h = 32%nat -> xmr_skein stack data h = skein_digest 32 data 0 0.
Proof.
  intros Hs Hd Hh. unfold xmr_skein. change (Z.to_nat (Z.shiftr 1600 3)) with 200%nat. rewrite take_ge by lia. set (c0 := Skein_Start_New_Type _ _).
  assert (Hf : fresh c0 256 IV256) by (split_and!; done). pose proof (update_holds c0 256 IV256 data false Hf eq_refl ltac:(lia)) as Hu.
  pose proof (Final_ref _ 256 _ data false h Hu ltac:(lia) ltac:(lia)) as F. rewrite with_T1_id in F. rewrite F by (rewrite Hh; apply Nat.le_refl). clear F.
  change (Z.to_nat ((256 + 7) / 8)) with 32%nat. change (Z.to_nat (((256 + 7) / 8 + 63) / 64)) with 1%nat. rewrite drop_ge, app_nil_r by lia. cbn [seq flat_map]. rewrite app_nil_r.
  unfold skein_digest. rewrite (proj1 (proj2 skein_ivs)). reflexivity.
Qed.
End CnSkein.
