(* ===== verification/CnKeccak.v ===== *)
(** * The Keccak of CryptoNight ([base/crypto/keccak.cpp]).

    CryptoNight hashes its input to a full 200-byte state and permutes that state
    again at the end.  The file has its own, plain implementation of the
    permutation; the theorems show that it is Keccak-f[1600] of FIPS 202 and that
    the digest agrees with the sponge of [Keccak]. *)
From S2P Require Import Prelude Stream Keccak.

Definition HASH_DATA_AREA : nat := 136.
Definition KECCAK_ROUNDS : nat := 24.

Definition keccakf_rndc : list Z := [
  0x1; 0x8082; 0x8000_0000_0000_808a; 0x8000_0000_8000_8000; 0x808b; 0x8000_0001;
  0x8000_0000_8000_8081; 0x8000_0000_0000_8009; 0x8a; 0x88; 0x8000_8009; 0x8000_000a;
  0x8000_808b; 0x8000_0000_0000_008b; 0x8000_0000_0000_8089; 0x8000_0000_0000_8003;
  0x8000_0000_0000_8002; 0x8000_0000_0000_0080; 0x800a; 0x8000_0000_8000_000a;
  0x8000_0000_8000_8081; 0x8000_0000_0000_8080; 0x8000_0001; 0x8000_0000_8000_8008].

(** [bc[i] = st[i] ^ st[i + 5] ^ ..], then the macro [X(i)] for each column. *)
Definition theta_step (st : list Z) : list Z :=
  let bc := (fun i => Z.lxor (Z.lxor (Z.lxor (Z.lxor (st !!! i) (st !!! (i + 5)%nat)) (st !!! (i + 10)%nat))
                               (st !!! (i + 15)%nat)) (st !!! (i + 20)%nat)) <$> [0; 1; 2; 3; 4]%nat in
  foldl (fun st i =>
    let t := Z.lxor (bc !!! ((i + 4) mod 5)%nat) (rotl64 (bc !!! ((i + 1) mod 5)%nat) 1) in
    foldl (fun st k => <[k := Z.lxor (st !!! k) t]> st) st [i; i + 5; i + 10; i + 15; i + 20]%nat)
    st [0; 1; 2; 3; 4]%nat.

(** [st[d] = ROTL64(st[s], r)] in the order of the source, with the first lane
    saved in [t]. *)
Definition rho_pi_moves : list (nat * nat * Z) :=
  [(1, 6, 44%Z); (6, 9, 20%Z); (9, 22, 61%Z); (22, 14, 39%Z); (14, 20, 18%Z); (20, 2, 62%Z);
   (2, 12, 43%Z); (12, 13, 25%Z); (13, 19, 8%Z); (19, 23, 56%Z); (23, 15, 41%Z); (15, 4, 27%Z);
   (4, 24, 14%Z); (24, 21, 2%Z); (21, 8, 55%Z); (8, 16, 45%Z); (16, 5, 36%Z); (5, 3, 28%Z);
   (3, 18, 21%Z); (18, 17, 15%Z); (17, 11, 10%Z); (11, 7, 6%Z); (7, 10, 3%Z)]%nat.
Definition rho_pi_step (st : list Z) : list Z :=
  let t := st !!! 1%nat in
  let st := foldl (fun st '(d, s, r) => <[d := rotl64 (st !!! s) r]> st) st rho_pi_moves in
  <[10%nat := rotl64 t 1]> st.

(** A row of chi, updated in place: only the first two lanes are saved. *)
Definition chi_row (st : list Z) (j : nat) : list Z :=
  let bc0 := st !!! j in
  let bc1 := st !!! (j + 1)%nat in
  let andn a b := Z.land (not64 a) b in
  let st := <[j := Z.lxor (st !!! j) (andn (st !!! (j + 1)%nat) (st !!! (j + 2)%nat))]> st in
  let st := <[(j + 1)%nat := Z.lxor (st !!! (j + 1)%nat) (andn (st !!! (j + 2)%nat) (st !!! (j + 3)%nat))]> st in
  let st := <[(j + 2)%nat := Z.lxor (st !!! (j + 2)%nat) (andn (st !!! (j + 3)%nat) (st !!! (j + 4)%nat))]> st in
  let st := <[(j + 3)%nat := Z.lxor (st !!! (j + 3)%nat) (andn (st !!! (j + 4)%nat) bc0)]> st in
  <[(j + 4)%nat := Z.lxor (st !!! (j + 4)%nat) (andn bc0 bc1)]> st.

(** The last row saves all five lanes first. *)
Definition chi_last_row (st : list Z) : list Z :=
  let j := 20%nat in
  let bc := (fun k => st !!! (j + k)%nat) <$> [0; 1; 2; 3; 4]%nat in
  foldl (fun st k => <[(j + k)%nat := Z.lxor (st !!! (j + k)%nat)
           (Z.land (not64 (bc !!! ((k + 1) mod 5)%nat)) (bc !!! ((k + 2) mod 5)%nat))]> st) st [0; 1; 2; 3; 4]%nat.

Definition keccakf_round (st : list Z) (round : nat) : list Z :=
  let st := theta_step st in
  let st := rho_pi_step st in
  let st := foldl chi_row st [0; 5; 10; 15]%nat in
  let st := chi_last_row st in
  <[0%nat := Z.lxor (st !!! 0%nat) (keccakf_rndc !!! round)]> st.
Definition keccakf (st : list Z) (rounds : nat) : list Z := foldl keccakf_round st (seq 0 rounds).

(** [st[i] ^= ((uint64_t * ) p)[i]] for [i < rsizw]. *)
Definition xor_words (st p : list Z) (rsizw : nat) : list Z :=
  foldl (fun st i => <[i := Z.lxor (st !!! i) (le_load 8 (slice (8 * i) 8 p))]> st) st (seq 0 rsizw).

(** [for ( ; inlen >= rsiz; inlen -= rsiz, in += rsiz)]; a trip consumes [rsiz] bytes. *)
Fixpoint keccak_blocks (fuel : nat) (rsiz : nat) (st inp : list Z) : list Z * list Z :=
  match fuel with
  | O => (st, inp)
  | S fuel =>
      if (rsiz <=? length inp)%nat
      then keccak_blocks fuel rsiz (keccakf (xor_words st inp (rsiz / 8)) KECCAK_ROUNDS) (drop rsiz inp)
      else (st, inp)
  end.

Definition keccak_rsiz (mdlen : nat) : nat := if (mdlen =? 200)%nat then HASH_DATA_AREA else 200 - 2 * mdlen.

(** [junk] is the uninitialised [temp[144]]. *)
Definition keccak (junk inp : list Z) (mdlen : nat) : list Z :=
  let rsiz := keccak_rsiz mdlen in
  let '(st, inp) := keccak_blocks (length inp) rsiz (replicate 25 0) inp in
  let temp := memcpy junk 0 inp in
  let temp := <[length inp := 1]> temp in
  let temp := memset0 temp (length inp + 1) (rsiz - (length inp + 1)) in
  let temp := <[(rsiz - 1)%nat := Z.lor (temp !!! (rsiz - 1)%nat) 0x80]> temp in
  let st := keccakf (xor_words st temp (rsiz / 8)) KECCAK_ROUNDS in
  take mdlen (flat_map (le_store 8) st).

(** ** The permutation *)

Lemma rndc_RC : keccakf_rndc = RC.
Proof. reflexivity. Qed.

Ltac state25 st H :=
  do 25 (destruct st as [|? st]; [discriminate H|]); destruct st; [clear H|discriminate H].

Lemma theta_step_correct st : length st = 25%nat -> theta_step st = theta st.
Proof. intros H. state25 st H. reflexivity. Qed.
Lemma rho_pi_correct st : length st = 25%nat -> words64 st -> rho_pi_step st = pi (rho st).
Proof.
  intros H Hw. state25 st H.
  transitivity (<[0%nat := z]> (pi (rho [z; z0; z1; z2; z3; z4; z5; z6; z7; z8; z9; z10; z11; z12; z13; z14; z15;
                                          z16; z17; z18; z19; z20; z21; z22; z23]))); [reflexivity|].
  apply list_insert_id. change (Some (rotl64 z 0) = Some z). f_equal. apply rotl64_0.
  by inversion Hw.
Qed.
Lemma chi_steps_correct st : length st = 25%nat -> chi_last_row (foldl chi_row st [0; 5; 10; 15]%nat) = chi st.
Proof. intros H. state25 st H. reflexivity. Qed.

Lemma round_correct st i :
  length st = 25%nat -> words64 st -> (i < 24)%nat -> keccakf_round st i = keccak_round st i.
Proof.
  intros H Hw Hi. unfold keccakf_round, keccak_round, iota. rewrite theta_step_correct by done.
  assert (Ht : length (theta st) = 25%nat) by apply length_tabulate.
  rewrite rho_pi_correct; [|done|by apply words_theta].
  rewrite chi_steps_correct by apply length_tabulate.
  rewrite rndc_RC, <-RC_correct, tabulate_lookup by done. done.
Qed.

Lemma word_RC i : word 64 (RC !!! i).
Proof.
  apply words64_lookup. refine (proj2 (List.Forall_forall _ _) _). intros x Hx.
  pose proof (proj1 (forallb_forall (fun x => (0 <=? x) && (x <? 2 ^ 64)) RC) eq_refl x Hx) as H.
  apply andb_prop in H as [H1%Z.leb_le H2%Z.ltb_lt]. by split.
Qed.
Lemma words_chi A : words64 A -> words64 (chi A).
Proof.
  intros HA. apply Forall_tabulate. intros j _. apply word_lxor; [lia|by apply words64_lookup|].
  apply word_land_r; [lia|]. by apply words64_lookup.
Qed.
Lemma round_state A i :
  length A = 25%nat -> words64 A -> (i < 24)%nat ->
  length (keccak_round A i) = 25%nat /\ words64 (keccak_round A i).
Proof.
  intros HA Hw Hi. unfold keccak_round, iota. rewrite length_insert. split; [apply length_tabulate|].
  apply Forall_insert; [by apply words_chi, words_pi, words_rho, words_theta|].
  apply word_lxor; [lia|by apply words64_lookup, words_chi, words_pi, words_rho, words_theta|].
  rewrite <-(tabulate_lookup round_constant 24) by done. rewrite RC_correct. apply word_RC.
Qed.

Lemma keccakf_rounds st n :
  length st = 25%nat -> words64 st -> (n <= 24)%nat ->
  keccakf st n = foldl keccak_round st (seq 0 n) /\ length (keccakf st n) = 25%nat /\ words64 (keccakf st n).
Proof.
  intros Hst Hw. unfold keccakf. induction n as [|n IH]; intros Hn; [done|].
  destruct (IH ltac:(lia)) as (E & Hl & Hw'). rewrite seq_S, !foldl_app, <-E. cbn [foldl].
  rewrite Nat.add_0_l, round_correct by done. split; [done|]. by apply round_state.
Qed.
Lemma keccakf_correct st :
  length st = 25%nat -> words64 st ->
  keccakf st KECCAK_ROUNDS = keccak_f st /\ length (keccakf st KECCAK_ROUNDS) = 25%nat /\
  words64 (keccakf st KECCAK_ROUNDS).
Proof. intros. by apply (keccakf_rounds st 24). Qed.

(** ** The sponge *)

#[local] Opaque keccakf keccak_f.

Section Sponge.
Context (r : nat).
Hypothesis r_range : (8 <= r <= 144)%nat.
Hypothesis r_words : (r mod 8 = 0)%nat.

Lemma xor_words_block st p : length st = 25%nat -> xor_words st p (r / 8) = xor_in r (take r p) st.
Proof.
  intros Hst. change (xor_words st p (r / 8)) with (INPUT_BUF r p st).
  rewrite <-INPUT_BUF_take by done. apply INPUT_BUF_xor_in; [done|].
  apply (Nat.Div0.div_le_mono r 200 8). lia.
Qed.

Lemma block_step st p :
  length st = 25%nat -> words64 st -> bytes (take r p) ->
  keccakf (xor_words st p (r / 8)) KECCAK_ROUNDS = absorb_block r st (take r p) /\
  length (absorb_block r st (take r p)) = 25%nat /\ words64 (absorb_block r st (take r p)).
Proof.
  intros Hst Hw Hp. rewrite xor_words_block by done. unfold absorb_block.
  destruct (keccakf_correct (xor_in r (take r p) st)) as (E & H1 & H2);
    [apply length_tabulate|by apply words_xor_in|].
  rewrite E in H1, H2. exact (conj E (conj H1 H2)).
Qed.

Lemma keccak_blocks_spec fuel st inp :
  length st = 25%nat -> words64 st -> bytes inp -> (length inp <= fuel)%nat ->
  keccak_blocks fuel r st inp = (foldl (absorb_block r) st (blocks r inp), leftover r inp) /\
  length (foldl (absorb_block r) st (blocks r inp)) = 25%nat /\ words64 (foldl (absorb_block r) st (blocks r inp)).
Proof.
  revert st inp. induction fuel as [|fuel IH]; intros st inp Hst Hw Hb Hf.
  { assert (inp = []) as -> by (apply nil_length_inv; lia). unfold blocks, leftover. cbn [length].
    rewrite Nat.Div0.div_0_l, Nat.mul_0_r. done. }
  cbn [keccak_blocks]. destruct (Nat.leb_spec r (length inp)) as [Hle|Hlt].
  - destruct (block_step st inp Hst Hw ltac:(by apply Forall_take)) as (E & H1 & H2). rewrite E.
    destruct (IH (absorb_block r st (take r inp)) (drop r inp)) as (E' & H1' & H2');
      [done|done|by apply Forall_drop|rewrite length_drop; lia|].
    assert (Hd : (length inp / r = S (length (drop r inp) / r))%nat).
    { rewrite length_drop. rewrite <-Nat.div_add_l with (b := r) (a := 1%nat) by lia. f_equal. lia. }
    rewrite E'. unfold blocks, leftover in *. rewrite Hd. cbn [nblocks foldl].
    split_and!; [|done|done]. f_equal. rewrite drop_drop. f_equal. lia.
  - unfold blocks, leftover. rewrite Nat.div_small, Nat.mul_0_r by lia. done.
Qed.
End Sponge.

Section Digest.
Context (r : nat).
Hypothesis r_range : (8 <= r <= 144)%nat.
Hypothesis r_words : (r mod 8 = 0)%nat.

(** The last block: message bytes, a one bit, zeros, a one bit. *)
Definition last_block (junk rest : list Z) : list Z :=
  let temp := memcpy junk 0 rest in
  let temp := <[length rest := 1]> temp in
  let temp := memset0 temp (length rest + 1) (r - (length rest + 1)) in
  <[(r - 1)%nat := Z.lor (temp !!! (r - 1)%nat) 0x80]> temp.

Lemma memcpy_app (pre tail src : list Z) :
  memcpy (pre ++ tail) (length pre) src = pre ++ src ++ drop (length src) tail.
Proof.
  unfold memcpy. rewrite take_app_length. do 2 f_equal. rewrite drop_app_ge by lia. f_equal. lia.
Qed.
Lemma insert_app_head (pre tail : list Z) x y : <[length pre := y]> (pre ++ x :: tail) = pre ++ y :: tail.
Proof. rewrite insert_app_r_alt by lia. by rewrite Nat.sub_diag. Qed.

Lemma last_block_pad junk rest :
  length junk = 144%nat -> (length rest < r)%nat ->
  take r (last_block junk rest) = keccak_pad r rest.
Proof.
  intros Hj Hr. unfold last_block, keccak_pad, memset0. rewrite Nat.mod_small by lia.
  assert (Hd : (length (drop (length rest) junk) = 144 - length rest)%nat) by (rewrite length_drop; lia).
  pose proof (memcpy_app [] junk rest) as E0. cbn [app length] in E0. rewrite E0. clear E0.
  destruct (drop (length rest) junk) as [|x t]; cbn [length] in Hd; [lia|].
  rewrite insert_app_head. rewrite (cons_middle _ rest t), (assoc_L (++)).
  replace (length rest + 1)%nat with (length (rest ++ [1])) by (by rewrite length_app).
  rewrite memcpy_app, length_replicate, length_app. cbn [length].
  destruct (Nat.eqb_spec (r - length rest) 1) as [E|E].
  - replace (r - (length rest + 1))%nat with 0%nat by lia. cbn [replicate app]. rewrite drop_0.
    replace (r - 1)%nat with (length rest) by lia. rewrite <-(assoc_L (++)). cbn [app].
    rewrite insert_app_head, cons_middle, (assoc_L (++)).
    replace r with (length (rest ++ [129])) by (rewrite length_app; cbn [length]; lia).
    rewrite list_lookup_total_middle by done. apply take_app_length.
  - replace (r - (length rest + 1))%nat with (S (r - length rest - 2)) by lia. rewrite replicate_S_end.
    set (z := replicate _ 0). rewrite <-!(assoc_L (++)). cbn [app]. 
    replace (rest ++ 1 :: z ++ 0 :: drop (S (r - length rest - 2)) t)
      with ((rest ++ 1 :: z) ++ 0 :: drop (S (r - length rest - 2)) t) by (by rewrite <-(assoc_L (++))).
    assert (Hz : (r - 1)%nat = length (rest ++ 1 :: z))
      by (rewrite length_app; cbn [length]; subst z; rewrite length_replicate; lia).
    rewrite Hz, insert_app_head, list_lookup_total_middle by done.
    rewrite cons_middle, (assoc_L (++)).
    replace r with (length ((rest ++ 1 :: z) ++ [Z.lor 0 128])) at 1 by (rewrite length_app, <-Hz; cbn [length]; lia).
    rewrite take_app_length, <-(assoc_L (++)). done.
Qed.

Lemma keccak_pad_leftover m :
  blocks r (keccak_pad r m) = blocks r m ++ [keccak_pad r (leftover r m)] /\
  length (keccak_pad r (leftover r m)) = r /\ (length (leftover r m) < r)%nat.
Proof.
  pose proof (Nat.div_mod_eq (length m) r) as Hd. pose proof (Nat.mod_upper_bound (length m) r ltac:(lia)) as Hm.
  assert (Hlo : length (leftover r m) = (length m mod r)%nat) by (unfold leftover; rewrite length_drop; lia).
  assert (Hp : length (keccak_pad r (leftover r m)) = r).
  { unfold keccak_pad. rewrite Hlo, Nat.Div0.mod_mod, length_app, Hlo.
    destruct (Nat.eqb_spec (r - length m mod r) 1); cbn [length]; [lia|].
    rewrite !length_app, length_replicate. cbn [length]. lia. }
  split_and!; [|done|lia].
  assert (E : keccak_pad r m = take (r * (length m / r)) m ++ keccak_pad r (leftover r m)).
  { unfold keccak_pad. rewrite Hlo, Nat.Div0.mod_mod. unfold leftover.
    rewrite (assoc_L (++) (take _ m) (drop _ m)). by rewrite take_drop. }
  assert (Ht : length (take (r * (length m / r)) m) = (r * (length m / r))%nat) by (rewrite length_take; lia).
  rewrite E, blocks_app by (try rewrite Ht, Nat.mul_comm, Nat.Div0.mod_mul; lia). f_equal.
  - unfold blocks. rewrite Ht, Nat.mul_comm, Nat.div_mul by lia.
    pose proof (nblocks_app r (length m / r) 0 _ (drop (r * (length m / r)) m) Ht) as N.
    rewrite take_drop, Nat.add_0_r, app_nil_r in N. by rewrite Nat.mul_comm, N.
  - unfold blocks. rewrite Hp, Nat.div_same by lia. cbn [nblocks]. by rewrite take_ge by lia.
Qed.

Lemma bytes_keccak_pad m : bytes m -> bytes (keccak_pad r m).
Proof.
  intros Hm. unfold keccak_pad. apply Forall_app_2; [done|]. destruct (_ =? 1)%nat.
  - apply byte_list_dec. done.
  - repeat apply Forall_app_2; [by apply byte_list_dec| |by apply byte_list_dec].
    apply Forall_replicate. by apply word_0.
Qed.
End Digest.

(** [keccak(in, inlen, md, mdlen)] for the full state (rate 136) and for the
    digests that leave a rate the buffer can hold. *)
Lemma keccak_sponge junk inp mdlen :
  length junk = 144%nat -> bytes inp ->
  (8 <= keccak_rsiz mdlen <= 144)%nat -> (keccak_rsiz mdlen mod 8 = 0)%nat ->
  keccak junk inp mdlen = keccak_digest mdlen (keccak_rsiz mdlen) inp.
Proof.
  intros Hj Hb Hr Hr8. unfold keccak, keccak_digest. cbv zeta. set (r := keccak_rsiz mdlen) in *. clearbody r.
  destruct (keccak_blocks_spec r Hr Hr8 (length inp) (replicate 25 0) inp) as (E & H1 & H2);
    [done|by apply Forall_replicate, word_0|done|done|]. rewrite E. clear E.
  destruct (keccak_pad_leftover r Hr Hr8 inp) as (E & Hl & Hlt).
  rewrite E, foldl_app. cbn [foldl]. fold (last_block r junk (leftover r inp)).
  do 2 f_equal. destruct (block_step r Hr Hr8 (foldl (absorb_block r) (replicate 25 0) (blocks r inp))
    (last_block r junk (leftover r inp))) as (E2 & _ & _); [done|done| |].
  - rewrite last_block_pad by done. by apply bytes_keccak_pad, Forall_drop.
  - rewrite E2. rewrite last_block_pad by assumption. exact eq_refl.
Qed.

(** The two implementations of Keccak-256 in the tree agree. *)
Lemma keccak_agrees_sph junk junk' inp :
  length junk = 144%nat -> length junk' = 144%nat -> bytes inp ->
  keccak junk inp 32 = (sph_keccak256_close (sph_keccak256 (sph_keccak256_init junk') inp)).2.
Proof.
  intros Hj Hj' Hb. rewrite keccak_sponge by (first [assumption | split; apply Nat.leb_le; reflexivity | reflexivity]).
  pose proof (sponge_stream 32 136 junk' [inp]) as H. rewrite concat_cons, concat_nil, app_nil_r in H.
  symmetry. apply H; [simpl; tauto|simpl; tauto|done|done].
Qed.
