(* ===== verification/CnAes.v ===== *)
(** * AES in CryptoNight ([crypto/cn/soft_aes.h], [crypto/cn/CryptoNight_x86.h]).

    CryptoNight uses single AES rounds: ten of them, with round keys expanded
    from 32 bytes, fill and fold the scratchpad, and one is the heart of its main
    loop.  There is a table-driven software round and one with the instructions
    AESENC and AESKEYGENASSIST; a vector [__m128i] is the list of its 16 bytes.
    The theorems: the two agree, and the round keys are those of AES-256. *)
From Stdlib Require Import Btauto.
From S2P Require Import Prelude NmAes.

(** ** Vectors *)

(** The 32-bit and 64-bit lanes of a vector, and vectors from lanes. *)
Definition u32 (x : list Z) (k : nat) : Z := le_load 4 (slice (4 * k) 4 x).
Definition mm_set_epi32 (y3 y2 y1 y0 : Z) : list Z := le_store 4 y0 ++ le_store 4 y1 ++ le_store 4 y2 ++ le_store 4 y3.
Definition mm_set_epi64x (hi lo : Z) : list Z := le_store 8 lo ++ le_store 8 hi.
Definition mm_cvtsi128_si64 (x : list Z) : Z := le_load 8 (slice 0 8 x).
Definition mm_high64 (x : list Z) : Z := le_load 8 (slice 8 8 x).
(** [_mm_slli_si128(x, n)]: towards the high bytes. *)
Definition mm_slli_si128 (x : list Z) (n : nat) : list Z := replicate n 0 ++ take (16 - n) x.
(** [_mm_shuffle_epi32] with the four selectors equal: every lane becomes lane [k]. *)
Definition mm_broadcast32 (x : list Z) (k : nat) : list Z :=
  let v := slice (4 * k) 4 x in v ++ v ++ v ++ v.

(** ** Software AES *)

Definition saes_sbox : list Z := [
   0x63; 0x7c; 0x77; 0x7b; 0xf2; 0x6b; 0x6f; 0xc5; 0x30; 0x01; 0x67; 0x2b; 0xfe; 0xd7; 0xab; 0x76;
   0xca; 0x82; 0xc9; 0x7d; 0xfa; 0x59; 0x47; 0xf0; 0xad; 0xd4; 0xa2; 0xaf; 0x9c; 0xa4; 0x72; 0xc0;
   0xb7; 0xfd; 0x93; 0x26; 0x36; 0x3f; 0xf7; 0xcc; 0x34; 0xa5; 0xe5; 0xf1; 0x71; 0xd8; 0x31; 0x15;
   0x04; 0xc7; 0x23; 0xc3; 0x18; 0x96; 0x05; 0x9a; 0x07; 0x12; 0x80; 0xe2; 0xeb; 0x27; 0xb2; 0x75;
   0x09; 0x83; 0x2c; 0x1a; 0x1b; 0x6e; 0x5a; 0xa0; 0x52; 0x3b; 0xd6; 0xb3; 0x29; 0xe3; 0x2f; 0x84;
   0x53; 0xd1; 0x00; 0xed; 0x20; 0xfc; 0xb1; 0x5b; 0x6a; 0xcb; 0xbe; 0x39; 0x4a; 0x4c; 0x58; 0xcf;
   0xd0; 0xef; 0xaa; 0xfb; 0x43; 0x4d; 0x33; 0x85; 0x45; 0xf9; 0x02; 0x7f; 0x50; 0x3c; 0x9f; 0xa8;
   0x51; 0xa3; 0x40; 0x8f; 0x92; 0x9d; 0x38; 0xf5; 0xbc; 0xb6; 0xda; 0x21; 0x10; 0xff; 0xf3; 0xd2;
   0xcd; 0x0c; 0x13; 0xec; 0x5f; 0x97; 0x44; 0x17; 0xc4; 0xa7; 0x7e; 0x3d; 0x64; 0x5d; 0x19; 0x73;
   0x60; 0x81; 0x4f; 0xdc; 0x22; 0x2a; 0x90; 0x88; 0x46; 0xee; 0xb8; 0x14; 0xde; 0x5e; 0x0b; 0xdb;
   0xe0; 0x32; 0x3a; 0x0a; 0x49; 0x06; 0x24; 0x5c; 0xc2; 0xd3; 0xac; 0x62; 0x91; 0x95; 0xe4; 0x79;
   0xe7; 0xc8; 0x37; 0x6d; 0x8d; 0xd5; 0x4e; 0xa9; 0x6c; 0x56; 0xf4; 0xea; 0x65; 0x7a; 0xae; 0x08;
   0xba; 0x78; 0x25; 0x2e; 0x1c; 0xa6; 0xb4; 0xc6; 0xe8; 0xdd; 0x74; 0x1f; 0x4b; 0xbd; 0x8b; 0x8a;
   0x70; 0x3e; 0xb5; 0x66; 0x48; 0x03; 0xf6; 0x0e; 0x61; 0x35; 0x57; 0xb9; 0x86; 0xc1; 0x1d; 0x9e;
   0xe1; 0xf8; 0x98; 0x11; 0x69; 0xd9; 0x8e; 0x94; 0x9b; 0x1e; 0x87; 0xe9; 0xce; 0x55; 0x28; 0xdf;
   0x8c; 0xa1; 0x89; 0x0d; 0xbf; 0xe6; 0x42; 0x68; 0x41; 0x99; 0x2d; 0x0f; 0xb0; 0x54; 0xbb; 0x16].
Definition SAES_WPOLY : Z := 0x011b.
Definition saes_b2w (b0 b1 b2 b3 : Z) : Z :=
  Z.lor (Z.lor (Z.lor (shl32 b3 24) (shl32 b2 16)) (shl32 b1 8)) b0.
Definition saes_f2 (x : Z) : Z := Z.lxor (Z.shiftl x 1) (Z.land (Z.shiftr x 7) 1 * SAES_WPOLY).
Definition saes_f3 (x : Z) : Z := Z.lxor (saes_f2 x) x.
Definition saes_u0 (p : Z) : Z := saes_b2w (saes_f2 p) p p (saes_f3 p).
Definition saes_u1 (p : Z) : Z := saes_b2w (saes_f3 p) (saes_f2 p) p p.
Definition saes_u2 (p : Z) : Z := saes_b2w p (saes_f3 p) (saes_f2 p) p.
Definition saes_u3 (p : Z) : Z := saes_b2w p p (saes_f3 p) (saes_f2 p).

(** [saes_table[4][256]], read through one pointer. *)
Definition saes_table : list Z :=
  (saes_u0 <$> saes_sbox) ++ (saes_u1 <$> saes_sbox) ++ (saes_u2 <$> saes_sbox) ++ (saes_u3 <$> saes_sbox).

(** [soft_aesenc(ptr, key, t)]: four lookups per column, each followed by a
    shift of the word it came from; the last group uses what is left of it. *)
Definition soft_aesenc (ptr key : list Z) : list Z :=
  let t off x := saes_table !!! Z.to_nat (off + x) in
  let x0 := u32 ptr 0 in let x1 := u32 ptr 1 in let x2 := u32 ptr 2 in let x3 := u32 ptr 3 in
  let y0 := t 0 (Z.land x0 0xff) in let x0 := Z.shiftr x0 8 in
  let y1 := t 0 (Z.land x1 0xff) in let x1 := Z.shiftr x1 8 in
  let y2 := t 0 (Z.land x2 0xff) in let x2 := Z.shiftr x2 8 in
  let y3 := t 0 (Z.land x3 0xff) in let x3 := Z.shiftr x3 8 in
  let y0 := Z.lxor y0 (t 256 (Z.land x1 0xff)) in let x1 := Z.shiftr x1 8 in
  let y1 := Z.lxor y1 (t 256 (Z.land x2 0xff)) in let x2 := Z.shiftr x2 8 in
  let y2 := Z.lxor y2 (t 256 (Z.land x3 0xff)) in let x3 := Z.shiftr x3 8 in
  let y3 := Z.lxor y3 (t 256 (Z.land x0 0xff)) in let x0 := Z.shiftr x0 8 in
  let y0 := Z.lxor y0 (t 512 (Z.land x2 0xff)) in let x2 := Z.shiftr x2 8 in
  let y1 := Z.lxor y1 (t 512 (Z.land x3 0xff)) in let x3 := Z.shiftr x3 8 in
  let y2 := Z.lxor y2 (t 512 (Z.land x0 0xff)) in let x0 := Z.shiftr x0 8 in
  let y3 := Z.lxor y3 (t 512 (Z.land x1 0xff)) in let x1 := Z.shiftr x1 8 in
  let y0 := Z.lxor y0 (t 512 (x3 + 256)) in
  let y1 := Z.lxor y1 (t 512 (x0 + 256)) in
  let y2 := Z.lxor y2 (t 512 (x1 + 256)) in
  let y3 := Z.lxor y3 (t 512 (x2 + 256)) in
  mm_xor (mm_set_epi32 y3 y2 y1 y0) key.

Definition sub_word (key : Z) : Z :=
  let s i := saes_sbox !!! Z.to_nat i in
  Z.lor (Z.lor (Z.lor (shl32 (s (Z.shiftr key 24)) 24) (shl32 (s (Z.land (Z.shiftr key 16) 0xff)) 16))
               (shl32 (s (Z.land (Z.shiftr key 8) 0xff)) 8))
        (s (Z.land key 0xff)).
Definition soft_aeskeygenassist (key : list Z) (rcon : Z) : list Z :=
  let X1 := sub_word (u32 key 1) in
  let X3 := sub_word (u32 key 3) in
  mm_set_epi32 (Z.lxor (rotr32 X3 8) rcon) X3 (Z.lxor (rotr32 X1 8) rcon) X1.

(** ** Key expansion *)

Definition sl_xor (tmp1 : list Z) : list Z :=
  let tmp4 := mm_slli_si128 tmp1 4 in
  let tmp1 := mm_xor tmp1 tmp4 in
  let tmp4 := mm_slli_si128 tmp4 4 in
  let tmp1 := mm_xor tmp1 tmp4 in
  let tmp4 := mm_slli_si128 tmp4 4 in
  mm_xor tmp1 tmp4.

(** The instruction AESKEYGENASSIST, as documented: SubWord of lanes 1 and 3,
    also rotated and xored with the immediate. *)
Definition SubWord (w : list Z) : list Z := (fun b => affine (gf_inv b)) <$> w.
Definition RotWord (w : list Z) : list Z := drop 1 w ++ take 1 w.
Definition xor_rcon (w : list Z) (rc : Z) : list Z := <[0%nat := Z.lxor (w !!! 0%nat) rc]> w.
Definition lane32 (x : list Z) (k : nat) : list Z := slice (4 * k) 4 x.
Definition AesKeyGenAssist (x : list Z) (rc : Z) : list Z :=
  let X1 := SubWord (lane32 x 1) in
  let X3 := SubWord (lane32 x 3) in
  X1 ++ xor_rcon (RotWord X1) rc ++ X3 ++ xor_rcon (RotWord X3) rc.

Class AesKeyGen := { mm_aeskeygenassist : list Z -> Z -> list Z }.
Class AesKeyGenLaws `(AesKeyGen) : Prop := {
  aeskeygenassist_spec x rc : block x -> word 8 rc -> mm_aeskeygenassist x rc = AesKeyGenAssist x rc }.

Section CnAesCode.
Context `{AesNi, AesKeyGen}.

(** [aes_genkey_sub<rcon>] and [soft_aes_genkey_sub<rcon>]. *)
Definition genkey_sub (assist : list Z -> Z -> list Z) (rcon : Z) (xs : list Z * list Z) : list Z * list Z :=
  let '(xout0, xout2) := xs in
  let xout1 := mm_broadcast32 (assist xout2 rcon) 3 in
  let xout0 := mm_xor (sl_xor xout0) xout1 in
  let xout1 := mm_broadcast32 (assist xout0 0x00) 2 in
  let xout2 := mm_xor (sl_xor xout2) xout1 in
  (xout0, xout2).
Definition aes_genkey_sub := genkey_sub mm_aeskeygenassist.
Definition soft_aes_genkey_sub := genkey_sub soft_aeskeygenassist.

(** The ten round keys [k0 .. k9]. *)
Definition aes_genkey (SOFT_AES : bool) (memory : list Z) : list (list Z) :=
  let sub := if SOFT_AES then soft_aes_genkey_sub else aes_genkey_sub in
  let x01 := (slice 0 16 memory, slice 16 16 memory) in
  let x23 := sub 0x01 x01 in
  let x45 := sub 0x02 x23 in
  let x67 := sub 0x04 x45 in
  let x89 := sub 0x08 x67 in
  [x01.1; x01.2; x23.1; x23.2; x45.1; x45.2; x67.1; x67.2; x89.1; x89.2].

(** One round on eight vectors. *)
Definition aesenc (SOFT_AES : bool) (x key : list Z) : list Z :=
  if SOFT_AES then soft_aesenc x key else mm_aesenc x key.
Definition aes_round (SOFT_AES : bool) (key : list Z) (xs : list (list Z)) : list (list Z) :=
  (fun x => aesenc SOFT_AES x key) <$> xs.
End CnAesCode.

(** ** The software round is the instruction *)

Definition AesEnc (a k : list Z) : list Z := AddRoundKey (MixColumns (SubBytes (ShiftRows a))) k.
Definition fips_sbox (p : Z) : Z := affine (gf_inv p).

(** The columns of MixColumns: what a byte contributes to each byte of its
    column, by the row it is in. *)
Definition mix_row (k : Z) (s : Z) : list Z :=
  if k =? 0 then [gmul 2 s; s; s; gmul 3 s] else
  if k =? 256 then [gmul 3 s; gmul 2 s; s; s] else
  if k =? 512 then [s; gmul 3 s; gmul 2 s; s] else [s; s; gmul 3 s; gmul 2 s].

Lemma table_row off p :
  In off [0; 256; 512; 768] -> word 8 p ->
  le_store 4 (saes_table !!! Z.to_nat (off + p)) = mix_row off (fips_sbox p).
Proof.
  intros Hoff Hp.
  assert (H : forallb (fun off => all_bytes (fun p => bool_decide
    (le_store 4 (saes_table !!! Z.to_nat (off + p)) = mix_row off (fips_sbox p)))) [0; 256; 512; 768] = true)
    by (vm_compute; reflexivity).
  rewrite forallb_forall in H. apply H in Hoff. apply (all_bytes_spec _ Hoff) in Hp.
  by apply bool_decide_eq_true_1 in Hp.
Qed.

Lemma le_store_lxor n a b : le_store n (Z.lxor a b) = zip_with Z.lxor (le_store n a) (le_store n b).
Proof.
  unfold le_store, tabulate. rewrite zip_with_fmap_l, zip_with_fmap_r, zip_with_diag.
  apply list_fmap_ext. intros i x _. unfold T8. rewrite Z.shiftr_lxor.
  apply Z.bits_inj'. intros j _. rewrite Z.lxor_spec, !Z.land_spec, Z.lxor_spec. btauto.
Qed.

(** The bytes of a word, as the code extracts them. *)
Lemma word_bytes a b c d :
  bytes [a; b; c; d] ->
  let x := le_load 4 [a; b; c; d] in
  Z.land x 0xff = a /\ Z.land (Z.shiftr x 8) 0xff = b /\ Z.land (Z.shiftr (Z.shiftr x 8) 8) 0xff = c /\
  Z.shiftr (Z.shiftr (Z.shiftr x 8) 8) 8 = d.
Proof.
  intros Hb x. set (g := fun i => [a; b; c; d] !!! i).
  assert (Hg : forall i, (i < 4)%nat -> word 8 (g i)) by (intros; by apply bytes_lookup).
  rewrite !Z.shiftr_shiftr by lia. split_and!.
  - rewrite <-(Z.shiftr_0_r x). exact (gather_byte 4 g 0 Hg ltac:(lia)).
  - exact (gather_byte 4 g 1 Hg ltac:(lia)).
  - exact (gather_byte 4 g 2 Hg ltac:(lia)).
  - change (Z.shiftr x (8 * Z.of_nat 3) = d). rewrite <-(T8_id (Z.shiftr x _)); [exact (gather_byte 4 g 3 Hg ltac:(lia))|].
    assert (Hx : word 32 x) by exact (gather_word 4 g Hg). clearbody x. unfold word in *.
    change (8 * Z.of_nat 3) with 24.
    rewrite Z.shiftr_div_pow2 by lia. split; [apply Z.div_pos; lia|]. apply Z.div_lt_upper_bound; lia.
Qed.

Ltac forall_bytes := repeat (apply List.Forall_cons; [assumption|]); apply List.Forall_nil.

#[local] Opaque affine gf_inv gmul.
Lemma sub_shift z z0 z1 z2 z3 z4 z5 z6 z7 z8 z9 z10 z11 z12 z13 z14 :
  SubBytes (ShiftRows [z; z0; z1; z2; z3; z4; z5; z6; z7; z8; z9; z10; z11; z12; z13; z14])
  = fips_sbox <$> [z; z4; z9; z14; z3; z8; z13; z2; z7; z12; z1; z6; z11; z0; z5; z10].
Proof. reflexivity. Qed.

Lemma soft_aesenc_correct a k : block a -> soft_aesenc a k = AesEnc a k.
Proof.
  intros [Hl Hb]. do 16 (destruct a as [|? a]; [discriminate Hl|]). destruct a; [|discriminate Hl].
  unfold soft_aesenc, u32, AesEnc, mm_xor. cbn [slice take drop Nat.mul Nat.add].
  f_equal. unfold slice. cbn [take drop].
  pose proof (fun i => bytes_lookup _ i Hb) as W.
  assert (word 8 z /\ word 8 z0 /\ word 8 z1 /\ word 8 z2 /\ word 8 z3 /\ word 8 z4 /\ word 8 z5 /\ word 8 z6 /\
          word 8 z7 /\ word 8 z8 /\ word 8 z9 /\ word 8 z10 /\ word 8 z11 /\ word 8 z12 /\ word 8 z13 /\ word 8 z14)
    as (W0 & W1 & W2 & W3 & W4 & W5 & W6 & W7 & W8 & W9 & W10 & W11 & W12 & W13 & W14 & W15)
    by exact (conj (W 0%nat) (conj (W 1%nat) (conj (W 2%nat) (conj (W 3%nat) (conj (W 4%nat) (conj (W 5%nat) (conj (W 6%nat) (conj (W 7%nat) (conj (W 8%nat) (conj (W 9%nat) (conj (W 10%nat) (conj (W 11%nat) (conj (W 12%nat) (conj (W 13%nat) (conj (W 14%nat) (W 15%nat)))))))))))))))).
  destruct (word_bytes z z0 z1 z2) as (-> & -> & -> & ->); [forall_bytes|].
  destruct (word_bytes z3 z4 z5 z6) as (-> & -> & -> & ->); [forall_bytes|].
  destruct (word_bytes z7 z8 z9 z10) as (-> & -> & -> & ->); [forall_bytes|].
  destruct (word_bytes z11 z12 z13 z14) as (-> & -> & -> & ->); [forall_bytes|].
  rewrite <-!(Z.add_comm 256), !Z.add_assoc. change (512 + 256) with 768.
  unfold mm_set_epi32. rewrite !le_store_lxor, !table_row by (done || (simpl; tauto)).
  rewrite sub_shift. cbn [fmap list_fmap].
  generalize (fips_sbox z), (fips_sbox z0), (fips_sbox z1), (fips_sbox z2), (fips_sbox z3), (fips_sbox z4), (fips_sbox z5), (fips_sbox z6), (fips_sbox z7), (fips_sbox z8), (fips_sbox z9), (fips_sbox z10), (fips_sbox z11), (fips_sbox z12), (fips_sbox z13), (fips_sbox z14).
  clear. intros. cbv -[Z.lxor gmul].
  repeat (apply f_equal2; [bitwise|]). reflexivity.
Qed.

(** ** Key expansion: the software assist is the instruction *)

Lemma T8_testbit x j : 0 <= j -> Z.testbit (T8 x) j = Z.testbit x j && (j <? 8).
Proof. intros. unfold T8. change 0xFF with (Z.ones 8). by rewrite Z.land_spec, Z.testbit_ones_nonneg by lia. Qed.
Lemma T32_testbit x j : 0 <= j -> Z.testbit (T32 x) j = Z.testbit x j && (j <? 32).
Proof.
  intros. unfold T32. change 0xFFFFFFFF with (Z.ones 32). by rewrite Z.land_spec, Z.testbit_ones_nonneg by lia.
Qed.

Lemma rotr32_8_byte v i :
  word 32 v -> 0 <= i < 4 ->
  T8 (Z.shiftr (rotr32 v 8) (8 * i)) = T8 (Z.shiftr v (8 * ((i + 1) mod 4))).
Proof.
  intros Hv Hi. apply Z.bits_inj'. intros j Hj. rewrite !T8_testbit by done.
  destruct (Z.ltb_spec j 8); [|by rewrite !andb_false_r]. rewrite !andb_true_r, !Z.shiftr_spec by lia.
  unfold rotr32, shl32. rewrite Z.lor_spec, T32_testbit, Z.shiftr_spec, Z.shiftl_spec by lia.
  destruct (decide (i = 3)) as [->|Hne].
  - rewrite (word_high 32 v) by (done || lia). change ((3 + 1) mod 4) with 0.
    rewrite (proj2 (Z.ltb_lt _ _)), andb_true_r by lia. cbn [orb]. f_equal. lia.
  - rewrite (Z.testbit_neg_r v (j + 8 * i - (32 - 8))), andb_false_l, orb_false_r by lia.
    rewrite Z.mod_small by lia. f_equal. lia.
Qed.
Lemma store_rotr32_8 v : word 32 v -> le_store 4 (rotr32 v 8) = RotWord (le_store 4 v).
Proof.
  intros Hv. unfold le_store, tabulate, RotWord. cbn [seq fmap list_fmap drop take app].
  rewrite !(rotr32_8_byte v) by (done || lia). reflexivity.
Qed.

Lemma gather4 a b c d :
  bytes [a; b; c; d] ->
  Z.lor (Z.lor (Z.lor (shl32 d 24) (shl32 c 16)) (shl32 b 8)) a = le_load 4 [a; b; c; d].
Proof.
  intros Hb. pose proof (fun i => bytes_lookup _ i Hb) as W.
  pose proof (W 1%nat : word 8 b). pose proof (W 2%nat : word 8 c). pose proof (W 3%nat : word 8 d).
  assert (E : forall x k, word 8 x -> 0 <= k <= 24 -> shl32 x k = Z.shiftl x k).
  { intros x k Hx Hk. apply T32_id. unfold word in *. rewrite Z.shiftl_mul_pow2 by lia.
    pose proof (Z.pow_le_mono_r 2 k 24 ltac:(lia) ltac:(lia)).
    pose proof (Z.pow_pos_nonneg 2 k ltac:(lia) ltac:(lia)). nia. }
  rewrite !E by (done || lia). unfold le_load, gather. cbn [seq foldl].
  change ([a; b; c; d] !!! 0%nat) with a. change ([a; b; c; d] !!! 1%nat) with b.
  change ([a; b; c; d] !!! 2%nat) with c. change ([a; b; c; d] !!! 3%nat) with d.
  change (8 * Z.of_nat 0) with 0. change (8 * Z.of_nat 1) with 8. change (8 * Z.of_nat 2) with 16.
  change (8 * Z.of_nat 3) with 24. rewrite Z.shiftl_0_r, Z.lor_0_l. bitwise.
Qed.

Lemma sub_word_bytes a b c d :
  bytes [a; b; c; d] -> le_store 4 (sub_word (le_load 4 [a; b; c; d])) = SubWord [a; b; c; d].
Proof.
  intros Hb. unfold sub_word. cbv zeta. destruct (word_bytes a b c d Hb) as (E0 & E1 & E2 & E3).
  set (x := le_load 4 [a; b; c; d]) in *. cbv zeta in *.
  assert (F2 : Z.shiftr x 16 = Z.shiftr (Z.shiftr x 8) 8) by by rewrite Z.shiftr_shiftr by lia.
  assert (F3 : Z.shiftr x 24 = Z.shiftr (Z.shiftr (Z.shiftr x 8) 8) 8) by by rewrite !Z.shiftr_shiftr by lia.
  rewrite F2, F3, E0, E1, E2, E3.
  assert (Hs : forall x, word 8 (saes_sbox !!! Z.to_nat x)) by exact word_sbox.
  rewrite gather4 by (repeat (apply List.Forall_cons; [apply Hs|]); apply List.Forall_nil).
  set (s := [_; _; _; _]). change 4%nat with (length s). rewrite le_store_load
    by (repeat (apply List.Forall_cons; [apply Hs|]); apply List.Forall_nil).
  unfold SubWord. cbn [fmap list_fmap].
  pose proof (fun i => bytes_lookup _ i Hb) as W.
  rewrite <-(sbox_spec a (W 0%nat)), <-(sbox_spec b (W 1%nat)), <-(sbox_spec c (W 2%nat)), <-(sbox_spec d (W 3%nat)).
  reflexivity.
Qed.
Lemma word_sub_word x : word 32 (sub_word x).
Proof.
  assert (Hs : forall x, word 8 (saes_sbox !!! Z.to_nat x)) by exact word_sbox.
  unfold sub_word. repeat apply word_lor; try apply word_shl32; try lia.
  eapply word_mono; [|apply Hs]. lia.
Qed.
Lemma store_byte_xor v rc : word 8 rc -> le_store 4 (Z.lxor v rc) = xor_rcon (le_store 4 v) rc.
Proof.
  intros Hrc. rewrite le_store_lxor. unfold le_store, tabulate, xor_rcon. cbn [seq fmap list_fmap zip_with].
  assert (E : forall k, 8 <= k -> T8 (Z.shiftr rc k) = 0).
  { intros k Hk. apply Z.bits_inj'. intros j Hj. rewrite T8_testbit, Z.shiftr_spec, Z.bits_0 by lia.
    by rewrite (word_high 8 rc) by (done || lia). }
  rewrite (E (8 * Z.of_nat 1)), (E (8 * Z.of_nat 2)), (E (8 * Z.of_nat 3)) by lia.
  change (8 * Z.of_nat 0) with 0. rewrite !Z.shiftr_0_r, (T8_id rc Hrc), !Z.lxor_0_r. reflexivity.
Qed.

Lemma soft_assist_correct x rc : block x -> word 8 rc -> soft_aeskeygenassist x rc = AesKeyGenAssist x rc.
Proof.
  intros [Hl Hb] Hrc. unfold soft_aeskeygenassist, AesKeyGenAssist, mm_set_epi32, u32, lane32. cbv zeta.
  assert (E : forall k, (k < 4)%nat -> le_store 4 (sub_word (le_load 4 (slice (4 * k) 4 x))) = SubWord (slice (4 * k) 4 x)).
  { intros k Hk. assert (Hs : length (slice (4 * k) 4 x) = 4%nat) by (apply length_slice; lia).
    assert (Hsb : bytes (slice (4 * k) 4 x)) by by apply Forall_slice.
    destruct (slice (4 * k) 4 x) as [|a [|b [|c [|d [|? ?]]]]]; try discriminate Hs. by apply sub_word_bytes. }
  rewrite !store_byte_xor by done. rewrite !store_rotr32_8 by apply word_sub_word. by rewrite !E by lia.
Qed.

(** ** The round keys are those of AES-256 *)

Definition xor4 (a b : list Z) : list Z := zip_with Z.lxor a b.
(** FIPS-197, section 5.2, with Nk = 8: word [i] from the words before it. *)
Definition aes256_word (ws : list (list Z)) (i : nat) : list Z :=
  let temp := ws !!! (i - 1)%nat in
  let temp := if (i mod 8 =? 0)%nat then xor_rcon (RotWord (SubWord temp)) (fips_rcon (i / 8))
              else if (i mod 8 =? 4)%nat then SubWord temp else temp in
  xor4 (ws !!! (i - 8)%nat) temp.
Definition aes256_words (key : list Z) : list (list Z) :=
  foldl (fun ws i => ws ++ [aes256_word ws i]) ((fun j => lane32 key j) <$> seq 0 8) (seq 8 32).
(** The first ten round keys. *)
Definition aes256_round_keys (key : list Z) : list (list Z) :=
  (fun r => concat ((fun k => aes256_words key !!! (4 * r + k)%nat) <$> seq 0 4)) <$> seq 0 10.

Lemma xor_rcon_lxor a b c d rc : xor_rcon [a; b; c; d] rc = [Z.lxor a rc; b; c; d].
Proof. reflexivity. Qed.

#[local] Opaque affine gf_inv.
Lemma genkey_sub_words rc a0 a1 a2 a3 a4 a5 a6 a7 :
  Forall (fun a => length a = 4%nat) [a0; a1; a2; a3; a4; a5; a6; a7] ->
  let b0 := xor4 a0 (xor_rcon (RotWord (SubWord a7)) rc) in
  let b1 := xor4 a1 b0 in let b2 := xor4 a2 b1 in let b3 := xor4 a3 b2 in
  let b4 := xor4 a4 (SubWord b3) in
  let b5 := xor4 a5 b4 in let b6 := xor4 a6 b5 in let b7 := xor4 a7 b6 in
  genkey_sub AesKeyGenAssist rc (concat [a0; a1; a2; a3], concat [a4; a5; a6; a7])
  = (concat [b0; b1; b2; b3], concat [b4; b5; b6; b7]).
Proof.
  intros H. repeat (apply Forall_cons_1 in H as [? H]).
  repeat match goal with E : length ?a = 4%nat |- _ =>
    destruct a as [|? [|? [|? [|? [|? ?]]]]]; try discriminate E; clear E end.
  cbv -[Z.lxor affine gf_inv]. rewrite !Z.lxor_0_r, !Z.lxor_assoc. reflexivity.
Qed.

Lemma length_xor4 a b : length a = 4%nat -> length b = 4%nat -> length (xor4 a b) = 4%nat.
Proof. intros Ha Hb. unfold xor4. rewrite length_zip_with. lia. Qed.
Lemma length_SubWord a : length (SubWord a) = length a.
Proof. apply length_fmap. Qed.
Lemma length_RotWord a : length (RotWord a) = length a.
Proof. unfold RotWord. rewrite length_app, length_drop, length_take. lia. Qed.
Lemma length_xor_rcon a rc : length (xor_rcon a rc) = length a.
Proof. apply length_insert. Qed.

(** The next eight words of the schedule. *)
Definition next8 (rc : Z) (a : list (list Z)) : list (list Z) :=
  let b0 := xor4 (a !!! 0%nat) (xor_rcon (RotWord (SubWord (a !!! 7%nat))) rc) in
  let b1 := xor4 (a !!! 1%nat) b0 in let b2 := xor4 (a !!! 2%nat) b1 in let b3 := xor4 (a !!! 3%nat) b2 in
  let b4 := xor4 (a !!! 4%nat) (SubWord b3) in
  let b5 := xor4 (a !!! 5%nat) b4 in let b6 := xor4 (a !!! 6%nat) b5 in let b7 := xor4 (a !!! 7%nat) b6 in
  [b0; b1; b2; b3; b4; b5; b6; b7].

Lemma aes256_words_next8 key :
  aes256_words key =
  let a := (fun j => lane32 key j) <$> seq 0 8 in
  let b := next8 1 a in let c := next8 2 b in let d := next8 4 c in let e := next8 8 d in
  a ++ b ++ c ++ d ++ e.
Proof. reflexivity. Qed.

Definition word4 (w : list Z) : Prop := length w = 4%nat /\ bytes w.
Lemma word4_xor a b : word4 a -> word4 b -> word4 (xor4 a b).
Proof.
  intros [Ha Ba] [Hb Bb]. split; [by apply length_xor4|]. apply Forall_lookup. intros i x Hx.
  unfold xor4 in Hx. rewrite lookup_zip_with in Hx.
  destruct (a !! i) as [y|] eqn:E1; [|done]. destruct (b !! i) as [z|] eqn:E2; [|done]. injection Hx as <-.
  apply word_lxor; [lia|exact (Forall_lookup_1 _ _ _ _ Ba E1)|exact (Forall_lookup_1 _ _ _ _ Bb E2)].
Qed.
Lemma word4_sub a : word4 a -> word4 (SubWord a).
Proof.
  intros [Ha Ba]. split; [by rewrite length_SubWord|]. unfold SubWord. apply Forall_fmap.
  refine (List.Forall_impl _ _ Ba). intros x Hx. cbn. rewrite <-sbox_spec by done. apply word_sbox.
Qed.
Lemma word4_rot a : word4 a -> word4 (RotWord a).
Proof.
  intros [Ha Ba]. split; [by rewrite length_RotWord|]. apply Forall_app_2; [by apply Forall_drop|by apply Forall_take].
Qed.
Lemma word4_rcon a rc : word4 a -> word 8 rc -> word4 (xor_rcon a rc).
Proof.
  intros [Ha Ba] Hr. split; [by rewrite length_xor_rcon|]. apply bytes_insert; [done|].
  apply word_lxor; [lia|by apply bytes_lookup|done].
Qed.
#[local] Hint Resolve word4_xor word4_sub word4_rot word4_rcon : words.

Definition words8 (a : list (list Z)) : Prop := length a = 8%nat /\ Forall word4 a.
Lemma words8_lookup a i : words8 a -> (i < 8)%nat -> word4 (a !!! i).
Proof.
  intros [Hl Ha] Hi. rewrite list_lookup_total_alt. destruct (a !! i) eqn:E; [exact (Forall_lookup_1 _ _ _ _ Ha E)|].
  apply lookup_ge_None in E. lia.
Qed.
Lemma words8_next8 rc a : word 8 rc -> words8 a -> words8 (next8 rc a).
Proof.
  intros Hrc Ha. pose proof (fun i => words8_lookup a i Ha) as W. split; [done|]. unfold next8. cbv zeta.
  pose proof (W 0%nat ltac:(lia)). pose proof (W 1%nat ltac:(lia)). pose proof (W 2%nat ltac:(lia)).
  pose proof (W 3%nat ltac:(lia)). pose proof (W 4%nat ltac:(lia)). pose proof (W 5%nat ltac:(lia)).
  pose proof (W 6%nat ltac:(lia)). pose proof (W 7%nat ltac:(lia)). clear W.
  repeat (apply List.Forall_cons; [solve [auto 20 with words]|]). constructor.
Qed.
Lemma block_words a : words8 a -> block (concat (take 4 a)) /\ block (concat (drop 4 a)).
Proof.
  intros [Hl Ha]. do 8 (destruct a as [|? a]; [discriminate Hl|]). destruct a; [|discriminate Hl].
  repeat (apply Forall_cons_1 in Ha as [[? ?] Ha]). cbn [take drop concat].
  split; (split; [rewrite !length_app; cbn [length]; lia|]); repeat apply Forall_app_2; try done; constructor.
Qed.

Section GenKey.
Context (assist : list Z -> Z -> list Z).
Hypothesis assist_ok : forall x rc, block x -> word 8 rc -> assist x rc = AesKeyGenAssist x rc.

Lemma genkey_sub_ref rc x : word 8 rc -> block x.1 -> block x.2 ->
  block (genkey_sub AesKeyGenAssist rc x).1 -> genkey_sub assist rc x = genkey_sub AesKeyGenAssist rc x.
Proof.
  intros Hrc H1 H2 H3. destruct x as [x0 x2]. unfold genkey_sub in *. cbn [fst snd] in *. rewrite (assist_ok x2 rc) by done.
  rewrite assist_ok; [done|done|by apply word_0].
Qed.

(** Two round keys from the two before. *)
Lemma genkey_step rc a :
  word 8 rc -> words8 a ->
  genkey_sub assist rc (concat (take 4 a), concat (drop 4 a))
  = (concat (take 4 (next8 rc a)), concat (drop 4 (next8 rc a))).
Proof.
  intros Hrc Ha.
  assert (E : genkey_sub AesKeyGenAssist rc (concat (take 4 a), concat (drop 4 a))
              = (concat (take 4 (next8 rc a)), concat (drop 4 (next8 rc a)))).
  { pose proof Ha as [Hl Ha']. do 8 (destruct a as [|? a]; [discriminate Hl|]). destruct a; [|discriminate Hl].
    apply genkey_sub_words. refine (List.Forall_impl _ _ Ha'). by intros ? []. }
  destruct (block_words _ Ha). rewrite genkey_sub_ref; [done|done|done|done|].
  rewrite E. by apply block_words, words8_next8.
Qed.
End GenKey.

Lemma words8_key key : length key = 32%nat -> bytes key -> words8 ((fun j => lane32 key j) <$> seq 0 8).
Proof.
  intros Hl Hb. split; [done|]. apply Forall_fmap, Forall_seq. intros j Hj. split; [|by apply Forall_slice].
  apply length_slice. lia.
Qed.

Lemma regroup (a b c d e : list (list Z)) :
  length a = 8%nat -> length b = 8%nat -> length c = 8%nat -> length d = 8%nat -> length e = 8%nat ->
  (fun r => concat ((fun k => (a ++ b ++ c ++ d ++ e) !!! (4 * r + k)%nat) <$> seq 0 4)) <$> seq 0 10
  = [concat (take 4 a); concat (drop 4 a); concat (take 4 b); concat (drop 4 b); concat (take 4 c);
     concat (drop 4 c); concat (take 4 d); concat (drop 4 d); concat (take 4 e); concat (drop 4 e)].
Proof.
  intros Ha Hb Hc Hd He.
  do 8 (destruct a as [|? a]; [discriminate Ha|]). destruct a; [|discriminate Ha].
  do 8 (destruct b as [|? b]; [discriminate Hb|]). destruct b; [|discriminate Hb].
  do 8 (destruct c as [|? c]; [discriminate Hc|]). destruct c; [|discriminate Hc].
  do 8 (destruct d as [|? d]; [discriminate Hd|]). destruct d; [|discriminate Hd].
  do 8 (destruct e as [|? e]; [discriminate He|]). destruct e; [|discriminate He].
  reflexivity.
Qed.

Lemma aes_genkey_ref `{AesKeyGenLaws} soft key :
  length key = 32%nat -> bytes key -> aes_genkey soft key = aes256_round_keys key.
Proof.
  intros Hl Hb. unfold aes_genkey, aes_genkey_sub, soft_aes_genkey_sub.
  set (sub := if soft then _ else _).
  assert (Hs : forall rc a, word 8 rc -> words8 a -> sub rc (concat (take 4 a), concat (drop 4 a))
    = (concat (take 4 (next8 rc a)), concat (drop 4 (next8 rc a)))).
  { intros rc a Hrc Ha. unfold sub. destruct soft; apply genkey_step; try done.
    - intros. by apply soft_assist_correct.
    - intros. by apply aeskeygenassist_spec. }
  clearbody sub. set (a := (fun j => lane32 key j) <$> seq 0 8).
  assert (Ha : words8 a) by by apply words8_key.
  assert (E0 : (slice 0 16 key, slice 16 16 key) = (concat (take 4 a), concat (drop 4 a))).
  { do 32 (destruct key as [|? key]; [discriminate Hl|]). destruct key; [reflexivity|discriminate Hl]. }
  cbv zeta. rewrite E0. rewrite !(Hs _ _) by (repeat apply words8_next8; first [done | split; done]).
  cbn [fst snd]. unfold aes256_round_keys. rewrite aes256_words_next8. fold a. cbv zeta.
  rewrite regroup by (exact eq_refl || apply Ha). exact eq_refl.
Qed.

Lemma round_keys_blocks key :
  length key = 32%nat -> bytes key -> Forall block (aes256_round_keys key) /\ length (aes256_round_keys key) = 10%nat.
Proof.
  intros Hl Hb. split; [|done]. unfold aes256_round_keys. rewrite aes256_words_next8. cbv zeta.
  pose proof (words8_key key Hl Hb) as Ha. set (a := _ <$> seq 0 8) in *. clearbody a.
  assert (Hw : forall rc, In rc [1; 2; 4; 8] -> word 8 rc).
  { intros rc Hrc. repeat destruct Hrc as [<-|Hrc]; [split; lia..|done]. }
  pose proof (words8_next8 1 a (Hw 1 ltac:(simpl; tauto)) Ha) as Hb'. set (b := next8 1 a) in *. clearbody b.
  pose proof (words8_next8 2 b (Hw 2 ltac:(simpl; tauto)) Hb') as Hc. set (c := next8 2 b) in *. clearbody c.
  pose proof (words8_next8 4 c (Hw 4 ltac:(simpl; tauto)) Hc) as Hd. set (d := next8 4 c) in *. clearbody d.
  pose proof (words8_next8 8 d (Hw 8 ltac:(simpl; tauto)) Hd) as He. set (e := next8 8 d) in *. clearbody e.
  rewrite regroup by (by apply Ha || by apply Hb' || by apply Hc || by apply Hd || by apply He).
  repeat (apply List.Forall_cons; [by apply block_words|]). constructor.
Qed.

(** One round, on either path. *)
Lemma aesenc_ref `{AesNiLaws} soft x k : block x -> block k -> aesenc soft x k = AesEnc x k.
Proof.
  intros Hx Hk. unfold aesenc. destruct soft; [by apply soft_aesenc_correct|by apply aesenc_spec].
Qed.
Lemma block_AesEnc x k : block x -> block k -> block (AesEnc x k).
Proof.
  intros Hx [_ Hk]. apply block_AddRoundKey; [|done]. by apply block_MixColumns, block_SubBytes, block_ShiftRows.
Qed.

(** A machine with the documented key-expansion instruction exists. *)
Definition keygen_ref : AesKeyGen := {| mm_aeskeygenassist := AesKeyGenAssist |}.
#[export] Instance keygen_ref_laws : AesKeyGenLaws keygen_ref.
Proof. split. done. Qed.

(** ** Properties *)

(** C26. CryptoNight's AES is the standard's on both paths: the table-driven
    [soft_aesenc] and the instruction compute one round of FIPS-197
    (ShiftRows, SubBytes, MixColumns, AddRoundKey), and [aes_genkey], which expands
    with [_mm_aeskeygenassist_si128] or with [soft_aeskeygenassist], yields the
    first ten round keys of the AES-256 key expansion. *)
Theorem cn_aes_standard (ni : AesNi) (kg : AesKeyGen) (L1 : AesNiLaws ni) (L2 : AesKeyGenLaws kg) soft x k key :
  block x -> block k -> length key = 32%nat -> bytes key ->
  aesenc soft x k = AesEnc x k /\ aes_genkey soft key = aes256_round_keys key.
Proof. intros Hx Hk Hl Hb. split; [by apply aesenc_ref|by apply aes_genkey_ref]. Qed.
Lemma cn_aes_standard_witness :
  @aesenc aesni_ref true (replicate 16 7) (replicate 16 9) = AesEnc (replicate 16 7) (replicate 16 9) /\
  @aes_genkey keygen_ref true (replicate 32 5) = aes256_round_keys (replicate 32 5).
Proof.
  apply (cn_aes_standard aesni_ref keygen_ref aesni_ref_laws keygen_ref_laws).
  - split; [reflexivity|apply byte_list_dec; reflexivity].
  - split; [reflexivity|apply byte_list_dec; reflexivity].
  - reflexivity.
  - apply byte_list_dec; reflexivity.
Defined.
