(* ===== verification/Echo.v ===== *)
(** * ECHO ([crypto/ghostrider/sph_echo.c]).

    The state is sixteen 128-bit words, kept as two 64-bit or four 32-bit words each
    ([SPH_ECHO_64]).  The reference works on blocks of 16 bytes: two AES rounds per word
    with a 128-bit counter as the key, and the rows and columns of words moved and mixed as
    AES does with bytes. *)
From Stdlib Require Import Btauto.
From S2P Require Import Prelude Stream SphCore NmAes CnAes AesHelper.
Import AesHelper.

Module Echo.

Record echo_state := mk_echo { eV : list (list Z); eC : list Z }.
Abbreviation echo_ctx := (sph_ctx echo_state).

(** The counter [C0] to [C3], and [K0] to [K3] during a compression. *)
Definition INCR_COUNTER (C : list Z) (val : Z) : list Z :=
  match C with
  | [C0; C1; C2; C3] =>
      let C0 := T32 (C0 + val) in
      if C0 <? val then
        let C1 := T32 (C1 + 1) in
        if C1 =? 0 then
          let C2 := T32 (C2 + 1) in
          if C2 =? 0 then [C0; C1; C2; T32 (C3 + 1)] else [C0; C1; C2; C3]
        else [C0; C1; C2; C3]
      else [C0; C1; C2; C3]
  | _ => C
  end.
Definition next_key (K : list Z) : list Z :=
  match K with
  | [K0; K1; K2; K3] =>
      let K0 := T32 (K0 + 1) in
      if K0 =? 0 then
        let K1 := T32 (K1 + 1) in
        if K1 =? 0 then
          let K2 := T32 (K2 + 1) in
          if K2 =? 0 then [K0; K1; K2; T32 (K3 + 1)] else [K0; K1; K2; K3]
        else [K0; K1; K2; K3]
      else [K0; K1; K2; K3]
  | _ => K
  end.

Section Code.
Context (wide : bool).   (* SPH_ECHO_64 *)
(** Bytes of a word, words of a row. *)
Definition wl : nat := if wide then 8%nat else 4%nat.
Definition wn : nat := if wide then 2%nat else 4%nat.
Definition TT (x : Z) : Z := if wide then T64 x else T32 x.

Definition AES_2ROUNDS (X K : list Z) : list Z :=
  if wide then
    match X with
    | [a; b] =>
        match AES_ROUND_NOKEY_LE (AES_ROUND_LE [T32 a; T32 (Z.shiftr a 32); T32 b; T32 (Z.shiftr b 32)] K) with
        | [X0; X1; X2; X3] => [Z.lor X0 (shl64 X1 32); Z.lor X2 (shl64 X3 32)]
        | _ => X
        end
    | _ => X
    end
  else AES_ROUND_NOKEY_LE (AES_ROUND_LE X K).
(** [BIG_SUB_WORDS], [aes_2rounds_all]. *)
Definition BIG_SUB_WORDS (W : list (list Z)) (K : list Z) : list (list Z) * list Z :=
  foldl (fun '(W, K) n => (<[n := AES_2ROUNDS (W !!! n) K]> W, next_key K)) (W, K) (seq 0 16).

(** The words of a row move together. *)
Definition SHIFT_ROW1 (a b c d : nat) (W : list (list Z)) : list (list Z) :=
  let tmp := W !!! a in
  let W := <[a := W !!! b]> W in let W := <[b := W !!! c]> W in let W := <[c := W !!! d]> W in <[d := tmp]> W.
Definition SHIFT_ROW2 (a b c d : nat) (W : list (list Z)) : list (list Z) :=
  let tmp := W !!! a in let W := <[a := W !!! c]> W in let W := <[c := tmp]> W in
  let tmp := W !!! b in let W := <[b := W !!! d]> W in <[d := tmp]> W.
Definition SHIFT_ROW3 (a b c d : nat) : list (list Z) -> list (list Z) := SHIFT_ROW1 d c b a.
Definition BIG_SHIFT_ROWS (W : list (list Z)) : list (list Z) :=
  SHIFT_ROW3 3 7 11 15 (SHIFT_ROW2 2 6 10 14 (SHIFT_ROW1 1 5 9 13 W)).

Definition mask80 : Z := if wide then 0x8080808080808080 else 0x80808080.
Definition mask7F : Z := if wide then 0x7F7F7F7F7F7F7F7F else 0x7F7F7F7F.
(** [((x & 0x80..) >> 7) * 27U ^ ((x & 0x7F..) << 1)]. *)
Definition times2 (x : Z) : Z := Z.lxor (TT (Z.shiftr (Z.land x mask80) 7 * 27)) (TT (Z.shiftl (Z.land x mask7F) 1)).
Definition MIX_COLUMN1 (ia ib ic id n : nat) (W : list (list Z)) : list (list Z) :=
  let a := (W !!! ia) !!! n in let b := (W !!! ib) !!! n in let c := (W !!! ic) !!! n in let d := (W !!! id) !!! n in
  let ab := Z.lxor a b in let bc := Z.lxor b c in let cd := Z.lxor c d in
  let abx := times2 ab in let bcx := times2 bc in let cdx := times2 cd in
  let set i v W := <[i := <[n := v]> (W !!! i)]> W in
  let W := set ia (Z.lxor (Z.lxor abx bc) d) W in
  let W := set ib (Z.lxor (Z.lxor bcx a) cd) W in
  let W := set ic (Z.lxor (Z.lxor cdx ab) d) W in
  set id (Z.lxor (Z.lxor (Z.lxor (Z.lxor abx bcx) cdx) ab) c) W.
Definition MIX_COLUMN (a b c d : nat) (W : list (list Z)) : list (list Z) :=
  foldl (fun W n => MIX_COLUMN1 a b c d n W) W (seq 0 wn).
Definition BIG_MIX_COLUMNS (W : list (list Z)) : list (list Z) :=
  MIX_COLUMN 12 13 14 15 (MIX_COLUMN 8 9 10 11 (MIX_COLUMN 4 5 6 7 (MIX_COLUMN 0 1 2 3 W))).
Definition BIG_ROUND '((W, K) : list (list Z) * list Z) : list (list Z) * list Z :=
  let '(W, K) := BIG_SUB_WORDS W K in (BIG_MIX_COLUMNS (BIG_SHIFT_ROWS W), K).

(** The two context types: [rows] words of chaining value, a buffer of [16 - rows] words. *)
Section Size.
Context (rows rounds : nat).
Definition bsize : nat := 16 * (16 - rows).
(** [INPUT_BLOCK_SMALL], [INPUT_BLOCK_BIG]. *)
Definition INPUT_BLOCK (V : list (list Z)) (buf : list Z) : list (list Z) :=
  V ++ ((fun u => (fun j => le_load wl (drop (16 * u + wl * j) buf)) <$> seq 0 wn) <$> seq 0 (16 - rows)).
(** [FINAL_SMALL], [FINAL_BIG]: [VV] and [WW] read the rows as flat arrays. *)
Definition FINAL (V W : list (list Z)) (buf : list Z) : list (list Z) :=
  (fun r => (fun j =>
     let v := (V !!! r) !!! j in
     let v' := foldl Z.lxor (le_load wl (drop (16 * r + wl * j) buf)) ((fun t => le_load wl (drop (16 * r + wl * j + 16 * rows * t) buf)) <$> seq 1 ((16 - rows) / rows - 1)) in
     Z.lxor v (foldl Z.lxor v' ((fun t => (W !!! (r + rows * t)%nat) !!! j) <$> seq 0 (16 / rows)))) <$> seq 0 wn) <$> seq 0 rows.
Definition COMPRESS (st : echo_state) (buf : list Z) : echo_state :=
  let '(W, _) := Nat.iter rounds BIG_ROUND (INPUT_BLOCK (eV st) buf, eC st) in
  mk_echo (FINAL (eV st) W buf) (eC st).

Definition echo_init (buf : list Z) (out_len : Z) : echo_ctx :=
  mk_sph buf 0 (mk_echo (replicate rows (out_len :: replicate (wn - 1) 0)) [0; 0; 0; 0]).
Definition echo_block (st : echo_state) (buf : list Z) : echo_state :=
  COMPRESS (mk_echo (eV st) (INCR_COUNTER (eC st) (8 * Z.of_nat bsize))) buf.
Definition echo_core : echo_ctx -> list Z -> echo_ctx := sph_core bsize echo_block.

(** [u.tmp] is on the stack: the counter first, then the digest. *)
Definition echo_close (tmp : list Z) (sc : echo_ctx) (ub n : Z) (out_size_w32 : nat) : echo_ctx * list Z :=
  let st := sc_st sc in
  let elen := Z.of_nat (sc_ptr sc) * 8 + n in
  let C := INCR_COUNTER (eC st) elen in
  let tmp := foldl (fun t i => memcpy t (4 * i) (le_store 4 (C !!! i))) tmp (seq 0 4) in
  let C := if elen =? 0 then [0; 0; 0; 0] else C in
  let buf := <[sc_ptr sc := final_byte ub n]> (sc_buf sc) in
  let ptr := S (sc_ptr sc) in
  let buf := memset0 buf ptr (bsize - ptr) in
  let '(st, buf) :=
    if (bsize - 18 <? ptr)%nat then (mk_echo (eV (COMPRESS (mk_echo (eV st) C) buf)) [0; 0; 0; 0], memset0 buf 0 bsize)
    else (mk_echo (eV st) C, buf) in
  let buf := memcpy buf (bsize - 18) (le_store 2 (Z.of_nat out_size_w32 * 32)) in
  let buf := memcpy buf (bsize - 16) (take 16 tmp) in
  let VV := concat (eV (COMPRESS st buf)) in
  let count := if wide then ((out_size_w32 + 1) / 2)%nat else out_size_w32 in
  let tmp := foldl (fun t k => memcpy t (wl * k) (le_store wl (VV !!! k))) tmp (seq 0 count) in
  (echo_init buf (Z.of_nat out_size_w32 * 32), take (4 * out_size_w32) tmp).
End Size.

Definition echo_small_init := echo_init 4.
Definition echo_small_core := echo_core 4 8.
Definition echo_small_close := echo_close 4 8.
Definition echo_big_init := echo_init 8.
Definition echo_big_core := echo_core 8 10.
Definition echo_big_close := echo_close 8 10.

Definition sph_echo224_init (buf : list Z) : echo_ctx := echo_small_init buf 224.
Definition sph_echo224 : echo_ctx -> list Z -> echo_ctx := echo_small_core.
Definition sph_echo224_close (tmp : list Z) (cc : echo_ctx) := echo_small_close tmp cc 0 0 7.
Definition sph_echo224_addbits_and_close (tmp : list Z) (cc : echo_ctx) (ub n : Z) := echo_small_close tmp cc ub n 7.
Definition sph_echo256_init (buf : list Z) : echo_ctx := echo_small_init buf 256.
Definition sph_echo256 : echo_ctx -> list Z -> echo_ctx := echo_small_core.
Definition sph_echo256_close (tmp : list Z) (cc : echo_ctx) := echo_small_close tmp cc 0 0 8.
Definition sph_echo256_addbits_and_close (tmp : list Z) (cc : echo_ctx) (ub n : Z) := echo_small_close tmp cc ub n 8.
Definition sph_echo384_init (buf : list Z) : echo_ctx := echo_big_init buf 384.
Definition sph_echo384 : echo_ctx -> list Z -> echo_ctx := echo_big_core.
Definition sph_echo384_close (tmp : list Z) (cc : echo_ctx) := echo_big_close tmp cc 0 0 12.
Definition sph_echo384_addbits_and_close (tmp : list Z) (cc : echo_ctx) (ub n : Z) := echo_big_close tmp cc ub n 12.
Definition sph_echo512_init (buf : list Z) : echo_ctx := echo_big_init buf 512.
Definition sph_echo512 : echo_ctx -> list Z -> echo_ctx := echo_big_core.
Definition sph_echo512_close (tmp : list Z) (cc : echo_ctx) := echo_big_close tmp cc 0 0 16.
Definition sph_echo512_addbits_and_close (tmp : list Z) (cc : echo_ctx) (ub n : Z) := echo_big_close tmp cc ub n 16.
End Code.

(** ** Reference *)

Section Reference.
Definition xor16 (a b : list Z) : list Z := zip_with Z.lxor a b.
(** Word [i] of the state with the counter [k] as it stands before the round. *)
Definition BigSubWords (W : list (list Z)) (k : Z) : list (list Z) :=
  (fun i => AesEnc (AesEnc (nth i W []) (le_store 16 (k + Z.of_nat i))) (replicate 16 0)) <$> seq 0 16.
(** Word [4 * c + r] is in column [c], row [r]; row [r] turns by [r]. *)
Definition BigShiftRows (W : list (list Z)) : list (list Z) :=
  (fun i => nth (4 * ((i / 4 + i mod 4) mod 4) + i mod 4) W []) <$> seq 0 16.
(** The matrix of AES on the bytes at the same place in the four words of a column. *)
Definition BigMixColumns (W : list (list Z)) : list (list Z) :=
  (fun i => let w k := nth (4 * (i / 4) + (i mod 4 + k) mod 4) W [] in
     xor16 (xor16 (gmul 2 <$> w 0%nat) (gmul 3 <$> w 1%nat)) (xor16 (w 2%nat) (w 3%nat))) <$> seq 0 16.
Definition BigRound '((W, k) : list (list Z) * Z) : list (list Z) * Z := (BigMixColumns (BigShiftRows (BigSubWords W k)), k + 16).

Context (rows rounds : nat).
#[local] Abbreviation B := (16 * (16 - rows))%nat.
(** The compression of a chaining value, a block and a counter. *)
Definition echo_f (V : list (list Z)) (k : Z) (b : list Z) : list (list Z) :=
  let M : list (list Z) := (fun u => slice (16 * u) 16 b) <$> seq 0 (16 - rows) in
  let W := (Nat.iter rounds BigRound (V ++ M, k)).1 in
  (fun r => foldl xor16 (nth r V []) (((fun t => nth (r + rows * t) M []) <$> seq 0 ((16 - rows) / rows))
     ++ ((fun t => nth (r + rows * t) W []) <$> seq 0 (16 / rows)))) <$> seq 0 rows.
(** Every block with the number of message bits so far. *)
Definition echo_chain : Z -> nat -> list (list Z) -> list (list Z) -> list (list Z) := counter_chain B echo_f.
Definition echo_pad (words : nat) (m : list Z) (ub n : Z) : list Z :=
  m ++ [last_bits ub n] ++ replicate (B - 1 - (length m + 18) mod B) 0 ++ le_store 2 (32 * Z.of_nat words) ++ le_store 16 (8 * Z.of_nat (length m) + n).
Definition echo_digest (words : nat) (m : list Z) (ub n : Z) : list Z :=
  let iv := replicate rows (le_store 16 (32 * Z.of_nat words)) in
  take (4 * words) (concat (echo_chain (8 * Z.of_nat (length m) + n) 0 iv (blocks B (echo_pad words m ub n)))).
End Reference.

(** ** Bytes of packed words *)

Lemma split_bits a x i : word 8 a -> 0 <= i -> Z.testbit (a + 256 * x) i = if i <? 8 then Z.testbit a i else Z.testbit x (i - 8).
Proof.
  intros Ha Hi. unfold word in Ha. destruct (Z.ltb_spec i 8) as [H|H].
  - rewrite <-(Z.mod_pow2_bits_low _ 8) by lia. change (2 ^ 8) with 256 in *. rewrite (Z.mul_comm 256), Z.mod_add, Z.mod_small by lia. done.
  - replace i with (i - 8 + 8) at 1 by lia. rewrite <-Z.div_pow2_bits by lia. change (2 ^ 8) with 256 in *. by rewrite (Z.mul_comm 256), Z.div_add, Z.div_small by lia.
Qed.
Lemma split_land a b x y : word 8 a -> word 8 b -> Z.land (a + 256 * x) (b + 256 * y) = Z.land a b + 256 * Z.land x y.
Proof.
  intros Ha Hb. apply Z.bits_inj'. intros i Hi. rewrite Z.land_spec, !split_bits by (done || by apply word_land_l). destruct (i <? 8); by rewrite Z.land_spec.
Qed.
Lemma split_lxor a b x y : word 8 a -> word 8 b -> Z.lxor (a + 256 * x) (b + 256 * y) = Z.lxor a b + 256 * Z.lxor x y.
Proof.
  intros Ha Hb. apply Z.bits_inj'. intros i Hi. rewrite Z.lxor_spec, !split_bits by (done || by apply word_lxor). destruct (i <? 8); by rewrite Z.lxor_spec.
Qed.
Lemma T8_split a x : word 8 a -> T8 (a + 256 * x) = a /\ Z.shiftr (a + 256 * x) 8 = x.
Proof.
  intros Ha. unfold word in Ha. rewrite T8_mod, Z.shiftr_div_pow2 by lia. change (2 ^ 8) with 256 in *.
  rewrite (Z.mul_comm 256), Z.mod_add, Z.mod_small, Z.div_add, Z.div_small by lia. split; lia.
Qed.
Lemma split_byte x : x = T8 x + 256 * Z.shiftr x 8.
Proof. rewrite T8_mod, Z.shiftr_div_pow2 by lia. change (2 ^ 8) with 256. pose proof (Z.div_mod x 256). lia. Qed.

(** The two masks and the doubling, for any number of bytes. *)
Fixpoint repeat_byte (b : Z) (n : nat) : Z := match n with O => 0 | S n => b + 256 * repeat_byte b n end.
Definition times2_n (n : nat) (x : Z) : Z :=
  Z.lxor (Z.shiftr (Z.land x (repeat_byte 0x80 n)) 7 * 27) (Z.shiftl (Z.land x (repeat_byte 0x7F n)) 1).
Lemma land_80 n x : exists y, Z.land x (repeat_byte 0x80 n) = 128 * y.
Proof.
  revert x. induction n as [|n IH]; intros x; [exists 0; apply Z.land_0_r|]. cbn [repeat_byte]. rewrite (split_byte x), split_land by (apply word_T8 || (unfold word; lia)).
  destruct (IH (Z.shiftr x 8)) as [y ->]. destruct (Z.testbit (T8 x) 7) eqn:E.
  - exists (1 + 256 * y). assert (H : Z.land (T8 x) 128 = 128); [|lia].
    pose proof (word_T8 x) as Hw. revert E. generalize dependent (T8 x). intros a Hw E. apply Z.eqb_eq. revert E. apply implb_true_iff. revert a Hw. apply all_bytes_spec. vm_compute. reflexivity.
  - exists (256 * y). assert (H : Z.land (T8 x) 128 = 0); [|lia].
    pose proof (word_T8 x) as Hw. apply negb_true_iff in E. revert E. generalize dependent (T8 x). intros a Hw E. apply Z.eqb_eq. revert E. apply implb_true_iff. revert a Hw. apply all_bytes_spec. vm_compute. reflexivity.
Qed.
Lemma times2_S n a y : word 8 a -> times2_n (S n) (a + 256 * y) = gmul 2 a + 256 * times2_n n y.
Proof.
  intros Ha. unfold times2_n. cbn [repeat_byte]. rewrite !split_land by (done || (unfold word; lia)). destruct (land_80 n y) as [q Eq].
  assert (E7 : Z.shiftr (Z.land a 128 + 256 * Z.land y (repeat_byte 128 n)) 7 = Z.shiftr (Z.land a 128) 7 + 256 * Z.shiftr (Z.land y (repeat_byte 128 n)) 7).
  { rewrite Eq, !Z.shiftr_div_pow2 by lia. change (2 ^ 7) with 128. replace (256 * (128 * q)) with (256 * q * 128) by lia. rewrite Z.div_add by lia. f_equal. rewrite (Z.mul_comm 128 q), Z.div_mul by lia. done. }
  rewrite E7, !(Z.shiftl_mul_pow2 _ 1) by lia. change (2 ^ 1) with 2. replace ((Z.shiftr (Z.land a 128) 7 + 256 * Z.shiftr (Z.land y (repeat_byte 128 n)) 7) * 27)
    with (Z.shiftr (Z.land a 128) 7 * 27 + 256 * (Z.shiftr (Z.land y (repeat_byte 128 n)) 7 * 27)) by lia.
  replace ((Z.land a 127 + 256 * Z.land y (repeat_byte 127 n)) * 2) with (Z.land a 127 * 2 + 256 * (Z.land y (repeat_byte 127 n) * 2)) by lia.
  assert (Hb : (word 8 (Z.shiftr (Z.land a 128) 7 * 27) /\ word 8 (Z.land a 127 * 2)) /\ Z.lxor (Z.shiftr (Z.land a 128) 7 * 27) (Z.land a 127 * 2) = gmul 2 a).
  { assert (H : ((0 <=? Z.shiftr (Z.land a 128) 7 * 27) && (Z.shiftr (Z.land a 128) 7 * 27 <? 256) && (0 <=? Z.land a 127 * 2) && (Z.land a 127 * 2 <? 256)
      && (Z.lxor (Z.shiftr (Z.land a 128) 7 * 27) (Z.land a 127 * 2) =? gmul 2 a)) = true); [|unfold word; lia].
    revert a Ha E7. intros a Ha _. revert a Ha. apply all_bytes_spec. vm_compute. reflexivity. }
  destruct Hb as [[H1 H2] E]. by rewrite split_lxor, E.
Qed.
Lemma times2_bytes_n n x : le_store n (times2_n n x) = gmul 2 <$> le_store n x.
Proof.
  revert x. induction n as [|n IH]; intros x; [done|]. rewrite (split_byte x), times2_S by apply word_T8. set (a := T8 x). set (y := Z.shiftr x 8). pose proof (word_T8 x) as Ha. fold a in Ha.
  assert (Hg : word 8 (gmul 2 a)) by (rewrite gmul_2 by done; apply word_xtime). rewrite !le_store_S. destruct (T8_split _ (times2_n n y) Hg) as [-> ->]. destruct (T8_split a y Ha) as [-> ->].
  cbn [fmap list_fmap]. f_equal. apply IH.
Qed.

Section Words.
Context (wide : bool).
#[local] Abbreviation w := (wl wide).
Lemma wl_wn : (w * wn wide = 16)%nat.
Proof. by destruct wide. Qed.
Lemma le_store_TT x : le_store w (TT wide x) = le_store w x.
Proof.
  unfold wl, TT. rewrite <-(le_store_load (le_store (if wide then 8 else 4)%nat x)) by apply bytes_le_store. rewrite length_le_store, le_load_store.
  destruct wide; [by rewrite T64_mod|by rewrite T32_mod].
Qed.
Lemma times2_bytes x : le_store w (times2 wide x) = gmul 2 <$> le_store w x.
Proof.
  rewrite <-times2_bytes_n. unfold times2, times2_n. rewrite !le_store_lxor, !le_store_TT. unfold mask80, mask7F, wl. destruct wide; reflexivity.
Qed.

(** One row of words as 16 bytes. *)
Definition rb (row : list Z) : list Z := flat_map (le_store w) row.
Lemma length_rb row : length row = wn wide -> length (rb row) = 16%nat.
Proof. intros H. unfold rb. destruct (digest_words_gen (le_store w) w row (fun v => conj (length_le_store w v) (bytes_le_store w v))) as [-> _]. rewrite H. apply wl_wn. Qed.
Lemma bytes_rb row : bytes (rb row).
Proof. apply (digest_words_gen (le_store w) w row (fun v => conj (length_le_store w v) (bytes_le_store w v))). Qed.
Lemma AES_2ROUNDS_ref X K : length X = wn wide -> length K = 4%nat ->
  rb (AES_2ROUNDS wide X K) = AesEnc (AesEnc (rb X) (bytes_of K)) (replicate 16 0) /\ length (AES_2ROUNDS wide X K) = wn wide.
Proof.
  intros HX HK. assert (Hr : forall Y, length Y = 4%nat -> let Z4 := AES_ROUND_NOKEY_LE (AES_ROUND_LE Y K) in
    bytes_of Z4 = AesEnc (AesEnc (bytes_of Y) (bytes_of K)) (replicate 16 0) /\ words32 Z4 /\ length Z4 = 4%nat).
  { intros Y HY Z4. unfold Z4, AES_ROUND_NOKEY_LE. assert (H1 : length (AES_ROUND_LE Y K) = 4%nat).
    { do 4 (destruct Y as [|? Y]; [done|]). destruct Y; [|done]. do 4 (destruct K as [|? K]; [done|]). by destruct K. }
    rewrite (round_aes _ [0; 0; 0; 0] H1 eq_refl), (round_aes Y K HY HK). split; [reflexivity|].
    apply round_words; [done|done|]. by apply words32_by. }
  unfold AES_2ROUNDS, rb, wl, wn in *. destruct wide.
  - do 2 (destruct X as [|? X]; [done|]). destruct X; [|done]. set (Y := [T32 z; T32 (Z.shiftr z 32); T32 z0; T32 (Z.shiftr z0 32)]).
    assert (Split : forall v, le_store 8 v = le_store 4 (T32 v) ++ le_store 4 (T32 (Z.shiftr v 32))).
    { intros v. rewrite !le_store_T32. do 8 rewrite le_store_S. rewrite !Z.shiftr_shiftr by lia. reflexivity. }
    assert (EY : bytes_of Y = flat_map (le_store 8) [z; z0]) by (unfold bytes_of, Y; cbn [flat_map]; by rewrite !Split, !app_nil_r, <-!app_assoc).
    destruct (Hr Y eq_refl) as (E & HW & Hl). cbv zeta in *. rewrite EY in E. rewrite <-E. set (Z4 := AES_ROUND_NOKEY_LE _) in *. clearbody Z4.
    do 4 (destruct Z4 as [|? Z4]; [done|]). destruct Z4; [|done]. split; [|done]. unfold bytes_of. cbn [flat_map]. rewrite !Split.
    assert (Hj : forall a b, word 32 a -> T32 (Z.lor a (shl64 b 32)) = a /\ le_store 4 (T32 (Z.shiftr (Z.lor a (shl64 b 32)) 32)) = le_store 4 b).
    { intros a b Ha. split.
      - rewrite <-(T32_id a Ha) at 2. apply Z.bits_inj'. intros j Hj. unfold T32, shl64, T64. rewrite !Z.land_spec, Z.lor_spec, Z.land_spec, Z.shiftl_spec by lia. change 0xFFFFFFFF with (Z.ones 32).
        destruct (Z.lt_ge_cases j 32); [rewrite (Z.testbit_neg_r b) by lia; by rewrite andb_false_l, orb_false_r|by rewrite !(Z.ones_spec_high 32), !andb_false_r by lia].
      - rewrite <-(le_store_T32 b). f_equal. apply Z.bits_inj'. intros j Hj. unfold T32, shl64, T64. rewrite !Z.land_spec, Z.shiftr_spec, Z.lor_spec, Z.land_spec, Z.shiftl_spec by lia. change 0xFFFFFFFF with (Z.ones 32). change 0xFFFFFFFFFFFFFFFF with (Z.ones 64).
        destruct (Z.lt_ge_cases j 32); [|by rewrite !(Z.ones_spec_high 32), !andb_false_r by lia]. rewrite (word_high 32 a) by (done || lia). rewrite (Z.ones_spec_low 64) by lia. rewrite andb_true_r, orb_false_l. by replace (j + 32 - 32) with j by lia. }
    apply Forall_cons_1 in HW as [W0 HW]. apply Forall_cons_1 in HW as [_ HW]. apply Forall_cons_1 in HW as [W2 _].
    destruct (Hj z1 z2 W0) as [-> ->]. destruct (Hj z3 z4 W2) as [-> ->]. by rewrite !app_nil_r, <-!app_assoc.
  - destruct (Hr X HX) as (E & _ & Hl). by split.
Qed.
End Words.

(** ** The counter *)

Definition cval (C : list Z) : Z := foldr (fun c v => c + 2 ^ 32 * v) 0 C.
Record counter_ok (C : list Z) : Prop := { co_len : length C = 4%nat; co_words : words32 C }.
Lemma T32_carry a v : word 32 a -> 0 <= v < 2 ^ 32 -> let c := T32 (a + v) in
  (c <? v) = (2 ^ 32 <=? a + v) /\ a + v = c + 2 ^ 32 * (if 2 ^ 32 <=? a + v then 1 else 0).
Proof.
  intros Ha Hv c. unfold word in Ha. unfold c. rewrite T32_mod. destruct (Z.leb_spec (2 ^ 32) (a + v)) as [H|H].
  - replace ((a + v) mod 2 ^ 32) with (a + v - 2 ^ 32) by (symmetry; rewrite <-(Z.mod_add _ (-1)) by lia; apply Z.mod_small; lia). split; lia.
  - rewrite Z.mod_small by lia. split; lia.
Qed.
Lemma T32_zero a : word 32 a -> let c := T32 (a + 1) in (c =? 0) = (2 ^ 32 <=? a + 1) /\ a + 1 = c + 2 ^ 32 * (if 2 ^ 32 <=? a + 1 then 1 else 0).
Proof.
  intros Ha c. destruct (T32_carry a 1 Ha ltac:(lia)) as [E1 E2]. fold c in E1, E2. split; [|done]. rewrite <-E1. assert (H : word 32 c) by apply word_T32. unfold word in H. lia.
Qed.
Lemma INCR_ref C v : counter_ok C -> 0 <= v < 2 ^ 32 -> counter_ok (INCR_COUNTER C v) /\ cval (INCR_COUNTER C v) = (cval C + v) mod 2 ^ 128.
Proof.
  intros [Hl HW] Hv. do 4 (destruct C as [|? C]; [done|]). destruct C; [|done].
  apply Forall_cons_1 in HW as [W0 HW]. apply Forall_cons_1 in HW as [W1 HW]. apply Forall_cons_1 in HW as [W2 HW]. apply Forall_cons_1 in HW as [W3 _].
  destruct (T32_carry z v W0 Hv) as [E0 D0]. destruct (T32_zero z0 W1) as [E1 D1]. destruct (T32_zero z1 W2) as [E2 D2]. destruct (T32_zero z2 W3) as [_ D3]. cbv zeta in *.
  cbv [INCR_COUNTER]. rewrite E0, E1, E2. pose proof (word_T32 (z + v)) as V0. pose proof (word_T32 (z0 + 1)) as V1. pose proof (word_T32 (z1 + 1)) as V2. pose proof (word_T32 (z2 + 1)) as V3.
  set (c0 := T32 (z + v)) in *. set (c1 := T32 (z0 + 1)) in *. set (c2 := T32 (z1 + 1)) in *. set (c3 := T32 (z2 + 1)) in *. clearbody c0 c1 c2 c3. unfold word in *.
  assert (Hm : forall x q, 0 <= x < 2 ^ 128 -> (x + q * 2 ^ 128) mod 2 ^ 128 = x) by (intros x q Hx; rewrite Z.mod_add, Z.mod_small by lia; done).
  destruct (2 ^ 32 <=? z + v); [destruct (2 ^ 32 <=? z0 + 1); [destruct (2 ^ 32 <=? z1 + 1); [destruct (2 ^ 32 <=? z2 + 1)|]|]|]; (split; [split; [done|repeat (apply List.Forall_cons; [unfold word; lia|]); constructor]|]); cbn [cval foldr] in *.
  all: symmetry; first [rewrite <-(Hm (c0 + 2 ^ 32 * (c1 + 2 ^ 32 * (c2 + 2 ^ 32 * (c3 + 2 ^ 32 * 0)))) 1) by lia; f_equal; lia | rewrite Z.mod_small; lia].
Qed.
Lemma next_key_incr K : next_key K = INCR_COUNTER K 1.
Proof.
  do 4 (destruct K as [|? K]; [done|]). destruct K; [|done]. unfold next_key, INCR_COUNTER. cbv zeta.
  assert (H : (T32 (z + 1) =? 0) = (T32 (z + 1) <? 1)) by (pose proof (word_T32 (z + 1)) as H; unfold word in H; lia). by rewrite H.
Qed.
Lemma keys_ref K n : counter_ok K -> counter_ok (Nat.iter n next_key K) /\ cval (Nat.iter n next_key K) mod 2 ^ 128 = (cval K + Z.of_nat n) mod 2 ^ 128.
Proof.
  intros HK. induction n as [|n [IH1 IH2]]; [split; [done|by rewrite Z.add_0_r]|]. rewrite Nat.iter_succ, next_key_incr. destruct (INCR_ref _ 1 IH1 ltac:(lia)) as [H1 H2]. split; [done|].
  rewrite H2, Zmod_mod, <-Zplus_mod_idemp_l, IH2, Zplus_mod_idemp_l. f_equal. lia.
Qed.
Lemma counter_bytes C : counter_ok C -> bytes_of C = le_store 16 (cval C).
Proof.
  intros [Hl HW]. do 4 (destruct C as [|? C]; [done|]). destruct C; [|done].
  assert (E : forall n a v, word 32 a -> le_store (4 + n) (a + 2 ^ 32 * v) = le_store 4 a ++ le_store n v).
  { intros n a v Ha. rewrite le_store_app. unfold word in Ha. change (8 * Z.of_nat 4) with 32. rewrite Z.shiftr_div_pow2, (Z.mul_comm (2 ^ 32)), Z.div_add, Z.div_small by lia. f_equal.
    rewrite <-(le_store_T32 (a + v * 2 ^ 32)), T32_mod, Z.mod_add, <-T32_mod by lia. apply le_store_T32. }
  apply Forall_cons_1 in HW as [W0 HW]. apply Forall_cons_1 in HW as [W1 HW]. apply Forall_cons_1 in HW as [W2 HW]. apply Forall_cons_1 in HW as [W3 _].
  cbn [cval foldr]. unfold bytes_of. cbn [flat_map]. rewrite (E 12%nat) by done. rewrite (E 8%nat) by done. rewrite (E 4%nat) by done. rewrite (E 0%nat) by done. reflexivity.
Qed.
Lemma key_bytes K n : counter_ok K -> bytes_of (Nat.iter n next_key K) = le_store 16 (cval K + Z.of_nat n).
Proof.
  intros HK. destruct (keys_ref K n HK) as [H1 H2]. rewrite (counter_bytes _ H1), <-(le_store_mod 16 _ (2 ^ 128) eq_refl), H2. by apply le_store_mod.
Qed.

(** ** The rounds *)

Section Rounds.
Context (wide : bool).
#[local] Abbreviation w := (wl wide).
#[local] Abbreviation rb := (rb wide).
Lemma wn_cases : (wn wide = 2 \/ wn wide = 4)%nat.
Proof. destruct wide; [by left|by right]. Qed.
Definition rows_ok (n : nat) (W : list (list Z)) : Prop := length W = n /\ Forall (fun r => length r = wn wide) W.
Lemma rows_lookup n W i : rows_ok n W -> (i < n)%nat -> length (W !!! i) = wn wide.
Proof. intros [Hl H] Hi. apply (Forall_lookup_total_1 _ W i H). lia. Qed.
Lemma nth_rb W i : (i < length W)%nat -> nth i (rb <$> W) [] = rb (W !!! i).
Proof. revert i. induction W as [|x W IH]; intros [|i] Hi; cbn in *; [lia..|done|]. apply IH. lia. Qed.

Lemma SUB_ref W K : rows_ok 16 W -> counter_ok K ->
  let '(W', K') := BIG_SUB_WORDS wide W K in
  rb <$> W' = BigSubWords (rb <$> W) (cval K) /\ rows_ok 16 W' /\ K' = Nat.iter 16 next_key K.
Proof.
  intros HW HK. unfold BIG_SUB_WORDS. set (f := fun n X => AES_2ROUNDS wide X (Nat.iter n next_key K)).
  assert (E : forall n, foldl (fun '(W, K) n => (<[n := AES_2ROUNDS wide (W !!! n) K]> W, next_key K)) (W, K) (seq 0 n) = (foldl (fun W n => <[n := f n (W !!! n)]> W) W (seq 0 n), Nat.iter n next_key K)).
  { induction n as [|n IH]; [done|]. rewrite seq_S, !foldl_app, IH. done. }
  rewrite E. clear E. destruct HW as [Hl Hr]. destruct (loop_map f W 16 ltac:(lia)) as [L1 L2]. cbv zeta in L1, L2. set (W' := foldl _ W _) in *. clearbody W'.
  assert (E : W' = (fun i => f i (W !!! i)) <$> seq 0 16).
  { apply list_eq_total; [by rewrite length_fmap, L1|]. intros i Hi. rewrite L2, decide_True, lookup_fmap_seq by lia. done. }
  rewrite E. clear E L1 L2 W'.
  assert (Hf : forall i, (i < 16)%nat -> rb (f i (W !!! i)) = AesEnc (AesEnc (rb (W !!! i)) (le_store 16 (cval K + Z.of_nat i))) (replicate 16 0) /\ length (f i (W !!! i)) = wn wide).
  { intros i Hi. unfold f. rewrite <-(key_bytes K i HK). apply AES_2ROUNDS_ref; [apply (rows_lookup 16); [by split|done]|apply (keys_ref K i HK)]. }
  split; [|split; [|done]].
  - unfold BigSubWords. rewrite <-list_fmap_compose. apply list_fmap_ext. intros i j Hj. apply lookup_seq in Hj as [-> Hj]. cbn [compose Nat.add]. rewrite nth_rb by lia. by apply Hf.
  - split; [by rewrite length_fmap|]. apply Forall_fmap, Forall_seq. intros i Hi. apply Hf. lia.
Qed.
Lemma SHIFT_ref W : rows_ok 16 W -> rb <$> BIG_SHIFT_ROWS W = BigShiftRows (rb <$> W) /\ rows_ok 16 (BIG_SHIFT_ROWS W).
Proof.
  intros [Hl Hr]. do 16 (destruct W as [|? W]; [done|]). destruct W; [|done]. split; [reflexivity|]. split; [done|].
  repeat (apply Forall_cons_1 in Hr as [? Hr]). repeat (apply List.Forall_cons; [assumption|]). constructor.
Qed.
Lemma xtime_lxor a b : word 8 a -> word 8 b -> gmul 2 (Z.lxor a b) = Z.lxor (gmul 2 a) (gmul 2 b).
Proof.
  intros Ha Hb. assert (E : forall x, word 8 x -> gmul 2 x = Z.lxor (T8 (Z.shiftl x 1)) (if Z.testbit x 7 then 27 else 0)).
  { intros x Hx. apply Z.eqb_eq. revert x Hx. apply all_bytes_spec. vm_compute. reflexivity. }
  rewrite !E by (done || by apply word_lxor). rewrite Z.shiftl_lxor, Z.lxor_spec.
  assert (ET : forall x y, T8 (Z.lxor x y) = Z.lxor (T8 x) (T8 y)) by (intros; unfold T8; apply Z.bits_inj'; intros j _; rewrite Z.lxor_spec, !Z.land_spec, Z.lxor_spec; btauto).
  rewrite ET. generalize (T8 (Z.shiftl a 1)), (T8 (Z.shiftl b 1)). intros p q. destruct (Z.testbit a 7), (Z.testbit b 7); cbn [xorb]; apply Z.bits_inj'; intros j _; rewrite !Z.lxor_spec, ?Z.bits_0; generalize (Z.testbit 27 j); intros ?; btauto.
Qed.
(** The four bytes of a column, as the code combines them. *)
Lemma mix_byte a b c d : word 8 a -> word 8 b -> word 8 c -> word 8 d ->
  Z.lxor (Z.lxor (gmul 2 (Z.lxor a b)) (Z.lxor b c)) d = Z.lxor (Z.lxor (gmul 2 a) (gmul 3 b)) (Z.lxor c d) /\
  Z.lxor (Z.lxor (gmul 2 (Z.lxor b c)) a) (Z.lxor c d) = Z.lxor (Z.lxor (gmul 2 b) (gmul 3 c)) (Z.lxor d a) /\
  Z.lxor (Z.lxor (gmul 2 (Z.lxor c d)) (Z.lxor a b)) d = Z.lxor (Z.lxor (gmul 2 c) (gmul 3 d)) (Z.lxor a b) /\
  Z.lxor (Z.lxor (Z.lxor (Z.lxor (gmul 2 (Z.lxor a b)) (gmul 2 (Z.lxor b c))) (gmul 2 (Z.lxor c d))) (Z.lxor a b)) c = Z.lxor (Z.lxor (gmul 2 d) (gmul 3 a)) (Z.lxor b c).
Proof.
  intros Ha Hb Hc Hd. rewrite !xtime_lxor, !gmul_3 by done. rewrite <-!gmul_2 by done. generalize (gmul 2 a), (gmul 2 b), (gmul 2 c), (gmul 2 d). intros.
  split_and!; apply Z.bits_inj'; intros j _; rewrite !Z.lxor_spec; btauto.
Qed.
Lemma zip_same {A} (f : Z -> Z -> Z) (g h : A -> Z) l : zip_with f (g <$> l) (h <$> l) = (fun x => f (g x) (h x)) <$> l.
Proof. by rewrite zip_with_fmap_l, zip_with_fmap_r, zip_with_diag. Qed.
Lemma mix_word a b c d :
  let A := le_store w a in let B := le_store w b in let C := le_store w c in let D := le_store w d in
  let mix a b c d := xor16 (xor16 (gmul 2 <$> a) (gmul 3 <$> b)) (xor16 c d) in
  let ab := Z.lxor a b in let bc := Z.lxor b c in let cd := Z.lxor c d in
  let abx := times2 wide ab in let bcx := times2 wide bc in let cdx := times2 wide cd in
  le_store w (Z.lxor (Z.lxor abx bc) d) = mix A B C D /\ le_store w (Z.lxor (Z.lxor bcx a) cd) = mix B C D A /\
  le_store w (Z.lxor (Z.lxor cdx ab) d) = mix C D A B /\ le_store w (Z.lxor (Z.lxor (Z.lxor (Z.lxor abx bcx) cdx) ab) c) = mix D A B C.
Proof.
  cbv zeta. rewrite !le_store_lxor, !times2_bytes, !le_store_lxor. unfold le_store, tabulate, xor16.
  split_and!; repeat (rewrite zip_same || rewrite <-list_fmap_compose); apply list_fmap_ext; intros i j _; cbn [compose];
    destruct (mix_byte (T8 (Z.shiftr a (8 * Z.of_nat j))) (T8 (Z.shiftr b (8 * Z.of_nat j))) (T8 (Z.shiftr c (8 * Z.of_nat j))) (T8 (Z.shiftr d (8 * Z.of_nat j)))) as (E1 & E2 & E3 & E4);
    first [apply word_T8 | assumption].
Qed.
(** The rows of a column after the mixing. *)
Definition col (ra r1 r2 r3 : list Z) (k : nat) : list Z :=
  (fun n => let a := ra !!! n in let b := r1 !!! n in let c := r2 !!! n in let d := r3 !!! n in
    let ab := Z.lxor a b in let bc := Z.lxor b c in let cd := Z.lxor c d in
    let abx := times2 wide ab in let bcx := times2 wide bc in let cdx := times2 wide cd in
    match k with
    | 0%nat => Z.lxor (Z.lxor abx bc) d | 1%nat => Z.lxor (Z.lxor bcx a) cd
    | 2%nat => Z.lxor (Z.lxor cdx ab) d | _ => Z.lxor (Z.lxor (Z.lxor (Z.lxor abx bcx) cdx) ab) c
    end) <$> seq 0 (wn wide).
Lemma length_col a b c d k : length (col a b c d k) = wn wide.
Proof. unfold col. by rewrite length_fmap, length_seq. Qed.
Lemma xor16_app a b c d : length a = length c -> xor16 (a ++ b) (c ++ d) = xor16 a c ++ xor16 b d.
Proof. intros H. by apply zip_with_app. Qed.
Lemma col_ref a b c d : length a = wn wide -> length b = wn wide -> length c = wn wide -> length d = wn wide ->
  let mix a b c d := xor16 (xor16 (gmul 2 <$> a) (gmul 3 <$> b)) (xor16 c d) in
  rb (col a b c d 0) = mix (rb a) (rb b) (rb c) (rb d) /\ rb (col a b c d 1) = mix (rb b) (rb c) (rb d) (rb a) /\
  rb (col a b c d 2) = mix (rb c) (rb d) (rb a) (rb b) /\ rb (col a b c d 3) = mix (rb d) (rb a) (rb b) (rb c).
Proof.
  intros Ha Hb Hc Hd mix. assert (Hmix : forall a b c d A B C D, length a = w -> length b = w -> length c = w -> length d = w -> mix (a ++ A) (b ++ B) (c ++ C) (d ++ D) = mix a b c d ++ mix A B C D).
  { intros. unfold mix. rewrite !fmap_app, !xor16_app; rewrite ?length_zip_with, ?length_fmap; unfold xor16; rewrite ?length_zip_with, ?length_fmap; congruence. }
  assert (Hn : mix [] [] [] [] = []) by reflexivity. pose proof (length_le_store w) as Hw.
  unfold col, Echo.rb. destruct wn_cases as [E|E]; rewrite E in *; clear E.
  - do 2 (destruct a as [|? a]; [done|]). destruct a; [|done]. do 2 (destruct b as [|? b]; [done|]). destruct b; [|done]. do 2 (destruct c as [|? c]; [done|]). destruct c; [|done]. do 2 (destruct d as [|? d]; [done|]). destruct d; [|done].
    cbn [seq fmap list_fmap flat_map lookup_total list_lookup_total]. rewrite !Hmix, Hn by apply Hw.
    destruct (mix_word z z1 z3 z5) as (E1 & E2 & E3 & E4). destruct (mix_word z0 z2 z4 z6) as (F1 & F2 & F3 & F4). cbv zeta in *. unfold mix. rewrite E1, E2, E3, E4, F1, F2, F3, F4. done.
  - do 4 (destruct a as [|? a]; [done|]). destruct a; [|done]. do 4 (destruct b as [|? b]; [done|]). destruct b; [|done]. do 4 (destruct c as [|? c]; [done|]). destruct c; [|done]. do 4 (destruct d as [|? d]; [done|]). destruct d; [|done].
    cbn [seq fmap list_fmap flat_map lookup_total list_lookup_total]. rewrite !Hmix, Hn by apply Hw.
    destruct (mix_word z z3 z7 z11) as (E1 & E2 & E3 & E4). destruct (mix_word z0 z4 z8 z12) as (F1 & F2 & F3 & F4). destruct (mix_word z1 z5 z9 z13) as (G1 & G2 & G3 & G4). destruct (mix_word z2 z6 z10 z14) as (H1 & H2 & H3 & H4).
    cbv zeta in *. unfold mix. rewrite E1, E2, E3, E4, F1, F2, F3, F4, G1, G2, G3, G4, H1, H2, H3, H4. done.
Qed.
Lemma row_shape (r : list Z) : length r = wn wide -> r = (fun j => r !!! j) <$> seq 0 (wn wide).
Proof. intros H. apply list_eq_total; [by rewrite length_fmap, length_seq|]. intros i Hi. rewrite lookup_fmap_seq by lia. done. Qed.
Lemma MIX_COLUMN_ref (P : list (list Z)) a b c d R : length a = wn wide -> length b = wn wide -> length c = wn wide -> length d = wn wide ->
  let p := length P in
  MIX_COLUMN wide p (p + 1) (p + 2) (p + 3) (P ++ a :: b :: c :: d :: R) = P ++ (col a b c d <$> seq 0 4) ++ R.
Proof.
  intros Ha Hb Hc Hd p. unfold MIX_COLUMN.
  assert (G : forall a b c d, (P ++ a :: b :: c :: d :: R) !!! p = a /\ (P ++ a :: b :: c :: d :: R) !!! (p + 1)%nat = b /\ (P ++ a :: b :: c :: d :: R) !!! (p + 2)%nat = c /\ (P ++ a :: b :: c :: d :: R) !!! (p + 3)%nat = d).
  { intros. unfold p. rewrite <-(Nat.add_0_r (length P)) at 1. rewrite !lookup_total_app_r by lia. rewrite !Nat.add_sub', ?Nat.sub_diag. replace (length P + 0 - length P)%nat with 0%nat by lia. done. }
  assert (S : forall a b c d x, <[p := x]> (P ++ a :: b :: c :: d :: R) = P ++ x :: b :: c :: d :: R /\ <[(p + 1)%nat := x]> (P ++ a :: b :: c :: d :: R) = P ++ a :: x :: c :: d :: R /\
    <[(p + 2)%nat := x]> (P ++ a :: b :: c :: d :: R) = P ++ a :: b :: x :: d :: R /\ <[(p + 3)%nat := x]> (P ++ a :: b :: c :: d :: R) = P ++ a :: b :: c :: x :: R).
  { intros. unfold p. rewrite <-(Nat.add_0_r (length P)) at 1. rewrite !insert_app_r. done. }
  assert (E : forall n a b c d, MIX_COLUMN1 wide p (p + 1) (p + 2) (p + 3) n (P ++ a :: b :: c :: d :: R) =
    let x := a !!! n in let y := b !!! n in let z := c !!! n in let t := d !!! n in
    let ab := Z.lxor x y in let bc := Z.lxor y z in let cd := Z.lxor z t in
    let abx := times2 wide ab in let bcx := times2 wide bc in let cdx := times2 wide cd in
    P ++ <[n := Z.lxor (Z.lxor abx bc) t]> a :: <[n := Z.lxor (Z.lxor bcx x) cd]> b :: <[n := Z.lxor (Z.lxor cdx ab) t]> c :: <[n := Z.lxor (Z.lxor (Z.lxor (Z.lxor abx bcx) cdx) ab) z]> d :: R).
  { intros n a' b' c' d'. unfold MIX_COLUMN1. cbv zeta. rewrite (proj1 (G _ _ _ _)), (proj1 (proj2 (G _ _ _ _))), (proj1 (proj2 (proj2 (G _ _ _ _)))), (proj2 (proj2 (proj2 (G _ _ _ _)))).
    rewrite (proj1 (S _ _ _ _ _)), (proj1 (proj2 (G _ _ _ _))), (proj1 (proj2 (S _ _ _ _ _))), (proj1 (proj2 (proj2 (G _ _ _ _)))), (proj1 (proj2 (proj2 (S _ _ _ _ _)))), (proj2 (proj2 (proj2 (G _ _ _ _)))), (proj2 (proj2 (proj2 (S _ _ _ _ _)))). done. }
  clear G S. clearbody p. unfold col. destruct wn_cases as [E2|E2]; rewrite E2 in *; clear E2.
  - do 2 (destruct a as [|? a]; [done|]). destruct a; [|done]. do 2 (destruct b as [|? b]; [done|]). destruct b; [|done]. do 2 (destruct c as [|? c]; [done|]). destruct c; [|done]. do 2 (destruct d as [|? d]; [done|]). destruct d; [|done].
    cbn [seq foldl]. rewrite !E. reflexivity.
  - do 4 (destruct a as [|? a]; [done|]). destruct a; [|done]. do 4 (destruct b as [|? b]; [done|]). destruct b; [|done]. do 4 (destruct c as [|? c]; [done|]). destruct c; [|done]. do 4 (destruct d as [|? d]; [done|]). destruct d; [|done].
    cbn [seq foldl]. rewrite !E. reflexivity.
Qed.
Lemma MIX_ref W : rows_ok 16 W -> rb <$> BIG_MIX_COLUMNS wide W = BigMixColumns (rb <$> W) /\ rows_ok 16 (BIG_MIX_COLUMNS wide W).
Proof.
  intros [Hl Hr]. do 16 (destruct W as [|? W]; [done|]). destruct W; [|done]. repeat (apply Forall_cons_1 in Hr as [? Hr]).
  assert (E : BIG_MIX_COLUMNS wide [l; l0; l1; l2; l3; l4; l5; l6; l7; l8; l9; l10; l11; l12; l13; l14] =
    (col l l0 l1 l2 <$> seq 0 4) ++ (col l3 l4 l5 l6 <$> seq 0 4) ++ (col l7 l8 l9 l10 <$> seq 0 4) ++ (col l11 l12 l13 l14 <$> seq 0 4)).
  { unfold BIG_MIX_COLUMNS. pose proof (MIX_COLUMN_ref [] l l0 l1 l2) as E1. cbn [length app Nat.add] in E1. rewrite E1 by done. clear E1. pose proof (MIX_COLUMN_ref (col l l0 l1 l2 <$> seq 0 4) l3 l4 l5 l6) as E1. cbn [length fmap list_fmap seq Nat.add] in E1. cbn [seq fmap list_fmap app] in *. rewrite E1 by done. clear E1.
    pose proof (MIX_COLUMN_ref ((col l l0 l1 l2 <$> seq 0 4) ++ (col l3 l4 l5 l6 <$> seq 0 4)) l7 l8 l9 l10) as E1. cbn [length fmap list_fmap seq Nat.add app] in E1. rewrite E1 by done. clear E1.
    pose proof (MIX_COLUMN_ref ((col l l0 l1 l2 <$> seq 0 4) ++ (col l3 l4 l5 l6 <$> seq 0 4) ++ (col l7 l8 l9 l10 <$> seq 0 4)) l11 l12 l13 l14 []) as E1. cbn [length fmap list_fmap seq Nat.add app] in E1. rewrite E1 by done. done. }
  rewrite E. split; [|split; [done|]].
  - destruct (col_ref l l0 l1 l2) as (A1 & A2 & A3 & A4); [done..|]. destruct (col_ref l3 l4 l5 l6) as (B1 & B2 & B3 & B4); [done..|].
    destruct (col_ref l7 l8 l9 l10) as (C1 & C2 & C3 & C4); [done..|]. destruct (col_ref l11 l12 l13 l14) as (D1 & D2 & D3 & D4); [done..|]. cbv zeta in *.
    rewrite !fmap_app. cbn [seq fmap list_fmap app]. rewrite A1, A2, A3, A4, B1, B2, B3, B4, C1, C2, C3, C4, D1, D2, D3, D4. reflexivity.
  - cbn [seq fmap list_fmap app]. repeat (apply List.Forall_cons; [apply length_col|]). constructor.
Qed.
End Rounds.

(** ** The compression *)

#[local] Opaque AesEnc gmul le_store.
Section Compress.
Context (wide : bool).
#[local] Abbreviation w := (wl wide).
#[local] Abbreviation rb := (rb wide).
#[local] Abbreviation rows_ok := (rows_ok wide).
Lemma wl_cases : (w = 8 /\ wn wide = 2)%nat \/ (w = 4 /\ wn wide = 4)%nat.
Proof. destruct wide; [by left|by right]. Qed.

Lemma BigSubWords_mod W k k' : k mod 2 ^ 128 = k' mod 2 ^ 128 -> BigSubWords W k = BigSubWords W k'.
Proof.
  intros E. unfold BigSubWords. apply list_fmap_ext. intros i j _. apply (f_equal (fun x => AesEnc (AesEnc (nth j W []) x) (replicate 16 0))). rewrite <-(le_store_mod 16 _ (2 ^ 128) eq_refl), <-Zplus_mod_idemp_l, E, Zplus_mod_idemp_l. by apply le_store_mod.
Qed.
Lemma rounds_echo r W K k : rows_ok 16 W -> counter_ok K -> cval K mod 2 ^ 128 = k mod 2 ^ 128 ->
  let '(W', K') := Nat.iter r (BIG_ROUND wide) (W, K) in
  let '(X, k') := Nat.iter r BigRound (rb <$> W, k) in
  rb <$> W' = X /\ rows_ok 16 W' /\ counter_ok K' /\ cval K' mod 2 ^ 128 = k' mod 2 ^ 128.
Proof.
  intros HW HK Ek. induction r as [|r IH]; [done|]. rewrite !Nat.iter_succ. destruct (Nat.iter r (BIG_ROUND wide) (W, K)) as [W1 K1]. destruct (Nat.iter r BigRound (rb <$> W, k)) as [X1 k1].
  destruct IH as (E & H1 & H2 & H3). unfold BIG_ROUND, BigRound. pose proof (SUB_ref wide W1 K1 H1 H2) as Hs. destruct (BIG_SUB_WORDS wide W1 K1) as [W2 K2]. destruct Hs as (S1 & S2 & ->).
  destruct (SHIFT_ref wide W2 S2) as [T1 T2]. destruct (MIX_ref wide _ T2) as [M1 M2]. destruct (keys_ref K1 16 H2) as [G1 G2].
  split; [|split; [done|split; [done|]]].
  - rewrite M1, T1, S1, E, (BigSubWords_mod _ _ _ H3). exact eq_refl.
  - rewrite G2, <-Zplus_mod_idemp_l, H3, Zplus_mod_idemp_l. done.
Qed.

Lemma total_nil (l : list (list Z)) i : l !!! i = nth i l [].
Proof. revert i. induction l as [|x l IH]; intros [|i]; [done..|]. apply IH. Qed.
Definition load_row (buf : list Z) (o : nat) : list Z := (fun j => le_load w (drop (o + w * j) buf)) <$> seq 0 (wn wide).
Lemma load_row_bytes o buf : bytes buf -> (o + 16 <= length buf)%nat -> rb (load_row buf o) = slice o 16 buf /\ length (load_row buf o) = wn wide.
Proof.
  intros Hb Ho. split; [|unfold load_row; by rewrite length_fmap, length_seq]. unfold load_row, Echo.rb. destruct wl_cases as [[-> ->]|[-> ->]]; cbn [seq fmap list_fmap flat_map]; rewrite !store_load_slice by (done || lia).
  - rewrite (slice_cut o 8 8). rewrite app_nil_r. do 2 f_equal. lia.
  - rewrite (slice_cut o 4 12), (slice_cut _ 4 8), (slice_cut _ 4 4), app_nil_r. repeat (f_equal; try lia).
Qed.

(** Words combined place by place. *)
Lemma rb_lxor (f g : nat -> Z) : rb ((fun j => Z.lxor (f j) (g j)) <$> seq 0 (wn wide)) = xor16 (rb (f <$> seq 0 (wn wide))) (rb (g <$> seq 0 (wn wide))).
Proof.
  unfold Echo.rb. generalize (seq 0 (wn wide)). intros l. induction l as [|j l IH]; [done|]. cbn [fmap list_fmap flat_map]. rewrite xor16_app by (by rewrite !length_le_store). rewrite le_store_lxor. f_equal. exact IH.
Qed.
Lemma rb_foldl (f : nat -> Z) (g : nat -> nat -> Z) ts :
  rb ((fun j => foldl Z.lxor (f j) ((fun t => g t j) <$> ts)) <$> seq 0 (wn wide)) = foldl xor16 (rb (f <$> seq 0 (wn wide))) ((fun t => rb (g t <$> seq 0 (wn wide))) <$> ts).
Proof.
  revert f. induction ts as [|t ts IH]; intros f; [done|]. cbn [fmap list_fmap foldl]. rewrite <-rb_lxor. apply (IH (fun j => Z.lxor (f j) (g t j))).
Qed.
Lemma xor16_assoc a b c : xor16 (xor16 a b) c = xor16 a (xor16 b c).
Proof. unfold xor16. revert b c. induction a as [|x a IH]; intros [|y b] [|z c]; cbn; [done..|]. by rewrite Z.lxor_assoc, IH. Qed.
Lemma foldl_xor16 a b l : xor16 a (foldl xor16 b l) = foldl xor16 (xor16 a b) l.
Proof. revert b. induction l as [|c l IH]; intros b; [done|]. cbn [foldl]. by rewrite IH, <-xor16_assoc. Qed.

Section Size.
Context (rows rounds : nat).
Hypothesis Hrows : (rows = 4 \/ rows = 8)%nat.
#[local] Abbreviation B := (bsize rows).

Lemma echo_compress_ref st buf : rows_ok rows (eV st) -> counter_ok (eC st) -> bytes buf -> length buf = B ->
  rb <$> eV (COMPRESS wide rows rounds st buf) = echo_f rows rounds (rb <$> eV st) (cval (eC st)) buf /\
  rows_ok rows (eV (COMPRESS wide rows rounds st buf)) /\ eC (COMPRESS wide rows rounds st buf) = eC st.
Proof.
  intros HV HC Hb Hl. unfold COMPRESS, echo_f. set (V := eV st) in *.
  assert (EI : INPUT_BLOCK wide rows V buf = V ++ ((fun u => load_row buf (16 * u)) <$> seq 0 (16 - rows))) by reflexivity.
  assert (HB : B = (16 * (16 - rows))%nat) by reflexivity.
  assert (Hrow : forall u, (u < 16 - rows)%nat -> rb (load_row buf (16 * u)) = slice (16 * u) 16 buf /\ length (load_row buf (16 * u)) = wn wide) by (intros u Hu; apply load_row_bytes; [done|lia]).
  set (M := (fun u => slice (16 * u) 16 buf) <$> seq 0 (16 - rows)).
  assert (EM : rb <$> ((fun u => load_row buf (16 * u)) <$> seq 0 (16 - rows)) = M).
  { unfold M. rewrite <-list_fmap_compose. apply list_fmap_ext. intros i u Hu. apply lookup_seq in Hu as [-> Hu]. by apply Hrow. }
  assert (HI : rows_ok 16 (INPUT_BLOCK wide rows V buf)).
  { rewrite EI. destruct HV as [HV1 HV2]. split; [rewrite length_app, length_fmap, length_seq; lia|]. apply Forall_app_2; [done|]. apply Forall_fmap, Forall_seq. intros u Hu. apply Hrow. lia. }
  pose proof (rounds_echo rounds _ _ (cval (eC st)) HI HC eq_refl) as Hr. rewrite EI, fmap_app, EM in Hr. rewrite EI.
  destruct (Nat.iter rounds (BIG_ROUND wide) _) as [W' K']. destruct (Nat.iter rounds BigRound _) as [X k']. destruct Hr as (EX & HW' & _ & _). cbn [fst eV eC]. clear EI HI.
  split; [|split; [|done]].
  - unfold FINAL. rewrite <-list_fmap_compose. apply list_fmap_ext. intros i r Hr. apply lookup_seq in Hr as [-> Hr]. cbn [compose Nat.add].
    set (m0 := fun j => le_load w (drop (16 * i + w * j) buf)). set (mt := fun t j => le_load w (drop (16 * i + w * j + 16 * rows * t) buf)). set (wt := fun t j => (W' !!! (i + rows * t)%nat) !!! j).
    etransitivity; [exact (rb_lxor (fun j => (V !!! i) !!! j) (fun j => foldl Z.lxor (foldl Z.lxor (m0 j) ((fun t => mt t j) <$> seq 1 ((16 - rows) / rows - 1))) ((fun t => wt t j) <$> seq 0 (16 / rows))))|].
    rewrite (rb_foldl (fun j => foldl Z.lxor (m0 j) ((fun t => mt t j) <$> seq 1 ((16 - rows) / rows - 1))) wt), (rb_foldl m0 mt), <-foldl_app, foldl_xor16.
    rewrite <-row_shape by exact (rows_lookup wide rows V i HV Hr). rewrite nth_rb by (destruct HV as [-> _]; done).
    assert (Em : forall t, (i + rows * t < 16 - rows)%nat -> rb (mt t <$> seq 0 (wn wide)) = nth (i + rows * t) M []).
    { intros t Ht. transitivity (rb (load_row buf (16 * (i + rows * t)))).
      - f_equal. unfold load_row, mt. apply list_fmap_ext. intros p j _. f_equal. f_equal. lia.
      - rewrite (proj1 (Hrow _ Ht)). unfold M. rewrite <-(total_nil (_ <$> _)), lookup_fmap_seq by done. done. }
    assert (E0 : rb (m0 <$> seq 0 (wn wide)) = nth (i + rows * 0) M []).
    { rewrite <-Em by lia. f_equal. apply list_fmap_ext. intros p j _. unfold m0, mt. do 2 f_equal. lia. }
    assert (Ew : forall t, (i + rows * t < 16)%nat -> rb (wt t <$> seq 0 (wn wide)) = nth (i + rows * t) X []).
    { intros t Ht. unfold wt. rewrite <-row_shape by exact (rows_lookup wide 16 W' _ HW' Ht). rewrite <-EX. symmetry. apply nth_rb. destruct HW' as [-> _]. done. }
    rewrite E0. destruct Hrows as [Er|Er]; rewrite Er in *; cbn [Nat.sub Nat.div Nat.divmod fst snd seq fmap list_fmap app]; rewrite !Ew, ?Em by lia; reflexivity.
  - unfold FINAL. split; [by rewrite length_fmap, length_seq|]. apply Forall_fmap, Forall_seq. intros i _. cbn. by rewrite length_fmap, length_seq.
Qed.
End Size.
End Compress.

(** ** Streaming *)

Section Stream.
Context (wide : bool) (rows rounds : nat).
Hypothesis Hrows : (rows = 4 \/ rows = 8)%nat.
#[local] Abbreviation w := (wl wide).
#[local] Abbreviation rb := (rb wide).
#[local] Abbreviation rows_ok := (rows_ok wide).
#[local] Abbreviation B := (bsize rows).
#[local] Abbreviation bits := (8 * Z.of_nat B).
#[local] Abbreviation chain := (echo_chain rows rounds).

Lemma bsize_val : (bsize 4 = 192 /\ bsize 8 = 128 /\ 128 <= B <= 192)%nat.
Proof. destruct Hrows as [->| ->]; split_and!; (exact eq_refl || (unfold bsize; lia)). Qed.
Record st_ok (st : echo_state) : Prop := { so_V : rows_ok rows (eV st); so_C : counter_ok (eC st) }.
Lemma echo_blocks L bs i st : st_ok st -> cval (eC st) = bits * Z.of_nat i -> bits * Z.of_nat (i + length bs) <= L -> L < 2 ^ 128 ->
  Forall bytes bs -> Forall (fun b => length b = B) bs ->
  let st' := foldl (echo_block wide rows rounds) st bs in
  st_ok st' /\ rb <$> eV st' = chain L i (rb <$> eV st) bs /\ cval (eC st') = bits * Z.of_nat (i + length bs).
Proof.
  pose proof bsize_val as (_ & _ & HB). intros Hok Hc HL H128 Hbs Hlen. revert i st Hok Hc HL Hlen. induction Hbs as [|b bs Hb _ IH]; intros i st Hok Hc HL Hlen; [cbn [foldl length]; unfold echo_chain; cbn [counter_chain]; rewrite Nat.add_0_r; split; [exact Hok|split; [exact eq_refl|exact Hc]]|].
  apply Forall_cons_1 in Hlen as [Hl Hlen]. cbn [foldl length] in *. unfold echo_chain in *. cbn [counter_chain] in *. destruct Hok as [HV HC]. destruct (INCR_ref (eC st) bits HC ltac:(lia)) as [HC' Ec]. rewrite Hc in Ec.
  rewrite Z.mod_small in Ec by lia. unfold echo_block at 2 4 6. set (st1 := mk_echo (eV st) (INCR_COUNTER (eC st) bits)).
  destruct (echo_compress_ref wide rows rounds Hrows st1 b HV HC' Hb Hl) as (E1 & E2 & E3). set (st2 := COMPRESS wide rows rounds st1 b) in *. 
  assert (Hok2 : st_ok st2) by (split; [exact E2|rewrite E3; exact HC']).
  assert (Hc2 : cval (eC st2) = bits * Z.of_nat (S i)) by (rewrite E3; cbn [st1 eC]; rewrite Ec; lia).
  clearbody st2. destruct (IH (S i) st2 Hok2 Hc2 ltac:(lia) Hlen) as (H1 & H2 & H3). split; [done|]. split; [|rewrite H3; lia].
  rewrite H2, E1. cbn [st1 eV eC]. change (16 * (16 - rows))%nat with B. rewrite Ec, (block_counter_full B ltac:(lia) L i) by lia. f_equal. f_equal. lia.
Qed.

(** The 18 bytes at the end of the last block. *)
Lemma trailer_18 (b x y : list Z) : length b = B -> length x = 2%nat -> length y = 16%nat -> memcpy (memcpy b (B - 18) x) (B - 16) y = take (B - 18) b ++ x ++ y.
Proof.
  pose proof bsize_val as (_ & _ & HB). intros Hb Hx Hy. rewrite take_memcpy_all by (rewrite length_memcpy; lia). replace (B - 16)%nat with (B - 18 + length x)%nat by lia. rewrite take_memcpy by lia. by rewrite <-app_assoc.
Qed.
Lemma concat_rb (V : list (list Z)) : flat_map (le_store w) (concat V) = concat (rb <$> V).
Proof. induction V as [|v V IH]; [done|]. cbn [concat fmap list_fmap]. rewrite flat_map_app, IH. done. Qed.
Lemma length_V V : rows_ok rows V -> length (concat V) = (rows * wn wide)%nat.
Proof. intros [Hl Hr]. rewrite <-Hl. clear Hl. induction Hr as [|v V Hv _ IH]; [done|]. cbn [concat length]. rewrite length_app, Hv, IH. lia. Qed.
Lemma output_ref V tmp words : rows_ok rows V -> length tmp = (8 * rows)%nat -> (words <= 2 * rows)%nat ->
  let count := if wide then ((words + 1) / 2)%nat else words in
  take (4 * words) (foldl (fun t k => memcpy t (w * k) (le_store w (concat V !!! k))) tmp (seq 0 count)) = take (4 * words) (concat (rb <$> V)).
Proof.
  intros HV Ht Hw count. pose proof (length_V V HV) as Hl. assert (Hcount : (w * count <= 8 * rows /\ 4 * words <= w * count /\ count <= rows * wn wide)%nat).
  { unfold count, wl, wn. pose proof (Nat.div_mod_eq (words + 1) 2). pose proof (Nat.mod_upper_bound (words + 1) 2). destruct wide; lia. }
  destruct (store_seq (fun k => le_store w (concat V !!! k)) w (fun _ => length_le_store _ _) count tmp ltac:(lia)) as [_ E]. cbv zeta in E. set (t := foldl _ tmp _) in *. clearbody t.
  rewrite <-concat_rb. set (VV := concat V) in *. clearbody VV.
  assert (E2 : flat_map (fun k => le_store w (VV !!! k)) (seq 0 count) = take (w * count) (flat_map (le_store w) VV)).
  { replace (flat_map (le_store w) VV) with (flat_map (le_store w) (take count VV ++ drop count VV)) by (by rewrite take_drop). rewrite flat_map_app, take_app_length'.
    - rewrite !flat_map_concat_map. f_equal. rewrite <-(map_map (fun k => VV !!! k) (le_store w)). f_equal. apply list_eq_total; [rewrite length_map, length_seq, length_take; lia|].
      rewrite length_map, length_seq. intros i Hi. change (map ?g ?l) with (g <$> l). rewrite lookup_fmap_seq by done. by rewrite lookup_total_take_lt.
    - destruct (digest_words_gen (le_store w) w (take count VV) (fun v => conj (length_le_store w v) (bytes_le_store w v))) as [-> _]. rewrite length_take. f_equal. lia. }
  rewrite E2 in E. apply (f_equal (take (4 * words))) in E. rewrite !take_take, !Nat.min_l in E by lia. exact E.
Qed.
(** The counter of the last message bits, and its bytes in [u.tmp]. *)
Lemma close_counter C k p n tmp : counter_ok C -> cval C = bits * Z.of_nat k -> (p < B)%nat -> 0 <= n < 8 -> (16 <= length tmp)%nat ->
  let elen := Z.of_nat p * 8 + n in let L := bits * Z.of_nat k + elen in L < 2 ^ 128 ->
  let C1 := INCR_COUNTER C elen in
  let C2 := if elen =? 0 then [0; 0; 0; 0] else C1 in
  let tmp1 := foldl (fun t i => memcpy t (4 * i) (le_store 4 (C1 !!! i))) tmp (seq 0 4) in
  take 16 tmp1 = le_store 16 L /\ length tmp1 = length tmp /\ counter_ok C2 /\ cval C2 = block_counter B L k /\ block_counter B L (S k) = 0.
Proof.
  pose proof bsize_val as (_ & _ & HB). intros HC Hc Hp Hn Ht elen L HL C1 C2 tmp1. destruct (INCR_ref C elen HC ltac:(unfold elen; lia)) as [HC1 Ec]. fold C1 in HC1, Ec. rewrite Hc in Ec. fold L in Ec.
  rewrite Z.mod_small in Ec by (unfold L, elen in *; lia). split; [|split; [|split; [|split]]].
  - destruct (store_seq (fun i => le_store 4 (C1 !!! i)) 4 (fun _ => length_le_store _ _) 4 tmp ltac:(lia)) as [_ E]. cbv zeta in E. unfold tmp1. etransitivity; [exact E|].
    rewrite <-Ec, <-(counter_bytes C1 HC1). destruct HC1 as [Hl _]. clearbody C1. do 4 (destruct C1 as [|? C1]; [done|]). destruct C1; [|done]. reflexivity.
  - exact (proj1 (store_seq (fun i => le_store 4 (C1 !!! i)) 4 (fun _ => length_le_store _ _) 4 tmp ltac:(lia))).
  - unfold C2. destruct (elen =? 0); [split; [done|by apply words32_by]|done].
  - unfold L. rewrite (proj1 (block_counter_end B ltac:(lia) k elen ltac:(unfold elen; lia))). unfold C2. destruct (elen =? 0); [reflexivity|exact Ec].
  - exact (proj2 (block_counter_end B ltac:(lia) k elen ltac:(unfold elen; lia))).
Qed.
(** The padding, in one block or in two. *)
Lemma pad_blocks m ub n words : let p := (length m mod B)%nat in
  let t := le_store 2 (32 * Z.of_nat words) ++ le_store 16 (8 * Z.of_nat (length m) + n) in
  blocks B (echo_pad rows words m ub n) = blocks B m ++
    if (B - 18 <? S p)%nat then [leftover B m ++ [last_bits ub n] ++ replicate (B - S p) 0; replicate (B - 18) 0 ++ t]
    else [leftover B m ++ [last_bits ub n] ++ replicate (B - 18 - S p) 0 ++ t].
Proof.
  pose proof bsize_val as (_ & _ & HB). intros p t. pose proof (Nat.mod_upper_bound (length m) B ltac:(lia)) as Hp. fold p in Hp. unfold echo_pad. change (16 * (16 - rows))%nat with B. fold t.
  assert (Ht : length t = 18%nat) by (unfold t; by rewrite length_app, !length_le_store).
  rewrite <-(Nat.Div0.add_mod_idemp_l (length m) 18 B). fold p. pose proof (length_leftover B ltac:(lia) m) as Hlo. fold p in Hlo. clearbody t.
  destruct (Nat.ltb_spec (B - 18) (S p)) as [H|H].
  - replace (p + 18)%nat with (p + 18 - B + 1 * B)%nat at 1 by lia. rewrite Nat.Div0.mod_add, Nat.mod_small by lia.
    replace (B - 1 - (p + 18 - B))%nat with ((B - S p) + (B - 18))%nat by lia. rewrite replicate_add, <-app_assoc.
    replace (m ++ [last_bits ub n] ++ replicate (B - S p) 0 ++ replicate (B - 18) 0 ++ t) with (m ++ ([last_bits ub n] ++ replicate (B - S p) 0) ++ (replicate (B - 18) 0 ++ t)) by (by rewrite <-!app_assoc).
    apply blocks_last2; [lia|rewrite !length_app, length_replicate; cbn [length]; lia|rewrite length_app, length_replicate; lia].
  - rewrite Nat.mod_small by lia. replace (B - 1 - (p + 18))%nat with (B - 18 - S p)%nat by lia. apply blocks_last; [lia|]. rewrite !length_app, length_replicate. cbn [length]. lia.
Qed.
Lemma last_bits_byte ub n : word 8 ub -> 0 <= n < 8 -> word 8 (last_bits ub n).
Proof. intros H1 H2. destruct (final_byte_ref ub n H1 H2) as [<- H]. done. Qed.

Lemma echo_close_ref tmp sc ub n words m k : bytes m -> word 8 ub -> 0 <= n < 8 -> length tmp = (8 * rows)%nat -> (words <= 2 * rows)%nat ->
  sph_ok B sc -> st_ok (sc_st sc) -> cval (eC (sc_st sc)) = bits * Z.of_nat k -> k = (length m / B)%nat -> sc_ptr sc = (length m mod B)%nat -> take (sc_ptr sc) (sc_buf sc) = leftover B m ->
  let L := 8 * Z.of_nat (length m) + n in L < 2 ^ 128 ->
  exists last, blocks B (echo_pad rows words m ub n) = blocks B m ++ last /\
  (echo_close wide rows rounds tmp sc ub n words).2 = take (4 * words) (concat (chain L k (rb <$> eV (sc_st sc)) last)).
Proof.
  pose proof bsize_val as (_ & _ & HB). intros Hm Hub Hn Ht Hw Hok Hst Hc Ek Ep El L HL.
  assert (EL : L = bits * Z.of_nat k + (Z.of_nat (sc_ptr sc) * 8 + n)) by (pose proof (Nat.div_mod_eq (length m) B); unfold L; rewrite Ek, Ep; nia).
  destruct Hst as [HV HC]. assert (Hp : (sc_ptr sc < B)%nat) by apply Hok.
  destruct (close_counter (eC (sc_st sc)) k (sc_ptr sc) n tmp HC Hc Hp Hn ltac:(lia)) as (T1 & T2 & C1 & C2 & C3); [lia|]. rewrite <-EL in T1, C2, C3.
  pose proof (pad_blocks m ub n words) as Eb. cbv zeta in Eb. rewrite <-Ep in Eb. fold L in Eb. eexists. split; [exact Eb|]. unfold echo_close.
  set (tmp1 := foldl _ tmp (seq 0 4)) in *. set (C := if _ =? 0 then _ else _) in *. rewrite (proj1 (final_byte_ref ub n Hub Hn)), (pad_buffer B sc _ Hok), El, T1.
  set (t := le_store 2 (32 * Z.of_nat words) ++ le_store 16 L) in *. pose proof (length_leftover B ltac:(lia) m) as Hlo. rewrite <-Ep in Hlo. pose proof (last_bits_byte ub n Hub Hn) as Hlb.
  assert (Hlm : bytes (leftover B m)) by (apply Forall_drop, Hm). assert (Hz : forall j, bytes (replicate j 0)) by (intros j; by apply Forall_replicate, word_0).
  assert (Ht18 : length t = 18%nat /\ bytes t) by (unfold t; split; [by rewrite length_app, !length_le_store|apply Forall_app_2; apply bytes_le_store]). destruct Ht18 as [Ht18 Hbt].
  set (b1 := leftover B m ++ [last_bits ub n] ++ replicate (B - S (sc_ptr sc)) 0).
  assert (Hb1 : length b1 = B /\ bytes b1). { unfold b1. split; [rewrite !length_app, Hlo, length_replicate; cbn [length]; lia|]. apply Forall_app_2; [done|]. apply Forall_app_2; [by apply List.Forall_cons|apply Hz]. }
  destruct Hb1 as [Hb1 Hbb1]. replace (Z.of_nat words * 32) with (32 * Z.of_nat words) by lia.
  assert (Hlen1 : length tmp1 = (8 * rows)%nat) by lia. clearbody C tmp1. destruct (Nat.ltb_spec (B - 18) (S (sc_ptr sc))) as [H|H]; cbv beta iota zeta; cbn [snd].
  - set (s1 := mk_echo (eV (sc_st sc)) C). destruct (echo_compress_ref wide rows rounds Hrows s1 b1 HV C1 Hbb1 Hb1) as (E1 & E2 & _). set (V1 := eV (COMPRESS wide rows rounds s1 b1)) in *. clearbody V1.
    assert (Ebuf : memset0 b1 0 B = replicate B 0). { unfold memset0. rewrite take_memcpy_all by (rewrite length_replicate; lia). done. }
    rewrite Ebuf, trailer_18 by (rewrite ?length_replicate, ?length_le_store; done). rewrite take_replicate, Nat.min_l by lia. fold t. set (b2 := replicate (B - 18) 0 ++ t).
    assert (Hb2 : length b2 = B) by (unfold b2; rewrite length_app, length_replicate; lia). assert (Hbb2 : bytes b2) by (unfold b2; apply Forall_app_2; [apply Hz|done]).
    destruct (echo_compress_ref wide rows rounds Hrows (mk_echo V1 [0; 0; 0; 0]) b2 E2 ltac:(split; [done|by apply words32_by]) Hbb2 Hb2) as (F1 & F2 & _).
    rewrite output_ref by done. unfold echo_chain. cbn [counter_chain]. change (16 * (16 - rows))%nat with B. rewrite <-C2, C3. cbn [s1 eV eC] in E1, F1. rewrite F1, E1. done.
  - rewrite trailer_18 by (done || apply length_le_store). fold t.
    assert (Etk : take (B - 18) b1 ++ t = leftover B m ++ [last_bits ub n] ++ replicate (B - 18 - S (sc_ptr sc)) 0 ++ t).
    { unfold b1. rewrite app_assoc. rewrite take_app_ge by (rewrite length_app, Hlo; cbn [length]; lia). rewrite take_replicate, length_app, Hlo. cbn [length]. rewrite Nat.min_l by lia. replace (sc_ptr sc + 1)%nat with (S (sc_ptr sc)) by lia. by rewrite <-!app_assoc. }
    rewrite Etk. set (b := leftover B m ++ _). assert (Hb : length b = B /\ bytes b).
    { unfold b. split; [rewrite !length_app, Hlo, length_replicate; cbn [length]; lia|]. apply Forall_app_2; [done|]. apply Forall_app_2; [by apply List.Forall_cons|]. apply Forall_app_2; [apply Hz|done]. }
    destruct Hb as [Hb Hbb]. destruct (echo_compress_ref wide rows rounds Hrows (mk_echo (eV (sc_st sc)) C) b HV C1 Hbb Hb) as (F1 & F2 & _). rewrite output_ref by done. unfold echo_chain. cbn [counter_chain eV eC] in *. change (16 * (16 - rows))%nat with B. by rewrite F1, C2.
Qed.
Lemma init_bytes words : (32 * Z.of_nat words < 2 ^ 32) -> rb <$> replicate rows ((32 * Z.of_nat words) :: replicate (wn wide - 1) 0) = replicate rows (le_store 16 (32 * Z.of_nat words)).
Proof.
  intros Hw. rewrite fmap_replicate. f_equal. unfold Echo.rb. assert (Hz : forall j, le_store j 0 = replicate j 0) by (induction j as [|j IH]; [done|]; rewrite le_store_S; cbn [replicate]; by rewrite <-IH).
  set (v := 32 * Z.of_nat words) in *. assert (Hs : Z.shiftr v 32 = 0 /\ Z.shiftr v 64 = 0) by (rewrite !Z.shiftr_div_pow2 by lia; split; apply Z.div_small; lia). destruct Hs as [H32 H64].
  destruct (wl_cases wide) as [[-> ->]|[-> ->]]; cbn [Nat.sub replicate flat_map].
  - change (le_store 16 v) with (le_store (8 + 8) v). rewrite (le_store_app 8 8 v). change (8 * Z.of_nat 8) with 64. by rewrite H64, app_nil_r.
  - change (le_store 16 v) with (le_store (4 + 12) v). rewrite (le_store_app 4 12 v). change (8 * Z.of_nat 4) with 32. rewrite H32, !Hz, app_nil_r. done.
Qed.
Lemma echo_stream junk tmp pieces ub n words : length junk = B -> length tmp = (8 * rows)%nat -> (words <= 2 * rows)%nat -> word 8 ub -> 0 <= n < 8 -> bytes (concat pieces) ->
  8 * Z.of_nat (length (concat pieces)) + n < 2 ^ 128 ->
  (echo_close wide rows rounds tmp (foldl (echo_core wide rows rounds) (echo_init wide rows junk (32 * Z.of_nat words)) pieces) ub n words).2 = echo_digest rows rounds words (concat pieces) ub n.
Proof.
  pose proof bsize_val as (_ & _ & HB). intros Hj Ht Hw Hub Hn Hm HL. unfold echo_init.
  destruct (sph_pieces_spec B (echo_block wide rows rounds) ltac:(lia) junk (mk_echo (replicate rows (32 * Z.of_nat words :: replicate (wn wide - 1) 0)) [0; 0; 0; 0]) pieces Hj) as (Hok & Est & Ep & El).
  cbv zeta in *. change (sph_core B (echo_block wide rows rounds)) with (echo_core wide rows rounds) in *. set (c := foldl (echo_core wide rows rounds) _ pieces) in *. clearbody c.
  set (m := concat pieces) in *. set (st0 := mk_echo _ _) in *.
  assert (H0 : st_ok st0). { split; [|split; [done|by apply words32_by]]. split; [apply length_replicate|]. apply Forall_replicate. cbn [length]. rewrite length_replicate. destruct (wn_cases wide) as [-> | ->]; done. }
  assert (Hlen : length (blocks B m) = (length m / B)%nat) by (apply length_blocks_div; lia).
  destruct (echo_blocks (8 * Z.of_nat (length m) + n) (blocks B m) 0 st0 H0 ltac:(cbn [Z.of_nat]; rewrite Z.mul_0_r; reflexivity)) as (H1 & H2 & H3); [rewrite Hlen; pose proof (Nat.div_mod_eq (length m) B); nia|done|by apply blocks_bytes|apply blocks_length; lia|].
  rewrite <-Est in H1, H2, H3. rewrite Nat.add_0_l, Hlen in H3.
  destruct (echo_close_ref tmp c ub n words m (length m / B)%nat Hm Hub Hn Ht Hw Hok H1 H3 eq_refl Ep El HL) as (last & Eb & ->).
  unfold echo_digest. change (16 * (16 - rows))%nat with B. unfold echo_chain in *. change (16 * (16 - rows))%nat with B in *. rewrite Eb, counter_chain_app, Hlen, Nat.add_0_l, H2. cbn [st0 eV]. rewrite init_bytes by lia. done.
Qed.
Lemma echo_digest_bytes words m ub n : (words <= 2 * rows)%nat -> word 8 ub -> 0 <= n < 8 -> bytes m -> 8 * Z.of_nat (length m) + n < 2 ^ 128 ->
  length (echo_digest rows rounds words m ub n) = (4 * words)%nat /\ bytes (echo_digest rows rounds words m ub n).
Proof.
  intros Hw Hub Hn Hm HL. assert (Em : concat [m] = m) by (cbn [concat]; apply app_nil_r).
  pose proof (echo_stream (replicate B 0) (replicate (8 * rows) 0) [m] ub n words) as E. rewrite Em in E. rewrite <-E by (done || apply length_replicate). clear E. unfold echo_close.
  set (st1 := if (_ <? _)%nat then _ else _). destruct st1 as [st1 b1]. cbn [snd]. set (C := INCR_COUNTER _ _). clearbody C. set (VV := concat _). clearbody VV. clear st1 b1.
  assert (Hf : forall (g : nat -> list Z) k c t, (forall i, length (g i) = k) -> (forall i, bytes (g i)) -> (k * c <= length t)%nat -> bytes t ->
    let t' := foldl (fun t i => memcpy t (k * i) (g i)) t (seq 0 c) in length t' = length t /\ bytes t').
  { intros g k c t Hg Hbg Hc Hb. destruct (store_seq g k Hg c t Hc) as [Hl _]. split; [exact Hl|]. clear Hl Hc. generalize (seq 0 c). intros l. revert t Hb. induction l as [|i l IH]; intros t Hb; [done|]. cbn [foldl]. apply IH, Forall_memcpy; [done|apply Hbg]. }
  destruct (Hf (fun i => le_store 4 (C !!! i)) 4%nat 4%nat (replicate (8 * rows) 0)) as [L1 B1]; [intros; apply length_le_store|intros; apply bytes_le_store|rewrite length_replicate; lia|by apply Forall_replicate, word_0|]. cbv zeta in L1, B1.
  set (t1 := foldl _ (replicate _ 0) _) in *. clearbody t1. rewrite length_replicate in L1. set (count := if wide then _ else _).
  assert (Hcount : (w * count <= 8 * rows /\ 4 * words <= 8 * rows)%nat). { unfold count, wl. pose proof (Nat.div_mod_eq (words + 1) 2). pose proof (Nat.mod_upper_bound (words + 1) 2). destruct wide; lia. }
  destruct (Hf (fun i => le_store w (VV !!! i)) w count t1) as [L2 B2]; [intros; apply length_le_store|intros; apply bytes_le_store|lia|done|]. cbv zeta in L2, B2. split; [rewrite length_take; lia|by apply Forall_take].
Qed.
End Stream.

(** ** Properties *)

(** C19. For the four digest sizes, with the state in 64-bit or in 32-bit words, feeding a
    message to [sph_echo*] in any pieces and closing with up to 7 extra bits gives the ECHO
    digest of the concatenation: the tables are the AES round of the standard, the four
    counter words with their carries are one 128-bit key, the masked shifts double sixteen
    bytes at once, and a last block without message bits is compressed with the counter 0. *)
Theorem sph_echo_streaming wide junk1 junk2 tmp1 tmp2 pieces ub n :
  length junk1 = 192%nat -> length junk2 = 128%nat -> length tmp1 = 32%nat -> length tmp2 = 64%nat -> word 8 ub -> 0 <= n < 8 ->
  let m := concat pieces in
  bytes m -> 8 * Z.of_nat (length m) + n < 2 ^ 128 ->
  (sph_echo224_addbits_and_close wide tmp1 (foldl (sph_echo224 wide) (sph_echo224_init wide junk1) pieces) ub n).2 = echo_digest 4 8 7 m ub n /\
  (sph_echo256_addbits_and_close wide tmp1 (foldl (sph_echo256 wide) (sph_echo256_init wide junk1) pieces) ub n).2 = echo_digest 4 8 8 m ub n /\
  (sph_echo384_addbits_and_close wide tmp2 (foldl (sph_echo384 wide) (sph_echo384_init wide junk2) pieces) ub n).2 = echo_digest 8 10 12 m ub n /\
  (sph_echo512_addbits_and_close wide tmp2 (foldl (sph_echo512 wide) (sph_echo512_init wide junk2) pieces) ub n).2 = echo_digest 8 10 16 m ub n.
Proof.
  intros H1 H2 H3 H4 Hub Hn m Hm HL.
  split; [exact (echo_stream wide 4 8 (or_introl eq_refl) junk1 tmp1 pieces ub n 7 H1 H3 ltac:(lia) Hub Hn Hm HL)|].
  split; [exact (echo_stream wide 4 8 (or_introl eq_refl) junk1 tmp1 pieces ub n 8 H1 H3 ltac:(lia) Hub Hn Hm HL)|].
  split; [exact (echo_stream wide 8 10 (or_intror eq_refl) junk2 tmp2 pieces ub n 12 H2 H4 ltac:(lia) Hub Hn Hm HL)|].
  exact (echo_stream wide 8 10 (or_intror eq_refl) junk2 tmp2 pieces ub n 16 H2 H4 ltac:(lia) Hub Hn Hm HL).
Qed.
Lemma sph_echo_streaming_witness :
  (sph_echo512_addbits_and_close true (replicate 64 7) (foldl (sph_echo512 true) (sph_echo512_init true (replicate 128 9)) [[0x61]; replicate 120 0x62]) 0xA0 3).2
  = echo_digest 8 10 16 (concat [[0x61]; replicate 120 0x62]) 0xA0 3.
Proof.
  assert (Hb : bytes (concat [[0x61]; replicate 120 0x62])) by (apply byte_list_dec; reflexivity).
  refine (proj2 (proj2 (proj2 (sph_echo_streaming true (replicate 192 9) (replicate 128 9) (replicate 32 7) (replicate 64 7) [[0x61]; replicate 120 0x62] 0xA0 3 eq_refl eq_refl eq_refl eq_refl _ _ Hb _))));
    unfold word; [lia|lia|reflexivity].
Defined.

(** The empty message, as published. *)
Example echo512_empty :
  take 16 (sph_echo512_close true (replicate 64 0) (sph_echo512_init true (replicate 128 0))).2
  = [0x15; 0x8F; 0x58; 0xCC; 0x79; 0xD3; 0x00; 0xA9; 0xAA; 0x29; 0x25; 0x15; 0x04; 0x92; 0x75; 0xD0].
Proof. vm_compute. reflexivity. Qed.

End Echo.
