(* ===== verification/Shavite.v ===== *)
(** * SHAvite-3 ([crypto/ghostrider/sph_shavite.c]).

    The compression is written twice: with an array of round keys, and unrolled with the
    keys in a ring of variables that the steps update in place.  Both are modelled.  The
    reference expands the keys by their recurrences and runs the Feistel rounds, with AES on
    blocks of bytes. *)
From S2P Require Import Prelude Stream SphCore NmAes CnAes AesHelper.
Import AesHelper.

Module Shavite.

Definition IV224 : list Z := [0x6774F31C; 0x990AE210; 0xC87D4274; 0xC9546371; 0x62B2AEA8; 0x4B5801D8; 0x1B702860; 0x842F3017].
Definition IV256 : list Z := [0x49BB3E47; 0x2674860D; 0xA8B392AC; 0x021AC4E6; 0x409283CF; 0x620E5D86; 0x6D929DCB; 0x96CC2A8B].
Definition IV384 : list Z := [
  0x83DF1545; 0xF9AAEC13; 0xF4803CB0; 0x11FE1F47; 0xDA6CD269; 0x4F53FCD7; 0x950529A2; 0x97908147;
  0xB0A4D7AF; 0x2B9132BF; 0x226E607D; 0x3C0F8D7C; 0x487B3F0F; 0x04363E22; 0x0155C99C; 0xEC2E20D3].
Definition IV512 : list Z := [
  0x72FCCDD8; 0x79CA4727; 0x128A077B; 0x40D55AEC; 0xD1901A06; 0x430AE307; 0xB29F5CD1; 0xDF07FBFC;
  0x8E45D73D; 0x681AB538; 0xBDE86578; 0xDD577E47; 0xE275EADE; 0x502D9FCD; 0xB9357178; 0x022A4B9A].

Record shavite_state := mk_shavite { sh : list Z; count : list Z }.
Abbreviation shavite_ctx := (sph_ctx shavite_state).

Definition xorw (a b : list Z) : list Z := zip_with Z.lxor a b.
Definition AES_ROUND_NOKEY (X : list Z) : list Z := AES_ROUND_NOKEY_LE X.
(** [KEY_EXPAND_ELT(k0, k1, k2, k3)]: a round on [k1, k2, k3, k0], then the words move back. *)
Definition KEY_EXPAND_ELT (K : list Z) : list Z :=
  match K with [k0; k1; k2; k3] => AES_ROUND_NOKEY [k1; k2; k3; k0] | _ => K end.

(** ** The versions with an array of round keys *)

Section Array.
Context (rk : list Z) (u : nat).   (* the words written so far, and their number *)
Context (w : nat).                 (* 16 or 32 *)
Definition expand_words (cnt : list Z) : list Z :=
  let x := AES_ROUND_NOKEY [rk !!! (u - (w - 1))%nat; rk !!! (u - (w - 2))%nat; rk !!! (u - (w - 3))%nat; rk !!! (u - w)%nat] in
  xorw (xorw x [rk !!! (u - 4)%nat; rk !!! (u - 3)%nat; rk !!! (u - 2)%nat; rk !!! (u - 1)%nat]) cnt.
Definition linear_words (d : nat) : list Z :=   (* d: 3 or 7 *)
  let r0 := Z.lxor (rk !!! (u - w)%nat) (rk !!! (u - d)%nat) in
  let rk := rk ++ [r0] in
  let r1 := Z.lxor (rk !!! (u - (w - 1))%nat) (rk !!! (u + 1 - d)%nat) in
  let rk := rk ++ [r1] in
  let r2 := Z.lxor (rk !!! (u - (w - 2))%nat) (rk !!! (u + 2 - d)%nat) in
  let rk := rk ++ [r2] in
  let r3 := Z.lxor (rk !!! (u - (w - 3))%nat) (rk !!! (u + 3 - d)%nat) in
  [r0; r1; r2; r3].
End Array.
Definition no_count : list Z := [0; 0; 0; 0].
Definition not_count (c : Z) : Z := T32 (Z.lnot c).
Definition decode (n : nat) (msg : list Z) : list Z := (fun i => le_load 4 (drop (4 * i) msg)) <$> seq 0 n.

(** [C]: [count0], [count1]; what is added to the four words from [u]. *)
Definition count_256 (C : list Z) (u : nat) : list Z :=
  let c0 := C !!! 0%nat in let c1 := C !!! 1%nat in
  if (u =? 16)%nat then [c0; not_count c1; 0; 0] else if (u =? 56)%nat then [0; c1; not_count c0; 0]
  else if (u =? 84)%nat then [0; 0; c1; not_count c0] else if (u =? 124)%nat then [c0; 0; 0; not_count c1] else no_count.
Definition count_512 (C : list Z) (u : nat) : list Z :=
  let c0 := C !!! 0%nat in let c1 := C !!! 1%nat in let c2 := C !!! 2%nat in let c3 := C !!! 3%nat in
  if (u =? 32)%nat then [c0; c1; c2; not_count c3] else if (u =? 440)%nat then [c1; c0; c3; not_count c2]
  else if (u =? 164)%nat then [c3; c2; c1; not_count c0] else if (u =? 316)%nat then [c2; c3; c0; not_count c1] else no_count.

Definition add_expand (w : nat) (cnt : nat -> list Z) (rk : list Z) : list Z := rk ++ expand_words rk (length rk) w (cnt (length rk)).
Definition add_linear (w d : nat) (rk : list Z) : list Z := rk ++ linear_words rk (length rk) w d.
Definition keys_256 (C : list Z) (msg : list Z) : list Z :=
  Nat.iter 4 (fun rk => Nat.iter 4 (add_linear 16 3) (Nat.iter 2 (fun rk => add_expand 16 (count_256 C) (add_expand 16 (count_256 C) rk)) rk)) (decode 16 msg).
(** The loop is left when [u] is 448, after the seventh group of expansions. *)
Definition keys_512 (C : list Z) (msg : list Z) : list Z :=
  let expand rk := Nat.iter 4 (fun rk => add_expand 32 (count_512 C) (add_expand 32 (count_512 C) rk)) rk in
  expand (Nat.iter 6 (fun rk => Nat.iter 8 (add_linear 32 7) (expand rk)) (decode 32 msg)).
Definition words4 (rk : list Z) (u : nat) : list Z := [rk !!! u; rk !!! (u + 1)%nat; rk !!! (u + 2)%nat; rk !!! (u + 3)%nat].
(** [x ^ rk[u ++]], a round, and so on, [k] times. *)
Definition f_rounds (rk : list Z) (u k : nat) (x : list Z) : list Z :=
  foldl (fun x i => AES_ROUND_NOKEY (xorw x (words4 rk (u + 4 * i)))) x (seq 0 k).

Definition c256_array (st : shavite_state) (msg : list Z) : list Z :=
  let rk := keys_256 (count st) msg in
  let '(p, q) := foldl (fun '(p, q) r =>
    let p := xorw p (f_rounds rk (24 * r) 3 q) in
    let q := xorw q (f_rounds rk (24 * r + 12) 3 p) in (p, q)) (slice 0 4 (sh st), slice 4 4 (sh st)) (seq 0 6) in
  xorw (sh st) (p ++ q).
Definition c512_array (st : shavite_state) (msg : list Z) : list Z :=
  let rk := keys_512 (count st) msg in
  let '(a, b, c, d) := foldl (fun '(a, b, c, d) r =>
    let a := xorw a (f_rounds rk (32 * r) 4 b) in
    let c := xorw c (f_rounds rk (32 * r + 16) 4 d) in (d, a, b, c))
    (slice 0 4 (sh st), slice 4 4 (sh st), slice 8 4 (sh st), slice 12 4 (sh st)) (seq 0 14) in
  xorw (sh st) (a ++ b ++ c ++ d).

(** ** The unrolled versions *)

(** How the four variables of group [j] are updated: read from the message; expanded, xored
    with the group before and with the count; or xored with the variables [d] before. *)
Inductive kind := Load | Expand (cnt : list Z) | Linear.
Section Ring.
Context (n d : nat) (msg : list Z).   (* n groups; d: 3 or 7 *)
Definition set_group (j : nat) (K rk : list Z) : list Z := memcpy rk (4 * j) K.
Definition key_step (rk : list Z) (j : nat) (k : kind) : list Z :=
  match k with
  | Load => set_group j (decode 4 (drop (16 * j) msg)) rk
  | Expand cnt => set_group j (xorw (xorw (KEY_EXPAND_ELT (words4 rk (4 * j))) (words4 rk (4 * ((j + n - 1) mod n)))) cnt) rk
  | Linear => foldl (fun rk i => <[(4 * j + i)%nat := Z.lxor (rk !!! (4 * j + i)%nat) (rk !!! ((4 * j + i + 4 * n - d) mod (4 * n))%nat)]> rk) rk (seq 0 4)
  end.
(** One application of F: the block [src] goes through the steps, the result is xored to [dst]. *)
Record fstep := mk_f { dst : nat; src : nat; steps : list (nat * kind) }.
Definition run_keys (a : list Z * list Z) (l : list (nat * kind)) : list Z * list Z :=
  foldl (fun '(rk, x) '(j, k) => let rk := key_step rk j k in (rk, AES_ROUND_NOKEY (xorw x (words4 rk (4 * j))))) a l.
Definition run_f '((rk, p) : list Z * list (list Z)) (s : fstep) : list Z * list (list Z) :=
  let '(rk, x) := run_keys (rk, p !!! src s) (steps s) in (rk, <[dst s := xorw (p !!! dst s) x]> p).
End Ring.

(** Rounds 0 to 11. *)
Definition c256_steps (C : list Z) : list fstep :=
  let c0 := C !!! 0%nat in let c1 := C !!! 1%nat in let o : Z := 0 in
  let L (j : nat) := (j, Load) in let E (j : nat) := (j, Expand no_count) in let N (j : nat) := (j, Linear) in
  [mk_f 0 1 [L 0; L 1; L 2];
   mk_f 1 0 [L 3; (0, Expand [c0; not_count c1; o; o]); E 1];
   mk_f 0 1 [E 2; E 3; N 0];
   mk_f 1 0 [N 1; N 2; N 3];
   mk_f 0 1 [E 0; E 1; (2, Expand [o; c1; not_count c0; o])];
   mk_f 1 0 [E 3; N 0; N 1];
   mk_f 0 1 [N 2; N 3; E 0];
   mk_f 1 0 [(1, Expand [o; o; c1; not_count c0]); E 2; E 3];
   mk_f 0 1 [N 0; N 1; N 2];
   mk_f 1 0 [N 3; E 0; E 1];
   mk_f 0 1 [E 2; (3, Expand [c0; o; o; not_count c1]); N 0];
   mk_f 1 0 [N 1; N 2; N 3]]%nat.
(** Rounds 0; 1 to 4, 5 to 8, 9 to 12 in a loop on [r]; 13. *)
Definition c512_loop (C : list Z) (r : nat) : list fstep :=
  let c0 : Z := C !!! 0%nat in let c1 : Z := C !!! 1%nat in let c2 : Z := C !!! 2%nat in let c3 : Z := C !!! 3%nat in
  let E (j : nat) := (j, Expand no_count) in let N (j : nat) := (j, Linear) in
  let E_if (v : nat) j cnt := (j, Expand (if (r =? v)%nat then cnt else no_count)) in
  [mk_f 3 0 [E_if 0 0 [c0; c1; c2; not_count c3]; E_if 1 1 [c3; c2; c1; not_count c0]; E 2; E 3];
   mk_f 1 2 [E 4; E 5; E 6; E_if 2 7 [c2; c3; c0; not_count c1]];
   mk_f 2 3 [N 0; N 1; N 2; N 3]; mk_f 0 1 [N 4; N 5; N 6; N 7];
   mk_f 1 2 [E 0; E 1; E 2; E 3]; mk_f 3 0 [E 4; E 5; E 6; E 7];
   mk_f 0 1 [N 0; N 1; N 2; N 3]; mk_f 2 3 [N 4; N 5; N 6; N 7]]%nat.
Definition c512_steps (C : list Z) : list fstep :=
  let c0 : Z := C !!! 0%nat in let c1 : Z := C !!! 1%nat in let c2 : Z := C !!! 2%nat in let c3 : Z := C !!! 3%nat in
  let L (j : nat) := (j, Load) in let E (j : nat) := (j, Expand no_count) in
  ([mk_f 0 1 [L 0; L 1; L 2; L 3]; mk_f 2 3 [L 4; L 5; L 6; L 7]] ++ flat_map (c512_loop C) [0; 1; 2] ++
  [mk_f 3 0 [E 0; E 1; E 2; E 3]; mk_f 1 2 [E 4; E 5; (6, Expand [c1; c0; c3; not_count c2]); E 7]])%nat.
(** The variables have no value before they are read from the message. *)
Definition c256_unrolled (rk0 : list Z) (st : shavite_state) (msg : list Z) : list Z :=
  let '(_, p) := foldl (run_f 4 3 msg) (rk0, [slice 0 4 (sh st); slice 4 4 (sh st)]) (c256_steps (count st)) in
  xorw (sh st) (p !!! 0%nat ++ p !!! 1%nat).
Definition c512_unrolled (rk0 : list Z) (st : shavite_state) (msg : list Z) : list Z :=
  let '(_, p) := foldl (run_f 8 7 msg) (rk0, [slice 0 4 (sh st); slice 4 4 (sh st); slice 8 4 (sh st); slice 12 4 (sh st)]) (c512_steps (count st)) in
  xorw (sh st) (p !!! 2%nat ++ p !!! 3%nat ++ p !!! 0%nat ++ p !!! 1%nat).

(** ** The functions *)

(** [footprint]: which version of [c256] and [c512] is compiled; [rk0]: the unset variables. *)
Section Functions.
Context (footprint : bool) (rk0 : list Z).
Definition c256 (st : shavite_state) (msg : list Z) : shavite_state :=
  mk_shavite (if footprint then c256_array st msg else c256_unrolled rk0 st msg) (count st).
Definition c512 (st : shavite_state) (msg : list Z) : shavite_state :=
  mk_shavite (if footprint then c512_array st msg else c512_unrolled rk0 st msg) (count st).

Definition shavite_small_init (buf iv : list Z) : shavite_ctx := mk_sph buf 0 (mk_shavite iv [0; 0]).
Definition incr_small (C : list Z) : list Z :=
  match C with
  | [c0; c1] => let c0 := T32 (c0 + 512) in if c0 =? 0 then [c0; T32 (c1 + 1)] else [c0; c1]
  | _ => C
  end.
Definition small_block (st : shavite_state) (buf : list Z) : shavite_state := c256 (mk_shavite (sh st) (incr_small (count st))) buf.
Definition shavite_small_core (sc : shavite_ctx) (data : list Z) : shavite_ctx := sph_loop 64 small_block (length data) sc data.

Definition shavite_big_init (buf iv : list Z) : shavite_ctx := mk_sph buf 0 (mk_shavite iv [0; 0; 0; 0]).
Definition incr_big (C : list Z) : list Z :=
  match C with
  | [c0; c1; c2; c3] =>
      let c0 := T32 (c0 + 1024) in
      if c0 =? 0 then
        let c1 := T32 (c1 + 1) in
        if c1 =? 0 then
          let c2 := T32 (c2 + 1) in
          if c2 =? 0 then [c0; c1; c2; T32 (c3 + 1)] else [c0; c1; c2; c3]
        else [c0; c1; c2; c3]
      else [c0; c1; c2; c3]
  | _ => C
  end.
Definition big_block (st : shavite_state) (buf : list Z) : shavite_state := c512 (mk_shavite (sh st) (incr_big (count st))) buf.
Definition shavite_big_core (sc : shavite_ctx) (data : list Z) : shavite_ctx := sph_loop 128 big_block (length data) sc data.

(** The two close functions differ in the block size [b], the number of counters and the
    compression; [e] is where the counters go: 54 or 110. *)
Definition shavite_close (b e : nat) (compress : shavite_state -> list Z -> shavite_state) (sc : shavite_ctx) (ub n : Z) (out_size_w32 : nat)
    : shavite_ctx * list Z :=
  let st := sc_st sc in
  let ptr := sc_ptr sc in
  let C := <[0%nat := T32 (count st !!! 0%nat + (Z.of_nat ptr * 8 + n))]> (count st) in
  let zeros := replicate (length C) 0 in
  let z := final_byte ub n in
  let '(st, buf) :=
    if (ptr =? 0)%nat && (n =? 0) then (mk_shavite (sh st) zeros, memset0 (<[0%nat := 0x80]> (sc_buf sc)) 1 (e - 1))
    else if (ptr <? e)%nat then (mk_shavite (sh st) C, memset0 (<[ptr := z]> (sc_buf sc)) (S ptr) (e - S ptr))
    else
      let buf := memset0 (<[ptr := z]> (sc_buf sc)) (S ptr) (b - S ptr) in
      (mk_shavite (sh (compress (mk_shavite (sh st) C) buf)) zeros, memset0 buf 0 e) in
  let buf := foldl (fun buf i => memcpy buf (e + 4 * i) (le_store 4 (C !!! i))) buf (seq 0 (length C)) in
  let buf := <[(b - 2)%nat := T8 (Z.of_nat out_size_w32 * 32)]> buf in
  let buf := <[(b - 1)%nat := T8 (Z.shiftr (Z.of_nat out_size_w32) 3)]> buf in
  let st := compress st buf in
  (mk_sph buf ptr st, flat_map (fun u => le_store 4 (sh st !!! u)) (seq 0 out_size_w32)).
Definition shavite_small_close := shavite_close 64 54 c256.
Definition shavite_big_close := shavite_close 128 110 c512.

Definition sph_shavite224_init (buf : list Z) : shavite_ctx := shavite_small_init buf IV224.
Definition sph_shavite224 : shavite_ctx -> list Z -> shavite_ctx := shavite_small_core.
Definition sph_shavite224_close (cc : shavite_ctx) := let '(cc, out) := shavite_small_close cc 0 0 7 in (shavite_small_init (sc_buf cc) IV224, out).
Definition sph_shavite224_addbits_and_close (cc : shavite_ctx) (ub n : Z) := let '(cc, out) := shavite_small_close cc ub n 7 in (shavite_small_init (sc_buf cc) IV224, out).
Definition sph_shavite256_init (buf : list Z) : shavite_ctx := shavite_small_init buf IV256.
Definition sph_shavite256 : shavite_ctx -> list Z -> shavite_ctx := shavite_small_core.
Definition sph_shavite256_close (cc : shavite_ctx) := let '(cc, out) := shavite_small_close cc 0 0 8 in (shavite_small_init (sc_buf cc) IV256, out).
Definition sph_shavite256_addbits_and_close (cc : shavite_ctx) (ub n : Z) := let '(cc, out) := shavite_small_close cc ub n 8 in (shavite_small_init (sc_buf cc) IV256, out).
Definition sph_shavite384_init (buf : list Z) : shavite_ctx := shavite_big_init buf IV384.
Definition sph_shavite384 : shavite_ctx -> list Z -> shavite_ctx := shavite_big_core.
Definition sph_shavite384_close (cc : shavite_ctx) := let '(cc, out) := shavite_big_close cc 0 0 12 in (shavite_big_init (sc_buf cc) IV384, out).
Definition sph_shavite384_addbits_and_close (cc : shavite_ctx) (ub n : Z) := let '(cc, out) := shavite_big_close cc ub n 12 in (shavite_big_init (sc_buf cc) IV384, out).
Definition sph_shavite512_init (buf : list Z) : shavite_ctx := shavite_big_init buf IV512.
Definition sph_shavite512 : shavite_ctx -> list Z -> shavite_ctx := shavite_big_core.
Definition sph_shavite512_close (cc : shavite_ctx) := let '(cc, out) := shavite_big_close cc 0 0 16 in (shavite_big_init (sc_buf cc) IV512, out).
Definition sph_shavite512_addbits_and_close (cc : shavite_ctx) (ub n : Z) := let '(cc, out) := shavite_big_close cc ub n 16 in (shavite_big_init (sc_buf cc) IV512, out).
End Functions.

(** ** Reference *)

(** One AES round without key, on four words as 16 bytes. *)
Definition aes0 (X : list Z) : list Z := decode 4 (AesEnc (bytes_of X) (replicate 16 0)).
Section Schedule.
(** Groups of four words; the first [n] are the message.  [n] groups of AES rounds take
    turns with [n] groups of the linear recurrence with distance [d]; [cnt] is what the
    counter adds to a group. *)
Context (n d : nat) (cnt : nat -> list Z) (msg : list Z).
Definition next_group (W : list Z) (g : nat) : list Z :=
  let w i := nth (4 * g - i) W 0 in
  if (g <? n)%nat then W ++ decode 4 (drop (16 * g) msg)
  else if Nat.odd (g / n) then
    W ++ xorw (xorw (aes0 [w (4 * n - 1); w (4 * n - 2); w (4 * n - 3); w (4 * n)]) [w 4; w 3; w 2; w 1])%nat (cnt g)
  else foldl (fun W i => W ++ [Z.lxor (nth (i - 4 * n) W 0) (nth (i - d) W 0)]) W (seq (4 * g) 4).
Definition round_keys (G : nat) : list Z := foldl next_group [] (seq 0 G).
(** [k] AES rounds with the keys from group [g] on. *)
Definition F (W : list Z) (k g : nat) (x : list Z) : list Z := foldl (fun x i => aes0 (xorw x (slice (4 * (g + i)) 4 W))) x (seq 0 k).
End Schedule.
(** The words of a counter, little end first. *)
Definition cword (k : Z) (i : nat) : Z := (k / 2 ^ (32 * Z.of_nat i)) mod 2 ^ 32.
Definition inv32 (x : Z) : Z := 2 ^ 32 - 1 - x.
Definition cnt_256 (k : Z) (g : nat) : list Z :=
  let c0 := cword k 0 in let c1 := cword k 1 in
  if (g =? 4)%nat then [c0; inv32 c1; 0; 0] else if (g =? 14)%nat then [0; c1; inv32 c0; 0]
  else if (g =? 21)%nat then [0; 0; c1; inv32 c0] else if (g =? 31)%nat then [c0; 0; 0; inv32 c1] else [0; 0; 0; 0].
Definition cnt_512 (k : Z) (g : nat) : list Z :=
  let c0 := cword k 0 in let c1 := cword k 1 in let c2 := cword k 2 in let c3 := cword k 3 in
  if (g =? 8)%nat then [c0; c1; c2; inv32 c3] else if (g =? 41)%nat then [c3; c2; c1; inv32 c0]
  else if (g =? 79)%nat then [c2; c3; c0; inv32 c1] else if (g =? 110)%nat then [c1; c0; c3; inv32 c2] else [0; 0; 0; 0].
(** Twelve Feistel rounds on two halves; fourteen on four quarters that turn. *)
Definition E256 (h : list Z) (k : Z) (msg : list Z) : list Z :=
  let W := round_keys 4 3 (cnt_256 k) msg 36 in
  let '(l, r) := foldl (fun '(l, r) i => (r, xorw l (F W 3 (3 * i) r))) (slice 0 4 h, slice 4 4 h) (seq 0 12) in xorw h (l ++ r).
Definition E512 (h : list Z) (k : Z) (msg : list Z) : list Z :=
  let W := round_keys 8 7 (cnt_512 k) msg 112 in
  let '(a, b, c, d) := foldl (fun '(a, b, c, d) i => (d, xorw a (F W 4 (8 * i) b), b, xorw c (F W 4 (8 * i + 4) d)))
    (slice 0 4 h, slice 4 4 h, slice 8 4 h, slice 12 4 h) (seq 0 14) in xorw h (a ++ b ++ c ++ d).
(** A one bit, zeros, the bit count in [c] bytes and the digest size in two. *)
Definition shavite_pad (B c words : nat) (m : list Z) (ub n : Z) : list Z :=
  m ++ [last_bits ub n] ++ replicate (B - 1 - (length m + c + 2) mod B) 0 ++ le_store c (8 * Z.of_nat (length m) + n) ++ le_store 2 (32 * Z.of_nat words).
Definition shavite_digest (B c : nat) (E : list Z -> Z -> list Z -> list Z) (iv : list Z) (words : nat) (m : list Z) (ub n : Z) : list Z :=
  flat_map (le_store 4) (take words (counter_chain B E (8 * Z.of_nat (length m) + n) 0 iv (blocks B (shavite_pad B c words m ub n)))).

(** ** AES on words *)

Lemma length_decode n msg : length (decode n msg) = n.
Proof. unfold decode. by rewrite length_fmap, length_seq. Qed.
Lemma decode_store X : words32 X -> decode (length X) (bytes_of X) = X.
Proof.
  intros HX. apply list_eq_total; [apply length_decode|]. rewrite length_decode. intros i Hi. unfold decode. rewrite lookup_fmap_seq by done.
  assert (E : drop (4 * i) (bytes_of X) = bytes_of (drop i X)).
  { clear HX. revert i Hi. induction X as [|x X IH]; intros i Hi; [cbn in Hi; lia|]. destruct i as [|i]; [done|]. unfold bytes_of in *. cbn [flat_map drop]. replace (4 * S i)%nat with (length (le_store 4 x) + 4 * i)%nat by (rewrite length_le_store; lia).
    rewrite <-drop_drop, drop_app_length. apply IH. cbn in Hi. lia. }
  rewrite E. pose proof (Forall_lookup_total_1 _ X i HX Hi) as Hw. rewrite (drop_S X (X !!! i) i) by by apply list_lookup_lookup_total_lt. unfold bytes_of. cbn [flat_map].
  transitivity (le_load 4 (le_store 4 (X !!! i))); [|rewrite le_load_store; by apply Z.mod_small]. unfold le_load. apply gather_ext. intros j Hj. by rewrite lookup_total_app_l by (rewrite length_le_store; lia).
Qed.
Lemma aes0_ref X : length X = 4%nat -> AES_ROUND_NOKEY X = aes0 X /\ length (aes0 X) = 4%nat.
Proof.
  intros HX. unfold AES_ROUND_NOKEY, aes0. split; [|apply length_decode]. unfold AES_ROUND_NOKEY_LE. destruct (round_words X [0; 0; 0; 0] HX eq_refl ltac:(by apply words32_by)) as [HW Hl].
  change (replicate 16 0) with (bytes_of [0; 0; 0; 0]). rewrite <-(round_aes X [0; 0; 0; 0] HX eq_refl). set (Y := AES_ROUND_LE X _) in *. clearbody Y. rewrite <-Hl at 1. by rewrite decode_store.
Qed.
#[local] Opaque aes0 AES_ROUND_NOKEY.
Lemma length_xorw a b : length a = 4%nat -> length b = 4%nat -> length (xorw a b) = 4%nat.
Proof. intros Ha Hb. unfold xorw. rewrite length_zip_with. lia. Qed.

(** ** The key schedule *)

Section Schedule.
Context (n d : nat) (cnt : nat -> list Z) (msg : list Z).
Hypothesis Hnd : (n = 4 /\ d = 3 \/ n = 8 /\ d = 7)%nat.
Hypothesis Hcnt : forall g, length (cnt g) = 4%nat.
#[local] Abbreviation next := (next_group n d cnt msg).
#[local] Abbreviation keys := (round_keys n d cnt msg).

Lemma foldl_append {A} (f : list A -> nat -> A) (l : list A) ix : exists t, foldl (fun W i => W ++ [f W i]) l ix = l ++ t /\ length t = length ix.
Proof.
  revert l. induction ix as [|i ix IH]; intros l; [exists []; split; [by rewrite app_nil_r|done]|]. cbn [foldl]. destruct (IH (l ++ [f l i])) as (t & E & Hl). exists ([f l i] ++ t). split; [by rewrite E, <-app_assoc|cbn [app length]; lia].
Qed.
Lemma next_append W g : exists t, next W g = W ++ t /\ length t = 4%nat.
Proof.
  unfold next_group. destruct (g <? n)%nat; [eexists; split; [reflexivity|apply length_decode]|]. destruct (Nat.odd _).
  - eexists. split; [reflexivity|]. apply length_xorw; [|apply Hcnt]. apply length_xorw; [by apply aes0_ref|done].
  - destruct (foldl_append (fun W i => Z.lxor (nth (i - 4 * n) W 0) (nth (i - d) W 0)) W (seq (4 * g) 4)) as (t & E & Hl). exists t. split; [exact E|exact Hl].
Qed.
Lemma keys_S g : keys (S g) = next (keys g) g.
Proof. unfold round_keys. by rewrite seq_S, foldl_app. Qed.
Lemma length_keys g : length (keys g) = (4 * g)%nat.
Proof. induction g as [|g IH]; [done|]. rewrite keys_S. destruct (next_append (keys g) g) as (t & -> & Ht). rewrite length_app. lia. Qed.
Lemma keys_prefix g G : (g <= G)%nat -> exists t, keys G = keys g ++ t.
Proof.
  induction 1 as [|G _ [t E]]; [exists []; by rewrite app_nil_r|]. rewrite keys_S. destruct (next_append (keys G) G) as (t' & -> & _). exists (t ++ t'). by rewrite E, app_assoc.
Qed.
Lemma keys_nth g G q : (g <= G)%nat -> (q < 4 * g)%nat -> nth q (keys G) 0 = nth q (keys g) 0.
Proof. intros Hg Hq. destruct (keys_prefix g G Hg) as [t ->]. rewrite app_nth1; [done|]. rewrite length_keys. lia. Qed.

(** The words of group [g], from the finished schedule. *)
Lemma keys_load g G : (g < n)%nat -> (g < G)%nat -> (fun i => nth (4 * g + i) (keys G) 0) <$> [0; 1; 2; 3]%nat = decode 4 (drop (16 * g) msg).
Proof.
  intros Hg HG. assert (E : keys (S g) = keys g ++ decode 4 (drop (16 * g) msg)) by (rewrite keys_S; unfold next_group; by rewrite (proj2 (Nat.ltb_lt _ _) Hg)).
  cbn [fmap list_fmap]. rewrite !(keys_nth (S g) G) by lia. rewrite E, !app_nth2 by (rewrite length_keys; lia). rewrite !length_keys. pose proof (length_decode 4 (drop (16 * g) msg)) as Hl. set (x := decode 4 _) in *. clearbody x.
  do 4 (destruct x as [|? x]; [done|]). destruct x; [|done]. rewrite !Nat.add_sub'. done.
Qed.
Lemma keys_expand g G : (n <= g)%nat -> Nat.odd (g / n) = true -> (g < G)%nat ->
  let w i := nth (4 * g - i) (keys G) 0 in
  (fun i => nth (4 * g + i) (keys G) 0) <$> [0; 1; 2; 3]%nat = xorw (xorw (aes0 [w (4 * n - 1)%nat; w (4 * n - 2)%nat; w (4 * n - 3)%nat; w (4 * n)%nat]) [w 4%nat; w 3%nat; w 2%nat; w 1%nat]) (cnt g).
Proof.
  intros Hg Ho HG w. unfold w. clear w. rewrite !(keys_nth g G (4 * g - _)) by lia. set (w := fun i => nth (4 * g - i) (keys g) 0).
  change (((fun i => nth (4 * g + i) (keys G) 0) <$> [0; 1; 2; 3]%nat) = xorw (xorw (aes0 [w (4 * n - 1)%nat; w (4 * n - 2)%nat; w (4 * n - 3)%nat; w (4 * n)%nat]) [w 4%nat; w 3%nat; w 2%nat; w 1%nat]) (cnt g)).
  assert (E : keys (S g) = keys g ++ xorw (xorw (aes0 [w (4 * n - 1)%nat; w (4 * n - 2)%nat; w (4 * n - 3)%nat; w (4 * n)%nat]) [w 4%nat; w 3%nat; w 2%nat; w 1%nat]) (cnt g))
    by (rewrite keys_S; unfold next_group; by rewrite (proj2 (Nat.ltb_ge _ _) Hg), Ho).
  assert (Hl : length (xorw (xorw (aes0 [w (4 * n - 1)%nat; w (4 * n - 2)%nat; w (4 * n - 3)%nat; w (4 * n)%nat]) [w 4%nat; w 3%nat; w 2%nat; w 1%nat]) (cnt g)) = 4%nat) by (apply length_xorw; [|apply Hcnt]; apply length_xorw; [by apply aes0_ref|done]).
  set (x := xorw _ _) in *. clearbody x. clear w. cbn [fmap list_fmap]. rewrite !(keys_nth (S g) G) by lia. rewrite E, !app_nth2 by (rewrite length_keys; lia). rewrite !length_keys.
  do 4 (destruct x as [|? x]; [done|]). destruct x; [|done]. rewrite !Nat.add_sub'. done.
Qed.
Lemma keys_linear g G i : (n <= g)%nat -> Nat.odd (g / n) = false -> (g < G)%nat -> (i < 4)%nat ->
  nth (4 * g + i) (keys G) 0 = Z.lxor (nth (4 * g + i - 4 * n) (keys G) 0) (nth (4 * g + i - d) (keys G) 0).
Proof.
  intros Hg Ho HG Hi. rewrite !(keys_nth (S g) G) by lia.
  assert (E : keys (S g) = foldl (fun W i => W ++ [Z.lxor (nth (i - 4 * n) W 0) (nth (i - d) W 0)]) (keys g) (seq (4 * g) 4))
    by (rewrite keys_S; unfold next_group; by rewrite (proj2 (Nat.ltb_ge _ _) Hg), Ho).
  set (st := fun (W : list Z) (i : nat) => W ++ [Z.lxor (nth (i - 4 * n) W 0) (nth (i - d) W 0)]) in *.
  assert (Hk : forall k, (k <= 4)%nat -> let Wk := foldl st (keys g) (seq (4 * g) k) in length Wk = (4 * g + k)%nat /\
    forall j, (j < k)%nat -> nth (4 * g + j) Wk 0 = Z.lxor (nth (4 * g + j - 4 * n) Wk 0) (nth (4 * g + j - d) Wk 0)).
  { induction k as [|k IH]; intros Hk; [cbn [seq foldl]; rewrite length_keys; split; [lia|intros; lia]|]. destruct IH as [Hl IH]; [lia|]. cbv zeta in *. rewrite seq_S, foldl_app. cbn [foldl]. set (Wk := foldl st (keys g) (seq (4 * g) k)) in *. clearbody Wk. unfold st.
    split; [rewrite length_app; cbn [length]; lia|]. intros j Hj. destruct (decide (j = k)) as [->|Hne].
    - rewrite app_nth2 by lia. rewrite Hl, Nat.sub_diag. cbn [nth]. rewrite !app_nth1 by lia. done.
    - rewrite !app_nth1 by lia. apply IH. lia. }
  rewrite E. exact (proj2 (Hk 4%nat ltac:(lia)) i Hi).
Qed.

(** *** The array *)
Lemma add_expand_ref g cnt' : (n <= g)%nat -> Nat.odd (g / n) = true -> cnt' (4 * g)%nat = cnt g -> add_expand (4 * n) cnt' (keys g) = keys (S g).
Proof.
  intros Hg Ho Hc. rewrite keys_S. unfold add_expand, expand_words, next_group. rewrite (proj2 (Nat.ltb_ge _ _) Hg), Ho, length_keys, Hc. f_equal. rewrite !total_nth by (rewrite length_keys; lia).
  match goal with |- context [AES_ROUND_NOKEY ?x] => rewrite (proj1 (aes0_ref x eq_refl)) end. reflexivity.
Qed.
Lemma add_linear_ref g : (n <= g)%nat -> Nat.odd (g / n) = false -> add_linear (4 * n) d (keys g) = keys (S g).
Proof.
  intros Hg Ho. rewrite keys_S. unfold add_linear, linear_words, next_group. rewrite (proj2 (Nat.ltb_ge _ _) Hg), Ho, length_keys. pose proof (length_keys g) as Hl. set (W := keys g) in *. clearbody W.
  cbn [seq foldl]. rewrite !total_nth by (rewrite ?length_app; cbn [length]; lia).
  replace (4 * g - (4 * n - 1))%nat with (S (4 * g) - 4 * n)%nat by lia. replace (4 * g - (4 * n - 2))%nat with (S (S (4 * g)) - 4 * n)%nat by lia. replace (4 * g - (4 * n - 3))%nat with (S (S (S (4 * g))) - 4 * n)%nat by lia.
  replace (4 * g + 1 - d)%nat with (S (4 * g) - d)%nat by lia. replace (4 * g + 2 - d)%nat with (S (S (4 * g)) - d)%nat by lia. replace (4 * g + 3 - d)%nat with (S (S (S (4 * g))) - d)%nat by lia.
  rewrite <-!app_assoc. reflexivity.
Qed.
Lemma expand_run k g cnt' : (forall i, (g <= i < g + k)%nat -> (n <= i)%nat /\ Nat.odd (i / n) = true) -> (forall i, cnt' (4 * i)%nat = cnt i) -> Nat.iter k (add_expand (4 * n) cnt') (keys g) = keys (g + k).
Proof.
  intros Hi Hc. induction k as [|k IH]; [by rewrite Nat.add_0_r|]. rewrite Nat.iter_succ, IH by (intros; apply Hi; lia). destruct (Hi (g + k)%nat ltac:(lia)) as [H1 H2].
  rewrite (add_expand_ref _ _ H1 H2 (Hc _)). f_equal. lia.
Qed.
Lemma linear_run k g : (forall i, (g <= i < g + k)%nat -> (n <= i)%nat /\ Nat.odd (i / n) = false) -> Nat.iter k (add_linear (4 * n) d) (keys g) = keys (g + k).
Proof.
  intros Hi. induction k as [|k IH]; [by rewrite Nat.add_0_r|]. rewrite Nat.iter_succ, IH by (intros; apply Hi; lia). destruct (Hi (g + k)%nat ltac:(lia)) as [H1 H2].
  rewrite (add_linear_ref _ H1 H2). f_equal. lia.
Qed.
Lemma load_keys g : (g <= n)%nat -> keys g = decode (4 * g) msg.
Proof.
  induction g as [|g IH]; intros Hg; [done|]. rewrite keys_S. unfold next_group. rewrite (proj2 (Nat.ltb_lt _ _)) by lia. rewrite IH by lia. unfold decode. replace (4 * S g)%nat with (4 * g + 4)%nat by lia. rewrite seq_app, fmap_app. f_equal.
  rewrite Nat.add_0_l. cbn [seq fmap list_fmap]. rewrite !drop_drop. repeat (apply (f_equal2 cons); [apply (f_equal (fun x => le_load 4 (drop x msg))); lia|]). done.
Qed.
(** Groups come in turns of [n]. *)
Lemma turn t g : (n * t <= g < n * (t + 1))%nat -> (g / n = t)%nat.
Proof. intros Hg. symmetry. apply (Nat.div_unique g n t (g - n * t)); nia. Qed.
Lemma double_turn t cnt' : (1 <= t)%nat -> Nat.odd t = true -> (forall i, cnt' (4 * i)%nat = cnt i) ->
  Nat.iter n (add_expand (4 * n) cnt') (keys (n * t)) = keys (n * (t + 1)) /\
  Nat.iter n (add_linear (4 * n) d) (keys (n * (t + 1))) = keys (n * (t + 2)).
Proof.
  intros Ht Ho Hc. split.
  - rewrite (expand_run n (n * t) cnt') by (done || (intros i Hi; rewrite (turn t i) by lia; split; [nia|done])). f_equal. lia.
  - rewrite (linear_run n (n * (t + 1))) by (intros i Hi; rewrite (turn (t + 1) i) by lia; split; [nia|rewrite Nat.add_1_r, Nat.odd_succ, <-Nat.negb_odd, Ho; done]). f_equal. lia.
Qed.
(** [k] AES rounds with keys from the array. *)
Lemma words4_slice G g : (g < G)%nat -> words4 (keys G) (4 * g) = slice (4 * g) 4 (keys G).
Proof.
  intros Hg. pose proof (length_keys G) as Hl. set (W := keys G) in *. clearbody W. unfold words4, slice. rewrite <-(Nat.add_0_r (4 * g)) at 1. rewrite <-!lookup_total_drop. assert (Hd : (4 <= length (drop (4 * g) W))%nat) by (rewrite length_drop; lia).
  set (x := drop (4 * g) W) in *. clearbody x. do 4 (destruct x as [|? x]; [cbn in Hd; lia|]). by rewrite take_0 || reflexivity.
Qed.
Lemma f_rounds_ref G g k x : (g + k <= G)%nat -> length x = 4%nat -> f_rounds (keys G) (4 * g) k x = F (keys G) k g x /\ length (F (keys G) k g x) = 4%nat.
Proof.
  intros Hg Hx. unfold f_rounds, F. induction k as [|k IH]; [done|]. destruct IH as [E Hl]; [lia|]. rewrite seq_S, !foldl_app. cbn [foldl Nat.add]. rewrite E. match type of Hl with length ?t = _ => set (y := t) in * end. clearbody y.
  replace (4 * g + 4 * k)%nat with (4 * (g + k))%nat by lia. rewrite (words4_slice G (g + k)) by lia.
  assert (Hs : length (slice (4 * (g + k)) 4 (keys G)) = 4%nat) by (apply length_slice; rewrite length_keys; lia).
  destruct (aes0_ref (xorw y (slice (4 * (g + k)) 4 (keys G)))) as [-> Ha]; [by apply length_xorw|]. done.
Qed.

(** *** The ring of variables *)
Section Ring.
Context (G : nat).
#[local] Abbreviation W := (keys G).
Definition ring (p : nat) (R : list Z) : Prop :=
  length R = (4 * n)%nat /\ forall q, (q < p)%nat -> (p <= q + 4 * n)%nat -> R !!! (q mod (4 * n))%nat = nth q W 0.
Lemma n_pos : (0 < n)%nat.
Proof. lia. Qed.
Lemma place g i : (i < 4)%nat -> ((4 * g + i) mod (4 * n) = 4 * (g mod n) + i)%nat.
Proof.
  intros Hi. pose proof (Nat.div_mod_eq g n). pose proof (Nat.mod_upper_bound g n ltac:(lia)). symmetry. apply (Nat.mod_unique _ _ (g / n)); nia.
Qed.
Lemma ring_push p R : ring p R -> ring (S p) (<[(p mod (4 * n))%nat := nth p W 0]> R).
Proof.
  intros [Hl HR]. pose proof n_pos. split; [by rewrite length_insert|]. intros q Hq Hp. assert (Hb : (p mod (4 * n) < 4 * n)%nat) by (apply Nat.mod_upper_bound; lia).
  rewrite lookup_total_insert by lia. destruct (decide (p mod (4 * n) = q mod (4 * n))%nat) as [E|E].
  - destruct (decide (q = p)) as [->|Hne]; [done|]. exfalso.
    pose proof (Nat.div_mod_eq p (4 * n)). pose proof (Nat.div_mod_eq q (4 * n)). assert (p / (4 * n) = q / (4 * n) \/ p / (4 * n) < q / (4 * n) \/ q / (4 * n) < p / (4 * n))%nat as [H2|[H2|H2]] by lia; nia.
  - destruct (decide (q = p)) as [->|Hne]; [done|]. apply HR; lia.
Qed.
Lemma ring_words g R : ring (4 * (g + 1)) R -> words4 R (4 * (g mod n)) = (fun i => nth (4 * g + i) W 0) <$> [0; 1; 2; 3]%nat.
Proof.
  intros [Hl HR]. pose proof n_pos. cbn [fmap list_fmap]. rewrite <-!HR by lia. rewrite !place by lia. unfold words4. rewrite !Nat.add_0_r. done.
Qed.
Lemma insert4 j (R : list Z) a b c e : (4 * j + 4 <= length R)%nat ->
  memcpy R (4 * j) [a; b; c; e] = <[(4 * j + 3)%nat := e]> (<[(4 * j + 2)%nat := c]> (<[(4 * j + 1)%nat := b]> (<[(4 * j + 0)%nat := a]> R))).
Proof.
  intros Hl. assert (Hd : (4 <= length (drop (4 * j) R))%nat) by (rewrite length_drop; lia). rewrite <-(take_drop (4 * j) R) at 2. unfold memcpy. cbn [length]. rewrite <-drop_drop.
  assert (Ht : length (take (4 * j) R) = (4 * j)%nat) by (rewrite length_take; lia). set (x := take (4 * j) R) in *. set (y := drop (4 * j) R) in *. clearbody x y. rewrite <-Ht.
  do 4 (destruct y as [|? y]; [cbn in Hd; lia|]). rewrite !insert_app_r. done.
Qed.
Lemma push_group g R K : (g < G)%nat -> ring (4 * g) R -> K = (fun i => nth (4 * g + i) W 0) <$> [0; 1; 2; 3]%nat -> ring (4 * (g + 1)) (set_group (g mod n) K R).
Proof.
  intros Hg HR ->. pose proof n_pos. pose proof (Nat.mod_upper_bound g n ltac:(lia)). unfold set_group. cbn [fmap list_fmap]. rewrite insert4 by (destruct HR as [-> _]; lia). rewrite <-!place by lia.
  replace (4 * (g + 1))%nat with (S (S (S (S (4 * g)))))%nat by lia.
  pose proof (ring_push _ _ (ring_push _ _ (ring_push _ _ (ring_push _ _ HR)))) as Hp. replace (S (4 * g)) with (4 * g + 1)%nat in Hp by lia. replace (S (4 * g + 1)) with (4 * g + 2)%nat in Hp by lia. replace (S (4 * g + 2)) with (4 * g + 3)%nat in Hp by lia.
  replace (S (S (S (S (4 * g)))))%nat with (S (4 * g + 3)) by lia. rewrite !Nat.add_0_r. exact Hp.
Qed.
Definition kind_of (g : nat) : kind := if (g <? n)%nat then Load else if Nat.odd (g / n) then Expand (cnt g) else Linear.
Lemma key_step_ref g R : (g < G)%nat -> ring (4 * g) R ->
  ring (4 * (g + 1)) (key_step n d msg R (g mod n) (kind_of g)) /\ words4 (key_step n d msg R (g mod n) (kind_of g)) (4 * (g mod n)) = slice (4 * g) 4 W.
Proof.
  intros Hg HR. pose proof n_pos. pose proof (Nat.mod_upper_bound g n ltac:(lia)) as Hj. assert (Hr : ring (4 * (g + 1)) (key_step n d msg R (g mod n) (kind_of g))).
  2:{ split; [done|]. rewrite (ring_words g _ Hr), <-(words4_slice G g Hg). unfold words4. cbn [fmap list_fmap]. rewrite Nat.add_0_r. rewrite !total_nth by (rewrite length_keys; lia). done. }
  unfold kind_of. destruct (Nat.ltb_spec g n) as [Hlt|Hge]; [|destruct (Nat.odd (g / n)) eqn:Ho].
  - cbn [key_step]. apply push_group; [done|done|]. rewrite (keys_load g G Hlt Hg). by rewrite Nat.mod_small.
  - cbn [key_step]. apply push_group; [done|done|]. rewrite (keys_expand g G Hge Ho Hg). cbv zeta.
    assert (E1 : forall i, (i < 4)%nat -> R !!! (4 * (g mod n) + i)%nat = nth (4 * g - (4 * n - i)) W 0).
    { intros i Hi. destruct HR as [_ HR]. replace (4 * g - (4 * n - i))%nat with (4 * (g - n) + i)%nat by lia. rewrite <-HR by lia. rewrite place by done. do 3 f_equal. replace g with (g - n + 1 * n)%nat at 1 by lia. apply Nat.Div0.mod_add. }
    assert (E2 : forall i, (i < 4)%nat -> R !!! (4 * ((g mod n + n - 1) mod n) + i)%nat = nth (4 * g - (4 - i)) W 0).
    { intros i Hi. destruct HR as [_ HR]. replace (4 * g - (4 - i))%nat with (4 * (g - 1) + i)%nat by lia. rewrite <-HR by lia. rewrite place by done. do 3 f_equal.
      replace (g mod n + n - 1)%nat with (g mod n + (n - 1))%nat by lia. rewrite Nat.Div0.add_mod_idemp_l. replace (g + (n - 1))%nat with (g - 1 + 1 * n)%nat by lia. apply Nat.Div0.mod_add. }
    f_equal. f_equal.
    + unfold words4, KEY_EXPAND_ELT. rewrite <-(Nat.add_0_r (4 * (g mod n))) at 4. rewrite !E1 by lia. rewrite Nat.sub_0_r. match goal with |- AES_ROUND_NOKEY ?x = _ => rewrite (proj1 (aes0_ref x eq_refl)) end. reflexivity.
    + unfold words4. rewrite <-(Nat.add_0_r (4 * ((g mod n + n - 1) mod n))) at 1. rewrite !E2 by lia. reflexivity.
  - assert (Hk : forall k, (k <= 4)%nat -> ring (4 * g + k) (foldl (fun rk i => <[(4 * (g mod n) + i)%nat := Z.lxor (rk !!! (4 * (g mod n) + i)%nat) (rk !!! ((4 * (g mod n) + i + 4 * n - d) mod (4 * n))%nat)]> rk) R (seq 0 k))).
    { induction k as [|k IH]; intros Hk; [by rewrite Nat.add_0_r|]. specialize (IH ltac:(lia)). rewrite seq_S, foldl_app. cbn [foldl Nat.add]. match type of IH with ring _ ?t => set (R' := t) in * end. clearbody R'.
      assert (E1 : R' !!! (4 * (g mod n) + k)%nat = nth (4 * g + k - 4 * n) W 0).
      { destruct IH as [_ IH]. rewrite <-IH by lia. f_equal. rewrite <-(place g k) by lia. replace (4 * g + k)%nat with (4 * g + k - 4 * n + 1 * (4 * n))%nat at 1 by lia. apply Nat.Div0.mod_add. }
      assert (E2 : R' !!! ((4 * (g mod n) + k + 4 * n - d) mod (4 * n))%nat = nth (4 * g + k - d) W 0).
      { destruct IH as [_ IH]. rewrite <-IH by lia. f_equal. rewrite <-(place g k) by lia. replace ((4 * g + k) mod (4 * n) + 4 * n - d)%nat with ((4 * g + k) mod (4 * n) + (4 * n - d))%nat by lia. rewrite Nat.Div0.add_mod_idemp_l.
        replace (4 * g + k + (4 * n - d))%nat with (4 * g + k - d + 1 * (4 * n))%nat by lia. apply Nat.Div0.mod_add. }
      rewrite E1, E2, <-(keys_linear g G k Hge Ho Hg) by lia. rewrite <-(place g k) by lia. replace (4 * g + S k)%nat with (S (4 * g + k)) by lia. by apply ring_push. }
    replace (4 * (g + 1))%nat with (4 * g + 4)%nat by lia. exact (Hk 4%nat ltac:(lia)).
Qed.

(** One application of F, and a sequence of them. *)
Lemma run_f_ref g k dst src R p : (g + k <= G)%nat -> ring (4 * g) R -> length (p !!! src) = 4%nat ->
  exists R', run_f n d msg (R, p) (mk_f dst src ((fun g => ((g mod n)%nat, kind_of g)) <$> seq g k)) = (R', <[dst := xorw (p !!! dst) (F W k g (p !!! src))]> p) /\ ring (4 * (g + k)) R'.
Proof.
  intros Hg HR Hx. unfold run_f. cbn [steps Shavite.dst Shavite.src].
  assert (H : exists R', run_keys n d msg (R, p !!! src) ((fun g => ((g mod n)%nat, kind_of g)) <$> seq g k) = (R', F W k g (p !!! src)) /\ ring (4 * (g + k)) R' /\ length (F W k g (p !!! src)) = 4%nat).
  { set (x := p !!! src) in *. clearbody x. induction k as [|k IH]; [exists R; rewrite Nat.add_0_r; done|]. destruct IH as (R1 & E & H1 & H2); [lia|]. rewrite seq_S, fmap_app. unfold run_keys in *. rewrite foldl_app, E. cbn [fmap list_fmap foldl].
    destruct (key_step_ref (g + k) R1 ltac:(lia) H1) as [K1 K2]. exists (key_step n d msg R1 ((g + k) mod n) (kind_of (g + k))). rewrite K2.
    assert (EF : F W (S k) g x = aes0 (xorw (F W k g x) (slice (4 * (g + k)) 4 W))) by (unfold F; rewrite seq_S, foldl_app; reflexivity). rewrite EF.
    assert (Hs : length (slice (4 * (g + k)) 4 W) = 4%nat) by (apply length_slice; rewrite length_keys; lia).
    destruct (aes0_ref (xorw (F W k g x) (slice (4 * (g + k)) 4 W))) as [-> Ha]; [by apply length_xorw|]. split; [done|]. split; [|done]. by replace (4 * (g + S k))%nat with (4 * (g + k + 1))%nat by lia. }
  destruct H as (R' & -> & H & _). exists R'. done.
Qed.
End Ring.
End Schedule.
(** A sequence of applications of F, [k] keys each. *)
Section Rounds.
Context (n d : nat) (cnt : nat -> list Z) (msg : list Z).
Hypothesis Hnd : (n = 4 /\ d = 3 \/ n = 8 /\ d = 7)%nat.
Hypothesis Hcnt : forall g, length (cnt g) = 4%nat.
#[local] Abbreviation keys := (round_keys n d cnt msg).
Definition ring_steps (k : nat) (D S : nat -> nat) (c : nat) : list fstep :=
  (fun i => mk_f (D i) (S i) ((fun g => ((g mod n)%nat, kind_of n cnt g)) <$> seq (k * i) k)) <$> seq 0 c.
Definition ring_rounds (W : list Z) (k : nat) (D S : nat -> nat) (p : list (list Z)) (c : nat) : list (list Z) :=
  foldl (fun p i => <[D i := xorw (p !!! D i) (F W k (k * i) (p !!! S i))]> p) p (seq 0 c).
Definition quads (p : list (list Z)) : Prop := Forall (fun x => length x = 4%nat) p.
Lemma ring_run G k D S c R p : (k * c <= G)%nat -> length R = (4 * n)%nat -> quads p -> (forall i, (i < c)%nat -> (D i < length p /\ S i < length p)%nat) ->
  exists R', foldl (run_f n d msg) (R, p) (ring_steps k D S c) = (R', ring_rounds (keys G) k D S p c) /\ ring n d cnt msg G (4 * (k * c)) R' /\
  quads (ring_rounds (keys G) k D S p c) /\ length (ring_rounds (keys G) k D S p c) = length p.
Proof.
  intros Hc HR Hp HDS. induction c as [|c IH]; [exists R; split; [done|]; split; [split; [done|intros; lia]|done]|].
  destruct IH as (R1 & E & H1 & H2 & H3); [lia|intros; apply HDS; lia|]. destruct (HDS c ltac:(lia)) as [HD HS]. unfold ring_steps, ring_rounds in *. rewrite seq_S, fmap_app, !foldl_app, E. cbn [fmap list_fmap foldl Nat.add].
  match type of H3 with length ?t = _ => set (p1 := t) in * end. clearbody p1. assert (Hs : length (p1 !!! S c) = 4%nat) by (apply (Forall_lookup_total_1 _ p1 (S c) H2); lia).
  destruct (run_f_ref n d cnt msg Hnd Hcnt G (k * c) k (D c) (S c) R1 p1 ltac:(lia) H1 Hs) as (R' & -> & HR'). exists R'. split; [done|]. split; [by replace (4 * (k * Datatypes.S c))%nat with (4 * (k * c + k))%nat by lia|].
  split; [|by rewrite length_insert]. apply Forall_insert; [done|]. apply length_xorw; [apply (Forall_lookup_total_1 _ p1 (D c) H2); lia|]. exact (proj2 (f_rounds_ref n d cnt msg Hnd Hcnt G (k * c) k (p1 !!! S c) ltac:(lia) Hs)).
Qed.
(** Turns of expansions and turns of the linear recurrence. *)
Lemma turns_ref j cnt' : (forall i, cnt' (4 * i)%nat = cnt i) ->
  Nat.iter j (fun rk => Nat.iter n (add_linear (4 * n) d) (Nat.iter n (add_expand (4 * n) cnt') rk)) (decode (4 * n) msg) = keys (n * (2 * j + 1)) /\
  Nat.iter n (add_expand (4 * n) cnt') (keys (n * (2 * j + 1))) = keys (n * (2 * j + 2)).
Proof.
  intros Hc. assert (Ho : forall j, Nat.odd (2 * j + 1) = true) by (intros i; apply Nat.odd_spec; by exists i). induction j as [|j [IH _]].
  - rewrite <-(load_keys n d cnt msg Hnd n ltac:(lia)). split; [by rewrite Nat.mul_1_r|exact (proj1 (double_turn n d cnt msg Hnd Hcnt 1 cnt' ltac:(lia) eq_refl Hc))].
  - rewrite Nat.iter_succ, IH. destruct (double_turn n d cnt msg Hnd Hcnt (2 * j + 1) cnt' ltac:(lia) (Ho j) Hc) as [-> ->]. split; [f_equal; lia|].
    rewrite (proj1 (double_turn n d cnt msg Hnd Hcnt (2 * S j + 1) cnt' ltac:(lia) (Ho (S j)) Hc)). f_equal. lia.
Qed.
End Rounds.

Lemma round_keys_ext n d cnt cnt' msg G : (forall g, cnt g = cnt' g) -> round_keys n d cnt msg G = round_keys n d cnt' msg G.
Proof.
  intros H. unfold round_keys. induction (seq 0 G) as [|g l IH] using rev_ind; [done|]. rewrite !foldl_app, IH. cbn [foldl]. unfold next_group. by rewrite H.
Qed.
Lemma length_count_256 C g : length (count_256 C g) = 4%nat.
Proof. unfold count_256. by repeat destruct (_ =? _)%nat. Qed.
Lemma length_count_512 C g : length (count_512 C g) = 4%nat.
Proof. unfold count_512. by repeat destruct (_ =? _)%nat. Qed.
#[local] Abbreviation W256 C msg := (round_keys 4 3 (fun g => count_256 C (4 * g)) msg 36).
#[local] Abbreviation W512 C msg := (round_keys 8 7 (fun g => count_512 C (4 * g)) msg 112).
#[local] Opaque add_expand add_linear.
Lemma iter_twice {A} k (f : A -> A) x : Nat.iter k (fun x => f (f x)) x = Nat.iter (2 * k) f x.
Proof. induction k as [|k IH]; [done|]. replace (2 * S k)%nat with (S (S (2 * k))) by lia. by rewrite !Nat.iter_succ, IH. Qed.
Lemma iter_ext {A} k (f g : A -> A) x : (forall x, f x = g x) -> Nat.iter k f x = Nat.iter k g x.
Proof. intros H. induction k as [|k IH]; [done|]. by rewrite !Nat.iter_succ, IH, H. Qed.
Lemma keys_256_ref C msg : keys_256 C msg = W256 C msg.
Proof.
  destruct (turns_ref 4 3 (fun g => count_256 C (4 * g)) msg (or_introl (conj eq_refl eq_refl)) (fun g => length_count_256 C _) 4 (count_256 C) (fun _ => eq_refl)) as [H _].
  change (4 * (2 * 4 + 1))%nat with 36%nat in H. rewrite <-H. change (4 * 4)%nat with 16%nat. unfold keys_256. apply iter_ext. intros rk. by rewrite iter_twice.
Qed.
Lemma keys_512_ref C msg : keys_512 C msg = W512 C msg.
Proof.
  destruct (turns_ref 8 7 (fun g => count_512 C (4 * g)) msg (or_intror (conj eq_refl eq_refl)) (fun g => length_count_512 C _) 6 (count_512 C) (fun _ => eq_refl)) as [H1 H2].
  change (8 * (2 * 6 + 2))%nat with 112%nat in H2. rewrite <-H2, <-H1. change (4 * 8)%nat with 32%nat. unfold keys_512. rewrite iter_twice. apply (f_equal (Nat.iter 8 (add_expand 32 (count_512 C)))). apply iter_ext. intros rk. by rewrite iter_twice.
Qed.

(** ** The rounds *)

(** Rounds of the small version two by two. *)
Definition double_rounds (W : list Z) (p q : list Z) (j : nat) : list Z * list Z :=
  foldl (fun '(p, q) r => let p := xorw p (F W 3 (6 * r) q) in let q := xorw q (F W 3 (6 * r + 3) p) in (p, q)) (p, q) (seq 0 j).
Lemma double_rounds_ref W p q j : foldl (fun '(l, r) i => (r, xorw l (F W 3 (3 * i) r))) (p, q) (seq 0 (2 * j)) = double_rounds W p q j.
Proof.
  unfold double_rounds. induction j as [|j IH]; [done|]. replace (2 * S j)%nat with (S (S (2 * j))) by lia. rewrite !seq_S, !foldl_app, IH. destruct (foldl _ (p, q) (seq 0 j)) as [a b]. cbn [foldl Nat.add].
  replace (3 * (2 * j))%nat with (6 * j)%nat by lia. replace (3 * S (2 * j))%nat with (6 * j + 3)%nat by lia. done.
Qed.
Lemma double_rounds_ring W p q j : ring_rounds W 3 (fun i => i mod 2)%nat (fun i => (i + 1) mod 2)%nat [p; q] (2 * j) = (let '(a, b) := double_rounds W p q j in [a; b]).
Proof.
  unfold ring_rounds, double_rounds. induction j as [|j IH]; [done|]. replace (2 * S j)%nat with (S (S (2 * j))) by lia. rewrite !seq_S, !foldl_app, IH. destruct (foldl _ (p, q) (seq 0 j)) as [a b]. cbn [foldl Nat.add].
  assert (E : ((2 * j) mod 2 = 0 /\ (2 * j + 1) mod 2 = 1 /\ (S (2 * j)) mod 2 = 1 /\ S (2 * j + 1) mod 2 = 0)%nat).
  { repeat split; symmetry; [apply (Nat.mod_unique _ _ j)|apply (Nat.mod_unique _ _ j)|apply (Nat.mod_unique _ _ j)|apply (Nat.mod_unique _ _ (S j))]; lia. }
  destruct E as (-> & -> & -> & ->). cbn [insert list_insert lookup_total list_lookup_total]. replace (3 * (2 * j))%nat with (6 * j)%nat by lia. replace (3 * S (2 * j))%nat with (6 * j + 3)%nat by lia. done.
Qed.
(** Rounds of the big version: the code turns the roles of the quarters instead. *)
Definition quad_rounds (W : list Z) (x : list Z * list Z * list Z * list Z) (c : nat) : list Z * list Z * list Z * list Z :=
  foldl (fun '(a, b, c, d) i => (d, xorw a (F W 4 (8 * i) b), b, xorw c (F W 4 (8 * i + 4) d))) x (seq 0 c).
Definition turned (r : nat) (x : list Z * list Z * list Z * list Z) : list (list Z) :=
  let '(a, b, c, d) := x in match (r mod 4)%nat with 0%nat => [a; b; c; d] | 1%nat => [b; c; d; a] | 2%nat => [c; d; a; b] | _ => [d; a; b; c] end.
Definition dst_512 (i : nat) : nat := nth (i mod 8) [0; 2; 3; 1; 2; 0; 1; 3]%nat 0%nat.
Definition src_512 (i : nat) : nat := nth (i mod 8) [1; 3; 0; 2; 3; 1; 2; 0]%nat 0%nat.
Lemma quad_rounds_ring W a b c d r : ring_rounds W 4 dst_512 src_512 [a; b; c; d] (2 * r) = turned r (quad_rounds W (a, b, c, d) r).
Proof.
  unfold ring_rounds, quad_rounds. induction r as [|r IH]; [done|]. replace (2 * S r)%nat with (S (S (2 * r))) by lia. rewrite !seq_S, !foldl_app, IH. destruct (foldl _ (a, b, c, d) (seq 0 r)) as [[[a1 b1] c1] d1]. cbn [foldl Nat.add].
  pose proof (Nat.div_mod_eq r 4) as Er. pose proof (Nat.mod_upper_bound r 4 ltac:(lia)) as Hr. set (q := (r / 4)%nat) in *. unfold turned, dst_512, src_512.
  replace (4 * (2 * r))%nat with (8 * r)%nat by lia. replace (4 * S (2 * r))%nat with (8 * r + 4)%nat by lia.
  assert (Hm : ((2 * r) mod 8 = 2 * (r mod 4) /\ S (2 * r) mod 8 = 2 * (r mod 4) + 1)%nat) by (split; symmetry; apply (Nat.mod_unique _ _ q); lia).
  destruct Hm as [-> ->]. assert (Hs : (S r mod 4 = if r mod 4 =? 3 then 0 else r mod 4 + 1)%nat).
  { destruct (Nat.eqb_spec (r mod 4) 3); symmetry; [apply (Nat.mod_unique _ _ (S q))|apply (Nat.mod_unique _ _ q)]; lia. }
  rewrite Hs. assert (r mod 4 = 0 \/ r mod 4 = 1 \/ r mod 4 = 2 \/ r mod 4 = 3)%nat as [-> | [-> | [-> | ->]]] by lia; reflexivity.
Qed.

(** ** The compressions *)

Lemma c256_steps_ring C : c256_steps C = ring_steps 4 (fun g => count_256 C (4 * g)) 3 (fun i => i mod 2)%nat (fun i => (i + 1) mod 2)%nat (2 * 6).
Proof. reflexivity. Qed.
Lemma c512_steps_ring C : c512_steps C = ring_steps 8 (fun g => count_512 C (4 * g)) 4 dst_512 src_512 (2 * 14).
Proof. reflexivity. Qed.
Lemma length_slice4 o (h : list Z) : (o + 4 <= length h)%nat -> length (slice o 4 h) = 4%nat.
Proof. intros. by apply length_slice. Qed.

Lemma c256_refs rk0 st msg : length rk0 = 16%nat -> length (sh st) = 8%nat ->
  let W := W256 (count st) msg in
  let out := (let '(p, q) := double_rounds W (slice 0 4 (sh st)) (slice 4 4 (sh st)) 6 in xorw (sh st) (p ++ q)) in
  c256_array st msg = out /\ c256_unrolled rk0 st msg = out /\ length out = 8%nat.
Proof.
  intros Hr Hh W out. set (C := count st) in *. set (p := slice 0 4 (sh st)) in *. set (q := slice 4 4 (sh st)) in *.
  assert (Hp : length p = 4%nat /\ length q = 4%nat) by (split; apply length_slice4; lia). destruct Hp as [Hp Hq]. assert (Hpq : quads [p; q]) by by repeat constructor.
  destruct (ring_run 4 3 (fun g => count_256 C (4 * g)) msg (or_introl (conj eq_refl eq_refl)) (fun g => length_count_256 C _) 36 3 (fun i => i mod 2)%nat (fun i => (i + 1) mod 2)%nat (2 * 6) rk0 [p; q]
    ltac:(lia) Hr Hpq ltac:(intros i Hi; cbn [length]; split; apply Nat.mod_upper_bound; lia)) as (R & E & _ & Hl & _).
  rewrite double_rounds_ring in E, Hl. fold W in E, Hl. unfold out, c256_array, c256_unrolled. fold C p q. clear out. rewrite keys_256_ref. fold W.
  pose proof (f_rounds_ref 4 3 (fun g => count_256 C (4 * g)) msg (or_introl (conj eq_refl eq_refl)) (fun g => length_count_256 C _) 36) as HF. fold W in HF. clearbody p q W. split; [|split].
  -     match goal with |- context [foldl ?f (p, q) (seq 0 6)] => assert (Ea : forall j, (j <= 6)%nat -> foldl f (p, q) (seq 0 j) = double_rounds W p q j /\ (let '(a, b) := double_rounds W p q j in length a = 4%nat /\ length b = 4%nat)) end.
    { unfold double_rounds. induction j as [|j IH]; intros Hj; [cbn [seq foldl]; split; [exact eq_refl|split; assumption]|]. destruct IH as [IH Hab]; [lia|]. rewrite !seq_S, !foldl_app, IH. clear IH. revert Hab. destruct (foldl _ (p, q) (seq 0 j)) as [a b]. intros [Ha Hb]. cbn [foldl Nat.add].
      destruct (HF (6 * j)%nat 3%nat b ltac:(lia) Hb) as [F1 L1]. replace (24 * j)%nat with (4 * (6 * j))%nat by lia. rewrite F1. pose proof (length_xorw a _ Ha L1) as La. set (a1 := xorw a _) in *. clearbody a1.
      destruct (HF (6 * j + 3)%nat 3%nat a1 ltac:(lia) La) as [F2 L2]. replace (4 * (6 * j) + 12)%nat with (4 * (6 * j + 3))%nat by lia. rewrite F2. split; [done|]. split; [done|]. by apply length_xorw. }
    rewrite (proj1 (Ea 6%nat ltac:(lia))). done.
  - rewrite c256_steps_ring, E. destruct (double_rounds W p q 6) as [a b]. done.
  - destruct (double_rounds W p q 6) as [a b]. apply Forall_cons_1 in Hl as [Ha Hl]. apply Forall_cons_1 in Hl as [Hb _]. unfold xorw. rewrite length_zip_with, length_app. lia.
Qed.
Lemma c512_refs rk0 st msg : length rk0 = 32%nat -> length (sh st) = 16%nat ->
  let W := W512 (count st) msg in
  let out := (let '(a, b, c, d) := quad_rounds W (slice 0 4 (sh st), slice 4 4 (sh st), slice 8 4 (sh st), slice 12 4 (sh st)) 14 in xorw (sh st) (a ++ b ++ c ++ d)) in
  c512_array st msg = out /\ c512_unrolled rk0 st msg = out /\ length out = 16%nat.
Proof.
  intros Hr Hh W out. set (C := count st) in *. assert (Hq : quads [slice 0 4 (sh st); slice 4 4 (sh st); slice 8 4 (sh st); slice 12 4 (sh st)]) by (repeat constructor; apply length_slice4; lia).
  unfold out, c512_array, c512_unrolled. fold C. set (p0 := slice 0 4 (sh st)) in *. set (p1 := slice 4 4 (sh st)) in *. set (p2 := slice 8 4 (sh st)) in *. set (p3 := slice 12 4 (sh st)) in *. clearbody p0 p1 p2 p3.
  destruct (ring_run 8 7 (fun g => count_512 C (4 * g)) msg (or_intror (conj eq_refl eq_refl)) (fun g => length_count_512 C _) 112 4 dst_512 src_512 (2 * 14) rk0 [p0; p1; p2; p3]
    ltac:(lia) Hr Hq) as (R & E & _ & Hl & _).
  { intros i Hi. unfold dst_512, src_512. cbn [length]. pose proof (Nat.mod_upper_bound i 8 ltac:(lia)). set (j := (i mod 8)%nat) in *. clearbody j. do 8 (destruct j as [|j]; [cbn; lia|]). lia. }
  rewrite quad_rounds_ring in E, Hl. fold W in E, Hl. rewrite keys_512_ref. fold W. clear out.
  pose proof (f_rounds_ref 8 7 (fun g => count_512 C (4 * g)) msg (or_intror (conj eq_refl eq_refl)) (fun g => length_count_512 C _) 112) as HF. fold W in HF. clearbody W. split; [|split].
  - apply Forall_cons_1 in Hq as [H0 Hq]. apply Forall_cons_1 in Hq as [H1 Hq]. apply Forall_cons_1 in Hq as [H2 Hq]. apply Forall_cons_1 in Hq as [H3 _].
    match goal with |- context [foldl ?f (p0, p1, p2, p3) (seq 0 14)] => assert (Ea : forall j, (j <= 14)%nat -> foldl f (p0, p1, p2, p3) (seq 0 j) = quad_rounds W (p0, p1, p2, p3) j /\ (let '(a, b, c, d) := quad_rounds W (p0, p1, p2, p3) j in length a = 4%nat /\ length b = 4%nat /\ length c = 4%nat /\ length d = 4%nat)) end.
    { unfold quad_rounds. induction j as [|j IH]; intros Hj; [cbn [seq foldl]; split; [exact eq_refl|repeat split; assumption]|]. destruct IH as [IH Hab]; [lia|]. rewrite !seq_S, !foldl_app, IH. clear IH. revert Hab. destruct (foldl _ (p0, p1, p2, p3) (seq 0 j)) as [[[a b] c] d]. intros (Ha & Hb & Hc & Hd). cbn [foldl Nat.add].
      destruct (HF (8 * j)%nat 4%nat b ltac:(lia) Hb) as [F1 L1]. destruct (HF (8 * j + 4)%nat 4%nat d ltac:(lia) Hd) as [F2 L2].
      replace (32 * j)%nat with (4 * (8 * j))%nat by lia. replace (4 * (8 * j) + 16)%nat with (4 * (8 * j + 4))%nat by lia. rewrite F1, F2. split; [done|]. split; [done|]. split; [by apply length_xorw|]. split; [done|by apply length_xorw]. }
    rewrite (proj1 (Ea 14%nat ltac:(lia))). done.
  - rewrite c512_steps_ring, E. destruct (quad_rounds W _ 14) as [[[a b] c] d]. done.
  - destruct (quad_rounds W _ 14) as [[[a b] c] d]. unfold turned in Hl. change (14 mod 4)%nat with 2%nat in Hl. cbv iota in Hl. apply Forall_cons_1 in Hl as [Ha Hl]. apply Forall_cons_1 in Hl as [Hb Hl]. apply Forall_cons_1 in Hl as [Hc Hl]. apply Forall_cons_1 in Hl as [Hd _].
    unfold xorw. rewrite length_zip_with, !length_app. lia.
Qed.

(** ** The counter *)

Definition cwords (N : nat) (k : Z) : list Z := cword k <$> seq 0 N.
Lemma cword_S k i : 0 <= k -> cword k (S i) = cword (k / 2 ^ 32) i.
Proof. intros Hk. unfold cword. assert (0 < 2 ^ (32 * Z.of_nat i)) by (apply Z.pow_pos_nonneg; lia). rewrite Z.div_div by lia. rewrite <-Z.pow_add_r by lia. do 3 f_equal. lia. Qed.
Lemma cwords_S N k : 0 <= k -> cwords (S N) k = k mod 2 ^ 32 :: cwords N (k / 2 ^ 32).
Proof.
  intros Hk. unfold cwords. cbn [seq fmap list_fmap]. apply (f_equal2 cons); [unfold cword; by rewrite Z.mul_0_r, Z.div_1_r|]. rewrite <-fmap_S_seq, <-list_fmap_compose. apply list_fmap_ext. intros j i _. cbn [compose]. by apply cword_S.
Qed.
Lemma cwords_nil k : cwords 0 k = [].
Proof. done. Qed.
Lemma length_cwords N k : length (cwords N k) = N.
Proof. unfold cwords. by rewrite length_fmap, length_seq. Qed.
Lemma cwords_0 N : cwords N 0 = replicate N 0.
Proof. induction N as [|N IH]; [done|]. rewrite cwords_S by lia. cbn [replicate]. by rewrite <-IH. Qed.
Lemma cwords_total N k i : (i < N)%nat -> cwords N k !!! i = cword k i.
Proof. intros Hi. unfold cwords. by rewrite lookup_fmap_seq. Qed.
Lemma cword_word k i : word 32 (cword k i).
Proof. unfold cword, word. apply Z.mod_pos_bound. lia. Qed.
(** A step [e] that divides 2^32 and the count: one carry, when the low word becomes 0. *)
Lemma carry_word e h : 0 < e <= 2 ^ 32 -> (e | 2 ^ 32) -> (e | h) -> 0 <= h ->
  let c := T32 (h mod 2 ^ 32 + e) in c = (h + e) mod 2 ^ 32 /\ (h + e) / 2 ^ 32 = (if c =? 0 then h / 2 ^ 32 + 1 else h / 2 ^ 32).
Proof.
  intros He [q Hq] [j Hj] Hh c. unfold c. rewrite T32_mod, Zplus_mod_idemp_l. split; [done|]. pose proof (Z.div_mod h (2 ^ 32) ltac:(lia)) as D. pose proof (Z.mod_pos_bound h (2 ^ 32) ltac:(lia)) as M.
  set (r := h mod 2 ^ 32) in *. set (s := h / 2 ^ 32) in *. clearbody r s. assert (Hr : r = (j - q * s) * e) by (transitivity (h - 2 ^ 32 * s); [lia|rewrite Hq, Hj; ring]).
  assert (Hre : r + e <= 2 ^ 32) by (set (t := j - q * s) in *; clearbody t; assert (t < q) by nia; nia). replace (h + e) with (r + e + s * 2 ^ 32) by lia. rewrite Z.mod_add, Z.div_add by lia.
  destruct (decide (r + e = 2 ^ 32)) as [->|Hne]; [rewrite Z.mod_same, Z.div_same by lia; cbn [Z.eqb]; lia|]. rewrite Z.mod_small, Z.div_small by lia. destruct (Z.eqb_spec (r + e) 0); lia.
Qed.
Lemma cwords_add N k e : 0 <= k -> 0 <= e -> (k mod 2 ^ 32 + e < 2 ^ 32) -> <[0%nat := T32 (cwords (S N) k !!! 0%nat + e)]> (cwords (S N) k) = cwords (S N) (k + e).
Proof.
  intros Hk He Hs. rewrite !cwords_S by lia. cbn [insert list_insert lookup_total list_lookup_total]. rewrite T32_mod. pose proof (Z.div_mod k (2 ^ 32) ltac:(lia)) as D. pose proof (Z.mod_pos_bound k (2 ^ 32) ltac:(lia)).
  set (r := k mod 2 ^ 32) in *. set (s := k / 2 ^ 32) in *. replace (k + e) with (r + e + s * 2 ^ 32) by lia. rewrite Z.mod_add, Z.div_add by lia. rewrite (Z.div_small (r + e)) by lia. done.
Qed.
Lemma divide_1 h : (1 | h).
Proof. exists h. lia. Qed.
Lemma incr_small_ref j : 0 <= j -> incr_small (cwords 2 (512 * j)) = cwords 2 (512 * (j + 1)).
Proof.
  intros Hj. destruct (carry_word 512 (512 * j) ltac:(lia) ltac:(by exists 8388608) ltac:(exists j; lia) ltac:(lia)) as [E1 E2]. rewrite (cwords_S 1) by lia. replace (512 * (j + 1)) with (512 * j + 512) by lia. rewrite (cwords_S 1) by lia.
  rewrite E2. set (h := 512 * j / 2 ^ 32) in *. assert (Hh : 0 <= h) by (apply Z.div_pos; lia). clearbody h. rewrite <-E1. rewrite (cwords_S 0 h), cwords_nil by lia. cbn [incr_small].
  set (c := T32 _). clearbody c. destruct (c =? 0); rewrite (cwords_S 0) by lia; [|done]. by rewrite T32_mod, Zplus_mod_idemp_l.
Qed.
Lemma incr_big_ref j : 0 <= j -> incr_big (cwords 4 (1024 * j)) = cwords 4 (1024 * (j + 1)).
Proof.
  intros Hj. destruct (carry_word 1024 (1024 * j) ltac:(lia) ltac:(by exists 4194304) ltac:(exists j; lia) ltac:(lia)) as [E1 E2]. rewrite (cwords_S 3) by lia. replace (1024 * (j + 1)) with (1024 * j + 1024) by lia. rewrite (cwords_S 3) by lia.
  rewrite E2. set (h := 1024 * j / 2 ^ 32) in *. assert (Hh : 0 <= h) by (apply Z.div_pos; lia). clearbody h. rewrite <-E1. assert (Hh2 : 0 <= h / 2 ^ 32) by (apply Z.div_pos; lia).
  destruct (carry_word 1 h ltac:(lia) ltac:(apply divide_1) ltac:(apply divide_1) ltac:(lia)) as [F1 F2]. destruct (carry_word 1 (h / 2 ^ 32) ltac:(lia) ltac:(apply divide_1) ltac:(apply divide_1) ltac:(lia)) as [G1 G2].
  assert (Hh3 : 0 <= h / 2 ^ 32 / 2 ^ 32) by (apply Z.div_pos; lia). rewrite (cwords_S 2 h), (cwords_S 1 (h / 2 ^ 32)), (cwords_S 0 (h / 2 ^ 32 / 2 ^ 32)), cwords_nil by lia. cbn [incr_big].
  set (c := T32 (_ + 1024)). clearbody c. destruct (c =? 0); [|rewrite (cwords_S 2 h), (cwords_S 1 (h / 2 ^ 32)), (cwords_S 0) by lia; done].
  rewrite (cwords_S 2 (h + 1)), F2, <-F1 by lia. set (c1 := T32 (h mod _ + 1)). clearbody c1. destruct (c1 =? 0); [|rewrite (cwords_S 1 (h / 2 ^ 32)), (cwords_S 0) by lia; done].
  rewrite (cwords_S 1 (h / 2 ^ 32 + 1)), G2, <-G1 by lia. set (c2 := T32 (_ mod _ + 1)). clearbody c2. destruct (c2 =? 0); [|rewrite (cwords_S 0) by lia; done].
  rewrite (cwords_S 0) by lia. by rewrite T32_mod, Zplus_mod_idemp_l.
Qed.
Lemma cwords_bytes N k : 0 <= k -> flat_map (fun i => le_store 4 (cwords N k !!! i)) (seq 0 N) = le_store (4 * N) k.
Proof.
  revert k. induction N as [|N IH]; intros k Hk; [done|]. replace (4 * S N)%nat with (4 + 4 * N)%nat by lia. rewrite le_store_app. change (8 * Z.of_nat 4) with 32. rewrite Z.shiftr_div_pow2 by lia. rewrite <-IH by (apply Z.div_pos; lia).
  cbn [seq flat_map]. rewrite cwords_S by done. cbn [lookup_total list_lookup_total]. rewrite (le_store_mod 4 k (2 ^ 32)) by done. f_equal. rewrite <-fmap_S_seq. generalize (seq 0 N). intros l. induction l as [|i l IHl]; [done|]. cbn [fmap list_fmap flat_map]. by rewrite IHl.
Qed.
Lemma four_eqb a b : (4 * a =? 4 * b)%nat = (a =? b)%nat.
Proof. destruct (Nat.eqb_spec a b), (Nat.eqb_spec (4 * a) (4 * b)); (done || lia). Qed.
Lemma not_count_ref k i : not_count (cword k i) = inv32 (cword k i).
Proof.
  pose proof (cword_word k i) as [H1 H2]. unfold not_count, inv32. rewrite T32_mod. unfold Z.lnot. rewrite <-(Z.mod_add _ 1 (2 ^ 32)) by lia. rewrite Z.mod_small by lia. lia.
Qed.
Lemma count_256_ref k g : count_256 (cwords 2 k) (4 * g) = cnt_256 k g.
Proof.
  unfold count_256, cnt_256. rewrite !cwords_total by lia. rewrite (four_eqb g 4 : (4 * g =? 16)%nat = _), (four_eqb g 14 : (4 * g =? 56)%nat = _), (four_eqb g 21 : (4 * g =? 84)%nat = _), (four_eqb g 31 : (4 * g =? 124)%nat = _), !not_count_ref. done.
Qed.
Lemma count_512_ref k g : count_512 (cwords 4 k) (4 * g) = cnt_512 k g.
Proof.
  unfold count_512, cnt_512. rewrite !cwords_total by lia. rewrite (four_eqb g 8 : (4 * g =? 32)%nat = _), (four_eqb g 110 : (4 * g =? 440)%nat = _), (four_eqb g 41 : (4 * g =? 164)%nat = _), (four_eqb g 79 : (4 * g =? 316)%nat = _), !not_count_ref.
  destruct (Nat.eqb_spec g 8), (Nat.eqb_spec g 110), (Nat.eqb_spec g 41), (Nat.eqb_spec g 79); done || lia.
Qed.

(** The compressions of the code are those of the reference, with the counter's words. *)
Lemma c256_ref footprint rk0 h k msg : length rk0 = 16%nat -> length h = 8%nat -> c256 footprint rk0 (mk_shavite h (cwords 2 k)) msg = mk_shavite (E256 h k msg) (cwords 2 k) /\ length (E256 h k msg) = 8%nat.
Proof.
  intros Hr Hh. destruct (c256_refs rk0 (mk_shavite h (cwords 2 k)) msg Hr Hh) as (E1 & E2 & Hl). cbn [sh count] in *. rewrite (round_keys_ext 4 3 _ (cnt_256 k) msg 36 (count_256_ref k)), <-(double_rounds_ref _ _ _ 6) in E1, E2, Hl.
  unfold c256. split; [|exact Hl]. apply (f_equal2 mk_shavite); [|done]. destruct footprint; [exact E1|exact E2].
Qed.
Lemma c512_ref footprint rk0 h k msg : length rk0 = 32%nat -> length h = 16%nat -> c512 footprint rk0 (mk_shavite h (cwords 4 k)) msg = mk_shavite (E512 h k msg) (cwords 4 k) /\ length (E512 h k msg) = 16%nat.
Proof.
  intros Hr Hh. destruct (c512_refs rk0 (mk_shavite h (cwords 4 k)) msg Hr Hh) as (E1 & E2 & Hl). cbn [sh count] in *. rewrite (round_keys_ext 8 7 _ (cnt_512 k) msg 112 (count_512_ref k)) in E1, E2, Hl.
  unfold c512. split; [|exact Hl]. apply (f_equal2 mk_shavite); [|done]. destruct footprint; [exact E1|exact E2].
Qed.

(** ** Streaming *)

Section Stream.
(** [N] counter words, [H] words of state, blocks of [B] bytes. *)
Context (B N H : nat) (compress : shavite_state -> list Z -> shavite_state) (incr : list Z -> list Z) (E : list Z -> Z -> list Z -> list Z).
Hypothesis HB : (B = 64 \/ B = 128)%nat.
Hypothesis HN : (4 * N + 3 <= B)%nat.
Hypothesis N_pos : N <> 0%nat.
Hypothesis compress_ok : forall h k b, length h = H -> compress (mk_shavite h (cwords N k)) b = mk_shavite (E h k b) (cwords N k) /\ length (E h k b) = H.
#[local] Abbreviation bits := (8 * Z.of_nat B).
Hypothesis incr_ok : forall j, 0 <= j -> incr (cwords N (bits * j)) = cwords N (bits * (j + 1)).
#[local] Abbreviation block := (fun st buf => compress (mk_shavite (sh st) (incr (count st))) buf).
#[local] Abbreviation e := (B - 2 - 4 * N)%nat.

Lemma shavite_blocks L bs i h : length h = H -> bits * Z.of_nat (i + length bs) <= L ->
  foldl block (mk_shavite h (cwords N (bits * Z.of_nat i))) bs = mk_shavite (counter_chain B E L i h bs) (cwords N (bits * Z.of_nat (i + length bs))) /\ length (counter_chain B E L i h bs) = H.
Proof.
  revert i h. induction bs as [|b bs IH]; intros i h Hh HL; [rewrite Nat.add_0_r; done|]. cbn [foldl length sh count counter_chain] in *. rewrite incr_ok by lia.
  destruct (compress_ok h (bits * (Z.of_nat i + 1)) b Hh) as [E1 E2]. rewrite E1, (block_counter_full B ltac:(lia) L i) by lia. replace (Z.of_nat i + 1) with (Z.of_nat (S i)) by lia.
  destruct (IH (S i) (E h (bits * Z.of_nat (S i)) b) ltac:(by replace (Z.of_nat (S i)) with (Z.of_nat i + 1) by lia) ltac:(lia)) as [F1 F2]. split; [|exact F2]. rewrite F1. f_equal. do 3 f_equal. lia.
Qed.
(** The trailer. *)
Lemma shavite_trailer (b : list Z) L words : length b = B -> 0 <= L ->
  <[(B - 1)%nat := T8 (Z.shiftr (Z.of_nat words) 3)]> (<[(B - 2)%nat := T8 (Z.of_nat words * 32)]> (foldl (fun buf i => memcpy buf (e + 4 * i) (le_store 4 (cwords N L !!! i))) b (seq 0 N)))
  = take e b ++ le_store (4 * N) L ++ le_store 2 (32 * Z.of_nat words).
Proof.
  intros Hb HL. set (enc := fun i => le_store 4 (cwords N L !!! i)).
  assert (Hs : forall j, (j <= N)%nat -> let b' := foldl (fun buf i => memcpy buf (e + 4 * i) (enc i)) b (seq 0 j) in length b' = B /\ take (e + 4 * j) b' = take e b ++ flat_map enc (seq 0 j)).
  { induction j as [|j IH]; intros Hj; [cbn [seq foldl flat_map]; rewrite Nat.mul_0_r, Nat.add_0_r, app_nil_r; done|]. destruct IH as [Hl Ei]; [lia|]. cbv zeta in *. rewrite seq_S, foldl_app, flat_map_app. cbn [foldl flat_map Nat.add]. rewrite app_nil_r.
    assert (Hen : length (enc j) = 4%nat) by apply length_le_store. split; [rewrite length_memcpy; lia|]. replace (e + 4 * S j)%nat with (e + 4 * j + length (enc j))%nat by lia. rewrite take_memcpy by lia. by rewrite Ei, <-app_assoc. }
  destruct (Hs N ltac:(lia)) as [Hl Et]. cbv zeta in *. fold enc. set (b' := foldl _ b (seq 0 N)) in *. clearbody b'. unfold enc in Et. rewrite cwords_bytes in Et by done. rewrite app_assoc, <-Et. replace (e + 4 * N)%nat with (B - 2)%nat by lia.
  assert (Hd : length (drop (B - 2) b') = 2%nat) by (rewrite length_drop; lia). rewrite <-(take_drop (B - 2) b') at 1. assert (Htk : length (take (B - 2) b') = (B - 2)%nat) by (rewrite length_take; lia).
  set (x := take (B - 2) b') in *. set (y := drop (B - 2) b') in *. clearbody x y. replace (B - 1)%nat with (length x + 1)%nat by lia. rewrite <-Htk. rewrite <-(Nat.add_0_r (length x)) at 2. rewrite !insert_app_r. f_equal.
  do 2 (destruct y as [|? y]; [done|]). destruct y; [|done]. cbn [insert list_insert]. replace (Z.of_nat words * 32) with (32 * Z.of_nat words) by lia. rewrite !le_store_S. apply (f_equal2 cons); [done|]. apply (f_equal2 cons); [|done].
  f_equal. rewrite !Z.shiftr_div_pow2 by lia. change (2 ^ 8) with (32 * 2 ^ 3). by rewrite Z.div_mul_cancel_l by lia.
Qed.
Lemma shavite_pad_blocks m ub n words : let p := (length m mod B)%nat in
  let t := le_store (4 * N) (8 * Z.of_nat (length m) + n) ++ le_store 2 (32 * Z.of_nat words) in
  blocks B (shavite_pad B (4 * N) words m ub n) = blocks B m ++
    if (p <? e)%nat then [leftover B m ++ [last_bits ub n] ++ replicate (e - S p) 0 ++ t] else [leftover B m ++ [last_bits ub n] ++ replicate (B - S p) 0; replicate e 0 ++ t].
Proof.
  intros p t. pose proof (Nat.mod_upper_bound (length m) B ltac:(lia)) as Hp. fold p in Hp. unfold shavite_pad. fold t. assert (Ht : length t = (4 * N + 2)%nat) by (unfold t; by rewrite length_app, !length_le_store).
  rewrite <-Nat.add_assoc, <-(Nat.Div0.add_mod_idemp_l (length m) _ B). fold p. pose proof (length_leftover B ltac:(lia) m) as Hlo. fold p in Hlo. clearbody t. destruct (Nat.ltb_spec p e) as [Hlt|Hge].
  - rewrite Nat.mod_small by lia. replace (B - 1 - (p + (4 * N + 2)))%nat with (e - S p)%nat by lia. apply blocks_last; [lia|]. rewrite !length_app, length_replicate. cbn [length]. lia.
  - replace (p + (4 * N + 2))%nat with (p + (4 * N + 2) - B + 1 * B)%nat at 1 by lia. rewrite Nat.Div0.mod_add, Nat.mod_small by lia.
    replace (B - 1 - (p + (4 * N + 2) - B))%nat with ((B - S p) + e)%nat by lia. rewrite replicate_add, <-app_assoc.
    replace (m ++ [last_bits ub n] ++ replicate (B - S p) 0 ++ replicate e 0 ++ t) with (m ++ ([last_bits ub n] ++ replicate (B - S p) 0) ++ (replicate e 0 ++ t)) by (by rewrite <-!app_assoc).
    apply blocks_last2; [lia|rewrite !length_app, length_replicate; cbn [length]; lia|rewrite length_app, length_replicate; lia].
Qed.
Lemma shavite_close_ref sc ub n words m k h : word 8 ub -> 0 <= n < 8 -> (words <= H)%nat -> sph_ok B sc -> length h = H ->
  sc_st sc = mk_shavite h (cwords N (bits * Z.of_nat k)) -> k = (length m / B)%nat -> sc_ptr sc = (length m mod B)%nat -> take (sc_ptr sc) (sc_buf sc) = leftover B m ->
  let L := 8 * Z.of_nat (length m) + n in
  exists last, blocks B (shavite_pad B (4 * N) words m ub n) = blocks B m ++ last /\
  (shavite_close B e compress sc ub n words).2 = flat_map (le_store 4) (take words (counter_chain B E L k h last)).
Proof.
  intros Hub Hn Hw Hok Hh Est Ek Ep El L. assert (EL : L = bits * Z.of_nat k + (Z.of_nat (sc_ptr sc) * 8 + n)) by (pose proof (Nat.div_mod_eq (length m) B); unfold L; rewrite Ek, Ep; nia).
  pose proof (shavite_pad_blocks m ub n words) as Eb. cbv zeta in Eb. rewrite <-Ep in Eb. fold L in Eb. eexists. split; [exact Eb|]. assert (Hp : (sc_ptr sc < B)%nat) by apply Hok. assert (Hbuf : length (sc_buf sc) = B) by apply Hok.
  destruct (block_counter_end B ltac:(lia) k (Z.of_nat (sc_ptr sc) * 8 + n) ltac:(lia)) as [Hbc0 Hbc1]. cbv zeta in Hbc0, Hbc1. rewrite <-EL in Hbc0, Hbc1. unfold shavite_close. rewrite Est. cbn [sh count].
  assert (EC : <[0%nat := T32 (cwords N (bits * Z.of_nat k) !!! 0%nat + (Z.of_nat (sc_ptr sc) * 8 + n))]> (cwords N (bits * Z.of_nat k)) = cwords N L).
  { rewrite EL. destruct N as [|N']; [done|]. apply cwords_add; [lia|lia|]. destruct HB as [-> | ->].
    - replace (8 * Z.of_nat 64 * Z.of_nat k) with (512 * Z.of_nat k) by lia. change (2 ^ 32) with (512 * 8388608). rewrite Z.mul_mod_distr_l by lia. pose proof (Z.mod_pos_bound (Z.of_nat k) 8388608). lia.
    - replace (8 * Z.of_nat 128 * Z.of_nat k) with (1024 * Z.of_nat k) by lia. change (2 ^ 32) with (1024 * 4194304). rewrite Z.mul_mod_distr_l by lia. pose proof (Z.mod_pos_bound (Z.of_nat k) 4194304). lia. }
  rewrite EC, length_cwords, <-cwords_0. assert (HL : 0 <= L) by lia. destruct (final_byte_ref ub n Hub Hn) as [Ez _]. rewrite Ez.
  assert (Hout : forall h, length h = H -> flat_map (fun u => le_store 4 (h !!! u)) (seq 0 words) = flat_map (le_store 4) (take words h)).
  { intros h0 Hh0. rewrite !flat_map_concat_map. f_equal. rewrite <-(map_map (fun u => h0 !!! u) (le_store 4)). f_equal. change (map (fun u => h0 !!! u) (seq 0 words)) with ((fun u => h0 !!! u) <$> seq 0 words).
    apply list_eq_total; [rewrite length_fmap, length_seq, length_take; lia|]. rewrite length_fmap, length_seq. intros i Hi. rewrite lookup_fmap_seq, lookup_total_take_lt by lia. done. }
  (* the end of the message in one block *)
  set (b1 := memset0 (<[sc_ptr sc := last_bits ub n]> (sc_buf sc)) (S (sc_ptr sc)) (e - S (sc_ptr sc))).
  assert (Hb1 : (sc_ptr sc < e)%nat -> length b1 = B /\ take e b1 = leftover B m ++ [last_bits ub n] ++ replicate (e - S (sc_ptr sc)) 0).
  { intros Hlt. unfold b1, memset0. split; [rewrite length_memcpy; rewrite ?length_replicate, ?length_insert; lia|].
    pose proof (take_memcpy (<[sc_ptr sc := last_bits ub n]> (sc_buf sc)) (S (sc_ptr sc)) (replicate (e - S (sc_ptr sc)) 0) ltac:(rewrite length_insert; lia)) as Et. rewrite length_replicate in Et.
    replace (S (sc_ptr sc) + (e - S (sc_ptr sc)))%nat with e in Et by lia. rewrite Et, (take_S_r _ _ (last_bits ub n)) by (apply list_lookup_insert_eq; lia). rewrite take_insert_ge by lia. by rewrite El, <-app_assoc. }
  assert (Hone : (sc_ptr sc < e)%nat -> (if (sc_ptr sc =? 0)%nat && (n =? 0) then (mk_shavite h (cwords N 0), memset0 (<[0%nat := 0x80]> (sc_buf sc)) 1 (e - 1)) else (mk_shavite h (cwords N L), b1))
    = (mk_shavite h (cwords N (block_counter B L k)), b1)).
  { intros Hlt. destruct (Nat.eqb_spec (sc_ptr sc) 0) as [E0|E0], (Z.eqb_spec n 0) as [En|En]; cbn [andb]; rewrite Hbc0.
    - unfold b1. rewrite E0, En. unfold last_bits. rewrite Z.land_0_r. done.
    - rewrite (proj2 (Z.eqb_neq _ _)) by lia. done.
    - rewrite (proj2 (Z.eqb_neq _ _)) by lia. done.
    - rewrite (proj2 (Z.eqb_neq _ _)) by lia. done. }
  destruct (Nat.ltb_spec (sc_ptr sc) e) as [Hlt|Hge].
  - rewrite (Hone Hlt). destruct (Hb1 Hlt) as [Hl1 Et1]. rewrite (shavite_trailer b1 L words Hl1 HL), Et1. cbn [snd]. rewrite <-!app_assoc.
    set (b := leftover B m ++ _). destruct (compress_ok h (block_counter B L k) b Hh) as [-> Hl]. cbn [sh]. exact (Hout _ Hl).
  - assert (E0 : (sc_ptr sc =? 0)%nat = false) by (apply Nat.eqb_neq; lia). rewrite E0. cbn [andb]. rewrite (pad_buffer B sc _ Hok), El. set (b2 := leftover B m ++ _).
    assert (Hb2 : length b2 = B). { unfold b2. pose proof (length_leftover B ltac:(lia) m). rewrite !length_app, length_replicate. cbn [length]. lia. }
    assert (Em : length (memset0 b2 0 e) = B /\ take e (memset0 b2 0 e) = replicate e 0).
    { unfold memset0. split; [rewrite length_memcpy; rewrite ?length_replicate; lia|]. pose proof (take_memcpy b2 0 (replicate e 0) ltac:(lia)) as Et. rewrite length_replicate in Et. exact Et. }
    destruct Em as [Em1 Em2]. assert (Ebc : block_counter B L k = L) by (rewrite Hbc0, (proj2 (Z.eqb_neq _ _)) by lia; done).
    destruct (compress_ok h L b2 Hh) as [-> Hl]. cbn [sh]. rewrite (shavite_trailer _ L words Em1 HL), Em2. cbn [snd]. set (b3 := replicate e 0 ++ _). destruct (compress_ok (E h L b2) 0 b3 Hl) as [-> Hl3]. cbn [sh counter_chain]. rewrite Ebc, Hbc1. exact (Hout _ Hl3).
Qed.
Lemma shavite_stream_gen junk iv pieces ub n words : length junk = B -> length iv = H -> (words <= H)%nat -> word 8 ub -> 0 <= n < 8 ->
  (shavite_close B e compress (foldl (fun c data => sph_loop B block (length data) c data) (mk_sph junk 0 (mk_shavite iv (replicate N 0))) pieces) ub n words).2 = shavite_digest B (4 * N) E iv words (concat pieces) ub n.
Proof.
  intros Hj Hiv Hw Hub Hn. destruct (loop_pieces_spec B block ltac:(lia) junk (mk_shavite iv (replicate N 0)) pieces Hj) as (Hok & Est & Ep & El). cbv zeta in *. set (c := foldl _ (mk_sph junk 0 _) pieces) in *. clearbody c.
  set (m := concat pieces) in *. assert (Hlen : length (blocks B m) = (length m / B)%nat) by (apply length_blocks_div; lia). set (L := 8 * Z.of_nat (length m) + n).
  destruct (shavite_blocks L (blocks B m) 0 iv Hiv) as [F1 F2]; [rewrite Hlen; unfold L; pose proof (Nat.div_mod_eq (length m) B); nia|]. rewrite Nat.add_0_l, Hlen in F1. rewrite Z.mul_0_r, cwords_0 in F1. rewrite F1 in Est.
  destruct (shavite_close_ref c ub n words m (length m / B) _ Hub Hn Hw Hok F2 Est eq_refl Ep El) as (last & Eb & ->). unfold shavite_digest. fold L. by rewrite Eb, counter_chain_app, Hlen.
Qed.
Lemma shavite_chain_length L bs i h : length h = H -> length (counter_chain B E L i h bs) = H.
Proof. revert i h. induction bs as [|b bs IH]; intros i h Hh; [done|]. cbn [counter_chain]. apply IH. by apply compress_ok. Qed.
End Stream.

Lemma shavite_big_stream footprint rk0 junk iv pieces ub n words : length rk0 = 32%nat -> length junk = 128%nat -> length iv = 16%nat -> (words <= 16)%nat -> word 8 ub -> 0 <= n < 8 ->
  (shavite_big_close footprint rk0 (foldl (shavite_big_core footprint rk0) (shavite_big_init junk iv) pieces) ub n words).2 = shavite_digest 128 16 E512 iv words (concat pieces) ub n.
Proof.
  intros Hr Hj Hiv Hw Hub Hn. exact (shavite_stream_gen 128 4 16 (c512 footprint rk0) incr_big E512 (or_intror eq_refl) ltac:(lia) ltac:(lia) (fun h k b => c512_ref footprint rk0 h k b Hr) incr_big_ref junk iv pieces ub n words Hj Hiv Hw Hub Hn).
Qed.
Lemma shavite_small_stream footprint rk0 junk iv pieces ub n words : length rk0 = 16%nat -> length junk = 64%nat -> length iv = 8%nat -> (words <= 8)%nat -> word 8 ub -> 0 <= n < 8 ->
  (shavite_small_close footprint rk0 (foldl (shavite_small_core footprint rk0) (shavite_small_init junk iv) pieces) ub n words).2 = shavite_digest 64 8 E256 iv words (concat pieces) ub n.
Proof.
  intros Hr Hj Hiv Hw Hub Hn. exact (shavite_stream_gen 64 2 8 (c256 footprint rk0) incr_small E256 (or_introl eq_refl) ltac:(lia) ltac:(lia) (fun h k b => c256_ref footprint rk0 h k b Hr) incr_small_ref junk iv pieces ub n words Hj Hiv Hw Hub Hn).
Qed.
(** The digests GhostRider uses are 64 bytes. *)
Lemma shavite512_digest_bytes m ub n : length (shavite_digest 128 16 E512 IV512 16 m ub n) = 64%nat /\ bytes (shavite_digest 128 16 E512 IV512 16 m ub n).
Proof.
  unfold shavite_digest. apply (digest_words 16). rewrite length_take. rewrite (shavite_chain_length 128 4 16 (c512 true (replicate 32 0)) E512 (fun h k b => c512_ref true (replicate 32 0) h k b eq_refl)) by done. done.
Qed.

(** ** Properties *)

(** C20. For the four digest sizes and both versions of the compression functions, feeding a
    message to [sph_shavite*] in any pieces and closing with up to 7 extra bits gives the
    SHAvite-3 digest of the concatenation: the ring of key variables and the array of round
    keys are one key schedule, the carries between the counter words count the bits, and a
    last block without message bits is compressed with the counter 0.  The counter of the
    digest is taken modulo 2^64 for the small sizes and 2^128 for the big ones. *)
Theorem sph_shavite_streaming footprint rk1 rk2 junk1 junk2 pieces ub n :
  length rk1 = 16%nat -> length rk2 = 32%nat -> length junk1 = 64%nat -> length junk2 = 128%nat -> word 8 ub -> 0 <= n < 8 ->
  let m := concat pieces in
  (sph_shavite224_addbits_and_close footprint rk1 (foldl (sph_shavite224 footprint rk1) (sph_shavite224_init junk1) pieces) ub n).2 = shavite_digest 64 8 E256 IV224 7 m ub n /\
  (sph_shavite256_addbits_and_close footprint rk1 (foldl (sph_shavite256 footprint rk1) (sph_shavite256_init junk1) pieces) ub n).2 = shavite_digest 64 8 E256 IV256 8 m ub n /\
  (sph_shavite384_addbits_and_close footprint rk2 (foldl (sph_shavite384 footprint rk2) (sph_shavite384_init junk2) pieces) ub n).2 = shavite_digest 128 16 E512 IV384 12 m ub n /\
  (sph_shavite512_addbits_and_close footprint rk2 (foldl (sph_shavite512 footprint rk2) (sph_shavite512_init junk2) pieces) ub n).2 = shavite_digest 128 16 E512 IV512 16 m ub n.
Proof.
  intros H1 H2 H3 H4 Hub Hn m.
  assert (Hsnd : forall (x : shavite_ctx * list Z) f, (let '(cc, out) := x in (f cc, out) : shavite_ctx * list Z).2 = x.2) by (intros [x y] f; done).
  split; [|split; [|split]]; (etransitivity; [apply Hsnd|]).
  - by apply shavite_small_stream; try lia.
  - by apply shavite_small_stream; try lia.
  - by apply shavite_big_stream; try lia.
  - by apply shavite_big_stream; try lia.
Qed.
Lemma sph_shavite_streaming_witness :
  (sph_shavite512_addbits_and_close false (replicate 32 5) (foldl (sph_shavite512 false (replicate 32 5)) (sph_shavite512_init (replicate 128 9)) [[0x61]; replicate 120 0x62]) 0xA0 3).2
  = shavite_digest 128 16 E512 IV512 16 (concat [[0x61]; replicate 120 0x62]) 0xA0 3.
Proof.
  refine (proj2 (proj2 (proj2 (sph_shavite_streaming false (replicate 16 5) (replicate 32 5) (replicate 64 9) (replicate 128 9) [[0x61]; replicate 120 0x62] 0xA0 3 eq_refl eq_refl eq_refl eq_refl _ _)))); unfold word; lia.
Defined.

(** The empty message, as published. *)
Example shavite512_empty :
  take 8 (sph_shavite512_close true (replicate 32 0) (sph_shavite512_init (replicate 128 0))).2 = [0xA4; 0x85; 0xC1; 0xB2; 0x57; 0x84; 0x59; 0xD1].
Proof. vm_compute. reflexivity. Qed.

End Shavite.
