(* ===== verification/CnBlake.v ===== *)
(** * BLAKE-256 and BLAKE-224 in CryptoNight ([crypto/cn/c_blake256.c]).

    One of the four final hashes, with the HMAC functions of the file.  One call is
    shown to give the digest of [sph_blake.c]'s reference; further calls of the update
    function do so only from a block boundary. *)
From S2P Require Import Prelude Stream SphCore SphBlake CnAes.

Module CnBlake.

Definition U8TO32 (p : list Z) : Z :=
  Z.lor (Z.lor (Z.lor (shl32 (p !!! 0%nat) 24) (shl32 (p !!! 1%nat) 16)) (shl32 (p !!! 2%nat) 8)) (p !!! 3%nat).
Definition U32TO8 (v : Z) : list Z := [T8 (Z.shiftr v 24); T8 (Z.shiftr v 16); T8 (Z.shiftr v 8); T8 v].

Definition sigma : list (list nat) := [
  [0; 1; 2; 3; 4; 5; 6; 7; 8; 9; 10; 11; 12; 13; 14; 15]%nat;
  [14; 10; 4; 8; 9; 15; 13; 6; 1; 12; 0; 2; 11; 7; 5; 3]%nat;
  [11; 8; 12; 0; 5; 2; 15; 13; 10; 14; 3; 6; 7; 1; 9; 4]%nat;
  [7; 9; 3; 1; 13; 12; 11; 14; 2; 6; 5; 10; 4; 0; 15; 8]%nat;
  [9; 0; 5; 7; 2; 4; 10; 15; 14; 1; 11; 12; 6; 8; 3; 13]%nat;
  [2; 12; 6; 10; 0; 11; 8; 3; 4; 13; 7; 5; 15; 14; 1; 9]%nat;
  [12; 5; 1; 15; 14; 13; 4; 10; 0; 7; 6; 3; 9; 2; 8; 11]%nat;
  [13; 11; 7; 14; 12; 1; 3; 9; 5; 0; 15; 4; 8; 6; 2; 10]%nat;
  [6; 15; 14; 9; 11; 3; 0; 8; 12; 2; 13; 7; 1; 4; 10; 5]%nat;
  [10; 2; 8; 4; 7; 6; 1; 5; 15; 11; 9; 14; 3; 12; 13; 0]%nat;
  [0; 1; 2; 3; 4; 5; 6; 7; 8; 9; 10; 11; 12; 13; 14; 15]%nat;
  [14; 10; 4; 8; 9; 15; 13; 6; 1; 12; 0; 2; 11; 7; 5; 3]%nat;
  [11; 8; 12; 0; 5; 2; 15; 13; 10; 14; 3; 6; 7; 1; 9; 4]%nat;
  [7; 9; 3; 1; 13; 12; 11; 14; 2; 6; 5; 10; 4; 0; 15; 8]%nat].
Definition cst : list Z := [
  0x243F6A88; 0x85A308D3; 0x13198A2E; 0x03707344; 0xA4093822; 0x299F31D0; 0x082EFA98; 0xEC4E6C89;
  0x452821E6; 0x38D01377; 0xBE5466CF; 0x34E90C6C; 0xC0AC29B7; 0xC97C50DD; 0x3F84D5B5; 0xB5470917].
Definition padding : list Z := 0x80 :: replicate 63 0.

Record state := mk_state { h : list Z; s : list Z; t0 : Z; t1 : Z; buflen : Z; nullt : Z; buf : list Z }.

Definition ROT (x n : Z) : Z := Z.lor (shl32 x (32 - n)) (Z.shiftr x n).
Definition G (m : list Z) (i : nat) (a b c d e : nat) (v : list Z) : list Z :=
  let sg j := (sigma !!! i) !!! j in
  let v := <[a := T32 (v !!! a + T32 (Z.lxor (m !!! sg e) (cst !!! sg (e + 1)%nat) + v !!! b))]> v in
  let v := <[d := ROT (Z.lxor (v !!! d) (v !!! a)) 16]> v in
  let v := <[c := T32 (v !!! c + v !!! d)]> v in
  let v := <[b := ROT (Z.lxor (v !!! b) (v !!! c)) 12]> v in
  let v := <[a := T32 (v !!! a + T32 (Z.lxor (m !!! sg (e + 1)%nat) (cst !!! sg e) + v !!! b))]> v in
  let v := <[d := ROT (Z.lxor (v !!! d) (v !!! a)) 8]> v in
  let v := <[c := T32 (v !!! c + v !!! d)]> v in
  <[b := ROT (Z.lxor (v !!! b) (v !!! c)) 7]> v.
Definition round (m : list Z) (v : list Z) (i : nat) : list Z :=
  let v := G m i 0 4 8 12 0 v in
  let v := G m i 1 5 9 13 2 v in
  let v := G m i 2 6 10 14 4 v in
  let v := G m i 3 7 11 15 6 v in
  let v := G m i 3 4 9 14 14 v in
  let v := G m i 2 7 8 13 12 v in
  let v := G m i 0 5 10 15 8 v in
  G m i 1 6 11 12 10 v.
Definition set_h (S : state) (h' : list Z) : state := mk_state h' (s S) (t0 S) (t1 S) (buflen S) (nullt S) (buf S).
Definition blake256_compress (S : state) (block : list Z) : state :=
  let m := (fun i => U8TO32 (slice (4 * i) 4 block)) <$> seq 0 16 in
  let v := take 8 (h S) ++ [Z.lxor (s S !!! 0%nat) 0x243F6A88; Z.lxor (s S !!! 1%nat) 0x85A308D3; Z.lxor (s S !!! 2%nat) 0x13198A2E; Z.lxor (s S !!! 3%nat) 0x03707344;
    0xA4093822; 0x299F31D0; 0x082EFA98; 0xEC4E6C89] in
  let v := if nullt S =? 0 then
      <[15%nat := Z.lxor (v !!! 15%nat) (t1 S)]> (<[14%nat := Z.lxor (v !!! 14%nat) (t1 S)]>
        (<[13%nat := Z.lxor (v !!! 13%nat) (t0 S)]> (<[12%nat := Z.lxor (v !!! 12%nat) (t0 S)]> v)))
    else v in
  let v := foldl (round m) v (seq 0 14) in
  let h' := foldl (fun h i => <[(i mod 8)%nat := Z.lxor (h !!! (i mod 8)%nat) (v !!! i)]> h) (h S) (seq 0 16) in
  let h' := foldl (fun h i => <[i := Z.lxor (h !!! i) (s S !!! (i mod 4)%nat)]> h) h' (seq 0 8) in
  set_h S h'.

(** [S] on entry is what the structure holds; only the buffer stays. *)
Definition blake256_init (S : state) : state :=
  mk_state [0x6A09E667; 0xBB67AE85; 0x3C6EF372; 0xA54FF53A; 0x510E527F; 0x9B05688C; 0x1F83D9AB; 0x5BE0CD19] [0; 0; 0; 0] 0 0 0 0 (buf S).
Definition blake224_init (S : state) : state :=
  mk_state [0xC1059ED8; 0x367CD507; 0x3070DD17; 0xF70E5939; 0xFFC00B31; 0x68581511; 0x64F98FA7; 0xBEFA4FA4] [0; 0; 0; 0] 0 0 0 0 (buf S).

(** [S->t[0] += 512; if (S->t[0] == 0) S->t[1]++;] *)
Definition add_512 (S : state) : state :=
  let t := T32 (t0 S + 512) in
  mk_state (h S) (s S) t (if t =? 0 then T32 (t1 S + 1) else t1 S) (buflen S) (nullt S) (buf S).
Definition sub_t (S : state) (n : Z) : state := mk_state (h S) (s S) (T32 (t0 S - n)) (t1 S) (buflen S) (nullt S) (buf S).
Definition set_buf (S : state) (b : list Z) : state := mk_state (h S) (s S) (t0 S) (t1 S) (buflen S) (nullt S) b.
Definition set_buflen (S : state) (n : Z) : state := mk_state (h S) (s S) (t0 S) (t1 S) n (nullt S) (buf S).
Definition set_nullt (S : state) : state := mk_state (h S) (s S) (t0 S) (t1 S) (buflen S) 1 (buf S).
(** [while (datalen >= 512)]. *)
Fixpoint update_loop (fuel : nat) (S : state) (data : list Z) (datalen : Z) : state * list Z * Z :=
  match fuel with
  | O => (S, data, datalen)
  | Datatypes.S fuel =>
      if 512 <=? datalen then update_loop fuel (blake256_compress (add_512 S) (take 64 data)) (drop 64 data) (datalen - 512)
      else (S, data, datalen)
  end.
Definition blake256_update (S : state) (data : list Z) (datalen : Z) : state :=
  let left := Z.shiftr (buflen S) 3 in
  let fill := 64 - left in
  let '(S1, data, datalen, left') :=
    if negb (left =? 0) && (fill <=? Z.land (Z.shiftr datalen 3) 0x3F) then
      let S := set_buf S (memcpy (buf S) (Z.to_nat left) (take (Z.to_nat fill) data)) in
      let S := add_512 S in
      let S := blake256_compress S (buf S) in
      (S, drop (Z.to_nat fill) data, datalen - 8 * fill, 0)
    else (S, data, datalen, left) in
  let '(S2, data, datalen) := update_loop (Z.to_nat (datalen / 512) + 1) S1 data datalen in
  if 0 <? datalen then
    let S3 := set_buf S2 (memcpy (buf S2) (Z.to_nat left') (take (Z.to_nat (Z.shiftr datalen 3)) data)) in
    set_buflen S3 (8 * left' + datalen)
  else set_buflen S2 0.
Definition blake224_update : state -> list Z -> Z -> state := blake256_update.

(** The padding up to the length field. *)
Definition final_pad (S : state) (pa pb : Z) : state :=
  if buflen S =? 440 then
    let S := sub_t S 8 in
    blake256_update S [pa] 8
  else
    let S :=
      if buflen S <? 440 then
        let S := if buflen S =? 0 then set_nullt S else S in
        let S := sub_t S (440 - buflen S) in
        blake256_update S padding (440 - buflen S)
      else
        let S := sub_t S (512 - buflen S) in
        let S := blake256_update S padding (512 - buflen S) in
        let S := sub_t S 440 in
        let S := blake256_update S (drop 1 padding) 440 in
        set_nullt S in
    let S := blake256_update S [pb] 8 in
    sub_t S 8.
Definition blake256_final_h (S : state) (pa pb : Z) : state * list Z :=
  let lo := T32 (t0 S + buflen S) in
  let hi := if lo <? buflen S then T32 (t1 S + 1) else t1 S in
  let msglen := U32TO8 hi ++ U32TO8 lo in
  let S := final_pad S pa pb in
  let S := sub_t S 64 in
  let S := blake256_update S msglen 64 in
  (S, flat_map (fun i => U32TO8 (h S !!! i)) (seq 0 8)).
Definition blake256_final (S : state) : state * list Z := blake256_final_h S 0x81 0x01.
Definition blake224_final (S : state) : state * list Z := blake256_final_h S 0x80 0x00.

(** [S] is what the state on the stack holds. *)
Definition blake256_hash (S : state) (inp : list Z) : list Z :=
  (blake256_final (blake256_update (blake256_init S) inp (8 * Z.of_nat (length inp)))).2.
Definition blake224_hash (S : state) (inp : list Z) : list Z :=
  (blake224_final (blake224_update (blake224_init S) inp (8 * Z.of_nat (length inp)))).2.

Record hmac_state := mk_hmac { inner : state; outer : state }.
(** [memset(pad, c, 64); for (i = 0; i < keylen; ++i) pad[i] ^= key[i];] *)
Definition key_pad (c : Z) (key : list Z) (keylen : nat) : list Z :=
  foldl (fun pad i => <[i := Z.lxor (pad !!! i) (key !!! i)]> pad) (replicate 64 c) (seq 0 keylen).
Section Hmac.
Context (stk : state).                  (* the state on the stack of [blake256_hash] *)
Definition hmac_blake256_init (S : hmac_state) (key : list Z) : hmac_state :=
  let '(key, keylen) := if (64 <? length key)%nat then (blake256_hash stk key, 32%nat) else (key, length key) in
  mk_hmac (blake256_update (blake256_init (inner S)) (key_pad 0x36 key keylen) 512)
          (blake256_update (blake256_init (outer S)) (key_pad 0x5c key keylen) 512).
Definition hmac_blake224_init (S : hmac_state) (key : list Z) : hmac_state :=
  let '(key, keylen) := if (64 <? length key)%nat then (blake256_hash stk key, 28%nat) else (key, length key) in
  mk_hmac (blake224_update (blake224_init (inner S)) (key_pad 0x36 key keylen) 512)
          (blake224_update (blake224_init (outer S)) (key_pad 0x5c key keylen) 512).
Definition hmac_blake256_update (S : hmac_state) (data : list Z) (datalen : Z) : hmac_state := mk_hmac (blake256_update (inner S) data datalen) (outer S).
Definition hmac_blake224_update (S : hmac_state) (data : list Z) (datalen : Z) : hmac_state := mk_hmac (blake224_update (inner S) data datalen) (outer S).
Definition hmac_blake256_final (S : hmac_state) : hmac_state * list Z :=
  let '(i, ihash) := blake256_final (inner S) in
  let o := blake256_update (outer S) ihash 256 in
  let '(o, digest) := blake256_final o in
  (mk_hmac i o, digest).
Definition hmac_blake224_final (S : hmac_state) : hmac_state * list Z :=
  let '(i, ihash) := blake224_final (inner S) in
  let o := blake224_update (outer S) ihash 224 in
  let '(o, digest) := blake224_final o in
  (mk_hmac i o, digest).
Definition hmac_blake256_hash (S : hmac_state) (key inp : list Z) : list Z :=
  (hmac_blake256_final (hmac_blake256_update (hmac_blake256_init S key) inp (8 * Z.of_nat (length inp)))).2.
Definition hmac_blake224_hash (S : hmac_state) (key inp : list Z) : list Z :=
  (hmac_blake224_final (hmac_blake224_update (hmac_blake224_init S key) inp (8 * Z.of_nat (length inp)))).2.
End Hmac.

(** ** The compression function *)

Section Compress.
Context (c : bool).
Let k := Blake.small c.

Lemma U8TO32_be p : length p = 4%nat -> bytes p -> U8TO32 p = be_load 4 p.
Proof.
  intros Hl Hb. destruct p as [|b0 [|b1 [|b2 [|b3 [|]]]]]; try discriminate. unfold bytes in Hb. repeat rewrite list.Forall_cons in Hb. destruct Hb as (H0 & H1 & H2 & H3 & _).
  refine (eq_trans (gather4 b3 b2 b1 b0 _) eq_refl). unfold bytes. repeat rewrite list.Forall_cons. split_and!; [done..|by apply Forall_nil].
Qed.
Lemma ROT_rotr x n : ROT x n = rotr32 x n.
Proof. apply Z.lor_comm. Qed.
Lemma add_T32 a x b : T32 (a + T32 (x + b)) = T32 (a + b + x).
Proof. rewrite !T32_mod, Z.add_mod_idemp_r by lia. f_equal. lia. Qed.
(** Two sequences of statements that agree one by one. *)
Lemma steps_ext (v : list Z) (fs gs : list (list Z -> list Z)) :
  Forall2 (fun f g => forall v, f v = g v) fs gs -> foldl (fun v f => f v) v fs = foldl (fun v f => f v) v gs.
Proof. intros H. revert v. induction H as [|f g fs gs Hfg _ IH]; intros v; [done|]. cbn [foldl]. by rewrite Hfg, IH. Qed.
Lemma G_blake m i a b c' d e v :
  let sg j := (sigma !!! i) !!! j in
  G m i a b c' d e v = Blake.G k (m !!! sg e) (m !!! sg (e + 1)%nat) (cst !!! sg e) (cst !!! sg (e + 1)%nat) a b c' d v.
Proof.
  intros sg. assert (Ek : Blake.rot k = (16, 12, 8, 7) /\ Blake.Tw k = T32 /\ Blake.rotr k = rotr32) by (unfold k; by destruct c).
  unfold Blake.G. destruct Ek as (-> & -> & ->). cbv iota beta.
  refine (steps_ext v
    [(fun v => <[a := T32 (v !!! a + T32 (Z.lxor (m !!! sg e) (cst !!! sg (e + 1)%nat) + v !!! b))]> v);
     (fun v => <[d := ROT (Z.lxor (v !!! d) (v !!! a)) 16]> v); (fun v => <[c' := T32 (v !!! c' + v !!! d)]> v); (fun v => <[b := ROT (Z.lxor (v !!! b) (v !!! c')) 12]> v);
     (fun v => <[a := T32 (v !!! a + T32 (Z.lxor (m !!! sg (e + 1)%nat) (cst !!! sg e) + v !!! b))]> v);
     (fun v => <[d := ROT (Z.lxor (v !!! d) (v !!! a)) 8]> v); (fun v => <[c' := T32 (v !!! c' + v !!! d)]> v); (fun v => <[b := ROT (Z.lxor (v !!! b) (v !!! c')) 7]> v)]
    [(fun v => <[a := T32 (v !!! a + v !!! b + Z.lxor (m !!! sg e) (cst !!! sg (e + 1)%nat))]> v);
     (fun v => <[d := rotr32 (Z.lxor (v !!! d) (v !!! a)) 16]> v); (fun v => <[c' := T32 (v !!! c' + v !!! d)]> v); (fun v => <[b := rotr32 (Z.lxor (v !!! b) (v !!! c')) 12]> v);
     (fun v => <[a := T32 (v !!! a + v !!! b + Z.lxor (m !!! sg (e + 1)%nat) (cst !!! sg e))]> v);
     (fun v => <[d := rotr32 (Z.lxor (v !!! d) (v !!! a)) 8]> v); (fun v => <[c' := T32 (v !!! c' + v !!! d)]> v); (fun v => <[b := rotr32 (Z.lxor (v !!! b) (v !!! c')) 7]> v)] _).
  repeat constructor; intros w; rewrite ?ROT_rotr, ?add_T32; reflexivity.
Qed.
Lemma sigma_blake i : (i < 14)%nat -> sigma !!! i = Blake.sigma !!! i.
Proof. intros Hi. do 14 (destruct i as [|i]; [done|]). lia. Qed.
Lemma round_blake m v i : length v = 16%nat -> (i < 14)%nat -> round m v i = Blake.blake_round k m i v.
Proof.
  intros Hv Hi. unfold round. rewrite !G_blake. cbv zeta. unfold Blake.blake_round. rewrite <-(sigma_blake i Hi).
  assert (Ec : cst = Blake.Cx k) by (unfold k; by destruct c). rewrite Ec. generalize (sigma !!! i). intros sg. generalize k. clear - Hv. intros k.
  do 16 (destruct v as [|? v]; [discriminate|]). destruct v; [|discriminate]. clear Hv. destruct k as [wl tw rr [[[r1 r2] r3] r4] cx zx od].
  cbv [Blake.G Blake.quarter Blake.columns Blake.column Blake.rotate_rows Blake.Cx Blake.rot Blake.Tw Blake.rotr seq fmap list_fmap lookup_total list_lookup_total insert list_insert Nat.add Nat.mul Nat.div Nat.modulo Nat.divmod fst snd Nat.sub].
  exact eq_refl.
Qed.
Lemma rounds_blake m v n i :
  length v = 16%nat -> (i + n <= 14)%nat ->
  foldl (round m) v (seq i n) = foldl (fun v r => Blake.blake_round k m r v) v (seq i n) /\ length (foldl (round m) v (seq i n)) = 16%nat.
Proof.
  revert v i. induction n as [|n IH]; intros v i Hv Hi; [done|]. cbn [seq foldl]. rewrite round_blake by (done || lia). apply IH; [apply Blake.length_blake_round|lia].
Qed.
(** The bits counted for a block: none after [nullt] is set. *)
Definition bits (S : state) : Z := if nullt S =? 0 then t0 S + 2 ^ 32 * t1 S else 0.
Lemma compress_blake S block :
  length (h S) = 8%nat -> length (s S) = 4%nat -> word 32 (t0 S) -> length block = 64%nat -> bytes block ->
  blake256_compress S block = set_h S (Blake.blake_compress k (s S) (h S) (bits S) block).
Proof.
  intros Hh Hs Ht Hl Hb. unfold blake256_compress, Blake.blake_compress. cbv zeta.
  assert (Em : (fun i => U8TO32 (slice (4 * i) 4 block)) <$> seq 0 16 = (fun i => be_load (Blake.wlen k) (slice (Blake.wlen k * i) (Blake.wlen k) block)) <$> seq 0 16).
  { replace (Blake.wlen k) with 4%nat by (unfold k; by destruct c). apply list_fmap_ext. intros j i Hj. apply lookup_seq in Hj as [-> Hj].
    apply U8TO32_be; [rewrite length_slice; lia|by apply Forall_slice]. }
  rewrite Em. generalize ((fun i => be_load (Blake.wlen k) (slice (Blake.wlen k * i) (Blake.wlen k) block)) <$> seq 0 16). intros m. clear Em.
  assert (EW : Blake.W k = 2 ^ 32) by (unfold k; by destruct c). rewrite EW. assert (EC : take 8 (Blake.Cx k) = take 8 cst) by (unfold k; by destruct c). rewrite EC.
  assert (EO : length (Blake.order k) = 14%nat) by (unfold k; by destruct c). rewrite EO.
  set (v0 := if nullt S =? 0 then _ else _). set (w0 := h S ++ _). assert (Ev : v0 = w0).
  { unfold v0, w0, bits. clear - Hh Hs Ht. destruct (h S) as [|h0 [|h1 [|h2 [|h3 [|h4 [|h5 [|h6 [|h7 [|]]]]]]]]]; try discriminate.
    destruct (s S) as [|s0 [|s1 [|s2 [|s3 [|]]]]]; try discriminate. destruct (nullt S =? 0).
    - unfold word in Ht. rewrite (Z.mul_comm (2 ^ 32)), Z.mod_add, Z.div_add, Z.mod_small, Z.div_small by lia. cbn -[Z.lxor]. rewrite Z.add_0_l. rewrite !(Z.lxor_comm (t0 S)), !(Z.lxor_comm (t1 S)). reflexivity.
    - rewrite Z.mod_0_l, Z.div_0_l by lia. reflexivity. }
  rewrite Ev. assert (Hw : length w0 = 16%nat) by (unfold w0; rewrite length_app, length_zip_with, length_app, Hh, Hs; reflexivity).
  destruct (rounds_blake m w0 14 0 Hw ltac:(lia)) as [<- Hlv]. set (v := foldl (round m) w0 (seq 0 14)) in *. clearbody v. f_equal. clear - Hh Hs Hlv.
  destruct (h S) as [|h0 [|h1 [|h2 [|h3 [|h4 [|h5 [|h6 [|h7 [|]]]]]]]]]; try discriminate. destruct (s S) as [|s0 [|s1 [|s2 [|s3 [|]]]]]; try discriminate.
  do 16 (destruct v as [|? v]; [discriminate|]). destruct v; [|discriminate].
  assert (X : forall a b c d, Z.lxor (Z.lxor (Z.lxor a b) c) d = Z.lxor a (Z.lxor (Z.lxor d b) c)).
  { intros a b c' d. rewrite !Z.lxor_assoc. f_equal. by rewrite (Z.lxor_comm d), Z.lxor_assoc. }
  cbn -[Z.lxor]. by rewrite !X.
Qed.

(** ** The counter *)

Lemma k_ok : Blake.cfg_ok k.
Proof. apply Blake.small_ok. Qed.
Lemma k_bbits : Blake.bbits k = 512 /\ Blake.W k = 2 ^ 32 /\ Blake.blen k = 64%nat /\ Blake.wlen k = 4%nat.
Proof. unfold k. by destruct c. Qed.
Definition counts (S : state) (t : Z) : Prop := t0 S = t mod 2 ^ 32 /\ t1 S = t / 2 ^ 32.
Lemma counts_word S t : counts S t -> word 32 (t0 S).
Proof. intros [-> _]. apply Z.mod_pos_bound. lia. Qed.
Lemma counts_bits S t : counts S t -> nullt S = 0 -> bits S = t.
Proof. intros [E0 E1] Hn. unfold bits. rewrite Hn, E0, E1. cbn [Z.eqb]. pose proof (Z.div_mod t (2 ^ 32) ltac:(lia)). lia. Qed.
Lemma add_512_counts S t : counts S t -> 0 <= t -> t mod 512 = 0 -> t + 512 < 2 ^ 64 -> counts (add_512 S) (t + 512).
Proof.
  intros [E0 E1] Ht Hm Hlt. destruct k_bbits as (Hb & HW & _). pose proof (Blake.count_next k k_ok [] [] t Ht) as E. rewrite Hb, HW in E. specialize (E Hm ltac:(lia)).
  unfold Blake.count_block, Blake.at_bits in E. cbn [Blake.T0 Blake.T1 Blake.bH Blake.bS] in E. rewrite Hb, HW in E.
  assert (ETw : Blake.Tw k = T32) by (unfold k; by destruct c). rewrite ETw, <-E0, <-E1 in E. injection E as F0 F1. unfold counts, add_512. cbn [t0 t1]. split; [exact F0|].
  rewrite <-F1, F0. assert (Hd : ((t + 512) mod 2 ^ 32) mod 512 = 0).
  { apply Z.mod_divide; [lia|]. rewrite Z.mod_eq by lia. apply Z.divide_sub_r; [apply Z.divide_add_r; [by apply Z.mod_divide|by exists 1]|]. apply Z.divide_mul_l. exists (2 ^ 23). lia. }
  pose proof (Z.mod_pos_bound (t + 512) (2 ^ 32) ltac:(lia)) as Hr. set (r := (t + 512) mod 2 ^ 32) in *. clearbody r.
  destruct (Z.eqb_spec r 0) as [->|Hne]; [done|]. rewrite (proj2 (Z.ltb_ge r 512)); [done|]. destruct (Z_lt_dec r 512); [rewrite Z.mod_small in Hd by lia; lia|lia].
Qed.

(** ** Updates *)

Lemma chain_L sa hh L L' i bs :
  512 * Z.of_nat (length bs + i) <= L -> 512 * Z.of_nat (length bs + i) <= L' -> Blake.blake_chain k sa hh L i bs = Blake.blake_chain k sa hh L' i bs.
Proof.
  destruct k_bbits as (Hb & _). revert hh i. induction bs as [|b bs IH]; intros hh i HL HL'; [done|]. cbn [Blake.blake_chain length] in *.
  assert (Ec : forall M, 512 * Z.of_nat (S (length bs) + i) <= M -> Blake.counter k M i = 512 * Z.of_nat (S i)).
  { intros M HM. unfold Blake.counter. rewrite Hb, (proj2 (Z.ltb_lt _ _)) by lia. apply Z.min_r. lia. }
  rewrite !Ec by done. apply IH; lia.
Qed.
(** The parts of a state that updates keep. *)
Definition wf (S : state) : Prop := length (h S) = 8%nat /\ s S = [0; 0; 0; 0] /\ length (buf S) = 64%nat /\ bytes (buf S).
Lemma wf_compress S block :
  wf S -> word 32 (t0 S) -> length block = 64%nat -> bytes block ->
  blake256_compress S block = set_h S (Blake.blake_compress k [0; 0; 0; 0] (h S) (bits S) block) /\ wf (blake256_compress S block).
Proof.
  intros (Hh & Hs & Hbl & Hbb) Ht Hl Hb. rewrite compress_blake by (done || by rewrite Hs). rewrite Hs. split; [done|].
  split_and!; try done. cbn [set_h h]. apply Blake.length_compress; [apply k_ok|done|done].
Qed.
Lemma loop_ref fuel S data i :
  wf S -> nullt S = 0 -> counts S (512 * Z.of_nat i) -> bytes data -> 512 * Z.of_nat (i + length data / 64) < 2 ^ 64 -> (length data < 64 * fuel)%nat ->
  let q := (length data / 64)%nat in
  exists S', update_loop fuel S data (8 * Z.of_nat (length data)) = (S', drop (64 * q) data, 8 * Z.of_nat (length data mod 64)) /\
    wf S' /\ nullt S' = 0 /\ counts S' (512 * Z.of_nat (i + q)) /\ buf S' = buf S /\ buflen S' = buflen S /\
    forall L, 512 * Z.of_nat (i + q) <= L -> h S' = Blake.blake_chain k [0; 0; 0; 0] (h S) L i (blocks 64 data).
Proof.
  revert S data i. induction fuel as [|fuel IH]; intros S data i Hw Hn Hc Hd HL Hf q; [lia|]. cbn [update_loop].
  pose proof (Nat.div_mod_eq (length data) 64) as Hdm. pose proof (Nat.mod_upper_bound (length data) 64 ltac:(lia)) as Hm.
  destruct (Z.leb_spec 512 (8 * Z.of_nat (length data))) as [Hge|Hlt].
  - assert (Hq : (length data / 64 = 1 + length (drop 64 data) / 64)%nat).
    { rewrite length_drop. replace (length data) with (length data - 64 + 1 * 64)%nat at 1 by lia. rewrite Nat.div_add by lia. lia. }
    assert (Hmm : (length data mod 64 = length (drop 64 data) mod 64)%nat).
    { rewrite length_drop. replace (length data) with (length data - 64 + 1 * 64)%nat at 1 by lia. apply Nat.Div0.mod_add. }
    assert (Hlt64 : length (take 64 data) = 64%nat) by (rewrite length_take; lia).
    assert (Hc1 : counts (add_512 S) (512 * Z.of_nat (i + 1))).
    { replace (512 * Z.of_nat (i + 1)) with (512 * Z.of_nat i + 512) by lia. apply add_512_counts; [done|lia|rewrite Z.mul_comm; apply Z.mod_mul; lia|lia]. }
    destruct (wf_compress (add_512 S) (take 64 data) Hw (counts_word _ _ Hc1) Hlt64 ltac:(by apply Forall_take)) as [E1 Hw1].
    replace (8 * Z.of_nat (length data) - 512) with (8 * Z.of_nat (length (drop 64 data))) by (rewrite length_drop; lia).
    destruct (IH (blake256_compress (add_512 S) (take 64 data)) (drop 64 data) (i + 1)%nat) as (S' & -> & Hw' & Hn' & Hc' & Eb & El & Eh).
    { done. } { by rewrite E1. } { by rewrite E1. } { by apply Forall_drop. } { rewrite Hq in HL. replace (i + 1 + length (drop 64 data) / 64)%nat with (i + (1 + length (drop 64 data) / 64))%nat by lia. done. }
    { rewrite length_drop. lia. }
    exists S'. unfold q. rewrite Hq, Hmm, drop_drop. split; [do 2 f_equal; f_equal; lia|]. split; [done|]. split; [done|].
    replace (i + (1 + length (drop 64 data) / 64))%nat with (i + 1 + length (drop 64 data) / 64)%nat by lia. split; [done|].
    split; [by rewrite Eb, E1|]. split; [by rewrite El, E1|]. intros L HL'. rewrite (Eh L HL'), E1. cbn [set_h h]. change (h (add_512 S)) with (h S).
    rewrite (counts_bits _ _ Hc1 Hn). rewrite <-(take_drop 64 data) at 3. rewrite blocks_app by (lia || (rewrite Hlt64; exact eq_refl)). rewrite (blocks_one 64 (take 64 data)) by lia.
    cbn [app Blake.blake_chain]. replace (1 + i)%nat with (i + 1)%nat by lia. f_equal. f_equal. unfold Blake.counter. destruct k_bbits as (-> & _).
    rewrite (proj2 (Z.ltb_lt _ _)) by lia. rewrite Z.min_r by lia. lia.
  - exists S. unfold q. rewrite (Nat.div_small (length data)), (Nat.mod_small (length data)) by lia. rewrite Nat.mul_0_r, drop_0, Nat.add_0_r. split; [done|]. split_and!; try done.
    intros L _. by rewrite blocks_short by lia.
Qed.

(** The state after the message [m], from the initial value [iv]. *)
Definition after (iv : list Z) (S : state) (m : list Z) : Prop :=
  wf S /\ nullt S = 0 /\ counts S (512 * Z.of_nat (length m / 64)) /\ buflen S = 8 * Z.of_nat (length m mod 64) /\
  take (length m mod 64) (buf S) = leftover 64 m /\
  forall L, 512 * Z.of_nat (length m / 64) <= L -> h S = Blake.blake_chain k [0; 0; 0; 0] iv L 0 (blocks 64 m).
Lemma left_shift l : Z.shiftr (8 * Z.of_nat l) 3 = Z.of_nat l.
Proof. rewrite Z.shiftr_div_pow2, Z.mul_comm by lia. by apply Z.div_mul. Qed.
Lemma land_63 n : (n < 64)%nat -> Z.land (Z.of_nat n) 0x3F = Z.of_nat n.
Proof. intros Hn. change 0x3F with (Z.ones 6). rewrite Z.land_ones by lia. apply Z.mod_small. lia. Qed.
(** From a block boundary any data is absorbed. *)
Lemma update_aligned iv S m data :
  after iv S m -> (length m mod 64 = 0)%nat -> bytes data -> 8 * Z.of_nat (length m + length data) < 2 ^ 64 ->
  after iv (blake256_update S data (8 * Z.of_nat (length data))) (m ++ data).
Proof.
  intros (Hw & Hn & Hc & Hbl & _ & Hh) Hm Hd HL. rewrite Hm in Hbl. unfold blake256_update. rewrite Hbl. change (Z.shiftr (8 * Z.of_nat 0) 3) with 0. cbn [Z.eqb negb andb].
  pose proof (Nat.div_mod_eq (length m) 64) as Hdm. pose proof (Nat.div_mod_eq (length data) 64) as Hdd. pose proof (Nat.mod_upper_bound (length data) 64 ltac:(lia)) as Hr.
  assert (Hq : Z.to_nat (8 * Z.of_nat (length data) / 512) = (length data / 64)%nat).
  { change 512 with (8 * 64). rewrite Z.div_mul_cancel_l by lia. rewrite <-(Nat2Z.inj_div _ 64). apply Nat2Z.id. }
  rewrite Hq. destruct (loop_ref (length data / 64 + 1) S data (length m / 64) Hw Hn Hc Hd) as (S' & -> & Hw' & Hn' & Hc' & Eb & El & Eh); [lia|lia|].
  set (i := (length m / 64)%nat) in *. set (q := (length data / 64)%nat) in *. set (r := (length data mod 64)%nat) in *.
  assert (Hmd : (length (m ++ data) / 64 = i + q)%nat) by (rewrite length_app; symmetry; apply (Nat.div_unique _ 64 _ r); lia).
  assert (Hmm : (length (m ++ data) mod 64 = r)%nat) by (rewrite length_app; symmetry; apply (Nat.mod_unique _ 64 (i + q)); lia).
  assert (Hlo : leftover 64 (m ++ data) = drop (64 * q) data).
  { unfold leftover. rewrite Hmd, drop_app_ge by lia. f_equal. lia. }
  assert (Hch : forall L, 512 * Z.of_nat (i + q) <= L -> h S' = Blake.blake_chain k [0; 0; 0; 0] iv L 0 (blocks 64 (m ++ data))).
  { intros L HL'. rewrite (Eh L HL'), (Hh L) by lia. rewrite blocks_app by (lia || done). rewrite Blake.chain_app, length_blocks_div by lia. by rewrite Nat.add_0_r. }
  unfold after. rewrite Hmd, Hmm, Hlo. destruct Hw' as (W1 & W2 & W3 & W4). destruct (Z.ltb_spec 0 (8 * Z.of_nat r)) as [Hp|Hz].
  - rewrite left_shift, Nat2Z.id. change (Z.to_nat 0) with 0%nat. rewrite (take_ge (drop (64 * q) data)) by (rewrite length_drop; lia).
    cbn [set_buflen set_buf h s t0 t1 buflen nullt buf]. assert (Hld : length (drop (64 * q) data) = r) by (rewrite length_drop; lia). split_and!; try done.
    + split_and!; cbn [set_buflen set_buf h s buf]; [done|done|rewrite length_memcpy; lia|]. apply Forall_memcpy; [done|by apply Forall_drop].
    + pose proof (take_memcpy (buf S') 0 (drop (64 * q) data) ltac:(lia)) as E. rewrite Hld in E. exact E.
  - assert (Hr0 : r = 0%nat) by lia. rewrite Hr0. cbn [set_buflen set_buf h s t0 t1 buflen nullt buf]. split_and!; try done. rewrite drop_ge by lia. done.
Qed.
(** Data that does not complete the buffer, and data that does exactly. *)
Lemma update_short S l data n dl :
  buflen S = 8 * Z.of_nat l -> dl = 8 * Z.of_nat n -> (l + n < 64)%nat -> (0 < n)%nat ->
  blake256_update S data dl = set_buflen (set_buf S (memcpy (buf S) l (take n data))) (8 * Z.of_nat (l + n)).
Proof.
  intros Hb -> Hl Hn. unfold blake256_update. rewrite Hb, !left_shift, land_63 by lia. rewrite (proj2 (Z.leb_gt (64 - Z.of_nat l) (Z.of_nat n))) by lia. rewrite andb_false_r.
  rewrite (Z.div_small (8 * Z.of_nat n)) by lia. change (Z.to_nat 0 + 1)%nat with 1%nat. cbn [update_loop]. rewrite (proj2 (Z.leb_gt 512 _)) by lia.
  rewrite (proj2 (Z.ltb_lt 0 (8 * Z.of_nat n))) by lia. rewrite left_shift, !Nat2Z.id. f_equal. lia.
Qed.
Lemma cn_update_fill S l data dl :
  buflen S = 8 * Z.of_nat l -> dl = 8 * Z.of_nat (64 - l) -> (0 < l < 64)%nat ->
  let S1 := set_buf S (memcpy (buf S) l (take (64 - l) data)) in
  blake256_update S data dl = set_buflen (blake256_compress (add_512 S1) (buf S1)) 0.
Proof.
  intros Hb -> Hl S1. unfold blake256_update. rewrite Hb, !left_shift, land_63 by lia. rewrite (proj2 (Z.leb_le (64 - Z.of_nat l) (Z.of_nat (64 - l)))) by lia.
  rewrite (proj2 (Z.eqb_neq (Z.of_nat l) 0)) by lia. cbn [negb andb]. replace (8 * Z.of_nat (64 - l) - 8 * (64 - Z.of_nat l)) with 0 by lia.
  change (Z.to_nat (0 / 512) + 1)%nat with 1%nat. cbn [update_loop Z.leb Z.compare Z.ltb]. replace (Z.to_nat (64 - Z.of_nat l)) with (64 - l)%nat by lia. by rewrite Nat2Z.id.
Qed.

(** ** Closing *)

Lemma T32_sub x y : T32 (T32 x - y) = T32 (x - y).
Proof. rewrite !T32_mod. apply Zminus_mod_idemp_l. Qed.
Lemma T32_add x y : T32 (T32 x + y) = T32 (x + y).
Proof. rewrite !T32_mod. apply Zplus_mod_idemp_l. Qed.
Lemma h_set_buflen S n : h (set_buflen S n) = h S.
Proof. done. Qed.
Lemma buf_set_buf S b : buf (set_buf S b) = b.
Proof. done. Qed.
Lemma buf_sub_t S n : buf (sub_t S n) = buf S.
Proof. done. Qed.
Lemma h_set_h S x : h (set_h S x) = x.
Proof. done. Qed.
Lemma last_update S msg :
  buflen S = 448 -> length msg = 8%nat ->
  h (blake256_update (sub_t S 64) msg 64) = h (blake256_compress (add_512 (set_buf (sub_t S 64) (memcpy (buf S) 56 msg))) (memcpy (buf S) 56 msg)).
Proof.
  intros Hbl Hm. assert (Hd : 64 = 8 * Z.of_nat (64 - 56)) by lia. assert (Hb : buflen (sub_t S 64) = 8 * Z.of_nat 56) by (cbn [sub_t buflen]; lia).
  pose proof (cn_update_fill (sub_t S 64) 56 msg 64 Hb Hd ltac:(lia)) as E. cbv zeta in E. rewrite (take_ge msg) in E by lia. by rewrite E, h_set_buflen, buf_set_buf, buf_sub_t.
Qed.
Lemma last_block S B0 msg :
  wf S -> word 32 (t0 S) -> buflen S = 448 -> take 56 (buf S) = B0 -> length msg = 8%nat -> bytes msg ->
  h (blake256_update (sub_t S 64) msg 64) = Blake.blake_compress k [0; 0; 0; 0] (h S) (bits (add_512 (sub_t S 64))) (B0 ++ msg).
Proof.
  intros (W1 & W2 & W3 & W4) Ht Hbl Hb Hm Hmb. rewrite (last_update S msg Hbl Hm).
  assert (E : memcpy (buf S) 56 msg = B0 ++ msg) by (rewrite take_memcpy_all by lia; by rewrite Hb). rewrite E.
  assert (Hl : length (B0 ++ msg) = 64%nat) by (rewrite <-E, length_memcpy; lia). assert (Hbb : bytes (B0 ++ msg)) by (rewrite <-E; by apply Forall_memcpy).
  set (X := add_512 _). assert (HX : wf X) by (split_and!; done). assert (Ht' : word 32 (t0 X)) by apply word_T32.
  assert (EX : h X = h S /\ bits X = bits (add_512 (sub_t S 64))) by done. clearbody X. destruct EX as [<- <-].
  destruct (wf_compress X (B0 ++ msg) HX Ht' Hl Hbb) as [-> _]. by rewrite h_set_h.
Qed.
Lemma pad_mid_long fl p : (2 <= p)%nat -> Blake.pad_mid 0 0 fl p = 0x80 :: replicate (p - 2) 0 ++ [Z.lor 0 fl].
Proof.
  intros Hp. unfold Blake.pad_mid. change (last_bits 0 0) with 0x80. destruct p as [|[|n]]; [lia|lia|]. cbn [Nat.sub]. rewrite Nat.sub_0_r.
  change (0x80 :: replicate (S n) 0) with ([0x80] ++ (0 :: replicate n 0)). rewrite replicate_cons_app, app_assoc.
  assert (Hl : length ([0x80] ++ replicate n 0) = S n) by (cbn; by rewrite length_replicate). rewrite <-Hl at 1. rewrite <-(Nat.add_0_r (length _)). rewrite alter_app_r. done.
Qed.
Lemma pad_mid_one fl : Blake.pad_mid 0 0 fl 1 = [Z.lor 0x80 fl].
Proof. done. Qed.

(** The counter words after [t[0] -= ...] and the next block. *)
Lemma counts_back i r :
  (0 < r < 64)%nat -> let t := 512 * Z.of_nat i in
  T32 (t mod 2 ^ 32 + 8 * Z.of_nat r) = (t + 8 * Z.of_nat r) mod 2 ^ 32 /\ t / 2 ^ 32 = (t + 8 * Z.of_nat r) / 2 ^ 32 /\ (t + 8 * Z.of_nat r) mod 2 ^ 32 <> 0 /\
  T32 (t mod 2 ^ 32 + 8 * Z.of_nat r) = t mod 2 ^ 32 + 8 * Z.of_nat r.
Proof.
  intros Hr t. assert (Et : t mod 2 ^ 32 = 512 * (Z.of_nat i mod 2 ^ 23)) by (unfold t; change (2 ^ 32) with (512 * 2 ^ 23); apply Z.mul_mod_distr_l; lia).
  pose proof (Z.mod_pos_bound (Z.of_nat i) (2 ^ 23) ltac:(lia)) as Hb. pose proof (Z.div_mod t (2 ^ 32) ltac:(lia)) as Hd.
  assert (Em : (t + 8 * Z.of_nat r) mod 2 ^ 32 = t mod 2 ^ 32 + 8 * Z.of_nat r) by (symmetry; apply (Z.mod_unique _ _ (t / 2 ^ 32)); lia).
  assert (Ed : t / 2 ^ 32 = (t + 8 * Z.of_nat r) / 2 ^ 32) by (apply (Z.div_unique _ _ _ (t mod 2 ^ 32 + 8 * Z.of_nat r)); lia).
  rewrite T32_id by (unfold word; lia). split_and!; [by rewrite Em|done|lia|done].
Qed.

Lemma insert_bytes b l d : (l + length d <= length b)%nat -> length (memcpy b l d) = length b /\ take (l + length d) (memcpy b l d) = take l b ++ d.
Proof. intros H. split; [by apply length_memcpy|apply take_memcpy; lia]. Qed.
(** [S2] before the length field: the chaining value of [S], [448 - 8 r] bits taken off the counter. *)
Definition padded (S S2 : state) (r : nat) (nl : Z) (B0 : list Z) : Prop :=
  wf S2 /\ h S2 = h S /\ buflen S2 = 448 /\ nullt S2 = nl /\ t0 S2 = T32 (t0 S - (448 - 8 * Z.of_nat r)) /\ t1 S2 = t1 S /\ take 56 (buf S2) = B0.
Lemma pad_55 S fl B :
  wf S -> buflen S = 440 -> nullt S = 0 -> take 55 (buf S) = B -> word 8 (Z.lor 0x80 fl) ->
  padded S (final_pad S (Z.lor 0x80 fl) (Z.lor 0 fl)) 55 0 (B ++ [Z.lor 0x80 fl]).
Proof.
  intros (W1 & W2 & W3 & W4) Hbl Hn Hb Hpa. unfold final_pad. rewrite Hbl. cbn [Z.eqb Pos.eqb]. cbv zeta.
  assert (Hbl' : buflen (sub_t S 8) = 8 * Z.of_nat 55) by (cbn [sub_t buflen]; lia).
  rewrite (update_short (sub_t S 8) 55 [Z.lor 0x80 fl] 1 8 Hbl' ltac:(lia) ltac:(lia) ltac:(lia)). cbn [take].
  destruct (insert_bytes (buf S) 55 [Z.lor 0x80 fl]) as [H1 H2]; [cbn; lia|]. cbn [length Nat.add] in H2. rewrite Hb in H2.
  destruct S as [hh ss tt0 tt1 bl nn bb]. cbn [h s t0 t1 buflen nullt buf set_buflen set_buf sub_t] in *. unfold padded, wf. cbn [h s t0 t1 buflen nullt buf set_buflen set_buf sub_t].
  assert (Hb' : bytes (memcpy bb 55 [Z.lor 0x80 fl])) by (apply Forall_memcpy; [done|by apply Forall_singleton]). split_and!; try done; lia.
Qed.
Lemma pad_less S fl r B :
  wf S -> buflen S = 8 * Z.of_nat r -> (r < 55)%nat -> nullt S = 0 -> take r (buf S) = B -> word 8 (Z.lor 0 fl) ->
  padded S (final_pad S (Z.lor 0x80 fl) (Z.lor 0 fl)) r (if (r =? 0)%nat then 1 else 0) (B ++ 0x80 :: replicate (54 - r) 0 ++ [Z.lor 0 fl]).
Proof.
  intros (W1 & W2 & W3 & W4) Hbl Hr Hn Hb Hpb. unfold final_pad. rewrite Hbl, (proj2 (Z.eqb_neq _ 440)), (proj2 (Z.ltb_lt _ 440)) by lia. cbv zeta.
  set (S1 := if 8 * Z.of_nat r =? 0 then set_nullt S else S).
  assert (E1 : h S1 = h S /\ s S1 = s S /\ t0 S1 = t0 S /\ t1 S1 = t1 S /\ buflen S1 = 8 * Z.of_nat r /\ nullt S1 = (if (r =? 0)%nat then 1 else 0) /\ buf S1 = buf S).
  { unfold S1. destruct (Z.eqb_spec (8 * Z.of_nat r) 0); destruct (Nat.eqb_spec r 0); try lia; done. }
  clearbody S1. destruct E1 as (F1 & F2 & F3 & F4 & F5 & F6 & F7). rewrite F5.
  assert (Hbl1 : buflen (sub_t S1 (440 - 8 * Z.of_nat r)) = 8 * Z.of_nat r) by exact F5. rewrite Hbl1.
  rewrite (update_short (sub_t S1 (440 - 8 * Z.of_nat r)) r padding (55 - r) (440 - 8 * Z.of_nat r) Hbl1 ltac:(lia) ltac:(lia) ltac:(lia)).
  assert (Ep : take (55 - r) padding = 0x80 :: replicate (54 - r) 0).
  { unfold padding. replace (55 - r)%nat with (Datatypes.S (54 - r)) by lia. cbn [take]. rewrite take_replicate. do 2 f_equal. lia. }
  rewrite Ep. set (d := 0x80 :: replicate (54 - r) 0). assert (Hd : length d = (55 - r)%nat) by (unfold d; cbn [length]; rewrite length_replicate; lia).
  assert (Hdb : bytes d) by (apply Forall_cons_2; [unfold word; lia|by apply Forall_replicate, word_0]).
  set (S2 := set_buflen _ _). assert (Hbl2 : buflen S2 = 8 * Z.of_nat 55) by (unfold S2; cbn [set_buflen buflen]; lia).
  rewrite (update_short S2 55 [Z.lor 0 fl] 1 8 Hbl2 ltac:(lia) ltac:(lia) ltac:(lia)). cbn [take].
  destruct (insert_bytes (buf S) r d) as [H1 H2]; [lia|]. rewrite Hb in H2. replace (r + length d)%nat with 55%nat in H2 by lia.
  assert (E2 : buf S2 = memcpy (buf S) r d) by (unfold S2; cbn [set_buflen set_buf sub_t buf]; by rewrite F7). rewrite E2.
  destruct (insert_bytes (memcpy (buf S) r d) 55 [Z.lor 0 fl]) as [H3 H4]; [cbn; lia|]. cbn [length Nat.add] in H4. rewrite H2 in H4.
  set (bb := memcpy (memcpy (buf S) r d) 55 [Z.lor 0 fl]) in *. assert (Hbb : bytes bb) by (apply Forall_memcpy; [by apply Forall_memcpy|by apply Forall_singleton]). clearbody bb.
  unfold padded, wf, S2. cbn [h s t0 t1 buflen nullt buf set_buflen set_buf sub_t]. rewrite F1, F2, F3, F4, F6, T32_sub.
  split_and!; try done; try lia; [f_equal; lia|]. rewrite H4. unfold d. by rewrite <-app_assoc.
Qed.
Lemma bits_back S d i r :
  counts S (512 * Z.of_nat i) -> (0 < r < 64)%nat -> nullt S = 0 ->
  bits (add_512 (set_buf (sub_t S (512 - 8 * Z.of_nat r)) d)) = 512 * Z.of_nat i + 8 * Z.of_nat r.
Proof.
  intros [E0 E1] Hr Hn. destruct (counts_back i r Hr) as (B1 & B2 & B3 & B4). unfold bits, add_512. cbn [sub_t set_buf nullt t0 t1]. rewrite Hn, T32_add, E0, E1.
  replace ((512 * Z.of_nat i) mod 2 ^ 32 - (512 - 8 * Z.of_nat r) + 512) with ((512 * Z.of_nat i) mod 2 ^ 32 + 8 * Z.of_nat r) by lia.
  rewrite B1, (proj2 (Z.eqb_neq _ 0) B3). cbn [Z.eqb]. rewrite B2. pose proof (Z.div_mod (512 * Z.of_nat i + 8 * Z.of_nat r) (2 ^ 32) ltac:(lia)). lia.
Qed.
Lemma pad_more S fl i r B :
  wf S -> buflen S = 8 * Z.of_nat r -> (55 < r < 64)%nat -> nullt S = 0 -> counts S (512 * Z.of_nat i) -> take r (buf S) = B -> word 8 (Z.lor 0 fl) ->
  let S2 := final_pad S (Z.lor 0x80 fl) (Z.lor 0 fl) in
  wf S2 /\ h S2 = Blake.blake_compress k [0; 0; 0; 0] (h S) (512 * Z.of_nat i + 8 * Z.of_nat r) (B ++ 0x80 :: replicate (63 - r) 0) /\
  word 32 (t0 S2) /\ buflen S2 = 448 /\ nullt S2 = 1 /\ take 56 (buf S2) = replicate 55 0 ++ [Z.lor 0 fl].
Proof.
  intros Hwf Hbl Hr Hn Hc Hb Hpb. destruct Hwf as (W1 & W2 & W3 & W4). unfold final_pad. rewrite Hbl, (proj2 (Z.eqb_neq _ 440)), (proj2 (Z.ltb_ge _ 440)) by lia. cbv zeta.
  assert (Hbl1 : buflen (sub_t S (512 - 8 * Z.of_nat r)) = 8 * Z.of_nat r) by exact Hbl. rewrite Hbl1.
  rewrite (cn_update_fill (sub_t S (512 - 8 * Z.of_nat r)) r padding (512 - 8 * Z.of_nat r) Hbl1 ltac:(lia) ltac:(lia)).
  assert (Ep : take (64 - r) padding = 0x80 :: replicate (63 - r) 0).
  { unfold padding. replace (64 - r)%nat with (Datatypes.S (63 - r)) by lia. cbn [take]. rewrite take_replicate. do 2 f_equal. lia. }
  rewrite Ep, buf_set_buf, buf_sub_t. set (d := 0x80 :: replicate (63 - r) 0). assert (Hd : length d = (64 - r)%nat) by (unfold d; cbn [length]; rewrite length_replicate; lia).
  assert (Hdb : bytes d) by (apply Forall_cons_2; [unfold word; lia|by apply Forall_replicate, word_0]).
  assert (Eb : memcpy (buf S) r d = B ++ d) by (rewrite take_memcpy_all by lia; by rewrite Hb). rewrite Eb.
  assert (Hl : length (B ++ d) = 64%nat) by (rewrite <-Eb, length_memcpy; lia). assert (Hbb : bytes (B ++ d)) by (rewrite <-Eb; by apply Forall_memcpy).
  pose proof (bits_back S (B ++ d) i r Hc ltac:(lia) Hn) as Ebits.
  set (X := add_512 (set_buf (sub_t S (512 - 8 * Z.of_nat r)) (B ++ d))) in *. assert (HX : wf X) by (split_and!; done). assert (Ht' : word 32 (t0 X)) by apply word_T32.
  assert (EX : h X = h S /\ nullt X = 0 /\ buf X = B ++ d) by done. destruct EX as (X1 & X2 & X3). clearbody X.
  destruct (wf_compress X (B ++ d) HX Ht' Hl Hbb) as [EC HC]. rewrite X1, Ebits in EC.
  set (Y := blake256_compress X (B ++ d)) in *. assert (EY : h Y = Blake.blake_compress k [0; 0; 0; 0] (h S) (512 * Z.of_nat i + 8 * Z.of_nat r) (B ++ d)) by (rewrite EC; apply h_set_h). clearbody Y. clear EC.
  set (S3 := sub_t (set_buflen Y 0) 440). assert (Hbl3 : buflen S3 = 8 * Z.of_nat 0) by done.
  rewrite (update_short S3 0 (drop 1 padding) 55 440 Hbl3 ltac:(lia) ltac:(lia) ltac:(lia)).
  change (take 55 (drop 1 padding)) with (replicate 55 0). set (S4 := set_nullt _). assert (Hbl4 : buflen S4 = 8 * Z.of_nat 55) by done.
  rewrite (update_short S4 55 [Z.lor 0 fl] 1 8 Hbl4 ltac:(lia) ltac:(lia) ltac:(lia)). cbn [take].
  destruct HC as (V1 & V2 & V3 & V4). assert (E4 : buf S4 = memcpy (buf Y) 0 (replicate 55 0)) by done. rewrite E4.
  assert (H0 : bytes (replicate 55 0)) by by apply Forall_replicate, word_0.
  destruct (insert_bytes (buf Y) 0 (replicate 55 0)) as [H1 H2]; [rewrite length_replicate; lia|]. rewrite length_replicate in H2. cbn [Nat.add] in H2. change (take 0 (buf Y) ++ replicate 55 0) with (replicate 55 0) in H2.
  destruct (insert_bytes (memcpy (buf Y) 0 (replicate 55 0)) 55 [Z.lor 0 fl]) as [H3 H4]; [cbn [length]; lia|]. cbn [length] in H4. change (55 + 1)%nat with 56%nat in H4. rewrite H2 in H4.
  set (bb := memcpy (memcpy (buf Y) 0 (replicate 55 0)) 55 [Z.lor 0 fl]) in *. assert (Hb4 : bytes bb) by (apply Forall_memcpy; [by apply Forall_memcpy|by apply Forall_singleton]). clearbody bb.
  unfold wf, S4, S3. cbn [h s t0 t1 buflen nullt buf set_buflen set_buf set_nullt sub_t]. split_and!; try done; [lia|apply word_T32].
Qed.
Lemma msglen_ref S i r :
  counts S (512 * Z.of_nat i) -> buflen S = 8 * Z.of_nat r -> (r < 64)%nat ->
  let lo := T32 (t0 S + buflen S) in
  let hi := if lo <? buflen S then T32 (t1 S + 1) else t1 S in
  U32TO8 hi ++ U32TO8 lo = be_store 8 (512 * Z.of_nat i + 8 * Z.of_nat r).
Proof.
  intros [E0 E1] Hbl Hr lo hi. destruct k_bbits as (Hb & HW & _ & Hwl).
  pose proof (Blake.length_field k k_ok (512 * Z.of_nat i) (8 * Z.of_nat r)) as F. rewrite Hb, HW, Hwl in F.
  specialize (F ltac:(lia) ltac:(rewrite Z.mul_comm; apply Z.mod_mul; lia) ltac:(lia)). assert (ETw : Blake.Tw k = T32) by (unfold k; by destruct c). rewrite ETw, <-E0, <-E1, <-Hbl in F.
  fold lo in F. assert (Ehi : hi = t1 S).
  { unfold hi. rewrite (proj2 (Z.ltb_ge lo (buflen S))); [done|]. unfold lo. rewrite Hbl, E0. destruct (Nat.eq_dec r 0) as [->|Hne].
    - change (8 * Z.of_nat 0) with 0. rewrite Z.add_0_r, T32_mod, Z.mod_mod by lia. apply Z.mod_pos_bound. lia.
    - destruct (counts_back i r ltac:(lia)) as (_ & _ & _ & ->). pose proof (Z.mod_pos_bound (512 * Z.of_nat i) (2 ^ 32) ltac:(lia)). lia. }
  rewrite Ehi, <-Hbl. exact F.
Qed.
Lemma final_ref iv S m fl :
  after iv S m -> length iv = 8%nat -> bytes m -> fl = 0 \/ fl = 1 -> 8 * Z.of_nat (length m) < 2 ^ 64 ->
  h (blake256_final_h S (Z.lor 0x80 fl) (Z.lor 0 fl)).1
  = Blake.blake_chain k [0; 0; 0; 0] iv (8 * Z.of_nat (length m) + 0) 0 (blocks 64 (Blake.blake_pad k fl m 0 0)).
Proof.
  intros (Hw & Hn & Hc & Hbl & Hlo & Hh) Hiv Hm Hfl HL. unfold blake256_final_h. cbn [fst].
  pose proof (Nat.div_mod_eq (length m) 64) as Hdm. pose proof (Nat.mod_upper_bound (length m) 64 ltac:(lia)) as Hr.
  rewrite (msglen_ref S (length m / 64) (length m mod 64) Hc Hbl Hr). specialize (Hh (8 * Z.of_nat (length m) + 0) ltac:(lia)).
  destruct k_bbits as (Hb & HW & Hbn & Hwl). unfold Blake.blake_pad, Blake.pad_bytes. rewrite Hb, Hbn, Hwl.
  set (i := (length m / 64)%nat) in *. set (r := (length m mod 64)%nat) in *. assert (EL : 8 * Z.of_nat (length m) + 0 = 512 * Z.of_nat i + 8 * Z.of_nat r) by lia. rewrite EL in *.
  set (L := 512 * Z.of_nat i + 8 * Z.of_nat r) in *. change (2 * 4)%nat with 8%nat. change (14 * 4)%nat with 56%nat. change (512 - 16 * Z.of_nat 4 - 2) with 446.
  assert (Hlen : length (be_store 8 L) = 8%nat) by apply length_be_store. assert (Hlenb : bytes (be_store 8 L)) by apply bytes_be_store. set (msg := be_store 8 L) in *. clearbody msg.
  assert (Hll : length (leftover 64 m) = r) by (apply length_leftover; lia). assert (Hpb : word 8 (Z.lor 0 fl) /\ word 8 (Z.lor 0x80 fl)) by (destruct Hfl as [-> | ->]; unfold word; vm_compute; intuition congruence). destruct Hpb as [Hpb Hpa].
  assert (Hnb : length (blocks 64 m) = i) by (apply length_blocks_div; lia).
  assert (Hcnt : Blake.counter k L i = if (r =? 0)%nat then 0 else L).
  { unfold Blake.counter. rewrite Hb. fold L. destruct (Nat.eqb_spec r 0) as [Hr0|Hr0]; [rewrite (proj2 (Z.ltb_ge _ _)) by (unfold L; lia); done|].
    rewrite (proj2 (Z.ltb_lt _ _)) by (unfold L; lia). apply Z.min_l. unfold L. lia. }
  destruct (le_lt_dec r 55) as [Hle|Hgt].
  - rewrite (proj2 (Z.leb_le (8 * Z.of_nat r + 0) 446)) by lia.
    assert (HP : padded S (final_pad S (Z.lor 0x80 fl) (Z.lor 0 fl)) r (if (r =? 0)%nat then 1 else 0) (leftover 64 m ++ Blake.pad_mid 0 0 fl (56 - r))).
    { destruct (Nat.eq_dec r 55) as [E55|Hne]; [rewrite E55 in *|].
      - change (56 - 55)%nat with 1%nat. rewrite pad_mid_one. by apply pad_55.
      - rewrite pad_mid_long by lia. replace (56 - r - 2)%nat with (54 - r)%nat by lia. apply pad_less; try done. lia. }
    destruct HP as (P1 & P2 & P3 & P4 & P5 & P6 & P7). rewrite (last_block _ _ msg P1) by (done || (rewrite P5; apply word_T32)).
    rewrite <-app_assoc in *. rewrite (blocks_last 64 m) by (lia || (rewrite !length_app, Hll; unfold Blake.pad_mid; rewrite length_alter; cbn [length]; rewrite length_replicate; lia)).
    rewrite Blake.chain_app, Hnb, Nat.add_0_r, <-Hh. cbn [Blake.blake_chain]. rewrite P2, Hcnt. f_equal.
    destruct (Nat.eqb_spec r 0) as [Hr0|Hr0]; [unfold bits, add_512, sub_t; cbn [nullt]; by rewrite P4|].
    pose proof (bits_back S (buf S) i r Hc ltac:(lia) Hn) as EB. fold L in EB. rewrite <-EB. unfold bits, add_512, sub_t, set_buf. cbn [nullt t0 t1]. rewrite P4, P5, P6, Hn, T32_sub.
    by replace (t0 S - (448 - 8 * Z.of_nat r) - 64) with (t0 S - (512 - 8 * Z.of_nat r)) by lia.
  - rewrite (proj2 (Z.leb_gt (8 * Z.of_nat r + 0) 446)) by lia. destruct (pad_more S fl i r (leftover 64 m) Hw Hbl ltac:(lia) Hn Hc Hlo Hpb) as (P1 & P2 & P3 & P4 & P5 & P6).
    rewrite (last_block _ _ msg P1 P3 P4 P6 Hlen Hlenb). rewrite pad_mid_long by lia.
    assert (Epad : (0x80 :: replicate (64 + 56 - r - 2) 0 ++ [Z.lor 0 fl]) ++ msg = (0x80 :: replicate (63 - r) 0) ++ ((replicate 55 0 ++ [Z.lor 0 fl]) ++ msg)).
    { replace (64 + 56 - r - 2)%nat with (63 - r + 55)%nat by lia. rewrite replicate_add. cbn [app]. by rewrite !app_assoc. }
    rewrite Epad. rewrite blocks_last2.
    2: lia.
    2: { rewrite length_app, Hll. cbn [length]. rewrite length_replicate. lia. }
    2: { rewrite !length_app, length_replicate. cbn [length]. lia. }
    rewrite Blake.chain_app, Hnb, Nat.add_0_r, <-Hh. cbn [Blake.blake_chain]. rewrite P2, Hcnt, (proj2 (Nat.eqb_neq r 0)) by lia. fold L. f_equal.
    unfold bits, add_512, sub_t. cbn [nullt]. rewrite P5. cbn [Z.eqb]. unfold Blake.counter. rewrite Hb, (proj2 (Z.ltb_ge _ _)) by (unfold L; lia). done.
Qed.

(** ** Digests *)

Lemma out_words (hh : list Z) n : (n <= length hh)%nat -> flat_map (fun i => U32TO8 (hh !!! i)) (seq 0 n) = flat_map (be_store 4) (take n hh).
Proof. exact (Blake.words_out hh 4 n). Qed.
Lemma final_out iv S m fl :
  after iv S m -> length iv = 8%nat -> bytes m -> fl = 0 \/ fl = 1 -> 8 * Z.of_nat (length m) < 2 ^ 64 ->
  let hh := Blake.blake_chain k [0; 0; 0; 0] iv (8 * Z.of_nat (length m) + 0) 0 (blocks 64 (Blake.blake_pad k fl m 0 0)) in
  length hh = 8%nat /\ (blake256_final_h S (Z.lor 0x80 fl) (Z.lor 0 fl)).2 = flat_map (be_store 4) hh.
Proof.
  intros Ha Hiv Hm Hfl HL hh. pose proof (final_ref iv S m fl Ha Hiv Hm Hfl HL) as E. fold hh in E.
  assert (Hl : length hh = 8%nat) by (apply Blake.length_chain; [apply k_ok|done|done]). split; [done|].
  transitivity (flat_map (fun i => U32TO8 (h (blake256_final_h S (Z.lor 0x80 fl) (Z.lor 0 fl)).1 !!! i)) (seq 0 8)); [exact eq_refl|].
  rewrite E, out_words by lia. by rewrite take_ge by lia.
Qed.
Definition digest256 (m : list Z) : list Z := Blake.blake_digest k Blake.IV256 8 m 0 0.
Definition digest224 (m : list Z) : list Z := Blake.blake_digest k Blake.IV224 7 m 0 0.
Lemma final256 S m : after Blake.IV256 S m -> bytes m -> 8 * Z.of_nat (length m) < 2 ^ 64 -> (blake256_final S).2 = digest256 m.
Proof.
  intros Ha Hm HL. destruct (final_out Blake.IV256 S m 1 Ha eq_refl Hm (or_intror eq_refl) HL) as [Hl E]. refine (eq_trans E _).
  unfold digest256, Blake.blake_digest. destruct k_bbits as (_ & _ & -> & ->). cbn [Nat.eqb]. change (replicate 4 0) with [0; 0; 0; 0].
  set (hh := Blake.blake_chain _ _ _ _ _ _) in *. clearbody hh. by rewrite take_ge by lia.
Qed.
Lemma final224 S m : after Blake.IV224 S m -> bytes m -> 8 * Z.of_nat (length m) < 2 ^ 64 -> take 28 (blake224_final S).2 = digest224 m.
Proof.
  intros Ha Hm HL. destruct (final_out Blake.IV224 S m 0 Ha eq_refl Hm (or_introl eq_refl) HL) as [Hl E]. refine (eq_trans (f_equal (take 28) E) _).
  unfold digest224, Blake.blake_digest. destruct k_bbits as (_ & _ & -> & ->). cbn [Nat.eqb]. change (replicate 4 0) with [0; 0; 0; 0].
  set (hh := Blake.blake_chain _ _ _ _ _ _) in *. clearbody hh. clear - Hl. do 8 (destruct hh as [|? hh]; [discriminate|]). destruct hh; [exact eq_refl|discriminate].
Qed.
Lemma after_init S : length (buf S) = 64%nat -> bytes (buf S) -> after Blake.IV256 (blake256_init S) [] /\ after Blake.IV224 (blake224_init S) [].
Proof. intros Hl Hb. split; (split_and!; [split_and!; done|done|split; done|done|done|intros L HL; exact eq_refl]). Qed.
(** One call of the hash functions. *)
Lemma blake256_hash_ref S m : length (buf S) = 64%nat -> bytes (buf S) -> bytes m -> 8 * Z.of_nat (length m) < 2 ^ 64 -> blake256_hash S m = digest256 m.
Proof.
  intros Hl Hb Hm HL. destruct (after_init S Hl Hb) as [Ha _]. apply final256; [|done|done]. exact (update_aligned _ _ [] m Ha eq_refl Hm HL).
Qed.
Lemma blake224_hash_ref S m : length (buf S) = 64%nat -> bytes (buf S) -> bytes m -> 8 * Z.of_nat (length m) < 2 ^ 64 -> take 28 (blake224_hash S m) = digest224 m.
Proof.
  intros Hl Hb Hm HL. destruct (after_init S Hl Hb) as [_ Ha]. apply final224; [|done|done]. exact (update_aligned _ _ [] m Ha eq_refl Hm HL).
Qed.
Lemma digest256_bytes m : length (digest256 m) = 32%nat /\ bytes (digest256 m).
Proof.
  destruct (Blake.length_blake_digest k Blake.IV256 8 m 0 0 k_ok eq_refl ltac:(lia)) as [H1 H2]. destruct k_bbits as (_ & _ & _ & Hw). rewrite Hw in H1. done.
Qed.
Lemma digest224_bytes m : length (digest224 m) = 28%nat /\ bytes (digest224 m).
Proof.
  destruct (Blake.length_blake_digest k Blake.IV224 7 m 0 0 k_ok eq_refl ltac:(lia)) as [H1 H2]. destruct k_bbits as (_ & _ & _ & Hw). rewrite Hw in H1. done.
Qed.

(** ** HMAC *)

(** RFC 2104 over a hash with 64-byte blocks; [HK] hashes long keys. *)
Definition hmac (HK H : list Z -> list Z) (key m : list Z) : list Z :=
  let k0 := if (64 <? length key)%nat then HK key else key in
  let k0 := k0 ++ replicate (64 - length k0) 0 in
  H ((Z.lxor 0x5c <$> k0) ++ H ((Z.lxor 0x36 <$> k0) ++ m)).
Lemma key_pad_ref c' key n :
  length key = n -> (n <= 64)%nat -> key_pad c' key n = Z.lxor c' <$> (key ++ replicate (64 - n) 0).
Proof.
  intros Hl Hn. unfold key_pad. destruct (loop_map (fun i v => Z.lxor v (key !!! i)) (replicate 64 c') n) as [H1 H2]; [rewrite length_replicate; lia|].
  apply list_eq_total; [rewrite H1, length_fmap, length_app, !length_replicate; lia|]. rewrite H1, length_replicate. intros i Hi. rewrite H2, lookup_total_replicate_2 by lia.
  rewrite (list_lookup_total_fmap (Z.lxor c')) by (rewrite length_app, length_replicate; lia).
  case_decide; [by rewrite lookup_total_app_l by lia|]. rewrite lookup_total_app_r by lia. rewrite lookup_total_replicate_2 by lia. by rewrite Z.lxor_0_r.
Qed.
Lemma key_pad_take c' key n : (n <= length key)%nat -> key_pad c' key n = key_pad c' (take n key) n.
Proof.
  intros Hn. unfold key_pad. apply foldl_ext_seq. intros a j Hj. by rewrite lookup_total_take_lt by lia.
Qed.

Lemma xor_bytes c' l : word 8 c' -> bytes l -> bytes (Z.lxor c' <$> l).
Proof. intros Hc Hl. apply Forall_fmap. eapply Forall_impl; [|exact Hl]. intros v Hv. by apply word_lxor. Qed.
(** A state keyed with one block, then the data, then the digest. *)
Lemma keyed256 S p data :
  length (buf S) = 64%nat -> bytes (buf S) -> length p = 64%nat -> bytes p -> bytes data -> 8 * Z.of_nat (64 + length data) < 2 ^ 64 ->
  (blake256_final (blake256_update (blake256_update (blake256_init S) p 512) data (8 * Z.of_nat (length data)))).2 = digest256 (p ++ data).
Proof.
  intros Hl Hb Hp Hpb Hd HL. destruct (after_init S Hl Hb) as [Ha _].
  pose proof (update_aligned Blake.IV256 (blake256_init S) [] p Ha eq_refl Hpb) as A1. rewrite Hp in A1. specialize (A1 ltac:(cbn; lia)). cbn [app] in A1. change (8 * Z.of_nat 64) with 512 in A1.
  pose proof (update_aligned Blake.IV256 _ p data A1 ltac:(by rewrite Hp) Hd ltac:(rewrite Hp; exact HL)) as A2. apply final256; [exact A2|by apply Forall_app_2|rewrite length_app, Hp; exact HL].
Qed.
Lemma keyed224 S p data :
  length (buf S) = 64%nat -> bytes (buf S) -> length p = 64%nat -> bytes p -> bytes data -> 8 * Z.of_nat (64 + length data) < 2 ^ 64 ->
  take 28 (blake224_final (blake224_update (blake224_update (blake224_init S) p 512) data (8 * Z.of_nat (length data)))).2 = digest224 (p ++ data).
Proof.
  intros Hl Hb Hp Hpb Hd HL. destruct (after_init S Hl Hb) as [_ Ha].
  pose proof (update_aligned Blake.IV224 (blake224_init S) [] p Ha eq_refl Hpb) as A1. rewrite Hp in A1. specialize (A1 ltac:(cbn; lia)). cbn [app] in A1. change (8 * Z.of_nat 64) with 512 in A1.
  pose proof (update_aligned Blake.IV224 _ p data A1 ltac:(by rewrite Hp) Hd ltac:(rewrite Hp; exact HL)) as A2. apply final224; [exact A2|by apply Forall_app_2|rewrite length_app, Hp; exact HL].
Qed.
Lemma keyed_buflen S p :
  length (buf S) = 64%nat -> bytes (buf S) -> length p = 64%nat -> bytes p -> buflen (blake224_update (blake224_init S) p 512) = 0.
Proof.
  intros Hl Hb Hp Hpb. destruct (after_init S Hl Hb) as [_ Ha].
  pose proof (update_aligned Blake.IV224 (blake224_init S) [] p Ha eq_refl Hpb) as A1. rewrite Hp in A1. specialize (A1 ltac:(cbn; lia)).
  destruct A1 as (_ & _ & _ & A1 & _). rewrite length_app, Hp in A1. exact A1.
Qed.
(** The update function reads only the bytes its length names. *)
Lemma update_28 S d : buflen S = 0 -> blake224_update S d 224 = blake224_update S (take 28 d) 224.
Proof.
  intros Hb. unfold blake224_update. assert (Hb' : buflen S = 8 * Z.of_nat 0) by lia.
  rewrite (update_short S 0 d 28 224 Hb' ltac:(lia) ltac:(lia) ltac:(lia)), (update_short S 0 (take 28 d) 28 224 Hb' ltac:(lia) ltac:(lia) ltac:(lia)). by rewrite take_take, Nat.min_id.
Qed.
Definition hmac_ok (S : hmac_state) : Prop := length (buf (inner S)) = 64%nat /\ bytes (buf (inner S)) /\ length (buf (outer S)) = 64%nat /\ bytes (buf (outer S)).
#[local] Opaque blake256_update blake256_final blake224_final digest256 digest224.
Lemma hmac_blake256_ref stk S key m :
  hmac_ok S -> length (buf stk) = 64%nat -> bytes (buf stk) -> bytes key -> bytes m -> 8 * Z.of_nat (length key) < 2 ^ 64 -> 8 * Z.of_nat (64 + length m) < 2 ^ 64 ->
  hmac_blake256_hash stk S key m = hmac digest256 digest256 key m.
Proof.
  intros (I1 & I2 & O1 & O2) K1 K2 Hk Hm HLk HLm. unfold hmac_blake256_hash, hmac_blake256_init, hmac.
  set (kn := if (64 <? length key)%nat then (blake256_hash stk key, 32%nat) else (key, length key)). set (k0 := if (64 <? length key)%nat then digest256 key else key).
  assert (Ek : kn = (k0, length k0) /\ (length k0 <= 64)%nat /\ bytes k0).
  { unfold kn, k0. destruct (Nat.ltb_spec 64 (length key)); [|done]. rewrite blake256_hash_ref by done. destruct (digest256_bytes key) as [-> Hb]. split; [done|]. split; [lia|done]. }
  destruct Ek as (-> & Hl0 & Hb0). rewrite !(key_pad_ref _ k0 (length k0) eq_refl Hl0). set (kk := k0 ++ _).
  assert (Hkk : length kk = 64%nat /\ bytes kk) by (unfold kk; split; [rewrite length_app, length_replicate; lia|apply Forall_app_2; [done|by apply Forall_replicate, word_0]]). destruct Hkk as [Lk Bk]. clearbody kk.
  unfold hmac_blake256_update, hmac_blake256_final. cbn [inner outer].
  pose proof (keyed256 (inner S) (Z.lxor 0x36 <$> kk) m I1 I2 ltac:(by rewrite length_fmap) (xor_bytes 0x36 kk ltac:(unfold word; lia) Bk) Hm HLm) as Ei.
  destruct (blake256_final _) as [i ihash]. cbn [snd] in Ei. subst ihash. destruct (digest256_bytes ((Z.lxor 0x36 <$> kk) ++ m)) as [Ld Bd]. set (ih := digest256 ((Z.lxor 0x36 <$> kk) ++ m)) in *. clearbody ih.
  pose proof (keyed256 (outer S) (Z.lxor 0x5c <$> kk) ih O1 O2 ltac:(by rewrite length_fmap) (xor_bytes 0x5c kk ltac:(unfold word; lia) Bk) Bd ltac:(rewrite Ld; cbn; lia)) as Eo.
  rewrite Ld in Eo. change (8 * Z.of_nat 32) with 256 in Eo. destruct (blake256_final _) as [o digest]. exact Eo.
Qed.
Lemma hmac_blake224_ref stk S key m :
  hmac_ok S -> length (buf stk) = 64%nat -> bytes (buf stk) -> bytes key -> bytes m -> 8 * Z.of_nat (length key) < 2 ^ 64 -> 8 * Z.of_nat (64 + length m) < 2 ^ 64 ->
  take 28 (hmac_blake224_hash stk S key m) = hmac (fun key => take 28 (digest256 key)) digest224 key m.
Proof.
  intros (I1 & I2 & O1 & O2) K1 K2 Hk Hm HLk HLm. unfold hmac_blake224_hash, hmac_blake224_init, hmac.
  set (kn := if (64 <? length key)%nat then (blake256_hash stk key, 28%nat) else (key, length key)). set (k0 := if (64 <? length key)%nat then take 28 (digest256 key) else key).
  assert (Ek : (forall c', (let '(key, keylen) := kn in key_pad c' key keylen) = key_pad c' k0 (length k0)) /\ (length k0 <= 64)%nat /\ bytes k0).
  { unfold kn, k0. destruct (Nat.ltb_spec 64 (length key)); [|done]. rewrite blake256_hash_ref by done. destruct (digest256_bytes key) as [Ld Bd]. rewrite length_take, Ld. cbn [Nat.min].
    split; [intros c'; apply key_pad_take; lia|]. split; [lia|by apply Forall_take]. }
  destruct Ek as (Ek & Hl0 & Hb0). destruct kn as [key' keylen]. rewrite !Ek, !(key_pad_ref _ k0 (length k0) eq_refl Hl0). set (kk := k0 ++ _).
  assert (Hkk : length kk = 64%nat /\ bytes kk) by (unfold kk; split; [rewrite length_app, length_replicate; lia|apply Forall_app_2; [done|by apply Forall_replicate, word_0]]). destruct Hkk as [Lk Bk]. clearbody kk.
  unfold hmac_blake224_update, hmac_blake224_final. cbn [inner outer].
  pose proof (keyed224 (inner S) (Z.lxor 0x36 <$> kk) m I1 I2 ltac:(by rewrite length_fmap) (xor_bytes 0x36 kk ltac:(unfold word; lia) Bk) Hm HLm) as Ei.
  destruct (blake224_final _) as [i ihash]. cbn [snd] in Ei. destruct (digest224_bytes ((Z.lxor 0x36 <$> kk) ++ m)) as [Ld Bd]. rewrite <-Ei in *. set (ih := take 28 ihash) in *.
  pose proof (keyed224 (outer S) (Z.lxor 0x5c <$> kk) ih O1 O2 ltac:(by rewrite length_fmap) (xor_bytes 0x5c kk ltac:(unfold word; lia) Bk) Bd ltac:(rewrite Ld; cbn; lia)) as Eo.
  rewrite Ld in Eo. change (8 * Z.of_nat 28) with 224 in Eo.
  rewrite update_28 by (apply keyed_buflen; [done|done|by rewrite length_fmap|apply xor_bytes; [unfold word; lia|done]]).
  fold ih. destruct (blake224_final _) as [o digest]. exact Eo.
Qed.
End Compress.

(** ** Where the streaming functions stop being the hash of the concatenation *)

(** With bytes in the buffer, data whose length leaves too few bytes over a multiple of
    64 is compressed without them: here the first byte has no effect.  Data of no length
    drops them too. *)
Definition blank : state := mk_state [] [] 0 0 0 0 (replicate 64 0).
Lemma update_loses_bytes :
  let d := (blake256_final (blake256_update (blake256_update (blake256_init blank) [1] 8) (replicate 64 2) 512)).2 in
  d = blake256_hash blank (replicate 64 2) /\ d <> blake256_hash blank (1 :: replicate 64 2).
Proof. split; [vm_compute; reflexivity|intros E; vm_compute in E; discriminate E]. Qed.
Lemma empty_update_drops S data : 0 <= buflen S < 512 -> buflen (blake256_update S data 0) = 0.
Proof.
  intros Hb. unfold blake256_update. change (Z.shiftr 0 3) with 0. change (Z.land 0 0x3F) with 0. rewrite Z.shiftr_div_pow2 by lia.
  assert (Hl : buflen S / 2 ^ 3 < 64) by (apply Z.div_lt_upper_bound; lia). by rewrite (proj2 (Z.leb_gt (64 - buflen S / 2 ^ 3) 0)), andb_false_r by lia.
Qed.
(** Long keys of HMAC-BLAKE-224 are hashed with BLAKE-256. *)
Lemma hmac_224_long_key :
  take 28 (hmac_blake224_hash blank (mk_hmac blank blank) (replicate 65 3) []) <> hmac (digest224 true) (digest224 true) (replicate 65 3) [].
Proof. intros E. vm_compute in E. discriminate E. Qed.
End CnBlake.
