(* ===== verification/CryptoNight.v ===== *)
(** * CryptoNight for GhostRider ([crypto/cn/]): the code.

    The six variants GhostRider selects ([CN_GR_0 .. CN_GR_5], all based on
    CryptoNight variant 1), in the portable build: no assembly, no VAES (the flags
    [cn_sse41_enabled] and [cn_vaes_enabled] are never set).  Contexts hold a
    pointer into the memory of the worker, which is shared by the lanes of a call;
    memory is a list of bytes, a pointer an offset into it (the buffer itself is
    page-aligned), and an access outside it, or a vector access that is not
    16-byte aligned, is [None].  The four finalisers are the class [ExtraHashes]. *)
From S2P Require Import Prelude NmAes CnKeccak CnAes.

(** ** Variants ([base/crypto/Algorithm.h], [CnAlgo.h]) *)

Definition CN_0 : Z := 0x63150000.
Definition CN_1 : Z := 0x63150100.
Definition CN_GR_0 : Z := 0x63130100.
Definition CN_GR_1 : Z := 0x63130101.
Definition CN_GR_2 : Z := 0x63150102.
Definition CN_GR_3 : Z := 0x63140103.
Definition CN_GR_4 : Z := 0x63120104.
Definition CN_GR_5 : Z := 0x63120105.
Definition CN_ANY : Z := 0x63000000.
Definition isCN (id : Z) : bool := Z.land id 0xff000000 =? CN_ANY.
Definition base (id : Z) : Z := if isCN id then Z.lor CN_0 (Z.land id 0xff00) else 0.
Definition l3 (id : Z) : Z := Z.shiftl 1 (Z.land (Z.shiftr id 16) 0xff).

(** The members of [CnAlgo<ALGO>] the hash functions use. *)
Record CnAlgo := mk_algo { memory : Z; iterations : Z; mask : Z }.
Definition CN_ITER : Z := 0x80000.
Definition cn_iterations (id : Z) : Z :=
  if (id =? CN_GR_0) || (id =? CN_GR_1) then CN_ITER / 4 else
  if (id =? CN_GR_2) || (id =? CN_GR_3) then CN_ITER / 2 else
  if (id =? CN_GR_4) || (id =? CN_GR_5) then CN_ITER / 8 else CN_ITER.
Definition cn_mask (id : Z) : Z :=
  if id =? CN_GR_1 then 0x3FFF0 else
  if id =? CN_GR_5 then 0x1FFF0 else (l3 id - 1) / 16 * 16.
Definition cn_algo (id : Z) : CnAlgo := mk_algo (l3 id) (cn_iterations id) (cn_mask id).
Definition half_mem (a : CnAlgo) : bool := mask a <? memory a / 2.

(** ** Memory *)

Definition in_bounds (m : list Z) (p n : Z) : bool := (0 <=? p) && (p + n <=? Z.of_nat (length m)).
Definition load64 (m : list Z) (p : Z) : option Z :=
  if in_bounds m p 8 then Some (le_load 8 (slice (Z.to_nat p) 8 m)) else None.
Definition store64 (m : list Z) (p v : Z) : option (list Z) :=
  if in_bounds m p 8 then Some (memcpy m (Z.to_nat p) (le_store 8 v)) else None.
Definition load128 (m : list Z) (p : Z) : option (list Z) :=
  if in_bounds m p 16 && (p mod 16 =? 0) then Some (slice (Z.to_nat p) 16 m) else None.
(** The type [__m128i] makes every vector 16 bytes long; here it is checked. *)
Definition store128 (m : list Z) (p : Z) (v : list Z) : option (list Z) :=
  if in_bounds m p 16 && (p mod 16 =? 0) && (length v =? 16)%nat then Some (memcpy m (Z.to_nat p) v) else None.

Fixpoint load_vecs (m : list Z) (p : Z) (n : nat) : option (list (list Z)) :=
  match n with
  | O => Some []
  | S n => x ← load128 m p; xs ← load_vecs m (p + 16) n; Some (x :: xs)
  end.
Fixpoint store_vecs (m : list Z) (p : Z) (xs : list (list Z)) : option (list Z) :=
  match xs with
  | [] => Some m
  | x :: xs => m ← store128 m p x; store_vecs m (p + 16) xs
  end.

(** [n] vectors of an array of bytes, from byte [off]. *)
Definition vecs (n off : nat) (p : list Z) : list (list Z) := (fun i => slice (off + 16 * i) 16 p) <$> seq 0 n.

(** An operation on a lane and the shared memory, for the lanes in order. *)
Fixpoint each {A B} (op : A -> list Z -> option (B * list Z)) (xs : list A) (m : list Z) : option (list B * list Z) :=
  match xs with
  | [] => Some ([], m)
  | x :: xs => '(y, m) ← op x m; '(ys, m) ← each op xs m; Some (y :: ys, m)
  end.

(** [for (size_t i = 0; i < n; i++)]. *)
Fixpoint repeatM {S} (n : nat) (body : S -> option S) (s : S) : option S :=
  match n with
  | O => Some s
  | Datatypes.S n => s ← body s; repeatM n body s
  end.

(** [__umul128] ([base/tools/cryptonote/umul128.h]), the portable version: the
    high and the low word of the product. *)
Definition umul128 (multiplier multiplicand : Z) : Z * Z :=
  let a := Z.shiftr multiplier 32 in
  let b := Z.land multiplier 0xFFFFFFFF in
  let c := Z.shiftr multiplicand 32 in
  let d := Z.land multiplicand 0xFFFFFFFF in
  let ad := mul64 a d in
  let bd := mul64 b d in
  let adbc := add64 ad (mul64 b c) in
  let adbc_carry := if adbc <? ad then 1 else 0 in
  let product_lo := add64 bd (shl64 adbc 32) in
  let product_lo_carry := if product_lo <? bd then 1 else 0 in
  (add64 (add64 (add64 (mul64 a c) (Z.shiftr adbc 32)) (shl64 adbc_carry 32)) product_lo_carry, product_lo).

(** ** Contexts *)

Record cryptonight_ctx := mk_ctx {
  state : list Z;        (* uint8_t state[224] *)
  cn_memory : Z;         (* uint8_t *memory *)
  save_state : list Z;   (* uint8_t save_state[128] *)
  first_half : bool
}.
Definition set_state (c : cryptonight_ctx) (s : list Z) := mk_ctx s (cn_memory c) (save_state c) (first_half c).
Definition set_memory (c : cryptonight_ctx) (p : Z) := mk_ctx (state c) p (save_state c) (first_half c).
Definition set_save (c : cryptonight_ctx) (s : list Z) := mk_ctx (state c) (cn_memory c) s (first_half c).
Definition set_first_half (c : cryptonight_ctx) (b : bool) := mk_ctx (state c) (cn_memory c) (save_state c) b.

(** [reinterpret_cast<uint64_t*>(ctx->state)[i]]. *)
Definition h (c : cryptonight_ctx) (i : nat) : Z := le_load 8 (slice (8 * i) 8 (state c)).

(** The functions called on the 200 bytes of the final state. *)
Class ExtraHashes := {
  do_blake_hash : list Z -> list Z;
  do_groestl_hash : list Z -> list Z;
  do_jh_hash : list Z -> list Z;
  do_skein_hash : list Z -> list Z }.

Definition tweak1_table : list Z := let t1 := 268435456 in let t3 := 805306368 in [
   t1; 0; t1; 0; t1; 0; t1; 0; t1; 0; t1; 0; t1; 0; t1; 0; t3; 0; t3; 0; t3; 0; t3; 0; t3; 0; t3; 0; t3; 0; t3; 0;
   t1; t1; t1; t1; t1; t1; t1; t1; t1; t1; t1; t1; t1; t1; t1; t1; t3; t1; t3; t1; t3; t1; t3; t1; t3; t1; t3; t1; t3; t1; t3; t1;
   t1; 0; t1; 0; t1; 0; t1; 0; t1; 0; t1; 0; t1; 0; t1; 0; t3; 0; t3; 0; t3; 0; t3; 0; t3; 0; t3; 0; t3; 0; t3; 0;
   t1; t1; t1; t1; t1; t1; t1; t1; t1; t1; t1; t1; t1; t1; t1; t1; t3; t1; t3; t1; t3; t1; t3; t1; t3; t1; t3; t1; t3; t1; t3; t1;
   t1; 0; t1; 0; t1; 0; t1; 0; t1; 0; t1; 0; t1; 0; t1; 0; t3; 0; t3; 0; t3; 0; t3; 0; t3; 0; t3; 0; t3; 0; t3; 0;
   t1; t1; t1; t1; t1; t1; t1; t1; t1; t1; t1; t1; t1; t1; t1; t1; t3; t1; t3; t1; t3; t1; t3; t1; t3; t1; t3; t1; t3; t1; t3; t1;
   t1; 0; t1; 0; t1; 0; t1; 0; t1; 0; t1; 0; t1; 0; t1; 0; t3; 0; t3; 0; t3; 0; t3; 0; t3; 0; t3; 0; t3; 0; t3; 0;
   t1; t1; t1; t1; t1; t1; t1; t1; t1; t1; t1; t1; t1; t1; t1; t1; t3; t1; t3; t1; t3; t1; t3; t1; t3; t1; t3; t1; t3; t1; t3; t1].

Section Code.
Context `{AesNi, AesKeyGen, ExtraHashes}.
Context (SOFT_AES : bool) (props : CnAlgo).
(** The uninitialised stack of [keccak]. *)
Context (junk : list Z).

Definition extra_hashes (i : Z) : list Z -> list Z :=
  if i =? 0 then do_blake_hash else if i =? 1 then do_groestl_hash else
  if i =? 2 then do_jh_hash else do_skein_hash.

(** ** The scratchpad *)

(** [aes_round] with [k0 .. k9]. *)
Definition rounds10 (ks xs : list (list Z)) : list (list Z) := foldl (fun xs k => aes_round SOFT_AES k xs) xs ks.

(** Vectors of the scratchpad one lane fills: [N]. *)
Definition pad_vecs : Z := memory props / 16 / (if half_mem props then 2 else 1).

(** [do { .. } while (output < e)]; [None] when the fuel is used up. *)
Fixpoint explode_loop (fuel : nat) (ks xin : list (list Z)) (m : list Z) (output e : Z)
    : option (list (list Z) * list Z * Z) :=
  match fuel with
  | O => None
  | S fuel =>
      let xin := rounds10 ks xin in
      m ← store_vecs m output xin;
      let output := output + 128 in
      if output <? e then explode_loop fuel ks xin m output e else Some (xin, m, output)
  end.

Definition cn_explode_scratchpad (c : cryptonight_ctx) (m : list Z) : option (cryptonight_ctx * list Z) :=
  let N := pad_vecs in
  let ks := aes_genkey SOFT_AES (take 32 (state c)) in
  let xin := if half_mem props && negb (first_half c) then vecs 8 0 (save_state c) else vecs 8 64 (state c) in
  let prefetch_dist := 16 * 128 in
  let e := cn_memory c + 16 * N - prefetch_dist in
  '(xin, m, output) ← explode_loop (Z.to_nat N) ks xin m (cn_memory c) e;
  let e := e + prefetch_dist in
  '(xin, m, output) ← explode_loop (Z.to_nat N) ks xin m output e;
  Some (if half_mem props && first_half c then set_save c (concat xin) else c, m).

(** [for (size_t i = 0; i < N;)] with [i += 8]. *)
Fixpoint implode_loop (fuel : nat) (ks xout : list (list Z)) (m : list Z) (input i : Z) : option (list (list Z)) :=
  if i <? pad_vecs then
    match fuel with
    | O => None
    | S fuel =>
        v ← load_vecs m input 8;
        implode_loop fuel ks (rounds10 ks (zip_with mm_xor v xout)) m (input + 128) (i + 8)
    end
  else Some xout.

Definition cn_implode_scratchpad (c : cryptonight_ctx) (m : list Z) : option (cryptonight_ctx * list Z) :=
  let fuel := Z.to_nat pad_vecs in
  let ks := aes_genkey SOFT_AES (slice 32 32 (state c)) in
  let xout := vecs 8 64 (state c) in
  xout ← implode_loop fuel ks xout m (cn_memory c) 0;
  '(c, m, xout) ←
    (if half_mem props then
       '(c, m) ← cn_explode_scratchpad (set_first_half c false) m;
       xout ← implode_loop fuel ks xout m (cn_memory c) 0;
       Some (c, m, xout)
     else Some (c, m, xout));
  Some (set_state c (memcpy (state c) 64 (concat xout)), m).

(** [cryptonight_monero_tweak] for the variants based on [CN_1]. *)
Definition cryptonight_monero_tweak (m : list Z) (mem_out : Z) (bx0 cx : list Z) : option (list Z) :=
  let tmp := mm_xor bx0 cx in
  m ← store64 m mem_out (mm_cvtsi128_si64 tmp);
  let vh := mm_high64 tmp in
  store64 m (mem_out + 8) (Z.lxor vh (tweak1_table !!! Z.to_nat (Z.shiftr (T32 vh) 24))).

(** ** Beginning and end of a hash *)

Definition begin_hash (input : list Z) (c : cryptonight_ctx) : cryptonight_ctx :=
  let c := set_state c (memcpy (state c) 0 (keccak junk input 200)) in
  if half_mem props then set_first_half c true else c.

(** The eight bytes of the input at 35, xored with word 24 of the state. *)
Definition tweak1_2 (input : list Z) (c : cryptonight_ctx) : Z := Z.lxor (le_load 8 (slice 35 8 input)) (h c 24).

(** [keccakf(ctx->state, 24)] and the finaliser its first byte selects. *)
Definition end_hash (c : cryptonight_ctx) : cryptonight_ctx * list Z :=
  let st := keccakf (h c <$> seq 0 25) 24 in
  let c := set_state c (memcpy (state c) 0 (flat_map (le_store 8) st)) in
  (c, extra_hashes (Z.land (state c !!! 0%nat) 3) (take 200 (state c))).

(** The inputs of [n] lanes: [input + size * i]. *)
Definition lane_inputs (n size : nat) (input : list Z) : list (list Z) :=
  (fun i => slice (size * i) size input) <$> seq 0 n.

(** ** The main loop of the single and double versions: scalars *)

Record lane := mk_lane { l_mem : Z; tweak : Z; al : Z; ah : Z; idx : Z; bx0 : list Z; cx : list Z }.
Definition new_lane (input : list Z) (c : cryptonight_ctx) : lane :=
  let al := Z.lxor (h c 0) (h c 4) in
  mk_lane (cn_memory c) (tweak1_2 input c) al (Z.lxor (h c 1) (h c 5)) al
    (mm_set_epi64x (Z.lxor (h c 3) (h c 7)) (Z.lxor (h c 2) (h c 6))) [].
Definition at_idx (r : lane) : Z := l_mem r + Z.land (idx r) (mask props).

(** [cx = _mm_load_si128(&l0[idx0 & MASK])]. *)
Definition lane_load (r : lane) (m : list Z) : option (lane * list Z) :=
  c ← load128 m (at_idx r);
  Some (mk_lane (l_mem r) (tweak r) (al r) (ah r) (idx r) (bx0 r) c, m).
(** [cx = aesenc(cx, ax0)]. *)
Definition lane_aes (r : lane) (m : list Z) : option (lane * list Z) :=
  let ax0 := mm_set_epi64x (ah r) (al r) in
  Some (mk_lane (l_mem r) (tweak r) (al r) (ah r) (idx r) (bx0 r) (aesenc SOFT_AES (cx r) ax0), m).
Definition lane_tweak (r : lane) (m : list Z) : option (lane * list Z) :=
  m ← cryptonight_monero_tweak m (at_idx r) (bx0 r) (cx r); Some (r, m).
(** [idx0 = _mm_cvtsi128_si64(cx)]. *)
Definition lane_idx (r : lane) (m : list Z) : option (lane * list Z) :=
  Some (mk_lane (l_mem r) (tweak r) (al r) (ah r) (mm_cvtsi128_si64 (cx r)) (bx0 r) (cx r), m).
(** From [cl = ..] to [idx0 = al0]. *)
Definition lane_mul (r : lane) (m : list Z) : option (lane * list Z) :=
  cl ← load64 m (at_idx r);
  ch ← load64 m (at_idx r + 8);
  let '(hi, lo) := umul128 (idx r) cl in
  let al0 := add64 (al r) hi in
  let ah0 := add64 (ah r) lo in
  m ← store64 m (at_idx r) al0;
  m ← store64 m (at_idx r + 8) (Z.lxor ah0 (tweak r));
  let al0 := Z.lxor al0 cl in
  let ah0 := Z.lxor ah0 ch in
  Some (mk_lane (l_mem r) (tweak r) al0 ah0 al0 (bx0 r) (cx r), m).
(** [bx0 = cx]. *)
Definition lane_bx (r : lane) (m : list Z) : option (lane * list Z) :=
  Some (mk_lane (l_mem r) (tweak r) (al r) (ah r) (idx r) (cx r) (cx r), m).

(** One iteration: each phase for all the lanes before the next. *)
Definition scalar_body (s : list lane * list Z) : option (list lane * list Z) :=
  s ← each lane_load s.1 s.2;
  s ← each lane_aes s.1 s.2;
  s ← each lane_tweak s.1 s.2;
  s ← each lane_idx s.1 s.2;
  s ← each lane_mul s.1 s.2;
  each lane_bx s.1 s.2.

(** ** The main loop of the triple and quadruple versions: vectors *)

Record vlane := mk_vlane {
  v_mem : Z; mc : list Z; ax : list Z; vb0 : list Z; vc : list Z; ptr : Z; vidx : Z; cl : Z; ch : Z }.

(** [CONST_INIT(ctx, n)] and [idx = _mm_cvtsi128_si64(ax)]. *)
Definition CONST_INIT (input : list Z) (c : cryptonight_ctx) : vlane :=
  let ax := mm_set_epi64x (Z.lxor (h c 1) (h c 5)) (Z.lxor (h c 0) (h c 4)) in
  mk_vlane (cn_memory c) (mm_set_epi64x (tweak1_2 input c) 0) ax
    (mm_set_epi64x (Z.lxor (h c 3) (h c 7)) (Z.lxor (h c 2) (h c 6))) (replicate 16 0)
    (cn_memory c) (mm_cvtsi128_si64 ax) 0 0.

(** [_mm_add_epi64]. *)
Definition mm_add_epi64 (a b : list Z) : list Z :=
  mm_set_epi64x (add64 (mm_high64 a) (mm_high64 b)) (add64 (mm_cvtsi128_si64 a) (mm_cvtsi128_si64 b)).

Definition CN_STEP1 (r : vlane) (m : list Z) : option (vlane * list Z) :=
  let ptr := v_mem r + Z.land (vidx r) (mask props) in
  c ← load128 m ptr;
  Some (mk_vlane (v_mem r) (mc r) (ax r) (vb0 r) c ptr (vidx r) (cl r) (ch r), m).
Definition CN_STEP2 (r : vlane) (m : list Z) : option (vlane * list Z) :=
  let c := aesenc SOFT_AES (vc r) (ax r) in
  m ← cryptonight_monero_tweak m (ptr r) (vb0 r) c;
  Some (mk_vlane (v_mem r) (mc r) (ax r) (vb0 r) c (ptr r) (vidx r) (cl r) (ch r), m).
Definition CN_STEP3 (r : vlane) (m : list Z) : option (vlane * list Z) :=
  let idx := mm_cvtsi128_si64 (vc r) in
  let ptr := v_mem r + Z.land idx (mask props) in
  cl ← load64 m ptr;
  ch ← load64 m (ptr + 8);
  Some (mk_vlane (v_mem r) (mc r) (ax r) (vb0 r) (vc r) ptr idx cl ch, m).
Definition CN_STEP4 (r : vlane) (m : list Z) : option (vlane * list Z) :=
  let '(hi, lo) := umul128 (vidx r) (cl r) in
  let a := mm_add_epi64 (ax r) (mm_set_epi64x lo hi) in
  m ← store128 m (ptr r) (mm_xor a (mc r));
  let a := mm_xor a (mm_set_epi64x (ch r) (cl r)) in
  Some (mk_vlane (v_mem r) (mc r) a (vc r) (vc r) (ptr r) (mm_cvtsi128_si64 a) (cl r) (ch r), m).

Definition vector_body (s : list vlane * list Z) : option (list vlane * list Z) :=
  s ← each CN_STEP1 s.1 s.2;
  s ← each CN_STEP2 s.1 s.2;
  s ← each CN_STEP3 s.1 s.2;
  each CN_STEP4 s.1 s.2.

(** ** The hash functions: contexts, memory and the digests written *)

Definition result : Type := list cryptonight_ctx * list Z * list (list Z).
Definition zeros (n : nat) (ctx : list cryptonight_ctx) (m : list Z) : result :=
  (ctx, m, replicate n (replicate 32 0)).

Definition cryptonight_single_hash (input : list Z) (size : nat) (ctx : list cryptonight_ctx) (m : list Z)
    : option result :=
  if (size <? 43)%nat then Some (zeros 1 ctx m) else
  let inputs := lane_inputs 1 size input in
  let ctx := zip_with begin_hash inputs ctx in
  '(ctx, m) ← each cn_explode_scratchpad ctx m;
  '(_, m) ← repeatM (Z.to_nat (iterations props)) scalar_body (zip_with new_lane inputs ctx, m);
  '(ctx, m) ← each cn_implode_scratchpad ctx m;
  let ends := end_hash <$> ctx in
  Some (ends.*1, m, ends.*2).

(** The code reads the tweak before it fills the scratchpads, which leaves the state as it is. *)
Definition cryptonight_double_hash (input : list Z) (size : nat) (ctx : list cryptonight_ctx) (m : list Z)
    : option result :=
  if (size <? 43)%nat then Some (zeros 2 ctx m) else
  let inputs := lane_inputs 2 size input in
  let ctx := zip_with begin_hash inputs ctx in
  '(ctx, m) ← each cn_explode_scratchpad ctx m;
  '(_, m) ← repeatM (Z.to_nat (iterations props)) scalar_body (zip_with new_lane inputs ctx, m);
  '(ctx, m) ← each cn_implode_scratchpad ctx m;
  let ends := end_hash <$> ctx in
  Some (ends.*1, m, ends.*2).

(** The triple and the quintuple version, the same text for [n] lanes, run the
    phases around the main loop lane by lane. *)
Definition lane_by_lane_hash (n : nat) (input : list Z) (size : nat) (ctx : list cryptonight_ctx) (m : list Z)
    : option result :=
  if (size <? 43)%nat then Some (zeros n ctx m) else
  let inputs := lane_inputs n size input in
  '(ctx, m) ← each (fun ic => cn_explode_scratchpad (begin_hash ic.1 ic.2)) (zip inputs ctx) m;
  '(_, m) ← repeatM (Z.to_nat (iterations props)) vector_body (zip_with CONST_INIT inputs ctx, m);
  '(ends, m) ← each (fun c m => '(c, m) ← cn_implode_scratchpad c m; Some (end_hash c, m)) ctx m;
  Some (ends.*1, m, ends.*2).
Definition cryptonight_triple_hash := lane_by_lane_hash 3.
Definition cryptonight_penta_hash := lane_by_lane_hash 5.

Definition cryptonight_quad_hash (input : list Z) (size : nat) (ctx : list cryptonight_ctx) (m : list Z)
    : option result :=
  if (size <? 43)%nat then Some (zeros 4 ctx m) else
  let inputs := lane_inputs 4 size input in
  let ctx := zip_with begin_hash inputs ctx in
  '(ctx, m) ← each cn_explode_scratchpad ctx m;
  '(_, m) ← repeatM (Z.to_nat (iterations props)) vector_body (zip_with CONST_INIT inputs ctx, m);
  '(ctx, m) ← each cn_implode_scratchpad ctx m;
  let ends := end_hash <$> ctx in
  Some (ends.*1, m, ends.*2).
End Code.

(** ** The table of the functions ([CnHash.h], [CnHash.cpp])

    Only the column [Assembly::NONE] is filled for the variants of GhostRider
    ([ADD_FN]), so that [CnHash::fn] returns its entry whatever assembly it is asked for. *)
Inductive AlgoVariant :=
  | AV_SINGLE | AV_DOUBLE | AV_SINGLE_SOFT | AV_DOUBLE_SOFT | AV_TRIPLE | AV_QUAD | AV_PENTA
  | AV_TRIPLE_SOFT | AV_QUAD_SOFT | AV_PENTA_SOFT.
Definition CnHash_fn `{AesNi, AesKeyGen, ExtraHashes} (props : CnAlgo) (av : AlgoVariant)
    : list Z -> list Z -> nat -> list cryptonight_ctx -> list Z -> option result :=
  match av with
  | AV_SINGLE => cryptonight_single_hash false props
  | AV_SINGLE_SOFT => cryptonight_single_hash true props
  | AV_DOUBLE => cryptonight_double_hash false props
  | AV_DOUBLE_SOFT => cryptonight_double_hash true props
  | AV_TRIPLE => cryptonight_triple_hash false props
  | AV_TRIPLE_SOFT => cryptonight_triple_hash true props
  | AV_QUAD => cryptonight_quad_hash false props
  | AV_QUAD_SOFT => cryptonight_quad_hash true props
  | AV_PENTA => cryptonight_penta_hash false props
  | AV_PENTA_SOFT => cryptonight_penta_hash true props
  end.
