(* ===== verification/CnLanes.v ===== *)
(** * Lanes of a CryptoNight call in one shared memory.

    The multi-lane hash functions run every phase for all the lanes before the
    next one, on a single memory.  An operation is [local] when, run on a lane
    whose scratchpad is the window of [n] bytes at its pointer, it does to that
    window what it does to a memory that is only the window, at address 0.  Local
    operations on lanes with disjoint windows do not see each other, in whatever
    order their phases are interleaved ([each_sim], [repeat_sim]). *)
From S2P Require Import Prelude NmAes CnAes CryptoNight.

(** ** Windows of a memory *)

Definition put (m : list Z) (p : Z) (w : list Z) : list Z := memcpy m (Z.to_nat p) w.
Definition window (n : nat) (p : Z) (m : list Z) : list Z := slice (Z.to_nat p) n m.
Definition fits (n : nat) (p : Z) (m : list Z) : Prop :=
  0 <= p /\ p mod 16 = 0 /\ (Z.to_nat p + n <= length m)%nat.

Lemma lookup_memcpy (m : list Z) (off : nat) (v : list Z) i :
  (off + length v <= length m)%nat ->
  memcpy m off v !! i = if decide (off <= i < off + length v)%nat then v !! (i - off)%nat else m !! i.
Proof.
  intros Hl. unfold memcpy. rewrite lookup_app.
  assert (Ht : length (take off m) = off) by (rewrite length_take; lia).
  destruct (decide (i < off)%nat) as [Hi|Hi].
  - rewrite lookup_take_lt by done. rewrite decide_False by lia.
    destruct (m !! i) eqn:E; [done|]. apply lookup_ge_None in E. lia.
  - rewrite (proj2 (lookup_ge_None (take off m) i)) by (rewrite Ht; lia). rewrite Ht, lookup_app.
    case_decide as Hc.
    + destruct (v !! (i - off)%nat) eqn:E; [done|]. apply lookup_ge_None in E. lia.
    + rewrite (proj2 (lookup_ge_None v (i - off))) by lia. rewrite lookup_drop. f_equal. lia.
Qed.
Lemma lookup_slice (off n : nat) (m : list Z) i :
  slice off n m !! i = if decide (i < n)%nat then m !! (off + i)%nat else None.
Proof.
  unfold slice. case_decide as H.
  - rewrite lookup_take_lt, lookup_drop by done. done.
  - apply lookup_take_ge. lia.
Qed.

Lemma slice_memcpy_same (m v : list Z) off n :
  length v = n -> (off + n <= length m)%nat -> slice off n (memcpy m off v) = v.
Proof.
  intros <- Hl. apply list_eq. intros i. rewrite lookup_slice. case_decide as H.
  - rewrite lookup_memcpy by done. rewrite decide_True by lia. f_equal. lia.
  - symmetry. apply lookup_ge_None. lia.
Qed.
Lemma slice_memcpy_other (m v : list Z) off off' n :
  (off + length v <= length m)%nat -> (off' + n <= off \/ off + length v <= off')%nat ->
  slice off' n (memcpy m off v) = slice off' n m.
Proof.
  intros Hl Hd. apply list_eq. intros i. rewrite !lookup_slice. case_decide; [|done].
  rewrite lookup_memcpy by done. by rewrite decide_False by lia.
Qed.
(** A write inside a window is a write of the window. *)
Lemma memcpy_in_window (m v : list Z) off n k :
  (off + n <= length m)%nat -> (k + length v <= n)%nat ->
  memcpy m (off + k) v = memcpy m off (memcpy (slice off n m) k v).
Proof.
  intros Hl Hk. assert (Hs : length (slice off n m) = n) by by apply length_slice.
  assert (Hs' : length (memcpy (slice off n m) k v) = n) by (rewrite length_memcpy; lia).
  apply list_eq. intros i. rewrite !lookup_memcpy by lia. rewrite Hs', lookup_slice.
  repeat case_decide; try lia; try done; f_equal; lia.
Qed.
Lemma memcpy_twice (m v w : list Z) off :
  length v = length w -> (off + length w <= length m)%nat -> memcpy (memcpy m off v) off w = memcpy m off w.
Proof.
  intros Hv Hl. apply list_eq. intros i. rewrite !lookup_memcpy by (rewrite ?length_memcpy; lia).
  case_decide; [done|]. by rewrite decide_False by lia.
Qed.
Lemma memcpy_slice (m : list Z) off n : (off + n <= length m)%nat -> memcpy m off (slice off n m) = m.
Proof.
  intros Hl. assert (Hs : length (slice off n m) = n) by by apply length_slice.
  apply list_eq. intros i. rewrite lookup_memcpy by lia. case_decide; [|done].
  rewrite lookup_slice, decide_True by lia. f_equal. lia.
Qed.
Lemma slice_slice (m : list Z) off n k j : (k + j <= n)%nat -> slice k j (slice off n m) = slice (off + k) j m.
Proof.
  intros H. apply list_eq. intros i. rewrite !lookup_slice. repeat case_decide; try lia; try done; f_equal; lia.
Qed.

(** ** Accesses through a window *)

Section Accesses.
Context (n : nat) (p : Z) (m : list Z).
Hypothesis Hfits : fits n p m.
Let w := window n p m.

Lemma length_window : length w = n.
Proof. destruct Hfits as (? & ? & ?). apply length_slice. lia. Qed.

Lemma in_bounds_window k j : in_bounds w k j = true -> 0 <= j -> in_bounds m (p + k) j = true /\
  Z.to_nat (p + k) = (Z.to_nat p + Z.to_nat k)%nat /\ (Z.to_nat k + Z.to_nat j <= n)%nat.
Proof.
  unfold in_bounds. rewrite length_window. destruct Hfits as (? & ? & ?). intros Hb Hj.
  apply andb_prop in Hb as [?%Z.leb_le ?%Z.leb_le]. split_and!; [|lia|lia].
  apply andb_true_intro. split; apply Z.leb_le; lia.
Qed.

Lemma load64_window k v : load64 w k = Some v -> load64 m (p + k) = Some v.
Proof.
  unfold load64. destruct (in_bounds w k 8) eqn:E; [|done]. intros [= <-].
  destruct (in_bounds_window k 8 E ltac:(lia)) as (-> & -> & ?). f_equal. f_equal.
  unfold w, window. rewrite slice_slice by lia. done.
Qed.
Lemma store64_window k v w' : store64 w k v = Some w' -> store64 m (p + k) v = Some (put m p w') /\ length w' = n.
Proof.
  unfold store64. destruct (in_bounds w k 8) eqn:E; [|done]. intros [= <-].
  destruct (in_bounds_window k 8 E ltac:(lia)) as (-> & -> & ?). destruct Hfits as (? & ? & ?).
  rewrite length_memcpy, length_window by (rewrite length_window, length_le_store; lia). split; [|done].
  f_equal. apply memcpy_in_window; [lia|]. rewrite length_le_store. lia.
Qed.
Lemma load128_window k v : load128 w k = Some v -> load128 m (p + k) = Some v.
Proof.
  unfold load128. destruct (in_bounds w k 16 && (k mod 16 =? 0)) eqn:E; [|done]. intros [= <-].
  apply andb_prop in E as [E Hk%Z.eqb_eq]. destruct (in_bounds_window k 16 E ltac:(lia)) as (-> & Ek & ?).
  destruct Hfits as (? & Hp & ?). rewrite Z.add_mod, Hp, Hk by lia. rewrite Ek. cbn [Z.add Z.modulo Z.eqb andb].
  f_equal. unfold w, window. by rewrite slice_slice by lia.
Qed.
Lemma store128_window k v w' :
  store128 w k v = Some w' -> store128 m (p + k) v = Some (put m p w') /\ length w' = n.
Proof.
  unfold store128. destruct (in_bounds w k 16 && (k mod 16 =? 0) && _) eqn:E; [|done]. intros [= <-].
  apply andb_prop in E as [[E Hk%Z.eqb_eq]%andb_prop Hv].
  destruct (in_bounds_window k 16 E ltac:(lia)) as (-> & Ek & ?).
  destruct Hfits as (? & Hp & ?). rewrite Z.add_mod, Hp, Hk, Ek, Hv by lia. cbn [Z.add Z.modulo Z.eqb andb].
  apply Nat.eqb_eq in Hv. rewrite length_memcpy, length_window by (rewrite length_window; lia). split; [|done].
  f_equal. apply memcpy_in_window; lia.
Qed.

Lemma load_vecs_window k j vs : load_vecs w k j = Some vs -> load_vecs m (p + k) j = Some vs.
Proof.
  revert k vs. induction j as [|j IH]; intros k vs; [done|]. cbn [load_vecs].
  destruct (load128 w k) as [x|] eqn:E; [|done]. rewrite (load128_window k x E). cbn.
  destruct (load_vecs w (k + 16) j) as [xs|] eqn:E'; [|done]. intros [= <-].
  replace (p + k + 16) with (p + (k + 16)) by lia. by rewrite (IH _ _ E').
Qed.
End Accesses.

(** Writing a whole window leaves the pointer valid and sets the window. *)
Lemma fits_put n p m w : fits n p m -> length w = n -> fits n p (put m p w).
Proof. intros (? & ? & ?) Hw. unfold fits, put. rewrite length_memcpy by lia. done. Qed.
Lemma window_put n p m w : fits n p m -> length w = n -> window n p (put m p w) = w.
Proof. intros (? & ? & ?) Hw. by apply slice_memcpy_same. Qed.
Lemma put_put n p m w w' : fits n p m -> length w = n -> length w' = n -> put (put m p w) p w' = put m p w'.
Proof. intros (? & ? & ?) Hw Hw'. apply memcpy_twice; lia. Qed.
Lemma put_window n p m : fits n p m -> put m p (window n p m) = m.
Proof. intros (? & ? & ?). by apply memcpy_slice. Qed.

Lemma store_vecs_window n p m k vs w' :
  fits n p m -> store_vecs (window n p m) k vs = Some w' -> store_vecs m (p + k) vs = Some (put m p w') /\ length w' = n.
Proof.
  revert m k. induction vs as [|v vs IH]; intros m k Hm; cbn [store_vecs].
  { intros [= <-]. rewrite put_window by done. split; [done|by apply length_window]. }
  destruct (store128 (window n p m) k v) as [w1|] eqn:E; [|done]. cbn.
  destruct (store128_window n p m Hm k v w1 E) as [-> Hw1]. cbn. intros E'.
  destruct (IH (put m p w1) (k + 16)) as [E1 Hl]; [by apply fits_put|by rewrite window_put|].
  replace (p + k + 16) with (p + (k + 16)) by lia. rewrite E1. by rewrite (put_put n).
Qed.

(** ** Local operations *)

(** A lane carries the pointer to its scratchpad. *)
Class Based (A : Type) := { base_of : A -> Z; rebase : Z -> A -> A }.
Class BasedLaws A `{Based A} : Prop := {
  base_rebase p x : base_of (rebase p x) = p;
  rebase_rebase p q x : rebase p (rebase q x) = rebase p x;
  rebase_base x : rebase (base_of x) x = x }.

Definition local {A B} `{Based A, Based B} (n : nat) (op : A -> list Z -> option (B * list Z)) : Prop :=
  forall x w y w', base_of x = 0 -> length w = n -> op x w = Some (y, w') ->
    base_of y = 0 /\ length w' = n /\
    forall p m, fits n p m -> window n p m = w -> op (rebase p x) m = Some (rebase p y, put m p w').

Lemma fits_self w : fits (length w) 0 w.
Proof. split_and!; [lia|done|lia]. Qed.
Lemma window_self w : window (length w) 0 w = w.
Proof. unfold window, slice. cbn. rewrite drop_0. by apply take_ge. Qed.

Section Local.
Context (n : nat).

Lemma local_intro {A B} `{Based A, Based B} (op : A -> list Z -> option (B * list Z)) :
  (forall x w y w', base_of x = 0 -> op x w = Some (y, w') ->
     base_of y = 0 /\
     forall p m, fits n p m -> window n p m = w -> op (rebase p x) m = Some (rebase p y, put m p w') /\ length w' = n) ->
  local n op.
Proof.
  intros Hop x w y w' Hx Hw E. destruct (Hop x w y w' Hx E) as [Hy Hrun]. split; [done|]. split.
  - apply (Hrun 0 w); rewrite <-Hw; [apply fits_self|apply window_self].
  - intros p m Hm Hwin. by apply Hrun.
Qed.

Lemma local_seq {A B C} `{Based A, Based B, Based C}
    (f : A -> list Z -> option (B * list Z)) (g : B -> list Z -> option (C * list Z)) :
  local n f -> local n g -> local n (fun x m => '(y, m) ← f x m; g y m).
Proof.
  intros Hf Hg x w z w2 Hx Hw E.
  destruct (f x w) as [[y w1]|] eqn:Ef; [|discriminate E]. cbn in E.
  destruct (Hf x w y w1 Hx Hw Ef) as (Hy & Hw1 & Hf'). destruct (Hg y w1 z w2 Hy Hw1 E) as (Hz & Hw2 & Hg').
  split_and!; [done|done|]. intros p m Hm Hwin. rewrite (Hf' p m Hm Hwin). cbn.
  rewrite (Hg' p (put m p w1)) by (by apply fits_put || by apply window_put). by rewrite (put_put n).
Qed.

(** Operations that leave the memory alone. *)
Lemma local_pure {A B} `{Based A, Based B} (f : A -> B) :
  (forall p x, base_of x = 0 -> f (rebase p x) = rebase p (f x) /\ base_of (f x) = 0) ->
  local n (fun x m => Some (f x, m)).
Proof.
  intros Hf x w y w' Hx Hw [= <- <-]. split_and!; [by apply (Hf 0)|done|]. intros p m Hm Hwin.
  destruct (Hf p x Hx) as [-> _]. by rewrite <-Hwin, put_window.
Qed.
End Local.

#[export] Instance ctx_based : Based cryptonight_ctx := {| base_of := cn_memory; rebase p c := set_memory c p |}.
#[export] Instance ctx_based_laws : BasedLaws cryptonight_ctx.
Proof. split; [done|done|by intros []]. Qed.
#[export] Instance lane_based : Based lane := {|
  base_of := l_mem;
  rebase p r := mk_lane p (tweak r) (al r) (ah r) (idx r) (bx0 r) (cx r) |}.
#[export] Instance lane_based_laws : BasedLaws lane.
Proof. split; [done|done|by intros []]. Qed.
(** The pointer [ptr] of a vector lane moves with its scratchpad. *)
#[export] Instance vlane_based : Based vlane := {|
  base_of := v_mem;
  rebase p r := mk_vlane p (mc r) (ax r) (vb0 r) (vc r) (ptr r - v_mem r + p) (vidx r) (cl r) (ch r) |}.
#[export] Instance vlane_based_laws : BasedLaws vlane.
Proof.
  split; [done| |].
  - intros p q []. unfold rebase; cbn. f_equal. lia.
  - intros []. unfold rebase; cbn. f_equal. lia.
Qed.
(** An input with its context, and a context with its digest. *)
#[export] Instance snd_based {A B} `{Based B} : Based (A * B) | 10 := {|
  base_of x := base_of x.2; rebase p x := (x.1, rebase p x.2) |}.
#[export] Instance snd_based_laws {A B} `{BasedLaws B} : BasedLaws (A * B).
Proof.
  split.
  - intros p [a b]. exact (base_rebase p b).
  - intros p q [a b]. unfold rebase; cbn. by rewrite rebase_rebase.
  - intros [a b]. unfold rebase, base_of; cbn. by rewrite rebase_base.
Qed.

#[export] Instance fst_based {A} : Based (cryptonight_ctx * A) | 5 := {|
  base_of x := cn_memory x.1; rebase p x := (set_memory x.1 p, x.2) |}.
#[export] Instance fst_based_laws {A} : BasedLaws (cryptonight_ctx * A).
Proof. split; [done|done|by intros [[] ?]]. Qed.

(** ** Several lanes *)

Section Lanes.
Context (n : nat).

Definition disjoint (ps : list Z) : Prop :=
  forall i j p q, i <> j -> ps !! i = Some p -> ps !! j = Some q -> p + Z.of_nat n <= q \/ q + Z.of_nat n <= p.
Definition windows (ps : list Z) (ws : list (list Z)) (m : list Z) : Prop :=
  Forall2 (fun p w => fits n p m /\ window n p m = w) ps ws.
(** The bytes outside the windows are those of [m0]. *)
Definition unchanged (ps : list Z) (m0 m : list Z) : Prop :=
  length m = length m0 /\
  forall q k, (q + k <= length m0)%nat ->
    Forall (fun p => Z.of_nat (q + k) <= p \/ p + Z.of_nat n <= Z.of_nat q) ps -> slice q k m = slice q k m0.

Lemma disjoint_cons p ps :
  disjoint (p :: ps) ->
  disjoint ps /\ Forall (fun q => p + Z.of_nat n <= q \/ q + Z.of_nat n <= p) ps.
Proof.
  intros H. split.
  - intros i j a b Hij Ha Hb. by apply (H (S i) (S j) a b); [lia|..].
  - apply Forall_lookup. intros j q Hq. by apply (H 0%nat (S j) p q).
Qed.

Lemma fits_length k p m m' : length m' = length m -> fits k p m -> fits k p m'.
Proof. intros E (? & ? & ?). unfold fits. by rewrite E. Qed.

(** A write to one window keeps the others. *)
Lemma windows_put p m w ps ws :
  fits n p m -> length w = n -> Forall (fun q => p + Z.of_nat n <= q \/ q + Z.of_nat n <= p) ps ->
  windows ps ws m -> windows ps ws (put m p w).
Proof.
  intros Hp Hw Hd. unfold windows. induction 1 as [|q v ps ws [Hq Hv] Hws IH]; [constructor|].
  apply Forall_cons_1 in Hd as [Hd1 Hd]. constructor; [|by apply IH].
  destruct Hp as (? & ? & ?). pose proof Hq as (? & ? & ?). split.
  - eapply fits_length; [|done]. apply length_memcpy. lia.
  - rewrite <-Hv. apply slice_memcpy_other; lia.
Qed.

Lemma windows_slice ps ws m p w :
  windows ps ws m -> fits n p m -> window n p m = w ->
  windows (p :: ps) (w :: ws) m.
Proof. intros. by constructor. Qed.

Section Sim.
Context {A B : Type} `{BasedLaws A, BasedLaws B}.

(** Lanes of pointers [ps], described by their states at address 0. *)
Definition at_bases (ps : list Z) (st : list (A * list Z)) : list A := zip_with (fun p s => rebase p s.1) ps st.
Definition runs (op : A -> list Z -> option (B * list Z)) (s : A * list Z) (t : B * list Z) : Prop :=
  base_of s.1 = 0 /\ length s.2 = n /\ op s.1 s.2 = Some t.
End Sim.

(** A phase run for all the lanes does to each what it does to it alone. *)
Lemma each_sim {A B} `{Based A, Based B} (op : A -> list Z -> option (B * list Z)) ps st st' m :
  local n op -> disjoint ps -> length ps = length st -> Forall2 (runs op) st st' -> windows ps (st.*2) m ->
  exists m', each op (at_bases ps st) m = Some (at_bases ps st', m') /\ windows ps (st'.*2) m' /\ unchanged ps m m'.
Proof.
  intros Hop. revert st st' m. induction ps as [|p ps IH]; intros st st' m Hd Hlen Hst Hw.
  { destruct st; [|done]. inversion Hst; subst. exists m. split_and!; [done|constructor|done]. }
  destruct st as [|[x w] st]; [done|].
  apply Forall2_cons_inv_l in Hst as ([y w'] & st1 & (Hx & Hxw & E) & Hst1 & ->).
  apply Forall2_cons_1 in Hw as [[Hp Hpw] Hws]. cbn in Hx, Hxw, E, Hpw.
  apply disjoint_cons in Hd as [Hd Hdp]. destruct (Hop x w y w' Hx Hxw E) as (Hy & Hw' & Hrun).
  destruct (IH st st1 (put m p w') Hd) as (m' & E' & Hws' & Hlm & Hun); [cbn in Hlen; lia|done|by apply windows_put|].
  assert (Hlp : length (put m p w') = length m).
  { destruct Hp as (? & ? & ?). apply length_memcpy. lia. }
  exists m'. split_and!.
  - cbn [at_bases zip_with each]. cbn. rewrite (Hrun p m Hp Hpw). cbn. unfold at_bases in E'. by rewrite E'.
  - constructor; [|done]. split; [apply (fits_length n p m); [lia|done]|].
    pose proof Hp as (? & ? & ?). unfold window. rewrite Hun; [by apply window_put|lia|].
    refine (List.Forall_impl _ _ Hdp). intros q Hq. lia.
  - split; [lia|]. intros q k Hqk Hout. apply Forall_cons_1 in Hout as [Hout1 Hout].
    rewrite Hun by (done || lia). destruct Hp as (? & ? & ?). apply slice_memcpy_other; lia.
Qed.

Lemma unchanged_trans ps m0 m1 m2 : unchanged ps m0 m1 -> unchanged ps m1 m2 -> unchanged ps m0 m2.
Proof.
  intros [H1 H2] [H3 H4]. split; [lia|]. intros q k Hq Ho. rewrite H4 by (done || lia). by apply H2.
Qed.

(** A program on all the lanes that does to each what [op] does to one. *)
Definition simulates {A B} `{Based A, Based B} (prog : list A * list Z -> option (list B * list Z))
    (op : A -> list Z -> option (B * list Z)) : Prop :=
  forall ps st st' m, disjoint ps -> length ps = length st -> Forall2 (runs op) st st' -> windows ps (st.*2) m ->
  exists m', prog (at_bases ps st, m) = Some (at_bases ps st', m') /\ windows ps (st'.*2) m' /\ unchanged ps m m'.

Lemma each_simulates {A B} `{Based A, Based B} (op : A -> list Z -> option (B * list Z)) :
  local n op -> simulates (fun s => each op s.1 s.2) op.
Proof. intros Hop ps st st' m. by apply each_sim. Qed.

(** What a local operation does to its lane keeps the address and the size. *)
Lemma runs_local {A B} `{Based A, Based B} (op : A -> list Z -> option (B * list Z)) s t :
  local n op -> runs op s t -> base_of t.1 = 0 /\ length t.2 = n.
Proof. intros Hop (Hb & Hl & E). destruct t as [y w']. by destruct (Hop _ _ _ _ Hb Hl E) as (? & ? & _). Qed.

Lemma simulates_seq {A B C} `{Based A, Based B, Based C} p1 p2
    (f : A -> list Z -> option (B * list Z)) (g : B -> list Z -> option (C * list Z)) :
  local n f -> simulates p1 f -> simulates p2 g ->
  simulates (fun s => s ← p1 s; p2 s) (fun x m => '(y, m) ← f x m; g y m).
Proof.
  intros Hf Hp1 Hp2 ps st st' m Hd Hlen Hst Hw.
  assert (exists st1, Forall2 (runs f) st st1 /\ Forall2 (runs g) st1 st') as (st1 & Hst1 & Hst2).
  { clear Hw Hlen Hd. induction Hst as [|[x w] t st st' (Hx & Hxw & E) Hst IH]; [by exists []|].
    destruct IH as (st1 & IH1 & IH2). cbn in E. destruct (f x w) as [[y w1]|] eqn:Ef; [|discriminate E].
    assert (Hr : runs f (x, w) (y, w1)) by done.
    destruct (runs_local f _ _ Hf Hr). exists ((y, w1) :: st1). split; constructor; done. }
  destruct (Hp1 ps st st1 m Hd Hlen Hst1 Hw) as (m1 & E1 & Hw1 & Hu1). rewrite E1. cbn.
  destruct (Hp2 ps st1 st' m1 Hd) as (m2 & E2 & Hw2 & Hu2); [by rewrite <-(Forall2_length Hst1)|done|done|].
  exists m2. split_and!; [done|done|by eapply unchanged_trans].
Qed.

(** The main loop: all the lanes, [k] times. *)
Lemma simulates_repeat {A} `{Based A} prog (f : A -> list Z -> option (A * list Z)) k :
  local n f -> simulates prog f ->
  local n (fun x m => repeatM k (fun s => f s.1 s.2) (x, m)) /\
  simulates (repeatM k prog) (fun x m => repeatM k (fun s => f s.1 s.2) (x, m)).
Proof.
  intros Hf Hp. induction k as [|k [IH1 IH2]].
  - cbn. split.
    + intros x w y w' Hx Hw [= <- <-]. split_and!; [done|done|]. intros p m Hm Hwin. by rewrite <-Hwin, put_window.
    + intros ps st st' m Hd Hlen Hst Hw. exists m.
      assert (st' = st) as ->.
      { clear Hw Hlen. induction Hst as [|[x w] t st st' (Hx & Hxw & E) Hst IHs]; [done|].
        injection E as <-. by f_equal. }
      split_and!; [done|done|done].
  - assert (E : forall x m, repeatM (S k) (fun s => f s.1 s.2) (x, m)
                   = ('(y, m) ← f x m; repeatM k (fun s => f s.1 s.2) (y, m))).
    { intros x m. cbn. by destruct (f x m) as [[y m1]|]. }
    split.
    + intros x w y w' Hx Hw. rewrite E. intros Hr.
      destruct (local_seq n f _ Hf IH1 x w y w' Hx Hw Hr) as (? & ? & Hl). split_and!; [done|done|].
      intros p m Hm Hwin. rewrite E. by apply Hl.
    + intros ps st st' m Hd Hlen Hst Hw. apply (simulates_seq prog (repeatM k prog) f _ Hf Hp IH2 ps st st' m); try done.
      refine (List.Forall2_impl _ _ Hst). intros [x w] t (? & ? & Hr). split_and!; [done|done|].
      cbn [fst snd] in Hr |- *. rewrite <-E. exact Hr.
Qed.
End Lanes.
