(* ===== verification/CnLocal.v ===== *)
(** * The phases of CryptoNight are local to their lane. *)
From S2P Require Import Prelude NmAes CnAes CryptoNight CnLanes.

Section Phases.
Context `{AesNi, AesKeyGen, ExtraHashes}.
Context (SOFT_AES : bool) (props : CnAlgo) (n : nat).

Lemma tweak_window p m k b c w' :
  fits n p m -> cryptonight_monero_tweak (window n p m) k b c = Some w' ->
  cryptonight_monero_tweak m (p + k) b c = Some (put m p w') /\ length w' = n.
Proof.
  intros Hm. unfold cryptonight_monero_tweak. cbv zeta.
  set (v := mm_xor b c). generalize (mm_cvtsi128_si64 v), (Z.lxor (mm_high64 v) (tweak1_table !!! Z.to_nat (Z.shiftr (T32 (mm_high64 v)) 24))).
  intros lo hi. destruct (store64 (window n p m) k lo) as [w1|] eqn:E; [|done]. cbn. intros E'.
  destruct (store64_window n p m Hm k lo w1 E) as [-> Hw1]. cbn.
  replace (p + k + 8) with (p + (k + 8)) by lia.
  destruct (store64_window n p (put m p w1) ltac:(by apply fits_put) (k + 8) hi w') as [-> Hl];
    [by rewrite window_put|]. by rewrite (put_put n).
Qed.

Lemma load_local : local n (lane_load props).
Proof.
  apply local_intro. intros [l t a b i x c] w y w' Hx E. cbn in Hx. subst l.
  unfold lane_load, at_idx in E. cbn [l_mem idx] in E. rewrite Z.add_0_l in E.
  destruct (load128 w _) as [v|] eqn:F; [|discriminate E]. injection E as <- <-. split; [done|].
  intros p m Hm <-. apply (load128_window n p m Hm) in F.
  unfold lane_load, at_idx. cbn [rebase lane_based l_mem idx]. rewrite F, put_window by done.
  split; [done|by apply length_window].
Qed.
Lemma aes_local : local n (lane_aes SOFT_AES).
Proof. apply (local_pure n (fun r => mk_lane _ _ _ _ _ _ _)). by intros p []. Qed.
Lemma idx_local : local n lane_idx.
Proof. apply (local_pure n (fun r => mk_lane _ _ _ _ _ _ _)). by intros p []. Qed.
Lemma bx_local : local n lane_bx.
Proof. apply (local_pure n (fun r => mk_lane _ _ _ _ _ _ _)). by intros p []. Qed.
Lemma tweak_local : local n (lane_tweak props).
Proof.
  apply local_intro. intros [l t a b i x c] w y w' Hx E. cbn in Hx. subst l.
  unfold lane_tweak, at_idx in E. cbn [l_mem idx bx0 cx] in E. rewrite Z.add_0_l in E.
  destruct (cryptonight_monero_tweak w _ _ _) as [w1|] eqn:F; [|discriminate E]. injection E as <- <-.
  split; [done|]. intros p m Hm <-. destruct (tweak_window p m _ _ _ w1 Hm F) as [F' Hl].
  unfold lane_tweak, at_idx. cbn [rebase lane_based l_mem idx bx0 cx]. by rewrite F'.
Qed.

(** Two words stored one after the other. *)
Lemma store64_twice p m k a b w1 w2 :
  fits n p m -> store64 (window n p m) k a = Some w1 -> store64 w1 (k + 8) b = Some w2 ->
  store64 m (p + k) a = Some (put m p w1) /\ store64 (put m p w1) (p + k + 8) b = Some (put m p w2) /\ length w2 = n.
Proof.
  intros Hm E1 E2. destruct (store64_window n p m Hm k a w1 E1) as [F1 Hw1].
  destruct (store64_window n p (put m p w1) ltac:(by apply fits_put) (k + 8) b w2) as [F2 Hl];
    [by rewrite window_put|]. replace (p + k + 8) with (p + (k + 8)) by lia.
  rewrite F1, F2. by rewrite (put_put n).
Qed.

Lemma mul_local : local n (lane_mul props).
Proof.
  apply local_intro. intros [l t a b i x c] w y w' Hx E. cbn in Hx. subst l.
  unfold lane_mul, at_idx in *. cbn [l_mem idx al ah tweak rebase lane_based bx0 cx] in *. rewrite Z.add_0_l in E.
  set (k := Z.land i (mask props)) in *.
  destruct (load64 w k) as [vl|] eqn:F1; [|discriminate E]. cbn [mbind option_bind] in E.
  destruct (load64 w (k + 8)) as [vh|] eqn:F2; [|discriminate E]. cbn [mbind option_bind] in E.
  destruct (umul128 i vl) as [hi lo] eqn:Eu.
  destruct (store64 w k _) as [w1|] eqn:F3; [|discriminate E]. cbn [mbind option_bind] in E.
  destruct (store64 w1 (k + 8) _) as [w2|] eqn:F4; [|discriminate E]. injection E as <- <-. split; [done|].
  intros p m Hm <-. apply (load64_window n p m Hm) in F1, F2. rewrite Z.add_assoc in F2. rewrite F1.
  cbn [mbind option_bind]. rewrite F2. cbn [mbind option_bind]. rewrite Eu.
  destruct (store64_twice p m k _ _ w1 w2 Hm F3 F4) as (G1 & G2 & Hl). rewrite G1. cbn [mbind option_bind].
  rewrite G2. done.
Qed.

(** One iteration on a lane, and on all the lanes. *)
Definition scalar_lane (r : lane) (m : list Z) : option (lane * list Z) :=
  '(r, m) ← lane_load props r m;
  '(r, m) ← lane_aes SOFT_AES r m;
  '(r, m) ← lane_tweak props r m;
  '(r, m) ← lane_idx r m;
  '(r, m) ← lane_mul props r m;
  lane_bx r m.
(** The first phase of a program, for all the lanes. *)
Ltac phase H := refine (simulates_seq n _ _ _ _ H (each_simulates n _ H) _).

Lemma scalar_local : local n scalar_lane /\ simulates n (scalar_body SOFT_AES props) scalar_lane.
Proof.
  split.
  - refine (local_seq n _ _ load_local _). refine (local_seq n _ _ aes_local _).
    refine (local_seq n _ _ tweak_local _). refine (local_seq n _ _ idx_local _).
    exact (local_seq n _ _ mul_local bx_local).
  - phase load_local. phase aes_local. phase tweak_local. phase idx_local. phase mul_local.
    apply each_simulates, bx_local.
Qed.

Lemma step1_local : local n (CN_STEP1 props).
Proof.
  apply local_intro. intros [l k a b c q i u v] w y w' Hx E. cbn in Hx. subst l.
  unfold CN_STEP1 in *. cbn [v_mem vidx rebase vlane_based] in *. rewrite Z.add_0_l in E.
  destruct (load128 w _) as [x|] eqn:F; [|discriminate E]. injection E as <- <-. split; [done|].
  intros p m Hm <-. apply (load128_window n p m Hm) in F. rewrite F, put_window by done. cbn.
  split; [do 3 f_equal; lia|by apply length_window].
Qed.
Lemma step2_local : local n (CN_STEP2 SOFT_AES).
Proof.
  apply local_intro. intros [l k a b c q i u v] w y w' Hx E. cbn in Hx. subst l.
  unfold CN_STEP2 in *. cbn [v_mem vidx vc ax vb0 ptr rebase vlane_based] in *.
  destruct (cryptonight_monero_tweak w _ _ _) as [w1|] eqn:F; [|discriminate E]. injection E as <- <-. split; [done|].
  intros p m Hm <-. destruct (tweak_window p m _ _ _ w1 Hm F) as [F' Hl].
  replace (q - 0 + p) with (p + q) by lia. rewrite F'. cbn. split; [do 3 f_equal; lia|done].
Qed.
Lemma step3_local : local n (CN_STEP3 props).
Proof.
  apply local_intro. intros [l k a b c q i u v] w y w' Hx E. cbn in Hx. subst l.
  unfold CN_STEP3 in *. cbn [v_mem vidx vc rebase vlane_based] in *. rewrite Z.add_0_l in E.
  set (j := Z.land (mm_cvtsi128_si64 c) (mask props)) in *.
  destruct (load64 w j) as [vl|] eqn:F1; [|discriminate E]. cbn [mbind option_bind] in E.
  destruct (load64 w (j + 8)) as [vh|] eqn:F2; [|discriminate E]. injection E as <- <-. split; [done|].
  intros p m Hm <-. apply (load64_window n p m Hm) in F1, F2. rewrite Z.add_assoc in F2.
  rewrite F1. cbn [mbind option_bind]. rewrite F2, put_window by done. cbn.
  split; [do 3 f_equal; lia|by apply length_window].
Qed.
Lemma step4_local : local n CN_STEP4.
Proof.
  apply local_intro. intros [l k a b c q i u v] w y w' Hx E. cbn in Hx. subst l.
  unfold CN_STEP4 in *. cbn [v_mem vidx vc ax cl ch mc ptr rebase vlane_based] in *.
  destruct (umul128 i u) as [hi lo]. cbv zeta in *.
  destruct (store128 w q _) as [w1|] eqn:F; [|discriminate E]. injection E as <- <-. split; [done|].
  intros p m Hm <-. destruct (store128_window n p m Hm q _ w1 F) as [F' Hl].
  replace (q - 0 + p) with (p + q) by lia. rewrite F'. cbn. split; [do 3 f_equal; lia|done].
Qed.

Definition vector_lane (r : vlane) (m : list Z) : option (vlane * list Z) :=
  '(r, m) ← CN_STEP1 props r m;
  '(r, m) ← CN_STEP2 SOFT_AES r m;
  '(r, m) ← CN_STEP3 props r m;
  CN_STEP4 r m.
Lemma vector_local : local n vector_lane /\ simulates n (vector_body SOFT_AES props) vector_lane.
Proof.
  split.
  - refine (local_seq n _ _ step1_local _). refine (local_seq n _ _ step2_local _).
    exact (local_seq n _ _ step3_local step4_local).
  - phase step1_local. phase step2_local. phase step3_local. apply each_simulates, step4_local.
Qed.

(** ** The scratchpad *)

Lemma explode_loop_window fuel ks xs m p o e xs' w' o' :
  fits n p m -> explode_loop SOFT_AES fuel ks xs (window n p m) o e = Some (xs', w', o') ->
  explode_loop SOFT_AES fuel ks xs m (p + o) (p + e) = Some (xs', put m p w', p + o') /\ length w' = n.
Proof.
  revert xs m o. induction fuel as [|fuel IH]; intros xs m o Hm; [done|]. cbn [explode_loop]. cbv zeta.
  destruct (store_vecs (window n p m) o _) as [w1|] eqn:F; [|done]. cbn [mbind option_bind].
  destruct (store_vecs_window n p m o _ w1 Hm F) as [F' Hw1]. rewrite F'. cbn [mbind option_bind].
  replace (p + o + 128 <? p + e) with (o + 128 <? e) by (apply eq_true_iff_eq; rewrite !Z.ltb_lt; lia).
  replace (p + o + 128) with (p + (o + 128)) by lia.
  destruct (o + 128 <? e).
  - intros E. destruct (IH (rounds10 SOFT_AES ks xs) (put m p w1) (o + 128)) as [E' Hl]; [by apply fits_put|by rewrite window_put|].
    rewrite E'. by rewrite (put_put n).
  - by intros [= <- <- <-].
Qed.

Lemma explode_local : local n (cn_explode_scratchpad SOFT_AES props).
Proof.
  apply local_intro. intros [st l sv fh] w y w' Hx E. cbn in Hx. subst l.
  unfold cn_explode_scratchpad in *. cbn [state cn_memory save_state first_half rebase ctx_based set_memory] in *.
  cbv zeta in *. rewrite Z.add_0_l in E. set (e := 16 * pad_vecs props - 16 * 128) in *.
  destruct (explode_loop _ _ _ _ w 0 e) as [[[xs1 w1] o1]|] eqn:F1; [|discriminate E]. cbn [mbind option_bind] in E.
  destruct (explode_loop _ _ _ _ w1 o1 _) as [[[xs2 w2] o2]|] eqn:F2; [|discriminate E]. cbn [mbind option_bind] in E.
  injection E as <- <-. split; [destruct (half_mem props && fh); reflexivity|]. intros p m Hm <-.
  destruct (explode_loop_window _ _ _ m p 0 e xs1 w1 o1 Hm F1) as [G1 Hw1]. rewrite Z.add_0_r in G1.
  replace (p + 16 * pad_vecs props - 16 * 128) with (p + e) by lia. rewrite G1. cbn [mbind option_bind].
  destruct (explode_loop_window (Z.to_nat (pad_vecs props)) (aes_genkey SOFT_AES (take 32 st)) xs1 (put m p w1) p o1
    (e + 16 * 128) xs2 w2 o2) as [G2 Hw2]; [by apply fits_put|by rewrite window_put|].
  replace (p + e + 16 * 128) with (p + (e + 16 * 128)) by lia. rewrite G2. cbn [mbind option_bind].
  rewrite (put_put n) by done. split; [|done]. destruct (half_mem props && fh); reflexivity.
Qed.

Lemma implode_loop_window fuel ks xs m p o i xs' :
  fits n p m -> implode_loop SOFT_AES props fuel ks xs (window n p m) o i = Some xs' ->
  implode_loop SOFT_AES props fuel ks xs m (p + o) i = Some xs'.
Proof.
  intros Hm. revert xs o i. induction fuel as [|fuel IH]; intros xs o i; cbn [implode_loop];
    destruct (i <? pad_vecs props); try done.
  destruct (load_vecs (window n p m) o 8) as [v|] eqn:F; [|done]. rewrite (load_vecs_window n p m Hm _ _ _ F).
  cbn [mbind option_bind]. intros E. replace (p + o + 128) with (p + (o + 128)) by lia. by apply IH.
Qed.

Lemma implode_local : local n (cn_implode_scratchpad SOFT_AES props).
Proof.
  intros [st l sv fh] w y w' Hx Hw E. cbn in Hx. subst l. unfold cn_implode_scratchpad in *.
  cbn [state cn_memory save_state first_half rebase ctx_based set_memory set_first_half] in *. cbv zeta in *.
  destruct (implode_loop _ _ _ _ _ w 0 0) as [xs1|] eqn:F1; [|discriminate E]. cbn [mbind option_bind] in E.
  assert (G1 : forall p m, fits n p m -> window n p m = w -> implode_loop SOFT_AES props (Z.to_nat (pad_vecs props))
    (aes_genkey SOFT_AES (slice 32 32 st)) (vecs 8 64 st) m p 0 = Some xs1).
  { intros p m Hm <-. apply implode_loop_window in F1; [|done]. by rewrite Z.add_0_r in F1. }
  destruct (half_mem props).
  - destruct (cn_explode_scratchpad _ _ _ w) as [[c1 w1]|] eqn:F2; [|discriminate E]. cbn [mbind option_bind] in E.
    destruct (implode_loop _ _ _ _ _ w1 _ 0) as [xs2|] eqn:F3; [|discriminate E]. cbn [mbind option_bind] in E.
    injection E as <- <-.
    destruct (explode_local (mk_ctx st 0 sv false) w c1 w1 eq_refl Hw F2) as (Hc1 & Hw1 & Hexp).
    cbn in Hc1. rewrite Hc1 in F3. split_and!; [done|done|]. intros p m Hm Hwin. rewrite (G1 p m Hm Hwin).
    cbn [mbind option_bind].
    match goal with |- context [cn_explode_scratchpad _ _ ?c m] => change c with (rebase p (mk_ctx st 0 sv false)) end.
    rewrite (Hexp p m Hm Hwin). cbn [mbind option_bind].
    cbn [cn_memory rebase ctx_based set_memory state].
    rewrite <-(window_put n p m w1 Hm Hw1) in F3. apply implode_loop_window in F3; [|by apply fits_put].
    rewrite Z.add_0_r in F3. by rewrite F3.
  - cbn [mbind option_bind] in E. injection E as <- <-. split_and!; [done|done|]. intros p m Hm Hwin.
    rewrite (G1 p m Hm Hwin). cbn [mbind option_bind]. by rewrite <-Hwin, put_window.
Qed.
End Phases.
