(* ===== verification/CnSpec.v ===== *)
(** * CryptoNight: the reference and the correctness of a lane.

    [cn_hash] is the description of CryptoNight variant 1: a Keccak state, a
    scratchpad filled by AES, random reads and writes in it, AES over the whole
    scratchpad, a second permutation, and one of four finalisers.  It has one
    lane, total functions and all of its memory, where the code has up to four
    interleaved lanes in a shared memory and, for two variants, only half of the
    scratchpad ([half_mem]): the other half, which the main loop never touches, is
    generated again when it is folded. *)
From S2P Require Import Prelude Stream NmAes Keccak Groestl Jh Skein CnKeccak CnAes CnBlake CryptoNight CnLanes CnLocal.

(** ** Vectors and their halves *)

Lemma slice_app_l (a b : list Z) n : length a = n -> slice 0 n (a ++ b) = a.
Proof. intros <-. unfold slice. rewrite drop_0. apply take_app_length. Qed.
Lemma slice_app_r (a b : list Z) n k : length a = n -> length b = k -> slice n k (a ++ b) = b.
Proof. intros <- <-. unfold slice. rewrite drop_app_length. by apply take_ge. Qed.

Lemma block_set hi lo : block (mm_set_epi64x hi lo).
Proof. split; [done|]. apply Forall_app_2; apply bytes_le_store. Qed.
Lemma low_set hi lo : word 64 lo -> mm_cvtsi128_si64 (mm_set_epi64x hi lo) = lo.
Proof.
  intros [? ?]. unfold mm_cvtsi128_si64, mm_set_epi64x. rewrite slice_app_l by apply length_le_store.
  rewrite le_load_store. by apply Z.mod_small.
Qed.
Lemma high_set hi lo : word 64 hi -> mm_high64 (mm_set_epi64x hi lo) = hi.
Proof.
  intros [? ?]. unfold mm_high64, mm_set_epi64x. rewrite slice_app_r by apply length_le_store.
  rewrite le_load_store. by apply Z.mod_small.
Qed.
Lemma slice_split (x : list Z) : length x = 16%nat -> slice 0 8 x ++ slice 8 8 x = x.
Proof.
  intros Hx. unfold slice. rewrite drop_0, (take_ge (drop 8 x)) by (rewrite length_drop; lia). apply take_drop.
Qed.
Lemma set_low_high x : block x -> mm_set_epi64x (mm_high64 x) (mm_cvtsi128_si64 x) = x.
Proof.
  intros [Hl Hb]. unfold mm_set_epi64x, mm_high64, mm_cvtsi128_si64. rewrite <-(slice_split x Hl) at 3.
  assert (E : forall o, (o + 8 <= 16)%nat -> le_store 8 (le_load 8 (slice o 8 x)) = slice o 8 x).
  { intros o Ho. assert (Hs : length (slice o 8 x) = 8%nat) by (apply length_slice; lia).
    pose proof (le_store_load (slice o 8 x) ltac:(by apply Forall_slice)) as E. by rewrite Hs in E. }
  by rewrite !E by lia.
Qed.
Lemma word_low x : block x -> word 64 (mm_cvtsi128_si64 x).
Proof. intros [_ Hb]. apply (word_le_load 8). by apply Forall_slice. Qed.
Lemma word_high64 x : block x -> word 64 (mm_high64 x).
Proof. intros [_ Hb]. apply (word_le_load 8). by apply Forall_slice. Qed.
#[export] Hint Resolve block_set word_low word_high64 : words.

Lemma mm_xor_zip a b : length a = 16%nat -> length b = 16%nat -> mm_xor a b = zip_with Z.lxor a b.
Proof.
  intros Ha Hb. apply list_eq_total; [rewrite length_zip_with; unfold mm_xor, AddRoundKey; rewrite length_tabulate; lia|].
  intros i Hi. unfold mm_xor, AddRoundKey in *. rewrite length_tabulate in Hi. rewrite tabulate_lookup by done.
  rewrite !list_lookup_total_alt, lookup_zip_with.
  destruct (a !! i) eqn:E; [|apply lookup_ge_None in E; lia]. by destruct (b !! i) eqn:E'; [|apply lookup_ge_None in E'; lia].
Qed.
Lemma xor_set h l h' l' :
  mm_xor (mm_set_epi64x h l) (mm_set_epi64x h' l') = mm_set_epi64x (Z.lxor h h') (Z.lxor l l').
Proof.
  rewrite mm_xor_zip by done. unfold mm_set_epi64x. rewrite !le_store_lxor.
  by rewrite zip_with_app by done.
Qed.
Lemma block_xor a b : block a -> block b -> block (mm_xor a b).
Proof. intros Ha [_ Hb]. by apply block_AddRoundKey. Qed.
#[export] Hint Resolve block_xor : words.
Lemma low_xor a b : block a -> block b -> mm_cvtsi128_si64 (mm_xor a b) = Z.lxor (mm_cvtsi128_si64 a) (mm_cvtsi128_si64 b).
Proof.
  intros Ha Hb. rewrite <-(set_low_high a Ha), <-(set_low_high b Hb) at 1. rewrite xor_set, low_set; words.
Qed.
Lemma high_xor a b : block a -> block b -> mm_high64 (mm_xor a b) = Z.lxor (mm_high64 a) (mm_high64 b).
Proof.
  intros Ha Hb. rewrite <-(set_low_high a Ha), <-(set_low_high b Hb) at 1. rewrite xor_set, high_set; words.
Qed.

(** ** The product of two words *)

(** Schoolbook multiplication in base 2^32: [P], [Q], [R], [S] are the partial products. *)
Lemma umul128_carries P Q R S :
  0 <= P <= 18446744065119617025 -> 0 <= Q <= 18446744065119617025 -> 0 <= R <= 18446744065119617025 ->
  0 <= S <= 18446744065119617025 ->
  let M := 18446744073709551616 in
  let adbc := (Q + R) mod M in
  let lo := (S + (adbc * 4294967296) mod M) mod M in
  let hi := (((P + adbc / 4294967296) mod M + ((if adbc <? Q then 1 else 0) * 4294967296) mod M) mod M
             + (if lo <? S then 1 else 0)) mod M in
  P * M + (Q + R) * 4294967296 + S = hi * M + lo /\ 0 <= lo < M.
Proof.
  intros HP HQ HR HS M adbc lo hi. subst M.
  destruct (Z.ltb_spec adbc Q); destruct (Z.ltb_spec lo S); subst hi lo adbc;
    Z.to_euclidean_division_equations; lia.
Qed.
Lemma umul128_correct a b : word 64 a -> word 64 b -> umul128 a b = (a * b / 2 ^ 64, (a * b) mod 2 ^ 64).
Proof.
  intros Ha Hb. unfold umul128, add64, mul64, shl64. rewrite !T64_mod.
  change 0xFFFFFFFF with (Z.ones 32). rewrite !Z.land_ones, !Z.shiftr_div_pow2, !Z.shiftl_mul_pow2 by lia.
  change (2 ^ 64) with 18446744073709551616 in *. change (2 ^ 32) with 4294967296 in *. unfold word in *.
  change (2 ^ 64) with 18446744073709551616 in *.
  pose proof (Z.div_mod a 4294967296 ltac:(lia)) as Ea. pose proof (Z.div_mod b 4294967296 ltac:(lia)) as Eb.
  pose proof (Z.mod_pos_bound a 4294967296 ltac:(lia)). pose proof (Z.mod_pos_bound b 4294967296 ltac:(lia)).
  assert (0 <= a / 4294967296 < 4294967296) by (split; [apply Z.div_pos|apply Z.div_lt_upper_bound]; lia).
  assert (0 <= b / 4294967296 < 4294967296) by (split; [apply Z.div_pos|apply Z.div_lt_upper_bound]; lia).
  set (A := a / 4294967296) in *. set (B := a mod 4294967296) in *.
  set (C := b / 4294967296) in *. set (D := b mod 4294967296) in *. clearbody A B C D.
  assert (Hmul : forall x y, 0 <= x < 4294967296 -> 0 <= y < 4294967296 -> 0 <= x * y <= 18446744065119617025) by nia.
  rewrite !(Z.mod_small (A * D)), !(Z.mod_small (B * D)), !(Z.mod_small (B * C)), !(Z.mod_small (A * C))
    by (split; [apply Hmul|eapply Z.le_lt_trans; [apply Hmul|]]; lia).
  destruct (umul128_carries (A * C) (A * D) (B * C) (B * D)) as [E Hlo]; [by apply Hmul..|]. cbv zeta in *.
  assert (Eab : a * b = A * C * 18446744073709551616 + (A * D + B * C) * 4294967296 + B * D) by (subst a b; ring).
  rewrite Eab, E. apply (f_equal2 pair); symmetry.
  - rewrite Z.div_add_l, (Z.div_small _ _ Hlo) by lia. apply Z.add_0_r.
  - rewrite Z.add_comm, Z.mod_add by lia. exact (Z.mod_small _ _ Hlo).
Qed.

(** ** Reference *)

(** The finalisers by their standards: BLAKE-256, Groestl-256, JH-256, Skein-512-256. *)
Definition finaliser (i : Z) (x : list Z) : list Z :=
  if i =? 0 then CnBlake.digest256 false x else if i =? 1 then Groestl.groestl_digest 32 x 0 0 else
  if i =? 2 then Jh.jh_digest 32 x 0 0 else Skein.skein_digest 32 x 0 0.
(** What the functions of the table promise on the bytes of a final state. *)
Class ExtraHashesLaws `(ExtraHashes) : Prop := {
  extra_laws : forall i x, length x = 200%nat -> bytes x -> extra_hashes i x = finaliser i x }.

Section Reference.
Context (props : CnAlgo).

(** Ten AES rounds on each of eight vectors. *)
Definition ref_rounds (ks xs : list (list Z)) : list (list Z) := foldl (fun xs k => (fun x => AesEnc x k) <$> xs) xs ks.

(** [t] groups of 128 bytes. *)
Fixpoint pad_fill (ks xs : list (list Z)) (t : nat) : list Z :=
  match t with
  | O => []
  | S t => concat (ref_rounds ks xs) ++ pad_fill ks (ref_rounds ks xs) t
  end.
Definition pad_fold (ks xs : list (list Z)) (pad : list Z) : list (list Z) :=
  foldl (fun xs g => ref_rounds ks (zip_with mm_xor (vecs 8 0 g) xs)) xs (blocks 128 pad).

(** The tweak of variant 1, on byte 11 ([VARIANT1_1] of [CryptoNight_monero.h]). *)
Definition VARIANT1_1 (p : list Z) : list Z :=
  let tmp := p !!! 11%nat in
  let index := T8 (Z.shiftl (Z.lor (Z.land (Z.shiftr tmp 3) 6) (Z.land tmp 1)) 1) in
  <[11%nat := Z.lxor tmp (Z.land (Z.shiftr 0x75310 index) 0x30)]> p.

(** One iteration on the vectors [a] and [b] and the scratchpad. *)
Definition cn_step (tw : Z) (s : list Z * list Z * list Z) : list Z * list Z * list Z :=
  let '(a, b, pad) := s in
  let p := Z.to_nat (Z.land (mm_cvtsi128_si64 a) (mask props)) in
  let c := AesEnc (slice p 16 pad) a in
  let pad := memcpy pad p (VARIANT1_1 (mm_xor b c)) in
  let q := Z.to_nat (Z.land (mm_cvtsi128_si64 c) (mask props)) in
  let d := slice q 16 pad in
  let prod := mm_cvtsi128_si64 c * mm_cvtsi128_si64 d in
  let lo := add64 (mm_cvtsi128_si64 a) (prod / 2 ^ 64) in
  let hi := add64 (mm_high64 a) (prod mod 2 ^ 64) in
  let pad := memcpy pad q (mm_set_epi64x (Z.lxor hi tw) lo) in
  (mm_xor (mm_set_epi64x hi lo) d, c, pad).

Definition state_word (st : list Z) (i : nat) : Z := le_load 8 (slice (8 * i) 8 st).
Definition start_a (st : list Z) : list Z :=
  mm_set_epi64x (Z.lxor (state_word st 1) (state_word st 5)) (Z.lxor (state_word st 0) (state_word st 4)).
Definition start_b (st : list Z) : list Z :=
  mm_set_epi64x (Z.lxor (state_word st 3) (state_word st 7)) (Z.lxor (state_word st 2) (state_word st 6)).

Definition cn_hash (input : list Z) : list Z :=
  if (length input <? 43)%nat then replicate 32 0 else
  let st := keccak_digest 200 136 input in
  let tw := Z.lxor (le_load 8 (slice 35 8 input)) (state_word st 24) in
  let pad := pad_fill (aes256_round_keys (take 32 st)) (vecs 8 64 st) (Z.to_nat (memory props / 128)) in
  let '(_, _, pad) := Nat.iter (Z.to_nat (iterations props)) (cn_step tw) (start_a st, start_b st, pad) in
  let xs := pad_fold (aes256_round_keys (slice 32 32 st)) (vecs 8 64 st) pad in
  let st := memcpy st 64 (concat xs) in
  let st := flat_map (le_store 8) (keccak_f (state_word st <$> seq 0 25)) in
  finaliser (Z.land (st !!! 0%nat) 3) st.
End Reference.

(** ** Sizes *)

(** What the functions rely on: the bytes of one lane are a whole number of
    groups, at least 17 of them, and the mask selects vectors inside them. *)
Definition lane_bytes (props : CnAlgo) : Z := 16 * pad_vecs props.
Definition lane_size (props : CnAlgo) : nat := Z.to_nat (lane_bytes props).
Definition lane_groups (props : CnAlgo) : nat := Z.to_nat (lane_bytes props / 128).
Record algo_ok (props : CnAlgo) : Prop := {
  ok_groups : lane_bytes props mod 128 = 0;
  ok_size : 2176 <= lane_bytes props;
  ok_memory : memory props = if half_mem props then 2 * lane_bytes props else lane_bytes props;
  ok_mask : 0 <= mask props /\ mask props + 16 <= lane_bytes props;
  ok_align : mask props mod 16 = 0 }.

Lemma gr_algos_ok id : In id [CN_GR_0; CN_GR_1; CN_GR_2; CN_GR_3; CN_GR_4; CN_GR_5] -> algo_ok (cn_algo id).
Proof. intros Hid. repeat destruct Hid as [<-|Hid]; [..|done]; split; vm_compute; done. Qed.
(** All six are based on variant 1. *)
Lemma gr_algos_base id : In id [CN_GR_0; CN_GR_1; CN_GR_2; CN_GR_3; CN_GR_4; CN_GR_5] -> base id = CN_1.
Proof. intros Hid. repeat destruct Hid as [<-|Hid]; [..|done]; vm_compute; done. Qed.
