(* ===== verification/CnExtra.v ===== *)
(** * The finalisers of CryptoNight ([extra_hashes] of [crypto/cn/CryptoNight_x86.h]).

    The four functions of the table over the modelled BLAKE-256, Groestl-256, JH and Skein,
    and the proof that they keep the promise the hash functions rely on. *)
From S2P Require Import Prelude Groestl Jh Skein SphCore CnBlake CnGroestl CnJh CnSkein CnAes CryptoNight CnLanes CnLocal CnSpec.

(** What the stack of each function holds when it is entered, and the bytes of the caller's
    output buffer.  It may be different for every call. *)
Record Stack := mk_stack {
  blake_state : CnBlake.state;
  groestl_buffer : list Z;
  jh_state : CnJh.hashState;
  skein_state : CnSkein.Skein_512_Ctxt_t;
  old_output : list Z }.
Definition stack_ok (s : Stack) : Prop :=
  length (CnBlake.buf (blake_state s)) = 64%nat /\ bytes (CnBlake.buf (blake_state s)) /\
  length (groestl_buffer s) = 64%nat /\
  length (CnJh.buffer (jh_state s)) = 64%nat /\ bytes (CnJh.buffer (jh_state s)) /\
  length (CnSkein.cb (skein_state s)) = 64%nat /\ length (old_output s) = 32%nat.

(** Without extra bits the last byte has only the padding bit. *)
Lemma last_bits_0 ub : last_bits ub 0 = last_bits 0 0.
Proof. unfold last_bits. change (256 - 2 ^ (8 - 0)) with 0. by rewrite !Z.land_0_r. Qed.

Lemma finaliser_digest i x : bytes x -> length (finaliser i x) = 32%nat /\ bytes (finaliser i x).
Proof.
  intros Hx. unfold finaliser. destruct (i =? 0); [|destruct (i =? 1); [|destruct (i =? 2)]].
  - apply CnBlake.digest256_bytes.
  - apply Groestl.bytes_groestl_digest; [apply Nat.leb_le; reflexivity|done|by apply word_0|lia].
  - apply Jh.length_jh_digest. apply Nat.leb_le. reflexivity.
  - apply Skein.length_skein_digest. apply Nat.leb_le. reflexivity.
Qed.

Section Code.
Context (stack : list Z -> Stack).
Definition blake_hash (input : list Z) : list Z := CnBlake.blake256_hash (blake_state (stack input)) input.
(** An access outside of the buffers gives no digest. *)
Definition groestl_hash (input : list Z) : list Z :=
  default [] (CnGroestl.groestl (groestl_buffer (stack input)) input (Z.of_nat (length input) * 8)).
(** The return code is ignored: without a digest the output stays as it was. *)
Definition jh_hash (input : list Z) : list Z :=
  match CnJh.jh_hash (jh_state (stack input)) (32 * 8) input (8 * Z.of_nat (length input)) with
  | None => []
  | Some (_, out) => default (old_output (stack input)) out
  end.
Definition skein_hash (input : list Z) : list Z := CnSkein.xmr_skein (skein_state (stack input)) input (old_output (stack input)).

Definition extra_code : ExtraHashes :=
  {| do_blake_hash := blake_hash; do_groestl_hash := groestl_hash; do_jh_hash := jh_hash; do_skein_hash := skein_hash |}.

Hypothesis stack_fits : forall x, stack_ok (stack x).
Lemma extra_code_laws : ExtraHashesLaws extra_code.
Proof.
  split. intros i x Hx Hb. destruct (stack_fits x) as (H1 & H2 & H3 & H4 & H5 & H6 & H7). unfold extra_hashes, finaliser. cbn [extra_code do_blake_hash do_groestl_hash do_jh_hash do_skein_hash].
  assert (H200 : 8 * Z.of_nat (length x) < 2 ^ 64) by (rewrite Hx; reflexivity). destruct (i =? 0); [|destruct (i =? 1); [|destruct (i =? 2)]].
  - exact (CnBlake.blake256_hash_ref false _ x H1 H2 Hb H200).
  - unfold groestl_hash. rewrite Hx. pose proof (CnGroestl.groestl_ref (groestl_buffer (stack x)) x 200 0 H3 Hb) as E. change (8 * Z.of_nat 200 + 0) with (Z.of_nat 200 * 8) in E. rewrite E; [|lia|reflexivity|rewrite Hx; apply Nat.le_refl].
    cbn [default]. rewrite take_ge by lia. unfold Groestl.groestl_digest, Groestl.groestl_pad. by rewrite last_bits_0.
  - unfold jh_hash. pose proof (CnJh.jh_hash_ref (jh_state (stack x)) 32 x ltac:(tauto) H4 H5 Hb H200) as E. change (8 * Z.of_nat 32) with (32 * 8) in E. rewrite E. reflexivity.
  - unfold skein_hash. exact (CnSkein.xmr_skein_ref _ x _ H6 Hx H7).
Qed.
End Code.
