(* ===== verification/CnCorrect.v ===== *)
(** * CryptoNight: the code computes the reference. *)
From S2P Require Import Prelude Stream NmAes Keccak CnKeccak CnAes CryptoNight CnLanes CnLocal CnSpec.

(** ** Vectors in memory *)

Lemma memcpy_adjacent (m a b : list Z) off :
  (off + length a + length b <= length m)%nat ->
  memcpy (memcpy m off a) (off + length a) b = memcpy m off (a ++ b).
Proof.
  intros H. apply list_eq. intros i.
  rewrite !lookup_memcpy by (rewrite ?length_memcpy, ?length_app; lia). rewrite length_app, lookup_app.
  destruct (a !! (i - off)%nat) eqn:E.
  - apply lookup_lt_Some in E. repeat case_decide; try lia; done.
  - apply lookup_ge_None in E. repeat case_decide; try lia; try done. f_equal. lia.
Qed.

Lemma in_bounds_intro m p n : 0 <= p -> 0 <= n -> (Z.to_nat p + Z.to_nat n <= length m)%nat -> in_bounds m p n = true.
Proof. intros. unfold in_bounds. apply andb_true_intro. split; apply Z.leb_le; lia. Qed.
Lemma load128_ok m p : 0 <= p -> p mod 16 = 0 -> (Z.to_nat p + 16 <= length m)%nat -> load128 m p = Some (slice (Z.to_nat p) 16 m).
Proof. intros. unfold load128. rewrite in_bounds_intro by lia. by rewrite (proj2 (Z.eqb_eq _ _)). Qed.
Lemma store128_ok m p v :
  0 <= p -> p mod 16 = 0 -> (Z.to_nat p + 16 <= length m)%nat -> length v = 16%nat ->
  store128 m p v = Some (memcpy m (Z.to_nat p) v).
Proof.
  intros ? ? ? Hv. unfold store128. rewrite in_bounds_intro by lia. rewrite (proj2 (Z.eqb_eq _ _)) by done. by rewrite Hv.
Qed.
Lemma load64_ok m p : 0 <= p -> (Z.to_nat p + 8 <= length m)%nat -> load64 m p = Some (le_load 8 (slice (Z.to_nat p) 8 m)).
Proof. intros. unfold load64. by rewrite in_bounds_intro by lia. Qed.
Lemma store64_ok m p v : 0 <= p -> (Z.to_nat p + 8 <= length m)%nat -> store64 m p v = Some (memcpy m (Z.to_nat p) (le_store 8 v)).
Proof. intros. unfold store64. by rewrite in_bounds_intro by lia. Qed.

Definition vec16 (x : list Z) : Prop := length x = 16%nat.
Lemma length_concat_vecs xs : Forall vec16 xs -> length (concat xs) = (16 * length xs)%nat.
Proof. induction 1 as [|x xs Hx _ IH]; [done|]. cbn [concat length]. unfold vec16 in Hx. rewrite length_app. lia. Qed.

Lemma store_vecs_ok m p xs :
  0 <= p -> p mod 16 = 0 -> Forall vec16 xs -> (Z.to_nat p + 16 * length xs <= length m)%nat ->
  store_vecs m p xs = Some (memcpy m (Z.to_nat p) (concat xs)).
Proof.
  revert m p. induction xs as [|x xs IH]; intros m p Hp Ha Hxs Hl; cbn [store_vecs concat].
  { unfold memcpy. cbn [length app] in *. by rewrite Nat.add_0_r, take_drop. }
  apply Forall_cons_1 in Hxs as [Hx Hxs]. cbn [length] in Hl. unfold vec16 in Hx.
  rewrite store128_ok by (done || lia). cbn [mbind option_bind].
  rewrite IH; [|lia|rewrite Z.add_mod, Ha by lia; done|done|rewrite length_memcpy; lia].
  f_equal. replace (Z.to_nat (p + 16)) with (Z.to_nat p + length x)%nat by lia.
  apply memcpy_adjacent. rewrite (length_concat_vecs xs) by done. lia.
Qed.
Lemma vecs_S n off p : vecs (S n) off p = slice off 16 p :: vecs n (off + 16) p.
Proof.
  unfold vecs. rewrite <-cons_seq. cbn [fmap list_fmap]. f_equal; [f_equal; lia|].
  rewrite <-fmap_S_seq, <-list_fmap_compose. apply list_fmap_ext. intros i x _. cbn. f_equal. lia.
Qed.
Lemma load_vecs_ok m p k :
  0 <= p -> p mod 16 = 0 -> (Z.to_nat p + 16 * k <= length m)%nat -> load_vecs m p k = Some (vecs k (Z.to_nat p) m).
Proof.
  revert p. induction k as [|k IH]; intros p Hp Ha Hl; [done|]. cbn [load_vecs].
  rewrite load128_ok by lia. cbn [mbind option_bind].
  rewrite IH; [|lia|rewrite Z.add_mod, Ha by lia; done|lia]. cbn [mbind option_bind].
  rewrite vecs_S. do 2 f_equal. f_equal. lia.
Qed.
Lemma block_vecs k off p : bytes p -> (off + 16 * k <= length p)%nat -> Forall block (vecs k off p).
Proof.
  intros Hb Hl. apply Forall_fmap, Forall_seq. intros j Hj. split; [|by apply Forall_slice]. apply length_slice. lia.
Qed.
Lemma length_vecs k off p : length (vecs k off p) = k.
Proof. unfold vecs. by rewrite length_fmap, length_seq. Qed.

(** The vectors of a concatenation of vectors. *)
Lemma vecs_concat xs : Forall vec16 xs -> vecs (length xs) 0 (concat xs) = xs.
Proof.
  induction xs as [|x xs IH]; intros Hxs; [done|]. apply Forall_cons_1 in Hxs as [Hx Hxs]. unfold vec16 in Hx.
  cbn [length concat]. rewrite vecs_S. f_equal; [by apply slice_app_l|].
  transitivity (vecs (length xs) 0 (concat xs)); [|by apply IH]. apply list_fmap_ext. intros i k _. cbn. unfold slice. f_equal.
  rewrite drop_app_ge by lia. f_equal. lia.
Qed.

(** ** AES on groups of eight vectors *)

#[local] Opaque AesEnc.

Definition group (xs : list (list Z)) : Prop := length xs = 8%nat /\ Forall block xs.
Lemma group_vec16 xs : group xs -> Forall vec16 xs.
Proof. intros [_ H]. refine (List.Forall_impl _ _ H). by intros x []. Qed.
Lemma group_vecs off p : bytes p -> (off + 128 <= length p)%nat -> group (vecs 8 off p).
Proof. intros. split; [done|]. apply block_vecs; [done|lia]. Qed.
Lemma group_xor xs ys : group xs -> group ys -> group (zip_with mm_xor xs ys).
Proof.
  intros [Hx Bx] [Hy By]. split; [rewrite length_zip_with; lia|]. apply Forall_lookup. intros i z Hz.
  rewrite lookup_zip_with in Hz. destruct (xs !! i) as [x|] eqn:E1; [|done].
  destruct (ys !! i) as [y|] eqn:E2; [|done]. injection Hz as <-.
  apply block_xor; [exact (Forall_lookup_1 _ _ _ _ Bx E1)|exact (Forall_lookup_1 _ _ _ _ By E2)].
Qed.
Lemma group_ref_rounds ks xs : Forall block ks -> group xs -> group (ref_rounds ks xs).
Proof.
  intros Hks. revert xs. induction Hks as [|k ks Hk _ IH]; intros xs Hxs; [done|]. cbn [ref_rounds foldl].
  apply IH. destruct Hxs as [Hl Hb]. split; [by rewrite length_fmap|]. apply Forall_fmap.
  refine (List.Forall_impl _ _ Hb). intros x Hx. exact (block_AesEnc x k Hx Hk).
Qed.
Fixpoint iter_rounds (ks xs : list (list Z)) (t : nat) : list (list Z) :=
  match t with O => xs | S t => iter_rounds ks (ref_rounds ks xs) t end.
Lemma group_iter ks xs t : Forall block ks -> group xs -> group (iter_rounds ks xs t).
Proof. intros Hks. revert xs. induction t as [|t IH]; intros xs Hxs; [done|]. by apply IH, group_ref_rounds. Qed.
Lemma length_pad_fill ks xs t : Forall block ks -> group xs -> length (pad_fill ks xs t) = (128 * t)%nat.
Proof.
  intros Hks. revert xs. induction t as [|t IH]; intros xs Hxs; [done|]. cbn [pad_fill].
  pose proof (group_ref_rounds ks xs Hks Hxs) as Hr.
  rewrite length_app, IH, length_concat_vecs by (done || by apply group_vec16). destruct Hr as [-> _]. lia.
Qed.
Lemma bytes_concat xs : Forall block xs -> bytes (concat xs).
Proof. induction 1 as [|x xs [_ Hx] _ IH]; [constructor|]. by apply Forall_app_2. Qed.
Lemma bytes_pad_fill ks xs t : Forall block ks -> group xs -> bytes (pad_fill ks xs t).
Proof.
  intros Hks. revert xs. induction t as [|t IH]; intros xs Hxs; [constructor|]. cbn [pad_fill].
  pose proof (group_ref_rounds ks xs Hks Hxs) as Hr. apply Forall_app_2; [by apply bytes_concat, Hr|by apply IH].
Qed.
(** Filling goes on from the vectors it stopped at. *)
Lemma pad_fill_app ks xs s t : pad_fill ks xs (s + t) = pad_fill ks xs s ++ pad_fill ks (iter_rounds ks xs s) t.
Proof. revert xs. induction s as [|s IH]; intros xs; [done|]. cbn [Nat.add pad_fill iter_rounds]. by rewrite IH, (assoc_L (++)). Qed.
Lemma iter_rounds_app ks xs s t : iter_rounds ks (iter_rounds ks xs s) t = iter_rounds ks xs (s + t).
Proof. revert xs. induction s as [|s IH]; intros xs; [done|]. cbn [Nat.add iter_rounds]. apply IH. Qed.

Section Correct.
Context `{AesNiLaws, AesKeyGenLaws, ExtraHashes}.
Context (SOFT_AES : bool) (props : CnAlgo).
Hypothesis Hok : algo_ok props.

#[local] Abbreviation n := (lane_size props).
#[local] Abbreviation groups := (lane_groups props).

Lemma n_groups : n = (128 * groups)%nat /\ (17 <= groups)%nat.
Proof.
  pose proof (ok_groups _ Hok) as Hg. pose proof (ok_size _ Hok).
  pose proof (Z.div_mod (lane_bytes props) 128 ltac:(lia)) as E. rewrite Hg, Z.add_0_r in E.
  assert (17 <= lane_bytes props / 128) by (apply Z.div_le_lower_bound; lia). unfold lane_size, lane_groups. split; lia.
Qed.

Lemma rounds_ref ks xs : Forall block ks -> group xs -> rounds10 SOFT_AES ks xs = ref_rounds ks xs.
Proof.
  intros Hks. revert xs. induction Hks as [|k ks Hk Hks IH]; intros xs Hxs; [done|].
  unfold rounds10, ref_rounds. cbn [foldl].
  assert (E : aes_round SOFT_AES k xs = (fun x => AesEnc x k) <$> xs).
  { destruct Hxs as [_ Hb]. apply list_fmap_ext. intros i x Hx. apply aesenc_ref; [|done].
    exact (Forall_lookup_1 _ _ _ _ Hb Hx). }
  rewrite E. apply IH. by apply (group_ref_rounds [k] xs); [repeat constructor; apply Hk|].
Qed.

(** [t] trips of the filling loop. *)
Lemma explode_loop_ok ks t fuel xs w o :
  Forall block ks -> group xs -> (t < fuel)%nat -> 0 <= o -> o mod 16 = 0 ->
  (Z.to_nat o + 128 * S t <= length w)%nat ->
  explode_loop SOFT_AES fuel ks xs w o (o + 128 * Z.of_nat (S t))
  = Some (iter_rounds ks xs (S t), memcpy w (Z.to_nat o) (pad_fill ks xs (S t)), o + 128 * Z.of_nat (S t)).
Proof.
  intros Hks. revert fuel xs w o. induction t as [|t IH]; intros fuel xs w o Hxs Hf Ho Ha Hl;
    (destruct fuel as [|fuel]; [lia|]); cbn [explode_loop]; cbv zeta;
    pose proof (group_ref_rounds ks xs Hks Hxs) as Hr; pose proof (group_vec16 _ Hr) as Hv;
    rewrite rounds_ref, store_vecs_ok by (done || (rewrite (proj1 Hr); lia)); cbn [mbind option_bind].
  - rewrite (proj2 (Z.ltb_ge _ _)) by lia. cbn [pad_fill iter_rounds]. rewrite app_nil_r. do 3 f_equal; lia.
  - rewrite (proj2 (Z.ltb_lt _ _)) by lia.
    assert (Hc : length (concat (ref_rounds ks xs)) = 128%nat) by (rewrite length_concat_vecs, (proj1 Hr) by done; lia).
    replace (o + 128 * Z.of_nat (S (S t))) with (o + 128 + 128 * Z.of_nat (S t)) by lia.
    rewrite IH; [|done|lia|lia|rewrite Z.add_mod, Ha by lia; done|rewrite length_memcpy; lia].
    do 3 f_equal. replace (Z.to_nat (o + 128)) with (Z.to_nat o + length (concat (ref_rounds ks xs)))%nat by lia.
    rewrite memcpy_adjacent; [done|]. rewrite length_pad_fill by done. lia.
Qed.

(** Filling a scratchpad at address 0: its previous contents do not matter. *)
Definition fill_from (c : cryptonight_ctx) : list (list Z) :=
  if half_mem props && negb (first_half c) then vecs 8 0 (save_state c) else vecs 8 64 (state c).
Definition state_ok (st : list Z) : Prop := length st = 224%nat /\ bytes st.
Definition keys1 (c : cryptonight_ctx) : list (list Z) := aes256_round_keys (take 32 (state c)).

Lemma keys1_ok c : state_ok (state c) -> Forall block (keys1 c) /\ aes_genkey SOFT_AES (take 32 (state c)) = keys1 c.
Proof.
  intros [Hl Hb]. assert (length (take 32 (state c)) = 32%nat) by (rewrite length_take; lia).
  split; [by apply round_keys_blocks; [|apply Forall_take]|by apply aes_genkey_ref; [|apply Forall_take]].
Qed.

Lemma explode_ok c w :
  cn_memory c = 0 -> state_ok (state c) -> group (fill_from c) -> length w = n ->
  cn_explode_scratchpad SOFT_AES props c w
  = Some (if half_mem props && first_half c then set_save c (concat (iter_rounds (keys1 c) (fill_from c) groups)) else c,
          pad_fill (keys1 c) (fill_from c) groups).
Proof.
  intros Hc Hst Hg Hw. destruct (keys1_ok c Hst) as [Hks Ek]. destruct n_groups as [Hn H17].
  unfold cn_explode_scratchpad. rewrite Ek, Hc. cbv zeta. fold (fill_from c). unfold lane_size, lane_bytes in *.
  set (G := lane_groups props) in *.
  replace (0 + 16 * pad_vecs props - 16 * 128) with (0 + 128 * Z.of_nat (S (G - 17))) by lia.
  rewrite explode_loop_ok by (done || lia). cbn [mbind option_bind].
  set (s := S (G - 17)) in *. replace (0 + 128 * Z.of_nat s + 16 * 128) with (0 + 128 * Z.of_nat s + 128 * Z.of_nat 16) by lia.
  rewrite explode_loop_ok; [|done|by apply group_iter|lia|lia| |].
  - cbn [mbind option_bind]. rewrite iter_rounds_app. replace (s + 16)%nat with G by lia.
    do 2 f_equal. replace (Z.to_nat (0 + 128 * Z.of_nat s)) with (0 + length (pad_fill (keys1 c) (fill_from c) s))%nat
      by (rewrite length_pad_fill by done; lia).
    rewrite memcpy_adjacent by (rewrite !length_pad_fill by (done || by apply group_iter); lia).
    rewrite <-pad_fill_app. replace (s + 16)%nat with G by lia.
    unfold memcpy. rewrite drop_ge by (rewrite length_pad_fill by done; lia). by rewrite app_nil_r.
  - rewrite Z.add_0_l. replace (128 * Z.of_nat s) with (8 * Z.of_nat s * 16) by lia. apply Z.mod_mul. lia.
  - rewrite length_memcpy by (rewrite length_pad_fill by done; lia). lia.
Qed.

(** ** Folding the scratchpad *)

Definition fold1 (ks xs : list (list Z)) (g : list Z) : list (list Z) := ref_rounds ks (zip_with mm_xor (vecs 8 0 g) xs).

Lemma vecs_slice k off p : vecs k off p = vecs k 0 (slice off (16 * k) p).
Proof.
  apply list_fmap_ext. intros j i Hi. apply lookup_seq in Hi as [-> Hi]. cbv beta. rewrite slice_slice by lia. f_equal; lia.
Qed.

Lemma implode_loop_ok ks t fuel xs w i :
  Forall block ks -> group xs -> bytes w -> length w = n -> (t <= fuel)%nat -> 0 <= i ->
  i + 8 * Z.of_nat t = pad_vecs props ->
  let r := foldl (fold1 ks) xs (nblocks 128 t (drop (Z.to_nat (16 * i)) w)) in
  implode_loop SOFT_AES props fuel ks xs w (16 * i) i = Some r /\ group r.
Proof.
  intros Hks Hxs Hb Hw. revert fuel xs i Hxs. induction t as [|t IH]; intros fuel xs i Hxs Hf Hi E; cbv zeta.
  - destruct fuel; cbn [implode_loop]; by rewrite (proj2 (Z.ltb_ge _ _)) by lia.
  - destruct fuel as [|fuel]; [lia|]. cbn [implode_loop]. rewrite (proj2 (Z.ltb_lt _ _)) by lia.
    assert (Hl : (Z.to_nat (16 * i) + 128 <= length w)%nat) by (rewrite Hw; unfold lane_size, lane_bytes; lia).
    rewrite load_vecs_ok; [|lia|rewrite Z.mul_comm; apply Z.mod_mul; lia|lia]. cbn [mbind option_bind nblocks foldl].
    assert (Hg : group (zip_with mm_xor (vecs 8 (Z.to_nat (16 * i)) w) xs)) by by apply group_xor; [apply group_vecs|].
    rewrite rounds_ref by done. replace (16 * i + 128) with (16 * (i + 8)) by lia.
    assert (F : ref_rounds ks (zip_with mm_xor (vecs 8 (Z.to_nat (16 * i)) w) xs)
                = fold1 ks xs (take 128 (drop (Z.to_nat (16 * i)) w))).
    { unfold fold1. by rewrite (vecs_slice 8 (Z.to_nat (16 * i)) w). }
    pose proof (group_ref_rounds ks _ Hks Hg) as Hr. rewrite F in *.
    rewrite drop_drop. replace (Z.to_nat (16 * i) + 128)%nat with (Z.to_nat (16 * (i + 8))) by lia.
    apply IH; [done|lia|lia|lia].
Qed.

Lemma implode_pass ks xs w :
  Forall block ks -> group xs -> bytes w -> length w = n ->
  implode_loop SOFT_AES props (Z.to_nat (pad_vecs props)) ks xs w 0 0 = Some (pad_fold ks xs w) /\ group (pad_fold ks xs w).
Proof.
  intros Hks Hxs Hb Hw. destruct n_groups as [Hn H17]. pose proof (ok_size _ Hok). pose proof (ok_groups _ Hok) as Hg.
  assert (Hp : 8 * Z.of_nat groups = pad_vecs props).
  { unfold lane_groups, lane_bytes in *. Z.to_euclidean_division_equations. lia. }
  destruct (implode_loop_ok ks groups (Z.to_nat (pad_vecs props)) xs w 0) as [E G]; try done; try lia.
  cbv zeta in *. change (Z.to_nat (16 * 0)) with 0%nat in *. rewrite drop_0 in *.
  unfold pad_fold, blocks. rewrite Hw, Hn, Nat.mul_comm, Nat.div_mul by lia. exact (conj E G).
Qed.

Definition keys2 (c : cryptonight_ctx) : list (list Z) := aes256_round_keys (slice 32 32 (state c)).
Lemma keys2_ok c : state_ok (state c) -> Forall block (keys2 c) /\ aes_genkey SOFT_AES (slice 32 32 (state c)) = keys2 c.
Proof.
  intros [Hl Hb]. assert (length (slice 32 32 (state c)) = 32%nat) by (apply length_slice; lia).
  split; [by apply round_keys_blocks; [|apply Forall_slice]|by apply aes_genkey_ref; [|apply Forall_slice]].
Qed.

(** The whole of a folded scratchpad: with half of the memory, the second half is
    filled again, from the vectors saved when the first one was. *)
Definition folded_pad (c : cryptonight_ctx) (w : list Z) : list Z :=
  if half_mem props then w ++ pad_fill (keys1 c) (vecs 8 0 (save_state c)) groups else w.
Definition folded (c : cryptonight_ctx) (w : list Z) : list (list Z) :=
  pad_fold (keys2 c) (vecs 8 64 (state c)) (folded_pad c w).

Lemma implode_ok c w :
  cn_memory c = 0 -> state_ok (state c) -> (half_mem props = true -> length (save_state c) = 128%nat /\ bytes (save_state c)) ->
  bytes w -> length w = n ->
  exists c' w', cn_implode_scratchpad SOFT_AES props c w = Some (c', w') /\
    state c' = memcpy (state c) 64 (concat (folded c w)) /\ group (folded c w) /\ cn_memory c' = 0 /\ length w' = n.
Proof.
  intros Hc Hst Hsv Hb Hw. destruct (keys2_ok c Hst) as [Hks Ek]. pose proof Hst as [Hl Hsb].
  assert (Hx : group (vecs 8 64 (state c))) by (apply group_vecs; [done|lia]).
  destruct (implode_pass (keys2 c) _ w Hks Hx Hb Hw) as [E1 G1].
  unfold cn_implode_scratchpad, folded, folded_pad. rewrite Ek, Hc. cbv zeta. rewrite E1. cbn [mbind option_bind].
  destruct (half_mem props) eqn:Eh.
  - destruct (Hsv eq_refl) as [Hs Hs']. set (c1 := set_first_half c false).
    assert (Ef : fill_from c1 = vecs 8 0 (save_state c)) by (unfold fill_from; by rewrite Eh).
    assert (Hg : group (fill_from c1)) by (rewrite Ef; apply group_vecs; [done|lia]).
    destruct (keys1_ok c Hst) as [Hk1 _]. pose proof n_groups as [Hn _].
    rewrite (explode_ok c1 w) by done. rewrite Eh. cbn [first_half c1 set_first_half andb mbind option_bind].
    change (keys1 c1) with (keys1 c). rewrite Ef in *. set (w2 := pad_fill _ _ _).
    assert (Hw2 : length w2 = n) by (unfold w2; rewrite length_pad_fill by done; lia).
    destruct (implode_pass (keys2 c) _ w2 Hks G1 ltac:(by apply bytes_pad_fill) Hw2) as [E2 G2].
    cbn [cn_memory c1 set_first_half]. rewrite Hc, E2. cbn [mbind option_bind]. do 2 eexists. split; [reflexivity|].
    assert (Ep : pad_fold (keys2 c) (pad_fold (keys2 c) (vecs 8 64 (state c)) w) w2
                 = pad_fold (keys2 c) (vecs 8 64 (state c)) (w ++ w2)).
    { unfold pad_fold. rewrite blocks_app, foldl_app; [done|lia|]. rewrite Hw, Hn, Nat.mul_comm. apply Nat.Div0.mod_mul. }
    rewrite Ep in *. by split_and!.
  - cbn [mbind option_bind]. do 2 eexists. split; [reflexivity|]. by split_and!.
Qed.
End Correct.
