(* ===== verification/CnLoop.v ===== *)
(** * CryptoNight: the main loop computes the reference. *)
From S2P Require Import Prelude Stream NmAes Keccak CnKeccak CnAes CryptoNight CnLanes CnLocal CnSpec CnCorrect.

(** ** The tweak of variant 1: the table is the macro *)

Definition tweak_bits (tmp : Z) : Z :=
  Z.land (Z.shiftr 0x75310 (T8 (Z.shiftl (Z.lor (Z.land (Z.shiftr tmp 3) 6) (Z.land tmp 1)) 1))) 0x30.

Lemma tweak_table_row tmp :
  word 8 tmp -> le_store 8 (tweak1_table !!! Z.to_nat tmp) = [0; 0; 0; tweak_bits tmp; 0; 0; 0; 0].
Proof.
  intros Ht. set (P := fun tmp => bool_decide (le_store 8 (tweak1_table !!! Z.to_nat tmp) = [0; 0; 0; tweak_bits tmp; 0; 0; 0; 0])).
  assert (HP : all_bytes P = true) by (vm_compute; reflexivity).
  apply (all_bytes_spec P HP) in Ht. by apply bool_decide_eq_true_1 in Ht.
Qed.

(** [static_cast<uint32_t>(vh) >> 24] is byte 11 of the vector. *)
Lemma high_byte3 v : block v -> Z.shiftr (T32 (mm_high64 v)) 24 = v !!! 11%nat.
Proof.
  intros [Hl Hb]. unfold mm_high64, T32. rewrite Z.shiftr_land. change (Z.shiftr 0xFFFFFFFF 24) with 0xFF.
  assert (Hs : bytes (slice 8 8 v)) by by apply Forall_slice.
  transitivity (slice 8 8 v !!! 3%nat).
  - exact (gather_byte 8 (fun i => slice 8 8 v !!! i) 3 (fun i _ => bytes_lookup _ i Hs) ltac:(lia)).
  - rewrite !list_lookup_total_alt, lookup_slice. done.
Qed.

Lemma tweak_bytes v :
  block v ->
  mm_set_epi64x (Z.lxor (mm_high64 v) (tweak1_table !!! Z.to_nat (Z.shiftr (T32 (mm_high64 v)) 24))) (mm_cvtsi128_si64 v)
  = VARIANT1_1 v.
Proof.
  intros Hv. unfold mm_set_epi64x. rewrite high_byte3 by done. pose proof Hv as [Hl Hb].
  rewrite le_store_lxor, tweak_table_row by by apply bytes_lookup.
  pose proof (set_low_high v Hv) as E. unfold mm_set_epi64x in E.
  assert (E1 : le_store 8 (mm_cvtsi128_si64 v) = slice 0 8 v).
  { rewrite <-E at 2. rewrite slice_app_l by apply length_le_store. done. }
  assert (E2 : le_store 8 (mm_high64 v) = slice 8 8 v).
  { rewrite <-E at 2. rewrite slice_app_r by apply length_le_store. done. }
  rewrite E1, E2. unfold VARIANT1_1. cbv zeta. fold (tweak_bits (v !!! 11%nat)). clear E E1 E2 Hb Hv.
  do 16 (destruct v as [|? v]; [discriminate Hl|]). destruct v; [|discriminate Hl].
  change (_ !!! 11%nat) with z10. generalize (tweak_bits z10). intros t. cbn. rewrite !Z.lxor_0_r. done.
Qed.

Lemma block_VARIANT1_1 v : block v -> block (VARIANT1_1 v).
Proof. intros Hv. rewrite <-tweak_bytes by done. apply block_set. Qed.

Lemma load_low m p : 0 <= p -> (Z.to_nat p + 16 <= length m)%nat ->
  load64 m p = Some (mm_cvtsi128_si64 (slice (Z.to_nat p) 16 m)).
Proof. intros. rewrite load64_ok by lia. unfold mm_cvtsi128_si64. by rewrite slice_slice, Nat.add_0_r by lia. Qed.
Lemma load_high m p : 0 <= p -> (Z.to_nat p + 16 <= length m)%nat ->
  load64 m (p + 8) = Some (mm_high64 (slice (Z.to_nat p) 16 m)).
Proof. intros. rewrite load64_ok by lia. unfold mm_high64. rewrite slice_slice by lia. do 3 f_equal. lia. Qed.
Lemma slice_app_in (x y : list Z) o j : (o + j <= length x)%nat -> slice o j (x ++ y) = slice o j x.
Proof. intros Hl. unfold slice. rewrite drop_app_le, take_app_le by (rewrite ?length_drop; lia). done. Qed.
Lemma memcpy_app_in (x y v : list Z) o : (o + length v <= length x)%nat -> memcpy (x ++ y) o v = memcpy x o v ++ y.
Proof. intros Hl. unfold memcpy. rewrite take_app_le, drop_app_le by lia. by rewrite <-!(assoc_L (++)). Qed.
(** Two words stored next to each other are a vector. *)
Lemma store_words m p lo hi : 0 <= p -> (Z.to_nat p + 16 <= length m)%nat ->
  (m1 ← store64 m p lo; store64 m1 (p + 8) hi) = Some (memcpy m (Z.to_nat p) (mm_set_epi64x hi lo)).
Proof.
  intros. rewrite store64_ok by lia. cbn [mbind option_bind].
  rewrite store64_ok; [|lia|rewrite length_memcpy; rewrite ?length_le_store; lia]. f_equal.
  replace (Z.to_nat (p + 8)) with (Z.to_nat p + length (le_store 8 lo))%nat by (rewrite length_le_store; lia).
  rewrite memcpy_adjacent by (rewrite !length_le_store; lia). done.
Qed.

Lemma store_pair m p lo hi : 0 <= p -> (Z.to_nat p + 16 <= length m)%nat ->
  exists m1, store64 m p lo = Some m1 /\ store64 m1 (p + 8) hi = Some (memcpy m (Z.to_nat p) (mm_set_epi64x hi lo)).
Proof. intros H1 H2. pose proof (store_words m p lo hi H1 H2) as E. by apply bind_Some in E. Qed.

(** The multiplication phases, on any lane. *)
Lemma lane_mul_eq props r m l u hi lo m1 m2 :
  load64 m (at_idx props r) = Some l -> load64 m (at_idx props r + 8) = Some u -> umul128 (idx r) l = (hi, lo) ->
  store64 m (at_idx props r) (add64 (al r) hi) = Some m1 ->
  store64 m1 (at_idx props r + 8) (Z.lxor (add64 (ah r) lo) (tweak r)) = Some m2 ->
  lane_mul props r m = Some (mk_lane (l_mem r) (tweak r) (Z.lxor (add64 (al r) hi) l) (Z.lxor (add64 (ah r) lo) u)
                               (Z.lxor (add64 (al r) hi) l) (bx0 r) (cx r), m2).
Proof.
  intros E1 E2 E3 E4 E5. unfold lane_mul. rewrite E1. cbn [mbind option_bind]. rewrite E2. cbn [mbind option_bind].
  rewrite E3. cbn [mbind option_bind]. rewrite E4. cbn [mbind option_bind]. by rewrite E5.
Qed.
(** A lane at address 0, its multiplication and [bx0 = cx]. *)
Lemma mul_bx props tw ra rh i bx c m q l u hi lo x y m1 m2 :
  Z.land i (mask props) = q -> load64 m q = Some l -> load64 m (q + 8) = Some u -> umul128 i l = (hi, lo) ->
  x = add64 ra hi -> y = add64 rh lo ->
  store64 m q x = Some m1 -> store64 m1 (q + 8) (Z.lxor y tw) = Some m2 ->
  ('(r, m) ← lane_mul props (mk_lane 0 tw ra rh i bx c) m; lane_bx r m)
  = Some (mk_lane 0 tw (Z.lxor x l) (Z.lxor y u) (Z.lxor x l) c c, m2).
Proof.
  intros Eq E1 E2 E3 -> -> E4 E5.
  assert (Ea : at_idx props (mk_lane 0 tw ra rh i bx c) = q) by (rewrite <-Eq; reflexivity).
  rewrite (lane_mul_eq props _ m l u hi lo m1 m2); rewrite ?Ea; try assumption. reflexivity.
Qed.
(** The vector lane at address 0, phase by phase. *)
Lemma vector_eq `{AesNiLaws, AesKeyGenLaws, ExtraHashes} SOFT_AES props tw a b c0 p0 i l0 u0 m p x c m1 q l u hi lo a2 m2 :
  Z.land i (mask props) = p -> load128 m p = Some x -> aesenc SOFT_AES x a = c ->
  cryptonight_monero_tweak m p b c = Some m1 ->
  Z.land (mm_cvtsi128_si64 c) (mask props) = q -> load64 m1 q = Some l -> load64 m1 (q + 8) = Some u ->
  umul128 (mm_cvtsi128_si64 c) l = (hi, lo) -> mm_add_epi64 a (mm_set_epi64x lo hi) = a2 ->
  store128 m1 q (mm_xor a2 tw) = Some m2 ->
  vector_lane SOFT_AES props (mk_vlane 0 tw a b c0 p0 i l0 u0) m
  = Some (mk_vlane 0 tw (mm_xor a2 (mm_set_epi64x u l)) c c q
            (mm_cvtsi128_si64 (mm_xor a2 (mm_set_epi64x u l))) l u, m2).
Proof.
  intros E1 E2 E3 E4 E5 E6 E7 E8 E9 E10. unfold vector_lane.
  unfold CN_STEP1. cbn [v_mem vidx]. rewrite Z.add_0_l, E1, E2. cbn [mbind option_bind].
  unfold CN_STEP2. cbn [v_mem vidx vc ax ptr vb0 mc cl ch]. rewrite E3, E4. cbn [mbind option_bind].
  unfold CN_STEP3. cbn [v_mem vidx vc ax ptr vb0 mc cl ch]. rewrite Z.add_0_l, E5, E6. cbn [mbind option_bind]. rewrite E7.
  cbn [mbind option_bind].
  unfold CN_STEP4. cbn [v_mem vidx vc ax ptr vb0 mc cl ch]. rewrite E8. cbv zeta. rewrite E9, E10. reflexivity.
Qed.

(** ** One iteration *)

#[local] Opaque AesEnc VARIANT1_1 mm_xor mm_set_epi64x mm_cvtsi128_si64 mm_high64 memcpy slice load64 store64 load128 store128 umul128 add64.

Section Loop.
Context `{AesNiLaws, AesKeyGenLaws, ExtraHashes}.
Context (SOFT_AES : bool) (props : CnAlgo).
Hypothesis Hok : algo_ok props.
#[local] Abbreviation n := (lane_size props).

Lemma index_ok i : 0 <= i ->
  let k := Z.land i (mask props) in 0 <= k /\ k mod 16 = 0 /\ (Z.to_nat k + 16 <= n)%nat.
Proof.
  intros Hi k. destruct (ok_mask _ Hok) as [Hm Hm']. pose proof (ok_align _ Hok) as Ha.
  assert (0 <= k) by (apply Z.land_nonneg; by left).
  assert (k <= mask props).
  { unfold k. rewrite <-(Z2N.id i), <-(Z2N.id (mask props)) at 1 by lia. rewrite <-N2Z.inj_land.
    pose proof (N.land_le_r (Z.to_N i) (Z.to_N (mask props))). lia. }
  split_and!; [done| |unfold lane_size; lia].
  change 16 with (2 ^ 4). rewrite <-(Z.land_ones k 4) by lia. unfold k. rewrite <-Z.land_assoc, (Z.land_ones (mask props) 4) by lia.
  change (2 ^ 4) with 16. rewrite Ha. apply Z.land_0_r.
Qed.

Lemma tweak_ok w p b c :
  block b -> block c -> 0 <= p -> (Z.to_nat p + 16 <= length w)%nat ->
  cryptonight_monero_tweak w p b c = Some (memcpy w (Z.to_nat p) (VARIANT1_1 (mm_xor b c))).
Proof.
  intros Hb Hc Hp Hl. unfold cryptonight_monero_tweak. cbv zeta. rewrite store_words by done.
  f_equal. f_equal. apply tweak_bytes. by apply block_xor.
Qed.

(** A lane at address 0 stands for the vectors [a] and [b]. *)
Definition stands (tw : Z) (r : lane) (a b : list Z) : Prop :=
  l_mem r = 0 /\ tweak r = tw /\ al r = mm_cvtsi128_si64 a /\ ah r = mm_high64 a /\ idx r = al r /\ bx0 r = b.
Definition vstands (tw : Z) (r : vlane) (a b : list Z) : Prop :=
  v_mem r = 0 /\ mc r = mm_set_epi64x tw 0 /\ ax r = a /\ vb0 r = b /\ vidx r = mm_cvtsi128_si64 a.
(** The vectors and the scratchpad of the reference are well formed. *)
Definition cn_ok (s : list Z * list Z * list Z) : Prop :=
  block s.1.1 /\ block s.1.2 /\ bytes s.2 /\ length s.2 = n.

(** The intermediate values of an iteration. *)
Section Step.
Context (tw : Z) (a b pad : list Z).
Hypothesis Htw : word 64 tw.
Hypothesis Hs : cn_ok (a, b, pad).
Definition p_ : Z := Z.land (mm_cvtsi128_si64 a) (mask props).
Definition c_ : list Z := AesEnc (slice (Z.to_nat p_) 16 pad) a.
Definition pad1 : list Z := memcpy pad (Z.to_nat p_) (VARIANT1_1 (mm_xor b c_)).
Definition q_ : Z := Z.land (mm_cvtsi128_si64 c_) (mask props).
Definition d_ : list Z := slice (Z.to_nat q_) 16 pad1.

Lemma step_p : 0 <= p_ /\ p_ mod 16 = 0 /\ (Z.to_nat p_ + 16 <= length pad)%nat.
Proof. destruct Hs as (Ha & _ & _ & Hl). cbn in Hl. rewrite Hl. apply index_ok. apply (word_low a Ha). Qed.
Lemma step_block_p : block (slice (Z.to_nat p_) 16 pad).
Proof. destruct Hs as (_ & _ & Hb & Hl). destruct step_p as (? & ? & ?). split; [by apply length_slice|by apply Forall_slice]. Qed.
Lemma step_c : block c_.
Proof. apply block_AesEnc; [apply step_block_p|apply Hs]. Qed.
Lemma step_pad1 : length pad1 = length pad /\ bytes pad1.
Proof.
  destruct Hs as (_ & Hb & Hp & _). destruct step_p as (? & ? & ?). pose proof step_c as Hc.
  assert (Hv : block (VARIANT1_1 (mm_xor b c_))) by (apply block_VARIANT1_1, block_xor; done).
  split; [apply length_memcpy; rewrite (proj1 Hv); lia|by apply Forall_memcpy, Hv].
Qed.
Lemma step_q : 0 <= q_ /\ q_ mod 16 = 0 /\ (Z.to_nat q_ + 16 <= length pad1)%nat.
Proof.
  destruct Hs as (_ & _ & _ & Hl). rewrite (proj1 step_pad1). cbn in Hl. rewrite Hl. apply index_ok.
  apply (word_low c_ step_c).
Qed.
Lemma step_d : block d_.
Proof. destruct step_q as (? & ? & ?). split; [by apply length_slice|apply Forall_slice, step_pad1]. Qed.

Definition prod_ : Z := mm_cvtsi128_si64 c_ * mm_cvtsi128_si64 d_.
Definition lo_ : Z := add64 (mm_cvtsi128_si64 a) (prod_ / 2 ^ 64).
Definition hi_ : Z := add64 (mm_high64 a) (prod_ mod 2 ^ 64).
Definition pad2 : list Z := memcpy pad1 (Z.to_nat q_) (mm_set_epi64x (Z.lxor hi_ tw) lo_).
Lemma step_eq : cn_step props tw (a, b, pad) = (mm_xor (mm_set_epi64x hi_ lo_) d_, c_, pad2).
Proof. reflexivity. Qed.
Lemma step_mul : umul128 (mm_cvtsi128_si64 c_) (mm_cvtsi128_si64 d_) = (prod_ / 2 ^ 64, prod_ mod 2 ^ 64).
Proof. apply umul128_correct; [apply word_low, step_c|apply word_low, step_d]. Qed.
Lemma step_ok : cn_ok (cn_step props tw (a, b, pad)).
Proof.
  rewrite step_eq. pose proof step_d as Hd. destruct Hs as (_ & _ & _ & Hl). destruct step_pad1 as [Hl1 Hb1].
  destruct step_q as (? & ? & ?). split_and!; cbn [fst snd].
  - apply block_xor; [apply block_set|done].
  - apply step_c.
  - apply Forall_memcpy; [done|apply block_set].
  - unfold pad2. rewrite length_memcpy by (rewrite (proj1 (block_set _ _)); lia). cbn in Hl. lia.
Qed.

(** The halves of [d] are what the code loads. *)
Lemma load_d_low : load64 pad1 q_ = Some (mm_cvtsi128_si64 d_).
Proof. destruct step_q as (? & ? & ?). by apply load_low. Qed.
Lemma load_d_high : load64 pad1 (q_ + 8) = Some (mm_high64 d_).
Proof. destruct step_q as (? & ? & ?). by apply load_high. Qed.

(** The phases, on lanes written out. *)
Lemma phases_join {L : Type} (f1 f2 f3 f4 f5 f6 : L -> list Z -> option (L * list Z)) r m r' m' x :
  ('(r, m) ← f1 r m; '(r, m) ← f2 r m; '(r, m) ← f3 r m; f4 r m) = Some (r', m') ->
  ('(r, m) ← f5 r' m'; f6 r m) = Some x ->
  ('(r, m) ← f1 r m; '(r, m) ← f2 r m; '(r, m) ← f3 r m; '(r, m) ← f4 r m; '(r, m) ← f5 r m; f6 r m) = Some x.
Proof.
  intros F1 F2. destruct (f1 r m) as [[r1 m1]|]; [|discriminate F1]. cbn in *.
  destruct (f2 r1 m1) as [[r2 m2]|]; [|discriminate F1]. cbn in *.
  destruct (f3 r2 m2) as [[r3 m3]|]; [|discriminate F1]. cbn in *. by rewrite F1.
Qed.
Lemma scalar_first t ra rh bx c0 :
  ra = mm_cvtsi128_si64 a -> rh = mm_high64 a -> bx = b ->
  ('(r, m) ← lane_load props (mk_lane 0 t ra rh ra bx c0) pad;
   '(r, m) ← lane_aes SOFT_AES r m;
   '(r, m) ← lane_tweak props r m;
   lane_idx r m) = Some (mk_lane 0 t ra rh (mm_cvtsi128_si64 c_) bx c_, pad1).
Proof.
  intros -> -> ->. destruct step_p as (? & ? & ?). pose proof step_c as Hc. pose proof Hs as (Ha & Hb & _ & _). cbn in Ha, Hb.
  assert (E1 : load128 pad p_ = Some (slice (Z.to_nat p_) 16 pad)) by (by apply load128_ok).
  assert (E2 : aesenc SOFT_AES (slice (Z.to_nat p_) 16 pad) (mm_set_epi64x (mm_high64 a) (mm_cvtsi128_si64 a)) = c_).
  { rewrite set_low_high by done. apply aesenc_ref; [apply step_block_p|done]. }
  assert (E3 : cryptonight_monero_tweak pad p_ b c_ = Some pad1) by (by apply tweak_ok).
  unfold lane_load, lane_aes, lane_tweak, lane_idx, at_idx. cbn [l_mem idx]. rewrite Z.add_0_l. fold p_. rewrite E1.
  cbn [mbind option_bind al ah cx l_mem tweak idx bx0]. rewrite E2, Z.add_0_l. fold p_. rewrite E3. exact eq_refl.
Qed.
Lemma p_eq : Z.land (mm_cvtsi128_si64 a) (mask props) = p_. Proof. reflexivity. Qed.
Lemma q_eq : Z.land (mm_cvtsi128_si64 c_) (mask props) = q_. Proof. reflexivity. Qed.
Lemma lo_eq : lo_ = add64 (mm_cvtsi128_si64 a) (prod_ / 2 ^ 64). Proof. reflexivity. Qed.
Lemma hi_eq : hi_ = add64 (mm_high64 a) (prod_ mod 2 ^ 64). Proof. reflexivity. Qed.
Lemma step_store : exists m1, store64 pad1 q_ lo_ = Some m1 /\ store64 m1 (q_ + 8) (Z.lxor hi_ tw) = Some pad2.
Proof. destruct step_q as (Q1 & Q2 & Q3). exact (store_pair pad1 q_ lo_ (Z.lxor hi_ tw) Q1 Q3). Qed.
Lemma scalar_second bx :
  ('(r, m) ← lane_mul props (mk_lane 0 tw (mm_cvtsi128_si64 a) (mm_high64 a) (mm_cvtsi128_si64 c_) bx c_) pad1; lane_bx r m)
  = Some (mk_lane 0 tw (Z.lxor lo_ (mm_cvtsi128_si64 d_)) (Z.lxor hi_ (mm_high64 d_)) (Z.lxor lo_ (mm_cvtsi128_si64 d_)) c_ c_, pad2).
Proof.
  destruct step_store as (m1 & Es & W).
  exact (mul_bx props tw (mm_cvtsi128_si64 a) (mm_high64 a) (mm_cvtsi128_si64 c_) bx c_ pad1 q_
    (mm_cvtsi128_si64 d_) (mm_high64 d_) (prod_ / 2 ^ 64) (prod_ mod 2 ^ 64) lo_ hi_ m1 pad2
    q_eq load_d_low load_d_high step_mul lo_eq hi_eq Es W).
Qed.

Lemma scalar_step r :
  stands tw r a b ->
  exists r', scalar_lane SOFT_AES props r pad = Some (r', pad2) /\ stands tw r' (mm_xor (mm_set_epi64x hi_ lo_) d_) c_.
Proof.
  destruct r as [l t ra rh i bx c0]. intros (E1 & E2 & E3 & E4 & E5 & E6). cbn in E1, E2, E3, E4, E5, E6. subst l t i ra rh.
  pose proof (scalar_first tw _ _ bx c0 eq_refl eq_refl E6) as F1. pose proof (scalar_second bx) as F2.
  eexists. split; [exact (phases_join _ _ _ _ _ _ _ _ _ _ _ F1 F2)|].
  assert (word 64 lo_ /\ word 64 hi_) as [? ?] by (split; apply word_add64). pose proof step_d.
  split_and!; cbn [al ah cx l_mem tweak idx bx0]; try reflexivity.
  - rewrite low_xor, low_set by (done || apply block_set). reflexivity.
  - rewrite high_xor, high_set by (done || apply block_set). reflexivity.
Qed.
(** The sum of the vector version is the pair of sums. *)
Lemma step_sum : mm_add_epi64 a (mm_set_epi64x (prod_ mod 2 ^ 64) (prod_ / 2 ^ 64)) = mm_set_epi64x hi_ lo_.
Proof.
  assert (word 64 (prod_ / 2 ^ 64) /\ word 64 (prod_ mod 2 ^ 64)) as [W1 W2].
  { pose proof (word_low c_ step_c) as [? ?]. pose proof (word_low d_ step_d) as [? ?]. unfold word, prod_ in *. split.
    - split; [apply Z.div_pos; nia|apply Z.div_lt_upper_bound; nia].
    - by apply Z.mod_pos_bound. }
  unfold mm_add_epi64. rewrite (high_set _ _ W2), (low_set _ _ W1). reflexivity.
Qed.
Lemma step_store_vector : store128 pad1 q_ (mm_xor (mm_set_epi64x hi_ lo_) (mm_set_epi64x tw 0)) = Some pad2.
Proof.
  destruct step_q as (Q1 & Q2 & Q3). rewrite xor_set, Z.lxor_0_r.
  exact (store128_ok pad1 q_ _ Q1 Q2 Q3 (proj1 (block_set _ _))).
Qed.
Lemma vector_step r :
  vstands tw r a b ->
  exists r', vector_lane SOFT_AES props r pad = Some (r', pad2) /\ vstands tw r' (mm_xor (mm_set_epi64x hi_ lo_) d_) c_.
Proof.
  destruct r as [l t ra rb rc rp ri rl ru]. intros (E1 & E2 & E3 & E4 & E5). cbn in E1, E2, E3, E4, E5. subst l t ra rb ri.
  destruct step_p as (P1 & P2 & P3). pose proof Hs as (Ha & Hb & _ & _). cbn [fst snd] in Ha, Hb.
  pose proof (vector_eq SOFT_AES props (mm_set_epi64x tw 0) a b rc rp _ rl ru pad p_ _ c_ pad1 q_ _ _ _ _ _ pad2 p_eq
    (load128_ok pad p_ P1 P2 P3) (aesenc_ref _ _ _ step_block_p Ha) (tweak_ok pad p_ b c_ Hb step_c P1 P3) q_eq
    load_d_low load_d_high step_mul step_sum step_store_vector) as E.
  rewrite (set_low_high d_ step_d) in E. eexists. split; [exact E|]. by split_and!.
Qed.
End Step.

(** ** All the iterations *)

(** A kind of lane whose iteration is [cn_step]. *)
Definition follows {L} (f : L -> list Z -> option (L * list Z)) (R : Z -> L -> list Z -> list Z -> Prop) : Prop :=
  forall tw r a b pad, cn_ok (a, b, pad) -> R tw r a b ->
    let '(a', b', pad') := cn_step props tw (a, b, pad) in
    exists r', f r pad = Some (r', pad') /\ R tw r' a' b'.

Lemma scalar_follows : follows (scalar_lane SOFT_AES props) stands.
Proof. intros tw r a b pad Hs Hr. rewrite step_eq. by apply scalar_step. Qed.
Lemma vector_follows : follows (vector_lane SOFT_AES props) vstands.
Proof. intros tw r a b pad Hs Hr. rewrite step_eq. by apply vector_step. Qed.

Lemma iter_ok tw k s : cn_ok s -> cn_ok (Nat.iter k (cn_step props tw) s).
Proof. intros Hs. apply Nat.iter_invariant; [|done]. intros [[a b] pad] Hi. by apply step_ok. Qed.

Lemma loop_follows {L} (f : L -> list Z -> option (L * list Z)) R k tw r a b pad :
  follows f R -> cn_ok (a, b, pad) -> R tw r a b ->
  exists r', repeatM k (fun s => f s.1 s.2) (r, pad) = Some (r', (Nat.iter k (cn_step props tw) (a, b, pad)).2).
Proof.
  intros Hf. revert r a b pad. induction k as [|k IH]; intros r a b pad Hs Hr; [by exists r|].
  rewrite Nat.iter_succ_r. pose proof (step_ok tw a b pad Hs) as Hs'. pose proof (Hf tw r a b pad Hs Hr) as Hstep.
  destruct (cn_step props tw (a, b, pad)) as [[a' b'] pad']. destruct Hstep as (r' & E & Hr').
  destruct (IH r' a' b' pad' Hs' Hr') as (r2 & E2). exists r2. cbn [repeatM fst snd]. rewrite E. cbn [mbind option_bind]. exact E2.
Qed.

(** An iteration touches the bytes the mask reaches, and nothing after them. *)
Lemma cn_step_app tw a b pad tail :
  cn_ok (a, b, pad) ->
  cn_step props tw (a, b, pad ++ tail) = ((cn_step props tw (a, b, pad)).1, (cn_step props tw (a, b, pad)).2 ++ tail).
Proof.
  intros Hs. destruct (step_p a b pad Hs) as (_ & _ & P3). destruct (step_q a b pad Hs) as (_ & _ & Q3).
  pose proof Hs as (_ & Hb & _ & _). pose proof (step_c a b pad Hs) as Hc.
  assert (Hv : block (VARIANT1_1 (mm_xor b (c_ a pad)))) by (apply block_VARIANT1_1, block_xor; done).
  rewrite (step_eq tw a b pad). unfold cn_step. fold (p_ a). rewrite (slice_app_in pad tail _ 16 P3). fold (c_ a pad).
  rewrite memcpy_app_in by (rewrite (proj1 Hv); lia). fold (pad1 a b pad). fold (q_ a pad).
  rewrite (slice_app_in (pad1 a b pad) tail _ 16 Q3). fold (d_ a b pad). fold (prod_ a b pad).
  fold (lo_ a b pad) (hi_ a b pad). rewrite memcpy_app_in by (rewrite (proj1 (block_set _ _)); lia). done.
Qed.
Lemma iter_app tw k a b pad tail :
  cn_ok (a, b, pad) ->
  (Nat.iter k (cn_step props tw) (a, b, pad ++ tail)).2 = (Nat.iter k (cn_step props tw) (a, b, pad)).2 ++ tail.
Proof.
  intros Hs.
  assert (E : Nat.iter k (cn_step props tw) (a, b, pad ++ tail)
    = ((Nat.iter k (cn_step props tw) (a, b, pad)).1, (Nat.iter k (cn_step props tw) (a, b, pad)).2 ++ tail)); [|by rewrite E].
  induction k as [|k IH]; [done|]. rewrite !Nat.iter_succ, IH. pose proof (iter_ok tw k _ Hs) as Hk.
  destruct (Nat.iter k (cn_step props tw) (a, b, pad)) as [[a' b'] pad']. exact (cn_step_app tw a' b' pad' tail Hk).
Qed.
End Loop.
