(* ===== verification/CnHash.v ===== *)
(** * CryptoNight: the hash functions compute [cn_hash].

    One, two, three or four lanes, scalar or vector main loop, with or without AES
    instructions, whole scratchpads or halves: on contexts whose scratchpads are
    disjoint, every function returns, each digest is the reference hash of its
    input, and nothing outside the scratchpads is written. *)
From S2P Require Import Prelude Stream NmAes Keccak CnKeccak CnAes CryptoNight CnLanes CnLocal CnBlake CnJh CnSkein CnSpec CnExtra CnCorrect CnLoop.

Lemma memcpy_front (x v : list Z) k : length v = k -> memcpy x 0 v = v ++ drop k x.
Proof. by intros <-. Qed.

#[local] Opaque AesEnc VARIANT1_1 mm_xor mm_set_epi64x mm_cvtsi128_si64 mm_high64 memcpy slice
  load64 store64 load128 store128 umul128 add64 keccak_digest keccak_f keccak keccakf cn_step pad_fill pad_fold ref_rounds
  aes256_round_keys vecs.

Lemma zip_with_map {A B C D} (f : A -> B -> C) (g : D -> A) (h : D -> B) l :
  zip_with f (g <$> l) (h <$> l) = (fun x => f (g x) (h x)) <$> l.
Proof. induction l as [|x l IH]; [done|]. cbn. by f_equal. Qed.

Lemma const_seq {A} (x : A) s k : (fun _ : nat => x) <$> seq s k = replicate k x.
Proof. revert s. induction k as [|k IH]; intros s; [done|]. cbn. f_equal. apply IH. Qed.

(** ** The first 200 bytes of a context's state *)

Section State.
Context (st x : list Z).
Hypothesis Hst : length st = 200%nat.

Lemma first_slice o j : (o + j <= 200)%nat -> slice o j (st ++ x) = slice o j st.
Proof. intros. apply slice_app_in. lia. Qed.
Lemma first_word i : (i < 25)%nat -> le_load 8 (slice (8 * i) 8 (st ++ x)) = state_word st i.
Proof. intros. unfold state_word. by rewrite first_slice by lia. Qed.
Lemma first_take : take 32 (st ++ x) = take 32 st.
Proof. apply take_app_le. lia. Qed.
Lemma first_memcpy y : (64 + length y <= 200)%nat -> memcpy (st ++ x) 64 y = memcpy st 64 y ++ x.
Proof. intros. apply memcpy_app_in. lia. Qed.
End State.

#[local] Transparent keccak_f keccak_digest.
Lemma digest_state inp : length (keccak_digest 200 136 inp) = 200%nat /\ bytes (keccak_digest 200 136 inp).
Proof.
  unfold keccak_digest. split; [|apply Forall_take, bytes_flat_le]. rewrite length_take, length_flat_le.
  set (bs := blocks _ _). assert (E : length (foldl (absorb_block 136) (replicate 25 0) bs) = 25%nat); [|by rewrite E].
  generalize (replicate 25 0), (eq_refl : length (replicate 25 0) = 25%nat).
  induction bs as [|b bs IH]; intros A HA; [done|]. apply IH, length_keccak_f, length_tabulate.
Qed.
#[local] Opaque keccak_f keccak_digest.

Section Lane.
Context `{AesNiLaws, AesKeyGenLaws, ExtraHashesLaws}.
Context (SOFT_AES : bool) (props : CnAlgo) (junk : list Z).
Hypothesis Hok : algo_ok props.
Hypothesis Hjunk : length junk = 144%nat.
#[local] Abbreviation n := (lane_size props).
#[local] Abbreviation groups := (lane_groups props).

(** A context: its state is 224 bytes; the rest is whatever a previous hash left. *)
Definition ctx_ok (c : cryptonight_ctx) : Prop := length (state c) = 224%nat /\ bytes (state c).

(** *** The values of one hash *)
Section Input.
Context (input : list Z).
Hypothesis Hin : bytes input.
Definition st_ : list Z := keccak_digest 200 136 input.
Definition tw_ : Z := Z.lxor (le_load 8 (slice 35 8 input)) (state_word st_ 24).
Definition k1_ : list (list Z) := aes256_round_keys (take 32 st_).
Definition k2_ : list (list Z) := aes256_round_keys (slice 32 32 st_).
Definition x_ : list (list Z) := vecs 8 64 st_.
Definition fill_ : list Z := pad_fill k1_ x_ groups.
Definition mixed_ : list Z := (Nat.iter (Z.to_nat (iterations props)) (cn_step props tw_) (start_a st_, start_b st_, fill_)).2.
Definition whole_ : list Z :=
  if half_mem props then mixed_ ++ pad_fill k1_ (iter_rounds k1_ x_ groups) groups else mixed_.

Lemma st_ok : length st_ = 200%nat /\ bytes st_.
Proof. apply digest_state. Qed.
Lemma x_group : group x_.
Proof. destruct st_ok as [Hl Hb]. apply group_vecs; [done|lia]. Qed.
Lemma k1_blocks : Forall block k1_.
Proof. destruct st_ok as [Hl Hb]. apply round_keys_blocks; [rewrite length_take; lia|by apply Forall_take]. Qed.
Lemma fill_ok : cn_ok props (start_a st_, start_b st_, fill_).
Proof.
  pose proof x_group as Hx. pose proof k1_blocks as Hk. destruct (n_groups props Hok) as [Hn _].
  split_and!; cbn [fst snd]; [apply block_set..|by apply bytes_pad_fill|]. unfold fill_. rewrite length_pad_fill by done. lia.
Qed.
Lemma mixed_ok : bytes mixed_ /\ length mixed_ = n.
Proof. pose proof (iter_ok props Hok tw_ (Z.to_nat (iterations props)) _ fill_ok) as (_ & _ & Hb & Hl). done. Qed.

(** The whole scratchpad the reference folds. *)
Lemma whole_ref :
  (Nat.iter (Z.to_nat (iterations props)) (cn_step props tw_)
     (start_a st_, start_b st_, pad_fill k1_ x_ (Z.to_nat (memory props / 128)))).2 = whole_.
Proof.
  unfold whole_, mixed_. pose proof (ok_memory _ Hok) as Em. pose proof (ok_groups _ Hok) as Hg.
  destruct (half_mem props).
  - replace (Z.to_nat (memory props / 128)) with (groups + groups)%nat.
    + rewrite pad_fill_app. exact (iter_app props Hok tw_ _ _ _ _ _ fill_ok).
    + rewrite Em. pose proof (ok_size _ Hok). unfold lane_groups. Z.to_euclidean_division_equations. lia.
  - by rewrite Em.
Qed.

(** *** The phases on the context of a lane at address 0 *)
Definition mid_ctx (c : cryptonight_ctx) : Prop :=
  exists x, length x = 24%nat /\ bytes x /\ state c = st_ ++ x /\ cn_memory c = 0 /\
    (half_mem props = true -> save_state c = concat (iter_rounds k1_ x_ groups)).

Lemma begin_state c : ctx_ok c -> state (begin_hash props junk input c) = st_ ++ drop 200 (state c).
Proof.
  intros [Hl Hb]. unfold begin_hash. rewrite (keccak_sponge junk input 200 Hjunk Hin) by (vm_compute; lia || done).
  change (keccak_digest 200 (keccak_rsiz 200) input) with st_. destruct st_ok as [Hs _].
  destruct (half_mem props); cbn [set_first_half set_state state]; by rewrite (memcpy_front _ _ 200 Hs).
Qed.
Lemma lane_explode c w :
  ctx_ok c -> cn_memory c = 0 -> length w = n ->
  exists c', cn_explode_scratchpad SOFT_AES props (begin_hash props junk input c) w = Some (c', fill_) /\ mid_ctx c'.
Proof.
  intros Hc Hm Hw. pose proof (begin_state c Hc) as Es. destruct st_ok as [Hl Hb]. destruct Hc as [Hcl Hcb].
  set (c1 := begin_hash props junk input c) in *.
  assert (Hm1 : cn_memory c1 = 0) by (unfold c1, begin_hash; destruct (half_mem props); exact Hm).
  assert (Hf : half_mem props && negb (first_half c1) = false) by (unfold c1, begin_hash; by destruct (half_mem props)).
  assert (Hst : state_ok (state c1)).
  { rewrite Es. split; [rewrite length_app, length_drop; lia|by apply Forall_app_2, Forall_drop]. }
  assert (Ef : fill_from props c1 = x_).
  { unfold fill_from. rewrite Hf, Es. unfold x_. rewrite !(vecs_slice 8 64). by rewrite (first_slice _ _ Hl) by lia. }
  assert (Ek : keys1 c1 = k1_) by (unfold keys1; by rewrite Es, (first_take _ _ Hl)).
  pose proof (explode_ok SOFT_AES props Hok c1 w Hm1 Hst ltac:(rewrite Ef; exact x_group) Hw) as E. rewrite Ef, Ek in E.
  fold fill_ in E. eexists. split; [exact E|]. exists (drop 200 (state c)). rewrite length_drop, Hcl.
  split_and!; [done|by apply Forall_drop|destruct (half_mem props && first_half c1); exact Es|destruct (half_mem props && first_half c1); exact Hm1|].
  intros Eh. rewrite Eh in *. destruct (first_half c1); [done|discriminate Hf].
Qed.

Lemma mid_h c i : mid_ctx c -> (i < 25)%nat -> h c i = state_word st_ i.
Proof. intros (x & _ & _ & Es & _) Hi. unfold h. rewrite Es. apply first_word; [apply st_ok|done]. Qed.
Lemma mid_tweak c : mid_ctx c -> tweak1_2 input c = tw_.
Proof. intros Hc. unfold tweak1_2, tw_. by rewrite (mid_h c 24 Hc) by lia. Qed.
Lemma state_word_ok i : word 64 (state_word st_ i).
Proof. apply (word_le_load 8), Forall_slice, st_ok. Qed.
Lemma scalar_start c : mid_ctx c -> stands tw_ (new_lane input c) (start_a st_) (start_b st_).
Proof.
  intros Hc. unfold new_lane. rewrite !(mid_h c _ Hc), (mid_tweak c Hc) by lia. destruct Hc as (x & _ & _ & _ & Hm & _).
  unfold start_a, start_b. pose proof state_word_ok as W.
  split_and!; cbn [l_mem tweak al ah idx bx0]; [done|done| | |done|done].
  - symmetry. apply low_set. by apply word_lxor.
  - symmetry. apply high_set. by apply word_lxor.
Qed.
Lemma vector_start c : mid_ctx c -> vstands tw_ (CONST_INIT input c) (start_a st_) (start_b st_).
Proof.
  intros Hc. unfold CONST_INIT. rewrite !(mid_h c _ Hc), (mid_tweak c Hc) by lia. destruct Hc as (x & _ & _ & _ & Hm & _).
  by split_and!.
Qed.

Definition final_ : list Z := memcpy st_ 64 (concat (pad_fold k2_ x_ whole_)).
Lemma lane_implode c :
  mid_ctx c ->
  exists c' w, cn_implode_scratchpad SOFT_AES props c mixed_ = Some (c', w) /\ cn_memory c' = 0 /\ length w = n /\
    length final_ = 200%nat /\ bytes final_ /\
    exists x, length x = 24%nat /\ bytes x /\ state c' = final_ ++ x.
Proof.
  intros (x & Hx & Hxb & Es & Hm & Hsv). destruct st_ok as [Hl Hb]. destruct mixed_ok as [Hmb Hml].
  pose proof x_group as Hg. pose proof k1_blocks as Hk1.
  assert (Hit : group (iter_rounds k1_ x_ groups)) by by apply group_iter.
  assert (Hst : state_ok (state c)) by (rewrite Es; split; [rewrite length_app; lia|by apply Forall_app_2]).
  destruct (implode_ok SOFT_AES props Hok c mixed_ Hm Hst) as (c' & w & E & Es' & Hgr & Hm' & Hw); [|done..|].
  { intros Eh. rewrite (Hsv Eh). split; [|by apply bytes_concat, Hit].
    rewrite length_concat_vecs by by apply group_vec16. by rewrite (proj1 Hit). }
  assert (Ek1 : keys1 c = k1_) by (unfold keys1; by rewrite Es, (first_take _ _ Hl)).
  assert (Ek2 : keys2 c = k2_) by (unfold keys2, k2_; by rewrite Es, (first_slice _ _ Hl) by lia).
  assert (Ex : vecs 8 64 (state c) = x_).
  { rewrite Es. unfold x_. rewrite !(vecs_slice 8 64). by rewrite (first_slice _ _ Hl) by lia. }
  assert (Ef : folded props c mixed_ = pad_fold k2_ x_ whole_).
  { unfold folded, folded_pad, whole_. rewrite Ek1, Ek2, Ex. destruct (half_mem props) eqn:Eh; [|done].
    rewrite (Hsv eq_refl). pose proof (vecs_concat _ (group_vec16 _ Hit)) as Ev. rewrite (proj1 Hit) in Ev. by rewrite Ev. }
  rewrite Ef in *. assert (Hc : length (concat (pad_fold k2_ x_ whole_)) = 128%nat).
  { rewrite length_concat_vecs by by apply group_vec16. by rewrite (proj1 Hgr). }
  exists c', w. split_and!; [done|done|done| | |].
  - unfold final_. rewrite length_memcpy; lia.
  - apply Forall_memcpy; [done|by apply bytes_concat, Hgr].
  - exists x. split_and!; [done|done|]. rewrite Es', Es. apply first_memcpy; lia.
Qed.

(** *** The digest *)
Lemma lane_end c x :
  (43 <= length input)%nat -> length final_ = 200%nat -> bytes final_ -> length x = 24%nat -> bytes x -> state c = final_ ++ x ->
  (end_hash c).2 = cn_hash props input /\ ctx_ok (end_hash c).1 /\ cn_memory (end_hash c).1 = cn_memory c.
Proof.
  intros Hlen Hf Hfb Hx Hxb Es.
  assert (Eh : h c <$> seq 0 25 = state_word final_ <$> seq 0 25).
  { apply list_fmap_ext. intros j i Hi. apply lookup_seq in Hi as [-> Hi]. unfold h. rewrite Es. by apply first_word. }
  set (ws := state_word final_ <$> seq 0 25) in *.
  assert (Hws : length ws = 25%nat) by (unfold ws; by rewrite length_fmap, length_seq).
  assert (Hww : words64 ws).
  { apply Forall_fmap, Forall_seq. intros j _. apply (word_le_load 8), Forall_slice. exact Hfb. }
  destruct (keccakf_correct ws Hws Hww) as (Ek & Hkl & _). rewrite Ek in Hkl.
  set (out := flat_map (le_store 8) (keccak_f ws)).
  assert (Hout : length out = 200%nat) by (unfold out; by rewrite length_flat_le, Hkl).
  assert (Est : memcpy (state c) 0 out = out ++ x).
  { rewrite (memcpy_front _ _ 200 Hout), Es, <-Hf. by rewrite drop_app_length. }
  assert (Ee : end_hash c = (set_state c (out ++ x), extra_hashes (Z.land (out !!! 0%nat) 3) out)).
  { unfold end_hash. rewrite Eh. change (keccakf ws 24) with (keccakf ws KECCAK_ROUNDS). rewrite Ek. cbv zeta. fold out. rewrite Est.
    cbn [set_state state]. rewrite <-Hout, take_app_length.
    rewrite list_lookup_total_alt, lookup_app_l, <-list_lookup_total_alt by lia. done. }
  rewrite Ee. cbn [fst snd]. split_and!; [|split; cbn [state set_state]; [rewrite length_app; lia|]|done].
  - unfold cn_hash. rewrite (proj2 (Nat.ltb_ge _ _)) by done. cbv zeta. fold st_. fold tw_ k1_ x_ k2_.
    pose proof whole_ref as Ew. destruct (Nat.iter _ _ _) as [[ra rb] rp]. cbn [snd] in Ew. subst rp.
    fold final_ ws out. apply extra_laws; [done|]. apply bytes_flat_le.
  - apply Forall_app_2; [apply bytes_flat_le|done].
Qed.
End Input.

(** ** Several lanes *)

Section Many.
Context {L : Type} `{Based L}.
Context (mk : list Z -> cryptonight_ctx -> L) (body : list L * list Z -> option (list L * list Z)).
Context (f : L -> list Z -> option (L * list Z)) (R : Z -> L -> list Z -> list Z -> Prop).
#[local] Abbreviation iters := (Z.to_nat (iterations props)).
#[local] Abbreviation loop := (fun x m => repeatM iters (fun s => f s.1 s.2) (x, m)).

(** The common shape of the hash functions. *)
Definition lanes_hash (inputs : list (list Z)) (ctx : list cryptonight_ctx) (m : list Z) : option result :=
  let ctx := zip_with (begin_hash props junk) inputs ctx in
  '(ctx, m) ← each (cn_explode_scratchpad SOFT_AES props) ctx m;
  '(_, m) ← repeatM iters body (zip_with mk inputs ctx, m);
  '(ctx, m) ← each (cn_implode_scratchpad SOFT_AES props) ctx m;
  let ends := end_hash <$> ctx in
  Some (ends.*1, m, ends.*2).

Hypothesis Hlocal : local n f.
Hypothesis Hsim : simulates n body f.
Hypothesis Hfollows : follows props f R.
Hypothesis Hstart : forall input c, mid_ctx input c -> R (tw_ input) (mk input c) (start_a (st_ input)) (start_b (st_ input)).
Hypothesis Hbase : forall input c, base_of (mk input c) = cn_memory c.
Hypothesis Hrebase : forall input c p, cn_memory c = 0 -> mk input (set_memory c p) = rebase p (mk input c).

(** What a lane does alone, at address 0. *)
Record lane_run := mk_run { lr_in : list Z; lr_ctx : cryptonight_ctx; lr_mid : cryptonight_ctx; lr_lane : L;
  lr_end : cryptonight_ctx; lr_pad : list Z }.
Record run_ok (m : list Z) (q : lane_run) : Prop := {
  run_explode : runs n (cn_explode_scratchpad SOFT_AES props)
    (begin_hash props junk (lr_in q) (set_memory (lr_ctx q) 0), window n (cn_memory (lr_ctx q)) m) (lr_mid q, fill_ (lr_in q));
  run_loop : runs n loop (mk (lr_in q) (lr_mid q), fill_ (lr_in q)) (lr_lane q, mixed_ (lr_in q));
  run_implode : runs n (cn_implode_scratchpad SOFT_AES props) (lr_mid q, mixed_ (lr_in q)) (lr_end q, lr_pad q);
  run_digest : (end_hash (lr_end q)).2 = cn_hash props (lr_in q);
  run_ctx : ctx_ok (end_hash (lr_end q)).1;
  run_fits : fits n (cn_memory (lr_ctx q)) m }.

Lemma run_exists m input c :
  bytes input -> (43 <= length input)%nat -> ctx_ok c -> fits n (cn_memory c) m ->
  exists q, lr_in q = input /\ lr_ctx q = c /\ run_ok m q.
Proof.
  intros Hin Hlen Hc Hm. pose proof Hm as (_ & _ & Hml).
  assert (Hw : length (window n (cn_memory c) m) = n) by by apply length_slice.
  destruct (lane_explode input Hin (set_memory c 0) _ Hc eq_refl Hw) as (c2 & E2 & Hmid).
  destruct (loop_follows props Hok f R iters (tw_ input) (mk input c2) _ _ _ Hfollows (fill_ok input) (Hstart _ _ Hmid)) as (r & Er).
  destruct (lane_implode input c2 Hmid) as (c3 & w & E3 & Hm3 & Hw3 & Hfl & Hfb & x & Hx & Hxb & Es).
  destruct (lane_end input c3 x Hlen Hfl Hfb Hx Hxb Es) as (Ed & Hd & _).
  destruct Hmid as (_ & _ & _ & _ & Hm2 & _). destruct (mixed_ok input) as [_ Hmix].
  exists (mk_run input c c2 r c3 w). split; [exact eq_refl|]. split; [exact eq_refl|].
  split; cbn [lr_in lr_ctx lr_mid lr_lane lr_end lr_pad].
  - split; [|exact (conj Hw E2)]. cbn [fst base_of ctx_based]. unfold begin_hash. destruct (half_mem props); reflexivity.
  - split; [exact (eq_trans (Hbase input c2) Hm2)|]. split; [apply fill_ok|exact Er].
  - exact (conj Hm2 (conj Hmix E3)).
  - exact Ed.
  - exact Hd.
  - exact Hm.
Qed.

#[local] Abbreviation at_ q := (cn_memory (lr_ctx q)).
Lemma begin_rebase input c : begin_hash props junk input c = set_memory (begin_hash props junk input (set_memory c 0)) (cn_memory c).
Proof. destruct c. unfold begin_hash. by destruct (half_mem props). Qed.
Lemma end_rebase c p : end_hash (set_memory c p) = (set_memory (end_hash c).1 p, (end_hash c).2).
Proof. reflexivity. Qed.

(** The lanes of a list of runs. *)
Lemma bases_map {A} `{Based A} (g : lane_run -> A * list Z) qs :
  at_bases ((fun q => at_ q) <$> qs) (g <$> qs) = (fun q => rebase (at_ q) (g q).1) <$> qs.
Proof. exact (zip_with_map (fun p s => rebase p s.1) _ g qs). Qed.
Lemma windows_map m (g : lane_run -> list Z) qs :
  Forall (fun q => fits n (at_ q) m /\ window n (at_ q) m = g q) qs -> windows n ((fun q => at_ q) <$> qs) (g <$> qs) m.
Proof. induction 1; by constructor. Qed.
Lemma phase_sim {A B} `{Based A, Based B} prog (op : A -> list Z -> option (B * list Z))
    (g : lane_run -> A * list Z) (g' : lane_run -> B * list Z) qs m :
  simulates n prog op -> disjoint n ((fun q => at_ q) <$> qs) ->
  Forall (fun q => runs n op (g q) (g' q)) qs -> windows n ((fun q => at_ q) <$> qs) ((fun q => (g q).2) <$> qs) m ->
  exists m', prog ((fun q => rebase (at_ q) (g q).1) <$> qs, m) = Some ((fun q => rebase (at_ q) (g' q).1) <$> qs, m') /\
    windows n ((fun q => at_ q) <$> qs) ((fun q => (g' q).2) <$> qs) m' /\ unchanged n ((fun q => at_ q) <$> qs) m m'.
Proof.
  intros Hp Hd Hr Hw. rewrite <-!bases_map.
  destruct (Hp ((fun q => at_ q) <$> qs) (g <$> qs) (g' <$> qs) m Hd) as (m' & E & Hw' & Hu).
  - by rewrite !length_fmap.
  - apply Forall2_fmap, Forall_Forall2_diag. exact Hr.
  - by rewrite <-list_fmap_compose.
  - exists m'. rewrite <-list_fmap_compose in Hw'. done.
Qed.

Lemma lanes_ok qs m :
  Forall (run_ok m) qs -> disjoint n ((fun q => at_ q) <$> qs) ->
  exists m', lanes_hash (lr_in <$> qs) (lr_ctx <$> qs) m
    = Some ((fun q => set_memory (end_hash (lr_end q)).1 (at_ q)) <$> qs, m', (fun q => cn_hash props (lr_in q)) <$> qs) /\
    unchanged n ((fun q => at_ q) <$> qs) m m'.
Proof.
  intros Hq Hd. unfold lanes_hash. cbv zeta.
  destruct (phase_sim _ _ (fun q => (begin_hash props junk (lr_in q) (set_memory (lr_ctx q) 0), window n (at_ q) m))
    (fun q => (lr_mid q, fill_ (lr_in q))) qs m (each_simulates n _ (explode_local SOFT_AES props n)) Hd) as (m1 & E1 & W1 & U1).
  { refine (List.Forall_impl _ _ Hq). intros q Hr. apply (run_explode _ _ Hr). }
  { apply windows_map. refine (List.Forall_impl _ _ Hq). intros q Hr. exact (conj (run_fits _ _ Hr) eq_refl). }
  assert (B1 : zip_with (begin_hash props junk) (lr_in <$> qs) (lr_ctx <$> qs)
    = (fun q => set_memory (begin_hash props junk (lr_in q) (set_memory (lr_ctx q) 0)) (at_ q)) <$> qs).
  { rewrite zip_with_map. apply list_fmap_ext. intros i q _. apply begin_rebase. }
  rewrite B1. cbn [fst snd rebase ctx_based] in E1, W1. rewrite E1. cbn [mbind option_bind]. clear B1 E1.
  destruct (phase_sim _ _ (fun q => (mk (lr_in q) (lr_mid q), fill_ (lr_in q))) (fun q => (lr_lane q, mixed_ (lr_in q))) qs m1
    (proj2 (simulates_repeat n body f iters Hlocal Hsim)) Hd) as (m2 & E2 & W2 & U2); [|exact W1|].
  { refine (List.Forall_impl _ _ Hq). intros q Hr. apply (run_loop _ _ Hr). }
  assert (B2 : zip_with mk (lr_in <$> qs) ((fun q => set_memory (lr_mid q) (at_ q)) <$> qs)
    = (fun q => rebase (at_ q) (mk (lr_in q) (lr_mid q))) <$> qs).
  { rewrite zip_with_map. apply list_fmap_ext. intros i q Hi. apply Hrebase.
    exact (proj1 (run_implode _ _ (Forall_lookup_1 _ _ _ _ Hq Hi))). }
  rewrite B2. cbn [fst snd] in E2, W2. rewrite E2. cbn [mbind option_bind]. clear B2 E2.
  destruct (phase_sim _ _ (fun q => (lr_mid q, mixed_ (lr_in q))) (fun q => (lr_end q, lr_pad q)) qs m2
    (each_simulates n _ (implode_local SOFT_AES props n)) Hd) as (m3 & E3 & W3 & U3); [|exact W2|].
  { refine (List.Forall_impl _ _ Hq). intros q Hr. apply (run_implode _ _ Hr). }
  cbn [fst snd rebase ctx_based] in E3. rewrite E3. cbn [mbind option_bind]. exists m3.
  split; [|exact (unchanged_trans _ _ _ _ _ (unchanged_trans _ _ _ _ _ U1 U2) U3)].
  rewrite <-!list_fmap_compose. f_equal. f_equal. apply list_fmap_ext. intros i q Hi.
  exact (run_digest _ _ (Forall_lookup_1 _ _ _ _ Hq Hi)).
Qed.
End Many.

(** ** The functions *)

#[local] Abbreviation scalar_hash := (lanes_hash new_lane (scalar_body SOFT_AES props)).
#[local] Abbreviation vector_hash := (lanes_hash CONST_INIT (vector_body SOFT_AES props)).

Lemma each_map {A A' B} (op : A' -> list Z -> option (B * list Z)) (g : A -> A') xs m :
  each (fun x => op (g x)) xs m = each op (g <$> xs) m.
Proof. revert m. induction xs as [|x xs IH]; intros m; [done|]. cbn. destruct (op (g x) m) as [[y m']|]; [|done]. cbn. by rewrite IH. Qed.
Lemma each_then {A B C} (op : A -> list Z -> option (B * list Z)) (g : B -> C) xs m :
  each (fun x m => '(y, m) ← op x m; Some (g y, m) : option (C * list Z)) xs m
  = ('(ys, m) ← each op xs m; Some ((g <$> ys : list C), m) : option (list C * list Z)).
Proof.
  revert m. induction xs as [|x xs IH]; intros m; [done|]. cbn. destruct (op x m) as [[y m1]|]; [|done]. cbn. rewrite IH.
  by destruct (each op xs m1) as [[ys m2]|].
Qed.

(** Lane by lane or phase by phase, the phases around the main loop are the same. *)
Lemma lane_by_lane_shape k input size ctx m :
  (43 <= size)%nat ->
  lane_by_lane_hash SOFT_AES props junk k input size ctx m = vector_hash (lane_inputs k size input) ctx m.
Proof.
  intros Hs. unfold lane_by_lane_hash, lanes_hash. rewrite (proj2 (Nat.ltb_ge _ _)) by done. cbv zeta.
  set (inputs := lane_inputs k size input).
  rewrite (each_map (cn_explode_scratchpad SOFT_AES props) (fun ic => begin_hash props junk ic.1 ic.2)).
  assert (E : (fun ic => begin_hash props junk ic.1 ic.2) <$> zip inputs ctx = zip_with (begin_hash props junk) inputs ctx).
  { revert ctx. generalize inputs. intros l. induction l as [|i l IH]; intros [|c cs]; [done..|]. cbn. by f_equal. }
  rewrite E. destruct (each _ _ m) as [[cs m1]|]; [|done]. cbn [mbind option_bind].
  destruct (repeatM _ _ _) as [[r m2]|]; [|done]. cbn [mbind option_bind].
  rewrite (each_then (cn_implode_scratchpad SOFT_AES props) end_hash). by destruct (each _ cs m2) as [[cs' m3]|].
Qed.

(** Lanes, their contexts and the memory before a call. *)
Record lanes_before (k : nat) (input : list Z) (size : nat) (ctx : list cryptonight_ctx) (m : list Z) : Prop := {
  lb_bytes : bytes input;
  lb_input : (size * k <= length input)%nat;
  lb_count : length ctx = k;
  lb_ctx : Forall ctx_ok ctx;
  lb_fits : Forall (fun c => fits n (cn_memory c) m) ctx;
  lb_disjoint : disjoint n (cn_memory <$> ctx) }.
Definition lanes_after (k : nat) (input : list Z) (size : nat) (ctx : list cryptonight_ctx) (m : list Z) (r : option result) : Prop :=
  exists ctx' m', r = Some (ctx', m', cn_hash props <$> lane_inputs k size input) /\
    cn_memory <$> ctx' = cn_memory <$> ctx /\ Forall ctx_ok ctx' /\ unchanged n (cn_memory <$> ctx) m m'.

(** Runs of lanes with given inputs and contexts. *)
Lemma runs_exist {L} `{Based L} mk (f : L -> list Z -> option (L * list Z)) R inputs ctx m :
  follows props f R ->
  (forall input c, mid_ctx input c -> R (tw_ input) (mk input c) (start_a (st_ input)) (start_b (st_ input))) ->
  (forall input c, base_of (mk input c) = cn_memory c) ->
  Forall (fun i => bytes i /\ (43 <= length i)%nat) inputs -> length inputs = length ctx ->
  Forall ctx_ok ctx -> Forall (fun c => fits n (cn_memory c) m) ctx ->
  exists qs, lr_in <$> qs = inputs /\ lr_ctx <$> qs = ctx /\ Forall (run_ok mk f m) qs.
Proof.
  intros Hf Hs Hb Hi. revert ctx. induction Hi as [|i inputs [Hi1 Hi2] Hi IH]; intros [|c ctx] Hl Hc Hm; try done.
  { by exists []. }
  apply Forall_cons_1 in Hc as [Hc1 Hc]. apply Forall_cons_1 in Hm as [Hm1 Hm].
  destruct (IH ctx ltac:(cbn in Hl; lia) Hc Hm) as (qs & E1 & E2 & Hq).
  destruct (run_exists mk f R Hf Hs Hb m i c Hi1 Hi2 Hc1 Hm1) as (q & F1 & F2 & Hq1).
  exists (q :: qs). split_and!; [cbn; by f_equal|cbn; by f_equal|]. by apply List.Forall_cons.
Qed.

Lemma lanes_hash_correct {L} `{Based L} mk body (f : L -> list Z -> option (L * list Z)) R k input size ctx m :
  local n f -> simulates n body f -> follows props f R ->
  (forall input c, mid_ctx input c -> R (tw_ input) (mk input c) (start_a (st_ input)) (start_b (st_ input))) ->
  (forall input c, base_of (mk input c) = cn_memory c) ->
  (forall input c p, cn_memory c = 0 -> mk input (set_memory c p) = rebase p (mk input c)) ->
  (43 <= size)%nat -> lanes_before k input size ctx m ->
  lanes_after k input size ctx m (lanes_hash mk body (lane_inputs k size input) ctx m).
Proof.
  intros Hl Hsim Hf Hs Hb Hr Hsz [Hib Hil Hk Hc Hfit Hd].
  assert (Hin : Forall (fun i => bytes i /\ (43 <= length i)%nat) (lane_inputs k size input)).
  { apply Forall_fmap, Forall_seq. intros j Hj. split; [by apply Forall_slice|]. rewrite length_slice; [lia|nia]. }
  destruct (runs_exist mk f R _ ctx m Hf Hs Hb Hin) as (qs & E1 & E2 & Hq); [|done|done|].
  { unfold lane_inputs. by rewrite length_fmap, length_seq. }
  assert (Ep : cn_memory <$> ctx = (fun q => cn_memory (lr_ctx q)) <$> qs) by (rewrite <-E2; by rewrite <-list_fmap_compose).
  rewrite Ep in Hd. destruct (lanes_ok mk body f Hl Hsim Hr qs m Hq Hd) as (m' & E & Hu).
  rewrite E1, E2 in E. unfold lanes_after. rewrite E, Ep.
  exists ((fun q => set_memory (end_hash (lr_end q)).1 (cn_memory (lr_ctx q))) <$> qs), m'. split_and!; [| | |exact Hu].
  - rewrite <-E1, <-list_fmap_compose. exact eq_refl.
  - rewrite <-list_fmap_compose. exact eq_refl.
  - apply Forall_fmap. refine (List.Forall_impl _ _ Hq). intros q Hq1. exact (run_ctx _ _ _ _ Hq1).
Qed.

Lemma scalar_hash_correct k input size ctx m :
  (43 <= size)%nat -> lanes_before k input size ctx m ->
  lanes_after k input size ctx m (scalar_hash (lane_inputs k size input) ctx m).
Proof.
  destruct (scalar_local SOFT_AES props n) as [Hl Hs].
  apply (lanes_hash_correct _ _ _ _ _ _ _ _ _ Hl Hs (scalar_follows SOFT_AES props Hok) scalar_start); [done|].
  intros input' [] p E. cbn in E. subst. reflexivity.
Qed.
Lemma vector_hash_correct k input size ctx m :
  (43 <= size)%nat -> lanes_before k input size ctx m ->
  lanes_after k input size ctx m (vector_hash (lane_inputs k size input) ctx m).
Proof.
  destruct (vector_local SOFT_AES props n) as [Hl Hs].
  apply (lanes_hash_correct _ _ _ _ _ _ _ _ _ Hl Hs (vector_follows SOFT_AES props Hok) vector_start); [done|].
  intros input' [] p E. cbn in E. subst. reflexivity.
Qed.

(** Inputs that are too short. *)
Lemma short_ok k input size ctx m :
  (size < 43)%nat -> lanes_before k input size ctx m -> lanes_after k input size ctx m (Some (zeros k ctx m)).
Proof.
  intros Hs [Hib Hil Hk Hc Hfit Hd]. exists ctx, m. split_and!; [|done|done|by split].
  unfold zeros. do 2 f_equal. unfold lane_inputs. rewrite <-list_fmap_compose. symmetry.
  transitivity ((fun _ : nat => replicate 32 0) <$> seq 0 k).
  - apply list_fmap_ext. intros j i Hi. apply lookup_seq in Hi as [-> Hi]. unfold compose, cn_hash.
    rewrite (proj2 (Nat.ltb_lt _ _)); [done|]. rewrite length_slice; [done|nia].
  - apply const_seq.
Qed.

Definition variant_lanes (av : AlgoVariant) : nat :=
  match av with
  | AV_SINGLE | AV_SINGLE_SOFT => 1 | AV_DOUBLE | AV_DOUBLE_SOFT => 2 | AV_TRIPLE | AV_TRIPLE_SOFT => 3
  | AV_QUAD | AV_QUAD_SOFT => 4 | AV_PENTA | AV_PENTA_SOFT => 5
  end.
Lemma scalar_fun_correct k input size ctx m :
  lanes_before k input size ctx m ->
  lanes_after k input size ctx m
    (if (size <? 43)%nat then Some (zeros k ctx m) else scalar_hash (lane_inputs k size input) ctx m).
Proof.
  intros Hb. destruct (Nat.ltb_spec size 43); [by apply short_ok|by apply scalar_hash_correct].
Qed.
Lemma vector_fun_correct k input size ctx m :
  lanes_before k input size ctx m ->
  lanes_after k input size ctx m
    (if (size <? 43)%nat then Some (zeros k ctx m) else vector_hash (lane_inputs k size input) ctx m).
Proof.
  intros Hb. destruct (Nat.ltb_spec size 43); [by apply short_ok|by apply vector_hash_correct].
Qed.
Lemma lane_by_lane_correct k input size ctx m :
  lanes_before k input size ctx m ->
  lanes_after k input size ctx m (lane_by_lane_hash SOFT_AES props junk k input size ctx m).
Proof.
  intros Hb. destruct (Nat.ltb_spec size 43) as [Hs|Hs].
  - unfold lane_by_lane_hash. rewrite (proj2 (Nat.ltb_lt _ _) Hs). by apply short_ok.
  - rewrite lane_by_lane_shape by done. by apply vector_hash_correct.
Qed.
End Lane.

(** Every function of the table computes the reference, lane by lane. *)
Lemma fn_correct `{AesNiLaws, AesKeyGenLaws, ExtraHashesLaws} props junk av input size ctx m :
  algo_ok props -> length junk = 144%nat -> lanes_before props (variant_lanes av) input size ctx m ->
  lanes_after props (variant_lanes av) input size ctx m (CnHash_fn props av junk input size ctx m).
Proof.
  intros Hok Hj Hb. destruct av;
    [exact (scalar_fun_correct false props junk Hok Hj 1 _ _ _ _ Hb)
    |exact (scalar_fun_correct false props junk Hok Hj 2 _ _ _ _ Hb)
    |exact (scalar_fun_correct true props junk Hok Hj 1 _ _ _ _ Hb)
    |exact (scalar_fun_correct true props junk Hok Hj 2 _ _ _ _ Hb)
    |exact (lane_by_lane_correct false props junk Hok Hj 3 _ _ _ _ Hb)
    |exact (vector_fun_correct false props junk Hok Hj 4 _ _ _ _ Hb)
    |exact (lane_by_lane_correct false props junk Hok Hj 5 _ _ _ _ Hb)
    |exact (lane_by_lane_correct true props junk Hok Hj 3 _ _ _ _ Hb)
    |exact (vector_fun_correct true props junk Hok Hj 4 _ _ _ _ Hb)
    |exact (lane_by_lane_correct true props junk Hok Hj 5 _ _ _ _ Hb)].
Qed.

(** ** Properties *)

(** A stack to instantiate the finalisers with. *)
Definition any_stack (_ : list Z) : Stack :=
  mk_stack (CnBlake.mk_state [] [] 1 2 3 4 (replicate 64 5)) (replicate 64 6) (CnJh.mk_hs 7 8 9 [] (replicate 64 10))
    (CnSkein.mk_ctx 11 12 13 14 [] (replicate 64 15)) (replicate 32 16).
Lemma any_stack_ok x : stack_ok (any_stack x).
Proof. split_and!; [exact eq_refl|apply byte_list_dec; exact eq_refl|exact eq_refl|exact eq_refl|apply byte_list_dec; exact eq_refl|exact eq_refl|exact eq_refl]. Qed.

(** C3. For each of the six variants GhostRider uses and every entry of the
    function table (one to five lanes, AES instructions or tables), with the four
    finalisers of the table whatever their stacks held, a call on contexts whose scratchpads are aligned, disjoint and inside the memory returns
    without an access out of bounds; the digest of lane [i] is the reference
    CryptoNight hash of the [i]-th input (its last step one of BLAKE-256, Groestl-256,
    JH-256 and Skein-512-256 as their specifications define them), whatever the contexts and the memory held
    before; the contexts keep their pointers and no byte outside the scratchpads
    changes.  For the two half-memory variants the reference works on the whole
    scratchpad, the code on half of it. *)
Theorem cryptonight_refines (ni : AesNi) (kg : AesKeyGen) (L1 : AesNiLaws ni) (L2 : AesKeyGenLaws kg)
    stack id av junk input size ctx m :
  (forall x, stack_ok (stack x)) ->
  In id [CN_GR_0; CN_GR_1; CN_GR_2; CN_GR_3; CN_GR_4; CN_GR_5] -> length junk = 144%nat ->
  lanes_before (cn_algo id) (variant_lanes av) input size ctx m ->
  exists ctx' m',
    @CnHash_fn ni kg (extra_code stack) (cn_algo id) av junk input size ctx m
    = Some (ctx', m', cn_hash (cn_algo id) <$> lane_inputs (variant_lanes av) size input) /\
    cn_memory <$> ctx' = cn_memory <$> ctx /\ Forall ctx_ok ctx' /\
    unchanged (lane_size (cn_algo id)) (cn_memory <$> ctx) m m'.
Proof. intros Hst Hid Hj Hb. pose proof (extra_code_laws stack Hst) as L3. exact (fn_correct (cn_algo id) junk av input size ctx m (gr_algos_ok id Hid) Hj Hb). Qed.
Lemma gr_1_size : lane_size (cn_algo CN_GR_1) = Z.to_nat 262144.
Proof. apply (f_equal Z.to_nat). vm_compute. reflexivity. Qed.
Lemma cryptonight_refines_witness :
  let ctx := [mk_ctx (replicate 224 1) 0 [] false; mk_ctx (replicate 224 2) 262144 [] true] in
  let m := replicate (Z.to_nat 524288) 0 in
  exists ctx' m',
    @CnHash_fn aesni_ref keygen_ref (extra_code any_stack) (cn_algo CN_GR_1) AV_DOUBLE (replicate 144 9) (replicate 128 3) 64 ctx m
    = Some (ctx', m', cn_hash (cn_algo CN_GR_1) <$> lane_inputs 2 64 (replicate 128 3)) /\
    cn_memory <$> ctx' = cn_memory <$> ctx /\ Forall ctx_ok ctx' /\
    unchanged (lane_size (cn_algo CN_GR_1)) (cn_memory <$> ctx) m m'.
Proof.
  intros ctx m.
  apply (cryptonight_refines aesni_ref keygen_ref aesni_ref_laws keygen_ref_laws any_stack CN_GR_1 AV_DOUBLE).
  - exact any_stack_ok.
  - right. left. exact eq_refl.
  - exact eq_refl.
  - split.
    + apply byte_list_dec. exact eq_refl.
    + apply Nat.leb_le. exact eq_refl.
    + exact eq_refl.
    + do 2 (apply List.Forall_cons; [split; [exact eq_refl|apply byte_list_dec; exact eq_refl]|]). constructor.
    + unfold fits, m. rewrite gr_1_size, length_replicate. do 2 (apply List.Forall_cons; [cbn [cn_memory]; split_and!; [lia|exact eq_refl|lia]|]). constructor.
    + rewrite gr_1_size. intros i j p q Hij Hp Hq.
      destruct i as [|[|i]], j as [|[|j]]; try lia; cbn in Hp, Hq; try discriminate;
        injection Hp as <-; injection Hq as <-; lia.
Defined.
