(* ===== verification/GrCores.v ===== *)
(** * The fifteen core hashes of GhostRider ([CORE_HASH] of [crypto/ghostrider/ghostrider.cpp]).

    Each is [init], one call with the whole message and [close] on a context of the
    stack.  Twelve are the modelled [sph_*] functions, proved here to compute the
    published functions; [simd512], [hamsi512] and [fugue512] are the class
    [CoreHashes], of which only the size of a digest is used. *)
From S2P Require Import Prelude Stream MdHelper Whirlpool Keccak SphCore Cubehash SphBlake Groestl Jh Skein Shabal Luffa Bmw Echo Shavite.

(** ** The code *)

Class CoreHashes := { h9 : list Z -> list Z; h11 : list Z -> list Z; h12 : list Z -> list Z }.

(** What the arguments of a call do not determine: the contexts and the locals on the
    stack, which [init] does not clear, the build options of the hashes, and the
    alignment of the data. *)
Record CoreStack := mk_core_stack {
  blake_compact : bool; blake_buf : list Z; blake_u : list Z;
  bmw_footprint : bool; bmw_buf : list Z;
  groestl_le : bool; groestl_compact : bool; groestl_buf : list Z; groestl_pad_buf : list Z;
  jh_footprint : bool; jh_buf : list Z; jh_pad_buf : list Z;
  keccak_buf : list Z;
  skein_footprint : bool; skein_buf : list Z;
  luffa_parallel : bool; luffa_buf : list Z;
  cubehash_buf : list Z;
  shavite_footprint : bool; shavite_buf : list Z; shavite_rk : list Z;
  echo_wide : bool; echo_buf : list Z; echo_tmp : list Z;
  shabal_cc : Shabal.shabal_ctx; shabal_tmp : list Z;
  md_buf : list Z; unaligned : bool; data_addr : Z }.

Section CoreHash.
Context `{CoreHashes} (am : CoreStack).

(** [CORE_HASH(i, x)]. *)
Definition h0 (data : list Z) : list Z :=
  (Blake.sph_blake512_close (blake_compact am) (blake_u am) (Blake.sph_blake512 (blake_compact am) (Blake.sph_blake512_init (blake_buf am)) data)).2.
Definition h1 (data : list Z) : list Z :=
  (Bmw.sph_bmw512_close (bmw_footprint am) (Bmw.sph_bmw512 (bmw_footprint am) (Bmw.sph_bmw512_init (bmw_buf am)) data)).2.
Definition h2 (data : list Z) : list Z :=
  (Groestl.sph_groestl512_close (groestl_le am) (groestl_compact am) (groestl_pad_buf am)
    (Groestl.sph_groestl512 (groestl_le am) (groestl_compact am) (Groestl.sph_groestl512_init (groestl_le am) (groestl_buf am)) data)).2.
Definition h3 (data : list Z) : list Z :=
  (Jh.sph_jh512_close (jh_footprint am) (jh_pad_buf am) (Jh.sph_jh512 (jh_footprint am) (Jh.sph_jh512_init (jh_buf am)) data)).2.
Definition h4 (data : list Z) : list Z := (sph_keccak512_close (sph_keccak512 (sph_keccak512_init (keccak_buf am)) data)).2.
Definition h5 (data : list Z) : list Z :=
  (Skein.sph_skein512_close (skein_footprint am) (Skein.sph_skein512 (skein_footprint am) (Skein.sph_skein512_init (skein_buf am)) data)).2.
Definition h6 (data : list Z) : list Z :=
  (Luffa.sph_luffa512_close (luffa_parallel am) (Luffa.sph_luffa512 (luffa_parallel am) (Luffa.sph_luffa512_init (luffa_buf am)) data)).2.
Definition h7 (data : list Z) : list Z :=
  (Cubehash.sph_cubehash512_close (Cubehash.sph_cubehash512 (Cubehash.sph_cubehash512_init (cubehash_buf am)) data)).2.
Definition h8 (data : list Z) : list Z :=
  (Shavite.sph_shavite512_close (shavite_footprint am) (shavite_rk am)
    (Shavite.sph_shavite512 (shavite_footprint am) (shavite_rk am) (Shavite.sph_shavite512_init (shavite_buf am)) data)).2.
Definition h10 (data : list Z) : list Z :=
  (Echo.sph_echo512_close (echo_wide am) (echo_tmp am) (Echo.sph_echo512 (echo_wide am) (Echo.sph_echo512_init (echo_wide am) (echo_buf am)) data)).2.
(** [shabal_close] has no case for other sizes than those of its tables; 16 words is one of them. *)
Definition h13 (data : list Z) : list Z :=
  from_option id [] (Shabal.sph_shabal512_close (shabal_tmp am) (Shabal.sph_shabal512 (Shabal.sph_shabal512_init (shabal_cc am)) data)).2.
Definition h14 (data : list Z) : list Z :=
  (sph_whirlpool_close (unaligned am) (sph_whirlpool (unaligned am) (sph_whirlpool_init (md_buf am)) (data_addr am) data)).2.

Definition core_hash : list (list Z -> list Z) := [h0; h1; h2; h3; h4; h5; h6; h7; h8; h9; h10; h11; h12; h13; h14].
End CoreHash.

(** ** Reference *)

(** The core hashes by their specifications. *)
Definition gr_core `{CoreHashes} (i : nat) : list Z -> list Z :=
  [ (fun m => Blake.blake_digest (Blake.big false) Blake.IV512 8 m 0 0);
    (fun m => Bmw.bmw_big Bmw.IV512 8 m 0 0);
    (fun m => Groestl.groestl_digest 64 m 0 0);
    (fun m => Jh.jh_digest 64 m 0 0);
    keccak_digest 64 72;
    (fun m => Skein.skein_digest 64 m 0 0);
    (fun m => Luffa.luffa_digest 5 16 m 0 0);
    (fun m => Cubehash.cubehash_digest 16 m 0 0);
    (fun m => Shavite.shavite_digest 128 16 Shavite.E512 Shavite.IV512 16 m 0 0);
    h9;
    (fun m => Echo.echo_digest 8 10 16 m 0 0);
    h11;
    h12;
    (fun m => Shabal.shabal_digest 16 m 0 0);
    wp_digest Sbox cir_plain ] !!! i.

(** What the three abstract hashes promise: digests of 64 bytes. *)
Definition digests (n : nat) (f : list Z -> list Z) : Prop :=
  forall x, bytes x -> length (f x) = n /\ bytes (f x).
Class CoreHashesLaws `(CoreHashes) : Prop := { core_laws : Forall (digests 64) [h9; h11; h12] }.

(** ** Every core hash computes its reference *)

Definition stack_sizes (am : CoreStack) : list nat :=
  [length (blake_buf am); length (blake_u am); length (bmw_buf am); length (groestl_buf am); length (groestl_pad_buf am);
   length (jh_buf am); length (jh_pad_buf am); length (keccak_buf am); length (skein_buf am); length (luffa_buf am);
   length (cubehash_buf am); length (shavite_buf am); length (shavite_rk am); length (echo_buf am); length (echo_tmp am);
   length (sc_buf (shabal_cc am)); length (shabal_tmp am); length (md_buf am)].
Definition core_stack_ok (am : CoreStack) : Prop :=
  stack_sizes am = [128; 128; 128; 128; 136; 64; 128; 144; 64; 32; 32; 128; 32; 128; 64; 64; 64; 64]%nat.

(** A message [update] takes in one call. *)
Definition input_ok (x : list Z) : Prop := bytes x /\ Z.of_nat (length x) < 2 ^ 63.
Lemma input_64 x : length x = 64%nat -> bytes x -> input_ok x.
Proof. intros Hl Hb. split; [done|]. rewrite Hl. done. Qed.

(** A hash that computes [d] on one message, with digests of 64 bytes. *)
Definition computes (x : list Z) (h d : list Z -> list Z) : Prop := h x = d x /\ length (d x) = 64%nat /\ bytes (d x).

(** The two builds of BLAKE have one reference: it uses the number of rounds, not their
    unrolling. *)
Lemma blake_digest_builds wlen Tw rotr rot C Z1 Z2 o1 o2 iv words m ub n : length o1 = length o2 ->
  Blake.blake_digest (Blake.mk_cfg wlen Tw rotr rot C Z1 o1) iv words m ub n = Blake.blake_digest (Blake.mk_cfg wlen Tw rotr rot C Z2 o2) iv words m ub n.
Proof.
  intros Ho. assert (Hc : forall t bs h L i, Blake.blake_chain (Blake.mk_cfg wlen Tw rotr rot C Z1 o1) t h L i bs
                                 = Blake.blake_chain (Blake.mk_cfg wlen Tw rotr rot C Z2 o2) t h L i bs).
  { intros t bs. induction bs as [|b bs IH]; intros h L i; [exact eq_refl|]. cbn [Blake.blake_chain]. rewrite IH. f_equal.
    unfold Blake.blake_compress. cbn [Blake.order Blake.wlen Blake.Cx]. rewrite Ho. exact eq_refl. }
  unfold Blake.blake_digest. rewrite Hc. exact eq_refl.
Qed.

#[local] Opaque keccak_f keccak_pad.
Lemma keccak512_digests : digests 64 (keccak_digest 64 72).
Proof.
  intros x _. unfold keccak_digest. split; [|apply Forall_take, bytes_flat_le]. rewrite length_take, length_flat_le.
  set (bs := blocks _ _). assert (E : length (foldl (absorb_block 72) (replicate 25 0) bs) = 25%nat); [|by rewrite E].
  generalize (replicate 25 0), (eq_refl : length (replicate 25 0) = 25%nat).
  induction bs as [|b bs IH]; intros A HA; [done|]. apply IH, length_keccak_f, length_tabulate.
Qed.
Lemma h14_bytes am x : length (h14 am x) = 64%nat /\ bytes (h14 am x).
Proof.
  unfold h14, sph_whirlpool_close, MAKE_CLOSE. set (sc := fst _). clearbody sc. cbn [snd].
  assert (E : flat_map (fun i => le_store 8 (val sc !!! i)) (seq 0 8) = flat_map (le_store 8) ((fun i => val sc !!! i) <$> seq 0 8))
    by reflexivity.
  rewrite E. split; [by rewrite length_flat_le|apply bytes_flat_le].
Qed.

Section Correct.
Context (am : CoreStack) (Ham : core_stack_ok am) (x : list Z) (Hx : input_ok x).

#[local] Lemma one_piece : concat [x] = x.
Proof. cbn. apply app_nil_r. Qed.
#[local] Lemma no_bits : word 8 0 /\ 0 <= 0 < 8.
Proof. split; [by apply word_0|lia]. Qed.

Lemma h0_correct : length (blake_buf am) = 128%nat -> length (blake_u am) = 128%nat ->
  computes x (h0 am) (fun m => Blake.blake_digest (Blake.big false) Blake.IV512 8 m 0 0).
Proof.
  intros H1 H2. destruct no_bits as [Hub Hn]. destruct Hx as [Hb Hl]. set (c := blake_compact am).
  assert (Hbl : Blake.blen (Blake.big c) = 128%nat) by by destruct c.
  assert (HW : 8 * Z.of_nat (length (concat [x])) + 0 < Blake.W (Blake.big c) * Blake.W (Blake.big c)).
  { replace (Blake.W (Blake.big c) * Blake.W (Blake.big c)) with (2 ^ 128) by by destruct c. rewrite one_piece. lia. }
  pose proof (Blake.blake_stream (Blake.big c) (Blake.big_ok c) (blake_buf am) Blake.IV512 8 [x] (blake_u am) 0 0
    ltac:(by rewrite Hbl) eq_refl ltac:(by rewrite Hbl) ltac:(lia) Hub Hn HW) as E. rewrite one_piece in E.
  split; [|exact (Blake.length_blake_digest (Blake.big false) Blake.IV512 8 x 0 0 (Blake.big_ok false) eq_refl ltac:(lia))].
  etransitivity; [exact E|]. unfold Blake.big. destruct c; [|exact eq_refl]. apply blake_digest_builds. exact eq_refl.
Qed.
Lemma h1_correct : length (bmw_buf am) = 128%nat -> computes x (h1 am) (fun m => Bmw.bmw_big Bmw.IV512 8 m 0 0).
Proof.
  intros H1. destruct no_bits as [Hub Hn]. unfold Bmw.bmw_big. rewrite (proj2 Bmw.bmw_final_ref). set (fp := bmw_footprint am).
  pose proof (Bmw.bmw_stream (Bmw.big fp) (Bmw.bmw_big_ok fp) fp Bmw.final_b eq_refl (bmw_buf am) Bmw.IV512 [x] 0 0 8 H1 eq_refl Hub Hn ltac:(lia)) as E.
  rewrite one_piece in E. split; [exact E|]. exact (Bmw.length_bmw_digest (Bmw.big fp) Bmw.final_b eq_refl Bmw.IV512 8 x 0 0 ltac:(lia)).
Qed.
Lemma h2_correct : length (groestl_buf am) = 128%nat -> length (groestl_pad_buf am) = 136%nat -> computes x (h2 am) (fun m => Groestl.groestl_digest 64 m 0 0).
Proof.
  intros H1 H2. destruct no_bits as [Hub Hn]. destruct Hx as [Hb _]. set (le := groestl_le am).
  pose proof (Groestl.groestl_stream true le (groestl_compact am) (groestl_buf am) (groestl_pad_buf am) 64 [x] 0 0) as E. rewrite one_piece in E.
  split; [|by apply Groestl.bytes_groestl_digest]. apply E; [done|done|simpl; lia|done|done|done|by destruct le|apply word_list_dec; by destruct le|done].
Qed.
Lemma h3_correct : length (jh_buf am) = 64%nat -> length (jh_pad_buf am) = 128%nat -> computes x (h3 am) (fun m => Jh.jh_digest 64 m 0 0).
Proof.
  intros H1 H2. destruct no_bits as [Hub Hn]. destruct Hx as [Hb Hl].
  pose proof (Jh.jh_stream (jh_footprint am) (jh_buf am) (jh_pad_buf am) Jh.IV512 16 [x] 0 0) as E. rewrite one_piece in E.
  split; [|by apply Jh.length_jh_digest]. apply E; [done|done|done|apply Jh.jh_iv_ref|lia|done|done|done|lia].
Qed.
Lemma h4_correct : length (keccak_buf am) = 144%nat -> computes x (h4 am) (keccak_digest 64 72).
Proof.
  intros H1. destruct Hx as [Hb _]. pose proof (sponge_stream 64 72 (keccak_buf am) [x]) as E. rewrite one_piece in E.
  split; [|by apply keccak512_digests]. apply E; [simpl; tauto|simpl; tauto|done|done].
Qed.
Lemma h5_correct : length (skein_buf am) = 64%nat -> computes x (h5 am) (fun m => Skein.skein_digest 64 m 0 0).
Proof.
  intros H1. destruct no_bits as [Hub Hn]. destruct Hx as [Hb Hl].
  pose proof (Skein.skein_stream_digest (skein_footprint am) (skein_buf am) Skein.IV512 [x] 0 0 64) as E. rewrite one_piece in E.
  split; [|by apply Skein.length_skein_digest]. apply E; [done|apply Skein.skein_ivs|done|done|lia|lia].
Qed.
Lemma h6_correct : length (luffa_buf am) = 32%nat -> computes x (h6 am) (fun m => Luffa.luffa_digest 5 16 m 0 0).
Proof.
  intros H1. destruct no_bits as [Hub Hn]. destruct Hx as [Hb _].
  pose proof (Luffa.luffa5_stream (luffa_parallel am) (luffa_buf am) [x] 0 0) as E. rewrite one_piece in E.
  destruct (E H1 Hub Hn Hb) as [E1 E2]. split; [|exact E2]. etransitivity; [|exact E1].
  unfold h6, Luffa.sph_luffa512_close, Luffa.sph_luffa512_addbits_and_close. reflexivity.
Qed.
Lemma h7_correct : length (cubehash_buf am) = 32%nat -> computes x (h7 am) (fun m => Cubehash.cubehash_digest 16 m 0 0).
Proof.
  intros H1. destruct no_bits as [Hub Hn].
  pose proof (Cubehash.cube_stream (cubehash_buf am) Cubehash.IV512 16 [x] 0 0 H1) as E. rewrite one_piece in E.
  split; [|apply Cubehash.length_cubehash_digest]. unfold h7, Cubehash.sph_cubehash512_close. rewrite (proj2 (proj2 (proj2 Cubehash.closing))). apply E; [apply Cubehash.iv_ref|lia|done|done].
Qed.
Lemma h8_correct : length (shavite_buf am) = 128%nat -> length (shavite_rk am) = 32%nat ->
  computes x (h8 am) (fun m => Shavite.shavite_digest 128 16 Shavite.E512 Shavite.IV512 16 m 0 0).
Proof.
  intros H1 H2. destruct no_bits as [Hub Hn].
  pose proof (Shavite.shavite_big_stream (shavite_footprint am) (shavite_rk am) (shavite_buf am) Shavite.IV512 [x] 0 0 16 H2 H1 eq_refl ltac:(lia) Hub Hn) as E.
  rewrite one_piece in E. split; [|apply Shavite.shavite512_digest_bytes].
  etransitivity; [|exact E]. unfold h8, Shavite.sph_shavite512_close. by destruct (Shavite.shavite_big_close _ _ _ _ _ _).
Qed.
Lemma h10_correct : length (echo_buf am) = 128%nat -> length (echo_tmp am) = 64%nat -> computes x (h10 am) (fun m => Echo.echo_digest 8 10 16 m 0 0).
Proof.
  intros H1 H2. destruct no_bits as [Hub Hn]. destruct Hx as [Hb Hl]. assert (HL : 8 * Z.of_nat (length x) + 0 < 2 ^ 128) by lia.
  pose proof (Echo.echo_stream (echo_wide am) 8 10 (or_intror eq_refl) (echo_buf am) (echo_tmp am) [x] 0 0 16 H1 H2 ltac:(lia) Hub Hn) as E.
  rewrite one_piece in E. split; [exact (E Hb HL)|]. apply (Echo.echo_digest_bytes (echo_wide am) 8 10 (or_intror eq_refl)); first [done | lia].
Qed.
Lemma h13_correct : length (sc_buf (shabal_cc am)) = 64%nat -> length (shabal_tmp am) = 64%nat -> computes x (h13 am) (fun m => Shabal.shabal_digest 16 m 0 0).
Proof.
  intros H1 H2. destruct no_bits as [Hub Hn].
  destruct (Shabal.shabal_stream (shabal_cc am) (shabal_tmp am) [x] 0 0 16 ltac:(simpl; tauto) H1 H2 Hub Hn) as [E1 E2].
  rewrite one_piece in E1, E2. split; [|exact E2]. unfold h13. exact (f_equal (from_option id []) E1).
Qed.
Lemma h14_correct : length (md_buf am) = 64%nat -> computes x (h14 am) (wp_digest Sbox cir_plain).
Proof.
  intros H1. destruct Hx as [Hb Hl].
  pose proof (wp_stream Sbox cir_plain _ _ (unaligned am) (md_buf am) [(data_addr am, x)] plain_tables Sbox_word H1) as E.
  cbn [fmap list_fmap snd foldl fst] in E. rewrite one_piece in E. assert (Eh : h14 am x = wp_digest Sbox cir_plain x) by (apply E; first [done | lia]).
  split; [exact Eh|]. rewrite <-Eh. apply h14_bytes.
Qed.

Context `{CoreHashesLaws}.
Lemma core_hash_ok i : (i < 15)%nat -> computes x (core_hash am !!! i) (gr_core i).
Proof.
  intros Hi. pose proof core_laws as L. repeat (apply Forall_cons_1 in L as [? L]). injection Ham as. unfold gr_core, core_hash.
  do 15 (destruct i as [|i]; [cbn [lookup_total list_lookup_total];
    first [ by apply h0_correct | by apply h1_correct | by apply h2_correct | by apply h3_correct | by apply h4_correct | by apply h5_correct
          | by apply h6_correct | by apply h7_correct | by apply h8_correct | by apply h10_correct | by apply h13_correct | by apply h14_correct
          | split; [reflexivity|by destruct Hx; auto] ]|]). lia.
Qed.
End Correct.
