(* ===== verification/GhostRider.v ===== *)
(** * The GhostRider hash ([crypto/ghostrider/ghostrider.cpp]): the code.

    The build without [XMRIG_FEATURE_HWLOC]: eight lanes, no helper threads.  The
    core hashes are those of [GrCores.v], the CryptoNight functions come from the
    table of [CryptoNight.v].  [tmp] is at once the
    destination of a core hash and, from the second one on, its source. *)
From S2P Require Import Prelude NmAes CnKeccak CnAes CryptoNight GrCores.

(** What is not determined by the arguments of a call.  Every call has its own. *)
Record Ambient := mk_ambient {
  core_stack : CoreStack; (* the locals of the core hashes *)
  temp144 : list Z;       (* temp[144] of keccak *)
  tmp512 : list Z         (* tmp[64 * N] of hash_octa *)
}.

(** ** The tables *)

Definition cn_hash : list Z := [CN_GR_0; CN_GR_1; CN_GR_2; CN_GR_3; CN_GR_4; CN_GR_5].
Definition cn_sizes : list Z := [l3 CN_GR_0; l3 CN_GR_1 / 2; l3 CN_GR_2; l3 CN_GR_3; l3 CN_GR_4; l3 CN_GR_5 / 2].
Definition av_hw_aes : list AlgoVariant := [AV_SINGLE; AV_SINGLE; AV_DOUBLE; AV_TRIPLE; AV_QUAD].
Definition av_soft_aes : list AlgoVariant := [AV_SINGLE_SOFT; AV_SINGLE_SOFT; AV_DOUBLE_SOFT; AV_TRIPLE_SOFT; AV_QUAD_SOFT].
Definition step_table : list nat := [4; 4; 1; 2; 4; 4]%nat.

(** ** The order of the algorithms *)

(** [((seed[i / 2] >> ((i & 1) * 4)) & 0xF) % N]. *)
Definition nibble (N : nat) (seed : list Z) (i : nat) : nat :=
  Z.to_nat (Z.land (Z.shiftr (seed !!! (i / 2)%nat) (Z.of_nat (i mod 2) * 4)) 0xF mod Z.of_nat N).

(** The first loop, from [i], [n] trips at most; [true] when it returned.  The
    array [indices] is the list of what was written, [k] its length. *)
Fixpoint select_loop (N : nat) (seed : list Z) (i n : nat) (selected : list bool) (indices : list nat)
    : bool * list bool * list nat :=
  match n with
  | O => (false, selected, indices)
  | S n =>
      let index := nibble N seed i in
      if negb (selected !!! index) then
        let selected := <[index := true]> selected in
        let indices := indices ++ [index] in
        if (N <=? length indices)%nat then (true, selected, indices)
        else select_loop N seed (S i) n selected indices
      else select_loop N seed (S i) n selected indices
  end.
Definition select_rest (N : nat) (selected : list bool) (indices : list nat) : list nat :=
  foldl (fun indices i => if negb (selected !!! i) then indices ++ [i] else indices) indices (seq 0 N).
Definition select_indices (N : nat) (seed : list Z) : list nat :=
  let '(returned, selected, indices) := select_loop N seed 0 64 (replicate N false) [] in
  if returned then indices else select_rest N selected indices.

Section HashOcta.
Context `{AesNi, AesKeyGen, ExtraHashes, CoreHashes}.
Context (am : nat -> Ambient) (hasAES : bool).

(** ** Scratchpads: the pointers of the eight contexts for one CryptoNight pass *)
Definition pad_pointers (ctx_memory : list Z) (step : nat) (size : Z) : list Z :=
  let '(ps, _, _) := foldl (fun '(ps, k, p) i =>
      let '(k, p) :=
        if (i mod step =? 0)%nat then (0%nat, ctx_memory !!! 0%nat)
        else if 2 ^ 21 <=? p - ctx_memory !!! k then (S k, ctx_memory !!! S k)
        else (k, p) in
      (ps ++ [p], k, p + size)) ([], 0%nat, ctx_memory !!! 0%nat) (seq 0 8) in ps.

(** ** One core hash of the eight lanes.  [data] is [Some] for the caller's
    buffer and its lane size, [None] once it points to [tmp]; [t] numbers the pass. *)
Definition core_pass (t index : nat) (data : option (list Z * nat)) (tmp : list Z) : list Z :=
  foldl (fun tmp j =>
    let x := match data with Some (d, size) => slice (j * size) size d | None => slice (j * 64) 64 tmp end in
    memcpy tmp (j * 64) ((core_hash (core_stack (am (t * 8 + j)%nat)) !!! index) x)) tmp (seq 0 8).

(** The five core hashes of a part. *)
Definition core_passes (core_indices : list nat) (part : nat) (data : option (list Z * nat)) (tmp : list Z)
    : option (list Z * nat) * list Z :=
  foldl (fun '(data, tmp) i => (None, core_pass (part * 5 + i) (core_indices !!! (part * 5 + i)%nat) data tmp)) (data, tmp) (seq 0 5).

(** [for (j = 0; j < N; j += step) f(tmp + j * 64, 64, output + j * 32, ctx, 0)];
    [f] uses the first [step] contexts. *)
Fixpoint cn_calls (fuel part : nat) (f : list Z -> list Z -> nat -> list cryptonight_ctx -> list Z -> option result)
    (step j : nat) (tmp : list Z) (s : list Z * list cryptonight_ctx * list Z)
    : option (list Z * list cryptonight_ctx * list Z) :=
  if (j <? 8)%nat then
    match fuel with
    | O => None
    | S fuel =>
        let '(output, ctx, m) := s in
        '(used, m, digests) ← f (temp144 (am (120 + part * 8 + j)%nat)) (drop (j * 64) tmp) 64%nat (take step ctx) m;
        cn_calls fuel part f step (j + step) tmp
          (memcpy output (j * 32) (concat digests), used ++ drop step ctx, m)
    end
  else Some s.

(** [memcpy(tmp + j * 64, output + j * 32, 32); memset(tmp + j * 64 + 32, 0, 32)]. *)
Definition feed_back (output tmp : list Z) : list Z :=
  foldl (fun tmp j => memset0 (memcpy tmp (j * 64) (slice (j * 32) 32 output)) (j * 64 + 32) 32) tmp (seq 0 8).

Record octa := mk_octa { o_data : option (list Z * nat); o_tmp : list Z; o_output : list Z;
  o_ctx : list cryptonight_ctx; o_mem : list Z }.

Definition one_part (ctx_memory : list Z) (core_indices cn_indices : list nat) (s : octa) (part : nat) : option octa :=
  let c := cn_indices !!! part in
  let step := step_table !!! c in
  let ctx := zip_with set_memory (o_ctx s) (pad_pointers ctx_memory step (cn_sizes !!! c)) in
  let '(data, tmp) := core_passes core_indices part (o_data s) (o_tmp s) in
  let av := if hasAES then av_hw_aes else av_soft_aes in
  let f := CnHash_fn (cn_algo (cn_hash !!! c)) (nth step av AV_SINGLE) in
  '(output, ctx, m) ← cn_calls 8 part f step 0 tmp (o_output s, ctx, o_mem s);
  Some (mk_octa data (feed_back output tmp) output ctx m).

Definition hash_octa (data : list Z) (size : nat) (output : list Z) (ctx : list cryptonight_ctx) (m : list Z)
    : option (list Z * list cryptonight_ctx * list Z) :=
  let ctx_memory := cn_memory <$> ctx in
  if (length data <? 36)%nat then None else   (* the seed is bytes 4 to 35 *)
  let seed := drop 4 data in
  let core_indices := select_indices 15 seed in
  let cn_indices := select_indices 6 seed in
  s ← foldl (fun s part => s ← s; one_part ctx_memory core_indices cn_indices s part)
        (Some (mk_octa (Some (data, size)) (tmp512 (am 0%nat)) output ctx m)) (seq 0 3);
  Some (o_output s, zip_with set_memory (o_ctx s) ctx_memory, o_mem s).
End HashOcta.
