(* ===== verification/GrSelect.v ===== *)
(** * GhostRider: the order of the algorithms.

    [select_indices] lists the algorithms by the first appearance of their number
    among the 64 half-bytes of the seed (reduced modulo how many there are), then
    those that never appear, in increasing order. *)
From stdpp Require Import sets.
From S2P Require Import Prelude NmAes CnAes CryptoNight GhostRider.
#[local] Open Scope Z_scope.

Fixpoint first_seen (seen xs : list nat) : list nat :=
  match xs with
  | [] => []
  | x :: xs => if decide (x ∈ seen) then first_seen seen xs else x :: first_seen (seen ++ [x]) xs
  end.
Definition select_order (N : nat) (xs : list nat) : list nat :=
  first_seen [] xs ++ base.filter (fun i => i ∉ xs) (seq 0 N).

Section Filter.
Context {A : Type} (P Q : A -> Prop) `{!forall x, Decision (P x), !forall x, Decision (Q x)}.
Lemma filter_none (l : list A) : Forall (fun x => ~ P x) l -> base.filter P l = [].
Proof. induction 1 as [|x l Hx _ IH]; [done|]. rewrite filter_cons. by rewrite decide_False. Qed.
Lemma filter_same (l : list A) : Forall (fun x => P x <-> Q x) l -> base.filter P l = base.filter Q l.
Proof. induction 1 as [|x l Hx _ IH]; [done|]. rewrite !filter_cons, IH. by rewrite (decide_ext (P x) (Q x)). Qed.
End Filter.

Section Select.
Context (N : nat) (seed : list Z).
Hypothesis HN : (0 < N)%nat.

Lemma nibble_lt i : (nibble N seed i < N)%nat.
Proof. unfold nibble. pose proof (Z.mod_pos_bound (Z.land (Z.shiftr (seed !!! (i / 2)%nat) (Z.of_nat (i mod 2) * 4)) 0xF) (Z.of_nat N)). lia. Qed.

(** [selected] marks exactly the indices written. *)
Definition marks (selected : list bool) (indices : list nat) : Prop :=
  length selected = N /\ NoDup indices /\ Forall (fun i => (i < N)%nat) indices /\
  forall i, (i < N)%nat -> selected !!! i = bool_decide (i ∈ indices).

Lemma marks_nil : marks (replicate N false) [].
Proof.
  split_and!; [apply length_replicate|constructor|constructor|]. intros i Hi.
  rewrite lookup_total_replicate_2 by done. done.
Qed.
Lemma marks_new selected indices x :
  marks selected indices -> (x < N)%nat -> x ∉ indices -> marks (<[x := true]> selected) (indices ++ [x]).
Proof.
  intros (Hl & Hd & Hr & Hm) Hx Hn. split_and!.
  - by rewrite length_insert.
  - apply list.NoDup_app. split_and!; [done| |apply NoDup_singleton]. intros y Hy ->%list_elem_of_singleton. done.
  - apply Forall_app_2; [done|]. by repeat constructor.
  - intros i Hi. destruct (decide (i = x)) as [->|Hne].
    + rewrite list_lookup_total_insert_eq by lia. symmetry. apply bool_decide_eq_true. set_solver.
    + rewrite list_lookup_total_insert_ne, Hm by done. apply bool_decide_ext. set_solver.
Qed.

(** All the indices are written when there are [N] of them. *)
Lemma marks_full selected indices x :
  marks selected indices -> (N <= length indices)%nat -> (x < N)%nat -> x ∈ indices.
Proof.
  intros (_ & Hd & Hr & _) Hl Hx.
  assert (Hp : indices ≡ₚ seq 0 N).
  { apply submseteq_length_Permutation; [|by rewrite length_seq].
    apply NoDup_submseteq; [done|]. intros y Hy. apply elem_of_seq. rewrite list.Forall_forall in Hr. specialize (Hr y Hy). lia. }
  rewrite Hp. apply elem_of_seq. lia.
Qed.
Lemma first_seen_done seen xs : Forall (fun x => x ∈ seen) xs -> first_seen seen xs = [].
Proof. induction 1 as [|x xs Hx _ IH]; [done|]. cbn. by rewrite decide_True. Qed.
Lemma elem_first_seen seen xs y : y ∈ seen ++ first_seen seen xs <-> y ∈ seen \/ y ∈ xs.
Proof.
  revert seen. induction xs as [|x xs IH]; intros seen; cbn; [set_solver|]. case_decide; [rewrite IH; set_solver|].
  rewrite cons_middle, (assoc_L (++)), IH. set_solver.
Qed.

(** The first loop, whether it returns or not. *)
Lemma select_loop_ok i n selected indices :
  marks selected indices -> (length indices < N)%nat ->
  let '(returned, selected', indices') := select_loop N seed i n selected indices in
  indices' = indices ++ first_seen indices (nibble N seed <$> seq i n) /\ marks selected' indices' /\
  (returned = true -> (N <= length indices')%nat).
Proof.
  revert i selected indices. induction n as [|n IH]; intros i selected indices Hm Hl.
  { cbn. by rewrite app_nil_r. }
  cbn [select_loop seq fmap list_fmap first_seen]. pose proof (nibble_lt i) as Hi.
  set (x := nibble N seed i) in *. cbv zeta. pose proof Hm as (_ & _ & _ & Hsel). rewrite (Hsel x Hi).
  destruct (decide (x ∈ indices)) as [Hx|Hx].
  - rewrite (bool_decide_eq_true_2 _ Hx). exact (IH (S i) selected indices Hm Hl).
  - rewrite (bool_decide_eq_false_2 _ Hx). cbn [negb]. pose proof (marks_new _ _ x Hm Hi Hx) as Hm'.
    rewrite (cons_middle x indices (first_seen _ _)), (assoc_L (++) indices). destruct (Nat.leb_spec N (length (indices ++ [x]))) as [Hf|Hf].
    + split_and!; [|done|done]. rewrite first_seen_done; [by rewrite app_nil_r|].
      apply Forall_fmap, Forall_seq. intros j _. by apply (marks_full _ _ _ Hm' Hf), nibble_lt.
    + exact (IH (S i) _ _ Hm' Hf).
Qed.

Lemma select_rest_ok (selected : list bool) (indices l : list nat) :
  foldl (fun indices i => if negb (selected !!! i) then indices ++ [i] else indices) indices l
  = indices ++ base.filter (fun i => selected !!! i = false) l.
Proof.
  revert indices. induction l as [|i l IH]; intros indices; cbn [foldl]; [by rewrite app_nil_r|].
  rewrite IH, filter_cons. destruct (selected !!! i); cbn [negb].
  - by rewrite decide_False.
  - rewrite decide_True by done. by rewrite <-(assoc_L (++)).
Qed.

Lemma select_order_ok n :
  (let '(returned, selected, indices) := select_loop N seed 0 n (replicate N false) [] in
   if returned then indices else select_rest N selected indices) = select_order N (nibble N seed <$> seq 0 n).
Proof.
  unfold select_order. set (xs := nibble N seed <$> seq 0 n).
  pose proof (select_loop_ok 0 n (replicate N false) [] marks_nil HN) as Hl.
  destruct (select_loop N seed 0 n (replicate N false) []) as [[returned selected] indices].
  destruct Hl as (E & Hm & Hr). fold xs in E. cbn [app] in E. rewrite <-E.
  assert (Hin : forall i, i ∈ indices <-> i ∈ xs).
  { intros i. rewrite E. pose proof (elem_first_seen [] xs i) as Hs. rewrite app_nil_l in Hs. rewrite Hs.
    split; [intros [Hn%elem_of_nil|Hx]; done|by right]. }
  destruct returned.
  - specialize (Hr eq_refl). rewrite (filter_none (fun i => i ∉ xs)); [by rewrite app_nil_r|].
    apply Forall_seq. intros j Hj Hn. apply Hn, Hin. apply (marks_full _ _ _ Hm Hr). lia.
  - unfold select_rest. rewrite select_rest_ok. f_equal. apply filter_same, Forall_seq. intros i Hi.
    destruct Hm as (_ & _ & _ & Hsel). rewrite Hsel by lia. rewrite bool_decide_eq_false. by rewrite Hin.
Qed.
Lemma select_indices_order : select_indices N seed = select_order N (nibble N seed <$> seq 0 64).
Proof. exact (select_order_ok 64). Qed.

Lemma select_order_permutation xs : Forall (fun x => (x < N)%nat) xs -> select_order N xs ≡ₚ seq 0 N.
Proof.
  intros Hx. unfold select_order.
  assert (Hd : forall seen ys, NoDup (first_seen seen ys) /\ forall y, y ∈ first_seen seen ys -> (y ∉ seen) /\ y ∈ ys).
  { intros seen ys. revert seen. induction ys as [|y ys IH]; intros seen; cbn; [split; [constructor|set_solver]|].
    case_decide as Hy; [destruct (IH seen); set_solver|]. destruct (IH (seen ++ [y])) as [H1 H2]. split.
    - constructor; [|done]. intros Hin. destruct (H2 y Hin). set_solver.
    - intros z [->|Hz]%elem_of_cons; [set_solver|]. destruct (H2 z Hz). set_solver. }
  destruct (Hd [] xs) as [H1 H2]. apply list.NoDup_Permutation.
  - apply list.NoDup_app. split_and!; [done| |apply list.NoDup_filter, list.NoDup_seq].
    intros y Hy Hf. apply list_elem_of_filter in Hf as [Hf _]. by apply Hf, H2.
  - apply list.NoDup_seq.
  - intros y. rewrite elem_of_app, list_elem_of_filter, elem_of_seq.
    pose proof (elem_first_seen [] xs y) as Hs. rewrite app_nil_l in Hs. rewrite Hs.
    assert (Hn : y ∈ xs -> (y < N)%nat) by (rewrite list.Forall_forall in Hx; apply Hx).
    destruct (decide (y ∈ xs)) as [Hy|Hy]; [specialize (Hn Hy); split; [lia|by left; right]|].
    split; [intros [[Hz|Hz]|[_ Hz]]; [by apply elem_of_nil in Hz|done|lia]|right; split; [done|lia]].
Qed.
Lemma select_indices_permutation : select_indices N seed ≡ₚ seq 0 N.
Proof.
  rewrite select_indices_order. apply select_order_permutation. apply Forall_fmap, Forall_seq. intros j _. apply nibble_lt.
Qed.
Lemma select_indices_lookup i : (i < N)%nat -> (select_indices N seed !!! i < N)%nat.
Proof.
  intros Hi. pose proof select_indices_permutation as Hp.
  assert (Hl : (i < length (select_indices N seed))%nat) by (rewrite Hp, length_seq; done).
  pose proof (list_elem_of_lookup_total_2 _ _ Hl) as Hin. rewrite Hp in Hin at 2. apply elem_of_seq in Hin. lia.
Qed.
End Select.

(** ** The half-bytes of the seed, low half of each byte first *)

Definition half_bytes (N : nat) (seed : list Z) : list nat :=
  (fun d => Z.to_nat (d mod Z.of_nat N)) <$> flat_map (fun b => [b mod 16; b / 16 mod 16]) (take 32 seed).
Lemma half_bytes_nibbles (f : Z -> nat) (l : list Z) :
  f <$> flat_map (fun b => [b mod 16; b / 16 mod 16]) l
  = (fun i => f (Z.land (Z.shiftr (l !!! (i / 2)%nat) (Z.of_nat (i mod 2) * 4)) 0xF)) <$> seq 0 (2 * length l).
Proof.
  induction l as [|b l IH]; [done|]. cbn [flat_map length]. replace (2 * S (length l))%nat with (2 + 2 * length l)%nat by lia.
  rewrite fmap_app, IH, seq_app, fmap_app. change (seq (0 + 2) (2 * length l)) with (seq 2 (2 * length l)).
  rewrite <-(fmap_S_seq 1), <-(fmap_S_seq 0), <-!list_fmap_compose. f_equal.
  - assert (E : forall k, 0 <= k -> Z.land (Z.shiftr b k) 0xF = b / 2 ^ k mod 16)
      by (intros k Hk; rewrite (Z.land_ones _ 4), Z.shiftr_div_pow2 by lia; done).
    pose proof (E 0 ltac:(lia)) as E0. rewrite Z.div_1_r in E0. pose proof (E 4 ltac:(lia)) as E4.
    exact (f_equal2 (fun u v => [f u; f v]) (eq_sym E0) (eq_sym E4)).
  - apply list_fmap_ext. intros _ i _. cbn [compose]. replace (S (S i)) with (i + 1 * 2)%nat by lia.
    rewrite Nat.div_add, Nat.Div0.mod_add, (Nat.add_comm (i / 2)) by lia. done.
Qed.
Lemma nibbles_half_bytes N seed : (32 <= length seed)%nat -> nibble N seed <$> seq 0 64 = half_bytes N seed.
Proof.
  intros Hl. unfold half_bytes. rewrite half_bytes_nibbles, length_take, Nat.min_l by done.
  apply list_fmap_ext. intros i j Hj. apply lookup_seq in Hj. unfold nibble. rewrite lookup_total_take_lt; [done|]. 
  apply Nat.Div0.div_lt_upper_bound. lia.
Qed.

(** ** Properties *)

(** C24. For every seed and every number [N > 0] of algorithms, [select_indices]
    writes each index below [N] exactly once: first the distinct half-bytes of the
    32-byte seed modulo [N] in the order they appear, then the indices that do not
    appear, in increasing order.  For a seed in memory (32 bytes at least) the
    half-bytes are, byte after byte, the low and then the high half. *)
Theorem select_indices_correct N seed :
  (0 < N)%nat ->
  select_indices N seed = select_order N (nibble N seed <$> seq 0 64) /\ select_indices N seed ≡ₚ seq 0 N /\
  ((32 <= length seed)%nat -> select_indices N seed = select_order N (half_bytes N seed)).
Proof.
  intros HN. split_and!; [by apply select_indices_order|by apply select_indices_permutation|].
  intros Hl. rewrite select_indices_order by done. by rewrite nibbles_half_bytes.
Qed.
Lemma select_indices_correct_witness :
  select_indices 6 (0x35 :: 0x10 :: replicate 30 0x22)
  = select_order 6 (nibble 6 (0x35 :: 0x10 :: replicate 30 0x22) <$> seq 0 64) /\
  select_indices 6 (0x35 :: 0x10 :: replicate 30 0x22) ≡ₚ seq 0 6 /\
  ((32 <= 32)%nat -> select_indices 6 (0x35 :: 0x10 :: replicate 30 0x22) = select_order 6 (half_bytes 6 (0x35 :: 0x10 :: replicate 30 0x22))).
Proof. apply (select_indices_correct 6 (0x35 :: 0x10 :: replicate 30 0x22)). apply Nat.ltb_lt. reflexivity. Defined.
Example select_indices_sample : select_indices 6 (0x35 :: 0x10 :: replicate 30 0x22) = [5; 3; 0; 1; 2; 4]%nat.
Proof. vm_compute. reflexivity. Qed.
