(* ===== verification/GrCorrect.v ===== *)
(** * GhostRider: [hash_octa] computes the reference hash of every lane. *)
From S2P Require Import Prelude Stream NmAes CnKeccak CnAes CryptoNight CnLanes CnBlake CnJh CnSkein CnSpec CnExtra CnCorrect CnLoop CnHash SphCore Shabal GrCores GhostRider GrSelect.

(** ** Reference *)

Section Reference.
Context `{CoreHashes}.

Definition gr_cn (i : nat) (x : list Z) : list Z := CnSpec.cn_hash (cn_algo (GhostRider.cn_hash !!! i)) x.

(** Five core hashes, then a CryptoNight variant; between the three parts the
    digest is extended with 32 zero bytes. *)
Definition gr_part (core cn : list nat) (part : nat) (x : list Z) : list Z :=
  gr_cn (cn !!! part) (foldl (fun x i => gr_core (core !!! (part * 5 + i)%nat) x) x (seq 0 5)).
Definition gr_hash (seed input : list Z) : list Z :=
  let core := select_order 15 (half_bytes 15 seed) in
  let cn := select_order 6 (half_bytes 6 seed) in
  let x := gr_part core cn 0 input in
  let x := gr_part core cn 1 (x ++ replicate 32 0) in
  gr_part core cn 2 (x ++ replicate 32 0).
End Reference.

(** ** Lanes of a buffer *)

(** Rewriting the lanes of a buffer one after the other; [g] may read the lane it
    is about to write. *)
Lemma memcpy_past (x y v : list Z) : memcpy (x ++ y) (length x) v = x ++ v ++ drop (length v) y.
Proof. unfold memcpy. rewrite take_app_length, <-drop_drop, drop_app_length. done. Qed.
Lemma length_concat_fixed w (xs : list (list Z)) : Forall (fun x => length x = w) xs -> length (concat xs) = (length xs * w)%nat.
Proof. induction 1 as [|x xs Hx _ IH]; [done|]. cbn. rewrite length_app, IH. lia. Qed.
Lemma rewrite_lanes_prefix w k (g : nat -> list Z -> list Z) (buf : list Z) :
  (k * w <= length buf)%nat -> (forall j, (j < k)%nat -> length (g j (slice (j * w) w buf)) = w) ->
  foldl (fun b j => memcpy b (j * w) (g j (slice (j * w) w b))) buf (seq 0 k)
  = concat ((fun j => g j (slice (j * w) w buf)) <$> seq 0 k) ++ drop (k * w) buf /\
  length (concat ((fun j => g j (slice (j * w) w buf)) <$> seq 0 k)) = (k * w)%nat.
Proof.
  intros Hl Hg. set (out j := g j (slice (j * w) w buf)). induction k as [|k IH]; [by rewrite drop_0|].
  destruct IH as [E Hc]; [lia|intros; apply Hg; lia|].
  rewrite seq_S, foldl_app, E, fmap_app, concat_app. cbn [foldl fmap list_fmap concat Nat.add]. rewrite app_nil_r, length_app, Hc.
  assert (Ho : slice (k * w) w (concat (out <$> seq 0 k) ++ drop (k * w) buf) = slice (k * w) w buf).
  { unfold slice. by rewrite <-Hc, drop_app_length, Hc. }
  rewrite Ho. fold (out k). assert (Hok : length (out k) = w) by (apply Hg; lia). split; [|lia].
  pose proof (memcpy_past (concat (out <$> seq 0 k)) (drop (k * w) buf) (out k)) as M. rewrite Hc in M.
  rewrite M, Hok, drop_drop, <-(assoc_L (++)). do 3 f_equal. lia.
Qed.
Lemma rewrite_lanes w k (g : nat -> list Z -> list Z) (buf : list Z) :
  length buf = (k * w)%nat -> (forall j, (j < k)%nat -> length (g j (slice (j * w) w buf)) = w) ->
  foldl (fun b j => memcpy b (j * w) (g j (slice (j * w) w b))) buf (seq 0 k)
  = concat ((fun j => g j (slice (j * w) w buf)) <$> seq 0 k).
Proof.
  intros Hl Hg. destruct (rewrite_lanes_prefix w k g buf) as [E _]; [lia|done|]. rewrite E, drop_ge by lia. apply app_nil_r.
Qed.
Lemma foldl_ext_inv {A B} (P : A -> Prop) (f g : A -> B -> A) l a :
  (forall a x, In x l -> P a -> f a x = g a x /\ P (g a x)) -> P a -> foldl f a l = foldl g a l.
Proof.
  revert a. induction l as [|x l IH]; intros a Hfg Ha; [done|]. cbn. destruct (Hfg a x ltac:(by left) Ha) as [-> Hg].
  apply IH; [|done]. intros b y Hy. apply Hfg. by right.
Qed.

(** The lanes of a concatenation. *)
Lemma slice_concat w (xs : list (list Z)) j x :
  Forall (fun x => length x = w) xs -> xs !! j = Some x -> slice (j * w) w (concat xs) = x.
Proof.
  intros Hx. revert j. induction Hx as [|y xs Hy Hx IH]; intros j Hj; [done|]. destruct j as [|j]; cbn in Hj.
  - injection Hj as ->. cbn [concat Nat.mul]. by apply slice_app_l.
  - cbn [concat]. unfold slice. replace (S j * w)%nat with (length y + j * w)%nat by lia.
    rewrite <-drop_drop, drop_app_length. by apply IH.
Qed.
Lemma slice_octa_lanes w k (f : nat -> list Z) j :
  (forall j, (j < k)%nat -> length (f j) = w) -> (j < k)%nat -> slice (j * w) w (concat (f <$> seq 0 k)) = f j.
Proof.
  intros Hf Hj. apply slice_concat.
  - apply Forall_fmap, Forall_seq. intros i Hi. apply Hf. lia.
  - rewrite list_lookup_fmap, lookup_seq_lt by done. done.
Qed.
Lemma first_lane (f : nat -> list Z) w k : (0 < k)%nat -> length (f 0%nat) = w -> take w (concat (f <$> seq 0 k)) = f 0%nat.
Proof. intros Hk Hf. destruct k as [|k]; [lia|]. cbn. rewrite <-Hf at 1. apply take_app_length. Qed.
Lemma lanes_ext {A} (f g : nat -> A) k : (forall j, (j < k)%nat -> f j = g j) -> f <$> seq 0 k = g <$> seq 0 k.
Proof. intros Hfg. apply list_fmap_ext. intros i j Hj. apply lookup_seq in Hj as [-> Hj]. by apply Hfg. Qed.

(** ** Scratchpads *)

Lemma pred_mod n step : (n mod step <> 0)%nat -> (0 < step)%nat -> ((n - 1) mod step + 1 = n mod step)%nat.
Proof.
  intros Hn Hs. pose proof (Nat.div_mod_eq n step). pose proof (Nat.mod_upper_bound n step).
  enough ((n - 1) mod step = n mod step - 1)%nat by lia. symmetry. apply (Nat.mod_unique _ _ (n / step)); lia.
Qed.
(** The buffer of the next context is never needed: the lanes of a group fit in 2 MiB. *)
Lemma pad_pointers_ok ctx_memory step size :
  (0 < step)%nat -> 0 < size -> Z.of_nat step * size <= 2 ^ 21 ->
  pad_pointers ctx_memory step size = (fun i => ctx_memory !!! 0%nat + Z.of_nat (i mod step) * size) <$> seq 0 8.
Proof.
  intros Hs Hz Hf. unfold pad_pointers. set (p0 := ctx_memory !!! 0%nat). set (F := fun '(ps, k, p) i => _).
  assert (Hn : forall n, foldl F ([], 0%nat, p0) (seq 0 n) = ((fun i => p0 + Z.of_nat (i mod step) * size) <$> seq 0 n, 0%nat,
    if (n =? 0)%nat then p0 else p0 + Z.of_nat ((n - 1) mod step + 1) * size)); [|by rewrite (Hn 8%nat)].
  induction n as [|n IH]; [done|]. rewrite seq_S, foldl_app, IH, fmap_app. cbn [foldl fmap list_fmap Nat.add]. unfold F.
  replace (S n - 1)%nat with n by lia. cbn [Nat.eqb].
  destruct (Nat.eqb_spec (n mod step) 0) as [E|E].
  - rewrite E. cbn [Nat.add]. fold p0. rewrite Z.mul_0_l, Z.add_0_r. apply (f_equal2 pair); [reflexivity|lia].
  - destruct (Nat.eqb_spec n 0) as [Hn0|Hn0]; [by rewrite Hn0, Nat.Div0.mod_0_l in E|]. rewrite pred_mod by done. fold p0.
    pose proof (Nat.mod_upper_bound n step). rewrite (proj2 (Z.leb_gt _ _)) by nia. apply (f_equal2 pair); [reflexivity|lia].
Qed.

(** ** The core hashes of a part *)

Definition ambient_ok (am : Ambient) : Prop :=
  core_stack_ok (core_stack am) /\ length (temp144 am) = 144%nat /\ length (tmp512 am) = 512%nat.

Section Octa.
Context `{AesNiLaws, AesKeyGenLaws, ExtraHashesLaws, CoreHashesLaws}.
#[local] Opaque gr_core core_hash.

Context (am : nat -> Ambient) (hasAES : bool).
Hypothesis Ham : forall t, ambient_ok (am t).

(** The input of a lane: in the caller's buffer, then in [tmp]. *)
Definition lane_of (data : option (list Z * nat)) (tmp : list Z) (j : nat) : list Z :=
  match data with Some (d, size) => slice (j * size) size d | None => slice (j * 64) 64 tmp end.

Lemma core_pass_ok t i data tmp :
  (i < 15)%nat -> length tmp = 512%nat -> (forall j, (j < 8)%nat -> input_ok (lane_of data tmp j)) ->
  core_pass am t i data tmp = concat ((fun j => gr_core i (lane_of data tmp j)) <$> seq 0 8).
Proof.
  intros Hi Hl Hx. set (g := fun (j : nat) (x : list Z) => (core_hash (core_stack (am (t * 8 + j)%nat)) !!! i)
    (match data with Some (d, size) => slice (j * size) size d | None => x end) : list Z).
  assert (Hg : forall j, (j < 8)%nat -> g j (slice (j * 64) 64 tmp) = gr_core i (lane_of data tmp j) /\
    length (gr_core i (lane_of data tmp j)) = 64%nat).
  { intros j Hj. destruct (core_hash_ok _ (proj1 (Ham (t * 8 + j)%nat)) _ (Hx j Hj) i Hi) as (E1 & E2 & _).
    split; [|done]. rewrite <-E1. unfold g, lane_of. by destruct data as [[d size]|]. }
  transitivity (foldl (fun b j => memcpy b (j * 64) (g j (slice (j * 64) 64 b))) tmp (seq 0 8)).
  - unfold core_pass, g. by destruct data as [[d size]|].
  - rewrite (rewrite_lanes 64 8 g tmp Hl) by (intros j Hj; destruct (Hg j Hj) as [E1 E2]; by rewrite E1).
    f_equal. apply lanes_ext. intros j Hj. apply (Hg j Hj).
Qed.

(** The five core hashes of a part, on one lane. *)
Definition cores (idx : nat -> nat) (k : nat) (x : list Z) : list Z := foldl (fun x i => gr_core (idx i) x) x (seq 0 k).
Lemma cores_S idx k x : cores idx (S k) x = gr_core (idx k) (cores idx k x).
Proof. unfold cores. by rewrite seq_S, foldl_app. Qed.
Lemma cores_ok idx k x : (forall i, (i < k)%nat -> (idx i < 15)%nat) -> input_ok x ->
  input_ok (cores idx k x) /\ ((0 < k)%nat -> length (cores idx k x) = 64%nat).
Proof.
  intros Hi Hx. induction k as [|k IH]; [split; [done|lia]|]. rewrite cores_S.
  destruct (IH ltac:(intros; apply Hi; lia)) as [Hb _].
  destruct (core_hash_ok _ (proj1 (Ham 0%nat)) _ Hb (idx k) (Hi k ltac:(lia))) as (_ & E1 & E2).
  split; [by apply input_64|done].
Qed.
Lemma core_passes_ok indices part data tmp :
  (forall i, (i < 15)%nat -> (indices !!! i < 15)%nat) -> (part < 3)%nat -> length tmp = 512%nat ->
  (forall j, (j < 8)%nat -> input_ok (lane_of data tmp j)) ->
  core_passes am indices part data tmp
  = (None, concat ((fun j => cores (fun i => indices !!! (part * 5 + i)%nat) 5 (lane_of data tmp j)) <$> seq 0 8)).
Proof.
  intros Hi Hp Hl Hx. set (idx := fun i => indices !!! (part * 5 + i)%nat).
  set (lanes := fun k => concat ((fun j => cores idx k (lane_of data tmp j)) <$> seq 0 8)).
  assert (Hidx : forall i, (i <= 4)%nat -> (idx i < 15)%nat) by (intros i Hi5; apply Hi; lia).
  assert (Hk : forall k, (k < 5)%nat ->
    foldl (fun '(data, tmp) i => (None, core_pass am (part * 5 + i) (indices !!! (part * 5 + i)%nat) data tmp)) (data, tmp) (seq 0 (S k))
    = (None, lanes (S k))); [|exact (Hk 4%nat ltac:(lia))].
  induction k as [|k IH]; intros Hk.
  - cbn [seq foldl]. f_equal. apply core_pass_ok; [apply Hidx; lia|done|done].
  - rewrite seq_S, foldl_app, IH by lia. cbn [foldl Nat.add]. f_equal.
    assert (Hc : forall j, (j < 8)%nat -> input_ok (cores idx (S k) (lane_of data tmp j)) /\ length (cores idx (S k) (lane_of data tmp j)) = 64%nat).
    { intros j Hj. destruct (cores_ok idx (S k) (lane_of data tmp j)) as [H1' H2']; [intros; apply Hidx; lia|by apply Hx|].
      split; [done|apply H2'; lia]. }
    assert (Hlane : forall j, (j < 8)%nat -> lane_of None (lanes (S k)) j = cores idx (S k) (lane_of data tmp j)).
    { intros j Hj. apply (slice_octa_lanes 64 8 (fun j => cores idx (S k) (lane_of data tmp j))); [intros; by apply Hc|done]. }
    assert (Hll : length (lanes (S k)) = 512%nat).
    { unfold lanes. rewrite (length_concat_fixed 64); [rewrite length_fmap, length_seq; reflexivity|].
      apply Forall_fmap, Forall_seq. intros j Hj. apply Hc. lia. }
    rewrite core_pass_ok; [|apply Hidx; lia|done|intros j Hj; rewrite Hlane by done; by apply Hc].
    unfold lanes at 2. f_equal. apply lanes_ext. intros j Hj. rewrite Hlane by done.
    symmetry. apply (cores_S idx (S k)).
Qed.

(** ** The CryptoNight pass *)

(** Facts of the tables, for each of the six variants. *)
Record variant_ok (c : nat) : Prop := {
  vo_id : In (GhostRider.cn_hash !!! c) [CN_GR_0; CN_GR_1; CN_GR_2; CN_GR_3; CN_GR_4; CN_GR_5];
  vo_step : (0 < step_table !!! c)%nat /\ (8 mod (step_table !!! c) = 0)%nat;
  vo_size : 0 < cn_sizes !!! c /\ (cn_sizes !!! c) mod 16 = 0;
  vo_fit : Z.of_nat (step_table !!! c) * (cn_sizes !!! c) <= 2 ^ 21;
  vo_lane : lane_bytes (cn_algo (GhostRider.cn_hash !!! c)) = cn_sizes !!! c;
  vo_variant : variant_lanes (nth (step_table !!! c) (if hasAES then av_hw_aes else av_soft_aes) AV_SINGLE) = step_table !!! c }.
Lemma variants_ok c : (c < 6)%nat -> variant_ok c.
Proof.
  intros Hc. do 6 (destruct c as [|c]; [clear; split;
    [simpl; tauto|split; [apply Nat.ltb_lt; reflexivity|reflexivity]|split; reflexivity|intros E; discriminate E|reflexivity
    |destruct hasAES; reflexivity]|]). lia.
Qed.

Lemma cn_digest props x : length (CnSpec.cn_hash props x) = 32%nat /\ bytes (CnSpec.cn_hash props x).
Proof.
  unfold CnSpec.cn_hash. destruct (_ <? 43)%nat; [by split; [|apply byte_list_dec]|]. cbv zeta.
  destruct (Nat.iter _ _ _) as [[ra rb] pad]. set (st := flat_map _ _).
  apply finaliser_digest, bytes_flat_le.
Qed.

(** The contexts of a worker during a pass. *)
Record pass_ok (p0 : Z) (step : nat) (size : Z) (ctx : list cryptonight_ctx) (m : list Z) : Prop := {
  po_ctx : Forall ctx_ok ctx;
  po_ptrs : cn_memory <$> ctx = (fun i => p0 + Z.of_nat (i mod step) * size) <$> seq 0 8;
  po_base : 0 <= p0 /\ p0 mod 16 = 0;
  po_mem : p0 + 2 ^ 21 <= Z.of_nat (length m) }.
Definition pad_room : nat := Z.to_nat (2 ^ 21).
Lemma pad_room_Z : Z.of_nat pad_room = 2 ^ 21.
Proof. apply Z2Nat.id. intros E. discriminate E. Qed.
#[local] Opaque pad_room.

Section Pass.
Context (c : nat) (p0 : Z).
Hypothesis Hc : variant_ok c.
#[local] Abbreviation step := (step_table !!! c).
#[local] Abbreviation size := (cn_sizes !!! c).
#[local] Abbreviation algo := (cn_algo (GhostRider.cn_hash !!! c)).
#[local] Abbreviation f := (CnHash_fn algo (nth step (if hasAES then av_hw_aes else av_soft_aes) AV_SINGLE)).

Lemma pass_pointer ctx m i x : pass_ok p0 step size ctx m -> (take step ctx) !! i = Some x ->
  (i < step)%nat /\ cn_memory x = p0 + Z.of_nat i * size.
Proof.
  intros Hp Hi. assert (Hs : (i < step)%nat).
  { apply lookup_lt_Some in Hi. rewrite length_take in Hi. lia. }
  split; [done|]. rewrite lookup_take_lt in Hi by done. pose proof (po_ptrs _ _ _ _ _ Hp) as E.
  assert (El : (cn_memory <$> ctx) !! i = Some (cn_memory x)) by (by rewrite list_lookup_fmap, Hi).
  rewrite E, list_lookup_fmap in El. destruct (seq 0 8 !! i) as [k|] eqn:Ek; [|discriminate El].
  apply lookup_seq in Ek as [-> _]. cbn in El. injection El as <-. by rewrite Nat.mod_small.
Qed.
Lemma pass_count ctx m : pass_ok p0 step size ctx m -> length ctx = 8%nat /\ (step <= 8)%nat.
Proof.
  intros Hp. pose proof (f_equal length (po_ptrs _ _ _ _ _ Hp)) as E. rewrite !length_fmap, length_seq in E. split; [done|].
  destruct (vo_step _ Hc) as [H1' H2']. apply Nat.Lcm0.mod_divide in H2'. apply Nat.divide_pos_le in H2'; lia.
Qed.
Lemma pass_fits ctx m : pass_ok p0 step size ctx m ->
  Forall (fun x => fits (lane_size algo) (cn_memory x) m) (take step ctx) /\
  disjoint (lane_size algo) (cn_memory <$> take step ctx).
Proof.
  intros Hp. pose proof (vo_lane _ Hc) as El. destruct (vo_size _ Hc) as [Hz Ha]. pose proof (vo_fit _ Hc) as Hf.
  destruct (po_base _ _ _ _ _ Hp) as [Hp0 Hpa]. pose proof (po_mem _ _ _ _ _ Hp) as Hm.
  assert (Es : Z.of_nat (lane_size algo) = size) by (unfold lane_size; rewrite El; lia). split.
  - apply Forall_lookup. intros i x Hi. destruct (pass_pointer ctx m i x Hp Hi) as [Hs ->]. split_and!; [nia| |nia].
    rewrite Z.add_mod, Z.mul_mod, Ha, Z.mul_0_r, Hpa by lia. done.
  - intros i j p q Hij Hpi Hqj. rewrite list_lookup_fmap in Hpi, Hqj.
    destruct (take step ctx !! i) as [x|] eqn:Ei; [|discriminate Hpi]. destruct (take step ctx !! j) as [y|] eqn:Ej; [|discriminate Hqj].
    cbn in Hpi, Hqj. injection Hpi as <-. injection Hqj as <-.
    destruct (pass_pointer ctx m i x Hp Ei) as [_ ->]. destruct (pass_pointer ctx m j y Hp Ej) as [_ ->]. rewrite Es. nia.
Qed.

Lemma unchanged_room ctx m m' : pass_ok p0 step size ctx m ->
  unchanged (lane_size algo) (cn_memory <$> take step ctx) m m' -> unchanged pad_room [p0] m m'.
Proof.
  intros Hp [Hl Hu]. split; [done|]. intros q k Hq Ho. apply Forall_cons_1 in Ho as [Ho _]. rewrite pad_room_Z in Ho.
  apply Hu; [done|]. pose proof (vo_lane _ Hc) as El. destruct (vo_size _ Hc) as [Hz _]. pose proof (vo_fit _ Hc) as Hf.
  assert (Es : Z.of_nat (lane_size algo) = size) by (unfold lane_size; rewrite El; lia). rewrite Es.
  apply Forall_fmap, Forall_lookup. intros i x Hi. cbn. destruct (pass_pointer ctx m i x Hp Hi) as [Hs ->]. nia.
Qed.

(** One call: [step] lanes from lane [j]. *)
Lemma call_ok t tmp j ctx m :
  bytes tmp -> length tmp = 512%nat -> (j + step <= 8)%nat -> pass_ok p0 step size ctx m ->
  exists used m',
    f (temp144 (am t)) (drop (j * 64) tmp) 64%nat (take step ctx) m
    = Some (used, m', (fun i => gr_cn c (slice (i * 64) 64 tmp)) <$> seq j step) /\
    pass_ok p0 step size (used ++ drop step ctx) m' /\ unchanged pad_room [p0] m m'.
Proof.
  intros Hb Hl Hj Hp. destruct (pass_fits ctx m Hp) as [Hfit Hdis]. destruct (pass_count ctx m Hp) as [Hct _].
  destruct (Ham t) as (_ & Htemp & _).
  assert (Hbefore : lanes_before algo step (drop (j * 64) tmp) 64 (take step ctx) m).
  { split; [by apply Forall_drop|rewrite length_drop; lia|rewrite length_take; lia|apply Forall_take, (po_ctx _ _ _ _ _ Hp)|done|done]. }
  rewrite <-(vo_variant _ Hc) in Hbefore at 1.
  destruct (fn_correct algo (temp144 (am t)) _ _ _ _ _ (gr_algos_ok _ (vo_id _ Hc)) Htemp Hbefore) as (used & m' & E & Eptr & Hok & Hu).
  rewrite (vo_variant _ Hc) in E. exists used, m'. split_and!.
  - rewrite E. do 2 f_equal. unfold lane_inputs. rewrite <-list_fmap_compose.
    replace (seq j step) with (Nat.add j <$> seq 0 step) by (rewrite fmap_add_seq; f_equal; lia).
    rewrite <-list_fmap_compose. apply list_fmap_ext. intros i k _. unfold compose, gr_cn. f_equal.
    unfold slice. rewrite drop_drop. do 2 f_equal. lia.
  - pose proof Hu as [Hlm _]. split.
    + apply Forall_app_2; [done|]. apply Forall_drop, (po_ctx _ _ _ _ _ Hp).
    + rewrite fmap_app, Eptr, <-fmap_app, take_drop. apply (po_ptrs _ _ _ _ _ Hp).
    + apply (po_base _ _ _ _ _ Hp).
    + rewrite Hlm. apply (po_mem _ _ _ _ _ Hp).
  - exact (unchanged_room ctx m m' Hp Hu).
Qed.

(** The digest of lane [i]. *)
#[local] Abbreviation cn_lane tmp := (fun i => gr_cn c (slice (i * 64) 64 tmp)).
Lemma length_cn_lanes tmp i k : length (concat (cn_lane tmp <$> seq i k)) = (k * 32)%nat.
Proof.
  rewrite (length_concat_fixed 32); [by rewrite length_fmap, length_seq|]. apply Forall_fmap, Forall_seq. intros j _. apply cn_digest.
Qed.

Lemma cn_calls_ok part tmp r : forall fuel j output ctx m,
  bytes tmp -> length tmp = 512%nat -> length output = 256%nat -> (r <= fuel)%nat -> (j + step * r = 8)%nat ->
  pass_ok p0 step size ctx m ->
  exists ctx' m',
    cn_calls am fuel part f step j tmp (output, ctx, m)
    = Some (take (j * 32) output ++ concat (cn_lane tmp <$> seq j (8 - j)), ctx', m') /\
    pass_ok p0 step size ctx' m' /\ unchanged pad_room [p0] m m'.
Proof.
  destruct (vo_step _ Hc) as [Hs _].
  induction r as [|r IH]; intros fuel j output ctx m Hb Hl Ho Hf Hj Hp.
  - exists ctx, m. assert (j = 8%nat) as -> by lia. rewrite take_ge by lia. cbn [Nat.sub seq fmap list_fmap concat]. rewrite app_nil_r.
    split_and!; [by destruct fuel|done|done].
  - destruct fuel as [|fuel]; [lia|]. assert (Hj8 : (j + step <= 8)%nat) by lia. cbn [cn_calls].
    rewrite (proj2 (Nat.ltb_lt j 8)) by lia.
    destruct (call_ok (120 + part * 8 + j) tmp j ctx m Hb Hl Hj8 Hp) as (used & m1 & E & Hp1 & Hu1). rewrite E. cbn [mbind option_bind].
    set (out := concat (cn_lane tmp <$> seq j step)).
    assert (Hout : length out = (step * 32)%nat) by apply length_cn_lanes.
    destruct (IH fuel (j + step)%nat (memcpy output (j * 32) out) (used ++ drop step ctx) m1) as (ctx' & m' & E' & Hp' & Hu');
      [done|done|rewrite length_memcpy; lia|lia|lia|done|].
    exists ctx', m'. split_and!; [|done|exact (unchanged_trans _ _ _ _ _ Hu1 Hu')]. rewrite E'. do 3 f_equal.
    assert (Et : take ((j + step) * 32) (memcpy output (j * 32) out) = take (j * 32) output ++ out).
    { unfold memcpy. rewrite (assoc_L (++)), take_app_le by (rewrite length_app, length_take; lia).
      apply take_ge. rewrite length_app, length_take. lia. }
    rewrite Et, <-(assoc_L (++)). f_equal. unfold out. rewrite <-concat_app, <-fmap_app. f_equal. f_equal.
    replace (8 - j)%nat with (step + (8 - (j + step)))%nat by lia. symmetry. apply seq_app.
Qed.
End Pass.

(** [tmp] between two parts: the digests, each followed by 32 zero bytes. *)
Lemma feed_back_ok (y : nat -> list Z) tmp :
  (forall j, (j < 8)%nat -> length (y j) = 32%nat) -> length tmp = 512%nat ->
  feed_back (concat (y <$> seq 0 8)) tmp = concat ((fun j => y j ++ replicate 32 0) <$> seq 0 8).
Proof.
  intros Hy Hl. unfold feed_back. set (output := concat (y <$> seq 0 8)).
  transitivity (foldl (fun b j => memcpy b (j * 64) (y j ++ replicate 32 0)) tmp (seq 0 8)).
  - apply (foldl_ext_inv (fun b => length b = 512%nat)); [|done]. intros b j Hj Hb. apply in_seq in Hj.
    assert (Hyj : length (y j) = 32%nat) by (apply Hy; lia). unfold output. rewrite (slice_octa_lanes 32 8 y j Hy) by lia. split.
    + unfold memset0. replace (j * 64 + 32)%nat with (j * 64 + length (y j))%nat by lia.
      apply memcpy_adjacent. rewrite length_replicate. lia.
    + rewrite length_memcpy; rewrite ?length_app, ?length_replicate; lia.
  - rewrite (rewrite_lanes 64 8 (fun j _ => y j ++ replicate 32 0) tmp Hl); [done|].
    intros j Hj. rewrite length_app, length_replicate, Hy by done. done.
Qed.

(** ** The three parts *)

Section Parts.
Context (ctx_memory : list Z) (core cn : list nat).
Hypothesis Hcore : forall i, (i < 15)%nat -> (core !!! i < 15)%nat.
Hypothesis Hcn : forall i, (i < 6)%nat -> (cn !!! i < 6)%nat.
#[local] Abbreviation p0 := (ctx_memory !!! 0%nat).
Hypothesis Hp0 : 0 <= p0 /\ p0 mod 16 = 0.

(** Between two parts: the lanes are [xs]. *)
Record octa_ok (xs : nat -> list Z) (s : octa) : Prop := {
  oc_tmp : length (o_tmp s) = 512%nat;
  oc_output : length (o_output s) = 256%nat;
  oc_lanes : forall j, (j < 8)%nat -> lane_of (o_data s) (o_tmp s) j = xs j /\ input_ok (xs j);
  oc_count : length (o_ctx s) = 8%nat;
  oc_ctx : Forall ctx_ok (o_ctx s);
  oc_mem : p0 + 2 ^ 21 <= Z.of_nat (length (o_mem s)) }.

Lemma set_memory_ptrs ctx ps : length ctx = length ps -> cn_memory <$> zip_with set_memory ctx ps = ps.
Proof. revert ps. induction ctx as [|c ctx IH]; intros [|p ps] E; try done. cbn. f_equal. apply IH. cbn in E. lia. Qed.
Lemma set_memory_ok ctx ps : Forall ctx_ok ctx -> Forall ctx_ok (zip_with set_memory ctx ps).
Proof. intros Hc. revert ps. induction Hc; intros [|p ps]; constructor; auto. Qed.

Lemma one_part_ok xs s part :
  octa_ok xs s -> (part < 3)%nat ->
  exists s', one_part am hasAES ctx_memory core cn s part = Some s' /\
    octa_ok (fun j => gr_part core cn part (xs j) ++ replicate 32 0) s' /\
    o_output s' = concat ((fun j => gr_part core cn part (xs j)) <$> seq 0 8) /\
    unchanged pad_room [p0] (o_mem s) (o_mem s').
Proof.
  intros [Htmp Hout Hx Hct Hctx Hm] Hpart. set (c := cn !!! part).
  assert (Hc : variant_ok c) by (apply variants_ok, Hcn; lia).
  destruct (vo_step _ Hc) as [Hs Hs8]. destruct (vo_size _ Hc) as [Hz _]. pose proof (vo_fit _ Hc) as Hfit.
  unfold one_part. fold c. cbv zeta. rewrite pad_pointers_ok by done.
  rewrite core_passes_ok; [|done|done|done|intros j Hj; destruct (Hx j Hj) as [-> ?]; done].
  set (lane := fun j => cores (fun i => core !!! (part * 5 + i)%nat) 5 (lane_of (o_data s) (o_tmp s) j)).
  set (tmp := concat (lane <$> seq 0 8)).
  assert (Hlane : forall j, (j < 8)%nat -> lane j = cores (fun i => core !!! (part * 5 + i)%nat) 5 (xs j) /\
    length (lane j) = 64%nat /\ bytes (lane j)).
  { intros j Hj. unfold lane. destruct (Hx j Hj) as [-> Hin]. split; [done|].
    destruct (cores_ok (fun i => core !!! (part * 5 + i)%nat) 5 (xs j)) as [[Hb _] Hl]; [intros i Hi; apply Hcore; lia|done|].
    split; [apply Hl; lia|done]. }
  assert (Ht : length tmp = 512%nat).
  { unfold tmp. rewrite (length_concat_fixed 64); [by rewrite length_fmap, length_seq|].
    apply Forall_fmap, Forall_seq. intros j Hj. apply Hlane. lia. }
  assert (Htb : bytes tmp).
  { apply Forall_concat, Forall_fmap, Forall_seq. intros j Hj. apply Hlane. lia. }
  set (ctx := zip_with set_memory (o_ctx s) _).
  assert (Hp : pass_ok p0 (step_table !!! c) (cn_sizes !!! c) ctx (o_mem s)).
  { split; [by apply set_memory_ok|apply set_memory_ptrs; by rewrite length_fmap, length_seq|done|done]. }
  apply Nat.Lcm0.mod_divide in Hs8 as [r Hr].
  destruct (cn_calls_ok c p0 Hc part tmp r 8 0 (o_output s) ctx (o_mem s)) as (ctx' & m' & E & Hp' & Hu); [done|done|done|nia|lia|done|].
  rewrite E. cbn [mbind option_bind]. rewrite take_0, app_nil_l, Nat.sub_0_r.
  assert (Ey : (fun i => gr_cn c (slice (i * 64) 64 tmp)) <$> seq 0 8 = (fun j => gr_part core cn part (xs j)) <$> seq 0 8).
  { apply lanes_ext. intros j Hj. unfold tmp. rewrite (slice_octa_lanes 64 8 lane j) by (intros; by apply Hlane || done).
    unfold gr_part. fold c. by rewrite (proj1 (Hlane j Hj)). }
  set (y := fun j => gr_part core cn part (xs j)) in *.
  assert (Hy : forall j, length (y j) = 32%nat /\ bytes (y j)) by (intros j; apply cn_digest).
  change (fun j => gr_part core cn part (xs j) ++ replicate 32 0) with (fun j => y j ++ replicate 32 0).
  clearbody y. rewrite Ey, feed_back_ok; [|intros j _; exact (proj1 (Hy j))|done].
  assert (Hz64 : forall j, length (y j ++ replicate 32 0) = 64%nat).
  { intros j. rewrite length_app, length_replicate, (proj1 (Hy j)). done. }
  eexists. split; [reflexivity|]. cbn [o_output o_mem o_ctx o_tmp o_data]. split_and!; [|done|done].
  pose proof (proj1 Hu) as Hlm. split; cbn [o_output o_mem o_ctx o_tmp o_data].
  - rewrite (length_concat_fixed 64); [by rewrite length_fmap, length_seq|]. apply Forall_fmap, Forall_seq. intros j _. exact (Hz64 j).
  - rewrite (length_concat_fixed 32); [by rewrite length_fmap, length_seq|]. apply Forall_fmap, Forall_seq. intros j _. exact (proj1 (Hy j)).
  - intros j Hj. split; [exact (slice_octa_lanes 64 8 (fun j => y j ++ replicate 32 0) j (fun j _ => Hz64 j) Hj)|].
    apply input_64; [exact (Hz64 j)|]. apply Forall_app_2; [exact (proj2 (Hy j))|apply byte_list_dec; reflexivity].
  - apply (pass_count c p0 Hc ctx' m' Hp').
  - apply (po_ctx _ _ _ _ _ Hp').
  - by rewrite Hlm.
Qed.
End Parts.

Lemma gr_digest seed x : length (gr_hash seed x) = 32%nat.
Proof. unfold gr_hash, gr_part, gr_cn. apply cn_digest. Qed.
(** The order depends on the first 32 bytes of the seed. *)
Lemma gr_hash_seed seed seed' x : take 32 seed = take 32 seed' -> gr_hash seed x = gr_hash seed' x.
Proof. intros Hs. unfold gr_hash, half_bytes. by rewrite Hs. Qed.

(** ** [hash_octa] *)

(** The contexts of a worker between calls. *)
Record worker_ok (ctx : list cryptonight_ctx) (m : list Z) : Prop := {
  wo_count : length ctx = 8%nat;
  wo_ctx : Forall ctx_ok ctx;
  wo_base : 0 <= (cn_memory <$> ctx) !!! 0%nat /\ ((cn_memory <$> ctx) !!! 0%nat) mod 16 = 0;
  wo_mem : (cn_memory <$> ctx) !!! 0%nat + 2 ^ 21 <= Z.of_nat (length m) }.

Lemma hash_octa_ok data size output ctx m :
  bytes data -> (36 <= length data)%nat -> (8 * size <= length data)%nat -> Z.of_nat (length data) < 2 ^ 64 ->
  length output = 256%nat -> worker_ok ctx m ->
  exists ctx' m',
    hash_octa am hasAES data size output ctx m
    = Some (concat ((fun j => gr_hash (drop 4 data) (slice (j * size) size data)) <$> seq 0 8), ctx', m') /\
    cn_memory <$> ctx' = cn_memory <$> ctx /\ worker_ok ctx' m' /\
    unchanged pad_room [(cn_memory <$> ctx) !!! 0%nat] m m'.
Proof.
  intros Hb H36 Hl Hmax Hout [Hct Hctx Hbase Hmem]. unfold hash_octa. cbv zeta. rewrite (proj2 (Nat.ltb_ge _ _) H36). set (seed := drop 4 data).
  set (mems := cn_memory <$> ctx) in *.
  assert (Hcore : forall i, (i < 15)%nat -> (select_indices 15 seed !!! i < 15)%nat) by (intros; apply select_indices_lookup; lia).
  assert (Hcn : forall i, (i < 6)%nat -> (select_indices 6 seed !!! i < 6)%nat) by (intros; apply select_indices_lookup; lia).
  set (core := select_indices 15 seed) in *. set (cn := select_indices 6 seed) in *.
  set (x0 := fun j => slice (j * size) size data).
  set (s0 := mk_octa (Some (data, size)) (tmp512 (am 0%nat)) output ctx m).
  assert (O0 : octa_ok mems x0 s0).
  { split; cbn [s0 o_output o_mem o_ctx o_tmp o_data]; [apply (Ham 0%nat)|done| |done|done|done].
    intros j Hj. split; [done|]. split; [by apply Forall_slice|].
    unfold x0, slice. rewrite length_take, length_drop. lia. }
  destruct (one_part_ok mems core cn Hcore Hcn Hbase _ s0 0 O0 ltac:(lia)) as (s1 & E1 & O1 & _ & U1).
  destruct (one_part_ok mems core cn Hcore Hcn Hbase _ s1 1 O1 ltac:(lia)) as (s2 & E2 & O2 & _ & U2).
  destruct (one_part_ok mems core cn Hcore Hcn Hbase _ s2 2 O2 ltac:(lia)) as (s3 & E3 & O3 & Eo & U3).
  cbn [seq foldl]. cbn [mbind option_bind]. rewrite E1. cbn [mbind option_bind]. rewrite E2. cbn [mbind option_bind]. rewrite E3.
  cbn [mbind option_bind]. destruct O3 as [_ _ _ Hct3 Hctx3 Hm3].
  assert (Eptr : cn_memory <$> zip_with set_memory (o_ctx s3) mems = mems).
  { apply set_memory_ptrs. unfold mems. by rewrite length_fmap, Hct3, Hct. }
  exists (zip_with set_memory (o_ctx s3) mems), (o_mem s3). split_and!; [|exact Eptr| |].
  - rewrite Eo. do 4 f_equal. apply lanes_ext. intros j _. unfold gr_hash.
    assert (Hs : (32 <= length seed)%nat) by (unfold seed; rewrite length_drop; lia).
    rewrite <-!nibbles_half_bytes, <-!select_indices_order by first [exact Hs | lia]. fold core cn. reflexivity.
  - split; rewrite ?Eptr; [|by apply set_memory_ok|done|done].
    rewrite length_zip_with, Hct3. unfold mems. rewrite length_fmap, Hct. reflexivity.
  - exact (unchanged_trans _ _ _ _ _ (unchanged_trans _ _ _ _ _ U1 U2) U3).
Qed.
End Octa.

(** ** Properties *)

(** Hash functions to instantiate the class with. *)
Definition core_sample : CoreHashes := let f x := take 64 (x ++ replicate 64 0) in {| h9 := f; h11 := f; h12 := f |}.
Lemma digests_sample n : digests n (fun x => take n (x ++ replicate n 0)).
Proof.
  intros x Hx. split; [rewrite length_take, length_app, length_replicate; lia|].
  apply Forall_take, Forall_app_2; [done|]. by apply Forall_replicate, word_0.
Qed.
#[export] Instance core_sample_laws : CoreHashesLaws core_sample.
Proof. split. repeat (apply List.Forall_cons; [apply (digests_sample 64)|]). constructor. Qed.

(** C1. [hash_octa] is eight GhostRider hashes: for any data, whatever the
    stack, the output buffer, the contexts and the scratchpads held before, with
    or without AES instructions, it returns; lane [j] of the output is the
    reference hash of lane [j] of the data (three times five core hashes and a
    CryptoNight variant, in the order given by the half-bytes of bytes 4 to 35 of
    lane 0; twelve of the fifteen core hashes by their published definitions, for any
    build options and any leftovers in their contexts), the
    contexts get their pointers back, and only the first 2 MiB from the pointer of
    context 0 are written. *)
Theorem hash_octa_refines (ni : AesNi) (kg : AesKeyGen) (ch : CoreHashes)
    (L1 : AesNiLaws ni) (L2 : AesKeyGenLaws kg) (L4 : CoreHashesLaws ch) stack
    am hasAES data size output ctx m :
  (forall x, stack_ok (stack x)) -> (forall t, ambient_ok (am t)) -> bytes data -> (36 <= length data)%nat -> (8 * size <= length data)%nat ->
  Z.of_nat (length data) < 2 ^ 64 ->
  length output = 256%nat -> worker_ok ctx m ->
  exists ctx' m',
    @hash_octa ni kg (extra_code stack) ch am hasAES data size output ctx m
    = Some (concat ((fun j => gr_hash (drop 4 data) (slice (j * size) size data)) <$> seq 0 8), ctx', m') /\
    cn_memory <$> ctx' = cn_memory <$> ctx /\ worker_ok ctx' m' /\
    unchanged pad_room [(cn_memory <$> ctx) !!! 0%nat] m m'.
Proof. intros Hst Ham. pose proof (extra_code_laws stack Hst) as L3. exact (hash_octa_ok am hasAES Ham data size output ctx m). Qed.

Definition core_stack_sample : CoreStack := mk_core_stack false (replicate 128 1) (replicate 128 2) true (replicate 128 3)
  true false (replicate 128 4) (replicate 136 5) false (replicate 64 6) (replicate 128 7) (replicate 144 1) true (replicate 64 8)
  false (replicate 32 9) (replicate 32 10) true (replicate 128 11) (replicate 32 12) true (replicate 128 13) (replicate 64 14)
  (mk_sph (replicate 64 15) 3 (Shabal.mk_shabal [] [] [] 1 2)) (replicate 64 16) (replicate 64 2) false 0.
Definition sample_ambient : Ambient := mk_ambient core_stack_sample (replicate 144 3) (replicate 512 4).
Definition sample_ctx : list cryptonight_ctx :=
  (fun i => mk_ctx (replicate 224 5) (Z.of_nat i * 2 ^ 21) [] false) <$> seq 0 8.
Definition sample_memory : list Z := replicate (Z.to_nat (2 ^ 24)) 0.
Lemma sample_worker : worker_ok sample_ctx sample_memory.
Proof.
  split; [reflexivity| |split; [intros E; discriminate E|reflexivity]|].
  - apply Forall_fmap, Forall_seq. intros i _. split; [reflexivity|apply byte_list_dec; reflexivity].
  - unfold sample_memory. rewrite length_replicate, Z2Nat.id by (intros E; discriminate E).
    change ((cn_memory <$> sample_ctx) !!! 0%nat) with 0. intros E. discriminate E.
Qed.
Lemma hash_octa_refines_witness :
  exists ctx' m',
    @hash_octa aesni_ref keygen_ref (extra_code any_stack) core_sample (fun _ => sample_ambient) true (replicate 640 7) 80
      (replicate 256 0) sample_ctx sample_memory
    = Some (concat ((fun j => @gr_hash core_sample (drop 4 (replicate 640 7)) (slice (j * 80) 80 (replicate 640 7)))
                      <$> seq 0 8), ctx', m') /\
    cn_memory <$> ctx' = cn_memory <$> sample_ctx /\ worker_ok ctx' m' /\
    unchanged pad_room [(cn_memory <$> sample_ctx) !!! 0%nat] sample_memory m'.
Proof.
  apply (hash_octa_refines aesni_ref keygen_ref core_sample aesni_ref_laws keygen_ref_laws core_sample_laws any_stack).
  - exact any_stack_ok.
  - intros t. repeat split.
  - apply byte_list_dec. reflexivity.
  - apply Nat.leb_le. reflexivity.
  - apply Nat.leb_le. reflexivity.
  - reflexivity.
  - reflexivity.
  - exact sample_worker.
Defined.
