(* ===== verification/GrCapi.v ===== *)
(** * The C interface of GhostRider ([ghostrider_capi.cpp], [crypto/cn/CnCtx.cpp]).

    Blocks of memory are numbered and have the kind of the function that allocated
    them; releasing a block with the wrong function, or twice, or dereferencing a
    null pointer is [None].  An oracle decides which allocations succeed. *)
From stdpp Require Import gmap pretty.
From Stdlib Require Import String.
From S2P Require Import Prelude Stream NmAes MdHelper Whirlpool Keccak CnKeccak CnAes CryptoNight CnLanes CnSpec CnExtra CnCorrect CnLoop CnHash GrCores GhostRider GrSelect GrCorrect.
#[local] Open Scope Z_scope.

(** ** Blocks and the state of the process *)

Inductive kind :=
  | KGrCtx        (* new GrCtx *)
  | KHuge         (* VirtualMemory::allocateLargePagesMemory *)
  | KPlain        (* posix_memalign *)
  | KCnCtx        (* _mm_malloc *)
  | KExec.        (* VirtualMemory::allocateExecutableMemory *)
#[export] Instance kind_eq_dec : EqDecision kind.
Proof. solve_decision. Defined.

Record process := mk_process {
  live : gmap nat kind;
  next_block : nat;
  alloc_ok : nat -> bool;   (* does allocation number [i] succeed? *)
  g_hugePages : Z;
  g_error : string }.
Definition set_flag (w : process) (v : Z) : process := mk_process (live w) (next_block w) (alloc_ok w) v (g_error w).
Definition set_error (w : process) (msg : string) : process := mk_process (live w) (next_block w) (alloc_ok w) (g_hugePages w) msg.

Definition alloc (k : kind) (w : process) : option nat * process :=
  if alloc_ok w (next_block w)
  then (Some (next_block w), mk_process (<[next_block w := k]> (live w)) (S (next_block w)) (alloc_ok w) (g_hugePages w) (g_error w))
  else (None, mk_process (live w) (S (next_block w)) (alloc_ok w) (g_hugePages w) (g_error w)).
Definition release (k : kind) (b : nat) (w : process) : option process :=
  if decide (live w !! b = Some k)
  then Some (mk_process (delete b (live w)) (next_block w) (alloc_ok w) (g_hugePages w) (g_error w))
  else None.

(** ** Contexts *)

(** A CryptoNight context on the heap: its block, its executable buffer (null when
    that allocation failed) and its contents. *)
Record cn_slot := mk_slot { s_block : nat; s_exec : option nat; s_ctx : cryptonight_ctx }.
Record GrCtx := mk_grctx {
  gr_block : nat;
  gr_memory : nat;          (* uint8_t *memory, its block *)
  gr_bytes : list Z;        (* what the 16 MiB hold *)
  hugeMemory : bool;
  gr_cn : list cn_slot }.

Definition kLanes : nat := 8.
Definition kScratchpad : Z := 2 ^ 21.

(** [alloc_scratchpads]: the block, whether it has huge pages. *)
Definition alloc_scratchpads (w : process) : option nat * bool * process :=
  let '(p, w) := alloc KHuge w in
  match p with
  | Some b => (Some b, true, set_flag w 1)
  | None =>
      let w := if g_hugePages w =? -1 then set_flag w 0 else w in
      let w := if g_hugePages w =? 1 then set_flag w 0 else w in
      let '(p, w) := alloc KPlain w in (p, false, w)
  end.

(** [CnCtx::create]; [fresh i] is what the block of context [i] holds. *)
Definition CnCtx_create (fresh : nat -> cryptonight_ctx) (size : Z) (count : nat) (w : process) : option (list cn_slot * process) :=
  foldl (fun s i =>
    '(slots, w) ← s;
    let '(c, w) := alloc KCnCtx w in
    c ← c;                                   (* c->memory = ... *)
    let '(e, w) := alloc KExec w in
    Some (slots ++ [mk_slot c e (set_memory (fresh i) (Z.of_nat i * size))], w)) (Some ([], w)) (seq 0 count).

(** [CnCtx::release]: a context never has a null [ctx[0]] and eight slots. *)
Definition CnCtx_release (slots : list cn_slot) (w : process) : option process :=
  foldl (fun w s => w ← w; release KCnCtx (s_block s) w) (Some w) slots.

(** The test of [cn[0]] after [CnCtx::create] is never true: a failed allocation
    there is dereferenced, which is [None] here. *)
Definition ctx_create (fresh : nat -> cryptonight_ctx) (mem : list Z) (w : process) : option (option GrCtx * process) :=
  let '(c, w) := alloc KGrCtx w in
  match c with
  | None => Some (None, set_error w "out of memory allocating GrCtx")
  | Some c =>
      let '(p, huge, w) := alloc_scratchpads w in
      match p with
      | None =>
          w ← release KGrCtx c w;
          Some (None, set_error w "out of memory allocating GhostRider scratchpads (16 MiB)")
      | Some p =>
          '(slots, w) ← CnCtx_create fresh kScratchpad kLanes w;
          Some (Some (mk_grctx c p mem huge slots), w)
      end
  end.

Definition ctx_destroy (c : option GrCtx) (w : process) : option process :=
  match c with
  | None => Some w
  | Some c =>
      w ← CnCtx_release (gr_cn c) w;
      w ← release (if hugeMemory c then KHuge else KPlain) (gr_memory c) w;
      release KGrCtx (gr_block c) w
  end.

(** ** The exported functions *)

Definition ghostrider_capi_huge_pages (w : process) : Z := g_hugePages w.
Definition ghostrider_capi_create_ctx (fresh : nat -> cryptonight_ctx) (mem : list Z) (w : process) :=
  ctx_create fresh mem (set_error w EmptyString).
Definition ghostrider_capi_destroy_ctx := ctx_destroy.

(** XMRig's test vector. *)
Definition test_output_gr : list Z := [
  0x42; 0x17; 0x0C; 0xC1; 0x85; 0xE6; 0x76; 0x3C; 0xC7; 0xCB; 0x27; 0xC4; 0x17; 0x39; 0x2D; 0xE2;
  0x29; 0x6B; 0x40; 0x66; 0x85; 0xA4; 0xE3; 0xD3; 0x8C; 0xE9; 0xA5; 0x8F; 0x10; 0xFC; 0x81; 0xE4;
  0x90; 0x56; 0xF2; 0x9E; 0x00; 0xD0; 0xF8; 0xA1; 0x88; 0x82; 0x86; 0xC0; 0x86; 0x04; 0x6B; 0x0E;
  0x9A; 0xDB; 0xDB; 0xFD; 0x23; 0x16; 0x77; 0x94; 0xFE; 0x58; 0x93; 0x05; 0x10; 0x3F; 0x27; 0x75;
  0x51; 0x44; 0xF3; 0x5F; 0xE2; 0xF9; 0x61; 0xBE; 0xC0; 0x30; 0xB5; 0x8E; 0xB1; 0x1B; 0xA1; 0xF7;
  0x06; 0x4E; 0xF1; 0x6A; 0xFD; 0xA5; 0x44; 0x8E; 0x64; 0x47; 0x8C; 0x67; 0x51; 0xE2; 0x5C; 0x55;
  0x3E; 0x39; 0xA6; 0xA5; 0xF7; 0xB8; 0xD0; 0x5E; 0xE2; 0xBF; 0x92; 0x44; 0xD9; 0xAA; 0x76; 0x22;
  0xE3; 0x3E; 0x15; 0x96; 0xD8; 0x6A; 0x78; 0x2D; 0xA9; 0x77; 0x24; 0x1A; 0x4B; 0xE7; 0x5A; 0x2E;
  0x89; 0x77; 0xAE; 0x92; 0xE4; 0xA4; 0x2D; 0xAF; 0x0B; 0x27; 0x09; 0xB2; 0x5F; 0x95; 0x61; 0xA9;
  0xA8; 0xBE; 0x5D; 0x39; 0xBE; 0x41; 0x5F; 0x9C; 0x67; 0x28; 0x48; 0x4F; 0xAE; 0x2A; 0x50; 0x2B;
  0xB8; 0xC7; 0x42; 0x73; 0x51; 0x60; 0x59; 0xD8; 0x9C; 0xBA; 0x22; 0x2F; 0x8E; 0x34; 0xDE; 0xC8;
  0x1B; 0xAE; 0x9E; 0xBD; 0xF7; 0xE8; 0xFD; 0x8A; 0x97; 0xBE; 0xF0; 0x47; 0xAC; 0x27; 0xDD; 0x28;
  0xC9; 0x28; 0xA8; 0x7B; 0x2A; 0xB8; 0x90; 0x3E; 0xCA; 0xB4; 0x78; 0x44; 0xCE; 0xCD; 0x91; 0xEC;
  0xC2; 0x5A; 0x17; 0x59; 0x7C; 0x14; 0xF8; 0x95; 0x28; 0x14; 0xC3; 0xAD; 0xC4; 0xE1; 0x13; 0x5A;
  0xC4; 0xA7; 0xC7; 0x77; 0xAD; 0xF8; 0x09; 0x61; 0x16; 0xBB; 0xAA; 0x7E; 0xAB; 0xC3; 0x00; 0x25;
  0xBA; 0xA8; 0x97; 0xC7; 0x7D; 0x38; 0x46; 0x0E; 0x59; 0xAC; 0xCB; 0xAE; 0xFE; 0x3C; 0x6F; 0x01].

Definition hex_digit (d : Z) : string := String.substring (Z.to_nat d) 1 "0123456789abcdef".
(** [%02x]. *)
Definition hex2 (v : Z) : string := String.append (hex_digit (v / 16)) (hex_digit (v mod 16)).
Definition mismatch_message (i : nat) (got want : Z) : string :=
  String.concat EmptyString ["GhostRider selftest mismatch at byte "; pretty i; ": got "; hex2 got; ", want "; hex2 want]%string.
(** [for (i = 0; i < sizeof(test_output_gr); ++i) if ((hash1[i] ^ hash2[i]) != test_output_gr[i])]. *)
Definition first_mismatch (hash1 hash2 : list Z) : option nat :=
  head (base.filter (fun i => Z.lxor (hash1 !!! i) (hash2 !!! i) <> test_output_gr !!! i) (seq 0 256)).

(** [blob[i * 80] = i; blob[i * 80 + 4] = a; blob[i * 80 + 5] = b] for each lane. *)
Definition selftest_blob (a b : Z) (blob : list Z) : list Z :=
  foldl (fun blob i => <[(i * 80 + 5)%nat := b]> (<[(i * 80 + 4)%nat := a]> (<[(i * 80)%nat := T8 (Z.of_nat i)]> blob))) blob (seq 0 kLanes).

Section Capi.
Context `{AesNi, AesKeyGen, ExtraHashes, CoreHashes}.
Context (am : nat -> Ambient) (hasAES : bool).

Definition with_cn (c : GrCtx) (cn : list cryptonight_ctx) (m : list Z) : GrCtx :=
  mk_grctx (gr_block c) (gr_memory c) m (hugeMemory c)
    (zip_with (fun s x => mk_slot (s_block s) (s_exec s) x) (gr_cn c) cn).

Definition ghostrider_capi_hash_octa (c : GrCtx) (input : list Z) (size : nat) (out : list Z) : option (list Z * GrCtx) :=
  '(out, cn, m) ← hash_octa am hasAES input size out (s_ctx <$> gr_cn c) (gr_bytes c);
  Some (out, with_cn c cn m).

(** [blob] and [hash] are what the stack holds. *)
Definition ghostrider_capi_hash (blob hash : list Z) (c : GrCtx) (input : list Z) (size : nat) : option (list Z * GrCtx) :=
  let size := if (80 <? size)%nat then 80%nat else size in
  let blob := foldl (fun blob i => memcpy blob (i * size) (take size input)) blob (seq 0 kLanes) in
  '(hash, cn, m) ← hash_octa am hasAES blob size hash (s_ctx <$> gr_cn c) (gr_bytes c);
  Some (take 32 hash, with_cn c cn m).
End Capi.

(** [out] are the buffers [hash1] and [hash2]; the two calls have their own stack. *)
Definition ghostrider_capi_selftest `{AesNi, AesKeyGen, ExtraHashes, CoreHashes} (am : nat -> nat -> Ambient) (hasAES : bool)
    (fresh : nat -> cryptonight_ctx) (mem : list Z) (out : nat -> list Z) (w : process) : option (Z * process) :=
  '(c, w) ← ctx_create fresh mem (set_error w EmptyString);
  match c with
  | None => Some (-1, w)
  | Some c =>
      let blob := selftest_blob 0x10 0x02 (replicate 640 0) in
      '(hash1, c) ← ghostrider_capi_hash_octa (am 0%nat) hasAES c blob 80 (out 0%nat);
      let blob := selftest_blob 0x43 0x05 blob in
      '(hash2, c) ← ghostrider_capi_hash_octa (am 1%nat) hasAES c blob 80 (out 1%nat);
      w ← ctx_destroy (Some c) w;
      match first_mismatch hash1 hash2 with
      | Some i => Some (-2, set_error w (mismatch_message i (Z.lxor (hash1 !!! i) (hash2 !!! i)) (test_output_gr !!! i)))
      | None => Some (0, w)
      end
  end.

(** ** What creation adds *)

Definition process_wf (w : process) : Prop := forall b, is_Some (live w !! b) -> (b < next_block w)%nat.
(** [w'] is [w] with the new blocks [l]. *)
Record added (w w' : process) (l : list (nat * kind)) : Prop := {
  ad_next : (next_block w <= next_block w')%nat;
  ad_keys : NoDup l.*1;
  ad_fresh : Forall (fun bk => (next_block w <= bk.1 < next_block w')%nat) l;
  ad_live : forall b, live w' !! b = match (list_to_map l : gmap nat kind) !! b with Some k => Some k | None => live w !! b end }.

Lemma added_refl w : added w w [].
Proof. split; [done|constructor|constructor|]. intros b. by rewrite list_to_map_nil, lookup_empty. Qed.
Lemma added_wf w w' l : process_wf w -> added w w' l -> process_wf w'.
Proof.
  intros Hw [Hn _ Hf Hl] b. rewrite Hl. destruct (list_to_map l !! b) as [k|] eqn:E; intros Hb.
  - apply elem_of_list_to_map_2 in E. rewrite list.Forall_forall in Hf. specialize (Hf _ E). cbn in Hf. lia.
  - apply Hw in Hb. lia.
Qed.
Lemma alloc_added k w w' l : added w w' l ->
  match alloc k w' with
  | (Some b, w2) => added w w2 ((b, k) :: l) /\ g_error w2 = g_error w'
  | (None, w2) => added w w2 l /\ g_error w2 = g_error w'
  end.
Proof.
  intros [Hn Hk Hf Hl]. unfold alloc. destruct (alloc_ok w' (next_block w')); (split; [|done]); split; cbn [next_block live]; try lia.
  - cbn. apply list.NoDup_cons. split; [|done]. intros Hin. apply list_elem_of_fmap in Hin as (bk & E & Hin).
    rewrite list.Forall_forall in Hf. specialize (Hf _ Hin). lia.
  - apply List.Forall_cons; [cbn; lia|]. refine (List.Forall_impl _ _ Hf). intros bk. lia.
  - intros b. cbn [list_to_map foldr]. destruct (decide (b = next_block w')) as [->|Hne].
    + by rewrite !lookup_insert_eq.
    + by rewrite !lookup_insert_ne by done.
  - done.
  - refine (List.Forall_impl _ _ Hf). intros bk. lia.
  - done.
Qed.
Lemma added_flag w w' l v : added w w' l -> added w (set_flag w' v) l.
Proof. by intros []. Qed.
Lemma added_error w w' l msg : added w w' l -> added w (set_error w' msg) l.
Proof. by intros []. Qed.

(** The blocks of a worker, and the executable buffers of its contexts. *)
Definition slot_blocks (slots : list cn_slot) : list (nat * kind) := (fun s => (s_block s, KCnCtx)) <$> slots.
Definition exec_blocks (slots : list cn_slot) : list (nat * kind) := (fun b => (b, KExec)) <$> omap s_exec slots.
Definition worker_blocks (c : GrCtx) : list (nat * kind) :=
  slot_blocks (gr_cn c) ++ [(gr_memory c, if hugeMemory c then KHuge else KPlain); (gr_block c, KGrCtx)].

Lemma added_perm w w' l l' : l ≡ₚ l' -> added w w' l -> added w w' l'.
Proof.
  intros Hp [Hn Hk Hf Hl]. split; [done|by rewrite <-Hp|by rewrite <-Hp|]. intros b. rewrite Hl.
  by rewrite (list_to_map_proper l l' Hk Hp).
Qed.

(** The pointers of the created contexts. *)
Definition slots_ok (fresh : nat -> cryptonight_ctx) (size : Z) (slots : list cn_slot) : Prop :=
  s_ctx <$> slots = (fun i => set_memory (fresh i) (Z.of_nat i * size)) <$> seq 0 (length slots).

Lemma CnCtx_create_added fresh size count w w1 l slots w2 :
  added w w1 l -> CnCtx_create fresh size count w1 = Some (slots, w2) ->
  added w w2 (exec_blocks slots ++ slot_blocks slots ++ l) /\ length slots = count /\ slots_ok fresh size slots /\ g_error w2 = g_error w1.
Proof.
  intros Ha. unfold CnCtx_create. revert slots w2. induction count as [|count IH]; intros slots w2.
  { intros [= <- <-]. by split_and!. }
  rewrite seq_S, foldl_app. destruct (foldl _ _ (seq 0 count)) as [[slots1 w3]|]; [|done].
  destruct (IH slots1 w3 eq_refl) as (Ha1 & Hl1 & Hs1 & He1). cbn [foldl mbind option_bind Nat.add].
  pose proof (alloc_added KCnCtx w w3 _ Ha1) as A1. destruct (alloc KCnCtx w3) as [[c|] w4]; [|done]. destruct A1 as [A1 E1].
  cbn [mbind option_bind]. pose proof (alloc_added KExec w w4 _ A1) as A2. destruct (alloc KExec w4) as [e w5].
  set (x := set_memory (fresh count) (Z.of_nat count * size)). intros [= <- <-].
  assert (Hs : slots_ok fresh size (slots1 ++ [mk_slot c e x])).
  { unfold slots_ok. rewrite fmap_app, Hs1, length_app, Nat.add_1_r, seq_S, fmap_app, Hl1. done. }
  destruct e as [e|], A2 as [A2 E2]; (split_and!; [|rewrite length_app; cbn; lia|done|congruence]);
    refine (added_perm w w5 _ _ _ A2); unfold exec_blocks, slot_blocks; rewrite omap_app, !fmap_app; cbn; solve_Permutation.
Qed.

Lemma alloc_scratchpads_added w w1 l p huge w2 :
  added w w1 l -> alloc_scratchpads w1 = (p, huge, w2) ->
  match p with Some b => added w w2 ((b, if huge then KHuge else KPlain) :: l) | None => added w w2 l end.
Proof.
  intros Ha. unfold alloc_scratchpads. pose proof (alloc_added KHuge w w1 l Ha) as A1.
  destruct (alloc KHuge w1) as [[b|] w3], A1 as [A1 _]; [intros [= <- <- <-]; by apply added_flag|].
  set (w4 := if g_hugePages w3 =? -1 then _ else _). set (w5 := if g_hugePages w4 =? 1 then _ else _).
  assert (A4 : added w w4 l) by (unfold w4; destruct (g_hugePages w3 =? -1); [by apply added_flag|done]).
  assert (A5 : added w w5 l) by (unfold w5; destruct (g_hugePages w4 =? 1); [by apply added_flag|done]).
  pose proof (alloc_added KPlain w w5 l A5) as A6. destruct (alloc KPlain w5) as [[b|] w6], A6 as [A6 _]; by intros [= <- <- <-].
Qed.

(** Releasing new blocks: what is left of them, and nothing else. *)
Fixpoint release_list (l : list (nat * kind)) (w : process) : option process :=
  match l with [] => Some w | (b, k) :: l => w ← release k b w; release_list l w end.
Lemma release_list_app l1 l2 w : release_list (l1 ++ l2) w = (w ← release_list l1 w; release_list l2 w).
Proof. revert w. induction l1 as [|[b k] l1 IH]; intros w; [done|]. cbn. destruct (release k b w); [apply IH|done]. Qed.
Lemma release_added w w' l1 l2 :
  process_wf w -> added w w' (l1 ++ l2) -> exists w2, release_list l2 w' = Some w2 /\ added w w2 l1 /\ g_error w2 = g_error w'.
Proof.
  intros Hw. revert w'. induction l2 as [|[b k] l2 IH]; intros w' Ha; [rewrite app_nil_r in Ha; by exists w'|].
  assert (Ha' : added w w' ((b, k) :: l1 ++ l2)) by (refine (added_perm _ _ _ _ _ Ha); solve_Permutation).
  destruct Ha' as [Hn Hk Hf Hl]. cbn [release_list]. unfold release.
  assert (Eb : live w' !! b = Some k) by (rewrite Hl; cbn; by rewrite lookup_insert_eq).
  rewrite decide_True by done. cbn [mbind option_bind].
  edestruct IH as (w2 & E & A2 & Ee); [|by exists w2]. cbn in Hk. apply list.NoDup_cons in Hk as [Hb Hk].
  apply Forall_cons_1 in Hf as [Hfb Hf]. split; cbn [next_block live]; [done|done|done|]. intros b'.
  destruct (decide (b' = b)) as [->|Hne].
  - rewrite lookup_delete_eq. rewrite (not_elem_of_list_to_map_1 _ _ Hb).
    destruct (live w !! b) eqn:El; [|done]. assert (Hi : is_Some (live w !! b)) by (by rewrite El). apply Hw in Hi. cbn in Hfb. lia.
  - rewrite lookup_delete_ne, Hl by done. cbn. by rewrite lookup_insert_ne by done.
Qed.
Lemma added_nil w w' : added w w' [] -> live w' = live w.
Proof. intros [_ _ _ Hl]. apply map_eq. intros b. rewrite Hl. by rewrite list_to_map_nil, lookup_empty. Qed.

(** A created worker owns its blocks and its executable buffers, and nothing else changed. *)
Lemma ctx_create_added fresh mem w r w' :
  process_wf w -> ctx_create fresh mem w = Some (r, w') ->
  match r with
  | Some c => added w w' (exec_blocks (gr_cn c) ++ worker_blocks c) /\ length (gr_cn c) = kLanes /\
      slots_ok fresh kScratchpad (gr_cn c) /\ gr_bytes c = mem
  | None => live w' = live w /\ g_error w' <> EmptyString
  end.
Proof.
  intros Hw. unfold ctx_create. intros E. pose proof (alloc_added KGrCtx w w [] (added_refl w)) as A1.
  destruct (alloc KGrCtx w) as [[c|] w1]; destruct A1 as [A1 _].
  2: { injection E as <- <-. split; [|done]. cbn. by apply added_nil. }
  destruct (alloc_scratchpads w1) as [[p huge] w2] eqn:Ep. pose proof (alloc_scratchpads_added w w1 _ p huge w2 A1 Ep) as A2.
  destruct p as [p|].
  - destruct (CnCtx_create fresh kScratchpad kLanes w2) as [[slots w3]|] eqn:Es; [|done]. injection E as <- <-.
    destruct (CnCtx_create_added fresh _ _ w w2 _ slots w3 A2 Es) as (A3 & Hl & Hs & _). done.
  - destruct (release_added w w2 [] [(c, KGrCtx)] Hw A2) as (w4 & E4 & A4 & _). cbn in E4.
    destruct (release KGrCtx c w2) as [w5|]; [|done]. injection E4 as ->. injection E as <- <-. split; [|done]. cbn. by apply added_nil.
Qed.
Lemma CnCtx_release_list slots w : CnCtx_release slots w = release_list (slot_blocks slots) w.
Proof.
  unfold CnCtx_release. revert w. induction slots as [|s slots IH]; intros w; [done|]. cbn.
  destruct (release KCnCtx (s_block s) w) as [w1|]; [apply IH|]. clear. induction slots; done.
Qed.
Lemma ctx_destroy_list c w : ctx_destroy (Some c) w = release_list (worker_blocks c) w.
Proof.
  cbn [ctx_destroy]. rewrite CnCtx_release_list. unfold worker_blocks. rewrite release_list_app.
  destruct (release_list (slot_blocks (gr_cn c)) w) as [w1|]; [|done]. cbn.
  destruct (release _ (gr_memory c) w1) as [w2|]; [|done]. cbn. by destruct (release KGrCtx (gr_block c) w2).
Qed.

(** Creation succeeds when every allocation does. *)
Lemma alloc_succeeds k w : (forall i, alloc_ok w i = true) ->
  exists w', alloc k w = (Some (next_block w), w') /\ (forall i, alloc_ok w' i = true).
Proof. intros Hw. unfold alloc. rewrite Hw. by eexists. Qed.
Lemma CnCtx_create_succeeds fresh size count w : (forall i, alloc_ok w i = true) ->
  exists slots w', CnCtx_create fresh size count w = Some (slots, w') /\ (forall i, alloc_ok w' i = true).
Proof.
  intros Hw. unfold CnCtx_create. induction count as [|count IH]; [by exists [], w|]. destruct IH as (slots & w1 & E & H1).
  rewrite seq_S, foldl_app, E. cbn [foldl mbind option_bind Nat.add].
  destruct (alloc_succeeds KCnCtx w1 H1) as (w2 & E2 & H2). rewrite E2. cbn [mbind option_bind].
  destruct (alloc_succeeds KExec w2 H2) as (w3 & E3 & H3). rewrite E3. by do 2 eexists.
Qed.
Lemma ctx_create_succeeds fresh mem w : (forall i, alloc_ok w i = true) ->
  exists c w', ctx_create fresh mem w = Some (Some c, w').
Proof.
  intros Hw. unfold ctx_create. destruct (alloc_succeeds KGrCtx w Hw) as (w1 & E1 & H1). rewrite E1.
  unfold alloc_scratchpads. destruct (alloc_succeeds KHuge w1 H1) as (w2 & E2 & H2). rewrite E2.
  destruct (CnCtx_create_succeeds fresh kScratchpad kLanes (set_flag w2 1) H2) as (slots & w3 & E3 & _). rewrite E3.
  by do 2 eexists.
Qed.
Lemma gr_create_succeeds fresh mem w : (forall i, alloc_ok w i = true) ->
  exists c w', ghostrider_capi_create_ctx fresh mem w = Some (Some c, w').
Proof. exact (ctx_create_succeeds fresh mem (set_error w EmptyString)). Qed.

(** ** A worker between calls *)

Definition gr_ok (c : GrCtx) : Prop := length (gr_cn c) = kLanes /\ worker_ok (s_ctx <$> gr_cn c) (gr_bytes c).

Lemma created_ok fresh mem c :
  (forall i, ctx_ok (fresh i)) -> Z.of_nat (length mem) = 2 ^ 24 -> length (gr_cn c) = kLanes ->
  slots_ok fresh kScratchpad (gr_cn c) -> gr_bytes c = mem -> gr_ok c.
Proof.
  intros Hf Hm Hl Hs Eb. split; [done|]. unfold slots_ok in Hs. rewrite Hl in Hs. rewrite Hs, Eb. split.
  - reflexivity.
  - apply Forall_fmap, Forall_seq. intros i _. exact (Hf i).
  - split; [intros E; discriminate E|reflexivity].
  - rewrite Hm. intros E. discriminate E.
Qed.
Lemma with_cn_ctx c cn m : length cn = length (gr_cn c) -> s_ctx <$> gr_cn (with_cn c cn m) = cn.
Proof.
  destruct c as [b p bs hg slots]. cbn. revert cn. induction slots as [|s slots IH]; intros [|x cn] E; try done. cbn. f_equal. apply IH. cbn in E. lia.
Qed.
Lemma with_cn_blocks c cn m : length cn = length (gr_cn c) ->
  worker_blocks (with_cn c cn m) = worker_blocks c /\ exec_blocks (gr_cn (with_cn c cn m)) = exec_blocks (gr_cn c).
Proof.
  destruct c as [b p bs hg slots]. unfold worker_blocks. cbn [gr_cn with_cn gr_memory hugeMemory gr_block]. intros E.
  assert (H : slot_blocks (zip_with (fun s x => mk_slot (s_block s) (s_exec s) x) slots cn) = slot_blocks slots /\
    exec_blocks (zip_with (fun s x => mk_slot (s_block s) (s_exec s) x) slots cn) = exec_blocks slots).
  { revert cn E. induction slots as [|s slots IH]; intros [|x cn] E; try done. destruct (IH cn) as [E1 E2]; [cbn in E; lia|].
    unfold slot_blocks, exec_blocks in *. cbn. rewrite E1. split; [done|]. destruct (s_exec s); cbn; by rewrite E2. }
  destruct H as [-> ->]. done.
Qed.

Section Session.
Context `{AesNiLaws, AesKeyGenLaws, ExtraHashesLaws, CoreHashesLaws}.
Context (am : nat -> nat -> Ambient) (hasAES : bool).
Hypothesis Ham : forall i t, ambient_ok (am i t).

(** Eight headers of [size] bytes. *)
Definition batch_ok (b : list Z * nat) : Prop :=
  bytes b.1 /\ (36 <= length b.1)%nat /\ (8 * b.2 <= length b.1)%nat /\ Z.of_nat (length b.1) < 2 ^ 64.
Definition batch_digest (b : list Z * nat) : list Z :=
  concat ((fun j => gr_hash (drop 4 b.1) (slice (j * b.2) b.2 b.1)) <$> seq 0 8).

(** One call after the other; call [i] has its own stack and output buffer. *)
Fixpoint run_batches (i : nat) (out : nat -> list Z) (batches : list (list Z * nat)) (c : GrCtx) : option (list (list Z) * GrCtx) :=
  match batches with
  | [] => Some ([], c)
  | (data, size) :: batches =>
      '(d, c) ← ghostrider_capi_hash_octa (am i) hasAES c data size (out i);
      '(ds, c) ← run_batches (S i) out batches c;
      Some (d :: ds, c)
  end.

Lemma capi_octa_ok i c out b :
  gr_ok c -> batch_ok b -> length out = 256%nat ->
  exists c', ghostrider_capi_hash_octa (am i) hasAES c b.1 b.2 out = Some (batch_digest b, c') /\ gr_ok c' /\
    worker_blocks c' = worker_blocks c /\ exec_blocks (gr_cn c') = exec_blocks (gr_cn c).
Proof.
  intros [Hl Hw] (Hb1 & Hb2 & Hb3 & Hb4) Ho. unfold ghostrider_capi_hash_octa.
  destruct (hash_octa_ok (am i) hasAES (Ham i) b.1 b.2 out _ _ Hb1 Hb2 Hb3 Hb4 Ho Hw) as (cn & m & E & _ & Hw' & _).
  rewrite E. cbn [mbind option_bind]. assert (Hcn : length cn = length (gr_cn c)) by (by rewrite (wo_count _ _ Hw'), Hl).
  exists (with_cn c cn m). split; [unfold batch_digest; exact eq_refl|]. destruct (with_cn_blocks c cn m Hcn) as [E1 E2]. split_and!; [|done|done].
  split; [|rewrite with_cn_ctx by done; exact Hw'].
  cbn [gr_cn with_cn]. rewrite length_zip_with, Hcn, Hl. reflexivity.
Qed.
Lemma run_batches_ok i out batches c :
  (forall i, length (out i) = 256%nat) -> gr_ok c -> Forall batch_ok batches ->
  exists c', run_batches i out batches c = Some (batch_digest <$> batches, c') /\ gr_ok c' /\
    worker_blocks c' = worker_blocks c /\ exec_blocks (gr_cn c') = exec_blocks (gr_cn c).
Proof.
  intros Ho Hc Hb. revert i c Hc. induction Hb as [|[data size] batches Hb _ IH]; intros i c Hc; [by exists c|].
  destruct (capi_octa_ok i c (out i) (data, size) Hc Hb (Ho i)) as (c1 & E1 & Hc1 & W1 & X1).
  destruct (IH (S i) c1 Hc1) as (c2 & E2 & Hc2 & W2 & X2). exists c2. cbn [run_batches].
  cbn [fst snd] in E1. rewrite E1. cbn [mbind option_bind]. rewrite E2. split_and!; [exact eq_refl|exact Hc2|exact (eq_trans W2 W1)|exact (eq_trans X2 X1)].
Qed.

(** The convenience function: lane 0 of eight copies. *)
Lemma capi_hash_ok i blob hash c input size :
  gr_ok c -> bytes input -> bytes blob -> length blob = 640%nat -> length hash = 256%nat ->
  (36 <= size)%nat -> (size <= length input)%nat ->
  exists c', ghostrider_capi_hash (am i) hasAES blob hash c input size
             = Some (gr_hash (slice 4 32 input) (take (Nat.min size 80) input), c') /\ gr_ok c' /\
    worker_blocks c' = worker_blocks c /\ exec_blocks (gr_cn c') = exec_blocks (gr_cn c).
Proof.
  intros [Hl Hw] Hi Hb Hbl Hh H36 Hsz. unfold ghostrider_capi_hash.
  replace (if (80 <? size)%nat then 80%nat else size) with (Nat.min size 80) by (destruct (Nat.ltb_spec 80 size); lia).
  set (n := Nat.min size 80). assert (Hn : (36 <= n <= 80)%nat /\ (n <= length input)%nat) by lia. clearbody n.
  set (x := take n input). assert (Hx : length x = n) by (unfold x; rewrite length_take; lia).
  assert (Hxb : bytes x) by by apply Forall_take.
  destruct (rewrite_lanes_prefix n 8 (fun _ _ => x) blob) as [E Hc]; [lia|done|].
  unfold kLanes. cbv zeta. rewrite E. set (copies := concat _) in *. set (data := copies ++ drop (8 * n) blob).
  assert (Hcb : bytes copies) by (apply Forall_concat, Forall_fmap, Forall_seq; intros j _; exact Hxb).
  assert (Hd : bytes data) by (by apply Forall_app_2, Forall_drop).
  assert (Hdl : length data = 640%nat) by (unfold data; rewrite length_app, length_drop; lia).
  destruct (hash_octa_ok (am i) hasAES (Ham i) data n hash _ _ Hd ltac:(lia) ltac:(lia) ltac:(rewrite Hdl; reflexivity) Hh Hw)
    as (cn & m & Eh & _ & Hw' & _).
  rewrite Eh. cbn [mbind option_bind]. assert (Hcn : length cn = length (gr_cn c)) by (by rewrite (wo_count _ _ Hw'), Hl).
  exists (with_cn c cn m). destruct (with_cn_blocks c cn m Hcn) as [E1 E2]. split; [|split; [split|exact (conj E1 E2)]].
  - apply (f_equal Some), (f_equal2 pair); [|exact eq_refl].
    rewrite (first_lane (fun j => gr_hash (drop 4 data) (slice (j * n) n data)) 32 8) by (lia || apply gr_digest).
    assert (E0 : slice (0 * n) n data = x) by (unfold data, copies; cbn; rewrite <-(assoc_L (++)); apply slice_app_l, Hx).
    rewrite E0. apply gr_hash_seed. unfold slice. rewrite take_take, Nat.min_id, !take_drop_commute. f_equal.
    unfold data, copies. cbn [seq fmap list_fmap concat]. rewrite <-(assoc_L (++)), take_app_le by lia.
    unfold x. rewrite take_take. f_equal. lia.
  - cbn [gr_cn with_cn]. rewrite length_zip_with, Hcn, Hl. reflexivity.
  - rewrite with_cn_ctx by done. exact Hw'.
Qed.

(** ** The self test *)

Definition selftest_1 : list Z * nat := (selftest_blob 0x10 0x02 (replicate 640 0), 80%nat).
Definition selftest_2 : list Z * nat := (selftest_blob 0x43 0x05 selftest_1.1, 80%nat).
Lemma selftest_batches : batch_ok selftest_1 /\ batch_ok selftest_2.
Proof.
  split; (split_and!; [apply byte_list_dec; vm_compute; reflexivity|apply Nat.leb_le; vm_compute; reflexivity
    |apply Nat.leb_le; vm_compute; reflexivity|vm_compute; reflexivity]).
Qed.
Lemma length_batch_digest b : length (batch_digest b) = 256%nat.
Proof.
  unfold batch_digest. rewrite (length_concat_fixed 32); [by rewrite length_fmap, length_seq|].
  apply Forall_fmap, Forall_seq. intros j _. exact (gr_digest _ _).
Qed.
Lemma first_mismatch_none h1 h2 : length h1 = 256%nat -> length h2 = 256%nat ->
  first_mismatch h1 h2 = None <-> zip_with Z.lxor h1 h2 = test_output_gr.
Proof.
  intros L1 L2. unfold first_mismatch. rewrite head_None.
  assert (Hz : forall i, (i < 256)%nat -> zip_with Z.lxor h1 h2 !!! i = Z.lxor (h1 !!! i) (h2 !!! i)).
  { intros i Hi. rewrite !list_lookup_total_alt, lookup_zip_with.
    destruct (h1 !! i) eqn:E1; [|apply lookup_ge_None in E1; lia]. by destruct (h2 !! i) eqn:E2; [|apply lookup_ge_None in E2; lia]. }
  split.
  - intros Hn. apply list_eq_total; [rewrite length_zip_with, L1, L2; reflexivity|]. intros i Hi.
    rewrite length_zip_with, L1, L2 in Hi. rewrite Hz by done.
    destruct (decide (Z.lxor (h1 !!! i) (h2 !!! i) = test_output_gr !!! i)) as [E|E]; [done|].
    assert (Hin : i ∈ base.filter (fun i => Z.lxor (h1 !!! i) (h2 !!! i) <> test_output_gr !!! i) (seq 0 256)).
    { apply list_elem_of_filter. split; [done|]. apply elem_of_seq. lia. }
    rewrite Hn in Hin. by apply elem_of_nil in Hin.
  - intros E. apply filter_none, Forall_seq. intros i Hi Hne. apply Hne. rewrite <-E, Hz by lia. reflexivity.
Qed.
End Session.

(** ** Properties *)

Lemma destroy_added w w1 c c' :
  process_wf w -> added w w1 (exec_blocks (gr_cn c) ++ worker_blocks c) -> worker_blocks c' = worker_blocks c ->
  exists w2, ctx_destroy (Some c') w1 = Some w2 /\ added w w2 (exec_blocks (gr_cn c)) /\ g_error w2 = g_error w1.
Proof. intros Hw Ha E. rewrite ctx_destroy_list, E. exact (release_added w w1 _ _ Hw Ha). Qed.
(** What is left of a destroyed worker. *)
Definition only_code_left (w w2 : process) (slots : list cn_slot) : Prop :=
  forall b, live w2 !! b = if decide (b ∈ omap s_exec slots) then Some KExec else live w !! b.
Lemma added_exec w w2 slots : added w w2 (exec_blocks slots) -> only_code_left w w2 slots.
Proof.
  intros [_ Hk _ Hl] b. rewrite Hl. unfold exec_blocks in *. case_decide as Hb.
  - rewrite (elem_of_list_to_map_1 _ b KExec Hk); [done|]. apply list_elem_of_fmap. by exists b.
  - rewrite not_elem_of_list_to_map_1; [done|]. intros Hin. apply Hb. apply list_elem_of_fmap in Hin as (bk & -> & Hin).
    apply list_elem_of_fmap in Hin as (b' & -> & Hin). done.
Qed.

(** C6. A worker's life: once [ghostrider_capi_create_ctx] has returned a
    context, any number of eight-header batches returns the GhostRider digests of
    all their headers, in whatever state the contexts, the scratchpads and the
    stack were left; and [ghostrider_capi_destroy_ctx] then releases every block of
    the worker with the function that matches its allocation.  What stays live are
    the executable buffers of the eight contexts: [CnCtx::release] never frees
    them. *)
Theorem gr_worker_session (ni : AesNi) (kg : AesKeyGen) (ch : CoreHashes)
    (L1 : AesNiLaws ni) (L2 : AesKeyGenLaws kg) (L4 : CoreHashesLaws ch) stack
    am hasAES fresh mem out batches w c w1 :
  (forall x, stack_ok (stack x)) -> (forall i t, ambient_ok (am i t)) -> (forall i, ctx_ok (fresh i)) -> Z.of_nat (length mem) = 2 ^ 24 ->
  (forall i, length (out i) = 256%nat) -> process_wf w ->
  ghostrider_capi_create_ctx fresh mem w = Some (Some c, w1) -> Forall batch_ok batches ->
  exists c' w2,
    @run_batches ni kg (extra_code stack) ch am hasAES 0 out batches c = Some (batch_digest <$> batches, c') /\
    ghostrider_capi_destroy_ctx (Some c') w1 = Some w2 /\ only_code_left w w2 (gr_cn c).
Proof.
  intros Hst Ham Hf Hm Ho Hw Hc Hb. generalize (extra_code stack), (extra_code_laws stack Hst). intros eh L3. assert (Hw' : process_wf (set_error w EmptyString)) by exact Hw.
  destruct (ctx_create_added fresh mem _ _ _ Hw' Hc) as (Ha & Hl & Hs & Eb).
  destruct (run_batches_ok am hasAES Ham 0 out batches c Ho (created_ok fresh mem c Hf Hm Hl Hs Eb) Hb) as (c' & E & _ & Ew & _).
  destruct (destroy_added _ w1 c c' Hw' Ha Ew) as (w2 & Ed & Ha2 & _). exists c', w2. split; [exact E|]. split; [exact Ed|].
  exact (added_exec _ w2 _ Ha2).
Qed.

Definition process0 : process := mk_process ∅ 0 (fun _ => true) (-1) EmptyString.
Definition fresh0 (i : nat) : cryptonight_ctx := mk_ctx (replicate 224 0) 0 [] false.
Lemma process0_wf : process_wf process0.
Proof. intros b [k Hb]. cbn in Hb. by rewrite lookup_empty in Hb. Qed.
Lemma ambient0_ok : ambient_ok sample_ambient.
Proof. repeat split. Qed.
Lemma fresh0_ok i : ctx_ok (fresh0 i).
Proof. split; [reflexivity|apply byte_list_dec; reflexivity]. Qed.
Lemma sample_memory_length : Z.of_nat (length sample_memory) = 2 ^ 24.
Proof. unfold sample_memory. rewrite length_replicate. apply Z2Nat.id. intros E. discriminate E. Qed.
Lemma gr_worker_session_witness :
  exists c w1, ghostrider_capi_create_ctx fresh0 sample_memory process0 = Some (Some c, w1) /\
  exists c' w2,
    @run_batches aesni_ref keygen_ref (extra_code any_stack) core_sample (fun _ _ => sample_ambient) false 0 (fun _ => replicate 256 0)
      [(replicate 640 7, 80%nat)] c = Some (@batch_digest core_sample <$> [(replicate 640 7, 80%nat)], c') /\
    ghostrider_capi_destroy_ctx (Some c') w1 = Some w2 /\ only_code_left process0 w2 (gr_cn c).
Proof.
  destruct (gr_create_succeeds fresh0 sample_memory process0 (fun _ => eq_refl)) as (c & w1 & E). exists c, w1. split; [exact E|].
  apply (gr_worker_session aesni_ref keygen_ref core_sample aesni_ref_laws keygen_ref_laws
    core_sample_laws any_stack (fun _ _ => sample_ambient) false fresh0 sample_memory).
  - exact any_stack_ok.
  - intros _ _. exact ambient0_ok.
  - exact fresh0_ok.
  - exact sample_memory_length.
  - intros i. reflexivity.
  - exact process0_wf.
  - exact E.
  - apply List.Forall_cons; [|constructor]. split_and!; [apply byte_list_dec; reflexivity|apply Nat.leb_le; reflexivity
      |apply Nat.leb_le; reflexivity|reflexivity].
Defined.

(** C40. The single-hash function returns lane 0 of eight copies: for an input of
    at least 36 bytes, of which it uses the first 80 at most, the result is the
    GhostRider hash of those bytes with the order taken from bytes 4 to 35 of the
    input itself, whatever the worker did before; the worker keeps its blocks and
    stays usable. *)
Theorem gr_capi_hash_single (ni : AesNi) (kg : AesKeyGen) (ch : CoreHashes)
    (L1 : AesNiLaws ni) (L2 : AesKeyGenLaws kg) (L4 : CoreHashesLaws ch) stack
    am hasAES blob hash c input size :
  (forall x, stack_ok (stack x)) -> (forall t, ambient_ok (am t)) -> gr_ok c -> bytes input -> bytes blob -> length blob = 640%nat -> length hash = 256%nat ->
  (36 <= size)%nat -> (size <= length input)%nat ->
  exists c', @ghostrider_capi_hash ni kg (extra_code stack) ch am hasAES blob hash c input size
             = Some (gr_hash (slice 4 32 input) (take (Nat.min size 80) input), c') /\ gr_ok c' /\
    worker_blocks c' = worker_blocks c /\ exec_blocks (gr_cn c') = exec_blocks (gr_cn c).
Proof. intros Hst Ham. pose proof (extra_code_laws stack Hst) as L3. exact (capi_hash_ok (fun _ => am) hasAES (fun _ => Ham) 0 blob hash c input size). Qed.
Definition sample_grctx : GrCtx := mk_grctx 0 1 sample_memory true ((fun i => mk_slot (2 + i) None (nth i sample_ctx (fresh0 0))) <$> seq 0 8).
Lemma gr_capi_hash_single_witness :
  exists c', @ghostrider_capi_hash aesni_ref keygen_ref (extra_code any_stack) core_sample (fun _ => sample_ambient) true
               (replicate 640 1) (replicate 256 2) sample_grctx (replicate 80 9) 80
             = Some (@gr_hash core_sample (slice 4 32 (replicate 80 9)) (take (Nat.min 80 80) (replicate 80 9)), c') /\ gr_ok c' /\
    worker_blocks c' = worker_blocks sample_grctx /\ exec_blocks (gr_cn c') = exec_blocks (gr_cn sample_grctx).
Proof.
  apply (gr_capi_hash_single aesni_ref keygen_ref core_sample aesni_ref_laws keygen_ref_laws
    core_sample_laws any_stack).
  - exact any_stack_ok.
  - intros _. exact ambient0_ok.
  - split; [reflexivity|exact sample_worker].
  - apply byte_list_dec. reflexivity.
  - apply byte_list_dec. reflexivity.
  - reflexivity.
  - reflexivity.
  - apply Nat.leb_le. reflexivity.
  - apply Nat.leb_le. reflexivity.
Defined.

(** C31. The self test decides whether the two batches hash to the vector: with a
    context created, it returns 0 exactly when the exclusive or of the reference
    digests of its two batches is [test_output_gr] and -2 otherwise, after it has
    released the worker; when no context can be created it returns -1 with the
    process as the failed creation left it. *)
Theorem gr_selftest_verdict (ni : AesNi) (kg : AesKeyGen) (ch : CoreHashes)
    (L1 : AesNiLaws ni) (L2 : AesKeyGenLaws kg) (L4 : CoreHashesLaws ch) stack
    am hasAES fresh mem out w r w1 :
  (forall x, stack_ok (stack x)) -> (forall i t, ambient_ok (am i t)) -> (forall i, ctx_ok (fresh i)) -> Z.of_nat (length mem) = 2 ^ 24 ->
  (forall i, length (out i) = 256%nat) -> process_wf w -> ctx_create fresh mem (set_error w EmptyString) = Some (r, w1) ->
  match r with
  | None => @ghostrider_capi_selftest ni kg (extra_code stack) ch am hasAES fresh mem out w = Some (-1, w1) /\ live w1 = live w
  | Some c => exists w2,
      @ghostrider_capi_selftest ni kg (extra_code stack) ch am hasAES fresh mem out w
      = Some (if decide (zip_with Z.lxor (batch_digest selftest_1) (batch_digest selftest_2) = test_output_gr) then 0 else -2, w2) /\
      only_code_left w w2 (gr_cn c)
  end.
Proof.
  intros Hst Ham Hf Hm Ho Hw Hc. generalize (extra_code stack), (extra_code_laws stack Hst). intros eh L3. assert (Hw' : process_wf (set_error w EmptyString)) by exact Hw.
  pose proof (ctx_create_added fresh mem _ _ _ Hw' Hc) as Hr. unfold ghostrider_capi_selftest. rewrite Hc. cbn [mbind option_bind].
  destruct r as [c|]; [|exact (conj eq_refl (proj1 Hr))]. destruct Hr as (Ha & Hl & Hs & Eb). destruct selftest_batches as [B1 B2].
  destruct (capi_octa_ok am hasAES Ham 0 c (out 0%nat) selftest_1 (created_ok fresh mem c Hf Hm Hl Hs Eb) B1 (Ho _)) as (c1 & E1 & Hc1 & W1 & _).
  destruct (capi_octa_ok am hasAES Ham 1 c1 (out 1%nat) selftest_2 Hc1 B2 (Ho _)) as (c2 & E2 & _ & W2 & _).
  destruct (destroy_added _ w1 c c2 Hw' Ha (eq_trans W2 W1)) as (w2 & Ed & Ha2 & _).
  cbv zeta. change (ghostrider_capi_hash_octa (am 0%nat) hasAES c _ 80 _)
    with (ghostrider_capi_hash_octa (am 0%nat) hasAES c selftest_1.1 selftest_1.2 (out 0%nat)).
  rewrite E1. cbn [mbind option_bind].
  change (ghostrider_capi_hash_octa (am 1%nat) hasAES c1 _ 80 _)
    with (ghostrider_capi_hash_octa (am 1%nat) hasAES c1 selftest_2.1 selftest_2.2 (out 1%nat)).
  rewrite E2. cbn [mbind option_bind]. rewrite Ed. cbn [mbind option_bind].
  pose proof (first_mismatch_none _ _ (length_batch_digest selftest_1) (length_batch_digest selftest_2)) as Hn.
  destruct (first_mismatch _ _) as [i|].
  - rewrite decide_False by (intros E; apply Hn in E; discriminate E). eexists. split; [reflexivity|]. exact (added_exec _ w2 _ Ha2).
  - rewrite decide_True by (by apply Hn). eexists. split; [reflexivity|]. exact (added_exec _ w2 _ Ha2).
Qed.
Lemma gr_selftest_verdict_witness :
  exists c w1, ctx_create fresh0 sample_memory (set_error process0 EmptyString) = Some (Some c, w1) /\
  exists w2,
    @ghostrider_capi_selftest aesni_ref keygen_ref (extra_code any_stack) core_sample (fun _ _ => sample_ambient) true fresh0 sample_memory
      (fun _ => replicate 256 0) process0
    = Some (if decide (zip_with Z.lxor (@batch_digest core_sample selftest_1) (@batch_digest core_sample selftest_2)
                       = test_output_gr) then 0 else -2, w2) /\
    only_code_left process0 w2 (gr_cn c).
Proof.
  destruct (ctx_create_succeeds fresh0 sample_memory (set_error process0 EmptyString) (fun _ => eq_refl)) as (c & w1 & E).
  exists c, w1. split; [exact E|].
  exact (gr_selftest_verdict aesni_ref keygen_ref core_sample aesni_ref_laws keygen_ref_laws
    core_sample_laws any_stack (fun _ _ => sample_ambient) true fresh0 sample_memory (fun _ => replicate 256 0) process0 (Some c) w1
    any_stack_ok (fun _ _ => ambient0_ok) fresh0_ok sample_memory_length (fun _ => eq_refl) process0_wf E).
Defined.

(** ** Two things the code does not do

    The comment above the flag says that a failure is never upgraded back to
    success; the flag in fact describes the last allocation, and goes back to 1
    when a later one gets huge pages. *)
Lemma huge_pages_last w p huge w2 :
  In (g_hugePages w) [-1; 0; 1] -> alloc_scratchpads w = (p, huge, w2) -> g_hugePages w2 = if huge then 1 else 0.
Proof.
  intros Hg. unfold alloc_scratchpads, alloc. destruct (alloc_ok w (next_block w)); [by intros [= <- <- <-]|].
  cbn [g_hugePages]. destruct Hg as [Hg|[Hg|[Hg|[]]]]; rewrite <-Hg; cbn; rewrite <-?Hg; cbn;
    destruct (alloc_ok w (S (next_block w))); intros [= <- <- <-]; cbn; by rewrite <-?Hg.
Qed.
Lemma huge_pages_upgrade w : g_hugePages w = 0 -> alloc_ok w (next_block w) = true -> g_hugePages (alloc_scratchpads w).2 = 1.
Proof. intros Hg Ha. unfold alloc_scratchpads, alloc. by rewrite Ha. Qed.

(** The test [if (!c->cn[0])] comes too late: when [_mm_malloc] fails,
    [CnCtx::create] has already written through the null pointer. *)
Lemma create_null_context fresh mem w :
  alloc_ok w (next_block w) = true -> alloc_ok w (1 + next_block w) = true -> alloc_ok w (2 + next_block w) = false ->
  ctx_create fresh mem w = None.
Proof.
  intros H1 H2 H3. unfold ctx_create, alloc_scratchpads, alloc. rewrite H1. cbn [next_block alloc_ok]. cbn in H2, H3. rewrite H2.
  unfold CnCtx_create, alloc, kLanes. cbn [seq foldl mbind option_bind next_block alloc_ok set_flag]. rewrite H3.
  reflexivity.
Qed.
